(* ===== verification/_CoqProject ===== *)
-Q . S2P
Prelude.v
Errors.v
PrioFifo.v
Tasks.v
HandleQueue.v
ReadyQueue.v
Timers.v
Supervisor.v
SlotPool.v
BlockedQueue.v
Kernel.v
Scheduler.v
SchedInv.v
SchedOps.v
SchedProps.v
Interfaces.v
Semaphore.v
RecMutex.v
Futex.v
Time.v
SynchCalls.v
SynchKernel.v
TaskCalls.v
Files.v
FileSpec.v
Directories.v
FileSystem.v
DirSpec.v
FsInv.v
DirList.v
FsProps.v
UserMem.v
SysCalls.v
SysProps.v
Env.v
Continuations.v
ContInv.v
ContSpec.v
ContProps.v
ContSwitch.v
Paging.v
PagingMap.v
PagingProps.v
EventFd.v
Executor.v
PollProps.v
Memory.v
IndexAlloc.v
Virtq.v
VqSpec.v
SplitVq.v
SplitProps.v
PackedVq.v
PackedProps.v
Vsock.v
VsockProps.v
VsockQueues.v
Sockets.v
SocketProps.v
Fuse.v
VirtioFs.v
VirtioFsSpec.v
VirtioFsDirs.v
FsQueue.v
Rtl8139.v
RtlProps.v
Interrupts.v
IrqProps.v
NetChecksum.v
VirtioNet.v
NetProps.v
Gem.v
GemProps.v
Transport.v
TransportProps.v
Tls.v
RiscvPaging.v
RiscvProps.v
Console.v
Condvar.v
