(* ===== verification/Prelude.v ===== *)
(** * A verification of the Hermit kernel

    The program is a unikernel: the kernel in src/src/ is linked to one
    application, and both run in one address space.  The development follows
    its AArch64 configuration with symmetric multiprocessing, networking and
    continuations, without the common-os feature, in a release build (debug
    assertions are absent, machine integers wrap around).

    ** How the code is modelled

    Kernel code is a computation [M S A] of this file: a function from a state
    [S] that returns a value and a state or panics ([Done], [Panic]).  A panic
    is whatever stops the kernel: an [unwrap] of nothing, an index out of
    range, a failed assertion, a page fault.  Errors the code returns are the
    values [Err] of [Result].  An integer of width w is a [Z] and goes through
    [wrapu] or [wraps] where the code lets it wrap.  A reference, [Arc] or
    pointer is a key into a map of cells, so that aliases share one cell.  Code
    that runs under one lock or with interrupts off is one atomic step; code
    that several tasks, cores or a device run is a transition system over such
    steps.  Code of other crates and readings of the hardware (clocks, the free
    lists, the executor crate, the words of the boot arguments) are parameters.

    ** The parts, the files that model them, what is shown

    This file: the monad with its lemmas, integers, lists, bit masks, the
    tactics the other files share.  [Errors]: errno.rs and io.rs, the error
    numbers and the errno cell.

    Scheduling (src/src/scheduler/).  [Tasks]: the control block, handles, stack
    geometry.  [PrioFifo] is the abstract priority queue; [HandleQueue] and
    [ReadyQueue], the two queues of task/mod.rs with their bitmaps, refine it.
    [Timers] (timer_interrupts.rs): the one-shot timer is always armed for the
    earliest deadline.  [BlockedQueue]: waiting tasks stay sorted by their
    wake-up time.  [Supervisor]: the restart policy.  [SlotPool]
    (arch/aarch64/kernel/slot_pool.rs, scheduler.rs): exception slots are
    exclusive; eviction loses a frame.  [Kernel] is the state of one core,
    [Scheduler] the operations of scheduler/mod.rs; [SchedInv] states the
    placement invariant (every task is in the queue of its status), [SchedOps]
    and [SchedProps] show that each operation called in its place keeps it
    without a panic and that [scheduler] picks the highest-priority oldest task.
    The poke of the network stack (executor/network.rs: flush_nic) is part of
    it: what the poll of the interface calls is an argument, what these wakers
    do to the tasks is the code.

    Synchronisation (src/src/synch/).  [Interfaces] has two type classes: a
    queue of waiters, and the calls into the scheduler.  [Semaphore],
    [RecMutex] and [Futex] are written against them; their theorems range over
    all interleavings with the rest of the kernel (no lost wake-up, exclusion,
    exact wake counts); a task counts as woken only when the kernel's own call
    has made it so.
    [SynchKernel] makes the scheduler of [Scheduler] an instance.  [Time]
    (time.rs, syscalls/timer.rs), [SynchCalls] (syscalls/semaphore.rs,
    recmutex.rs, futex.rs, spinlock.rs) and [TaskCalls] (syscalls/tasks.rs) are
    the system calls on top.

    Files (src/src/fs/, src/src/fd/).  [Files]: the files of mem.rs over a store
    of shared contents; [FileSpec]: they refine a file that is a size and a byte
    per position.  [Directories]: the walks of MemDirectory and DevDirectory;
    [DirSpec]: calls are their action at the place a resolution without fuel
    finds, and where listing and making directories depart from it.  [FileSystem]: fs/mod.rs and the descriptor calls of fd/mod.rs over
    the type class [Descriptors]; [FsInv], [FsProps]: every call ends, keeps
    the tree well formed and loses no name but the one it removes; [DirList]: getdents lists every name once; [FsKernel]
    (in FsProps.v): the scheduler's descriptor table is an instance of [Descriptors].
    [UserMem] is the memory of the program, [SysCalls] the calls of
    syscalls/mod.rs on paths and descriptors; [SysProps]: readv and writev are
    read and write of the concatenation, up to the limit on the pieces, and what
    bad arguments do.  [Env]: env.rs, the parameters
    of main and the heap calls; boot arguments reach main unchanged.

    Waiting.  [EventFd] (fd/eventfd.rs): the counter is conserved over any
    operations; writers can be stranded.  [Executor] (executor/mod.rs: block_on;
    fd/mod.rs: poll) and [PollProps]: block_on with a timeout comes back, and a
    write wakes whoever polls.

    Continuations (arch/aarch64/kernel/continuations.rs).  [Continuations]: the
    pool of records, parking, waking, draining, escapes, the futex table.
    [ContRuns] (in ContInv.v) has an outcome lemma per operation, [ContInv] the
    invariant of the pool over all runs, [ContSpec] an abstract machine of coroutines;
    [ContProps]: every run is a run of that machine until a wake hits an escaped
    continuation, and which wakes are lost.  [ContSwitch]: the instructions of
    cont_switch, which save all registers but x9 .. x16 in their places.

    Memory.  [Paging] (arch/aarch64/mm/paging.rs): tables reached through the
    recursive entry, with the walk of the memory management unit in physical
    memory.  [PagingTree] (in PagingMap.v), [PagingMap], [PagingProps]: the software walk agrees
    with the hardware's, and map and unmap change exactly the translations they
    name.  [Memory] (mm/physicalmem.rs, virtualmem.rs, device_alloc.rs, mod.rs,
    syscalls/mman.rs): mmap, munmap and mprotect on top.

    Virtqueues (drivers/virtio/virtqueue/).  [IndexAlloc] and [Virtq]: indices,
    buffers and descriptors.  [VqSpec]: an abstract queue as a labelled
    transition system, the trait as a type class with laws, its default method
    proved from the laws.  [SplitVq], [SplitProps], [PackedVq], [PackedProps]:
    both queues are instances, with a device that reads and writes the rings in
    any order the Virtio specification allows.

    Sockets to the host.  [Vsock] (executor/vsock.rs, fd/socket/vsock.rs): the
    table of connections, the background task that handles packets, the socket
    objects, over a type class for the driver.  [VsockProps]: a connection is a
    stream of bytes in each direction over all runs in which only its peer sends
    to it and it is not dropped, the sender stays within
    the credit of its peer; what the receiver does not bound and whom it does
    not wake.  [VsockQueues] (drivers/vsock/mod.rs): the queues of the driver
    over any virtqueue; the device never runs short of receive buffers.

    Socket calls.  [Sockets] (syscalls/socket/mod.rs): the address structures
    and every call of the file, over a type class of socket objects.
    [SocketProps]: an address handed out is read back as the same endpoint,
    when and what the name calls write to the caller.

    Files of the host.  [Fuse] (fs/virtio_fs.rs, module ops): the commands of
    the FUSE protocol; sizes and constants of the protocol are a type class.
    [VirtioFs] (the rest of the file): handles, the mounted directory, set-up,
    over a type class for the driver.  [VirtioFsSpec]: the laws of a host that
    serves a file, and the refinement of a shared abstract file over all such
    hosts, with the one panic when a release is refused.  [VirtioFsDirs]: listings are complete and handles given back, and
    when they are not.  [VirtioFsLinks] (in VirtioFsDirs.v): where [stat] of a link ends.
    [FsQueue] (drivers/fs/mod.rs): a command sent over any virtqueue.

    Network cards.  [Rtl8139], [RtlProps] (drivers/net/rtl8139.rs): the driver
    over a class of registers, and its refinement of a queue of received frames
    and a wire on a card that follows its data sheet.  [Gem], [GemProps]
    (drivers/net/gem.rs): the same for the descriptor rings of the Gigabit
    Ethernet controller, with what a controller that is late, or a token that
    is dropped, does to it.  [NetChecksum] (the checksums of drivers/net/virtio/mod.rs): one's
    complement sums, and that the receiver accepts what the device completes.
    [VirtioNet] (drivers/net/virtio/mod.rs): the driver over any virtqueue, the
    packets of the network crate a class [Wire].  [NetProps]: merged frames,
    the budget of descriptors over every order of calls, and the set-up.
    [Transport] (drivers/virtio/transport/mmio.rs, drivers/virtio/mod.rs): the
    status of a device, features, queues.  [TransportProps]: the network driver
    on top of it, with split queues, brings up every device that follows the
    specification, in the order the specification demands but for the
    notifications of the receive buffers, which come too early.

    Interrupts (arch/aarch64/kernel/interrupts.rs and parts of
    core_local.rs).  [Interrupts]: the table of handlers, the dispatch of interrupts and
    exceptions, interprocessor interrupts and the controller as a class [Gic],
    over the kernel state of [Scheduler].  [IrqProps]: a timer interrupt from
    the controller to the switch, the table, nesting, and the guards.

    Thread-local storage (scheduler/task/tls.rs).  [Tls]: the segment of the
    executable, the layout of a task's block on the three architectures, and
    that variables are where generated code looks for them.

    Page tables of RISC-V (arch/riscv64/mm/paging.rs).  [RiscvPaging]: the
    tables, the walk of the Sv39 unit and the operations.  [RiscvProps]: the
    tables as a tree found in memory, [map] for the three page sizes, the heap,
    the walk of the software, and what [unmap] leaves behind.

    Console (console/, arch/aarch64/kernel/serial.rs, fd/stdio/console.rs).
    [Console]: the line buffer over a class of devices, the serial port as an
    instance, the standard streams, and that both directions are complete and
    in order.

    Condition variables (syscalls/condvar.rs).  [Condvar]: the calls as sequences
    of operations, and what every schedule of a notifier and its waiters ends in.

    ** Bounds and fuel

    Loops that are not structural carry fuel, chosen so that it never runs out,
    and the theorems say that the result is reached: the search for a free task
    identifier or descriptor (number of used ones plus one), the eviction of
    slots (slots of a core), waking futex waiters (waiters plus one; the 128
    entries of the table of continuations), path walks (objects of the store
    plus two), the four levels of page tables, chains of descriptors (size of
    the queue), C strings (mapped bytes plus one), listings of the host (bytes
    of the response plus one), taking back sent frames (size of the queue).
    [map_heap] and [block_on], the waits of the drivers for their devices and
    of the interrupt test loop as long as the machine makes them; their fuel is a parameter, and the
    theorems say for which amounts they return, or that none is enough; so is
    the number of links [stat] follows on the host.

    ** Not modelled

    The executor's background tasks (run by an external crate), boot and the
    device tree, the assembly of exception entry, memory barriers and TLB
    maintenance on aarch64, the x86_64 and riscv64 architectures (but for page
    tables of riscv64 and thread-local storage), the probing of devices
    and the PCI transport of virtio, the set-up of the socket and file system
    drivers, TCP and UDP sockets (wrappers of the network crate), the virtio
    console, the heap's set-up, self-tests, diagnostics, macros and build tooling: they
    are input/output, machine code outside of Rust, or glue around other crates. *)

(** ** Shared vocabulary

    Machine integers at their width, the execution monad, the [Result] type
    and generic lemmas on lists and bit masks that several components use. *)

From Stdlib Require Export ZArith Lia.
From stdpp Require Export base gmap strings list fin_maps option.

#[global] Open Scope Z_scope.
#[global] Arguments Nat.ltb : simpl never.
#[global] Arguments Z.shiftl : simpl never.
#[global] Arguments Z.of_nat : simpl never.
#[global] Arguments Z.to_nat : simpl never.
#[global] Arguments Z.add : simpl never.
#[global] Arguments Z.sub : simpl never.
#[global] Arguments Z.mul : simpl never.
#[global] Arguments Z.ltb : simpl never.
#[global] Arguments Z.leb : simpl never.
#[global] Arguments Z.eqb : simpl never.

(** ** Machine integers *)

(** A [w]-bit unsigned (signed) value is a [Z] in the range below; arithmetic
    that the source lets wrap goes through [wrapu]/[wraps]. *)
Definition wrapu (w z : Z) : Z := z mod 2 ^ w.
Definition wraps (w z : Z) : Z := (z + 2 ^ (w - 1)) mod 2 ^ w - 2 ^ (w - 1).

Definition u64_max : Z := 2 ^ 64 - 1.
Definition u32_max : Z := 2 ^ 32 - 1.
Definition i32_max : Z := 2 ^ 31 - 1.
Definition i64_max : Z := 2 ^ 63 - 1.
Definition i64_min : Z := - 2 ^ 63.
Definition isize_max : Z := i64_max.
Definition isize_min : Z := i64_min.

Definition in_u (w z : Z) : Prop := 0 <= z < 2 ^ w.
Definition in_s (w z : Z) : Prop := - 2 ^ (w - 1) <= z < 2 ^ (w - 1).

(** [checked_add] of Rust on [i64]/[isize] and on [u64]. *)
Definition checked_i64 (z : Z) : option Z :=
  if (i64_min <=? z) && (z <=? i64_max) then Some z else None.
Definition checked_u64 (z : Z) : option Z :=
  if (0 <=? z) && (z <=? u64_max) then Some z else None.
(** [saturating_add] on [u32]/[i32], [saturating_sub] on [u64]. *)
Definition sat_add (top a b : Z) : Z := Z.min top (a + b).
Definition sat_sub (a b : Z) : Z := Z.max 0 (a - b).

(** ** The [Result] type of fallible code *)

Inductive Result (E A : Type) : Type :=
  | Ok (a : A)
  | Err (e : E).
Arguments Ok {E A} a.
Arguments Err {E A} e.

Definition is_Ok {E A} (r : Result E A) : bool :=
  match r with Ok _ => true | Err _ => false end.

(** ** State passing with panics

    [exec S A] is the outcome of a piece of kernel code started in some state:
    it finishes with a value and a new state, or it panics (an [assert!], an
    [unwrap]/[expect] of nothing, an index out of range, [unreachable!]). *)
Inductive exec (S A : Type) : Type :=
  | Done (a : A) (s : S)
  | Panic (why : string).
Arguments Done {S A} a s.
Arguments Panic {S A} why.

Definition M (S A : Type) : Type := S -> exec S A.

Definition ret {S A} (a : A) : M S A := fun s => Done a s.
Definition bind {S A B} (m : M S A) (f : A -> M S B) : M S B :=
  fun s => match m s with Done a s' => f a s' | Panic w => Panic w end.
Definition panic {S A} (why : string) : M S A := fun _ => Panic why.
Definition get {S} : M S S := fun s => Done s s.
Definition gets {S A} (f : S -> A) : M S A := fun s => Done (f s) s.
Definition put {S} (s : S) : M S unit := fun _ => Done tt s.
Definition modify {S} (f : S -> S) : M S unit := fun s => Done tt (f s).
Definition assert_ {S} (b : bool) (why : string) : M S unit :=
  if b then ret tt else panic why.
Definition unwrap {S A} (o : option A) (why : string) : M S A :=
  match o with Some a => ret a | None => panic why end.

Declare Scope exec_scope.
Delimit Scope exec_scope with exec.
Notation "'let!' x := m 'in' k" := (bind m (fun x => k))
  (at level 200, x name, m at level 100, k at level 200,
   format "'[v' 'let!'  x  :=  m  'in' '/' k ']'") : exec_scope.
Notation "'let!' ' p := m 'in' k" := (bind m (fun x => let p := x in k))
  (at level 200, p pattern, m at level 100, k at level 200) : exec_scope.
Notation "'do!' m 'in' k" := (bind m (fun _ => k))
  (at level 200, m at level 100, k at level 200,
   format "'[v' 'do!'  m  'in' '/' k ']'") : exec_scope.
#[global] Open Scope exec_scope.

(** A run that does not panic. *)
Definition safe {S A} (e : exec S A) : Prop := exists a s, e = Done a s.

Section ExecLemmas.
Context {S A B : Type}.

Lemma bind_Done (m : M S A) (f : A -> M S B) s b s'' :
  bind m f s = Done b s'' <->
  exists a s', m s = Done a s' /\ f a s' = Done b s''.
Proof.
  unfold bind. destruct (m s) as [a s'|w]; split.
  - eauto.
  - intros (? & ? & [= <- <-] & ?); done.
  - done.
  - intros (? & ? & ? & ?); done.
Qed.

Lemma bind_run (m : M S A) (f : A -> M S B) s a s' : m s = Done a s' -> bind m f s = f a s'.
Proof. unfold bind. by intros ->. Qed.

Lemma bind_assert (b : bool) why (f : unit -> M S B) s r s' :
  bind (assert_ b why) f s = Done r s' <-> b = true /\ f tt s = Done r s'.
Proof. destruct b; cbn; unfold bind; cbn; [tauto|]. split; [|intros []]; done. Qed.
End ExecLemmas.

(** [exec_inv] takes a finished run of a monadic definition apart. *)
Ltac exec_inv :=
  repeat match goal with
  | H : bind _ _ _ = Done _ _ |- _ =>
      apply bind_Done in H; destruct H as (? & ? & ? & ?)
  | H : ret _ _ = Done _ _ |- _ => unfold ret in H; simplify_eq
  | H : get _ = Done _ _ |- _ => unfold get in H; simplify_eq
  | H : gets _ _ = Done _ _ |- _ => unfold gets in H; simplify_eq
  | H : put _ _ = Done _ _ |- _ => unfold put in H; simplify_eq
  | H : modify _ _ = Done _ _ |- _ => unfold modify in H; simplify_eq
  | H : panic _ _ = Done _ _ |- _ => discriminate H
  | H : assert_ ?b _ _ = Done _ _ |- _ =>
      let E := fresh "Eassert" in destruct b eqn:E; cbn in H; [| discriminate H]
  | H : unwrap ?o _ _ = Done _ _ |- _ =>
      let E := fresh "Eunwrap" in destruct o eqn:E; cbn in H; [| discriminate H]
  end.

(** [case_bool] splits on the boolean test of a conditional in the goal or in
    a hypothesis and turns comparisons into inequalities for [lia]. *)
Ltac bool_hyps :=
  repeat match goal with
  | H : (_ && _) = true |- _ => apply andb_prop in H; destruct H
  | H : (_ || _) = false |- _ => apply orb_false_elim in H; destruct H
  | H : negb _ = true |- _ => apply negb_true_iff in H
  | H : negb _ = false |- _ => apply negb_false_iff in H
  | H : (_ =? _) = true |- _ => apply Z.eqb_eq in H
  | H : (_ =? _) = false |- _ => apply Z.eqb_neq in H
  | H : (_ <? _) = true |- _ => apply Z.ltb_lt in H
  | H : (_ <? _) = false |- _ => apply Z.ltb_ge in H
  | H : (_ <=? _) = true |- _ => apply Z.leb_le in H
  | H : (_ <=? _) = false |- _ => apply Z.leb_gt in H
  end.

(** ** Lists *)

Section ListLemmas.
Context {A : Type}.

(** The elements of [l] split by a boolean predicate are a permutation of [l]. *)
Lemma filter_split_Permutation (f : A -> bool) (l : list A) :
  base.filter f l ++ base.filter (fun x => negb (f x)) l ≡ₚ l.
Proof.
  induction l as [|x l IH]; [done|].
  destruct (f x) eqn:E.
  - rewrite filter_cons_True by (rewrite E; done).
    rewrite filter_cons_False by (rewrite E; auto).
    simpl. by rewrite IH.
  - rewrite filter_cons_False by (rewrite E; auto).
    rewrite (filter_cons_True _ x) by (rewrite E; done).
    rewrite <- Permutation_middle. by rewrite IH.
Qed.

(** Replacing the [i]-th list of a list of lists changes the concatenation
    by exactly that list. *)
Lemma concat_insert_Permutation (ll : list (list A)) i (old new : list A) :
  ll !! i = Some old ->
  old ++ concat (<[i := new]> ll) ≡ₚ new ++ concat ll.
Proof.
  revert i. induction ll as [|l0 ll IH]; intros [|i] Hl; simplify_eq/=.
  - rewrite !app_assoc. apply Permutation_app_tail, Permutation_app_comm.
  - rewrite !app_assoc, (Permutation_app_comm old), (Permutation_app_comm new).
    rewrite <- !app_assoc. apply Permutation_app_head. by apply IH.
Qed.

Lemma elem_of_concat_lookup (ll : list (list A)) x :
  x ∈ concat ll <-> exists i l, ll !! i = Some l /\ x ∈ l.
Proof.
  rewrite list_elem_of_In, in_concat. split.
  - intros (l & Hl & Hx).
    apply list_elem_of_In, list_elem_of_lookup in Hl as [i Hi].
    exists i, l. split; [done|]. by apply list_elem_of_In.
  - intros (i & l & Hi & Hx). exists l.
    split; apply list_elem_of_In; [by eapply list_elem_of_lookup_2 | done].
Qed.
End ListLemmas.

(** ** Bit masks *)

(** [Z.testbit] of a mask with one bit set, cleared, and of the empty mask. *)
Lemma testbit_setbit m i j :
  0 <= i -> 0 <= j ->
  Z.testbit (Z.lor m (Z.shiftl 1 i)) j = Z.testbit m j || (j =? i).
Proof.
  intros Hi Hj. rewrite Z.lor_spec, Z.shiftl_1_l. f_equal.
  destruct (Z.eqb_spec j i) as [->|Hne].
  - by apply Z.pow2_bits_true.
  - by apply Z.pow2_bits_false.
Qed.

Lemma testbit_clearbit m i j :
  0 <= i -> 0 <= j ->
  Z.testbit (Z.land m (Z.lnot (Z.shiftl 1 i))) j = Z.testbit m j && negb (j =? i).
Proof.
  intros Hi Hj. rewrite Z.land_spec, Z.lnot_spec, Z.shiftl_1_l by done. do 2 f_equal.
  destruct (Z.eqb_spec j i) as [->|Hne].
  - by apply Z.pow2_bits_true.
  - by apply Z.pow2_bits_false.
Qed.

Lemma nonneg_lor_shift m i : 0 <= m -> 0 <= i -> 0 <= Z.lor m (Z.shiftl 1 i).
Proof.
  intros. rewrite Z.lor_nonneg. split; [done|]. rewrite Z.shiftl_1_l.
  apply Z.pow_nonneg. lia.
Qed.

Lemma nonneg_land_l m n : 0 <= m -> 0 <= Z.land m n.
Proof. intros. apply Z.land_nonneg. by left. Qed.

Create HintDb bits.
#[export] Hint Resolve nonneg_lor_shift nonneg_land_l : bits.
#[export] Hint Rewrite testbit_setbit testbit_clearbit using lia : bits.

(** ** Running a component's operation on a part of a larger state *)

Definition zoom {S T A} (prj : S -> T) (upd : T -> S -> S) (m : M T A) : M S A :=
  fun s => match m (prj s) with
           | Done a t => Done a (upd t s)
           | Panic why => Panic why
           end.
Arguments zoom {S T A} prj upd m : simpl never.

Lemma zoom_run {S T A} (prj : S -> T) (upd : T -> S -> S) (m : M T A) s a t' :
  m (prj s) = Done a t' -> zoom prj upd m s = Done a (upd t' s).
Proof. unfold zoom. by intros ->. Qed.

Lemma zoom_panic {S T A} (prj : S -> T) (upd : T -> S -> S) (m : M T A) s why :
  m (prj s) = Panic why -> zoom prj upd m s = Panic why.
Proof. unfold zoom. by intros ->. Qed.

Lemma wrapu_small w z : 0 <= z < 2 ^ w -> wrapu w z = z.
Proof. intros. by apply Z.mod_small. Qed.

(** Wrap-around: stepping commutes with it, and it is injective on any window
    shorter than the word. *)
Lemma wraps_step w z : 0 < w -> wraps w (wraps w z + 1) = wraps w (z + 1).
Proof.
  intros Hw. unfold wraps. f_equal.
  replace ((z + 2 ^ (w - 1)) mod 2 ^ w - 2 ^ (w - 1) + 1 + 2 ^ (w - 1))
    with ((z + 2 ^ (w - 1)) mod 2 ^ w + 1) by lia.
  rewrite Zplus_mod_idemp_l. f_equal. lia.
Qed.

Lemma wraps_inj w a b : 0 < w -> 0 <= b - a < 2 ^ w -> wraps w a = wraps w b -> a = b.
Proof.
  unfold wraps. intros Hw Hab Heq.
  assert (Hm : (a + 2 ^ (w - 1)) mod 2 ^ w = (b + 2 ^ (w - 1)) mod 2 ^ w) by lia.
  assert (Hd : (b - a) mod 2 ^ w = 0).
  { replace (b - a) with ((b + 2 ^ (w - 1)) - (a + 2 ^ (w - 1))) by lia.
    rewrite Zminus_mod, Hm, Z.sub_diag. by apply Z.mod_0_l, Z.pow_nonzero; lia. }
  rewrite Z.mod_small in Hd by lia. lia.
Qed.

Lemma wraps_small w z : 0 < w -> - 2 ^ (w - 1) <= z < 2 ^ (w - 1) -> wraps w z = z.
Proof.
  intros Hw Hz. unfold wraps. rewrite Z.mod_small; [lia|].
  assert (2 ^ w = 2 * 2 ^ (w - 1)) by (rewrite <- Z.pow_succ_r by lia; f_equal; lia). lia.
Qed.

(** Distinct keys of a map are no more than its size. *)
Lemma NoDup_keys_size {K A} `{Countable K} (m : gmap K A) (l : list K) :
  NoDup l -> (forall x, x ∈ l -> is_Some (m !! x)) -> (length l <= size m)%nat.
Proof.
  intros Hnd Hl. rewrite <- size_dom, <- (size_list_to_set (C := gset K)) by done.
  apply subseteq_size. intros x Hx. apply elem_of_dom, Hl. set_solver.
Qed.
