(* ===== verification/Errors.v ===== *)
(** Error numbers ([src/src/errno.rs]) and their conversions: the enum
    [Errno] with its [repr(i32)] codes, [TryFromPrimitive]/[IntoPrimitive],
    the [ToErrno] trait that stores the code of a failed system call in the
    thread-local [errno] cell, and the mapping to [embedded_io::ErrorKind]
    ([src/src/io.rs]). *)

From S2P Require Import Prelude.

Module Errno.

Inductive t : Set :=
    | Perm | Noent | Srch | Intr | Io | Nxio | Toobig | Noexec | Badf | Child | Again
    | Nomem | Acces | Fault | Notblk | Busy | Exist | Xdev | Nodev | Notdir | Isdir
    | Inval | Nfile | Mfile | Notty | Txtbsy | Fbig | Nospc | Spipe | Rofs | Mlink
    | Pipe | Dom | Range | Deadlk | Nametoolong | Nolck | Nosys | Notempty | Loop
    | Nomsg | Idrm | Chrng | L2nsync | L3hlt | L3rst | Lnrng | Unatch | Nocsi | L2hlt
    | Bade | Badr | Xfull | Noano | Badrqc | Badslt | Bfont | Nostr | Nodata | Time
    | Nosr | Nonet | Nopkg | Remote | Nolink | Adv | Srmnt | Comm | Proto | Multihop
    | Dotdot | Badmsg | Overflow | Notuniq | Badfd | Remchg | Libacc | Libbad | Libscn
    | Libmax | Libexec | Ilseq | Restart | Strpipe | Users | Notsock | Destaddrreq
    | Msgsize | Prototype | Noprotoopt | Protonosupport | Socktnosupport | Opnotsupp
    | Pfnosupport | Afnosupport | Addrinuse | Addrnotavail | Netdown | Netunreach
    | Netreset | Connaborted | Connreset | Nobufs | Isconn | Notconn | Shutdown
    | Toomanyrefs | Timedout | Connrefused | Hostdown | Hostunreach | Already
    | Inprogress | Stale | Uclean | Notnam | Navail | Isnam | Remoteio | Dquot
    | Nomedium | Mediumtype | Canceled | Nokey | Keyexpired | Keyrevoked | Keyrejected
    | Ownerdead | Notrecoverable | Rfkill | Hwpoison.

(** [IntoPrimitive]: the discriminant of each variant. *)
Definition into_i32 (e : t) : Z :=
  match e with
    | Perm => 1 | Noent => 2 | Srch => 3 | Intr => 4 | Io => 5 | Nxio => 6
    | Toobig => 7 | Noexec => 8 | Badf => 9 | Child => 10 | Again => 11 | Nomem => 12
    | Acces => 13 | Fault => 14 | Notblk => 15 | Busy => 16 | Exist => 17 | Xdev => 18
    | Nodev => 19 | Notdir => 20 | Isdir => 21 | Inval => 22 | Nfile => 23
    | Mfile => 24 | Notty => 25 | Txtbsy => 26 | Fbig => 27 | Nospc => 28
    | Spipe => 29 | Rofs => 30 | Mlink => 31 | Pipe => 32 | Dom => 33 | Range => 34
    | Deadlk => 35 | Nametoolong => 36 | Nolck => 37 | Nosys => 38 | Notempty => 39
    | Loop => 40 | Nomsg => 42 | Idrm => 43 | Chrng => 44 | L2nsync => 45
    | L3hlt => 46 | L3rst => 47 | Lnrng => 48 | Unatch => 49 | Nocsi => 50
    | L2hlt => 51 | Bade => 52 | Badr => 53 | Xfull => 54 | Noano => 55 | Badrqc => 56
    | Badslt => 57 | Bfont => 59 | Nostr => 60 | Nodata => 61 | Time => 62
    | Nosr => 63 | Nonet => 64 | Nopkg => 65 | Remote => 66 | Nolink => 67 | Adv => 68
    | Srmnt => 69 | Comm => 70 | Proto => 71 | Multihop => 72 | Dotdot => 73
    | Badmsg => 74 | Overflow => 75 | Notuniq => 76 | Badfd => 77 | Remchg => 78
    | Libacc => 79 | Libbad => 80 | Libscn => 81 | Libmax => 82 | Libexec => 83
    | Ilseq => 84 | Restart => 85 | Strpipe => 86 | Users => 87 | Notsock => 88
    | Destaddrreq => 89 | Msgsize => 90 | Prototype => 91 | Noprotoopt => 92
    | Protonosupport => 93 | Socktnosupport => 94 | Opnotsupp => 95
    | Pfnosupport => 96 | Afnosupport => 97 | Addrinuse => 98 | Addrnotavail => 99
    | Netdown => 100 | Netunreach => 101 | Netreset => 102 | Connaborted => 103
    | Connreset => 104 | Nobufs => 105 | Isconn => 106 | Notconn => 107
    | Shutdown => 108 | Toomanyrefs => 109 | Timedout => 110 | Connrefused => 111
    | Hostdown => 112 | Hostunreach => 113 | Already => 114 | Inprogress => 115
    | Stale => 116 | Uclean => 117 | Notnam => 118 | Navail => 119 | Isnam => 120
    | Remoteio => 121 | Dquot => 122 | Nomedium => 123 | Mediumtype => 124
    | Canceled => 125 | Nokey => 126 | Keyexpired => 127 | Keyrevoked => 128
    | Keyrejected => 129 | Ownerdead => 130 | Notrecoverable => 131 | Rfkill => 132
    | Hwpoison => 133
  end.

(** Every variant, in declaration order. *)
Definition variants : list t :=
  [
    Perm; Noent; Srch; Intr; Io; Nxio; Toobig; Noexec; Badf; Child; Again; Nomem;
    Acces; Fault; Notblk; Busy; Exist; Xdev; Nodev; Notdir; Isdir; Inval; Nfile;
    Mfile; Notty; Txtbsy; Fbig; Nospc; Spipe; Rofs; Mlink; Pipe; Dom; Range; Deadlk;
    Nametoolong; Nolck; Nosys; Notempty; Loop; Nomsg; Idrm; Chrng; L2nsync; L3hlt;
    L3rst; Lnrng; Unatch; Nocsi; L2hlt; Bade; Badr; Xfull; Noano; Badrqc; Badslt;
    Bfont; Nostr; Nodata; Time; Nosr; Nonet; Nopkg; Remote; Nolink; Adv; Srmnt; Comm;
    Proto; Multihop; Dotdot; Badmsg; Overflow; Notuniq; Badfd; Remchg; Libacc; Libbad;
    Libscn; Libmax; Libexec; Ilseq; Restart; Strpipe; Users; Notsock; Destaddrreq;
    Msgsize; Prototype; Noprotoopt; Protonosupport; Socktnosupport; Opnotsupp;
    Pfnosupport; Afnosupport; Addrinuse; Addrnotavail; Netdown; Netunreach; Netreset;
    Connaborted; Connreset; Nobufs; Isconn; Notconn; Shutdown; Toomanyrefs; Timedout;
    Connrefused; Hostdown; Hostunreach; Already; Inprogress; Stale; Uclean; Notnam;
    Navail; Isnam; Remoteio; Dquot; Nomedium; Mediumtype; Canceled; Nokey; Keyexpired;
    Keyrevoked; Keyrejected; Ownerdead; Notrecoverable; Rfkill; Hwpoison
  ].

(** [TryFromPrimitive]: the variant whose discriminant is [n], if any. *)
Definition try_from_i32 (n : Z) : option t :=
  List.find (fun e => into_i32 e =? n) variants.

(** The [#[error("...")]] text of each variant, its [Display] form. *)
Definition message (e : t) : string :=
  match e with
    | Perm => "Operation not permitted"
    | Noent => "No such file or directory"
    | Srch => "No such process"
    | Intr => "Interrupted system call"
    | Io => "I/O error"
    | Nxio => "No such device or address"
    | Toobig => "Argument list too long"
    | Noexec => "Exec format error"
    | Badf => "Bad file number"
    | Child => "No child processes"
    | Again => "Try again"
    | Nomem => "Out of memory"
    | Acces => "Permission denied"
    | Fault => "Bad address"
    | Notblk => "Block device required"
    | Busy => "Device or resource busy"
    | Exist => "File exists"
    | Xdev => "Cross-device link"
    | Nodev => "No such device"
    | Notdir => "Not a directory"
    | Isdir => "Is a directory"
    | Inval => "Invalid argument"
    | Nfile => "File table overflow"
    | Mfile => "Too many open files"
    | Notty => "Not a typewriter"
    | Txtbsy => "Text file busy"
    | Fbig => "File too large"
    | Nospc => "No space left on device"
    | Spipe => "Illegal seek"
    | Rofs => "Read-only file system"
    | Mlink => "Too many links"
    | Pipe => "Broken pipe"
    | Dom => "Math argument out of domain of func"
    | Range => "Math result not representable"
    | Deadlk => "Resource deadlock would occur"
    | Nametoolong => "File name too long"
    | Nolck => "No record locks available"
    | Nosys => "Invalid system call number"
    | Notempty => "Directory not empty"
    | Loop => "Too many symbolic links encountered"
    | Nomsg => "No message of desired type"
    | Idrm => "Identifier removed"
    | Chrng => "Channel number out of range"
    | L2nsync => "Level 2 not synchronized"
    | L3hlt => "Level 3 halted"
    | L3rst => "Level 3 reset"
    | Lnrng => "Link number out of range"
    | Unatch => "Protocol driver not attached"
    | Nocsi => "No CSI structure available"
    | L2hlt => "Level 2 halted"
    | Bade => "Invalid exchange"
    | Badr => "Invalid request descriptor"
    | Xfull => "Exchange full"
    | Noano => "No anode"
    | Badrqc => "Invalid request code"
    | Badslt => "Invalid slot"
    | Bfont => "Bad font file format"
    | Nostr => "Device not a stream"
    | Nodata => "No data available"
    | Time => "Timer expired"
    | Nosr => "Out of streams resources"
    | Nonet => "Machine is not on the network"
    | Nopkg => "Package not installed"
    | Remote => "Object is remote"
    | Nolink => "Link has been severed"
    | Adv => "Advertise error"
    | Srmnt => "Srmount error"
    | Comm => "Communication error on send"
    | Proto => "Protocol error"
    | Multihop => "Multihop attempted"
    | Dotdot => "RFS specific error"
    | Badmsg => "Not a data message"
    | Overflow => "Value too large for defined data type"
    | Notuniq => "Name not unique on network"
    | Badfd => "File descriptor in bad state"
    | Remchg => "Remote address changed"
    | Libacc => "Can not access a needed shared library"
    | Libbad => "Accessing a corrupted shared library"
    | Libscn => ".lib section in a.out corrupted"
    | Libmax => "Attempting to link in too many shared libraries"
    | Libexec => "Cannot exec a shared library directly"
    | Ilseq => "Illegal byte sequence"
    | Restart => "Interrupted system call should be restarted"
    | Strpipe => "Streams pipe error"
    | Users => "Too many users"
    | Notsock => "Socket operation on non-socket"
    | Destaddrreq => "Destination address required"
    | Msgsize => "Message too long"
    | Prototype => "Protocol wrong type for socket"
    | Noprotoopt => "Protocol not available"
    | Protonosupport => "Protocol not supported"
    | Socktnosupport => "Socket type not supported"
    | Opnotsupp => "Operation not supported on transport endpoint"
    | Pfnosupport => "Protocol family not supported"
    | Afnosupport => "Address family not supported by protocol"
    | Addrinuse => "Address already in use"
    | Addrnotavail => "Cannot assign requested address"
    | Netdown => "Network is down"
    | Netunreach => "Network is unreachable"
    | Netreset => "Network dropped connection because of reset"
    | Connaborted => "Software caused connection abort"
    | Connreset => "Connection reset by peer"
    | Nobufs => "No buffer space available"
    | Isconn => "Transport endpoint is already connected"
    | Notconn => "Transport endpoint is not connected"
    | Shutdown => "Cannot send after transport endpoint shutdown"
    | Toomanyrefs => "Too many references: cannot splice"
    | Timedout => "Connection timed out"
    | Connrefused => "Connection refused"
    | Hostdown => "Host is down"
    | Hostunreach => "No route to host"
    | Already => "Operation already in progress"
    | Inprogress => "Operation now in progress"
    | Stale => "Stale file handle"
    | Uclean => "Structure needs cleaning"
    | Notnam => "Not a XENIX named type file"
    | Navail => "No XENIX semaphores available"
    | Isnam => "Is a named type file"
    | Remoteio => "Remote I/O error"
    | Dquot => "Quota exceeded"
    | Nomedium => "No medium found"
    | Mediumtype => "Wrong medium type"
    | Canceled => "Operation Canceled"
    | Nokey => "Required key not available"
    | Keyexpired => "Key has expired"
    | Keyrevoked => "Key has been revoked"
    | Keyrejected => "Key was rejected by service"
    | Ownerdead => "Owner died"
    | Notrecoverable => "State not recoverable"
    | Rfkill => "Operation not possible due to RF-kill"
    | Hwpoison => "Memory page has hardware error"
  end.

(** ** [ToErrno]

    The result of a system call that returns an [i32], an [i64]/[isize] or an
    [Errno] itself.  The [i64] version converts [-self] to [i32] and unwraps:
    a result below [-i32::MAX - 1] panics. *)
Definition to_errno_i32 (v : Z) : option Z :=
  if v <? 0 then Some (wraps 32 (- v)) else None.

Definition to_errno_i64 (v : Z) : M Z (option Z) :=
  if v <? 0 then
    let n := wraps 64 (- v) in
    do! assert_ ((- 2 ^ 31 <=? n) && (n <=? i32_max)) "called `Result::unwrap()` on an `Err` value" in
    ret (Some n)
  else ret None.

Definition to_errno_errno (e : t) : option Z := Some (into_i32 e).

(** [set_errno]: the state is the thread-local cell [sys_errno_location()]
    points to; the value itself is handed back unchanged. *)
Definition set_errno (errno : option Z) : M Z unit :=
  match errno with
  | Some e => put e
  | None => ret tt
  end.

Definition set_errno_i32 (v : Z) : M Z Z :=
  do! set_errno (to_errno_i32 v) in ret v.

Definition set_errno_i64 (v : Z) : M Z Z :=
  let! e := to_errno_i64 v in
  do! set_errno e in ret v.

(** ** [From<Errno> for ErrorKind] *)
Inductive ErrorKind : Set :=
  | NotFound | PermissionDenied | ConnectionRefused | ConnectionReset
  | ConnectionAborted | NotConnected | AddrInUse | AddrNotAvailable
  | BrokenPipe | AlreadyExists | InvalidInput | TimedOut | Interrupted
  | Unsupported | OutOfMemory | Other.

Definition kind (e : t) : ErrorKind :=
  match e with
  | Noent => NotFound
  | Acces | Perm => PermissionDenied
  | Connrefused => ConnectionRefused
  | Connreset => ConnectionReset
  | Connaborted => ConnectionAborted
  | Notconn => NotConnected
  | Addrinuse => AddrInUse
  | Addrnotavail => AddrNotAvailable
  | Pipe => BrokenPipe
  | Exist => AlreadyExists
  | Inval => InvalidInput
  | Timedout => TimedOut
  | Intr => Interrupted
  | Opnotsupp => Unsupported
  | Nomem => OutOfMemory
  | _ => Other
  end.

(** ** Lemmas *)

Lemma try_from_into e : try_from_i32 (into_i32 e) = Some e.
Proof. by destruct e. Qed.

Lemma try_from_Some n e : try_from_i32 n = Some e -> into_i32 e = n.
Proof. intros [_ H]%find_some. by apply Z.eqb_eq. Qed.

#[global] Instance into_i32_inj : Inj (=) (=) into_i32.
Proof. intros a b H. apply (inj Some). by rewrite <- !try_from_into, H. Qed.

#[global] Instance t_eq_dec : EqDecision t :=
  fun a b => match decide (into_i32 a = into_i32 b) with
             | left H => left (into_i32_inj _ _ H)
             | right H => right (fun E => H (f_equal into_i32 E))
             end.

Lemma into_range e : 1 <= into_i32 e <= 133.
Proof. destruct e; cbn; lia. Qed.

Lemma to_errno_neg_into e : to_errno_i32 (- into_i32 e) = Some (into_i32 e).
Proof.
  pose proof (into_range e). unfold to_errno_i32.
  rewrite (proj2 (Z.ltb_lt _ _)) by lia. f_equal. unfold wraps.
  rewrite Z.opp_involutive. change (2 ^ (32 - 1)) with 2147483648.
  change (2 ^ 32) with 4294967296. rewrite Z.mod_small by lia. lia.
Qed.

(** ** Properties *)

(** the numeric codes are a faithful encoding of the error enum: decoding
    the code of any variant gives that variant back, decoding [n] can only
    give a variant whose code is [n], and a system call that returns the
    negated code of a variant stores exactly that code in [errno] and hands
    the negative result on, while a non-negative result leaves [errno] alone. *)
Theorem errno_roundtrip :
  (forall e, try_from_i32 (into_i32 e) = Some e) /\
  (forall n e, try_from_i32 n = Some e -> into_i32 e = n) /\
  (forall e cell, set_errno_i32 (- into_i32 e) cell = Done (- into_i32 e) (into_i32 e)) /\
  (forall v cell, 0 <= v -> set_errno_i32 v cell = Done v cell).
Proof.
  split_and!.
  - apply try_from_into.
  - apply try_from_Some.
  - intros e cell. unfold set_errno_i32. by rewrite to_errno_neg_into.
  - intros v cell Hv. unfold set_errno_i32, to_errno_i32.
    by rewrite (proj2 (Z.ltb_ge _ _)) by lia.
Qed.

End Errno.

Abbreviation io_result A := (Result Errno.t A).

(** [-i32::from(Errno::X)], the error return of a system call. *)
Definition neg_errno (e : Errno.t) : Z := - Errno.into_i32 e.
