(* ===== verification/PrioFifo.v ===== *)
(** The abstract specification that both priority queues of the scheduler
    implement: one FIFO per priority, and [pop] takes the oldest element of
    the highest priority that has any.  The concrete queues
    ([TaskHandlePriorityQueue], [PriorityTaskQueue]) add a 64-bit bitmap with
    one bit per non-empty priority; [bitmap_ok] ties the two together and
    [msb_top] is the reason the bitmap makes [pop] constant time. *)

From S2P Require Import Prelude.

(** [u64::leading_zeros] and [msb] of [src/src/scheduler/task/mod.rs]. *)
Definition leading_zeros64 (n : Z) : Z := if n =? 0 then 64 else 63 - Z.log2 n.
Definition msb (n : Z) : option Z :=
  if n =? 0 then None else Some (64 - 1 - leading_zeros64 n).

Section PrioFifo.
Context {A : Type}.
Implicit Types (ll : list (list A)) (m : Z).

Definition nonempty_at ll (i : nat) : bool :=
  match ll !! i with Some (_ :: _) => true | _ => false end.

(** The highest priority with a waiting element. *)
Fixpoint top ll : option nat :=
  match ll with
  | [] => None
  | l :: rest =>
      match top rest with
      | Some i => Some (S i)
      | None => match l with [] => None | _ => Some 0%nat end
      end
  end.

Definition fifo_push ll (i : nat) (x : A) : list (list A) :=
  match ll !! i with Some l => <[i := l ++ [x]]> ll | None => ll end.

Definition fifo_pop ll : option (A * list (list A)) :=
  match top ll with
  | Some i =>
      match ll !! i with
      | Some (x :: l) => Some (x, <[i := l]> ll)
      | _ => None
      end
  | None => None
  end.

(** The bitmap agrees with the queues: bit [i] is set exactly when queue [i]
    holds an element. *)
Definition bitmap_ok m ll : Prop :=
  0 <= m /\ forall i : nat, Z.testbit m (Z.of_nat i) = nonempty_at ll i.

Lemma top_None ll : top ll = None <-> forall i, nonempty_at ll i = false.
Proof.
  unfold nonempty_at. induction ll as [|l ll IH]; simpl; [done|].
  destruct (top ll) as [k|].
  - split; [done|]. intros H. exfalso.
    by assert (Some k = None) by (apply IH; intros i; apply (H (S i))).
  - destruct l; split; try done.
    + intros _ [|i]; [done|]. by apply IH.
    + intros H. by specialize (H 0%nat).
Qed.

Lemma top_spec ll i :
  top ll = Some i <->
  nonempty_at ll i = true /\ forall j, (i < j)%nat -> nonempty_at ll j = false.
Proof.
  revert i. induction ll as [|l ll IH]; intros i; simpl.
  { split; [done|]. intros [H _]. by destruct i. }
  destruct (top ll) as [k|] eqn:E.
  - destruct (proj1 (IH k) eq_refl) as [Hk Habove]. split.
    + intros [= <-]. split; [done|]. intros [|j] Hj; [lia|]. apply Habove. lia.
    + intros [Hi Hj]. destruct (lt_eq_lt_dec i (S k)) as [[Hlt| ->]|Hgt]; [|done|].
      * specialize (Hj (S k) Hlt). change (nonempty_at ll k = false) in Hj. by rewrite Hj in Hk.
      * destruct i as [|i]; [lia|]. change (nonempty_at ll i = true) in Hi.
        by rewrite Habove in Hi by lia.
  - pose proof (proj1 (top_None ll) E) as Hnone.
    destruct l as [|x l]; split; try done.
    + intros [Hi _]. destruct i as [|i]; [done|].
      by pose proof (Hnone i); change (nonempty_at ll i = true) in Hi; congruence.
    + intros [= <-]. split; [done|]. intros [|j] Hj; [lia|]. apply Hnone.
    + intros [Hi _]. destruct i as [|i]; [done|].
      by pose proof (Hnone i); change (nonempty_at ll i = true) in Hi; congruence.
Qed.

Lemma nonempty_at_insert ll i l j :
  (i < length ll)%nat ->
  nonempty_at (<[i := l]> ll) j =
  if decide (i = j) then match l with [] => false | _ => true end else nonempty_at ll j.
Proof.
  intros Hi. unfold nonempty_at. case_decide as Hij.
  - subst. rewrite list_lookup_insert_eq by done. by destruct l.
  - by rewrite list_lookup_insert_ne.
Qed.

(** ** The bitmap finds the highest priority *)

Lemma msb_spec m i :
  0 <= m -> msb m = Some i ->
  Z.testbit m i = true /\ 0 <= i /\ forall j, i < j -> Z.testbit m j = false.
Proof.
  unfold msb, leading_zeros64. intros Hm. destruct (Z.eqb_spec m 0); [done|].
  intros [= <-]. replace (64 - 1 - (63 - Z.log2 m)) with (Z.log2 m) by lia.
  split_and!.
  - apply Z.bit_log2. lia.
  - apply Z.log2_nonneg.
  - intros j Hj. apply Z.bits_above_log2; lia.
Qed.

Lemma msb_top m ll : bitmap_ok m ll -> msb m = Z.of_nat <$> top ll.
Proof.
  intros [Hm Hbits]. destruct (top ll) as [i|] eqn:E; simpl.
  - apply top_spec in E as [Hi Habove]. rewrite <- Hbits in Hi.
    destruct (msb m) as [k|] eqn:Ek.
    + apply msb_spec in Ek as (Hk & Hk0 & Hkab); [|done]. f_equal.
      destruct (Z.lt_trichotomy k (Z.of_nat i)) as [Hlt|[->|Hgt]]; [|done|].
      * by rewrite Hkab in Hi.
      * rewrite <- (Z2Nat.id k), Hbits, Habove in Hk by lia. done.
    + unfold msb in Ek. destruct (Z.eqb_spec m 0) as [->|]; [|done].
      by rewrite Z.bits_0 in Hi.
  - rewrite top_None in E. unfold msb. destruct (Z.eqb_spec m 0) as [->|Hne]; [done|].
    exfalso. pose proof (Z.bit_log2 m ltac:(lia)) as Hb.
    rewrite <- (Z2Nat.id (Z.log2 m)), Hbits, E in Hb by apply Z.log2_nonneg. done.
Qed.

Lemma bitmap_ok_zero m ll :
  bitmap_ok m ll -> (m =? 0) = match top ll with None => true | _ => false end.
Proof.
  intros H. pose proof (msb_top _ _ H) as Hm. unfold msb in Hm.
  destruct (m =? 0), (top ll); done.
Qed.

(** Appending to queue [i] and setting bit [i] keeps the bitmap in step. *)
Lemma bitmap_ok_push m ll (i : nat) x :
  (i < length ll)%nat -> bitmap_ok m ll ->
  bitmap_ok (Z.lor m (Z.shiftl 1 (Z.of_nat i))) (fifo_push ll i x).
Proof.
  intros Hi [Hm Hbits]. split; [auto with bits lia|]. intros j.
  rewrite testbit_setbit, Hbits by lia.
  pose proof (lookup_lt_is_Some_2 _ _ Hi) as [l Hl].
  unfold fifo_push. rewrite Hl, nonempty_at_insert by done. case_decide.
  - subst. rewrite Z.eqb_refl, orb_true_r. by destruct l.
  - rewrite (proj2 (Z.eqb_neq _ _)) by lia. apply orb_false_r.
Qed.

(** Replacing queue [i], which was not empty, by [l] and clearing bit [i]
    when [l] is empty keeps the bitmap in step. *)
Lemma bitmap_ok_set m ll (i : nat) l :
  (i < length ll)%nat -> bitmap_ok m ll ->
  (l <> [] -> nonempty_at ll i = true) ->
  bitmap_ok
    (match l with [] => Z.land m (Z.lnot (Z.shiftl 1 (Z.of_nat i))) | _ => m end)
    (<[i := l]> ll).
Proof.
  intros Hi [Hm Hbits] Hne. split; [destruct l; auto with bits|]. intros j.
  rewrite nonempty_at_insert by done. destruct l as [|x l].
  - rewrite testbit_clearbit, Hbits by lia. case_decide.
    + subst. by rewrite Z.eqb_refl, andb_false_r.
    + rewrite (proj2 (Z.eqb_neq _ _)) by lia. apply andb_true_r.
  - rewrite Hbits. case_decide; [|done]. subst. by apply Hne.
Qed.

(** ** What [fifo_pop] returns *)

(** [fifo_pop] takes the oldest element of the highest non-empty priority
    and leaves every other queue as it was. *)
Lemma fifo_pop_Some ll x ll' :
  fifo_pop ll = Some (x, ll') ->
  exists i l, ll !! i = Some (x :: l) /\ ll' = <[i := l]> ll /\ top ll = Some i /\
    forall j, (i < j)%nat -> nonempty_at ll j = false.
Proof.
  unfold fifo_pop. destruct (top ll) as [i|] eqn:E; [|done].
  pose proof (proj1 (top_spec _ _) E) as [_ Habove].
  destruct (ll !! i) as [[|y l]|] eqn:El; try done. intros [= -> <-]. eauto 10.
Qed.

Lemma fifo_pop_None ll : fifo_pop ll = None <-> forall i, nonempty_at ll i = false.
Proof.
  rewrite <- top_None. unfold fifo_pop. destruct (top ll) as [i|] eqn:E; [|done].
  apply top_spec in E as [Hi _]. unfold nonempty_at in Hi.
  by destruct (ll !! i) as [[|? ?]|].
Qed.

Lemma fifo_push_Permutation ll i x :
  (i < length ll)%nat -> concat (fifo_push ll i x) ≡ₚ x :: concat ll.
Proof.
  intros [l Hl]%lookup_lt_is_Some_2. unfold fifo_push. rewrite Hl.
  apply (Permutation_app_inv_l l).
  rewrite concat_insert_Permutation by done.
  by rewrite <- app_assoc.
Qed.

Lemma fifo_pop_Permutation ll x ll' :
  fifo_pop ll = Some (x, ll') -> concat ll ≡ₚ x :: concat ll'.
Proof.
  intros (i & l & Hl & -> & _)%fifo_pop_Some.
  apply (Permutation_app_inv_l l).
  rewrite <- (concat_insert_Permutation ll i (x :: l) l) by done.
  by rewrite <- Permutation_middle.
Qed.
End PrioFifo.

Create HintDb prio.
#[export] Hint Resolve bitmap_ok_push bitmap_ok_set : prio.
