(* ===== verification/Tasks.v ===== *)
(** Data types of tasks: identifiers, priorities and handles, the task control
    block, and the stack geometry it refers to.
    Source: [src/src/scheduler/task/mod.rs] (TaskStatus, TaskId, Priority,
    TaskHandle, FrameLocation, Task, Task::new), [src/src/config.rs],
    [src/src/scheduler/supervisor.rs] (EntryPointId) and
    [src/src/arch/aarch64/kernel/scheduler.rs] (TaskStacks).
    The configuration modelled throughout is the default one on aarch64:
    [smp] on, [common-os] off. *)

From S2P Require Import Prelude.

(** ** Constants of [config.rs] *)
Definition KERNEL_STACK_SIZE : Z := 0x8000.
Definition DEFAULT_STACK_SIZE : Z := 0x20000.
Definition ARCH_STATE_SIZE : Z := 288.
Definition EXCEPTION_SLOT_SIZE : Z := 0x10000.
Definition SLOTS_PER_CORE : nat := 3.
Definition EXCEPTION_SLOT_GUARD : Z := 4096.
Definition BasePageSize : Z := 4096.

(** ** Enumerations *)
Inductive TaskStatus : Set := Invalid | Ready | Running | Blocked | Finished | Idle.
Inductive FrameLocation : Set := InSlot | BeingEvicted | Evicted.

Module EntryPointId.
Inductive t : Set := Idle | AppTask.
End EntryPointId.
Notation EntryPointId := EntryPointId.t (only parsing).

#[global] Instance TaskStatus_eq_dec : EqDecision TaskStatus.
Proof. solve_decision. Defined.
#[global] Instance FrameLocation_eq_dec : EqDecision FrameLocation.
Proof. solve_decision. Defined.
#[global] Instance EntryPointId_eq_dec : EqDecision EntryPointId.
Proof. solve_decision. Defined.

(** ** Priorities *)
Definition HIGH_PRIO : Z := 3.
Definition NORMAL_PRIO : Z := 2.
Definition LOW_PRIO : Z := 1.
Definition IDLE_PRIO : Z := 0.
Definition NO_PRIORITIES : nat := 31.

(** ** Handles

    A handle names a task by identifier; two handles are equal when their
    identifiers are, whatever priority or core they carry. *)
Module TaskHandle.
Record t : Set := new { get_id : Z; get_priority : Z; get_core_id : Z }.

#[global] Instance t_eq_dec : EqDecision t.
Proof. solve_decision. Defined.

Definition eqb (a b : t) : bool := a.(get_id) =? b.(get_id).
Definition cmp (a b : t) : comparison := Z.compare a.(get_id) b.(get_id).
End TaskHandle.

(** ** Stacks of a task ([enum TaskStacks]) *)
Module TaskStacks.
Inductive t : Set :=
  | Boot (stack : Z)
  | Common (virt_addr phys_addr total_size : Z).

Definition MARKER_SIZE : Z := 0x10.

(** [align_up] to a power-of-two page size. *)
Definition align_up (size align : Z) : Z := (size + align - 1) / align * align.

(** The size [TaskStacks::new] gives the user stack. *)
Definition user_stack_size (size : Z) : Z :=
  if size <? KERNEL_STACK_SIZE then KERNEL_STACK_SIZE else align_up size BasePageSize.

(** [TaskStacks::new]: the page range and the frame range come from the
    allocators [PageAlloc]/[FrameAlloc]; their start addresses are arguments. *)
Definition new (size page_start frame_start : Z) : t :=
  Common page_start frame_start (user_stack_size size + DEFAULT_STACK_SIZE).

Definition get_user_stack_size (s : t) : Z :=
  match s with
  | Boot _ => 0
  | Common _ _ total_size => total_size - DEFAULT_STACK_SIZE
  end.

Definition get_user_stack (s : t) : Z :=
  match s with
  | Boot _ => 0
  | Common virt_addr _ _ => virt_addr + DEFAULT_STACK_SIZE + 2 * BasePageSize
  end.

Definition get_kernel_stack (s : t) : Z :=
  match s with
  | Boot stack => stack
  | Common virt_addr _ _ => virt_addr + BasePageSize
  end.

Definition get_kernel_stack_size (s : t) : Z :=
  match s with
  | Boot _ => KERNEL_STACK_SIZE
  | Common _ _ _ => DEFAULT_STACK_SIZE
  end.
End TaskStacks.

Lemma align_up_ge size align : 0 < align -> size <= TaskStacks.align_up size align.
Proof.
  intros. unfold TaskStacks.align_up.
  pose proof (Z.div_mod (size + align - 1) align ltac:(lia)).
  pose proof (Z.mod_pos_bound (size + align - 1) align ltac:(lia)). lia.
Qed.

(** A user stack is at least as large as asked for. *)
Lemma user_stack_size_ge size : Z.max size KERNEL_STACK_SIZE <= TaskStacks.user_stack_size size.
Proof.
  unfold TaskStacks.user_stack_size. destruct (Z.ltb_spec size KERNEL_STACK_SIZE); [lia|].
  pose proof (align_up_ge size BasePageSize ltac:(done)). lia.
Qed.

(** ** The task control block *)

(** [Rc<RefCell<Task>>]: a reference-counted cell, named by its address. *)
Notation tref := nat (only parsing).

Module Task.
Record t : Type := mk {
  id : Z; (** The ID of this context *)
  status : TaskStatus; (** ready, running, blocked, ... *)
  prio : Z; (** [Priority(u8)] *)
  last_stack_pointer : Z; (** address of the saved [State] frame *)
  user_stack_pointer : Z; (** last stack pointer on the user stack *)
  last_fpu_state : Z; (** saved FPU registers (opaque contents) *)
  core_id : Z; (** core this task runs on *)
  stacks : TaskStacks.t; (** stack of the task *)
  frame_location : FrameLocation; (** where the [State] frame lives *)
  slot : option nat; (** scratch slot index while [InSlot] *)
  wake_pending : bool; (** wake deferred while [BeingEvicted] *)
  last_touch : Z; (** time of the last dispatch, a [Duration] in microseconds *)
  object_map : gmap Z Z; (** file descriptor -> open file description ([Arc<RwLock<Fd>>]) *)
  entry : Z; (** original entry point (code address) *)
  entry_arg : Z; (** original entry argument *)
  entry_point_id : EntryPointId; (** restart-table index *)
  tls : option Z; (** thread pointer of the task's TLS block *)
}.

Definition set_status (x : TaskStatus) (self : t) : t :=
  mk self.(id) x self.(prio) self.(last_stack_pointer) self.(user_stack_pointer)
    self.(last_fpu_state) self.(core_id) self.(stacks) self.(frame_location) self.(slot)
    self.(wake_pending) self.(last_touch) self.(object_map) self.(entry)
    self.(entry_arg) self.(entry_point_id) self.(tls).
Definition set_prio (x : Z) (self : t) : t :=
  mk self.(id) self.(status) x self.(last_stack_pointer) self.(user_stack_pointer)
    self.(last_fpu_state) self.(core_id) self.(stacks) self.(frame_location) self.(slot)
    self.(wake_pending) self.(last_touch) self.(object_map) self.(entry)
    self.(entry_arg) self.(entry_point_id) self.(tls).
Definition set_last_stack_pointer (x : Z) (self : t) : t :=
  mk self.(id) self.(status) self.(prio) x self.(user_stack_pointer)
    self.(last_fpu_state) self.(core_id) self.(stacks) self.(frame_location) self.(slot)
    self.(wake_pending) self.(last_touch) self.(object_map) self.(entry)
    self.(entry_arg) self.(entry_point_id) self.(tls).
Definition set_user_stack_pointer (x : Z) (self : t) : t :=
  mk self.(id) self.(status) self.(prio) self.(last_stack_pointer) x
    self.(last_fpu_state) self.(core_id) self.(stacks) self.(frame_location) self.(slot)
    self.(wake_pending) self.(last_touch) self.(object_map) self.(entry)
    self.(entry_arg) self.(entry_point_id) self.(tls).
Definition set_last_fpu_state (x : Z) (self : t) : t :=
  mk self.(id) self.(status) self.(prio) self.(last_stack_pointer)
    self.(user_stack_pointer) x self.(core_id) self.(stacks) self.(frame_location)
    self.(slot) self.(wake_pending) self.(last_touch) self.(object_map) self.(entry)
    self.(entry_arg) self.(entry_point_id) self.(tls).
Definition set_frame_location (x : FrameLocation) (self : t) : t :=
  mk self.(id) self.(status) self.(prio) self.(last_stack_pointer)
    self.(user_stack_pointer) self.(last_fpu_state) self.(core_id) self.(stacks) x
    self.(slot) self.(wake_pending) self.(last_touch) self.(object_map) self.(entry)
    self.(entry_arg) self.(entry_point_id) self.(tls).
Definition set_slot (x : option nat) (self : t) : t :=
  mk self.(id) self.(status) self.(prio) self.(last_stack_pointer)
    self.(user_stack_pointer) self.(last_fpu_state) self.(core_id) self.(stacks)
    self.(frame_location) x self.(wake_pending) self.(last_touch) self.(object_map)
    self.(entry) self.(entry_arg) self.(entry_point_id) self.(tls).
Definition set_wake_pending (x : bool) (self : t) : t :=
  mk self.(id) self.(status) self.(prio) self.(last_stack_pointer)
    self.(user_stack_pointer) self.(last_fpu_state) self.(core_id) self.(stacks)
    self.(frame_location) self.(slot) x self.(last_touch) self.(object_map) self.(entry)
    self.(entry_arg) self.(entry_point_id) self.(tls).
Definition set_last_touch (x : Z) (self : t) : t :=
  mk self.(id) self.(status) self.(prio) self.(last_stack_pointer)
    self.(user_stack_pointer) self.(last_fpu_state) self.(core_id) self.(stacks)
    self.(frame_location) self.(slot) self.(wake_pending) x self.(object_map)
    self.(entry) self.(entry_arg) self.(entry_point_id) self.(tls).
Definition set_object_map (x : gmap Z Z) (self : t) : t :=
  mk self.(id) self.(status) self.(prio) self.(last_stack_pointer)
    self.(user_stack_pointer) self.(last_fpu_state) self.(core_id) self.(stacks)
    self.(frame_location) self.(slot) self.(wake_pending) self.(last_touch) x
    self.(entry) self.(entry_arg) self.(entry_point_id) self.(tls).
Definition set_entry (x : Z) (self : t) : t :=
  mk self.(id) self.(status) self.(prio) self.(last_stack_pointer)
    self.(user_stack_pointer) self.(last_fpu_state) self.(core_id) self.(stacks)
    self.(frame_location) self.(slot) self.(wake_pending) self.(last_touch)
    self.(object_map) x self.(entry_arg) self.(entry_point_id) self.(tls).
Definition set_entry_arg (x : Z) (self : t) : t :=
  mk self.(id) self.(status) self.(prio) self.(last_stack_pointer)
    self.(user_stack_pointer) self.(last_fpu_state) self.(core_id) self.(stacks)
    self.(frame_location) self.(slot) self.(wake_pending) self.(last_touch)
    self.(object_map) self.(entry) x self.(entry_point_id) self.(tls).
Definition set_entry_point_id (x : EntryPointId) (self : t) : t :=
  mk self.(id) self.(status) self.(prio) self.(last_stack_pointer)
    self.(user_stack_pointer) self.(last_fpu_state) self.(core_id) self.(stacks)
    self.(frame_location) self.(slot) self.(wake_pending) self.(last_touch)
    self.(object_map) self.(entry) self.(entry_arg) x self.(tls).
Definition set_tls (x : option Z) (self : t) : t :=
  mk self.(id) self.(status) self.(prio) self.(last_stack_pointer)
    self.(user_stack_pointer) self.(last_fpu_state) self.(core_id) self.(stacks)
    self.(frame_location) self.(slot) self.(wake_pending) self.(last_touch)
    self.(object_map) self.(entry) self.(entry_arg) self.(entry_point_id) x.

(** [Task::new].  The descriptor table of a fresh task holds the standard
    streams; [stdio] is the table [stdio::setup] fills in. *)
Definition default_placeholder_entry : Z := -1.

Definition new (stdio : gmap Z Z) (tid core_id : Z) (task_status : TaskStatus)
    (task_prio : Z) (stacks : TaskStacks.t) : t :=
  {| id := tid; status := task_status; prio := task_prio;
     last_stack_pointer := 0; user_stack_pointer := 0; last_fpu_state := 0;
     core_id := core_id; stacks := stacks;
     frame_location := InSlot; slot := None; wake_pending := false; last_touch := 0;
     object_map := stdio;
     entry := default_placeholder_entry; entry_arg := 0;
     entry_point_id := EntryPointId.Idle; tls := None |}.

(** The handle of a task ([get_current_task_handle]). *)
Definition handle (self : t) : TaskHandle.t :=
  TaskHandle.new self.(id) self.(prio) self.(core_id).
End Task.

(** The cells of all live tasks. *)
Abbreviation task_heap := (gmap tref Task.t).
