(* ===== verification/HandleQueue.v ===== *)
(** [TaskHandlePriorityQueue] and the pool of priority bitmaps it draws from
    ([src/src/scheduler/task/mod.rs]).  Semaphores, recursive mutexes and the
    futex parking lot park their waiters in this queue.

    The bitmap of a queue is not stored in the queue: it is a cell of the
    static array [BITMAP_POOL], named by [prio_bitmap_id], and the identifier
    0 means "not allocated yet".  The pool is therefore the state of the
    monad, and the queue is a value that every operation hands back. *)

From S2P Require Import Prelude PrioFifo Tasks.

Definition MAX_BITMAP_POOL : nat := 256.

(** [BITMAP_POOL] and [NEXT_BITMAP_ID]. *)
Record Pool : Type := mkPool {
  BITMAP_POOL : list Z;
  NEXT_BITMAP_ID : nat;
}.

Definition pool_init : Pool :=
  {| BITMAP_POOL := replicate MAX_BITMAP_POOL 0; NEXT_BITMAP_ID := 0 |}.

Module HandleQueue.

Record t : Type := mk {
  queues : list (option (list TaskHandle.t));
  prio_bitmap_id : nat;
}.

(** [fetch_add], then the [assert!]. *)
Definition alloc_bitmap_id : M Pool nat :=
  let! p := get in
  let id := NEXT_BITMAP_ID p in
  do! put {| BITMAP_POOL := BITMAP_POOL p; NEXT_BITMAP_ID := S id |} in
  do! assert_ (id <? MAX_BITMAP_POOL)%nat "exceeded MAX_BITMAP_POOL" in
  ret id.

(** Reading and writing [*bitmap_ptr(id)]; the array access is bounds-checked. *)
Definition read_bitmap (id : nat) : M Pool Z :=
  let! p := get in
  unwrap (BITMAP_POOL p !! id) "index out of bounds".

Definition write_bitmap (id : nat) (v : Z) : M Pool unit :=
  let! p := get in
  do! assert_ (id <? length (BITMAP_POOL p))%nat "index out of bounds" in
  put {| BITMAP_POOL := <[id := v]> (BITMAP_POOL p); NEXT_BITMAP_ID := NEXT_BITMAP_ID p |}.

Definition new : t := {| queues := replicate NO_PRIORITIES None; prio_bitmap_id := 0 |}.

(** [ensure_bitmap]: the identifier is a [Cell], so even the [&self] methods
    may change the queue; the new queue is returned beside the identifier. *)
Definition ensure_bitmap (self : t) : M Pool (nat * t) :=
  let id := prio_bitmap_id self in
  if (id =? 0)%nat then
    let! new_id := alloc_bitmap_id in
    ret (new_id, {| queues := queues self; prio_bitmap_id := new_id |})
  else ret (id, self).

Definition bitmap (self : t) : M Pool (Z * t) :=
  let! '(id, self) := ensure_bitmap self in
  let! v := read_bitmap id in
  ret (v, self).

Definition is_empty (self : t) : M Pool (bool * t) :=
  let! '(v, self) := bitmap self in
  ret (v =? 0, self).

(** [self.queues[task.priority.into() as usize]], bounds-checked. *)
Definition queue_at (self : t) (i : nat) : M Pool (option (list TaskHandle.t)) :=
  unwrap (queues self !! i) "index out of bounds".

Definition contains (self : t) (task : TaskHandle.t) : M Pool bool :=
  let! o := queue_at self (Z.to_nat (TaskHandle.get_priority task)) in
  match o with
  | Some queue =>
      ret (existsb (fun queued => TaskHandle.get_id queued =? TaskHandle.get_id task) queue)
  | None => ret false
  end.

Definition set_queue (self : t) (i : nat) (queue : list TaskHandle.t) : t :=
  {| queues := <[i := Some queue]> (queues self); prio_bitmap_id := prio_bitmap_id self |}.

Definition push (self : t) (task : TaskHandle.t) : M Pool t :=
  let i := Z.to_nat (TaskHandle.get_priority task) in
  let! '(id, self) := ensure_bitmap self in
  let! m := read_bitmap id in
  do! write_bitmap id (Z.lor m (Z.shiftl 1 (Z.of_nat i))) in
  let! o := queue_at self i in
  match o with
  | Some queue => ret (set_queue self i (queue ++ [task]))
  | None => ret (set_queue self i [task])
  end.

(** [**self.bitmap_mut() &= !(1 << queue_index)] *)
Definition clear_bit (self : t) (queue_index : nat) : M Pool t :=
  let! '(id, self) := ensure_bitmap self in
  let! m := read_bitmap id in
  do! write_bitmap id (Z.land m (Z.lnot (Z.shiftl 1 (Z.of_nat queue_index)))) in
  ret self.

Definition pop_from_queue (self : t) (queue_index : nat) : M Pool (option TaskHandle.t * t) :=
  let! o := queue_at self queue_index in
  match o with
  | None => ret (None, self)
  | Some queue =>
      let '(task, queue) :=
        match queue with [] => (None, []) | x :: rest => (Some x, rest) end in
      let self := set_queue self queue_index queue in
      match queue with
      | [] => let! self := clear_bit self queue_index in ret (task, self)
      | _ => ret (task, self)
      end
  end.

Definition pop (self : t) : M Pool (option TaskHandle.t * t) :=
  let! '(v, self) := bitmap self in
  match msb v with
  | None => ret (None, self)
  | Some i => pop_from_queue self (Z.to_nat i)
  end.

(** The [while i != queue.len()] loop of [remove]: every iteration removes an
    element or advances [i], so [queue.len()] iterations are enough. *)
Fixpoint remove_loop (fuel : nat) (id : Z) (i : nat) (queue : list TaskHandle.t)
    (success : bool) : list TaskHandle.t * bool :=
  match fuel with
  | O => (queue, success)
  | S fuel =>
      match queue !! i with
      | None => (queue, success)
      | Some h =>
          if TaskHandle.get_id h =? id
          then remove_loop fuel id i (delete i queue) true
          else remove_loop fuel id (S i) queue success
      end
  end.

Definition remove (self : t) (task : TaskHandle.t) : M Pool (bool * t) :=
  let queue_index := Z.to_nat (TaskHandle.get_priority task) in
  let! o := queue_at self queue_index in
  match o with
  | None => ret (false, self)
  | Some queue =>
      let '(queue, success) :=
        remove_loop (length queue) (TaskHandle.get_id task) 0 queue false in
      let self := set_queue self queue_index queue in
      match queue with
      | [] => let! self := clear_bit self queue_index in ret (success, self)
      | _ => ret (success, self)
      end
  end.

#[local] Arguments write_bitmap : simpl never.
#[local] Arguments queue_at : simpl never.
#[local] Arguments clear_bit : simpl never.
#[local] Arguments pop_from_queue : simpl never.
#[local] Arguments Z.shiftl : simpl never.
#[local] Arguments Z.of_nat : simpl never.

(** ** Representation

    [repr p q ll]: in pool [p], queue [q] represents the priority FIFOs [ll].
    An allocated queue owns a pool cell other than cell 0 whose bits agree
    with [ll]; a queue without a cell is as [new] made it. *)
Definition contents (self : t) : list (list TaskHandle.t) := default [] <$> queues self.

Definition pool_ok (p : Pool) : Prop :=
  length (BITMAP_POOL p) = MAX_BITMAP_POOL /\
  (1 <= NEXT_BITMAP_ID p)%nat /\
  forall j v, (NEXT_BITMAP_ID p <= j)%nat -> BITMAP_POOL p !! j = Some v -> v = 0.

Definition owns (p : Pool) (self : t) (ll : list (list TaskHandle.t)) : Prop :=
  (0 < prio_bitmap_id self < NEXT_BITMAP_ID p)%nat /\
  exists m, BITMAP_POOL p !! prio_bitmap_id self = Some m /\ bitmap_ok m ll.

Definition repr (p : Pool) (self : t) (ll : list (list TaskHandle.t)) : Prop :=
  pool_ok p /\ length (queues self) = NO_PRIORITIES /\ contents self = ll /\
  (owns p self ll \/ self = new).

(** The queue has its cell already, or the pool has one left. *)
Definition can_use (p : Pool) (self : t) : Prop :=
  prio_bitmap_id self <> 0%nat \/ (NEXT_BITMAP_ID p < MAX_BITMAP_POOL)%nat.

(** What an operation that turns [self] in pool [p] into [self'] in pool [p']
    does to the rest of the pool: at most one cell is handed out, no cell
    handed out before changes except the queue's own, the queue stays usable,
    and a cell it gets is the next one of the pool. *)
Definition kept (p : Pool) (self : t) (p' : Pool) (self' : t) : Prop :=
  (NEXT_BITMAP_ID p' = NEXT_BITMAP_ID p +
     (if decide (prio_bitmap_id self = prio_bitmap_id self') then 0 else 1))%nat /\
  (forall j, (j < NEXT_BITMAP_ID p)%nat -> (j = prio_bitmap_id self' -> j = 0%nat) ->
    BITMAP_POOL p' !! j = BITMAP_POOL p !! j) /\
  (prio_bitmap_id self <> 0%nat -> prio_bitmap_id self' = prio_bitmap_id self) /\
  (prio_bitmap_id self = 0%nat -> prio_bitmap_id self' <> 0%nat ->
     prio_bitmap_id self' = NEXT_BITMAP_ID p).

Definition valid_prio (task : TaskHandle.t) : Prop :=
  0 <= TaskHandle.get_priority task < Z.of_nat NO_PRIORITIES.

Definition without (id : Z) (l : list TaskHandle.t) : list TaskHandle.t :=
  List.filter (fun h => negb (TaskHandle.get_id h =? id)) l.

(** ** Lemmas *)

Lemma kept_same p self self' :
  prio_bitmap_id self' = prio_bitmap_id self -> kept p self p self'.
Proof.
  intros E. unfold kept. rewrite E, decide_True by done. split_and!; auto with lia.
Qed.

Lemma kept_refl p self : kept p self p self.
Proof. by apply kept_same. Qed.

Lemma kept_trans p0 q0 p1 q1 p2 q2 :
  kept p0 q0 p1 q1 -> kept p1 q1 p2 q2 -> kept p0 q0 p2 q2.
Proof.
  unfold kept. intros (Hn & Hk & Hid & Hnew) (Hn' & Hk' & Hid' & Hnew').
  destruct (decide (prio_bitmap_id q1 = 0%nat)) as [H1|H1].
  - assert (H0 : prio_bitmap_id q0 = 0%nat).
    { destruct (decide (prio_bitmap_id q0 = 0%nat)); [done|]. rewrite <- Hid; done. }
    rewrite decide_True in Hn by congruence. rewrite H0. rewrite H1 in Hn'.
    split_and!; [lia| |done|].
    + intros j Hj Hne. rewrite Hk', Hk; auto with lia.
    + intros _ H2. rewrite (Hnew' H1 H2). lia.
  - specialize (Hid' H1). rewrite decide_True in Hn' by done. rewrite !Hid' in *.
    split_and!; [lia| |done|done]. intros j Hj Hne. rewrite Hk', Hk; [done..| |done].
    case_decide; lia.
Qed.

Lemma kept_can_use p self p' self' : kept p self p' self' -> can_use p self -> can_use p' self'.
Proof.
  unfold can_use. intros (Hn & _ & Hid & _) Hcan.
  destruct (decide (prio_bitmap_id self' = 0%nat)) as [E|]; [|by left].
  destruct (decide (prio_bitmap_id self = 0%nat)) as [E0|E0].
  - rewrite decide_True in Hn by congruence. right. destruct Hcan; [done|lia].
  - exfalso. apply E0. by rewrite <- Hid.
Qed.

Lemma lookup_contents self i :
  contents self !! i = default [] <$> queues self !! i.
Proof. apply list_lookup_fmap. Qed.

Lemma length_contents self : length (contents self) = length (queues self).
Proof. apply length_fmap. Qed.

Lemma contents_set_queue self i l :
  contents (set_queue self i l) = <[i := l]> (contents self).
Proof. unfold contents, set_queue. cbn. by rewrite list_fmap_insert. Qed.

Lemma contents_new i : nonempty_at (contents new) i = false.
Proof.
  change (contents new) with (replicate NO_PRIORITIES (@nil TaskHandle.t)).
  unfold nonempty_at. destruct (_ !! i) as [l|] eqn:E; [|done].
  by apply lookup_replicate in E as [-> _].
Qed.

Lemma ensure_bitmap_ok p self ll :
  repr p self ll -> can_use p self ->
  exists p' self' m,
    ensure_bitmap self p = Done (prio_bitmap_id self', self') p' /\
    BITMAP_POOL p' !! prio_bitmap_id self' = Some m /\ bitmap_ok m ll /\
    queues self' = queues self /\ repr p' self' ll /\ owns p' self' ll /\
    kept p self p' self' /\ BITMAP_POOL p' = BITMAP_POOL p /\
    (prio_bitmap_id self' < MAX_BITMAP_POOL)%nat.
Proof.
  intros (Hp & Hlen & Hll & Hown) Hcan. unfold ensure_bitmap.
  destruct Hp as (Hplen & Hnext & Hfresh).
  destruct (Nat.eqb_spec (prio_bitmap_id self) 0) as [H0|H0].
  - destruct Hown as [[? _]|Hnew]; [lia|].
    assert (Hempty : forall i, nonempty_at ll i = false)
      by (intros i; rewrite <- Hll, Hnew; apply contents_new).
    assert (Hlt : (NEXT_BITMAP_ID p < MAX_BITMAP_POOL)%nat) by (destruct Hcan; [done|lia]).
    pose proof (lookup_lt_is_Some_2 (BITMAP_POOL p) (NEXT_BITMAP_ID p) ltac:(lia)) as [v Hv].
    pose proof (Hfresh _ _ (Nat.le_refl _) Hv) as ->.
    assert (Hbm : bitmap_ok 0 ll).
    { split; [lia|]. intros i. by rewrite Z.bits_0, Hempty. }
    unfold alloc_bitmap_id, bind, get, put. cbn -[Nat.ltb].
    rewrite (proj2 (Nat.ltb_lt _ _) Hlt). cbn.
    exists {| BITMAP_POOL := BITMAP_POOL p; NEXT_BITMAP_ID := S (NEXT_BITMAP_ID p) |},
      {| queues := queues self; prio_bitmap_id := NEXT_BITMAP_ID p |}, 0.
    split; [reflexivity|]. unfold repr, owns, kept, pool_ok. cbn.
    assert (forall j w, (S (NEXT_BITMAP_ID p) <= j)%nat ->
              BITMAP_POOL p !! j = Some w -> w = 0) by (intros j w Hj; apply Hfresh; lia).
    rewrite H0, decide_False by lia. split_and!; eauto 8 with lia.
  - destruct Hown as [Hown| ->]; [|done].
    pose proof Hown as [Hid (m & Hm & Hbm)].
    exists p, self, m. unfold repr, pool_ok. split_and!; auto using kept_refl.
    apply lookup_lt_Some in Hm. lia.
Qed.

(** Storing a new bitmap in the queue's own cell. *)
Lemma owns_write p self m :
  pool_ok p -> (0 < prio_bitmap_id self < NEXT_BITMAP_ID p)%nat ->
  (prio_bitmap_id self < MAX_BITMAP_POOL)%nat ->
  exists p',
    write_bitmap (prio_bitmap_id self) m p = Done tt p' /\
    NEXT_BITMAP_ID p' = NEXT_BITMAP_ID p /\ pool_ok p' /\
    BITMAP_POOL p' !! prio_bitmap_id self = Some m /\
    forall j, j <> prio_bitmap_id self -> BITMAP_POOL p' !! j = BITMAP_POOL p !! j.
Proof.
  intros (Hlen & Hnext & Hfresh) Hid Hlt. unfold write_bitmap, bind, get, put. cbn -[Nat.ltb].
  rewrite (proj2 (Nat.ltb_lt _ _)) by lia. cbn. eexists. split; [reflexivity|].
  cbn. split_and!; [done| | |].
  - unfold pool_ok. cbn. rewrite length_insert. split_and!; [done..|].
    intros j v Hj. rewrite list_lookup_insert_ne by lia. by apply Hfresh.
  - apply list_lookup_insert_eq. lia.
  - intros j Hj. by apply list_lookup_insert_ne.
Qed.

Lemma prio_index task :
  valid_prio task -> (Z.to_nat (TaskHandle.get_priority task) < NO_PRIORITIES)%nat.
Proof. unfold valid_prio. lia. Qed.

Lemma queue_at_ok (p : Pool) self i :
  length (queues self) = NO_PRIORITIES -> (i < NO_PRIORITIES)%nat ->
  exists o, queues self !! i = Some o /\ queue_at self i p = Done o p.
Proof.
  intros Hlen Hi. destruct (lookup_lt_is_Some_2 (queues self) i ltac:(lia)) as [o Ho].
  exists o. split; [done|]. unfold queue_at. by rewrite Ho.
Qed.

(** Rewriting one queue and the bitmap together. *)
Lemma repr_update p' self ll i l :
  pool_ok p' -> length (queues self) = NO_PRIORITIES -> contents self = ll ->
  (i < NO_PRIORITIES)%nat ->
  owns p' (set_queue self i l) (<[i := l]> ll) ->
  repr p' (set_queue self i l) (<[i := l]> ll).
Proof.
  intros Hp Hlen Hll Hi Hown. unfold repr. split_and!; auto.
  - cbn. by rewrite length_insert.
  - by rewrite contents_set_queue, Hll.
Qed.

Lemma clear_bit_ok p self ll i :
  repr p self ll -> owns p self ll -> (i < NO_PRIORITIES)%nat ->
  exists p',
    clear_bit (set_queue self i []) i p = Done (set_queue self i []) p' /\
    repr p' (set_queue self i []) (<[i := []]> ll) /\ kept p self p' (set_queue self i []).
Proof.
  intros (Hp & Hlen & Hll & _) [Hid (m & Hm & Hbm)] Hi.
  assert (Hlt : (prio_bitmap_id self < MAX_BITMAP_POOL)%nat).
  { apply lookup_lt_Some in Hm. destruct Hp. lia. }
  destruct (owns_write p self (Z.land m (Z.lnot (Z.shiftl 1 (Z.of_nat i)))) Hp Hid Hlt)
    as (p' & Hw & Hnext & Hp' & Hm' & Hother).
  exists p'. unfold clear_bit, ensure_bitmap, read_bitmap, bind. cbn [set_queue prio_bitmap_id].
  rewrite (proj2 (Nat.eqb_neq _ _)) by lia. cbn. rewrite Hm. cbn. rewrite Hw. cbn.
  split; [done|]. split.
  - apply repr_update; auto. split; cbn; [lia|]. eexists. split; [done|].
    apply (bitmap_ok_set m ll i []); [|done|done].
    rewrite <- Hll, length_contents. lia.
  - unfold kept. cbn. rewrite decide_True by done. split_and!; auto with lia.
Qed.

Lemma handle_push_ok p self ll task :
  repr p self ll -> can_use p self -> valid_prio task ->
  exists p' self',
    push self task p = Done self' p' /\
    repr p' self' (fifo_push ll (Z.to_nat (TaskHandle.get_priority task)) task) /\
    owns p' self' (fifo_push ll (Z.to_nat (TaskHandle.get_priority task)) task) /\
    kept p self p' self'.
Proof.
  intros Hr Hcan Hprio%prio_index.
  destruct (ensure_bitmap_ok p self ll Hr Hcan)
    as (p1 & q1 & m & Hens & Hm & Hbm & Hqs & (Hp1 & Hlen & Hll & _) & [Hid _] & Hkept & Hpool & Hlt).
  set (i := Z.to_nat (TaskHandle.get_priority task)) in *.
  destruct (owns_write p1 q1 (Z.lor m (Z.shiftl 1 (Z.of_nat i))) Hp1 Hid Hlt)
    as (p2 & Hw & Hnext & Hp2 & Hm2 & Hother).
  destruct (queue_at_ok p2 q1 i Hlen Hprio) as (o & Ho & Hqa).
  assert (Hi : ll !! i = Some (default [] o)) by (by rewrite <- Hll, lookup_contents, Ho).
  exists p2, (set_queue q1 i (default [] o ++ [task])).
  unfold push, bind. fold i. rewrite Hens. unfold read_bitmap, bind. cbn.
  rewrite Hm. cbn. rewrite Hw, Hqa.
  unfold fifo_push. rewrite Hi.
  assert (owns p2 (set_queue q1 i (default [] o ++ [task])) (<[i:=default [] o ++ [task]]> ll)).
  { split; cbn; [lia|]. eexists. split; [done|].
    assert (Hb := bitmap_ok_push m ll i task ltac:(rewrite <- Hll, length_contents; lia) Hbm).
    unfold fifo_push in Hb. by rewrite Hi in Hb. }
  split; [by destruct o|]. split_and!; [by apply repr_update|done|].
  apply kept_trans with p1 q1; [done|]. unfold kept. cbn.
  rewrite decide_True by done. split_and!; auto with lia.
Qed.

Lemma handle_pop_from_queue_ok p self ll i x l :
  repr p self ll -> owns p self ll -> ll !! i = Some (x :: l) ->
  exists p',
    pop_from_queue self i p = Done (Some x, set_queue self i l) p' /\
    repr p' (set_queue self i l) (<[i := l]> ll) /\ kept p self p' (set_queue self i l).
Proof.
  intros Hr Hown Hi. pose proof Hr as (Hp & Hlen & Hll & _).
  assert (Hil : (i < NO_PRIORITIES)%nat).
  { apply lookup_lt_Some in Hi. by rewrite <- Hll, length_contents, Hlen in Hi. }
  destruct (queue_at_ok p self i Hlen Hil) as (o & Ho & Hqa).
  assert (Ho' : o = Some (x :: l)).
  { rewrite <- Hll, lookup_contents, Ho in Hi. destruct o as [k|]; cbn in Hi; congruence. }
  subst o. unfold pop_from_queue, bind. rewrite Hqa. destruct l as [|y l].
  - destruct (clear_bit_ok p self ll i Hr Hown Hil) as (p' & Hc & Hr' & Hk).
    exists p'. by rewrite Hc.
  - exists p. split; [done|]. destruct Hown as [Hid (m & Hm & Hbm)].
    split; [|by apply kept_same]. apply repr_update; auto. split; [done|].
    exists m. split; [done|].
    apply (bitmap_ok_set m ll i (y :: l)); [|done|].
    + by eapply lookup_lt_Some.
    + intros _. unfold nonempty_at. by rewrite Hi.
Qed.

Lemma handle_pop_ok p self ll :
  repr p self ll -> can_use p self ->
  exists p' self',
    pop self p = Done (fst <$> fifo_pop ll, self') p' /\
    repr p' self' (from_option snd ll (fifo_pop ll)) /\ kept p self p' self'.
Proof.
  intros Hr Hcan.
  destruct (ensure_bitmap_ok p self ll Hr Hcan)
    as (p1 & q1 & m & Hens & Hm & Hbm & Hqs & Hr1 & Hown & Hkept & Hpool & Hlt).
  unfold pop, bitmap, read_bitmap, bind. rewrite Hens. cbn. rewrite Hm.
  cbn. rewrite (msb_top m ll Hbm). unfold fifo_pop.
  destruct (top ll) as [i|] eqn:Et; cbn.
  - apply top_spec in Et as [Hne _]. unfold nonempty_at in Hne.
    destruct (ll !! i) as [[|x l]|] eqn:Ei; try done.
    destruct (handle_pop_from_queue_ok p1 q1 ll i x l Hr1 Hown Ei) as (p2 & Hpop & Hr2 & Hk2).
    exists p2, (set_queue q1 i l). rewrite Nat2Z.id, Hpop. split; [done|]. split; [done|].
    by apply kept_trans with p1 q1.
  - exists p1, q1. by split_and!.
Qed.

(** The removal loop is a filter; its answer says whether it dropped anything. *)
Lemma remove_loop_spec fuel id i queue success :
  (length queue - i <= fuel)%nat ->
  remove_loop fuel id i queue success =
  (take i queue ++ without id (drop i queue),
   success || existsb (fun h => TaskHandle.get_id h =? id) (drop i queue)).
Proof.
  revert i queue success. induction fuel as [|fuel IH]; intros i queue success Hf; cbn.
  - rewrite drop_ge by lia. rewrite take_ge by lia. cbn. by rewrite app_nil_r, orb_false_r.
  - destruct (queue !! i) as [h|] eqn:Eh.
    + rewrite (drop_S _ _ _ Eh). cbn. destruct (_ =? _) eqn:Ei; cbn.
      * pose proof (lookup_lt_Some _ _ _ Eh).
        rewrite IH by (rewrite length_delete by eauto; lia).
        rewrite delete_take_drop, take_app_le, take_take, Nat.min_id by (rewrite length_take; lia).
        rewrite drop_app_ge, length_take_le, Nat.sub_diag by (rewrite ?length_take; lia).
        rewrite drop_0. by rewrite orb_true_r.
      * rewrite IH by lia. rewrite (take_S_r _ _ _ Eh). by rewrite <- app_assoc.
    + apply lookup_ge_None in Eh. rewrite drop_ge, take_ge by lia. cbn.
      by rewrite app_nil_r, orb_false_r.
Qed.

Lemma remove_ok p self ll task :
  repr p self ll -> valid_prio task ->
  let i := Z.to_nat (TaskHandle.get_priority task) in
  let id := TaskHandle.get_id task in
  exists p' self',
    remove self task p =
      Done (existsb (fun h => TaskHandle.get_id h =? id) (ll !!! i), self') p' /\
    repr p' self' (<[i := without id (ll !!! i)]> ll) /\ kept p self p' self'.
Proof.
  intros Hr Hprio%prio_index i id. pose proof Hr as (Hp & Hlen & Hll & Hown).
  destruct (queue_at_ok p self i Hlen Hprio) as (o & Ho & Hqa).
  assert (Hi : ll !! i = Some (default [] o)) by (by rewrite <- Hll, lookup_contents, Ho).
  rewrite (list_lookup_total_correct _ _ _ Hi).
  unfold remove, bind. fold i id. rewrite Hqa. destruct o as [queue|].
  - destruct Hown as [Hown| ->]; [|by apply lookup_replicate in Ho as [? _]].
    rewrite remove_loop_spec by lia. rewrite take_0, drop_0. cbn -[without existsb].
    cbn in Hi. destruct (without id queue) as [|y l] eqn:El.
    + destruct (clear_bit_ok p self ll i Hr Hown Hprio) as (p' & Hc & Hr' & Hk).
      exists p', (set_queue self i []). by rewrite Hc.
    + exists p, (set_queue self i (y :: l)). split; [done|].
      destruct Hown as [Hid (m & Hm & Hbm)]. split; [|by apply kept_same].
      apply repr_update; auto. split; [done|]. exists m. split; [done|].
      apply (bitmap_ok_set m ll i (y :: l)); [by eapply lookup_lt_Some|done|].
      intros _. unfold nonempty_at. rewrite Hi. by destruct queue.
  - cbn in Hi. exists p, self. split; [done|]. cbn. rewrite list_insert_id by done.
    split; [done|apply kept_refl].
Qed.

Lemma contains_ok p self ll task :
  repr p self ll -> valid_prio task ->
  contains self task p =
  Done (existsb (fun h => TaskHandle.get_id h =? TaskHandle.get_id task)
          (ll !!! Z.to_nat (TaskHandle.get_priority task))) p.
Proof.
  intros (Hp & Hlen & Hll & _) Hprio%prio_index.
  destruct (queue_at_ok p self _ Hlen Hprio) as (o & Ho & Hqa).
  assert (Hi : ll !! Z.to_nat (TaskHandle.get_priority task) = Some (default [] o))
    by (by rewrite <- Hll, lookup_contents, Ho).
  unfold contains, bind. rewrite Hqa, (list_lookup_total_correct _ _ _ Hi). by destruct o.
Qed.

Lemma handle_is_empty_ok p self ll :
  repr p self ll -> can_use p self ->
  exists p' self',
    is_empty self p = Done (match top ll with None => true | _ => false end, self') p' /\
    repr p' self' ll /\ kept p self p' self'.
Proof.
  intros Hr Hcan.
  destruct (ensure_bitmap_ok p self ll Hr Hcan)
    as (p1 & q1 & m & Hens & Hm & Hbm & Hqs & Hr1 & Hown & Hkept & Hpool & Hlt).
  exists p1, q1. unfold is_empty, bitmap, read_bitmap, bind. rewrite Hens. cbn. rewrite Hm. cbn.
  by rewrite (bitmap_ok_zero m ll Hbm).
Qed.

(** ** Sequences of operations *)

Inductive op : Type :=
  | Push (task : TaskHandle.t)
  | Pop
  | Remove (task : TaskHandle.t)
  | Contains (task : TaskHandle.t)
  | IsEmpty.

Inductive answer : Type :=
  | Nothing
  | Popped (task : option TaskHandle.t)
  | Said (b : bool).

(** One operation of the code, and the same operation of the specification. *)
Definition step (o : op) (self : t) : M Pool (answer * t) :=
  match o with
  | Push task => let! self := push self task in ret (Nothing, self)
  | Pop => let! '(task, self) := pop self in ret (Popped task, self)
  | Remove task => let! '(b, self) := remove self task in ret (Said b, self)
  | Contains task => let! b := contains self task in ret (Said b, self)
  | IsEmpty => let! '(b, self) := is_empty self in ret (Said b, self)
  end.

Definition spec_step (o : op) (ll : list (list TaskHandle.t))
    : answer * list (list TaskHandle.t) :=
  match o with
  | Push task => (Nothing, fifo_push ll (Z.to_nat (TaskHandle.get_priority task)) task)
  | Pop => (Popped (fst <$> fifo_pop ll), from_option snd ll (fifo_pop ll))
  | Remove task =>
      let i := Z.to_nat (TaskHandle.get_priority task) in
      (Said (existsb (fun h => TaskHandle.get_id h =? TaskHandle.get_id task) (ll !!! i)),
       <[i := without (TaskHandle.get_id task) (ll !!! i)]> ll)
  | Contains task =>
      (Said (existsb (fun h => TaskHandle.get_id h =? TaskHandle.get_id task)
               (ll !!! Z.to_nat (TaskHandle.get_priority task))), ll)
  | IsEmpty => (Said (match top ll with None => true | _ => false end), ll)
  end.

Fixpoint run (ops : list op) (self : t) : M Pool (list answer * t) :=
  match ops with
  | [] => ret ([], self)
  | o :: ops =>
      let! '(a, self) := step o self in
      let! '(rest, self) := run ops self in
      ret (a :: rest, self)
  end.

Fixpoint spec_run (ops : list op) (ll : list (list TaskHandle.t))
    : list answer * list (list TaskHandle.t) :=
  match ops with
  | [] => ([], ll)
  | o :: ops =>
      let '(a, ll) := spec_step o ll in
      let '(rest, ll) := spec_run ops ll in
      (a :: rest, ll)
  end.

Definition valid_op (o : op) : Prop :=
  match o with Push task | Remove task | Contains task => valid_prio task | _ => True end.

(** One step of the code is one step of the specification. *)
Lemma step_ok p self ll o :
  repr p self ll -> can_use p self -> valid_op o ->
  exists p' self',
    step o self p = Done ((spec_step o ll).1, self') p' /\
    repr p' self' (spec_step o ll).2 /\ kept p self p' self'.
Proof.
  intros Hr Hcan Hv. destruct o as [task| |task|task|]; cbn in Hv; unfold step, bind.
  - destruct (handle_push_ok p self ll task Hr Hcan Hv) as (p' & q' & E & Hr' & _ & Hk).
    exists p', q'. by rewrite E.
  - destruct (handle_pop_ok p self ll Hr Hcan) as (p' & q' & E & Hr' & Hk). exists p', q'. by rewrite E.
  - destruct (remove_ok p self ll task Hr Hv) as (p' & q' & E & Hr' & Hk).
    exists p', q'. by rewrite E.
  - rewrite (contains_ok p self ll task Hr Hv). exists p, self. auto using kept_refl.
  - destruct (handle_is_empty_ok p self ll Hr Hcan) as (p' & q' & E & Hr' & Hk).
    exists p', q'. by rewrite E.
Qed.

Lemma run_ok ops p self ll :
  repr p self ll -> can_use p self -> Forall valid_op ops ->
  exists p' self',
    run ops self p = Done ((spec_run ops ll).1, self') p' /\
    repr p' self' (spec_run ops ll).2 /\ kept p self p' self'.
Proof.
  revert p self ll. induction ops as [|o ops IH]; intros p self ll Hr Hcan Hv.
  { exists p, self. cbn. auto using kept_refl. }
  apply Forall_cons_1 in Hv as [Hvo Hvs].
  destruct (step_ok p self ll o Hr Hcan Hvo) as (p1 & q1 & E1 & Hr1 & Hk1).
  destruct (IH p1 q1 _ Hr1 (kept_can_use _ _ _ _ Hk1 Hcan) Hvs) as (p2 & q2 & E2 & Hr2 & Hk2).
  exists p2, q2. cbn. unfold bind. rewrite E1. cbn. rewrite E2. cbn.
  destruct (spec_step o ll) as [a ll1]. cbn in *. destruct (spec_run ops ll1). cbn in *.
  split_and!; [done..|]. by apply kept_trans with p1 q1.
Qed.

(** ** Properties *)

(** C27: every sequence of [push]/[pop]/[remove]/[contains]/[is_empty] on a
    queue whose bitmap is in order answers exactly what the abstract
    priority FIFO answers (oldest handle of the highest priority first), never
    panics, takes at most one cell from the pool, and leaves the cells of all
    other queues as they were. *)
Theorem handle_queue_refines ops p self ll :
  repr p self ll -> can_use p self -> Forall valid_op ops ->
  exists p' self',
    run ops self p = Done ((spec_run ops ll).1, self') p' /\
    repr p' self' (spec_run ops ll).2 /\
    (NEXT_BITMAP_ID p' <= S (NEXT_BITMAP_ID p))%nat /\
    forall j, (0 < j < NEXT_BITMAP_ID p)%nat -> j <> prio_bitmap_id self' ->
      BITMAP_POOL p' !! j = BITMAP_POOL p !! j.
Proof.
  intros Hr Hcan Hv. destruct (run_ok ops p self ll Hr Hcan Hv) as (p' & q' & E & Hr' & Hn & Hj & _).
  exists p', q'. split_and!; [done..| |].
  - case_decide; lia.
  - intros j Hj' Hne. apply Hj; [lia|]. by intros ->.
Qed.

(** A pool some other queue has drawn from already. *)
Definition pool_used : Pool :=
  {| BITMAP_POOL := replicate MAX_BITMAP_POOL 0; NEXT_BITMAP_ID := 1 |}.

Lemma pool_used_ok : pool_ok pool_used.
Proof.
  split_and!; [done|cbn; lia|]. intros j v _ [-> _]%lookup_replicate. done.
Qed.

Definition example_ops : list op :=
  let h id prio := TaskHandle.new id prio 0 in
  [Push (h 7 2); Push (h 8 5); Push (h 9 5); Contains (h 9 5); Pop; Remove (h 9 5); Pop; Pop; IsEmpty].

Lemma handle_queue_refines_witness :
  exists p' self',
    run example_ops new pool_used =
      Done ([Nothing; Nothing; Nothing; Said true; Popped (Some (TaskHandle.new 8 5 0));
             Said true; Popped (Some (TaskHandle.new 7 2 0)); Popped None; Said true], self') p'.
Proof.
  destruct (handle_queue_refines example_ops pool_used new (contents new)) as (p' & q' & E & _).
  - split_and!; [apply pool_used_ok|done|done|by right].
  - right. by apply Nat.ltb_lt.
  - by repeat constructor.
  - exists p', q'. exact E.
Defined.

(** the first queue that touches the pool of a freshly booted kernel loses
    its first handle.  [alloc_bitmap_id] hands out 0, which [ensure_bitmap]
    reads as "not allocated", so the bit set by [push] goes to cell 0 while
    every later access allocates and reads another cell: the handle is in the
    queue, [is_empty] says the queue is empty, and [pop] returns nothing. *)
Theorem first_queue_loses_push task :
  valid_prio task ->
  exists q1 p1,
    push new task pool_init = Done q1 p1 /\
    contains q1 task p1 = Done true p1 /\
    (exists q2 p2, is_empty q1 p1 = Done (true, q2) p2) /\
    (exists q2 p2, pop q1 p1 = Done (None, q2) p2).
Proof.
  intros Hv%prio_index. set (i := Z.to_nat (TaskHandle.get_priority task)) in *.
  assert (Hq : forall p, queue_at new i p = Done None p).
  { intros p. unfold queue_at. unfold new, queues.
    by rewrite (lookup_replicate_2 NO_PRIORITIES None i Hv). }
  eexists (set_queue new i [task]), _. split_and!.
  - unfold push. fold i. unfold bind.
    change (ensure_bitmap new pool_init) with (@Done Pool _ (0%nat, new) pool_used).
    cbv beta iota. change (read_bitmap 0 pool_used) with (Done 0 pool_used).
    cbv beta iota. change (write_bitmap 0 (Z.lor 0 (Z.shiftl 1 (Z.of_nat i))) pool_used)
      with (Done tt (mkPool (Z.lor 0 (Z.shiftl 1 (Z.of_nat i)) :: replicate 255 0) 1)).
    cbv beta iota. rewrite Hq. reflexivity.
  - unfold contains, queue_at, set_queue, queues, bind. fold i.
    rewrite list_lookup_insert_eq by exact Hv. cbn.
    by rewrite Z.eqb_refl.
  - by eexists _, _.
  - by eexists _, _.
Qed.

Lemma first_queue_loses_push_witness :
  exists q1 p1, push new (TaskHandle.new 1 2 0) pool_init = Done q1 p1 /\
    exists q2 p2, pop q1 p1 = Done (None, q2) p2.
Proof.
  destruct (first_queue_loses_push (TaskHandle.new 1 2 0)) as (q1 & p1 & H1 & _ & _ & H2).
  - done.
  - by exists q1, p1.
Defined.

(** A queue that is created, used once and dropped, [n] times over (what the
    futex parking lot does for every wait that finds its address free). *)
Fixpoint churn (n : nat) (task : TaskHandle.t) : M Pool unit :=
  match n with
  | O => ret tt
  | S n =>
      let! q := push new task in
      let! r := pop q in
      churn n task
  end.

Lemma push_new_full p task :
  (MAX_BITMAP_POOL <= NEXT_BITMAP_ID p)%nat ->
  push new task p = Panic "exceeded MAX_BITMAP_POOL".
Proof.
  intros Hfull. unfold push, ensure_bitmap, alloc_bitmap_id, bind, get, put. cbn -[Nat.ltb].
  by rewrite (proj2 (Nat.ltb_ge _ _) Hfull).
Qed.

(** pool cells are never given back: from any pool that is in order,
    creating, using and dropping one queue more often than there are cells
    left ends in the panic of [alloc_bitmap_id], although no queue is alive. *)
Theorem bitmap_pool_leaks n p task :
  pool_ok p -> (NEXT_BITMAP_ID p <= MAX_BITMAP_POOL)%nat -> valid_prio task ->
  (MAX_BITMAP_POOL < NEXT_BITMAP_ID p + n)%nat ->
  churn n task p = Panic "exceeded MAX_BITMAP_POOL".
Proof.
  revert p. induction n as [|n IH]; intros p Hp Hle Hv Hn; [lia|].
  destruct (decide (MAX_BITMAP_POOL <= NEXT_BITMAP_ID p)%nat) as [Hfull|Hroom].
  { cbn. unfold bind. by rewrite push_new_full. }
  assert (Hr : repr p new (contents new)) by (split_and!; [done..|by right]).
  assert (Hcan : can_use p new) by (right; lia).
  destruct (handle_push_ok p new _ task Hr Hcan Hv) as (p1 & q1 & E1 & Hr1 & [Hid1 _] & Hk1).
  destruct (handle_pop_ok p1 q1 _ Hr1 (kept_can_use _ _ _ _ Hk1 Hcan)) as (p2 & q2 & E2 & Hr2 & Hk2).
  cbn. unfold bind. rewrite E1, E2. destruct Hk1 as (Hn1 & _), Hk2 as (Hn2 & _ & Hid2 & _).
  specialize (Hid2 ltac:(lia)).
  rewrite decide_False in Hn1 by (cbn; lia). rewrite decide_True in Hn2 by done.
  destruct Hr2 as [Hp2 _]. apply IH; [done|lia|done|lia].
Qed.

Lemma bitmap_pool_leaks_witness :
  churn 256 (TaskHandle.new 3 1 0) pool_used = Panic "exceeded MAX_BITMAP_POOL".
Proof.
  apply (bitmap_pool_leaks 256 pool_used (TaskHandle.new 3 1 0)).
  - apply pool_used_ok.
  - by apply Nat.leb_le.
  - done.
  - by apply Nat.ltb_lt.
Defined.

End HandleQueue.
