(* ===== verification/ReadyQueue.v ===== *)
(** [PriorityTaskQueue], the queue of ready tasks of a core
    ([src/src/scheduler/task/mod.rs]).  Elements are references to task cells,
    so operations that look at a task take the heap of cells; [None] stands
    for a panic (an array index out of range). *)

From S2P Require Import Prelude PrioFifo Tasks.

Module ReadyQueue.

Record t : Type := mk {
  queues : list (list tref);
  prio_bitmap : Z;
}.

Definition new : t := {| queues := replicate NO_PRIORITIES []; prio_bitmap := 0 |}.

Definition push (h : task_heap) (self : t) (task : tref) : option t :=
  tk ← h !! task;
  let i := Z.to_nat (Task.prio tk) in
  queue ← queues self !! i;
  Some {| queues := <[i := queue ++ [task]]> (queues self);
          prio_bitmap := Z.lor (prio_bitmap self) (Z.shiftl 1 (Z.of_nat i)) |}.

(** [self.prio_bitmap &= !(1 << queue_index)] when the queue is empty now. *)
Definition store_queue (self : t) (queue_index : nat) (queue : list tref) : t :=
  {| queues := <[queue_index := queue]> (queues self);
     prio_bitmap :=
       match queue with
       | [] => Z.land (prio_bitmap self) (Z.lnot (Z.shiftl 1 (Z.of_nat queue_index)))
       | _ => prio_bitmap self
       end |}.

Definition pop_from_queue (self : t) (queue_index : nat) : option (option tref * t) :=
  queue ← queues self !! queue_index;
  Some (head queue, store_queue self queue_index (tail queue)).

Definition remove_from_queue (self : t) (task_index queue_index : nat)
    : option (option tref * t) :=
  queue ← queues self !! queue_index;
  if (length queue <? task_index)%nat then Some (None, self)
  else
    let split_list := drop task_index queue in
    let element := head split_list in
    Some (element, store_queue self queue_index (take task_index queue ++ tail split_list)).

Definition is_empty (self : t) : bool := prio_bitmap self =? 0.

Definition pop (self : t) : option (option tref * t) :=
  match msb (prio_bitmap self) with
  | None => Some (None, self)
  | Some i => pop_from_queue self (Z.to_nat i)
  end.

Definition pop_with_prio (self : t) (prio : Z) : option (option tref * t) :=
  match msb (prio_bitmap self) with
  | None => Some (None, self)
  | Some i => if i <? prio then Some (None, self) else pop_from_queue self (Z.to_nat i)
  end.

Definition get_highest_priority (self : t) : Z :=
  match msb (prio_bitmap self) with None => IDLE_PRIO | Some i => i end.

(** [iter().position(|current_task| current_task.borrow().id == id)] *)
Fixpoint position (h : task_heap) (id : Z) (queue : list tref) : option nat :=
  match queue with
  | [] => None
  | task :: queue =>
      if from_option (fun tk => Task.id tk =? id) false (h !! task) then Some 0%nat
      else S <$> position h id queue
  end.

(** [set_priority]: [Err(())] when the handle's queue does not hold the task. *)
Definition set_priority (h : task_heap) (self : t) (handle : TaskHandle.t) (prio : Z)
    : option (Result unit unit * task_heap * t) :=
  let old_priority := Z.to_nat (TaskHandle.get_priority handle) in
  queue ← queues self !! old_priority;
  match position h (TaskHandle.get_id handle) queue with
  | None => Some (Err tt, h, self)
  | Some index =>
      '(element, self) ← remove_from_queue self index old_priority;
      match element with
      | None => Some (Err tt, h, self)
      | Some task =>
          let h := alter (Task.set_prio prio) task h in
          self ← push h self task;
          Some (Ok tt, h, self)
      end
  end.

(** ** Invariant

    The bitmap is in step with the queues, and a task waits in the queue of
    its own priority. *)
Definition wf (h : task_heap) (self : t) : Prop :=
  length (queues self) = NO_PRIORITIES /\
  bitmap_ok (prio_bitmap self) (queues self) /\
  forall i queue task, queues self !! i = Some queue -> task ∈ queue ->
    exists tk, h !! task = Some tk /\ Task.prio tk = Z.of_nat i.

(** Every task reference in the queue. *)
Definition tasks (self : t) : list tref := concat (queues self).

(** ** Lemmas *)

Lemma new_wf h : wf h new.
Proof.
  split_and!; [done| |].
  - split; [done|]. intros i. cbn [prio_bitmap new]. rewrite Z.bits_0.
    unfold nonempty_at. destruct (_ !! i) as [l|] eqn:E; [|done].
    by apply lookup_replicate in E as [-> _].
  - intros i queue task [-> _]%lookup_replicate. by intros ?%not_elem_of_nil.
Qed.

(** The invariant only looks at the priorities of queued tasks. *)
Lemma wf_heap h h' self :
  wf h self ->
  (forall task, task ∈ tasks self ->
    Task.prio <$> h' !! task = Task.prio <$> h !! task) ->
  wf h' self.
Proof.
  intros (Hlen & Hb & Hq) Hh. split_and!; [done..|]. intros i queue task Hi Ht.
  destruct (Hq i queue task Hi Ht) as (tk & Htk & Hp).
  assert (Hin : task ∈ tasks self) by (apply elem_of_concat_lookup; eauto).
  specialize (Hh _ Hin). rewrite Htk in Hh. cbn in Hh.
  destruct (h' !! task) as [tk'|]; simplify_eq/=. eexists. split; [done|]. congruence.
Qed.

Lemma push_ok h self task tk :
  wf h self -> h !! task = Some tk -> 0 <= Task.prio tk < Z.of_nat NO_PRIORITIES ->
  exists self', push h self task = Some self' /\ wf h self' /\
    queues self' = fifo_push (queues self) (Z.to_nat (Task.prio tk)) task.
Proof.
  intros (Hlen & Hb & Hq) Htk Hp. set (i := Z.to_nat (Task.prio tk)).
  assert (Hlt : (i < length (queues self))%nat) by (subst i; lia).
  destruct (lookup_lt_is_Some_2 (queues self) i Hlt) as [queue Hi].
  unfold push. rewrite Htk. cbn. fold i. rewrite Hi. cbn.
  eexists. split; [done|]. unfold fifo_push. rewrite Hi. split; [|done].
  split_and!; cbn.
  - by rewrite length_insert.
  - pose proof (bitmap_ok_push _ _ i task Hlt Hb) as H. unfold fifo_push in H.
    by rewrite Hi in H.
  - intros j q x Hj Hx. destruct (decide (i = j)) as [<-|Hne].
    + rewrite list_lookup_insert_eq in Hj by lia. simplify_eq.
      apply elem_of_app in Hx as [Hx|Hx%list_elem_of_singleton]; [eauto|].
      subst. eexists. split; [done|]. lia.
    + rewrite list_lookup_insert_ne in Hj by done. eauto.
Qed.

Lemma store_queue_wf h self i old queue :
  wf h self -> queues self !! i = Some old -> (forall x, x ∈ queue -> x ∈ old) ->
  wf h (store_queue self i queue).
Proof.
  intros (Hlen & Hb & Hq) Hi Hsub. pose proof (lookup_lt_Some _ _ _ Hi) as Hlt.
  split_and!; cbn [store_queue queues prio_bitmap].
  - by rewrite length_insert.
  - apply bitmap_ok_set; [done..|]. intros Hne. unfold nonempty_at. rewrite Hi.
    destruct queue as [|x q]; [done|]. destruct old; [|done].
    exfalso. apply (not_elem_of_nil x), Hsub. by left.
  - intros j q x Hj Hx. destruct (decide (i = j)) as [<-|Hne].
    + rewrite list_lookup_insert_eq in Hj by done. simplify_eq. eauto.
    + rewrite list_lookup_insert_ne in Hj by done. eauto.
Qed.

Lemma pop_from_queue_ok h self i x l :
  wf h self -> queues self !! i = Some (x :: l) ->
  exists self', pop_from_queue self i = Some (Some x, self') /\ wf h self' /\
    queues self' = <[i := l]> (queues self).
Proof.
  intros Hwf Hi. unfold pop_from_queue. rewrite Hi. cbn. eexists. split; [done|].
  split; [|done]. eapply store_queue_wf; [done..|]. intros y Hy. by right.
Qed.

(** [pop] is the abstract [fifo_pop]. *)
Lemma pop_ok h self :
  wf h self ->
  exists self', pop self = Some (fst <$> fifo_pop (queues self), self') /\ wf h self' /\
    queues self' = from_option snd (queues self) (fifo_pop (queues self)).
Proof.
  intros Hwf. pose proof Hwf as (_ & Hb & _). unfold pop, fifo_pop.
  rewrite (msb_top _ _ Hb). destruct (top (queues self)) as [i|] eqn:Et; cbn; [|eauto].
  rewrite Nat2Z.id. apply top_spec in Et as [Hne _]. unfold nonempty_at in Hne.
  destruct (queues self !! i) as [[|x l]|] eqn:Ei; try done.
  by apply pop_from_queue_ok.
Qed.

Lemma pop_with_prio_ok self prio :
  bitmap_ok (prio_bitmap self) (queues self) ->
  pop_with_prio self prio =
  match top (queues self) with
  | Some i => if Z.of_nat i <? prio then Some (None, self) else pop self
  | None => Some (None, self)
  end.
Proof.
  intros Hb. unfold pop_with_prio, pop. rewrite (msb_top _ _ Hb).
  by destruct (top (queues self)).
Qed.

Lemma is_empty_ok self :
  bitmap_ok (prio_bitmap self) (queues self) ->
  is_empty self = true <-> tasks self = [].
Proof.
  intros Hb. unfold is_empty. rewrite (bitmap_ok_zero _ _ Hb). split.
  - destruct (top (queues self)) eqn:E; [done|]. intros _. rewrite top_None in E.
    destruct (tasks self) as [|x l] eqn:Et; [done|].
    assert (Hx : x ∈ tasks self) by (rewrite Et; by left).
    apply elem_of_concat_lookup in Hx as (i & q & Hi & Hx). specialize (E i).
    unfold nonempty_at in E. rewrite Hi in E. destruct q; [|done].
    by apply not_elem_of_nil in Hx.
  - intros Et. destruct (top (queues self)) as [i|] eqn:E; [|done].
    apply top_spec in E as [Hi _]. unfold nonempty_at in Hi.
    destruct (queues self !! i) as [[|x q]|] eqn:Eq; try done.
    assert (x ∈ tasks self) by (apply elem_of_concat_lookup; exists i, (x :: q); split; [done|by left]).
    rewrite Et in H. by apply not_elem_of_nil in H.
Qed.

(** ** Priority changes *)

Lemma position_Some h id queue k :
  position h id queue = Some k ->
  exists task tk, queue !! k = Some task /\ h !! task = Some tk /\ Task.id tk = id.
Proof.
  revert k. induction queue as [|task queue IH]; intros k; cbn; [done|].
  destruct (h !! task) as [tk|] eqn:Eh; cbn; [destruct (Z.eqb_spec (Task.id tk) id)|].
  - intros [= <-]. eauto 10.
  - destruct (position h id queue); intros [= <-]. by apply IH.
  - destruct (position h id queue); intros [= <-]. by apply IH.
Qed.

Lemma position_None h id queue task tk :
  position h id queue = None -> task ∈ queue -> h !! task = Some tk -> Task.id tk <> id.
Proof.
  induction queue as [|x queue IH]; cbn; [by intros _ ?%not_elem_of_nil|].
  intros Hpos [->|Hin]%elem_of_cons Htk.
  - rewrite Htk in Hpos. cbn in Hpos. by destruct (Z.eqb_spec (Task.id tk) id).
  - destruct (from_option _ _ _); [done|]. destruct (position h id queue); [done|]. by apply IH.
Qed.

Lemma remove_from_queue_ok h self i k queue task :
  wf h self -> queues self !! i = Some queue -> queue !! k = Some task ->
  exists self', remove_from_queue self k i = Some (Some task, self') /\ wf h self' /\
    queues self' = <[i := delete k queue]> (queues self).
Proof.
  intros Hwf Hi Hk. pose proof (lookup_lt_Some _ _ _ Hk).
  unfold remove_from_queue. rewrite Hi. cbn.
  rewrite (proj2 (Nat.ltb_ge _ _)) by lia.
  rewrite (drop_S _ _ _ Hk). cbn [head tail]. eexists. split; [done|].
  rewrite <- delete_take_drop. split; [|done]. eapply store_queue_wf; [done..|].
  intros x. apply list_elem_of_delete_inv.
Qed.

Lemma set_priority_found h self handle prio queue k task :
  wf h self -> NoDup (tasks self) -> 0 <= prio < Z.of_nat NO_PRIORITIES ->
  queues self !! Z.to_nat (TaskHandle.get_priority handle) = Some queue ->
  position h (TaskHandle.get_id handle) queue = Some k -> queue !! k = Some task ->
  exists self',
    set_priority h self handle prio = Some (Ok tt, alter (Task.set_prio prio) task h, self') /\
    wf (alter (Task.set_prio prio) task h) self' /\
    queues self' =
      fifo_push (<[Z.to_nat (TaskHandle.get_priority handle) := delete k queue]> (queues self))
        (Z.to_nat prio) task /\
    tasks self' ≡ₚ tasks self.
Proof.
  set (i := Z.to_nat (TaskHandle.get_priority handle)).
  intros Hwf Hnd Hp Hi Hpos Hk.
  destruct (remove_from_queue_ok h self i k queue task Hwf Hi Hk) as (q1 & E1 & Hwf1 & Hq1).
  destruct (position_Some _ _ _ _ Hpos) as (task' & tk & Hk' & Htk & Hid). simplify_eq.
  assert (Hperm : tasks self ≡ₚ task :: tasks q1).
  { unfold tasks. rewrite Hq1. apply (Permutation_app_inv_l (delete k queue)).
    rewrite <- (concat_insert_Permutation _ _ _ _ Hi), (delete_Permutation _ _ _ Hk) at 1.
    by rewrite <- Permutation_middle. }
  assert (Hwf1' : wf (alter (Task.set_prio prio) task h) q1).
  { apply (wf_heap h); [done|]. intros x Hx. rewrite lookup_alter_ne; [done|].
    intros <-. rewrite Hperm in Hnd. by apply NoDup_cons_1_1 in Hnd. }
  assert (Htk' : alter (Task.set_prio prio) task h !! task = Some (Task.set_prio prio tk)).
  { rewrite lookup_alter_eq, Htk. done. }
  destruct (push_ok _ _ _ _ Hwf1' Htk' Hp) as (q2 & E2 & Hwf2 & Hq2).
  exists q2. unfold set_priority. fold i. rewrite Hi. cbn. rewrite Hpos, E1. cbn. rewrite E2. cbn.
  split_and!; [done|done| |].
  - by rewrite Hq2, Hq1.
  - unfold tasks. rewrite Hq2, fifo_push_Permutation; [done|]. destruct Hwf1' as (-> & _).
    cbn. lia.
Qed.

(** ** One operation of the code and of the specification *)

Inductive op : Type := Push (task : tref) | Pop | PopWithPrio (prio : Z).

Definition step (h : task_heap) (o : op) (self : t) : option (option tref * t) :=
  match o with
  | Push task => self ← push h self task; Some (None, self)
  | Pop => pop self
  | PopWithPrio prio => pop_with_prio self prio
  end.

Definition spec_step (h : task_heap) (o : op) (ll : list (list tref))
    : option tref * list (list tref) :=
  match o with
  | Push task => (None, fifo_push ll (from_option (fun tk => Z.to_nat (Task.prio tk)) 0%nat (h !! task)) task)
  | Pop => (fst <$> fifo_pop ll, from_option snd ll (fifo_pop ll))
  | PopWithPrio prio =>
      match top ll with
      | Some i => if Z.of_nat i <? prio then (None, ll)
                  else (fst <$> fifo_pop ll, from_option snd ll (fifo_pop ll))
      | None => (None, ll)
      end
  end.

Definition valid_op (h : task_heap) (o : op) : Prop :=
  match o with
  | Push task => exists tk, h !! task = Some tk /\ 0 <= Task.prio tk < Z.of_nat NO_PRIORITIES
  | _ => True
  end.

(** ** Properties *)

(** C18: from a well-formed ready queue, [push], [pop] and [pop_with_prio]
    return a result (no index goes out of range), keep the queue well formed,
    and answer what the abstract priority FIFO answers: the oldest task of the
    highest ready priority, and for [pop_with_prio] nothing when that priority
    is below the requested one. *)
Theorem ready_queue_refines h self o :
  wf h self -> valid_op h o ->
  exists self', step h o self = Some ((spec_step h o (queues self)).1, self') /\
    wf h self' /\ queues self' = (spec_step h o (queues self)).2.
Proof.
  intros Hwf Hv. destruct o as [task| |prio]; cbn.
  - destruct Hv as (tk & Htk & Hp). rewrite Htk. cbn.
    destruct (push_ok _ _ _ _ Hwf Htk Hp) as (q & -> & ?). by exists q.
  - by apply pop_ok.
  - pose proof Hwf as (_ & Hb & _). rewrite (pop_with_prio_ok _ _ Hb).
    destruct (top (queues self)) as [i|]; [|by exists self].
    destruct (_ <? _); [by exists self|]. by apply pop_ok.
Qed.

(** changing the priority of a ready task that the handle locates (same
    identifier, in the queue of the handle's priority) succeeds: the task cell
    gets the new priority, the task goes to the back of the queue of that
    priority, no other task is added, lost or moved, and the queue stays well
    formed.  A handle whose recorded priority is not the one the task is queued
    under is answered with an error and changes nothing. *)
Theorem ready_queue_set_priority h self handle prio :
  wf h self -> NoDup (tasks self) ->
  0 <= prio < Z.of_nat NO_PRIORITIES ->
  0 <= TaskHandle.get_priority handle < Z.of_nat NO_PRIORITIES ->
  (exists task tk self',
     h !! task = Some tk /\ Task.id tk = TaskHandle.get_id handle /\
     Task.prio tk = TaskHandle.get_priority handle /\ task ∈ tasks self /\
     set_priority h self handle prio = Some (Ok tt, alter (Task.set_prio prio) task h, self') /\
     wf (alter (Task.set_prio prio) task h) self' /\ tasks self' ≡ₚ tasks self /\
     exists older, queues self' !! Z.to_nat prio = Some (older ++ [task])) \/
  (set_priority h self handle prio = Some (Err tt, h, self) /\
   forall task tk, task ∈ tasks self -> h !! task = Some tk ->
     Task.prio tk = TaskHandle.get_priority handle -> Task.id tk <> TaskHandle.get_id handle).
Proof.
  intros Hwf Hnd Hp Hhp. pose proof Hwf as (Hlen & _ & Hq).
  set (i := Z.to_nat (TaskHandle.get_priority handle)).
  destruct (lookup_lt_is_Some_2 (queues self) i ltac:(subst i; lia)) as [queue Hi].
  destruct (position h (TaskHandle.get_id handle) queue) as [k|] eqn:Hpos; [left|right].
  - destruct (position_Some _ _ _ _ Hpos) as (task & tk & Hk & Htk & Hid).
    destruct (set_priority_found h self handle prio queue k task Hwf Hnd Hp Hi Hpos Hk)
      as (self' & E & Hwf' & Hq' & Hperm).
    apply list_elem_of_lookup_2 in Hk. destruct (Hq _ _ _ Hi Hk) as (tk' & ? & Hprio).
    assert (tk' = tk) as -> by congruence. exists task, tk, self'. split_and!; try done.
    + rewrite Hprio. subst i. lia.
    + apply elem_of_concat_lookup. eauto.
    + rewrite Hq'. unfold fifo_push. fold i.
      destruct (lookup_lt_is_Some_2 (<[i:=delete k queue]> (queues self)) (Z.to_nat prio))
        as [l Hl]; [rewrite length_insert; lia|]. rewrite Hl.
      exists l. by rewrite list_lookup_insert_eq by (rewrite length_insert; lia).
  - split; [unfold set_priority; fold i; rewrite Hi; cbn; by rewrite Hpos|].
    intros task tk Hin Htk Hprio.
    apply elem_of_concat_lookup in Hin as (j & q & Hj & Hin).
    destruct (Hq _ _ _ Hj Hin) as (tk' & ? & Hprio'). simplify_eq.
    assert (j = i) as -> by (subst i; lia). simplify_eq. by eapply position_None.
Qed.

(** A heap with two tasks of equal priority, both ready, in arrival order. *)
Definition demo_task (id prio : Z) : Task.t :=
  Task.new ∅ id 0 Ready prio (TaskStacks.Boot 0).
Definition demo_heap : task_heap := {[ 1%nat := demo_task 7 2; 2%nat := demo_task 8 2 ]}.
Definition demo_queue : t :=
  {| queues := <[2%nat := [1%nat; 2%nat]]> (queues new); prio_bitmap := 4 |}.

Lemma demo_wf : wf demo_heap demo_queue.
Proof.
  destruct (push_ok demo_heap new 1%nat (demo_task 7 2)) as (q1 & E1 & Hwf1 & _);
    [apply new_wf|done|by vm_compute|].
  destruct (push_ok demo_heap q1 2%nat (demo_task 8 2)) as (q2 & E2 & Hwf2 & _);
    [done..|by vm_compute|].
  vm_compute in E1. simplify_eq. vm_compute in E2. simplify_eq. exact Hwf2.
Qed.

Lemma ready_queue_refines_witness :
  wf demo_heap demo_queue /\
  exists self', step demo_heap Pop demo_queue = Some (Some 1%nat, self') /\
    wf demo_heap self' /\ queues self' = <[2%nat := [2%nat]]> (queues new).
Proof.
  split; [exact demo_wf|].
  exact (ready_queue_refines demo_heap demo_queue Pop demo_wf I).
Defined.

Lemma ready_queue_set_priority_witness :
  exists self',
    set_priority demo_heap demo_queue (TaskHandle.new 7 2 0) 3 =
      Some (Ok tt, alter (Task.set_prio 3) 1%nat demo_heap, self') /\
    queues self' !! 3%nat = Some [1%nat].
Proof.
  destruct (ready_queue_set_priority demo_heap demo_queue (TaskHandle.new 7 2 0) 3)
    as [(task & tk & self' & _ & _ & _ & _ & E & _)|[E _]].
  - exact demo_wf.
  - apply (bool_decide_unpack _). by vm_compute.
  - by vm_compute.
  - by vm_compute.
  - eexists. split; [reflexivity|reflexivity].
  - vm_compute in E. discriminate E.
Defined.

End ReadyQueue.
