(* ===== verification/Timers.v ===== *)
(** The software timers multiplexed on the one-shot hardware timer of a core:
    [src/src/scheduler/timer_interrupts.rs].  The state is the [TimerList] of
    the core's scheduler, the deadline [set_oneshot_timer] last programmed, and
    how often [wake_network_waker] ran.  [now] is the value [get_timer_ticks]
    returns during the operation. *)

From S2P Require Import Prelude.

Module Timers.

Inductive Source : Set := Network | Scheduler.
Definition Source_eqb (a b : Source) : bool :=
  match a, b with
  | Network, Network | Scheduler, Scheduler => true
  | _, _ => false
  end.

Record Slot : Set := mkSlot { source : Source; wakeup_time : Z }.

Definition set_wakeup_time (w : Z) (s : Slot) : Slot := mkSlot (source s) w.

(** [TimerList([Slot; 2])] *)
Definition TimerList : Set := list Slot.

Definition new : TimerList := [mkSlot Network u64_max; mkSlot Scheduler u64_max].

Record t : Set := mk {
  timers : TimerList;
  oneshot : option Z; (** the deadline programmed in the hardware *)
  network_wakes : nat;
}.

Definition init : t := mk new None 0.

Definition set_timers (ts : TimerList) (s : t) : t := mk ts (oneshot s) (network_wakes s).
Definition set_oneshot_timer (w : option Z) : M t unit :=
  modify (fun s => mk (timers s) w (network_wakes s)).
Definition wake_network_waker : M t unit :=
  modify (fun s => mk (timers s) (oneshot s) (S (network_wakes s))).

(** [iter_mut().find(|slot| slot.source == source)]: the index of the slot. *)
Fixpoint slot_by_source_mut (ts : TimerList) (src : Source) : option nat :=
  match ts with
  | [] => None
  | s :: ts => if Source_eqb (source s) src then Some 0%nat
               else S <$> slot_by_source_mut ts src
  end.

(** [iter().min_by(..)]: the first slot among those with the least wakeup time. *)
Fixpoint next_timer (ts : TimerList) : option (nat * Slot) :=
  match ts with
  | [] => None
  | s :: ts =>
      match next_timer ts with
      | Some (i, m) => if wakeup_time m <? wakeup_time s then Some (S i, m) else Some (0%nat, s)
      | None => Some (0%nat, s)
      end
  end.

Definition adjust_by (ts : TimerList) (offset : Z) : TimerList :=
  map (fun timer =>
         if wakeup_time timer =? u64_max then timer
         else set_wakeup_time (wrapu 64 (wakeup_time timer - offset)) timer) ts.

Definition create_timer_abs (src : Source) (w : Z) : M t unit :=
  let! s := get in
  let! i := unwrap (slot_by_source_mut (timers s) src) "slot_by_source_mut" in
  let ts := alter (fun e => set_wakeup_time (Z.min (wakeup_time e) w) e) i (timers s) in
  do! modify (set_timers ts) in
  let! ' (_, nxt) := unwrap (next_timer ts) "next_timer" in
  if wakeup_time nxt =? w then set_oneshot_timer (Some w) else ret tt.

Definition create_timer (now : Z) (src : Source) (wakeup_micros : Z) : M t unit :=
  create_timer_abs src (wrapu 64 (now + wakeup_micros)).

Definition clear_active_and_set_next (now : Z) : M t unit :=
  let! s := get in
  let! ' (i, lowest_timer) := unwrap (next_timer (timers s)) "next_timer_mut" in
  do! assert_ (negb (wakeup_time lowest_timer =? u64_max)) "no timer is set" in
  do! (match source lowest_timer with
       | Network => wake_network_waker
       | Scheduler => ret tt
       end) in
  let prev_wakeup_time := wakeup_time lowest_timer in
  let ts := alter (set_wakeup_time u64_max) i (timers s) in
  let timer_ticks := now in
  let ts := if timer_ticks <? prev_wakeup_time
            then adjust_by ts (wrapu 64 (prev_wakeup_time - timer_ticks)) else ts in
  do! modify (set_timers ts) in
  let! ' (_, new_lowest_timer) := unwrap (next_timer ts) "next_timer" in
  if wakeup_time new_lowest_timer =? u64_max then set_oneshot_timer None
  else set_oneshot_timer (Some (wakeup_time new_lowest_timer)).

(** ** Invariant *)

(** The deadline of a source, [u64_max] when the timer is not set. *)
Definition deadline (src : Source) (s : t) : Z :=
  match slot_by_source_mut (timers s) src with
  | Some i => from_option wakeup_time u64_max (timers s !! i)
  | None => u64_max
  end.

(** What the hardware has to be programmed to when the earliest software
    deadline is [d]. *)
Definition hw_deadline (d : Z) : option Z := if d =? u64_max then None else Some d.

(** One slot per source, deadlines of 64 bits, and the hardware timer armed for
    the earliest deadline, or off when no timer is set. *)
Definition wf (s : t) : Prop :=
  exists n k, timers s = [mkSlot Network n; mkSlot Scheduler k] /\
    0 <= n <= u64_max /\ 0 <= k <= u64_max /\ oneshot s = hw_deadline (Z.min n k).

Lemma init_wf : wf init.
Proof. exists u64_max, u64_max. by vm_compute. Qed.

(** ** Behaviour of the operations *)

Ltac timer_cases :=
  repeat match goal with
  | |- context [if ?a =? ?b then _ else _] => destruct (Z.eqb_spec a b); cbn
  | |- context [if ?a <? ?b then _ else _] => destruct (Z.ltb_spec a b); cbn
  end.

Lemma next_timer_pair n k :
  exists i src, next_timer [mkSlot Network n; mkSlot Scheduler k] = Some (i, mkSlot src (Z.min n k)) /\
    [mkSlot Network n; mkSlot Scheduler k] !! i = Some (mkSlot src (Z.min n k)) /\
    i = (if k <? n then 1%nat else 0%nat).
Proof.
  cbn. destruct (Z.ltb_spec k n).
  - exists 1%nat, Scheduler. by rewrite Z.min_r by lia.
  - exists 0%nat, Network. by rewrite Z.min_l by lia.
Qed.

Lemma hw_deadline_Some d : d < u64_max -> hw_deadline d = Some d.
Proof. unfold hw_deadline. destruct (Z.eqb_spec d u64_max); [lia|done]. Qed.

(** [create_timer_abs] on a well-formed timer list. *)
Lemma create_timer_abs_ok s src w :
  wf s -> 0 <= w < u64_max ->
  exists s', create_timer_abs src w s = Done tt s' /\ wf s' /\
    deadline src s' = Z.min (deadline src s) w /\
    (forall src', src' <> src -> deadline src' s' = deadline src' s) /\
    network_wakes s' = network_wakes s.
Proof.
  intros (n & k & Hts & Hn & Hk & Hhw) Hw. destruct s as [ts hw nw]; simplify_eq/=.
  set (n' := if Source_eqb src Network then Z.min n w else n).
  set (k' := if Source_eqb src Scheduler then Z.min k w else k).
  set (ts' := [mkSlot Network n'; mkSlot Scheduler k']).
  set (hw' := if Z.min n' k' =? w then Some w else hw_deadline (Z.min n k)).
  assert (E : create_timer_abs src w (mk [mkSlot Network n; mkSlot Scheduler k]
                (hw_deadline (Z.min n k)) nw) = Done tt (mk ts' hw' nw)).
  { unfold create_timer_abs, bind, get, modify, unwrap. subst ts' hw' n' k'.
    destruct (next_timer_pair n (Z.min k w)) as (i1 & s1 & E1 & _).
    destruct (next_timer_pair (Z.min n w) k) as (i2 & s2 & E2 & _).
    destruct src; cbn -[next_timer]; unfold ret, set_wakeup_time, set_timers; cbn -[next_timer];
      rewrite ?E1, ?E2; cbn -[Z.min]; by destruct (_ =? w). }
  exists (mk ts' hw' nw). split; [exact E|]. split_and!.
  - assert (Hn' : 0 <= n' <= u64_max) by (subst n'; destruct (Source_eqb src Network); lia).
    assert (Hk' : 0 <= k' <= u64_max) by (subst k'; destruct (Source_eqb src Scheduler); lia).
    exists n', k'. split_and!; [done|lia..|].
    cbn. subst hw'. destruct (Z.eqb_spec (Z.min n' k') w) as [->|].
    + by rewrite hw_deadline_Some by lia.
    + f_equal. subst n' k'. destruct src; cbn in *; lia.
  - subst ts' n' k'. by destruct src.
  - subst ts' n' k'. by destruct src; intros [].
  - done.
Qed.

(** What the timer list becomes when the [i]-th timer, the earliest one, fires. *)
Definition fired (ts : TimerList) (i : nat) (prev now : Z) : TimerList :=
  let ts := alter (set_wakeup_time u64_max) i ts in
  if now <? prev then adjust_by ts (wrapu 64 (prev - now)) else ts.

Lemma clear_active_run ts hw nw now i low j nxt :
  next_timer ts = Some (i, low) -> wakeup_time low < u64_max ->
  next_timer (fired ts i (wakeup_time low) now) = Some (j, nxt) ->
  clear_active_and_set_next now (mk ts hw nw) =
    Done tt (mk (fired ts i (wakeup_time low) now) (hw_deadline (wakeup_time nxt))
               (nw + if Source_eqb (source low) Network then 1 else 0)%nat).
Proof.
  intros Elow Hlow Enxt. unfold clear_active_and_set_next, bind, get, modify, unwrap, assert_.
  cbn [timers]. rewrite Elow. unfold ret at 1. cbn iota beta.
  rewrite (proj2 (Z.eqb_neq _ _)) by lia. cbn [negb]. unfold ret at 1. cbn iota beta.
  fold (fired ts i (wakeup_time low) now). rewrite Enxt. unfold hw_deadline.
  destruct low as [[] wl]; cbn -[u64_max fired next_timer];
    rewrite ?Nat.add_0_r, ?Nat.add_1_r; by destruct (_ =? u64_max).
Qed.

(** The deadline another timer is left with: moved by as much as the interrupt
    was early, an unset timer left unset. *)
Definition moved (prev now d : Z) : Z :=
  if d =? u64_max then u64_max else d - Z.max 0 (prev - now).

Lemma moved_wrap prev now d :
  0 <= prev <= d -> d <= u64_max -> 0 <= now < prev ->
  (if d =? u64_max then d else wrapu 64 (d - wrapu 64 (prev - now))) = moved prev now d.
Proof.
  intros. unfold moved. destruct (Z.eqb_spec d u64_max) as [->|]; [done|].
  unfold u64_max in *. rewrite !wrapu_small; rewrite ?wrapu_small; lia.
Qed.

Lemma moved_range prev now d :
  0 <= prev <= d -> d <= u64_max -> 0 <= now -> 0 <= moved prev now d <= u64_max.
Proof. intros. unfold moved. destruct (Z.eqb_spec d u64_max); lia. Qed.

(** The pair of slots after the earliest one has fired. *)
Lemma fired_pair n k now :
  0 <= n <= u64_max -> 0 <= k <= u64_max -> 0 <= now ->
  fired [mkSlot Network n; mkSlot Scheduler k] (if k <? n then 1%nat else 0%nat) (Z.min n k) now =
    if k <? n then [mkSlot Network (moved k now n); mkSlot Scheduler u64_max]
    else [mkSlot Network u64_max; mkSlot Scheduler (moved n now k)].
Proof.
  intros Hn Hk Hnow. unfold fired. destruct (Z.ltb_spec k n).
  - rewrite Z.min_r by lia. destruct (Z.ltb_spec now k) as [Hc|Hc]; cbn -[u64_max].
    + unfold set_wakeup_time; cbn -[u64_max]. rewrite Z.eqb_refl, <- (moved_wrap k now n) by lia.
      by destruct (n =? u64_max).
    + unfold moved. destruct (Z.eqb_spec n u64_max) as [->|]; [done|].
      by rewrite Z.max_l, Z.sub_0_r by lia.
  - rewrite Z.min_l by lia. destruct (Z.ltb_spec now n) as [Hc|Hc]; cbn -[u64_max].
    + unfold set_wakeup_time; cbn -[u64_max]. rewrite Z.eqb_refl, <- (moved_wrap n now k) by lia.
      by destruct (k =? u64_max).
    + unfold moved. destruct (Z.eqb_spec k u64_max) as [->|]; [done|].
      by rewrite Z.max_l, Z.sub_0_r by lia.
Qed.

(** [clear_active_and_set_next] when a timer is set. *)
Lemma clear_active_ok s now :
  wf s -> 0 <= now -> oneshot s <> None ->
  exists s' src,
    clear_active_and_set_next now s = Done tt s' /\ wf s' /\
    oneshot s = Some (deadline src s) /\ deadline src s' = u64_max /\
    (forall src', src' <> src -> deadline src' s' = moved (deadline src s) now (deadline src' s)) /\
    network_wakes s' = (network_wakes s + if Source_eqb src Network then 1 else 0)%nat.
Proof.
  intros (n & k & Hts & Hn & Hk & Hhw) Hnow Hset. destruct s as [ts hw nw]; simplify_eq/=.
  assert (Hlt : Z.min n k < u64_max).
  { unfold hw_deadline in Hset. destruct (Z.eqb_spec (Z.min n k) u64_max); [done|lia]. }
  rewrite hw_deadline_Some in * by done.
  pose proof (fired_pair n k now Hn Hk Hnow) as Hf.
  destruct (next_timer_pair n k) as (i & src & E1 & Hi & Hidx). rewrite <- Hidx in Hf.
  destruct (k <? n) eqn:Hkn; bool_hyps; subst i; cbn in Hi.
  - assert (src = Scheduler) as -> by congruence.
    destruct (next_timer_pair (moved k now n) u64_max) as (j & s2 & E2 & _). rewrite <- Hf in E2.
    exists (mk (fired [mkSlot Network n; mkSlot Scheduler k] 1 (Z.min n k) now)
              (hw_deadline (Z.min (moved k now n) u64_max)) (nw + 0)), Scheduler.
    split; [exact (clear_active_run _ _ _ _ _ _ _ _ E1 Hlt E2)|].
    rewrite Hf. split_and!; try done.
    + pose proof (moved_range k now n ltac:(lia) ltac:(lia) Hnow).
      exists (moved k now n), u64_max. split_and!; try done; lia.
    + cbn. f_equal. lia.
    + by intros [].
  - assert (src = Network) as -> by congruence.
    destruct (next_timer_pair u64_max (moved n now k)) as (j & s2 & E2 & _). rewrite <- Hf in E2.
    exists (mk (fired [mkSlot Network n; mkSlot Scheduler k] 0 (Z.min n k) now)
              (hw_deadline (Z.min u64_max (moved n now k))) (nw + 1)), Network.
    split; [exact (clear_active_run _ _ _ _ _ _ _ _ E1 Hlt E2)|].
    rewrite Hf. split_and!; try done.
    + pose proof (moved_range n now k ltac:(lia) ltac:(lia) Hnow).
      exists u64_max, (moved n now k). split_and!; try done; lia.
    + cbn. f_equal. lia.
    + by intros [].
Qed.

(** ** Sequences of operations *)

(** A timer set by a component, or the timer interrupt, which the hardware
    only raises when it has been armed. *)
Inductive op : Set :=
  | Create (src : Source) (w : Z)
  | Interrupt (now : Z).

Definition enabled (o : op) (s : t) : Prop :=
  match o with
  | Create _ w => 0 <= w < u64_max
  | Interrupt now => 0 <= now /\ oneshot s <> None
  end.

Definition exec_op (o : op) : M t unit :=
  match o with
  | Create src w => create_timer_abs src w
  | Interrupt now => clear_active_and_set_next now
  end.

Inductive reachable : t -> Prop :=
  | reach_init : reachable init
  | reach_step o s s' :
      reachable s -> enabled o s -> exec_op o s = Done tt s' -> reachable s'.

Lemma reachable_wf s : reachable s -> wf s.
Proof.
  induction 1 as [|o s s' _ IH He E]; [exact init_wf|].
  destruct o as [src w|now]; cbn [enabled exec_op] in *.
  - destruct (create_timer_abs_ok s src w IH He) as (? & E' & ? & _). congruence.
  - destruct He as [Hnow Hset].
    destruct (clear_active_ok s now IH Hnow Hset) as (? & ? & E' & ? & _). congruence.
Qed.

(** The earliest pending deadline. *)
Definition earliest (s : t) : Z := Z.min (deadline Network s) (deadline Scheduler s).

(** ** Properties *)

(** C29: in every state reachable by setting timers and taking timer
    interrupts, no further operation panics (the assertion that some timer is
    set holds at every interrupt), and the hardware timer is armed for exactly
    the earliest deadline of the two sources, or switched off when no timer is
    set: a pending timer is never lost. *)
Theorem timer_hardware_tracks_earliest s o :
  reachable s -> enabled o s ->
  oneshot s = hw_deadline (earliest s) /\
  exists s', exec_op o s = Done tt s' /\ oneshot s' = hw_deadline (earliest s').
Proof.
  intros Hr He. pose proof (reachable_wf s Hr) as Hwf.
  assert (Hhw : forall s, wf s -> oneshot s = hw_deadline (earliest s)).
  { intros s0 (n & k & Hts & _ & _ & ->). unfold earliest, deadline. by rewrite Hts. }
  split; [by apply Hhw|]. destruct o as [src w|now]; cbn [enabled exec_op] in *.
  - destruct (create_timer_abs_ok s src w Hwf He) as (s' & E & ? & _). exists s'. auto.
  - destruct He as [Hnow Hset].
    destruct (clear_active_ok s now Hwf Hnow Hset) as (s' & ? & E & ? & _). exists s'. auto.
Qed.

(** setting a timer keeps the earlier of the old and the new deadline of
    that source and leaves the other source alone; a timer interrupt clears
    the earliest timer, wakes the network exactly when that timer was the
    network's, and moves the other timer by as much as the interrupt came
    early, without wrapping below zero and without touching an unset timer. *)
Theorem timer_operations s src w now :
  wf s -> 0 <= w < u64_max -> 0 <= now ->
  (exists s', create_timer_abs src w s = Done tt s' /\
     deadline src s' = Z.min (deadline src s) w /\
     (forall src', src' <> src -> deadline src' s' = deadline src' s)) /\
  (oneshot s <> None ->
   exists s' fst, clear_active_and_set_next now s = Done tt s' /\
     oneshot s = Some (deadline fst s) /\ deadline fst s' = u64_max /\
     (forall src', src' <> fst ->
        deadline src' s' = moved (deadline fst s) now (deadline src' s) /\
        0 <= deadline src' s' <= u64_max) /\
     network_wakes s' = (network_wakes s + if Source_eqb fst Network then 1 else 0)%nat).
Proof.
  intros Hwf Hw Hnow. split.
  - destruct (create_timer_abs_ok s src w Hwf Hw) as (s' & E & _ & ? & ? & _). by exists s'.
  - intros Hset.
    destruct (clear_active_ok s now Hwf Hnow Hset) as (s' & fst & E & Hwf' & ? & ? & Hd & ?).
    exists s', fst. split_and!; try done. intros src' Hne. split; [by apply Hd|].
    destruct Hwf' as (n & k & Hts & ? & ? & _). unfold deadline. rewrite Hts. by destruct src'.
Qed.

Definition demo : t := mk [mkSlot Network 500; mkSlot Scheduler 300] (Some 300) 0.

Lemma demo_reachable : reachable demo.
Proof.
  pose (s1 := mk [mkSlot Network 500; mkSlot Scheduler u64_max] (Some 500) 0).
  apply (reach_step (Create Scheduler 300) s1); [|by vm_compute|reflexivity].
  apply (reach_step (Create Network 500) init); [exact reach_init|by vm_compute|reflexivity].
Qed.

Lemma timer_hardware_tracks_earliest_witness :
  oneshot demo = Some 300 /\
  exists s', clear_active_and_set_next 290 demo = Done tt s' /\
    oneshot s' = hw_deadline (earliest s').
Proof.
  destruct (timer_hardware_tracks_earliest demo (Interrupt 290)) as [E (s' & Es & Hs)].
  - exact demo_reachable.
  - split; [lia|discriminate].
  - split; [exact E|]. exists s'. split; [exact Es|exact Hs].
Defined.

Lemma timer_operations_witness :
  exists s', create_timer_abs Scheduler 700 demo = Done tt s' /\ deadline Scheduler s' = 300.
Proof.
  destruct (timer_operations demo Scheduler 700 290) as [(s' & E & Hd & _) _].
  - exact (reachable_wf _ demo_reachable).
  - unfold u64_max; lia.
  - lia.
  - exists s'. split; [exact E|exact Hd].
Defined.

End Timers.
