(* ===== verification/Supervisor.v ===== *)
(** The restart policy of task entry points:
    [src/src/scheduler/supervisor.rs].  [now] is the value of
    [get_timer_ticks] (microseconds); a [Duration] is its length in
    nanoseconds. *)

From Stdlib Require Import Sorted.
From S2P Require Import Prelude Tasks.

Module Supervisor.

Module RestartPolicy.
Inductive t : Set :=
  | None_
  | Always
  | MaxN (count window : Z).
End RestartPolicy.
Notation RestartPolicy := RestartPolicy.t (only parsing).

(** [Duration::as_micros] *)
Definition as_micros (d : Z) : Z := d / 1000.

Record RestartEntry : Set := mk {
  policy : RestartPolicy;
  restart_count : Z;
  window_start : Z;
}.

Definition new (p : RestartPolicy) : RestartEntry := mk p 0 0.

(** The window update at the start of the [MaxN] branch. *)
Definition slide (self : RestartEntry) (window_us now : Z) : RestartEntry :=
  if negb (window_us =? 0) && negb (window_start self =? 0)
     && (window_us <=? sat_sub now (window_start self))
  then mk (policy self) 0 now
  else if window_start self =? 0 then mk (policy self) (restart_count self) now
  else self.

Definition may_restart (self : RestartEntry) (now : Z) : bool * RestartEntry :=
  match policy self with
  | RestartPolicy.None_ => (false, self)
  | RestartPolicy.Always =>
      (true, mk (policy self) (sat_add u32_max (restart_count self) 1) (window_start self))
  | RestartPolicy.MaxN count window =>
      let window_us := wrapu 64 (as_micros window) in
      let self := slide self window_us now in
      if restart_count self <? count
      then (true, mk (policy self) (sat_add u32_max (restart_count self) 1) (window_start self))
      else (false, self)
  end.

(** [RESTART_TABLE], indexed by the discriminant of [EntryPointId]. *)
Definition RESTART_TABLE : list RestartEntry :=
  [new RestartPolicy.None_; new RestartPolicy.None_].

Definition entry_index (id : EntryPointId) : nat :=
  match id with EntryPointId.Idle => 0 | EntryPointId.AppTask => 1 end.

Definition should_restart (now : Z) (id : EntryPointId) : M (list RestartEntry) bool :=
  let idx := entry_index id in
  let! table := get in
  do! assert_ (bool_decide (idx < length table)%nat) "EntryPointId discriminant out of range" in
  let! e := unwrap (table !! idx) "index out of range" in
  let '(r, e) := may_restart e now in
  do! put (<[idx := e]> table) in
  ret r.

(** ** Histories

    The answers for the deaths of one entry point at the times [ts]. *)
Fixpoint run (e : RestartEntry) (ts : list Z) : list (Z * bool) :=
  match ts with
  | [] => []
  | now :: ts => let '(r, e) := may_restart e now in (now, r) :: run e ts
  end.

Definition granted_in (a b : Z) (x : Z * bool) : bool :=
  snd x && (a <=? fst x) && (fst x <? b).

(** How many restarts were granted at times in [[a, b)]. *)
Definition grants (a b : Z) (e : RestartEntry) (ts : list Z) : Z :=
  Z.of_nat (length (List.filter (granted_in a b) (run e ts))).

(** What one answer adds to the count. *)
Definition hit (a b : Z) (x : Z * bool) : Z := if granted_in a b x then 1 else 0.
#[local] Arguments hit : simpl never.

Lemma hit_le a b x : 0 <= hit a b x <= 1.
Proof. unfold hit. destruct (granted_in a b x); lia. Qed.

Lemma hit_false a b now : hit a b (now, false) = 0.
Proof. done. Qed.

Lemma hit_outside a b now r : now < a \/ b <= now -> hit a b (now, r) = 0.
Proof.
  intros H. unfold hit, granted_in. cbn.
  destruct (Z.leb_spec a now), (Z.ltb_spec now b); try lia; by rewrite ?andb_false_r.
Qed.

Lemma grants_cons a b e now ts :
  grants a b e (now :: ts) =
    hit a b (now, fst (may_restart e now)) + grants a b (snd (may_restart e now)) ts.
Proof.
  unfold grants, hit. cbn. destruct (may_restart e now) as [r e']. cbn.
  destruct (granted_in a b (now, r)); cbn [length]; lia.
Qed.

(** Deaths after [b] are not counted. *)
Lemma grants_late a b e ts : Forall (fun x => b <= x) ts -> grants a b e ts = 0.
Proof.
  intros Hts. revert e. induction Hts as [|now ts Hb _ IH]; intros e; [done|].
  rewrite grants_cons, IH, hit_outside; lia.
Qed.

Section Window.
Context (count window : Z).
Let W := wrapu 64 (as_micros window).
Context (HW : 0 < W) (Hcount : 0 <= count <= u32_max).

(** One death under [MaxN]: either the window has expired and a new one
    starts now, or the running one is charged. *)
Lemma may_restart_MaxN rc ws now :
  0 <= rc -> 0 <= ws <= now ->
  let expired := negb (ws =? 0) && (ws + W <=? now) in
  let base := if expired then 0 else rc in
  may_restart (mk (RestartPolicy.MaxN count window) rc ws) now =
    (base <? count,
     mk (RestartPolicy.MaxN count window) (if base <? count then base + 1 else base)
       (if expired || (ws =? 0) then now else ws)).
Proof.
  intros Hrc Hws expired base. unfold may_restart. cbn. fold W. unfold slide, sat_sub, sat_add. cbn.
  rewrite (proj2 (Z.eqb_neq W 0)) by lia. cbn.
  replace (W <=? 0 `max` (now - ws)) with (ws + W <=? now)
    by (destruct (Z.leb_spec (ws + W) now), (Z.leb_spec W (0 `max` (now - ws))); lia || done).
  fold expired. subst base. destruct expired eqn:E; [|destruct (ws =? 0) eqn:E0]; cbn.
  all: match goal with |- context [?b <? count] => destruct (Z.ltb_spec b count) end; cbn.
  all: rewrite ?Z.min_r by lia; done.
Qed.

(** A window that began inside the span has to pay for the rest of it. *)
Lemma grants_same_window a b rc ws ts :
  b <= a + W -> a <= ws -> 0 < ws -> 0 <= rc <= count ->
  Forall (fun x => ws <= x) ts -> Sorted Z.le ts ->
  grants a b (mk (RestartPolicy.MaxN count window) rc ws) ts <= count - rc.
Proof.
  intros Hspan Ha Hws Hrc Hts Hsort. revert rc Hrc.
  induction Hts as [|now ts Hnow Hts IH]; intros rc Hrc; [unfold grants; cbn; lia|].
  apply Sorted_StronglySorted in Hsort; [|intros ?; lia].
  apply StronglySorted_inv in Hsort as [Hsort Hhd].
  destruct (Z.le_gt_cases (ws + W) now) as [Hexp|Hin].
  - rewrite grants_late; [lia|]. constructor; [lia|].
    eapply Forall_impl; [|exact Hhd]. cbn. lia.
  - rewrite grants_cons, may_restart_MaxN by lia.
    rewrite (proj2 (Z.leb_gt _ _) Hin), (proj2 (Z.eqb_neq ws 0)) by lia. cbn.
    apply StronglySorted_Sorted in Hsort. specialize (IH Hsort).
    destruct (Z.ltb_spec rc count).
    + specialize (IH (rc + 1) ltac:(lia)). pose proof (hit_le a b (now, true)); lia.
    + rewrite hit_false. specialize (IH rc Hrc). lia.
Qed.

(** From the beginning of the span on, at most one more window begins. *)
Lemma grants_two_windows a b rc ws ts :
  b <= a + W -> 0 <= ws -> 0 <= rc <= count ->
  Forall (fun x => ws <= x /\ 0 < x /\ a <= x) ts -> Sorted Z.le ts ->
  grants a b (mk (RestartPolicy.MaxN count window) rc ws) ts <= (count - rc) + count.
Proof.
  intros Hspan. revert rc ws. induction ts as [|now ts IH]; intros rc ws Hws Hrc Hts Hsort;
    [unfold grants; cbn; lia|].
  apply Forall_cons_iff in Hts as [(Hnow & Hpos & Ha) Hts].
  apply Sorted_StronglySorted in Hsort; [|intros ?; lia].
  apply StronglySorted_inv in Hsort as [Hsort Hhd]. apply StronglySorted_Sorted in Hsort.
  rewrite grants_cons, may_restart_MaxN by lia.
  destruct (negb (ws =? 0) && (ws + W <=? now)) eqn:Eexp; cbn.
  - destruct (Z.ltb_spec 0 count); cbn.
    + pose proof (grants_same_window a b (0 + 1) now ts Hspan Ha Hpos ltac:(lia) Hhd Hsort).
      pose proof (hit_le a b (now, true)). lia.
    + pose proof (grants_same_window a b 0 now ts Hspan Ha Hpos ltac:(lia) Hhd Hsort).
      rewrite hit_false. lia.
  - assert (Hws' : 0 <= (if ws =? 0 then now else ws)) by (destruct (ws =? 0); lia).
    assert (Hts'' : Forall (fun x => (if ws =? 0 then now else ws) <= x /\ 0 < x /\ a <= x) ts).
    { destruct (ws =? 0); [|done]. eapply Forall_impl; [|exact Hhd]. cbn. lia. }
    destruct (Z.ltb_spec rc count).
    + specialize (IH (rc + 1) _ Hws' ltac:(lia) Hts'' Hsort). pose proof (hit_le a b (now, true)); lia.
    + specialize (IH rc _ Hws' ltac:(lia) Hts'' Hsort). rewrite hit_false. lia.
Qed.

(** Deaths before the span are not counted, whatever they do to the entry. *)
Lemma grants_span a b rc ws ts :
  b <= a + W -> 0 <= ws -> 0 <= rc <= count ->
  Forall (fun x => ws <= x /\ 0 < x) ts -> Sorted Z.le ts ->
  grants a b (mk (RestartPolicy.MaxN count window) rc ws) ts <= 2 * count.
Proof.
  intros Hspan. revert rc ws. induction ts as [|now ts IH]; intros rc ws Hws Hrc Hts Hsort;
    [unfold grants; cbn; lia|].
  pose proof Hts as [[Hnow Hpos] _]%Forall_cons_iff. pose proof Hsort as Hsort'.
  apply Sorted_StronglySorted in Hsort; [|intros ?; lia].
  apply StronglySorted_inv in Hsort as [Hsort Hhd]. apply StronglySorted_Sorted in Hsort.
  destruct (Z.le_gt_cases a now) as [Ha|Ha].
  - transitivity (count - rc + count); [|lia]. apply grants_two_windows; try done.
    constructor; [lia|]. eapply Forall_impl; [|exact Hhd]. cbn. lia.
  - rewrite grants_cons, hit_outside, may_restart_MaxN by lia. cbn.
    set (base := if negb (ws =? 0) && _ then 0 else rc).
    set (ws' := if _ || (ws =? 0) then now else ws).
    assert (0 <= base <= count) by (subst base; destruct (_ && _); lia).
    assert (0 <= ws' <= now) by (subst ws'; destruct (_ || _); lia).
    apply IH; [lia|destruct (Z.ltb_spec base count); lia| |done].
    eapply Forall_impl; [|exact Hhd]. cbn. lia.
Qed.
End Window.

(** ** Properties *)

(** under [MaxN { count, window }] with a window of at least one
    microsecond, whatever the times at which the entry point dies, the
    supervisor grants at most [2 * count] restarts in any span of time no
    longer than the window: a crash loop cannot pin a core. *)
Theorem restart_rate_bounded count window ts a b :
  0 < wrapu 64 (as_micros window) -> 0 <= count <= u32_max ->
  Forall (fun x => 0 < x) ts -> Sorted Z.le ts ->
  b <= a + wrapu 64 (as_micros window) ->
  grants a b (new (RestartPolicy.MaxN count window)) ts <= 2 * count.
Proof.
  intros HW Hc Hts Hsort Hspan.
  apply grants_span; [done..|lia|lia| |done].
  eapply Forall_impl; [|exact Hts]. cbn. lia.
Qed.

Lemma restart_rate_bounded_witness :
  grants 10 20 (new (RestartPolicy.MaxN 2 10000)) [1; 10; 11; 12; 13] <= 4.
Proof.
  apply (restart_rate_bounded 2 10000 [1; 10; 11; 12; 13] 10 20).
  - by vm_compute.
  - unfold u32_max; lia.
  - repeat constructor; lia.
  - repeat constructor; lia.
  - by vm_compute.
Defined.

(** the window is a tumbling one, not a sliding one: with a policy of at
    most two restarts per 10 microseconds the supervisor grants three restarts
    in a span of three microseconds, because the second falls at the end of
    one window and the next two at the start of the following one. *)
Theorem restart_window_tumbles :
  run (new (RestartPolicy.MaxN 2 10000)) [1; 10; 11; 12] =
    [(1, true); (10, true); (11, true); (12, true)] /\
  grants 10 13 (new (RestartPolicy.MaxN 2 10000)) [1; 10; 11; 12] = 3.
Proof. by vm_compute. Qed.

(** consulting the table never panics and touches only the entry of the
    given identifier; [None] refuses and records nothing, [Always] grants, and
    [MaxN] grants to an entry whose window has run out. *)
Theorem should_restart_decides now id table e :
  length table = 2%nat -> table !! entry_index id = Some e ->
  exists r e', should_restart now id table = Done r (<[entry_index id := e']> table) /\
    policy e' = policy e /\
    match policy e with
    | RestartPolicy.None_ => r = false /\ e' = e
    | RestartPolicy.Always => r = true
    | RestartPolicy.MaxN count window =>
        0 < count -> 0 < wrapu 64 (as_micros window) -> 0 < window_start e ->
        window_start e + wrapu 64 (as_micros window) <= now ->
        r = true /\ restart_count e' = 1 /\ window_start e' = now
    end.
Proof.
  intros Hlen He. destruct (may_restart e now) as [r e'] eqn:E. exists r, e'.
  unfold should_restart, bind, get, assert_, unwrap.
  rewrite bool_decide_true by (destruct id; cbn; lia). unfold ret at 1. rewrite He.
  unfold ret at 1. rewrite E. split; [done|].
  destruct e as [p rc ws]. destruct p as [| |count window]; unfold may_restart in E; cbn in *.
  - by simplify_eq.
  - by simplify_eq.
  - split.
    + revert E. unfold slide. cbn. repeat case_match; intros; by simplify_eq.
    + intros Hc HW Hws Hexp. revert E. unfold slide, sat_sub, sat_add, u32_max. cbn.
      rewrite (proj2 (Z.eqb_neq _ 0)) by lia. rewrite (proj2 (Z.eqb_neq _ 0)) by lia.
      rewrite (proj2 (Z.leb_le _ _)) by lia. cbn.
      rewrite (proj2 (Z.ltb_lt _ _)) by lia. intros; by simplify_eq.
Qed.

Lemma should_restart_decides_witness :
  exists r e', should_restart 5 EntryPointId.AppTask RESTART_TABLE
    = Done r (<[1%nat := e']> RESTART_TABLE) /\ r = false.
Proof.
  destruct (should_restart_decides 5 EntryPointId.AppTask RESTART_TABLE
              (new RestartPolicy.None_) eq_refl eq_refl) as (r & e' & E & _ & Hr & _).
  exists r, e'. split; [exact E|exact Hr].
Defined.

End Supervisor.
