(* ===== verification/SlotPool.v ===== *)
(** The per-core pool of exception scratch slots
    ([src/src/arch/aarch64/kernel/slot_pool.rs]) and the initial stack frame of
    a task ([create_stack_frame] in
    [src/src/arch/aarch64/kernel/scheduler.rs]).  Memory is a map from
    addresses to 64-bit words; a saved [State] frame is 36 consecutive words.
    The address of the slot area ([__start_exception_slots]) and of
    [task_start] are fixed by the linker and are arguments. *)

From S2P Require Import Prelude Tasks.

Module SlotPool.

Definition memory : Type := Z -> Z.

Definition write (a v : Z) (m : memory) : memory := fun x => if x =? a then v else m x.

Record t : Type := mk {
  CORE_SLOTS : list (list Z); (** per core: owner of each slot, -1 when free *)
  mem : memory;
}.

Definition STATE_SIZE : Z := ARCH_STATE_SIZE.
Definition STATE_WORDS : nat := 36.
Definition SLOT_STRIDE : Z := EXCEPTION_SLOT_SIZE + EXCEPTION_SLOT_GUARD.

(** [CORE_SLOTS] after boot: four cores, all slots free. *)
Definition all_free : list (list Z) := replicate 4 (replicate SLOTS_PER_CORE (-1)).

(** [for w in 0..n { *dst.add(w) = *src.add(w) }], one word at a time. *)
Fixpoint copy_words (n : nat) (src dst : Z) (m : memory) : memory :=
  match n with
  | O => m
  | S n => copy_words n (src + 8) (dst + 8) (write dst (m src) m)
  end.

Definition copy_frame (src dst : Z) (m : memory) : memory := copy_words STATE_WORDS src dst m.

Section Pool.
Context (start_exception_slots : Z).

Definition slot_top (core : Z) (i : nat) : Z :=
  start_exception_slots + core * Z.of_nat SLOTS_PER_CORE * SLOT_STRIDE
  + Z.of_nat i * SLOT_STRIDE + EXCEPTION_SLOT_SIZE.

Definition owners_for_core (core : Z) : M t (list Z) :=
  let! s := get in
  do! assert_ (core <? Z.of_nat (length (CORE_SLOTS s))) "owners_for_core: core out of range" in
  unwrap (CORE_SLOTS s !! Z.to_nat core) "index out of range".

Definition set_owners (core : Z) (owners : list Z) : M t unit :=
  modify (fun s => mk (<[Z.to_nat core := owners]> (CORE_SLOTS s)) (mem s)).

(** The first free slot, claimed with the sentinel owner [i32::MAX]. *)
Fixpoint acquire (owners : list Z) : option (nat * list Z) :=
  match owners with
  | [] => None
  | o :: owners =>
      if o =? -1 then Some (0%nat, i32_max :: owners)
      else '(i, owners) ← acquire owners; Some (S i, o :: owners)
  end.

Definition release (owners : list Z) (i : nat) : list Z := <[i := -1]> owners.
Definition set_owner (owners : list Z) (i : nat) (owner : Z) : list Z := <[i := owner]> owners.

Definition copy (src dst : Z) : M t unit :=
  modify (fun s => mk (CORE_SLOTS s) (copy_frame src dst (mem s))).

(** The tail the two acquiring operations share: copy the frame into slot
    [idx], point the task at it and record the owner. *)
Definition place_in_slot (core : Z) (idx : nat) (owners : list Z) (task : Task.t) : M t Task.t :=
  let frame_base := slot_top core idx - STATE_SIZE in
  do! copy (Task.last_stack_pointer task) frame_base in
  do! set_owners core (set_owner owners idx (Task.id task)) in
  ret (Task.set_wake_pending false (Task.set_frame_location InSlot
        (Task.set_slot (Some idx) (Task.set_last_stack_pointer frame_base task)))).

Definition dispatch_acquire_slot (core : Z) (task : Task.t) : M t (bool * Task.t) :=
  let! owners := owners_for_core core in
  match acquire owners with
  | None => ret (false, task)
  | Some (idx, owners) =>
      let! task := place_in_slot core idx owners task in
      ret (true, task)
  end.

Definition release_slot (core : Z) (task : Task.t) : M t unit :=
  match Task.slot task with
  | None => ret tt
  | Some slot =>
      do! assert_ (slot <? SLOTS_PER_CORE)%nat "release_slot: slot out of range" in
      do! assert_ (bool_decide (Task.frame_location task = InSlot))
            "release_slot: frame_location must be InSlot to release" in
      let! owners := owners_for_core core in
      set_owners core (release owners slot)
  end.

Definition evict_victim (core : Z) (slot_idx : nat) (victim : Task.t) : M t (bool * Task.t) :=
  do! assert_ (bool_decide (Task.frame_location victim = InSlot))
        "evict_victim: victim frame_location must be InSlot" in
  do! assert_ (bool_decide (is_Some (Task.slot victim))) "evict_victim: victim.slot must be Some" in
  let victim := Task.set_frame_location BeingEvicted victim in
  let frame_base := slot_top core slot_idx - STATE_SIZE in
  do! copy frame_base (Task.last_stack_pointer victim) in
  let victim := Task.set_slot None (Task.set_frame_location Evicted victim) in
  let! owners := owners_for_core core in
  do! assert_ (slot_idx <? length owners)%nat "index out of range" in
  do! set_owners core (release owners slot_idx) in
  let woken := Task.wake_pending victim in
  ret (woken, Task.set_wake_pending false victim).

Definition resume_from_evicted (core : Z) (task : Task.t) : M t (bool * Task.t) :=
  do! assert_ (bool_decide (Task.frame_location task = Evicted))
        "resume_from_evicted: task frame_location must be Evicted" in
  let! owners := owners_for_core core in
  match acquire owners with
  | None => ret (false, task)
  | Some (idx, owners) =>
      let! task := place_in_slot core idx owners task in
      ret (true, task)
  end.

End Pool.

(** ** The initial frame *)

(** Byte offsets of the fields of [#[repr(C)] struct State]. *)
Definition off_spsel : Z := 0.
Definition off_elr_el1 : Z := 8.
Definition off_spsr_el1 : Z := 16.
Definition off_sp_el0 : Z := 24.
Definition off_tpidr_el0 : Z := 32.
Definition off_x (n : Z) : Z := 40 + 8 * n.

(** [while w < body_hi { *w = 0x5eed.. | (w & ..); w += 8 }], [n] iterations. *)
Fixpoint sentinel_fill (n : nat) (w : Z) (m : memory) : memory :=
  match n with
  | O => m
  | S n => sentinel_fill n (w + 8)
             (write w (Z.lor 0x5eed000000000000 (Z.land w 0x0000fffffffffff8)) m)
  end.

(** [for word in state_words.iter_mut() { *word = 0 }] *)
Fixpoint zero_words (n : nat) (a : Z) (m : memory) : memory :=
  match n with
  | O => m
  | S n => zero_words n (a + 8) (write a 0 m)
  end.

(** [TaskStacks::new]: the page range and the frame range come from the
    allocators, mapping them is the page tables' business; the user stack is
    cleared word by word. *)
Definition new_stacks (size page_start frame_start : Z) (m : memory) : TaskStacks.t * memory :=
  let stacks := TaskStacks.new size page_start frame_start in
  (stacks, zero_words (Z.to_nat (TaskStacks.user_stack_size size / 8))
             (TaskStacks.get_user_stack stacks) m).

Section Frame.
(** The address of [task_start], and the thread pointer [Tls::from_env]
    gives a task of a program that has thread-local storage. *)
Context (task_start : Z) (from_env : option Z).

Definition create_stack_frame (func arg : Z) (self : Task.t) (m : memory) : Task.t * memory :=
  let self := match Task.tls self with
              | None => Task.set_tls from_env self
              | Some _ => self
              end in
  let stacks := Task.stacks self in
  let kstack := TaskStacks.get_kernel_stack stacks in
  let stack := kstack + TaskStacks.get_kernel_stack_size stacks - TaskStacks.MARKER_SIZE in
  let m := write stack 0xdeadbeef m in
  let body_hi := stack - STATE_SIZE in
  let m := sentinel_fill (Z.to_nat ((body_hi - kstack + 7) / 8)) kstack m in
  let stack := stack - STATE_SIZE in
  let m := zero_words STATE_WORDS stack m in
  let m := match Task.tls self with
           | Some thread_ptr => write (stack + off_tpidr_el0) thread_ptr m
           | None => m
           end in
  let m := write (stack + off_elr_el1) task_start m in
  let m := write (stack + off_x 0) func m in
  let m := write (stack + off_x 1) arg m in
  let m := write (stack + off_spsel) 0 m in
  let m := write (stack + off_spsr_el1) 0x3e4 m in
  let self := Task.set_last_stack_pointer stack self in
  let sp_top :=
    match stacks with
    | TaskStacks.Boot _ => stack + STATE_SIZE + TaskStacks.MARKER_SIZE
    | TaskStacks.Common _ _ _ =>
        TaskStacks.get_user_stack stacks + TaskStacks.get_user_stack_size stacks
        - TaskStacks.MARKER_SIZE
    end in
  let m := write (stack + off_sp_el0) (sp_top - 16) m in
  let usp := TaskStacks.get_user_stack stacks + TaskStacks.get_user_stack_size stacks
             - TaskStacks.MARKER_SIZE in
  let self := Task.set_user_stack_pointer usp self in
  (self, write usp 0xdeadbeef m).
End Frame.

(** ** Lemmas on memory *)

Lemma write_eq a v m : write a v m a = v.
Proof. unfold write. by rewrite Z.eqb_refl. Qed.

Lemma write_ne a v m x : x <> a -> write a v m x = m x.
Proof. intros. unfold write. by rewrite (proj2 (Z.eqb_neq x a)). Qed.

(** Addresses of the [n] words from [a] on. *)
Definition in_words (n : nat) (a x : Z) : Prop := exists k, (k < n)%nat /\ x = a + 8 * Z.of_nat k.

Lemma in_words_cons n a x : in_words (S n) a x <-> x = a \/ in_words n (a + 8) x.
Proof.
  split.
  - intros ([|k] & Hk & ->); [left; lia|right]. exists k. split; lia.
  - intros [->|(k & Hk & ->)]; [exists 0%nat|exists (S k)]; split; lia.
Qed.

Lemma copy_words_outside n src dst m x : ~ in_words n dst x -> copy_words n src dst m x = m x.
Proof.
  revert src dst m. induction n as [|n IH]; intros src dst m Hx; [done|]. cbn.
  rewrite in_words_cons in Hx. rewrite IH by tauto. apply write_ne. tauto.
Qed.

(** Copying onto itself changes nothing. *)
Lemma copy_words_same n a m x : copy_words n a a m x = m x.
Proof.
  revert a m. induction n as [|n IH]; intros a m; [done|]. cbn. rewrite IH.
  unfold write. destruct (Z.eqb_spec x a); congruence.
Qed.

(** Copying to words that are not read arrives word by word. *)
Lemma copy_words_disjoint n src dst m k :
  (forall x, in_words n src x -> ~ in_words n dst x) -> (k < n)%nat ->
  copy_words n src dst m (dst + 8 * Z.of_nat k) = m (src + 8 * Z.of_nat k).
Proof.
  revert src dst m k. induction n as [|n IH]; intros src dst m k Hdis Hk; [lia|]. cbn.
  assert (Hsrc : forall x, in_words (S n) src x -> x <> dst).
  { intros x Hx ->. apply (Hdis dst Hx), in_words_cons. by left. }
  destruct k as [|k].
  - rewrite copy_words_outside by (intros (k & ? & ?); lia).
    rewrite Z.add_0_r, write_eq. f_equal. lia.
  - replace (dst + 8 * Z.of_nat (S k)) with (dst + 8 + 8 * Z.of_nat k) by lia.
    replace (src + 8 * Z.of_nat (S k)) with (src + 8 + 8 * Z.of_nat k) by lia.
    rewrite IH; [|intros x Hx Hx'; apply (Hdis x); apply in_words_cons; by right|lia].
    apply write_ne, Hsrc. apply in_words_cons. right. exists k. split; lia.
Qed.

Lemma copy_frame_spec src dst m :
  (src + STATE_SIZE <= dst \/ dst + STATE_SIZE <= src) ->
  (forall k, (k < STATE_WORDS)%nat ->
     copy_frame src dst m (dst + 8 * Z.of_nat k) = m (src + 8 * Z.of_nat k)) /\
  (forall x, ~ in_words STATE_WORDS dst x -> copy_frame src dst m x = m x).
Proof.
  intros Hd. split.
  - intros k Hk. apply copy_words_disjoint; [|done].
    intros x (i & Hi & ->) (j & Hj & Hx).
    unfold STATE_SIZE, ARCH_STATE_SIZE, STATE_WORDS in *. lia.
  - intros x Hx. by apply copy_words_outside.
Qed.

Lemma copy_frame_same a m x : copy_frame a a m x = m x.
Proof. apply copy_words_same. Qed.

#[global] Opaque copy_frame.

(** ** Lemmas on the free list *)

Lemma acquire_spec owners :
  match acquire owners with
  | Some (i, owners') =>
      owners !! i = Some (-1) /\ (forall j, (j < i)%nat -> owners !! j <> Some (-1)) /\
      owners' = <[i := i32_max]> owners
  | None => forall i, owners !! i <> Some (-1)
  end.
Proof.
  induction owners as [|o owners IH]; cbn; [done|].
  destruct (Z.eqb_spec o (-1)) as [->|Ho].
  - split_and!; [done| |done]. intros j Hj. lia.
  - destruct (acquire owners) as [[i owners']|]; cbn.
    + destruct IH as (Hi & Hj & ->). split_and!; [done| |done].
      intros [|j] Hlt; cbn; [congruence|]. apply Hj. lia.
    + intros [|i]; cbn; [congruence|]. apply IH.
Qed.

Section PoolLemmas.
Context (base : Z).
Notation slot_top := (slot_top base).
Notation place_in_slot := (place_in_slot base).

(** Slot bodies do not overlap and have a guard page between them. *)
Lemma slot_bodies_apart core i core' j :
  (i < SLOTS_PER_CORE)%nat -> (j < SLOTS_PER_CORE)%nat -> (core, i) <> (core', j) ->
  slot_top core i + EXCEPTION_SLOT_GUARD <= slot_top core' j - EXCEPTION_SLOT_SIZE \/
  slot_top core' j + EXCEPTION_SLOT_GUARD <= slot_top core i - EXCEPTION_SLOT_SIZE.
Proof.
  unfold SlotPool.slot_top, SLOTS_PER_CORE, SLOT_STRIDE, EXCEPTION_SLOT_SIZE, EXCEPTION_SLOT_GUARD.
  intros Hi Hj Hne.
  destruct (Z.lt_trichotomy core core') as [?|[->|?]]; [lia| |lia].
  assert (i <> j) by congruence. lia.
Qed.

Lemma owners_for_core_ok core owners s :
  0 <= core -> CORE_SLOTS s !! Z.to_nat core = Some owners ->
  owners_for_core core s = Done owners s.
Proof.
  intros Hc Ho. pose proof (lookup_lt_Some _ _ _ Ho).
  unfold owners_for_core, bind, get, assert_, unwrap.
  rewrite (proj2 (Z.ltb_lt _ _)) by lia. cbn. by rewrite Ho.
Qed.

(** The task as the two acquiring operations leave it. *)
Definition placed (core : Z) (i : nat) (task : Task.t) : Task.t :=
  Task.set_wake_pending false (Task.set_frame_location InSlot
    (Task.set_slot (Some i)
      (Task.set_last_stack_pointer (slot_top core i - STATE_SIZE) task))).

(** The pool as they leave it. *)
Definition placed_pool (core : Z) (i : nat) (owners : list Z) (task : Task.t) (s : t) : t :=
  mk (<[Z.to_nat core := <[i := Task.id task]> owners]> (CORE_SLOTS s))
     (copy_frame (Task.last_stack_pointer task) (slot_top core i - STATE_SIZE) (mem s)).

Lemma dispatch_run core owners task s :
  0 <= core -> CORE_SLOTS s !! Z.to_nat core = Some owners ->
  (dispatch_acquire_slot base core task s = Done (false, task) s /\
     forall i, owners !! i <> Some (-1)) \/
  (exists i, dispatch_acquire_slot base core task s =
       Done (true, placed core i task) (placed_pool core i owners task s) /\
     owners !! i = Some (-1) /\ forall j, (j < i)%nat -> owners !! j <> Some (-1)).
Proof.
  intros Hc Ho. unfold dispatch_acquire_slot, SlotPool.place_in_slot, set_owner, placed_pool.
  unfold bind, copy, set_owners, modify, ret.
  rewrite (owners_for_core_ok _ _ _ Hc Ho). pose proof (acquire_spec owners) as Hacq.
  destruct (acquire owners) as [[i owners']|]; [right|by left].
  destruct Hacq as (Hi & Hj & ->). exists i. split; [|done].
  by rewrite list_insert_insert_eq.
Qed.

Lemma resume_run core owners task s :
  0 <= core -> CORE_SLOTS s !! Z.to_nat core = Some owners ->
  Task.frame_location task = Evicted ->
  resume_from_evicted base core task s = dispatch_acquire_slot base core task s.
Proof.
  intros Hc Ho Hev. unfold resume_from_evicted, bind at 1, assert_.
  by rewrite bool_decide_true.
Qed.

Definition evicted (task : Task.t) : Task.t :=
  Task.set_wake_pending false (Task.set_slot None (Task.set_frame_location Evicted
    (Task.set_frame_location BeingEvicted task))).

Lemma evict_run core owners i victim s :
  0 <= core -> CORE_SLOTS s !! Z.to_nat core = Some owners ->
  Task.frame_location victim = InSlot -> Task.slot victim = Some i -> (i < length owners)%nat ->
  evict_victim base core i victim s =
    Done (Task.wake_pending victim, evicted victim)
      (mk (<[Z.to_nat core := <[i := -1]> owners]> (CORE_SLOTS s))
          (copy_frame (slot_top core i - STATE_SIZE) (Task.last_stack_pointer victim) (mem s))).
Proof.
  intros Hc Ho Hin Hslot Hlt. unfold evict_victim, bind, assert_.
  rewrite !bool_decide_true by (rewrite ?Hslot; eauto). unfold ret at 1. cbn [copy modify].
  unfold ret at 1. cbn beta iota. unfold copy, modify.
  rewrite (owners_for_core_ok core owners) by done.
  rewrite (proj2 (Nat.ltb_lt _ _)) by done. done.
Qed.

Lemma release_run core owners i task s :
  0 <= core -> CORE_SLOTS s !! Z.to_nat core = Some owners ->
  Task.frame_location task = InSlot -> Task.slot task = Some i -> (i < SLOTS_PER_CORE)%nat ->
  release_slot core task s =
    Done tt (mk (<[Z.to_nat core := <[i := -1]> owners]> (CORE_SLOTS s)) (mem s)).
Proof.
  intros Hc Ho Hin Hslot Hlt. unfold release_slot. rewrite Hslot.
  unfold bind, assert_. rewrite (proj2 (Nat.ltb_lt _ _)) by done.
  rewrite bool_decide_true by done. unfold ret. cbn beta iota.
  by rewrite (owners_for_core_ok core owners).
Qed.
End PoolLemmas.

(** ** The pool and the tasks of a core

    The operations on the cells of the core's tasks, in the way the scheduler
    calls them: [ensure_slot] only acquires for a task without a slot, evicts
    the slot a victim holds, and resumes an evicted task; [exit] marks the task
    finished and gives back the slot of a slot-resident one. *)
Definition live (tk : Task.t) : Prop := Task.status tk <> Finished /\ Task.status tk <> Invalid.

Inductive op : Set := Dispatch (r : tref) | Resume (r : tref) | Evict (r : tref) | Exit (r : tref).

Definition on_task (r : tref) (f : Task.t -> M t (bool * Task.t)) : M (task_heap * t) bool :=
  let! ' (h, p) := get in
  let! tk := unwrap (h !! r) "no such task" in
  match f tk p with
  | Done (b, tk) p => do! put (<[r := tk]> h, p) in ret b
  | Panic why => panic why
  end.

Definition exec_op (base core : Z) (o : op) : M (task_heap * t) bool :=
  match o with
  | Dispatch r => on_task r (dispatch_acquire_slot base core)
  | Resume r => on_task r (resume_from_evicted base core)
  | Evict r => on_task r (fun tk =>
      let! i := unwrap (Task.slot tk) "no slot" in evict_victim base core i tk)
  | Exit r => on_task r (fun tk =>
      let tk := Task.set_status Finished tk in
      if bool_decide (Task.frame_location tk = InSlot)
      then do! release_slot core tk in ret (true, tk)
      else ret (true, tk))
  end.

Definition enabled (h : task_heap) (o : op) : Prop :=
  match o with
  | Dispatch r => exists tk, h !! r = Some tk /\ live tk /\ Task.slot tk = None
  | Resume r => exists tk, h !! r = Some tk /\ live tk /\ Task.slot tk = None /\
                  Task.frame_location tk = Evicted
  | Evict r => exists tk, h !! r = Some tk /\ live tk /\ Task.slot tk <> None
  | Exit r => exists tk, h !! r = Some tk /\ live tk
  end.

(** Identifiers are not negative and name at most one live task. *)
Definition ids_ok (h : task_heap) : Prop :=
  (forall (r : tref) tk (r' : tref) tk',
     h !! r = Some tk -> h !! r' = Some tk' -> live tk -> live tk' ->
     Task.id tk = Task.id tk' -> r = r') /\
  (forall (r : tref) tk, h !! r = Some tk -> 0 <= Task.id tk).

(** Updating a live task without renaming it. *)
Lemma ids_ok_insert h r tk tk' :
  ids_ok h -> h !! r = Some tk -> live tk -> Task.id tk' = Task.id tk -> ids_ok (<[r := tk']> h).
Proof.
  intros [Hids Hnn] Htk Hlive Eid. split.
  - intros q tq q' tq' Hq Hq' Hl Hl' E.
    apply lookup_insert_Some in Hq as [[<- <-]|[? Hq]], Hq' as [[<- <-]|[? Hq']]; try done.
    + rewrite Eid in E. eapply (Hids r tk q' tq'); eauto.
    + rewrite Eid in E. symmetry. eapply (Hids r tk q tq); eauto.
    + eauto.
  - intros q tq [[<- <-]|[Hne Hq]]%lookup_insert_Some; [rewrite Eid|]; eauto.
Qed.

(** Every live task that holds a slot owns it, every owned slot is held by a
    live task, and identifiers of live tasks are distinct. *)
Record pool_inv (core : Z) (h : task_heap) (p : t) (owners : list Z) : Prop := {
  inv_owners : CORE_SLOTS p !! Z.to_nat core = Some owners;
  inv_length : length owners = SLOTS_PER_CORE;
  inv_held : forall r tk i, h !! r = Some tk -> live tk -> Task.slot tk = Some i ->
    Task.frame_location tk = InSlot /\ owners !! i = Some (Task.id tk);
  inv_owned : forall i o, owners !! i = Some o -> o <> -1 ->
    exists r tk, h !! r = Some tk /\ live tk /\ Task.slot tk = Some i /\ Task.id tk = o;
  inv_ids : ids_ok h;
}.

(** A task that takes slot [i] (free before), or gives up the slot it holds. *)
Lemma pool_inv_take core h p owners r tk i tk' p' :
  pool_inv core h p owners -> h !! r = Some tk -> live tk -> Task.slot tk = None ->
  owners !! i = Some (-1) ->
  Task.id tk' = Task.id tk -> Task.status tk' = Task.status tk ->
  Task.slot tk' = Some i -> Task.frame_location tk' = InSlot ->
  CORE_SLOTS p' = <[Z.to_nat core := <[i := Task.id tk]> owners]> (CORE_SLOTS p) ->
  pool_inv core (<[r := tk']> h) p' (<[i := Task.id tk]> owners).
Proof.
  intros [Hown Hlen Hheld Howned Hids] Htk Hlive Hnone Hi Eid Est Eslot Eloc Ep.
  pose proof (lookup_lt_Some _ _ _ Hi).
  assert (Hlive' : live tk') by (unfold live in *; by rewrite Est).
  split.
  - rewrite Ep. apply list_lookup_insert_eq. by apply lookup_lt_Some in Hown.
  - by rewrite length_insert.
  - intros q tq j [[<- <-]|[Hne Hq]]%lookup_insert_Some Hl Hs.
    + simplify_eq. split; [done|]. rewrite list_lookup_insert_eq by done. congruence.
    + destruct (Hheld q tq j Hq Hl Hs) as [? Ho]. split; [done|].
      rewrite list_lookup_insert_ne; [done|]. intros ->.
      rewrite Hi in Ho. apply (proj2 Hids) in Hq. simplify_eq. lia.
  - intros j o Hj Ho. destruct (decide (i = j)) as [<-|Hne].
    + rewrite list_lookup_insert_eq in Hj by done. exists r, tk'. rewrite lookup_insert_eq.
      split_and!; congruence.
    + rewrite list_lookup_insert_ne in Hj by done.
      destruct (Howned j o Hj Ho) as (q & tq & Hq & Hl & Hs & Hid).
      exists q, tq. rewrite lookup_insert_ne; [done|]. intros <-. congruence.
  - by eapply ids_ok_insert.
Qed.

Lemma pool_inv_give core h p owners r tk i tk' p' :
  pool_inv core h p owners -> h !! r = Some tk -> live tk -> Task.slot tk = Some i ->
  Task.id tk' = Task.id tk -> (live tk' -> Task.slot tk' = None) ->
  CORE_SLOTS p' = <[Z.to_nat core := <[i := -1]> owners]> (CORE_SLOTS p) ->
  pool_inv core (<[r := tk']> h) p' (<[i := -1]> owners).
Proof.
  intros [Hown Hlen Hheld Howned Hids] Htk Hlive Hsome Eid Eslot Ep.
  destruct (Hheld r tk i Htk Hlive Hsome) as [_ Hi].
  pose proof (lookup_lt_Some _ _ _ Hi).
  split.
  - rewrite Ep. apply list_lookup_insert_eq. by apply lookup_lt_Some in Hown.
  - by rewrite length_insert.
  - intros q tq j [[<- <-]|[Hne Hq]]%lookup_insert_Some Hl Hs.
    + rewrite (Eslot Hl) in Hs. done.
    + destruct (Hheld q tq j Hq Hl Hs) as [? Ho]. split; [done|].
      rewrite list_lookup_insert_ne; [done|]. intros ->.
      apply Hne. rewrite Hi in Ho. eapply (proj1 Hids); eauto. congruence.
  - intros j o Hj Ho. destruct (decide (i = j)) as [<-|Hne].
    + rewrite list_lookup_insert_eq in Hj by done. congruence.
    + rewrite list_lookup_insert_ne in Hj by done.
      destruct (Howned j o Hj Ho) as (q & tq & Hq & Hl & Hs & Hid).
      exists q, tq. rewrite lookup_insert_ne; [done|]. intros <-. congruence.
  - by eapply ids_ok_insert.
Qed.

(** A task without a slot that stays without one. *)
Lemma pool_inv_keep core h p owners r tk tk' :
  pool_inv core h p owners -> h !! r = Some tk -> live tk -> Task.slot tk = None ->
  Task.id tk' = Task.id tk -> Task.slot tk' = None ->
  pool_inv core (<[r := tk']> h) p owners.
Proof.
  intros [Hown Hlen Hheld Howned Hids] Htk Hlive Hnone Eid Eslot.
  split; [done..| | |by eapply ids_ok_insert].
  - intros q tq j [[<- <-]|[Hne Hq]]%lookup_insert_Some Hl Hs; [congruence|eauto].
  - intros j o Hj Ho. destruct (Howned j o Hj Ho) as (q & tq & Hq & Hl & Hs & Hid).
    exists q, tq. rewrite lookup_insert_ne; [done|]. intros <-. congruence.
Qed.

Lemma on_task_ok r f h p tk b tk' p' :
  h !! r = Some tk -> f tk p = Done (b, tk') p' ->
  on_task r f (h, p) = Done b (<[r := tk']> h, p').
Proof. intros Hr Hf. unfold on_task, bind, get, unwrap. rewrite Hr. unfold ret at 1. by rewrite Hf. Qed.

(** ** Properties *)

Section Properties.
Context (base core : Z) (Hcore : 0 <= core).

(** Dispatching or resuming a task without a slot. *)
Lemma acquire_inv h p owners r tk f :
  pool_inv core h p owners -> h !! r = Some tk -> live tk -> Task.slot tk = None ->
  f tk p = dispatch_acquire_slot base core tk p ->
  exists b h' p' owners',
    on_task r f (h, p) = Done b (h', p') /\ pool_inv core h' p' owners'.
Proof using Hcore.
  intros Hinv Htk Hl Hs Hf. pose proof (inv_owners _ _ _ _ Hinv) as Ho.
  destruct (dispatch_run base core owners tk p Hcore Ho) as [[E _]|(i & E & Hi & _)].
  - exists false, (<[r := tk]> h), p, owners.
    split; [eapply on_task_ok; [done|by rewrite Hf]|]. by eapply pool_inv_keep.
  - exists true, (<[r := placed base core i tk]> h), (placed_pool base core i owners tk p),
      (<[i := Task.id tk]> owners).
    split; [eapply on_task_ok; [done|by rewrite Hf]|]. by eapply pool_inv_take.
Qed.

(** C20: the slot pool never gives a slot to two tasks and never leaks one.
    From a state where the owner table agrees with the live tasks, every
    operation of the scheduler on the pool (dispatch, resume, evict, exit)
    runs without panicking and ends in such a state, in which two live tasks
    holding the same slot are the same task, and every slot marked owned is
    held by a live task. *)
Theorem slot_pool_exclusive h p owners o :
  pool_inv core h p owners -> enabled h o ->
  exists b h' p' owners',
    exec_op base core o (h, p) = Done b (h', p') /\ pool_inv core h' p' owners' /\
    (forall r tk r' tk' i, h' !! r = Some tk -> h' !! r' = Some tk' -> live tk -> live tk' ->
       Task.slot tk = Some i -> Task.slot tk' = Some i -> r = r').
Proof using Hcore.
  intros Hinv Hen.
  assert (Hstep : exists b h' p' owners',
    exec_op base core o (h, p) = Done b (h', p') /\ pool_inv core h' p' owners').
  { pose proof (inv_owners _ _ _ _ Hinv) as Ho. pose proof (inv_length _ _ _ _ Hinv) as Hlen.
    destruct o as [r|r|r|r]; cbn [enabled exec_op] in *.
    - destruct Hen as (tk & Htk & Hl & Hs). by eapply acquire_inv.
    - destruct Hen as (tk & Htk & Hl & Hs & Hev).
      eapply acquire_inv; [done..|]. by eapply resume_run.
    - destruct Hen as (tk & Htk & Hl & Hs). destruct (Task.slot tk) as [i|] eqn:Es; [clear Hs|done].
      destruct (inv_held _ _ _ _ Hinv _ _ _ Htk Hl Es) as [Hloc Hi].
      pose proof (lookup_lt_Some _ _ _ Hi) as Hlt.
      eexists _, _, _, _. split.
      + eapply on_task_ok; [done|]. unfold bind, unwrap. rewrite Es.
        by apply (evict_run base core owners).
      + by eapply pool_inv_give.
    - destruct Hen as (tk & Htk & Hl).
      assert (Hdead : ~ live (Task.set_status Finished tk)) by (intros [? _]; done).
      destruct (Task.slot tk) as [i|] eqn:Es.
      + destruct (inv_held _ _ _ _ Hinv _ _ _ Htk Hl Es) as [Hloc Hi].
        pose proof (lookup_lt_Some _ _ _ Hi) as Hlt. rewrite Hlen in Hlt.
        eexists _, _, _, _. split.
        * eapply on_task_ok; [done|]. cbn. rewrite bool_decide_true by done.
          unfold bind. by rewrite (release_run core owners i).
        * by eapply pool_inv_give.
      + eexists _, _, _, _. split; [|by eapply (pool_inv_keep _ _ _ _ _ tk (Task.set_status Finished tk))].
        eapply on_task_ok; [done|]. cbn. case_bool_decide; [|done].
        unfold bind, release_slot. cbn. by rewrite Es. }
  destruct Hstep as (b & h' & p' & owners' & E & Hinv'). exists b, h', p', owners'.
  split_and!; [done..|]. intros q tq q' tq' i Hq Hq' Hl Hl' Hs Hs'.
  destruct (inv_held _ _ _ _ Hinv' _ _ _ Hq Hl Hs) as [_ Ho].
  destruct (inv_held _ _ _ _ Hinv' _ _ _ Hq' Hl' Hs') as [_ Ho'].
  eapply (proj1 (inv_ids _ _ _ _ Hinv')); eauto. congruence.
Qed.

(** dispatching a task either finds no free slot and changes nothing, or
    takes the lowest free one: the slot's top 36 words become the saved
    frame word for word, no other word of memory changes (in particular
    nothing in any other slot), the frame ends exactly at the slot top, and
    the slot is recorded as the task's. *)
Theorem dispatch_moves_frame owners task s :
  CORE_SLOTS s !! Z.to_nat core = Some owners -> length owners = SLOTS_PER_CORE ->
  (forall i, (i < SLOTS_PER_CORE)%nat ->
     Task.last_stack_pointer task + STATE_SIZE <= slot_top base core i - STATE_SIZE \/
     slot_top base core i <= Task.last_stack_pointer task) ->
  (dispatch_acquire_slot base core task s = Done (false, task) s /\
     forall i, owners !! i <> Some (-1)) \/
  (exists i task' s',
     dispatch_acquire_slot base core task s = Done (true, task') s' /\
     owners !! i = Some (-1) /\ (forall j, (j < i)%nat -> owners !! j <> Some (-1)) /\
     CORE_SLOTS s' = <[Z.to_nat core := <[i := Task.id task]> owners]> (CORE_SLOTS s) /\
     Task.slot task' = Some i /\ Task.frame_location task' = InSlot /\
     Task.last_stack_pointer task' + STATE_SIZE = slot_top base core i /\
     (forall k, (k < STATE_WORDS)%nat ->
        mem s' (Task.last_stack_pointer task' + 8 * Z.of_nat k) =
        mem s (Task.last_stack_pointer task + 8 * Z.of_nat k)) /\
     (forall x, ~ in_words STATE_WORDS (Task.last_stack_pointer task') x -> mem s' x = mem s x) /\
     (forall j c x, (j < SLOTS_PER_CORE)%nat -> (c, j) <> (core, i) ->
        slot_top base c j - EXCEPTION_SLOT_SIZE <= x < slot_top base c j -> mem s' x = mem s x)).
Proof using Hcore.
  intros Ho Hlen Hdis.
  destruct (dispatch_run base core owners task s Hcore Ho) as [?|(i & E & Hi & Hj)]; [by left|right].
  assert (Hlt : (i < SLOTS_PER_CORE)%nat) by (apply lookup_lt_Some in Hi; lia).
  destruct (copy_frame_spec (Task.last_stack_pointer task) (slot_top base core i - STATE_SIZE) (mem s))
    as [Hin Hout]; [destruct (Hdis i Hlt); lia|].
  exists i, (placed base core i task), (placed_pool base core i owners task s).
  split_and!; try done; [cbn; lia|].
  intros j c x Hjl Hne Hx. apply Hout. intros (k & Hk & ->).
  pose proof (slot_bodies_apart base core i c j Hlt Hjl ltac:(congruence)).
  unfold STATE_SIZE, ARCH_STATE_SIZE, STATE_WORDS, EXCEPTION_SLOT_GUARD, EXCEPTION_SLOT_SIZE in *. lia.
Qed.

(** evicting a slot-resident victim saves nothing.  The victim's saved
    stack pointer is the frame in the slot itself (dispatching set it), so
    the copy out of the slot writes the frame onto itself, and the next task
    dispatched into the freed slot overwrites the only copy: afterwards the
    36 words at the victim's stack pointer are the other task's frame. *)
Theorem eviction_loses_frame owners victim task i s :
  CORE_SLOTS s !! Z.to_nat core = Some owners -> length owners = SLOTS_PER_CORE ->
  Task.frame_location victim = InSlot -> Task.slot victim = Some i ->
  Task.last_stack_pointer victim = slot_top base core i - STATE_SIZE ->
  (i < SLOTS_PER_CORE)%nat -> (forall j, owners !! j <> Some (-1)) ->
  (Task.last_stack_pointer task + STATE_SIZE <= slot_top base core i - STATE_SIZE \/
   slot_top base core i <= Task.last_stack_pointer task) ->
  exists w victim' s1 task' s2,
    evict_victim base core i victim s = Done (w, victim') s1 /\
    (forall x, mem s1 x = mem s x) /\
    dispatch_acquire_slot base core task s1 = Done (true, task') s2 /\
    Task.last_stack_pointer victim' = Task.last_stack_pointer task' /\
    (forall k, (k < STATE_WORDS)%nat ->
       mem s2 (Task.last_stack_pointer victim' + 8 * Z.of_nat k) =
       mem s (Task.last_stack_pointer task + 8 * Z.of_nat k)).
Proof using Hcore.
  intros Ho Hlen Hloc Hs Hlsp Hlt Hfull Hdis.
  set (fb := slot_top base core i - STATE_SIZE).
  set (s1 := mk (<[Z.to_nat core := <[i := -1]> owners]> (CORE_SLOTS s)) (copy_frame fb fb (mem s))).
  assert (Hsame : forall x, mem s1 x = mem s x) by (intros x; apply copy_frame_same).
  assert (Ho1 : CORE_SLOTS s1 !! Z.to_nat core = Some (<[i := -1]> owners)).
  { apply list_lookup_insert_eq. by apply lookup_lt_Some in Ho. }
  destruct (dispatch_run base core _ task s1 Hcore Ho1) as [[_ H]|(j & E & Hj & _)].
  { destruct (H i). apply list_lookup_insert_eq. lia. }
  assert (j = i) as ->.
  { destruct (decide (i = j)) as [|Hne]; [done|].
    rewrite list_lookup_insert_ne in Hj by done. by destruct (Hfull j). }
  destruct (copy_frame_spec (Task.last_stack_pointer task) fb (mem s1)) as [Hin _]; [subst fb; lia|].
  exists (Task.wake_pending victim), (evicted victim), s1, (placed base core i task),
    (placed_pool base core i (<[i := -1]> owners) task s1).
  split; [|split; [exact Hsame|split; [exact E|split; [exact Hlsp|]]]].
  - subst s1 fb. rewrite <- Hlsp at 2. apply evict_run; [done..|lia].
  - intros k Hk. change (Task.last_stack_pointer (evicted victim)) with (Task.last_stack_pointer victim).
    rewrite Hlsp, <- Hsame. exact (Hin k Hk).
Qed.
End Properties.

(** ** The initial frame *)

Lemma sentinel_fill_outside n w m x :
  x < w \/ w + 8 * Z.of_nat n <= x -> sentinel_fill n w m x = m x.
Proof.
  revert w m. induction n as [|n IH]; intros w m Hx; [done|]. cbn.
  rewrite IH by lia. apply write_ne. lia.
Qed.

Lemma zero_words_outside n a m x : x < a \/ a + 8 * Z.of_nat n <= x -> zero_words n a m x = m x.
Proof.
  revert a m. induction n as [|n IH]; intros a m Hx; [done|]. cbn.
  rewrite IH by lia. apply write_ne. lia.
Qed.

Lemma zero_words_inside n a m k : (k < n)%nat -> zero_words n a m (a + 8 * Z.of_nat k) = 0.
Proof.
  revert a m k. induction n as [|n IH]; intros a m k Hk; [lia|]. cbn. destruct k as [|k].
  - rewrite zero_words_outside by lia. unfold write. by rewrite (proj2 (Z.eqb_eq _ _)) by lia.
  - replace (a + 8 * Z.of_nat (S k)) with (a + 8 + 8 * Z.of_nat k) by lia. apply IH. lia.
Qed.

#[local] Opaque sentinel_fill zero_words.

(** Decide reads after the writes of [create_stack_frame]. *)
Ltac read_writes :=
  repeat first [rewrite write_eq | rewrite write_ne by lia].

(** the initial frame of a task on freshly allocated stacks.  It lies
    inside the kernel stack, directly under the marker; it starts the task at
    [task_start] with the entry function and its argument in x0 and x1, on
    SP_EL0 (spsel 0, EL1t in spsr_el1) with the stack pointer inside the user
    stack, the thread pointer of the task's TLS block (or 0), and all other
    registers 0; memory outside the two stacks is not written. *)
Theorem initial_frame task_start from_env func arg size page frame tid core m :
  let stacks := TaskStacks.new size page frame in
  let '(task, m') := create_stack_frame task_start from_env func arg
                       (Task.new ∅ tid core Ready NORMAL_PRIO stacks) m in
  let sp := Task.last_stack_pointer task in
  let kstack := TaskStacks.get_kernel_stack stacks in
  let ktop := kstack + TaskStacks.get_kernel_stack_size stacks in
  let ustack := TaskStacks.get_user_stack stacks in
  let utop := ustack + TaskStacks.get_user_stack_size stacks in
  kstack <= sp /\ sp + STATE_SIZE + TaskStacks.MARKER_SIZE = ktop /\ ktop <= ustack /\
  m' (sp + off_spsel) = 0 /\ m' (sp + off_elr_el1) = task_start /\
  m' (sp + off_spsr_el1) = 0x3e4 /\ ustack <= m' (sp + off_sp_el0) < utop /\
  m' (sp + off_tpidr_el0) = default 0 from_env /\
  m' (sp + off_x 0) = func /\ m' (sp + off_x 1) = arg /\
  (forall n, (2 <= n <= 30)%nat -> m' (sp + off_x (Z.of_nat n)) = 0) /\
  m' (ktop - TaskStacks.MARKER_SIZE) = 0xdeadbeef /\
  (forall x, ~ (kstack <= x < ktop) -> ~ (ustack <= x < utop) -> m' x = m x).
Proof.
  set (stacks := TaskStacks.new size page frame). unfold create_stack_frame.
  cbn [Task.tls Task.new]. change (Task.stacks _) with stacks.
  set (kstack := TaskStacks.get_kernel_stack stacks).
  set (ustack := TaskStacks.get_user_stack stacks).
  set (usize := TaskStacks.get_user_stack_size stacks).
  assert (Hks : kstack = page + 4096) by done.
  assert (Hus : ustack = page + 0x20000 + 8192) by done.
  assert (Husz : 0x8000 <= usize).
  { subst usize stacks. cbn. pose proof (user_stack_size_ge size). unfold KERNEL_STACK_SIZE in *. lia. }
  change (TaskStacks.get_kernel_stack_size stacks) with 0x20000.
  unfold TaskStacks.MARKER_SIZE, STATE_SIZE, ARCH_STATE_SIZE, off_spsel, off_elr_el1, off_spsr_el1,
    off_sp_el0, off_tpidr_el0, off_x.
  set (n := Z.to_nat ((kstack + 0x20000 - 0x10 - 288 - kstack + 7) / 8)).
  assert (Hn : Z.of_nat n = 16346).
  { subst n. replace (kstack + 0x20000 - 0x10 - 288 - kstack + 7) with 130775 by lia. done. }
  clearbody n.
  set (sp := kstack + 0x20000 - 0x10 - 288).
  set (m1 := zero_words STATE_WORDS sp _).
  assert (Hzero : forall k, (k < 36)%nat -> m1 (sp + 8 * Z.of_nat k) = 0)
    by (intros; by apply zero_words_inside).
  assert (Hmark : m1 (kstack + 0x20000 - 16) = 0xdeadbeef).
  { subst m1 sp. rewrite zero_words_outside by (unfold STATE_WORDS; lia).
    rewrite sentinel_fill_outside by lia. apply write_eq. }
  assert (Hout : forall x, ~ (kstack <= x < kstack + 0x20000) -> m1 x = m x).
  { intros x Hx. subst m1 sp. rewrite zero_words_outside by (unfold STATE_WORDS; lia).
    rewrite sentinel_fill_outside by lia. apply write_ne. lia. }
  clearbody m1. assert (Hsp : sp = kstack + 130768) by lia. clearbody sp.
  change (Task.last_stack_pointer _) with sp.
  assert (Htls : Task.tls (Task.set_tls from_env (Task.new ∅ tid core Ready NORMAL_PRIO stacks))
            = from_env) by done.
  rewrite Htls. change (match stacks with TaskStacks.Boot _ => _ | TaskStacks.Common _ _ _ => ?u end)
    with u.
  set (m2 := match from_env with Some _ => _ | None => m1 end).
  assert (Hm2 : forall x, x <> sp + 32 -> m2 x = m1 x)
    by (intros; subst m2; destruct from_env; read_writes; done).
  assert (Htp : m2 (sp + 32) = default 0 from_env).
  { subst m2. destruct from_env; cbn; [by read_writes|]. by apply (Hzero 4%nat); lia. }
  clearbody m2. split_and!; try lia; read_writes; try done; try lia.
  - intros k Hk. read_writes. rewrite Hm2 by lia.
    replace (sp + (40 + 8 * Z.of_nat k)) with (sp + 8 * Z.of_nat (k + 5)) by lia. apply Hzero. lia.
  - rewrite Hm2 by lia. by replace (kstack + 131072 - 16) with (kstack + 0x20000 - 16) by lia.
  - intros x Hk Hu. read_writes. rewrite Hm2 by lia. apply Hout. lia.
Qed.

(** ** Concrete instances *)

Definition demo_task (tid lsp : Z) (slot : option nat) : Task.t :=
  Task.set_slot slot (Task.set_last_stack_pointer lsp
    (Task.new ∅ tid 0 Ready NORMAL_PRIO (TaskStacks.Boot 0))).

Definition demo_pool (owners : list Z) : t :=
  mk (<[0%nat := owners]> all_free) (fun x => x).

Definition demo_heap : task_heap := {[ 1%nat := demo_task 5 4096 None ]}.

Lemma demo_inv : pool_inv 0 demo_heap (demo_pool [-1; -1; -1]) [-1; -1; -1].
Proof.
  unfold demo_heap. split; try done.
  - intros r tk i [<- <-]%lookup_singleton_Some. done.
  - intros i o Hi Ho. destruct i as [|[|[|]]]; simplify_eq/=; by destruct Ho.
  - split.
    + intros r tk r' tk' [<- _]%lookup_singleton_Some [<- _]%lookup_singleton_Some. done.
    + intros r tk [_ <-]%lookup_singleton_Some. cbn. lia.
Qed.

Lemma slot_pool_exclusive_witness :
  exists b h' p' owners',
    exec_op 0x100000 0 (Dispatch 1) (demo_heap, demo_pool [-1; -1; -1]) = Done b (h', p') /\
    pool_inv 0 h' p' owners'.
Proof.
  destruct (slot_pool_exclusive 0x100000 0 ltac:(lia) demo_heap (demo_pool [-1; -1; -1])
              [-1; -1; -1] (Dispatch 1)) as (b & h' & p' & owners' & E & Hinv & _).
  - exact demo_inv.
  - exists (demo_task 5 4096 None). split; [reflexivity|]. split; [split; discriminate|reflexivity].
  - exists b, h', p', owners'. split; [exact E|exact Hinv].
Defined.

Lemma dispatch_moves_frame_witness :
  exists task' s',
    dispatch_acquire_slot 0x100000 0 (demo_task 5 4096 None) (demo_pool [7; -1; -1])
      = Done (true, task') s' /\
    mem s' (Task.last_stack_pointer task') = 4096.
Proof.
  destruct (dispatch_moves_frame 0x100000 0 ltac:(lia) [7; -1; -1] (demo_task 5 4096 None)
              (demo_pool [7; -1; -1])) as [[_ H]|(i & task' & s' & E & _ & _ & _ & _ & _ & _ & Hw & _)].
  - reflexivity.
  - reflexivity.
  - intros i _. left.
    unfold slot_top, STATE_SIZE, ARCH_STATE_SIZE, SLOTS_PER_CORE, SLOT_STRIDE, EXCEPTION_SLOT_SIZE,
      EXCEPTION_SLOT_GUARD, demo_task. cbn. lia.
  - destruct (H 1%nat). reflexivity.
  - exists task', s'. split; [exact E|].
    pose proof (Hw 0%nat ltac:(unfold STATE_WORDS; lia)) as Hw0.
    replace (Task.last_stack_pointer task' + 8 * Z.of_nat 0) with (Task.last_stack_pointer task')
      in Hw0 by lia. exact Hw0.
Defined.

Lemma eviction_loses_frame_witness :
  exists w victim' s1 task' s2,
    evict_victim 0x100000 0 1 (demo_task 8 (slot_top 0x100000 0 1 - STATE_SIZE) (Some 1%nat))
      (demo_pool [7; 8; 9]) = Done (w, victim') s1 /\
    dispatch_acquire_slot 0x100000 0 (demo_task 5 4096 None) s1 = Done (true, task') s2 /\
    mem s2 (Task.last_stack_pointer victim') = 4096.
Proof.
  destruct (eviction_loses_frame 0x100000 0 ltac:(lia) [7; 8; 9]
              (demo_task 8 (slot_top 0x100000 0 1 - STATE_SIZE) (Some 1%nat))
              (demo_task 5 4096 None) 1 (demo_pool [7; 8; 9]))
    as (w & victim' & s1 & task' & s2 & E1 & _ & E2 & _ & Hw).
  - reflexivity.
  - reflexivity.
  - reflexivity.
  - reflexivity.
  - reflexivity.
  - unfold SLOTS_PER_CORE. lia.
  - intros [|[|[|j]]]; discriminate.
  - left. vm_compute. discriminate.
  - exists w, victim', s1, task', s2. split; [exact E1|]. split; [exact E2|].
    pose proof (Hw 0%nat ltac:(unfold STATE_WORDS; lia)) as Hw0.
    replace (Task.last_stack_pointer victim' + 8 * Z.of_nat 0) with (Task.last_stack_pointer victim')
      in Hw0 by lia. exact Hw0.
Defined.

End SlotPool.
