(* ===== verification/BlockedQueue.v ===== *)
(** [BlockedTaskQueue], the tasks of a core that wait for a wakeup
    ([src/src/scheduler/task/mod.rs]).  The queue works on the task cells, the
    core's timers and the ready queue, so these are part of the state; [now]
    is the value of [get_timer_ticks] and [core] that of [core_id()]. *)

From Stdlib Require Import Sorted.
From S2P Require Import Prelude PrioFifo Tasks ReadyQueue Timers.

Module BlockedQueue.

Record BlockedTask : Set := mkBlocked { task : tref; wakeup_time : option Z }.

Record t : Type := mk {
  heap : task_heap;
  list : list BlockedTask;
  timers : Timers.t;
  ready : ReadyQueue.t;
}.

Definition set_heap (h : task_heap) (s : t) : t := mk h (list s) (timers s) (ready s).
Definition set_list (l : Datatypes.list BlockedTask) (s : t) : t :=
  mk (heap s) l (timers s) (ready s).
Definition set_timers (ts : Timers.t) (s : t) : t := mk (heap s) (list s) ts (ready s).
Definition set_ready (q : ReadyQueue.t) (s : t) : t := mk (heap s) (list s) (timers s) q.

Definition borrow (r : tref) : M t Task.t :=
  let! s := get in unwrap (heap s !! r) "dangling task reference".
Definition update (r : tref) (tk : Task.t) : M t unit :=
  modify (fun s => set_heap (<[r := tk]> (heap s)) s).
Definition create_timer_abs (w : Z) : M t unit :=
  zoom timers set_timers (Timers.create_timer_abs Timers.Scheduler w).
Definition ready_push (r : tref) : M t unit :=
  let! s := get in
  let! q := unwrap (ReadyQueue.push (heap s) (ready s) r) "ready_queue.push" in
  modify (set_ready q).

(** [mark_ready]: [true] iff the task was newly readied. *)
Definition mark_ready (core : Z) (r : tref) : M t bool :=
  let! tk := borrow r in
  do! assert_ (Task.core_id tk =? core) "Try to wake up task on the wrong core" in
  do! assert_ (bool_decide (Task.status tk = Blocked) || bool_decide (Task.status tk = Ready))
        "Trying to wake up task in unexpected status" in
  if bool_decide (Task.status tk = Ready) then ret false
  else match Task.frame_location tk with
       | BeingEvicted => do! update r (Task.set_wake_pending true tk) in ret false
       | Evicted | InSlot => do! update r (Task.set_status Ready tk) in ret true
       end.

(** The cursor loop of [add]: the node goes before the first node that waits
    indefinitely or for a later time; [None] when there is no such node. *)
Fixpoint insert_before (node : BlockedTask) (wt : Z) (l : Datatypes.list BlockedTask)
    : option (Datatypes.list BlockedTask) :=
  match l with
  | [] => None
  | n :: l =>
      match wakeup_time n with
      | None => Some (node :: n :: l)
      | Some w => if wt <? w then Some (node :: n :: l)
                  else l ← insert_before node wt l; Some (n :: l)
      end
  end.

Definition add (r : tref) (wakeup : option Z) : M t unit :=
  let! tk := borrow r in
  do! assert_ (bool_decide (Task.status tk = Running)) "Trying to block task which is not running" in
  do! update r (Task.set_status Blocked tk) in
  let new_node := mkBlocked r wakeup in
  match wakeup with
  | Some wt =>
      let! s := get in
      match insert_before new_node wt (list s) with
      | Some l => do! modify (set_list l) in create_timer_abs wt
      | None => do! create_timer_abs wt in modify (fun s => set_list (list s ++ [new_node]) s)
      end
  | None => modify (fun s => set_list (list s ++ [new_node]) s)
  end.

Definition iter (s : t) : Datatypes.list tref := map task (list s).

(** [candidates.sort_by(..)], a stable sort by a key. *)
Section SortBy.
Context {A : Type} (le : A -> A -> bool).
Fixpoint insert_sorted (x : A) (l : Datatypes.list A) : Datatypes.list A :=
  match l with
  | [] => [x]
  | y :: l => if le x y then x :: y :: l else y :: insert_sorted x l
  end.
Definition sort_by (l : Datatypes.list A) : Datatypes.list A := foldr insert_sorted [] l.
End SortBy.

(** A candidate: the reference, its wake key and its last touch. *)
Record candidate : Set := mkCand { c_task : tref; c_key : Z; c_touch : Z }.

Definition cand_le (a b : candidate) : bool :=
  (c_key a <? c_key b) || ((c_key a =? c_key b) && (c_touch a <=? c_touch b)).

(** Microseconds; [last_touch] and [now] are durations in microseconds. *)
Definition LAST_TOUCH_THRESHOLD : Z := 10000.

Definition wake_key (w : option Z) : Z :=
  match w with Some w => u64_max - w | None => 0 end.

Fixpoint candidates (exclude_id : Z) (l : Datatypes.list BlockedTask)
    : M t (Datatypes.list candidate) :=
  match l with
  | [] => ret []
  | node :: l =>
      let! b := borrow (task node) in
      do! assert_ (negb (Task.id b =? exclude_id)) "select_eviction_victim: self-eviction attempt" in
      let! rest := candidates exclude_id l in
      if bool_decide (Task.frame_location b = InSlot) && bool_decide (is_Some (Task.slot b))
         && bool_decide (Task.status b = Blocked)
      then ret (mkCand (task node) (wake_key (wakeup_time node)) (Task.last_touch b) :: rest)
      else ret rest
  end.

Definition select_eviction_victim (now exclude_id : Z) : M t (option tref) :=
  let! s := get in
  let! cs := candidates exclude_id (list s) in
  ret (c_task <$> List.find (fun c => LAST_TOUCH_THRESHOLD <=? sat_sub now (c_touch c))
                    (sort_by cand_le cs)).

(** The cursor loop of [custom_wakeup]: the node that holds the task, the
    nodes before it and the nodes after it. *)
Fixpoint find_blocked (h : task_heap) (id : Z) (l : Datatypes.list BlockedTask)
    : option (Datatypes.list BlockedTask * BlockedTask * Datatypes.list BlockedTask) :=
  match l with
  | [] => None
  | n :: l =>
      if from_option (fun tk => Task.id tk =? id) false (h !! task n) then Some ([], n, l)
      else '(pre, x, post) ← find_blocked h id l; Some (n :: pre, x, post)
  end.

Definition custom_wakeup (core : Z) (handle : TaskHandle.t) : M t (tref * bool) :=
  let! s := get in
  match find_blocked (heap s) (TaskHandle.get_id handle) (list s) with
  | None => panic "unreachable: woken task is not blocked"
  | Some (pre, node, post) =>
      do! modify (set_list (pre ++ post)) in
      do! (match pre, post with
           | [], nxt :: _ => match wakeup_time nxt with
                             | Some w => create_timer_abs w
                             | None => ret tt
                             end
           | _, _ => ret tt
           end) in
      let! completed := mark_ready core (task node) in
      ret (task node, completed)
  end.

Definition elapsed (now : Z) (n : BlockedTask) : bool :=
  match wakeup_time n with Some w => w <? now | None => false end.

(** Mark the extracted tasks ready and queue the newly readied ones. *)
Fixpoint wake_all (core : Z) (l : Datatypes.list BlockedTask) : M t unit :=
  match l with
  | [] => ret tt
  | n :: l =>
      let! r := mark_ready core (task n) in
      do! (if r : bool then ready_push (task n) else ret tt) in
      wake_all core l
  end.

Definition handle_waiting_tasks (now core : Z) : M t unit :=
  let! s := get in
  do! modify (set_list (List.filter (fun n => negb (elapsed now n)) (list s))) in
  do! wake_all core (List.filter (elapsed now) (list s)) in
  let! s := get in
  match head (list s) with
  | Some (mkBlocked _ (Some wakeup)) => create_timer_abs wakeup
  | _ => ret tt
  end.

(** ** Invariant *)

(** Wakeup times in the order of the queue: no deadline comes last. *)
Definition le_wake (a b : BlockedTask) : Prop :=
  match wakeup_time a, wakeup_time b with
  | Some x, Some y => x <= y
  | _, None => True
  | None, Some _ => False
  end.

(** A task that can be woken on this core. *)
Definition wakeable (core : Z) (tk : Task.t) : Prop :=
  Task.core_id tk = core /\ Task.frame_location tk <> BeingEvicted /\
  0 <= Task.prio tk < Z.of_nat NO_PRIORITIES.

Definition node_ok (core : Z) (h : task_heap) (n : BlockedTask) : Prop :=
  (exists tk, h !! task n = Some tk /\ Task.status tk = Blocked /\ wakeable core tk) /\
  from_option (fun w => 0 <= w < u64_max) True (wakeup_time n).

(** The core's timer will fire no later than the node's deadline. *)
Definition covered (ts : Timers.t) (n : BlockedTask) : Prop :=
  from_option (fun w => Timers.deadline Timers.Scheduler ts <= w) True (wakeup_time n).

(** Tasks in the ready queue are ready, each is queued once. *)
Definition ready_ok (h : task_heap) (q : ReadyQueue.t) : Prop :=
  ReadyQueue.wf h q /\ NoDup (ReadyQueue.tasks q) /\
  forall r, r ∈ ReadyQueue.tasks q -> exists tk, h !! r = Some tk /\ Task.status tk = Ready.

(** All of the invariant but the timer's coverage, which an interrupt breaks
    until the waiting tasks have been handled. *)
Record inv0 (core : Z) (s : t) : Prop := {
  inv_nodes : Forall (node_ok core (heap s)) (list s);
  inv_nodup : NoDup (map task (list s));
  inv_sorted : StronglySorted le_wake (list s);
  inv_timers : Timers.wf (timers s);
  inv_ready : ready_ok (heap s) (ready s);
}.

Definition inv (core : Z) (s : t) : Prop := inv0 core s /\ Forall (covered (timers s)) (list s).

(** ** Lemmas *)

Lemma insert_before_spec node wt l :
  exists pre post, l = pre ++ post /\
    default (l ++ [node]) (insert_before node wt l) = pre ++ node :: post /\
    Forall (fun n => exists w, wakeup_time n = Some w /\ w <= wt) pre /\
    (StronglySorted le_wake l ->
     Forall (fun n => from_option (fun w => wt < w) True (wakeup_time n)) post).
Proof.
  induction l as [|n l (pre & post & -> & E & Hpre & Hpost)]; cbn.
  - exists [], []. repeat split; constructor.
  - destruct (wakeup_time n) as [w|] eqn:Ew; [destruct (Z.ltb_spec wt w)|].
    + exists [], (n :: pre ++ post). repeat split; [constructor|]. intros Hs.
      apply StronglySorted_inv in Hs as [_ Hs]. constructor; [by rewrite Ew|].
      eapply Forall_impl; [|exact Hs]. intros x. unfold le_wake. rewrite Ew.
      destruct (wakeup_time x); cbn; lia.
    + exists (n :: pre), post. split; [done|]. split; [|split; [by constructor; eauto|]].
      * destruct (insert_before node wt (pre ++ post)); cbn in *; congruence.
      * intros Hs. apply StronglySorted_inv in Hs as [Hs _]. auto.
    + exists [], (n :: pre ++ post). repeat split; [constructor|]. intros Hs.
      apply StronglySorted_inv in Hs as [_ Hs]. constructor; [by rewrite Ew|].
      eapply Forall_impl; [|exact Hs]. intros x. unfold le_wake. rewrite Ew.
      by destruct (wakeup_time x).
Qed.

Lemma StronglySorted_insert {A} (R : A -> A -> Prop) pre x post :
  StronglySorted R (pre ++ post) -> Forall (fun y => R y x) pre -> Forall (R x) post ->
  StronglySorted R (pre ++ x :: post).
Proof.
  induction pre as [|y pre IH]; cbn; intros Hs Hpre Hpost; [by constructor|].
  apply StronglySorted_inv in Hs as [Hs Hy]. apply Forall_cons_iff in Hpre as [? ?].
  constructor; [by apply IH|]. apply Forall_app in Hy as [? ?].
  apply Forall_app. split; [done|]. by constructor.
Qed.

Lemma StronglySorted_sublist {A} (R : A -> A -> Prop) l l' :
  sublist l' l -> StronglySorted R l -> StronglySorted R l'.
Proof.
  intros Hsub. induction Hsub as [|x l l' Hsub IH|x l l' Hsub IH]; [done| |];
    intros [Hs Hx]%StronglySorted_inv; [|auto].
  constructor; [auto|]. rewrite List.Forall_forall in *. intros y Hy. apply Hx.
  apply list_elem_of_In. eapply sublist_subseteq; [done|]. by apply list_elem_of_In.
Qed.

Lemma sublist_map {A B} (f : A -> B) l l' : sublist l l' -> sublist (map f l) (map f l').
Proof. induction 1; cbn; by constructor. Qed.

(** A heap update that leaves the nodes' and the ready tasks' cells alone. *)
Lemma node_ok_insert core h r tk n :
  task n <> r -> node_ok core h n -> node_ok core (<[r := tk]> h) n.
Proof. intros Hne [(tk' & Htk & ?) ?]. split; [|done]. exists tk'. by rewrite lookup_insert_ne. Qed.

Lemma ready_ok_insert h q r tk :
  r ∉ ReadyQueue.tasks q -> ready_ok h q -> ready_ok (<[r := tk]> h) q.
Proof.
  intros Hr (Hwf & Hnd & Hrd).
  assert (Heq : forall x, x ∈ ReadyQueue.tasks q -> <[r := tk]> h !! x = h !! x).
  { intros x Hx. apply lookup_insert_ne. congruence. }
  split_and!; [|done|].
  - apply (ReadyQueue.wf_heap h); [done|]. intros x Hx. by rewrite Heq.
  - intros x Hx. destruct (Hrd x Hx) as (tx & ? & ?). exists tx. by rewrite Heq.
Qed.

(** A task that is not ready is not in the ready queue. *)
Lemma not_ready_not_queued h q r tk :
  ready_ok h q -> h !! r = Some tk -> Task.status tk <> Ready -> r ∉ ReadyQueue.tasks q.
Proof. intros (_ & _ & Hrd) Htk Hst Hin. destruct (Hrd r Hin) as (? & ? & ?). congruence. Qed.

Lemma arm_timer_ok tm w :
  Timers.wf tm -> 0 <= w < u64_max ->
  exists ts, (forall h l q, create_timer_abs w (mk h l tm q) = Done tt (mk h l ts q)) /\
    Timers.wf ts /\
    Timers.deadline Timers.Scheduler ts = Z.min (Timers.deadline Timers.Scheduler tm) w.
Proof.
  intros Hwf Hw.
  destruct (Timers.create_timer_abs_ok tm Timers.Scheduler w Hwf Hw) as (ts & E & ? & ? & _).
  exists ts. split; [|done]. intros h l q. unfold create_timer_abs, zoom. cbn [timers]. by rewrite E.
Qed.

Lemma covered_earlier ts ts' n :
  Timers.deadline Timers.Scheduler ts' <= Timers.deadline Timers.Scheduler ts ->
  covered ts n -> covered ts' n.
Proof. unfold covered. destruct (wakeup_time n); cbn; lia. Qed.

(** A running task is neither blocked nor queued. *)
Lemma running_not_blocked core s r tk :
  inv0 core s -> heap s !! r = Some tk -> Task.status tk <> Blocked -> r ∉ map task (list s).
Proof.
  intros Hinv Htk Hst Hin. apply list_elem_of_In, in_map_iff in Hin as (n & <- & Hn).
  pose proof (inv_nodes _ _ Hinv) as Hnodes. rewrite List.Forall_forall in Hnodes.
  destruct (Hnodes n Hn) as [(tk' & ? & ? & _) _]. congruence.
Qed.

(** The state [add] leaves, for a node put between [pre] and [post]. *)
Lemma inv_add core s r tk w pre post ts :
  inv core s -> heap s !! r = Some tk -> Task.status tk = Running -> wakeable core tk ->
  from_option (fun w => 0 <= w < u64_max) True w ->
  list s = pre ++ post ->
  Forall (fun n => le_wake n (mkBlocked r w)) pre -> Forall (le_wake (mkBlocked r w)) post ->
  Timers.wf ts ->
  Timers.deadline Timers.Scheduler ts <= Timers.deadline Timers.Scheduler (timers s) ->
  covered ts (mkBlocked r w) ->
  inv core (mk (<[r := Task.set_status Blocked tk]> (heap s)) (pre ++ mkBlocked r w :: post) ts (ready s)).
Proof.
  intros [Hinv Hcov] Htk Hst Hwk Hw Hl Hpre Hpost Hts Hdl Hc.
  pose proof (running_not_blocked _ _ _ _ Hinv Htk ltac:(congruence)) as Hnb.
  destruct Hinv as [Hnodes Hnd Hsort _ Hrd]. rewrite Hl in *.
  split; [split|]; cbn.
  - assert (Hf : Forall (node_ok core (<[r := Task.set_status Blocked tk]> (heap s))) (pre ++ post)).
    { rewrite List.Forall_forall in *. intros n Hn. apply node_ok_insert; [|by apply Hnodes].
      intros <-. apply Hnb. by apply list_elem_of_In, in_map. }
    apply Forall_app in Hf as [? ?]. apply Forall_app. split; [done|]. constructor; [|done].
    split; [|done]. exists (Task.set_status Blocked tk). by rewrite lookup_insert_eq.
  - rewrite map_app in *. cbn.
    assert (Hp : map task pre ++ r :: map task post ≡ₚ r :: (map task pre ++ map task post))
      by (symmetry; apply Permutation_middle).
    rewrite Hp. apply NoDup_cons_2; [by rewrite list_elem_of_In in *|done].
  - by apply StronglySorted_insert.
  - done.
  - apply ready_ok_insert; [|done]. eapply not_ready_not_queued; [done..|congruence].
  - assert (Hall : Forall (covered ts) (pre ++ post)).
    { eapply Forall_impl; [|exact Hcov]. intros n. by apply covered_earlier. }
    apply Forall_app in Hall as [? ?]. apply Forall_app. split; [done|]. by constructor.
Qed.

Lemma add_ok core s r tk w :
  inv core s -> heap s !! r = Some tk -> Task.status tk = Running -> wakeable core tk ->
  from_option (fun w => 0 <= w < u64_max) True w ->
  exists pre post ts, list s = pre ++ post /\
    let s' := mk (<[r := Task.set_status Blocked tk]> (heap s)) (pre ++ mkBlocked r w :: post)
                 ts (ready s) in
    add r w s = Done tt s' /\ inv core s'.
Proof.
  intros Hinv Htk Hst Hwk Hw. pose proof Hinv as [[_ _ Hsort Htm _] _].
  unfold add, bind at 1, borrow, bind at 1, get at 1, unwrap. rewrite Htk. unfold ret at 1.
  unfold bind at 1, assert_. rewrite bool_decide_true by done. unfold ret at 1.
  unfold bind at 1, update, modify at 1.
  destruct w as [wt|].
  - destruct (insert_before_spec (mkBlocked r (Some wt)) wt (list s)) as (pre & post & Hl & E & Hpre & Hpost).
    destruct (arm_timer_ok (timers s) wt Htm Hw) as (ts & Etm & Hts & Hdl).
    exists pre, post, ts. split; [done|]. split.
    + unfold bind, get. cbn [list set_heap]. destruct (insert_before _ wt (list s)) as [l|]; cbn in E;
        unfold modify, set_list, set_heap; cbn; rewrite Etm; cbn; congruence.
    + eapply inv_add; try done; [| |lia|cbn; lia].
      * eapply Forall_impl; [|exact Hpre]. intros n (x & Hx & ?). unfold le_wake. by rewrite Hx.
      * eapply Forall_impl; [|exact (Hpost Hsort)]. intros n. unfold le_wake. cbn.
        destruct (wakeup_time n); cbn; lia.
  - exists (list s), [], (timers s). rewrite app_nil_r. split; [done|]. split; [done|].
    eapply inv_add; try done; [by rewrite app_nil_r|].
    apply List.Forall_forall. intros n _. unfold le_wake. cbn. by destruct (wakeup_time n).
Qed.

Lemma mark_ready_ok core s r tk :
  heap s !! r = Some tk -> Task.status tk = Blocked -> wakeable core tk ->
  mark_ready core r s = Done true (set_heap (<[r := Task.set_status Ready tk]> (heap s)) s).
Proof.
  intros Htk Hst (Hcore & Hloc & _).
  unfold mark_ready, bind, borrow, bind, get, unwrap. rewrite Htk. unfold ret, assert_.
  rewrite (proj2 (Z.eqb_eq _ _) Hcore). rewrite Hst. cbn.
  rewrite (bool_decide_true (Blocked = Blocked)), (bool_decide_false (Blocked = Ready)) by done.
  by destruct (Task.frame_location tk).
Qed.

(** Readying a blocked task that has been taken out of the list. *)
Lemma inv0_wake core s r tk l ts :
  inv0 core s -> heap s !! r = Some tk -> Task.status tk = Blocked -> wakeable core tk ->
  sublist l (list s) -> r ∉ map task l -> Timers.wf ts ->
  inv0 core (mk (<[r := Task.set_status Ready tk]> (heap s)) l ts (ready s)).
Proof.
  intros [Hnodes Hnd Hsort _ Hrd] Htk Hst Hwk Hsub Hr Hts. split; cbn; [| | |done|].
  - rewrite List.Forall_forall in *. intros n Hn. apply node_ok_insert.
    + intros <-. apply Hr. by apply list_elem_of_In, in_map.
    + apply Hnodes. apply list_elem_of_In. eapply sublist_subseteq; [done|]. by apply list_elem_of_In.
  - eapply sublist_NoDup; [done|]. by apply sublist_map.
  - by eapply StronglySorted_sublist.
  - apply ready_ok_insert; [|done]. eapply not_ready_not_queued; [done..|congruence].
Qed.

Lemma ready_push_ok core s r tk :
  inv0 core s -> heap s !! r = Some tk -> Task.status tk = Ready -> wakeable core tk ->
  r ∉ ReadyQueue.tasks (ready s) ->
  exists q, ready_push r s = Done tt (set_ready q s) /\ inv0 core (set_ready q s) /\
    ReadyQueue.queues q = fifo_push (ReadyQueue.queues (ready s)) (Z.to_nat (Task.prio tk)) r /\
    ReadyQueue.tasks q ≡ₚ r :: ReadyQueue.tasks (ready s).
Proof.
  intros [Hnodes Hnd Hsort Hts (Hwf & Hrnd & Hrd)] Htk Hst (_ & _ & Hprio) Hr.
  destruct (ReadyQueue.push_ok _ _ _ _ Hwf Htk Hprio) as (q & E & Hwf' & Hq).
  assert (Hp : ReadyQueue.tasks q ≡ₚ r :: ReadyQueue.tasks (ready s)).
  { unfold ReadyQueue.tasks. rewrite Hq. apply fifo_push_Permutation.
    destruct Hwf as (-> & _). lia. }
  exists q. split; [|split; [|done]].
  - unfold ready_push, bind, get, unwrap. by rewrite E.
  - split; try done. cbn. split_and!; [done| |].
    + rewrite Hp. by apply NoDup_cons_2.
    + intros x Hx. rewrite Hp in Hx. apply elem_of_cons in Hx as [->|Hx]; eauto.
Qed.

(** The tasks of a list of nodes, pushed in order. *)
Definition push_nodes (h : task_heap) (ll : Datatypes.list (Datatypes.list tref))
    (l : Datatypes.list BlockedTask) : Datatypes.list (Datatypes.list tref) :=
  foldl (fun ll n => fifo_push ll (from_option (fun tk => Z.to_nat (Task.prio tk)) 0%nat (h !! task n))
                       (task n)) ll l.

(** The heap after the tasks [rs] have been readied. *)
Definition readied (h : task_heap) (rs : Datatypes.list tref) : task_heap :=
  foldl (fun h r => alter (Task.set_status Ready) r h) h rs.

Lemma readied_id rs (h : task_heap) r : Task.id <$> readied h rs !! r = Task.id <$> h !! r.
Proof.
  revert h. induction rs as [|x rs IH]; intros h; [done|]. cbn. rewrite IH.
  destruct (decide (x = r)) as [->|]; [rewrite lookup_alter_eq|by rewrite lookup_alter_ne].
  by destruct (h !! r).
Qed.

Lemma readied_other rs (h : task_heap) r : r ∉ rs -> readied h rs !! r = h !! r.
Proof.
  revert h. induction rs as [|y rs IH]; intros h Hr; [done|]. cbn.
  apply not_elem_of_cons in Hr as [? ?]. rewrite IH by done. by rewrite lookup_alter_ne.
Qed.

Lemma readied_status rs (h : task_heap) r :
  r ∈ rs -> is_Some (h !! r) -> Task.status <$> readied h rs !! r = Some Ready.
Proof.
  revert h. induction rs as [|x rs IH]; intros h Hr Hsome; [by apply not_elem_of_nil in Hr|].
  destruct (decide (r ∈ rs)) as [Hin|Hnin].
  - apply IH; [done|]. destruct (decide (x = r)) as [->|];
      [rewrite lookup_alter_eq; by apply fmap_is_Some|by rewrite lookup_alter_ne].
  - apply elem_of_cons in Hr as [->|]; [|done]. cbn. rewrite readied_other by done.
    rewrite lookup_alter_eq. by destruct Hsome as [? ->].
Qed.

Lemma push_nodes_heap h h' ll l :
  (forall n, n ∈ l -> h !! task n = h' !! task n) -> push_nodes h ll l = push_nodes h' ll l.
Proof.
  revert ll. induction l as [|n l IH]; intros ll Hh; [done|]. cbn.
  rewrite (Hh n ltac:(by left)). apply IH. intros x Hx. apply Hh. by right.
Qed.

Lemma wake_all_ok core l s :
  inv0 core s -> Forall (node_ok core (heap s)) l -> NoDup (map task l) ->
  (forall r, r ∈ map task l -> r ∉ map task (list s)) ->
  exists q, wake_all core l s = Done tt (mk (readied (heap s) (map task l)) (list s) (timers s) q) /\
    inv0 core (mk (readied (heap s) (map task l)) (list s) (timers s) q) /\
    ReadyQueue.queues q = push_nodes (heap s) (ReadyQueue.queues (ready s)) l /\
    ReadyQueue.tasks q ≡ₚ map task l ++ ReadyQueue.tasks (ready s).
Proof.
  revert s. induction l as [|n l IH]; intros s Hinv Hl Hnd Hdis.
  { exists (ready s). cbn. by destruct s. }
  apply Forall_cons_iff in Hl as [[(tk & Htk & Hst & Hwk) _] Hl].
  cbn in Hnd. apply NoDup_cons_1_1 in Hnd as Hn. apply NoDup_cons_1_2 in Hnd.
  set (s1 := mk (<[task n := Task.set_status Ready tk]> (heap s)) (list s) (timers s) (ready s)).
  assert (Hinv1 : inv0 core s1).
  { eapply inv0_wake; try done; [apply Hdis; by left|by destruct Hinv]. }
  assert (Htk1 : heap s1 !! task n = Some (Task.set_status Ready tk)) by apply lookup_insert_eq.
  assert (Hnq : task n ∉ ReadyQueue.tasks (ready s1)).
  { eapply (not_ready_not_queued (heap s)); [apply Hinv|done|congruence]. }
  destruct (ready_push_ok core s1 (task n) _ Hinv1 Htk1 eq_refl Hwk Hnq) as (q & E & Hinv2 & Hq & Hp).
  destruct (IH (set_ready q s1)) as (q' & E' & Hinv' & Hq' & Hp'); [done| |done| |].
  - rewrite List.Forall_forall in *. intros x Hx. apply node_ok_insert; [|by apply Hl].
    intros Heq. apply Hn. rewrite <- Heq. by apply list_elem_of_In, in_map.
  - intros r Hr. apply Hdis. by right.
  - assert (Hheap : readied (heap s) (map task (n :: l)) = readied (heap (set_ready q s1)) (map task l)).
    { cbn. f_equal. apply map_eq. intros x. destruct (decide (x = task n)) as [->|].
      - by rewrite lookup_alter_eq, lookup_insert_eq, Htk.
      - by rewrite lookup_alter_ne, lookup_insert_ne by done. }
    exists q'. rewrite Hheap. split_and!; [|done| |].
    + cbn [wake_all]. unfold bind. rewrite (mark_ready_ok core s (task n) tk) by done.
      fold s1. change (set_heap _ s) with s1. by rewrite E.
    + rewrite Hq'. cbn. rewrite Htk. cbn. rewrite Hq. apply push_nodes_heap.
      intros x Hx. apply lookup_insert_ne. intros Heq. apply Hn. rewrite Heq.
      apply list_elem_of_In, in_map. by apply list_elem_of_In.
    + rewrite Hp'. cbn. rewrite Hp. by rewrite Permutation_middle.
Qed.

Lemma filter_sublist {A} (f : A -> bool) l : sublist (List.filter f l) l.
Proof. induction l as [|x l IH]; cbn; [constructor|]. destruct (f x); by constructor. Qed.

(** The front of a sorted list is due first. *)
Lemma covered_by_front ts l :
  StronglySorted le_wake l ->
  match l with
  | mkBlocked _ (Some w) :: _ => Timers.deadline Timers.Scheduler ts <= w
  | _ => True
  end -> Forall (covered ts) l.
Proof.
  destruct l as [|[r [w|]] l]; intros Hs Hw; [constructor| |];
    apply StronglySorted_inv in Hs as [_ Hs]; (constructor; [done|]);
    (eapply Forall_impl; [|exact Hs]); intros n; unfold le_wake, covered; cbn;
    destruct (wakeup_time n); cbn; lia.
Qed.

Lemma handle_waiting_ok core now s :
  inv0 core s ->
  let woken := List.filter (elapsed now) (list s) in
  let rest := List.filter (fun n => negb (elapsed now n)) (list s) in
  exists ts q,
    let s' := mk (readied (heap s) (map task woken)) rest ts q in
    handle_waiting_tasks now core s = Done tt s' /\ inv core s' /\
    ReadyQueue.queues q = push_nodes (heap s) (ReadyQueue.queues (ready s)) woken /\
    ReadyQueue.tasks q ≡ₚ map task woken ++ ReadyQueue.tasks (ready s).
Proof.
  intros Hinv woken rest. pose proof Hinv as [Hnodes Hnd Hsort Hts Hrd].
  pose proof (filter_sublist (elapsed now) (list s)) as Hsw.
  pose proof (filter_sublist (fun n => negb (elapsed now n)) (list s)) as Hsr.
  fold woken in Hsw. fold rest in Hsr.
  assert (Hsub : forall l, sublist l (list s) -> Forall (node_ok core (heap s)) l).
  { intros l Hl. rewrite List.Forall_forall in *. intros n Hn. apply Hnodes, list_elem_of_In.
    eapply sublist_subseteq; [done|]. by apply list_elem_of_In. }
  set (s0 := set_list rest s).
  assert (Hinv0 : inv0 core s0).
  { split; cbn; [by apply Hsub| |by eapply StronglySorted_sublist|done|done].
    eapply sublist_NoDup; [done|]. by apply sublist_map. }
  destruct (wake_all_ok core woken s0 Hinv0) as (q & E & Hinv1 & Hq & Hqp); [by apply Hsub| | |].
  { eapply sublist_NoDup; [done|]. by apply sublist_map. }
  { intros r Hr Hr'. cbn in Hr'. apply list_elem_of_In, in_map_iff in Hr as (n & <- & Hn).
    apply list_elem_of_In, in_map_iff in Hr' as (n' & Heq & Hn').
    apply filter_In in Hn as [Hin He], Hn' as [Hin' He'].
    assert (n = n') as <-; [|by rewrite He in He'].
    apply list_elem_of_In, list_elem_of_lookup in Hin as [i Hi], Hin' as [j Hj].
    assert (i = j); [|congruence].
    eapply NoDup_lookup; [exact Hnd| |];
      change (map task) with (fmap (M := Datatypes.list) task);
      rewrite list_lookup_fmap; [by rewrite Hi|by rewrite Hj; cbn; rewrite Heq]. }
  set (h' := readied (heap s) (map task woken)) in *.
  set (s1 := mk h' rest (timers s) q) in *.
  unfold handle_waiting_tasks, bind, get, modify. fold woken rest s0. rewrite E.
  change (mk (readied (heap s0) (map task woken)) (list s0) (timers s0) q) with s1.
  pose proof (inv_sorted _ _ Hinv1) as Hsort1. cbn in Hsort1.
  pose proof (covered_by_front) as Hfront.
  destruct rest as [|[r [w|]] rest'] eqn:Erest.
  - exists (timers s), q. split_and!; [done| |done|done]. split; [done|constructor].
  - assert (Hw : 0 <= w < u64_max).
    { pose proof (inv_nodes _ _ Hinv1) as Hn. by apply Forall_cons_iff in Hn as [[_ Hw] _]. }
    destruct (arm_timer_ok (timers s) w Hts Hw) as (ts & Ets & Hwf & Hd).
    exists ts, q. split_and!; [apply Ets| |done|done]. split.
    + destruct Hinv1. by split.
    + apply covered_by_front; [done|]. cbn. lia.
  - exists (timers s), q. split_and!; [done| |done|done]. split; [done|]. by apply covered_by_front.
Qed.

Lemma find_blocked_Some h id l pre n post :
  find_blocked h id l = Some (pre, n, post) ->
  l = pre ++ n :: post /\ exists tk, h !! task n = Some tk /\ Task.id tk = id.
Proof.
  revert pre. induction l as [|x l IH]; intros pre; cbn; [done|].
  destruct (h !! task x) as [tk|] eqn:Htk; cbn; [destruct (Z.eqb_spec (Task.id tk) id)|].
  - intros [= <- <- <-]. split; [done|]. eauto.
  - destruct (find_blocked h id l) as [[[pre' y] post']|]; cbn; [|done].
    intros [= <- <- <-]. destruct (IH pre' eq_refl) as [-> ?]. done.
  - destruct (find_blocked h id l) as [[[pre' y] post']|]; cbn; [|done].
    intros [= <- <- <-]. destruct (IH pre' eq_refl) as [-> ?]. done.
Qed.

Lemma find_blocked_None h id l :
  find_blocked h id l = None <->
  forall n tk, n ∈ l -> h !! task n = Some tk -> Task.id tk <> id.
Proof.
  induction l as [|x l IH]; cbn.
  - split; [by intros _ n tk ?%not_elem_of_nil|done].
  - destruct (h !! task x) as [tk|] eqn:Htk; cbn; [destruct (Z.eqb_spec (Task.id tk) id) as [He|He]|].
    + split; [done|]. intros H. destruct (H x tk); [by left|done..].
    + transitivity (find_blocked h id l = None).
      { destruct (find_blocked h id l) as [[[]]|]; cbn; split; done. }
      rewrite IH. split.
      * intros H n tk' [->|Hn]%elem_of_cons; [by intros; simplify_eq|by apply H].
      * intros H n tk' Hn. apply H. by right.
    + transitivity (find_blocked h id l = None).
      { destruct (find_blocked h id l) as [[[]]|]; cbn; split; done. }
      rewrite IH. split.
      * intros H n tk' [->|Hn]%elem_of_cons; [by intros; simplify_eq|by apply H].
      * intros H n tk' Hn. apply H. by right.
Qed.

Lemma custom_wakeup_ok core s handle pre n post tk :
  inv core s ->
  find_blocked (heap s) (TaskHandle.get_id handle) (list s) = Some (pre, n, post) ->
  heap s !! task n = Some tk ->
  exists ts,
    let s' := mk (<[task n := Task.set_status Ready tk]> (heap s)) (pre ++ post) ts (ready s) in
    custom_wakeup core handle s = Done (task n, true) s' /\ inv core s'.
Proof.
  intros [Hinv Hcov] Hfind Htk. destruct (find_blocked_Some _ _ _ _ _ _ Hfind) as [Hl _].
  pose proof Hinv as [Hnodes Hnd Hsort Hts _]. rewrite Hl in *.
  pose proof (proj1 (Forall_app _ _ _) Hnodes) as [_ Hn].
  pose proof (proj1 (Forall_app _ _ _) Hnodes) as [_ Hpost].
  apply Forall_cons_iff in Hn as [[(tk' & ? & Hst & Hwk) _] Hnpost]. simplify_eq.
  assert (Hsub : sublist (pre ++ post) (list s)) by (rewrite Hl; apply sublist_app; [done|by constructor]).
  assert (Hnotin : task n ∉ map task (pre ++ post)).
  { rewrite map_app in *. cbn in Hnd. rewrite <- Permutation_middle in Hnd.
    by apply NoDup_cons_1_1 in Hnd. }
  set (nw := match pre, post with [], mkBlocked _ w :: _ => w | _, _ => None end).
  assert (Hnw : from_option (fun w => 0 <= w < u64_max) True nw).
  { subst nw. destruct pre; [|done]. destruct post as [|[? w] ?]; [done|].
    by apply Forall_cons_iff in Hnpost as [[_ ?] _]. }
  assert (Hts' : exists ts, Timers.wf ts /\
      Timers.deadline Timers.Scheduler ts <= Timers.deadline Timers.Scheduler (timers s) /\
      match nw with Some w => create_timer_abs w | None => ret tt end (set_list (pre ++ post) s)
      = Done tt (mk (heap s) (pre ++ post) ts (ready s))).
  { destruct nw as [w|]; [|exists (timers s); by destruct s].
    destruct (arm_timer_ok (timers s) w Hts Hnw) as (ts & E & ? & ?).
    exists ts. split_and!; [done|lia|apply E]. }
  destruct Hts' as (ts & Hwf & Hd & E). exists ts. split.
  - unfold custom_wakeup, bind, get, modify. rewrite Hl, Hfind.
    assert (Enw : (match pre, post with
         | [], nxt :: _ => match wakeup_time nxt with Some w => create_timer_abs w | None => ret tt end
         | _, _ => ret tt end) = match nw with Some w => create_timer_abs w | None => ret tt end).
    { subst nw. destruct pre; [|done]. by destruct post as [|[]]. }
    rewrite Enw, E. by rewrite (mark_ready_ok core _ _ tk).
  - split.
    + eapply inv0_wake; try done.
    + cbn. assert (Hall : Forall (covered ts) (pre ++ n :: post)).
      { eapply Forall_impl; [|exact Hcov]. intros x. by apply covered_earlier. }
      apply Forall_app in Hall as [? Hall]. apply Forall_cons_iff in Hall as [_ ?].
      by apply Forall_app.
Qed.

(** ** Victim selection *)

Definition eligible (tk : Task.t) : bool :=
  bool_decide (Task.frame_location tk = InSlot) && bool_decide (is_Some (Task.slot tk))
  && bool_decide (Task.status tk = Blocked).

Lemma cand_le_total a b : cand_le a b = false -> cand_le b a = true.
Proof.
  unfold cand_le. intros H. bool_hyps. destruct (Z.eqb_spec (c_key a) (c_key b)); cbn in *; bool_hyps.
  - rewrite (proj2 (Z.eqb_eq (c_key b) _)) by lia. rewrite (proj2 (Z.leb_le _ _)) by lia.
    by rewrite orb_true_r.
  - rewrite (proj2 (Z.ltb_lt _ _)) by lia. done.
Qed.

Lemma cand_le_trans a b c : cand_le a b = true -> cand_le b c = true -> cand_le a c = true.
Proof.
  unfold cand_le. rewrite !orb_true_iff, !andb_true_iff, !Z.ltb_lt, !Z.eqb_eq, !Z.leb_le. lia.
Qed.

Lemma insert_sorted_perm {A} (le : A -> A -> bool) x l : insert_sorted le x l ≡ₚ x :: l.
Proof.
  induction l as [|y l IH]; cbn; [done|]. destruct (le x y); [done|]. rewrite IH. constructor.
Qed.

Lemma sort_by_perm {A} (le : A -> A -> bool) l : sort_by le l ≡ₚ l.
Proof. induction l as [|x l IH]; cbn; [done|]. by rewrite insert_sorted_perm, IH. Qed.

Lemma sort_by_sorted l : StronglySorted (fun a b => cand_le a b = true) (sort_by cand_le l).
Proof.
  induction l as [|x l IH]; cbn; [constructor|]. fold (sort_by cand_le l).
  induction IH as [|y l' Hs IH' Hy]; cbn; [by repeat constructor|].
  destruct (cand_le x y) eqn:E.
  - constructor; [by constructor|]. constructor; [done|].
    eapply Forall_impl; [|exact Hy]. cbn. intros z. by apply cand_le_trans.
  - constructor; [done|]. rewrite List.Forall_forall in *. intros z Hz.
    apply list_elem_of_In in Hz. rewrite insert_sorted_perm in Hz.
    apply elem_of_cons in Hz as [->|Hz]; [by apply cand_le_total|]. by apply Hy, list_elem_of_In.
Qed.

(** The first hit in a sorted list is a least hit. *)
Lemma find_sorted_least l f x :
  StronglySorted (fun a b => cand_le a b = true) l -> List.find f l = Some x ->
  f x = true /\ x ∈ l /\ forall y, y ∈ l -> f y = true -> cand_le x y = true.
Proof.
  intros Hs. induction Hs as [|y l Hs IH Hy]; cbn; [done|]. destruct (f y) eqn:Ey.
  - intros [= ->]. split_and!; [done|by left|]. intros z [->|Hz]%elem_of_cons _.
    + unfold cand_le. by rewrite Z.eqb_refl, Z.leb_refl, orb_true_r.
    + rewrite List.Forall_forall in Hy. by apply Hy, list_elem_of_In.
  - intros Hf. destruct (IH Hf) as (? & ? & Hl). split_and!; [done|by right|].
    intros z [->|Hz]%elem_of_cons Hfz; [congruence|auto].
Qed.

(** The candidates are the eligible tasks of the list, none is the excluded one. *)
Lemma candidates_ok h id l s :
  heap s = h ->
  (forall n, n ∈ l -> exists tk, h !! task n = Some tk /\ Task.id tk <> id) ->
  exists cs, candidates id l s = Done cs s /\
    forall c, c ∈ cs <-> exists n tk, n ∈ l /\ h !! task n = Some tk /\ eligible tk = true /\
      c = mkCand (task n) (wake_key (wakeup_time n)) (Task.last_touch tk).
Proof.
  intros Hh. induction l as [|n l IH]; intros Hl.
  { exists []. split; [done|]. intros c. split; [by intros ?%not_elem_of_nil|].
    by intros (? & ? & ?%not_elem_of_nil & _). }
  destruct (Hl n ltac:(by left)) as (tk & Htk & Hid).
  destruct IH as (cs & E & Hcs); [intros x Hx; apply Hl; by right|].
  assert (Erun : candidates id (n :: l) s =
    Done (if eligible tk then mkCand (task n) (wake_key (wakeup_time n)) (Task.last_touch tk) :: cs
          else cs) s).
  { cbn [candidates]. unfold bind, borrow, bind, get, unwrap. rewrite Hh, Htk. unfold ret, assert_.
    rewrite (proj2 (Z.eqb_neq _ _) Hid). cbn [negb]. unfold ret. rewrite E.
    unfold eligible. by destruct (_ && _ && _). }
  eexists. split; [exact Erun|]. intros c. split.
  - intros Hc. destruct (eligible tk) eqn:Hel; [apply elem_of_cons in Hc as [->|Hc]|].
    + exists n, tk. split_and!; try done. by left.
    + apply Hcs in Hc as (x & tx & ? & ? & ? & ->). exists x, tx. split_and!; try done. by right.
    + apply Hcs in Hc as (x & tx & ? & ? & ? & ->). exists x, tx. split_and!; try done. by right.
  - intros (x & tx & [->|Hx]%elem_of_cons & Htx & Hel & ->).
    + simplify_eq. rewrite Hel. by left.
    + assert (mkCand (task x) (wake_key (wakeup_time x)) (Task.last_touch tx) ∈ cs)
        by (apply Hcs; eauto 10). destruct (eligible tk); [by right|done].
Qed.

Lemma select_eviction_ok core now exclude_id s :
  inv core s ->
  (forall n tk, n ∈ list s -> heap s !! task n = Some tk -> Task.id tk <> exclude_id) ->
  exists v, select_eviction_victim now exclude_id s = Done v s /\
    let stale tk := LAST_TOUCH_THRESHOLD <=? sat_sub now (Task.last_touch tk) in
    match v with
    | Some r => exists n tk, n ∈ list s /\ r = task n /\ heap s !! task n = Some tk /\
        eligible tk = true /\ stale tk = true /\
        forall n' tk', n' ∈ list s -> heap s !! task n' = Some tk' -> eligible tk' = true ->
          stale tk' = true ->
          wake_key (wakeup_time n) < wake_key (wakeup_time n') \/
          (wake_key (wakeup_time n) = wake_key (wakeup_time n') /\
           Task.last_touch tk <= Task.last_touch tk')
    | None => forall n tk, n ∈ list s -> heap s !! task n = Some tk -> eligible tk = true ->
        stale tk = false
    end.
Proof.
  intros [Hinv _] Hex.
  destruct (candidates_ok (heap s) exclude_id (list s) s eq_refl) as (cs & E & Hcs).
  { intros n Hn. pose proof (inv_nodes _ _ Hinv) as Hnodes. rewrite List.Forall_forall in Hnodes.
    destruct (Hnodes n) as [(tk & Htk & _) _]; [by apply list_elem_of_In|]. eauto. }
  eexists. split; [unfold select_eviction_victim, bind, get; by rewrite E|].
  set (f := fun c => LAST_TOUCH_THRESHOLD <=? sat_sub now (c_touch c)).
  destruct (List.find f (sort_by cand_le cs)) as [c|] eqn:Hf; cbn.
  - destruct (find_sorted_least _ _ _ (sort_by_sorted cs) Hf) as (Hstale & Hin & Hleast).
    rewrite sort_by_perm in Hin. apply Hcs in Hin as (n & tk & Hn & Htk & Hel & ->).
    exists n, tk. split_and!; try done. intros n' tk' Hn' Htk' Hel' Hst'.
    specialize (Hleast (mkCand (task n') (wake_key (wakeup_time n')) (Task.last_touch tk'))).
    unfold cand_le in Hleast. cbn in Hleast.
    rewrite orb_true_iff, andb_true_iff, Z.ltb_lt, Z.eqb_eq, Z.leb_le in Hleast.
    apply Hleast; [|done]. rewrite sort_by_perm. apply Hcs. eauto 10.
  - intros n tk Hn Htk Hel.
    apply (find_none f _ Hf (mkCand (task n) (wake_key (wakeup_time n)) (Task.last_touch tk))).
    apply list_elem_of_In. rewrite sort_by_perm. apply Hcs. eauto 10.
Qed.

(** ** Properties *)

(** What can happen to the queue: a running task blocks, a blocked task is
    woken explicitly (as [PerCoreScheduler::custom_wakeup] does on its own
    core), or the waiting tasks are handled after a timer interrupt. *)
Inductive op : Set :=
  | Block (r : tref) (wakeup : option Z)
  | Wake (handle : TaskHandle.t)
  | Tick (now : Z).

Definition wake (core : Z) (handle : TaskHandle.t) : M t unit :=
  let! ' (r, completed) := custom_wakeup core handle in
  if completed : bool then ready_push r else ret tt.

Definition exec_op (core : Z) (o : op) : M t unit :=
  match o with
  | Block r wakeup => add r wakeup
  | Wake handle => wake core handle
  | Tick now => handle_waiting_tasks now core
  end.

Definition enabled (core : Z) (s : t) (o : op) : Prop :=
  match o with
  | Block r w => (exists tk, heap s !! r = Some tk /\ Task.status tk = Running /\ wakeable core tk) /\
                 from_option (fun w => 0 <= w < u64_max) True w
  | Wake handle => exists n tk, n ∈ list s /\ heap s !! task n = Some tk /\
                     Task.id tk = TaskHandle.get_id handle
  | Tick _ => True
  end.

(** Waking a blocked task moves it to the ready queue. *)
Lemma wake_ok core s handle pre n post tk :
  inv core s ->
  find_blocked (heap s) (TaskHandle.get_id handle) (list s) = Some (pre, n, post) ->
  heap s !! task n = Some tk ->
  exists ts q,
    let s' := mk (<[task n := Task.set_status Ready tk]> (heap s)) (pre ++ post) ts q in
    wake core handle s = Done tt s' /\ inv core s' /\
    ReadyQueue.queues q = fifo_push (ReadyQueue.queues (ready s)) (Z.to_nat (Task.prio tk)) (task n) /\
    ReadyQueue.tasks q ≡ₚ task n :: ReadyQueue.tasks (ready s).
Proof.
  intros Hinv Hfind Htk.
  destruct (custom_wakeup_ok core s handle pre n post tk Hinv Hfind Htk) as (ts & E & Hinv').
  destruct (find_blocked_Some _ _ _ _ _ _ Hfind) as [Hl _].
  pose proof (inv_nodes _ _ (proj1 Hinv)) as Hn. rewrite Hl in Hn.
  apply Forall_app in Hn as [_ Hn]. apply Forall_cons_iff in Hn as [[(tk' & ? & Hst & Hwk) _] _].
  simplify_eq.
  destruct (ready_push_ok core _ (task n) (Task.set_status Ready tk) (proj1 Hinv'))
    as (q & Eq & Hinv'' & Hq & Hp); [apply lookup_insert_eq|done|done| |].
  { eapply (not_ready_not_queued (heap s)); [apply Hinv|done|congruence]. }
  exists ts, q. split; [|split; [|done]].
  - unfold wake, bind. rewrite E. exact Eq.
  - split; [done|]. apply Hinv'.
Qed.

(** C22: every operation of the queue of blocked tasks runs without panicking
    and preserves its invariant: the queue stays sorted by deadline with the
    tasks without deadline last, it holds exactly blocked tasks, each once,
    the ready queue holds exactly ready ones, and the hardware timer of the
    core is armed for a time no later than the deadline of any waiting task,
    so no timed wakeup is lost. *)
Theorem blocked_queue_steps core s o :
  inv core s -> enabled core s o ->
  exists s', exec_op core o s = Done tt s' /\ inv core s' /\
    forall n w, n ∈ list s' -> wakeup_time n = Some w ->
      exists d, Timers.oneshot (timers s') = Some d /\ d <= w.
Proof.
  intros Hinv Hen.
  assert (Hstep : exists s', exec_op core o s = Done tt s' /\ inv core s').
  { destruct o as [r w|handle|now]; cbn [enabled exec_op] in *.
    - destruct Hen as [(tk & Htk & Hst & Hwk) Hw].
      destruct (add_ok core s r tk w Hinv Htk Hst Hwk Hw) as (pre & post & ts & _ & E). eauto.
    - destruct Hen as (n0 & tk0 & Hn0 & Htk0 & Hid).
      destruct (find_blocked (heap s) (TaskHandle.get_id handle) (list s)) as [[[pre n] post]|] eqn:Hf.
      + destruct (find_blocked_Some _ _ _ _ _ _ Hf) as (_ & tk & Htk & _).
        destruct (wake_ok core s handle pre n post tk Hinv Hf Htk) as (ts & q & E & ? & _). eauto.
      + rewrite find_blocked_None in Hf. by destruct (Hf n0 tk0).
    - destruct (handle_waiting_ok core now s (proj1 Hinv)) as (ts & q & E & ? & _). eauto. }
  destruct Hstep as (s' & E & Hinv'). exists s'. split_and!; [done..|]. intros n w Hn Hw.
  pose proof (inv_nodes _ _ (proj1 Hinv')) as Hnodes. pose proof (proj2 Hinv') as Hcov.
  rewrite List.Forall_forall in Hnodes, Hcov. apply list_elem_of_In in Hn.
  destruct (Hnodes n Hn) as [_ Hr]. specialize (Hcov n Hn). unfold covered in Hcov.
  rewrite Hw in Hr, Hcov. cbn in Hr, Hcov.
  destruct (inv_timers _ _ (proj1 Hinv')) as (a & k & Hts & ? & ? & ->).
  unfold Timers.deadline in Hcov. rewrite Hts in Hcov. cbn in Hcov.
  exists (Z.min a k). rewrite Timers.hw_deadline_Some by lia. split; [done|lia].
Qed.

(** handling the waiting tasks at time [now] wakes exactly the tasks
    whose deadline has passed: they become ready and are pushed to the ready
    queue in deadline order, every other task and its place in the queue is
    unchanged, and the timer covers the remaining deadlines again, also right
    after a timer interrupt has cleared it. *)
Theorem handle_waiting_exact core now s :
  inv0 core s ->
  let woken := List.filter (elapsed now) (list s) in
  exists s',
    handle_waiting_tasks now core s = Done tt s' /\ inv core s' /\
    list s' = List.filter (fun n => negb (elapsed now n)) (list s) /\
    heap s' = readied (heap s) (map task woken) /\
    ReadyQueue.queues (ready s') = push_nodes (heap s) (ReadyQueue.queues (ready s)) woken.
Proof.
  intros Hinv woken. destruct (handle_waiting_ok core now s Hinv) as (ts & q & E & ? & ? & _).
  eexists. split_and!; [exact E|done..].
Qed.

(** a task whose deadline has passed and that has been woken by the timer
    is no longer in the queue, so an explicit wakeup of it that was still on
    its way runs into [unreachable!()]: the kernel panics. *)
Theorem second_wakeup_panics core now s n tk :
  inv core s -> n ∈ list s -> elapsed now n = true -> heap s !! task n = Some tk ->
  (forall n' tk', n' ∈ list s -> heap s !! task n' = Some tk' ->
     Task.id tk' = Task.id tk -> n' = n) ->
  exists s' why, handle_waiting_tasks now core s = Done tt s' /\
    (exists tk', heap s' !! task n = Some tk' /\ Task.status tk' = Ready) /\
    custom_wakeup core (Task.handle tk) s' = Panic why.
Proof.
  intros Hinv Hn Hel Htk Hids.
  destruct (handle_waiting_ok core now s (proj1 Hinv)) as (ts & q & E & Hinv' & _).
  set (woken := List.filter (elapsed now) (list s)) in *.
  eexists _, _. split; [exact E|]. split.
  - assert (Hr : task n ∈ map task woken).
    { apply list_elem_of_In, in_map, filter_In. split; [by apply list_elem_of_In|done]. }
    pose proof (readied_status _ (heap s) _ Hr ltac:(by eexists)) as Hst. cbn.
    destruct (readied _ _ !! task n) as [tk'|]; simplify_eq/=. eauto.
  - unfold custom_wakeup, bind, get. cbn [heap list].
    rewrite (proj2 (find_blocked_None _ _ _)); [done|].
    intros n' tk' [Hin' Hnel]%list_elem_of_In%filter_In Htk' Heq.
    pose proof (readied_id (map task woken) (heap s) (task n')) as Hid. rewrite Htk' in Hid.
    destruct (heap s !! task n') as [tk0|] eqn:Htk0; simplify_eq/=.
    assert (n' = n) as -> by (eapply Hids; [by apply list_elem_of_In|done|congruence]).
    by rewrite Hel in Hnel.
Qed.

(** victim selection never picks the task being dispatched, and the victim
    it picks is a blocked slot resident that has not run for at least ten
    milliseconds, with the latest deadline (no deadline first) and, among
    equals, the oldest dispatch; it finds none only when there is none. *)
Theorem eviction_victim_is_stalest core now exclude_id s :
  inv core s ->
  (forall n tk, n ∈ list s -> heap s !! task n = Some tk -> Task.id tk <> exclude_id) ->
  exists v, select_eviction_victim now exclude_id s = Done v s /\
    let stale tk := LAST_TOUCH_THRESHOLD <=? sat_sub now (Task.last_touch tk) in
    match v with
    | Some r => exists n tk, n ∈ list s /\ r = task n /\ heap s !! task n = Some tk /\
        eligible tk = true /\ stale tk = true /\
        forall n' tk', n' ∈ list s -> heap s !! task n' = Some tk' -> eligible tk' = true ->
          stale tk' = true ->
          wake_key (wakeup_time n) < wake_key (wakeup_time n') \/
          (wake_key (wakeup_time n) = wake_key (wakeup_time n') /\
           Task.last_touch tk <= Task.last_touch tk')
    | None => forall n tk, n ∈ list s -> heap s !! task n = Some tk -> eligible tk = true ->
        stale tk = false
    end.
Proof. apply select_eviction_ok. Qed.

(** ** Concrete instances *)

Definition demo_task (id : Z) (st : TaskStatus) : Task.t :=
  Task.set_slot (Some 0%nat) (Task.new ∅ id 0 st NORMAL_PRIO (TaskStacks.Boot 0)).

(** Task 5 is running, task 6 waits until time 100. *)
Definition demo_state : t :=
  mk {[ 1%nat := demo_task 5 Running; 2%nat := demo_task 6 Blocked ]} [mkBlocked 2 (Some 100)]
     (Timers.mk [Timers.mkSlot Timers.Network u64_max; Timers.mkSlot Timers.Scheduler 100] (Some 100) 0)
     ReadyQueue.new.

Lemma demo_state_inv : inv 0 demo_state.
Proof.
  split; [split|].
  - constructor; [|constructor]. split; [|unfold u64_max; cbn; lia].
    exists (demo_task 6 Blocked). split_and!; [done|done|]. split_and!; done.
  - apply NoDup_cons_2; [by apply not_elem_of_nil|apply NoDup_nil_2].
  - repeat constructor.
  - exists u64_max, 100. split_and!; try done; unfold u64_max; lia.
  - split_and!; [apply ReadyQueue.new_wf|apply NoDup_nil_2|by intros r ?%not_elem_of_nil].
  - constructor; [|constructor]. cbn. lia.
Qed.

Lemma demo_ids n tk :
  n ∈ list demo_state -> heap demo_state !! task n = Some tk -> Task.id tk = 6.
Proof. intros ->%list_elem_of_singleton [= <-]. done. Qed.

Lemma blocked_queue_steps_witness :
  exists s', add 1 (Some 50) demo_state = Done tt s' /\ inv 0 s'.
Proof.
  destruct (blocked_queue_steps 0 demo_state (Block 1 (Some 50))) as (s' & E & Hinv & _).
  - exact demo_state_inv.
  - split; [|unfold u64_max; cbn; lia]. exists (demo_task 5 Running). repeat split; discriminate.
  - exists s'. split; [exact E|exact Hinv].
Defined.

Lemma handle_waiting_exact_witness :
  exists s', handle_waiting_tasks 101 0 demo_state = Done tt s' /\ list s' = [].
Proof.
  destruct (handle_waiting_exact 0 101 demo_state (proj1 demo_state_inv)) as (s' & E & _ & Hl & _).
  exists s'. split; [exact E|exact Hl].
Defined.

Lemma second_wakeup_panics_witness :
  exists s' why, handle_waiting_tasks 101 0 demo_state = Done tt s' /\
    custom_wakeup 0 (TaskHandle.new 6 2 0) s' = Panic why.
Proof.
  destruct (second_wakeup_panics 0 101 demo_state (mkBlocked 2 (Some 100)) (demo_task 6 Blocked))
    as (s' & why & E & _ & Hp).
  - exact demo_state_inv.
  - by left.
  - reflexivity.
  - reflexivity.
  - intros n' tk' ->%list_elem_of_singleton _ _. reflexivity.
  - exists s', why. split; [exact E|exact Hp].
Defined.

Lemma eviction_victim_is_stalest_witness :
  exists v, select_eviction_victim 20000 5 demo_state = Done v demo_state.
Proof.
  destruct (eviction_victim_is_stalest 0 20000 5 demo_state) as (v & E & _).
  - exact demo_state_inv.
  - intros n tk Hn Htk. rewrite (demo_ids n tk Hn Htk). lia.
  - exists v. exact E.
Defined.

End BlockedQueue.
