(* ===== verification/Kernel.v ===== *)
(** The state the scheduler of one core works on: the fields of
    [PerCoreScheduler], the statics of [src/src/scheduler/mod.rs], the task
    cells ([Rc<RefCell<Task>>]), and what it reaches through other modules (the
    slot pool, the supervisor's table, the hardware timer, the clock, the FPU
    registers, the inter-processor interrupts it sends).  Other cores are
    represented by their [SchedulerInput]. *)

From S2P Require Import Prelude PrioFifo Tasks ReadyQueue Timers Supervisor SlotPool BlockedQueue.

Module Kernel.

Record NewTask : Type := mkNewTask {
  tid : Z; func : Z; arg : Z; prio : Z; new_core_id : Z;
  stacks : TaskStacks.t; object_map : gmap Z Z;
}.

Record SchedulerInput : Type := mkInput {
  new_tasks : list NewTask;
  wakeup_tasks : list TaskHandle.t;
}.

(** What the scheduler takes from the linker, the boot loader and other
    modules: addresses, the number of processors, the thread pointer of the
    TLS block of the program (if it has one), the standard streams. *)
Record Env : Type := mkEnv {
  start_exception_slots : Z;
  task_start : Z;
  idle_entry : Z;
  tls_from_env : option Z;
  stdio : gmap Z Z;
  processor_count : Z;
  kernel_start_address : Z;
  kernel_end_address : Z;
}.

Record t : Type := mk {
  core_id : Z; (** core of this scheduler *)
  current_task : tref; (** task which is currently running *)
  idle_task : tref; (** idle task *)
  fpu_owner : tref; (** task that currently owns the FPU *)
  finished_tasks : list tref; (** finished tasks that can be released *)
  queues : BlockedQueue.t; (** task cells, blocked and ready queue, timers *)
  next_ref : tref; (** the next unused cell *)
  NO_TASKS : Z; (** number of tasks, [AtomicU32] *)
  WAITING_TASKS : gmap Z (list TaskHandle.t); (** task id -> tasks that join it *)
  TASKS : gmap Z TaskHandle.t; (** task id -> handle *)
  SCHEDULER_INPUTS : list SchedulerInput; (** inputs of all cores *)
  TID_COUNTER : Z; (** [AtomicI32] *)
  CORE_COUNTER : Z; (** [AtomicU32] *)
  NEXT_CORE_ID : Z; (** [AtomicU32] *)
  slots : SlotPool.t; (** scratch slots and memory *)
  RESTART_TABLE : list Supervisor.RestartEntry; (** supervisor table *)
  kernel_sp : Z; (** [CoreLocal.kernel_sp] *)
  fpu_registers : Z; (** contents of the FPU registers *)
  ipis : list Z; (** reschedule SGIs sent, newest first *)
  clock : Z; (** [get_timer_ticks] *)
  stack_ranges : list (Z * Z); (** what the page and frame allocators hand out next *)
  freed : list Task.t; (** tasks whose [Drop] has run, newest first *)
}.

Definition set_core_id (x : Z) (k : t) : t :=
  mk x (current_task k) (idle_task k) (fpu_owner k) (finished_tasks k) (queues k)
    (next_ref k) (NO_TASKS k) (WAITING_TASKS k) (TASKS k) (SCHEDULER_INPUTS k)
    (TID_COUNTER k) (CORE_COUNTER k) (NEXT_CORE_ID k) (slots k) (RESTART_TABLE k)
    (kernel_sp k) (fpu_registers k) (ipis k) (clock k) (stack_ranges k) (freed k).
Definition set_current_task (x : tref) (k : t) : t :=
  mk (core_id k) x (idle_task k) (fpu_owner k) (finished_tasks k) (queues k) (next_ref k)
    (NO_TASKS k) (WAITING_TASKS k) (TASKS k) (SCHEDULER_INPUTS k) (TID_COUNTER k)
    (CORE_COUNTER k) (NEXT_CORE_ID k) (slots k) (RESTART_TABLE k) (kernel_sp k)
    (fpu_registers k) (ipis k) (clock k) (stack_ranges k) (freed k).
Definition set_idle_task (x : tref) (k : t) : t :=
  mk (core_id k) (current_task k) x (fpu_owner k) (finished_tasks k) (queues k) (next_ref
    k) (NO_TASKS k) (WAITING_TASKS k) (TASKS k) (SCHEDULER_INPUTS k) (TID_COUNTER k)
    (CORE_COUNTER k) (NEXT_CORE_ID k) (slots k) (RESTART_TABLE k) (kernel_sp k)
    (fpu_registers k) (ipis k) (clock k) (stack_ranges k) (freed k).
Definition set_fpu_owner (x : tref) (k : t) : t :=
  mk (core_id k) (current_task k) (idle_task k) x (finished_tasks k) (queues k) (next_ref
    k) (NO_TASKS k) (WAITING_TASKS k) (TASKS k) (SCHEDULER_INPUTS k) (TID_COUNTER k)
    (CORE_COUNTER k) (NEXT_CORE_ID k) (slots k) (RESTART_TABLE k) (kernel_sp k)
    (fpu_registers k) (ipis k) (clock k) (stack_ranges k) (freed k).
Definition set_finished_tasks (x : list tref) (k : t) : t :=
  mk (core_id k) (current_task k) (idle_task k) (fpu_owner k) x (queues k) (next_ref k)
    (NO_TASKS k) (WAITING_TASKS k) (TASKS k) (SCHEDULER_INPUTS k) (TID_COUNTER k)
    (CORE_COUNTER k) (NEXT_CORE_ID k) (slots k) (RESTART_TABLE k) (kernel_sp k)
    (fpu_registers k) (ipis k) (clock k) (stack_ranges k) (freed k).
Definition set_queues (x : BlockedQueue.t) (k : t) : t :=
  mk (core_id k) (current_task k) (idle_task k) (fpu_owner k) (finished_tasks k) x
    (next_ref k) (NO_TASKS k) (WAITING_TASKS k) (TASKS k) (SCHEDULER_INPUTS k)
    (TID_COUNTER k) (CORE_COUNTER k) (NEXT_CORE_ID k) (slots k) (RESTART_TABLE k)
    (kernel_sp k) (fpu_registers k) (ipis k) (clock k) (stack_ranges k) (freed k).
Definition set_next_ref (x : tref) (k : t) : t :=
  mk (core_id k) (current_task k) (idle_task k) (fpu_owner k) (finished_tasks k) (queues
    k) x (NO_TASKS k) (WAITING_TASKS k) (TASKS k) (SCHEDULER_INPUTS k) (TID_COUNTER k)
    (CORE_COUNTER k) (NEXT_CORE_ID k) (slots k) (RESTART_TABLE k) (kernel_sp k)
    (fpu_registers k) (ipis k) (clock k) (stack_ranges k) (freed k).
Definition set_NO_TASKS (x : Z) (k : t) : t :=
  mk (core_id k) (current_task k) (idle_task k) (fpu_owner k) (finished_tasks k) (queues
    k) (next_ref k) x (WAITING_TASKS k) (TASKS k) (SCHEDULER_INPUTS k) (TID_COUNTER k)
    (CORE_COUNTER k) (NEXT_CORE_ID k) (slots k) (RESTART_TABLE k) (kernel_sp k)
    (fpu_registers k) (ipis k) (clock k) (stack_ranges k) (freed k).
Definition set_WAITING_TASKS (x : gmap Z (list TaskHandle.t)) (k : t) : t :=
  mk (core_id k) (current_task k) (idle_task k) (fpu_owner k) (finished_tasks k) (queues
    k) (next_ref k) (NO_TASKS k) x (TASKS k) (SCHEDULER_INPUTS k) (TID_COUNTER k)
    (CORE_COUNTER k) (NEXT_CORE_ID k) (slots k) (RESTART_TABLE k) (kernel_sp k)
    (fpu_registers k) (ipis k) (clock k) (stack_ranges k) (freed k).
Definition set_TASKS (x : gmap Z TaskHandle.t) (k : t) : t :=
  mk (core_id k) (current_task k) (idle_task k) (fpu_owner k) (finished_tasks k) (queues
    k) (next_ref k) (NO_TASKS k) (WAITING_TASKS k) x (SCHEDULER_INPUTS k) (TID_COUNTER k)
    (CORE_COUNTER k) (NEXT_CORE_ID k) (slots k) (RESTART_TABLE k) (kernel_sp k)
    (fpu_registers k) (ipis k) (clock k) (stack_ranges k) (freed k).
Definition set_SCHEDULER_INPUTS (x : list SchedulerInput) (k : t) : t :=
  mk (core_id k) (current_task k) (idle_task k) (fpu_owner k) (finished_tasks k) (queues
    k) (next_ref k) (NO_TASKS k) (WAITING_TASKS k) (TASKS k) x (TID_COUNTER k)
    (CORE_COUNTER k) (NEXT_CORE_ID k) (slots k) (RESTART_TABLE k) (kernel_sp k)
    (fpu_registers k) (ipis k) (clock k) (stack_ranges k) (freed k).
Definition set_TID_COUNTER (x : Z) (k : t) : t :=
  mk (core_id k) (current_task k) (idle_task k) (fpu_owner k) (finished_tasks k) (queues
    k) (next_ref k) (NO_TASKS k) (WAITING_TASKS k) (TASKS k) (SCHEDULER_INPUTS k) x
    (CORE_COUNTER k) (NEXT_CORE_ID k) (slots k) (RESTART_TABLE k) (kernel_sp k)
    (fpu_registers k) (ipis k) (clock k) (stack_ranges k) (freed k).
Definition set_CORE_COUNTER (x : Z) (k : t) : t :=
  mk (core_id k) (current_task k) (idle_task k) (fpu_owner k) (finished_tasks k) (queues
    k) (next_ref k) (NO_TASKS k) (WAITING_TASKS k) (TASKS k) (SCHEDULER_INPUTS k)
    (TID_COUNTER k) x (NEXT_CORE_ID k) (slots k) (RESTART_TABLE k) (kernel_sp k)
    (fpu_registers k) (ipis k) (clock k) (stack_ranges k) (freed k).
Definition set_NEXT_CORE_ID (x : Z) (k : t) : t :=
  mk (core_id k) (current_task k) (idle_task k) (fpu_owner k) (finished_tasks k) (queues
    k) (next_ref k) (NO_TASKS k) (WAITING_TASKS k) (TASKS k) (SCHEDULER_INPUTS k)
    (TID_COUNTER k) (CORE_COUNTER k) x (slots k) (RESTART_TABLE k) (kernel_sp k)
    (fpu_registers k) (ipis k) (clock k) (stack_ranges k) (freed k).
Definition set_slots (x : SlotPool.t) (k : t) : t :=
  mk (core_id k) (current_task k) (idle_task k) (fpu_owner k) (finished_tasks k) (queues
    k) (next_ref k) (NO_TASKS k) (WAITING_TASKS k) (TASKS k) (SCHEDULER_INPUTS k)
    (TID_COUNTER k) (CORE_COUNTER k) (NEXT_CORE_ID k) x (RESTART_TABLE k) (kernel_sp k)
    (fpu_registers k) (ipis k) (clock k) (stack_ranges k) (freed k).
Definition set_RESTART_TABLE (x : list Supervisor.RestartEntry) (k : t) : t :=
  mk (core_id k) (current_task k) (idle_task k) (fpu_owner k) (finished_tasks k) (queues
    k) (next_ref k) (NO_TASKS k) (WAITING_TASKS k) (TASKS k) (SCHEDULER_INPUTS k)
    (TID_COUNTER k) (CORE_COUNTER k) (NEXT_CORE_ID k) (slots k) x (kernel_sp k)
    (fpu_registers k) (ipis k) (clock k) (stack_ranges k) (freed k).
Definition set_kernel_sp (x : Z) (k : t) : t :=
  mk (core_id k) (current_task k) (idle_task k) (fpu_owner k) (finished_tasks k) (queues
    k) (next_ref k) (NO_TASKS k) (WAITING_TASKS k) (TASKS k) (SCHEDULER_INPUTS k)
    (TID_COUNTER k) (CORE_COUNTER k) (NEXT_CORE_ID k) (slots k) (RESTART_TABLE k) x
    (fpu_registers k) (ipis k) (clock k) (stack_ranges k) (freed k).
Definition set_fpu_registers (x : Z) (k : t) : t :=
  mk (core_id k) (current_task k) (idle_task k) (fpu_owner k) (finished_tasks k) (queues
    k) (next_ref k) (NO_TASKS k) (WAITING_TASKS k) (TASKS k) (SCHEDULER_INPUTS k)
    (TID_COUNTER k) (CORE_COUNTER k) (NEXT_CORE_ID k) (slots k) (RESTART_TABLE k)
    (kernel_sp k) x (ipis k) (clock k) (stack_ranges k) (freed k).
Definition set_ipis (x : list Z) (k : t) : t :=
  mk (core_id k) (current_task k) (idle_task k) (fpu_owner k) (finished_tasks k) (queues
    k) (next_ref k) (NO_TASKS k) (WAITING_TASKS k) (TASKS k) (SCHEDULER_INPUTS k)
    (TID_COUNTER k) (CORE_COUNTER k) (NEXT_CORE_ID k) (slots k) (RESTART_TABLE k)
    (kernel_sp k) (fpu_registers k) x (clock k) (stack_ranges k) (freed k).
Definition set_clock (x : Z) (k : t) : t :=
  mk (core_id k) (current_task k) (idle_task k) (fpu_owner k) (finished_tasks k) (queues
    k) (next_ref k) (NO_TASKS k) (WAITING_TASKS k) (TASKS k) (SCHEDULER_INPUTS k)
    (TID_COUNTER k) (CORE_COUNTER k) (NEXT_CORE_ID k) (slots k) (RESTART_TABLE k)
    (kernel_sp k) (fpu_registers k) (ipis k) x (stack_ranges k) (freed k).
Definition set_stack_ranges (x : list (Z * Z)) (k : t) : t :=
  mk (core_id k) (current_task k) (idle_task k) (fpu_owner k) (finished_tasks k) (queues
    k) (next_ref k) (NO_TASKS k) (WAITING_TASKS k) (TASKS k) (SCHEDULER_INPUTS k)
    (TID_COUNTER k) (CORE_COUNTER k) (NEXT_CORE_ID k) (slots k) (RESTART_TABLE k)
    (kernel_sp k) (fpu_registers k) (ipis k) (clock k) x (freed k).
Definition set_freed (x : list Task.t) (k : t) : t :=
  mk (core_id k) (current_task k) (idle_task k) (fpu_owner k) (finished_tasks k) (queues
    k) (next_ref k) (NO_TASKS k) (WAITING_TASKS k) (TASKS k) (SCHEDULER_INPUTS k)
    (TID_COUNTER k) (CORE_COUNTER k) (NEXT_CORE_ID k) (slots k) (RESTART_TABLE k)
    (kernel_sp k) (fpu_registers k) (ipis k) (clock k) (stack_ranges k) x.

(** ** Access to the parts *)

Definition heap (k : t) : task_heap := BlockedQueue.heap (queues k).
Definition ready_queue (k : t) : ReadyQueue.t := BlockedQueue.ready (queues k).
Definition blocked_tasks (k : t) : list BlockedQueue.BlockedTask := BlockedQueue.list (queues k).
Definition timers (k : t) : Timers.t := BlockedQueue.timers (queues k).

Definition set_heap (h : task_heap) (k : t) : t :=
  set_queues (BlockedQueue.set_heap h (queues k)) k.
Definition set_ready_queue (q : ReadyQueue.t) (k : t) : t :=
  set_queues (BlockedQueue.set_ready q (queues k)) k.

Definition on_queues {A} (m : M BlockedQueue.t A) : M t A := zoom queues set_queues m.
Definition on_slots {A} (m : M SlotPool.t A) : M t A := zoom slots set_slots m.

(** [RefCell::borrow] of a cell, and writing it back. *)
Definition borrow (r : tref) : M t Task.t :=
  let! k := get in unwrap (heap k !! r) "dangling task reference".
Definition update (r : tref) (f : Task.t -> Task.t) : M t unit :=
  let! tk := borrow r in modify (fun k => set_heap (<[r := f tk]> (heap k)) k).

(** [Rc::new(RefCell::new(task))] *)
Definition new_cell (tk : Task.t) : M t tref :=
  let! k := get in
  do! modify (fun k => set_next_ref (S (next_ref k)) (set_heap (<[next_ref k := tk]> (heap k)) k)) in
  ret (next_ref k).

Definition ready_push (r : tref) : M t unit := on_queues (BlockedQueue.ready_push r).

(** [ready_queue.pop()] and [pop_with_prio] *)
Definition ready_op (f : ReadyQueue.t -> option (option tref * ReadyQueue.t)) : M t (option tref) :=
  let! k := get in
  let! ' (r, q) := unwrap (f (ready_queue k)) "ready queue: index out of range" in
  do! modify (set_ready_queue q) in
  ret r.

(** An operation of the slot pool on the task in a cell. *)
Definition slot_op (r : tref) (f : Task.t -> M SlotPool.t (bool * Task.t)) : M t bool :=
  let! tk := borrow r in
  let! ' (b, tk) := on_slots (f tk) in
  do! update r (fun _ => tk) in
  ret b.

(** Strong references to a cell, other than the one being dropped. *)
Definition references (k : t) : list tref :=
  current_task k :: idle_task k :: fpu_owner k :: finished_tasks k
    ++ ReadyQueue.tasks (ready_queue k) ++ map BlockedQueue.task (blocked_tasks k).

(** Dropping an [Rc<RefCell<Task>>]: the last reference runs [Task::drop] and
    frees the cell. *)
Definition drop_ref (r : tref) : M t unit :=
  modify (fun k =>
    if bool_decide (r ∈ references k) then k
    else match heap k !! r with
         | Some tk => set_freed (tk :: freed k) (set_heap (delete r (heap k)) k)
         | None => k
         end).

(** [kernel::wakeup_core] and the SGI of [reschedule]. *)
Definition send_sgi (core : Z) : M t unit := modify (fun k => set_ipis (core :: ipis k) k).

End Kernel.
