(* ===== verification/Scheduler.v ===== *)
(** The per-core scheduler, [src/src/scheduler/mod.rs]: spawning, blocking,
    waking and finishing tasks, the descriptor table of the current task, the
    choice of the next task and the slot it runs on.

    Operations run with interrupts disabled, so the clock does not matter
    within one and reads the same value.  [reschedule] pends the reschedule
    interrupt (SGI) of the core; the interrupt then calls [scheduler false]. *)

From S2P Require Import Prelude PrioFifo Tasks Errors ReadyQueue Timers Supervisor SlotPool BlockedQueue Kernel.
Import Kernel.

Module Scheduler.

Section Operations.
Context (env : Env).

Definition reschedule : M t unit :=
  let! k := get in send_sgi (core_id k).

(** ** Task identifiers *)

(** The search of [get_tid], for at most [fuel] identifiers. *)
Fixpoint get_tid_loop (fuel : nat) : M t Z :=
  match fuel with
  | O => panic "get_tid: no free identifier"
  | S fuel =>
      let! k := get in
      let id := TID_COUNTER k in
      do! modify (set_TID_COUNTER (wraps 32 (id + 1))) in
      if bool_decide (is_Some (TASKS k !! id)) then get_tid_loop fuel else ret id
  end.

(** One more identifier than are in use: the search always ends. *)
Definition get_tid : M t Z :=
  let! k := get in get_tid_loop (S (size (TASKS k))).

Definition get_task_handle (id : Z) : M t (option TaskHandle.t) :=
  gets (fun k => TASKS k !! id).

(** ** Creating tasks *)

(** [TaskStacks::new], with the ranges the allocators return. *)
Definition new_stacks (size : Z) : M t TaskStacks.t :=
  let! k := get in
  match stack_ranges k with
  | [] => panic "Failed to allocate memory for TaskStacks"
  | (page_start, frame_start) :: rest =>
      do! modify (set_stack_ranges rest) in
      on_slots (fun p =>
        let '(st, m) := SlotPool.new_stacks size page_start frame_start (SlotPool.mem p) in
        Done st (SlotPool.mk (SlotPool.CORE_SLOTS p) m))
  end.

Definition create_stack_frame (func arg : Z) (task : Task.t) : M t Task.t :=
  on_slots (fun p =>
    let '(task, m) := SlotPool.create_stack_frame (task_start env) (tls_from_env env) func arg
                        task (SlotPool.mem p) in
    Done task (SlotPool.mk (SlotPool.CORE_SLOTS p) m)).

(** [impl From<NewTask> for Task] *)
Definition task_from (value : NewTask) : M t Task.t :=
  let task := Task.new (stdio env) (tid value) (new_core_id value) Ready (prio value) (stacks value) in
  let task := Task.set_object_map (object_map value) task in
  let! task := create_stack_frame (func value) (arg value) task in
  let task := Task.set_entry (func value) task in
  let task := Task.set_entry_arg (arg value) task in
  ret (Task.set_entry_point_id EntryPointId.AppTask task).

Definition new_idle (tid core : Z) : M t Task.t :=
  let! stacks := new_stacks DEFAULT_STACK_SIZE in
  let task := Task.set_entry (idle_entry env)
                (Task.new (stdio env) tid core Idle IDLE_PRIO stacks) in
  create_stack_frame (idle_entry env) 0 task.

Definition get_scheduler_input (core : Z) : M t SchedulerInput :=
  let! k := get in
  unwrap (SCHEDULER_INPUTS k !! Z.to_nat core) "SCHEDULER_INPUTS: index out of range".
Definition set_scheduler_input (core : Z) (i : SchedulerInput) : M t unit :=
  modify (fun k => set_SCHEDULER_INPUTS (<[Z.to_nat core := i]> (SCHEDULER_INPUTS k)) k).

(** The deep copy of the current task's descriptor table. *)
Definition clone_current_task_object_map : M t (gmap Z Z) :=
  let! k := get in
  let! tk := borrow (current_task k) in
  ret (Task.object_map tk).

(** Registering a new task and queueing it here or at its core. *)
Definition register_task (new_task : NewTask) : M t bool :=
  let id := tid new_task in
  let! input := get_scheduler_input (new_core_id new_task) in
  do! modify (fun k => set_WAITING_TASKS (<[id := []]> (WAITING_TASKS k)) k) in
  do! modify (fun k =>
        set_TASKS (<[id := TaskHandle.new id (prio new_task) (new_core_id new_task)]> (TASKS k)) k) in
  do! modify (fun k => set_NO_TASKS (wrapu 32 (NO_TASKS k + 1)) k) in
  let! k := get in
  if new_core_id new_task =? core_id k then
    let! task := task_from new_task in
    let! r := new_cell task in
    do! ready_push r in
    ret false
  else
    do! set_scheduler_input (new_core_id new_task)
          (mkInput (new_tasks input ++ [new_task]) (wakeup_tasks input)) in
    ret true.

(** [PerCoreScheduler::spawn] *)
Definition spawn_on (func arg prio core stack_size : Z) : M t Z :=
  let! tid := get_tid in
  let! stacks := new_stacks stack_size in
  let! map := clone_current_task_object_map in
  let! wakeup := register_task (mkNewTask tid func arg prio core stacks map) in
  do! (if wakeup : bool then send_sgi core else ret tt) in
  ret tid.

(** [scheduler::spawn] *)
Definition spawn (func arg prio stack_size selector : Z) : M t Z :=
  let! k := get in
  let! core :=
    (if selector <? 0
     then do! modify (set_CORE_COUNTER (wrapu 32 (CORE_COUNTER k + 1))) in
          do! assert_ (negb (processor_count env =? 0)) "remainder by zero" in
          ret (CORE_COUNTER k mod processor_count env)
     else ret (wrapu 32 selector)) in
  spawn_on func arg prio core stack_size.

Definition clone_impl (func arg : Z) : M t Z :=
  let! k := get in
  let id := NEXT_CORE_ID k in
  do! modify (set_NEXT_CORE_ID (wrapu 32 (id + 1))) in
  let! core :=
    (if id =? processor_count env
     then do! modify (set_NEXT_CORE_ID 0) in ret 0
     else ret id) in
  let! current := borrow (current_task k) in
  let! tid := get_tid in
  let! stacks := new_stacks (TaskStacks.get_user_stack_size (Task.stacks current)) in
  let! wakeup := register_task (mkNewTask tid func arg (Task.prio current) core stacks
                                  (Task.object_map current)) in
  do! (if wakeup : bool then send_sgi core else ret tt) in
  ret tid.

(** ** Waking and blocking *)

Definition wake_pending_tasks : M t unit :=
  let! k := get in
  on_queues (BlockedQueue.handle_waiting_tasks (clock k) (core_id k)).

Definition custom_wakeup (task : TaskHandle.t) : M t unit :=
  let! k := get in
  if TaskHandle.get_core_id task =? core_id k then
    on_queues (BlockedQueue.wake (core_id k) task)
  else
    let! input := get_scheduler_input (TaskHandle.get_core_id task) in
    do! set_scheduler_input (TaskHandle.get_core_id task)
          (mkInput (new_tasks input) (wakeup_tasks input ++ [task])) in
    send_sgi (TaskHandle.get_core_id task).

Definition block_current_task (wakeup_time : option Z) : M t unit :=
  let! k := get in
  on_queues (BlockedQueue.add (current_task k) wakeup_time).

Definition get_current_task_handle : M t TaskHandle.t :=
  let! k := get in
  let! tk := borrow (current_task k) in
  ret (Task.handle tk).

Definition get_current_task_id : M t Z :=
  let! k := get in
  let! tk := borrow (current_task k) in
  ret (Task.id tk).

Definition get_current_task_prio : M t Z :=
  let! k := get in
  let! tk := borrow (current_task k) in
  ret (Task.prio tk).

(** Wake all tasks of a queue, in order. *)
Fixpoint wake_queue (queue : list TaskHandle.t) : M t unit :=
  match queue with
  | [] => ret tt
  | task :: queue => do! custom_wakeup task in wake_queue queue
  end.

(** The first part of [exit]: finish the current task, give back its slot,
    wake the tasks that join it. *)
Definition finish_current : M t unit :=
  let! k := get in
  let! tk := borrow (current_task k) in
  do! assert_ (negb (bool_decide (Task.status tk = Idle))) "Trying to terminate the idle task" in
  do! update (current_task k) (Task.set_status Finished) in
  do! modify (fun k => set_NO_TASKS (wrapu 32 (NO_TASKS k - 1)) k) in
  do! (if bool_decide (Task.frame_location tk = InSlot)
       then on_slots (SlotPool.release_slot (core_id k) tk) else ret tt) in
  let! k := get in
  do! (match WAITING_TASKS k !! Task.id tk with
       | Some queue =>
           do! modify (fun k => set_WAITING_TASKS (delete (Task.id tk) (WAITING_TASKS k)) k) in
           wake_queue queue
       | None => ret tt
       end) in
  modify (fun k => set_TASKS (delete (Task.id tk) (TASKS k)) k).

(** The supervisor hook of [exit]. *)
Definition respawn_finished : M t unit :=
  let! k := get in
  let! tk := borrow (current_task k) in
  let! again := zoom RESTART_TABLE set_RESTART_TABLE
                  (Supervisor.should_restart (clock k) (Task.entry_point_id tk)) in
  if again : bool then
    let entry := Task.entry tk in
    let in_image := (kernel_start_address env <=? entry) && (entry <? kernel_end_address env) in
    if (entry =? 0) || (entry =? u64_max) || negb in_image then ret tt
    else
      do! spawn_on entry (Task.entry_arg tk) (Task.prio tk) (core_id k) DEFAULT_STACK_SIZE in
      ret tt
  else ret tt.

Definition exit : M t unit :=
  do! finish_current in
  do! respawn_finished in
  reschedule.

(** One round of the loop of [join]: [true] when the task is gone, otherwise
    the current task waits for it and gives up the processor. *)
Definition join_round (id : Z) : M t bool :=
  let! k := get in
  match WAITING_TASKS k !! id with
  | None => ret true
  | Some queue =>
      let! me := get_current_task_handle in
      do! modify (fun k => set_WAITING_TASKS (<[id := queue ++ [me]]> (WAITING_TASKS k)) k) in
      do! block_current_task None in
      do! reschedule in
      ret false
  end.

(** ** The descriptor table of the current task *)

Definition get_object (fd : Z) : M t (io_result Z) :=
  let! map := clone_current_task_object_map in
  ret (match map !! fd with Some obj => Ok obj | None => Err Errno.Badf end).

(** The search for the lowest free descriptor, for at most [fuel] ones. *)
Fixpoint new_fd_loop (fuel : nat) (map : gmap Z Z) (fd : Z) : option (io_result Z) :=
  match fuel with
  | O => None
  | S fuel =>
      if bool_decide (map !! fd = None) then Some (Ok fd)
      else if fd =? i32_max then Some (Err Errno.Overflow)
      else new_fd_loop fuel map (sat_add i32_max fd 1)
  end.

(** One more round than there are descriptors: the search always ends. *)
Definition new_fd (map : gmap Z Z) : M t (io_result Z) :=
  unwrap (new_fd_loop (S (size map)) map 0) "new_fd: search did not end".

Definition set_current_object_map (map : gmap Z Z) : M t unit :=
  let! k := get in update (current_task k) (Task.set_object_map map).

Definition insert_object (obj : Z) : M t (io_result Z) :=
  let! map := clone_current_task_object_map in
  let! r := new_fd map in
  match r with
  | Ok fd => do! set_current_object_map (<[fd := obj]> map) in ret (Ok fd)
  | Err e => ret (Err e)
  end.

Definition dup_object (fd : Z) : M t (io_result Z) :=
  let! map := clone_current_task_object_map in
  match map !! fd with
  | None => ret (Err Errno.Inval)
  | Some obj =>
      let! r := new_fd map in
      match r with
      | Err e => ret (Err e)
      | Ok fd =>
          match map !! fd with
          | Some _ => ret (Err Errno.Mfile)
          | None => do! set_current_object_map (<[fd := obj]> map) in ret (Ok fd)
          end
      end
  end.

Definition dup_object2 (fd1 fd2 : Z) : M t (io_result Z) :=
  let! map := clone_current_task_object_map in
  match map !! fd1 with
  | None => ret (Err Errno.Badf)
  | Some obj =>
      match map !! fd2 with
      | Some _ => ret (Err Errno.Mfile)
      | None => do! set_current_object_map (<[fd2 := obj]> map) in ret (Ok fd2)
      end
  end.

Definition remove_object (fd : Z) : M t (io_result Z) :=
  let! map := clone_current_task_object_map in
  match map !! fd with
  | None => ret (Err Errno.Badf)
  | Some obj => do! set_current_object_map (delete fd map) in ret (Ok obj)
  end.

(** ** Priorities and the FPU *)

Definition set_current_task_priority (prio : Z) : M t unit :=
  let! k := get in update (current_task k) (Task.set_prio prio).

Definition set_priority (id prio : Z) : M t (Result unit unit) :=
  let! h := get_task_handle id in
  match h with
  | None => ret (Err tt)
  | Some task =>
      let! k := get in
      if negb (TaskHandle.get_core_id task =? core_id k) then ret (Ok tt)
      else
        let! current := borrow (current_task k) in
        if Task.id current =? TaskHandle.get_id task
        then do! update (current_task k) (Task.set_prio prio) in ret (Ok tt)
        else
          match ReadyQueue.set_priority (heap k) (ready_queue k) task prio with
          | None => panic "ready queue: index out of range"
          | Some (Err _, _, _) => panic "Do not find valid task in ready queue"
          | Some (Ok _, h, q) => do! modify (fun k => set_ready_queue q (set_heap h k)) in ret (Ok tt)
          end
  end.

Definition fpu_switch : M t unit :=
  let! k := get in
  if bool_decide (current_task k = fpu_owner k) then ret tt
  else
    do! update (fpu_owner k) (Task.set_last_fpu_state (fpu_registers k)) in
    let! current := borrow (current_task k) in
    do! modify (set_fpu_registers (Task.last_fpu_state current)) in
    modify (set_fpu_owner (current_task k)).

(** ** Housekeeping *)

(** The drop loop of [cleanup_tasks]; the list is the queue of finished
    tasks, each is removed before it is dropped. *)
Fixpoint cleanup_loop (l : list tref) : M t nat :=
  match l with
  | [] => ret 0%nat
  | r :: l =>
      do! modify (set_finished_tasks l) in
      do! drop_ref r in
      let! n := cleanup_loop l in
      ret (S n)
  end.

Definition cleanup_tasks : M t nat :=
  let! k := get in cleanup_loop (finished_tasks k).

Fixpoint check_wakeups (l : list TaskHandle.t) : M t unit :=
  match l with
  | [] => ret tt
  | task :: l =>
      let! k := get in
      do! on_queues (BlockedQueue.wake (core_id k) task) in
      check_wakeups l
  end.

Fixpoint check_new (l : list NewTask) : M t unit :=
  match l with
  | [] => ret tt
  | new_task :: l =>
      let! task := task_from new_task in
      let! r := new_cell task in
      do! ready_push r in
      check_new l
  end.

Definition check_input : M t unit :=
  let! k := get in
  let! input := get_scheduler_input (core_id k) in
  do! set_scheduler_input (core_id k) (mkInput [] []) in
  do! check_wakeups (wakeup_tasks input) in
  check_new (new_tasks input).

(** ** Choosing the next task *)

(** Steps 4-5 of [ensure_slot]: evict the stalest blocked resident and retry,
    at most [SLOTS_PER_CORE - 1] times; [true] when a slot was acquired. *)
Fixpoint evict_loop (evictions : nat) (task : tref) (self_id : Z) : M t bool :=
  match evictions with
  | O => ret false
  | S evictions =>
      let! k := get in
      let! victim := on_queues (BlockedQueue.select_eviction_victim (clock k) self_id) in
      match victim with
      | None => ret false
      | Some v =>
          let! vt := borrow v in
          match Task.slot vt with
          | None => panic "ensure_slot: victim without slot selected forever"
          | Some slot_idx =>
              let! woken := slot_op v (SlotPool.evict_victim (start_exception_slots env)
                                         (core_id k) slot_idx) in
              do! (if woken : bool then
                     let! completed := on_queues (BlockedQueue.mark_ready (core_id k) v) in
                     if completed : bool then ready_push v else ret tt
                   else ret tt) in
              let! got := slot_op task (SlotPool.dispatch_acquire_slot (start_exception_slots env)
                                          (core_id k)) in
              if got : bool then ret true else evict_loop evictions task self_id
          end
      end
  end.

Definition ensure_slot (task : tref) : M t unit :=
  let! k := get in
  do! update task (Task.set_last_touch (clock k)) in
  let! b := borrow task in
  if bool_decide (is_Some (Task.slot b)) && bool_decide (Task.frame_location b = InSlot)
  then ret tt
  else
    let frame := Task.last_stack_pointer b in
    if negb (frame =? 0) && Z.odd (SlotPool.mem (slots k) frame)
    then ret tt
    else
      let! resumed :=
        (if bool_decide (Task.frame_location b = Evicted)
         then slot_op task (SlotPool.resume_from_evicted (start_exception_slots env) (core_id k))
         else ret false) in
      if resumed : bool then ret tt
      else
        let! got := slot_op task (SlotPool.dispatch_acquire_slot (start_exception_slots env)
                                    (core_id k)) in
        if got : bool then ret tt
        else
          let! got := evict_loop (SLOTS_PER_CORE - 1) task (Task.id b) in
          if got : bool then ret tt
          else
            do! slot_op task (SlotPool.dispatch_acquire_slot (start_exception_slots env)
                                (core_id k)) in
            ret tt.

(** A finished current task gives up the FPU and is handed over to
    [cleanup_tasks]. *)
Definition retire_finished (status : TaskStatus) : M t unit :=
  if bool_decide (status = Finished) then
    let! k := get in
    do! (if bool_decide (fpu_owner k = current_task k)
         then modify (set_fpu_owner (idle_task k)) else ret tt) in
    do! update (current_task k) (Task.set_status Invalid) in
    modify (fun k => set_finished_tasks (finished_tasks k ++ [current_task k]) k)
  else ret tt.

(** The task to run next, [None] when the current one goes on. *)
Definition pick_task (status : TaskStatus) (prio : Z) : M t (option tref) :=
  if bool_decide (status = Running) then
    ready_op (fun q => ReadyQueue.pop_with_prio q prio)
  else
    do! retire_finished status in
    let! task := ready_op ReadyQueue.pop in
    let! k := get in
    ret (match task with
         | Some task => Some task
         | None => if bool_decide (status = Idle) then None else Some (idle_task k)
         end).

(** A running task that is switched away from is ready again. *)
Definition requeue_current (status : TaskStatus) : M t unit :=
  if bool_decide (status = Running) then
    let! k := get in
    do! update (current_task k) (Task.set_status Ready) in
    ready_push (current_task k)
  else ret tt.

(** Hand the processor to [task]; [id] is the identifier of the task that
    ran before, whose cell is [old]. *)
Definition dispatch (id : Z) (old task : tref) : M t (option tref) :=
  do! ensure_slot task in
  let! tk := borrow task in
  do! modify (set_kernel_sp (TaskStacks.get_kernel_stack (Task.stacks tk)
                             + TaskStacks.get_kernel_stack_size (Task.stacks tk))) in
  do! (if bool_decide (Task.status tk = Idle) then ret tt
       else update task (Task.set_status Running)) in
  if id =? Task.id tk then ret None
  else do! modify (set_current_task task) in ret (Some old).

(** ** Poking the network stack

    [flush_nic] of [src/src/executor/network.rs].  The stack itself (smoltcp)
    is no code of the kernel; what the scheduler sees of it are the wakers it
    calls.  A waker belongs to a future of the background executor, which
    calling it only queues there, or to a task in [block_on]
    ([TaskNotify::wake]): calling it wakes the task that is parked at the
    notification's futex, and leaves a note there when none is. *)
Inductive NetWaker : Type :=
  | Background
  | Notify (parked : option TaskHandle.t).

Record NicState : Type := mkNic {
  nic_held : bool; (** [NIC.try_lock()] fails *)
  nic_initialized : bool; (** [NetworkState::Initialized] *)
  poll_wakers : list NetWaker; (** what the poll of the interface calls, in order *)
  network_waker : option NetWaker; (** [NETWORK_WAKER] *)
}.

Definition call_waker (w : NetWaker) : M t unit :=
  match w with
  | Background | Notify None => ret tt
  | Notify (Some task) => custom_wakeup task
  end.

Fixpoint call_wakers (l : list NetWaker) : M t unit :=
  match l with
  | [] => ret tt
  | w :: l => do! call_waker w in call_wakers l
  end.

Definition wake_network_waker (nic : NicState) : M t unit :=
  match network_waker nic with
  | Some w => call_waker w
  | None => ret tt
  end.

(** Removing the closed sockets afterwards calls no waker. *)
Definition flush_nic (nic : NicState) : M t unit :=
  if nic_held nic then wake_network_waker nic
  else if nic_initialized nic then call_wakers (poll_wakers nic)
  else ret tt.

(** Releasing the finished tasks; on the I/O core the network stack is poked
    when there were any. *)
Definition housekeeping (nic : NicState) : M t unit :=
  let! reaped := cleanup_tasks in
  let! k := get in
  if (0 <? reaped)%nat && (core_id k =? 0) then flush_nic nic else ret tt.

(** [scheduler(false)], the call of the interrupt handlers: the answer names
    the task whose stack pointer the switch has to save. *)
Definition scheduler (nic : NicState) : M t (option tref) :=
  do! housekeeping nic in
  let! k := get in
  let! current := borrow (current_task k) in
  let! new_task := pick_task (Task.status current) (Task.prio current) in
  match new_task with
  | None => ret None
  | Some task =>
      do! requeue_current (Task.status current) in
      dispatch (Task.id current) (current_task k) task
  end.

(** [add_current_core]: the scheduler of a core starts with its idle task. *)
Definition add_current_core (core : Z) : M t unit :=
  let! tid := get_tid in
  let! task := new_idle tid core in
  let! r := new_cell task in
  do! modify (fun k => set_WAITING_TASKS (<[tid := []]> (WAITING_TASKS k)) k) in
  do! modify (fun k => set_TASKS (<[tid := TaskHandle.new tid IDLE_PRIO core]> (TASKS k)) k) in
  do! modify (fun k =>
        set_core_id core (set_current_task r (set_idle_task r (set_fpu_owner r
          (set_finished_tasks [] (set_queues
            (BlockedQueue.mk (heap k) [] Timers.init ReadyQueue.new) k)))))) in
  let! k := get in
  do! assert_ (Z.to_nat core <=? length (SCHEDULER_INPUTS k))%nat "Vec::insert: index out of range" in
  modify (fun k => set_SCHEDULER_INPUTS
    (take (Z.to_nat core) (SCHEDULER_INPUTS k) ++ mkInput [] [] :: drop (Z.to_nat core) (SCHEDULER_INPUTS k)) k).
End Operations.

End Scheduler.
