(* ===== verification/SchedInv.v ===== *)
(** The invariant of the per-core scheduler and the lemmas that its operations
    preserve it.  Every task is where its status says it is: ready tasks are
    in the ready queue of their priority, blocked tasks in the queue of blocked
    tasks, the running (or just finished) task is the current one, invalid
    tasks are queued for release, and the slot pool agrees with all of them. *)

From S2P Require Import Prelude PrioFifo Tasks Errors ReadyQueue Timers Supervisor SlotPool BlockedQueue Kernel Scheduler.
Import Kernel Scheduler.

Module SchedInv.

(** ** Invariant *)

(** A task of core [core] between operations: no eviction is in progress. *)
Definition task_ok (core : Z) (tk : Task.t) : Prop :=
  BlockedQueue.wakeable core tk /\ Task.wake_pending tk = false.

(** Where a task is, given its status.  [run] is the task that may be running
    or finished, [ex] a task just taken out of the ready queue. *)
Definition placed (run ex : option tref) (k : t) (r : tref) (tk : Task.t) : Prop :=
  match Task.status tk with
  | Ready => r ∈ ReadyQueue.tasks (ready_queue k) \/ ex = Some r
  | Running | Finished => run = Some r
  | Blocked => r ∈ map BlockedQueue.task (blocked_tasks k)
  | Idle => r = idle_task k
  | Invalid => r ∈ finished_tasks k
  end.

(** Finished and invalid tasks wait for release, the others are live. *)
Definition dead (st : TaskStatus) : bool :=
  match st with Finished | Invalid => true | _ => false end.

Record kinv_gen (run ex : option tref) (k : t) : Prop := {
  k_core : 0 <= core_id k;
  k_queues : BlockedQueue.inv (core_id k) (queues k);
  k_tasks : forall r tk, heap k !! r = Some tk -> task_ok (core_id k) tk /\ placed run ex k r tk;
  k_idle : exists tk, heap k !! idle_task k = Some tk /\ Task.status tk = Idle;
  k_fpu : exists tk, heap k !! fpu_owner k = Some tk /\ Task.status tk <> Invalid;
  k_finished : NoDup (finished_tasks k);
  k_invalid : forall r, r ∈ finished_tasks k -> exists tk, heap k !! r = Some tk /\ Task.status tk = Invalid;
  k_fresh : forall r, is_Some (heap k !! r) -> (r < next_ref k)%nat;
  k_slots : exists owners, SlotPool.pool_inv (core_id k) (heap k) (slots k) owners;
  k_registered : forall r tk, heap k !! r = Some tk -> dead (Task.status tk) = false ->
    is_Some (TASKS k !! Task.id tk);
}.

(** The current task: not invalid, and no live task shares its identifier. *)
Definition current_ok (k : t) : Prop :=
  exists tk, heap k !! current_task k = Some tk /\ Task.status tk <> Invalid /\
    forall r tk', heap k !! r = Some tk' -> dead (Task.status tk') = false ->
      Task.id tk' = Task.id tk -> r = current_task k.

(** The invariant between operations. *)
Definition kinv (k : t) : Prop := kinv_gen (Some (current_task k)) None k /\ current_ok k.

(** ** Dead and live *)

Lemma live_dead tk : SlotPool.live tk <-> dead (Task.status tk) = false.
Proof. unfold SlotPool.live, dead. destruct (Task.status tk); split; try done; by intros []. Qed.

(** Two live tasks with the same identifier are the same. *)
Lemma k_ids run ex k r tk r' tk' :
  kinv_gen run ex k -> heap k !! r = Some tk -> heap k !! r' = Some tk' ->
  dead (Task.status tk) = false -> dead (Task.status tk') = false ->
  Task.id tk = Task.id tk' -> r = r'.
Proof.
  intros Hinv Hr Hr' Hl Hl'. destruct (k_slots _ _ _ Hinv) as (owners & Hp).
  apply live_dead in Hl, Hl'. by apply (proj1 (SlotPool.inv_ids _ _ _ _ Hp)).
Qed.

(** ** Changing one cell *)

(** What the slot pool sees of a task is unchanged. *)
Definition same_slot (tk tk' : Task.t) : Prop :=
  Task.id tk' = Task.id tk /\ Task.slot tk' = Task.slot tk /\
  Task.frame_location tk' = Task.frame_location tk /\
  dead (Task.status tk') = dead (Task.status tk).

(** A pointwise change of the cells. *)
Definition mapped (f : tref -> Task.t -> Task.t) (h h' : task_heap) : Prop :=
  forall r, h' !! r = f r <$> h !! r.

(** The change of one cell. *)
Definition at_cell (r : tref) (tk' : Task.t) (x : tref) (tk : Task.t) : Task.t :=
  if bool_decide (x = r) then tk' else tk.

Lemma mapped_cell h r tk tk' : h !! r = Some tk -> mapped (at_cell r tk') h (<[r := tk']> h).
Proof.
  intros Htk x. unfold at_cell. case_bool_decide as Hx.
  - subst. by rewrite lookup_insert_eq, Htk.
  - rewrite lookup_insert_ne by done. by destruct (h !! x).
Qed.

Lemma mapped_Some f h h' r tk' :
  mapped f h h' -> h' !! r = Some tk' -> exists tk, h !! r = Some tk /\ tk' = f r tk.
Proof. intros Hm. rewrite Hm. destruct (h !! r); naive_solver. Qed.

Lemma pool_inv_map core h h' p owners f :
  SlotPool.pool_inv core h p owners -> mapped f h h' ->
  (forall r tk, h !! r = Some tk -> same_slot tk (f r tk)) ->
  SlotPool.pool_inv core h' p owners.
Proof.
  intros [Hown Hlen Hheld Howned [Hids Hnn]] Hm Hsame.
  assert (Hlive : forall r tk, h !! r = Some tk -> SlotPool.live (f r tk) -> SlotPool.live tk).
  { intros r tk Htk. rewrite !live_dead. by destruct (Hsame r tk Htk) as (_ & _ & _ & ->). }
  split; [done..| | |split].
  - intros r tk' i (tk & Htk & ->)%(mapped_Some f h) Hl Hs; [|done].
    destruct (Hsame r tk Htk) as (Eid & Es & Ef & _). rewrite Eid, Ef.
    apply (Hheld r tk); [done|by eapply Hlive|congruence].
  - intros i o Hi Ho. destruct (Howned i o Hi Ho) as (q & tq & Hq & Hl & Hs & Hid).
    destruct (Hsame q tq Hq) as (Eid & Es & _ & Ed). exists q, (f q tq). rewrite Hm, Hq.
    split_and!; [done| |congruence..]. rewrite live_dead in *. congruence.
  - intros q tq q' tq' (t0 & Hq & ->)%(mapped_Some f h) (t1 & Hq' & ->)%(mapped_Some f h) Hl Hl' E; [|done..].
    destruct (Hsame q t0 Hq) as (Eid & _), (Hsame q' t1 Hq') as (Eid' & _).
    apply (Hids q t0 q' t1); [done..|by eapply Hlive|by eapply Hlive|congruence].
  - intros q tq (t0 & Hq & ->)%(mapped_Some f h); [|done]. destruct (Hsame q t0 Hq) as (-> & _). eauto.
Qed.

Lemma pool_inv_cell core h p owners r tk tk' :
  SlotPool.pool_inv core h p owners -> h !! r = Some tk -> same_slot tk tk' ->
  SlotPool.pool_inv core (<[r := tk']> h) p owners.
Proof.
  intros Hp Htk Hs. eapply pool_inv_map; [done|by eapply mapped_cell|].
  intros x tx Hx. unfold at_cell. case_bool_decide; [by simplify_eq|by split_and!].
Qed.

(** Dropping a dead task. *)
Lemma pool_inv_delete core h p owners r tk :
  SlotPool.pool_inv core h p owners -> h !! r = Some tk -> ~ SlotPool.live tk ->
  SlotPool.pool_inv core (delete r h) p owners.
Proof.
  intros [Hown Hlen Hheld Howned [Hids Hnn]] Htk Hdead. split; [done..| | |split].
  - intros q tq i [_ Hq]%lookup_delete_Some. eauto.
  - intros i o Hi Ho. destruct (Howned i o Hi Ho) as (q & tq & Hq & Hl & Hs & Hid).
    exists q, tq. rewrite lookup_delete_ne; [done|]. intros <-. by simplify_eq.
  - intros q tq q' tq' [_ Hq]%lookup_delete_Some [_ Hq']%lookup_delete_Some. eauto.
  - intros q tq [_ Hq]%lookup_delete_Some. eauto.
Qed.

(** The blocked and ready queues under a change of a cell that they do not hold. *)
Lemma queues_inv_insert core s r tk :
  BlockedQueue.inv core s -> r ∉ map BlockedQueue.task (BlockedQueue.list s) ->
  r ∉ ReadyQueue.tasks (BlockedQueue.ready s) ->
  BlockedQueue.inv core (BlockedQueue.set_heap (<[r := tk]> (BlockedQueue.heap s)) s).
Proof.
  intros [[Hn Hnd Hs Ht Hr] Hc] Hb Hq. split; [|done]. split; cbn; try done.
  - rewrite List.Forall_forall in *. intros n Hin. apply BlockedQueue.node_ok_insert; [|by apply Hn].
    intros <-. apply Hb. by apply list_elem_of_In, in_map.
  - by apply BlockedQueue.ready_ok_insert.
Qed.

(** A change of a cell that keeps what the queues look at. *)
Lemma queues_inv_same core s r tk tk' :
  BlockedQueue.inv core s -> BlockedQueue.heap s !! r = Some tk ->
  Task.status tk' = Task.status tk -> Task.prio tk' = Task.prio tk ->
  (BlockedQueue.wakeable core tk -> BlockedQueue.wakeable core tk') ->
  BlockedQueue.inv core (BlockedQueue.set_heap (<[r := tk']> (BlockedQueue.heap s)) s).
Proof.
  intros [[Hn Hnd Hs Ht (Hwf & Hrn & Hrd)] Hc] Htk Est Epr Hwk. split; [|done]. split; cbn; try done.
  - rewrite List.Forall_forall in *. intros n Hin. destruct (Hn n Hin) as [(tn & Htn & Hst & Hw) Hwt].
    split; [|done]. destruct (decide (r = BlockedQueue.task n)) as [->|].
    + simplify_eq. exists tk'. rewrite lookup_insert_eq. split_and!; [done|congruence|auto..].
      all: by apply Hwk.
    + exists tn. by rewrite lookup_insert_ne.
  - split_and!; [|done|].
    + apply (ReadyQueue.wf_heap (BlockedQueue.heap s)); [done|]. intros x _.
      destruct (decide (r = x)) as [->|]; [rewrite lookup_insert_eq, Htk; cbn; by rewrite Epr|].
      by rewrite lookup_insert_ne.
    + intros x Hx. destruct (Hrd x Hx) as (tx & Htx & Hst). destruct (decide (r = x)) as [->|].
      * simplify_eq. exists tk'. rewrite lookup_insert_eq. split; congruence.
      * exists tx. by rewrite lookup_insert_ne.
Qed.

(** Membership in the queues follows from the status. *)
Lemma in_blocked_status run ex k r :
  kinv_gen run ex k -> r ∈ map BlockedQueue.task (blocked_tasks k) ->
  exists tk, heap k !! r = Some tk /\ Task.status tk = Blocked.
Proof.
  intros Hinv Hin. apply list_elem_of_In, in_map_iff in Hin as (n & <- & Hn).
  pose proof (BlockedQueue.inv_nodes _ _ (proj1 (k_queues _ _ _ Hinv))) as Hf.
  rewrite List.Forall_forall in Hf. destruct (Hf n Hn) as [(tk & ? & ? & _) _]. eauto.
Qed.

Lemma in_ready_status run ex k r :
  kinv_gen run ex k -> r ∈ ReadyQueue.tasks (ready_queue k) ->
  exists tk, heap k !! r = Some tk /\ Task.status tk = Ready.
Proof.
  intros Hinv. destruct (k_queues _ _ _ Hinv) as [[_ _ _ _ (_ & _ & H)] _]. apply H.
Qed.

(** The place of another task does not depend on this cell. *)
Lemma placed_mono run ex k run' ex' k' r tk :
  placed run ex k r tk ->
  (forall x, x ∈ ReadyQueue.tasks (ready_queue k) \/ ex = Some x -> x = r ->
     x ∈ ReadyQueue.tasks (ready_queue k') \/ ex' = Some x) ->
  (run = Some r -> run' = Some r) ->
  (r ∈ map BlockedQueue.task (blocked_tasks k) -> r ∈ map BlockedQueue.task (blocked_tasks k')) ->
  idle_task k' = idle_task k ->
  (r ∈ finished_tasks k -> r ∈ finished_tasks k') ->
  placed run' ex' k' r tk.
Proof. unfold placed. intros H H1 H2 H3 H4 H5. destruct (Task.status tk); auto. congruence. Qed.

(** [k'] has the same core, idle task, cells in use, registrations and slots. *)
Definition same_rest (k k' : t) : Prop :=
  core_id k' = core_id k /\ idle_task k' = idle_task k /\ next_ref k' = next_ref k /\
  TASKS k' = TASKS k /\ slots k' = slots k.

(** A pointwise change of the cells; the slot pool is accounted for separately. *)
Lemma kinv_gen_pool run ex run' ex' k k' f :
  kinv_gen run ex k -> mapped f (heap k) (heap k') ->
  core_id k' = core_id k -> idle_task k' = idle_task k -> next_ref k' = next_ref k ->
  TASKS k' = TASKS k ->
  (exists owners, SlotPool.pool_inv (core_id k) (heap k') (slots k') owners) ->
  BlockedQueue.inv (core_id k) (queues k') ->
  (forall r tk, heap k !! r = Some tk -> task_ok (core_id k) (f r tk) /\
     Task.id (f r tk) = Task.id tk /\
     (dead (Task.status (f r tk)) = false -> dead (Task.status tk) = false) /\
     (Task.status tk = Idle -> Task.status (f r tk) = Idle) /\ placed run' ex' k' r (f r tk)) ->
  (exists tf, heap k' !! fpu_owner k' = Some tf /\ Task.status tf <> Invalid) ->
  NoDup (finished_tasks k') ->
  (forall x, x ∈ finished_tasks k' -> exists tx, heap k' !! x = Some tx /\ Task.status tx = Invalid) ->
  kinv_gen run' ex' k'.
Proof.
  intros [Hc Hq Ht (ti & Hti & Hi) _ _ _ Hfr _ Hreg] Hm Ec Ei En ET Hsl Hq' Hf Hfpu Hnd Hinv.
  split; rewrite ?Ec; try done.
  - intros x tx (t0 & Hx & ->)%(mapped_Some f (heap k)); [|done].
    by destruct (Hf x t0 Hx) as (? & _ & _ & _ & ?).
  - rewrite Ei. exists (f (idle_task k) ti). rewrite Hm, Hti. split; [done|]. by apply (Hf _ _ Hti).
  - intros x [tx (t0 & Hx & ->)%(mapped_Some f (heap k))]; [|done]. rewrite En. apply Hfr. by eexists.
  - intros x tx (t0 & Hx & ->)%(mapped_Some f (heap k)) Hd; [|done].
    destruct (Hf x t0 Hx) as (_ & -> & Hdd & _). rewrite ET. eapply Hreg; [done|auto].
Qed.

Lemma kinv_gen_map run ex run' ex' k k' f :
  kinv_gen run ex k -> mapped f (heap k) (heap k') -> same_rest k k' ->
  BlockedQueue.inv (core_id k) (queues k') ->
  (forall r tk, heap k !! r = Some tk -> task_ok (core_id k) (f r tk) /\ same_slot tk (f r tk) /\
     (Task.status tk = Idle -> Task.status (f r tk) = Idle) /\ placed run' ex' k' r (f r tk)) ->
  (exists tf, heap k' !! fpu_owner k' = Some tf /\ Task.status tf <> Invalid) ->
  NoDup (finished_tasks k') ->
  (forall x, x ∈ finished_tasks k' -> exists tx, heap k' !! x = Some tx /\ Task.status tx = Invalid) ->
  kinv_gen run' ex' k'.
Proof.
  intros Hinv Hm (Ec & Ei & En & ET & Es) Hq' Hf Hfpu Hnd Hiv.
  eapply kinv_gen_pool; [done..| |done| |done|done|done].
  - destruct (k_slots _ _ _ Hinv) as (owners & Hp). exists owners. rewrite Es.
    eapply pool_inv_map; [done..|]. intros r tk Hr. by apply Hf.
  - intros r tk Hr. destruct (Hf r tk Hr) as (? & (? & _ & _ & Ed) & ? & ?).
    split_and!; try done. by rewrite Ed.
Qed.

Lemma kinv_gen_cell run ex run' ex' k k' r tk tk' :
  kinv_gen run ex k -> heap k !! r = Some tk -> heap k' = <[r := tk']> (heap k) ->
  same_rest k k' ->
  BlockedQueue.inv (core_id k) (queues k') ->
  task_ok (core_id k) tk' -> same_slot tk tk' ->
  (Task.status tk = Idle -> Task.status tk' = Idle) ->
  placed run' ex' k' r tk' ->
  (forall x tx, x <> r -> heap k !! x = Some tx -> placed run ex k x tx -> placed run' ex' k' x tx) ->
  (exists tf, heap k' !! fpu_owner k' = Some tf /\ Task.status tf <> Invalid) ->
  NoDup (finished_tasks k') ->
  (forall x, x ∈ finished_tasks k' -> exists tx, heap k' !! x = Some tx /\ Task.status tx = Invalid) ->
  kinv_gen run' ex' k'.
Proof.
  intros Hinv Htk Hh Hrest Hq' Hok Hsame Hidle Hpl Hothers Hfpu Hnd Hiv.
  eapply kinv_gen_map; [done|rewrite Hh; by eapply mapped_cell|done..| |done|done|done].
  intros x tx Hx. unfold at_cell. case_bool_decide; [by simplify_eq|].
  destruct (k_tasks _ _ _ Hinv x tx Hx) as [? ?]. split_and!; try done. by apply Hothers.
Qed.

(** ** Releasing finished tasks *)

(** A task that waits for release is referenced from nowhere else. *)
Lemma finished_unreferenced run ex k r l :
  kinv_gen run ex k -> finished_tasks k = r :: l ->
  (exists tk, heap k !! current_task k = Some tk /\ Task.status tk <> Invalid) ->
  r ∉ references (set_finished_tasks l k).
Proof.
  intros Hinv Hf (tc & Htc & Hsc) Hin.
  destruct (k_invalid _ _ _ Hinv r ltac:(rewrite Hf; by left)) as (tk & Htk & Hst).
  destruct (k_idle _ _ _ Hinv) as (ti & Hti & Hsi). destruct (k_fpu _ _ _ Hinv) as (tf & Htf & Hsf).
  pose proof (k_finished _ _ _ Hinv) as Hnd. rewrite Hf in Hnd. apply NoDup_cons_1_1 in Hnd.
  unfold references in Hin. cbn in Hin. rewrite !elem_of_cons, !elem_of_app in Hin.
  destruct Hin as [->|[->|[->|[Hin|[Hin|Hin]]]]]; try congruence.
  - destruct (in_ready_status _ _ _ _ Hinv Hin) as (? & ? & ?). congruence.
  - destruct (in_blocked_status _ _ _ _ Hinv Hin) as (? & ? & ?). congruence.
Qed.

(** The state after the first task waiting for release has been dropped. *)
Definition reaped (k : t) (r : tref) (l : list tref) : t :=
  match heap k !! r with
  | Some tk => set_freed (tk :: freed k) (set_heap (delete r (heap k)) (set_finished_tasks l k))
  | None => k
  end.

Lemma reaped_inv run ex k r l :
  kinv_gen run ex k -> finished_tasks k = r :: l -> kinv_gen run ex (reaped k r l).
Proof.
  intros Hinv Hf. destruct (k_invalid _ _ _ Hinv r ltac:(rewrite Hf; by left)) as (tk & Htk & Hst).
  unfold reaped. rewrite Htk. pose proof Hinv as [Hc Hq Ht Hi Hfp Hnd Hiv Hfr (owners & Hsl) Hreg].
  rewrite Hf in Hnd, Hiv.
  assert (Hnr : r ∉ ReadyQueue.tasks (ready_queue k)).
  { intros Hin. destruct (in_ready_status _ _ _ _ Hinv Hin) as (? & ? & ?). congruence. }
  assert (Hnb : r ∉ map BlockedQueue.task (blocked_tasks k)).
  { intros Hin. destruct (in_blocked_status _ _ _ _ Hinv Hin) as (? & ? & ?). congruence. }
  assert (Hother : forall x, x <> r -> delete r (heap k) !! x = heap k !! x)
    by (intros; by apply lookup_delete_ne).
  split; cbn; try done.
  - destruct Hq as [[Qn Qd Qs Qt (Qw & Qr & Qk)] Qc]. split; [|done]. split; cbn; try done.
    + rewrite List.Forall_forall in *. intros n Hn. destruct (Qn n Hn) as [(tn & Htn & ?) ?].
      split; [|done]. exists tn. rewrite Hother; [done|]. intros Heq. apply Hnb.
      rewrite <- Heq. by apply list_elem_of_In, in_map.
    + split_and!; [|done|].
      * apply (ReadyQueue.wf_heap (heap k)); [done|]. intros x Hx. rewrite Hother; [done|]. by intros ->.
      * intros x Hx. destruct (Qk x Hx) as (tx & ? & ?). exists tx. rewrite Hother; [done|]. by intros ->.
  - intros x tx [Hne Hx]%lookup_delete_Some. destruct (Ht x tx Hx) as [? Hp]. split; [done|].
    eapply placed_mono; [done|auto..|]. cbn. rewrite Hf. intros [->|]%elem_of_cons; done.
  - destruct Hi as (ti & ? & ?). exists ti. change (heap (set_freed _ _)) with (delete r (heap k)).
    rewrite Hother; [done|cbn; congruence].
  - destruct Hfp as (tf & ? & ?). exists tf. change (heap (set_freed _ _)) with (delete r (heap k)).
    rewrite Hother; [done|cbn; congruence].
  - by apply NoDup_cons_1_2 in Hnd.
  - intros x Hx. destruct (Hiv x ltac:(by right)) as (tx & ? & ?). exists tx.
    change (heap (set_freed _ _)) with (delete r (heap k)).
    rewrite Hother; [done|]. intros ->. by apply NoDup_cons_1_1 in Hnd.
  - intros x [tx Hx]. apply lookup_delete_Some in Hx as [_ Hx]. apply Hfr. by eexists.
  - exists owners. eapply (pool_inv_delete _ _ _ _ r tk); [done..|]. intros [_ Hl]. by apply Hl.
  - intros x tx Hx. apply lookup_delete_Some in Hx as [_ Hx]. by apply (Hreg x).
Qed.

(** All finished tasks are dropped, and nothing else happens. *)
Lemma cleanup_inputs k n k' : cleanup_tasks k = Done n k' -> SCHEDULER_INPUTS k' = SCHEDULER_INPUTS k.
Proof.
  unfold cleanup_tasks, bind at 1, get. remember (finished_tasks k) as l eqn:El. clear El.
  revert k n. induction l as [|r l IH]; intros k n; [by intros [= _ <-]|].
  cbn [cleanup_loop]. intros (? & k1 & [= _ <-] & E)%bind_Done.
  apply bind_Done in E as (? & k2 & E2 & E). apply bind_Done in E as (? & k3 & E3 & [= _ <-]).
  apply IH in E3. rewrite E3. unfold drop_ref, modify in E2. injection E2 as _ <-.
  case_bool_decide; [done|]. by destruct (heap _ !! r).
Qed.

Lemma cleanup_ok run ex k :
  kinv_gen run ex k ->
  (exists tk, heap k !! current_task k = Some tk /\ Task.status tk <> Invalid) ->
  exists k', cleanup_tasks k = Done (length (finished_tasks k)) k' /\ kinv_gen run ex k' /\
    finished_tasks k' = [] /\ same_rest k k' /\ current_task k' = current_task k /\
    fpu_owner k' = fpu_owner k /\ clock k' = clock k /\
    ready_queue k' = ready_queue k /\ blocked_tasks k' = blocked_tasks k /\
    (forall x, heap k' !! x = if bool_decide (x ∈ finished_tasks k) then None else heap k !! x) /\
    (forall x tx, x ∈ finished_tasks k -> heap k !! x = Some tx -> tx ∈ freed k') /\
    (forall tx, tx ∈ freed k -> tx ∈ freed k').
Proof.
  unfold cleanup_tasks, bind at 1, get. intros Hinv Hcur.
  remember (finished_tasks k) as l eqn:El. revert k El Hinv Hcur.
  induction l as [|r l IH]; intros k El Hinv Hcur.
  { exists k. split_and!; try done. by intros x tx ?%not_elem_of_nil. }
  destruct (k_invalid _ _ _ Hinv r ltac:(rewrite <- El; by left)) as (tk & Htk & Hst).
  pose proof (finished_unreferenced _ _ _ _ _ Hinv (eq_sym El) Hcur) as Hnref.
  assert (Hk1 : reaped k r l =
    set_freed (tk :: freed k) (set_heap (delete r (heap k)) (set_finished_tasks l k)))
    by (unfold reaped; by rewrite Htk).
  pose proof (reaped_inv _ _ _ _ _ Hinv (eq_sym El)) as Hinv1. rewrite Hk1 in Hinv1.
  destruct Hcur as (tc & Htc & Hsc).
  destruct (IH (set_freed (tk :: freed k) (set_heap (delete r (heap k)) (set_finished_tasks l k))))
    as (k' & E & Hinv' & Hf' & Hrest & Hcur' & Hfpu' & Hcl & Hrq & Hbt & Hh' & Hfreed & Hmono); [done|done| |].
  { exists tc. change (heap (set_freed _ _)) with (delete r (heap k)).
    rewrite lookup_delete_ne; [done|]. cbn. congruence. }
  exists k'. split_and!; try done.
  - cbn [cleanup_loop length]. unfold bind, modify at 1. unfold drop_ref, modify.
    rewrite bool_decide_false by done. change (heap (set_finished_tasks l k)) with (heap k).
    rewrite Htk.
    change (match cleanup_loop l (set_freed (tk :: freed k)
              (set_heap (delete r (heap k)) (set_finished_tasks l k))) with
            | Done a s' => ret (S a) s' | Panic w => Panic w end = Done (S (length l)) k').
    by rewrite E.
  - intros x. rewrite Hh'. change (heap (set_freed _ _)) with (delete r (heap k)).
    destruct (decide (x = r)) as [->|Hne].
    + rewrite lookup_delete_eq, (bool_decide_true (r ∈ r :: l)) by (by left). by case_bool_decide.
    + rewrite lookup_delete_ne by done. repeat case_bool_decide; try done.
      * exfalso. by apply H0; right.
      * exfalso. by apply elem_of_cons in H0 as [|].
  - intros x tx [->|Hx]%elem_of_cons Htx.
    + simplify_eq. apply Hmono. by left.
    + apply (Hfreed x); [done|]. change (heap (set_freed _ _)) with (delete r (heap k)).
      rewrite lookup_delete_ne; [done|]. intros <-.
      pose proof (k_finished _ _ _ Hinv) as Hnd. rewrite <- El in Hnd. by apply NoDup_cons_1_1 in Hnd.
  - intros tx Htx. apply Hmono. by right.
Qed.

(** ** Slots *)

(** What the scheduler reads of a task, as opposed to its frame. *)
Definition view (tk : Task.t) : Z * TaskStatus * Z * Z * TaskStacks.t :=
  (Task.id tk, Task.status tk, Task.prio tk, Task.core_id tk, Task.stacks tk).

(** Only frames, slots and memory may differ. *)
Definition frame_eq (k k' : t) : Prop :=
  core_id k' = core_id k /\ idle_task k' = idle_task k /\ current_task k' = current_task k /\
  fpu_owner k' = fpu_owner k /\ finished_tasks k' = finished_tasks k /\ next_ref k' = next_ref k /\
  TASKS k' = TASKS k /\ ready_queue k' = ready_queue k /\ blocked_tasks k' = blocked_tasks k /\
  clock k' = clock k /\ (forall x, view <$> heap k' !! x = view <$> heap k !! x).

Lemma frame_eq_refl k : frame_eq k k.
Proof. by split_and!. Qed.

Lemma frame_eq_trans k1 k2 k3 : frame_eq k1 k2 -> frame_eq k2 k3 -> frame_eq k1 k3.
Proof.
  intros (?&?&?&?&?&?&?&?&?&?&Hv1) (?&?&?&?&?&?&?&?&?&?&Hv2).
  split_and!; congruence.
Qed.

Lemma frame_eq_view k k' r tk :
  frame_eq k k' -> heap k !! r = Some tk -> exists tk', heap k' !! r = Some tk' /\ view tk' = view tk.
Proof.
  intros (_&_&_&_&_&_&_&_&_&_&H) Htk. specialize (H r). rewrite Htk in H.
  destruct (heap k' !! r) as [tk'|]; [|done]. exists tk'. split; [done|]. by apply (inj Some) in H.
Qed.

(** A new frame for one task. *)
Definition put_frame (k : t) (r : tref) (tk : Task.t) (p : SlotPool.t) : t :=
  set_heap (<[r := tk]> (heap k)) (set_slots p k).

Lemma put_frame_inv run ex k r tk tk' p owners :
  kinv_gen run ex k -> heap k !! r = Some tk -> view tk' = view tk ->
  Task.frame_location tk' <> BeingEvicted -> Task.wake_pending tk' = false ->
  SlotPool.pool_inv (core_id k) (<[r := tk']> (heap k)) p owners ->
  kinv_gen run ex (put_frame k r tk' p) /\ frame_eq k (put_frame k r tk' p).
Proof.
  intros Hinv Htk Hview Hloc Hwp Hpool.
  unfold view in Hview. injection Hview as Eid Est Epr Eco Esk.
  assert (Hwk : BlockedQueue.wakeable (core_id k) tk -> BlockedQueue.wakeable (core_id k) tk').
  { intros (? & _ & ?). unfold BlockedQueue.wakeable. by rewrite Eco, Epr. }
  pose proof Hinv as [Hc Hq Ht Hi Hfp Hnd Hiv Hfr _ Hreg].
  assert (Hcell : forall x tx, <[r := tk']> (heap k) !! x = Some tx ->
            exists tx0, heap k !! x = Some tx0 /\ view tx = view tx0).
  { intros x tx [[<- <-]|[_ Hx]]%lookup_insert_Some; [|by eauto].
    exists tk. split; [done|]. unfold view. congruence. }
  assert (Hcell' : forall x tx0, heap k !! x = Some tx0 ->
            exists tx, <[r := tk']> (heap k) !! x = Some tx /\ view tx = view tx0).
  { intros x tx0 Hx. destruct (decide (r = x)) as [<-|].
    - exists tk'. rewrite lookup_insert_eq. split; [done|]. unfold view. congruence.
    - exists tx0. by rewrite lookup_insert_ne. }
  split.
  - split; cbn; try done.
    + by eapply queues_inv_same.
    + intros x tx [[<- <-]|[_ Hx]]%lookup_insert_Some; [|by apply Ht].
      destruct (Ht r tk Htk) as [[Hw _] Hp]. split; [split; auto|].
      unfold placed in *. by rewrite Est.
    + destruct Hi as (ti & Hti & Hsi). destruct (Hcell' _ _ Hti) as (ti' & ? & Hv).
      exists ti'. split; [done|]. unfold view in Hv. congruence.
    + destruct Hfp as (ti & Hti & Hsi). destruct (Hcell' _ _ Hti) as (ti' & ? & Hv).
      exists ti'. split; [done|]. unfold view in Hv. congruence.
    + intros x Hx. destruct (Hiv x Hx) as (ti & Hti & Hsi). destruct (Hcell' _ _ Hti) as (ti' & ? & Hv).
      exists ti'. split; [done|]. unfold view in Hv. congruence.
    + intros x [tx Hx]. destruct (Hcell _ _ Hx) as (tx0 & ? & _). apply Hfr. by eexists.
    + by exists owners.
    + intros x tx Hx Hd. destruct (Hcell _ _ Hx) as (tx0 & Hx0 & Hv). unfold view in Hv.
      injection Hv as E1 E2 _ _ _. rewrite E1. eapply Hreg; [done|congruence].
  - split_and!; try done. intros x. change (heap (put_frame k r tk' p)) with (<[r := tk']> (heap k)).
    destruct (decide (r = x)) as [<-|]; [|by rewrite lookup_insert_ne].
    rewrite lookup_insert_eq, Htk. cbn. unfold view. congruence.
Qed.

Lemma slot_op_run r f k tk b tk' p :
  heap k !! r = Some tk -> f tk (slots k) = Done (b, tk') p ->
  slot_op r f k = Done b (put_frame k r tk' p).
Proof.
  intros Htk Hf. unfold slot_op, update, borrow, on_slots, zoom, bind, get, modify, unwrap.
  rewrite Htk. unfold ret at 1. rewrite Hf. change (heap (set_slots p k)) with (heap k).
  by rewrite Htk.
Qed.

Section Slots.
Context (base : Z).

(** Acquiring a slot for a task without one. *)
Lemma acquire_op_ok run ex k r tk f :
  kinv_gen run ex k -> heap k !! r = Some tk -> dead (Task.status tk) = false ->
  Task.slot tk = None ->
  f tk (slots k) = SlotPool.dispatch_acquire_slot base (core_id k) tk (slots k) ->
  exists b k', slot_op r f k = Done b k' /\ kinv_gen run ex k' /\ frame_eq k k' /\
    (b = false -> exists tk', heap k' !! r = Some tk' /\ Task.slot tk' = None).
Proof.
  intros Hinv Htk Hd Hs Hf. destruct (k_slots _ _ _ Hinv) as (owners & Hp).
  destruct (k_tasks _ _ _ Hinv r tk Htk) as [[(_ & Hloc & _) Hwp] _].
  pose proof (proj2 (live_dead tk) Hd) as Hl.
  destruct (SlotPool.dispatch_run base (core_id k) owners tk (slots k)) as [[E _]|(i & E & Hi & _)];
    [apply Hinv|apply Hp| |].
  - rewrite E in Hf. eexists _, _. split; [by eapply slot_op_run|].
    destruct (put_frame_inv run ex k r tk tk (slots k) owners) as [? ?]; try done.
    { by eapply SlotPool.pool_inv_keep. }
    split_and!; [done..|]. intros _. exists tk. split; [apply lookup_insert_eq|done].
  - rewrite E in Hf. eexists _, _. split; [by eapply slot_op_run|].
    edestruct put_frame_inv as [? ?]; [done|done| | | | |split_and!; done]; try done.
    by eapply SlotPool.pool_inv_take.
Qed.

(** Evicting a slot-resident blocked task: no deferred wakeup is pending. *)
Lemma evict_op_ok run ex k v tv i :
  kinv_gen run ex k -> heap k !! v = Some tv -> dead (Task.status tv) = false ->
  Task.slot tv = Some i ->
  exists k', slot_op v (SlotPool.evict_victim base (core_id k) i) k = Done false k' /\
    kinv_gen run ex k' /\ frame_eq k k' /\
    (forall x, x <> v -> heap k' !! x = heap k !! x).
Proof.
  intros Hinv Htv Hd Hs. destruct (k_slots _ _ _ Hinv) as (owners & Hp).
  destruct (k_tasks _ _ _ Hinv v tv Htv) as [[_ Hwp] _].
  pose proof (proj2 (live_dead tv) Hd) as Hl.
  destruct (SlotPool.inv_held _ _ _ _ Hp v tv i Htv Hl Hs) as [Hloc Hi].
  pose proof (SlotPool.evict_run base (core_id k) owners i tv (slots k)
    (k_core _ _ _ Hinv) (SlotPool.inv_owners _ _ _ _ Hp) Hloc Hs (lookup_lt_Some _ _ _ Hi)) as E.
  rewrite Hwp in E. eexists. split; [by eapply slot_op_run|].
  edestruct put_frame_inv as [? ?]; [done|done| | | | |split_and!; [done..|]]; try done.
  - by eapply SlotPool.pool_inv_give.
  - intros x Hx. apply lookup_insert_ne. done.
Qed.
End Slots.

Lemma set_queues_same k : set_queues (queues k) k = k.
Proof. by destruct k. Qed.

Lemma frame_eq_status k k' r tk tk' :
  frame_eq k k' -> heap k !! r = Some tk -> heap k' !! r = Some tk' ->
  Task.status tk' = Task.status tk /\ Task.id tk' = Task.id tk /\ Task.stacks tk' = Task.stacks tk.
Proof.
  intros Hf Htk Htk'. destruct (frame_eq_view _ _ _ _ Hf Htk) as (t0 & Ht0 & Hv).
  assert (t0 = tk') as -> by congruence. unfold view in Hv. by injection Hv.
Qed.

Section EnsureSlot.
Context (env : Env).
Notation base := (start_exception_slots env).

Lemma evict_loop_ok n run ex k r tk :
  kinv_gen run ex k -> heap k !! r = Some tk -> dead (Task.status tk) = false ->
  Task.status tk <> Blocked -> Task.slot tk = None ->
  exists b k', evict_loop env n r (Task.id tk) k = Done b k' /\ kinv_gen run ex k' /\ frame_eq k k' /\
    (b = false -> exists tk', heap k' !! r = Some tk' /\ Task.slot tk' = None).
Proof.
  revert k tk. induction n as [|n IH]; intros k tk Hinv Htk Hd Hnb Hs.
  { exists false, k. split_and!; [done..|apply frame_eq_refl|]. eauto. }
  assert (Hex : forall nd tn, nd ∈ blocked_tasks k -> heap k !! BlockedQueue.task nd = Some tn ->
            Task.id tn <> Task.id tk).
  { intros nd tn Hnd Htn Heq.
    destruct (in_blocked_status run ex k (BlockedQueue.task nd) Hinv) as (t0 & ? & Hst).
    { apply list_elem_of_In, in_map. by apply list_elem_of_In. }
    simplify_eq. assert (BlockedQueue.task nd = r) as <-.
    { eapply (k_ids run ex k); eauto. by rewrite Hst. }
    congruence. }
  destruct (BlockedQueue.select_eviction_ok (core_id k) (clock k) (Task.id tk) (queues k)
              (k_queues _ _ _ Hinv) Hex) as (v & Esel & Hv).
  assert (Erun : on_queues (BlockedQueue.select_eviction_victim (clock k) (Task.id tk)) k = Done v k).
  { unfold on_queues, zoom. rewrite Esel. by rewrite set_queues_same. }
  cbn [evict_loop]. unfold bind at 1, get at 1. unfold bind at 1. rewrite Erun.
  destruct v as [v|]; [|exists false, k; split_and!; [done..|apply frame_eq_refl|eauto]].
  destruct Hv as (nd & tv & Hnd & -> & Htv & Hel & _). set (v := BlockedQueue.task nd) in *.
  unfold BlockedQueue.eligible in Hel.
  apply andb_prop in Hel as [Hel Hst%bool_decide_eq_true]. apply andb_prop in Hel as [_ Hsl].
  apply bool_decide_eq_true in Hsl as [i Hi].
  destruct (evict_op_ok base run ex k v tv i Hinv Htv) as (k1 & E1 & Hinv1 & Hf1 & Hsame);
    [by rewrite Hst|done|].
  assert (Hne : r <> v) by (intros ->; change (heap k) with (BlockedQueue.heap (queues k)) in Htk; congruence).
  assert (Htk1 : heap k1 !! r = Some tk) by (rewrite Hsame; done).
  destruct (acquire_op_ok base run ex k1 r tk _ Hinv1 Htk1 Hd Hs eq_refl)
    as (got & k2 & E2 & Hinv2 & Hf2 & Hgot).
  assert (Hcore : core_id k1 = core_id k) by apply Hf1. rewrite Hcore in E2.
  unfold bind at 1, borrow, bind at 1, get, unwrap.
  change (heap k !! v) with (BlockedQueue.heap (queues k) !! v). rewrite Htv. unfold ret at 1. rewrite Hi.
  unfold bind at 1. rewrite E1. unfold bind at 1, ret at 1. unfold bind at 1. rewrite E2.
  destruct got.
  - exists true, k2. split_and!; [done..| |done]. by eapply frame_eq_trans.
  - destruct (Hgot eq_refl) as (tk2 & Htk2 & Hs2).
    destruct (frame_eq_status _ _ _ _ _ (frame_eq_trans _ _ _ Hf1 Hf2) Htk Htk2) as (Est & Eid & _).
    destruct (IH k2 tk2 Hinv2 Htk2) as (b & k3 & E3 & Hinv3 & Hf3 & Hb); [congruence..|].
    rewrite Eid in E3. exists b, k3. split_and!; [done..| |done].
    eapply frame_eq_trans; [eapply frame_eq_trans|]; done.
Qed.

(** Writing the dispatch time changes nothing the invariant looks at. *)
Lemma touch_ok run ex k r tk :
  kinv_gen run ex k -> heap k !! r = Some tk ->
  let tk' := Task.set_last_touch (clock k) tk in
  let k' := set_heap (<[r := tk']> (heap k)) k in
  update r (Task.set_last_touch (clock k)) k = Done tt k' /\
  kinv_gen run ex k' /\ frame_eq k k'.
Proof.
  intros Hinv Htk tk' k'. split.
  { unfold update, borrow, bind, get, unwrap, modify. by rewrite Htk. }
  destruct (k_slots _ _ _ Hinv) as (owners & Hp).
  destruct (k_tasks _ _ _ Hinv r tk Htk) as [[(_ & Hloc & _) Hwp] _].
  destruct (put_frame_inv run ex k r tk tk' (slots k) owners) as [Hi Hf]; try done.
  eapply pool_inv_cell; [done..|]. by split_and!.
Qed.

Lemma ensure_slot_ok run ex k r tk :
  kinv_gen run ex k -> heap k !! r = Some tk -> dead (Task.status tk) = false ->
  Task.status tk <> Blocked ->
  exists k', ensure_slot env r k = Done tt k' /\ kinv_gen run ex k' /\ frame_eq k k'.
Proof.
  intros Hinv Htk Hd Hnb.
  destruct (touch_ok run ex k r tk Hinv Htk) as (E0 & Hinv0 & Hf0).
  set (tk0 := Task.set_last_touch (clock k) tk) in *.
  set (k0 := set_heap (<[r := tk0]> (heap k)) k) in *.
  assert (Htk0 : heap k0 !! r = Some tk0) by apply lookup_insert_eq.
  assert (Hd0 : dead (Task.status tk0) = false) by done.
  unfold ensure_slot, bind at 1, get at 1. unfold bind at 1. rewrite E0.
  unfold bind at 1, borrow, bind at 1, get, unwrap. rewrite Htk0. unfold ret at 1.
  destruct (bool_decide (is_Some (Task.slot tk0)) && bool_decide (Task.frame_location tk0 = InSlot)) eqn:E1.
  { exists k0. by split_and!. }
  assert (Hs0 : Task.slot tk0 = None).
  { destruct (Task.slot tk0) as [i|] eqn:Es; [|done]. destruct (k_slots _ _ _ Hinv0) as (owners & Hp).
    destruct (SlotPool.inv_held _ _ _ _ Hp r tk0 i Htk0 (proj2 (live_dead tk0) Hd0) Es) as [Hl _].
    by rewrite Hl in E1. }
  destruct (negb (Task.last_stack_pointer tk0 =? 0) && Z.odd _).
  { exists k0. by split_and!. }
  assert (Hres : exists b k1,
    (if bool_decide (Task.frame_location tk0 = Evicted)
     then slot_op r (SlotPool.resume_from_evicted base (core_id k)) else ret false) k0 = Done b k1 /\
    kinv_gen run ex k1 /\ frame_eq k0 k1 /\
    (b = false -> exists tk1, heap k1 !! r = Some tk1 /\ Task.slot tk1 = None)).
  { destruct (bool_decide (Task.frame_location tk0 = Evicted)) eqn:Hev.
    2: { exists false, k0. split; [done|]. split; [exact Hinv0|]. split; [apply frame_eq_refl|]. by exists tk0. }
    eapply acquire_op_ok; [done..|]. destruct (k_slots _ _ _ Hinv0) as (owners & Hp).
    eapply SlotPool.resume_run; [apply Hinv0|apply Hp|by apply bool_decide_eq_true in Hev]. }
  destruct Hres as (b & k1 & E2 & Hinv1 & Hf1 & Hb1). unfold bind at 1. rewrite E2.
  destruct b. { exists k1. split_and!; [done..|]. by eapply frame_eq_trans. }
  destruct (Hb1 eq_refl) as (tk1 & Htk1 & Hs1).
  pose proof (frame_eq_trans _ _ _ Hf0 Hf1) as Hf01.
  destruct (frame_eq_status _ _ _ _ _ Hf01 Htk Htk1) as (Est1 & Eid1 & _).
  destruct (acquire_op_ok base run ex k1 r tk1 _ Hinv1 Htk1 ltac:(by rewrite Est1) Hs1 eq_refl)
    as (b2 & k2 & E3 & Hinv2 & Hf2 & Hb2).
  replace (core_id k1) with (core_id k) in E3 by (symmetry; apply Hf01).
  unfold bind at 1. rewrite E3. pose proof (frame_eq_trans _ _ _ Hf01 Hf2) as Hf02.
  destruct b2; [exists k2; by split_and!|].
  destruct (Hb2 eq_refl) as (tk2 & Htk2 & Hs2).
  destruct (frame_eq_status _ _ _ _ _ Hf02 Htk Htk2) as (Est2 & Eid2 & _).
  destruct (evict_loop_ok (SLOTS_PER_CORE - 1) run ex k2 r tk2 Hinv2 Htk2)
    as (b3 & k3 & E4 & Hinv3 & Hf3 & Hb3); [by rewrite Est2|by rewrite Est2|done|].
  rewrite Eid2 in E4. unfold bind at 1. change (Task.id tk0) with (Task.id tk). rewrite E4.
  pose proof (frame_eq_trans _ _ _ Hf02 Hf3) as Hf03.
  destruct b3; [exists k3; by split_and!|].
  destruct (Hb3 eq_refl) as (tk3 & Htk3 & Hs3).
  destruct (frame_eq_status _ _ _ _ _ Hf03 Htk Htk3) as (Est3 & _ & _).
  destruct (acquire_op_ok base run ex k3 r tk3 _ Hinv3 Htk3 ltac:(by rewrite Est3) Hs3 eq_refl)
    as (b4 & k4 & E5 & Hinv4 & Hf4 & _).
  replace (core_id k3) with (core_id k) in E5 by (symmetry; apply Hf03).
  unfold bind at 1. rewrite E5. exists k4. split_and!; [done..|]. by eapply frame_eq_trans.
Qed.
End EnsureSlot.

(** ** Taking a task out of the ready queue *)

Lemma queues_inv_ready core s q :
  BlockedQueue.inv core s -> ReadyQueue.wf (BlockedQueue.heap s) q ->
  NoDup (ReadyQueue.tasks q) ->
  (forall r, r ∈ ReadyQueue.tasks q -> r ∈ ReadyQueue.tasks (BlockedQueue.ready s)) ->
  BlockedQueue.inv core (BlockedQueue.set_ready q s).
Proof.
  intros [[Hn Hnd Hs Ht (_ & _ & Hr)] Hc] Hwf Hnd' Hsub. split; [|done]. split; cbn; try done.
  split_and!; [done..|]. intros r Hin. apply Hr. by apply Hsub.
Qed.

Lemma pop_ready_ok run k :
  kinv_gen run None k ->
  exists q, ReadyQueue.pop (ready_queue k) = Some (fst <$> fifo_pop (ReadyQueue.queues (ready_queue k)), q) /\
    ReadyQueue.queues q = from_option snd (ReadyQueue.queues (ready_queue k))
                            (fifo_pop (ReadyQueue.queues (ready_queue k))) /\
    match fst <$> fifo_pop (ReadyQueue.queues (ready_queue k)) with
    | Some r => kinv_gen run (Some r) (set_ready_queue q k) /\ r ∉ ReadyQueue.tasks q /\
                r ∈ ReadyQueue.tasks (ready_queue k)
    | None => kinv_gen run None (set_ready_queue q k)
    end.
Proof.
  intros Hinv. pose proof Hinv as [Hc Hq Ht Hi Hfp Hnd Hiv Hfr Hsl Hreg].
  pose proof Hq as [[_ _ _ _ (Hwf & Hrn & Hrs)] _].
  destruct (ReadyQueue.pop_ok _ _ Hwf) as (q & E & Hwf' & Hqs). exists q. split; [exact E|].
  split; [done|]. fold (ready_queue k) in *.
  destruct (fifo_pop (ReadyQueue.queues (ready_queue k))) as [[r ll]|] eqn:Ep; cbn in *.
  - pose proof (fifo_pop_Permutation _ _ _ Ep) as Hp. rewrite <- Hqs in Hp.
    fold (ReadyQueue.tasks (ready_queue k)) (ReadyQueue.tasks q) in Hp.
    fold (ready_queue k) in Hrn. rewrite Hp in Hrn.
    split; [|split; [by apply NoDup_cons_1_1 in Hrn|rewrite Hp; by left]].
    split; try done.
    + apply queues_inv_ready; [done|done|by apply NoDup_cons_1_2 in Hrn|].
      intros x Hx. fold (ready_queue k). rewrite Hp. by right.
    + intros x tx Hx. destruct (Ht x tx Hx) as [? Hpl]. split; [done|].
      eapply placed_mono; [done| |done..]. intros y [Hy|Hy] _; [|done].
      rewrite Hp in Hy. apply elem_of_cons in Hy as [->|Hy]; [by right|by left].
  - assert (Heq : ReadyQueue.tasks q = ReadyQueue.tasks (ready_queue k))
      by (unfold ReadyQueue.tasks; by rewrite Hqs).
    split; try done.
    + apply queues_inv_ready; [done|done|by rewrite Heq|]. intros x Hx. by rewrite Heq in Hx.
    + intros x tx Hx. destruct (Ht x tx Hx) as [? Hpl]. split; [done|].
      eapply placed_mono; [done| |done..]. intros y [Hy|Hy] _; [|done]. left. cbn. by rewrite Heq.
Qed.

(** ** Handing over the processor *)

Lemma set_heap_id k r tk : heap k !! r = Some tk -> set_heap (<[r := tk]> (heap k)) k = k.
Proof. intros H. rewrite insert_id by done. by destruct k as [? ? ? ? ? []]. Qed.

Lemma set_current_task_id k : set_current_task (current_task k) k = k.
Proof. by destruct k. Qed.

(** The cell of the task that gets the processor. *)
Definition running (tk : Task.t) : Task.t :=
  if bool_decide (Task.status tk = Idle) then tk else Task.set_status Running tk.

Lemma running_status tk :
  Task.status (running tk) = if bool_decide (Task.status tk = Idle) then Idle else Running.
Proof. unfold running. by case_bool_decide. Qed.

Lemma run_task_inv ex k r tk :
  kinv_gen None ex k -> heap k !! r = Some tk ->
  (Task.status tk = Ready /\ ex = Some r /\ r ∉ ReadyQueue.tasks (ready_queue k)) \/
  (Task.status tk = Idle /\ ex = None) ->
  kinv_gen (Some r) None (set_heap (<[r := running tk]> (heap k)) k).
Proof.
  intros Hinv Htk Hcase. destruct (k_tasks _ _ _ Hinv r tk Htk) as [Hok Hpl].
  assert (Hst : Task.status tk = Ready \/ Task.status tk = Idle) by tauto.
  assert (Hnb : r ∉ map BlockedQueue.task (blocked_tasks k)).
  { intros Hin. destruct (in_blocked_status _ _ _ _ Hinv Hin) as (? & ? & ?).
    destruct Hst; congruence. }
  assert (Hnr : r ∉ ReadyQueue.tasks (ready_queue k)).
  { destruct Hcase as [(_ & _ & ?)|(? & _)]; [done|]. intros Hin.
    destruct (in_ready_status _ _ _ _ Hinv Hin) as (? & ? & ?). congruence. }
  set (k' := set_heap (<[r := running tk]> (heap k)) k).
  eapply (kinv_gen_cell None ex (Some r) None k k' r tk (running tk)); try done.
  - by apply queues_inv_insert; [apply Hinv| |].
  - destruct Hok as [[? ?] ?]. unfold running. by case_bool_decide.
  - unfold running. split_and!; case_bool_decide; try done. cbn. by destruct Hst as [->| ->].
  - intros Hi. unfold running. by rewrite bool_decide_true.
  - unfold placed. rewrite running_status. case_bool_decide as Hi; [|done].
    unfold placed in Hpl. by rewrite Hi in Hpl.
  - intros x tx Hne Hx Hp. eapply placed_mono; [exact Hp| |done..].
    intros y [Hy|Hy] ->; [by left|]. destruct Hcase as [(_ & Hex & _)|(_ & Hex)]; congruence.
  - destruct (k_fpu _ _ _ Hinv) as (tf & Htf & Hsf).
    change (heap k') with (<[r := running tk]> (heap k)).
    change (fpu_owner k') with (fpu_owner k). destruct (decide (r = fpu_owner k)) as [->|].
    + exists (running tk). rewrite lookup_insert_eq, running_status. by case_bool_decide.
    + exists tf. by rewrite lookup_insert_ne.
  - apply Hinv.
  - intros x Hx. destruct (k_invalid _ _ _ Hinv x Hx) as (tx & Htx & Hsx).
    exists tx. change (heap k') with (<[r := running tk]> (heap k)). rewrite lookup_insert_ne; [done|].
    intros <-. destruct Hst; congruence.
Qed.

Section Dispatch.
Context (env : Env).

Lemma dispatch_ok id old k r tk ex :
  kinv_gen None ex k -> heap k !! r = Some tk ->
  (Task.status tk = Ready /\ ex = Some r /\ r ∉ ReadyQueue.tasks (ready_queue k)) \/
  (Task.status tk = Idle /\ ex = None) ->
  (id = Task.id tk -> current_task k = r) ->
  exists k', dispatch env id old r k = Done (if id =? Task.id tk then None else Some old) k' /\
    kinv k' /\ current_task k' = r /\ ready_queue k' = ready_queue k /\
    blocked_tasks k' = blocked_tasks k /\
    (exists tk', heap k' !! r = Some tk' /\
       Task.status tk' = if bool_decide (Task.status tk = Idle) then Idle else Running) /\
    kernel_sp k' = TaskStacks.get_kernel_stack (Task.stacks tk)
                   + TaskStacks.get_kernel_stack_size (Task.stacks tk).
Proof.
  intros Hinv Htk Hcase Hid.
  assert (Hd : dead (Task.status tk) = false) by (by destruct Hcase as [(-> & _)|(-> & _)]).
  destruct (ensure_slot_ok env None ex k r tk Hinv Htk Hd) as (k1 & E1 & Hinv1 & Hf1).
  { destruct Hcase as [(-> & _)|(-> & _)]; done. }
  destruct (frame_eq_view _ _ _ _ Hf1 Htk) as (tk1 & Htk1 & Hv).
  destruct (frame_eq_status _ _ _ _ _ Hf1 Htk Htk1) as (Est & Eid & Esk).
  set (sp := TaskStacks.get_kernel_stack (Task.stacks tk1)
             + TaskStacks.get_kernel_stack_size (Task.stacks tk1)).
  set (k2 := set_kernel_sp sp k1).
  assert (Hinv2 : kinv_gen None ex k2) by (destruct Hinv1; by split).
  set (tk3 := running tk1).
  set (k3 := set_heap (<[r := tk3]> (heap k2)) k2).
  assert (Hst3 : Task.status tk3 = if bool_decide (Task.status tk = Idle) then Idle else Running).
  { subst tk3. by rewrite running_status, Est. }
  assert (Hinv3 : kinv_gen (Some r) None k3).
  { eapply run_task_inv; [done..|]. rewrite Est. destruct Hcase as [(? & ? & ?)|]; [left|by right].
    split_and!; [done..|]. change (ready_queue k2) with (ready_queue k1).
    by destruct Hf1 as (_&_&_&_&_&_&_&->&_). }
  set (k4 := set_current_task r k3).
  assert (Hcur : kinv k4).
  { split; [destruct Hinv3; by split|]. exists tk3. change (heap k4) with (<[r := tk3]> (heap k2)).
    split_and!; [apply lookup_insert_eq|rewrite Hst3; by case_bool_decide|].
    intros x tx Hx Hdx Heq. eapply (k_ids _ _ k3); [done|exact Hx|apply lookup_insert_eq|done| |done].
    rewrite Hst3. by case_bool_decide. }
  assert (E3 : (if bool_decide (Task.status tk1 = Idle) then ret tt
                else update r (Task.set_status Running)) k2 = Done tt k3).
  { subst k3 tk3. unfold running.
    destruct (bool_decide (Task.status tk1 = Idle)); [by rewrite set_heap_id|].
    unfold update, borrow, bind, get, unwrap, modify. change (heap k2) with (heap k1). by rewrite Htk1. }
  assert (Hcc : current_task k3 = current_task k) by apply Hf1.
  exists k4. split_and!; try done.
  - unfold dispatch, bind at 1. rewrite E1. unfold bind at 1, borrow, bind at 1, get, unwrap.
    rewrite Htk1. unfold ret at 1. unfold bind at 1, modify at 1. fold sp k2.
    unfold bind at 1. rewrite E3, Eid. destruct (Z.eqb_spec id (Task.id tk)) as [Heq|]; [|done].
    unfold ret. f_equal. subst k4. rewrite <- (Hid Heq), <- Hcc. by rewrite set_current_task_id.
  - apply Hf1.
  - apply Hf1.
  - exists tk3. split; [apply lookup_insert_eq|done].
  - change (kernel_sp k4) with sp. subst sp. by rewrite Esk.
Qed.
End Dispatch.

(** ** The current task before a switch *)

(** A running task becomes ready at the back of its queue. *)
Lemma requeue_ok ex k tc :
  kinv_gen (Some (current_task k)) ex k -> heap k !! current_task k = Some tc ->
  Task.status tc = Running ->
  exists q, let k' := set_ready_queue q (set_heap (<[current_task k := Task.set_status Ready tc]> (heap k)) k) in
    requeue_current Running k = Done tt k' /\ kinv_gen None ex k' /\
    ReadyQueue.queues q =
      fifo_push (ReadyQueue.queues (ready_queue k)) (Z.to_nat (Task.prio tc)) (current_task k) /\
    (forall x, x ∈ ReadyQueue.tasks q <-> x = current_task k \/ x ∈ ReadyQueue.tasks (ready_queue k)).
Proof.
  set (c := current_task k). intros Hinv Htc Hst.
  destruct (k_tasks _ _ _ Hinv c tc Htc) as [Hok _].
  assert (Hnr : c ∉ ReadyQueue.tasks (ready_queue k)).
  { intros Hin. destruct (in_ready_status _ _ _ _ Hinv Hin) as (? & ? & ?). congruence. }
  assert (Hnb : c ∉ map BlockedQueue.task (blocked_tasks k)).
  { intros Hin. destruct (in_blocked_status _ _ _ _ Hinv Hin) as (? & ? & ?). congruence. }
  set (h1 := <[c := Task.set_status Ready tc]> (heap k)).
  pose proof (queues_inv_insert _ _ c (Task.set_status Ready tc) (k_queues _ _ _ Hinv) Hnb Hnr) as Hq1.
  fold (heap k) in Hq1. fold h1 in Hq1.
  destruct (BlockedQueue.ready_push_ok _ _ c (Task.set_status Ready tc) (proj1 Hq1))
    as (q & E & Hq2 & Hqs & Hp); [apply lookup_insert_eq|done|apply Hok|done|].
  assert (Hmem : forall x, x ∈ ReadyQueue.tasks q <-> x = c \/ x ∈ ReadyQueue.tasks (ready_queue k)).
  { intros x. rewrite Hp. apply elem_of_cons. }
  exists q. split; [|split; [|done]].
  - unfold requeue_current. rewrite bool_decide_true by done.
    unfold bind at 1, get at 1. fold c. unfold bind at 1, update, borrow, bind at 1, get, unwrap.
    unfold bind at 1. rewrite Htc. unfold ret at 1. unfold modify at 1. fold h1.
    unfold ready_push, on_queues, zoom. change (queues (set_heap h1 k)) with (BlockedQueue.set_heap h1 (queues k)).
    by rewrite E.
  - set (k' := set_ready_queue q (set_heap h1 k)). assert (Hh : heap k' = h1) by done.
    eapply (kinv_gen_cell _ ex None ex k k' c tc (Task.set_status Ready tc)); try done.
    + split; [done|]. apply Hq1.
    + split_and!; try done. cbn. by rewrite Hst.
    + by rewrite Hst.
    + unfold placed. cbn. left. apply Hmem. by left.
    + intros x tx Hne Hx Hpl. eapply placed_mono; [exact Hpl| | |done..].
      * intros y [Hy|Hy] _; [|by right]. left. apply Hmem. by right.
      * intros [= ->]. done.
    + destruct (k_fpu _ _ _ Hinv) as (tf & Htf & Hsf). rewrite Hh. subst h1.
      change (fpu_owner k') with (fpu_owner k). destruct (decide (c = fpu_owner k)) as [Heq|].
      * exists (Task.set_status Ready tc). rewrite <- Heq. split; [apply lookup_insert_eq|done].
      * exists tf. by rewrite lookup_insert_ne.
    + apply Hinv.
    + intros x Hx. destruct (k_invalid _ _ _ Hinv x Hx) as (tx & Htx & Hsx). exists tx.
      split; [|done]. rewrite Hh. subst h1. rewrite lookup_insert_ne; [done|]. congruence.
Qed.

(** A finished task is handed over for release, and no longer owns the FPU. *)
Definition retired (k : t) (tc : Task.t) : t :=
  set_finished_tasks (finished_tasks k ++ [current_task k])
    (set_heap (<[current_task k := Task.set_status Invalid tc]> (heap k))
      (set_fpu_owner (if bool_decide (fpu_owner k = current_task k) then idle_task k else fpu_owner k) k)).

Lemma retire_run k tc :
  heap k !! current_task k = Some tc -> retire_finished Finished k = Done tt (retired k tc).
Proof.
  intros Htc. unfold retire_finished. rewrite bool_decide_true by done. unfold bind at 1, get at 1.
  set (fpu := if bool_decide (fpu_owner k = current_task k) then idle_task k else fpu_owner k).
  assert (Efp : (if bool_decide (fpu_owner k = current_task k)
      then modify (set_fpu_owner (idle_task k)) else ret tt) k = Done tt (set_fpu_owner fpu k)).
  { subst fpu. case_bool_decide; [done|]. unfold ret. f_equal. by destruct k. }
  unfold bind at 1. rewrite Efp. unfold bind at 1, update, borrow, bind at 1, get, unwrap, bind at 1.
  change (heap (set_fpu_owner fpu k)) with (heap k). by rewrite Htc.
Qed.

Lemma retire_ok k tc :
  kinv_gen (Some (current_task k)) None k -> heap k !! current_task k = Some tc ->
  Task.status tc = Finished -> kinv_gen None None (retired k tc).
Proof.
  set (c := current_task k). intros Hinv Htc Hst. set (k' := retired k tc).
  destruct (k_tasks _ _ _ Hinv c tc Htc) as [Hok _].
  assert (Hnr : c ∉ ReadyQueue.tasks (ready_queue k)).
  { intros Hin. destruct (in_ready_status _ _ _ _ Hinv Hin) as (? & ? & ?). congruence. }
  assert (Hnb : c ∉ map BlockedQueue.task (blocked_tasks k)).
  { intros Hin. destruct (in_blocked_status _ _ _ _ Hinv Hin) as (? & ? & ?). congruence. }
  assert (Hnf : c ∉ finished_tasks k).
  { intros Hin. destruct (k_invalid _ _ _ Hinv c Hin) as (? & ? & ?). congruence. }
  assert (Hh : heap k' = <[c := Task.set_status Invalid tc]> (heap k)) by done.
  eapply (kinv_gen_cell _ None None None k k' c tc (Task.set_status Invalid tc)); try done.
  - by apply queues_inv_insert; [apply Hinv| |].
  - split_and!; try done. cbn. by rewrite Hst.
  - by rewrite Hst.
  - unfold placed. cbn. apply elem_of_app. right. by left.
  - intros x tx Hne Hx Hpl. eapply placed_mono; [exact Hpl|by auto| |done..|].
    + intros [= ->]. done.
    + intros Hx'. cbn. apply elem_of_app. by left.
  - rewrite Hh. change (fpu_owner k') with
      (if bool_decide (fpu_owner k = current_task k) then idle_task k else fpu_owner k).
    case_bool_decide as Hf.
    + destruct (k_idle _ _ _ Hinv) as (ti & Hti & Hsi). exists ti.
      rewrite lookup_insert_ne; [by rewrite Hsi|]. intros Heq. rewrite <- Heq in Hti. congruence.
    + destruct (k_fpu _ _ _ Hinv) as (tf & Htf & Hsf). exists tf. by rewrite lookup_insert_ne.
  - cbn. rewrite Permutation_app_comm. apply NoDup_cons_2; [done|apply Hinv].
  - intros x. rewrite Hh. cbn. intros [Hx|Hx%list_elem_of_singleton]%elem_of_app.
    + destruct (k_invalid _ _ _ Hinv x Hx) as (tx & Htx & Hsx). exists tx.
      rewrite lookup_insert_ne; [done|]. by intros ->.
    + subst x. exists (Task.set_status Invalid tc). by rewrite lookup_insert_eq.
Qed.

(** Nothing runs: any task may be named as the running one. *)
Lemma kinv_gen_run r ex k : kinv_gen None ex k -> kinv_gen (Some r) ex k.
Proof.
  intros [Hc Hq Ht Hi Hfp Hnd Hiv Hfr Hsl Hreg]. split; try done.
  intros x tx Hx. destruct (Ht x tx Hx) as [? Hp]. split; [done|]. unfold placed in *.
  by destruct (Task.status tx).
Qed.

(** When the current task neither runs nor has finished, no task does. *)
Lemma waiting_ok k tc :
  kinv_gen (Some (current_task k)) None k -> heap k !! current_task k = Some tc ->
  Task.status tc <> Running -> Task.status tc <> Finished -> kinv_gen None None k.
Proof.
  intros Hinv Htc Hr Hf. destruct Hinv as [Hc Hq Ht Hi Hfp Hnd Hiv Hfr Hsl Hreg]. split; try done.
  intros r tk Hr'. destruct (Ht r tk Hr') as [? Hp]. split; [done|]. unfold placed in *.
  destruct (Task.status tk) eqn:E; try done; injection Hp as <-; congruence.
Qed.

End SchedInv.
