(* ===== verification/SchedOps.v ===== *)
(** The other operations of the scheduler preserve its invariant: blocking,
    waking, the timer tick, priorities, the FPU, spawning and finishing a
    task. *)

From S2P Require Import Prelude PrioFifo Tasks Errors ReadyQueue Timers Supervisor SlotPool BlockedQueue Kernel Scheduler SchedInv.
Import Kernel Scheduler SchedInv.

Module SchedOps.

Lemma borrow_run r k tk : heap k !! r = Some tk -> borrow r k = Done tk k.
Proof. intros H. unfold borrow, bind, get, unwrap. by rewrite H. Qed.

Lemma update_run r f k tk :
  heap k !! r = Some tk -> update r f k = Done tt (set_heap (<[r := f tk]> (heap k)) k).
Proof. intros H. unfold update, bind. by rewrite (borrow_run _ _ _ H). Qed.

(** ** Blocking and waking *)

(** The current task stays what it is under a change of cells that keeps
    identifiers and liveness. *)
Lemma current_ok_map k k' f :
  current_ok k -> mapped f (heap k) (heap k') -> current_task k' = current_task k ->
  (forall r tk, heap k !! r = Some tk -> Task.id (f r tk) = Task.id tk /\
     (dead (Task.status (f r tk)) = false -> dead (Task.status tk) = false) /\
     (Task.status tk <> Invalid -> Task.status (f r tk) <> Invalid)) ->
  current_ok k'.
Proof.
  intros (tc & Htc & Hni & Huniq) Hm Hcur Hf. destruct (Hf _ _ Htc) as (Eid & _ & Hi).
  exists (f (current_task k) tc). rewrite Hcur, Hm, Htc. split_and!; [done|by apply Hi|].
  intros r tr (t0 & Hr & ->)%(mapped_Some f (heap k)) Hd E; [|done].
  destruct (Hf _ _ Hr) as (Er & Hdr & _). eapply Huniq; [done|by apply Hdr|congruence].
Qed.

Lemma current_ok_cell k k' r tk tk' :
  current_ok k -> heap k !! r = Some tk -> heap k' = <[r := tk']> (heap k) ->
  current_task k' = current_task k -> Task.id tk' = Task.id tk ->
  (dead (Task.status tk') = false -> dead (Task.status tk) = false) ->
  (Task.status tk <> Invalid -> Task.status tk' <> Invalid) -> current_ok k'.
Proof.
  intros Hc Htk Hh Hcur Eid Hd Hi. eapply current_ok_map; [done|rewrite Hh; by eapply mapped_cell|done|].
  intros x tx Hx. unfold at_cell. case_bool_decide; [by simplify_eq|done].
Qed.

(** [fpu_owner] and the finished tasks survive a change of cells that makes no
    task invalid or valid again. *)
Lemma kinv_gen_status run ex run' k k' f :
  kinv_gen run ex k -> mapped f (heap k) (heap k') -> same_rest k k' ->
  fpu_owner k' = fpu_owner k -> finished_tasks k' = finished_tasks k ->
  BlockedQueue.inv (core_id k) (queues k') ->
  (forall r tk, heap k !! r = Some tk -> task_ok (core_id k) (f r tk) /\ same_slot tk (f r tk) /\
     (Task.status tk = Idle -> Task.status (f r tk) = Idle) /\ placed run' ex k' r (f r tk)) ->
  (forall r tk, heap k !! r = Some tk ->
     (Task.status (f r tk) = Invalid <-> Task.status tk = Invalid)) ->
  kinv_gen run' ex k'.
Proof.
  intros Hinv Hm Hrest Hfpu Hfin Hq Hf Hst. eapply kinv_gen_map; [done..| | |].
  - destruct (k_fpu _ _ _ Hinv) as (tf & Htf & Hsf). rewrite Hfpu, Hm, Htf.
    eexists. split; [done|]. by rewrite (Hst _ _ Htf).
  - rewrite Hfin. apply Hinv.
  - intros x. rewrite Hfin. intros Hx. destruct (k_invalid _ _ _ Hinv x Hx) as (tx & Htx & Hsx).
    rewrite Hm, Htx. eexists. split; [done|]. by rewrite (Hst _ _ Htx).
Qed.

Lemma same_rest_queues k s : same_rest k (set_queues s k).
Proof. by split_and!. Qed.

Lemma block_kinv k tc w :
  kinv k -> heap k !! current_task k = Some tc -> Task.status tc = Running ->
  from_option (fun w => 0 <= w < u64_max) True w ->
  exists k', block_current_task w k = Done tt k' /\ kinv k' /\
    current_task k' = current_task k /\ WAITING_TASKS k' = WAITING_TASKS k /\
    heap k' = <[current_task k := Task.set_status Blocked tc]> (heap k) /\
    current_task k ∈ map BlockedQueue.task (blocked_tasks k').
Proof.
  intros [Hinv Hcur] Htc Hst Hw. destruct (k_tasks _ _ _ Hinv _ _ Htc) as [[Hwk Hwp] _].
  destruct (BlockedQueue.add_ok (core_id k) (queues k) (current_task k) tc w (k_queues _ _ _ Hinv)
              Htc Hst Hwk Hw) as (pre & post & ts & Hl & E & Hq).
  set (s' := BlockedQueue.mk _ _ _ _) in E, Hq.
  assert (Hin : current_task k ∈ map BlockedQueue.task (BlockedQueue.list s')).
  { cbn. rewrite map_app. apply elem_of_app. right. by left. }
  exists (set_queues s' k). split_and!; try done.
  - unfold block_current_task, bind, get, on_queues, zoom. by rewrite E.
  - split.
    + eapply (kinv_gen_status _ _ _ k _ (at_cell (current_task k) (Task.set_status Blocked tc)));
        [done|by eapply mapped_cell|apply same_rest_queues|done..| |].
      * intros x tx Hx. unfold at_cell. case_bool_decide as Heq.
        { subst x. assert (tx = tc) as -> by congruence. split; [by split|].
          split; [by split_and!; try done; cbn; rewrite Hst|]. split; [by rewrite Hst|exact Hin]. }
        destruct (k_tasks _ _ _ Hinv _ _ Hx) as [? Hp]. split_and!; try done.
        eapply placed_mono; [done..| |done|done]. cbn. fold (blocked_tasks k).
        unfold blocked_tasks. rewrite Hl, !map_app. cbn. rewrite !elem_of_app, elem_of_cons. tauto.
      * intros x tx Hx. unfold at_cell. case_bool_decide as Heq; [|done].
        subst x. assert (tx = tc) as -> by congruence. by rewrite Hst.
    + eapply current_ok_cell; [done|exact Htc|done|done|done|by rewrite Hst|done].
Qed.

(** Waking a blocked task of this core. *)
Lemma wake_kinv k handle n tn :
  kinv k -> n ∈ blocked_tasks k -> heap k !! BlockedQueue.task n = Some tn ->
  Task.id tn = TaskHandle.get_id handle ->
  let r := BlockedQueue.task n in
  exists k', on_queues (BlockedQueue.wake (core_id k) handle) k = Done tt k' /\ kinv k' /\
    same_rest k k' /\ current_task k' = current_task k /\ WAITING_TASKS k' = WAITING_TASKS k /\
    heap k' = <[r := Task.set_status Ready tn]> (heap k) /\
    r ∈ ReadyQueue.tasks (ready_queue k') /\
    (forall m, m ∈ blocked_tasks k -> BlockedQueue.task m <> r -> m ∈ blocked_tasks k').
Proof.
  intros [Hinv Hcur] Hn Htn Hid r. fold r in Htn.
  assert (Hnb : forall m, m ∈ blocked_tasks k -> exists tm, heap k !! BlockedQueue.task m = Some tm /\
            Task.status tm = Blocked).
  { intros m Hm. apply (in_blocked_status _ _ _ _ Hinv).
    apply list_elem_of_In, in_map. by apply list_elem_of_In. }
  destruct (BlockedQueue.find_blocked (heap k) (TaskHandle.get_id handle) (blocked_tasks k))
    as [[[pre m] post]|] eqn:Hfind.
  2: { rewrite BlockedQueue.find_blocked_None in Hfind. by destruct (Hfind n tn). }
  destruct (BlockedQueue.find_blocked_Some _ _ _ _ _ _ Hfind) as (Hl & tm & Htm & Hidm).
  assert (Hmn : BlockedQueue.task m = r).
  { destruct (Hnb m) as (t1 & Ht1 & H1); [rewrite Hl; apply elem_of_app; right; by left|].
    destruct (Hnb n Hn) as (t2 & Ht2 & H2). fold r in Ht2.
    eapply (k_ids _ _ k _ t1 _ t2); [done|exact Ht1|exact Ht2|by rewrite H1|by rewrite H2|congruence]. }
  rewrite Hmn in Htm. assert (tm = tn) as -> by congruence.
  destruct (BlockedQueue.wake_ok (core_id k) (queues k) handle pre m post tn (k_queues _ _ _ Hinv) Hfind)
    as (ts & q & E & Hq & _ & Hp); [by rewrite Hmn|]. rewrite Hmn in E, Hq, Hp.
  set (s' := BlockedQueue.mk _ _ _ _) in E, Hq.
  destruct (Hnb n Hn) as (t2 & Ht2 & Hst). fold r in Ht2. assert (t2 = tn) as -> by congruence.
  assert (Hinr : r ∈ ReadyQueue.tasks q) by (rewrite Hp; by left).
  assert (Hkeep : forall x, x ∈ blocked_tasks k -> BlockedQueue.task x <> r -> x ∈ pre ++ post).
  { intros x. rewrite Hl, !elem_of_app, elem_of_cons. intros [?|[->|?]] ?; [by left|done|by right]. }
  assert (Hheap : mapped (at_cell r (Task.set_status Ready tn)) (heap k) (heap (set_queues s' k)))
    by (by eapply mapped_cell).
  exists (set_queues s' k). split_and!; try done.
  - unfold on_queues, zoom. by rewrite E.
  - split.
    + eapply (kinv_gen_status _ _ _ k _ _); [done|exact Hheap|apply same_rest_queues|done..| |].
      * intros x tx Hx. destruct (k_tasks _ _ _ Hinv _ _ Hx) as [Hok Hpl]. unfold at_cell.
        case_bool_decide as Heq.
        { subst x. assert (tx = tn) as -> by congruence. split; [by destruct Hok as [[]]|].
          split; [by split_and!; try done; cbn; rewrite Hst|]. split; [by rewrite Hst|by left]. }
        split_and!; try done. eapply placed_mono; [done| |done| |done|done].
        -- intros y [Hy|Hy] _; [left|done]. change (y ∈ ReadyQueue.tasks q). rewrite Hp. by right.
        -- intros Hin. apply list_elem_of_In, in_map_iff in Hin as (y & <- & Hy).
           apply list_elem_of_In, in_map. apply list_elem_of_In, Hkeep; [by apply list_elem_of_In|done].
      * intros x tx Hx. unfold at_cell. case_bool_decide as Heq; [|done].
        subst x. assert (tx = tn) as -> by congruence. by rewrite Hst.
    + eapply current_ok_cell; [done|exact Htn|done|done|done|by rewrite Hst|done].
Qed.

(** Handling the waiting tasks after a timer interrupt. *)
Lemma readied_lookup rs h r :
  BlockedQueue.readied h rs !! r =
    (if bool_decide (r ∈ rs) then Task.set_status Ready else id) <$> h !! r.
Proof.
  revert h. induction rs as [|x rs IH]; intros h.
  { cbn. by rewrite option_fmap_id. }
  change (BlockedQueue.readied h (x :: rs)) with
    (BlockedQueue.readied (alter (Task.set_status Ready) x h) rs). rewrite IH.
  destruct (decide (r = x)) as [->|Hne].
  - rewrite lookup_alter_eq, (bool_decide_true (x ∈ x :: rs)) by (by left).
    destruct (h !! x); [|done]. cbn. by case_bool_decide.
  - rewrite lookup_alter_ne by done. do 2 case_bool_decide; try done.
    + exfalso. by apply H0; right.
    + exfalso. apply elem_of_cons in H0 as [|]; done.
Qed.

(** After a timer interrupt the timer need not cover the deadlines of the
    blocked tasks; handling the waiting tasks arms it again. *)
Definition with_timers (ts : Timers.t) (k : t) : t := set_queues (BlockedQueue.set_timers ts (queues k)) k.

Lemma wake_pending_uncovered k ts0 :
  kinv k -> Timers.wf ts0 ->
  exists k', wake_pending_tasks (with_timers ts0 k) = Done tt k' /\ kinv k' /\ current_task k' = current_task k /\
    let woken := List.filter (BlockedQueue.elapsed (clock k)) (blocked_tasks k) in
    blocked_tasks k' = List.filter (fun n => negb (BlockedQueue.elapsed (clock k) n)) (blocked_tasks k) /\
    heap k' = BlockedQueue.readied (heap k) (map BlockedQueue.task woken).
Proof.
  intros [Hinv Hcur] Hwf.
  assert (Hq0 : BlockedQueue.inv0 (core_id k) (BlockedQueue.set_timers ts0 (queues k)))
    by (destruct (k_queues _ _ _ Hinv) as [[] _]; by constructor).
  destruct (BlockedQueue.handle_waiting_ok (core_id k) (clock k) _ Hq0)
    as (ts & q & E & Hq & _ & Hqp).
  set (woken := List.filter (BlockedQueue.elapsed (clock k)) (BlockedQueue.list (queues k))) in *.
  set (rs := map BlockedQueue.task woken) in *. set (s' := BlockedQueue.mk _ _ _ _) in E, Hq.
  set (f := fun x tx => (if bool_decide (x ∈ rs) then Task.set_status Ready else id) tx : Task.t).
  assert (Hm : mapped f (heap k) (heap (set_queues s' k))).
  { intros x. change (heap (set_queues s' k)) with (BlockedQueue.readied (heap k) rs).
    rewrite readied_lookup. done. }
  assert (Hbl : forall x tx, heap k !! x = Some tx -> x ∈ rs -> Task.status tx = Blocked).
  { intros x tx Hx Hin. destruct (in_blocked_status _ _ _ x Hinv) as (? & ? & ?); [|congruence].
    subst rs woken. apply list_elem_of_In, in_map_iff in Hin as (n & <- & Hn).
    apply filter_In in Hn as [Hn _]. by apply list_elem_of_In, in_map. }
  assert (Hready : forall x, x ∈ rs \/ x ∈ ReadyQueue.tasks (ready_queue k) -> x ∈ ReadyQueue.tasks q).
  { intros x Hx. rewrite Hqp, elem_of_app. done. }
  exists (set_queues s' k). split_and!; try done.
  - unfold wake_pending_tasks, bind, get, on_queues, zoom. cbn [clock core_id queues with_timers set_queues]. by rewrite E.
  - split.
    + eapply (kinv_gen_status _ _ _ k _ f); [done|exact Hm|apply same_rest_queues|done..| |].
      * intros x tx Hx. destruct (k_tasks _ _ _ Hinv _ _ Hx) as [Hok Hpl]. subst f. cbn.
        case_bool_decide as Hin.
        { pose proof (Hbl x tx Hx Hin) as Hst. split; [by destruct Hok as [[]]|].
          split; [by split_and!; try done; cbn; rewrite Hst|]. split; [by rewrite Hst|].
          left. apply Hready. by left. }
        split_and!; try done. eapply placed_mono; [done| |done| |done|done].
        -- intros y [Hy|Hy] _; [left|done]. apply Hready. by right.
        -- intros Hbt. apply list_elem_of_In, in_map_iff in Hbt as (y & <- & Hy).
           apply list_elem_of_In, in_map, filter_In. split; [done|].
           destruct (BlockedQueue.elapsed (clock k) y) eqn:Hel; [|done]. exfalso. apply Hin.
           by apply list_elem_of_In, in_map, filter_In.
      * intros x tx Hx. subst f. cbn. case_bool_decide as Hin; [|done].
        by rewrite (Hbl x tx Hx Hin).
    + eapply (current_ok_map k _ f); [done|exact Hm|done|]. intros x tx Hx. subst f. cbn.
      case_bool_decide as Hin; [|done]. by rewrite (Hbl x tx Hx Hin).
Qed.

Lemma wake_pending_kinv k :
  kinv k ->
  exists k', wake_pending_tasks k = Done tt k' /\ kinv k' /\ current_task k' = current_task k /\
    let woken := List.filter (BlockedQueue.elapsed (clock k)) (blocked_tasks k) in
    blocked_tasks k' = List.filter (fun n => negb (BlockedQueue.elapsed (clock k) n)) (blocked_tasks k) /\
    heap k' = BlockedQueue.readied (heap k) (map BlockedQueue.task woken).
Proof.
  intros Hk. assert (Ek : with_timers (BlockedQueue.timers (queues k)) k = k) by (destruct k as [? ? ? ? ? []]; done).
  destruct (wake_pending_uncovered k (BlockedQueue.timers (queues k)) Hk) as (k' & E & H).
  - apply (BlockedQueue.inv_timers (core_id k)), (k_queues _ _ _ (proj1 Hk)).
  - rewrite Ek in E. by exists k'.
Qed.

(** ** Task identifiers *)

Lemma get_tid_loop_ok fuel k c :
  TID_COUNTER k = wraps 32 c ->
  (exists j, (j < fuel)%nat /\ TASKS k !! wraps 32 (c + Z.of_nat j) = None /\
     get_tid_loop fuel k = Done (wraps 32 (c + Z.of_nat j))
       (set_TID_COUNTER (wraps 32 (c + Z.of_nat j + 1)) k)) \/
  (forall j, (j < fuel)%nat -> is_Some (TASKS k !! wraps 32 (c + Z.of_nat j))).
Proof.
  revert k c. induction fuel as [|fuel IH]; intros k c Hc; [right; intros; lia|].
  cbn [get_tid_loop]. unfold bind, get, modify. rewrite Hc, wraps_step by lia.
  case_bool_decide as Hin.
  - destruct (IH (set_TID_COUNTER (wraps 32 (c + 1)) k) (c + 1) eq_refl) as [(j & Hj & Hn & E)|Hall].
    + left. exists (S j). replace (c + Z.of_nat (S j)) with (c + 1 + Z.of_nat j) by lia.
      split_and!; [lia|done|]. rewrite E. done.
    + right. intros [|j] Hj; [by rewrite Z.add_0_r|].
      replace (c + Z.of_nat (S j)) with (c + 1 + Z.of_nat j) by lia. apply Hall. lia.
  - left. exists 0%nat. rewrite Z.add_0_r. split_and!; [lia| |done].
    destruct (TASKS k !! wraps 32 c) eqn:E; [|done]. destruct Hin. by eexists.
Qed.

(** The search for an identifier ends with an unused one. *)
Lemma get_tid_ok k :
  in_s 32 (TID_COUNTER k) -> Z.of_nat (size (TASKS k)) < 2 ^ 32 ->
  exists id c, get_tid k = Done id (set_TID_COUNTER c k) /\ TASKS k !! id = None /\ in_s 32 c /\
    (0 <= TID_COUNTER k -> TID_COUNTER k + Z.of_nat (size (TASKS k)) < 2 ^ 31 -> TID_COUNTER k <= id).
Proof.
  intros Hr Hsize. set (c := TID_COUNTER k).
  assert (Hc : TID_COUNTER k = wraps 32 c) by (by rewrite wraps_small).
  unfold get_tid, bind, get.
  destruct (get_tid_loop_ok (S (size (TASKS k))) k c Hc) as [(j & Hj & Hn & E)|Hall].
  - rewrite E. eexists _, _. split_and!; [done|done| |].
    + unfold in_s, wraps. pose proof (Z.mod_pos_bound (c + Z.of_nat j + 1 + 2 ^ (32 - 1)) (2 ^ 32)).
      lia.
    + intros H0 H1. fold c in H0, H1. unfold in_s in Hr. fold c in Hr.
      destruct (Z.eq_dec (c + Z.of_nat j) (2 ^ 31)); [|rewrite wraps_small; lia].
      exfalso. lia.
  - exfalso.
    set (l := map (fun j => wraps 32 (c + Z.of_nat j)) (seq 0 (S (size (TASKS k))))).
    assert (Hnd : NoDup l).
    { apply NoDup_ListNoDup. apply Finite.Injective_map_NoDup_in; [|apply seq_NoDup].
      intros a b Ha%in_seq Hb%in_seq Heq. destruct (Nat.le_ge_cases a b).
      - apply wraps_inj in Heq; lia.
      - symmetry in Heq. apply wraps_inj in Heq; lia. }
    pose proof (NoDup_keys_size (TASKS k) l Hnd) as Hle.
    subst l. rewrite length_map, length_seq in Hle.
    assert (size (TASKS k) < size (TASKS k))%nat; [|lia]. apply Hle.
    intros x Hx. apply list_elem_of_In, in_map_iff in Hx as (j & <- & Hj%in_seq). apply Hall. lia.
Qed.

(** ** Spawning *)

(** The invariant looks at these parts of the state only. *)
Definition agree (k k' : t) : Prop :=
  core_id k' = core_id k /\ current_task k' = current_task k /\ idle_task k' = idle_task k /\
  fpu_owner k' = fpu_owner k /\ finished_tasks k' = finished_tasks k /\ queues k' = queues k /\
  next_ref k' = next_ref k /\
  SlotPool.CORE_SLOTS (slots k') = SlotPool.CORE_SLOTS (slots k) /\
  (forall id, is_Some (TASKS k !! id) -> is_Some (TASKS k' !! id)).

Lemma agree_kinv k k' : agree k k' -> kinv k -> kinv k'.
Proof.
  intros (E1 & E2 & E3 & E4 & E5 & E6 & E7 & E8 & HT) [[Hc Hq Ht Hi Hfp Hnd Hiv Hfr (owners & Hsl) Hreg] Hcur].
  assert (Hh : heap k' = heap k) by (unfold heap; by rewrite E6).
  split; [split|]; rewrite ?Hh, ?E1, ?E2, ?E3, ?E4, ?E5, ?E6, ?E7; try done.
  - intros r tk Hr. destruct (Ht r tk Hr) as [? Hp]. split; [done|].
    eapply placed_mono; [done|..|congruence|congruence]; unfold ready_queue, blocked_tasks;
      rewrite ?E6; auto.
  - exists owners. destruct Hsl as [So Sl Sh Sw Si]. split; try done. by rewrite E8.
  - intros r tk Hr Hd. apply HT. eauto.
  - unfold current_ok. by rewrite Hh, E2.
Qed.

Lemma agree_refl k : agree k k.
Proof. by split_and!. Qed.

Lemma agree_trans k1 k2 k3 : agree k1 k2 -> agree k2 k3 -> agree k1 k3.
Proof.
  intros (?&?&?&?&?&?&?&?&HT1) (?&?&?&?&?&?&?&?&HT2). split_and!; try congruence. auto.
Qed.

(** A slotless task with a fresh identifier joins the pool. *)
Lemma pool_inv_add core h p owners r tk :
  SlotPool.pool_inv core h p owners -> h !! r = None -> Task.slot tk = None -> 0 <= Task.id tk ->
  (forall x tx, h !! x = Some tx -> SlotPool.live tx -> Task.id tx <> Task.id tk) ->
  SlotPool.pool_inv core (<[r := tk]> h) p owners.
Proof.
  intros [Hown Hlen Hheld Howned [Hids Hnn]] Hr Hs Hid Hnew. split; [done..| | |split].
  - intros q tq i [[<- <-]|[_ Hq]]%lookup_insert_Some Hl Hq'; [congruence|eauto].
  - intros i o Hi Ho. destruct (Howned i o Hi Ho) as (q & tq & Hq & ?). exists q, tq.
    rewrite lookup_insert_ne; [done|]. intros <-. congruence.
  - intros q tq q' tq' Hq Hq' Hl Hl' E.
    apply lookup_insert_Some in Hq as [[<- <-]|[? Hq]], Hq' as [[<- <-]|[? Hq']]; try done.
    + by destruct (Hnew _ _ Hq').
    + by destruct (Hnew _ _ Hq).
    + eauto.
  - intros q tq [[<- <-]|[_ Hq]]%lookup_insert_Some; eauto.
Qed.

(** A new cell for a ready task, queued behind the tasks of its priority. *)
Lemma add_task_ok k tk :
  kinv k -> task_ok (core_id k) tk -> Task.status tk = Ready -> Task.slot tk = None ->
  0 <= Task.id tk -> is_Some (TASKS k !! Task.id tk) ->
  (forall x tx, heap k !! x = Some tx -> dead (Task.status tx) = false -> Task.id tx <> Task.id tk) ->
  (forall tc, heap k !! current_task k = Some tc -> Task.id tc <> Task.id tk) ->
  exists k', (let! r := new_cell tk in ready_push r) k = Done tt k' /\ kinv k' /\
    heap k' = <[next_ref k := tk]> (heap k) /\ heap k !! next_ref k = None /\
    current_task k' = current_task k /\ TASKS k' = TASKS k /\
    next_ref k ∈ ReadyQueue.tasks (ready_queue k').
Proof.
  intros [Hinv Hcur] Hok Hst Hs Hid Hreg Hnew Hcid. set (r := next_ref k).
  pose proof Hinv as [Hc Hq Ht Hi Hfp Hnd Hiv Hfr (owners & Hsl) Hrg].
  assert (Hnone : heap k !! r = None).
  { destruct (heap k !! r) eqn:E; [|done]. pose proof (Hfr r ltac:(by eexists)). subst r. lia. }
  assert (Hne : forall x, is_Some (heap k !! x) -> <[r := tk]> (heap k) !! x = heap k !! x).
  { intros x [tx Hx]. apply lookup_insert_ne. congruence. }
  assert (Hnr : r ∉ ReadyQueue.tasks (ready_queue k)).
  { intros Hin. destruct (in_ready_status _ _ _ _ Hinv Hin) as (? & ? & ?). congruence. }
  assert (Hnb : r ∉ map BlockedQueue.task (blocked_tasks k)).
  { intros Hin. destruct (in_blocked_status _ _ _ _ Hinv Hin) as (? & ? & ?). congruence. }
  pose proof (queues_inv_insert _ _ r tk Hq Hnb Hnr) as Hq1.
  destruct (BlockedQueue.ready_push_ok _ _ r tk (proj1 Hq1)) as (q & E & Hq2 & _ & Hp);
    [apply lookup_insert_eq|done|apply Hok|done|].
  set (s' := BlockedQueue.set_ready q _) in E, Hq2.
  set (k' := set_next_ref (S r) (set_queues s' k)).
  assert (Hh : heap k' = <[r := tk]> (heap k)) by done.
  assert (Hin : r ∈ ReadyQueue.tasks (ready_queue k')) by (change (r ∈ ReadyQueue.tasks q); rewrite Hp; by left).
  exists k'. split_and!; try done.
  - unfold bind, new_cell, bind, get, modify, ret. fold r. unfold ready_push, on_queues, zoom.
    change (queues (set_next_ref (S r) (set_heap (<[r := tk]> (heap k)) k))) with
      (BlockedQueue.set_heap (<[r := tk]> (BlockedQueue.heap (queues k))) (queues k)). by rewrite E.
  - split; [split|]; try done.
    + split; [done|]. apply Hq1.
    + intros x tx. rewrite Hh. intros [[<- <-]|[_ Hx]]%lookup_insert_Some.
      * split; [done|]. unfold placed. rewrite Hst. by left.
      * destruct (Ht x tx Hx) as [? Hpl]. split; [done|]. eapply placed_mono; [done| |done..].
        intros y [Hy|Hy] _; [left|done]. change (y ∈ ReadyQueue.tasks q). rewrite Hp. by right.
    + destruct Hi as (ti & Hti & ?). exists ti. by rewrite Hh, Hne by (by eexists).
    + destruct Hfp as (ti & Hti & ?). exists ti. by rewrite Hh, Hne by (by eexists).
    + intros x Hx. destruct (Hiv x Hx) as (ti & Hti & ?). exists ti. by rewrite Hh, Hne by (by eexists).
    + intros x. rewrite Hh. change (next_ref k') with (S r). intros [tx [[<- _]|[_ Hx]]%lookup_insert_Some]; [lia|].
      pose proof (Hfr x ltac:(by eexists)). subst r. lia.
    + exists owners. rewrite Hh. apply pool_inv_add; [done..|]. intros x tx Hx Hl%live_dead. by apply (Hnew x).
    + intros x tx. rewrite Hh. intros [[<- <-]|[_ Hx]]%lookup_insert_Some Hd; [done|]. by apply (Hrg x).
    + destruct Hcur as (tc & Htc & Hni & Huniq). exists tc. rewrite Hh, Hne by (by eexists).
      split_and!; try done. intros x tx [[<- <-]|[_ Hx]]%lookup_insert_Some Hd Heq; [|by eapply Huniq].
      by destruct (Hcid tc).
Qed.

(** What [create_stack_frame] leaves alone. *)
Lemma create_stack_frame_keeps ts tls func arg tk m :
  let tk' := (SlotPool.create_stack_frame ts tls func arg tk m).1 in
  view tk' = view tk /\ Task.slot tk' = Task.slot tk /\
  Task.frame_location tk' = Task.frame_location tk /\ Task.wake_pending tk' = Task.wake_pending tk /\
  Task.object_map tk' = Task.object_map tk.
Proof. unfold SlotPool.create_stack_frame. cbn. by destruct (Task.tls tk). Qed.

(** What a freshly spawned task looks like. *)
Definition fresh_task (nt : NewTask) (tk : Task.t) : Prop :=
  Task.id tk = tid nt /\ Task.status tk = Ready /\ Task.prio tk = prio nt /\
  Task.core_id tk = new_core_id nt /\ Task.stacks tk = stacks nt /\ Task.slot tk = None /\
  Task.frame_location tk = InSlot /\ Task.wake_pending tk = false /\
  Task.object_map tk = object_map nt /\ Task.entry tk = func nt /\ Task.entry_arg tk = arg nt /\
  Task.entry_point_id tk = EntryPointId.AppTask.

Section Spawn.
Context (env : Env).

Lemma task_from_ok nt k :
  exists tk p, task_from env nt k = Done tk (set_slots p k) /\ fresh_task nt tk /\
    SlotPool.CORE_SLOTS p = SlotPool.CORE_SLOTS (slots k).
Proof.
  unfold task_from, create_stack_frame, bind, on_slots, zoom.
  set (t0 := Task.set_object_map _ _).
  pose proof (create_stack_frame_keeps (task_start env) (tls_from_env env) (func nt) (arg nt) t0
                (SlotPool.mem (slots k))) as (Hv & Hs & Hf & Hw & Ho).
  destruct (SlotPool.create_stack_frame _ _ _ _ _ _) as [t1 m1]. cbn in Hv, Hs, Hf, Hw, Ho.
  unfold view in Hv. injection Hv as E1 E2 E3 E4 E5.
  eexists _, _. split; [done|]. split; [by split_and!|done].
Qed.

Lemma new_stacks_ok size k page frame rest :
  stack_ranges k = (page, frame) :: rest ->
  exists p, new_stacks size k =
      Done (TaskStacks.new size page frame) (set_slots p (set_stack_ranges rest k)) /\
    SlotPool.CORE_SLOTS p = SlotPool.CORE_SLOTS (slots k).
Proof.
  intros Hr. unfold new_stacks, bind, get. rewrite Hr. unfold modify, on_slots, zoom.
  eexists. split; [done|done].
Qed.

(** Registering a task of this core. *)
Lemma register_local_ok nt k :
  kinv k -> new_core_id nt = core_id k -> is_Some (SCHEDULER_INPUTS k !! Z.to_nat (core_id k)) ->
  0 <= tid nt -> TASKS k !! tid nt = None -> 0 <= prio nt < Z.of_nat NO_PRIORITIES ->
  (forall tc, heap k !! current_task k = Some tc -> Task.id tc <> tid nt) ->
  exists tk k', register_task env nt k = Done false k' /\ kinv k' /\ fresh_task nt tk /\
    heap k' = <[next_ref k := tk]> (heap k) /\ heap k !! next_ref k = None /\
    next_ref k ∈ ReadyQueue.tasks (ready_queue k') /\ current_task k' = current_task k /\
    TASKS k' = <[tid nt := TaskHandle.new (tid nt) (prio nt) (core_id k)]> (TASKS k).
Proof.
  intros Hk Hcore [input Hin] Hid HT Hprio Hcid.
  set (k1 := set_NO_TASKS (wrapu 32 (NO_TASKS k + 1))
    (set_TASKS (<[tid nt := TaskHandle.new (tid nt) (prio nt) (core_id k)]> (TASKS k))
      (set_WAITING_TASKS (<[tid nt := []]> (WAITING_TASKS k)) k))).
  destruct (task_from_ok nt k1) as (tk & p & E1 & Hfresh & Hp).
  assert (Hag : agree k (set_slots p k1)).
  { split_and!; try done. intros id Hsome. change (is_Some (TASKS k1 !! id)).
    cbn. destruct (decide (tid nt = id)) as [->|]; [rewrite lookup_insert_eq; by eexists|].
    by rewrite lookup_insert_ne. }
  pose proof Hfresh as (F1 & F2 & F3 & F4 & F5 & F6 & F7 & F8 & _).
  assert (Hfid : forall x tx, heap k !! x = Some tx -> dead (Task.status tx) = false ->
            Task.id tx <> Task.id tk).
  { intros x tx Hx Hd Heq. destruct (k_registered _ _ _ (proj1 Hk) x tx Hx Hd). congruence. }
  destruct (add_task_ok (set_slots p k1) tk) as (k' & E2 & Hk' & Hh & Hn & Hc & HT' & Hr).
  - by eapply agree_kinv.
  - split; [|done]. split_and!; [by rewrite F4, Hcore|by rewrite F7|rewrite F3; lia..].
  - done.
  - done.
  - lia.
  - cbn. rewrite F1, lookup_insert_eq. by eexists.
  - exact Hfid.
  - intros tc Htc. rewrite F1. by apply Hcid.
  - exists tk, k'. split_and!; try done.
    unfold register_task, bind at 1, get_scheduler_input, bind at 1, get at 1, unwrap.
    rewrite Hcore, Hin. unfold ret at 1. do 3 (unfold bind at 1, modify at 1).
    unfold bind at 1, get at 1. fold k1. change (core_id k1) with (core_id k). rewrite Z.eqb_refl. unfold bind at 1.
    match goal with |- context [task_from env nt ?s] => change s with k1 end. rewrite E1.
    unfold bind in E2 |- *. destruct (new_cell tk (set_slots p k1)) as [r kr|]; [|done].
    by rewrite E2.
Qed.

Lemma spawn_kinv func arg prio stack_size k tc page frame rest :
  kinv k -> heap k !! current_task k = Some tc ->
  (dead (Task.status tc) = false \/ Task.id tc < TID_COUNTER k) ->
  is_Some (SCHEDULER_INPUTS k !! Z.to_nat (core_id k)) ->
  stack_ranges k = (page, frame) :: rest -> 0 <= prio < Z.of_nat NO_PRIORITIES ->
  0 <= TID_COUNTER k -> TID_COUNTER k + Z.of_nat (size (TASKS k)) < 2 ^ 31 ->
  exists id r tk k', spawn_on env func arg prio (core_id k) stack_size k = Done id k' /\ kinv k' /\
    TASKS k !! id = None /\ TASKS k' = <[id := TaskHandle.new id prio (core_id k)]> (TASKS k) /\
    heap k !! r = None /\ heap k' = <[r := tk]> (heap k) /\
    r ∈ ReadyQueue.tasks (ready_queue k') /\ current_task k' = current_task k /\
    fresh_task (mkNewTask id func arg prio (core_id k) (TaskStacks.new stack_size page frame)
                  (Task.object_map tc)) tk.
Proof.
  intros Hk Htc Hd Hin Hr Hprio H0 H1.
  destruct (get_tid_ok k) as (id & c & E1 & HT & _ & Hid);
    [unfold in_s; lia|lia|]. specialize (Hid H0 H1).
  destruct (new_stacks_ok stack_size (set_TID_COUNTER c k) page frame rest Hr) as (p & E2 & Hp).
  set (k2 := set_slots p (set_stack_ranges rest (set_TID_COUNTER c k))) in *.
  set (nt := mkNewTask id func arg prio (core_id k) (TaskStacks.new stack_size page frame)
               (Task.object_map tc)).
  destruct (register_local_ok nt k2) as (tk & k' & E3 & Hk' & Hf & Hh & Hn & Hrd & Hc & HT'); try done.
  - eapply agree_kinv; [|exact Hk]. by split_and!.
  - cbn. lia.
  - intros tc' Htc'. change (heap k2) with (heap k) in Htc'.
    change (current_task k2) with (current_task k) in Htc'. assert (tc' = tc) as -> by congruence. cbn.
    destruct Hd as [Hd|Hd]; [|lia]. intros Heq.
    destruct (k_registered _ _ _ (proj1 Hk) _ _ Htc Hd). congruence.
  - exists id, (next_ref k), tk, k'. split_and!; try done.
    unfold spawn_on, bind at 1. rewrite E1. unfold bind at 1. rewrite E2. fold k2.
    unfold bind at 1, clone_current_task_object_map, bind at 1, get at 1, borrow, bind at 1, bind at 1,
      get, unwrap.
    change (heap k2 !! current_task k2) with (heap k !! current_task k). rewrite Htc.
    unfold ret at 1. unfold ret at 1. fold nt. unfold bind. by rewrite E3.
Qed.
End Spawn.

(** ** Finishing a task *)

(** The joiners of this core that a queue of handles names: distinct and blocked. *)
Definition joiners_ok (k : t) (queue : list TaskHandle.t) : Prop :=
  NoDup (map TaskHandle.get_id queue) /\
  forall h, h ∈ queue ->
    (TaskHandle.get_core_id h = core_id k /\
     exists n tn, n ∈ blocked_tasks k /\ heap k !! BlockedQueue.task n = Some tn /\
       Task.id tn = TaskHandle.get_id h) \/
    (TaskHandle.get_core_id h <> core_id k /\
     is_Some (SCHEDULER_INPUTS k !! Z.to_nat (TaskHandle.get_core_id h))).

Lemma custom_wakeup_local h k n tn :
  kinv k -> TaskHandle.get_core_id h = core_id k -> n ∈ blocked_tasks k ->
  heap k !! BlockedQueue.task n = Some tn -> Task.id tn = TaskHandle.get_id h ->
  exists k', custom_wakeup h k = Done tt k' /\ kinv k' /\ same_rest k k' /\
    current_task k' = current_task k /\ SCHEDULER_INPUTS k' = SCHEDULER_INPUTS k /\
    heap k' = <[BlockedQueue.task n := Task.set_status Ready tn]> (heap k) /\
    (forall m, m ∈ blocked_tasks k -> BlockedQueue.task m <> BlockedQueue.task n -> m ∈ blocked_tasks k').
Proof.
  intros Hk Hc Hn Htn Hid.
  destruct (wake_kinv k h n tn Hk Hn Htn Hid) as (k' & E & Hk' & Hr & Hcur & _ & Hh & _ & Hm).
  assert (Hsi : SCHEDULER_INPUTS k' = SCHEDULER_INPUTS k).
  { unfold on_queues, zoom in E. destruct (BlockedQueue.wake _ _ _); [|done]. by simplify_eq. }
  exists k'. split_and!; try done; try apply Hr.
  unfold custom_wakeup, bind, get. by rewrite (proj2 (Z.eqb_eq _ _) Hc).
Qed.

Lemma custom_wakeup_remote h k :
  kinv k -> TaskHandle.get_core_id h <> core_id k ->
  is_Some (SCHEDULER_INPUTS k !! Z.to_nat (TaskHandle.get_core_id h)) ->
  exists k', custom_wakeup h k = Done tt k' /\ agree k k' /\ TASKS k' = TASKS k /\
    (forall c, is_Some (SCHEDULER_INPUTS k !! c) -> is_Some (SCHEDULER_INPUTS k' !! c)).
Proof.
  intros Hk Hc [input Hi]. eexists. split; [|split; [|split]].
  - unfold custom_wakeup, bind at 1, get at 1. rewrite (proj2 (Z.eqb_neq _ _) Hc).
    unfold bind at 1, get_scheduler_input, bind at 1, get, unwrap. rewrite Hi. done.
  - by split_and!.
  - done.
  - intros c. cbn. rewrite !lookup_lt_is_Some. by rewrite length_insert.
Qed.

(** A cell that is not blocked is not touched by wakeups. *)
Definition keeps_unblocked (k k' : t) : Prop :=
  forall r tr, heap k !! r = Some tr -> Task.status tr <> Blocked -> heap k' !! r = Some tr.

(** Waking the tasks of a list touches no other task. *)
Definition wakes_only (queue : list TaskHandle.t) (k k' : t) : Prop :=
  core_id k' = core_id k /\ idle_task k' = idle_task k /\
  (forall r tr, heap k' !! r = Some tr -> exists tr0, heap k !! r = Some tr0 /\ Task.id tr0 = Task.id tr) /\
  forall r tr, heap k !! r = Some tr -> Task.id tr ∉ map TaskHandle.get_id queue -> heap k' !! r = Some tr.

Lemma wakes_only_cons h queue k k1 k' :
  wakes_only [h] k k1 -> wakes_only queue k1 k' -> wakes_only (h :: queue) k k'.
Proof.
  intros (E1 & E2 & Hi & H) (E1' & E2' & Hi' & H'). split_and!; [congruence..| |].
  { intros r tr (t1 & (t0 & ? & ?)%Hi & ?)%Hi'. exists t0. split; [done|congruence]. }
  intros r tr Hr Hn. cbn in Hn. apply not_elem_of_cons in Hn as [Hn1 Hn2].
  apply H'; [|done]. apply H; [done|]. cbn. by rewrite list_elem_of_singleton.
Qed.

Lemma wake_queue_kinv queue k :
  kinv k -> joiners_ok k queue ->
  exists k', wake_queue queue k = Done tt k' /\ kinv k' /\ current_task k' = current_task k /\
    TASKS k' = TASKS k /\ keeps_unblocked k k' /\ wakes_only queue k k' /\
    (forall h, h ∈ queue -> TaskHandle.get_core_id h = core_id k ->
       exists r tr, heap k' !! r = Some tr /\ Task.id tr = TaskHandle.get_id h /\ Task.status tr = Ready).
Proof.
  revert k. induction queue as [|h queue IH]; intros k Hk [Hnd Hq].
  { exists k. do 4 (split; [done|]). split; [by intros r tr|]. split; [split_and!; by eauto|].
    intros h Hh. by apply not_elem_of_nil in Hh. }
  cbn in Hnd. apply NoDup_cons_1_1 in Hnd as Hh. apply NoDup_cons_1_2 in Hnd.
  assert (Hq' : forall x, x ∈ queue -> TaskHandle.get_id x <> TaskHandle.get_id h).
  { intros x Hx Heq. apply Hh. rewrite <- Heq. apply list_elem_of_In, in_map. by apply list_elem_of_In. }
  cbn [wake_queue]. unfold bind at 1.
  destruct (Hq h ltac:(by left)) as [(Hc & n & tn & Hn & Htn & Hid)|[Hc Hi]].
  - destruct (custom_wakeup_local h k n tn Hk Hc Hn Htn Hid)
      as (k1 & E & Hk1 & (Hco & Hidle & _ & HT & _) & Hcur & Hsi & Hheap & Hkeep). rewrite E.
    destruct (in_blocked_status _ _ _ (BlockedQueue.task n) (proj1 Hk)) as (tb & Htb & Hstb);
      [apply list_elem_of_In, in_map; by apply list_elem_of_In|]. assert (tb = tn) as -> by congruence.
    destruct (IH k1) as (k' & E' & Hk' & Hcur' & HT' & Hun & Honly & Hw); [done| |].
    + split; [done|]. intros x Hx. rewrite Hco, Hsi. destruct (Hq x ltac:(by right)) as [(Hxc & m & tm & Hm & Htm & Hidm)|?];
        [left|by right]. split; [done|].
      assert (Hne : BlockedQueue.task m <> BlockedQueue.task n).
      { intros Heq. rewrite Heq in Htm. apply (Hq' x Hx). congruence. }
      exists m, tm. split_and!; [by apply Hkeep| |done]. by rewrite Hheap, lookup_insert_ne.
    + exists k'. split; [done|]. split; [done|]. split; [congruence|]. split; [congruence|]. split_and!.
      * intros r tr Hr Hst. apply Hun; [|done]. rewrite Hheap, lookup_insert_ne; [done|]. congruence.
      * eapply wakes_only_cons; [|exact Honly]. split_and!; [done..| |].
        { intros r tr. rewrite Hheap. intros [[<- <-]|[_ ?]]%lookup_insert_Some; eauto. }
        intros r tr Hr Hni.
        rewrite Hheap, lookup_insert_ne; [done|]. intros <-. apply Hni. cbn. apply list_elem_of_singleton. congruence.
      * intros x [->|Hx]%elem_of_cons Hxc; [|by apply Hw; [|rewrite Hco]].
        exists (BlockedQueue.task n), (Task.set_status Ready tn).
        split_and!; [|done|done]. apply Hun; [|done]. by rewrite Hheap, lookup_insert_eq.
  - destruct (custom_wakeup_remote h k Hk Hc Hi) as (k1 & E & Hag & HT & Hsi). rewrite E.
    pose proof Hag as (Hco & Hcur & Hidle & _ & _ & Hqs & _).
    assert (Hh1 : heap k1 = heap k) by (unfold heap; by rewrite Hqs).
    destruct (IH k1) as (k' & E' & Hk' & Hcur' & HT' & Hun & Honly & Hw).
    + by eapply agree_kinv.
    + split; [done|]. intros x Hx. rewrite Hco, Hh1. unfold blocked_tasks. rewrite Hqs.
      destruct (Hq x ltac:(by right)) as [?|[? ?]]; [by left|right]. split; [done|]. by apply Hsi.
    + exists k'. split; [done|]. split; [done|]. split; [congruence|]. split; [congruence|]. split_and!.
      * intros r tr Hr. apply Hun. by rewrite Hh1.
      * eapply wakes_only_cons; [|exact Honly]. split_and!; [done..| |]; intros r tr Hr; [|intros _].
        { rewrite Hh1 in Hr. eauto. }
        by rewrite Hh1.
      * intros x [->|Hx]%elem_of_cons Hxc; [done|]. apply Hw; [done|]. by rewrite Hco.
Qed.

(** Giving back the slot of a task that finishes. *)
Lemma release_ok k tc :
  kinv k -> heap k !! current_task k = Some tc -> dead (Task.status tc) = false ->
  exists p owners,
    (forall k1, slots k1 = slots k ->
      (if bool_decide (Task.frame_location tc = InSlot)
       then on_slots (SlotPool.release_slot (core_id k) tc) else ret tt) k1 = Done tt (set_slots p k1)) /\
    SlotPool.pool_inv (core_id k) (<[current_task k := Task.set_status Finished tc]> (heap k)) p owners.
Proof.
  intros [Hinv _] Htc Hd. destruct (k_slots _ _ _ Hinv) as (owners & Hp).
  pose proof (proj2 (live_dead tc) Hd) as Hl. pose proof (k_core _ _ _ Hinv) as Hc.
  assert (Hdead : ~ SlotPool.live (Task.set_status Finished tc)) by (intros [? _]; done).
  destruct (Task.slot tc) as [i|] eqn:Es.
  - destruct (SlotPool.inv_held _ _ _ _ Hp _ _ _ Htc Hl Es) as [Hloc Hi].
    pose proof (lookup_lt_Some _ _ _ Hi) as Hlt. rewrite (SlotPool.inv_length _ _ _ _ Hp) in Hlt.
    pose proof (SlotPool.release_run (core_id k) owners i tc (slots k) Hc
                  (SlotPool.inv_owners _ _ _ _ Hp) Hloc Es Hlt) as E.
    eexists _, _. split.
    + intros k1 Hk1. rewrite bool_decide_true by done. unfold on_slots, zoom. by rewrite Hk1, E.
    + by eapply SlotPool.pool_inv_give.
  - exists (slots k), owners. split; [|by eapply SlotPool.pool_inv_keep].
    intros k1 <-. case_bool_decide; [|unfold ret; f_equal; by destruct k1].
    unfold on_slots, zoom, SlotPool.release_slot. rewrite Es. unfold ret. f_equal.
Qed.

(** The state in which the current task has finished and its slot is free. *)
Lemma finished_kinv k tc n p owners :
  kinv k -> heap k !! current_task k = Some tc -> Task.status tc = Running ->
  let h := <[current_task k := Task.set_status Finished tc]> (heap k) in
  SlotPool.pool_inv (core_id k) h p owners ->
  kinv (set_slots p (set_NO_TASKS n (set_heap h k))).
Proof.
  intros [Hinv Hcur] Htc Hst h Hpool. set (c := current_task k) in *.
  set (tf := Task.set_status Finished tc) in *. set (k2 := set_slots p _).
  assert (Hh : heap k2 = <[c := tf]> (heap k)) by done.
  destruct (k_tasks _ _ _ Hinv _ _ Htc) as [Hok _].
  assert (Hnr : c ∉ ReadyQueue.tasks (ready_queue k)).
  { intros Hin. destruct (in_ready_status _ _ _ _ Hinv Hin) as (? & ? & ?). congruence. }
  assert (Hnb : c ∉ map BlockedQueue.task (blocked_tasks k)).
  { intros Hin. destruct (in_blocked_status _ _ _ _ Hinv Hin) as (? & ? & ?). congruence. }
  split; [|eapply (current_ok_cell k k2 c tc tf); try done; by rewrite Hst].
  eapply (kinv_gen_pool (Some c) None (Some c) None k k2 (at_cell c tf)); try done.
  - by eapply mapped_cell.
  - by exists owners.
  - by apply queues_inv_insert; [apply Hinv| |].
  - intros x tx Hx. unfold at_cell. case_bool_decide as Heq.
    + subst x. assert (tx = tc) as -> by congruence. split_and!; try done; by rewrite Hst.
    + destruct (k_tasks _ _ _ Hinv _ _ Hx) as [? Hp]. by split_and!.
  - destruct (k_fpu _ _ _ Hinv) as (t0 & Ht0 & Hs0). rewrite Hh.
    change (fpu_owner k2) with (fpu_owner k). destruct (decide (c = fpu_owner k)) as [<-|].
    + exists tf. by rewrite lookup_insert_eq.
    + exists t0. by rewrite lookup_insert_ne.
  - apply Hinv.
  - intros x Hx. destruct (k_invalid _ _ _ Hinv x Hx) as (tx & Htx & Hsx). exists tx.
    rewrite Hh, lookup_insert_ne; [done|]. intros <-. congruence.
Qed.

(** Joiners are blocked, so the current task finishing does not concern them. *)
Lemma joiners_ok_finish k k3 tc queue :
  kinv k -> heap k !! current_task k = Some tc -> Task.status tc = Running ->
  heap k3 = <[current_task k := Task.set_status Finished tc]> (heap k) ->
  blocked_tasks k3 = blocked_tasks k -> core_id k3 = core_id k ->
  SCHEDULER_INPUTS k3 = SCHEDULER_INPUTS k ->
  joiners_ok k queue -> joiners_ok k3 queue.
Proof.
  intros [Hinv _] Htc Hst Hh Hb Hc Hi [Hnd Hj]. split; [done|]. intros h Hin. rewrite Hc, Hi, Hh, Hb.
  destruct (Hj h Hin) as [(? & n & tn & Hn & Htn & ?)|?]; [left|by right].
  split; [done|]. exists n, tn. split_and!; [done| |done]. rewrite lookup_insert_ne; [done|].
  intros Heq. destruct (in_blocked_status _ _ _ (BlockedQueue.task n) Hinv) as (tb & ? & ?);
    [apply list_elem_of_In, in_map; by apply list_elem_of_In|]. congruence.
Qed.

(** Removing the registration of the finished current task. *)
Lemma unregister_kinv k tc :
  kinv k -> heap k !! current_task k = Some tc -> dead (Task.status tc) = true ->
  kinv (set_TASKS (delete (Task.id tc) (TASKS k)) k).
Proof.
  intros [Hi (t4 & Ht4 & Hni & Hu)] Htc Hd. assert (t4 = tc) as -> by congruence.
  split; [|by exists tc]. destruct Hi. split; try done.
  intros r tr Hr Hdr. change (TASKS (set_TASKS _ _)) with (delete (Task.id tc) (TASKS k)).
  rewrite lookup_delete_ne; [eauto|]. intros Heq.
  assert (r = current_task k) as -> by (by eapply Hu).
  change (heap (set_TASKS _ k)) with (heap k) in Hr. congruence.
Qed.

Lemma finish_kinv k tc :
  kinv k -> heap k !! current_task k = Some tc -> Task.status tc = Running ->
  joiners_ok k (default [] (WAITING_TASKS k !! Task.id tc)) ->
  exists k', finish_current k = Done tt k' /\ kinv k' /\ current_task k' = current_task k /\
    heap k' !! current_task k = Some (Task.set_status Finished tc) /\
    TASKS k' = delete (Task.id tc) (TASKS k) /\
    (forall h, h ∈ default [] (WAITING_TASKS k !! Task.id tc) ->
       TaskHandle.get_core_id h = core_id k ->
       exists r tr, heap k' !! r = Some tr /\ Task.id tr = TaskHandle.get_id h /\ Task.status tr = Ready).
Proof.
  intros Hk Htc Hst Hj. set (queue := default [] (WAITING_TASKS k !! Task.id tc)) in *.
  destruct (release_ok k tc Hk Htc ltac:(by rewrite Hst)) as (p & owners & Erel & Hpool).
  pose proof (finished_kinv k tc (wrapu 32 (NO_TASKS k - 1)) p owners Hk Htc Hst Hpool) as Hk2.
  set (tf := Task.set_status Finished tc) in *.
  set (k1 := set_NO_TASKS _ _) in Hk2. set (k2 := set_slots p k1) in *.
  set (k3 := match WAITING_TASKS k !! Task.id tc with
             | Some _ => set_WAITING_TASKS (delete (Task.id tc) (WAITING_TASKS k)) k2
             | None => k2 end).
  assert (Hag : agree k2 k3 /\ SCHEDULER_INPUTS k3 = SCHEDULER_INPUTS k /\ TASKS k3 = TASKS k).
  { subst k3. by destruct (WAITING_TASKS k !! Task.id tc). }
  destruct Hag as (Hag & Ei & ET). pose proof (agree_kinv _ _ Hag Hk2) as Hk3.
  destruct Hag as (Ec & Ecur & _ & _ & _ & Eq & _).
  assert (Hh3 : heap k3 = <[current_task k := tf]> (heap k)) by (unfold heap; by rewrite Eq).
  destruct (wake_queue_kinv queue k3 Hk3) as (k4 & E4 & Hk4 & Hc4 & HT4 & Hun & _ & Hw).
  { eapply (joiners_ok_finish k); try done. unfold blocked_tasks. by rewrite Eq. }
  assert (Hh4 : heap k4 !! current_task k4 = Some tf).
  { rewrite Hc4, Ecur. apply Hun; [|done]. by rewrite Hh3, lookup_insert_eq. }
  exists (set_TASKS (delete (Task.id tc) (TASKS k4)) k4). split_and!.
  - unfold finish_current, bind at 1, get at 1. unfold bind at 1, borrow at 1, bind at 1, get at 1, unwrap.
    rewrite Htc. unfold ret at 1. unfold bind at 1, assert_.
    rewrite bool_decide_false by (by rewrite Hst). cbn [negb]. unfold ret at 1.
    unfold bind at 1, update, borrow, bind at 1, get at 1, unwrap, bind at 1. rewrite Htc. unfold ret at 1.
    unfold modify at 1. unfold bind at 1, modify at 1. fold tf.
    change (set_NO_TASKS _ _) with k1. unfold bind at 1. rewrite (Erel k1 eq_refl). fold k2.
    unfold bind at 1, get at 1. change (WAITING_TASKS k2) with (WAITING_TASKS k).
    subst k3 queue. unfold bind at 1.
    destruct (WAITING_TASKS k !! Task.id tc) as [queue|]; cbn in E4.
    + unfold bind at 1, modify at 1. change (WAITING_TASKS k2) with (WAITING_TASKS k). by rewrite E4.
    + unfold ret in E4 |- *. injection E4 as <-. done.
  - by apply (unregister_kinv k4 tf).
  - change (current_task k4 = current_task k). by rewrite Hc4, Ecur.
  - change (heap k4 !! current_task k2 = Some tf). by rewrite <- Ecur, <- Hc4.
  - cbn. by rewrite HT4, ET.
  - intros h Hin Hc. apply Hw; [done|]. by rewrite Ec.
Qed.

(** ** Priorities and the FPU *)

(** Changing the priority of the running task. *)
Lemma set_current_priority_kinv k tc prio :
  kinv k -> heap k !! current_task k = Some tc -> Task.status tc = Running ->
  0 <= prio < Z.of_nat NO_PRIORITIES ->
  exists k', set_current_task_priority prio k = Done tt k' /\ kinv k' /\
    heap k' = <[current_task k := Task.set_prio prio tc]> (heap k) /\ TASKS k' = TASKS k.
Proof.
  intros [Hinv Hcur] Htc Hst Hp. destruct (k_tasks _ _ _ Hinv _ _ Htc) as [[(? & ? & _) ?] _].
  exists (set_heap (<[current_task k := Task.set_prio prio tc]> (heap k)) k). split; [|split; [|done]].
  - unfold set_current_task_priority, bind at 1, get at 1, update, borrow, bind, get, unwrap. by rewrite Htc.
  - split; [|eapply current_ok_cell; [done|exact Htc|done..]].
    eapply (kinv_gen_status _ _ _ k _ (at_cell (current_task k) (Task.set_prio prio tc)));
      [done|by eapply mapped_cell|by split_and!|done|done| | |].
    + apply queues_inv_insert; [apply Hinv| |].
      * intros Hin. destruct (in_blocked_status _ _ _ _ Hinv Hin) as (? & ? & ?). congruence.
      * intros Hin. destruct (in_ready_status _ _ _ _ Hinv Hin) as (? & ? & ?). congruence.
    + intros x tx Hx. destruct (k_tasks _ _ _ Hinv _ _ Hx) as [Hok Hpl]. unfold at_cell.
      case_bool_decide as Heq; [|by split_and!].
      subst x. assert (tx = tc) as -> by congruence. split; [done|]. by split_and!.
    + intros x tx Hx. unfold at_cell. case_bool_decide as Heq; [|done].
      subst x. by assert (tx = tc) as -> by congruence.
Qed.

(** Lazily switching the FPU. *)
Lemma fpu_switch_kinv k tc tf :
  kinv k -> heap k !! current_task k = Some tc -> heap k !! fpu_owner k = Some tf ->
  exists k', fpu_switch k = Done tt k' /\ kinv k' /\ current_task k' = current_task k /\
    fpu_owner k' = current_task k /\
    (current_task k <> fpu_owner k ->
       fpu_registers k' = Task.last_fpu_state tc /\
       heap k' = <[fpu_owner k := Task.set_last_fpu_state (fpu_registers k) tf]> (heap k)) /\
    (current_task k = fpu_owner k -> k' = k).
Proof.
  intros Hk Htc Htf. pose proof Hk as [Hinv Hcur]. unfold fpu_switch, bind at 1, get at 1.
  destruct (decide (current_task k = fpu_owner k)) as [Heq|Hne].
  { rewrite bool_decide_true by done. exists k. split_and!; try done. }
  rewrite bool_decide_false by done.
  set (tf' := Task.set_last_fpu_state (fpu_registers k) tf).
  set (k' := set_fpu_owner (current_task k) (set_fpu_registers (Task.last_fpu_state tc)
               (set_heap (<[fpu_owner k := tf']> (heap k)) k))).
  exists k'. split_and!; try done.
  - assert (Hl : <[fpu_owner k := tf']> (heap k) !! current_task k = Some tc)
      by (by rewrite lookup_insert_ne).
    unfold bind at 1. rewrite (update_run _ _ _ _ Htf). fold tf'.
    unfold bind at 1. rewrite (borrow_run (current_task k) (set_heap (<[fpu_owner k := tf']> (heap k)) k) tc Hl). done.
  - destruct (k_tasks _ _ _ Hinv _ _ Htf) as [Hok Hpl].
    split; [|eapply (current_ok_cell k k'); [done|exact Htf|done..]].
    destruct Hcur as (tc0 & Htc0 & Hni & _). assert (tc0 = tc) as -> by congruence.
    eapply (kinv_gen_cell _ _ _ _ k k' (fpu_owner k) tf tf'); try done.
    + eapply queues_inv_same; [apply Hinv|exact Htf|done..].
    + exists tc. change (heap k') with (<[fpu_owner k := tf']> (heap k)).
      by rewrite lookup_insert_ne.
    + apply Hinv.
    + intros x Hx. destruct (k_invalid _ _ _ Hinv x Hx) as (tx & Htx & Hsx). exists tx.
      change (heap k') with (<[fpu_owner k := tf']> (heap k)). rewrite lookup_insert_ne; [done|].
      intros <-. destruct (k_fpu _ _ _ Hinv) as (? & ? & ?). congruence.
Qed.

(** ** Spawning on any core *)

Section SpawnAnywhere.
Context (env : Env).

(** Registering a task of another core: it goes to the inbox of that core. *)
Lemma register_remote_ok nt k :
  new_core_id nt <> core_id k -> is_Some (SCHEDULER_INPUTS k !! Z.to_nat (new_core_id nt)) ->
  exists k', register_task env nt k = Done true k' /\ agree k k'.
Proof.
  intros Hcore [input Hin]. eexists. split.
  - unfold register_task. erewrite (bind_run (get_scheduler_input _)).
    2: { unfold get_scheduler_input. erewrite bind_run by reflexivity. rewrite Hin. reflexivity. }
    do 4 erewrite bind_run by reflexivity. cbn [core_id set_NO_TASKS set_TASKS set_WAITING_TASKS].
    rewrite (proj2 (Z.eqb_neq _ _) Hcore). reflexivity.
  - split_and!; try done. intros id Hsome. cbn.
    destruct (decide (tid nt = id)) as [->|]; [rewrite lookup_insert_eq; by eexists|by rewrite lookup_insert_ne].
Qed.

(** What a new task needs: an inbox of its core, memory for its stacks, and an
    identifier that is not the current task's. *)
Definition can_spawn (core : Z) (k : t) : Prop :=
  is_Some (SCHEDULER_INPUTS k !! Z.to_nat core) /\ stack_ranges k <> [] /\
  0 <= TID_COUNTER k /\ TID_COUNTER k + Z.of_nat (size (TASKS k)) < 2 ^ 31 /\
  forall tc, heap k !! current_task k = Some tc -> dead (Task.status tc) = false \/ Task.id tc < TID_COUNTER k.

(** The part [spawn] and [clone_impl] share, from the identifier on. *)
Lemma spawn_at_kinv func arg prio core size m k :
  kinv k -> can_spawn core k -> 0 <= prio < Z.of_nat NO_PRIORITIES ->
  exists id k', (let! tid := get_tid in
     let! stacks := new_stacks size in
     let! wakeup := register_task env (mkNewTask tid func arg prio core stacks m) in
     do! (if wakeup : bool then send_sgi core else ret tt) in
     ret tid) k = Done id k' /\ kinv k' /\ current_task k' = current_task k.
Proof.
  intros Hk (Hin & Hsr & H0 & H1 & Hcid) Hp.
  destruct (get_tid_ok k) as (id & c & E1 & HT & _ & Hid); [unfold in_s; lia|lia|]. specialize (Hid H0 H1).
  destruct (stack_ranges k) as [|[page frame] rest] eqn:Hr; [done|].
  destruct (new_stacks_ok size (set_TID_COUNTER c k) page frame rest Hr) as (p & E2 & Hp2).
  set (k2 := set_slots p (set_stack_ranges rest (set_TID_COUNTER c k))) in *.
  erewrite bind_run by exact E1. erewrite bind_run by exact E2.
  assert (Hk2 : kinv k2) by (eapply agree_kinv; [|exact Hk]; by split_and!).
  set (nt := mkNewTask id func arg prio core (TaskStacks.new size page frame) m).
  destruct (decide (core = core_id k)) as [->|Hne].
  - destruct (register_local_ok env nt k2) as (tk & k' & E3 & Hk' & _ & _ & _ & _ & Hc & _); try done.
    + cbn. lia.
    + intros tc Htc. change (heap k !! current_task k = Some tc) in Htc. cbn.
      destruct (Hcid tc Htc) as [Hd|?]; [|lia]. intros Heq.
      destruct (k_registered _ _ _ (proj1 Hk) _ _ Htc Hd). congruence.
    + exists id, k'. erewrite bind_run by exact E3. done.
  - destruct (register_remote_ok nt k2) as (k' & E3 & Hag); [done..|].
    exists id, (set_ipis (core :: ipis k') k'). erewrite bind_run by exact E3. split; [done|].
    assert (Hag' : agree k2 (set_ipis (core :: ipis k') k')).
    { eapply agree_trans; [exact Hag|]. by split_and!. }
    split; [by eapply agree_kinv|]. apply Hag'.
Qed.

Lemma spawn_on_kinv func arg prio core size k :
  kinv k -> can_spawn core k -> 0 <= prio < Z.of_nat NO_PRIORITIES ->
  exists id k', spawn_on env func arg prio core size k = Done id k' /\ kinv k' /\ current_task k' = current_task k.
Proof.
  intros Hk Hcan Hp. destruct (proj2 Hk) as (tc & Htc & _).
  destruct (spawn_at_kinv func arg prio core size (Task.object_map tc) k Hk Hcan Hp) as (id & k' & E & H).
  exists id, k'. split; [|done]. rewrite <- E. unfold spawn_on. unfold bind at 1 6.
  destruct (get_tid_ok k) as (tid & c & -> & _); [unfold in_s; destruct Hcan as (_ & _ & ? & ? & _); lia|
    destruct Hcan as (_ & _ & ? & ? & _); lia|].
  destruct Hcan as (_ & Hsr & _). destruct (stack_ranges k) as [|[page frame] rest] eqn:Hr; [done|].
  destruct (new_stacks_ok size (set_TID_COUNTER c k) page frame rest Hr) as (p & E2 & _).
  erewrite bind_run by exact E2. erewrite (bind_run (new_stacks size)) by exact E2.
  erewrite bind_run; [reflexivity|]. unfold clone_current_task_object_map. erewrite bind_run by reflexivity.
  erewrite bind_run by (by apply borrow_run). done.
Qed.

(** The core the next clone goes to. *)
Definition clone_core (k : t) : Z := if NEXT_CORE_ID k =? processor_count env then 0 else NEXT_CORE_ID k.

Lemma clone_kinv func arg k :
  kinv k -> can_spawn (clone_core k) k ->
  exists id k', clone_impl env func arg k = Done id k' /\ kinv k' /\ current_task k' = current_task k.
Proof.
  intros Hk Hcan. destruct (proj2 Hk) as (tc & Htc & _).
  destruct (k_tasks _ _ _ (proj1 Hk) _ _ Htc) as [[(_ & _ & Hp) _] _].
  set (k1 := set_NEXT_CORE_ID (if NEXT_CORE_ID k =? processor_count env then 0 else wrapu 32 (NEXT_CORE_ID k + 1)) k).
  destruct (spawn_at_kinv func arg (Task.prio tc) (clone_core k)
              (TaskStacks.get_user_stack_size (Task.stacks tc)) (Task.object_map tc) k1) as (id & k' & E & Hk' & Hc);
    [eapply agree_kinv; [|exact Hk]; by split_and!|exact Hcan|exact Hp|].
  exists id, k'. split; [|done]. rewrite <- E. unfold clone_impl.
  erewrite bind_run by reflexivity. erewrite bind_run by reflexivity.
  erewrite (bind_run _ _ _ (clone_core k) k1)
    by (unfold k1, clone_core; destruct (NEXT_CORE_ID k =? processor_count env); reflexivity).
  erewrite bind_run by (apply borrow_run; exact Htc). done.
Qed.
End SpawnAnywhere.

(** ** Joining *)

Lemma join_kinv id k tc :
  kinv k -> heap k !! current_task k = Some tc -> Task.status tc = Running ->
  exists b k', join_round id k = Done b k' /\ kinv k' /\ current_task k' = current_task k.
Proof.
  intros Hk Htc Hst. unfold join_round. erewrite bind_run by reflexivity.
  destruct (WAITING_TASKS k !! id) as [queue|]; [|by exists true, k].
  erewrite (bind_run get_current_task_handle).
  2: { unfold get_current_task_handle. erewrite bind_run by reflexivity. erewrite bind_run by (by apply borrow_run). done. }
  erewrite bind_run by reflexivity.
  match goal with |- context [bind (block_current_task None) _ ?x] => set (k1 := x) end.
  assert (Hk1 : kinv k1) by (eapply agree_kinv; [|exact Hk]; by split_and!).
  destruct (block_kinv k1 tc None Hk1 Htc Hst I) as (k2 & E2 & Hk2 & Hc2 & _).
  erewrite bind_run by exact E2. eexists false, _. split; [reflexivity|].
  split; [eapply agree_kinv; [|exact Hk2]; by split_and!|exact Hc2].
Qed.

(** ** Changing the priority of another task *)

(** The queues after the task in cell [r] has got another priority. *)
Lemma queues_inv_prio core s r tk prio q :
  BlockedQueue.inv core s -> BlockedQueue.heap s !! r = Some tk -> Task.status tk = Ready ->
  let h := <[r := Task.set_prio prio tk]> (BlockedQueue.heap s) in
  ReadyQueue.wf h q -> ReadyQueue.tasks q ≡ₚ ReadyQueue.tasks (BlockedQueue.ready s) ->
  BlockedQueue.inv core (BlockedQueue.set_ready q (BlockedQueue.set_heap h s)).
Proof.
  intros Hinv Hr Hst h Hwf Hperm. pose proof Hinv as [[Hn _ _ _ (_ & Hrn & Hrs)] _].
  assert (Hnb : r ∉ map BlockedQueue.task (BlockedQueue.list s)).
  { intros Hin. apply list_elem_of_In, in_map_iff in Hin as (n & <- & Hin).
    rewrite List.Forall_forall in Hn. destruct (Hn n Hin) as [(tn & Htn & Hs & _) _]. congruence. }
  assert (Hinv0 : BlockedQueue.inv core (BlockedQueue.set_ready ReadyQueue.new s)).
  { apply queues_inv_ready; [done|apply ReadyQueue.new_wf|apply NoDup_nil_2|].
    intros x Hx. by apply not_elem_of_nil in Hx. }
  pose proof (queues_inv_insert core _ r (Task.set_prio prio tk) Hinv0 Hnb) as [[Hn' Hnd' Hs' Ht' _] Hc'].
  { intros Hx. by apply not_elem_of_nil in Hx. }
  split; [|done]. split; try done. split_and!; [done|by rewrite Hperm|].
  intros x Hx. cbn in Hx. rewrite Hperm in Hx. destruct (Hrs x Hx) as (tx & Htx & Hsx). cbn.
  destruct (decide (r = x)) as [<-|]; [|exists tx; subst h; by rewrite lookup_insert_ne].
  exists (Task.set_prio prio tk). subst h. by rewrite lookup_insert_eq.
Qed.

(** Where [set_priority] finds the task: it is unknown, of another core, the
    current one (which runs), or ready in the queue its handle names. *)
Definition prio_found (k : t) (id : Z) : Prop :=
  match TASKS k !! id with
  | None => True
  | Some h =>
      TaskHandle.get_core_id h <> core_id k \/
      exists tc, heap k !! current_task k = Some tc /\
        if Task.id tc =? TaskHandle.get_id h then Task.status tc = Running
        else exists r tk, r ∈ ReadyQueue.tasks (ready_queue k) /\ heap k !! r = Some tk /\
               Task.id tk = TaskHandle.get_id h /\ Task.prio tk = TaskHandle.get_priority h
  end.

Lemma set_priority_kinv k id prio :
  kinv k -> prio_found k id -> 0 <= prio < Z.of_nat NO_PRIORITIES ->
  exists res k', set_priority id prio k = Done res k' /\ kinv k' /\ current_task k' = current_task k.
Proof.
  intros Hk Hf Hp. unfold prio_found in Hf. unfold set_priority. erewrite bind_run by reflexivity.
  destruct (TASKS k !! id) as [h|]; [|by eexists _, k].
  erewrite bind_run by reflexivity. destruct (Z.eqb_spec (TaskHandle.get_core_id h) (core_id k)) as [Hc|Hc];
    cbn [negb]; [|by eexists _, k].
  destruct Hf as [?|(tc & Htc & Hf)]; [done|]. erewrite bind_run by (by apply borrow_run).
  destruct (Task.id tc =? TaskHandle.get_id h).
  { destruct (set_current_priority_kinv k tc prio Hk Htc Hf Hp) as (k' & E & Hk' & _).
    assert (E' : update (current_task k) (Task.set_prio prio) k = Done tt k') by (rewrite <- E; done).
    exists (Ok tt), k'. erewrite bind_run by exact E'. split; [done|]. split; [done|].
    rewrite (update_run _ _ _ _ Htc) in E'. by injection E' as <-. }
  destruct Hf as (r & tk & Hin & Htk & Hid & Hpr).
  pose proof Hk as [Hinv Hcur]. destruct (k_queues _ _ _ Hinv) as [[_ _ _ _ (Hwf & Hnd & _)] _].
  fold (ready_queue k) (heap k) in Hwf, Hnd. pose proof Hwf as (Hlen & _ & Hq).
  destruct (in_ready_status _ _ _ _ Hinv Hin) as (tk' & ? & Hst). assert (tk' = tk) as -> by congruence.
  apply elem_of_concat_lookup in Hin as Hin'. destruct Hin' as (i & queue & Hi & Hir).
  destruct (Hq _ _ _ Hi Hir) as (tk' & ? & Hpi). assert (tk' = tk) as -> by congruence.
  assert (Hii : i = Z.to_nat (TaskHandle.get_priority h)) by (rewrite <- Hpr; lia). rewrite Hii in Hi.
  destruct (ReadyQueue.position (heap k) (TaskHandle.get_id h) queue) as [j|] eqn:Hj.
  2: { by destruct (ReadyQueue.position_None _ _ _ _ _ Hj Hir Htk). }
  destruct (ReadyQueue.position_Some _ _ _ _ Hj) as (r' & tk' & Hr' & Htk' & Hid').
  assert (Hin2 : r' ∈ ReadyQueue.tasks (ready_queue k))
    by (apply elem_of_concat_lookup; eexists _, _; split; [exact Hi|by eapply list_elem_of_lookup_2]).
  destruct (in_ready_status _ _ _ _ Hinv Hin2) as (tk2 & ? & Hst2). assert (tk2 = tk') as -> by congruence.
  assert (r' = r) as -> by (eapply (k_ids _ _ k); try done; [by rewrite Hst2|by rewrite Hst|congruence]).
  assert (tk' = tk) as -> by congruence.
  destruct (ReadyQueue.set_priority_found (heap k) (ready_queue k) h prio queue j r Hwf Hnd Hp Hi Hj Hr')
    as (q & E & Hwf' & _ & Hperm). rewrite E.
  assert (Hal : alter (Task.set_prio prio) r (heap k) = <[r := Task.set_prio prio tk]> (heap k)).
  { apply map_eq. intros x. destruct (decide (r = x)) as [<-|].
    - by rewrite lookup_alter_eq, lookup_insert_eq, Htk.
    - by rewrite lookup_alter_ne, lookup_insert_ne. }
  rewrite Hal in *. eexists (Ok tt), _. split; [reflexivity|]. split; [|done].
  destruct (k_tasks _ _ _ Hinv _ _ Htk) as [[(? & ? & _) ?] _].
  split; [|eapply current_ok_cell; [done|exact Htk|done..]].
  eapply (kinv_gen_status _ _ _ k _ (at_cell r (Task.set_prio prio tk)));
    [done|by eapply mapped_cell|by split_and!|done|done| | |].
  - apply (queues_inv_prio _ (queues k) r tk prio q); [apply Hinv|done..].
  - intros x tx Hx. destruct (k_tasks _ _ _ Hinv _ _ Hx) as [Hok Hpl]. unfold at_cell.
    case_bool_decide as Heq.
    + subst x. assert (tx = tk) as -> by congruence. split; [done|]. split; [done|]. split; [done|].
      unfold placed. cbn. rewrite Hst. left. change (r ∈ ReadyQueue.tasks q). by rewrite Hperm.
    + split_and!; try done. eapply placed_mono; [done| |done..].
      intros y [Hy|Hy] _; [left|done]. change (y ∈ ReadyQueue.tasks q). by rewrite Hperm.
  - intros x tx Hx. unfold at_cell. case_bool_decide as Heq; [|done].
    subst x. by assert (tx = tk) as -> by congruence.
Qed.

(** ** The inbox of the core *)

Section CheckInput.
Context (env : Env).

Lemma check_wakeups_run l k :
  (forall h, h ∈ l -> TaskHandle.get_core_id h = core_id k) -> check_wakeups l k = wake_queue l k.
Proof.
  revert k. induction l as [|h l IH]; intros k Hl; [done|]. cbn [check_wakeups wake_queue].
  unfold bind at 1, get at 1. unfold custom_wakeup. unfold bind at 1 2. unfold bind at 1, get at 1.
  rewrite (proj2 (Z.eqb_eq _ _) (Hl h ltac:(by left))).
  destruct (on_queues (BlockedQueue.wake (core_id k) h) k) as [[] k1|] eqn:E; [|done].
  apply IH. unfold on_queues, zoom in E. destruct (BlockedQueue.wake _ _ _); [|done]. simplify_eq.
  intros h' Hh'. apply Hl. by right.
Qed.

(** A task another core has registered for this one. *)
Definition arriving (k : t) (nt : NewTask) : Prop :=
  new_core_id nt = core_id k /\ 0 <= prio nt < Z.of_nat NO_PRIORITIES /\ 0 <= tid nt /\
  is_Some (TASKS k !! tid nt) /\ forall r tr, heap k !! r = Some tr -> Task.id tr <> tid nt.

Lemma check_new_kinv l k :
  kinv k -> NoDup (map tid l) -> (forall nt, nt ∈ l -> arriving k nt) ->
  exists k', check_new env l k = Done tt k' /\ kinv k' /\ current_task k' = current_task k.
Proof.
  revert k. induction l as [|nt l IH]; intros k Hk Hnd Hl; [by exists k|].
  cbn in Hnd. apply NoDup_cons_1_1 in Hnd as Hnt. apply NoDup_cons_1_2 in Hnd.
  destruct (Hl nt ltac:(by left)) as (Hc & Hp & H0 & HT & Hnew).
  destruct (task_from_ok env nt k) as (tk & p & E1 & Hfresh & Hsl).
  pose proof Hfresh as (F1 & F2 & F3 & F4 & F5 & F6 & F7 & F8 & _).
  assert (Hag : agree k (set_slots p k)) by (by split_and!).
  destruct (add_task_ok (set_slots p k) tk) as (k1 & E2 & Hk1 & Hh & _ & Hc1 & HT1 & _);
    [by eapply agree_kinv|split; [|done]; split_and!; [by rewrite F4|by rewrite F7|rewrite F3; lia..]|done|done|lia|by rewrite F1|
     intros x tx Hx _; rewrite F1; by eapply Hnew|intros tc Htc; rewrite F1; by eapply Hnew|].
  assert (Hco : core_id k1 = core_id k).
  { unfold bind, new_cell, bind, get, modify, ret, ready_push, on_queues, zoom in E2.
    destruct (BlockedQueue.ready_push _ _); [|done]. by simplify_eq. }
  destruct (IH k1 Hk1 Hnd) as (k' & E3 & Hk' & Hc').
  - intros x Hx. destruct (Hl x ltac:(by right)) as (? & ? & ? & ? & Hxn). split_and!; try done; try lia.
    + by rewrite HT1.
    + intros r tr. rewrite Hh. intros [[<- <-]|[_ Hr]]%lookup_insert_Some; [|by eapply Hxn].
      rewrite F1. intros Heq. apply Hnt. rewrite Heq. apply list_elem_of_In, in_map. by apply list_elem_of_In.
  - exists k'. split; [|split; [done|by rewrite Hc', Hc1]]. cbn [check_new]. erewrite bind_run by exact E1.
    apply bind_Done in E2 as (r & kr & E2a & E2b). erewrite bind_run by exact E2a. by erewrite bind_run by exact E2b.
Qed.

(** The inbox: wakeups of distinct blocked tasks of this core, and new tasks. *)
Definition inbox_ok (k : t) : Prop :=
  exists input, SCHEDULER_INPUTS k !! Z.to_nat (core_id k) = Some input /\
    joiners_ok k (wakeup_tasks input) /\
    (forall h, h ∈ wakeup_tasks input -> TaskHandle.get_core_id h = core_id k) /\
    NoDup (map tid (new_tasks input)) /\ forall nt, nt ∈ new_tasks input -> arriving k nt.

Lemma check_input_kinv k :
  kinv k -> inbox_ok k ->
  exists k', check_input env k = Done tt k' /\ kinv k' /\ current_task k' = current_task k.
Proof.
  intros Hk (input & Hin & [Hnd Hj] & Hloc & Hndn & Hnew). unfold check_input.
  erewrite bind_run by reflexivity.
  erewrite (bind_run (get_scheduler_input _)).
  2: { unfold get_scheduler_input. erewrite bind_run by reflexivity. rewrite Hin. reflexivity. }
  erewrite bind_run by reflexivity.
  match goal with |- context [bind (check_wakeups _) _ ?x] => set (k1 := x) end.
  assert (Hk1 : kinv k1) by (eapply agree_kinv; [|exact Hk]; by split_and!).
  destruct (wake_queue_kinv (wakeup_tasks input) k1 Hk1) as (k2 & E & Hk2 & Hc2 & HT2 & _ & (Hco & _ & Hids & _) & _).
  { split; [done|]. intros h Hh. destruct (Hj h Hh) as [?|[Hc _]]; [by left|]. by destruct (Hc (Hloc h Hh)). }
  erewrite bind_run by (rewrite check_wakeups_run by exact Hloc; exact E).
  destruct (check_new_kinv (new_tasks input) k2 Hk2 Hndn) as (k' & E' & Hk' & Hc').
  - intros nt Hnt. destruct (Hnew nt Hnt) as (? & ? & ? & ? & Hf). split_and!; try done; try lia.
    + by rewrite Hco.
    + by rewrite HT2.
    + intros r tr (t0 & Ht0 & <-)%Hids. by eapply Hf.
  - exists k'. split; [done|]. split; [done|]. by rewrite Hc', Hc2.
Qed.
End CheckInput.

(** ** Exit *)

(** What waking and finishing leave alone of the state a new task needs. *)
Definition spawn_frame (k k' : t) : Prop :=
  TID_COUNTER k' = TID_COUNTER k /\ stack_ranges k' = stack_ranges k /\
  RESTART_TABLE k' = RESTART_TABLE k /\ core_id k' = core_id k /\
  length (SCHEDULER_INPUTS k') = length (SCHEDULER_INPUTS k).

Lemma spawn_frame_trans k1 k2 k3 : spawn_frame k1 k2 -> spawn_frame k2 k3 -> spawn_frame k1 k3.
Proof. intros (?&?&?&?&?) (?&?&?&?&?). split_and!; congruence. Qed.

Lemma on_queues_spawn_frame {A} (m : M BlockedQueue.t A) k a k' : on_queues m k = Done a k' -> spawn_frame k k'.
Proof. unfold on_queues, zoom. destruct (m (queues k)); [|done]. intros [= _ <-]. by split_and!. Qed.

Lemma custom_wakeup_spawn_frame h k k' : custom_wakeup h k = Done tt k' -> spawn_frame k k'.
Proof.
  unfold custom_wakeup. intros (k0 & ? & [= <- <-] & E)%bind_Done. destruct (_ =? _).
  - by eapply on_queues_spawn_frame.
  - unfold get_scheduler_input, set_scheduler_input, send_sgi in E. exec_inv.
    split_and!; try done. cbn. by rewrite length_insert.
Qed.

Lemma wake_queue_spawn_frame l k k' : wake_queue l k = Done tt k' -> spawn_frame k k'.
Proof.
  revert k. induction l as [|h l IH]; intros k; [intros [= <-]; by split_and!|].
  intros ([] & k1 & E1 & E2)%bind_Done. eapply spawn_frame_trans; [by eapply custom_wakeup_spawn_frame|by apply IH].
Qed.

Lemma finish_spawn_frame k k' : finish_current k = Done tt k' -> spawn_frame k k'.
Proof.
  unfold finish_current, update, borrow. intros E. exec_inv.
  match goal with H : (if bool_decide (_ = InSlot) then _ else _) ?a = Done _ ?b |- _ =>
    assert (H1 : spawn_frame a b) end.
  { destruct (bool_decide (_ = InSlot)); [|exec_inv; by split_and!].
    match goal with H : on_slots _ _ = _ |- _ => unfold on_slots, zoom in H;
      destruct (SlotPool.release_slot _ _ _); [|done] end. simplify_eq. by split_and!. }
  match goal with H : match ?w with _ => _ end ?a = Done _ ?b |- _ => assert (H2 : spawn_frame a b) end.
  { destruct (WAITING_TASKS _ !! _); exec_inv; [|by split_and!].
    match goal with H : wake_queue _ _ = Done ?u _ |- _ => destruct u; apply wake_queue_spawn_frame in H end. done. }
  destruct H1 as (?&?&?&?&?), H2 as (?&?&?&?&?). cbn in *. split_and!; cbn; congruence.
Qed.

(** What the respawn in [exit] needs besides the state of [finish_current]. *)
Definition can_respawn (k : t) : Prop :=
  length (RESTART_TABLE k) = 2%nat /\ is_Some (SCHEDULER_INPUTS k !! Z.to_nat (core_id k)) /\
  stack_ranges k <> [] /\ 0 <= TID_COUNTER k /\ TID_COUNTER k + Z.of_nat (size (TASKS k)) < 2 ^ 31 /\
  forall tc, heap k !! current_task k = Some tc -> Task.id tc < TID_COUNTER k.

Lemma should_restart_run now id table :
  length table = 2%nat -> exists b table', Supervisor.should_restart now id table = Done b table'.
Proof.
  intros Hlen. unfold Supervisor.should_restart, bind, get, assert_, unwrap.
  rewrite bool_decide_true by (destruct id; cbn; lia). unfold ret at 1.
  destruct (lookup_lt_is_Some_2 table (Supervisor.entry_index id)) as [e ->]; [destruct id; cbn; lia|].
  unfold ret at 1. destruct (Supervisor.may_restart e now) as [b e']. by eexists _, _.
Qed.

Lemma exit_kinv env k tc :
  kinv k -> heap k !! current_task k = Some tc -> Task.status tc = Running ->
  joiners_ok k (default [] (WAITING_TASKS k !! Task.id tc)) -> can_respawn k ->
  exists k', exit env k = Done tt k' /\ kinv k' /\ current_task k' = current_task k.
Proof.
  intros Hk Htc Hst Hj (HR & Hin & Hsr & H0 & H1 & Hid).
  destruct (finish_kinv k tc Hk Htc Hst Hj) as (k1 & E1 & Hk1 & Hc1 & Hh1 & HT1 & _).
  destruct (finish_spawn_frame _ _ E1) as (F1 & F2 & F3 & F4 & F5).
  assert (Hsize : (size (TASKS k1) <= size (TASKS k))%nat).
  { rewrite HT1, map_size_delete. destruct (TASKS k !! Task.id tc); cbn; lia. }
  unfold exit. erewrite bind_run by exact E1.
  enough (Hr : exists k2, respawn_finished env k1 = Done tt k2 /\ kinv k2 /\ current_task k2 = current_task k1).
  { destruct Hr as (k2 & E2 & Hk2 & Hc2). erewrite bind_run by exact E2. eexists. split; [reflexivity|].
    split; [eapply agree_kinv; [|exact Hk2]; by split_and!|]. cbn. congruence. }
  unfold respawn_finished. erewrite bind_run by reflexivity. rewrite <- Hc1 in Hh1.
  erewrite bind_run by (by apply borrow_run).
  destruct (should_restart_run (clock k1) (Task.entry_point_id (Task.set_status Finished tc)) (RESTART_TABLE k1))
    as (b & table & Es); [by rewrite F3|].
  erewrite bind_run by (apply zoom_run; exact Es). set (k2 := set_RESTART_TABLE table k1).
  assert (Hk2 : kinv k2) by (eapply agree_kinv; [|exact Hk1]; by split_and!).
  destruct b; [|by exists k2]. destruct (_ || _); [by exists k2|].
  destruct (k_tasks _ _ _ (proj1 Hk) _ _ Htc) as [[(_ & _ & Hp) _] _].
  destruct (spawn_on_kinv env (Task.entry tc) (Task.entry_arg tc) (Task.prio tc) (core_id k1) DEFAULT_STACK_SIZE k2 Hk2)
    as (id & k3 & E3 & Hk3 & Hc3); [|done|].
  - split_and!; cbn.
    + rewrite F4, lookup_lt_is_Some, F5, <- lookup_lt_is_Some. done.
    + by rewrite F2.
    + lia.
    + rewrite F1. lia.
    + intros tc' Htc'. right. change (heap k1 !! current_task k1 = Some tc') in Htc'.
      assert (tc' = Task.set_status Finished tc) as -> by congruence. cbn. rewrite F1. by apply Hid.
  - exists k3. erewrite bind_run by exact E3. done.
Qed.

(** ** The descriptor table of the current task *)

Lemma set_object_map_kinv m k :
  kinv k -> exists k', set_current_object_map m k = Done tt k' /\ kinv k' /\ current_task k' = current_task k.
Proof.
  intros [Hinv Hcur]. pose proof Hcur as (tc & Htc & Hni & _).
  set (tc' := Task.set_object_map m tc).
  exists (set_heap (<[current_task k := tc']> (heap k)) k). split; [|split; [|done]].
  - unfold set_current_object_map, bind, get. by rewrite (update_run _ _ _ _ Htc).
  - destruct (k_tasks _ _ _ Hinv _ _ Htc) as [Hok Hpl].
    split; [|eapply current_ok_cell; [done|exact Htc|done..]].
    eapply (kinv_gen_status _ _ _ k _ (at_cell (current_task k) tc'));
      [done|by eapply mapped_cell|by split_and!|done|done| | |].
    + eapply queues_inv_same; [apply Hinv|exact Htc|done..].
    + intros x tx Hx. destruct (k_tasks _ _ _ Hinv _ _ Hx) as [Hokx Hplx]. unfold at_cell.
      case_bool_decide as Heq; [|by split_and!].
      subst x. assert (tx = tc) as -> by congruence. split; [done|]. by split_and!.
    + intros x tx Hx. unfold at_cell. case_bool_decide as Heq; [|done].
      subst x. by assert (tx = tc) as -> by congruence.
Qed.

End SchedOps.
