(* ===== verification/SchedProps.v ===== *)
(** Properties of the per-core scheduler: what [scheduler] picks, that its
    operations preserve the placement invariant, that finished tasks are
    reclaimed, that identifiers and descriptors are fresh. *)

From S2P Require Import Prelude PrioFifo Tasks Errors ReadyQueue Timers Supervisor SlotPool BlockedQueue Kernel Scheduler SchedInv SchedOps.
Import Kernel Scheduler SchedInv SchedOps.

Module SchedProps.

(** ** The choice of [scheduler] *)

(** The next task by the priority FIFO of ready tasks: a running task is only
    replaced by a ready one of at least its priority; otherwise the oldest
    task of the highest priority runs, and the idle task when none is ready.
    [None]: the current task goes on. *)
Definition next_task (k : t) (tc : Task.t) : option tref :=
  let ll := ReadyQueue.queues (ready_queue k) in
  match Task.status tc with
  | Running =>
      match top ll with
      | Some i => if Z.of_nat i <? Task.prio tc then None else fst <$> fifo_pop ll
      | None => None
      end
  | st =>
      match fst <$> fifo_pop ll with
      | Some r => Some r
      | None => if bool_decide (st = Idle) then None else Some (idle_task k)
      end
  end.

Lemma set_ready_queue_id k : set_ready_queue (ready_queue k) k = k.
Proof. by destruct k as [? ? ? ? ? []]. Qed.

Section Scheduler.
Context (env : Env).

(** A running current task: stay, or requeue it and run the popped task. *)
Lemma scheduler_running k tc :
  kinv k -> heap k !! current_task k = Some tc -> Task.status tc = Running ->
  exists res k',
    (let! new_task := pick_task (Task.status tc) (Task.prio tc) in
     match new_task with
     | None => ret None
     | Some task => do! requeue_current (Task.status tc) in
                    dispatch env (Task.id tc) (current_task k) task
     end) k = Done res k' /\
    kinv k' /\ current_task k' = default (current_task k) (next_task k tc).
Proof.
  intros Hk Htc Hst. pose proof Hk as [Hinv (tc0 & Htc0 & _ & Huniq)]. assert (tc0 = tc) as -> by congruence.
  unfold next_task. rewrite Hst. unfold bind at 1, pick_task. rewrite bool_decide_true by done.
  unfold ready_op, bind at 1, get at 1.
  destruct (k_queues _ _ _ Hinv) as [[_ _ _ _ ((_ & Hb & _) & _)] _].
  fold (ready_queue k) in Hb. rewrite (ReadyQueue.pop_with_prio_ok _ (Task.prio tc) Hb).
  destruct (top (ReadyQueue.queues (ready_queue k))) as [i|] eqn:Etop.
  2: { unfold bind, unwrap, modify, ret. rewrite set_ready_queue_id. by eexists _, _. }
  destruct (Z.of_nat i <? Task.prio tc).
  { unfold bind, unwrap, modify, ret. rewrite set_ready_queue_id. by eexists _, _. }
  destruct (pop_ready_ok _ _ Hinv) as (q & E & _ & Hpop). rewrite E.
  destruct (fst <$> fifo_pop (ReadyQueue.queues (ready_queue k))) as [r|] eqn:Ep.
  2: { exfalso. destruct (fifo_pop _) as [[]|] eqn:Ef; [done|].
       rewrite fifo_pop_None, <- top_None in Ef. congruence. }
  destruct Hpop as (Hinv1 & Hnotin & Hin).
  destruct (in_ready_status _ _ _ _ Hinv Hin) as (tr & Htr & Hsr).
  destruct (requeue_ok (Some r) (set_ready_queue q k) tc Hinv1 Htc Hst) as (q2 & E2 & Hinv2 & _ & Hmem).
  assert (Hne : current_task k <> r) by congruence.
  unfold bind at 1, unwrap, ret at 1. cbn beta iota. unfold bind at 1, modify at 1, ret at 1.
  unfold bind at 1. rewrite E2.
  edestruct (dispatch_ok env (Task.id tc) (current_task k) _ r tr (Some r) Hinv2)
    as (k' & E3 & Hk' & Hcur & _).
  - change (<[current_task k := Task.set_status Ready tc]> (heap k) !! r = Some tr).
    by rewrite lookup_insert_ne.
  - left. split_and!; [done..|]. change (r ∉ ReadyQueue.tasks q2). rewrite Hmem.
    intros [Heq|?]; [by apply Hne|done].
  - intros Heq. symmetry. change (r = current_task k). eapply Huniq; [done|by rewrite Hsr|done].
  - eexists _, k'. split; [exact E3|]. done.
Qed.

(** Otherwise: the current task waits, has finished or is idle. *)
Lemma scheduler_waiting k tc k1 :
  kinv_gen None None k1 -> heap k !! current_task k = Some tc -> Task.status tc <> Running ->
  ready_queue k1 = ready_queue k -> idle_task k1 = idle_task k ->
  current_task k1 = current_task k ->
  (Task.status tc = Idle -> current_ok k1) ->
  (forall r tr, heap k1 !! r = Some tr -> dead (Task.status tr) = false ->
     Task.id tr = Task.id tc -> r = current_task k) ->
  exists res k',
    (let! task := ready_op ReadyQueue.pop in
     let! k0 := get in
     match (match task with
            | Some task => Some task
            | None => if bool_decide (Task.status tc = Idle) then None else Some (idle_task k0)
            end) with
     | None => ret None
     | Some task => do! requeue_current (Task.status tc) in
                    dispatch env (Task.id tc) (current_task k) task
     end) k1 = Done res k' /\
    kinv k' /\ current_task k' = default (current_task k) (next_task k tc).
Proof.
  intros Hinv Htc Hst Hrq Hid Hcur Hidle Huniq.
  destruct (pop_ready_ok _ _ Hinv) as (q & E & Hq & Hpop).
  assert (Hnext : next_task k tc =
    match fst <$> fifo_pop (ReadyQueue.queues (ready_queue k1)) with
    | Some r => Some r
    | None => if bool_decide (Task.status tc = Idle) then None else Some (idle_task k1)
    end).
  { unfold next_task. rewrite Hrq, Hid. by destruct (Task.status tc). }
  rewrite Hnext. unfold bind at 1, ready_op, bind at 1, get at 1. rewrite E.
  unfold bind at 1, unwrap, ret at 1. cbn beta iota. unfold bind at 1, modify at 1, ret at 1.
  unfold bind at 1, get at 1.
  assert (Hrc : requeue_current (Task.status tc) (set_ready_queue q k1) = Done tt (set_ready_queue q k1)).
  { unfold requeue_current. by rewrite bool_decide_false. }
  destruct (fst <$> fifo_pop (ReadyQueue.queues (ready_queue k1))) as [r|].
  - destruct Hpop as (Hinv1 & Hnotin & Hin).
    destruct (in_ready_status _ _ _ _ Hinv Hin) as (tr & Htr & Hsr).
    edestruct (dispatch_ok env (Task.id tc) (current_task k) _ r tr (Some r) Hinv1)
      as (k' & E3 & Hk' & Hc' & _); [done|left; by split_and!| |].
    { intros Heq. change (current_task k1 = r). rewrite Hcur. symmetry.
      eapply Huniq; [done|by rewrite Hsr|done]. }
    unfold bind at 1. rewrite Hrc. by eexists _, k'.
  - case_bool_decide as Hi.
    + eexists _, (set_ready_queue q k1). split; [done|]. split; [|done].
      split; [by apply kinv_gen_run|]. exact (Hidle Hi).
    + destruct (k_idle _ _ _ Hpop) as (ti & Hti & Hsi).
      edestruct (dispatch_ok env (Task.id tc) (current_task k) _ (idle_task k1) ti None Hpop)
        as (k' & E3 & Hk' & Hc' & _); [done|right; done| |].
      { intros Heq. change (current_task k1 = idle_task k1). rewrite Hcur. symmetry.
        eapply Huniq; [exact Hti|by rewrite Hsi|done]. }
      unfold bind at 1. change (idle_task (set_ready_queue q k1)) with (idle_task k1).
      rewrite Hrc. by eexists _, k'.
Qed.

(** ** Housekeeping before the choice *)

(** The tasks that wakers called by [flush_nic] wake, in order. *)
Definition parked_task (w : NetWaker) : option TaskHandle.t :=
  match w with Background => None | Notify parked => parked end.
Definition nic_wakes (nic : NicState) : list TaskHandle.t :=
  if nic_held nic then omap parked_task (option_list (network_waker nic))
  else if nic_initialized nic then omap parked_task (poll_wakers nic) else [].

(** Those of a call of [scheduler]: the network stack is only poked on the I/O
    core, after a task has been released. *)
Definition poked (nic : NicState) (k : t) : list TaskHandle.t :=
  if (0 <? length (finished_tasks k))%nat && (core_id k =? 0) then nic_wakes nic else [].

Lemma call_wakers_run l k : call_wakers l k = wake_queue (omap parked_task l) k.
Proof.
  revert k. induction l as [|[|[h|]] l IH]; intros k; cbn; [done|apply IH| |apply IH].
  unfold bind. destruct (custom_wakeup h k); [apply IH|done].
Qed.

Lemma flush_nic_run nic k : flush_nic nic k = wake_queue (nic_wakes nic) k.
Proof.
  unfold flush_nic, nic_wakes. destruct (nic_held nic).
  - rewrite <- call_wakers_run. unfold wake_network_waker. destruct (network_waker nic) as [w|]; [|done].
    change (option_list (Some w)) with [w]. cbn [call_wakers]. unfold bind, ret. by destruct (call_waker w k) as [[]|].
  - destruct (nic_initialized nic); [apply call_wakers_run|done].
Qed.

(** What housekeeping leaves: the finished tasks are gone, the tasks of this
    core that the network stack wakes are ready, no other task is touched. *)
Definition housekept (nic : NicState) (k k1 : t) : Prop :=
  kinv k1 /\ current_task k1 = current_task k /\ idle_task k1 = idle_task k /\
  (forall r tr, heap k !! r = Some tr -> r ∉ finished_tasks k ->
     Task.id tr ∉ map TaskHandle.get_id (poked nic k) -> heap k1 !! r = Some tr) /\
  (forall h, h ∈ poked nic k -> TaskHandle.get_core_id h = core_id k ->
     exists r tr, heap k1 !! r = Some tr /\ Task.id tr = TaskHandle.get_id h /\ Task.status tr = Ready) /\
  (poked nic k = [] -> ready_queue k1 = ready_queue k).

Lemma cleanup_joiners k k0 q :
  kinv k -> cleanup_tasks k = Done (length (finished_tasks k)) k0 -> joiners_ok k q -> joiners_ok k0 q.
Proof.
  intros [Hinv (tc & Htc & Hst & _)] E [Hnd Hq].
  destruct (cleanup_ok _ _ k Hinv) as
    (k0' & E' & _ & _ & (Hco & _) & _ & _ & _ & _ & Hbt & Hh & _); [by eauto|].
  rewrite E in E'. injection E' as <-.
  assert (Hin : SCHEDULER_INPUTS k0 = SCHEDULER_INPUTS k) by by eapply cleanup_inputs.
  split; [done|]. intros h Hh'. rewrite Hco, Hin, Hbt.
  destruct (Hq h Hh') as [(Hc & n & tn & Hn & Htn & Hid)|?]; [left|by right].
  split; [done|]. exists n, tn. split_and!; [done| |done]. rewrite Hh. case_bool_decide as Hf; [|done].
  destruct (k_invalid _ _ _ Hinv _ Hf) as (t1 & Ht1 & Hs1).
  destruct (in_blocked_status _ _ _ (BlockedQueue.task n) Hinv) as (t2 & Ht2 & Hs2); [|congruence].
  apply list_elem_of_In, in_map. by apply list_elem_of_In.
Qed.

Lemma housekeeping_ok nic k :
  kinv k -> joiners_ok k (poked nic k) ->
  exists k1, housekeeping nic k = Done tt k1 /\ housekept nic k k1.
Proof.
  intros Hk Hj. pose proof Hk as [Hinv (tc & Htc & Hst & Huniq)].
  destruct (cleanup_ok _ _ k Hinv) as
    (k0 & E & Hinv0 & Hf & Hrest & Hcur & Hfpu & Hcl & Hrq & Hbt & Hh & _); [by eauto|].
  assert (Hkeep : forall r, r ∉ finished_tasks k -> heap k0 !! r = heap k !! r)
    by (intros r Hr; by rewrite Hh, bool_decide_false).
  assert (Hcn : current_task k ∉ finished_tasks k).
  { intros Hin. destruct (k_invalid _ _ _ Hinv _ Hin) as (? & ? & ?). congruence. }
  assert (Hk0 : kinv k0).
  { split; [by rewrite Hcur|]. exists tc. rewrite Hcur, Hkeep by done. split_and!; try done.
    intros r tr. rewrite Hh. case_bool_decide; [done|]. apply Huniq. }
  pose proof Hrest as (Hco & Hid & _).
  unfold housekeeping. erewrite bind_run by exact E. erewrite bind_run by reflexivity. rewrite Hco.
  pose proof (cleanup_joiners k k0 _ Hk E Hj) as Hj0. unfold housekept. unfold poked in *.
  destruct ((0 <? length (finished_tasks k))%nat && (core_id k =? 0)).
  - destruct (wake_queue_kinv _ k0 Hk0 Hj0) as (k1 & E1 & Hk1 & Hc1 & _ & _ & (Hco1 & Hid1 & Honly) & Hw).
    exists k1. rewrite flush_nic_run. split; [done|]. split_and!; [done|congruence|congruence| | |].
    + intros r tr Hr Hn Hni. apply Honly; [|done]. by rewrite Hkeep.
    + intros h Hin Hch. apply Hw; [done|]. by rewrite Hco.
    + intros Hnil. rewrite Hnil in E1. injection E1 as <-. done.
  - exists k0. split; [done|]. split_and!; try done.
    + intros r tr Hr Hn _. by rewrite Hkeep.
    + intros h Hin. by apply not_elem_of_nil in Hin.
Qed.

Lemma scheduler_ok nic k :
  kinv k -> joiners_ok k (poked nic k) ->
  exists k1 tc res k', housekeeping nic k = Done tt k1 /\ housekept nic k k1 /\
    heap k1 !! current_task k = Some tc /\
    scheduler env nic k = Done res k' /\ kinv k' /\
    current_task k' = default (current_task k) (next_task k1 tc).
Proof.
  intros Hk Hj. destruct (housekeeping_ok nic k Hk Hj) as (k0 & E & Hkept).
  pose proof Hkept as (Hk0 & Hcur & _). pose proof Hk0 as [_ (tc & Htc0 & _)].
  exists k0, tc. rewrite <- Hcur.
  enough (exists res k', scheduler env nic k = Done res k' /\ kinv k' /\
    current_task k' = default (current_task k0) (next_task k0 tc)) as (res & k' & H)
    by (exists res, k'; do 3 (split; [done|]); exact H).
  unfold scheduler. erewrite bind_run by exact E. erewrite bind_run by reflexivity.
  unfold bind at 1, borrow, bind at 1, get, unwrap. rewrite Htc0.
  unfold ret at 1. destruct (decide (Task.status tc = Running)) as [Hr|Hr].
  { by apply scheduler_running. }
  pose proof Hk0 as [Hinv (tc1 & Htc1 & Hni & Huniq)]. assert (tc1 = tc) as -> by congruence.
  unfold bind at 1, pick_task. rewrite bool_decide_false by done.
  destruct (decide (Task.status tc = Finished)) as [Hf|Hf].
  - pose proof (retire_ok k0 tc Hinv Htc0 Hf) as Hinv1. set (k1 := retired k0 tc) in Hinv1.
    unfold bind at 1. rewrite Hf, (retire_run k0 tc Htc0), <- Hf. fold k1.
    destruct (scheduler_waiting k0 tc k1 Hinv1 Htc0 Hr) as (res & k' & E2 & Hk' & Hc'); try done.
    { by rewrite Hf. }
    { intros r tr. change (heap k1) with (<[current_task k0 := Task.set_status Invalid tc]> (heap k0)).
      intros [[<- <-]|[_ Hx]]%lookup_insert_Some; [done|]. by apply Huniq. }
    exists res, k'. split; [|done]. rewrite <- E2. unfold bind. by destruct (ready_op _ k1).
  - pose proof (waiting_ok k0 tc Hinv Htc0 Hr Hf) as Hinv1.
    unfold bind at 1, retire_finished. rewrite bool_decide_false by done. unfold ret at 1.
    destruct (scheduler_waiting k0 tc k0 Hinv1 Htc0 Hr) as (res & k' & E2 & Hk' & Hc'); try done.
    { intros _. apply Hk0. }
    exists res, k'. split; [|done]. rewrite <- E2. unfold bind. by destruct (ready_op _ k0).
Qed.
End Scheduler.

(** ** The descriptor table *)

Lemma new_fd_loop_ok fuel (m : gmap Z Z) fd :
  0 <= fd -> fd + Z.of_nat fuel <= i32_max ->
  (exists j, (j < fuel)%nat /\ m !! (fd + Z.of_nat j) = None /\
     (forall i, (i < j)%nat -> m !! (fd + Z.of_nat i) <> None) /\
     new_fd_loop fuel m fd = Some (Ok (fd + Z.of_nat j))) \/
  (forall j, (j < fuel)%nat -> m !! (fd + Z.of_nat j) <> None).
Proof.
  revert fd. induction fuel as [|fuel IH]; intros fd H0 Hmax; [right; intros; lia|].
  cbn [new_fd_loop]. case_bool_decide as Hfd.
  - left. exists 0%nat. rewrite Z.add_0_r. split_and!; [lia|done| |done]. intros; lia.
  - rewrite (proj2 (Z.eqb_neq _ _)) by lia.
    replace (sat_add i32_max fd 1) with (fd + 1) by (unfold sat_add; lia).
    destruct (IH (fd + 1)) as [(j & Hj & Hn & Hlow & E)|Hall]; [lia..| |].
    + left. exists (S j). replace (fd + Z.of_nat (S j)) with (fd + 1 + Z.of_nat j) by lia.
      split_and!; [lia|done| |done]. intros [|i] Hi; [by rewrite Z.add_0_r|].
      replace (fd + Z.of_nat (S i)) with (fd + 1 + Z.of_nat i) by lia. apply Hlow. lia.
    + right. intros [|j] Hj; [by rewrite Z.add_0_r|].
      replace (fd + Z.of_nat (S j)) with (fd + 1 + Z.of_nat j) by lia. apply Hall. lia.
Qed.

(** The lowest descriptor that is not in use. *)
Definition lowest_free (m : gmap Z Z) (fd : Z) : Prop :=
  0 <= fd /\ m !! fd = None /\ forall fd', 0 <= fd' < fd -> m !! fd' <> None.

Lemma new_fd_ok (m : gmap Z Z) k :
  Z.of_nat (size m) < i32_max -> exists fd, new_fd m k = Done (Ok fd) k /\ lowest_free m fd.
Proof.
  intros Hsize. unfold new_fd, unwrap.
  destruct (new_fd_loop_ok (S (size m)) m 0) as [(j & Hj & Hn & Hlow & E)|Hall]; [lia..| |].
  - rewrite E. rewrite Z.add_0_l in *. exists (Z.of_nat j). split; [done|]. split_and!; [lia|done|].
    intros fd' H. replace fd' with (0 + Z.of_nat (Z.to_nat fd')) by lia. apply Hlow. lia.
  - exfalso. set (l := map Z.of_nat (seq 0 (S (size m)))).
    assert (Hle : (length l <= size m)%nat).
    { apply NoDup_keys_size.
      - apply NoDup_ListNoDup, Finite.Injective_map_NoDup; [intros a b; lia|apply seq_NoDup].
      - intros x Hx. apply list_elem_of_In, in_map_iff in Hx as (j & <- & Hj%in_seq).
        apply not_eq_None_Some. rewrite <- (Z.add_0_l (Z.of_nat j)). apply Hall. lia. }
    subst l. rewrite length_map, length_seq in Hle. lia.
Qed.

(** The descriptor table of the current task. *)
Definition fd_table (k : t) : option (gmap Z Z) :=
  Task.object_map <$> heap k !! current_task k.

Lemma object_map_run k m :
  fd_table k = Some m -> clone_current_task_object_map k = Done m k.
Proof.
  unfold fd_table. destruct (heap k !! current_task k) as [tc|] eqn:E; [|done]. intros [= <-].
  unfold clone_current_task_object_map, bind at 1, get at 1, bind. by rewrite (borrow_run _ _ _ E).
Qed.

Lemma set_object_map_run k m m' :
  fd_table k = Some m ->
  exists k', set_current_object_map m' k = Done tt k' /\ fd_table k' = Some m' /\
    current_task k' = current_task k /\
    (forall r, r <> current_task k -> heap k' !! r = heap k !! r).
Proof.
  unfold fd_table. destruct (heap k !! current_task k) as [tc|] eqn:E; [|done]. intros [= <-].
  eexists. split; [unfold set_current_object_map, bind, get; by rewrite (update_run _ _ _ _ E)|].
  cbn. split_and!; [|done|].
  - change (Task.object_map <$> <[current_task k := Task.set_object_map m' tc]> (heap k) !! current_task k = Some m').
    by rewrite lookup_insert_eq.
  - intros r Hr. by apply lookup_insert_ne.
Qed.

(** ** Properties *)


(** A search for a descriptor ends while the table is not full, and the
    operations on the table keep the invariant. *)
Lemma descriptor_ops_kinv k m :
  kinv k -> fd_table k = Some m -> Z.of_nat (size m) < i32_max ->
  (forall obj, exists r k', insert_object obj k = Done r k' /\ kinv k') /\
  (forall fd, exists r k', dup_object fd k = Done r k' /\ kinv k') /\
  (forall fd1 fd2, exists r k', dup_object2 fd1 fd2 k = Done r k' /\ kinv k') /\
  (forall fd, exists r k', remove_object fd k = Done r k' /\ kinv k').
Proof.
  intros Hk Hm Hsize. destruct (new_fd_ok m k Hsize) as (fd0 & Efd & Hlow).
  pose proof (object_map_run k m Hm) as Em.
  pose proof (fun m' => set_object_map_kinv m' k Hk) as Hset.
  unfold insert_object, dup_object, dup_object2, remove_object. split_and!.
  - intros obj. destruct (Hset (<[fd0 := obj]> m)) as (k' & E & Hk' & _).
    erewrite bind_run by exact Em. erewrite bind_run by exact Efd. cbv beta iota.
    erewrite bind_run by exact E. by eexists _, k'.
  - intros fd. erewrite bind_run by exact Em. destruct (m !! fd) as [obj|]; [|by eexists _, k].
    erewrite bind_run by exact Efd. cbv beta iota. destruct (m !! fd0); [by eexists _, k|].
    destruct (Hset (<[fd0 := obj]> m)) as (k' & E & Hk' & _). erewrite bind_run by exact E. by eexists _, k'.
  - intros fd1 fd2. erewrite bind_run by exact Em. destruct (m !! fd1) as [obj|]; [|by eexists _, k].
    destruct (m !! fd2); [by eexists _, k|].
    destruct (Hset (<[fd2 := obj]> m)) as (k' & E & Hk' & _). erewrite bind_run by exact E. by eexists _, k'.
  - intros fd. erewrite bind_run by exact Em. destruct (m !! fd) as [obj|]; [|by eexists _, k].
    destruct (Hset (delete fd m)) as (k' & E & Hk' & _). erewrite bind_run by exact E. by eexists _, k'.
Qed.

(** The operations of the scheduler of a core, once it exists. *)
Inductive op : Type :=
  | Schedule (nic : NicState)
  | Housekeeping (nic : NicState)
  | Block (wakeup : option Z)
  | WakePending
  | Wake (handle : TaskHandle.t)
  | Spawn (func arg prio stack_size selector : Z)
  | Clone (func arg : Z)
  | CheckInput
  | Join (id : Z)
  | Exit
  | SetCurrentPriority (prio : Z)
  | SetPriority (id prio : Z)
  | FpuSwitch
  | InsertObject (obj : Z)
  | DupObject (fd : Z)
  | DupObject2 (fd1 fd2 : Z)
  | RemoveObject (fd : Z).

Definition exec_op (env : Env) (o : op) : M t unit :=
  match o with
  | Schedule nic => do! scheduler env nic in ret tt
  | Housekeeping nic => housekeeping nic
  | Block w => block_current_task w
  | WakePending => wake_pending_tasks
  | Wake h => custom_wakeup h
  | Spawn func arg prio size selector => do! spawn env func arg prio size selector in ret tt
  | Clone func arg => do! clone_impl env func arg in ret tt
  | CheckInput => check_input env
  | Join id => do! join_round id in ret tt
  | Exit => exit env
  | SetCurrentPriority prio => set_current_task_priority prio
  | SetPriority id prio => do! set_priority id prio in ret tt
  | FpuSwitch => fpu_switch
  | InsertObject obj => do! insert_object obj in ret tt
  | DupObject fd => do! dup_object fd in ret tt
  | DupObject2 fd1 fd2 => do! dup_object2 fd1 fd2 in ret tt
  | RemoveObject fd => do! remove_object fd in ret tt
  end.

(** The core [spawn] chooses. *)
Definition spawn_core (env : Env) (selector : Z) (k : t) : Z :=
  if selector <? 0 then CORE_COUNTER k mod processor_count env else wrapu 32 selector.

Definition runs (k : t) (P : Task.t -> Prop) : Prop :=
  exists tc, heap k !! current_task k = Some tc /\ Task.status tc = Running /\ P tc.

(** When the operation is called: by a running task where the code is only
    reached from one; the tasks it wakes (one named by a handle, the joiners of
    the task that exits, those in the inbox, those the network stack wakes) are
    distinct and blocked on this core, or belong to another core; there is
    memory and an identifier for a new task; the priority of another task is
    only changed while that task is ready under the priority its handle names
    (see [set_priority_stale_panics]). *)
Definition enabled (env : Env) (k : t) (o : op) : Prop :=
  match o with
  | WakePending | FpuSwitch => True
  | Schedule nic | Housekeeping nic => joiners_ok k (poked nic k)
  | Block w => runs k (fun _ => from_option (fun w => 0 <= w < u64_max) True w)
  | Wake h => joiners_ok k [h]
  | Spawn _ _ prio _ selector =>
      can_spawn (spawn_core env selector k) k /\ 0 <= prio < Z.of_nat NO_PRIORITIES /\
      (selector < 0 -> processor_count env <> 0)
  | Clone _ _ => can_spawn (clone_core env k) k
  | CheckInput => inbox_ok k
  | Join _ => runs k (fun _ => True)
  | Exit => can_respawn k /\ runs k (fun tc => joiners_ok k (default [] (WAITING_TASKS k !! Task.id tc)))
  | SetCurrentPriority prio => runs k (fun _ => 0 <= prio < Z.of_nat NO_PRIORITIES)
  | SetPriority id prio => prio_found k id /\ 0 <= prio < Z.of_nat NO_PRIORITIES
  | InsertObject _ | DupObject _ | DupObject2 _ _ | RemoveObject _ =>
      exists m, fd_table k = Some m /\ Z.of_nat (size m) < i32_max
  end.

(** An operation whose answer is dropped. *)
Lemma drop_answer {A} (m : M t A) k (P : A -> t -> Prop) :
  (exists a k', m k = Done a k' /\ kinv k' /\ P a k') -> exists k', (do! m in ret tt) k = Done tt k' /\ kinv k'.
Proof. intros (a & k' & E & Hk & _). exists k'. by erewrite bind_run by exact E. Qed.

Lemma spawn_ok env func arg prio size selector k :
  kinv k -> can_spawn (spawn_core env selector k) k -> 0 <= prio < Z.of_nat NO_PRIORITIES ->
  (selector < 0 -> processor_count env <> 0) ->
  exists id k', spawn env func arg prio size selector k = Done id k' /\ kinv k' /\ current_task k' = current_task k.
Proof.
  intros Hk Hcan Hp Hn. unfold spawn, spawn_core in *. erewrite bind_run by reflexivity.
  destruct (Z.ltb_spec selector 0) as [Hs|Hs].
  - erewrite (bind_run _ _ _ (CORE_COUNTER k mod processor_count env)).
    2: { erewrite bind_run by reflexivity. unfold bind, assert_. rewrite (proj2 (Z.eqb_neq _ _) (Hn Hs)). reflexivity. }
    apply (spawn_on_kinv env func arg prio _ size (set_CORE_COUNTER (wrapu 32 (CORE_COUNTER k + 1)) k));
      [eapply agree_kinv; [|exact Hk]; by split_and!|exact Hcan|exact Hp].
  - erewrite bind_run by reflexivity. by apply spawn_on_kinv.
Qed.


(** [cleanup_tasks] releases every finished task: each one is removed from
    the queue, its cell is freed because nothing else refers to it (in
    particular not the FPU owner), so [Task::drop] closes its descriptors; no
    other task is touched. *)
Theorem cleanup_reclaims k :
  kinv k ->
  exists k', cleanup_tasks k = Done (length (finished_tasks k)) k' /\ finished_tasks k' = [] /\
    (forall r tk, r ∈ finished_tasks k -> heap k !! r = Some tk ->
       heap k' !! r = None /\ tk ∈ freed k') /\
    (forall r, r ∉ finished_tasks k -> heap k' !! r = heap k !! r).
Proof.
  intros [Hinv (tc & Htc & Hst & _)].
  destruct (cleanup_ok _ _ k Hinv) as (k' & E & _ & Hf & _ & _ & _ & _ & _ & _ & Hh & Hfreed & _); [by eauto|].
  exists k'. split_and!; try done.
  - intros r tk Hr Htk. rewrite Hh, bool_decide_true by done. split; [done|]. by eapply Hfreed.
  - intros r Hr. by rewrite Hh, bool_decide_false.
Qed.

(** spawning a task on this core gives it an identifier no registered
    task has, registers it, and queues a new ready task that starts at the
    given entry with the given argument on fresh stacks, holds a copy of the
    parent's descriptor table and no slot; no other task changes. *)
Theorem spawn_creates env func arg prio stack_size k tc page frame rest :
  kinv k -> heap k !! current_task k = Some tc -> dead (Task.status tc) = false ->
  is_Some (SCHEDULER_INPUTS k !! Z.to_nat (core_id k)) ->
  stack_ranges k = (page, frame) :: rest -> 0 <= prio < Z.of_nat NO_PRIORITIES ->
  0 <= TID_COUNTER k -> TID_COUNTER k + Z.of_nat (size (TASKS k)) < 2 ^ 31 ->
  exists id r tk k', spawn_on env func arg prio (core_id k) stack_size k = Done id k' /\
    TASKS k !! id = None /\ TASKS k' = <[id := TaskHandle.new id prio (core_id k)]> (TASKS k) /\
    heap k !! r = None /\ heap k' = <[r := tk]> (heap k) /\ r ∈ ReadyQueue.tasks (ready_queue k') /\
    fresh_task (mkNewTask id func arg prio (core_id k) (TaskStacks.new stack_size page frame)
                  (Task.object_map tc)) tk.
Proof.
  intros Hk Htc Hd. intros.
  edestruct spawn_kinv as (id & r & tk & k' & E & _ & ? & ? & ? & ? & ? & _ & ?); eauto 20.
Qed.

(** when a task finishes, every task of this core that joined it is made
    ready, its registration is removed, and it stays the current task, marked
    finished, until the reschedule. *)
Theorem finish_wakes_joiners k tc :
  kinv k -> heap k !! current_task k = Some tc -> Task.status tc = Running ->
  joiners_ok k (default [] (WAITING_TASKS k !! Task.id tc)) ->
  exists k', finish_current k = Done tt k' /\ current_task k' = current_task k /\
    heap k' !! current_task k = Some (Task.set_status Finished tc) /\
    TASKS k' !! Task.id tc = None /\
    (forall h, h ∈ default [] (WAITING_TASKS k !! Task.id tc) ->
       TaskHandle.get_core_id h = core_id k ->
       exists r tr, heap k' !! r = Some tr /\ Task.id tr = TaskHandle.get_id h /\ Task.status tr = Ready).
Proof.
  intros Hk Htc Hst Hj. destruct (finish_kinv k tc Hk Htc Hst Hj) as (k' & E & _ & Hc & Hh & HT & Hw).
  exists k'. split_and!; try done. rewrite HT. apply lookup_delete_eq.
Qed.

(** descriptors.  Inserting an object gives it the lowest unused
    descriptor, under which it is found until it is removed; duplicating a
    descriptor gives the lowest unused one the same open file; [dup2] onto a
    used descriptor is refused; no other task's table changes. *)
Theorem descriptor_table k m :
  fd_table k = Some m -> Z.of_nat (size m) < i32_max ->
  (forall obj, exists fd k', insert_object obj k = Done (Ok fd) k' /\ lowest_free m fd /\
     fd_table k' = Some (<[fd := obj]> m) /\ get_object fd k' = Done (Ok obj) k' /\
     (forall r, r <> current_task k -> heap k' !! r = heap k !! r) /\
     exists k'', remove_object fd k' = Done (Ok obj) k'' /\ fd_table k'' = Some m) /\
  (forall fd obj, m !! fd = Some obj ->
     exists fd' k', dup_object fd k = Done (Ok fd') k' /\ lowest_free m fd' /\
       fd_table k' = Some (<[fd' := obj]> m)) /\
  (forall fd, m !! fd = None -> dup_object fd k = Done (Err Errno.Inval) k /\
     remove_object fd k = Done (Err Errno.Badf) k /\ get_object fd k = Done (Err Errno.Badf) k) /\
  (forall fd1 fd2 obj obj2, m !! fd1 = Some obj -> m !! fd2 = Some obj2 ->
     dup_object2 fd1 fd2 k = Done (Err Errno.Mfile) k).
Proof.
  intros Hm Hsize. destruct (new_fd_ok m k Hsize) as (fd & Efd & Hlow).
  pose proof (object_map_run k m Hm) as Em. split_and!.
  - intros obj. destruct (set_object_map_run k m (<[fd := obj]> m) Hm) as (k' & E & Hm' & Hc & Hh).
    destruct (set_object_map_run k' _ m Hm') as (k'' & E2 & Hm'' & _).
    exists fd, k'. split_and!; try done.
    + unfold insert_object, bind at 1. rewrite Em. unfold bind at 1. rewrite Efd. unfold bind. by rewrite E.
    + unfold get_object, bind. rewrite (object_map_run _ _ Hm'). by rewrite lookup_insert_eq.
    + exists k''. split; [|done]. unfold remove_object, bind at 1. rewrite (object_map_run _ _ Hm').
      rewrite lookup_insert_eq, delete_insert_id by apply Hlow. unfold bind. by rewrite E2.
  - intros fd0 obj Hobj. destruct (set_object_map_run k m (<[fd := obj]> m) Hm) as (k' & E & Hm' & _).
    exists fd, k'. split_and!; try done. unfold dup_object, bind at 1. rewrite Em, Hobj.
    unfold bind at 1. rewrite Efd. destruct Hlow as (_ & -> & _). unfold bind. by rewrite E.
  - intros fd0 Hn. unfold dup_object, remove_object, get_object, bind. rewrite Em, Hn. done.
  - intros fd1 fd2 obj obj2 H1 H2. unfold dup_object2, bind. by rewrite Em, H1, H2.
Qed.

(** the handle of a task keeps the priority it was spawned with.  Once
    the priority of a task has changed, raising or lowering it again while it
    is ready looks in the queue of the old priority and panics, and so does
    changing the priority of a blocked task. *)
Theorem set_priority_stale_panics k id prio h tc :
  kinv k -> heap k !! current_task k = Some tc -> dead (Task.status tc) = false ->
  TASKS k !! id = Some h -> TaskHandle.get_id h = id -> TaskHandle.get_core_id h = core_id k ->
  0 <= TaskHandle.get_priority h < Z.of_nat NO_PRIORITIES -> Task.id tc <> id ->
  (forall r tk, heap k !! r = Some tk -> Task.id tk = id -> Task.status tk = Ready ->
     Task.prio tk <> TaskHandle.get_priority h) ->
  exists why, set_priority id prio k = Panic why.
Proof.
  intros [Hinv _] Htc Hd HT Hid Hc Hp Hne Hstale.
  destruct (k_queues _ _ _ Hinv) as [[_ _ _ _ (Hwf & Hnd & Hrd)] _].
  unfold set_priority, bind at 1, get_task_handle, gets. rewrite HT.
  unfold bind at 1, get at 1. rewrite (proj2 (Z.eqb_eq _ _) Hc). cbn [negb].
  unfold bind at 1. rewrite (borrow_run _ _ _ Htc), Hid, (proj2 (Z.eqb_neq _ _) Hne).
  fold (heap k) (ready_queue k) in Hwf, Hrd.
  destruct (ReadyQueue.set_priority (heap k) (ready_queue k) h prio) as [[[[|] h'] q']|] eqn:E; [|by eexists..].
  exfalso. unfold ReadyQueue.set_priority in E. set (i := Z.to_nat (TaskHandle.get_priority h)) in E.
    destruct (ReadyQueue.queues (ready_queue k) !! i) as [queue|] eqn:Ei; cbn in E; [|done].
    destruct (ReadyQueue.position (heap k) (TaskHandle.get_id h) queue) as [j|] eqn:Ej; [|done].
    destruct (ReadyQueue.position_Some _ _ _ _ Ej) as (r & tk & Hr & Htk & Hidk).
    apply list_elem_of_lookup_2 in Hr. destruct Hwf as (_ & _ & Hq).
    destruct (Hq _ _ _ Ei Hr) as (tk' & Htk' & Hpr). assert (tk' = tk) as -> by congruence.
    destruct (Hrd r) as (tk2 & Htk2 & Hst); [apply elem_of_concat_lookup; eauto|].
    assert (tk2 = tk) as -> by (fold (heap k) in Htk2; congruence).
    apply (Hstale r tk); [done|congruence|done|]. rewrite Hpr. subst i. lia.
Qed.

(** ** A concrete kernel *)

Definition demo_task (id : Z) (st : TaskStatus) (prio : Z) : Task.t :=
  Task.new ∅ id 0 st prio (TaskStacks.Boot 0x1000).

(** Task 1 runs, 2 is ready, 3 has joined task 1 and waits until time 100, 4 has
    been retired; 0 is the idle task. *)
Definition demo_heap : task_heap :=
  <[0%nat := demo_task 0 Idle IDLE_PRIO]> (<[1%nat := demo_task 1 Running NORMAL_PRIO]>
    (<[2%nat := demo_task 2 Ready NORMAL_PRIO]> (<[3%nat := demo_task 3 Blocked NORMAL_PRIO]>
      (<[4%nat := demo_task 4 Invalid NORMAL_PRIO]> ∅)))).

Definition demo_ready : ReadyQueue.t :=
  default ReadyQueue.new (ReadyQueue.push demo_heap ReadyQueue.new 2%nat).

Definition demo_queues : BlockedQueue.t :=
  BlockedQueue.mk demo_heap [BlockedQueue.mkBlocked 3 (Some 100)]
    (Timers.mk [Timers.mkSlot Timers.Network u64_max; Timers.mkSlot Timers.Scheduler 100] (Some 100) 0)
    demo_ready.

Definition demo_handle (id : Z) : TaskHandle.t := TaskHandle.new id NORMAL_PRIO 0.

Definition demo : t :=
  mk 0 1%nat 0%nat 0%nat [4%nat] demo_queues 5%nat 4
    {[ 1 := [demo_handle 3] ]}
    (<[0 := demo_handle 0]> (<[1 := demo_handle 1]> (<[2 := demo_handle 2]> (<[3 := demo_handle 3]> ∅))))
    [mkInput [] []] 4 0 0 (SlotPool.mk [[-1; -1; -1]] (fun _ => 0)) Supervisor.RESTART_TABLE 0x9000 0 [] 0
    [(0x10000000, 0x20000000)] [].

Definition demo_env : Env := mkEnv 0x40000000 0x1000 0x2000 None ∅ 1 0x1000 0x100000.

Lemma demo_heap_Some r tk :
  demo_heap !! r = Some tk ->
  (r, tk) ∈ [(0%nat, demo_task 0 Idle IDLE_PRIO); (1%nat, demo_task 1 Running NORMAL_PRIO);
             (2%nat, demo_task 2 Ready NORMAL_PRIO); (3%nat, demo_task 3 Blocked NORMAL_PRIO);
             (4%nat, demo_task 4 Invalid NORMAL_PRIO)].
Proof.
  unfold demo_heap. rewrite !lookup_insert_Some, lookup_empty, !elem_of_cons. intros H.
  repeat (destruct H as [[<- <-]|[_ H]]; [by tauto|]). done.
Qed.

Ltac demo_cells H :=
  apply demo_heap_Some in H; repeat (apply elem_of_cons in H as [[= -> ->]|H]);
  [..|by apply not_elem_of_nil in H].

Lemma demo_ready_wf : ReadyQueue.wf demo_heap demo_ready /\ ReadyQueue.tasks demo_ready = [2%nat].
Proof.
  destruct (ReadyQueue.push_ok demo_heap ReadyQueue.new 2%nat (demo_task 2 Ready NORMAL_PRIO))
    as (q & E & Hwf & _); [apply ReadyQueue.new_wf|reflexivity|done|].
  unfold demo_ready. rewrite E. split; [exact Hwf|]. vm_compute in E. injection E as <-. reflexivity.
Qed.

Lemma demo_kinv : kinv demo.
Proof.
  destruct demo_ready_wf as [Hwf Htasks].
  assert (Hids : SlotPool.ids_ok demo_heap).
  { split; [intros r tk r' tk' H H'|intros r tk H]; demo_cells H; try demo_cells H'; cbn; done. }
  split; [split|].
  - done.
  - split; [split|].
    + constructor; [|constructor]. split; [|unfold u64_max; cbn; lia].
      exists (demo_task 3 Blocked NORMAL_PRIO). split_and!; [reflexivity|done|]. split_and!; done.
    + apply NoDup_cons_2; [by apply not_elem_of_nil|apply NoDup_nil_2].
    + repeat constructor.
    + exists u64_max, 100. split_and!; try done; unfold u64_max; lia.
    + split; [exact Hwf|]. change (ReadyQueue.tasks _) with (ReadyQueue.tasks demo_ready). rewrite Htasks.
      split; [apply NoDup_cons_2; [by apply not_elem_of_nil|apply NoDup_nil_2]|].
      intros r ->%list_elem_of_singleton. by eexists.
    + constructor; [|constructor]. cbn. lia.
  - intros r tk H. change (demo_heap !! r = Some tk) in H. split.
    + demo_cells H; split_and!; done.
    + unfold placed. change (ready_queue demo) with demo_ready. rewrite Htasks.
      demo_cells H; cbn; try done; [by left; left|by left..].
  - by eexists.
  - eexists. by split.
  - apply NoDup_cons_2; [by apply not_elem_of_nil|apply NoDup_nil_2].
  - intros r ->%list_elem_of_singleton. by eexists.
  - intros r [tk H]. change (demo_heap !! r = Some tk) in H. demo_cells H; cbn; lia.
  - exists [-1; -1; -1]. split; try done.
    + intros r tk i H. change (demo_heap !! r = Some tk) in H. by demo_cells H.
    + by intros [|[|[|]]] o [= <-].
  - intros r tk H. change (demo_heap !! r = Some tk) in H. demo_cells H; cbn; try done; by eexists.
  - exists (demo_task 1 Running NORMAL_PRIO). split_and!; try done.
    intros r tk H. change (demo_heap !! r = Some tk) in H. demo_cells H; done.
Qed.

(** The stack wakes a background future and task 3, which sleeps in [block_on];
    task 4 has been released, so it is poked. *)
Definition demo_nic : NicState := mkNic false true [Background; Notify (Some (demo_handle 3)); Notify None] None.

Lemma demo_poked : joiners_ok demo (poked demo_nic demo).
Proof.
  split; [apply NoDup_cons_2; [by apply not_elem_of_nil|apply NoDup_nil_2]|].
  intros h ->%list_elem_of_singleton. left. split; [reflexivity|].
  eexists _, _. split; [by left|]. split; reflexivity.
Qed.



Lemma cleanup_reclaims_witness :
  exists k', cleanup_tasks demo = Done 1%nat k' /\ heap k' !! 4%nat = None.
Proof.
  destruct (cleanup_reclaims demo demo_kinv) as (k' & E & _ & Hf & _).
  exists k'. split; [exact E|].
  apply (Hf 4%nat (demo_task 4 Invalid NORMAL_PRIO)); [by left|reflexivity].
Defined.

Lemma spawn_creates_witness :
  exists id k', spawn_on demo_env 0x2000 7 NORMAL_PRIO 0 DEFAULT_STACK_SIZE demo = Done id k' /\
    TASKS demo !! id = None.
Proof.
  destruct (spawn_creates demo_env 0x2000 7 NORMAL_PRIO DEFAULT_STACK_SIZE demo
              (demo_task 1 Running NORMAL_PRIO) 0x10000000 0x20000000 [])
    as (id & r & tk & k' & E & Hn & _); try reflexivity.
  - exact demo_kinv.
  - by eexists.
  - unfold NORMAL_PRIO, NO_PRIORITIES. lia.
  - cbn. lia.
  - exists id, k'. split; [exact E|exact Hn].
Defined.

Lemma finish_wakes_joiners_witness :
  exists k' r tr, finish_current demo = Done tt k' /\
    heap k' !! r = Some tr /\ Task.id tr = 3 /\ Task.status tr = Ready.
Proof.
  destruct (finish_wakes_joiners demo (demo_task 1 Running NORMAL_PRIO))
    as (k' & E & _ & _ & _ & Hw); try reflexivity.
  - exact demo_kinv.
  - split; [apply NoDup_cons_2; [by apply not_elem_of_nil|apply NoDup_nil_2]|].
    intros h ->%list_elem_of_singleton. left. split; [reflexivity|].
    eexists _, _. split; [by left|]. split; reflexivity.
  - destruct (Hw (demo_handle 3)) as (r & tr & Hr & Hid & Hst); [by left|reflexivity|].
    exists k', r, tr. split; [exact E|]. by split_and!.
Defined.

Lemma descriptor_table_witness :
  exists fd k', insert_object 9 demo = Done (Ok fd) k' /\ fd = 0.
Proof.
  destruct (descriptor_table demo ∅) as (Hi & _); [reflexivity|reflexivity|].
  destruct (Hi 9) as (fd & k' & E & (H0 & _ & Hlow) & _). exists fd, k'. split; [exact E|].
  destruct (Z.eq_dec fd 0) as [->|Hne]; [reflexivity|].
  destruct (Hlow 0 ltac:(lia)). reflexivity.
Defined.

(** Task 3 is blocked, so changing its priority panics. *)
Lemma set_priority_stale_panics_witness :
  exists why, set_priority 3 HIGH_PRIO demo = Panic why.
Proof.
  apply (set_priority_stale_panics demo 3 HIGH_PRIO (demo_handle 3) (demo_task 1 Running NORMAL_PRIO));
    try reflexivity; [exact demo_kinv|by split|discriminate|].
  intros r tk H. change (demo_heap !! r = Some tk) in H. demo_cells H; discriminate.
Defined.

End SchedProps.
