(* ===== verification/Interfaces.v ===== *)
(** What the synchronisation primitives rely on: a queue of waiters ordered by
    priority, and the calls into the scheduler of the running core.  The
    semaphore, the recursive mutex and the futexes are written against these
    two interfaces and their theorems are proved from the laws;
    [HandleQueue] and the per-core scheduler discharge them. *)

From S2P Require Import Prelude PrioFifo Tasks HandleQueue.

(** ** Queues of waiters *)

(** [Q] is the queue, [P] the state it shares with other queues.
    [wq_repr p q ll]: in [p], the queue [q] can be used and holds the waiters
    [ll], one FIFO per priority.  [wq_cell q] names what [q] owns of the shared
    state, 0 when it owns nothing yet; [wq_length] is the number of waiters,
    which bounds loops over the queue. *)
Class WaitQueueOps (P Q : Type) : Type := {
  wq_new : Q;
  wq_push : Q -> TaskHandle.t -> M P Q;
  wq_pop : Q -> M P (option TaskHandle.t * Q);
  wq_remove : Q -> TaskHandle.t -> M P (bool * Q);
  wq_contains : Q -> TaskHandle.t -> M P bool;
  wq_is_empty : Q -> M P (bool * Q);
  wq_repr : P -> Q -> list (list TaskHandle.t) -> Prop;
  wq_cell : Q -> nat;
  wq_length : Q -> nat;
}.

(** An operation that turns [q] into [q'] leaves the other queues alone. *)
Definition wq_frame {P Q} `{WaitQueueOps P Q} (p : P) (q : Q) (p' : P) (q' : Q) : Prop :=
  (wq_cell q <> 0%nat -> wq_cell q' <> 0%nat) /\
  forall q2 ll2, wq_cell q2 <> 0%nat -> wq_cell q2 <> wq_cell q -> wq_repr p q2 ll2 ->
    wq_repr p' q2 ll2 /\ wq_cell q2 <> wq_cell q'.

Class WaitQueue (P Q : Type) : Type := {
  wq_ops :: WaitQueueOps P Q;
  wq_push_law p q ll h :
    wq_repr p q ll -> HandleQueue.valid_prio h ->
    exists p' q', wq_push q h p = Done q' p' /\
      wq_repr p' q' (fifo_push ll (Z.to_nat (TaskHandle.get_priority h)) h) /\
      wq_frame p q p' q' /\ wq_cell q' <> 0%nat;
  wq_pop_law p q ll :
    wq_repr p q ll ->
    exists p' q', wq_pop q p = Done (fst <$> fifo_pop ll, q') p' /\
      wq_repr p' q' (from_option snd ll (fifo_pop ll)) /\ wq_frame p q p' q';
  wq_remove_law p q ll h :
    wq_repr p q ll -> HandleQueue.valid_prio h ->
    let i := Z.to_nat (TaskHandle.get_priority h) in
    exists p' q',
      wq_remove q h p =
        Done (existsb (fun x => TaskHandle.get_id x =? TaskHandle.get_id h) (ll !!! i), q') p' /\
      wq_repr p' q' (<[i := HandleQueue.without (TaskHandle.get_id h) (ll !!! i)]> ll) /\
      wq_frame p q p' q';
  wq_contains_law p q ll h :
    wq_repr p q ll -> HandleQueue.valid_prio h ->
    wq_contains q h p =
      Done (existsb (fun x => TaskHandle.get_id x =? TaskHandle.get_id h)
              (ll !!! Z.to_nat (TaskHandle.get_priority h))) p;
  wq_is_empty_law p q ll :
    wq_repr p q ll ->
    exists p' q', wq_is_empty q p = Done (match top ll with None => true | _ => false end, q') p' /\
      wq_repr p' q' ll /\ wq_frame p q p' q';
  wq_length_law p q ll : wq_repr p q ll -> wq_length q = length (concat ll);
  wq_repr_length p q ll : wq_repr p q ll -> length ll = NO_PRIORITIES;
  wq_new_cell : wq_cell wq_new = 0%nat;
}.

(** ** [TaskHandlePriorityQueue] with its pool of bitmaps *)

Section HandleQueueInstance.

#[local] Instance handle_queue_ops : WaitQueueOps Pool HandleQueue.t := {
  wq_new := HandleQueue.new;
  wq_push := HandleQueue.push;
  wq_pop := HandleQueue.pop;
  wq_remove := HandleQueue.remove;
  wq_contains := HandleQueue.contains;
  wq_is_empty := HandleQueue.is_empty;
  wq_repr p q ll := HandleQueue.repr p q ll /\ HandleQueue.can_use p q;
  wq_cell := HandleQueue.prio_bitmap_id;
  wq_length q := length (concat (HandleQueue.contents q));
}.

Lemma kept_frame p q ll p' q' ll' :
  HandleQueue.repr p q ll -> HandleQueue.kept p q p' q' -> HandleQueue.repr p' q' ll' ->
  wq_frame p q p' q'.
Proof.
  intros (Hp & _ & _ & Hown) (Hn & Hsame & Hid & Hnew) (Hp' & _). unfold wq_frame. cbn. split.
  { intros H0. by rewrite Hid. }
  intros q2 ll2 H2 Hne [(_ & Hlen & Hll & [Ho| ->]) _]; [|done].
  destruct Ho as [Hlt (m & Hm & Hbm)].
  assert (Hne' : HandleQueue.prio_bitmap_id q2 <> HandleQueue.prio_bitmap_id q').
  { destruct (decide (HandleQueue.prio_bitmap_id q = 0%nat)) as [E|E].
    - destruct (decide (HandleQueue.prio_bitmap_id q' = 0%nat)) as [E'|E']; [lia|].
      rewrite (Hnew E E'). lia.
    - by rewrite (Hid E). }
  split; [|done]. split; [|by left]. split_and!; [done..|]. left. split.
  - rewrite Hn. lia.
  - exists m. split; [|done]. rewrite Hsame; [done|lia|]. intros E. by destruct Hne'.
Qed.

Lemma handle_push_law p q ll h :
  wq_repr p q ll -> HandleQueue.valid_prio h ->
  exists p' q', wq_push q h p = Done q' p' /\
    wq_repr p' q' (fifo_push ll (Z.to_nat (TaskHandle.get_priority h)) h) /\
    wq_frame p q p' q' /\ wq_cell q' <> 0%nat.
Proof.
  intros [Hr Hu] Hp.
  destruct (HandleQueue.handle_push_ok p q ll h Hr Hu Hp) as (p' & q' & E & Hr' & [Hid _] & Hk).
  exists p', q'. split_and!; [done|split; [done|by eapply HandleQueue.kept_can_use]|by eapply kept_frame|cbn; lia].
Qed.

Lemma handle_pop_law p q ll :
  wq_repr p q ll ->
  exists p' q', wq_pop q p = Done (fst <$> fifo_pop ll, q') p' /\
    wq_repr p' q' (from_option snd ll (fifo_pop ll)) /\ wq_frame p q p' q'.
Proof.
  intros [Hr Hu]. destruct (HandleQueue.handle_pop_ok p q ll Hr Hu) as (p' & q' & E & Hr' & Hk).
  exists p', q'. split_and!; [done|split; [done|by eapply HandleQueue.kept_can_use]|by eapply kept_frame].
Qed.

Lemma handle_remove_law p q ll h :
  wq_repr p q ll -> HandleQueue.valid_prio h ->
  let i := Z.to_nat (TaskHandle.get_priority h) in
  exists p' q',
    wq_remove q h p =
      Done (existsb (fun x => TaskHandle.get_id x =? TaskHandle.get_id h) (ll !!! i), q') p' /\
    wq_repr p' q' (<[i := HandleQueue.without (TaskHandle.get_id h) (ll !!! i)]> ll) /\
    wq_frame p q p' q'.
Proof.
  intros [Hr Hu] Hp i. destruct (HandleQueue.remove_ok p q ll h Hr Hp) as (p' & q' & E & Hr' & Hk).
  exists p', q'. split_and!; [done|split; [done|by eapply HandleQueue.kept_can_use]|by eapply kept_frame].
Qed.

Lemma handle_is_empty_law p q ll :
  wq_repr p q ll ->
  exists p' q', wq_is_empty q p = Done (match top ll with None => true | _ => false end, q') p' /\
    wq_repr p' q' ll /\ wq_frame p q p' q'.
Proof.
  intros [Hr Hu]. destruct (HandleQueue.handle_is_empty_ok p q ll Hr Hu) as (p' & q' & E & Hr' & Hk).
  exists p', q'. split_and!; [done|split; [done|by eapply HandleQueue.kept_can_use]|by eapply kept_frame].
Qed.

Lemma handle_repr_length (p : Pool) (q : HandleQueue.t) ll : wq_repr p q ll -> length ll = NO_PRIORITIES.
Proof. intros [(_ & Hl & <- & _) _]. by rewrite HandleQueue.length_contents. Qed.

End HandleQueueInstance.

#[global] Instance handle_wait_queue : WaitQueue Pool HandleQueue.t := {
  wq_ops := handle_queue_ops;
  wq_push_law := handle_push_law;
  wq_pop_law := handle_pop_law;
  wq_remove_law := handle_remove_law;
  wq_contains_law p q ll h Hr := HandleQueue.contains_ok p q ll h (proj1 Hr);
  wq_is_empty_law := handle_is_empty_law;
  wq_length_law p q ll Hr := f_equal (fun x => length (concat x)) (proj1 (proj2 (proj2 (proj1 Hr))));
  wq_repr_length := handle_repr_length;
  wq_new_cell := eq_refl;
}.

(** No waiter of any priority. *)
Definition no_waiters : list (list TaskHandle.t) := replicate NO_PRIORITIES [].

Lemma top_no_waiters : top no_waiters = None.
Proof. reflexivity. Qed.

(** A fresh queue is usable while the pool has bitmaps left. *)
Lemma new_queue_repr p :
  HandleQueue.pool_ok p -> (NEXT_BITMAP_ID p < MAX_BITMAP_POOL)%nat ->
  wq_repr p wq_new no_waiters.
Proof.
  intros Hp Hn. split; [|by right].
  split_and!; [done|apply length_replicate|reflexivity|by right].
Qed.

(** ** The scheduler of the running core *)

(** [kc_running k h]: [h] is the handle of the task that runs in [k].
    [kc_waits k h]: the task of [h] waits to be woken, on this core or on
    another one.  [kc_woken id k k']: from [k] to [k'] the kernel has woken the
    task [id]: it was blocked and is ready, or its core has been told. *)
Class KernelCalls (K : Type) : Type := {
  kc_now : K -> Z;
  kc_current_handle : M K TaskHandle.t;
  kc_current_id : M K Z;
  kc_block_current : option Z -> M K unit;
  kc_wakeup : TaskHandle.t -> M K unit;
  kc_reschedule : M K unit;
  kc_running : K -> TaskHandle.t -> Prop;
  kc_waits : K -> TaskHandle.t -> Prop;
  kc_woken : Z -> K -> K -> Prop;
  kc_handle_law k h : kc_running k h -> kc_current_handle k = Done h k;
  kc_id_law k h : kc_running k h -> kc_current_id k = Done (TaskHandle.get_id h) k;
  kc_block_law k h w :
    kc_running k h -> from_option (fun w => 0 <= w < u64_max) True w ->
    exists k', kc_block_current w k = Done tt k' /\ kc_current_handle k' = Done h k' /\
      kc_now k' = kc_now k /\ kc_waits k' h /\ (forall h', kc_waits k h' -> kc_waits k' h');
  kc_wakeup_law k h me :
    kc_running k me -> kc_waits k h ->
    exists k', kc_wakeup h k = Done tt k' /\ kc_running k' me /\
      (forall h', kc_waits k h' -> TaskHandle.get_id h' <> TaskHandle.get_id h -> kc_waits k' h') /\
      (forall id, kc_woken id k k' <-> id = TaskHandle.get_id h);
  kc_woken_change id k : ~ kc_woken id k k;
  kc_reschedule_law k :
    exists k', kc_reschedule k = Done tt k' /\ forall h, kc_waits k h -> kc_waits k' h;
}.

(** ** Bookkeeping of the transition systems

    Task [id] leaves one entry of a list of task identifiers. *)
Fixpoint settle (id : Z) (l : list Z) : list Z :=
  match l with
  | [] => []
  | x :: l => if x =? id then l else x :: settle id l
  end.

Lemma length_settle id l : (length l <= S (length (settle id l)))%nat.
Proof. induction l as [|x l IH]; cbn; [lia|]. destruct (x =? id); cbn; lia. Qed.

Lemma settle_mid id l :
  id ∈ l -> exists l1 l2, l = l1 ++ id :: l2 /\ settle id l = l1 ++ l2.
Proof.
  induction l as [|x l IH]; intros Hin; [by apply not_elem_of_nil in Hin|].
  cbn. destruct (Z.eqb_spec x id) as [->|Hne]; [by exists [], l|].
  apply elem_of_cons in Hin as [->|Hin]; [done|].
  destruct (IH Hin) as (l1 & l2 & -> & ->). by exists (x :: l1), l2.
Qed.

Lemma settle_sublist id l : sublist (settle id l) l.
Proof.
  induction l as [|x l IH]; [constructor|]. cbn. destruct (x =? id); [by constructor|by constructor].
Qed.

Lemma settle_gone id l : NoDup l -> id ∉ settle id l.
Proof.
  induction 1 as [|x l Hx Hnd IH]; [apply not_elem_of_nil|]. cbn.
  destruct (Z.eqb_spec x id) as [->|Hne]; [done|]. apply not_elem_of_cons. split; [congruence|done].
Qed.

(** Tasks that wait at a primitive without a deadline: [asleep] those in its
    queue, [inflight] those a wakeup of the kernel has taken out of it and that
    have not run since. *)
Section Sleepers.
Context {P Q K : Type} {WQ : WaitQueue P Q} {KC : KernelCalls K}.

Definition ids (l : list TaskHandle.t) : list Z := map TaskHandle.get_id l.

(** The task a call that led from [k] to [k'] has woken, if any. *)
Definition woken_by (o : option Z) (k k' : K) : Prop :=
  match o with
  | Some id => kc_woken id k k'
  | None => forall id, ~ kc_woken id k k'
  end.
Definition still_asleep (o : option Z) (asleep : list TaskHandle.t) : list TaskHandle.t :=
  match o with Some id => HandleQueue.without id asleep | None => asleep end.

Record sleepers (p : P) (q : Q) (k : K) (asleep : list TaskHandle.t) (inflight : list Z)
    (ll : list (list TaskHandle.t)) : Prop := {
  sl_repr : wq_repr p q ll;
  sl_queue : concat ll ≡ₚ asleep;
  sl_ids : NoDup (ids asleep);
  sl_waits : forall h, h ∈ asleep -> kc_waits k h;
  sl_inflight : NoDup inflight;
  sl_apart : forall id, id ∈ inflight -> id ∉ ids asleep;
}.

Lemma sleepers_kern p q k k' asleep inflight ll :
  sleepers p q k asleep inflight ll -> (forall h, h ∈ asleep -> kc_waits k h -> kc_waits k' h) ->
  sleepers p q k' asleep inflight ll.
Proof. intros [] Hk. split; eauto. Qed.

(** A task has run a round and does not wait. *)
Lemma sleepers_settle p q k asleep inflight ll id :
  sleepers p q k asleep inflight ll -> sleepers p q k asleep (settle id inflight) ll.
Proof.
  intros [Hr Hq Hi Hw Hf Ha]. pose proof (settle_sublist id inflight) as Hsub. split; try done.
  - by eapply sublist_NoDup.
  - intros x Hx. apply Ha. by eapply sublist_subseteq.
Qed.

(** A task has parked. *)
Lemma sleepers_park p q k p' q' k' asleep inflight ll h :
  sleepers p q k asleep inflight ll -> HandleQueue.valid_prio h -> TaskHandle.get_id h ∉ ids asleep ->
  wq_repr p' q' (fifo_push ll (Z.to_nat (TaskHandle.get_priority h)) h) ->
  kc_waits k' h -> (forall h', kc_waits k h' -> kc_waits k' h') ->
  sleepers p' q' k' (h :: asleep) (settle (TaskHandle.get_id h) inflight)
    (fifo_push ll (Z.to_nat (TaskHandle.get_priority h)) h).
Proof.
  intros Hs Hv Hni Hr' Hw' Hkeep. pose proof (sleepers_settle _ _ _ _ _ _ (TaskHandle.get_id h) Hs) as [_ _ _ _ Hf' Ha'].
  destruct Hs as [Hr Hq Hi Hw Hf Ha]. split; try done.
  - rewrite fifo_push_Permutation, Hq; [done|]. rewrite (wq_repr_length _ _ _ Hr). by apply HandleQueue.prio_index.
  - cbn. by apply NoDup_cons_2.
  - intros x [->|Hx]%elem_of_cons; [done|]. eauto.
  - intros x Hx. cbn. apply not_elem_of_cons. split; [|by apply Ha']. intros ->. exact (settle_gone _ _ Hf Hx).
Qed.

Lemma without_first h rest :
  NoDup (ids (h :: rest)) -> HandleQueue.without (TaskHandle.get_id h) (h :: rest) = rest.
Proof.
  cbn. rewrite Z.eqb_refl. cbn. intros Hnd. apply NoDup_cons_1_1 in Hnd.
  induction rest as [|x rest IH]; [done|]. cbn in Hnd |- *. apply not_elem_of_cons in Hnd as [Hne Hni].
  rewrite (proj2 (Z.eqb_neq _ _)) by congruence. cbn. by rewrite IH.
Qed.

#[local] Instance without_proper id : Proper (Permutation ==> Permutation) (HandleQueue.without id).
Proof.
  intros l l'. unfold HandleQueue.without.
  induction 1 as [|x l l' _ IH|x y l|l1 l2 l3 _ IH1 _ IH2]; cbn; [done| | |by etransitivity].
  - destruct (negb _); [by constructor|done].
  - destruct (negb (TaskHandle.get_id x =? id)), (negb (TaskHandle.get_id y =? id)); try done. constructor.
Qed.

(** The kernel has woken the task at the front of the queue. *)
Lemma sleepers_pop p q k p' q' k' asleep inflight ll h ll' :
  sleepers p q k asleep inflight ll -> fifo_pop ll = Some (h, ll') -> wq_repr p' q' ll' ->
  (forall h', kc_waits k h' -> TaskHandle.get_id h' <> TaskHandle.get_id h -> kc_waits k' h') ->
  sleepers p' q' k' (HandleQueue.without (TaskHandle.get_id h) asleep) (TaskHandle.get_id h :: inflight) ll'.
Proof.
  intros [Hr Hq Hi Hw Hf Ha] Hp Hr' Hkeep. pose proof (fifo_pop_Permutation _ _ _ Hp) as Hperm.
  assert (Hp' : HandleQueue.without (TaskHandle.get_id h) asleep ≡ₚ concat ll').
  { assert (Ha' : asleep ≡ₚ h :: concat ll') by (by rewrite <- Hq).
    rewrite Ha', without_first; [done|]. unfold ids in *. by rewrite <- Ha'. }
  assert (Hsub : forall x, x ∈ HandleQueue.without (TaskHandle.get_id h) asleep ->
            x ∈ asleep /\ TaskHandle.get_id x <> TaskHandle.get_id h).
  { intros x Hx. apply list_elem_of_In, filter_In in Hx as [Hx Hne]. bool_hyps. by rewrite list_elem_of_In. }
  assert (Hin : h ∈ asleep) by (rewrite <- Hq, Hperm; by left).
  split; try done.
  - unfold ids in *. rewrite Hp'. rewrite <- Hq, Hperm in Hi. by apply NoDup_cons_1_2 in Hi.
  - intros x [Hx Hne]%Hsub. auto.
  - apply NoDup_cons_2; [|done]. intros Hx. apply (Ha _ Hx). apply list_elem_of_In, in_map. by apply list_elem_of_In.
  - intros x [->|Hx]%elem_of_cons Hin'; apply list_elem_of_In, in_map_iff in Hin' as (y & Hy & Hy');
      apply list_elem_of_In, Hsub in Hy' as [Hy1 Hy2]; [by apply Hy2|].
    apply (Ha _ Hx). rewrite <- Hy. apply list_elem_of_In, in_map. by apply list_elem_of_In.
Qed.

Lemma sleepers_empty p q k asleep inflight ll :
  sleepers p q k asleep inflight ll -> (asleep = [] <-> fifo_pop ll = None).
Proof.
  intros [_ Hq _ _ _ _]. destruct (fifo_pop ll) as [[h ll']|] eqn:E.
  - apply fifo_pop_Permutation in E. rewrite Hq in E. split; [|done]. intros ->. by apply Permutation_nil_cons in E.
  - split; [done|intros _]. destruct asleep as [|x l]; [done|]. exfalso.
    assert (Hx : x ∈ concat ll) by (rewrite Hq; by left).
    apply elem_of_concat_lookup in Hx as (i & l' & Hi & Hx). rewrite fifo_pop_None in E. specialize (E i).
    unfold nonempty_at in E. rewrite Hi in E. destruct l'; [by apply not_elem_of_nil in Hx|done].
Qed.
(** The task the release takes out waits. *)
Lemma front_waits p q k asleep inflight ll h :
  sleepers p q k asleep inflight ll -> fst <$> fifo_pop ll = Some h -> kc_waits k h.
Proof.
  intros Hsl Hp. apply (sl_waits _ _ _ _ _ _ Hsl). rewrite <- (sl_queue _ _ _ _ _ _ Hsl).
  destruct (fifo_pop ll) as [[h' ll']|] eqn:Ef; [|done]. injection Hp as ->.
  rewrite (fifo_pop_Permutation _ _ _ Ef). by left.
Qed.

(** At first nobody waits. *)
Lemma sleepers_none p q k ll : wq_repr p q ll -> top ll = None -> sleepers p q k [] [] ll.
Proof.
  intros Hq Ht. rewrite top_None in Ht. split; try done.
  - destruct (concat ll) as [|x l] eqn:E; [done|]. assert (Hx : x ∈ concat ll) by (rewrite E; by left).
    apply elem_of_concat_lookup in Hx as (i & l' & Hi & Hx). specialize (Ht i).
    unfold nonempty_at in Ht. rewrite Hi in Ht. destruct l'; [by apply not_elem_of_nil in Hx|done].
  - apply NoDup_nil_2.
  - intros h Hh. by apply not_elem_of_nil in Hh.
  - apply NoDup_nil_2.
  - intros id Hid. by apply not_elem_of_nil in Hid.
Qed.
End Sleepers.
