(* ===== verification/Semaphore.v ===== *)
(** The counting semaphore, [src/src/synch/semaphore.rs].

    [acquire] is a loop whose rounds each run under the semaphore's lock (with
    interrupts off); between two rounds the task spins or gives up the
    processor.  A round is therefore one atomic step, and the semaphore is a
    transition system over the rounds of all tasks. *)

From S2P Require Import Prelude PrioFifo Tasks HandleQueue Interfaces.

Module Semaphore.

(** [struct SemaphoreState] *)
Record state (Q : Type) : Type := mkState {
  count : Z; (** resource available count, [isize] *)
  queue : Q; (** priority queue of waiting tasks *)
}.
Arguments mkState {Q} _ _.
Arguments count {Q} _.
Arguments queue {Q} _.

(** How a round of [acquire] ends: the answers [true] and [false], or another
    round after giving up the processor or after a pause. *)
Inductive round : Set := Acquired | TimedOut | Parked | Spun.

Definition is_Acquired (r : round) : bool := match r with Acquired => true | _ => false end.
Definition is_Parked (r : round) : bool := match r with Parked => true | _ => false end.
Definition is_Spun (r : round) : bool := match r with Spun => true | _ => false end.

Section Operations.
Context {P Q K : Type} {WQ : WaitQueue P Q} {KC : KernelCalls K}.

(** A semaphore, the state its queue shares with others, the kernel. *)
Record world : Type := mkWorld { sem : state Q; pool : P; kern : K }.

Definition set_sem (x : state Q) (w : world) : world := mkWorld x (pool w) (kern w).
Definition set_pool (x : P) (w : world) : world := mkWorld (sem w) x (kern w).
Definition set_kern (x : K) (w : world) : world := mkWorld (sem w) (pool w) x.

Definition on_pool {A} (m : M P A) : M world A := zoom pool set_pool m.
Definition on_kern {A} (m : M K A) : M world A := zoom kern set_kern m.
Definition set_count (c : Z) : M world unit := modify (fun w => set_sem (mkState c (queue (sem w))) w).
Definition set_queue (q : Q) : M world unit := modify (fun w => set_sem (mkState (count (sem w)) q) w).

Definition new (count : Z) : state Q := mkState count wq_new.

(** The deadline of [acquire(time)]. *)
Definition deadline (time : option Z) : M world (option Z) :=
  gets (fun w => (fun ms => wrapu 64 (kc_now (kern w) + ms * 1000)) <$> time).

(** One round of the loop of [acquire]; [completed] is [backoff.is_completed()]. *)
Definition acquire_round (completed : bool) (wakeup_time : option Z) : M world round :=
  let! w := get in
  if 0 <? count (sem w) then
    do! set_count (count (sem w) - 1) in
    ret Acquired
  else if from_option (fun t => t <? kc_now (kern w)) false wakeup_time then
    let! handle := on_kern kc_current_handle in
    let! ' (_, q) := on_pool (wq_remove (queue (sem w)) handle) in
    do! set_queue q in
    ret TimedOut
  else if completed then
    do! on_kern (kc_block_current wakeup_time) in
    let! handle := on_kern kc_current_handle in
    let! q := on_pool (wq_push (queue (sem w)) handle) in
    do! set_queue q in
    do! on_kern kc_reschedule in
    ret Parked
  else ret Spun.

Definition try_acquire : M world bool :=
  let! w := get in
  if 0 <? count (sem w) then
    do! set_count (count (sem w) - 1) in
    ret true
  else ret false.

Definition release : M world unit :=
  let! w := get in
  do! set_count (wraps 64 (count (sem w) + 1)) in
  let! ' (task, q) := on_pool (wq_pop (queue (sem w))) in
  do! set_queue q in
  match task with
  | None => ret tt
  | Some task => on_kern (kc_wakeup task)
  end.

(** ** The transition system

    The tasks that use the semaphore without a deadline.  [asleep] are the
    tasks parked in its queue, [inflight] those the kernel has woken in a
    [release] and that have not run since; the last three fields count what
    has happened and the initial count.  A task that sleeps does not run, and
    a woken one is in the loop of [acquire]: its next step is a round.  Between
    the steps the kernel does anything else, but nobody else wakes the tasks
    that sleep here. *)
Record sys : Type := mkSys {
  s_world : world;
  asleep : list TaskHandle.t; inflight : list Z;
  initial : Z; acquired : Z; released : Z;
}.

Inductive step : sys -> sys -> Prop :=
  | step_kernel s k :
      (forall h, h ∈ asleep s -> kc_waits (kern (s_world s)) h -> kc_waits k h) ->
      step s (mkSys (set_kern k (s_world s)) (asleep s) (inflight s) (initial s) (acquired s) (released s))
  | step_acquire s h completed r w' :
      kc_running (kern (s_world s)) h -> HandleQueue.valid_prio h -> TaskHandle.get_id h ∉ ids (asleep s) ->
      acquire_round completed None (s_world s) = Done r w' ->
      step s (mkSys w' (if is_Parked r then h :: asleep s else asleep s)
                (if is_Spun r then inflight s else settle (TaskHandle.get_id h) (inflight s))
                (initial s) (acquired s + if is_Acquired r then 1 else 0) (released s))
  | step_try s h b w' :
      kc_running (kern (s_world s)) h -> TaskHandle.get_id h ∉ ids (asleep s) ->
      TaskHandle.get_id h ∉ inflight s ->
      try_acquire (s_world s) = Done b w' ->
      step s (mkSys w' (asleep s) (inflight s) (initial s) (acquired s + if b then 1 else 0) (released s))
  | step_release s h o w' :
      kc_running (kern (s_world s)) h -> TaskHandle.get_id h ∉ ids (asleep s) ->
      TaskHandle.get_id h ∉ inflight s -> initial s + released s < isize_max ->
      release (s_world s) = Done tt w' -> woken_by o (kern (s_world s)) (kern w') ->
      step s (mkSys w' (still_asleep o (asleep s)) (option_list o ++ inflight s)
                (initial s) (acquired s) (released s + 1)).

Inductive reachable (c : Z) (p : P) (k : K) : sys -> Prop :=
  | reach_init : reachable c p k (mkSys (mkWorld (new c) p k) [] [] c 0 0)
  | reach_step s s' : reachable c p k s -> step s s' -> reachable c p k s'.

(** ** Lemmas *)

(** The waiters after task [h] gave up or queued itself. *)
Definition left_queue (h : TaskHandle.t) (ll : list (list TaskHandle.t)) : list (list TaskHandle.t) :=
  let i := Z.to_nat (TaskHandle.get_priority h) in
  <[i := HandleQueue.without (TaskHandle.get_id h) (ll !!! i)]> ll.
Definition joined_queue (h : TaskHandle.t) (ll : list (list TaskHandle.t)) : list (list TaskHandle.t) :=
  fifo_push ll (Z.to_nat (TaskHandle.get_priority h)) h.

(** A round never panics, and this is how each branch ends. *)
Lemma acquire_round_ok completed wt c q p k h ll :
  kc_running k h -> HandleQueue.valid_prio h ->
  from_option (fun w => 0 <= w < u64_max) True wt -> wq_repr p q ll ->
  let elapsed := from_option (fun t => t <? kc_now k) false wt in
  exists r q' p' k', acquire_round completed wt (mkWorld (mkState c q) p k) =
      Done r (mkWorld (mkState (if is_Acquired r then c - 1 else c) q') p' k') /\
    (r = Acquired <-> 0 < c) /\ (r = TimedOut <-> c <= 0 /\ elapsed = true) /\
    (r = Parked <-> c <= 0 /\ elapsed = false /\ completed = true) /\
    wq_repr p' q' (match r with
                   | TimedOut => left_queue h ll
                   | Parked => joined_queue h ll
                   | _ => ll
                   end) /\
    (r = Parked -> kc_waits k' h) /\ (forall h', kc_waits k h' -> kc_waits k' h') /\
    (r <> Parked -> k' = k).
Proof.
  intros Hrun Hv Hwt Hq elapsed. unfold acquire_round, bind at 1, get at 1. cbn [count sem kern queue].
  destruct (Z.ltb_spec 0 c) as [Hc|Hc].
  { exists Acquired, q, p, k. split; [done|]. split_and!; try done; intuition (done || lia). }
  destruct (from_option (fun t => t <? kc_now k) false wt) eqn:Eel; fold elapsed in Eel.
  - destruct (wq_remove_law p q ll h Hq Hv) as (p' & q' & E & Hq' & _).
    exists TimedOut, q', p', k.
    erewrite bind_run by (apply zoom_run, kc_handle_law, Hrun).
    erewrite bind_run by (apply zoom_run, E). split; [done|].
    split_and!; try done; intuition (done || lia || congruence).
  - destruct completed.
    + destruct (kc_block_law k h wt Hrun Hwt) as (k1 & E1 & Eh & _ & Hw & Hkeep).
      destruct (wq_push_law p q ll h Hq Hv) as (p' & q' & E & Hq' & _).
      destruct (kc_reschedule_law k1) as (k2 & E2 & Hkeep2).
      exists Parked, q', p', k2. erewrite bind_run by (apply zoom_run, E1).
      erewrite bind_run by (apply zoom_run, Eh). erewrite bind_run by (apply zoom_run, E).
      erewrite bind_run by reflexivity. erewrite bind_run by (apply zoom_run, E2).
      split; [done|]. split_and!; try done; try (intuition (done || lia || congruence)); eauto.
    + exists Spun, q, p, k. split; [done|]. split_and!; try done; intuition (done || lia || congruence).
Qed.

(** [release] with the task it takes out of the queue waiting: it completes,
    and the kernel has woken exactly that task. *)
Lemma sem_release_ok c q p k me ll :
  wq_repr p q ll -> kc_running k me ->
  (forall h, fst <$> fifo_pop ll = Some h -> kc_waits k h) ->
  exists q' p' k', release (mkWorld (mkState c q) p k) =
      Done tt (mkWorld (mkState (wraps 64 (c + 1)) q') p' k') /\
    wq_repr p' q' (from_option snd ll (fifo_pop ll)) /\ kc_running k' me /\
    match fst <$> fifo_pop ll with
    | Some h => (forall id, kc_woken id k k' <-> id = TaskHandle.get_id h) /\
                (forall h', kc_waits k h' -> TaskHandle.get_id h' <> TaskHandle.get_id h -> kc_waits k' h')
    | None => k' = k
    end.
Proof.
  intros Hq Hrun Hw. destruct (wq_pop_law p q ll Hq) as (p' & q' & E & Hq' & _).
  unfold release. do 2 erewrite bind_run by reflexivity.
  erewrite bind_run by (apply zoom_run; exact E). cbn beta iota. erewrite bind_run by reflexivity.
  destruct (fst <$> fifo_pop ll) as [h|] eqn:Ep.
  - destruct (kc_wakeup_law k h me Hrun (Hw h eq_refl)) as (k' & Ek & Hr' & Hkeep & Hwk).
    exists q', p', k'. split; [|done]. unfold on_kern. by erewrite zoom_run by (exact Ek).
  - by exists q', p', k.
Qed.

(** ** Invariant *)

Record sinv (s : sys) : Prop := {
  i_queue : exists ll, sleepers (pool (s_world s)) (queue (sem (s_world s))) (kern (s_world s)) (asleep s) (inflight s) ll;
  i_awake : asleep s <> [] -> count (sem (s_world s)) <= Z.of_nat (length (inflight s));
  i_count : count (sem (s_world s)) = initial s + released s - acquired s;
  i_low : Z.min 0 (initial s) <= count (sem (s_world s));
  i_acquired : 0 <= acquired s;
  i_initial : isize_min <= initial s;
}.

Lemma sinv_acquire s h completed r w' :
  sinv s -> kc_running (kern (s_world s)) h -> HandleQueue.valid_prio h ->
  TaskHandle.get_id h ∉ ids (asleep s) -> acquire_round completed None (s_world s) = Done r w' ->
  sinv (mkSys w' (if is_Parked r then h :: asleep s else asleep s)
          (if is_Spun r then inflight s else settle (TaskHandle.get_id h) (inflight s))
          (initial s) (acquired s + if is_Acquired r then 1 else 0) (released s)).
Proof.
  intros [(ll & Hsl) Hw Hc Hlow Ha Hi] Hrun Hv Hni E. destruct s as [[[c q] p k] al fl c0 a rl].
  cbn [s_world sem pool kern asleep inflight initial acquired released count queue] in *.
  destruct (acquire_round_ok completed None c q p k h ll Hrun Hv I (sl_repr _ _ _ _ _ _ Hsl))
    as (r' & q' & p' & k' & E' & Hacq & Hto & Hpk & Hq' & Hwait & Hkeep & Hsame). rewrite E in E'. injection E' as <- ->.
  pose proof (length_settle (TaskHandle.get_id h) fl).
  destruct r; cbn in *; [| |
    |rewrite (Hsame ltac:(done)); split; cbn; try lia; [|by apply Hw]].
  - pose proof (proj1 Hacq eq_refl). rewrite (Hsame ltac:(done)). split; cbn; try lia.
    + exists ll. apply sleepers_settle. destruct Hsl. by split.
    + intros Hne. specialize (Hw Hne). lia.
  - by destruct (proj1 Hto eq_refl).
  - pose proof (proj1 Hpk eq_refl). split; cbn; try lia.
    eexists. by apply (sleepers_park p q k); auto.
  - exists ll. destruct Hsl. by split.
Qed.

Lemma sinv_release s me o w' :
  sinv s -> kc_running (kern (s_world s)) me -> initial s + released s < isize_max ->
  release (s_world s) = Done tt w' -> woken_by o (kern (s_world s)) (kern w') ->
  sinv (mkSys w' (still_asleep o (asleep s)) (option_list o ++ inflight s)
          (initial s) (acquired s) (released s + 1)).
Proof.
  intros [(ll & Hsl) Hw Hc Hlow Ha Hi] Hrun Hmax E Ho. destruct s as [[[c q] p k] al fl c0 a rl].
  cbn [s_world sem pool kern asleep inflight initial acquired released count queue] in *.
  destruct (sem_release_ok c q p k me ll (sl_repr _ _ _ _ _ _ Hsl) Hrun (fun x => front_waits _ _ _ _ _ _ x Hsl)) as (q' & p' & k' & E' & Hq' & _ & Hk').
  rewrite E in E'. injection E' as ->. cbn [kern] in Ho.
  assert (Hwrap : wraps 64 (c + 1) = c + 1).
  { apply wraps_small; unfold in_s, isize_max, isize_min, i64_max, i64_min in *; lia. }
  rewrite Hwrap. pose proof (sleepers_empty _ _ _ _ _ _ Hsl) as Hempty.
  destruct (fifo_pop ll) as [[h ll']|] eqn:Ef; cbn in Hq', Hk'.
  - destruct Hk' as [Hwk Hkeep].
    assert (Hoo : o = Some (TaskHandle.get_id h)).
    { destruct o as [id|]; [by rewrite (proj1 (Hwk id) Ho)|]. by destruct (Ho (TaskHandle.get_id h)); apply Hwk. }
    subst o. assert (Hne : al <> []) by (intros Hn; by apply Hempty in Hn). specialize (Hw Hne).
    split; cbn; try lia. exists ll'. by eapply (sleepers_pop p q k).
  - subst k'. assert (Hoo : o = None) by (destruct o as [id|]; [by destruct (kc_woken_change id k Ho)|done]).
    subst o. rewrite (proj2 Hempty eq_refl) in *. split; cbn; try lia; [|done]. exists ll. destruct Hsl. by split.
Qed.

Lemma sinv_step s s' : sinv s -> step s s' -> sinv s'.
Proof.
  intros Hs Hst. destruct Hst as
    [s k Hk|s h completed r w' Hrun Hv Hni E|s h b w' Hrun Hni Hnf E|s h o w' Hrun Hni Hnf Hmax E Ho].
  - destruct Hs as [(ll & Hsl) Hw Hc Hlow Ha Hi]. split; try done. exists ll. by eapply sleepers_kern.
  - by eapply sinv_acquire.
  - destruct Hs as [(ll & Hsl) Hw Hc Hlow Ha Hi], s as [[[c q] p k] al fl c0 a rl]; cbn in *.
    unfold try_acquire, bind, get in E. cbn in E.
    destruct (Z.ltb_spec 0 c) as [H0|H0]; cbn in E; injection E as <- <-; cbn.
    + split; cbn; try lia; [by exists ll|]. intros Ht. specialize (Hw Ht). lia.
    + split; cbn; try lia; by exists ll.
  - by eapply sinv_release.
Qed.

Lemma sinv_reachable c p k ll0 s :
  wq_repr p wq_new ll0 -> top ll0 = None -> isize_min <= c -> reachable c p k s -> sinv s /\ initial s = c.
Proof.
  intros Hq Ht Hc Hr. induction Hr as [|s s' Hr [IH Hi] Hst].
  - split; [|done]. split; cbn; try lia; [|done]. exists ll0. by apply sleepers_none.
  - split; [by eapply sinv_step|]. by destruct Hst.
Qed.

(** ** Properties *)


(** A wait with a deadline breaks this: a task the timer has woken that then
    finds a resource returns without leaving the queue, so that a later
    [release] spends its wakeup on a task that does not wait here. *)
Lemma timed_acquire_stays_queued completed wt c q p (k : K) :
  0 < c ->
  acquire_round completed wt (mkWorld (mkState c q) p k) = Done Acquired (mkWorld (mkState (c - 1) q) p k).
Proof. intros Hc. unfold acquire_round, bind, get. cbn. by rewrite (proj2 (Z.ltb_lt 0 c) Hc). Qed.

(** a round of [acquire] never panics, and ends as documented: it takes a
    resource exactly when one is available, gives up (leaving the queue) when
    none is and the deadline has passed, parks the task in the queue of its
    priority and blocks it when spinning is over, and spins otherwise;
    [release] never panics as long as the waiter it takes out waits, adds one
    resource and wakes the longest waiting task of the highest priority. *)
Theorem semaphore_rounds c q p k h ll :
  wq_repr p q ll -> kc_running k h -> HandleQueue.valid_prio h ->
  (forall completed wt, from_option (fun w => 0 <= w < u64_max) True wt ->
     let elapsed := from_option (fun t => t <? kc_now k) false wt in
     exists r q' p' k', acquire_round completed wt (mkWorld (mkState c q) p k) =
         Done r (mkWorld (mkState (if is_Acquired r then c - 1 else c) q') p' k') /\
       (r = Acquired <-> 0 < c) /\ (r = TimedOut <-> c <= 0 /\ elapsed = true) /\
       (r = Parked <-> c <= 0 /\ elapsed = false /\ completed = true) /\
       (r = Parked -> kc_waits k' h /\ wq_repr p' q' (joined_queue h ll)) /\
       (r = TimedOut -> wq_repr p' q' (left_queue h ll))) /\
  ((forall h', fst <$> fifo_pop ll = Some h' -> kc_waits k h') ->
   exists q' p' k', release (mkWorld (mkState c q) p k) =
       Done tt (mkWorld (mkState (wraps 64 (c + 1)) q') p' k') /\
     wq_repr p' q' (from_option snd ll (fifo_pop ll)) /\ kc_running k' h /\
     match fst <$> fifo_pop ll with
     | Some h' => (forall id, kc_woken id k k' <-> id = TaskHandle.get_id h')
     | None => k' = k
     end).
Proof.
  intros Hq Hrun Hv. split.
  - intros completed wt Hwt elapsed.
    destruct (acquire_round_ok completed wt c q p k h ll Hrun Hv Hwt Hq)
      as (r & q' & p' & k' & E & Ha & Ht & Hp & Hq' & Hw & _).
    exists r, q', p', k'. split_and!; try done; intros ->; auto.
  - intros Hw. destruct (sem_release_ok c q p k h ll Hq Hrun Hw) as (q' & p' & k' & E & Hq' & Hr' & Hk').
    exists q', p', k'. do 3 (split; [done|]). destruct (fst <$> fifo_pop ll); [apply Hk'|done].
Qed.
End Operations.
Arguments world : clear implicits.
Arguments sys : clear implicits.

End Semaphore.
