(* ===== verification/RecMutex.v ===== *)
(** The recursive mutex of the newlib interface, [src/src/synch/recmutex.rs].
    As for the semaphore, a round of [acquire] runs under the lock of the
    mutex and is one step of a transition system over all tasks. *)

From S2P Require Import Prelude PrioFifo Tasks HandleQueue Interfaces.

Module RecMutex.

(** [struct RecursiveMutexState] *)
Record state (Q : Type) : Type := mkState {
  current_tid : option Z;
  count : Z; (** [usize] *)
  queue : Q;
}.
Arguments mkState {Q} _ _ _.
Arguments current_tid {Q} _.
Arguments count {Q} _.
Arguments queue {Q} _.

Section Operations.
Context {P Q K : Type} {WQ : WaitQueue P Q} {KC : KernelCalls K}.

Record world : Type := mkWorld { mutex : state Q; pool : P; kern : K }.

Definition set_mutex (x : state Q) (w : world) : world := mkWorld x (pool w) (kern w).
Definition set_pool (x : P) (w : world) : world := mkWorld (mutex w) x (kern w).
Definition set_kern (x : K) (w : world) : world := mkWorld (mutex w) (pool w) x.

Definition on_pool {A} (m : M P A) : M world A := zoom pool set_pool m.
Definition on_kern {A} (m : M K A) : M world A := zoom kern set_kern m.

Definition new : state Q := mkState None 0 wq_new.

(** One round of the loop of [acquire]: [true] when the mutex is ours. *)
Definition acquire_round (tid : Z) : M world bool :=
  let! w := get in
  let m := mutex w in
  match current_tid m with
  | Some owner =>
      if owner =? tid then
        do! modify (set_mutex (mkState (Some owner) (wrapu 64 (count m + 1)) (queue m))) in
        ret true
      else
        do! on_kern (kc_block_current None) in
        let! handle := on_kern kc_current_handle in
        let! q := on_pool (wq_push (queue m) handle) in
        do! modify (set_mutex (mkState (Some owner) (count m) q)) in
        do! on_kern kc_reschedule in
        ret false
  | None =>
      do! modify (set_mutex (mkState (Some tid) 1 (queue m))) in
      ret true
  end.

(** The identifier is read once, before the loop. *)
Definition acquire_start : M world Z := on_kern kc_current_id.

Definition release : M world unit :=
  let! w := get in
  let m := mutex w in
  let count := if 0 <? count m then count m - 1 else count m in
  if 0 <? count then modify (set_mutex (mkState (current_tid m) count (queue m)))
  else
    do! modify (set_mutex (mkState None count (queue m))) in
    let! ' (task, q) := on_pool (wq_pop (queue m)) in
    do! modify (set_mutex (mkState None count q)) in
    match task with
    | None => ret tt
    | Some task => on_kern (kc_wakeup task)
    end.

(** ** The transition system

    [held] lists the acquisitions that have not been released, by task;
    [asleep] are the tasks parked in the queue, [inflight] those the kernel has
    woken in a [release] and that have not run since.  A task that sleeps does
    not run, a woken one is in the loop of [acquire]: its next step is a round.
    Between the steps the kernel does anything else, but nobody else wakes the
    tasks that sleep here. *)
Record sys : Type := mkSys {
  s_world : world; held : list Z; asleep : list TaskHandle.t; inflight : list Z }.

(** Tasks release only what they hold, and nobody nests [2^64] deep. *)
Inductive step : sys -> sys -> Prop :=
  | step_kernel s k :
      (forall h, h ∈ asleep s -> kc_waits (kern (s_world s)) h -> kc_waits k h) ->
      step s (mkSys (set_kern k (s_world s)) (held s) (asleep s) (inflight s))
  | step_acquire s h b w' :
      kc_running (kern (s_world s)) h -> HandleQueue.valid_prio h -> TaskHandle.get_id h ∉ ids (asleep s) ->
      Z.of_nat (length (held s)) < u64_max ->
      acquire_round (TaskHandle.get_id h) (s_world s) = Done b w' ->
      step s (mkSys w' (if b then TaskHandle.get_id h :: held s else held s)
                (if b then asleep s else h :: asleep s)
                (settle (TaskHandle.get_id h) (inflight s)))
  | step_release s h o w' :
      kc_running (kern (s_world s)) h -> TaskHandle.get_id h ∈ held s ->
      TaskHandle.get_id h ∉ ids (asleep s) -> TaskHandle.get_id h ∉ inflight s ->
      release (s_world s) = Done tt w' -> woken_by o (kern (s_world s)) (kern w') ->
      step s (mkSys w' (settle (TaskHandle.get_id h) (held s)) (still_asleep o (asleep s))
                (option_list o ++ inflight s)).

Inductive reachable (p : P) (k : K) : sys -> Prop :=
  | reach_init : reachable p k (mkSys (mkWorld new p k) [] [] [])
  | reach_step s s' : reachable p k s -> step s s' -> reachable p k s'.

(** ** Lemmas *)

Lemma mutex_round_ok m p k h ll :
  kc_running k h -> HandleQueue.valid_prio h -> wq_repr p (queue m) ll ->
  exists b m' p' k', acquire_round (TaskHandle.get_id h) (mkWorld m p k) = Done b (mkWorld m' p' k') /\
    match current_tid m with
    | None => b = true /\ m' = mkState (Some (TaskHandle.get_id h)) 1 (queue m) /\ p' = p /\ k' = k
    | Some owner =>
        if owner =? TaskHandle.get_id h
        then b = true /\ m' = mkState (Some owner) (wrapu 64 (count m + 1)) (queue m) /\ p' = p /\ k' = k
        else b = false /\ current_tid m' = Some owner /\ count m' = count m /\
             wq_repr p' (queue m') (fifo_push ll (Z.to_nat (TaskHandle.get_priority h)) h) /\
             kc_waits k' h /\ (forall h', kc_waits k h' -> kc_waits k' h')
    end.
Proof.
  intros Hrun Hv Hq. unfold acquire_round. erewrite bind_run by reflexivity. cbn [mutex].
  destruct (current_tid m) as [owner|]; [|by eexists _, _, _, _].
  destruct (owner =? TaskHandle.get_id h); [by eexists _, _, _, _|].
  destruct (kc_block_law k h None Hrun I) as (k1 & E1 & Eh & _ & Hw & Hkeep).
  destruct (wq_push_law p (queue m) ll h Hq Hv) as (p' & q' & E & Hq' & _).
  destruct (kc_reschedule_law k1) as (k2 & E2 & Hkeep2).
  eexists false, (mkState (Some owner) (count m) q'), p', k2.
  erewrite bind_run by (apply zoom_run, E1). erewrite bind_run by (apply zoom_run, Eh).
  erewrite bind_run by (apply zoom_run, E). erewrite bind_run by reflexivity.
  erewrite bind_run by (apply zoom_run, E2). split; [done|]. split_and!; eauto.
Qed.

(** [release] with the task it takes out of the queue waiting: it completes;
    giving the mutex up, the kernel has woken exactly that task. *)
Lemma mutex_release_ok m p k me ll :
  wq_repr p (queue m) ll -> kc_running k me ->
  (forall h, fst <$> fifo_pop ll = Some h -> kc_waits k h) ->
  exists m' p' k', release (mkWorld m p k) = Done tt (mkWorld m' p' k') /\
    if 1 <? count m then m' = mkState (current_tid m) (count m - 1) (queue m) /\ p' = p /\ k' = k
    else current_tid m' = None /\ count m' = Z.min (count m) 0 /\
         wq_repr p' (queue m') (from_option snd ll (fifo_pop ll)) /\
         match fst <$> fifo_pop ll with
         | Some h => (forall id, kc_woken id k k' <-> id = TaskHandle.get_id h) /\
                     (forall h', kc_waits k h' -> TaskHandle.get_id h' <> TaskHandle.get_id h -> kc_waits k' h')
         | None => k' = k
         end.
Proof.
  intros Hq Hrun Hw. unfold release. erewrite bind_run by reflexivity. cbn [mutex].
  set (c := if 0 <? count m then count m - 1 else count m).
  assert (Hc : (0 <? c) = (1 <? count m)).
  { subst c. destruct (Z.ltb_spec 0 (count m)), (Z.ltb_spec 1 (count m)); lia. }
  rewrite Hc. destruct (Z.ltb_spec 1 (count m)) as [H1|H1].
  { eexists _, _, _. split; [reflexivity|]. subst c. by rewrite (proj2 (Z.ltb_lt 0 _)) by lia. }
  assert (Hc0 : c = Z.min (count m) 0) by (subst c; destruct (Z.ltb_spec 0 (count m)); lia).
  destruct (wq_pop_law p (queue m) ll Hq) as (p' & q' & E & Hq' & _).
  erewrite bind_run by reflexivity. erewrite bind_run by (apply zoom_run; exact E).
  cbn beta iota. erewrite bind_run by reflexivity.
  destruct (fst <$> fifo_pop ll) as [h|] eqn:Ep.
  - destruct (kc_wakeup_law k h me Hrun (Hw h eq_refl)) as (k' & Ek & Hr' & Hkeep & Hwk).
    eexists _, _, _. split; [unfold on_kern; erewrite zoom_run by (exact Ek); reflexivity|]. done.
  - eexists _, _, _. split; [reflexivity|]. done.
Qed.

(** ** Invariant *)

Record minv (s : sys) : Prop := {
  m_held : forall id, id ∈ held s -> current_tid (mutex (s_world s)) = Some id;
  m_count : count (mutex (s_world s)) = Z.of_nat (length (held s));
  m_free : held s = [] -> current_tid (mutex (s_world s)) = None;
  m_queue : exists ll, sleepers (pool (s_world s)) (queue (mutex (s_world s))) (kern (s_world s)) (asleep s) (inflight s) ll;
  m_awake : asleep s <> [] -> current_tid (mutex (s_world s)) = None -> inflight s <> [];
}.

Lemma minv_acquire s h b w' :
  minv s -> kc_running (kern (s_world s)) h -> HandleQueue.valid_prio h -> TaskHandle.get_id h ∉ ids (asleep s) ->
  Z.of_nat (length (held s)) < u64_max -> acquire_round (TaskHandle.get_id h) (s_world s) = Done b w' ->
  minv (mkSys w' (if b then TaskHandle.get_id h :: held s else held s)
          (if b then asleep s else h :: asleep s) (settle (TaskHandle.get_id h) (inflight s))).
Proof.
  intros [Hh Hc Hf (ll & Hsl) Hw] Hrun Hv Hni Hmax E. destruct s as [[m p k] hd al fl].
  cbn [s_world mutex pool kern held asleep inflight] in *.
  destruct (mutex_round_ok m p k h ll Hrun Hv (sl_repr _ _ _ _ _ _ Hsl)) as (b' & m' & p' & k' & E' & Hm).
  rewrite E in E'. injection E' as <- ->. pose proof (sleepers_settle _ _ _ _ _ _ (TaskHandle.get_id h) Hsl) as Hsl'.
  destruct (current_tid m) as [owner|] eqn:Eo.
  - destruct (Z.eqb_spec owner (TaskHandle.get_id h)) as [Ho|Ho].
    + destruct Hm as (-> & -> & -> & ->). split; cbn; [| |done|by exists ll|done].
      * intros id [->|Hin]%elem_of_cons; [congruence|by apply Hh].
      * rewrite Hc. rewrite wrapu_small; unfold u64_max in Hmax; lia.
    + destruct Hm as (-> & Hcur & Hcnt & Hq' & Hwait & Hkeep). split; cbn.
      * intros id Hin. rewrite Hcur. by apply Hh.
      * by rewrite Hcnt.
      * intros Hnil. by specialize (Hf Hnil).
      * eexists. by apply (sleepers_park p (queue m) k).
      * congruence.
  - destruct Hm as (-> & -> & -> & ->).
    assert (Hnil : hd = []).
    { destruct hd as [|x l]; [done|]. by specialize (Hh x (list_elem_of_here x l)). }
    rewrite Hnil. split; cbn; [|done|done|by exists ll|done]. intros id ->%list_elem_of_singleton. done.
Qed.

Lemma minv_release s h o w' :
  minv s -> kc_running (kern (s_world s)) h -> TaskHandle.get_id h ∈ held s ->
  release (s_world s) = Done tt w' -> woken_by o (kern (s_world s)) (kern w') ->
  minv (mkSys w' (settle (TaskHandle.get_id h) (held s)) (still_asleep o (asleep s)) (option_list o ++ inflight s)).
Proof.
  intros [Hh Hc Hf (ll & Hsl) Hw] Hrun Hin E Ho. destruct s as [[m p k] hd al fl].
  cbn [s_world mutex pool kern held asleep inflight] in *. set (id := TaskHandle.get_id h) in *.
  destruct (mutex_release_ok m p k h ll (sl_repr _ _ _ _ _ _ Hsl) Hrun (fun x => front_waits _ _ _ _ _ _ x Hsl))
    as (m' & p' & k' & E' & Hm). rewrite E in E'. injection E' as ->. cbn [kern] in Ho.
  destruct (settle_mid id hd Hin) as (l1 & l2 & Hl & Hs). pose proof (Hh id Hin) as Hcur. rewrite Hs.
  assert (Hlen : length hd = S (length (l1 ++ l2))) by (rewrite Hl, !length_app; cbn; lia).
  assert (Hnone : k' = k -> o = None).
  { intros ->. destruct o as [x|]; [by destruct (kc_woken_change x k Ho)|done]. }
  destruct (Z.ltb_spec 1 (count m)) as [H1|H1].
  - destruct Hm as (-> & -> & ->). rewrite (Hnone eq_refl). split; cbn; [| | |by exists ll|congruence].
    + intros x Hx. apply Hh. rewrite Hl. revert Hx. rewrite !elem_of_app, elem_of_cons. tauto.
    + rewrite Hc, Hlen. lia.
    + intros Hnil. rewrite Hnil in Hlen. cbn in Hlen. lia.
  - destruct Hm as (Hct & Hcnt & Hq' & Hk').
    assert (Hnil : l1 ++ l2 = []) by (apply nil_length_inv; lia). rewrite Hnil.
    pose proof (sleepers_empty _ _ _ _ _ _ Hsl) as Hempty.
    assert (Hrest : (exists ll', sleepers p' (queue m') k' (still_asleep o al) (option_list o ++ fl) ll') /\
              (still_asleep o al <> [] -> option_list o ++ fl <> [])).
    { destruct (fifo_pop ll) as [[x ll']|] eqn:Ef; cbn in Hq', Hk'.
      - destruct Hk' as [Hwk Hkeep].
        assert (Hoo : o = Some (TaskHandle.get_id x)).
        { destruct o as [y|]; [by rewrite (proj1 (Hwk y) Ho)|]. by destruct (Ho (TaskHandle.get_id x)); apply Hwk. }
        subst o. split; [|done]. exists ll'. by eapply (sleepers_pop p (queue m) k).
      - subst k'. rewrite (Hnone eq_refl), (proj2 Hempty eq_refl) in *. split; [|done]. exists ll. destruct Hsl. by split. }
    destruct Hrest as [Hsl' Haw]. split; cbn; [|by rewrite Hcnt, Hc, Hlen, Hnil|done|exact Hsl'|auto].
    intros x Hx. by apply not_elem_of_nil in Hx.
Qed.

Lemma minv_reachable p k ll0 s :
  wq_repr p wq_new ll0 -> top ll0 = None -> reachable p k s -> minv s.
Proof.
  intros Hq Ht Hr. induction Hr as [|s s' Hr IH Hst].
  - split; cbn; try done; [intros id Hin; by apply not_elem_of_nil in Hin|]. exists ll0. by apply sleepers_none.
  - destruct Hst as [s k' Hk|s h b w' Hrun Hv Hni Hmax E|s h o w' Hrun Hin Hni Hnf E Ho];
      [|by eapply minv_acquire|by eapply minv_release].
    destruct IH as [Hh Hc Hf (ll & Hsl) Hw]. split; try done. exists ll. by eapply sleepers_kern.
Qed.

(** ** Properties *)

End Operations.
Arguments world : clear implicits.
Arguments sys : clear implicits.

End RecMutex.
