(* ===== verification/Futex.v ===== *)
(** Futexes, [src/src/synch/futex.rs]: the parking lot (one queue of waiters
    per address), waiting with the value check and the timeout, waking.

    [futex_wait] has a part under the lock of the parking lot that checks the
    futex and parks the task, and a loop whose rounds follow each time the
    task runs again; both are atomic steps. *)

From S2P Require Import Prelude PrioFifo Tasks Errors HandleQueue Interfaces.

Module Futex.

(** [Flags::RELATIVE] *)
Definition RELATIVE : Z := 1.

(** What [futex_wait] has done under the first lock: answered, or parked the
    task until the given time, in the queue under the given handle. *)
Inductive entered : Type :=
  | Answered (r : Z)
  | Waiting (wakeup_time : option Z) (handle : TaskHandle.t).

Section Operations.
Context {P Q K : Type} {WQ : WaitQueue P Q} {KC : KernelCalls K}.

(** [PARKING_LOT], the shared state of its queues, the memory that holds the
    futexes ([AtomicU32]), the kernel. *)
Record world : Type := mkWorld {
  lot : gmap Z Q;
  pool : P;
  mem : Z -> Z;
  kern : K;
}.

Definition set_lot (x : gmap Z Q) (w : world) : world := mkWorld x (pool w) (mem w) (kern w).
Definition set_pool (x : P) (w : world) : world := mkWorld (lot w) x (mem w) (kern w).
Definition set_kern (x : K) (w : world) : world := mkWorld (lot w) (pool w) (mem w) x.
Definition store (a v : Z) (w : world) : world :=
  mkWorld (lot w) (pool w) (fun x => if x =? a then v else mem w x) (kern w).

Definition on_pool {A} (m : M P A) : M world A := zoom pool set_pool m.
Definition on_kern {A} (m : M K A) : M world A := zoom kern set_kern m.

Definition wakeup_time (timeout : option Z) (flags : Z) (now : Z) : option Z :=
  if Z.land flags RELATIVE =? RELATIVE then t ← timeout; checked_u64 (now + t) else timeout.

(** The part of [futex_wait] and [futex_wait_and_set] after the value check:
    block, then queue the handle under the address. *)
Definition park (address : Z) (timeout : option Z) (flags : Z) : M world entered :=
  let! w := get in
  let wt := wakeup_time timeout flags (kc_now (kern w)) in
  do! on_kern (kc_block_current wt) in
  let! handle := on_kern kc_current_handle in
  let! q := on_pool (wq_push (default wq_new (lot w !! address)) handle) in
  do! modify (fun w => set_lot (<[address := q]> (lot w)) w) in
  ret (Waiting wt handle).

Definition futex_wait_enter (address expected : Z) (timeout : option Z) (flags : Z) : M world entered :=
  let! w := get in
  if negb (mem w address =? expected) then ret (Answered (neg_errno Errno.Again))
  else park address timeout flags.

Definition futex_wait_and_set_enter (address expected : Z) (timeout : option Z) (flags : Z)
    (new_value : Z) : M world entered :=
  let! w := get in
  do! modify (store address new_value) in
  if negb (mem w address =? expected) then ret (Answered (neg_errno Errno.Again))
  else park address timeout flags.

(** A round of the loop of [futex_wait] after [reschedule]: an answer, or
    [None] when the task sleeps again. *)
Definition futex_wait_round (address : Z) (wt : option Z) (handle : TaskHandle.t)
    : M world (option Z) :=
  let! w := get in
  if from_option (fun t => t <=? kc_now (kern w)) false wt then
    let! wakeup :=
      match lot w !! address with
      | None => ret true
      | Some q =>
          let! ' (removed, q) := on_pool (wq_remove q handle) in
          let! ' (empty, q) := on_pool (wq_is_empty q) in
          do! modify (fun w => set_lot (if empty : bool then delete address (lot w)
                                        else <[address := q]> (lot w)) w) in
          ret (negb removed)
      end in
    ret (Some (if wakeup : bool then 0 else neg_errno Errno.Timedout))
  else
    let! waiting :=
      match lot w !! address with
      | None => ret false
      | Some q => on_pool (wq_contains q handle)
      end in
    if waiting : bool then do! on_kern (kc_block_current wt) in ret None
    else ret (Some 0).

(** The loop of [futex_wake]; the queue has [wq_length] waiters, one more
    round finds it empty. *)
Fixpoint wake_loop (fuel : nat) (q : Q) (count woken : Z) : M world (Z * Q) :=
  match fuel with
  | O => panic "futex_wake: the loop did not end"
  | S fuel =>
      if negb (woken =? count) || (count =? i32_max) then
        let! ' (o, q) := on_pool (wq_pop q) in
        match o with
        | Some handle =>
            do! on_kern (kc_wakeup handle) in
            wake_loop fuel q count (sat_add i32_max woken 1)
        | None => ret (woken, q)
        end
      else ret (woken, q)
  end.

(** Waking the waiters of an occupied entry. *)
Definition wake_entry (address : Z) (q : Q) (count : Z) : M world Z :=
  let! ' (woken, q) := wake_loop (S (wq_length q)) q count 0 in
  let! ' (empty, q) := on_pool (wq_is_empty q) in
  do! modify (fun w => set_lot (if empty : bool then delete address (lot w)
                                else <[address := q]> (lot w)) w) in
  ret woken.

Definition futex_wake (address count : Z) : M world Z :=
  if count <? 0 then ret (neg_errno Errno.Inval)
  else
    let! w := get in
    match lot w !! address with
    | None => ret 0
    | Some q => wake_entry address q count
    end.

Definition futex_wake_or_set (address count new_value : Z) : M world Z :=
  if count <? 0 then ret (neg_errno Errno.Inval)
  else
    let! w := get in
    match lot w !! address with
    | None => do! modify (store address new_value) in ret 0
    | Some q =>
        let! woken := wake_entry address q count in
        do! (if woken =? 0 then modify (store address new_value) else ret tt) in
        ret woken
    end.

(** ** Abstract view *)

(** Popping [n] waiters: who is woken, in order, and who stays. *)
Fixpoint drain (n : nat) (ll : list (list TaskHandle.t))
    : list TaskHandle.t * list (list TaskHandle.t) :=
  match n with
  | O => ([], ll)
  | S n =>
      match fifo_pop ll with
      | None => ([], ll)
      | Some (h, ll) => let '(hs, ll) := drain n ll in (h :: hs, ll)
      end
  end.

(** Every address with waiters has a queue of its own, and no queue is empty. *)
Definition lot_ok (w : world) (waiters : gmap Z (list (list TaskHandle.t))) : Prop :=
  (forall a, is_Some (lot w !! a) <-> is_Some (waiters !! a)) /\
  (forall a q ll, lot w !! a = Some q -> waiters !! a = Some ll ->
     wq_repr (pool w) q ll /\ wq_cell q <> 0%nat /\ top ll <> None) /\
  (forall a b q q', lot w !! a = Some q -> lot w !! b = Some q' -> a <> b -> wq_cell q <> wq_cell q').

(** ** Lemmas *)

Lemma wq_frame_trans (p1 p2 p3 : P) (q1 q2 q3 : Q) :
  wq_frame p1 q1 p2 q2 -> wq_frame p2 q2 p3 q3 -> wq_frame p1 q1 p3 q3.
Proof.
  intros [Hc1 H1] [Hc2 H2]. split; [auto|]. intros q ll Hq Hne Hr.
  destruct (H1 q ll Hq Hne Hr) as [Hr' Hne']. by apply H2.
Qed.

Lemma drain_None n ll : fifo_pop ll = None -> drain n ll = ([], ll).
Proof. intros E. destruct n; [done|]. cbn. by rewrite E. Qed.

Lemma drain_length n ll : length (drain n ll).1 = Nat.min n (length (concat ll)).
Proof.
  revert ll. induction n as [|n IH]; intros ll; [done|]. cbn.
  destruct (fifo_pop ll) as [[h ll']|] eqn:E.
  - destruct (drain n ll') as [hs ll''] eqn:Ed. cbn. specialize (IH ll'). rewrite Ed in IH. cbn in IH.
    rewrite IH, (fifo_pop_Permutation _ _ _ E). done.
  - cbn. rewrite fifo_pop_None in E. destruct (concat ll) as [|x l] eqn:Ec; [done|]. exfalso.
    assert (Hx : x ∈ concat ll) by (rewrite Ec; by left).
    apply elem_of_concat_lookup in Hx as (i & l' & Hi & Hin). specialize (E i). unfold nonempty_at in E.
    rewrite Hi in E. destruct l'; [by apply not_elem_of_nil in Hin|done].
Qed.

(** The tasks of a queue can be woken one after the other. *)
Definition wakeable (k : K) (hs : list TaskHandle.t) : Prop :=
  NoDup (map TaskHandle.get_id hs) /\ forall h, h ∈ hs -> kc_waits k h.

Lemma wakeable_Permutation k hs hs' : hs ≡ₚ hs' -> wakeable k hs -> wakeable k hs'.
Proof.
  intros Hp [Hn Hw]. split.
  - by rewrite <- (Permutation_map TaskHandle.get_id Hp).
  - intros h Hh. apply Hw. by rewrite Hp.
Qed.

Lemma wakeable_tail k k' h hs :
  wakeable k (h :: hs) ->
  (forall h', kc_waits k h' -> TaskHandle.get_id h' <> TaskHandle.get_id h -> kc_waits k' h') ->
  wakeable k' hs.
Proof.
  intros [Hn Hw] Hk. cbn in Hn. split; [by apply NoDup_cons_1_2 in Hn|].
  apply NoDup_cons_1_1 in Hn. intros x Hx. apply Hk; [apply Hw; by right|].
  intros Heq. apply Hn. rewrite <- Heq. apply list_elem_of_In, in_map. by apply list_elem_of_In.
Qed.

(** How many waiters the loop of [futex_wake] takes. *)
Definition quota (count woken : Z) (ll : list (list TaskHandle.t)) : nat :=
  if count =? i32_max then length (concat ll) else Z.to_nat (count - woken).

Lemma wake_loop_ok fuel q count woken w ll me :
  wq_repr (pool w) q ll -> kc_running (kern w) me -> wakeable (kern w) (concat ll) ->
  0 <= woken <= count -> count <= i32_max -> (length (concat ll) < fuel)%nat ->
  let '(hs, ll') := drain (quota count woken ll) ll in
  exists q' p' k', wake_loop fuel q count woken w =
      Done (Z.min i32_max (woken + Z.of_nat (length hs)), q') (mkWorld (lot w) p' (mem w) k') /\
    wq_repr p' q' ll' /\ wq_frame (pool w) q p' q' /\ kc_running k' me.
Proof.
  revert q woken w ll. induction fuel as [|fuel IH]; intros q woken w ll Hq Hrun Hwk Hw Hc Hf; [lia|].
  cbn [wake_loop]. destruct (negb (woken =? count) || (count =? i32_max)) eqn:Econd.
  - destruct (wq_pop_law _ _ _ Hq) as (p1 & q1 & E1 & Hq1 & Hf1).
    erewrite bind_run by (apply zoom_run; exact E1).
    destruct (fifo_pop ll) as [[h ll1]|] eqn:Ef; cbn [fmap option_fmap option_map fst from_option snd] in *.
    + pose proof (fifo_pop_Permutation _ _ _ Ef) as Hperm.
      assert (Hlen : length (concat ll) = S (length (concat ll1))) by (by rewrite Hperm).
      pose proof (wakeable_Permutation _ _ _ Hperm Hwk) as Hwk1.
      destruct (kc_wakeup_law (kern w) h me Hrun) as (k1 & Ek & Hrun1 & Hkeep & _); [apply Hwk1; by left|].
      erewrite bind_run by (apply zoom_run; exact Ek).
      set (w1 := set_kern k1 (set_pool p1 w)).
      specialize (IH q1 (sat_add i32_max woken 1) w1 ll1 Hq1 Hrun1 (wakeable_tail _ _ _ _ Hwk1 Hkeep)).
      assert (Hquota : quota count woken ll = S (quota count (sat_add i32_max woken 1) ll1)).
      { unfold quota. destruct (Z.eqb_spec count i32_max); [done|].
        destruct (Z.eqb_spec woken count); [done|]. unfold sat_add. lia. }
      rewrite Hquota. cbn [drain]. rewrite Ef.
      destruct (drain (quota count (sat_add i32_max woken 1) ll1) ll1) as [hs ll'].
      destruct IH as (q' & p' & k' & E & Hq' & Hf' & Hrun'); [|lia|lia|].
      { unfold sat_add. destruct (Z.eqb_spec count i32_max), (Z.eqb_spec woken count); cbn in Econd; lia. }
      exists q', p', k'. split_and!; [|done| |done].
      * etransitivity; [exact E|]. do 2 f_equal. cbn [length]. unfold sat_add. lia.
      * by eapply wq_frame_trans.
    + rewrite drain_None by done. cbn. exists q1, p1, (kern w). split_and!; try done.
      unfold ret. do 2 f_equal. lia.
  - apply orb_false_iff in Econd as [->%negb_false_iff%Z.eqb_eq Hm].
    unfold quota. rewrite Hm, Z.sub_diag. cbn [Z.to_nat drain length]. exists q, (pool w), (kern w). split_and!; try done.
    unfold ret. destruct w. do 2 f_equal. cbn. lia.
Qed.

(** Storing the queue of [a] back, or dropping it when it is empty. *)
Definition settle_entry (a : Z) (q : Q) (ll : list (list TaskHandle.t)) (l : gmap Z Q) : gmap Z Q :=
  match top ll with None => delete a l | Some _ => <[a := q]> l end.
Definition settle_waiters (a : Z) (ll : list (list TaskHandle.t))
    (waiters : gmap Z (list (list TaskHandle.t))) : gmap Z (list (list TaskHandle.t)) :=
  match top ll with None => delete a waiters | Some _ => <[a := ll]> waiters end.

Lemma lot_ok_settle w waiters a q p' q' ll' m k :
  lot_ok w waiters -> q = default wq_new (lot w !! a) ->
  wq_frame (pool w) q p' q' -> wq_repr p' q' ll' -> (top ll' <> None -> wq_cell q' <> 0%nat) ->
  lot_ok (mkWorld (settle_entry a q' ll' (lot w)) p' m k) (settle_waiters a ll' waiters).
Proof.
  intros (Hdom & Hq & Hapart) -> [_ Hf] Hr' Hcell.
  assert (Hother : forall b qb, b <> a -> lot w !! b = Some qb ->
            exists ll, waiters !! b = Some ll /\ wq_repr p' qb ll /\ wq_cell qb <> 0%nat /\
              top ll <> None /\ wq_cell qb <> wq_cell q').
  { intros b qb Hb Hqb. destruct (proj1 (Hdom b) ltac:(eauto)) as [ll Hll]. exists ll.
    destruct (Hq b qb ll Hqb Hll) as (Hr & Hc & Ht).
    destruct (Hf qb ll Hc) as [Hr2 Hne]; [|done|done].
    destruct (lot w !! a) as [qa|] eqn:Ea; cbn; [by apply (Hapart b a)|by rewrite wq_new_cell]. }
  unfold settle_entry, settle_waiters. destruct (top ll') as [i|] eqn:Et; cbn.
  - split_and!; cbn.
    + intros b. destruct (decide (b = a)) as [->|Hb]; [rewrite !lookup_insert_eq; split; by eexists|].
      rewrite !lookup_insert_ne by done. apply Hdom.
    + intros b qb ll. destruct (decide (b = a)) as [->|Hb].
      * rewrite !lookup_insert_eq. intros [= <-] [= <-]. split_and!; [done|by apply Hcell|congruence].
      * rewrite !lookup_insert_ne by done. intros Hqb Hll.
        destruct (Hother b qb Hb Hqb) as (ll2 & Hll2 & ? & ? & ? & _).
        by replace ll with ll2 by congruence.
    + intros b c qb qc. destruct (decide (b = a)) as [->|Hb], (decide (c = a)) as [->|Hc];
        rewrite ?lookup_insert_eq, ?lookup_insert_ne by done; try done.
      * intros [= <-] Hqc _ Heq. destruct (Hother c qc Hc Hqc) as (? & ? & ? & ? & ? & ?). congruence.
      * intros Hqb [= <-] _. by destruct (Hother b qb Hb Hqb) as (? & ? & ? & ? & ? & ?).
      * apply Hapart.
  - split_and!; cbn.
    + intros b. destruct (decide (b = a)) as [->|Hb]; [rewrite !lookup_delete_eq; split; by intros []|].
      rewrite !lookup_delete_ne by done. apply Hdom.
    + intros b qb ll [Hb Hqb]%lookup_delete_Some [_ Hll]%lookup_delete_Some.
      destruct (Hother b qb ltac:(done) Hqb) as (ll2 & Hll2 & ? & ? & ? & _).
        by replace ll with ll2 by congruence.
    + intros b c qb qc [_ Hqb]%lookup_delete_Some [_ Hqc]%lookup_delete_Some. by apply Hapart.
Qed.

Lemma wake_entry_ok w waiters a q ll count me :
  lot_ok w waiters -> lot w !! a = Some q -> waiters !! a = Some ll ->
  kc_running (kern w) me -> wakeable (kern w) (concat ll) -> 0 <= count <= i32_max ->
  let '(hs, ll') := drain (quota count 0 ll) ll in
  exists w', wake_entry a q count w = Done (Z.min i32_max (Z.of_nat (length hs))) w' /\
    lot_ok w' (settle_waiters a ll' waiters) /\ mem w' = mem w /\ kc_running (kern w') me.
Proof.
  intros Hok Hq Hll Hrun Hwk Hc. destruct (proj1 (proj2 Hok) a q ll Hq Hll) as (Hr & Hcell & _).
  pose proof (wake_loop_ok (S (wq_length q)) q count 0 w ll me Hr Hrun Hwk ltac:(lia) ltac:(lia)) as Hl.
  rewrite (wq_length_law _ _ _ Hr) in Hl. specialize (Hl ltac:(lia)).
  rewrite <- (wq_length_law _ _ _ Hr) in Hl.
  destruct (drain (quota count 0 ll) ll) as [hs ll'].
  destruct Hl as (q1 & p1 & k1 & E1 & Hr1 & Hf1 & Hrun1).
  destruct (wq_is_empty_law _ _ _ Hr1) as (p2 & q2 & E2 & Hr2 & Hf2).
  eexists. split; [|split; [eapply (lot_ok_settle w waiters a q p2 q2 ll')|split]].
  - unfold wake_entry. erewrite bind_run by (exact E1). cbn beta iota.
    erewrite bind_run by (apply zoom_run; exact E2). cbn beta iota.
    erewrite bind_run by reflexivity. unfold settle_entry. by destruct (top ll').
  - done.
  - by rewrite Hq.
  - by eapply wq_frame_trans.
  - done.
  - intros _. by apply Hf2, Hf1.
  - done.
  - done.
Qed.

(** ** Properties *)

(** [futex_wake] on an address takes the longest waiting tasks of the
    highest priorities, at most [count] of them and all for [i32::MAX], wakes
    each of them, answers how many they were, and keeps the parking lot in
    order (an entry without waiters is dropped, other addresses are not
    touched); a negative count is refused and changes nothing. *)
Theorem futex_wake_exact w waiters a count me :
  lot_ok w waiters -> kc_running (kern w) me -> - 2 ^ 31 <= count <= i32_max ->
  (forall ll, waiters !! a = Some ll -> wakeable (kern w) (concat ll)) ->
  if count <? 0 then futex_wake a count w = Done (neg_errno Errno.Inval) w
  else
    let ll := default [] (waiters !! a) in
    let total := length (concat ll) in
    let '(hs, ll') := drain (quota count 0 ll) ll in
    length hs = (if (count =? i32_max) then total else Nat.min (Z.to_nat count) total) /\
    exists w', futex_wake a count w = Done (Z.min count (Z.of_nat total)) w' /\
      lot_ok w' (settle_waiters a ll' waiters) /\ mem w' = mem w /\ kc_running (kern w') me.
Proof.
  intros Hok Hrun Hc Hwk. pose proof (proj1 Hok a) as Hdom.
  unfold futex_wake. destruct (Z.ltb_spec count 0) as [Hneg|Hpos]; [done|].
  erewrite bind_run by reflexivity. destruct (lot w !! a) as [q|] eqn:Eq.
  - destruct (proj1 Hdom ltac:(eauto)) as [ll Hll]. rewrite Hll. cbn [from_option id].
    pose proof (wake_entry_ok w waiters a q ll count me Hok Eq Hll Hrun (Hwk ll Hll) ltac:(lia)) as Hw.
    pose proof (drain_length (quota count 0 ll) ll) as Hlen.
    destruct (drain (quota count 0 ll) ll) as [hs ll']. cbn in Hlen.
    destruct Hw as (w' & E & Hw'). unfold quota in Hlen. split.
    { destruct (count =? i32_max); lia. }
    exists w'. split; [|done]. rewrite E. f_equal. destruct (Z.eqb_spec count i32_max); lia.
  - destruct (waiters !! a) as [ll|] eqn:Ell.
    { destruct (proj2 Hdom ltac:(eauto)). congruence. }
    cbn. rewrite drain_None by done. cbn. split; [by destruct (count =? i32_max); lia|].
    exists w. split_and!; [f_equal; lia| |done|done].
    unfold settle_waiters. cbn. by rewrite delete_id.
Qed.

Lemma without_absent id l :
  existsb (fun x => TaskHandle.get_id x =? id) l = false -> HandleQueue.without id l = l.
Proof.
  induction l as [|x l IH]; [done|]. cbn. intros [Hx Hl]%orb_false_iff. rewrite Hx. cbn. f_equal. by apply IH.
Qed.

(** The waiters of an address with [h] added. *)
Definition joined (h : TaskHandle.t) (ll : list (list TaskHandle.t)) : list (list TaskHandle.t) :=
  fifo_push ll (Z.to_nat (TaskHandle.get_priority h)) h.

Lemma top_joined h ll :
  length ll = NO_PRIORITIES -> HandleQueue.valid_prio h -> top (joined h ll) <> None.
Proof.
  intros Hl Hv%HandleQueue.prio_index Ht.
  pose proof (fifo_push_Permutation ll (Z.to_nat (TaskHandle.get_priority h)) h ltac:(lia)) as Hp.
  fold (joined h ll) in Hp.
  assert (Hin : h ∈ concat (joined h ll)) by (rewrite Hp; by left).
  apply elem_of_concat_lookup in Hin as (i & l & Hi & Hin). rewrite top_None in Ht. specialize (Ht i).
  unfold nonempty_at in Ht. rewrite Hi in Ht. destruct l; [by apply not_elem_of_nil in Hin|done].
Qed.

Lemma park_ok w waiters a timeout flags h :
  lot_ok w waiters -> kc_running (kern w) h -> HandleQueue.valid_prio h ->
  let wt := wakeup_time timeout flags (kc_now (kern w)) in
  from_option (fun t => 0 <= t < u64_max) True wt ->
  (waiters !! a = None -> wq_repr (pool w) wq_new no_waiters) ->
  exists w', park a timeout flags w = Done (Waiting wt h) w' /\
    lot_ok w' (<[a := joined h (default no_waiters (waiters !! a))]> waiters) /\
    kc_waits (kern w') h /\ mem w' = mem w.
Proof.
  intros Hok Hrun Hv wt Hwt Hnew. pose proof (proj1 Hok a) as Hdom.
  set (q := default wq_new (lot w !! a)). set (ll := default no_waiters (waiters !! a)).
  assert (Hq : wq_repr (pool w) q ll).
  { subst q ll. destruct (lot w !! a) as [q|] eqn:Eq.
    - destruct (proj1 Hdom ltac:(eauto)) as [ll Hll]. rewrite Hll. cbn.
      by apply (proj1 (proj2 Hok) a).
    - destruct (waiters !! a) as [ll|] eqn:El; [|by apply Hnew].
      destruct (proj2 Hdom ltac:(eauto)). congruence. }
  destruct (kc_block_law _ _ _ Hrun Hwt) as (k1 & Ek & Eh & _ & Hw & _).
  destruct (wq_push_law _ _ _ _ Hq Hv) as (p' & q' & E & Hq' & Hf & Hc).
  pose proof (top_joined h ll (wq_repr_length _ _ _ Hq) Hv) as Ht. fold (joined h ll) in Hq'.
  pose proof (lot_ok_settle w waiters a q p' q' (joined h ll) (mem w) k1 Hok eq_refl Hf Hq' (fun _ => Hc)) as Hok'.
  unfold settle_entry, settle_waiters in Hok'.
  destruct (top (joined h ll)) as [i|]; [|done].
  eexists. split; [|split; [exact Hok'|done]].
  unfold park. erewrite bind_run by reflexivity. erewrite bind_run by (apply zoom_run; exact Ek).
  erewrite bind_run by (apply zoom_run; exact Eh). fold q.
  erewrite bind_run by (apply zoom_run; exact E). done.
Qed.

(** [futex_wait] checks the futex and parks in one step: when the value
    is not the expected one it answers EAGAIN and nothing changes; otherwise
    the task is blocked until its deadline and is the last waiter of its
    priority at that address, so no [futex_wake] after the check can miss it. *)
Theorem futex_wait_parks w waiters a expected timeout flags h :
  lot_ok w waiters -> kc_running (kern w) h -> HandleQueue.valid_prio h ->
  let wt := wakeup_time timeout flags (kc_now (kern w)) in
  from_option (fun t => 0 <= t < u64_max) True wt ->
  (waiters !! a = None -> wq_repr (pool w) wq_new no_waiters) ->
  if mem w a =? expected then
    exists w', futex_wait_enter a expected timeout flags w = Done (Waiting wt h) w' /\
      lot_ok w' (<[a := joined h (default no_waiters (waiters !! a))]> waiters) /\
      kc_waits (kern w') h /\ mem w' = mem w
  else futex_wait_enter a expected timeout flags w = Done (Answered (neg_errno Errno.Again)) w.
Proof.
  intros Hok Hrun Hv wt Hwt Hnew. unfold futex_wait_enter. erewrite bind_run by reflexivity.
  destruct (mem w a =? expected); cbn [negb]; [|done]. by apply park_ok.
Qed.

(** what a waiter finds when it runs again: no longer queued, it was woken
    and answers 0, also when its deadline has passed meanwhile; still queued
    after the deadline, it leaves the queue and answers ETIMEDOUT; still queued
    before the deadline, it sleeps again. *)
Theorem futex_wait_answers w waiters a wt h :
  lot_ok w waiters -> kc_running (kern w) h -> HandleQueue.valid_prio h ->
  from_option (fun t => 0 <= t < u64_max) True wt ->
  let elapsed := from_option (fun t => t <=? kc_now (kern w)) false wt in
  let i := Z.to_nat (TaskHandle.get_priority h) in
  let mine := default no_waiters (waiters !! a) !!! i in
  let queued := existsb (fun x => TaskHandle.get_id x =? TaskHandle.get_id h) mine in
  exists w', futex_wait_round a wt h w =
      Done (match queued, elapsed with
            | false, _ => Some 0
            | true, true => Some (neg_errno Errno.Timedout)
            | true, false => None
            end) w' /\
    (queued = false -> lot_ok w' waiters) /\
    (queued = true -> elapsed = true -> exists ll, waiters !! a = Some ll /\
       lot_ok w' (settle_waiters a (<[i := HandleQueue.without (TaskHandle.get_id h) mine]> ll) waiters)) /\
    (queued = true -> elapsed = false -> lot_ok w' waiters /\ kc_waits (kern w') h).
Proof.
  intros Hok Hrun Hv Hwt elapsed i mine queued. pose proof (proj1 Hok a) as Hdom.
  unfold futex_wait_round. erewrite bind_run by reflexivity. fold elapsed.
  destruct (lot w !! a) as [q|] eqn:Eq.
  - destruct (proj1 Hdom ltac:(eauto)) as [ll Hll].
    assert (Hmine : mine = ll !!! i) by (subst mine; by rewrite Hll).
    destruct (proj1 (proj2 Hok) a q ll Eq Hll) as (Hr & Hc & Ht). destruct elapsed eqn:Eel.
    + destruct (wq_remove_law _ _ _ _ Hr Hv) as (p1 & q1 & E1 & Hr1 & Hf1).
      fold i in E1, Hr1. rewrite <- Hmine in E1, Hr1. fold queued in E1.
      destruct (wq_is_empty_law _ _ _ Hr1) as (p2 & q2 & E2 & Hr2 & Hf2).
      set (ll' := <[i := HandleQueue.without (TaskHandle.get_id h) mine]> ll) in *.
      pose proof (lot_ok_settle w waiters a q p2 q2 ll' (mem w) (kern w) Hok ltac:(by rewrite Eq)
                    (wq_frame_trans _ _ _ _ _ _ Hf1 Hf2) Hr2 (fun _ => proj1 Hf2 (proj1 Hf1 Hc))) as Hok'.
      exists (mkWorld (settle_entry a q2 ll' (lot w)) p2 (mem w) (kern w)). split.
      { erewrite bind_run.
        2: { erewrite bind_run by (apply zoom_run; exact E1). cbn beta iota.
             erewrite bind_run by (apply zoom_run; exact E2). cbn beta iota.
             erewrite bind_run by reflexivity. reflexivity. }
        unfold ret, settle_entry. cbn. by destruct queued, (top ll'). }
      split; [|split; [by eauto|done]].
      intros Hno. assert (Hll' : ll' = ll).
      { subst ll'. rewrite without_absent by exact Hno. rewrite Hmine.
        apply list_insert_id'. intros Hi. by apply list_lookup_lookup_total_lt. }
      rewrite Hll' in Hok'. unfold settle_waiters in Hok'. rewrite Hll'.
      destruct (top ll); [|done]. by rewrite insert_id in Hok'.
    + pose proof (wq_contains_law _ _ _ _ Hr Hv) as Ec. fold i in Ec. rewrite <- Hmine in Ec.
      fold queued in Ec. erewrite bind_run by (apply zoom_run; exact Ec).
      destruct queued.
      * destruct (kc_block_law _ _ _ Hrun Hwt) as (k1 & Ek & _ & _ & Hw & _).
        exists (set_kern k1 w). split; [|done]. destruct w as [l0 p0 m0 k0].
        erewrite bind_run by (apply zoom_run; exact Ek). done.
      * exists w. split; [by destruct w|done].
  - assert (Hnone : waiters !! a = None).
    { destruct (waiters !! a) eqn:El; [|done]. destruct (proj2 Hdom ltac:(eauto)). congruence. }
    assert (Hq : queued = false).
    { subst queued mine. rewrite Hnone. cbn [from_option id]. unfold no_waiters.
      pose proof (HandleQueue.prio_index h Hv). by rewrite lookup_total_replicate_2. }
    rewrite Hq. exists w. split; [by destruct elapsed|done].
Qed.
End Operations.
Arguments world : clear implicits.

(** ** The futexes on the pool of bitmaps *)

Section Leak.
Context {K : Type} {KC : KernelCalls K}.
Implicit Types w : world Pool HandleQueue.t K.

(** One task waits at an address nobody else waits at and is woken again: the
    pool has lost a bitmap. *)
Lemma wait_wake_cycle w a h :
  HandleQueue.pool_ok (pool w) -> (NEXT_BITMAP_ID (pool w) < MAX_BITMAP_POOL)%nat ->
  lot w !! a = None -> kc_running (kern w) h -> HandleQueue.valid_prio h ->
  exists w1, futex_wait_enter a (mem w a) None 0 w = Done (Waiting None h) w1 /\
    kc_waits (kern w1) h /\
    forall k2 me, kc_running k2 me -> kc_waits k2 h ->
      exists w2, futex_wake a 1 (set_kern k2 w1) = Done 1 w2 /\ lot w2 = lot w /\
        HandleQueue.pool_ok (pool w2) /\ NEXT_BITMAP_ID (pool w2) = S (NEXT_BITMAP_ID (pool w)).
Proof.
  intros Hp Hn Ha Hrun Hv. destruct (new_queue_repr (pool w) Hp Hn) as [Hr Hu].
  destruct (HandleQueue.handle_push_ok _ _ _ h Hr Hu Hv) as (p1 & q1 & E1 & Hr1 & Ho1 & Hk1).
  destruct (kc_block_law _ _ None Hrun I) as (k1 & Ek & Eh & _ & Hw & _).
  eexists. split; [|split].
  { unfold futex_wait_enter. erewrite bind_run by reflexivity. rewrite Z.eqb_refl. cbn [negb].
    unfold park. erewrite bind_run by reflexivity. erewrite bind_run by (apply zoom_run; exact Ek).
    erewrite bind_run by (apply zoom_run; exact Eh). rewrite Ha.
    erewrite bind_run by (apply zoom_run; exact E1). erewrite bind_run by reflexivity. reflexivity. }
  { exact Hw. }
  intros k2 me Hrun2 Hw2. set (ll := fifo_push no_waiters (Z.to_nat (TaskHandle.get_priority h)) h) in *.
  pose proof (fifo_push_Permutation no_waiters _ h (HandleQueue.prio_index h Hv)) as Hperm. fold ll in Hperm.
  change (concat no_waiters) with (@nil TaskHandle.t) in Hperm. symmetry in Hperm.
  apply Permutation_length_1_inv in Hperm.
  destruct (fifo_pop ll) as [[x ll1]|] eqn:Ef.
  2: { exfalso. rewrite fifo_pop_None, <- top_None in Ef. by apply (top_joined h no_waiters) in Ef. }
  pose proof (fifo_pop_Permutation _ _ _ Ef) as Hp2. rewrite Hperm in Hp2.
  apply Permutation_length_1_inv in Hp2. injection Hp2 as -> Hnil.
  assert (Hu1 : HandleQueue.can_use p1 q1) by (left; destruct Ho1; lia).
  destruct (HandleQueue.handle_pop_ok _ _ _ Hr1 Hu1) as (p2 & q2 & E2 & Hr2 & Hk2). rewrite Ef in E2, Hr2.
  cbn [from_option snd fmap option_fmap option_map fst] in E2, Hr2.
  assert (Hu2 : HandleQueue.can_use p2 q2) by (by eapply HandleQueue.kept_can_use).
  destruct (HandleQueue.handle_is_empty_ok _ _ _ Hr2 Hu2) as (p3 & q3 & E3 & Hr3 & Hk3).
  assert (Ht : top ll1 = None).
  { rewrite top_None. intros i. unfold nonempty_at. destruct (ll1 !! i) as [[|y l]|] eqn:Ei; try done.
    assert (Hy : y ∈ concat ll1) by (apply elem_of_concat_lookup; exists i, (y :: l); split; [done|by left]).
    rewrite Hnil in Hy. by apply not_elem_of_nil in Hy. }
  rewrite Ht in E3.
  destruct (kc_wakeup_law k2 h me Hrun2 Hw2) as (k3 & E4 & _).
  eexists. split; [|split; [|split]].
  - unfold futex_wake. cbn [Z.ltb Z.compare]. change (1 <? 0) with false. cbn iota.
    erewrite bind_run by reflexivity. cbn [lot set_kern set_lot]. rewrite lookup_insert_eq.
    unfold wake_entry. erewrite bind_run.
    2: { assert (Hl1 : wq_length q1 = 1%nat).
         { cbn. destruct Hr1 as (_ & _ & -> & _). by rewrite Hperm. }
         rewrite Hl1. cbn [wake_loop]. change (negb (0 =? 1) || (1 =? i32_max)) with true. cbn iota.
         erewrite bind_run by (apply zoom_run; exact E2). cbn beta iota.
         erewrite bind_run by (apply zoom_run; exact E4). reflexivity. }
    cbn beta iota. erewrite bind_run by (apply zoom_run; exact E3). reflexivity.
  - cbn. by rewrite delete_insert_eq, delete_id.
  - apply Hr3.
  - cbn. destruct Hk1 as (Hn1 & _ & _ & Hnew1), Hk2 as (Hn2 & _ & Hid2 & _), Hk3 as (Hn3 & _ & Hid3 & _).
    destruct Ho1 as [Hid _]. specialize (Hid2 ltac:(lia)). rewrite Hid2 in *. specialize (Hid3 ltac:(lia)).
    rewrite Hid3 in *. rewrite decide_True in Hn2, Hn3 by done.
    rewrite decide_False in Hn1; [lia|]. cbn. lia.
Qed.

(** futexes use up the pool of bitmaps.  Every time a task waits at an
    address nobody waits at and is woken again, the parking lot is back as it
    was but one bitmap of the pool is gone for good; when none is left, the
    next such wait panics instead of parking the task. *)
Theorem futex_leaks_bitmaps w a h :
  HandleQueue.pool_ok (pool w) -> lot w !! a = None ->
  kc_running (kern w) h -> HandleQueue.valid_prio h ->
  ((NEXT_BITMAP_ID (pool w) < MAX_BITMAP_POOL)%nat ->
   exists w1, futex_wait_enter a (mem w a) None 0 w = Done (Waiting None h) w1 /\
     kc_waits (kern w1) h /\
     forall k2 me, kc_running k2 me -> kc_waits k2 h ->
       exists w2, futex_wake a 1 (set_kern k2 w1) = Done 1 w2 /\ lot w2 = lot w /\
         HandleQueue.pool_ok (pool w2) /\ NEXT_BITMAP_ID (pool w2) = S (NEXT_BITMAP_ID (pool w))) /\
  ((MAX_BITMAP_POOL <= NEXT_BITMAP_ID (pool w))%nat ->
   futex_wait_enter a (mem w a) None 0 w = Panic "exceeded MAX_BITMAP_POOL").
Proof.
  intros Hp Ha Hrun Hv. split; [intros Hn; by apply wait_wake_cycle|]. intros Hfull.
  destruct (kc_block_law _ _ None Hrun I) as (k1 & Ek & Eh & _).
  unfold futex_wait_enter. erewrite bind_run by reflexivity. rewrite Z.eqb_refl. cbn [negb].
  unfold park. erewrite bind_run by reflexivity. erewrite bind_run by (apply zoom_run; exact Ek).
  erewrite bind_run by (apply zoom_run; exact Eh). rewrite Ha. unfold bind at 1.
  unfold on_pool. erewrite zoom_panic by (apply (HandleQueue.push_new_full _ h Hfull)). done.
Qed.
End Leak.

End Futex.
