(* ===== verification/Time.v ===== *)
(** Time values and the clock system calls: [src/src/time.rs],
    [src/src/syscalls/timer.rs], and the sleeping part of
    [src/src/syscalls/tasks.rs].  The readings of the clocks are arguments:
    [now_micros] is [systemtime::now_micros()], the ticks come from the kernel. *)

From S2P Require Import Prelude PrioFifo Tasks Errors HandleQueue Interfaces.

Module Time.

(** Durations in seconds and microseconds, seconds and nanoseconds. *)
Record timeval : Set := mkTimeval { tv_sec : Z; tv_usec : Z }.
Record timespec : Set := mkTimespec { ts_sec : Z; ts_nsec : Z }.

(** Rust's [/] and [%] on signed integers truncate. *)
Definition timeval_from_usec (microseconds : Z) : timeval :=
  mkTimeval (Z.quot microseconds 1000000) (wraps 32 (Z.rem microseconds 1000000)).

Definition timeval_into_usec (self : timeval) : option Z :=
  usec ← checked_i64 (tv_sec self * 1000000);
  checked_i64 (usec + tv_usec self).

Definition from_usec (microseconds : Z) : timespec :=
  mkTimespec (Z.quot microseconds 1000000) (wraps 32 (Z.rem microseconds 1000000 * 1000)).

Definition into_usec (self : timespec) : option Z :=
  usec ← checked_i64 (ts_sec self * 1000000);
  checked_i64 (usec + Z.quot (ts_nsec self) 1000).

(** [SystemTime::now] and [duration_since], which unwraps every step. *)
Definition system_time_now (now_micros : Z) : timespec := from_usec (wraps 64 now_micros).

Definition duration_since (self earlier : timespec) : option Z :=
  a ← into_usec self;
  b ← into_usec earlier;
  d ← checked_i64 (a - b);
  checked_u64 d.

(** ** Clocks *)

Definition CLOCK_REALTIME : Z := 1.
Definition CLOCK_PROCESS_CPUTIME_ID : Z := 2.
Definition CLOCK_THREAD_CPUTIME_ID : Z := 3.
Definition CLOCK_MONOTONIC : Z := 4.
Definition TIMER_ABSTIME : Z := 4.

(** The state of these calls is the structure the pointer names, [None] for a
    null pointer. *)
Definition sys_clock_getres (clock_id : Z) : M (option timespec) Z :=
  let! res := get in
  do! assert_ (bool_decide (is_Some res)) "sys_clock_getres called with a zero res parameter" in
  if (clock_id =? CLOCK_REALTIME) || (clock_id =? CLOCK_PROCESS_CPUTIME_ID)
     || (clock_id =? CLOCK_THREAD_CPUTIME_ID) || (clock_id =? CLOCK_MONOTONIC)
  then do! put (Some (from_usec 1)) in ret 0
  else ret (neg_errno Errno.Inval).

Definition sys_clock_gettime (now_micros ticks : Z) (clock_id : Z) : M (option timespec) Z :=
  let! tp := get in
  do! assert_ (bool_decide (is_Some tp)) "sys_clock_gettime called with a zero tp parameter" in
  if clock_id =? CLOCK_REALTIME then do! put (Some (from_usec (wraps 64 now_micros))) in ret 0
  else if clock_id =? CLOCK_MONOTONIC then do! put (Some (from_usec (wraps 64 ticks))) in ret 0
  else ret (neg_errno Errno.Inval).

Definition sys_clock_settime : Z := neg_errno Errno.Inval.

Definition sys_gettimeofday (now_micros tz : Z) : M (option timeval) Z :=
  let! tp := get in
  do! (match tp with
       | Some _ => put (Some (timeval_from_usec (wraps 64 now_micros)))
       | None => ret tt
       end) in
  ret (if 0 <? tz then neg_errno Errno.Inval else 0).

Definition sys_setitimer : Z := 0.

(** ** Sleeping *)

Section Sleep.
Context {K : Type} {KC : KernelCalls K}.
(** The loop that yields until the time stamp counter has advanced by the
    given number of microseconds. *)
Context (busy_wait : Z -> M K unit).

Definition usleep (usecs : Z) : M K unit :=
  let! k := get in
  if 10000 <=? usecs then
    do! kc_block_current (Some (wrapu 64 (kc_now k + usecs))) in
    kc_reschedule
  else if 0 <? usecs then busy_wait usecs
  else ret tt.

Definition sys_msleep (ms : Z) : M K unit := usleep (ms * 1000).
Definition sys_usleep (usecs : Z) : M K unit := usleep usecs.

(** The request in microseconds; [tv_nsec as u64] sign-extends. *)
Definition request_usec (t : timespec) : Z :=
  wrapu 64 (wrapu 64 (wrapu 64 (ts_sec t) * 1000000) + wrapu 64 (ts_nsec t) / 1000).

Definition valid_request (t : timespec) : bool :=
  negb ((ts_sec t <? 0) || (999999999 <? ts_nsec t)).

Definition sys_nanosleep (rqtp : option timespec) : M K Z :=
  let! requested_time := unwrap rqtp "sys_nanosleep called with a zero rqtp parameter" in
  if negb (valid_request requested_time) then ret (neg_errno Errno.Inval)
  else do! usleep (request_usec requested_time) in ret 0.

Definition sys_clock_nanosleep (now_micros : Z) (clock_id flags : Z) (rqtp : option timespec) : M K Z :=
  let! requested_time := unwrap rqtp "sys_clock_nanosleep called with a zero rqtp parameter" in
  if negb (valid_request requested_time) then ret (neg_errno Errno.Inval)
  else if (clock_id =? CLOCK_REALTIME) || (clock_id =? CLOCK_MONOTONIC) then
    let! k := get in
    let microseconds := request_usec requested_time in
    let microseconds :=
      if 0 <? Z.land flags TIMER_ABSTIME then
        wrapu 64 (microseconds - (if clock_id =? CLOCK_REALTIME then now_micros else kc_now k))
      else microseconds in
    do! usleep microseconds in
    ret 0
  else ret (neg_errno Errno.Inval).

(** ** Lemmas *)

Lemma checked_i64_Some z : i64_min <= z <= i64_max -> checked_i64 z = Some z.
Proof. intros. unfold checked_i64. by rewrite (proj2 (andb_true_iff _ _)) by (split; lia). Qed.

Lemma checked_i64_None z : z < i64_min \/ i64_max < z -> checked_i64 z = None.
Proof.
  intros. unfold checked_i64. destruct (Z.leb_spec i64_min z), (Z.leb_spec z i64_max); try done; lia.
Qed.

(** A valid request within the range of [u64] microseconds. *)
Lemma request_usec_valid t :
  0 <= ts_nsec t <= 999999999 -> 0 <= ts_sec t < 2 ^ 44 ->
  valid_request t = true /\ request_usec t = ts_sec t * 1000000 + ts_nsec t / 1000.
Proof.
  intros Hn Hs. split.
  - unfold valid_request. destruct (Z.ltb_spec (ts_sec t) 0), (Z.ltb_spec 999999999 (ts_nsec t)); done || lia.
  - unfold request_usec. change (2 ^ 44) with 17592186044416 in Hs.
    assert (0 <= ts_nsec t / 1000 < 1000000)
      by (split; [apply Z.div_pos; lia|apply Z.div_lt_upper_bound; lia]).
    rewrite (wrapu_small 64 (ts_sec t)) by (change (2 ^ 64) with 18446744073709551616; lia).
    rewrite (wrapu_small 64 (ts_nsec t)) by (change (2 ^ 64) with 18446744073709551616; lia).
    rewrite (wrapu_small 64 (_ * _)) by (change (2 ^ 64) with 18446744073709551616; lia).
    apply wrapu_small. change (2 ^ 64) with 18446744073709551616. lia.
Qed.

(** ** Properties *)

(** an absolute sleep on the monotonic clock blocks the task until exactly
    the requested time, whenever that time is not within the next ten
    milliseconds.  In particular the subtraction of the current time from a
    deadline in the past wraps around, and adding the current time again
    restores the deadline, so the task is woken at once and does not sleep
    for half a million years; a deadline within ten milliseconds is waited
    for by yielding. *)
Theorem nanosleep_absolute now_micros flags t k :
  0 <= ts_nsec t <= 999999999 -> 0 <= ts_sec t < 2 ^ 43 ->
  Z.land flags TIMER_ABSTIME = TIMER_ABSTIME -> 0 <= kc_now k < 2 ^ 63 ->
  let d := ts_sec t * 1000000 + ts_nsec t / 1000 in
  sys_clock_nanosleep now_micros CLOCK_MONOTONIC flags (Some t) k =
    (do! (if (kc_now k <? d) && (d <? kc_now k + 10000) then busy_wait (d - kc_now k)
          else if d =? kc_now k then ret tt
          else do! kc_block_current (Some d) in kc_reschedule) in
     ret 0) k.
Proof.
  intros Hn Hs Hf Hk d. destruct (request_usec_valid t Hn ltac:(change (2 ^ 43) with 8796093022208 in Hs; change (2 ^ 44) with 17592186044416; lia)) as [Hv Hd]. fold d in Hd.
  unfold sys_clock_nanosleep. erewrite bind_run by reflexivity. rewrite Hv. cbn [negb].
  change ((CLOCK_MONOTONIC =? CLOCK_REALTIME) || (CLOCK_MONOTONIC =? CLOCK_MONOTONIC)) with true.
  cbn iota. erewrite bind_run by reflexivity. rewrite Hf, Hd.
  change (0 <? TIMER_ABSTIME) with true. change (CLOCK_MONOTONIC =? CLOCK_REALTIME) with false. cbn iota.
  assert (Hd0 : 0 <= d < 2 ^ 63).
  { change (2 ^ 43) with 8796093022208 in Hs. change (2 ^ 63) with 9223372036854775808. subst d.
    assert (0 <= ts_nsec t / 1000 < 1000000)
      by (split; [apply Z.div_pos; lia|apply Z.div_lt_upper_bound; lia]). lia. }
  change (2 ^ 63) with 9223372036854775808 in *.
  unfold bind at 1. unfold bind at 2. unfold usleep. erewrite bind_run by reflexivity.
  assert (Hback : wrapu 64 (kc_now k + wrapu 64 (d - kc_now k)) = d).
  { unfold wrapu. rewrite Zplus_mod_idemp_r.
    change (2 ^ 64) with 18446744073709551616. rewrite Z.mod_small; lia. }
  rewrite Hback. destruct (Z.ltb_spec (kc_now k) d) as [Hlt|Hge]; cbn [andb].
  - rewrite wrapu_small by (change (2 ^ 64) with 18446744073709551616; lia).
    destruct (Z.leb_spec 10000 (d - kc_now k)), (Z.ltb_spec d (kc_now k + 10000)); try lia.
    + by rewrite (proj2 (Z.eqb_neq _ _)) by lia.
    + by rewrite (proj2 (Z.ltb_lt _ _)) by lia.
  - destruct (Z.eqb_spec d (kc_now k)) as [->|Hne].
    + by rewrite Z.sub_diag.
    + assert (Hw : wrapu 64 (d - kc_now k) = d - kc_now k + 2 ^ 64).
      { unfold wrapu. rewrite <- (Z_mod_plus_full (d - kc_now k) 1 (2 ^ 64)).
        rewrite Z.mod_small; change (2 ^ 64) with 18446744073709551616; lia. }
      rewrite Hw. change (2 ^ 64) with 18446744073709551616.
      by rewrite (proj2 (Z.leb_le _ _)) by lia.
Qed.
End Sleep.

(** microseconds survive the conversion to [timespec] and back for every
    [i64]; a [timespec] in normal form converts to its microseconds, rounded
    down, exactly when they fit an [i64], and is refused otherwise. *)
Theorem timespec_roundtrip :
  (forall u, i64_min <= u <= i64_max -> into_usec (from_usec u) = Some u) /\
  (forall t, 0 <= ts_nsec t <= 999999999 ->
     let u := ts_sec t * 1000000 + ts_nsec t / 1000 in
     (i64_min <= ts_sec t * 1000000 -> u <= i64_max ->
        into_usec t = Some u /\
        (0 <= ts_sec t -> from_usec u = mkTimespec (ts_sec t) (ts_nsec t / 1000 * 1000))) /\
     (ts_sec t * 1000000 < i64_min \/ i64_max < u -> into_usec t = None)).
Proof.
  split.
  - intros u Hu. unfold into_usec, from_usec. cbn.
    pose proof (Z.quot_rem' u 1000000) as Hqr.
    assert (Hrem : - 1000000 < Z.rem u 1000000 < 1000000).
    { pose proof (Z.rem_bound_abs u 1000000 ltac:(lia)). lia. }
    assert (Hw : wraps 32 (Z.rem u 1000000 * 1000) = Z.rem u 1000000 * 1000)
      by (apply wraps_small; [lia|change (2 ^ (32 - 1)) with 2147483648; lia]).
    rewrite Hw, Z.quot_mul by lia.
    assert (Hq : i64_min <= Z.quot u 1000000 * 1000000 <= i64_max).
    { pose proof (Z.rem_sign_mul u 1000000 ltac:(lia)).
      unfold i64_min, i64_max in *. change (2 ^ 63) with 9223372036854775808 in *.
      destruct (Z.leb_spec 0 u); [pose proof (Z.rem_nonneg u 1000000 ltac:(lia) ltac:(lia))|
        pose proof (Z.rem_nonpos u 1000000 ltac:(lia) ltac:(lia))]; lia. }
    rewrite checked_i64_Some by done. cbn. rewrite checked_i64_Some by lia. f_equal. lia.
  - intros t Hn u.
    assert (Hns : 0 <= ts_nsec t / 1000 < 1000000)
      by (split; [apply Z.div_pos; lia|apply Z.div_lt_upper_bound; lia]).
    unfold into_usec. rewrite Z.quot_div_nonneg by lia. split.
    + intros Hlo Hhi. split.
      * rewrite checked_i64_Some by lia. cbn. rewrite checked_i64_Some by lia. done.
      * intros Hs. unfold from_usec. subst u.
        assert (Hq : (ts_sec t * 1000000 + ts_nsec t / 1000) / 1000000 = ts_sec t)
          by (rewrite Z.div_add_l, Z.div_small by lia; lia).
        assert (Hr : (ts_sec t * 1000000 + ts_nsec t / 1000) mod 1000000 = ts_nsec t / 1000)
          by (rewrite Z.add_comm, Z_mod_plus_full, Z.mod_small by lia; done).
        rewrite Z.quot_div_nonneg, Z.rem_mod_nonneg, Hq, Hr by lia.
        rewrite wraps_small; [done|lia|change (2 ^ (32 - 1)) with 2147483648; lia].
    + intros [Hlo|Hhi].
      * rewrite checked_i64_None by lia. done.
      * destruct (Z.leb_spec (ts_sec t * 1000000) i64_max).
        -- destruct (Z.leb_spec i64_min (ts_sec t * 1000000)).
           ++ rewrite checked_i64_Some by lia. cbn. rewrite checked_i64_None by lia. done.
           ++ rewrite checked_i64_None by lia. done.
        -- rewrite checked_i64_None by lia. done.
Qed.

End Time.
