(* ===== verification/SynchCalls.v ===== *)
(** The system calls around semaphores, recursive mutexes, futexes and
    spinlocks: [src/src/syscalls/semaphore.rs], [recmutex.rs], [futex.rs],
    [spinlock.rs].  A pointer argument that is only checked for null is the
    flag [null]. *)

From S2P Require Import Prelude PrioFifo Tasks Errors HandleQueue Interfaces Semaphore RecMutex Futex Time.

Module SemCalls.
Section Calls.
Context {P Q K : Type} {WQ : WaitQueue P Q} {KC : KernelCalls K}.

(** The answer and the semaphore stored at [*sem]. *)
Definition sys_sem_init (null : bool) (pshared value : Z) : Z * option (Semaphore.state Q) :=
  if null || negb (pshared =? 0) then (neg_errno Errno.Inval, None)
  else (0, Some (Semaphore.new value)).

Definition sys_sem_destroy (null : bool) : Z := if null then neg_errno Errno.Inval else 0.

Definition sys_sem_post (null : bool) : M (Semaphore.world P Q K) Z :=
  if null then ret (neg_errno Errno.Inval)
  else do! Semaphore.release in ret 0.

Definition sys_sem_trywait (null : bool) : M (Semaphore.world P Q K) Z :=
  if null then ret (neg_errno Errno.Inval)
  else
    let! ok := Semaphore.try_acquire in
    ret (if ok : bool then 0 else neg_errno Errno.Canceled).

(** [sem_timedwait] up to its call of [acquire]: an answer at once, or the
    delay to wait for. *)
Definition sem_timedwait (null : bool) (ms : Z) : Result Z (option Z) :=
  if null then Err (neg_errno Errno.Inval)
  else Ok (if 0 <? ms then Some ms else None).

(** The milliseconds until [ts], in [i64] arithmetic. *)
Definition remaining_ms (ts current : Time.timespec) : Z :=
  wraps 64 (wraps 64 (wraps 64 (Time.ts_sec ts - Time.ts_sec current) * 1000)
            + Z.quot (Time.ts_nsec ts - Time.ts_nsec current) 1000000).

Definition sys_sem_timedwait (now_micros : Z) (null : bool) (ts : option Time.timespec)
    : M unit (Result Z (option Z)) :=
  match ts with
  | None => ret (sem_timedwait null 0)
  | Some ts =>
      let current_ts := Time.from_usec (wraps 64 now_micros) in
      let ms := remaining_ms ts current_ts in
      if 0 <? ms then
        do! assert_ (ms <=? u32_max) "called `Result::unwrap()` on an `Err` value" in
        ret (sem_timedwait null ms)
      else ret (Err 0)
  end.

(** The answer of a wait from the answer of [acquire]. *)
Definition timedwait_answer (acquired : bool) : Z := if acquired then 0 else neg_errno Errno.Time.

(** The whole call: rounds of [acquire] with the steps [env] of other tasks
    between them. *)
Context (env : Semaphore.world P Q K -> Semaphore.world P Q K -> Prop).

Inductive acquire_run (wt : option Z) : Semaphore.world P Q K -> bool -> Semaphore.world P Q K -> Prop :=
  | run_acquired completed w w' :
      Semaphore.acquire_round completed wt w = Done Semaphore.Acquired w' -> acquire_run wt w true w'
  | run_timed_out completed w w' :
      Semaphore.acquire_round completed wt w = Done Semaphore.TimedOut w' -> acquire_run wt w false w'
  | run_again completed w r w1 w2 b w' :
      Semaphore.acquire_round completed wt w = Done r w1 ->
      r = Semaphore.Parked \/ r = Semaphore.Spun ->
      env w1 w2 -> acquire_run wt w2 b w' -> acquire_run wt w b w'.

Inductive timedwait_run (now_micros : Z) (null : bool) (ts : option Time.timespec)
    : Semaphore.world P Q K -> Z -> Semaphore.world P Q K -> Prop :=
  | timedwait_at_once w code :
      sys_sem_timedwait now_micros null ts tt = Done (Err code) tt ->
      timedwait_run now_micros null ts w code w
  | timedwait_waits delay w wt w1 b w' :
      sys_sem_timedwait now_micros null ts tt = Done (Ok delay) tt ->
      Semaphore.deadline delay w = Done wt w1 -> acquire_run wt w1 b w' ->
      timedwait_run now_micros null ts w (timedwait_answer b) w'.

(** ** Properties *)

Lemma remaining_ms_exact now_micros ts :
  0 <= Time.ts_sec ts < 2 ^ 40 -> 0 <= Time.ts_nsec ts <= 999999999 -> 0 <= now_micros < 2 ^ 60 ->
  let now_ns := now_micros * 1000 in
  let ts_ns := Time.ts_sec ts * 1000000000 + Time.ts_nsec ts in
  let ms := remaining_ms ts (Time.from_usec (wraps 64 now_micros)) in
  (ts_ns <= now_ns -> ms <= 0) /\ (now_ns + 2000000 <= ts_ns -> 0 < ms) /\
  (now_ns + (u32_max + 2) * 1000000 <= ts_ns -> u32_max < ms) /\
  (ts_ns <= now_ns + u32_max * 1000000 -> ms <= u32_max).
Proof.
  intros Hs Hn Hnow now_ns ts_ns ms.
  change (2 ^ 40) with 1099511627776 in Hs. change (2 ^ 60) with 1152921504606846976 in Hnow.
  assert (Hw : wraps 64 now_micros = now_micros)
    by (apply wraps_small; [lia|change (2 ^ (64 - 1)) with 9223372036854775808; lia]).
  subst ms. rewrite Hw. unfold remaining_ms, Time.from_usec. cbn [Time.ts_sec Time.ts_nsec].
  rewrite Z.quot_div_nonneg, Z.rem_mod_nonneg by lia.
  pose proof (Z.div_mod now_micros 1000000 ltac:(lia)) as Hdm.
  pose proof (Z.mod_pos_bound now_micros 1000000 ltac:(lia)) as Hmb.
  set (s := now_micros / 1000000) in *. set (u := now_micros mod 1000000) in *.
  rewrite (wraps_small 32 (u * 1000)) by (lia || change (2 ^ (32 - 1)) with 2147483648; lia).
  assert (Hsr : 0 <= s < 1152921504607) by lia.
  rewrite (wraps_small 64 (Time.ts_sec ts - s)) by (lia || change (2 ^ (64 - 1)) with 9223372036854775808; lia).
  rewrite (wraps_small 64 (_ * 1000)) by (lia || change (2 ^ (64 - 1)) with 9223372036854775808; lia).
  set (dn := Time.ts_nsec ts - u * 1000). assert (Hdn : - 1000000000 < dn < 1000000000) by (subst dn; lia).
  assert (Hq : - 1000 < Z.quot dn 1000000 < 1000).
  { pose proof (Z.quot_rem' dn 1000000). pose proof (Z.rem_bound_abs dn 1000000 ltac:(lia)).
    pose proof (Z.rem_sign_mul dn 1000000 ltac:(lia)). split; nia. }
  rewrite wraps_small by (lia || change (2 ^ (64 - 1)) with 9223372036854775808; lia).
  pose proof (Z.quot_rem' dn 1000000) as Hqr. pose proof (Z.rem_bound_abs dn 1000000 ltac:(lia)) as Hrb.
  pose proof (Z.rem_sign_mul dn 1000000 ltac:(lia)) as Hsg.
  subst now_ns ts_ns. unfold u32_max. change (2 ^ 32) with 4294967296.
  split_and!; intros; nia || lia.
Qed.

(** the deadline of [sys_sem_timedwait].  With a deadline at least two
    milliseconds ahead (and less than 49 days) the call waits; with a deadline
    that has passed it answers 0, "acquired", without having touched the
    semaphore, whatever its count and even for a null semaphore; with a
    deadline beyond [u32::MAX] milliseconds it panics. *)
Theorem sem_timedwait_deadline now_micros null ts w :
  0 <= Time.ts_sec ts < 2 ^ 40 -> 0 <= Time.ts_nsec ts <= 999999999 -> 0 <= now_micros < 2 ^ 60 ->
  let now_ns := now_micros * 1000 in
  let ts_ns := Time.ts_sec ts * 1000000000 + Time.ts_nsec ts in
  (ts_ns <= now_ns -> forall code w', timedwait_run now_micros null (Some ts) w code w' <->
     code = 0 /\ w' = w) /\
  (now_ns + 2000000 <= ts_ns <= now_ns + u32_max * 1000000 ->
     sys_sem_timedwait now_micros null (Some ts) tt =
       Done (if null then Err (neg_errno Errno.Inval)
             else Ok (Some (remaining_ms ts (Time.from_usec (wraps 64 now_micros))))) tt) /\
  (now_ns + (u32_max + 2) * 1000000 <= ts_ns ->
     exists why, sys_sem_timedwait now_micros null (Some ts) tt = Panic why).
Proof.
  intros Hs Hn Hnow now_ns ts_ns.
  destruct (remaining_ms_exact now_micros ts Hs Hn Hnow) as (Hpast & Hahead & Hfar & Hnear).
  fold now_ns ts_ns in Hpast, Hahead, Hfar, Hnear. unfold sys_sem_timedwait.
  set (ms := remaining_ms ts _) in *. split_and!.
  - intros Hp code w'. specialize (Hpast Hp). split.
    + intros [w0 code' E|delay w0 wt w1 b w2 E _ _]; unfold sys_sem_timedwait in E; fold ms in E;
        rewrite (proj2 (Z.ltb_ge _ _) Hpast) in E; unfold ret in E; by simplify_eq.
    + intros [-> ->]. apply timedwait_at_once. unfold sys_sem_timedwait. fold ms.
      by rewrite (proj2 (Z.ltb_ge _ _) Hpast).
  - intros [Ha Hb]. specialize (Hahead Ha). specialize (Hnear Hb).
    rewrite (proj2 (Z.ltb_lt _ _) Hahead), (proj2 (Z.leb_le _ _) Hnear). cbn.
    unfold ret, sem_timedwait. destruct null; [done|]. by rewrite (proj2 (Z.ltb_lt _ _) Hahead).
  - intros Ha. specialize (Hfar Ha). rewrite (proj2 (Z.ltb_lt _ _)) by (unfold u32_max in *; lia).
    eexists. by rewrite (proj2 (Z.leb_gt _ _) Hfar).
Qed.
End Calls.
End SemCalls.

(** ** Recursive mutexes *)
Module MutexCalls.
Section Calls.
Context {P Q K : Type} {WQ : WaitQueue P Q} {KC : KernelCalls K}.

Definition sys_recmutex_init (null : bool) : Z * option (RecMutex.state Q) :=
  if null then (neg_errno Errno.Inval, None) else (0, Some RecMutex.new).

Definition sys_recmutex_destroy (null : bool) : Z := if null then neg_errno Errno.Inval else 0.

(** A round of the lock call: an answer, or [None] while it waits. *)
Definition sys_recmutex_lock (null : bool) (tid : Z) : M (RecMutex.world P Q K) (option Z) :=
  if null then ret (Some (neg_errno Errno.Inval))
  else
    let! ok := RecMutex.acquire_round tid in
    ret (if ok : bool then Some 0 else None).

Definition sys_recmutex_unlock (null : bool) : M (RecMutex.world P Q K) Z :=
  if null then ret (neg_errno Errno.Inval)
  else do! RecMutex.release in ret 0.
End Calls.
End MutexCalls.

(** ** Futexes *)
Module FutexCalls.
Section Calls.
Context {P Q K : Type} {WQ : WaitQueue P Q} {KC : KernelCalls K}.

(** [Flags::from_bits]: unknown bits are refused. *)
Definition flags_from_bits (flags : Z) : option Z :=
  if Z.land flags (Z.lnot Futex.RELATIVE) =? 0 then Some flags else None.

(** Null is address 0. *)
Definition sys_futex_wait (address expected : Z) (timeout : option Time.timespec) (flags : Z)
    : M (Futex.world P Q K) Futex.entered :=
  let inval := Futex.Answered (neg_errno Errno.Inval) in
  if address =? 0 then ret inval
  else
    match (match timeout with
           | None => Some None
           | Some t => match Time.into_usec t with
                       | Some usec => if 0 <=? usec then Some (Some usec) else None
                       | None => None
                       end
           end) with
    | None => ret inval
    | Some timeout =>
        match flags_from_bits flags with
        | None => ret inval
        | Some flags => Futex.futex_wait_enter address expected timeout flags
        end
    end.

Definition sys_futex_wake (address count : Z) : M (Futex.world P Q K) Z :=
  if address =? 0 then ret (neg_errno Errno.Inval) else Futex.futex_wake address count.
End Calls.
End FutexCalls.

(** ** Spinlocks

    The container records whether the lock is held through it.  Taking a lock
    that is free never spins; a container is not shared between tasks while
    it is held without the assertion firing. *)
Module SpinlockCalls.
Record SpinlockContainer : Set := mkContainer { guard : bool }.

Definition sys_spinlock_init (null : bool) : Z * option SpinlockContainer :=
  if null then (neg_errno Errno.Inval, None) else (0, Some (mkContainer false)).

Definition sys_spinlock_destroy (null : bool) : Z := if null then neg_errno Errno.Inval else 0.

Definition sys_spinlock_lock (null : bool) : M SpinlockContainer Z :=
  if null then ret (neg_errno Errno.Inval)
  else
    let! container := get in
    do! assert_ (negb (guard container)) "Called sys_spinlock_lock when a lock is already held!" in
    do! put (mkContainer true) in
    ret 0.

Definition sys_spinlock_unlock (null : bool) : M SpinlockContainer Z :=
  if null then ret (neg_errno Errno.Inval)
  else
    let! container := get in
    do! assert_ (guard container) "Called sys_spinlock_unlock when no lock is currently held!" in
    do! put (mkContainer false) in
    ret 0.
End SpinlockCalls.
