(* ===== verification/SynchKernel.v ===== *)
(** The per-core scheduler as the kernel of the synchronisation primitives, and
    what follows when they run on it. *)

From S2P Require Import Prelude PrioFifo Tasks Errors HandleQueue ReadyQueue Timers Supervisor SlotPool BlockedQueue Kernel Scheduler SchedInv SchedOps SchedProps Interfaces Semaphore RecMutex Futex Time SynchCalls.
Import Kernel Scheduler SchedInv SchedOps.

Module SynchKernel.

Definition running (k : t) (h : TaskHandle.t) : Prop :=
  kinv k /\ exists tc, heap k !! current_task k = Some tc /\ Task.status tc = Running /\ h = Task.handle tc.

(** A task of this core waits in the queue of blocked tasks; of a task of
    another core only the inbox of that core is known here. *)
Definition waits_here (k : t) (h : TaskHandle.t) : Prop :=
  TaskHandle.get_core_id h = core_id k /\
  exists r tk, heap k !! r = Some tk /\ Task.status tk = Blocked /\ Task.id tk = TaskHandle.get_id h.
Definition waits_elsewhere (k : t) (h : TaskHandle.t) : Prop :=
  TaskHandle.get_core_id h <> core_id k /\
  is_Some (SCHEDULER_INPUTS k !! Z.to_nat (TaskHandle.get_core_id h)).
Definition waits (k : t) (h : TaskHandle.t) : Prop :=
  kinv k /\ (waits_here k h \/ waits_elsewhere k h).

(** Task [id] was blocked here and is ready, or the inbox of another core has
    got a wakeup for it. *)
Definition woken (id : Z) (k k' : t) : Prop :=
  (exists r tk tk', heap k !! r = Some tk /\ Task.id tk = id /\ Task.status tk = Blocked /\
     heap k' !! r = Some tk' /\ Task.status tk' = Ready) \/
  (exists core i i' h, SCHEDULER_INPUTS k !! core = Some i /\ SCHEDULER_INPUTS k' !! core = Some i' /\
     wakeup_tasks i' = wakeup_tasks i ++ [h] /\ TaskHandle.get_id h = id).

Lemma app_one_ne {A} (l : list A) x : l <> l ++ [x].
Proof. intros H%(f_equal length). rewrite length_app in H. cbn in H. lia. Qed.

Lemma kernel_woken_change id k : ~ woken id k k.
Proof.
  intros [(r & tk & tk' & H & _ & Hb & H' & Hr)|(core & i & i' & h & Hi & Hi' & Hw & _)]; [congruence|].
  assert (i' = i) as -> by congruence. by apply app_one_ne in Hw.
Qed.

Lemma current_handle_run k tc :
  heap k !! current_task k = Some tc -> get_current_task_handle k = Done (Task.handle tc) k.
Proof.
  intros H. unfold get_current_task_handle. erewrite bind_run by reflexivity.
  erewrite bind_run by (by apply borrow_run). done.
Qed.

Lemma current_id_run k tc :
  heap k !! current_task k = Some tc -> get_current_task_id k = Done (Task.id tc) k.
Proof.
  intros H. unfold get_current_task_id. erewrite bind_run by reflexivity.
  erewrite bind_run by (by apply borrow_run). done.
Qed.

(** Blocking and waking on this core change the queues only. *)
Lemma on_queues_frame {A} (m : M BlockedQueue.t A) k a k' :
  on_queues m k = Done a k' -> exists s, k' = set_queues s k.
Proof.
  unfold on_queues, zoom. destruct (m (queues k)) as [x s|]; [|done]. intros [= _ <-]. eauto.
Qed.

Lemma kernel_block_law k h w :
  running k h -> from_option (fun w => 0 <= w < u64_max) True w ->
  exists k', block_current_task w k = Done tt k' /\ get_current_task_handle k' = Done h k' /\
    clock k' = clock k /\ waits k' h /\ (forall h', waits k h' -> waits k' h').
Proof.
  intros [Hk (tc & Htc & Hst & ->)] Hw.
  destruct (block_kinv k tc w Hk Htc Hst Hw) as (k' & E & Hk' & Hcur & _ & Hh & _).
  destruct (on_queues_frame (BlockedQueue.add (current_task k) w) k tt k') as (s & Hs).
  { rewrite <- E. done. }
  assert (Hl : heap k' !! current_task k' = Some (Task.set_status Blocked tc))
    by (rewrite Hcur, Hh; apply lookup_insert_eq).
  exists k'. split_and!; [done| |by rewrite Hs| |].
  - by rewrite (current_handle_run _ _ Hl).
  - split; [done|]. left. split; [|by eexists _, _].
    cbn. rewrite Hs. apply (k_tasks _ _ _ (proj1 Hk) _ _ Htc).
  - intros h' [_ Hw']. split; [done|]. destruct Hw' as [(Hc & r & tk & Hr & Hb & Hid)|[Hc Hi]].
    + left. split; [by rewrite Hs|]. exists r, tk. split; [|done].
      rewrite Hh, lookup_insert_ne; [done|]. intros <-. congruence.
    + right. split; [by rewrite Hs|by rewrite Hs].
Qed.

(** Waking on this core: one cell changes from blocked to ready. *)
Lemma woken_cell k k' r tk :
  heap k !! r = Some tk -> Task.status tk = Blocked -> heap k' = <[r := Task.set_status Ready tk]> (heap k) ->
  SCHEDULER_INPUTS k' = SCHEDULER_INPUTS k -> forall id, woken id k k' <-> id = Task.id tk.
Proof.
  intros Hr Hb Hh Hi id. split.
  - intros [(x & tx & tx' & Hx & <- & Hbx & Hx' & Hrx)|(core & i & i' & h & Hc & Hc' & Hw & _)].
    + rewrite Hh in Hx'. apply lookup_insert_Some in Hx' as [[<- _]|[_ Hx']]; congruence.
    + rewrite Hi in Hc'. assert (i' = i) as -> by congruence. by apply app_one_ne in Hw.
  - intros ->. left. exists r, tk, (Task.set_status Ready tk). rewrite Hh, lookup_insert_eq. done.
Qed.

(** Waking on another core: one inbox changes. *)
Lemma woken_inbox k k' h :
  heap k' = heap k -> TaskHandle.get_core_id h <> core_id k -> custom_wakeup h k = Done tt k' ->
  forall id, woken id k k' <-> id = TaskHandle.get_id h.
Proof.
  intros Hh Hc E id. unfold custom_wakeup, get_scheduler_input, set_scheduler_input, send_sgi in E.
  apply bind_Done in E as (k0 & ? & [= <- <-] & E). rewrite (proj2 (Z.eqb_neq _ _) Hc) in E. exec_inv.
  set (c := Z.to_nat (TaskHandle.get_core_id h)) in *. split.
  - intros [(r & tr & tr' & Hr & <- & Hbr & Hr' & Hrr)|(core & i & i' & h' & Hi & Hi' & Hw & <-)].
    + rewrite Hh in Hr'. congruence.
    + cbn in Hi'. destruct (decide (core = c)) as [->|Hne].
      * rewrite list_lookup_insert_eq in Hi' by (by eapply lookup_lt_Some). simplify_eq. cbn in Hw. by simplify_list_eq.
      * rewrite list_lookup_insert_ne in Hi' by done. simplify_eq. by apply app_one_ne in Hw.
  - intros ->. right. eexists c, _, _, h. split; [eassumption|].
    split; [apply list_lookup_insert_eq; by eapply lookup_lt_Some|]. by split.
Qed.

Lemma kernel_wakeup_law k h me :
  running k me -> waits k h ->
  exists k', custom_wakeup h k = Done tt k' /\ running k' me /\
    (forall h', waits k h' -> TaskHandle.get_id h' <> TaskHandle.get_id h -> waits k' h') /\
    (forall id, woken id k k' <-> id = TaskHandle.get_id h).
Proof.
  intros [Hk (tc & Htc & Hst & ->)] [_ [(Hc & r & tk & Hr & Hb & Hid)|[Hc Hi]]].
  - assert (Hin : exists n, n ∈ blocked_tasks k /\ BlockedQueue.task n = r).
    { destruct (k_tasks _ _ _ (proj1 Hk) _ _ Hr) as [_ Hp]. unfold placed in Hp. rewrite Hb in Hp.
      apply list_elem_of_In, in_map_iff in Hp as (n & <- & Hn). exists n. by rewrite list_elem_of_In. }
    destruct Hin as (n & Hn & <-).
    destruct (custom_wakeup_local h k n tk Hk Hc Hn Hr Hid)
      as (k' & E & Hk' & Hrest & Hcur & Hsi & Hh & _).
    exists k'. split; [done|]. split_and!.
    + split; [done|]. exists tc. split; [|done]. rewrite Hcur, Hh, lookup_insert_ne; [done|]. congruence.
    + intros h' [_ Hw'] Hne. split; [done|].
      assert (Hco : core_id k' = core_id k) by apply Hrest.
      destruct Hw' as [(Hc' & r' & tk' & Hr' & Hb' & Hid')|[Hc' Hi']].
      * left. split; [by rewrite Hco|]. exists r', tk'. split; [|done].
        rewrite Hh, lookup_insert_ne; [done|]. intros <-. congruence.
      * right. split; [by rewrite Hco|by rewrite Hsi].
    + rewrite <- Hid. by apply (woken_cell k k' (BlockedQueue.task n)).
  - destruct (custom_wakeup_remote h k Hk Hc Hi) as (k' & E & Hag & _ & Hin).
    assert (Hk' : kinv k') by (by eapply agree_kinv). exists k'. split; [done|].
    destruct Hag as (Eo & Ec & _ & _ & _ & Eq & _).
    assert (Eh : heap k' = heap k) by (unfold heap; by rewrite Eq). split_and!.
    + split; [done|]. exists tc. by rewrite Eh, Ec.
    + intros h' [_ [(Hc' & r' & tk' & Hr' & Hb' & Hid')|[Hc' Hi']]] _; (split; [done|]).
      * left. split; [by rewrite Eo|]. exists r', tk'. by rewrite Eh.
      * right. split; [by rewrite Eo|]. by apply Hin.
    + by apply woken_inbox.
Qed.

Lemma kernel_reschedule_law k :
  exists k', reschedule k = Done tt k' /\ forall h, waits k h -> waits k' h.
Proof.
  eexists. split; [reflexivity|]. intros h [Hk Hw]. split; [|exact Hw].
  eapply agree_kinv; [|exact Hk]. by split_and!.
Qed.

Lemma kernel_handle_law k h : running k h -> get_current_task_handle k = Done h k.
Proof. intros [_ (tc & Htc & _ & ->)]. by apply current_handle_run. Qed.

Lemma kernel_id_law k h : running k h -> get_current_task_id k = Done (TaskHandle.get_id h) k.
Proof. intros [_ (tc & Htc & _ & ->)]. by rewrite (current_id_run _ _ Htc). Qed.

#[global] Instance kernel_calls : KernelCalls t := {
  kc_now := clock;
  kc_current_handle := get_current_task_handle;
  kc_current_id := get_current_task_id;
  kc_block_current := block_current_task;
  kc_wakeup := custom_wakeup;
  kc_reschedule := reschedule;
  kc_running := running;
  kc_waits := waits;
  kc_woken := woken;
  kc_handle_law := kernel_handle_law;
  kc_id_law := kernel_id_law;
  kc_block_law := kernel_block_law;
  kc_wakeup_law := kernel_wakeup_law;
  kc_woken_change := kernel_woken_change;
  kc_reschedule_law := kernel_reschedule_law;
}.

(** ** Timeouts and wakeups *)

(** A handle whose task the timer has made ready is not found any more. *)
Lemma woken_not_found k k1 n tn :
  kinv k -> n ∈ blocked_tasks k -> BlockedQueue.elapsed (clock k) n = true ->
  heap k !! BlockedQueue.task n = Some tn -> wake_pending_tasks k = Done tt k1 ->
  custom_wakeup (Task.handle tn) k1 = Panic "unreachable: woken task is not blocked".
Proof.
  intros Hk Hn Hel Htn E.
  destruct (wake_pending_kinv k Hk) as (k1' & E' & Hk1 & _ & Hb & Hh).
  rewrite E in E'. injection E' as <-.
  destruct (on_queues_frame (BlockedQueue.handle_waiting_tasks (clock k) (core_id k)) k tt k1)
    as (s & Hs); [by rewrite <- E|].
  assert (Hr : BlockedQueue.task n ∈
            map BlockedQueue.task (List.filter (BlockedQueue.elapsed (clock k)) (blocked_tasks k))).
  { apply list_elem_of_In, in_map, filter_In. split; [by apply list_elem_of_In|done]. }
  assert (Hr1 : heap k1 !! BlockedQueue.task n = Some (Task.set_status Ready tn)).
  { rewrite Hh, readied_lookup, Htn, bool_decide_true by done. done. }
  assert (Hc : core_id k1 = core_id k) by (by rewrite Hs).
  assert (Htc : Task.core_id tn = core_id k) by apply (k_tasks _ _ _ (proj1 Hk) _ _ Htn).
  unfold custom_wakeup. erewrite bind_run by reflexivity. cbn [Task.handle TaskHandle.get_core_id].
  rewrite Hc, Htc, Z.eqb_refl. unfold on_queues, zoom, BlockedQueue.wake, BlockedQueue.custom_wakeup, bind, get.
  rewrite (proj2 (BlockedQueue.find_blocked_None _ _ _)); [done|].
  intros n' tk' Hn' Htk' Hid.
  assert (Hst : Task.status tk' = Blocked).
  { destruct (in_blocked_status _ _ _ (BlockedQueue.task n') (proj1 Hk1)) as (t2 & Ht2 & ?).
    - apply list_elem_of_In, in_map. by apply list_elem_of_In.
    - unfold heap in Ht2. congruence. }
  assert (Heq : BlockedQueue.task n = BlockedQueue.task n').
  { eapply (k_ids _ _ k1); [apply Hk1|exact Hr1|exact Htk'|done|by rewrite Hst|done]. }
  unfold heap in Hr1. rewrite Heq in Hr1. assert (tk' = Task.set_status Ready tn) as -> by congruence. done.
Qed.

(** C30: a timed wait on a semaphore can bring the kernel down.  When the
    deadline of the waiter that is first in the queue has passed and the timer
    has made it ready, but it has not run yet, its handle is still in the
    semaphore's queue; a [release] then takes it out and wakes it once more,
    which ends in [unreachable!()]. *)
Theorem semaphore_timeout_race_panics k n tn c (q : HandleQueue.t) p ll :
  kinv k -> n ∈ blocked_tasks k -> BlockedQueue.elapsed (clock k) n = true ->
  heap k !! BlockedQueue.task n = Some tn ->
  wq_repr p q ll -> fst <$> fifo_pop ll = Some (Task.handle tn) ->
  exists k1 why, wake_pending_tasks k = Done tt k1 /\
    Semaphore.release (Semaphore.mkWorld (Semaphore.mkState c q) p k1) = Panic why.
Proof.
  intros Hk Hn Hel Htn Hq Hpop. destruct (wake_pending_kinv k Hk) as (k1 & E & _).
  pose proof (woken_not_found k k1 n tn Hk Hn Hel Htn E) as Hw.
  exists k1. eexists. split; [done|].
  destruct (wq_pop_law p q ll Hq) as (p' & q' & Ep & _). rewrite Hpop in Ep.
  unfold Semaphore.release. do 2 erewrite bind_run by reflexivity.
  erewrite bind_run by (apply zoom_run; exact Ep). cbn beta iota.
  erewrite bind_run by reflexivity. apply zoom_panic. exact Hw.
Qed.

(** ** Concrete instances: the kernel of [SchedProps.demo] *)

Notation demo := SchedProps.demo.
Notation demo_handle := SchedProps.demo_handle.

Lemma demo_running : running demo (demo_handle 1).
Proof.
  split; [exact SchedProps.demo_kinv|].
  exists (SchedProps.demo_task 1 Running NORMAL_PRIO). split; [reflexivity|]. split; reflexivity.
Qed.

Lemma demo_waits : waits demo (demo_handle 3).
Proof.
  split; [exact SchedProps.demo_kinv|]. left. split; [reflexivity|].
  exists 3%nat, (SchedProps.demo_task 3 Blocked NORMAL_PRIO). split; [reflexivity|]. split; reflexivity.
Qed.

Lemma demo_pool_new : wq_repr HandleQueue.pool_used wq_new no_waiters.
Proof.
  apply new_queue_repr; [exact HandleQueue.pool_used_ok|]. unfold MAX_BITMAP_POOL. cbn. lia.
Qed.

Lemma demo_valid id : HandleQueue.valid_prio (demo_handle id).
Proof. by split. Qed.


Lemma semaphore_rounds_witness :
  exists r q' p' k', Semaphore.acquire_round true (Some 50)
      (Semaphore.mkWorld (Semaphore.mkState 0 wq_new) HandleQueue.pool_used demo) =
    Done r (Semaphore.mkWorld (Semaphore.mkState 0 q') p' k') /\ r = Semaphore.Parked.
Proof.
  destruct (Semaphore.semaphore_rounds 0 wq_new HandleQueue.pool_used demo (demo_handle 1) no_waiters)
    as [Ha _]; [exact demo_pool_new|exact demo_running|exact (demo_valid 1)|].
  destruct (Ha true (Some 50)) as (r & q' & p' & k' & E & _ & _ & Hp & _);
    [unfold u64_max; cbn; lia|].
  assert (Hr : r = Semaphore.Parked) by (apply Hp; split_and!; [lia|reflexivity|reflexivity]).
  exists r, q', p', k'. split; [|exact Hr]. rewrite E, Hr. reflexivity.
Defined.

(** A mutex task 1 has locked twice. *)
Definition demo_mutex : RecMutex.sys Pool HandleQueue.t t :=
  RecMutex.mkSys (RecMutex.mkWorld (RecMutex.mkState (Some 1) 2 wq_new) HandleQueue.pool_used demo) [1; 1] [] [].


(** Task 3 waits at address 64. *)
Lemma demo_lot :
  exists p q, Futex.lot_ok (Futex.mkWorld {[ 64 := q ]} p (fun _ => 0) demo)
    {[ 64 := Futex.joined (demo_handle 3) no_waiters ]}.
Proof.
  destruct (wq_push_law _ _ _ (demo_handle 3) demo_pool_new (demo_valid 3)) as (p & q & _ & Hr & _ & Hc).
  exists p, q. split_and!; cbn.
  - intros a. destruct (decide (a = 64)) as [->|Ha].
    + rewrite !lookup_singleton_eq. split; by eexists.
    + rewrite !lookup_singleton_ne by done. split; by intros [].
  - intros a q' ll [<- <-]%lookup_singleton_Some [_ <-]%lookup_singleton_Some.
    split; [exact Hr|]. split; [exact Hc|]. apply Futex.top_joined; [reflexivity|exact (demo_valid 3)].
  - intros a b q1 q2 [<- <-]%lookup_singleton_Some [<- _]%lookup_singleton_Some. done.
Qed.

Lemma futex_wake_exact_witness :
  exists w w' : Futex.world Pool HandleQueue.t t, Futex.futex_wake 64 5 w = Done 1 w'.
Proof.
  destruct demo_lot as (p & q & Hok).
  pose proof (Futex.futex_wake_exact _ _ 64 5 (demo_handle 1) Hok demo_running) as H.
  destruct H as [_ (w' & E & _)].
  - unfold i32_max. lia.
  - intros ll [_ <-]%lookup_singleton_Some. split.
    + vm_compute. apply NoDup_cons_2; [by apply not_elem_of_nil|apply NoDup_nil_2].
    + intros h Hh. vm_compute in Hh. apply list_elem_of_singleton in Hh as ->. exact demo_waits.
  - eexists _, w'. rewrite E. reflexivity.
Defined.

Lemma futex_wait_parks_witness :
  exists w' : Futex.world Pool HandleQueue.t t,
    Futex.futex_wait_enter 64 0 (Some 50) 0
      (Futex.mkWorld ∅ HandleQueue.pool_used (fun _ => 0) demo) =
    Done (Futex.Waiting (Some 50) (demo_handle 1)) w'.
Proof.
  destruct (Futex.futex_wait_parks (Futex.mkWorld ∅ HandleQueue.pool_used (fun _ => 0) demo) ∅
              64 0 (Some 50) 0 (demo_handle 1)) as (w' & E & _).
  - split_and!; cbn; try (intros ? ? ?; by rewrite lookup_empty).
    intros a. rewrite !lookup_empty. split; by intros [].
  - exact demo_running.
  - exact (demo_valid 1).
  - vm_compute. split; [discriminate|reflexivity].
  - intros _. exact demo_pool_new.
  - exists w'. exact E.
Defined.

Lemma futex_wait_answers_witness :
  exists w' : Futex.world Pool HandleQueue.t t,
    Futex.futex_wait_round 64 (Some 0) (demo_handle 1)
      (Futex.mkWorld ∅ HandleQueue.pool_used (fun _ => 0) demo) = Done (Some 0) w'.
Proof.
  destruct (Futex.futex_wait_answers (Futex.mkWorld ∅ HandleQueue.pool_used (fun _ => 0) demo) ∅
              64 (Some 0) (demo_handle 1)) as (w' & E & _).
  - split_and!; cbn; try (intros ? ? ?; by rewrite lookup_empty).
    intros a. rewrite !lookup_empty. split; by intros [].
  - exact demo_running.
  - exact (demo_valid 1).
  - vm_compute. split; [discriminate|reflexivity].
  - exists w'. exact E.
Defined.

Lemma futex_leaks_bitmaps_witness :
  exists w1 : Futex.world Pool HandleQueue.t t,
    Futex.futex_wait_enter 64 0 None 0
      (Futex.mkWorld ∅ HandleQueue.pool_used (fun _ => 0) demo) =
    Done (Futex.Waiting None (demo_handle 1)) w1.
Proof.
  destruct (Futex.futex_leaks_bitmaps (Futex.mkWorld ∅ HandleQueue.pool_used (fun _ => 0) demo) 64 (demo_handle 1))
    as [H _]; [exact HandleQueue.pool_used_ok|reflexivity|exact demo_running|exact (demo_valid 1)|].
  destruct H as (w1 & E & _); [unfold MAX_BITMAP_POOL; cbn; lia|]. exists w1. exact E.
Defined.

(** Task 3 waits with deadline 100; at time 101 the timer wakes it. *)
Lemma semaphore_timeout_race_panics_witness :
  exists p q k1 why, wake_pending_tasks (set_clock 101 demo) = Done tt k1 /\
    Semaphore.release (Semaphore.mkWorld (Semaphore.mkState 0 q) p k1) = Panic why
    /\ wq_repr p q (Futex.joined (demo_handle 3) no_waiters).
Proof.
  destruct (wq_push_law _ _ _ (demo_handle 3) demo_pool_new (demo_valid 3)) as (p & q & _ & Hr & _).
  destruct (semaphore_timeout_race_panics (set_clock 101 demo) (BlockedQueue.mkBlocked 3 (Some 100))
              (SchedProps.demo_task 3 Blocked NORMAL_PRIO) 0 q p (Futex.joined (demo_handle 3) no_waiters))
    as (k1 & why & E & Ep).
  - eapply agree_kinv; [|exact SchedProps.demo_kinv]. by split_and!.
  - by left.
  - reflexivity.
  - reflexivity.
  - exact Hr.
  - vm_compute. reflexivity.
  - exists p, q, k1, why. split; [exact E|]. split; [exact Ep|exact Hr].
Defined.

(** One second and 500 microseconds after boot. *)
Lemma nanosleep_absolute_witness :
  Time.sys_clock_nanosleep (fun _ => ret tt) 0 Time.CLOCK_MONOTONIC Time.TIMER_ABSTIME
    (Some (Time.mkTimespec 1 500000)) demo =
  (do! (do! block_current_task (Some 1000500) in reschedule) in ret 0) demo.
Proof.
  etransitivity.
  - apply (Time.nanosleep_absolute (fun _ => ret tt) 0 Time.TIMER_ABSTIME (Time.mkTimespec 1 500000) demo);
      [cbn; lia|cbn; lia|reflexivity|cbn; lia].
  - reflexivity.
Defined.

(** The deadline was a second ago, the semaphore has no resource. *)
Lemma sem_timedwait_deadline_witness :
  let w := Semaphore.mkWorld (Semaphore.mkState 0 HandleQueue.new) HandleQueue.pool_used demo in
  SemCalls.timedwait_run (fun _ _ => True) 2000000 false (Some (Time.mkTimespec 1 0)) w 0 w.
Proof.
  intros w.
  destruct (SemCalls.sem_timedwait_deadline (fun _ _ => True) 2000000 false (Time.mkTimespec 1 0) w)
    as (H & _); [cbn; lia|cbn; lia|lia|].
  apply H; [cbn; lia|]. split; reflexivity.
Defined.

End SynchKernel.
