(* ===== verification/TaskCalls.v ===== *)
(** The task system calls of [src/src/syscalls/tasks.rs] on the per-core
    scheduler: priorities, spawning, joining, and blocking or waking a task by
    its identifier through the table [BLOCKED_TASKS]. *)

From S2P Require Import Prelude PrioFifo Tasks Errors HandleQueue ReadyQueue Timers Supervisor SlotPool BlockedQueue Kernel Scheduler SchedInv SchedOps SchedProps Interfaces Semaphore RecMutex Futex SynchKernel.
Import Kernel Scheduler SchedInv SchedOps SynchKernel.

Module TaskCalls.

Definition USER_STACK_SIZE : Z := 0x100000.

(** The kernel and [BLOCKED_TASKS]. *)
Record world : Type := mkWorld { kern : t; BLOCKED_TASKS : gmap Z TaskHandle.t }.

Definition set_kern (k : t) (w : world) : world := mkWorld k (BLOCKED_TASKS w).
Definition set_BLOCKED_TASKS (m : gmap Z TaskHandle.t) (w : world) : world := mkWorld (kern w) m.
Definition on_kern {A} (m : M t A) : M world A := zoom kern set_kern m.

(** [id] is the identifier behind the pointer, [None] for null. *)
Definition sys_getprio (id : option Z) : M t Z :=
  let! task := get_current_task_handle in
  ret (if from_option (fun id => id =? TaskHandle.get_id task) true id
       then TaskHandle.get_priority task else neg_errno Errno.Inval).

Definition sys_setprio : Z := neg_errno Errno.Nosys.

Definition sys_yield : M t unit := reschedule.

Definition sys_spawn2 (env : Env) (func arg prio stack_size selector : Z) : M t Z :=
  Scheduler.spawn env func arg prio stack_size selector.

(** The answer, and the identifier stored through a pointer that is not null. *)
Definition sys_spawn (env : Env) (func arg prio selector : Z) : M t (Z * Z) :=
  let! new_id := Scheduler.spawn env func arg prio USER_STACK_SIZE selector in
  ret (0, new_id).

(** A round of [sys_join]: [scheduler::join] only answers [Ok]. *)
Definition sys_join (id : Z) : M t (option Z) :=
  let! gone := join_round id in
  ret (if gone : bool then Some 0 else None).

Definition block_current_task (timeout : option Z) : M world unit :=
  let! w := get in
  let wakeup_time := (fun t => wrapu 64 (clock (kern w) + t * 1000)) <$> timeout in
  let! handle := on_kern get_current_task_handle in
  let! tid := on_kern get_current_task_id in
  do! modify (fun w => set_BLOCKED_TASKS (<[tid := handle]> (BLOCKED_TASKS w)) w) in
  on_kern (Scheduler.block_current_task wakeup_time).

Definition sys_block_current_task : M world unit := block_current_task None.
Definition sys_block_current_task_with_timeout (timeout : Z) : M world unit :=
  block_current_task (Some timeout).

Definition sys_wakeup_task (id : Z) : M world unit :=
  let! w := get in
  match BLOCKED_TASKS w !! id with
  | None => ret tt
  | Some handle =>
      do! modify (fun w => set_BLOCKED_TASKS (delete id (BLOCKED_TASKS w)) w) in
      on_kern (custom_wakeup handle)
  end.

Definition sys_get_priority : M t Z := get_current_task_prio.

Definition sys_set_priority (id prio : Z) : M t unit :=
  if 0 <? prio then
    let! r := set_priority id prio in
    match r with
    | Ok _ => ret tt
    | Err _ => panic "Unable to set priority"
    end
  else panic "Invalid priority".

Definition sys_set_current_task_priority (prio : Z) : M t unit :=
  if 0 <? prio then set_current_task_priority prio else panic "Invalid priority".

(** ** Lemmas *)

Lemma block_current_task_ok w h timeout :
  running (kern w) h ->
  let wt := (fun t => wrapu 64 (clock (kern w) + t * 1000)) <$> timeout in
  from_option (fun t => t < u64_max) True wt ->
  exists k', block_current_task timeout w =
      Done tt (mkWorld k' (<[TaskHandle.get_id h := h]> (BLOCKED_TASKS w))) /\
    Scheduler.block_current_task wt (kern w) = Done tt k' /\ waits k' h /\
    (forall h', waits (kern w) h' -> waits k' h').
Proof.
  intros Hrun wt Hwt.
  assert (Hwt' : from_option (fun t => 0 <= t < u64_max) True wt).
  { subst wt. destruct timeout as [t|]; [|done]. cbn in *. split; [|done].
    unfold wrapu. apply Z.mod_pos_bound. lia. }
  destruct (kernel_block_law (kern w) h wt Hrun Hwt') as (k' & E & _ & _ & Hw & Hkeep).
  exists k'. split; [|done]. unfold block_current_task. erewrite bind_run by reflexivity.
  erewrite bind_run by (apply zoom_run, kernel_handle_law; exact Hrun).
  erewrite bind_run by (apply zoom_run, kernel_id_law; exact Hrun).
  erewrite bind_run by reflexivity. fold wt. unfold on_kern. by erewrite zoom_run by (exact E).
Qed.

(** ** Properties *)

(** a task blocked through [sys_block_current_task] is recorded under its
    identifier and can be woken by it, once: from any later state in which it
    still waits, [sys_wakeup_task] removes the record and makes it ready, and
    a second call finds nothing and changes nothing. *)
Theorem block_and_wakeup w h :
  running (kern w) h ->
  exists k1, sys_block_current_task w =
      Done tt (mkWorld k1 (<[TaskHandle.get_id h := h]> (BLOCKED_TASKS w))) /\ waits k1 h /\
    forall k2 me, running k2 me -> waits k2 h ->
      exists k3, sys_wakeup_task (TaskHandle.get_id h)
          (mkWorld k2 (<[TaskHandle.get_id h := h]> (BLOCKED_TASKS w))) =
          Done tt (mkWorld k3 (delete (TaskHandle.get_id h) (BLOCKED_TASKS w))) /\ running k3 me /\
        sys_wakeup_task (TaskHandle.get_id h)
          (mkWorld k3 (delete (TaskHandle.get_id h) (BLOCKED_TASKS w))) =
          Done tt (mkWorld k3 (delete (TaskHandle.get_id h) (BLOCKED_TASKS w))).
Proof.
  intros Hrun. destruct (block_current_task_ok w h None Hrun I) as (k1 & E & _ & Hw & _).
  exists k1. split_and!; [done..|]. intros k2 me Hrun2 Hw2.
  destruct (kernel_wakeup_law k2 h me Hrun2 Hw2) as (k3 & E3 & Hrun3 & _). exists k3. split_and!; [|done|].
  - unfold sys_wakeup_task. erewrite bind_run by reflexivity. cbn [BLOCKED_TASKS].
    rewrite lookup_insert_eq. erewrite bind_run by reflexivity. unfold on_kern.
    erewrite zoom_run by (exact E3). unfold set_kern, set_BLOCKED_TASKS. cbn.
    by rewrite delete_insert_eq.
  - unfold sys_wakeup_task. erewrite bind_run by reflexivity. cbn [BLOCKED_TASKS].
    by rewrite lookup_delete_eq.
Qed.

(** the record of a task blocked with a timeout outlives the timeout: once
    the timer has woken the task, [sys_wakeup_task] by its identifier still
    finds the record and panics. *)
Theorem wakeup_after_timeout_panics k n tn m :
  kinv k -> n ∈ blocked_tasks k -> BlockedQueue.elapsed (clock k) n = true ->
  heap k !! BlockedQueue.task n = Some tn -> m !! Task.id tn = Some (Task.handle tn) ->
  exists k1 why, wake_pending_tasks k = Done tt k1 /\
    sys_wakeup_task (Task.id tn) (mkWorld k1 m) = Panic why.
Proof.
  intros Hk Hn Hel Htn Hm. destruct (wake_pending_kinv k Hk) as (k1 & E & _).
  pose proof (woken_not_found k k1 n tn Hk Hn Hel Htn E) as Hw. exists k1. eexists. split; [done|].
  unfold sys_wakeup_task. erewrite bind_run by reflexivity. cbn [BLOCKED_TASKS]. rewrite Hm.
  erewrite bind_run by reflexivity. apply zoom_panic. exact Hw.
Qed.

Lemma block_and_wakeup_witness :
  exists k1, sys_block_current_task (mkWorld demo ∅) = Done tt (mkWorld k1 {[ 1 := demo_handle 1 ]}).
Proof.
  destruct (block_and_wakeup (mkWorld demo ∅) (demo_handle 1) demo_running) as (k1 & E & _).
  exists k1. exact E.
Defined.

Lemma wakeup_after_timeout_panics_witness :
  exists k1 why, wake_pending_tasks (set_clock 101 demo) = Done tt k1 /\
    sys_wakeup_task 3 (mkWorld k1 {[ 3 := demo_handle 3 ]}) = Panic why.
Proof.
  apply (wakeup_after_timeout_panics (set_clock 101 demo) (BlockedQueue.mkBlocked 3 (Some 100))
           (SchedProps.demo_task 3 Blocked NORMAL_PRIO) {[ 3 := demo_handle 3 ]}); try reflexivity.
  - eapply agree_kinv; [|exact SchedProps.demo_kinv]. by split_and!.
  - by left.
Defined.

End TaskCalls.
