(* ===== verification/Files.v ===== *)
(** Files of the in-memory file system: the flags of [src/src/fd/mod.rs], the
    attributes of [src/src/fs/mod.rs], and read-only and writable files with
    the open file descriptions on them ([src/src/fs/mem.rs]).  An [Arc] is the
    key of its content in the store, so that descriptors and directory entries
    share one content. *)

From S2P Require Import Prelude Errors Time.

Module Flags.

(** [bitflags]: [contains] and [intersects]. *)
Definition contains (bits other : Z) : bool := Z.land bits other =? other.
Definition intersects (bits other : Z) : bool := negb (Z.land bits other =? 0).

Definition O_RDONLY : Z := 0.
Definition O_WRONLY : Z := 1.
Definition O_RDWR : Z := 2.
Definition O_CREAT : Z := 0x40.
Definition O_EXCL : Z := 0x80.
Definition O_TRUNC : Z := 0x200.
Definition O_APPEND : Z := 0x400.
Definition O_NONBLOCK : Z := 0x800.
Definition O_DIRECTORY : Z := 0x10000.

Definition R_OK : Z := 4.
Definition W_OK : Z := 2.
Definition X_OK : Z := 1.
Definition F_OK : Z := 0.

Definition POLLIN : Z := 0x1.
Definition POLLOUT : Z := 0x4.
Definition POLLRDNORM : Z := 0x40.
Definition POLLRDBAND : Z := 0x80.
Definition POLLWRNORM : Z := 0x100.
Definition POLLWRBAND : Z := 0x200.
Definition POLL_READ : Z := Z.lor (Z.lor POLLIN POLLRDNORM) POLLRDBAND.
Definition POLL_WRITE : Z := Z.lor (Z.lor POLLOUT POLLWRNORM) POLLWRBAND.

Definition EFD_SEMAPHORE : Z := 1.
Definition EFD_NONBLOCK : Z := 0x800.

Definition S_IFREG : Z := 0x8000.
Definition S_IFDIR : Z := 0x4000.
Definition S_IRUSR : Z := 0x100.
Definition S_IWUSR : Z := 0x80.
Definition S_IXUSR : Z := 0x40.
Definition S_IRGRP : Z := 0x20.
Definition S_IWGRP : Z := 0x10.
Definition S_IXGRP : Z := 0x8.
Definition S_IROTH : Z := 0x4.
Definition S_IWOTH : Z := 0x2.
Definition S_IXOTH : Z := 0x1.

(** [AccessPermission::default]: [0o666]. *)
Definition default_permission : Z := 0x1b6.
(** [0o777] *)
Definition PERM_777 : Z := 0x1ff.

Definition can_access (self access_permissions : Z) : bool :=
  if contains self R_OK && negb (contains access_permissions S_IRUSR)
     && negb (contains access_permissions S_IRGRP) && negb (contains access_permissions S_IROTH)
  then false
  else if contains self W_OK && negb (contains access_permissions S_IWUSR)
     && negb (contains access_permissions S_IWGRP) && negb (contains access_permissions S_IWOTH)
  then false
  else if contains self X_OK && negb (contains access_permissions S_IXUSR)
     && negb (contains access_permissions S_IXGRP) && negb (contains access_permissions S_IXOTH)
  then false
  else true.
End Flags.

Module Files.
Import Flags.

Record FileAttr : Set := mkFileAttr {
  st_dev : Z; st_ino : Z; st_nlink : Z; st_mode : Z; st_uid : Z; st_gid : Z; st_rdev : Z;
  st_size : Z; st_blksize : Z; st_blocks : Z;
  st_atim : Time.timespec; st_mtim : Time.timespec; st_ctim : Time.timespec
}.

(** The attributes with the given mode, size and time and the default for the
    rest. *)
Definition attr_new (mode size : Z) (t : Time.timespec) : FileAttr :=
  mkFileAttr 0 0 0 mode 0 0 0 size 0 0 t t t.

Definition set_st_mode (x : Z) (a : FileAttr) : FileAttr :=
  mkFileAttr (st_dev a) (st_ino a) (st_nlink a) x (st_uid a) (st_gid a) (st_rdev a) (st_size a)
    (st_blksize a) (st_blocks a) (st_atim a) (st_mtim a) (st_ctim a).
Definition set_st_size (x : Z) (a : FileAttr) : FileAttr :=
  mkFileAttr (st_dev a) (st_ino a) (st_nlink a) (st_mode a) (st_uid a) (st_gid a) (st_rdev a) x
    (st_blksize a) (st_blocks a) (st_atim a) (st_mtim a) (st_ctim a).
Definition set_st_atim (x : Time.timespec) (a : FileAttr) : FileAttr :=
  mkFileAttr (st_dev a) (st_ino a) (st_nlink a) (st_mode a) (st_uid a) (st_gid a) (st_rdev a)
    (st_size a) (st_blksize a) (st_blocks a) x (st_mtim a) (st_ctim a).
(** Access, modification and status change at once. *)
Definition set_times (x : Time.timespec) (a : FileAttr) : FileAttr :=
  mkFileAttr (st_dev a) (st_ino a) (st_nlink a) (st_mode a) (st_uid a) (st_gid a) (st_rdev a)
    (st_size a) (st_blksize a) (st_blocks a) x x x.

Inductive NodeKind : Set := File | Directory.
Inductive SeekWhence : Set := Set_ | Cur | End_ | Data | Hole.

#[global] Instance NodeKind_eq_dec : EqDecision NodeKind.
Proof. solve_decision. Defined.
#[global] Instance SeekWhence_eq_dec : EqDecision SeekWhence.
Proof. solve_decision. Defined.

Definition whence_try_from (z : Z) : option SeekWhence :=
  match z with
  | 0 => Some Set_ | 1 => Some Cur | 2 => Some End_ | 3 => Some Data | 4 => Some Hole
  | _ => None
  end.

(** Contents: [RomFileInner] is never written but for its access time. *)
Record RomFileInner : Type := mkRom { rom_data : list Z; rom_attr : FileAttr }.
Record RamFileInner : Type := mkRam { data : list Z; attr : FileAttr }.

(** The nodes of the tree ([Box<dyn VfsNode>]): a file has the key of its
    content, a directory that of its entries and its attributes. *)
Inductive Node : Type :=
  | RomFile (inner : Z)
  | RamFile (inner : Z)
  | MemDirectory (inner : Z) (dir_attr : FileAttr)
  | DevDirectory.

(** The open file descriptions of the file system. *)
Inductive Fd : Type :=
  | RomFileInterface (pos inner : Z)
  | RamFileInterface (pos inner : Z)
  | MemDirectoryInterface (inner read_idx : Z)
  | DirectoryReader (entries : list string)
  | RandomFile.

Record store : Type := mkStore {
  roms : gmap Z RomFileInner;
  rams : gmap Z RamFileInner;
  dirs : gmap Z (gmap string Node);
  objs : gmap Z Fd;
  next : Z (** the next unused key *)
}.

Definition set_rom (i : Z) (x : RomFileInner) (s : store) : store :=
  mkStore (<[i := x]> (roms s)) (rams s) (dirs s) (objs s) (next s).
Definition set_ram (i : Z) (x : RamFileInner) (s : store) : store :=
  mkStore (roms s) (<[i := x]> (rams s)) (dirs s) (objs s) (next s).
Definition set_dir (i : Z) (x : gmap string Node) (s : store) : store :=
  mkStore (roms s) (rams s) (<[i := x]> (dirs s)) (objs s) (next s).
Definition set_obj (i : Z) (x : Fd) (s : store) : store :=
  mkStore (roms s) (rams s) (dirs s) (<[i := x]> (objs s)) (next s).

(** [Arc::new]: a fresh key. *)
Definition fresh : M store Z := fun s =>
  Done (next s) (mkStore (roms s) (rams s) (dirs s) (objs s) (next s + 1)).
Definition new_obj (x : Fd) : M store Z :=
  let! i := fresh in do! modify (set_obj i x) in ret i.

Definition get_rom (i : Z) : M store RomFileInner :=
  let! s := get in unwrap (roms s !! i) "reference".
Definition get_ram (i : Z) : M store RamFileInner :=
  let! s := get in unwrap (rams s !! i) "reference".
Definition get_dir (i : Z) : M store (gmap string Node) :=
  let! s := get in unwrap (dirs s !! i) "reference".
Definition get_obj (i : Z) : M store Fd :=
  let! s := get in unwrap (objs s !! i) "reference".

Definition len (l : list Z) : Z := Z.of_nat (length l).

(** [&data[a..b]] and [data[a..b].copy_from_slice(buf)]. *)
Definition slice {S} (l : list Z) (a b : Z) : M S (list Z) :=
  if (a <=? b) && (b <=? len l) then ret (take (Z.to_nat (b - a)) (drop (Z.to_nat a) l))
  else panic "range out of range for slice".
Definition copy_into {S} (l : list Z) (a b : Z) (buf : list Z) : M S (list Z) :=
  if (a <=? b) && (b <=? len l) && (b - a =? len buf)
  then ret (take (Z.to_nat a) l ++ buf ++ drop (Z.to_nat b) l)
  else panic "range out of range for slice".
(** [Vec::resize] with zeros. *)
Definition vec_resize {S} (n : Z) (l : list Z) : M S (list Z) :=
  if n <=? isize_max then ret (resize (Z.to_nat n) 0 l) else panic "capacity overflow".

(** ** Creating files *)

Section Operations.
(** [systemtime::now_micros()] and [entropy::read]. *)
Variable now_micros : Z.
Variable entropy_read : Z -> io_result (list Z).

Definition now : Time.timespec := Time.from_usec (wraps 64 now_micros).

Definition RomFile_new (bytes : list Z) (mode : Z) : M store Node :=
  let! i := fresh in
  do! modify (set_rom i (mkRom bytes (attr_new (Z.lor mode S_IFREG) (len bytes) now))) in
  ret (RomFile i).
Definition RamFile_new (mode : Z) : M store Node :=
  let! i := fresh in
  do! modify (set_ram i (mkRam [] (attr_new (Z.lor mode S_IFREG) 0 now))) in
  ret (RamFile i).
Definition MemDirectory_new (mode : Z) : M store Node :=
  let! i := fresh in
  do! modify (set_dir i ∅) in
  ret (MemDirectory i (attr_new (Z.lor mode S_IFDIR) 0 now)).

Definition get_kind (n : Node) : NodeKind :=
  match n with RomFile _ | RamFile _ => File | MemDirectory _ _ | DevDirectory => Directory end.

Definition get_file_attributes (n : Node) : M store (io_result FileAttr) :=
  match n with
  | RomFile i => let! f := get_rom i in ret (Ok (rom_attr f))
  | RamFile i => let! f := get_ram i in ret (Ok (attr f))
  | MemDirectory _ a => ret (Ok a)
  | DevDirectory => ret (Err Errno.Nosys)
  end.

Definition get_object (n : Node) : M store (io_result Z) :=
  match n with
  | RomFile i => let! o := new_obj (RomFileInterface 0 i) in ret (Ok o)
  | RamFile i => let! o := new_obj (RamFileInterface 0 i) in ret (Ok o)
  | MemDirectory i _ => let! o := new_obj (MemDirectoryInterface i 0) in ret (Ok o)
  | DevDirectory => ret (Err Errno.Nosys)
  end.

(** ** Open files: [ObjectInterface] *)

Definition poll (o : Z) (event : Z) : M store (io_result Z) :=
  let! f := get_obj o in
  match f with
  | RomFileInterface pos i =>
      let! inner := get_rom i in
      ret (Ok (if pos <? len (rom_data inner) then Z.land event POLL_READ else 0))
  | RamFileInterface pos i =>
      let! inner := get_ram i in
      let available := if pos <? len (data inner) then Z.lor POLL_WRITE POLL_READ else POLL_WRITE in
      ret (Ok (Z.land event available))
  | _ => ret (Ok 0)
  end.

(** The bytes a read puts at the front of a buffer of [n] bytes. *)
Definition read (o n : Z) : M store (io_result (list Z)) :=
  let! f := get_obj o in
  match f with
  | RomFileInterface pos i =>
      let! inner := get_rom i in
      do! modify (set_rom i (mkRom (rom_data inner) (set_st_atim now (rom_attr inner)))) in
      if len (rom_data inner) <=? pos then ret (Ok [])
      else
        let l := Z.min (len (rom_data inner) - pos) n in
        let! bytes := slice (rom_data inner) pos (wrapu 64 (pos + l)) in
        do! modify (set_obj o (RomFileInterface (wrapu 64 (pos + l)) i)) in
        ret (Ok bytes)
  | RamFileInterface pos i =>
      let! inner := get_ram i in
      do! modify (set_ram i (mkRam (data inner) (set_st_atim now (attr inner)))) in
      if len (data inner) <=? pos then ret (Ok [])
      else
        let l := if len (data inner) - pos <? n then len (data inner) - pos else n in
        let! bytes := slice (data inner) pos (wrapu 64 (pos + l)) in
        do! modify (set_obj o (RamFileInterface (wrapu 64 (pos + l)) i)) in
        ret (Ok bytes)
  | RandomFile => ret (entropy_read n)
  | _ => ret (Err Errno.Nosys)
  end.

Definition write (o : Z) (buf : list Z) : M store (io_result Z) :=
  let! f := get_obj o in
  match f with
  | RamFileInterface pos i =>
      let! inner := get_ram i in
      let e := wrapu 64 (pos + len buf) in
      let! inner :=
        (if len (data inner) <? e
         then let! d := vec_resize e (data inner) in
              ret (mkRam d (set_st_size (len d) (attr inner)))
         else ret inner) in
      let! d := copy_into (data inner) pos e buf in
      do! modify (set_ram i (mkRam d (set_times now (attr inner)))) in
      do! modify (set_obj o (RamFileInterface e i)) in
      ret (Ok (len buf))
  | _ => ret (Err Errno.Nosys)
  end.

(** The position [lseek] asks for. *)
Definition seek_target (pos data_len offset : Z) (whence : SeekWhence) : io_result Z :=
  match whence with
  | Set_ => Ok offset
  | Cur => from_option Ok (Err Errno.Overflow) (checked_i64 (wraps 64 pos + offset))
  | End_ => from_option Ok (Err Errno.Overflow) (checked_i64 (data_len + offset))
  | Data | Hole => Err Errno.Inval
  end.

Definition lseek (o offset : Z) (whence : SeekWhence) : M store (io_result Z) :=
  let! f := get_obj o in
  match f with
  | RomFileInterface pos i =>
      let! inner := get_rom i in
      let data_len := wraps 64 (len (rom_data inner)) in
      match seek_target pos data_len offset whence with
      | Err e => ret (Err e)
      | Ok new_pos =>
          if negb ((0 <=? new_pos) && (new_pos <=? data_len)) then ret (Err Errno.Inval)
          else do! modify (set_obj o (RomFileInterface new_pos i)) in ret (Ok new_pos)
      end
  | RamFileInterface pos i =>
      let! inner := get_ram i in
      let data_len := wraps 64 (len (data inner)) in
      match seek_target pos data_len offset whence with
      | Err e => ret (Err e)
      | Ok new_pos =>
          if new_pos <? 0 then ret (Err Errno.Inval)
          else
            do! (if data_len <? new_pos
                 then let! d := vec_resize new_pos (data inner) in
                      modify (set_ram i (mkRam d (set_st_size (len d) (attr inner))))
                 else ret tt) in
            do! modify (set_obj o (RamFileInterface new_pos i)) in
            ret (Ok new_pos)
      end
  | MemDirectoryInterface i read_idx =>
      if negb (bool_decide (whence = Set_)) && negb (offset =? 0) then ret (Err Errno.Inval)
      else
        do! modify (set_obj o (MemDirectoryInterface i (wrapu 64 offset))) in
        ret (Ok offset)
  | _ => ret (Err Errno.Inval)
  end.

Definition fstat (o : Z) : M store (io_result FileAttr) :=
  let! f := get_obj o in
  match f with
  | RomFileInterface _ i => let! inner := get_rom i in ret (Ok (rom_attr inner))
  | RamFileInterface _ i => let! inner := get_ram i in ret (Ok (attr inner))
  | _ => ret (Err Errno.Inval)
  end.

Definition truncate (o size : Z) : M store (io_result unit) :=
  let! f := get_obj o in
  match f with
  | RamFileInterface _ i =>
      let! inner := get_ram i in
      let! d := vec_resize size (data inner) in
      do! modify (set_ram i (mkRam d (set_st_size (wraps 64 size) (attr inner)))) in
      ret (Ok tt)
  | _ => ret (Err Errno.Nosys)
  end.

Definition chmod (o access_permission : Z) : M store (io_result unit) :=
  let! f := get_obj o in
  match f with
  | RamFileInterface _ i =>
      let! inner := get_ram i in
      do! modify (set_ram i (mkRam (data inner) (set_st_mode access_permission (attr inner)))) in
      ret (Ok tt)
  | _ => ret (Err Errno.Nosys)
  end.
End Operations.

End Files.
