(* ===== verification/FileSpec.v ===== *)
(** An abstract file and the refinement of it by the files of [Files]: a file
    is a size and the byte at each position, shared by descriptors that have a
    position of their own. *)

From S2P Require Import Prelude Errors Time Files.

Module FileSpec.
Import Flags Files.

(** ** The abstract file *)

Record afile : Type := mkAfile { asize : Z; abyte : Z -> Z; apos : gmap Z Z }.

(** Bytes past the old size read as zero once the file grows over them. *)
Definition grow (n : Z) (a : afile) : afile :=
  mkAfile n (fun j => if j <? asize a then abyte a j else 0) (apos a).
Definition move (o p : Z) (a : afile) : afile := mkAfile (asize a) (abyte a) (<[o := p]> (apos a)).
Definition patch (p : Z) (buf : list Z) (a : afile) : afile :=
  mkAfile (asize a)
    (fun j => if (p <=? j) && (j <? p + len buf) then nth (Z.to_nat (j - p)) buf 0 else abyte a j)
    (apos a).

Inductive op : Type :=
  | Read (n : Z)
  | Write (buf : list Z)
  | Seek (offset : Z) (whence : SeekWhence)
  | Truncate (n : Z).

Inductive answer : Type :=
  | Bytes (r : io_result (list Z))
  | Count (r : io_result Z)
  | Unit (r : io_result unit).

Definition spec_op (o p : Z) (x : op) (a : afile) : answer * afile :=
  match x with
  | Read n =>
      let l := Z.max 0 (Z.min (asize a - p) n) in
      (Bytes (Ok (abyte a <$> seqZ p l)), if asize a <=? p then a else move o (p + l) a)
  | Write buf =>
      (Count (Ok (len buf)), move o (p + len buf) (patch p buf (grow (Z.max (asize a) (p + len buf)) a)))
  | Seek offset whence =>
      match seek_target p (asize a) offset whence with
      | Err e => (Count (Err e), a)
      | Ok q => if q <? 0 then (Count (Err Errno.Inval), a)
                else (Count (Ok q), move o q (grow (Z.max (asize a) q) a))
      end
  | Truncate n => (Unit (Ok tt), grow n a)
  end.

(** Descriptor [o] applies [x]; a number that is no descriptor answers nothing. *)
Fixpoint spec_run (xs : list (Z * op)) (a : afile) : list answer * afile :=
  match xs with
  | [] => ([], a)
  | (o, x) :: xs =>
      match apos a !! o with
      | None => ([], a)
      | Some p => let '(r, a) := spec_op o p x a in
                  let '(rs, a) := spec_run xs a in (r :: rs, a)
      end
  end.

(** Arguments as the calls have them, within the capacity of a vector. *)
Definition fits (p : Z) (x : op) : Prop :=
  match x with
  | Read n => 0 <= n <= isize_max
  | Write buf => p + len buf <= isize_max
  | Seek offset _ => isize_min <= offset <= isize_max
  | Truncate n => 0 <= n <= isize_max
  end.

Fixpoint all_fit (xs : list (Z * op)) (a : afile) : Prop :=
  match xs with
  | [] => True
  | (o, x) :: xs => exists p, apos a !! o = Some p /\ fits p x /\ all_fit xs (spec_op o p x a).2
  end.

(** ** The implementation *)

Section Refinement.
Context (now_micros : Z) (entropy_read : Z -> io_result (list Z)).

Definition run_op (o : Z) (x : op) : M store answer :=
  match x with
  | Read n => let! r := read now_micros entropy_read o n in ret (Bytes r)
  | Write buf => let! r := write now_micros o buf in ret (Count r)
  | Seek offset whence => let! r := lseek o offset whence in ret (Count r)
  | Truncate n => let! r := truncate o n in ret (Unit r)
  end.

Fixpoint run (xs : list (Z * op)) : M store (list answer) :=
  match xs with
  | [] => ret []
  | (o, x) :: xs => let! r := run_op o x in let! rs := run xs in ret (r :: rs)
  end.

(** The content of key [i] and the descriptors on it are the abstract file. *)
Definition represents (s : store) (i : Z) (a : afile) : Prop :=
  (exists f, rams s !! i = Some f /\ len (data f) = asize a /\ asize a <= isize_max /\
     st_size (attr f) = asize a /\
     forall j, 0 <= j < asize a -> nth (Z.to_nat j) (data f) 0 = abyte a j) /\
  forall o p, apos a !! o = Some p ->
    objs s !! o = Some (RamFileInterface p i) /\ 0 <= p <= isize_max.

(** Everything but the content [i] and the descriptors of [a]. *)
Definition frame (i : Z) (a : afile) (s s' : store) : Prop :=
  roms s' = roms s /\ dirs s' = dirs s /\ next s' = next s /\
  (forall j, j <> i -> rams s' !! j = rams s !! j) /\
  (forall o, apos a !! o = None -> objs s' !! o = objs s !! o).

(** ** Lists *)

Lemma len_nonneg l : 0 <= len l.
Proof. unfold len. lia. Qed.

Lemma len_resize n l : 0 <= n -> len (resize (Z.to_nat n) 0 l) = n.
Proof. intros. unfold len. rewrite length_resize. lia. Qed.

Lemma nth_resize n l j :
  0 <= j < n ->
  nth (Z.to_nat j) (resize (Z.to_nat n) 0 l) 0 = if j <? len l then nth (Z.to_nat j) l 0 else 0.
Proof.
  intros Hj. rewrite !nth_lookup. unfold len. destruct (Z.ltb_spec j (Z.of_nat (length l))).
  - rewrite lookup_resize by lia. done.
  - rewrite lookup_resize_new by lia. done.
Qed.

Lemma nth_patched (l buf : list Z) p j :
  0 <= p -> p + len buf <= len l -> 0 <= j < len l ->
  nth (Z.to_nat j) (take (Z.to_nat p) l ++ buf ++ drop (Z.to_nat (p + len buf)) l) 0 =
  if (p <=? j) && (j <? p + len buf) then nth (Z.to_nat (j - p)) buf 0 else nth (Z.to_nat j) l 0.
Proof.
  unfold len. intros Hp Hle Hj. rewrite !nth_lookup.
  assert (Ht : length (take (Z.to_nat p) l) = Z.to_nat p) by (rewrite length_take; lia).
  destruct (Z.leb_spec p j); cbn [andb].
  - rewrite lookup_app_r by lia. rewrite Ht.
    destruct (Z.ltb_spec j (p + Z.of_nat (length buf))).
    + rewrite lookup_app_l by lia. do 2 f_equal. lia.
    + rewrite lookup_app_r by lia. rewrite lookup_drop. do 2 f_equal. lia.
  - rewrite lookup_app_l by lia. rewrite lookup_take_lt by lia. done.
Qed.

Lemma slice_bytes (l : list Z) (g : Z -> Z) p n :
  0 <= p -> 0 <= n -> p + n <= len l ->
  (forall j, 0 <= j < len l -> nth (Z.to_nat j) l 0 = g j) ->
  take (Z.to_nat (p + n - p)) (drop (Z.to_nat p) l) = g <$> seqZ p n.
Proof.
  unfold len. intros Hp Hn Hle Hg. apply list_eq. intros k. rewrite list_lookup_fmap.
  destruct (decide (Z.of_nat k < n)).
  - rewrite lookup_take_lt, lookup_drop, lookup_seqZ_lt by lia. cbn [fmap option_fmap option_map].
    rewrite <- Hg by lia. rewrite nth_lookup.
    replace (Z.to_nat (p + Z.of_nat k)) with (Z.to_nat p + k)%nat by lia.
    destruct (lookup_lt_is_Some_2 l (Z.to_nat p + k)) as [x ->]; [lia|done].
  - rewrite lookup_take_ge, lookup_seqZ_ge by lia. done.
Qed.

(** ** Single operations *)

Lemma represents_moved s i a o p :
  represents s i a -> is_Some (apos a !! o) -> 0 <= p <= isize_max ->
  represents (set_obj o (RamFileInterface p i) s) i (move o p a).
Proof.
  intros [Hf Ho] Hs Hp. split; [exact Hf|]. intros o' p'. cbn.
  destruct (decide (o = o')) as [<-|Hne].
  - rewrite !lookup_insert_eq. by intros [= <-].
  - rewrite !lookup_insert_ne by done. apply Ho.
Qed.

(** New content of the same file. *)
Lemma represents_content s i a f n g :
  represents s i a -> len (data f) = n -> n <= isize_max -> st_size (attr f) = n ->
  (forall j, 0 <= j < n -> nth (Z.to_nat j) (data f) 0 = g j) ->
  represents (set_ram i f s) i (mkAfile n g (apos a)).
Proof.
  intros [_ Ho] Hl Hn Hs Hg. split; [|exact Ho]. exists f. cbn. rewrite lookup_insert_eq. auto.
Qed.

Definition refines_step (o : Z) (x : op) (s : store) (i : Z) (a : afile) : Prop :=
  exists p s', apos a !! o = Some p /\ run_op o x s = Done (spec_op o p x a).1 s' /\
    represents s' i (spec_op o p x a).2 /\ frame i a s s'.

Lemma frame_set_ram i a s f : frame i a s (set_ram i f s).
Proof. split_and!; try done. intros j Hj. cbn. by rewrite lookup_insert_ne. Qed.

Lemma frame_set_obj i a s o x : is_Some (apos a !! o) -> frame i a s (set_obj o x s).
Proof.
  intros [p Hp]. split_and!; try done. intros o' Hn. cbn. rewrite lookup_insert_ne; [done|congruence].
Qed.

Lemma frame_trans i a a' s s' s'' :
  (forall o, apos a' !! o = None <-> apos a !! o = None) ->
  frame i a s s' -> frame i a' s' s'' -> frame i a s s''.
Proof.
  intros Hd (R & D & N & F & O) (R' & D' & N' & F' & O').
  split_and!; try congruence; intros.
  - rewrite F' by done. auto.
  - rewrite O' by (by apply Hd). auto.
Qed.

Lemma spec_op_dom o p x a o' :
  apos a !! o = Some p -> apos (spec_op o p x a).2 !! o' = None <-> apos a !! o' = None.
Proof.
  intros Hp.
  assert (Hm : forall q, (<[o := q]> (apos a) : gmap Z Z) !! o' = None <-> apos a !! o' = None).
  { intros q. destruct (decide (o = o')) as [<-|]; [rewrite lookup_insert_eq, Hp|by rewrite lookup_insert_ne].
    split; done. }
  destruct x as [n|buf|off w|n]; cbn.
  - destruct (asize a <=? p); [done|apply Hm].
  - apply Hm.
  - destruct (seek_target _ _ _ _) as [q|e]; [|done]. destruct (q <? 0); [done|apply Hm].
  - done.
Qed.

Lemma word_small z : 0 <= z <= 2 * isize_max -> wrapu 64 z = z.
Proof.
  intros H. apply wrapu_small. unfold isize_max, i64_max in H.
  change (2 ^ 63) with 9223372036854775808 in H. change (2 ^ 64) with 18446744073709551616. lia.
Qed.

Lemma isize_small z : 0 <= z <= isize_max -> wraps 64 z = z.
Proof.
  intros H. apply wraps_small; [lia|]. unfold isize_max, i64_max in H.
  change (2 ^ (64 - 1)) with 9223372036854775808. change (2 ^ 63) with 9223372036854775808 in H. lia.
Qed.

(** Running the first operation of a block on a store with the given file. *)
Ltac open_file Hobj Hf :=
  unfold run_op, read, write, lseek, truncate, get_obj, get_ram, unwrap, bind, get, modify, ret;
  cbn beta iota; rewrite Hobj; cbn beta iota; rewrite ?Hf; cbn beta iota.

Lemma read_refines o n s i a p :
  represents s i a -> apos a !! o = Some p -> fits p (Read n) -> refines_step o (Read n) s i a.
Proof.
  intros Ha Hp Hn. pose proof Ha as [(f & Hf & Hl & Hmax & Hsz & Hg) Ho].
  destruct (Ho _ _ Hp) as [Hobj Hr]. cbn [fits] in Hn.
  set (s1 := set_ram i (mkRam (data f) (set_st_atim (now now_micros) (attr f))) s).
  assert (H1 : represents s1 i a).
  { destruct a as [z g ps]. by apply (represents_content s i (mkAfile z g ps)). }
  exists p. cbn [spec_op]. set (l := Z.max 0 (Z.min (asize a - p) n)).
  exists (if asize a <=? p then s1 else set_obj o (RamFileInterface (p + l) i) s1).
  split; [done|]. open_file Hobj Hf. rewrite Hl. destruct (Z.leb_spec (asize a) p).
  - assert (El : l = 0) by lia. rewrite El. split; [done|]. split; [done|apply frame_set_ram].
  - assert (El : (if asize a - p <? n then asize a - p else n) = l).
    { destruct (Z.ltb_spec (asize a - p) n); lia. }
    rewrite El, word_small by lia. unfold slice, ret. rewrite Hl.
    rewrite (proj2 (Z.leb_le p (p + l))), (proj2 (Z.leb_le (p + l) (asize a))) by lia. cbn [andb].
    split; [|split].
    + rewrite (slice_bytes _ (abyte a)) by (rewrite ?Hl; auto; lia). done.
    + apply represents_moved; [done|by eexists|lia].
    + eapply frame_trans; [|apply frame_set_ram|apply frame_set_obj; by eexists]. done.
Qed.

Lemma len_patched (l buf : list Z) p :
  0 <= p -> p + len buf <= len l ->
  len (take (Z.to_nat p) l ++ buf ++ drop (Z.to_nat (p + len buf)) l) = len l.
Proof. unfold len. intros. rewrite !length_app, length_take, length_drop. lia. Qed.

(** The content after making room up to [e]. *)
Lemma room_for f a e :
  len (data f) = asize a -> st_size (attr f) = asize a -> 0 <= e <= isize_max ->
  (forall j, 0 <= j < asize a -> nth (Z.to_nat j) (data f) 0 = abyte a j) ->
  exists f', (forall s : store,
      (if len (data f) <? e
       then let! d := vec_resize e (data f) in ret (mkRam d (set_st_size (len d) (attr f)))
       else ret f) s = Done f' s) /\
    len (data f') = Z.max (asize a) e /\ st_size (attr f') = Z.max (asize a) e /\
    forall j, 0 <= j < Z.max (asize a) e ->
      nth (Z.to_nat j) (data f') 0 = abyte (grow (Z.max (asize a) e) a) j.
Proof.
  intros Hl Hs He Hg. rewrite Hl. destruct (Z.ltb_spec (asize a) e).
  - eexists. split; [intros s; unfold vec_resize, bind; by rewrite (proj2 (Z.leb_le e isize_max)) by lia|].
    cbn. rewrite len_resize by lia. split; [lia|]. split; [lia|]. intros j Hj.
    rewrite nth_resize, Hl by lia. destruct (Z.ltb_spec j (asize a)); [apply Hg; lia|done].
  - exists f. split; [done|]. split; [lia|]. split; [lia|]. cbn. intros j Hj.
    rewrite (proj2 (Z.ltb_lt j (asize a))) by lia. apply Hg. lia.
Qed.

Lemma write_refines o buf s i a p :
  represents s i a -> apos a !! o = Some p -> fits p (Write buf) -> refines_step o (Write buf) s i a.
Proof.
  intros Ha Hp Hn. pose proof Ha as [(f & Hf & Hl & Hmax & Hsz & Hg) Ho].
  destruct (Ho _ _ Hp) as [Hobj Hr]. cbn [fits] in Hn. pose proof (len_nonneg buf).
  destruct (room_for f a (p + len buf)) as (f1 & E & Hl1 & Hs1 & Hg1); [done|done|lia|done|].
  exists p. eexists. split; [done|]. open_file Hobj Hf. rewrite word_small by lia.
  specialize (E s). unfold bind, ret in E. rewrite E. unfold copy_into. rewrite Hl1.
  rewrite (proj2 (Z.leb_le p (p + len buf))), (proj2 (Z.leb_le (p + len buf) (Z.max (asize a) (p + len buf)))) by lia.
  rewrite (proj2 (Z.eqb_eq (p + len buf - p) (len buf))) by lia. cbn [andb ret spec_op fst snd].
  split; [reflexivity|]. split; [|eapply frame_trans; [|apply frame_set_ram|apply frame_set_obj; by eexists]; done].
  apply represents_moved; [|by eexists|lia].
  eapply (represents_content _ _ a);
    [done|cbn; rewrite len_patched by lia; exact Hl1|cbn; lia|cbn; exact Hs1|].
  intros j Hj. cbn in Hj |- *. rewrite nth_patched by lia. destruct ((p <=? j) && _); [done|apply Hg1; lia].
Qed.

Lemma seek_refines o offset whence s i a p :
  represents s i a -> apos a !! o = Some p -> fits p (Seek offset whence) ->
  refines_step o (Seek offset whence) s i a.
Proof.
  intros Ha Hp Hn. pose proof Ha as [(f & Hf & Hl & Hmax & Hsz & Hg) Ho].
  destruct (Ho _ _ Hp) as [Hobj Hr]. cbn [fits] in Hn. pose proof (len_nonneg (data f)).
  unfold refines_step. cbn [spec_op]. exists p. open_file Hobj Hf. rewrite Hl, isize_small by lia.
  destruct (seek_target p (asize a) offset whence) as [q|e] eqn:Et; cbn [fst snd];
    [|by exists s; split_and!].
  assert (Hq : q <= isize_max).
  { destruct whence; cbn in Et; try discriminate; [simplify_eq; lia| |];
      unfold checked_i64 in Et; case_match eqn:Eb; cbn in Et; simplify_eq; bool_hyps; done. }
  destruct (Z.ltb_spec q 0); [by exists s; split_and!|].
  destruct (room_for f a q) as (f1 & E & Hl1 & Hs1 & Hg1); [done|done|lia|done|].
  specialize (E s). rewrite Hl in E. destruct (Z.ltb_spec (asize a) q).
  - exists (set_obj o (RamFileInterface q i) (set_ram i f1 s)). split; [done|].
    unfold bind in E. destruct (vec_resize q (data f) s) as [d s1|] eqn:Ed; [|done].
    unfold vec_resize in Ed. destruct (q <=? isize_max); [|done].
    unfold ret in Ed, E. simplify_eq. split; [done|].
    split; [|eapply frame_trans; [|apply frame_set_ram|apply frame_set_obj; by eexists]; done].
    apply represents_moved; [|by eexists|lia]. eapply (represents_content _ _ a); eauto. lia.
  - exists (set_obj o (RamFileInterface q i) s). split; [done|]. split; [done|].
    split; [|apply frame_set_obj; by eexists]. apply represents_moved; [|by eexists|lia].
    unfold ret in E. simplify_eq. split; [|exact Ho]. exists f1. cbn in *. split_and!; auto; lia.
Qed.

Lemma truncate_refines o n s i a p :
  represents s i a -> apos a !! o = Some p -> fits p (Truncate n) -> refines_step o (Truncate n) s i a.
Proof.
  intros Ha Hp Hn. pose proof Ha as [(f & Hf & Hl & Hmax & Hsz & Hg) Ho].
  destruct (Ho _ _ Hp) as [Hobj Hr]. cbn [fits] in Hn.
  unfold refines_step. cbn [spec_op fst snd]. exists p. eexists. split; [done|]. open_file Hobj Hf.
  unfold vec_resize, ret. rewrite (proj2 (Z.leb_le n isize_max)) by lia.
  split; [reflexivity|]. split; [|apply frame_set_ram].
  apply (represents_content _ _ a); cbn; rewrite ?len_resize, ?isize_small by lia; try done; [lia|].
  intros j Hj. rewrite nth_resize, Hl by lia. destruct (Z.ltb_spec j (asize a)); [apply Hg; lia|done].
Qed.

Lemma step_refines o x s i a p :
  represents s i a -> apos a !! o = Some p -> fits p x -> refines_step o x s i a.
Proof.
  destruct x; eauto using read_refines, write_refines, seek_refines, truncate_refines.
Qed.

(** C9: Reads, writes, seeks and truncations through any number of
    descriptors on one writable file, in any order, answer like the abstract
    file and touch nothing else of the store: bytes written are the bytes
    read, a gap reads as zeros, and the recorded size is the size. *)
Theorem ram_file_refines xs s i a :
  represents s i a -> all_fit xs a ->
  exists s', run xs s = Done (spec_run xs a).1 s' /\
    represents s' i (spec_run xs a).2 /\ frame i a s s'.
Proof.
  revert s a. induction xs as [|[o x] xs IH]; intros s a Ha; cbn [all_fit].
  - intros _. exists s. split; [done|]. split; [done|]. by split_and!.
  - intros (p & Hp & Hx & Hxs).
    destruct (step_refines o x s i a p Ha Hp Hx) as (p' & s1 & Hp' & E & H1 & F1). simplify_eq.
    destruct (IH _ _ H1 Hxs) as (s2 & E2 & H2 & F2). exists s2. cbn [run spec_run].
    rewrite Hp. erewrite bind_run by exact E. erewrite bind_run by exact E2.
    destruct (spec_op o p x a) as [r a1] eqn:Eo. cbn [fst snd] in *.
    destruct (spec_run xs a1) as [rs a2] eqn:Er. cbn [fst snd] in *.
    split; [done|]. split; [done|].
    eapply frame_trans; [|exact F1|exact F2].
    intros o'. pose proof (spec_op_dom o p x a o' Hp) as Hd. by rewrite Eo in Hd.
Qed.

End Refinement.

(** ** A concrete file *)

Definition demo_entropy (_ : Z) : io_result (list Z) := Ok [].

(** The file [1 2 3] open twice. *)
Definition demo_store : store :=
  mkStore ∅ {[ 1 := mkRam [1; 2; 3] (attr_new S_IFREG 3 (Time.from_usec 0)) ]} ∅
    {[ 2 := RamFileInterface 1 1; 3 := RamFileInterface 0 1 ]} 4.
Definition demo_file : afile := mkAfile 3 (fun j => j + 1) {[ 2 := 1; 3 := 0 ]}.

Lemma demo_represents : represents demo_store 1 demo_file.
Proof.
  split.
  - eexists. split; [reflexivity|]. split_and!; [reflexivity|done|reflexivity|].
    intros j Hj. assert (j = 0 \/ j = 1 \/ j = 2) as [->|[->| ->]] by (cbn in Hj; lia); reflexivity.
  - intros o p Hp. change ((<[2 := 1]> {[ 3 := 0 ]} : gmap Z Z) !! o = Some p) in Hp.
    apply lookup_insert_Some in Hp as [[<- <-]|[? [<- <-]%lookup_singleton_Some]]; by split.
Qed.

Lemma ram_file_refines_witness :
  exists s', run 0 demo_entropy [(2, Write [9]); (3, Read 3); (3, Seek 5 Set_)] demo_store =
    Done [Count (Ok 1); Bytes (Ok [1; 9; 3]); Count (Ok 5)] s'.
Proof.
  destruct (ram_file_refines 0 demo_entropy [(2, Write [9]); (3, Read 3); (3, Seek 5 Set_)] demo_store 1 demo_file)
    as (s' & E & _); [exact demo_represents| |exists s'; exact E].
  repeat (eexists; split; [reflexivity|split; [vm_compute; repeat split; discriminate|]]). exact I.
Defined.
End FileSpec.
