(* ===== verification/Directories.v ===== *)
(** Directories of the in-memory file system ([MemDirectory] of
    [src/src/fs/mem.rs], [DevDirectory] of [src/src/fs/dev_directory.rs]): the
    walk along a path that each call makes, the change it makes where the walk
    ends, and the listing of entries through an open directory. *)

From Stdlib Require Import Ascii String.
From stdpp Require Import sorting.
From S2P Require Import Prelude Errors Time Files.

Module Directories.
Import Flags Files.

(** [str::split_once("/")] *)
Fixpoint split_once (path : string) : option (string * string) :=
  match path with
  | EmptyString => None
  | String c path =>
      if Ascii.eqb c "/"%char then Some (EmptyString, path)
      else match split_once path with
           | Some (component, rest) => Some (String c component, rest)
           | None => None
           end
  end.

(** [path.split_once("/").unwrap_or((path, ""))] *)
Definition split_path (path : string) : string * string :=
  default (path, EmptyString) (split_once path).

Definition is_empty (s : string) : bool :=
  match s with EmptyString => true | String _ _ => false end.

(** [BTreeMap::keys]: the names in byte order. *)
Definition name_le (a b : string) : Prop := String.leb a b = true.
#[global] Instance name_le_dec : RelDecision name_le.
Proof. intros a b. unfold name_le. apply _. Defined.
Definition keys (m : gmap string Node) : list string := merge_sort name_le (map_to_list m).*1.

Section Traversals.
Variable now_micros : Z.

Notation MemDirectory_new := (MemDirectory_new now_micros).
Notation RamFile_new := (RamFile_new now_micros).
Notation RomFile_new := (RomFile_new now_micros).

(** ** What a call does in the directory where the walk ends *)

Definition insert_entry (inner : Z) (name : string) (n : Node) : M store unit :=
  let! d := get_dir inner in modify (set_dir inner (<[name := n]> d)).

Definition open_entry (inner : Z) (component : string) (opt mode : Z) : M store (io_result Z) :=
  let! d := get_dir inner in
  match d !! component with
  | None =>
      if contains opt O_CREAT
      then
        let! file := RamFile_new mode in
        do! insert_entry inner component file in
        get_object file
      else ret (Err Errno.Noent)
  | Some file =>
      if contains opt O_DIRECTORY && negb (bool_decide (get_kind file = Directory))
      then ret (Err Errno.Notdir)
      else if negb (bool_decide (get_kind file = File)) && negb (bool_decide (get_kind file = Directory))
      then ret (Err Errno.Noent)
      else get_object file
  end.

(** Removing an entry of the wanted kind; another kind goes back. *)
Definition remove_entry (inner : Z) (component : string) (kind : NodeKind) (wrong : Errno.t)
  : M store (io_result unit) :=
  let! d := get_dir inner in
  match d !! component with
  | None => ret (Err Errno.Noent)
  | Some obj =>
      do! modify (set_dir inner (delete component d)) in
      if negb (bool_decide (get_kind obj = kind))
      then do! insert_entry inner component obj in ret (Err wrong)
      else ret (Ok tt)
  end.

Definition create_entry (inner : Z) (component : string) (bytes : list Z) (mode : Z)
  : M store (io_result unit) :=
  let! file := RomFile_new bytes mode in
  do! insert_entry inner component file in
  ret (Ok tt).

(** ** The walks

    A walk stops at the first component that has no rest, a missing entry or a
    node that has no walk of its own (the trait's default answer).  [fuel]
    bounds the steps. *)

Fixpoint traverse_open (fuel : nat) (self : Node) (path : string) (opt mode : Z)
  : M store (io_result Z) :=
  match fuel with
  | O => panic "fuel"
  | S fuel =>
      match self with
      | MemDirectory inner _ =>
          let '(component, rest) := split_path path in
          if negb (is_empty rest)
          then
            let! d := get_dir inner in
            match d !! component with
            | None => ret (Err Errno.Noent)
            | Some directory => traverse_open fuel directory rest opt mode
            end
          else open_entry inner component opt mode
      | DevDirectory =>
          if bool_decide (path = "urandom"%string) || bool_decide (path = "random"%string)
          then let! o := new_obj RandomFile in ret (Ok o)
          else ret (Err Errno.Noent)
      | _ => ret (Err Errno.Nosys)
      end
  end.

Fixpoint traverse_mkdir (fuel : nat) (self : Node) (path : string) (mode : Z)
  : M store (io_result unit) :=
  match fuel with
  | O => panic "fuel"
  | S fuel =>
      match self with
      | MemDirectory inner _ =>
          let '(component, rest) := split_path path in
          let! d := get_dir inner in
          match d !! component with
          | Some directory => traverse_mkdir fuel directory rest mode
          | None =>
              if negb (is_empty rest) then ret (Err Errno.Badf)
              else
                let! n := MemDirectory_new mode in
                do! insert_entry inner component n in
                ret (Ok tt)
          end
      | _ => ret (Err Errno.Nosys)
      end
  end.

Fixpoint traverse_mount (fuel : nat) (self : Node) (path : string) (obj : Node)
  : M store (io_result unit) :=
  match fuel with
  | O => panic "fuel"
  | S fuel =>
      match self with
      | MemDirectory inner _ =>
          let '(component, rest) := split_path path in
          let! d := get_dir inner in
          match d !! component with
          | Some directory => traverse_mount fuel directory rest obj
          | None =>
              if negb (is_empty rest) then ret (Err Errno.Badf)
              else do! insert_entry inner component obj in ret (Ok tt)
          end
      | _ => ret (Err Errno.Nosys)
      end
  end.

(** [traverse_rmdir] and [traverse_unlink] walk alike. *)
Fixpoint traverse_remove (kind : NodeKind) (wrong : Errno.t) (fuel : nat) (self : Node)
    (path : string) : M store (io_result unit) :=
  match fuel with
  | O => panic "fuel"
  | S fuel =>
      match self with
      | MemDirectory inner _ =>
          let '(component, rest) := split_path path in
          if negb (is_empty rest)
          then
            let! d := get_dir inner in
            match d !! component with
            | None => ret (Err Errno.Badf)
            | Some directory => traverse_remove kind wrong fuel directory rest
            end
          else remove_entry inner component kind wrong
      | _ => ret (Err Errno.Nosys)
      end
  end.
Definition traverse_rmdir := traverse_remove Directory Errno.Notdir.
Definition traverse_unlink := traverse_remove File Errno.Isdir.

Fixpoint traverse_readdir (fuel : nat) (self : Node) (path : string)
  : M store (io_result (list string)) :=
  match fuel with
  | O => panic "fuel"
  | S fuel =>
      match self with
      | MemDirectory inner _ =>
          let! d := get_dir inner in
          match split_once path with
          | Some (component, rest) =>
              match d !! component with
              | None => ret (Err Errno.Badf)
              | Some directory => traverse_readdir fuel directory rest
              end
          | None => ret (Ok (keys d))
          end
      | _ => ret (Err Errno.Nosys)
      end
  end.

(** [traverse_stat] and [traverse_lstat] are the same walk. *)
Fixpoint traverse_stat (fuel : nat) (self : Node) (path : string) : M store (io_result FileAttr) :=
  match fuel with
  | O => panic "fuel"
  | S fuel =>
      match self with
      | RomFile _ | RamFile _ =>
          if negb (is_empty path) then ret (Err Errno.Badf) else get_file_attributes self
      | MemDirectory inner _ =>
          let '(component, rest) := split_path path in
          let! d := get_dir inner in
          match d !! component with
          | None => ret (Err Errno.Badf)
          | Some node =>
              if negb (is_empty rest)
              then if bool_decide (get_kind node = File) then ret (Err Errno.Notdir)
                   else traverse_stat fuel node rest
              else get_file_attributes node
          end
      | DevDirectory => ret (Err Errno.Nosys)
      end
  end.
Definition traverse_lstat := traverse_stat.

Fixpoint traverse_create_file (fuel : nat) (self : Node) (path : string) (bytes : list Z) (mode : Z)
  : M store (io_result unit) :=
  match fuel with
  | O => panic "fuel"
  | S fuel =>
      match self with
      | MemDirectory inner _ =>
          let '(component, rest) := split_path path in
          if negb (is_empty rest)
          then
            let! d := get_dir inner in
            match d !! component with
            | None => ret (Err Errno.Noent)
            | Some directory => traverse_create_file fuel directory rest bytes mode
            end
          else create_entry inner component bytes mode
      | _ => ret (Err Errno.Nosys)
      end
  end.
End Traversals.

(** ** Listing an open directory

    [Dirent64]: the name starts at byte 19 of a record aligned to 8 bytes.  A
    byte of the buffer that was never written is [None]. *)
Definition D_NAME_OFFSET : Z := 19.
Definition DIRENT_ALIGN : Z := 8.
Definition align_up (n align : Z) : Z := (n + align - 1) / align * align.

Fixpoint le_bytes (n : nat) (z : Z) : list Z :=
  match n with O => [] | S n => z mod 256 :: le_bytes n (z / 256) end.

Fixpoint name_bytes (s : string) : list Z :=
  match s with EmptyString => [] | String c s => Z.of_N (Ascii.N_of_ascii c) :: name_bytes s end.

(** The record of an entry: inode 1, offset 0, its length, type unknown, the
    name and a zero; the rest of the record keeps what was in the buffer but
    for the padding of the structure. *)
Definition dirent_head (reclen : Z) (name : string) : list (option Z) :=
  Some <$> (le_bytes 8 1 ++ le_bytes 8 0 ++ le_bytes 2 reclen ++ [0] ++ name_bytes name ++ [0]).

Definition overwrite (buf : list (option Z)) (at_ : Z) (l : list (option Z)) : list (option Z) :=
  take (Z.to_nat at_) buf ++ l ++ drop (Z.to_nat at_ + length l) buf.

Record listing : Type := mkListing { buf : list (option Z); buf_offset : Z; idx : Z; ret_ : Z }.

(** One entry after the other until the buffer is full. *)
Fixpoint getdents_loop (names : list string) (st : listing) : exec unit (io_result listing) :=
  match names with
  | [] => Done (Ok st) tt
  | name :: names =>
      let namelen := Z.of_nat (String.length name) in
      let dirent_len := D_NAME_OFFSET + namelen + 1 in
      let next_dirent := align_up (buf_offset st + dirent_len) DIRENT_ALIGN in
      if Z.of_nat (length (buf st)) <? next_dirent
      then if ret_ st =? 0 then Done (Err Errno.Inval) tt else Done (Ok st) tt
      else
        let reclen := align_up dirent_len DIRENT_ALIGN in
        if 65535 <? reclen then Panic "try_into"
        else
          let written := overwrite (overwrite (buf st) (buf_offset st) (replicate 24 None))
                           (buf_offset st) (dirent_head reclen name) in
          getdents_loop names (mkListing written next_dirent (idx st + 1) next_dirent)
  end.

Definition getdents (o : Z) (buffer : list (option Z)) : M store (io_result (Z * list (option Z))) :=
  let! f := get_obj o in
  match f with
  | MemDirectoryInterface inner read_idx =>
      let! d := get_dir inner in
      match getdents_loop (drop (Z.to_nat read_idx) (keys d)) (mkListing buffer 0 read_idx 0) with
      | Panic why => panic why
      | Done (Err e) _ => ret (Err e)
      | Done (Ok st) _ =>
          do! modify (set_obj o (MemDirectoryInterface inner (idx st))) in
          ret (Ok (ret_ st, buf st))
      end
  | DirectoryReader _ => panic "not implemented"
  | _ => ret (Err Errno.Inval)
  end.

End Directories.
