(* ===== verification/FileSystem.v ===== *)
(** The file system of the kernel ([src/src/fs/mod.rs]) and the descriptor
    calls on it ([src/src/fd/mod.rs]): path calls relative to the working
    directory, the permission mask, and the calls that go through the
    descriptor table of the running task. *)

From Stdlib Require Import Ascii String.
From S2P Require Import Prelude Errors Time Files Directories.

(** What the file system uses of the scheduler: the descriptor table of the
    running task.  [dt_free k n]: a task runs and [n] descriptors are free;
    [dt_maps k fd]: the open file of descriptor [fd] there. *)
Class Descriptors (K : Type) : Type := {
  dt_get : Z -> M K (io_result Z);
  dt_insert : Z -> M K (io_result Z);
  dt_remove : Z -> M K (io_result Z);
  dt_free : K -> nat -> Prop;
  dt_maps : K -> Z -> option Z;
  dt_get_law k fd : dt_free k 0 ->
    dt_get fd k = Done (from_option Ok (Err Errno.Badf) (dt_maps k fd)) k;
  dt_insert_law k obj n : dt_free k (S n) ->
    exists fd k', dt_insert obj k = Done (Ok fd) k' /\ dt_free k' n /\ dt_maps k fd = None /\
      forall fd', dt_maps k' fd' = if decide (fd = fd') then Some obj else dt_maps k fd';
  dt_remove_law k fd : dt_free k 0 ->
    exists k', dt_remove fd k = Done (from_option Ok (Err Errno.Badf) (dt_maps k fd)) k' /\
      dt_free k' 0 /\ forall fd', dt_maps k' fd' = if decide (fd = fd') then None else dt_maps k fd';
  dt_free_law k n : dt_free k n -> dt_free k 0
}.

Module FileSystem.
Import Flags Files Directories.

(** [FILESYSTEM] is the root node once [init] has set it. *)
Record world (K : Type) : Type := mkWorld {
  st : store;
  FILESYSTEM : option Node;
  WORKING_DIRECTORY : option string;
  UMASK : Z;
  kern : K
}.
Arguments mkWorld {K} _ _ _ _ _.
Arguments st {K} _.
Arguments FILESYSTEM {K} _.
Arguments WORKING_DIRECTORY {K} _.
Arguments UMASK {K} _.
Arguments kern {K} _.

(** [path.strip_prefix('/').unwrap_or(path)] and [starts_with("/")] *)
Definition strip_slash (path : string) : string :=
  match path with
  | String c rest => if Ascii.eqb c "/"%char then rest else path
  | EmptyString => path
  end.
Definition starts_with_slash (path : string) : bool :=
  match path with String c _ => Ascii.eqb c "/"%char | EmptyString => false end.

(** Steps a walk can take: directories are nested in the order of their keys. *)
Definition walk_fuel (s : store) : nat := S (S (Z.to_nat (next s))).

Section Calls.
Context {K : Type} `{DT : Descriptors K}.
Variable now_micros : Z.
Variable entropy_read : Z -> io_result (list Z).

Notation world := (world K).

Definition set_st (x : store) (w : world) : world :=
  mkWorld x (FILESYSTEM w) (WORKING_DIRECTORY w) (UMASK w) (kern w).
Definition set_FILESYSTEM (x : option Node) (w : world) : world :=
  mkWorld (st w) x (WORKING_DIRECTORY w) (UMASK w) (kern w).
Definition set_WORKING_DIRECTORY (x : option string) (w : world) : world :=
  mkWorld (st w) (FILESYSTEM w) x (UMASK w) (kern w).
Definition set_UMASK (x : Z) (w : world) : world :=
  mkWorld (st w) (FILESYSTEM w) (WORKING_DIRECTORY w) x (kern w).
Definition set_kern (x : K) (w : world) : world :=
  mkWorld (st w) (FILESYSTEM w) (WORKING_DIRECTORY w) (UMASK w) x.

Definition on_store {A} (m : M store A) : M world A := zoom st set_st m.
Definition on_kern {A} (m : M K A) : M world A := zoom kern set_kern m.

(** ** [Filesystem] *)

Definition Filesystem_new : M store Node := MemDirectory_new now_micros PERM_777.

Definition fs_open (root : Node) (path : string) (opt mode : Z) : M store (io_result Z) :=
  let! s := get in traverse_open now_micros (walk_fuel s) root (strip_slash path) opt mode.
Definition fs_unlink (root : Node) (path : string) : M store (io_result unit) :=
  let! s := get in traverse_unlink (walk_fuel s) root (strip_slash path).
Definition fs_rmdir (root : Node) (path : string) : M store (io_result unit) :=
  let! s := get in traverse_rmdir (walk_fuel s) root (strip_slash path).
Definition fs_mkdir (root : Node) (path : string) (mode : Z) : M store (io_result unit) :=
  let! s := get in traverse_mkdir now_micros (walk_fuel s) root (strip_slash path) mode.
Definition fs_readdir (root : Node) (path : string) : M store (io_result (list string)) :=
  let! s := get in traverse_readdir (walk_fuel s) root (strip_slash path).
Definition fs_opendir (root : Node) (path : string) : M store (io_result Z) :=
  let! r := fs_readdir root path in
  match r with
  | Err e => ret (Err e)
  | Ok entries => let! o := new_obj (DirectoryReader entries) in ret (Ok o)
  end.
Definition fs_stat (root : Node) (path : string) : M store (io_result FileAttr) :=
  let! s := get in traverse_stat (walk_fuel s) root (strip_slash path).
Definition fs_lstat (root : Node) (path : string) : M store (io_result FileAttr) :=
  let! s := get in traverse_lstat (walk_fuel s) root (strip_slash path).
Definition fs_mount (root : Node) (path : string) (obj : Node) : M store (io_result unit) :=
  let! s := get in traverse_mount (walk_fuel s) root (strip_slash path) obj.
Definition fs_create_file (root : Node) (path : string) (bytes : list Z) (mode : Z)
  : M store (io_result unit) :=
  let! s := get in traverse_create_file now_micros (walk_fuel s) root (strip_slash path) bytes mode.

(** ** Calls on paths *)

Definition with_relative_filename {A} (name : string) (callback : string -> M world (io_result A))
  : M world (io_result A) :=
  if starts_with_slash name then callback name
  else
    let! w := get in
    match WORKING_DIRECTORY w with
    | None => ret (Err Errno.Badf)
    | Some cwd => callback (cwd ++ "/" ++ name)%string
    end.

(** [FILESYSTEM.get().ok_or(Errno::Inval)?] *)
Definition with_filesystem {A} (f : Node -> M world (io_result A)) : M world (io_result A) :=
  let! w := get in
  match FILESYSTEM w with None => ret (Err Errno.Inval) | Some root => f root end.

Definition create_file (name : string) (bytes : list Z) (mode : Z) : M world (io_result unit) :=
  with_relative_filename name (fun name =>
    with_filesystem (fun root => on_store (fs_create_file root name bytes mode))).
Definition remove_dir (path : string) : M world (io_result unit) :=
  with_relative_filename path (fun path =>
    with_filesystem (fun root => on_store (fs_rmdir root path))).
Definition unlink (path : string) : M world (io_result unit) :=
  with_relative_filename path (fun path =>
    with_filesystem (fun root => on_store (fs_unlink root path))).
Definition create_dir (path : string) (mode : Z) : M world (io_result unit) :=
  let! w := get in
  with_relative_filename path (fun path =>
    with_filesystem (fun root => on_store (fs_mkdir root path (Z.land mode (UMASK w))))).
Definition readdir (name : string) : M world (io_result (list string)) :=
  with_relative_filename name (fun name =>
    with_filesystem (fun root => on_store (fs_readdir root name))).
Definition read_stat (name : string) : M world (io_result FileAttr) :=
  with_relative_filename name (fun name =>
    with_filesystem (fun root => on_store (fs_stat root name))).
Definition read_lstat (name : string) : M world (io_result FileAttr) :=
  with_relative_filename name (fun name =>
    with_filesystem (fun root => on_store (fs_lstat root name))).

Definition truncate_path (name : string) (size : Z) : M world (io_result unit) :=
  with_relative_filename name (fun name =>
    with_filesystem (fun root =>
      let! file := on_store (fs_open root name O_TRUNC 0) in
      match file with
      | Err _ => ret (Err Errno.Badf)
      | Ok o => on_store (truncate o size)
      end)).

Definition open (name : string) (flags mode : Z) : M world (io_result Z) :=
  let! w := get in
  with_relative_filename name (fun name =>
    with_filesystem (fun root =>
      let! file := on_store (fs_open root name flags (Z.land mode (UMASK w))) in
      match file with
      | Err e => ret (Err e)
      | Ok o => on_kern (dt_insert o)
      end)).

Definition get_cwd : M world (io_result string) :=
  let! w := get in ret (from_option Ok (Err Errno.Noent) (WORKING_DIRECTORY w)).

Definition set_cwd (cwd : string) : M world (io_result unit) :=
  if starts_with_slash cwd
  then do! modify (set_WORKING_DIRECTORY (Some cwd)) in ret (Ok tt)
  else
    let! w := get in
    match WORKING_DIRECTORY w with
    | None => ret (Err Errno.Badf)
    | Some dir =>
        do! modify (set_WORKING_DIRECTORY (Some (dir ++ "/" ++ cwd)%string)) in ret (Ok tt)
    end.

Definition umask (new_mask : Z) : M world Z :=
  let! w := get in do! modify (set_UMASK new_mask) in ret (UMASK w).

Definition opendir (name : string) : M world (io_result Z) :=
  with_filesystem (fun root =>
    let! r := on_store (fs_opendir root name) in
    match r with Err e => ret (Err e) | Ok o => on_kern (dt_insert o) end).

Definition file_attributes (path : string) : M world (io_result FileAttr) :=
  with_filesystem (fun root => on_store (fs_lstat root path)).

(** ** [Metadata] and [File] *)

Definition metadata_is_file (a : FileAttr) : bool := contains (st_mode a) S_IFREG.
Definition metadata_is_dir (a : FileAttr) : bool := contains (st_mode a) S_IFDIR.

Definition File_create (path : string) : M world (io_result Z) :=
  open path (Z.lor (Z.lor O_CREAT O_TRUNC) O_WRONLY) default_permission.
Definition File_create_new (path : string) : M world (io_result Z) :=
  open path (Z.lor (Z.lor O_CREAT O_EXCL) O_RDWR) default_permission.
Definition File_open (path : string) : M world (io_result Z) :=
  open path O_RDWR default_permission.
(** [Drop for File] *)
Definition File_drop (fd : Z) : M world unit :=
  let! _r := on_kern (dt_remove fd) in ret tt.

(** ** Calls on descriptors *)

Definition with_object {A} (fd : Z) (f : Z -> M world (io_result A)) : M world (io_result A) :=
  let! r := on_kern (dt_get fd) in
  match r with Err e => ret (Err e) | Ok o => f o end.

Definition fd_read (fd n : Z) : M world (io_result (list Z)) :=
  with_object fd (fun o =>
    if n =? 0 then ret (Ok []) else on_store (read now_micros entropy_read o n)).
Definition fd_write (fd : Z) (buf : list Z) : M world (io_result Z) :=
  with_object fd (fun o =>
    if len buf =? 0 then ret (Ok 0) else on_store (write now_micros o buf)).
Definition fd_lseek (fd offset : Z) (whence : SeekWhence) : M world (io_result Z) :=
  with_object fd (fun o => on_store (lseek o offset whence)).
Definition fd_chmod (fd mode : Z) : M world (io_result unit) :=
  with_object fd (fun o => on_store (chmod o mode)).
Definition fd_truncate (fd length : Z) : M world (io_result unit) :=
  with_object fd (fun o => on_store (truncate o length)).
Definition fd_fstat (fd : Z) : M world (io_result FileAttr) :=
  with_object fd (fun o => on_store (fstat o)).

(** ** Start-up *)

(** [write!]: the pieces of the text until one fails. *)
Fixpoint write_pieces (fd : Z) (pieces : list (list Z)) : M world unit :=
  match pieces with
  | [] => ret tt
  | piece :: pieces =>
      let! r := fd_write fd piece in
      match r with Ok _ => write_pieces fd pieces | Err _ => ret tt end
  end.

(** [version] is the text written to [/proc/version]. *)
Definition init (version : list (list Z)) : M world unit :=
  let! root := on_store Filesystem_new in
  let! r1 := on_store (fs_mkdir root "/tmp" PERM_777) in
  do! assert_ (is_Ok r1) "Unable to create /tmp" in
  let! r2 := on_store (fs_mkdir root "/proc" PERM_777) in
  do! assert_ (is_Ok r2) "Unable to create /proc" in
  let! w := get in
  do! assert_ (bool_decide (FILESYSTEM w = None)) "unwrap" in
  do! modify (set_FILESYSTEM (Some root)) in
  let! f := File_create "/proc/version" in
  do! match f with
      | Ok fd => do! write_pieces fd version in File_drop fd
      | Err _ => ret tt
      end in
  do! modify (set_WORKING_DIRECTORY (Some "/tmp"%string)) in
  let! r3 := on_store (fs_mount root "/dev" DevDirectory) in
  do! assert_ (is_Ok r3) "unwrap" in
  ret tt.
End Calls.
Arguments world : clear implicits.

End FileSystem.
