(* ===== verification/DirSpec.v ===== *)
(** What a path stands for, and the calls of [Directories] in terms of it:
    every walk finds the directory and name its path stands for, whatever the
    fuel, and the calls keep the tree well formed. *)

From Stdlib Require Import Ascii String.
From S2P Require Import Prelude Errors Time Files FileSpec Directories FileSystem.

Module DirSpec.
Import Flags Files Directories FileSystem.

(** ** Paths *)

(** The pieces of a path between its slashes. *)
Fixpoint segments (path : string) : list string :=
  match path with
  | EmptyString => [EmptyString]
  | String c path =>
      if Ascii.eqb c "/"%char then EmptyString :: segments path
      else match segments path with
           | [] => [String c EmptyString]
           | x :: xs => String c x :: xs
           end
  end.

(** Nothing is left to walk: no more segments, or a trailing slash. *)
Definition at_end (segs : list string) : bool :=
  match segs with [] => true | [x] => is_empty x | _ => false end.

(** Where a path ends: at a name of a directory, at a missing entry, or at a
    node with segments left that is no in-memory directory. *)
Inductive location : Type :=
  | At (dir : Z) (name : string)
  | Missing
  | Foreign (n : Node) (left : list string).

Definition entry (s : store) (dir : Z) (name : string) : option Node :=
  dirs s !! dir ≫= lookup name.

Fixpoint locate (s : store) (dir : Z) (segs : list string) : location :=
  match segs with
  | [] => Missing
  | c :: segs =>
      if at_end segs then At dir c
      else match entry s dir c with
           | None => Missing
           | Some (MemDirectory d _) => locate s d segs
           | Some n => Foreign n segs
           end
  end.

Lemma segments_split path :
  segments path =
  match split_once path with Some (c, rest) => c :: segments rest | None => [path] end.
Proof.
  induction path as [|c path IH]; [done|]. cbn. destruct (Ascii.eqb c "/"); [done|].
  rewrite IH. by destruct (split_once path) as [[]|].
Qed.

Lemma segments_cons path : exists c segs, segments path = c :: segs.
Proof. rewrite segments_split. destruct (split_once path) as [[]|]; eauto. Qed.

Lemma at_end_segments path : at_end (segments path) = is_empty path.
Proof.
  rewrite segments_split. destruct path as [|c path]; [done|]. cbn.
  destruct (Ascii.eqb c "/").
  - destruct (segments_cons path) as (x & xs & ->). done.
  - destruct (split_once path) as [[x r]|]; [|done].
    destruct (segments_cons r) as (y & ys & ->). done.
Qed.

(** The walk's own way to take a path apart. *)
Lemma segments_path path :
  let '(component, rest) := split_path path in
  exists segs, segments path = component :: segs /\ at_end segs = is_empty rest /\
    (is_empty rest = false -> segs = segments rest).
Proof.
  unfold split_path. rewrite segments_split. destruct (split_once path) as [[c r]|]; cbn.
  - exists (segments r). by rewrite at_end_segments.
  - by exists [].
Qed.

(** ** The well-formed store *)

Definition node_ok (s : store) (n : Node) : Prop :=
  match n with
  | RomFile i => is_Some (roms s !! i)
  | RamFile i => is_Some (rams s !! i)
  | MemDirectory i _ => is_Some (dirs s !! i)
  | DevDirectory => True
  end.

Definition fd_ok (s : store) (f : Fd) : Prop :=
  match f with
  | RomFileInterface pos i => is_Some (roms s !! i) /\ 0 <= pos <= isize_max
  | RamFileInterface pos i => is_Some (rams s !! i) /\ 0 <= pos <= isize_max
  | MemDirectoryInterface i idx => is_Some (dirs s !! i) /\ 0 <= idx
  | DirectoryReader _ | RandomFile => True
  end.

(** References lead somewhere, keys in use are below [next], directories are
    nested in the order of their keys, and sizes are recorded. *)
Record wf (s : store) : Prop := {
  wf_next : 0 <= next s;
  wf_node d m c n : dirs s !! d = Some m -> m !! c = Some n -> node_ok s n;
  wf_child d m c d' a : dirs s !! d = Some m -> m !! c = Some (MemDirectory d' a) -> d < d';
  wf_dir d : is_Some (dirs s !! d) -> 0 <= d < next s;
  wf_rom i f : roms s !! i = Some f ->
    i < next s /\ len (rom_data f) <= isize_max /\ st_size (rom_attr f) = len (rom_data f);
  wf_ram i f : rams s !! i = Some f ->
    i < next s /\ len (data f) <= isize_max /\ st_size (attr f) = len (data f);
  wf_obj o f : objs s !! o = Some f -> o < next s /\ fd_ok s f
}.

(** ** The walks *)

Section Walks.
Context (now_micros : Z).

Lemma get_dir_run s d m : dirs s !! d = Some m -> get_dir d s = Done m s.
Proof. unfold get_dir, bind, get, unwrap. cbn. by intros ->. Qed.

Lemma entry_lookup s d m c : dirs s !! d = Some m -> entry s d c = m !! c.
Proof. unfold entry. by intros ->. Qed.

(** A walk from a directory: [walk fuel n path] is the call, [last] what it
    does at the end of the path, [missing] and [foreign] its other answers. *)
Section Walk.
Context {A : Type} (walk : nat -> Node -> string -> M store A).
Context (last : nat -> Z -> string -> M store A) (missing : A) (foreign : Node -> string -> M store A).
Hypothesis walk_dir : forall fuel d a path s m,
  dirs s !! d = Some m ->
  walk (S (S fuel)) (MemDirectory d a) path s =
  let '(component, rest) := split_path path in
  if negb (is_empty rest)
  then match m !! component with
       | None => Done missing s
       | Some (MemDirectory d a) => walk (S fuel) (MemDirectory d a) rest s
       | Some n => foreign n rest s
       end
  else last (S fuel) d component s.

Lemma walk_locates s fuel d a path :
  wf s -> is_Some (dirs s !! d) -> (Z.to_nat (next s - d) < fuel)%nat ->
  match locate s d (segments path) with
  | At d' c => is_Some (dirs s !! d') /\ exists f, (Z.to_nat (next s - d') <= f)%nat /\
      walk fuel (MemDirectory d a) path s = last f d' c s
  | Missing => walk fuel (MemDirectory d a) path s = Done missing s
  | Foreign n segs => exists rest, segments rest = segs /\ (forall d a, n <> MemDirectory d a) /\
      is_empty rest = false /\ walk fuel (MemDirectory d a) path s = foreign n rest s
  end.
Proof.
  intros Hwf. revert d a path. induction fuel as [|fuel IH]; intros d a path [m Hd] Hfuel; [lia|].
  pose proof (wf_dir _ Hwf d ltac:(by eexists)) as Hdr. destruct fuel as [|fuel]; [lia|].
  rewrite (walk_dir _ _ _ _ _ _ Hd). pose proof (segments_path path) as Hs.
  destruct (split_path path) as [c rest]. destruct Hs as (segs & -> & Hend & Hrest).
  cbn [locate]. rewrite Hend. destruct (is_empty rest) eqn:Er; cbn [negb].
  { split; [by eexists|]. exists (S fuel). split; [lia|done]. }
  rewrite (Hrest eq_refl), (entry_lookup _ _ _ _ Hd). destruct (m !! c) as [n|] eqn:En; [|done].
  pose proof (wf_node _ Hwf _ _ _ _ Hd En) as Hn.
  destruct n as [i|i|d' a'|]; [by exists rest|by exists rest| |by exists rest].
  pose proof (wf_child _ Hwf _ _ _ _ _ Hd En). pose proof (wf_dir _ Hwf d' Hn).
  apply IH; [exact Hn|lia].
Qed.
End Walk.

Lemma walk_fuel_enough s d : wf s -> is_Some (dirs s !! d) -> (Z.to_nat (next s - d) < walk_fuel s)%nat.
Proof. intros Hwf Hd. pose proof (wf_dir _ Hwf d Hd). unfold walk_fuel. lia. Qed.

(** [walk_step] runs one step of a walk at a directory with entries. *)
Ltac walk_step :=
  let Hd := fresh in
  clear; intros fuel d a path s m Hd; cbn; destruct (split_path path) as [component rest];
  destruct (is_empty rest); cbn [negb]; [done|]; unfold bind at 1; rewrite (get_dir_run _ _ _ Hd);
  destruct (m !! component) as [[]|]; try done.

(** The first free name at or below an entry that exists: a directory that
    exists is entered with the empty name. *)
Inductive settles (s : store) : Z -> string -> location -> Prop :=
  | settles_free d c : entry s d c = None -> settles s d c (At d c)
  | settles_down d c d' a loc : entry s d c = Some (MemDirectory d' a) ->
      settles s d' EmptyString loc -> settles s d c loc
  | settles_foreign d c n : entry s d c = Some n -> (forall d' a, n <> MemDirectory d' a) ->
      settles s d c (Foreign n []).

Definition mkdir_entry (mode : Z) (d : Z) (c : string) : M store (io_result unit) :=
  let! n := MemDirectory_new now_micros mode in do! insert_entry d c n in ret (Ok tt).
Definition mount_entry (obj : Node) (d : Z) (c : string) : M store (io_result unit) :=
  do! insert_entry d c obj in ret (Ok tt).

Section Creation.
Context (walk : nat -> Node -> string -> M store (io_result unit)).
Context (create : Z -> string -> M store (io_result unit)).
Hypothesis walk_dir : forall fuel d a path s m,
  dirs s !! d = Some m ->
  walk (S fuel) (MemDirectory d a) path s =
  let '(component, rest) := split_path path in
  match m !! component with
  | Some n => walk fuel n rest s
  | None => if negb (is_empty rest) then Done (Err Errno.Badf) s else create d component s
  end.
Hypothesis walk_other : forall fuel n path s,
  (forall d a, n <> MemDirectory d a) -> walk (S fuel) n path s = Done (Err Errno.Nosys) s.

(** What a creating walk does with the last name of its path. *)
Definition create_last (fuel : nat) (d : Z) (c : string) : M store (io_result unit) := fun s =>
  match entry s d c with
  | Some n => walk fuel n EmptyString s
  | None => create d c s
  end.

Lemma settles_walk s fuel d c :
  wf s -> is_Some (dirs s !! d) -> (Z.to_nat (next s - d) <= fuel)%nat ->
  exists loc, settles s d c loc /\
    create_last fuel d c s =
    match loc with At d' c' => create d' c' s | _ => Done (Err Errno.Nosys) s end /\
    match loc with At d' c' => is_Some (dirs s !! d') | _ => True end.
Proof.
  intros Hwf. revert d c. induction fuel as [|fuel IH]; intros d c [m Hd] Hf;
    pose proof (wf_dir _ Hwf d ltac:(by eexists)); [lia|].
  unfold create_last. destruct (entry s d c) as [n|] eqn:En.
  2: { exists (At d c). split; [by constructor|]. split; [done|by eexists]. }
  rewrite (entry_lookup _ _ _ _ Hd) in En. pose proof (wf_node _ Hwf _ _ _ _ Hd En) as Hn.
  destruct n as [i|i|d' a|].
  3: { destruct Hn as [m' Hd']. pose proof (wf_child _ Hwf _ _ _ _ _ Hd En).
       pose proof (wf_dir _ Hwf d' ltac:(by eexists)).
       destruct (IH d' EmptyString ltac:(by eexists) ltac:(lia)) as (loc & Hset & E & Hok).
       exists loc. split; [by eapply settles_down; [rewrite (entry_lookup _ _ _ _ Hd)|]|]. split; [|done].
       rewrite (walk_dir _ _ _ _ _ _ Hd'). cbn. unfold create_last in E.
       by rewrite (entry_lookup _ _ _ _ Hd') in E. }
  all: eexists; split; [eapply settles_foreign; [by rewrite (entry_lookup _ _ _ _ Hd)|done]|];
    split; [|done]; by apply walk_other.
Qed.

Lemma creation_locates s d a path :
  wf s -> is_Some (dirs s !! d) ->
  match locate s d (segments path) with
  | At d' c => exists loc, settles s d' c loc /\
      walk (walk_fuel s) (MemDirectory d a) path s =
      match loc with At d' c' => create d' c' s | _ => Done (Err Errno.Nosys) s end /\
      match loc with At d' c' => is_Some (dirs s !! d') | _ => True end
  | Missing => walk (walk_fuel s) (MemDirectory d a) path s = Done (Err Errno.Badf) s
  | Foreign _ _ => walk (walk_fuel s) (MemDirectory d a) path s = Done (Err Errno.Nosys) s
  end.
Proof.
  intros Hwf Hd.
  pose proof (fun H => walk_locates walk create_last (Err Errno.Badf) (fun _ _ => ret (Err Errno.Nosys)) H
                s (walk_fuel s) d a path Hwf Hd (walk_fuel_enough s d Hwf Hd)) as Hw.
  lapply Hw; clear Hw.
  - destruct (locate s d (segments path)) as [d' c| |n segs].
    + intros (Hd' & f & Hf & ->). by apply settles_walk.
    + done.
    + by intros (rest & _ & _ & _ & ->).
  - clear -walk_dir walk_other. intros fuel d a path s m Hd.
    rewrite (walk_dir _ _ _ _ _ _ Hd). destruct (split_path path) as [c rest].
    unfold create_last. rewrite (entry_lookup _ _ _ _ Hd).
    destruct rest as [|x rest]; cbn [is_empty negb]; destruct (m !! c) as [[]|]; try done;
      by apply walk_other.
Qed.
End Creation.

(** ** The calls of the file system by the place their path stands for *)

Definition open_foreign (n : Node) (segs : list string) : M store (io_result Z) :=
  match n with
  | DevDirectory =>
      if bool_decide (segs = ["urandom"%string]) || bool_decide (segs = ["random"%string])
      then let! o := new_obj RandomFile in ret (Ok o)
      else ret (Err Errno.Noent)
  | _ => ret (Err Errno.Nosys)
  end.

Definition stat_entry (d : Z) (c : string) : M store (io_result FileAttr) := fun s =>
  match entry s d c with
  | None => Done (Err Errno.Badf) s
  | Some n => get_file_attributes n s
  end.
Definition stat_foreign (n : Node) : Errno.t :=
  match get_kind n with File => Errno.Notdir | Directory => Errno.Nosys end.

Lemma segments_single rest x :
  split_once x = None -> segments rest = [x] <-> rest = x.
Proof.
  intros Hx. split; [|intros ->; by rewrite segments_split, Hx].
  rewrite segments_split. destruct (split_once rest) as [[c r]|]; [|by intros [= ->]].
  destruct (segments_cons r) as (y & ys & ->). done.
Qed.

Section Locates.
Context (s : store) (d : Z) (a : FileAttr).
Context (Hwf : wf s) (Hd : is_Some (dirs s !! d)).
Let root := MemDirectory d a.
Let place (path : string) := locate s d (segments (strip_slash path)).

Lemma open_locates path opt mode :
  fs_open now_micros root path opt mode s =
  match place path with
  | At d' c => open_entry now_micros d' c opt mode s
  | Missing => Done (Err Errno.Noent) s
  | Foreign n segs => open_foreign n segs s
  end.
Proof.
  unfold fs_open, place, root. rewrite (bind_run get _ s s s) by done. generalize (strip_slash path). intros p.
  pose proof (fun H => walk_locates (fun f n p => traverse_open now_micros f n p opt mode)
    (fun _ d c => open_entry now_micros d c opt mode) (Err Errno.Noent)
    (fun n rest => traverse_open now_micros 1 n rest opt mode) H
    s (walk_fuel s) d a p Hwf Hd (walk_fuel_enough s d Hwf Hd)) as Hw.
  lapply Hw; clear Hw; [|by walk_step].
  destruct (locate s d (segments p)) as [d' c| |n segs]; [by intros (_ & f & _ & ->)|done|].
  intros (rest & <- & Hn & _ & ->). destruct n; try done; [by destruct (Hn inner dir_attr)|].
  cbn. by rewrite (bool_decide_ext _ _ (segments_single rest "urandom" eq_refl)),
    (bool_decide_ext _ _ (segments_single rest "random" eq_refl)).
Qed.

Lemma remove_locates kind wrong path :
  traverse_remove kind wrong (walk_fuel s) root (strip_slash path) s =
  match place path with
  | At d' c => remove_entry d' c kind wrong s
  | Missing => Done (Err Errno.Badf) s
  | Foreign _ _ => Done (Err Errno.Nosys) s
  end.
Proof.
  unfold place, root. generalize (strip_slash path). intros p.
  pose proof (fun H => walk_locates (traverse_remove kind wrong)
    (fun _ d c => remove_entry d c kind wrong) (Err Errno.Badf) (fun _ _ => ret (Err Errno.Nosys)) H
    s (walk_fuel s) d a p Hwf Hd (walk_fuel_enough s d Hwf Hd)) as Hw.
  lapply Hw; clear Hw; [|by walk_step].
  destruct (locate s d (segments p)) as [d' c| |n segs]; [by intros (_ & f & _ & ->)|done|].
  by intros (rest & _ & _ & _ & ->).
Qed.

Lemma create_file_locates path bytes mode :
  fs_create_file now_micros root path bytes mode s =
  match place path with
  | At d' c => create_entry now_micros d' c bytes mode s
  | Missing => Done (Err Errno.Noent) s
  | Foreign _ _ => Done (Err Errno.Nosys) s
  end.
Proof.
  unfold fs_create_file, place, root. rewrite (bind_run get _ s s s) by done.
  generalize (strip_slash path). intros p.
  pose proof (fun H => walk_locates (fun f n p => traverse_create_file now_micros f n p bytes mode)
    (fun _ d c => create_entry now_micros d c bytes mode) (Err Errno.Noent)
    (fun _ _ => ret (Err Errno.Nosys)) H
    s (walk_fuel s) d a p Hwf Hd (walk_fuel_enough s d Hwf Hd)) as Hw.
  lapply Hw; clear Hw; [|by walk_step].
  destruct (locate s d (segments p)) as [d' c| |n segs]; [by intros (_ & f & _ & ->)|done|].
  by intros (rest & _ & _ & _ & ->).
Qed.

Lemma stat_locates path :
  fs_stat root path s =
  match place path with
  | At d' c => stat_entry d' c s
  | Missing => Done (Err Errno.Badf) s
  | Foreign n _ => Done (Err (stat_foreign n)) s
  end.
Proof.
  unfold fs_stat, place, root. rewrite (bind_run get _ s s s) by done.
  generalize (strip_slash path). intros p.
  pose proof (fun H => walk_locates traverse_stat (fun _ => stat_entry) (Err Errno.Badf)
    (fun n _ => ret (Err (stat_foreign n))) H
    s (walk_fuel s) d a p Hwf Hd (walk_fuel_enough s d Hwf Hd)) as Hw.
  lapply Hw; clear Hw.
  - destruct (locate s d (segments p)) as [d' c| |n segs]; [by intros (_ & f & _ & ->)|done|].
    by intros (rest & _ & _ & _ & ->).
  - clear. intros fuel d a path s m Hd. cbn. destruct (split_path path) as [c rest].
    unfold bind at 1. rewrite (get_dir_run _ _ _ Hd). unfold stat_entry. rewrite (entry_lookup _ _ _ _ Hd).
    destruct (is_empty rest); cbn [negb]; destruct (m !! c) as [[]|]; done.
Qed.
Lemma mkdir_locates path mode :
  match place path with
  | At d' c => exists loc, settles s d' c loc /\
      fs_mkdir now_micros root path mode s =
      match loc with At d' c' => mkdir_entry mode d' c' s | _ => Done (Err Errno.Nosys) s end /\
      match loc with At d' c' => is_Some (dirs s !! d') | _ => True end
  | Missing => fs_mkdir now_micros root path mode s = Done (Err Errno.Badf) s
  | Foreign _ _ => fs_mkdir now_micros root path mode s = Done (Err Errno.Nosys) s
  end.
Proof.
  apply (creation_locates (fun f n p => traverse_mkdir now_micros f n p mode) (mkdir_entry mode));
    [| |exact Hwf|exact Hd]; clear.
  - intros fuel d a path s m Hd. cbn. destruct (split_path path) as [c rest]. unfold bind at 1.
    rewrite (get_dir_run _ _ _ Hd). destruct (m !! c); [done|]. by destruct (is_empty rest).
  - intros fuel n path s Hn. destruct n; try done. by destruct (Hn inner dir_attr).
Qed.

Lemma mount_locates path obj :
  match place path with
  | At d' c => exists loc, settles s d' c loc /\
      fs_mount root path obj s =
      match loc with At d' c' => mount_entry obj d' c' s | _ => Done (Err Errno.Nosys) s end /\
      match loc with At d' c' => is_Some (dirs s !! d') | _ => True end
  | Missing => fs_mount root path obj s = Done (Err Errno.Badf) s
  | Foreign _ _ => fs_mount root path obj s = Done (Err Errno.Nosys) s
  end.
Proof.
  apply (creation_locates (fun f n p => traverse_mount f n p obj) (mount_entry obj));
    [| |exact Hwf|exact Hd]; clear.
  - intros fuel d a path s m Hd. cbn. destruct (split_path path) as [c rest]. unfold bind at 1.
    rewrite (get_dir_run _ _ _ Hd). destruct (m !! c); [done|]. by destruct (is_empty rest).
  - intros fuel n path s Hn. destruct n; try done. by destruct (Hn inner dir_attr).
Qed.
End Locates.

(** The directory a listing shows: the one that holds the last segment, which
    itself is not looked at. *)
Fixpoint listed (s : store) (dir : Z) (segs : list string) : location :=
  match segs with
  | [] | [_] => At dir EmptyString
  | c :: segs =>
      match entry s dir c with
      | None => Missing
      | Some (MemDirectory d _) => listed s d segs
      | Some n => Foreign n segs
      end
  end.

Lemma listed_cons s d c x xs :
  listed s d (c :: x :: xs) =
  match entry s d c with
  | None => Missing
  | Some (MemDirectory d _) => listed s d (x :: xs)
  | Some n => Foreign n (x :: xs)
  end.
Proof. reflexivity. Qed.

Lemma readdir_walk s fuel d a path :
  wf s -> is_Some (dirs s !! d) -> (Z.to_nat (next s - d) < fuel)%nat ->
  match listed s d (segments path) with
  | At d' _ => exists m, dirs s !! d' = Some m /\
      traverse_readdir fuel (MemDirectory d a) path s = Done (Ok (keys m)) s
  | Missing => traverse_readdir fuel (MemDirectory d a) path s = Done (Err Errno.Badf) s
  | Foreign _ _ => traverse_readdir fuel (MemDirectory d a) path s = Done (Err Errno.Nosys) s
  end.
Proof.
  intros Hwf. revert d a path. induction fuel as [|fuel IH]; intros d a path [m Hd] Hfuel; [lia|].
  pose proof (wf_dir _ Hwf d ltac:(by eexists)). cbn [traverse_readdir].
  erewrite bind_run by (by apply get_dir_run). rewrite segments_split.
  destruct (split_once path) as [[c rest]|]; [|by exists m].
  destruct (segments_cons rest) as (x & xs & Ex). rewrite Ex, listed_cons, <- Ex.
  rewrite (entry_lookup _ _ _ _ Hd). destruct (m !! c) as [n|] eqn:En; [|done].
  pose proof (wf_node _ Hwf _ _ _ _ Hd En) as Hn.
  destruct n as [i|i|d' a'|]; try (destruct fuel; [lia|done]).
  pose proof (wf_child _ Hwf _ _ _ _ _ Hd En). pose proof (wf_dir _ Hwf d' Hn).
  apply IH; [exact Hn|lia].
Qed.

(** Listing goes its own way: the last segment is not looked up, so that
    without a trailing slash the parent is listed. *)
Lemma readdir_lists_parent s d a path :
  wf s -> is_Some (dirs s !! d) ->
  match listed s d (segments (strip_slash path)) with
  | At d' _ => exists m, dirs s !! d' = Some m /\ fs_readdir (MemDirectory d a) path s = Done (Ok (keys m)) s
  | Missing => fs_readdir (MemDirectory d a) path s = Done (Err Errno.Badf) s
  | Foreign _ _ => fs_readdir (MemDirectory d a) path s = Done (Err Errno.Nosys) s
  end.
Proof. intros Hwf Hd. apply readdir_walk; [done|done|by apply walk_fuel_enough]. Qed.

(** C8: on every well-formed file system opening, unlinking, asking for
    attributes, creating a file from bytes, and making a directory or mounting
    under a free name end, whatever the depth of the path, and do exactly what
    their code does at the place the path stands for; a missing or foreign node
    on the way answers the error of that call and changes nothing.  (Listing
    and removing directories, and making a directory or mounting where an entry
    exists, are not part of it; see [readdir_lists_parent], [remove_locates],
    [mkdir_locates] and [mount_locates].) *)
Theorem calls_follow_paths s d a path :
  wf s -> is_Some (dirs s !! d) ->
  let root := MemDirectory d a in
  let place := locate s d (segments (strip_slash path)) in
  (forall opt mode, fs_open now_micros root path opt mode s =
     match place with
     | At d' c => open_entry now_micros d' c opt mode s
     | Missing => Done (Err Errno.Noent) s
     | Foreign n segs => open_foreign n segs s
     end) /\
  fs_unlink root path s =
    match place with
    | At d' c => remove_entry d' c File Errno.Isdir s
    | Missing => Done (Err Errno.Badf) s
    | Foreign _ _ => Done (Err Errno.Nosys) s
    end /\
  fs_stat root path s =
    match place with
    | At d' c => stat_entry d' c s
    | Missing => Done (Err Errno.Badf) s
    | Foreign n _ => Done (Err (stat_foreign n)) s
    end /\
  (forall bytes mode, fs_create_file now_micros root path bytes mode s =
     match place with
     | At d' c => create_entry now_micros d' c bytes mode s
     | Missing => Done (Err Errno.Noent) s
     | Foreign _ _ => Done (Err Errno.Nosys) s
     end) /\
  (forall mode, match place with
     | At d' c => entry s d' c = None -> fs_mkdir now_micros root path mode s = mkdir_entry mode d' c s
     | Missing => fs_mkdir now_micros root path mode s = Done (Err Errno.Badf) s
     | Foreign _ _ => fs_mkdir now_micros root path mode s = Done (Err Errno.Nosys) s
     end) /\
  (forall obj, match place with
     | At d' c => entry s d' c = None -> fs_mount root path obj s = mount_entry obj d' c s
     | Missing => fs_mount root path obj s = Done (Err Errno.Badf) s
     | Foreign _ _ => fs_mount root path obj s = Done (Err Errno.Nosys) s
     end).
Proof.
  intros Hwf Hd root place. split_and!.
  - intros opt mode. by apply open_locates.
  - by apply (remove_locates s d a Hwf Hd File).
  - by apply stat_locates.
  - intros bytes mode. by apply create_file_locates.
  - intros mode. pose proof (mkdir_locates s d a Hwf Hd path mode) as H. cbv zeta beta in H. subst place root.
    destruct (locate _ _ _); [|done|done]. destruct H as (loc & Hs & E & _). intros Hn.
    destruct Hs; [exact E|congruence|congruence].
  - intros obj. pose proof (mount_locates s d a Hwf Hd path obj) as H. cbv zeta beta in H. subst place root.
    destruct (locate _ _ _); [|done|done]. destruct H as (loc & Hs & E & _). intros Hn.
    destruct Hs; [exact E|congruence|congruence].
Qed.

End Walks.
End DirSpec.
