(* ===== verification/FsInv.v ===== *)
(** Every call of the file system on a well-formed store runs to its end,
    without a panic, and leaves a well-formed store. *)

From Stdlib Require Import Ascii String.
From S2P Require Import Prelude Errors Time Files FileSpec Directories FileSystem DirSpec.

Module FsInv.
Import Flags Files Directories FileSystem DirSpec.

(** ** Growing stores *)

(** Nothing that was there is gone. *)
Record grows (s s' : store) : Prop := {
  g_roms i : is_Some (roms s !! i) -> is_Some (roms s' !! i);
  g_rams i : is_Some (rams s !! i) -> is_Some (rams s' !! i);
  g_dirs i : is_Some (dirs s !! i) -> is_Some (dirs s' !! i);
  g_objs i : is_Some (objs s !! i) -> is_Some (objs s' !! i)
}.

#[global] Instance grows_preorder : PreOrder grows.
Proof. split; [by split|]. intros s1 s2 s3 [] []. split; auto. Qed.

Lemma is_Some_insert {A} (m : gmap Z A) i x j : is_Some (m !! j) -> is_Some (<[i := x]> m !! j).
Proof. intros H. destruct (decide (i = j)) as [<-|]; [rewrite lookup_insert_eq; eauto|by rewrite lookup_insert_ne]. Qed.

Lemma node_ok_mono s s' n : grows s s' -> node_ok s n -> node_ok s' n.
Proof. intros []. destruct n; cbn; auto. Qed.

Lemma fd_ok_mono s s' f : grows s s' -> fd_ok s f -> fd_ok s' f.
Proof. intros []. destruct f; cbn; intuition. Qed.

(** A store that grows from a well-formed one keeps the old parts in order. *)
Lemma grows_set_rom i x s : grows s (set_rom i x s).
Proof. split; cbn; auto using is_Some_insert. Qed.
Lemma grows_set_ram i x s : grows s (set_ram i x s).
Proof. split; cbn; auto using is_Some_insert. Qed.
Lemma grows_set_dir i x s : grows s (set_dir i x s).
Proof. split; cbn; auto using is_Some_insert. Qed.
Lemma grows_set_obj i x s : grows s (set_obj i x s).
Proof. split; cbn; auto using is_Some_insert. Qed.

Create HintDb fs.
#[export] Hint Resolve grows_set_rom grows_set_ram grows_set_dir grows_set_obj : fs.

(** [fresh] only reserves a key. *)
Definition reserve (s : store) : store := mkStore (roms s) (rams s) (dirs s) (objs s) (next s + 1).

Lemma wf_reserve s : wf s -> wf (reserve s).
Proof.
  intros [N A B C D E F]. split; cbn.
  - lia.
  - intros. eapply node_ok_mono; [|by eapply A]. by split.
  - exact B.
  - intros d Hd. specialize (C d Hd). lia.
  - intros i f Hf. destruct (D i f Hf) as (? & ? & ?). split_and!; [lia|done|done].
  - intros i f Hf. destruct (E i f Hf) as (? & ? & ?). split_and!; [lia|done|done].
  - intros o f Hf. destruct (F o f Hf). split; [lia|]. by eapply fd_ok_mono; [|done].
Qed.

Lemma wf_set_obj s o f : wf s -> o < next s -> fd_ok s f -> wf (set_obj o f s).
Proof.
  intros [N A B C D E F] Ho Hf. split; cbn; auto.
  intros o' f' [[<- <-]|[_ H]]%lookup_insert_Some; (split; [|eapply fd_ok_mono; [apply grows_set_obj|]]);
    try done; by destruct (F _ _ H).
Qed.

Lemma wf_set_ram s i f :
  wf s -> i < next s -> len (data f) <= isize_max -> st_size (attr f) = len (data f) -> wf (set_ram i f s).
Proof.
  intros [N A B C D E F] Hi Hl Hs. split; cbn; auto.
  - intros. eapply node_ok_mono; [apply grows_set_ram|by eapply A].
  - intros i' f' [[<- <-]|[_ H]]%lookup_insert_Some; [done|by apply E].
  - intros o' f' H. destruct (F _ _ H). split; [done|]. by eapply fd_ok_mono; [apply grows_set_ram|].
Qed.

Lemma wf_set_rom s i f :
  wf s -> i < next s -> len (rom_data f) <= isize_max -> st_size (rom_attr f) = len (rom_data f) ->
  wf (set_rom i f s).
Proof.
  intros [N A B C D E F] Hi Hl Hs. split; cbn; auto.
  - intros. eapply node_ok_mono; [apply grows_set_rom|by eapply A].
  - intros i' f' [[<- <-]|[_ H]]%lookup_insert_Some; [done|by apply D].
  - intros o' f' H. destruct (F _ _ H). split; [done|]. by eapply fd_ok_mono; [apply grows_set_rom|].
Qed.

Lemma wf_set_dir s d m :
  wf s -> 0 <= d < next s ->
  (forall c n, m !! c = Some n -> node_ok s n /\ forall d' a, n = MemDirectory d' a -> d < d') ->
  wf (set_dir d m s).
Proof.
  intros [N A B C D E F] Hd Hm. split; cbn; auto.
  - intros d' m' c n [[<- <-]|[_ H]]%lookup_insert_Some Hc;
      (eapply node_ok_mono; [apply grows_set_dir|]); [by eapply Hm|by eapply A].
  - intros d' m' c d'' a [[<- <-]|[_ H]]%lookup_insert_Some Hc; [by eapply Hm|by eapply B].
  - intros d' Hd'. destruct (decide (d = d')) as [<-|]; [done|]. apply C.
    by rewrite lookup_insert_ne in Hd'.
  - intros o' f' H. destruct (F _ _ H). split; [done|]. by eapply fd_ok_mono; [apply grows_set_dir|].
Qed.

(** No name is lost. *)
Definition names (s s' : store) : Prop :=
  forall d c, is_Some (entry s d c) -> is_Some (entry s' d c).

Definition extends (s s' : store) : Prop := grows s s' /\ names s s'.

#[global] Instance extends_preorder : PreOrder extends.
Proof.
  split; [intros s; split; [reflexivity|by intros d c]|]. intros s1 s2 s3 [G1 N1] [G2 N2].
  split; [by etransitivity|]. intros d c H. by apply N2, N1.
Qed.

Lemma extends_same_dirs s s' : grows s s' -> dirs s' = dirs s -> extends s s'.
Proof. intros G E. split; [done|]. intros d c. unfold entry. by rewrite E. Qed.

Lemma extends_insert s d m c n : dirs s !! d = Some m -> extends s (set_dir d (<[c := n]> m) s).
Proof.
  intros Hd. split; [apply grows_set_dir|]. intros d' c'. unfold entry. cbn.
  destruct (decide (d = d')) as [<-|]; [|by rewrite lookup_insert_ne].
  rewrite lookup_insert_eq, Hd. cbn. destruct (decide (c = c')) as [<-|]; [rewrite lookup_insert_eq; by eexists|].
  by rewrite lookup_insert_ne.
Qed.

(** ** Building blocks *)

Definition keeps {A} (m : M store A) (s : store) : Prop :=
  exists r s', m s = Done r s' /\ wf s' /\ extends s s'.

Lemma keeps_ret {A} (r : A) s : wf s -> keeps (ret r) s.
Proof. intros. by exists r, s. Qed.

Lemma keeps_bind {A B} (m : M store A) (k : A -> M store B) s r s1 :
  m s = Done r s1 -> extends s s1 -> keeps (k r) s1 -> keeps (bind m k) s.
Proof.
  intros E G (r' & s' & E' & W & G'). exists r', s'. split; [by erewrite bind_run|].
  split; [done|by etransitivity].
Qed.

Lemma new_obj_keeps {A} f (k : Z -> M store A) s :
  wf s -> fd_ok s f ->
  (forall s', wf s' -> grows s s' -> keeps (k (next s)) s') -> keeps (bind (new_obj f) k) s.
Proof.
  intros W Hf Hk.
  assert (G : grows s (set_obj (next s) f (reserve s))) by (split; cbn; auto using is_Some_insert).
  eapply keeps_bind; [reflexivity|by apply extends_same_dirs|]. apply Hk; [|exact G].
  apply wf_set_obj; [by apply wf_reserve|cbn; lia|by eapply fd_ok_mono].
Qed.

Lemma insert_entry_keeps {A} d c n (k : unit -> M store A) s :
  wf s -> is_Some (dirs s !! d) -> node_ok s n -> (forall d' a, n = MemDirectory d' a -> d < d') ->
  (forall s', wf s' -> grows s s' -> keeps (k tt) s') -> keeps (bind (insert_entry d c n) k) s.
Proof.
  intros W [m Hd] Hn Hlt Hk. eapply keeps_bind;
    [unfold insert_entry; erewrite bind_run by (by apply get_dir_run); reflexivity|by apply extends_insert|].
  apply Hk; [|apply grows_set_dir]. apply wf_set_dir; [done|apply (wf_dir _ W); by eexists|].
  intros c' n' [[<- <-]|[_ H]]%lookup_insert_Some; [done|].
  split; [by eapply (wf_node _ W)|]. intros d' a ->. by eapply (wf_child _ W).
Qed.

Lemma get_object_keeps s n : wf s -> node_ok s n -> keeps (get_object n) s.
Proof.
  intros W Hn. assert (Hz : 0 <= 0 <= isize_max) by done.
  destruct n; cbn; try (by apply keeps_ret);
    (apply new_obj_keeps; [done|by split|]; intros; by apply keeps_ret).
Qed.

Lemma get_file_attributes_keeps s n : wf s -> node_ok s n -> keeps (get_file_attributes n) s.
Proof.
  intros W Hn. destruct n; cbn in *; try (by apply keeps_ret); destruct Hn as [f Hf];
    (eapply keeps_bind; [|reflexivity|by apply keeps_ret]).
  - unfold get_rom, bind, get, unwrap. cbn. by rewrite Hf.
  - unfold get_ram, bind, get, unwrap. cbn. by rewrite Hf.
Qed.

(** ** Calls on paths *)

Section Calls.
Context (now_micros : Z) (entropy_read : Z -> io_result (list Z)).

Lemma RamFile_new_keeps {A} mode (k : Node -> M store A) s :
  wf s ->
  (forall s', wf s' -> grows s s' -> node_ok s' (RamFile (next s)) -> keeps (k (RamFile (next s))) s') ->
  keeps (bind (RamFile_new now_micros mode) k) s.
Proof.
  intros W Hk.
  assert (G : forall f, grows s (set_ram (next s) f (reserve s))) by (split; cbn; auto using is_Some_insert).
  eapply keeps_bind; [reflexivity|by apply extends_same_dirs|].
  apply Hk; [|apply G|cbn; rewrite lookup_insert_eq; by eexists].
  apply wf_set_ram; [by apply wf_reserve|cbn; lia|done|done].
Qed.

Lemma open_entry_keeps s d c opt mode :
  wf s -> is_Some (dirs s !! d) -> keeps (open_entry now_micros d c opt mode) s.
Proof.
  intros W [m Hd]. eapply keeps_bind; [by apply get_dir_run|reflexivity|].
  destruct (m !! c) as [n|] eqn:En.
  - repeat case_match; try (by apply keeps_ret). apply get_object_keeps; [done|by eapply (wf_node _ W)].
  - destruct (contains opt O_CREAT); [|by apply keeps_ret].
    apply RamFile_new_keeps; [done|]. intros s1 W1 G1 Hn.
    apply insert_entry_keeps; [done|apply G1; by eexists|done|done|]. intros s2 W2 G2.
    apply get_object_keeps; [done|by eapply node_ok_mono].
Qed.

(** Removing a name loses no other one. *)
Lemma remove_entry_keeps s d c kind wrong :
  wf s -> is_Some (dirs s !! d) ->
  exists r s', remove_entry d c kind wrong s = Done r s' /\ wf s' /\ grows s s' /\
    forall x y, (x, y) <> (d, c) -> is_Some (entry s x y) -> is_Some (entry s' x y).
Proof.
  intros W [m Hd]. unfold remove_entry. erewrite bind_run by (by apply get_dir_run).
  destruct (m !! c) as [n|] eqn:En; [|by eexists _, s].
  assert (W1 : wf (set_dir d (delete c m) s)).
  { apply wf_set_dir; [done|apply (wf_dir _ W); by eexists|].
    intros c' n' [_ H]%lookup_delete_Some. split; [by eapply (wf_node _ W)|].
    intros d' a ->. by eapply (wf_child _ W). }
  erewrite bind_run by reflexivity.
  assert (N1 : forall x y, (x, y) <> (d, c) -> is_Some (entry s x y) -> is_Some (entry (set_dir d (delete c m) s) x y)).
  { intros x y Hne. unfold entry. cbn. destruct (decide (d = x)) as [<-|]; [|by rewrite lookup_insert_ne].
    rewrite lookup_insert_eq, Hd. cbn. by rewrite lookup_delete_ne by congruence. }
  case_match; [|eexists _, _; split; [reflexivity|]; split; [done|split; [apply grows_set_dir|done]]].
  edestruct (insert_entry_keeps d c n (fun _ => ret (Err (A := unit) wrong)) (set_dir d (delete c m) s))
    as (r & s' & E & W' & G & N); [done|cbn; rewrite lookup_insert_eq; by eexists| | | |].
  - eapply node_ok_mono; [apply grows_set_dir|by eapply (wf_node _ W)].
  - intros d' a ->. by eapply (wf_child _ W).
  - intros. by apply keeps_ret.
  - exists r, s'. split; [exact E|]. split; [done|].
    split; [etransitivity; [apply grows_set_dir|exact G]|]. intros x y Hne Hxy. by apply N, N1.
Qed.

Lemma create_entry_keeps s d c bytes mode :
  wf s -> is_Some (dirs s !! d) -> len bytes <= isize_max ->
  keeps (create_entry now_micros d c bytes mode) s.
Proof.
  intros W Hd Hl.
  assert (G : forall f, grows s (set_rom (next s) f (reserve s))) by (split; cbn; auto using is_Some_insert).
  eapply keeps_bind; [reflexivity|by apply extends_same_dirs|]. apply insert_entry_keeps.
  - apply wf_set_rom; [by apply wf_reserve|cbn; lia|done|done].
  - by apply G.
  - cbn. rewrite lookup_insert_eq. by eexists.
  - done.
  - intros. by apply keeps_ret.
Qed.

Lemma mkdir_entry_keeps s d c mode :
  wf s -> is_Some (dirs s !! d) -> keeps (mkdir_entry now_micros mode d c) s.
Proof.
  intros W Hd. pose proof (wf_dir _ W d Hd). pose proof (wf_next _ W).
  assert (G : forall f, grows s (set_dir (next s) f (reserve s))) by (split; cbn; auto using is_Some_insert).
  eapply keeps_bind; [reflexivity|split; [apply G|]|apply insert_entry_keeps].
  - intros d' c' [n Hn]. unfold entry in *. cbn. rewrite lookup_insert_ne; [by exists n|]. intros <-.
    destruct (dirs s !! next s) eqn:E; [|done]. pose proof (wf_dir _ W (next s) ltac:(by eexists)). lia.
  - apply wf_set_dir; [by apply wf_reserve|cbn; lia|done].
  - by apply G.
  - cbn. rewrite lookup_insert_eq. by eexists.
  - intros d' a [= <- <-]. lia.
  - intros. by apply keeps_ret.
Qed.

Lemma mount_entry_keeps s d c n :
  wf s -> is_Some (dirs s !! d) -> node_ok s n -> (forall d' a, n <> MemDirectory d' a) ->
  keeps (mount_entry n d c) s.
Proof.
  intros W Hd Hn Hne. apply insert_entry_keeps; [done|done|done| |].
  - intros d' a ->. by destruct (Hne d' a).
  - intros. by apply keeps_ret.
Qed.

Lemma locate_dir s d segs d' c :
  wf s -> is_Some (dirs s !! d) -> locate s d segs = At d' c -> is_Some (dirs s !! d').
Proof.
  intros W. revert d. induction segs as [|x segs IH]; intros d [m Hd]; cbn; [done|].
  destruct (at_end segs); [intros [= <- <-]; by eexists|]. rewrite (entry_lookup _ _ _ _ Hd).
  destruct (m !! x) as [[]|] eqn:En; try done. apply IH. by apply (wf_node _ W _ _ _ _ Hd En).
Qed.

Lemma open_foreign_keeps s n segs : wf s -> keeps (open_foreign n segs) s.
Proof.
  intros W. destruct n; cbn; try (by apply keeps_ret). case_match; [|by apply keeps_ret].
  apply new_obj_keeps; [done|done|]. intros. by apply keeps_ret.
Qed.

(** ** Calls on open files *)

Lemma get_obj_run s o f : objs s !! o = Some f -> get_obj o s = Done f s.
Proof. unfold get_obj, bind, get, unwrap. cbn. by intros ->. Qed.
Lemma get_ram_run s i f : rams s !! i = Some f -> get_ram i s = Done f s.
Proof. unfold get_ram, bind, get, unwrap. cbn. by intros ->. Qed.
Lemma get_rom_run s i f : roms s !! i = Some f -> get_rom i s = Done f s.
Proof. unfold get_rom, bind, get, unwrap. cbn. by intros ->. Qed.

Lemma set_obj_keeps {A} o f (r : A) s s0 :
  wf s -> o < next s -> fd_ok s f -> grows s0 s -> keeps (bind (modify (set_obj o f)) (fun _ => ret r)) s.
Proof.
  intros. eapply keeps_bind; [reflexivity|apply extends_same_dirs; [apply grows_set_obj|done]|].
  apply keeps_ret. by apply wf_set_obj.
Qed.

(** A descriptor on a writable file is an abstract file with one descriptor. *)
Lemma ram_represents s o pos i :
  wf s -> objs s !! o = Some (RamFileInterface pos i) ->
  exists a, FileSpec.represents s i a /\ FileSpec.apos a = {[ o := pos ]}.
Proof.
  intros W Ho. destruct (wf_obj _ W _ _ Ho) as [_ [[f Hi] Hp]]. destruct (wf_ram _ W _ _ Hi) as (_ & Hl & Hs).
  exists (FileSpec.mkAfile (len (data f)) (fun j => nth (Z.to_nat j) (data f) 0) {[ o := pos ]}).
  split; [|done]. split; [by exists f|]. cbn. by intros o' p' [<- <-]%lookup_singleton_Some.
Qed.

Lemma frame_wf s s' o pos i a a' :
  wf s -> objs s !! o = Some (RamFileInterface pos i) -> FileSpec.apos a = {[ o := pos ]} ->
  (forall o', FileSpec.apos a' !! o' = None <-> FileSpec.apos a !! o' = None) ->
  FileSpec.represents s' i a' -> FileSpec.frame i a s s' -> wf s' /\ extends s s'.
Proof.
  intros W Ho Ha Hd [(f & Hf & Hl & Hmax & Hs & _) Hp] (R & D & N & F & O).
  destruct (wf_obj _ W _ _ Ho) as [Hlt [[f0 Hi] _]]. pose proof (wf_ram _ W _ _ Hi) as (Hil & _).
  assert (Ho' : exists p, objs s' !! o = Some (RamFileInterface p i) /\ 0 <= p <= isize_max).
  { destruct (FileSpec.apos a' !! o) as [p|] eqn:E; [exists p; by apply Hp|].
    apply Hd in E. rewrite Ha, lookup_singleton_eq in E. done. }
  assert (G : grows s s').
  { split; intros j; rewrite ?R, ?D; auto.
    - destruct (decide (j = i)) as [->|]; [eauto|by rewrite F].
    - destruct (decide (j = o)) as [->|Hne]; [destruct Ho' as (? & -> & _); eauto|].
      rewrite O; [done|]. by rewrite Ha, lookup_singleton_ne. }
  split; [|by apply extends_same_dirs]. split; rewrite ?N, ?D, ?R.
  - apply W.
  - intros. eapply node_ok_mono; [exact G|by eapply (wf_node _ W)].
  - apply W.
  - apply W.
  - apply W.
  - intros j g Hg. destruct (decide (j = i)) as [->|]; [|rewrite F in Hg by done; by apply W].
    simplify_eq. split_and!; [done|lia|lia].
  - intros o' g Hg. destruct (decide (o' = o)) as [->|Hne].
    + destruct Ho' as (p & E & Hpr). rewrite E in Hg. simplify_eq. split; [done|]. split; [by eexists|done].
    + rewrite O in Hg by (by rewrite Ha, lookup_singleton_ne).
      destruct (wf_obj _ W _ _ Hg). split; [done|by eapply fd_ok_mono].
Qed.

Lemma ram_op_keeps s o pos i x :
  wf s -> objs s !! o = Some (RamFileInterface pos i) -> FileSpec.fits pos x ->
  keeps (FileSpec.run_op now_micros entropy_read o x) s.
Proof.
  intros W Ho Hx. destruct (ram_represents s o pos i W Ho) as (a & Ha & Hpos).
  assert (Hp : FileSpec.apos a !! o = Some pos) by (by rewrite Hpos, lookup_singleton_eq).
  destruct (FileSpec.step_refines now_micros entropy_read o x s i a pos Ha Hp Hx)
    as (p & s' & Hp' & E & H' & F). simplify_eq.
  eexists _, s'. split; [exact E|]. eapply (frame_wf s s' o pos i a _ W Ho Hpos); [|exact H'|exact F]. intros. by apply FileSpec.spec_op_dom.
Qed.

(** From the wrapped operation to the call itself. *)
Lemma keeps_unwrap {A B} (m : M store A) (f : A -> B) s :
  keeps (bind m (fun r => ret (f r))) s -> keeps m s.
Proof.
  intros (r & s' & E & W & G). apply bind_Done in E as (a & s1 & E1 & E2).
  unfold ret in E2. simplify_eq. by exists a, s'.
Qed.

Lemma read_keeps s o n :
  wf s -> is_Some (objs s !! o) -> 0 <= n <= isize_max -> keeps (read now_micros entropy_read o n) s.
Proof.
  intros W [f Ho] Hn. destruct (wf_obj _ W _ _ Ho) as [Hlt Hf].
  destruct f as [pos i|pos i|i idx|l|].
  2: exact (keeps_unwrap _ _ s (ram_op_keeps s o pos i (FileSpec.Read n) W Ho Hn)).
  all: eapply keeps_bind; [by apply get_obj_run|reflexivity|]; try (by apply keeps_ret).
  destruct Hf as [[f Hi] Hp]. destruct (wf_rom _ W _ _ Hi) as (? & ? & ?).
  eapply keeps_bind; [by apply get_rom_run|reflexivity|].
  eapply keeps_bind; [reflexivity|apply extends_same_dirs; [apply grows_set_rom|done]|].
  assert (W1 : wf (set_rom i (mkRom (rom_data f) (set_st_atim (now now_micros) (rom_attr f))) s))
    by by apply wf_set_rom.
  destruct (Z.leb_spec (len (rom_data f)) pos); [by apply keeps_ret|]. cbv zeta.
  rewrite FileSpec.word_small by lia. unfold slice.
  rewrite (proj2 (Z.leb_le pos (pos + _))), (proj2 (Z.leb_le (pos + _) (len (rom_data f)))) by lia.
  eapply keeps_bind; [reflexivity|reflexivity|]. eapply set_obj_keeps; [done|done| |reflexivity].
  cbn. rewrite lookup_insert_eq. split; [by eexists|lia].
Qed.

Lemma write_keeps s o buf :
  wf s -> is_Some (objs s !! o) ->
  (forall pos i, objs s !! o = Some (RamFileInterface pos i) -> pos + len buf <= isize_max) ->
  keeps (write now_micros o buf) s.
Proof.
  intros W [f Ho] Hfit. destruct f as [pos i|pos i|i idx|l|].
  2: exact (keeps_unwrap _ _ s (ram_op_keeps s o pos i (FileSpec.Write buf) W Ho (Hfit _ _ Ho))).
  all: eapply keeps_bind; [by apply get_obj_run|reflexivity|]; by apply keeps_ret.
Qed.

Lemma lseek_keeps s o offset whence :
  wf s -> is_Some (objs s !! o) -> isize_min <= offset <= isize_max -> keeps (lseek o offset whence) s.
Proof.
  intros W [f Ho] Hoff. destruct (wf_obj _ W _ _ Ho) as [Hlt Hf]. destruct f as [pos i|pos i|i idx|l|].
  2: exact (keeps_unwrap _ _ s (ram_op_keeps s o pos i (FileSpec.Seek offset whence) W Ho Hoff)).
  all: eapply keeps_bind; [by apply get_obj_run|reflexivity|]; try (by apply keeps_ret).
  - destruct Hf as [[f Hi] Hp]. destruct (wf_rom _ W _ _ Hi) as (? & Hl & ?).
    eapply keeps_bind; [by apply get_rom_run|reflexivity|]. cbv zeta.
    pose proof (FileSpec.len_nonneg (rom_data f)). rewrite FileSpec.isize_small by lia.
    destruct (seek_target _ _ _ _) as [q|e]; [|by apply keeps_ret].
    destruct (Z.leb_spec 0 q), (Z.leb_spec q (len (rom_data f))); cbn [andb negb]; try (by apply keeps_ret).
    eapply set_obj_keeps; [done|done| |reflexivity]. split; [by eexists|lia].
  - cbv beta iota. case_match; [by apply keeps_ret|]. eapply set_obj_keeps; [done|done| |reflexivity].
    split; [by apply Hf|]. apply Z.mod_pos_bound. done.
Qed.

Lemma truncate_keeps s o n :
  wf s -> is_Some (objs s !! o) -> 0 <= n <= isize_max -> keeps (truncate o n) s.
Proof.
  intros W [f Ho] Hn. destruct f as [pos i|pos i|i idx|l|].
  2: exact (keeps_unwrap _ _ s (ram_op_keeps s o pos i (FileSpec.Truncate n) W Ho Hn)).
  all: eapply keeps_bind; [by apply get_obj_run|reflexivity|]; by apply keeps_ret.
Qed.

Lemma chmod_keeps s o mode : wf s -> is_Some (objs s !! o) -> keeps (chmod o mode) s.
Proof.
  intros W [f Ho]. destruct (wf_obj _ W _ _ Ho) as [Hlt Hf].
  eapply keeps_bind; [by apply get_obj_run|reflexivity|].
  destruct f as [pos i|pos i|i idx|l|]; try (by apply keeps_ret).
  destruct Hf as [[f Hi] Hp]. destruct (wf_ram _ W _ _ Hi) as (? & ? & ?).
  eapply keeps_bind; [by apply get_ram_run|reflexivity|].
  eapply keeps_bind; [reflexivity|apply extends_same_dirs; [apply grows_set_ram|done]|]. apply keeps_ret. by apply wf_set_ram.
Qed.

Lemma fstat_keeps s o : wf s -> is_Some (objs s !! o) -> keeps (fstat o) s.
Proof.
  intros W [f Ho]. destruct (wf_obj _ W _ _ Ho) as [Hlt Hf].
  eapply keeps_bind; [by apply get_obj_run|reflexivity|].
  destruct f as [pos i|pos i|i idx|l|]; try (by apply keeps_ret); destruct Hf as [[f Hi] Hp].
  - eapply keeps_bind; [by apply get_rom_run|reflexivity|]. by apply keeps_ret.
  - eapply keeps_bind; [by apply get_ram_run|reflexivity|]. by apply keeps_ret.
Qed.

End Calls.
End FsInv.
