(* ===== verification/DirList.v ===== *)
(** Listing a directory: the records [getdents] writes decode to the names of
    the directory, in order, each exactly once over a run of calls. *)

From Stdlib Require Import Ascii String.
From stdpp Require Import sorting.
From S2P Require Import Prelude Errors Time Files FileSpec Directories FileSystem DirSpec FsInv.

Module DirList.
Import Flags Files Directories FileSystem DirSpec FsInv.

(** ** Reading records, as a caller does *)

(** The bytes up to the first zero. *)
Fixpoint c_string (l : list (option Z)) : list Z :=
  match l with
  | Some b :: l => if b =? 0 then [] else b :: c_string l
  | _ => []
  end.

Definition byte_at (l : list (option Z)) (i : nat) : Z := default 0 (default None (l !! i)).

(** Length and name of the record a buffer starts with. *)
Definition record (l : list (option Z)) : Z * list Z :=
  (byte_at l 16 + 256 * byte_at l 17, c_string (drop 19 l)).

Fixpoint parse (fuel : nat) (l : list (option Z)) (n : Z) : list (list Z) :=
  match fuel with
  | O => []
  | S fuel =>
      if n <=? 0 then []
      else let '(reclen, name) := record l in name :: parse fuel (drop (Z.to_nat reclen) l) (n - reclen)
  end.

(** Names a C caller can read, in records of 16-bit length. *)
Definition plain (name : string) : Prop :=
  Z.of_nat (String.length name) <= 65000 /\ 0 ∉ name_bytes name.

(** ** Buffers *)

Lemma length_name_bytes s : length (name_bytes s) = String.length s.
Proof. induction s; cbn; auto. Qed.

Lemma length_dirent_head r name : Z.of_nat (length (dirent_head r name)) = D_NAME_OFFSET + Z.of_nat (String.length name) + 1.
Proof. unfold dirent_head, D_NAME_OFFSET. rewrite length_fmap, !length_app, length_name_bytes. cbn. lia. Qed.

Lemma length_overwrite b off l :
  0 <= off -> off + Z.of_nat (length l) <= Z.of_nat (length b) -> length (overwrite b off l) = length b.
Proof. intros. unfold overwrite. rewrite !length_app, length_take, length_drop. lia. Qed.

Lemma take_overwrite b off l :
  0 <= off -> off <= Z.of_nat (length b) -> take (Z.to_nat off) (overwrite b off l) = take (Z.to_nat off) b.
Proof. intros. unfold overwrite. rewrite take_app_le by (rewrite length_take; lia). rewrite take_take. f_equal. lia. Qed.

Lemma drop_overwrite b off l :
  0 <= off -> off <= Z.of_nat (length b) ->
  drop (Z.to_nat off) (overwrite b off l) = l ++ drop (Z.to_nat off + length l) b.
Proof.
  intros. unfold overwrite. rewrite drop_app_ge by (rewrite length_take; lia).
  rewrite length_take. replace (_ - _)%nat with 0%nat by lia. done.
Qed.

Lemma c_string_name s tl : 0 ∉ name_bytes s -> c_string ((Some <$> (name_bytes s ++ [0])) ++ tl) = name_bytes s.
Proof.
  induction s as [|c s IH]; cbn; [done|]. intros H.
  destruct (Z.eqb_spec (Z.of_N (Ascii.N_of_ascii c)) 0) as [E|_]; [rewrite E in H; set_solver|].
  f_equal. apply IH. set_solver.
Qed.

Lemma record_head r name tl :
  plain name -> 0 <= r < 65536 -> record (dirent_head r name ++ tl) = (r, name_bytes name).
Proof.
  intros [_ Hn] Hr. unfold record. f_equal.
  - unfold byte_at, dirent_head. cbn. rewrite (Z.mod_small (r / 256)) by (split; [apply Z.div_pos; lia|apply Z.div_lt_upper_bound; lia]).
    pose proof (Z.div_mod r 256). lia.
  - rewrite <- (c_string_name name tl Hn). done.
Qed.

Lemma align_up_spec n : 0 <= n -> exists k, align_up n DIRENT_ALIGN = 8 * k /\ n <= 8 * k < n + 8.
Proof.
  intros. unfold align_up, DIRENT_ALIGN. exists ((n + 8 - 1) / 8).
  pose proof (Z.div_mod (n + 8 - 1) 8). pose proof (Z.mod_pos_bound (n + 8 - 1) 8). lia.
Qed.

Lemma align_up_shift j n : align_up (8 * j + n) DIRENT_ALIGN = 8 * j + align_up n DIRENT_ALIGN.
Proof.
  unfold align_up, DIRENT_ALIGN. replace (8 * j + n + 8 - 1) with (j * 8 + (n + 8 - 1)) by lia.
  rewrite Z.div_add_l by lia. lia.
Qed.

(** The record of a name and the room it takes. *)
Definition reclen (name : string) : Z := align_up (D_NAME_OFFSET + Z.of_nat (String.length name) + 1) DIRENT_ALIGN.
Definition written (b : list (option Z)) (off : Z) (name : string) : list (option Z) :=
  overwrite (overwrite b off (replicate 24 None)) off (dirent_head (reclen name) name).

Lemma reclen_bounds name :
  24 <= reclen name /\ D_NAME_OFFSET + Z.of_nat (String.length name) + 1 <= reclen name
    < D_NAME_OFFSET + Z.of_nat (String.length name) + 9 /\ exists k, reclen name = 8 * k.
Proof.
  unfold reclen. destruct (align_up_spec (D_NAME_OFFSET + Z.of_nat (String.length name) + 1)) as (k & -> & H);
    unfold D_NAME_OFFSET in *; [lia|]. split_and!; [lia|lia|lia|by exists k].
Qed.

Lemma written_spec b off name :
  0 <= off -> off + reclen name <= Z.of_nat (length b) -> plain name ->
  length (written b off name) = length b /\
  take (Z.to_nat off) (written b off name) = take (Z.to_nat off) b /\
  exists tl, drop (Z.to_nat off) (written b off name) = dirent_head (reclen name) name ++ tl.
Proof.
  intros Ho Hr Hp. destruct (reclen_bounds name) as (? & ? & _).
  pose proof (length_dirent_head (reclen name) name) as Hh.
  assert (Hl : length (overwrite b off (replicate 24 None)) = length b)
    by (apply length_overwrite; [done|rewrite length_replicate; lia]).
  unfold written. rewrite length_overwrite, Hl by lia. rewrite !take_overwrite by lia.
  rewrite drop_overwrite by lia. split_and!; [done|done|by eexists].
Qed.

(** One step of the loop, on a buffer filled up to a multiple of 8. *)
Lemma getdents_loop_step name names b j i :
  0 <= j -> plain name ->
  getdents_loop (name :: names) (mkListing b (8 * j) i (8 * j)) =
  if Z.of_nat (length b) <? 8 * j + reclen name
  then if 8 * j =? 0 then Done (Err Errno.Inval) tt else Done (Ok (mkListing b (8 * j) i (8 * j))) tt
  else getdents_loop names
         (mkListing (written b (8 * j) name) (8 * j + reclen name) (i + 1) (8 * j + reclen name)).
Proof.
  intros Hj [Hn _]. cbn [getdents_loop Directories.buf buf_offset idx ret_].
  replace (8 * j + (D_NAME_OFFSET + _ + 1)) with (8 * j + (D_NAME_OFFSET + Z.of_nat (String.length name) + 1)) by lia.
  rewrite align_up_shift. fold (reclen name). destruct (_ <? _); [done|].
  destruct (reclen_bounds name) as (_ & ? & _). unfold D_NAME_OFFSET in *.
  destruct (Z.ltb_spec 65535 (reclen name)); [lia|done].
Qed.

(** What the loop leaves: [k] names decoded from the filled part. *)
Record lists (names : list string) (b : list (option Z)) (off i : Z) (st : listing) (k : nat) : Prop := {
  l_count : (k <= length names)%nat;
  l_length : length (Directories.buf st) = length b;
  l_prefix : take (Z.to_nat off) (Directories.buf st) = take (Z.to_nat off) b;
  l_idx : idx st = i + Z.of_nat k;
  l_ret : ret_ st = buf_offset st;
  l_range : off <= buf_offset st <= Z.of_nat (length b);
  l_size : off + 24 * Z.of_nat k <= buf_offset st;
  l_none : k = 0%nat -> buf_offset st = off;
  l_progress : off = 0 -> k = 0%nat -> names = [];
  l_parse fuel : (k < fuel)%nat ->
    parse fuel (drop (Z.to_nat off) (Directories.buf st)) (buf_offset st - off) = name_bytes <$> take k names
}.

Lemma lists_nothing names b off i :
  0 <= off <= Z.of_nat (length b) -> (off = 0 -> names = []) ->
  lists names b off i (mkListing b off i off) 0.
Proof.
  intros. split; cbn; auto; try lia. intros [|fuel] Hf; [lia|]. cbn.
  by rewrite (proj2 (Z.leb_le (off - off) 0)) by lia.
Qed.

Lemma shared_prefix {A} (b1 b2 h tl : list A) o n :
  take n b1 = take n b2 -> (o + length h <= n)%nat -> drop o b2 = h ++ tl ->
  exists tl', drop o b1 = h ++ tl'.
Proof.
  intros Ht Hn Hd. exists (drop (length h) (drop o b1)).
  rewrite <- (take_drop (length h) (drop o b1)) at 1. f_equal.
  rewrite take_drop_commute.
  assert (E : forall l : list A, take (o + length h) l = take (o + length h) (take n l)).
  { intros l. rewrite take_take. f_equal. lia. }
  rewrite E, Ht, <- E, <- take_drop_commute, Hd. by rewrite take_app_length.
Qed.

Lemma lists_cons name names b off i st k :
  0 <= off -> off + reclen name <= Z.of_nat (length b) -> plain name ->
  lists names (written b off name) (off + reclen name) (i + 1) st k ->
  lists (name :: names) b off i st (S k).
Proof.
  intros Ho Hr Hp [Hc Hl Hpre Hi Hret Hrng Hsz _ _ Hparse].
  destruct (written_spec b off name Ho Hr Hp) as (Hwl & Hwt & tl & Hwd).
  destruct (reclen_bounds name) as (? & Hlen & _). pose proof (length_dirent_head (reclen name) name) as Hh.
  rewrite Hwl in *. split; cbn; try lia.
  - apply (f_equal (take (Z.to_nat off))) in Hpre. rewrite !take_take in Hpre.
    replace (_ `min` _)%nat with (Z.to_nat off) in Hpre by lia. by rewrite Hpre.
  - intros [|fuel] Hf; [lia|]. cbn [parse]. rewrite (proj2 (Z.leb_gt _ 0)) by lia.
    destruct (fun Hn => shared_prefix _ _ _ _ (Z.to_nat off) _ Hpre Hn Hwd) as [tl' Hd]; [lia|].
    rewrite Hd at 1. rewrite record_head; [|done|destruct Hp; unfold D_NAME_OFFSET in *; lia].
    cbn [fmap list_fmap]. f_equal. rewrite drop_drop.
    replace (Z.to_nat off + Z.to_nat (reclen name))%nat with (Z.to_nat (off + reclen name)) by lia.
    replace (buf_offset st - off - reclen name) with (buf_offset st - (off + reclen name)) by lia.
    apply Hparse. lia.
Qed.

(** The loop fails only when the first name does not fit into an empty buffer. *)
Lemma getdents_loop_ok names : forall b j i,
  0 <= j -> 8 * j <= Z.of_nat (length b) -> Forall plain names ->
  match getdents_loop names (mkListing b (8 * j) i (8 * j)) with
  | Done (Ok st) _ => exists k, lists names b (8 * j) i st k
  | Done (Err e) _ => e = Errno.Inval /\ j = 0 /\ exists name, head names = Some name /\
      Z.of_nat (length b) < reclen name
  | Panic _ => False
  end.
Proof.
  induction names as [|name names IH]; intros b j i Hj Hb Hall.
  { exists 0%nat. apply lists_nothing; [lia|done]. }
  apply Forall_cons_1 in Hall as [Hp Hall]. rewrite getdents_loop_step by done.
  destruct (reclen_bounds name) as (? & _ & q & Hq).
  destruct (Z.ltb_spec (Z.of_nat (length b)) (8 * j + reclen name)).
  - destruct (Z.eqb_spec (8 * j) 0); [split_and!; [done|lia|exists name; split; [done|lia]]|].
    exists 0%nat. apply lists_nothing; [lia|]. lia.
  - destruct (written_spec b (8 * j) name) as (Hwl & _); [lia|lia|done|].
    specialize (IH (written b (8 * j) name) (j + q) (i + 1)).
    replace (8 * (j + q)) with (8 * j + reclen name) in IH by lia. rewrite Hwl in IH.
    specialize (IH ltac:(lia) ltac:(lia) Hall).
    destruct (getdents_loop names _) as [[st|e] u|why]; [|destruct IH as (_ & ? & _); lia|done].
    destruct IH as [k Hk]. exists (S k). apply lists_cons; auto; lia.
Qed.

(** ** Calls *)

(** One call on the open directory [o] at index [idx]. *)
Lemma getdents_call s o d idx m buffer :
  objs s !! o = Some (MemDirectoryInterface d idx) -> dirs s !! d = Some m -> 0 <= idx ->
  Forall plain (keys m) ->
  let left := drop (Z.to_nat idx) (keys m) in
  (exists k b n, getdents o buffer s = Done (Ok (n, b)) (set_obj o (MemDirectoryInterface d (idx + Z.of_nat k)) s) /\
     lists left buffer 0 idx (mkListing b n (idx + Z.of_nat k) n) k) \/
  (exists name, head left = Some name /\ Z.of_nat (length buffer) < reclen name /\
     getdents o buffer s = Done (Err Errno.Inval) s).
Proof.
  intros Ho Hd Hi Hall left. unfold getdents. erewrite bind_run by (by apply get_obj_run). cbv beta iota.
  erewrite bind_run by (by apply get_dir_run).
  pose proof (getdents_loop_ok left buffer 0 idx ltac:(lia) ltac:(lia)) as H.
  lapply H; [clear H; intros H|by apply Forall_drop]. change (8 * 0) with 0 in H. fold left.
  destruct (getdents_loop left _) as [[st|e] u|why]; [left|right|done].
  - destruct H as [k Hk]. destruct Hk as [? ? ? Hidx Hret ? ? ? ? ?]. destruct st as [b off i r]. cbn in *.
    subst i r. exists k, b, off. by split.
  - destruct H as (-> & _ & name & Hh & Hl). by exists name.
Qed.

(** Calls with a fresh buffer of [n] bytes until one answers 0. *)
Fixpoint list_all (fuel : nat) (o : Z) (n : nat) : M store (option (list (list Z))) :=
  match fuel with
  | O => ret None
  | S fuel =>
      let! r := getdents o (replicate n None) in
      match r with
      | Err _ => ret None
      | Ok (len, b) =>
          if len =? 0 then ret (Some [])
          else
            let! rest := list_all fuel o n in
            ret (option_map (app (parse (S (Z.to_nat len)) b len)) rest)
      end
  end.

Lemma keys_names m : NoDup (keys m) /\ forall x, x ∈ keys m <-> is_Some (m !! x).
Proof.
  unfold keys. split; intros; rewrite merge_sort_Permutation; [apply NoDup_fst_map_to_list|].
  rewrite list_elem_of_fmap. split.
  - intros ([y n] & -> & H%elem_of_map_to_list). by eexists.
  - intros [n H]. exists (x, n). split; [done|]. by apply elem_of_map_to_list.
Qed.

(** C31: Calling [getdents] until it answers 0 decodes to the names the
    directory has from the index on, in order, each exactly once, in as many
    calls as there are names and one more, whatever buffer holds the longest
    of them; a smaller buffer answers [EINVAL] and moves nothing. *)
Theorem getdents_lists_all s o d idx m n fuel :
  objs s !! o = Some (MemDirectoryInterface d idx) -> dirs s !! d = Some m -> 0 <= idx ->
  Forall plain (keys m) ->
  (Forall (fun name => reclen name <= Z.of_nat n) (keys m) ->
   (length (keys m) - Z.to_nat idx < fuel)%nat ->
   exists s', list_all fuel o n s = Done (Some (name_bytes <$> drop (Z.to_nat idx) (keys m))) s') /\
  (forall name, keys m !! Z.to_nat idx = Some name -> Z.of_nat n < reclen name ->
   getdents o (replicate n None) s = Done (Err Errno.Inval) s) /\
  NoDup (keys m) /\ (forall x, x ∈ keys m <-> is_Some (m !! x)).
Proof.
  intros Ho Hd Hi Hall. split; [|split; [|apply keys_names]].
  - intros Hfit. revert s idx Ho Hd Hi. induction fuel as [|fuel IH]; intros s idx Ho Hd Hi Hf; [lia|].
    cbn [list_all].
    destruct (getdents_call s o d idx m (replicate n None) Ho Hd Hi Hall)
      as [(k & b & z & E & L)|(name & Hh & Hlt & _)].
    + erewrite bind_run by exact E. destruct L as [Hc Hl _ _ _ Hrng Hsz Hnone Hprog Hparse].
      cbn [buf_offset Directories.buf] in *. cbn beta iota. destruct (Z.eqb_spec z 0) as [->|Hz].
      * exists (set_obj o (MemDirectoryInterface d (idx + Z.of_nat k)) s). assert (k = 0%nat) as -> by lia.
        by rewrite Hprog.
      * assert (k <> 0%nat) by (intros ->; by rewrite Hnone in Hz).
        rewrite length_drop in Hc.
        destruct (IH (set_obj o (MemDirectoryInterface d (idx + Z.of_nat k)) s) (idx + Z.of_nat k))
          as [s' Es']; [cbn; by rewrite lookup_insert_eq|done|lia|lia|].
        exists s'. erewrite bind_run by exact Es'. unfold ret. do 2 f_equal. cbn [option_map].
        specialize (Hparse (S (Z.to_nat z)) ltac:(lia)). rewrite Z.sub_0_r in Hparse.
        change (Z.to_nat 0) with 0%nat in Hparse. rewrite drop_0 in Hparse.
        rewrite Hparse, <- fmap_app. do 2 f_equal.
        replace (Z.to_nat (idx + Z.of_nat k)) with (Z.to_nat idx + k)%nat by lia.
        by rewrite <- drop_drop, take_drop.
    + exfalso. rewrite length_replicate in Hlt.  rewrite Forall_forall in Hfit.
      assert (name ∈ keys m) as Hin.
      { destruct (drop (Z.to_nat idx) (keys m)) as [|y l] eqn:Ed; [done|]. cbn in Hh. simplify_eq.
        rewrite <- (take_drop (Z.to_nat idx) (keys m)), Ed. set_solver. }
      specialize (Hfit _ (proj1 (list_elem_of_In _ _) Hin)). lia.
  - intros name Hname Hlt. unfold getdents. erewrite bind_run by (by apply get_obj_run). cbv beta iota.
    erewrite bind_run by (by apply get_dir_run). apply drop_S in Hname. rewrite Hname.
    pose proof (getdents_loop_step name (drop (S (Z.to_nat idx)) (keys m)) (replicate n None) 0 idx) as E.
    change (8 * 0) with 0 in E. rewrite E, length_replicate, (proj2 (Z.ltb_lt (Z.of_nat n) _)); [done|lia|lia|].
    rewrite Forall_forall in Hall. apply Hall, list_elem_of_In. rewrite <- (take_drop (Z.to_nat idx) (keys m)), Hname. set_solver.
Qed.

End DirList.
