(* ===== verification/FsProps.v ===== *)
(** Properties of the file system: every call keeps it well formed, a file
    created under a path is the file every descriptor opened by that path
    shares, removing a name removes exactly that name, and what the calls do
    where they differ from their documentation.  [FsKernel]: the descriptor
    table of the scheduler serves it. *)

From Stdlib Require Import Ascii String.
From S2P Require Import Prelude PrioFifo Tasks Errors HandleQueue ReadyQueue Timers Supervisor SlotPool BlockedQueue Kernel Scheduler SchedInv SchedOps SchedProps Time Files FileSpec Directories FileSystem DirSpec FsInv DirList.

Module FsProps.
Import Flags Files Directories FileSystem DirSpec FsInv.

Section Props.
Context (now_micros : Z) (entropy_read : Z -> io_result (list Z)).

(** ** The calls *)

Inductive call : Type :=
  | Open (path : string) (opt mode : Z)
  | Unlink (path : string)
  | Rmdir (path : string)
  | Mkdir (path : string) (mode : Z)
  | Readdir (path : string)
  | Opendir (path : string)
  | Stat (path : string)
  | Create_file (path : string) (bytes : list Z) (mode : Z)
  | Mount (path : string) (obj : Node)
  | Read (o n : Z)
  | Write (o : Z) (buf : list Z)
  | Lseek (o offset : Z) (whence : SeekWhence)
  | Truncate (o n : Z)
  | Chmod (o mode : Z)
  | Fstat (o : Z)
  | Getdents (o : Z) (buffer : list (option Z)).

Definition ignore {A} (m : M store A) : M store unit := let! _r := m in ret tt.

Definition run_call (root : Node) (c : call) : M store unit :=
  match c with
  | Open path opt mode => ignore (fs_open now_micros root path opt mode)
  | Unlink path => ignore (fs_unlink root path)
  | Rmdir path => ignore (fs_rmdir root path)
  | Mkdir path mode => ignore (fs_mkdir now_micros root path mode)
  | Readdir path => ignore (fs_readdir root path)
  | Opendir path => ignore (fs_opendir root path)
  | Stat path => ignore (fs_stat root path)
  | Create_file path bytes mode => ignore (fs_create_file now_micros root path bytes mode)
  | Mount path obj => ignore (fs_mount root path obj)
  | Read o n => ignore (read now_micros entropy_read o n)
  | Write o buf => ignore (write now_micros o buf)
  | Lseek o offset whence => ignore (lseek o offset whence)
  | Truncate o n => ignore (truncate o n)
  | Chmod o mode => ignore (chmod o mode)
  | Fstat o => ignore (fstat o)
  | Getdents o buffer => ignore (getdents o buffer)
  end.

(** Arguments of the types the calls have, an open file where one is named,
    vectors within their capacity, listings of an in-memory directory, and no
    in-memory directory mounted. *)
Definition allowed (s : store) (c : call) : Prop :=
  match c with
  | Open _ _ _ | Unlink _ | Rmdir _ | Mkdir _ _ | Readdir _ | Opendir _ | Stat _ => True
  | Create_file _ bytes _ => len bytes <= isize_max
  | Mount _ obj => node_ok s obj /\ forall d a, obj <> MemDirectory d a
  | Read o n | Truncate o n => is_Some (objs s !! o) /\ 0 <= n <= isize_max
  | Write o buf => is_Some (objs s !! o) /\
      forall pos i, objs s !! o = Some (RamFileInterface pos i) -> pos + len buf <= isize_max
  | Lseek o offset _ => is_Some (objs s !! o) /\ isize_min <= offset <= isize_max
  | Chmod o _ | Fstat o => is_Some (objs s !! o)
  | Getdents o _ => exists f, objs s !! o = Some f /\
      match f with
      | MemDirectoryInterface d _ => forall m, dirs s !! d = Some m -> Forall DirList.plain (keys m)
      | DirectoryReader _ => False
      | _ => True
      end
  end.

Lemma ignore_keeps {A} (m : M store A) s : keeps m s -> keeps (ignore m) s.
Proof.
  intros (r & s' & E & W & G). exists tt, s'. split; [|done]. unfold ignore. by erewrite bind_run.
Qed.

Lemma keeps_eq {A} (m m' : M store A) s : m s = m' s -> keeps m' s -> keeps m s.
Proof. intros E (r & s' & E' & H). exists r, s'. by rewrite E. Qed.

(** A call that only answers. *)
Ltac only_answers E := eapply (keeps_eq _ (ret _)); [exact E|by apply keeps_ret].

Lemma getdents_keeps s o buffer : wf s -> allowed s (Getdents o buffer) -> keeps (getdents o buffer) s.
Proof.
  intros W (f & Ho & Hf). destruct (wf_obj _ W _ _ Ho) as [Hlt Hok].
  destruct f as [pos i|pos i|d i|l|]; [| | |done|].
  3: { destruct Hok as [[m Hd] Hi].
       destruct (DirList.getdents_call s o d i m buffer Ho Hd Hi (Hf _ Hd))
         as [(k & b & n & E & _)|(name & _ & _ & E)]; eexists _, _; (split; [exact E|]); [|done].
       split; [|apply extends_same_dirs; [apply grows_set_obj|done]]. apply wf_set_obj; [done|done|]. split; [by eexists|lia]. }
  all: eapply keeps_bind; [by apply get_obj_run|reflexivity|by apply keeps_ret].
Qed.

Section Paths.
Context (s : store) (d : Z) (a : FileAttr) (Hwf : wf s) (Hd : is_Some (dirs s !! d)).
Let root := MemDirectory d a.

Lemma open_keeps path opt mode : keeps (fs_open now_micros root path opt mode) s.
Proof.
  pose proof (open_locates now_micros s d a Hwf Hd path opt mode) as E. cbv zeta beta in E.
  destruct (locate _ _ _) as [d' c| |n segs] eqn:El.
  - eapply keeps_eq; [exact E|]. apply open_entry_keeps; [done|by eapply locate_dir].
  - only_answers E.
  - eapply keeps_eq; [exact E|]. by apply open_foreign_keeps.
Qed.

Lemma remove_keeps kind wrong path :
  exists r s', traverse_remove kind wrong (walk_fuel s) root (strip_slash path) s = Done r s' /\ wf s' /\ grows s s' /\
    forall x y, locate s d (segments (strip_slash path)) <> At x y -> is_Some (entry s x y) -> is_Some (entry s' x y).
Proof.
  pose proof (remove_locates s d a Hwf Hd kind wrong path) as E. cbv zeta beta in E. fold root in E.
  destruct (locate _ _ _) as [d' c| |n segs] eqn:El; [|by eexists _, s|by eexists _, s].
  destruct (remove_entry_keeps s d' c kind wrong Hwf (locate_dir _ _ _ _ _ Hwf Hd El)) as (r & s' & E' & W & G & N).
  exists r, s'. rewrite E. split; [done|]. split; [done|]. split; [done|].
  intros x y Hne. apply N. intros [= -> ->]. by apply Hne.
Qed.

Lemma create_file_keeps path bytes mode :
  len bytes <= isize_max -> keeps (fs_create_file now_micros root path bytes mode) s.
Proof.
  intros Hl. pose proof (create_file_locates now_micros s d a Hwf Hd path bytes mode) as E. cbv zeta beta in E.
  destruct (locate _ _ _) as [d' c| |n segs] eqn:El.
  - eapply keeps_eq; [exact E|]. apply create_entry_keeps; [done|by eapply locate_dir|done].
  - only_answers E.
  - only_answers E.
Qed.

Lemma stat_keeps path : keeps (fs_stat root path) s.
Proof.
  pose proof (stat_locates s d a Hwf Hd path) as E. cbv zeta beta in E.
  destruct (locate _ _ _) as [d' c| |n segs] eqn:El.
  - eapply keeps_eq; [exact E|]. destruct (locate_dir _ _ _ _ _ Hwf Hd El) as [m Hd'].
    unfold keeps, stat_entry. rewrite (entry_lookup _ _ _ _ Hd'). destruct (m !! c) as [n|] eqn:En.
    + apply get_file_attributes_keeps; [done|by eapply (wf_node _ Hwf)].
    + by apply (keeps_ret (Err Errno.Badf)).
  - only_answers E.
  - only_answers E.
Qed.

Lemma mkdir_keeps path mode : keeps (fs_mkdir now_micros root path mode) s.
Proof.
  pose proof (mkdir_locates now_micros s d a Hwf Hd path mode) as H. cbv zeta beta in H.
  destruct (locate _ _ _) as [d' c| |n segs] eqn:El.
  - destruct H as ([d2 c2| |n segs] & _ & E & Hd2); [|only_answers E..].
    eapply keeps_eq; [exact E|]. by apply mkdir_entry_keeps.
  - only_answers H.
  - only_answers H.
Qed.

Lemma mount_keeps path obj :
  node_ok s obj -> (forall d a, obj <> MemDirectory d a) -> keeps (fs_mount root path obj) s.
Proof.
  intros Hn Hne. pose proof (mount_locates s d a Hwf Hd path obj) as H. cbv zeta beta in H.
  destruct (locate _ _ _) as [d' c| |n segs] eqn:El.
  - destruct H as ([d2 c2| |n segs] & _ & E & Hd2); [|only_answers E..].
    eapply keeps_eq; [exact E|]. by apply mount_entry_keeps.
  - only_answers H.
  - only_answers H.
Qed.

Lemma readdir_runs path : exists r, fs_readdir root path s = Done r s.
Proof.
  pose proof (readdir_walk s (walk_fuel s) d a (strip_slash path) Hwf Hd (walk_fuel_enough s d Hwf Hd)) as H.
  destruct (listed _ _ _) as [d' c| |n segs]; [destruct H as (m & _ & E)|..]; by eexists.
Qed.
End Paths.

(** The names a call keeps: all, but for the last one of the path it removes. *)
Definition names_kept (s s' : store) (d : Z) (c : call) : Prop :=
  forall x y, is_Some (entry s x y) ->
    match c with
    | Unlink path | Rmdir path => locate s d (segments (strip_slash path)) <> At x y
    | _ => True
    end -> is_Some (entry s' x y).


(** ** Opening and sharing *)

(** A change of the last directory of a path does not move the path. *)
Lemma locate_stable s s' d segs d' c :
  wf s -> is_Some (dirs s !! d) -> locate s d segs = At d' c ->
  (forall x y, x <> d' -> entry s' x y = entry s x y) ->
  d <= d' /\ locate s' d segs = At d' c.
Proof.
  intros W Hd Hl Hs. revert d Hd Hl. induction segs as [|x segs IH]; intros d [m Hd]; cbn; [done|].
  destruct (at_end segs); [intros [= <- <-]; split; [lia|done]|].
  destruct (entry s d x) as [[| |d1 a1|]|] eqn:En; try done. intros Hl.
  pose proof En as En'. rewrite (entry_lookup _ _ _ _ Hd) in En'.
  pose proof (wf_child _ W _ _ _ _ _ Hd En'). pose proof (wf_node _ W _ _ _ _ Hd En') as Hn.
  destruct (IH d1 Hn Hl) as [Hle E]. split; [lia|]. by rewrite Hs, En by lia.
Qed.

(** The store after creating an empty file with its first descriptor. *)
Definition created (s : store) (d : Z) (m : gmap string Node) (c : string) (mode : Z) : store :=
  mkStore (roms s)
    (<[next s := mkRam [] (attr_new (Z.lor mode S_IFREG) 0 (now now_micros))]> (rams s))
    (<[d := <[c := RamFile (next s)]> m]> (dirs s))
    (<[next s + 1 := RamFileInterface 0 (next s)]> (objs s)) (next s + 1 + 1).
(** ... and after opening a file again. *)
Definition reopened (s : store) (i : Z) : store :=
  mkStore (roms s) (rams s) (dirs s) (<[next s := RamFileInterface 0 i]> (objs s)) (next s + 1).

Lemma open_entry_creates s d m c opt mode :
  dirs s !! d = Some m -> m !! c = None -> contains opt O_CREAT = true ->
  open_entry now_micros d c opt mode s = Done (Ok (next s + 1)) (created s d m c mode).
Proof.
  intros Hd Hc Ho. unfold open_entry. erewrite bind_run by (by apply get_dir_run). rewrite Hc, Ho.
  erewrite bind_run by reflexivity. unfold insert_entry.
  erewrite bind_run; [|erewrite bind_run by (by apply get_dir_run); reflexivity]. reflexivity.
Qed.

Lemma open_entry_opens s d c opt mode i :
  entry s d c = Some (RamFile i) -> contains opt O_DIRECTORY = false ->
  open_entry now_micros d c opt mode s = Done (Ok (next s)) (reopened s i).
Proof.
  unfold entry. destruct (dirs s !! d) as [m|] eqn:Hd; [|done]. cbn. intros Hc Ho.
  unfold open_entry. erewrite bind_run by (by apply get_dir_run). rewrite Hc, Ho. reflexivity.
Qed.

(** Creating a file and opening it again, in the store. *)
Lemma open_twice s d a path opt mode1 mode2 d' c :
  wf s -> is_Some (dirs s !! d) -> locate s d (segments (strip_slash path)) = At d' c ->
  entry s d' c = None -> contains opt O_CREAT = true ->
  exists o1 o2 i s1 s2,
    fs_open now_micros (MemDirectory d a) path opt mode1 s = Done (Ok o1) s1 /\
    fs_open now_micros (MemDirectory d a) path O_RDWR mode2 s1 = Done (Ok o2) s2 /\ o1 <> o2 /\
    FileSpec.represents s2 i (FileSpec.mkAfile 0 (fun _ => 0) {[ o1 := 0; o2 := 0 ]}) /\
    forall x y, (x, y) <> (d', c) -> entry s2 x y = entry s x y.
Proof.
  intros W Hd Hl Hc Hcr. destruct (locate_dir _ _ _ _ _ W Hd Hl) as [m Hm].
  rewrite (entry_lookup _ _ _ _ Hm) in Hc. set (s1 := created s d' m c mode1).
  assert (E1 : fs_open now_micros (MemDirectory d a) path opt mode1 s = Done (Ok (next s + 1)) s1).
  { pose proof (open_locates now_micros s d a W Hd path opt mode1) as E.
    cbv zeta beta in E. rewrite Hl in E. rewrite E. by apply open_entry_creates. }
  assert (W1 : wf s1 /\ grows s s1).
  { destruct (open_keeps s d a W Hd path opt mode1) as (r & s1' & E & H1 & H2 & _). rewrite E1 in E. by simplify_eq. }
  destruct W1 as [W1 G1]. assert (Hd1 : is_Some (dirs s1 !! d)) by by apply G1.
  assert (Hent : forall x y, (x, y) <> (d', c) -> entry s1 x y = entry s x y).
  { intros x y Hne. unfold entry. cbn. destruct (decide (x = d')) as [->|].
    - rewrite lookup_insert_eq, Hm. cbn. rewrite lookup_insert_ne; [done|]. congruence.
    - by rewrite lookup_insert_ne. }
  assert (Hi : entry s1 d' c = Some (RamFile (next s))).
  { unfold entry. cbn. rewrite lookup_insert_eq. cbn. by rewrite lookup_insert_eq. }
  destruct (locate_stable s s1 d _ d' c W Hd Hl) as [_ Hl1]; [intros x y Hx; apply Hent; congruence|].
  assert (E2 : fs_open now_micros (MemDirectory d a) path O_RDWR mode2 s1
               = Done (Ok (next s1)) (reopened s1 (next s))).
  { pose proof (open_locates now_micros s1 d a W1 Hd1 path O_RDWR mode2) as E.
    cbv zeta beta in E. rewrite Hl1 in E. rewrite E. by apply open_entry_opens. }
  exists (next s + 1), (next s1), (next s), s1, (reopened s1 (next s)).
  split_and!; [done|done|cbn; lia| |exact Hent]. split.
  - eexists. split; [cbn; by rewrite lookup_insert_eq|]. split_and!; [done|done|done|]. cbn. lia.
  - cbn. intros o p [[<- <-]|[Hne [<- <-]%lookup_singleton_Some]]%lookup_insert_Some.
    + rewrite lookup_insert_ne, lookup_insert_eq by lia. by split.
    + rewrite lookup_insert_eq. by split.
Qed.

(** Written through one descriptor of an empty file, read through another. *)
Lemma write_then_read s i o1 o2 buf n :
  FileSpec.represents s i (FileSpec.mkAfile 0 (fun _ => 0) {[ o1 := 0; o2 := 0 ]}) -> o1 <> o2 ->
  0 < len buf <= isize_max -> 0 < n <= isize_max ->
  exists s' s'', write now_micros o1 buf s = Done (Ok (len buf)) s' /\
    read now_micros entropy_read o2 n s' = Done (Ok (take (Z.to_nat n) buf)) s'' /\ dirs s'' = dirs s.
Proof.
  set (a := FileSpec.mkAfile _ _ _). intros Ha Hne Hb Hn.
  assert (H1 : FileSpec.apos a !! o1 = Some 0) by apply lookup_insert_eq.
  destruct (FileSpec.step_refines now_micros entropy_read o1 (FileSpec.Write buf) s i a 0 Ha H1 ltac:(cbn; lia))
    as (p & s1 & Hp & E1 & R1 & F1). rewrite H1 in Hp. injection Hp as <-.
  apply bind_Done in E1 as (r1 & s1' & E1 & X1). unfold ret in X1. cbn [FileSpec.spec_op fst snd] in X1, R1.
  simplify_eq. set (a1 := FileSpec.move _ _ _) in R1.
  assert (H2 : FileSpec.apos a1 !! o2 = Some 0).
  { cbn. rewrite lookup_insert_ne, lookup_insert_ne by done. apply lookup_singleton_eq. }
  destruct (FileSpec.step_refines now_micros entropy_read o2 (FileSpec.Read n) s1 i a1 0 R1 H2 ltac:(cbn; lia))
    as (p & s2 & Hp & E2 & R2 & F2). rewrite H2 in Hp. injection Hp as <-.
  apply bind_Done in E2 as (r2 & s2' & E2 & X2). unfold ret in X2. cbn [FileSpec.spec_op fst snd] in X2.
  simplify_eq. exists s1, s2. split; [done|]. split; [|destruct F1 as (_ & D1 & _), F2 as (_ & D2 & _); congruence].
  rewrite E2. do 2 f_equal. set (l := Z.max 0 _).
  assert (El : l = Z.min (len buf) n) by (subst l; cbn; lia).
  rewrite <- (FileSpec.slice_bytes buf _ 0 l); [|lia|lia|lia|].
  - rewrite El, drop_0. unfold len. destruct (decide (n <= Z.of_nat (length buf))).
    + f_equal. lia.
    + by rewrite !take_ge by lia.
  - intros j Hj. cbn. rewrite (proj2 (Z.leb_le 0 j)), (proj2 (Z.ltb_lt j _)) by lia. cbn. do 2 f_equal. lia.
Qed.

Section Descriptors.
Context {K : Type} `{DT : Descriptors K}.
Implicit Types w : world K.

Lemma open_run w root name flags mode o s' n :
  starts_with_slash name = true -> FILESYSTEM w = Some root ->
  fs_open now_micros root name flags (Z.land mode (UMASK w)) (st w) = Done (Ok o) s' ->
  dt_free (kern w) (S n) ->
  exists fd k', open now_micros name flags mode w = Done (Ok fd) (set_kern k' (set_st s' w)) /\
    dt_free k' n /\ dt_maps (kern w) fd = None /\
    forall fd', dt_maps k' fd' = if decide (fd = fd') then Some o else dt_maps (kern w) fd'.
Proof.
  intros Hn Hr Ho Hf. destruct (dt_insert_law (kern w) o n Hf) as (fd & k' & E & Hf' & Hnew & Hm).
  exists fd, k'. split; [|done]. unfold open. erewrite bind_run by reflexivity.
  unfold with_relative_filename. rewrite Hn. unfold with_filesystem. erewrite bind_run by reflexivity.
  rewrite Hr. erewrite bind_run by (by apply zoom_run). unfold on_kern. by apply zoom_run.
Qed.

Lemma with_object_run {A} w fd o (f : Z -> M (world K) (io_result A)) :
  dt_free (kern w) 0 -> dt_maps (kern w) fd = Some o -> with_object fd f w = f o w.
Proof.
  intros Hf Ho. unfold with_object.
  erewrite bind_run by (apply zoom_run; rewrite dt_get_law by done; by rewrite Ho). by destruct w.
Qed.

(** Opening a path that names no file, with [O_CREAT], makes an empty
    file; opening the same path again gives a descriptor of its own on that
    same file: what is written through the first is read through the second.
    No other name of the tree changes. *)
Theorem open_shares_file w d a name flags mode d' c buf n :
  wf (st w) -> FILESYSTEM w = Some (MemDirectory d a) -> is_Some (dirs (st w) !! d) ->
  starts_with_slash name = true -> locate (st w) d (segments (strip_slash name)) = At d' c ->
  entry (st w) d' c = None -> dt_free (kern w) 2 -> contains flags O_CREAT = true ->
  0 < len buf <= isize_max -> 0 < n <= isize_max ->
  exists fd1 fd2 w1 w2 w3 w4,
    open now_micros name flags mode w = Done (Ok fd1) w1 /\
    open now_micros name O_RDWR mode w1 = Done (Ok fd2) w2 /\ fd1 <> fd2 /\
    fd_write now_micros fd1 buf w2 = Done (Ok (len buf)) w3 /\
    fd_read now_micros entropy_read fd2 n w3 = Done (Ok (take (Z.to_nat n) buf)) w4 /\
    forall x y, (x, y) <> (d', c) -> entry (st w4) x y = entry (st w) x y.
Proof.
  intros W Hr Hd Hslash Hl Hc Hf Hcr Hbuf Hn.
  destruct (open_twice (st w) d a name flags (Z.land mode (UMASK w)) (Z.land mode (UMASK w)) d' c)
    as (o1 & o2 & i & s1 & s2 & E1 & E2 & Hne & R & Hent); [done..|].
  destruct (write_then_read s2 i o1 o2 buf n R Hne Hbuf Hn) as (s3 & s4 & E3 & E4 & Hdirs).
  destruct (open_run w _ name flags mode _ _ 1 Hslash Hr E1 Hf) as (fd1 & k1 & O1 & F1 & N1 & M1).
  set (w1 := set_kern k1 (set_st s1 w)) in *.
  destruct (open_run w1 _ name O_RDWR mode _ _ 0 Hslash Hr E2 F1) as (fd2 & k2 & O2 & F2 & N2 & M2).
  set (w2 := set_kern k2 (set_st s2 w1)) in *.
  assert (Hfd : fd1 <> fd2).
  { intros ->. change (dt_maps k1 fd2 = None) in N2. rewrite M1, decide_True in N2 by done. done. }
  assert (X1 : dt_maps k2 fd1 = Some o1).
  { rewrite M2, decide_False by congruence. change (dt_maps k1 fd1 = Some o1). by rewrite M1, decide_True. }
  assert (X2 : dt_maps k2 fd2 = Some o2) by by rewrite M2, decide_True.
  exists fd1, fd2, w1, w2, (set_st s3 w2), (set_st s4 w2). split_and!; [done|done|done| | |].
  - unfold fd_write. erewrite with_object_run by done. rewrite (proj2 (Z.eqb_neq (len buf) 0)) by lia.
    by apply zoom_run.
  - unfold fd_read. erewrite with_object_run by done. rewrite (proj2 (Z.eqb_neq n 0)) by lia.
    unfold on_store. erewrite zoom_run by exact E4. done.
  - intros x y Hxy. rewrite <- Hent by done. unfold entry. cbn. by rewrite Hdirs.
Qed.
End Descriptors.

(** ** Removing names *)

Lemma remove_entry_run s d c n kind wrong :
  entry s d c = Some n ->
  exists m, dirs s !! d = Some m /\
    remove_entry d c kind wrong s =
    if decide (get_kind n = kind) then Done (Ok tt) (set_dir d (delete c m) s) else Done (Err wrong) s.
Proof.
  unfold entry. destruct (dirs s !! d) as [m|] eqn:Hd; [|done]. cbn. intros Hc. exists m. split; [done|].
  unfold remove_entry. erewrite bind_run by (by apply get_dir_run). rewrite Hc.
  erewrite bind_run by reflexivity. destruct (decide (get_kind n = kind)) as [E|E].
  - rewrite bool_decide_eq_true_2 by done. done.
  - rewrite bool_decide_eq_false_2 by done. cbn [negb]. unfold insert_entry.
    erewrite bind_run; [|erewrite bind_run by (apply get_dir_run; apply lookup_insert_eq); reflexivity].
    unfold ret. f_equal. destruct s as [r f ds o nx]. unfold set_dir. cbn in *. f_equal.
    rewrite insert_insert_eq, insert_delete_id by done. by apply insert_id.
Qed.

Lemma entry_deleted s d m c x y :
  dirs s !! d = Some m ->
  entry (set_dir d (delete c m) s) x y = if decide ((x, y) = (d, c)) then None else entry s x y.
Proof.
  intros Hd. unfold entry. cbn. destruct (decide (x = d)) as [->|Hx].
  - rewrite lookup_insert_eq, Hd. cbn. destruct (decide _) as [E|E].
    + injection E as ->. apply lookup_delete_eq.
    + rewrite lookup_delete_ne; [done|congruence].
  - rewrite lookup_insert_ne by done. rewrite decide_False by congruence. done.
Qed.

(** [unlink] of a file and [rmdir] of a directory, empty or not, succeed
    and take away exactly that name: contents and descriptors stay, so open
    files keep working, no other name changes, and the path is then unknown to
    [stat] and [open].  The other call refuses and changes nothing. *)
Theorem removal_exact s d a path d' c n :
  wf s -> is_Some (dirs s !! d) -> locate s d (segments (strip_slash path)) = At d' c ->
  entry s d' c = Some n ->
  let root := MemDirectory d a in
  exists s',
    (if decide (get_kind n = File)
     then fs_unlink root path s = Done (Ok tt) s' /\ fs_rmdir root path s = Done (Err Errno.Notdir) s
     else fs_rmdir root path s = Done (Ok tt) s' /\ fs_unlink root path s = Done (Err Errno.Isdir) s) /\
    (forall x y, entry s' x y = if decide ((x, y) = (d', c)) then None else entry s x y) /\
    rams s' = rams s /\ roms s' = roms s /\ objs s' = objs s /\
    fs_stat root path s' = Done (Err Errno.Badf) s' /\
    forall opt mode, contains opt O_CREAT = false ->
      fs_open now_micros root path opt mode s' = Done (Err Errno.Noent) s'.
Proof.
  intros W Hd Hl Hn root. pose proof (locate_dir _ _ _ _ _ W Hd Hl) as [m Hm].
  assert (Hu : forall kind wrong, traverse_remove kind wrong (walk_fuel s) root (strip_slash path) s =
     if decide (get_kind n = kind) then Done (Ok tt) (set_dir d' (delete c m) s) else Done (Err wrong) s).
  { intros kind wrong. pose proof (remove_locates s d a W Hd kind wrong path) as E. cbv zeta beta in E.
    rewrite Hl in E. fold root in E. rewrite E.
    destruct (remove_entry_run s d' c n kind wrong Hn) as (m' & Hm' & ->). by simplify_eq. }
  set (s' := set_dir d' (delete c m) s) in *. exists s'.
  pose proof (entry_deleted s d' m c) as Hent. specialize (fun x y => Hent x y Hm) as Hs'. fold s' in Hs'.
  assert (W' : wf s').
  { destruct (remove_keeps s d a W Hd (get_kind n) Errno.Inval path) as (r & s1 & E & W1 & _).
    fold root in E. rewrite Hu, decide_True in E by done. by simplify_eq. }
  assert (Hd' : is_Some (dirs s' !! d)) by by apply grows_set_dir.
  destruct (locate_stable s s' d _ d' c W Hd Hl) as [_ Hl']; [intros x y Hx; rewrite Hs', decide_False; congruence|].
  assert (Hgone : entry s' d' c = None) by (by rewrite Hs', decide_True).
  split_and!; try done.
  - change (fs_unlink root path s) with (traverse_remove File Errno.Isdir (walk_fuel s) root (strip_slash path) s).
    change (fs_rmdir root path s) with (traverse_remove Directory Errno.Notdir (walk_fuel s) root (strip_slash path) s).
    rewrite !Hu. by destruct (get_kind n).
  - pose proof (stat_locates s' d a W' Hd' path) as E. cbv zeta beta in E. rewrite Hl' in E. fold root in E.
    rewrite E. unfold stat_entry. by rewrite Hgone.
  - intros opt mode Ho. pose proof (open_locates now_micros s' d a W' Hd' path opt mode) as E.
    cbv zeta beta in E. rewrite Hl' in E. fold root in E. rewrite E. unfold open_entry.
    erewrite bind_run by (apply get_dir_run; apply lookup_insert_eq). by rewrite lookup_delete_eq, Ho.
Qed.

(** ** Directories that exist *)

(** [mkdir] of a directory that exists succeeds and makes a directory
    with the empty name inside it, which listings show. *)
Theorem mkdir_existing_nests s d a path mode d' c d2 a2 :
  wf s -> is_Some (dirs s !! d) -> locate s d (segments (strip_slash path)) = At d' c ->
  entry s d' c = Some (MemDirectory d2 a2) -> entry s d2 EmptyString = None ->
  exists s' a3, fs_mkdir now_micros (MemDirectory d a) path mode s = Done (Ok tt) s' /\
    entry s' d2 EmptyString = Some (MemDirectory (next s) a3) /\
    (forall x y, (x, y) <> (d2, EmptyString) -> x <> next s -> entry s' x y = entry s x y) /\
    exists m, dirs s' !! d2 = Some m /\ EmptyString ∈ keys m.
Proof.
  intros W Hd Hl Hn He.
  pose proof (mkdir_locates now_micros s d a W Hd path mode) as H. cbv zeta beta in H. rewrite Hl in H.
  destruct H as (loc & Hset & E & Hok).
  assert (loc = At d2 EmptyString) as ->.
  { inversion Hset as [x y Hx|x y z b l Hx Hy|x y z Hx Hy]; simplify_eq; [|by destruct (Hy d2 a2)].
    inversion Hy; simplify_eq. done. }
  destruct Hok as [m2 Hm2]. rewrite E. unfold mkdir_entry. erewrite bind_run by reflexivity.
  unfold insert_entry. assert (Hlt : d2 < next s) by (apply (wf_dir _ W); by eexists).
  erewrite bind_run; [|erewrite bind_run; [reflexivity|]; apply get_dir_run; cbn;
    rewrite lookup_insert_ne by lia; exact Hm2].
  eexists _, _. split; [reflexivity|]. unfold entry. cbn. split_and!.
  - rewrite lookup_insert_eq. cbn. by rewrite lookup_insert_eq.
  - intros x y Hxy Hx. destruct (decide (x = d2)) as [->|].
    + rewrite lookup_insert_eq, Hm2. cbn. rewrite lookup_insert_ne; [done|congruence].
    + by rewrite !lookup_insert_ne by done.
  - eexists. split; [by rewrite lookup_insert_eq|]. apply DirList.keys_names. rewrite lookup_insert_eq. by eexists.
Qed.

(** Changing the permissions of a file loses its type: it is no longer a
    regular file for [Metadata]. *)
Lemma chmod_drops_type s o pos i f mode :
  objs s !! o = Some (RamFileInterface pos i) -> rams s !! i = Some f -> contains mode S_IFREG = false ->
  exists s' f', chmod o mode s = Done (Ok tt) s' /\ rams s' !! i = Some f' /\ metadata_is_file (attr f') = false.
Proof.
  intros Ho Hi Hm. unfold chmod. erewrite bind_run by (by apply get_obj_run). cbv beta iota.
  erewrite bind_run by (by apply get_ram_run). eexists _, _. split; [reflexivity|].
  split; [cbn; by rewrite lookup_insert_eq|exact Hm].
Qed.

(** [File::create_new] opens a file that exists and [File::create] keeps its
    content: [O_EXCL] and [O_TRUNC] are not looked at. *)
Lemma create_opens_existing s d c mode i flags :
  entry s d c = Some (RamFile i) ->
  flags = Z.lor (Z.lor O_CREAT O_EXCL) O_RDWR \/ flags = Z.lor (Z.lor O_CREAT O_TRUNC) O_WRONLY ->
  open_entry now_micros d c flags mode s = Done (Ok (next s)) (reopened s i) /\
  rams (reopened s i) = rams s.
Proof. intros Hc [-> | ->]; (split; [by apply open_entry_opens|done]). Qed.

End Props.

(** ** A concrete file system: [/tmp] with the empty file [a] *)

Definition demo_attr : FileAttr := attr_new (Z.lor PERM_777 S_IFDIR) 0 (Time.from_usec 0).
Definition demo_fs : store :=
  mkStore ∅ {[ 2 := mkRam [] (attr_new S_IFREG 0 (Time.from_usec 0)) ]}
    {[ 0 := {[ "tmp"%string := MemDirectory 1 demo_attr ]}; 1 := {[ "a"%string := RamFile 2 ]} ]} ∅ 3.

Lemma demo_fs_wf : wf demo_fs.
Proof.
  assert (Hdir : forall d m, dirs demo_fs !! d = Some m ->
    (d = 0 /\ m = {[ "tmp"%string := MemDirectory 1 demo_attr ]}) \/ (d = 1 /\ m = {[ "a"%string := RamFile 2 ]})).
  { intros d m H. cbn in H. apply lookup_insert_Some in H as [[<- <-]|[_ [<- <-]%lookup_singleton_Some]]; auto. }
  split.
  - done.
  - intros d m c n H Hc. destruct (Hdir d m H) as [[-> ->]|[-> ->]];
      apply lookup_singleton_Some in Hc as [<- <-]; cbn; by eexists.
  - intros d m c d' a H Hc. destruct (Hdir d m H) as [[-> ->]|[-> ->]];
      apply lookup_singleton_Some in Hc as [<- [= <- <-]]. lia.
  - intros d [m H]. destruct (Hdir d m H) as [[-> _]|[-> _]]; cbn; lia.
  - intros i f H. cbn in H. by rewrite lookup_empty in H.
  - intros i f H. cbn in H. apply lookup_singleton_Some in H as [<- <-]. split_and!; [done|cbn|done]. discriminate.
  - intros o f H. cbn in H. by rewrite lookup_empty in H.
Qed.

Lemma demo_root : is_Some (dirs demo_fs !! 0).
Proof. by eexists. Qed.


Lemma removal_exact_witness :
  exists s', fs_unlink (MemDirectory 0 demo_attr) "/tmp/a" demo_fs = Done (Ok tt) s' /\ entry s' 1 "a" = None.
Proof.
  destruct (removal_exact 0 demo_fs 0 demo_attr "/tmp/a" 1 "a" (RamFile 2))
    as (s' & [E _] & Hent & _); [exact demo_fs_wf|exact demo_root|reflexivity|reflexivity|].
  exists s'. split; [exact E|]. rewrite Hent. reflexivity.
Defined.

Lemma mkdir_existing_nests_witness :
  exists s', fs_mkdir 0 (MemDirectory 0 demo_attr) "/tmp" PERM_777 demo_fs = Done (Ok tt) s' /\
    exists a, entry s' 1 EmptyString = Some (MemDirectory 3 a).
Proof.
  destruct (mkdir_existing_nests 0 demo_fs 0 demo_attr "/tmp" PERM_777 0 "tmp" 1 demo_attr)
    as (s' & a3 & E & H & _); [exact demo_fs_wf|exact demo_root|reflexivity|reflexivity|reflexivity|].
  exists s'. split; [exact E|]. exists a3. exact H.
Defined.

(** [calls_follow_paths] and [getdents_lists_all] on it. *)
Lemma calls_follow_paths_witness :
  fs_stat (MemDirectory 0 demo_attr) "/tmp/a/b" demo_fs = Done (Err Errno.Notdir) demo_fs.
Proof.
  destruct (calls_follow_paths 0 demo_fs 0 demo_attr "/tmp/a/b" demo_fs_wf demo_root)
    as (_ & _ & E & _). exact E.
Defined.

Definition demo_opened : store := set_obj 9 (MemDirectoryInterface 1 0) demo_fs.
Lemma getdents_lists_all_witness :
  exists s', DirList.list_all 2 9 24 demo_opened = Done (Some [[97]]) s'.
Proof.
  destruct (DirList.getdents_lists_all demo_opened 9 1 0 {[ "a"%string := RamFile 2 ]} 24 2) as (H & _);
    [reflexivity|reflexivity|lia| |].
  - repeat constructor; [cbn; lia|]. cbn. rewrite list_elem_of_singleton. done.
  - destruct H as [s' E]; [vm_compute; constructor; [discriminate|constructor]|vm_compute; lia|]. exists s'. exact E.
Defined.

End FsProps.

(** ** The descriptor table of the scheduler, as the interface the file system uses *)

Module FsKernel.
Import Kernel Scheduler SchedInv SchedOps SchedProps.

Definition free (k : t) (n : nat) : Prop :=
  exists m, fd_table k = Some m /\ Z.of_nat (size m + n) <= i32_max.
Definition maps (k : t) (fd : Z) : option Z := fd_table k ≫= lookup fd.

Lemma maps_table k m fd : fd_table k = Some m -> maps k fd = m !! fd.
Proof. unfold maps. by intros ->. Qed.

Lemma get_law k fd : free k 0 -> get_object fd k = Done (from_option Ok (Err Errno.Badf) (maps k fd)) k.
Proof.
  intros (m & Hm & _). unfold get_object, bind. rewrite (object_map_run _ _ Hm), (maps_table _ _ _ Hm).
  by destruct (m !! fd).
Qed.

Lemma insert_law k obj n : free k (S n) ->
  exists fd k', insert_object obj k = Done (Ok fd) k' /\ free k' n /\ maps k fd = None /\
    forall fd', maps k' fd' = if decide (fd = fd') then Some obj else maps k fd'.
Proof.
  intros (m & Hm & Hsize). destruct (new_fd_ok m k) as (fd & Efd & Hlow); [lia|].
  destruct (set_object_map_run k m (<[fd := obj]> m) Hm) as (k' & E & Hm' & _).
  exists fd, k'. destruct Hlow as (_ & Hn & _). rewrite (maps_table _ _ _ Hm). split_and!; [| |done|].
  - unfold insert_object, bind at 1. rewrite (object_map_run _ _ Hm). unfold bind at 1. rewrite Efd.
    unfold bind. by rewrite E.
  - exists (<[fd := obj]> m). split; [done|]. rewrite map_size_insert_None by done. lia.
  - intros fd'. rewrite (maps_table _ _ _ Hm'), (maps_table _ _ _ Hm).
    destruct (decide (fd = fd')) as [<-|]; [by rewrite lookup_insert_eq|by rewrite lookup_insert_ne].
Qed.

Lemma remove_law k fd : free k 0 ->
  exists k', remove_object fd k = Done (from_option Ok (Err Errno.Badf) (maps k fd)) k' /\ free k' 0 /\
    forall fd', maps k' fd' = if decide (fd = fd') then None else maps k fd'.
Proof.
  intros (m & Hm & Hsize). rewrite (maps_table _ _ _ Hm).
  unfold remove_object, bind at 1. rewrite (object_map_run _ _ Hm). destruct (m !! fd) as [obj|] eqn:Ho.
  - destruct (set_object_map_run k m (delete fd m) Hm) as (k' & E & Hm' & _).
    exists k'. split; [unfold bind; by rewrite E|]. split.
    + exists (delete fd m). split; [done|]. rewrite map_size_delete, Ho. lia.
    + intros fd'. rewrite (maps_table _ _ _ Hm'), (maps_table _ _ _ Hm).
      destruct (decide (fd = fd')) as [<-|]; [by rewrite lookup_delete_eq|by rewrite lookup_delete_ne].
  - exists k. split; [done|]. split; [by exists m|]. intros fd'. rewrite (maps_table _ _ _ Hm).
    by destruct (decide (fd = fd')) as [<-|].
Qed.

Lemma free_law k n : free k n -> free k 0.
Proof. intros (m & Hm & ?). exists m. split; [done|lia]. Qed.

#[global] Instance kernel_descriptors : Descriptors t := {
  dt_get := get_object; dt_insert := insert_object; dt_remove := remove_object;
  dt_free := free; dt_maps := maps;
  dt_get_law := get_law; dt_insert_law := insert_law; dt_remove_law := remove_law;
  dt_free_law := free_law
}.

(** ** A task that runs on a core with the file system of [FsProps] *)

Definition demo_world : FileSystem.world t :=
  FileSystem.mkWorld FsProps.demo_fs (Some (Files.MemDirectory 0 FsProps.demo_attr)) (Some "/tmp"%string)
    Flags.PERM_777 demo.

Lemma open_shares_file_witness :
  exists fd1 fd2 w1 w2 w3 w4,
    FileSystem.open 0 "/tmp/b" Flags.O_CREAT 0 demo_world = Done (Ok fd1) w1 /\
    FileSystem.open 0 "/tmp/b" Flags.O_RDWR 0 w1 = Done (Ok fd2) w2 /\ fd1 <> fd2 /\
    FileSystem.fd_write 0 fd1 [7; 8] w2 = Done (Ok 2) w3 /\
    FileSystem.fd_read 0 FileSpec.demo_entropy fd2 5 w3 = Done (Ok [7; 8]) w4.
Proof.
  destruct (FsProps.open_shares_file 0 FileSpec.demo_entropy demo_world 0 FsProps.demo_attr "/tmp/b"
    Flags.O_CREAT 0 1 "b" [7; 8] 5) as (fd1 & fd2 & w1 & w2 & w3 & w4 & E1 & E2 & Hne & E3 & E4 & _).
  - exact FsProps.demo_fs_wf.
  - reflexivity.
  - exact FsProps.demo_root.
  - reflexivity.
  - reflexivity.
  - reflexivity.
  - exists ∅. split; [reflexivity|]. vm_compute. discriminate.
  - reflexivity.
  - vm_compute. split; [reflexivity|discriminate].
  - vm_compute. split; [reflexivity|discriminate].
  - exists fd1, fd2, w1, w2, w3, w4. auto.
Defined.

End FsKernel.
