(* ===== verification/UserMem.v ===== *)
(** The memory of the program as the system calls see it: C strings, byte
    buffers and structures behind pointers, and the thread-local error number.
    A byte is [None] when its value is not determined (memory never written,
    or copied from outside of an allocation); an address that is not a key is
    not mapped and an access to it faults. *)

From Stdlib Require Import Ascii String.
From S2P Require Import Prelude Errors.

Module UserMem.

Notation memory := (gmap Z (option Z)).

Definition load (a : Z) (m : memory) : option (option Z) := m !! a.

(** [slice::from_raw_parts(p, n)] read in full: [None] when an address faults or
    a byte is not determined. *)
Fixpoint load_bytes (a : Z) (n : nat) (m : memory) : option (list Z) :=
  match n with
  | O => Some []
  | S n =>
      match m !! a with
      | Some (Some b) => (fun l => b :: l) <$> load_bytes (a + 1) n m
      | _ => None
      end
  end.

Fixpoint store_bytes (a : Z) (l : list (option Z)) (m : memory) : memory :=
  match l with [] => m | b :: l => store_bytes (a + 1) l (<[a := b]> m) end.

(** The addresses [a] to [a + n - 1] are mapped. *)
Fixpoint mapped (a : Z) (n : nat) (m : memory) : bool :=
  match n with O => true | S n => bool_decide (is_Some (m !! a)) && mapped (a + 1) n m end.

(** [CStr::from_ptr]: the bytes up to the zero.  It ends within as many steps as
    there are mapped addresses, and one more. *)
Fixpoint cstr_bytes (fuel : nat) (a : Z) (m : memory) : option (list Z) :=
  match fuel with
  | O => None
  | S fuel =>
      match m !! a with
      | Some (Some b) => if b =? 0 then Some [] else (fun l => b :: l) <$> cstr_bytes fuel (a + 1) m
      | _ => None
      end
  end.
Definition from_ptr (a : Z) (m : memory) : option (list Z) := cstr_bytes (S (size m)) a m.

(** [CStr::to_str]: the check of [core::str::from_utf8]. *)
Definition within (lo hi b : Z) : bool := (lo <=? b) && (b <=? hi).
Definition cont (b : Z) : bool := within 0x80 0xbf b.
Fixpoint utf8 (l : list Z) : bool :=
  match l with
  | [] => true
  | b :: l =>
      if within 0 0x7f b then utf8 l
      else if within 0xc2 0xdf b then
        match l with b1 :: l => cont b1 && utf8 l | _ => false end
      else if within 0xe0 0xef b then
        match l with
        | b1 :: b2 :: l =>
            (if b =? 0xe0 then within 0xa0 0xbf b1 else if b =? 0xed then within 0x80 0x9f b1 else cont b1) && cont b2 && utf8 l
        | _ => false
        end
      else if within 0xf0 0xf4 b then
        match l with
        | b1 :: b2 :: b3 :: l =>
            (if b =? 0xf0 then within 0x90 0xbf b1 else if b =? 0xf4 then within 0x80 0x8f b1 else cont b1) &&
            cont b2 && cont b3 && utf8 l
        | _ => false
        end
      else false
  end.

Fixpoint to_string (l : list Z) : string :=
  match l with [] => EmptyString | b :: l => String (ascii_of_N (Z.to_N b)) (to_string l) end.
Fixpoint of_string (s : string) : list Z :=
  match s with EmptyString => [] | String c s => Z.of_N (N_of_ascii c) :: of_string s end.

Definition to_str (l : list Z) : option string := if utf8 l then Some (to_string l) else None.

(** ** Lemmas *)

Lemma load_bytes_length a n m l : load_bytes a n m = Some l -> length l = n.
Proof.
  revert a l. induction n as [|n IH]; intros a l; cbn; [by intros [= <-]|].
  destruct (m !! a) as [[b|]|]; [|done..]. destruct (load_bytes (a + 1) n m) eqn:E; [|done]. intros [= <-]. cbn. f_equal. by eapply IH.
Qed.

Lemma store_bytes_lookup_ne l : forall a m x, x < a \/ a + Z.of_nat (length l) <= x -> store_bytes a l m !! x = m !! x.
Proof.
  induction l as [|b l IH]; intros a m x Hx; [done|]. cbn [store_bytes]. cbn [length] in Hx.
  rewrite IH by lia. apply lookup_insert_ne. lia.
Qed.

Lemma store_bytes_lookup l : forall a m k b, l !! k = Some b -> store_bytes a l m !! (a + Z.of_nat k) = Some b.
Proof.
  induction l as [|x l IH]; intros a m k b Hk; [done|]. destruct k as [|k]; cbn in Hk |- *.
  - simplify_eq. rewrite Z.add_0_r, store_bytes_lookup_ne by lia. apply lookup_insert_eq.
  - replace (a + Z.of_nat (S k)) with (a + 1 + Z.of_nat k) by lia. by apply IH.
Qed.

Lemma store_bytes_app l1 l2 a m :
  store_bytes a (l1 ++ l2) m = store_bytes (a + Z.of_nat (length l1)) l2 (store_bytes a l1 m).
Proof.
  revert a m. induction l1 as [|b l1 IH]; intros a m; cbn [app store_bytes length]; [by rewrite Z.add_0_r|].
  rewrite IH. f_equal. lia.
Qed.

Lemma mapped_store l : forall a m x n, mapped x n m = true -> mapped x n (store_bytes a l m) = true.
Proof.
  intros a m x n. revert x. induction n as [|n IH]; intros x; [done|]. cbn. rewrite !andb_true_iff. intros [H1 H2].
  split; [|by apply IH]. apply bool_decide_eq_true in H1. apply bool_decide_eq_true. clear IH H2. revert a m H1.
  induction l as [|b l IHl]; intros a m H1; [done|]. cbn [store_bytes]. apply IHl.
  destruct (decide (a = x)) as [->|Hne]; [rewrite lookup_insert_eq; by eexists|by rewrite lookup_insert_ne].
Qed.

Lemma mapped_le n : forall k a m, (k <= n)%nat -> mapped a n m = true -> mapped a k m = true.
Proof.
  induction n as [|n IH]; intros [|k] a m Hk Hm; try done; [lia|]. cbn in *. apply andb_true_iff in Hm as [H1 H2].
  rewrite H1. apply (IH k (a + 1)); [lia|done].
Qed.

(** Enough fuel: a string that runs off the mapped addresses faults. *)
Lemma cstr_bytes_mono fuel : forall fuel' a m l, cstr_bytes fuel a m = Some l -> (fuel <= fuel')%nat -> cstr_bytes fuel' a m = Some l.
Proof.
  induction fuel as [|fuel IH]; intros [|fuel'] a m l E Hf; try done; [lia|]. cbn in E |- *.
  destruct (m !! a) as [[b|]|]; [|done..]. destruct (b =? 0); [done|].
  destruct (cstr_bytes fuel (a + 1) m) as [l'|] eqn:E'; [|done]. by rewrite (IH fuel' _ _ _ E') by lia.
Qed.

(** A terminated string of mapped bytes is read in full. *)
Lemma from_ptr_run a m l :
  (forall k b, (l ++ [0]) !! k = Some b -> m !! (a + Z.of_nat k) = Some (Some b)) -> Forall (fun b => b <> 0) l ->
  from_ptr a m = Some l.
Proof.
  intros Hm Hl.
  assert (Hrun : cstr_bytes (S (length l)) a m = Some l).
  { revert a Hm. induction Hl as [|b l Hb Hl IH]; intros a Hm; cbn [cstr_bytes length].
    - specialize (Hm O 0 eq_refl). rewrite Z.add_0_r in Hm. by rewrite Hm.
    - pose proof (Hm O b eq_refl) as H0. rewrite Z.add_0_r in H0. rewrite H0, (proj2 (Z.eqb_neq b 0)) by done.
      cbn [length] in IH. cbn [cstr_bytes] in IH |- *. rewrite (IH (a + 1)); [done|].
      intros k b' Hk. replace (a + 1 + Z.of_nat k) with (a + Z.of_nat (S k)) by lia. by apply Hm. }
  unfold from_ptr. apply (cstr_bytes_mono _ _ _ _ _ Hrun). apply le_n_S.
  set (f := fun k : nat => a + Z.of_nat k).
  assert (Hsub : list_to_set (f <$> seq 0 (length l)) ⊆ dom m).
  { intros x. rewrite elem_of_list_to_set, list_elem_of_fmap. intros (k & -> & [_ Hk]%elem_of_seq). apply elem_of_dom.
    destruct (lookup_lt_is_Some_2 (l ++ [0]) k) as [b Hb]; [rewrite length_app; lia|]. unfold f. rewrite (Hm k b Hb). by eexists. }
  apply subseteq_size in Hsub. rewrite size_dom, size_list_to_set, length_fmap, length_seq in Hsub; [done|].
  apply NoDup_fmap_2; [|apply NoDup_seq]. intros x y. unfold f. lia.
Qed.
End UserMem.
