(* ===== verification/SysCalls.v ===== *)
(** The system calls on files and memory, [src/src/syscalls/mod.rs], over the
    file system of [FileSystem] and the memory of the program.  The attribute
    [system(errno)] stores the error of a negative result in the thread-local
    error number before it is returned. *)

From Stdlib Require Import Ascii String.
From S2P Require Import Prelude Tasks Errors Kernel Scheduler Time Files Directories FileSystem UserMem.

Module SysCalls.
Import Flags Files Directories FileSystem UserMem.

(** [OpenOption::from_bits], [AccessOption::from_bits]: [None] for unknown bits;
    [AccessPermission] knows all bits. *)
Definition from_bits (all bits : Z) : option Z := if Z.ldiff bits all =? 0 then Some bits else None.
Definition OpenOption_from_bits (flags : Z) : option Z :=
  from_bits (fold_right Z.lor 0 [O_WRONLY; O_RDWR; O_CREAT; O_EXCL; O_TRUNC; O_APPEND; O_NONBLOCK; 0x4000; O_DIRECTORY; 0x80000]) flags.
Definition AccessOption_from_bits (flags : Z) : option Z := from_bits (fold_right Z.lor 0 [R_OK; W_OK; X_OK; F_OK]) flags.
Definition AccessPermission_from_bits (mode : Z) : option Z := Some mode.

Definition IOV_MAX : Z := 1024.

(** The program's memory, its [FileAttr] structures by address, the error number
    and the kernel. *)
Record user (K : Type) : Type := mkUser {
  mem : memory;
  attrs : gmap Z FileAttr;
  errno : Z;
  kworld : world K;
}.
Arguments mkUser {K} _ _ _ _.
Arguments mem {K} _.
Arguments attrs {K} _.
Arguments errno {K} _.
Arguments kworld {K} _.

Section Calls.
Context {K : Type} `{DT : Descriptors K}.
Variable now_micros : Z.
Variable entropy_read : Z -> io_result (list Z).

Notation user := (user K).

Definition set_mem (x : memory) (u : user) : user := mkUser x (attrs u) (errno u) (kworld u).
Definition set_attrs (x : gmap Z FileAttr) (u : user) : user := mkUser (mem u) x (errno u) (kworld u).
Definition set_uerrno (x : Z) (u : user) : user := mkUser (mem u) (attrs u) x (kworld u).
Definition set_kworld (x : world K) (u : user) : user := mkUser (mem u) (attrs u) (errno u) x.

Definition on_world {A} (m : M (world K) A) : M user A := zoom kworld set_kworld m.

(** The wrapper of [system(errno)] for calls that return an [i32], and for those
    that return an [isize] or [i64]. *)
Definition with_errno (m : M user Z) : M user Z :=
  let! r := m in zoom errno set_uerrno (Errno.set_errno_i32 r).
Definition with_errno64 (m : M user Z) : M user Z :=
  let! r := m in zoom errno set_uerrno (Errno.set_errno_i64 r).

Definition neg (e : Errno.t) : Z := - Errno.into_i32 e.
Definition answer (r : io_result Z) : Z := match r with Ok v => v | Err e => neg e end.
Definition answer_unit (r : io_result unit) : Z := match r with Ok _ => 0 | Err e => neg e end.

(** [CStr::from_ptr(p)] and [to_str]. *)
Definition cstr (p : Z) : M user (list Z) :=
  let! u := get in unwrap (from_ptr p (mem u)) "page fault".
Definition name_or_panic (p : Z) (k : string -> M user Z) : M user Z :=
  let! b := cstr p in
  let! name := unwrap (to_str b) "called `Result::unwrap()` on an `Err` value" in
  k name.
Definition name_or_inval (p : Z) (k : string -> M user Z) : M user Z :=
  let! b := cstr p in
  match to_str b with None => ret (neg Errno.Inval) | Some name => k name end.

(** [*stat = attr] *)
Definition store_attr (p : Z) (a : FileAttr) : M user unit :=
  let! u := get in
  do! assert_ (bool_decide (is_Some (attrs u !! p))) "page fault" in
  modify (set_attrs (<[p := a]> (attrs u))).
Definition put_bytes (p : Z) (l : list (option Z)) : M user unit :=
  let! u := get in
  do! assert_ (mapped p (length l) (mem u)) "page fault" in
  modify (set_mem (store_bytes p l (mem u))).
Definition get_bytes (p n : Z) : M user (list Z) :=
  let! u := get in unwrap (load_bytes p (Z.to_nat n) (mem u)) "page fault".

(** ** Paths *)

Definition sys_unlink (name : Z) : M user Z :=
  with_errno (name_or_panic name (fun name => let! r := on_world (unlink name) in ret (answer_unit r))).

Definition sys_mkdir (name mode : Z) : M user Z :=
  with_errno (name_or_panic name (fun name =>
    match AccessPermission_from_bits mode with
    | None => ret (neg Errno.Inval)
    | Some mode => let! r := on_world (create_dir now_micros name mode) in ret (answer_unit r)
    end)).

Definition sys_rmdir (name : Z) : M user Z :=
  with_errno (name_or_panic name (fun name => let! r := on_world (remove_dir name) in ret (answer_unit r))).

Definition give_attr (p : Z) (r : io_result FileAttr) : M user Z :=
  match r with
  | Ok a => do! store_attr p a in ret 0
  | Err e => ret (neg e)
  end.

Definition sys_stat (name stat : Z) : M user Z :=
  with_errno (name_or_panic name (fun name => let! r := on_world (read_stat name) in give_attr stat r)).
Definition sys_lstat (name stat : Z) : M user Z :=
  with_errno (name_or_panic name (fun name => let! r := on_world (read_lstat name) in give_attr stat r)).
Definition sys_fstat (fd stat : Z) : M user Z :=
  with_errno (
    if stat =? 0 then ret (neg Errno.Inval)
    else let! r := on_world (fd_fstat fd) in give_attr stat r).

Definition sys_opendir (name : Z) : M user Z :=
  with_errno (name_or_inval name (fun name => let! r := on_world (opendir name) in ret (answer r))).

Definition sys_open (name flags mode : Z) : M user Z :=
  with_errno (
    match OpenOption_from_bits flags with
    | None => ret (neg Errno.Inval)
    | Some flags =>
        match AccessPermission_from_bits mode with
        | None => ret (neg Errno.Inval)
        | Some mode =>
            name_or_inval name (fun name => let! r := on_world (open now_micros name flags mode) in ret (answer r))
        end
    end).

(** [CString::new] refuses a zero inside. *)
Definition CString_new (s : string) : option (list Z) :=
  let b := of_string s in
  if existsb (fun x => x =? 0) b then None else Some (b ++ [0]).

(** [ptr::copy_from]: what lies behind the last byte of an allocation is not
    determined. *)
Definition copy_out (l : list Z) (n : nat) : list (option Z) := take n (Some <$> l) ++ replicate (n - length l) None.

Definition sys_getcwd (buf size : Z) : M user Z :=
  let error (e : Errno.t) : M user Z :=
    do! zoom errno set_uerrno (Errno.set_errno (Errno.to_errno_errno e)) in ret 0 in
  if size =? 0 then error Errno.Inval
  else if buf =? 0 then error Errno.Noent
  else
    let! r := on_world get_cwd in
    match r with
    | Err e => error e
    | Ok cwd =>
        match CString_new cwd with
        | None => error Errno.Noent
        | Some cwd =>
            if size <? Z.of_nat (length cwd) then error Errno.Range
            else do! put_bytes buf (copy_out cwd (Z.to_nat size)) in ret buf
        end
    end.

Definition sys_fchdir (fd : Z) : M user Z := with_errno (ret (neg Errno.Nosys)).
Definition sys_chdir (path : Z) : M user Z :=
  with_errno (name_or_inval path (fun name => let! r := on_world (set_cwd name) in ret (answer_unit r))).

Definition sys_umask (mask : Z) : M user Z := on_world (umask mask).

Definition AT_SYMLINK_NOFOLLOW : Z := 0x100.
Definition AT_FDCWD : Z := -100.

Definition access_answer (access_option : Z) (r : io_result FileAttr) : Z :=
  match r with
  | Err e => neg e
  | Ok stat => if can_access access_option (st_mode stat) then 0 else neg Errno.Acces
  end.

Definition sys_faccessat (dirfd name mode flags : Z) : M user Z :=
  with_errno (
    match AccessOption_from_bits flags with
    | None => ret (neg Errno.Inval)
    | Some access_option =>
        name_or_inval name (fun name =>
          if starts_with_slash name || (dirfd =? AT_FDCWD) then
            let no_follow := negb (Z.land flags AT_SYMLINK_NOFOLLOW =? 0) in
            let! r := on_world (if no_follow then read_stat name else read_lstat name) in
            ret (access_answer access_option r)
          else ret (neg Errno.Nosys))
    end).

Definition sys_access (name flags : Z) : M user Z :=
  with_errno (
    match AccessOption_from_bits flags with
    | None => ret (neg Errno.Inval)
    | Some access_option =>
        name_or_inval name (fun name => let! r := on_world (read_lstat name) in ret (access_answer access_option r))
    end).

Definition sys_truncate (path size : Z) : M user Z :=
  with_errno (name_or_inval path (fun path => let! r := on_world (truncate_path now_micros path size) in ret (answer_unit r))).

(** ** Descriptors *)

Definition sys_fchmod (fd mode : Z) : M user Z :=
  with_errno (
    match AccessPermission_from_bits mode with
    | None => ret (neg Errno.Inval)
    | Some mode => let! r := on_world (fd_chmod fd mode) in ret (answer_unit r)
    end).

Definition sys_close (fd : Z) : M user Z :=
  with_errno (let! r := on_world (on_kern (dt_remove fd)) in
              ret (match r with Ok _ => 0 | Err e => neg e end)).

Definition sys_ftruncate (fd size : Z) : M user Z :=
  with_errno (let! r := on_world (fd_truncate fd size) in ret (answer_unit r)).

(** A [usize] as an [isize]. *)
Definition to_isize (n : Z) : M user Z := do! assert_ (n <=? isize_max) "called `Result::unwrap()`" in ret n.

(** One read into [n] bytes at [p]: the number of bytes or the negative error. *)
Definition read_into (fd p n : Z) : M user Z :=
  let! r := on_world (fd_read now_micros entropy_read fd n) in
  match r with
  | Err e => ret (neg e)
  | Ok l => do! put_bytes p (Some <$> l) in to_isize (len l)
  end.
Definition write_from (fd p n : Z) : M user Z :=
  let! buf := get_bytes p n in
  let! r := on_world (fd_write now_micros fd buf) in
  match r with
  | Err e => ret (neg e)
  | Ok n => to_isize n
  end.

Definition sys_read (fd buf n : Z) : M user Z := with_errno64 (read_into fd buf n).
Definition sys_write (fd buf n : Z) : M user Z := with_errno64 (write_from fd buf n).

(** The loop over the [iovec]s, with [step] for one of them. *)
Fixpoint iov_loop (step : Z -> Z -> M user Z) (iov : list (Z * Z)) (total : Z) : M user Z :=
  match iov with
  | [] => ret total
  | (iov_base, iov_len) :: iov =>
      let! len := step iov_base iov_len in
      if len <? 0 then ret len
      else
        let total := wraps 64 (total + len) in
        let! iov_len := to_isize iov_len in
        if len <? iov_len then ret total else iov_loop step iov total
  end.

Definition sys_readv (fd : Z) (iov : list (Z * Z)) : M user Z :=
  with_errno64 (
    if IOV_MAX <? Z.of_nat (length iov) then ret (neg Errno.Inval)
    else iov_loop (read_into fd) iov 0).
Definition sys_writev (fd : Z) (iov : list (Z * Z)) : M user Z :=
  with_errno64 (
    if IOV_MAX <? Z.of_nat (length iov) then ret (neg Errno.Inval)
    else iov_loop (write_from fd) iov 0).

Definition sys_lseek (fd offset whence : Z) : M user Z :=
  with_errno64 (
    do! assert_ ((0 <=? whence) && (whence <=? 255)) "called `Result::unwrap()`" in
    let! whence := unwrap (whence_try_from whence) "called `Result::unwrap()`" in
    let! r := on_world (fd_lseek fd offset whence) in
    ret (answer r)).

(** No file of the file system has status flags: [ObjectInterface]'s default. *)
Definition status_flags (fd : Z) : M (world K) (io_result Z) := with_object fd (fun _ => ret (Err Errno.Nosys)).
Definition set_status_flags (fd flags : Z) : M (world K) (io_result unit) := with_object fd (fun _ => ret (Err Errno.Nosys)).

Definition FIONBIO : Z := wraps 32 0x8008667e.
Definition sys_ioctl (fd cmd value : Z) : M user Z :=
  with_errno (
    if cmd =? FIONBIO then
      let! r := on_world (set_status_flags fd (if value =? 0 then 0 else O_NONBLOCK)) in ret (answer_unit r)
    else ret (neg Errno.Inval)).

Definition F_GETFD : Z := 1.
Definition F_SETFD : Z := 2.
Definition F_GETFL : Z := 3.
Definition F_SETFL : Z := 4.
Definition FD_CLOEXEC : Z := 1.
Definition sys_fcntl (fd cmd arg : Z) : M user Z :=
  with_errno (
    if (cmd =? F_SETFD) && (arg =? FD_CLOEXEC) then ret 0
    else if cmd =? F_GETFD then ret 0
    else if cmd =? F_GETFL then let! r := on_world (status_flags fd) in ret (answer r)
    else if cmd =? F_SETFL then let! r := on_world (set_status_flags fd arg) in ret (answer_unit r)
    else ret (neg Errno.Inval)).

Definition sys_getdents64 (fd dirp count : Z) : M user Z :=
  with_errno64 (
    if (dirp =? 0) || (count =? 0) then ret (neg Errno.Inval)
    else
      let! r := on_world (on_kern (dt_get fd)) in
      match r with
      | Err _ => ret (neg Errno.Inval)
      | Ok o =>
          let! u := get in
          do! assert_ (mapped dirp (Z.to_nat count) (mem u)) "page fault" in
          let buffer := (fun k => default None (mem u !! (dirp + Z.of_nat k))) <$> seq 0 (Z.to_nat count) in
          let! r := on_world (on_store (getdents o buffer)) in
          match r with
          | Err e => ret (neg e)
          | Ok (cnt, buffer) => do! put_bytes dirp buffer in ret (wraps 64 cnt)
          end
      end).

(** No file of the file system is a terminal. *)
Definition isatty (fd : Z) : M (world K) (io_result bool) := with_object fd (fun _ => ret (Ok false)).
Definition sys_isatty (fd : Z) : M user Z :=
  with_errno (let! r := on_world (isatty fd) in
              ret (match r with Err e => neg e | Ok true => 1 | Ok false => 0 end)).
End Calls.

(** ** Duplicating descriptors, on the scheduler's table *)

Definition sys_dup (fd : Z) : M (user Kernel.t) Z :=
  with_errno (let! r := on_world (on_kern (Scheduler.dup_object fd)) in ret (answer r)).
Definition sys_dup2 (fd1 fd2 : Z) : M (user Kernel.t) Z :=
  with_errno (let! r := on_world (on_kern (Scheduler.dup_object2 fd1 fd2)) in ret (answer r)).
End SysCalls.
