(* ===== verification/SysProps.v ===== *)
(** Properties of the system calls on files: the calls with several buffers are
    one call with their concatenation, every call with an error code answers 0
    or a negative error that it leaves in [errno], and what goes wrong with bad
    names, [getcwd] and [faccessat]. *)

From Stdlib Require Import Ascii String.
From S2P Require Import Prelude Tasks Errors Kernel Scheduler SchedProps Time Files FileSpec Directories FileSystem FsProps UserMem SysCalls.

Module SysProps.
Import Flags Files FileSpec FileSystem UserMem SysCalls.

(** ** Equal files *)

(** Files that agree on their size, their bytes and the positions. *)
Record same_file (a b : afile) : Prop := {
  same_size : asize a = asize b;
  same_byte j : 0 <= j < asize a -> abyte a j = abyte b j;
  same_pos : apos a = apos b;
}.

Lemma represents_same s i a b : same_file a b -> represents s i a -> represents s i b.
Proof.
  intros [H1 H2 H3] [(f & Hf & Hl & Hm & Hs & Hg) Ho]. split.
  - exists f. rewrite <- H1. split_and!; try done. intros j Hj. rewrite Hg by done. by apply H2.
  - by rewrite <- H3.
Qed.

#[export] Instance same_file_refl : Reflexive same_file.
Proof. by split. Qed.
#[export] Instance same_file_trans : Transitive same_file.
Proof.
  intros a b c [A1 A2 A3] [B1 B2 B3]. split; [congruence| |congruence].
  intros j Hj. rewrite A2 by done. apply B2. by rewrite <- A1.
Qed.

(** A write, which does nothing when there is nothing to write. *)
Definition written (o p : Z) (buf : list Z) (a : afile) : afile :=
  if len buf =? 0 then a else (spec_op o p (Write buf) a).2.

Lemma len_app l1 l2 : len (l1 ++ l2) = len l1 + len l2.
Proof. unfold len. rewrite length_app. lia. Qed.
Lemma len_pos l : len l <> 0 -> 0 < len l.
Proof. unfold len. lia. Qed.

Lemma written_app o p b1 b2 a :
  apos a !! o = Some p -> 0 <= p -> 0 <= asize a ->
  same_file (written o (p + len b1) b2 (written o p b1 a)) (written o p (b1 ++ b2) a).
Proof.
  intros Hp Hp0 Ha0. unfold written. rewrite len_app.
  destruct (Z.eqb_spec (len b1) 0) as [E1|E1].
  { destruct b1; [|unfold len in E1; cbn in E1; lia]. cbn [app]. rewrite Z.add_0_r, Z.add_0_l. reflexivity. }
  pose proof (len_pos _ E1) as P1. destruct (Z.eqb_spec (len b2) 0) as [E2|E2].
  { destruct b2; [|unfold len in E2; cbn in E2; lia]. rewrite app_nil_r. change (len []) with 0. rewrite Z.add_0_r.
    rewrite (proj2 (Z.eqb_neq _ _)) by done. reflexivity. }
  pose proof (len_pos _ E2) as P2. rewrite (proj2 (Z.eqb_neq (len b1 + len b2) 0)) by lia.
  cbn [spec_op snd]. rewrite len_app. split; cbn [asize abyte apos move patch grow].
  - lia.
  - intros j Hj. unfold len in *. rewrite length_app, Nat2Z.inj_add.
    destruct (Z.leb_spec (p + Z.of_nat (length b1)) j), (Z.ltb_spec j (p + Z.of_nat (length b1) + Z.of_nat (length b2))),
      (Z.leb_spec p j), (Z.ltb_spec j (p + Z.of_nat (length b1))), (Z.ltb_spec j (p + (Z.of_nat (length b1) + Z.of_nat (length b2)))),
      (Z.ltb_spec j (Z.max (asize a) (p + Z.of_nat (length b1)))); cbn [andb]; try lia; try done;
      first [rewrite app_nth2 by lia; f_equal; lia | rewrite app_nth1 by lia; done | by rewrite (proj2 (Z.ltb_ge j (asize a))) by lia].
  - rewrite insert_insert_eq. f_equal. lia.
Qed.

(** ** The descriptor of a file *)

Section Files.
Context {K : Type} `{DT : Descriptors K}.
Context (now_micros : Z) (entropy_read : Z -> io_result (list Z)).
Implicit Types u : user K.

Definition fs_of u : store := st (kworld u).
Definition set_fs (x : store) u : user K := set_kworld (set_st x (kworld u)) u.

(** Descriptor [fd] of the running task is open file [o]. *)
Definition opened u (fd o : Z) : Prop := dt_free (kern (kworld u)) 0 /\ dt_maps (kern (kworld u)) fd = Some o.

Lemma object_run {A} u fd o (f : Z -> M (world K) (io_result A)) r w' :
  opened u fd o -> f o (kworld u) = Done r w' -> on_world (with_object fd f) u = Done r (set_kworld w' u).
Proof.
  intros [Hf Ho] E. apply zoom_run. unfold with_object.
  erewrite bind_run by (apply zoom_run; rewrite dt_get_law by done; by rewrite Ho). destruct u as [? ? ? []]. exact E.
Qed.

Lemma write_from_run u fd o i a p base n buf :
  opened u fd o -> represents (fs_of u) i a -> apos a !! o = Some p ->
  load_bytes base (Z.to_nat n) (mem u) = Some buf -> p + len buf <= isize_max ->
  exists s', write_from now_micros fd base n u = Done (len buf) (set_fs s' u) /\
    represents s' i (written o p buf a) /\ frame i a (fs_of u) s'.
Proof.
  intros Ho Hr Hp Hl Hfit. destruct Hr as [Hr1 Hr2]. destruct (Hr2 _ _ Hp) as [_ Hp0].
  assert (Hlen : len buf <= isize_max) by lia. unfold write_from, get_bytes.
  erewrite bind_run by (erewrite bind_run by reflexivity; rewrite Hl; reflexivity).
  unfold written. destruct (Z.eqb_spec (len buf) 0) as [E0|E0].
  - exists (fs_of u). split; [|by split; [|split_and!]]. unfold fd_write.
    erewrite bind_run by (eapply object_run; [done|]; rewrite (proj2 (Z.eqb_eq (len buf) 0)) by done; reflexivity).
    rewrite E0. unfold to_isize, assert_, bind, ret. by destruct u as [? ? ? []].
  - destruct (write_refines now_micros entropy_read o buf (fs_of u) i a p) as (p' & s' & Hp' & E & R & F); [by split|done|done|].
    cbn [spec_op fst snd run_op] in E, R. apply bind_Done in E as (r & s1 & E & E1). unfold ret in E1. simplify_eq.
    exists s'. split; [|done]. unfold fd_write.
    erewrite bind_run.
    2:{ eapply object_run; [done|]. rewrite (proj2 (Z.eqb_neq (len buf) 0)) by done. unfold on_store. by apply zoom_run. }
    cbn. unfold to_isize, assert_, bind. by rewrite (proj2 (Z.leb_le (len buf) isize_max)).
Qed.

(** The pieces at the addresses of an [iovec]. *)
Definition gathers (m : memory) (iov : list (Z * Z)) (pieces : list (list Z)) : Prop :=
  Forall2 (fun v l => 0 <= v.2 /\ load_bytes v.1 (Z.to_nat v.2) m = Some l) iov pieces.

Lemma opened_fs u fd o s : opened u fd o -> opened (set_fs s u) fd o.
Proof. done. Qed.

Lemma written_pos o p buf a : apos a !! o = Some p -> apos (written o p buf a) !! o = Some (p + len buf).
Proof.
  intros Hp. unfold written. destruct (Z.eqb_spec (len buf) 0) as [->|]; [by rewrite Z.add_0_r|]. cbn. apply lookup_insert_eq.
Qed.
Lemma written_dom o p buf a o' : apos a !! o = Some p -> apos (written o p buf a) !! o' = None <-> apos a !! o' = None.
Proof. intros Hp. unfold written. destruct (len buf =? 0); [done|]. by apply (spec_op_dom o p (Write buf) a). Qed.
Lemma written_size o p buf a : asize a <= asize (written o p buf a).
Proof. unfold written. destruct (len buf =? 0); [done|]. cbn. lia. Qed.

Lemma frame_refl i a s : frame i a s s.
Proof. by split_and!. Qed.

Lemma writev_loop_run fd o i iov : forall u a p pieces total,
  opened u fd o -> represents (fs_of u) i a -> apos a !! o = Some p -> gathers (mem u) iov pieces ->
  0 <= total <= p -> p + len (concat pieces) <= isize_max ->
  exists s', iov_loop (write_from now_micros fd) iov total u = Done (total + len (concat pieces)) (set_fs s' u) /\
    represents s' i (written o p (concat pieces) a) /\ frame i a (fs_of u) s'.
Proof.
  induction iov as [|[base n] iov IH]; intros u a p pieces total Ho Hr Hp Hg Ht Hfit.
  - inversion Hg; subst. exists (fs_of u). cbn. rewrite Z.add_0_r. split; [by destruct u as [? ? ? []]|]. split; [done|apply frame_refl].
  - inversion Hg as [|? buf ? rest [Hn Hl] Hg']; subst. cbn [fst snd] in Hn, Hl. cbn [concat] in *. rewrite len_app in *.
    pose proof (proj2 Hr _ _ Hp) as [_ Hp0]. destruct Hr as (Hr1 & Hr2) eqn:ER. clear ER.
    assert (Hsz : 0 <= asize a) by (destruct Hr1 as (f & _ & Hlf & _); rewrite <- Hlf; apply len_nonneg).
    pose proof (len_nonneg buf) as Hb0. pose proof (len_nonneg (concat rest)) as Hc0.
    assert (Hnl : len buf = n) by (apply load_bytes_length in Hl; unfold len; lia).
    destruct (write_from_run u fd o i a p base n buf) as (s1 & E1 & R1 & F1); [done|by split|done|done|lia|].
    cbn [iov_loop]. rewrite (bind_run _ _ _ _ _ E1), (proj2 (Z.ltb_ge (len buf) 0)) by lia.
    rewrite isize_small by lia. unfold to_isize, assert_. rewrite (proj2 (Z.leb_le n isize_max)) by lia.
    unfold bind at 1, ret at 1, bind at 1, ret at 1. rewrite (proj2 (Z.ltb_ge (len buf) n)) by lia.
    destruct (IH (set_fs s1 u) (written o p buf a) (p + len buf) rest (total + len buf)) as (s2 & E2 & R2 & F2);
      [done|done|by apply written_pos|done|lia|lia|].
    exists s2. rewrite E2. split; [f_equal; lia|]. split.
    + eapply represents_same; [|exact R2]. apply written_app; [done|lia|done].
    + eapply (frame_trans i a (written o p buf a)); [|exact F1|exact F2]. intros o'. by apply written_dom.
Qed.

(** One [iovec] piece of a read: what lands in memory. *)
Fixpoint scatter (iov : list (Z * Z)) (l : list Z) (m : memory) : memory :=
  match iov with
  | [] => m
  | (base, n) :: iov =>
      scatter iov (drop (Z.to_nat n) l) (store_bytes base (Some <$> take (Z.to_nat n) l) m)
  end.

Definition room (iov : list (Z * Z)) : Z := fold_right (fun v t => v.2 + t) 0 iov.

(** What a read of [n] bytes at position [p] gives. *)
Definition bytes_at (a : afile) (p n : Z) : list Z := abyte a <$> seqZ p (Z.max 0 (Z.min (asize a - p) n)).

Lemma len_bytes_at a p n : len (bytes_at a p n) = Z.max 0 (Z.min (asize a - p) n).
Proof. unfold len, bytes_at. rewrite length_fmap, length_seqZ. lia. Qed.

Lemma take_bytes_at a p n k : 0 <= n <= k -> take (Z.to_nat n) (bytes_at a p k) = bytes_at a p n.
Proof.
  intros Hn. unfold bytes_at. rewrite <- fmap_take. f_equal. apply list_eq. intros i.
  destruct (decide (i < Z.to_nat n)%nat) as [Hi|Hi].
  - rewrite lookup_take_lt by done. destruct (decide (Z.of_nat i < Z.max 0 (Z.min (asize a - p) n))) as [Hl|Hl].
    + rewrite !lookup_seqZ_lt by lia. done.
    + rewrite !lookup_seqZ_ge by lia. done.
  - rewrite lookup_take_ge by lia. rewrite lookup_seqZ_ge by lia. done.
Qed.

Lemma drop_bytes_at a p n k : 0 <= n <= k -> p + n <= asize a -> drop (Z.to_nat n) (bytes_at a p k) = bytes_at a (p + n) (k - n).
Proof.
  intros Hn Hp. unfold bytes_at. rewrite <- fmap_drop. f_equal. apply list_eq. intros i. rewrite lookup_drop.
  destruct (decide (Z.of_nat i < Z.max 0 (Z.min (asize a - (p + n)) (k - n)))) as [Hl|Hl].
  - rewrite !lookup_seqZ_lt by lia. f_equal. lia.
  - rewrite !lookup_seqZ_ge by lia. done.
Qed.

(** The file after a read: only the position moves. *)
Definition advanced (o p n : Z) (a : afile) : afile :=
  if asize a <=? p then a else move o (p + len (bytes_at a p n)) a.

Lemma read_into_run u fd o i a p base n :
  opened u fd o -> represents (fs_of u) i a -> apos a !! o = Some p -> 0 <= n <= isize_max ->
  mapped base (Z.to_nat n) (mem u) = true ->
  exists s', read_into now_micros entropy_read fd base n u =
      Done (len (bytes_at a p n)) (set_mem (store_bytes base (Some <$> bytes_at a p n) (mem u)) (set_fs s' u)) /\
    represents s' i (if n =? 0 then a else advanced o p n a) /\ frame i a (fs_of u) s'.
Proof.
  intros Ho Hr Hp Hn Hm. assert (Hmap : mapped base (length (Some <$> bytes_at a p n)) (mem u) = true).
  { eapply mapped_le; [|exact Hm]. rewrite length_fmap. pose proof (len_bytes_at a p n) as E. unfold len in E. lia. }
  assert (Hlb : len (bytes_at a p n) <= isize_max) by (rewrite len_bytes_at; lia).
  assert (Hput : forall s', put_bytes base (Some <$> bytes_at a p n) (set_fs s' u) =
    Done tt (set_mem (store_bytes base (Some <$> bytes_at a p n) (mem u)) (set_fs s' u))).
  { intros s'. unfold put_bytes, get, assert_, bind. cbn [mem set_fs set_kworld]. by rewrite Hmap. }
  assert (Hret : forall s', to_isize (len (bytes_at a p n)) s' = Done (len (bytes_at a p n)) (s' : user K)).
  { intros s'. unfold to_isize, assert_, bind. by rewrite (proj2 (Z.leb_le _ _) Hlb). }
  unfold read_into, fd_read. destruct (Z.eqb_spec n 0) as [->|Hn0].
  - exists (fs_of u). split; [|split; [done|apply frame_refl]].
    erewrite bind_run by (eapply object_run; [done|]; reflexivity).
    assert (Eb : bytes_at a p 0 = []) by (apply nil_length_inv; pose proof (len_bytes_at a p 0) as E; unfold len in E; lia).
    rewrite Eb in *. replace (set_kworld (kworld u) u) with (set_fs (fs_of u) u) by by destruct u as [? ? ? []].
    rewrite (bind_run _ _ _ _ _ (Hput (fs_of u))). apply Hret.
  - destruct (read_refines now_micros entropy_read o n (fs_of u) i a p) as (p' & s' & Hp' & E & R & F); [done|done|done|].
    cbn [spec_op fst snd run_op] in E, R. rewrite Hp in Hp'. injection Hp' as <-. cbn [spec_op fst snd] in E, R.
    apply bind_Done in E as (r & s1 & E & E1). unfold ret in E1. injection E1 as E1 <-. subst r.
    exists s1. split; [|split; [|done]].
    + change (read now_micros entropy_read o n (fs_of u) = Done (Ok (bytes_at a p n)) s1) in E.
      erewrite bind_run.
      2:{ eapply object_run; [done|]. unfold on_store. apply zoom_run. exact E. }
      change (set_kworld (set_st s1 (kworld u)) u) with (set_fs s1 u). cbn iota beta.
      rewrite (bind_run _ _ _ _ _ (Hput s1)). apply Hret.
    + unfold advanced. by rewrite len_bytes_at.
Qed.

Lemma scatter_nil iov m : scatter iov [] m = m.
Proof. revert m. induction iov as [|[base n] iov IH]; intros m; [done|]. cbn. by rewrite drop_nil, take_nil, IH. Qed.

Lemma room_nonneg iov : Forall (fun v => 0 <= v.2) iov -> 0 <= room iov.
Proof. induction 1 as [|v iov Hv _ IH]; unfold room in *; cbn; lia. Qed.

Definition moved (o p n : Z) (a : afile) : afile := if n =? 0 then a else advanced o p n a.

(** Two reads in a row are one. *)
Lemma moved_app o p n k a :
  0 <= n -> 0 <= k -> apos a !! o = Some p -> len (bytes_at a p n) = n ->
  moved o (p + n) k (moved o p n a) = moved o p (n + k) a.
Proof.
  intros Hn Hk Hp Hl. rewrite len_bytes_at in Hl. unfold moved, advanced.
  destruct (Z.eqb_spec n 0) as [->|Hn0]; [by rewrite Z.add_0_r, Z.add_0_l|].
  rewrite (proj2 (Z.eqb_neq (n + k) 0)), (proj2 (Z.leb_gt (asize a) p)) by lia. rewrite !len_bytes_at.
  cbn [asize move]. destruct (Z.eqb_spec k 0) as [->|Hk0]; [by rewrite Z.add_0_r|].
  destruct (Z.leb_spec (asize a) (p + n)); unfold move; cbn [asize abyte apos]; rewrite ?len_bytes_at; cbn [asize].
  - do 2 f_equal. lia.
  - rewrite insert_insert_eq. do 2 f_equal. lia.
Qed.

Lemma moved_pos o p n a : 0 <= n -> apos a !! o = Some p -> len (bytes_at a p n) = n -> apos (moved o p n a) !! o = Some (p + n).
Proof.
  intros Hn Hp Hl. unfold moved, advanced. destruct (Z.eqb_spec n 0) as [->|]; [by rewrite Z.add_0_r|].
  rewrite Hl. rewrite len_bytes_at in Hl. rewrite (proj2 (Z.leb_gt (asize a) p)) by lia. cbn. apply lookup_insert_eq.
Qed.
Lemma moved_bytes o p n a q k : bytes_at (moved o p n a) q k = bytes_at a q k.
Proof. unfold moved, advanced. destruct (n =? 0); [done|]. by destruct (asize a <=? p). Qed.
Lemma moved_dom o p n a o' : apos a !! o = Some p -> apos (moved o p n a) !! o' = None <-> apos a !! o' = None.
Proof.
  intros Hp. unfold moved, advanced. destruct (n =? 0); [done|]. destruct (asize a <=? p); [done|]. cbn.
  destruct (decide (o = o')) as [<-|]; [rewrite lookup_insert_eq, Hp; done|by rewrite lookup_insert_ne].
Qed.

Definition targets (m : memory) (iov : list (Z * Z)) : Prop :=
  Forall (fun v => 0 <= v.2 /\ mapped v.1 (Z.to_nat v.2) m = true) iov.

Lemma targets_store m iov a l : targets m iov -> targets (store_bytes a l m) iov.
Proof. intros H. eapply list.Forall_impl; [exact H|]. intros v [H1 H2]. split; [done|by apply mapped_store]. Qed.

Lemma readv_loop_run fd o i iov : forall u a p total,
  opened u fd o -> represents (fs_of u) i a -> apos a !! o = Some p -> targets (mem u) iov ->
  0 <= total -> total + room iov <= isize_max ->
  exists s', iov_loop (read_into now_micros entropy_read fd) iov total u =
      Done (total + len (bytes_at a p (room iov)))
        (set_mem (scatter iov (bytes_at a p (room iov)) (mem u)) (set_fs s' u)) /\
    represents s' i (moved o p (room iov) a) /\ frame i a (fs_of u) s'.
Proof.
  induction iov as [|[base n] iov IH]; intros u a p total Ho Hr Hp Hi Ht Hfit.
  - exists (fs_of u). cbn [iov_loop room fold_right scatter]. rewrite len_bytes_at. split; [|split; [done|apply frame_refl]].
    replace (Z.max 0 (Z.min (asize a - p) 0)) with 0 by lia. rewrite Z.add_0_r. by destruct u as [? ? ? []].
  - apply Forall_cons_1 in Hi as [[Hn Hm] Hi]. cbn [fst snd] in Hn, Hm. cbn [room fold_right snd] in Hfit |- *. fold (room iov) in *.
    assert (Hroom : 0 <= room iov) by (apply room_nonneg; eapply list.Forall_impl; [exact Hi|]; by intros ? []).
    destruct (read_into_run u fd o i a p base n Ho Hr Hp ltac:(lia) Hm) as (s1 & E1 & R1 & F1). fold (moved o p n a) in R1.
    pose proof (len_bytes_at a p n) as Hlb. cbn [iov_loop scatter]. rewrite (bind_run _ _ _ _ _ E1).
    rewrite (proj2 (Z.ltb_ge (len (bytes_at a p n)) 0)) by apply len_nonneg. rewrite isize_small by lia.
    unfold to_isize, assert_. rewrite (proj2 (Z.leb_le n isize_max)) by lia.
    unfold bind at 1, ret at 1, bind at 1, ret at 1. rewrite take_bytes_at by lia.
    destruct (Z.ltb_spec (len (bytes_at a p n)) n) as [Hs|Hs].
    + assert (Eb : bytes_at a p (n + room iov) = bytes_at a p n) by (unfold bytes_at; do 2 f_equal; lia).
      exists s1. rewrite Eb. rewrite (drop_ge (bytes_at a p n)) by (unfold len in *; lia). rewrite scatter_nil.
      split; [done|]. split; [|done]. unfold moved, advanced in *. rewrite Eb.
      rewrite (proj2 (Z.eqb_neq (n + room iov) 0)) by lia. by rewrite (proj2 (Z.eqb_neq n 0)) in R1 by lia.
    + assert (Hln : len (bytes_at a p n) = n) by lia.
      destruct (IH (set_mem (store_bytes base (Some <$> bytes_at a p n) (mem u)) (set_fs s1 u)) (moved o p n a) (p + n)
        (total + len (bytes_at a p n))) as (s2 & E2 & R2 & F2);
        [done|done|by apply moved_pos|by apply targets_store|lia|lia|].
      rewrite moved_bytes in E2. exists s2. rewrite E2. split.
      * assert (Hd : drop (Z.to_nat n) (bytes_at a p (n + room iov)) = bytes_at a (p + n) (room iov)).
        { destruct (decide (n = 0)) as [->|]; [by rewrite Z.add_0_l, Z.add_0_r|].
          rewrite drop_bytes_at by lia. f_equal. lia. }
        rewrite Hd. f_equal. rewrite !len_bytes_at. lia.
      * rewrite moved_app in R2 by done. split; [done|].
        eapply (frame_trans i a (moved o p n a)); [|exact F1|exact F2]. intros o'. by apply moved_dom.
Qed.

(** The answer of a transfer is not an error. *)
Lemma with_errno64_ok (m : M (user K) Z) u r u' : m u = Done r u' -> 0 <= r -> with_errno64 m u = Done r u'.
Proof.
  intros E Hr. unfold with_errno64. rewrite (bind_run _ _ _ _ _ E). unfold zoom, Errno.set_errno_i64, Errno.to_errno_i64, bind.
  rewrite (proj2 (Z.ltb_ge r 0)) by lia. by destruct u'.
Qed.

(** C15: [writev] of at most 1024 pieces ([IOV_MAX]), of any sizes, on a writable
    file is one [write] of their concatenation: both return its length and leave
    the file with the same size, bytes and position, and the memory of the
    program and the error number as they were.  With more pieces [writev] answers
    [EINVAL], sets the error number and changes nothing else, whereas the one
    [write] succeeds. *)
Theorem writev_is_write u fd o i a p iov pieces base :
  opened u fd o -> represents (fs_of u) i a -> apos a !! o = Some p ->
  gathers (mem u) iov pieces ->
  load_bytes base (Z.to_nat (len (concat pieces))) (mem u) = Some (concat pieces) ->
  p + len (concat pieces) <= isize_max ->
  exists s2,
    sys_write now_micros fd base (len (concat pieces)) u = Done (len (concat pieces)) (set_fs s2 u) /\
    represents s2 i (written o p (concat pieces) a) /\ frame i a (fs_of u) s2 /\
    if Z.of_nat (length iov) <=? IOV_MAX then
      exists s1, sys_writev now_micros fd iov u = Done (len (concat pieces)) (set_fs s1 u) /\
        represents s1 i (written o p (concat pieces) a) /\ frame i a (fs_of u) s1
    else sys_writev now_micros fd iov u = Done (- Errno.into_i32 Errno.Inval) (set_uerrno (Errno.into_i32 Errno.Inval) u).
Proof.
  intros Ho Hr Hp Hg Hl Hfit. pose proof (proj2 Hr _ _ Hp) as [_ Hp0].
  destruct (write_from_run u fd o i a p base _ (concat pieces) Ho Hr Hp Hl Hfit) as (s2 & E2 & R2 & F2).
  exists s2. split; [unfold sys_write; apply with_errno64_ok; [done|apply len_nonneg]|]. split; [done|]. split; [done|].
  destruct (Z.leb_spec (Z.of_nat (length iov)) IOV_MAX) as [Hmax|Hmax]; unfold sys_writev.
  - destruct (writev_loop_run fd o i iov u a p pieces 0) as (s1 & E1 & R1 & F1); [done|done|done|done|lia|done|].
    exists s1. split; [|done]. apply with_errno64_ok; [|apply len_nonneg]. by rewrite (proj2 (Z.ltb_ge IOV_MAX (Z.of_nat (length iov)))) by lia.
  - rewrite (proj2 (Z.ltb_lt IOV_MAX (Z.of_nat (length iov)))) by lia. reflexivity.
Qed.

(** [readv] on a writable file is one [read] of the total size, its bytes laid
    out over the buffers in order; it stops at the end of the file, moves the
    position as one read does, and changes no other memory. *)
Theorem readv_is_read u fd o i a p iov base :
  opened u fd o -> represents (fs_of u) i a -> apos a !! o = Some p ->
  targets (mem u) iov -> Z.of_nat (length iov) <= IOV_MAX -> room iov <= isize_max ->
  mapped base (Z.to_nat (room iov)) (mem u) = true ->
  let l := bytes_at a p (room iov) in
  exists s1 s2,
    sys_readv now_micros entropy_read fd iov u = Done (len l) (set_mem (scatter iov l (mem u)) (set_fs s1 u)) /\
    sys_read now_micros entropy_read fd base (room iov) u =
      Done (len l) (set_mem (store_bytes base (Some <$> l) (mem u)) (set_fs s2 u)) /\
    represents s1 i (moved o p (room iov) a) /\ represents s2 i (moved o p (room iov) a).
Proof.
  intros Ho Hr Hp Hi Hmax Hroom Hm l.
  assert (H0 : 0 <= room iov) by (apply room_nonneg; eapply list.Forall_impl; [exact Hi|]; by intros ? []).
  destruct (readv_loop_run fd o i iov u a p 0) as (s1 & E1 & R1 & F1); [done|done|done|done|lia|lia|].
  destruct (read_into_run u fd o i a p base (room iov) Ho Hr Hp ltac:(lia) Hm) as (s2 & E2 & R2 & F2).
  exists s1, s2. split_and!; try done.
  - unfold sys_readv. apply with_errno64_ok; [|apply len_nonneg].
    rewrite (proj2 (Z.ltb_ge IOV_MAX (Z.of_nat (length iov)))) by lia. exact E1.
  - unfold sys_read. apply with_errno64_ok; [done|apply len_nonneg].
Qed.
End Files.

(** ** Results *)

Section Results.
Context {K : Type} `{DT : Descriptors K}.
Context (now_micros : Z).
Implicit Types u : user K.

(** A piece of a call that leaves [errno] alone. *)
Definition keeps_errno {A} (m : M (user K) A) : Prop := forall u r u', m u = Done r u' -> errno u' = errno u.
(** One that answers 0 or a negative error. *)
Definition zero_or_error (m : M (user K) Z) : Prop := forall u r u', m u = Done r u' -> r = 0 \/ exists e, r = neg e.

Lemma errno_kept_ret {A} (x : A) : keeps_errno (ret x).
Proof. intros u r u' E. unfold ret in E. by simplify_eq. Qed.
Lemma errno_kept_bind {A B} (m : M (user K) A) (f : A -> M (user K) B) :
  keeps_errno m -> (forall x, keeps_errno (f x)) -> keeps_errno (bind m f).
Proof. intros Hm Hf u r u' (x & u1 & E1 & E2)%bind_Done. rewrite (Hf _ _ _ _ E2). by eapply Hm. Qed.
Lemma errno_kept_world {A} (m : M (world K) A) : keeps_errno (on_world m).
Proof. intros u r u' E. unfold on_world, zoom in E. destruct (m (kworld u)); by simplify_eq. Qed.
Lemma errno_kept_get : keeps_errno get.
Proof. intros u r u' E. unfold get in E. by simplify_eq. Qed.
Lemma errno_kept_assert b why : keeps_errno (assert_ b why).
Proof. intros u r u' E. destruct b; [|done]. unfold assert_, ret in E. by simplify_eq. Qed.
Lemma errno_kept_unwrap {A} (x : option A) why : keeps_errno (unwrap x why).
Proof. intros u r u' E. destruct x; [|done]. unfold unwrap, ret in E. by simplify_eq. Qed.
Lemma errno_kept_attrs x : keeps_errno (modify (set_attrs x)).
Proof. intros u r u' E. unfold modify in E. by simplify_eq. Qed.
Lemma zero_bind {A} (m : M (user K) A) f : (forall x, zero_or_error (f x)) -> zero_or_error (bind m f).
Proof. intros Hf u r u' (x & u1 & E1 & E2)%bind_Done. by eapply Hf. Qed.
Lemma zero_ret r : r = 0 \/ (exists e, r = neg e) -> zero_or_error (ret r).
Proof. intros Hr u r' u' E. unfold ret in E. by simplify_eq. Qed.
Lemma answer_unit_cases r : answer_unit r = 0 \/ exists e, answer_unit r = neg e.
Proof. destruct r; [by left|right; by eexists]. Qed.
Lemma access_cases o r : access_answer o r = 0 \/ exists e, access_answer o r = neg e.
Proof. destruct r; cbn; [|right; by eexists]. destruct (can_access _ _); [by left|right; by eexists]. Qed.

Create HintDb calls.
#[local] Hint Resolve errno_kept_ret errno_kept_bind errno_kept_world errno_kept_get errno_kept_assert errno_kept_unwrap errno_kept_attrs
  zero_bind zero_ret answer_unit_cases access_cases : calls.

Lemma keeps_panic_name p k : (forall s, keeps_errno (k s)) -> keeps_errno (name_or_panic p k).
Proof. unfold name_or_panic, cstr. eauto 8 with calls. Qed.
Lemma keeps_inval_name p k : (forall s, keeps_errno (k s)) -> keeps_errno (name_or_inval p k).
Proof. intros Hk. unfold name_or_inval, cstr. repeat (apply errno_kept_bind; [eauto with calls|intros ?]). destruct (to_str _); eauto with calls. Qed.
Lemma zero_panic_name p k : (forall s, zero_or_error (k s)) -> zero_or_error (name_or_panic p k).
Proof. unfold name_or_panic. eauto with calls. Qed.
Lemma zero_inval_name p k : (forall s, zero_or_error (k s)) -> zero_or_error (name_or_inval p k).
Proof. intros Hk. unfold name_or_inval. apply zero_bind. intros b. destruct (to_str b); [done|]. apply zero_ret. right. by eexists. Qed.
Lemma keeps_give_attr p r : keeps_errno (give_attr p r).
Proof. destruct r; cbn; [|eauto with calls]. unfold store_attr. eauto 8 with calls. Qed.
Lemma zero_give_attr p r : zero_or_error (give_attr p r).
Proof. destruct r; cbn; [apply zero_bind; intros []; apply zero_ret; by left|apply zero_ret; right; by eexists]. Qed.
#[local] Hint Resolve keeps_panic_name keeps_inval_name zero_panic_name zero_inval_name keeps_give_attr zero_give_attr : calls.

(** The calls that answer 0 or an error. *)
Inductive call : Type :=
  | CUnlink (name : Z) | CMkdir (name mode : Z) | CRmdir (name : Z) | CStat (name stat : Z) | CLstat (name stat : Z)
  | CFstat (fd stat : Z) | CFchdir (fd : Z) | CChdir (path : Z) | CFaccessat (dirfd name mode flags : Z)
  | CAccess (name flags : Z) | CTruncate (path size : Z) | CFchmod (fd mode : Z) | CClose (fd : Z)
  | CFtruncate (fd size : Z) | CIoctl (fd cmd value : Z).

(** What a call does before its answer is looked at for [errno]. *)
Definition body (c : call) : M (user K) Z :=
  match c with
  | CUnlink name => name_or_panic name (fun name => let! r := on_world (unlink name) in ret (answer_unit r))
  | CMkdir name mode => name_or_panic name (fun name =>
      let! r := on_world (create_dir now_micros name mode) in ret (answer_unit r))
  | CRmdir name => name_or_panic name (fun name => let! r := on_world (remove_dir name) in ret (answer_unit r))
  | CStat name stat => name_or_panic name (fun name => let! r := on_world (read_stat name) in give_attr stat r)
  | CLstat name stat => name_or_panic name (fun name => let! r := on_world (read_lstat name) in give_attr stat r)
  | CFstat fd stat => if stat =? 0 then ret (neg Errno.Inval) else let! r := on_world (fd_fstat fd) in give_attr stat r
  | CFchdir fd => ret (neg Errno.Nosys)
  | CChdir path => name_or_inval path (fun name => let! r := on_world (set_cwd name) in ret (answer_unit r))
  | CFaccessat dirfd name mode flags =>
      match AccessOption_from_bits flags with
      | None => ret (neg Errno.Inval)
      | Some o => name_or_inval name (fun name =>
          if starts_with_slash name || (dirfd =? AT_FDCWD) then
            let! r := on_world (if negb (Z.land flags AT_SYMLINK_NOFOLLOW =? 0) then read_stat name else read_lstat name) in
            ret (access_answer o r)
          else ret (neg Errno.Nosys))
      end
  | CAccess name flags =>
      match AccessOption_from_bits flags with
      | None => ret (neg Errno.Inval)
      | Some o => name_or_inval name (fun name => let! r := on_world (read_lstat name) in ret (access_answer o r))
      end
  | CTruncate path size => name_or_inval path (fun path =>
      let! r := on_world (truncate_path now_micros path size) in ret (answer_unit r))
  | CFchmod fd mode => let! r := on_world (fd_chmod fd mode) in ret (answer_unit r)
  | CClose fd => let! r := on_world (on_kern (dt_remove fd)) in ret (match r with Ok _ => 0 | Err e => neg e end)
  | CFtruncate fd size => let! r := on_world (fd_truncate fd size) in ret (answer_unit r)
  | CIoctl fd cmd value =>
      if cmd =? FIONBIO then
        let! r := on_world (set_status_flags fd (if value =? 0 then 0 else O_NONBLOCK)) in ret (answer_unit r)
      else ret (neg Errno.Inval)
  end.

Definition run (c : call) : M (user K) Z :=
  match c with
  | CUnlink name => sys_unlink name
  | CMkdir name mode => sys_mkdir now_micros name mode
  | CRmdir name => sys_rmdir name
  | CStat name stat => sys_stat name stat
  | CLstat name stat => sys_lstat name stat
  | CFstat fd stat => sys_fstat fd stat
  | CFchdir fd => sys_fchdir fd
  | CChdir path => sys_chdir path
  | CFaccessat dirfd name mode flags => sys_faccessat dirfd name mode flags
  | CAccess name flags => sys_access name flags
  | CTruncate path size => sys_truncate now_micros path size
  | CFchmod fd mode => sys_fchmod fd mode
  | CClose fd => sys_close fd
  | CFtruncate fd size => sys_ftruncate fd size
  | CIoctl fd cmd value => sys_ioctl fd cmd value
  end.

Lemma run_body c : run c = with_errno (body c).
Proof. by destruct c. Qed.

Lemma body_keeps c : keeps_errno (body c).
Proof.
  destruct c; cbn [body]; repeat case_match; eauto 8 with calls.
  all: apply keeps_inval_name; intros s; case_match; eauto with calls.
Qed.

Lemma body_answers c : zero_or_error (body c).
Proof.
  destruct c; cbn [body]; repeat case_match; eauto 8 with calls;
    try (apply zero_bind; intros []; apply zero_ret; [by left|right; by eexists]);
    try (apply zero_ret; right; by eexists);
    apply zero_inval_name; intros s; (case_match; [eauto with calls|apply zero_ret; right; by eexists]).
Qed.

(** Each of the fifteen calls of [scall] answers 0 and leaves [errno] alone, or
    answers the negative of an error number, which is then in [errno]; so the
    answer is an [i32] between -133 and 0. *)
Theorem sys_answers_typed c u r u' :
  run c u = Done r u' ->
  (r = 0 /\ errno u' = errno u) \/
  (exists e, r = - Errno.into_i32 e /\ errno u' = Errno.into_i32 e /\ -133 <= r < 0).
Proof.
  rewrite run_body. unfold with_errno. intros (x & u1 & E1 & E2)%bind_Done.
  pose proof (body_keeps c _ _ _ E1) as Hk. unfold zoom, Errno.set_errno_i32, bind in E2.
  destruct (body_answers c _ _ _ E1) as [->|[e ->]].
  - left. change (Errno.to_errno_i32 0) with (@None Z) in E2. cbn in E2. simplify_eq. by destruct u1.
  - right. exists e. unfold neg in *. rewrite Errno.to_errno_neg_into in E2. cbn in E2. simplify_eq.
    pose proof (Errno.into_range e). split; [done|]. split; [done|lia].
Qed.

(** ** Arguments that the kernel does not survive *)

(** A path that is not UTF-8 is an error to some calls and a panic of the kernel
    to [unlink], [mkdir], [rmdir], [stat] and [lstat]; so is a [whence] that
    [lseek] does not know. *)
Theorem bad_arguments_panic u p b mode stat fd offset whence size :
  from_ptr p (mem u) = Some b -> utf8 b = false -> whence_try_from whence = None ->
  (forall c, c ∈ [CUnlink p; CMkdir p mode; CRmdir p; CStat p stat; CLstat p stat] -> exists why, run c u = Panic why) /\
  (forall c, c ∈ [CChdir p; CTruncate p size; CAccess p R_OK; CFaccessat AT_FDCWD p 0 R_OK] ->
     run c u = Done (- Errno.into_i32 Errno.Inval) (set_uerrno (Errno.into_i32 Errno.Inval) u)) /\
  exists why, sys_lseek fd offset whence u = Panic why.
Proof.
  intros Hp Hb Hw. assert (Hs : to_str b = None) by (unfold to_str; by rewrite Hb).
  assert (Hc : cstr p u = Done b u) by (unfold cstr, get, bind; by rewrite Hp).
  assert (Hpanic : forall k, exists why, with_errno (name_or_panic p k) u = Panic why).
  { intros k. unfold with_errno, name_or_panic. eexists. unfold bind at 1. rewrite (bind_run _ _ _ _ _ Hc), Hs. reflexivity. }
  assert (Hinval : forall k, with_errno (name_or_inval p k) u =
    Done (- Errno.into_i32 Errno.Inval) (set_uerrno (Errno.into_i32 Errno.Inval) u)).
  { intros k. unfold with_errno, name_or_inval. unfold bind at 1. rewrite (bind_run _ _ _ _ _ Hc), Hs. reflexivity. }
  split; [|split].
  - intros c Hin. rewrite !elem_of_cons in Hin. destruct Hin as [->|[->|[->|[->|[->|Hin]]]]]; try apply Hpanic. by apply elem_of_nil in Hin.
  - intros c Hin. rewrite !elem_of_cons in Hin. destruct Hin as [->|[->|[->|[->|Hin]]]]; try apply Hinval. by apply elem_of_nil in Hin.
  - unfold sys_lseek, with_errno64, bind, assert_. rewrite Hw. destruct (_ && _); by eexists.
Qed.

(** [getcwd] copies as many bytes as the buffer has, not as many as the path
    has: behind the terminating zero the buffer gets memory that lies behind
    the allocation of the path. *)
Theorem getcwd_reads_past_end u cwd b buf size k :
  WORKING_DIRECTORY (kworld u) = Some cwd -> CString_new cwd = Some b -> buf <> 0 ->
  Z.of_nat (length b) <= size -> mapped buf (Z.to_nat size) (mem u) = true ->
  0 <= k < size ->
  exists m, sys_getcwd buf size u = Done buf (set_mem m u) /\
    m !! (buf + k) = Some (b !! Z.to_nat k).
Proof.
  intros Hw Hb Hbuf Hsize Hm Hk. unfold sys_getcwd. rewrite (proj2 (Z.eqb_neq size 0)), (proj2 (Z.eqb_neq buf 0)) by lia.
  erewrite bind_run by (apply zoom_run; unfold get_cwd, get, bind, ret; rewrite Hw; reflexivity). cbn [from_option]. rewrite Hb.
  rewrite (proj2 (Z.ltb_ge size (Z.of_nat (length b)))) by lia.
  assert (Hl : length (copy_out b (Z.to_nat size)) = Z.to_nat size).
  { unfold copy_out. rewrite length_app, length_take, length_fmap, length_replicate. lia. }
  exists (store_bytes buf (copy_out b (Z.to_nat size)) (mem u)). split.
  - unfold put_bytes, get, assert_, bind, modify, ret. cbn [mem set_kworld]. rewrite Hl, Hm. by destruct u.
  - rewrite <- (Z2Nat.id k) at 1 by lia. apply store_bytes_lookup. unfold copy_out.
    rewrite take_ge by (rewrite length_fmap; lia). destruct (decide (Z.to_nat k < length b)%nat) as [Hlt|Hge].
    + rewrite lookup_app_l by (rewrite length_fmap; lia). rewrite list_lookup_fmap.
      destruct (lookup_lt_is_Some_2 b (Z.to_nat k) Hlt) as [x ->]. done.
    + rewrite lookup_app_r by (rewrite length_fmap; lia). rewrite length_fmap, lookup_replicate_2 by lia.
      by rewrite lookup_ge_None_2 by lia.
Qed.

(** [faccessat] does not look at its mode: with no flags it finds every existing
    file accessible, and with [AT_SYMLINK_NOFOLLOW] it refuses. *)
Theorem faccessat_ignores_mode u p b name mode attr w :
  from_ptr p (mem u) = Some b -> to_str b = Some name -> read_lstat name (kworld u) = Done (Ok attr) w ->
  sys_faccessat AT_FDCWD p mode 0 u = Done 0 (set_kworld w u) /\
  sys_faccessat AT_FDCWD p mode AT_SYMLINK_NOFOLLOW u =
    Done (- Errno.into_i32 Errno.Inval) (set_uerrno (Errno.into_i32 Errno.Inval) u).
Proof.
  intros Hp Hs Hr. split; [|reflexivity]. unfold sys_faccessat, with_errno. cbn [AccessOption_from_bits].
  change (AccessOption_from_bits 0) with (Some 0). cbn iota. unfold name_or_inval. unfold bind at 1.
  erewrite bind_run by (unfold cstr, get, bind; rewrite Hp; reflexivity). rewrite Hs.
  rewrite orb_true_r. cbn [negb]. change (Z.land 0 AT_SYMLINK_NOFOLLOW =? 0) with true. cbn [negb].
  erewrite bind_run by (apply zoom_run; exact Hr). reflexivity.
Qed.
End Results.

(** ** A program on the demonstration kernel *)

(** Bytes at 100 to 105, the path "/tmp" at 300 and a name that is not UTF-8 at
    400. *)
Definition demo_mem : memory :=
  store_bytes 100 (Some <$> [7; 8; 9; 0; 0; 0]) (store_bytes 300 (Some <$> [47; 116; 109; 112; 0])
    (store_bytes 400 (Some <$> [255; 0]) ∅)).
Definition demo_user (k : Kernel.t) : user Kernel.t :=
  mkUser demo_mem ∅ 0 (mkWorld demo_store None None 0 k).
Definition demo_fs_user : user Kernel.t := mkUser demo_mem ∅ 0 FsKernel.demo_world.

Lemma demo_opened : exists fd k, opened (demo_user k) fd 3.
Proof.
  destruct (FsKernel.insert_law SchedProps.demo 3 0) as (fd & k & _ & Hf & _ & Hm).
  - exists ∅. split; [reflexivity|]. vm_compute. discriminate.
  - exists fd, k. split; [exact Hf|]. specialize (Hm fd). by rewrite decide_True in Hm.
Qed.

Lemma writev_is_write_witness :
  exists fd k s1 s2,
    sys_writev 0 fd [(100, 1); (101, 2)] (demo_user k) = Done 3 (set_fs s1 (demo_user k)) /\
    sys_write 0 fd 100 3 (demo_user k) = Done 3 (set_fs s2 (demo_user k)).
Proof.
  destruct demo_opened as (fd & k & Ho).
  destruct (writev_is_write 0 demo_entropy (demo_user k) fd 3 1 demo_file 0 [(100, 1); (101, 2)] [[7]; [8; 9]] 100)
    as (s2 & E2 & _ & _ & H1).
  - exact Ho.
  - exact demo_represents.
  - reflexivity.
  - repeat constructor; vm_compute; discriminate.
  - vm_compute. reflexivity.
  - vm_compute. discriminate.
  - destruct H1 as (s1 & E1 & _). exists fd, k, s1, s2. split; [exact E1|exact E2].
Defined.

Lemma readv_is_read_witness :
  exists fd k s1 s2 m1 m2,
    sys_readv 0 demo_entropy fd [(103, 1); (104, 2)] (demo_user k) = Done 3 (set_mem m1 (set_fs s1 (demo_user k))) /\
    sys_read 0 demo_entropy fd 103 3 (demo_user k) = Done 3 (set_mem m2 (set_fs s2 (demo_user k))).
Proof.
  destruct demo_opened as (fd & k & Ho).
  destruct (readv_is_read 0 demo_entropy (demo_user k) fd 3 1 demo_file 0 [(103, 1); (104, 2)] 103)
    as (s1 & s2 & E1 & E2 & _).
  - exact Ho.
  - exact demo_represents.
  - reflexivity.
  - repeat constructor; vm_compute; discriminate.
  - vm_compute. discriminate.
  - vm_compute. discriminate.
  - vm_compute. reflexivity.
  - exists fd, k, s1, s2. eexists _, _. split; [exact E1|exact E2].
Defined.

Lemma sys_answers_typed_witness :
  exists r u', run 0 (CChdir 300) demo_fs_user = Done r u' /\
    ((r = 0 /\ errno u' = 0) \/ exists e, r = - Errno.into_i32 e /\ errno u' = Errno.into_i32 e).
Proof.
  assert (exists r u', run 0 (CChdir 300) demo_fs_user = Done r u') as (r & u' & E).
  { eexists _, _. reflexivity. }
  exists r, u'. split; [exact E|].
  destruct (sys_answers_typed 0 (CChdir 300) demo_fs_user r u' E) as [[H1 H2]|(e & H1 & H2 & _)]; [left|right; exists e]; by split.
Defined.

Lemma bad_arguments_panic_witness :
  (exists why, run 0 (CUnlink 400) demo_fs_user = Panic why) /\ exists why, sys_lseek 3 0 77 demo_fs_user = Panic why.
Proof.
  destruct (bad_arguments_panic 0 demo_fs_user 400 [255] 0 0 3 0 77 0) as (H1 & _ & H3).
  - vm_compute. reflexivity.
  - reflexivity.
  - reflexivity.
  - split; [apply H1; by left|exact H3].
Defined.

Lemma getcwd_reads_past_end_witness :
  exists m, sys_getcwd 100 6 demo_fs_user = Done 100 (set_mem m demo_fs_user) /\ m !! 105 = Some None.
Proof.
  destruct (getcwd_reads_past_end demo_fs_user "/tmp" [47; 116; 109; 112; 0] 100 6 5) as (m & E & H).
  - reflexivity.
  - reflexivity.
  - discriminate.
  - vm_compute. discriminate.
  - vm_compute. reflexivity.
  - lia.
  - exists m. split; [exact E|exact H].
Defined.

Lemma faccessat_ignores_mode_witness :
  exists u', sys_faccessat AT_FDCWD 300 7 0 demo_fs_user = Done 0 u'.
Proof.
  assert (exists attr w, read_lstat "/tmp" FsKernel.demo_world = Done (Ok attr) w) as (attr & w & E).
  { eexists _, _. reflexivity. }
  destruct (faccessat_ignores_mode demo_fs_user 300 [47; 116; 109; 112] "/tmp" 7 attr w) as [H _].
  - vm_compute. reflexivity.
  - reflexivity.
  - exact E.
  - eexists. exact H.
Defined.
End SysProps.
