(* ===== verification/Env.v ===== *)
(** The boot arguments (src/src/env.rs), what of them reaches the program's main
    function, and the calls to the system heap (src/src/syscalls/mod.rs).  The
    words of the boot arguments come from the [shlex] crate, the heap from the
    [talc] crate; both are parameters. *)

From Stdlib Require Import Ascii String.
From S2P Require Import Prelude UserMem.

Module Env.
Import UserMem.
#[local] Open Scope string_scope.
#[local] Open Scope list_scope.
#[local] Open Scope Z_scope.

(** ** Strings *)

Definition EQ : ascii := "="%char.

(** [str::split_once('=')] *)
Fixpoint split_once (s : string) : option (string * string) :=
  match s with
  | EmptyString => None
  | String c s =>
      if Ascii.eqb c EQ then Some (EmptyString, s)
      else '(a, b) ← split_once s; Some (String c a, b)
  end.

(** [str::split('=')], which gives at least one piece. *)
Fixpoint split (s : string) : string * list string :=
  match s with
  | EmptyString => (EmptyString, [])
  | String c s =>
      let (x, l) := split s in
      if Ascii.eqb c EQ then (EmptyString, x :: l) else (String c x, l)
  end.

Definition contains_eq (s : string) : bool := bool_decide (is_Some (split_once s)).

(** [u16::from_str]: an optional plus sign and at least one digit. *)
Definition digit (c : ascii) : option Z :=
  let n := Z.of_N (N_of_ascii c) in
  if (48 <=? n) && (n <=? 57) then Some (n - 48) else None.
Fixpoint parse_digits (s : string) (acc : Z) : option Z :=
  match s with
  | EmptyString => Some acc
  | String c s =>
      d ← digit c;
      let acc := acc * 10 + d in
      if 65535 <? acc then None else parse_digits s acc
  end.
Definition parse_u16 (s : string) : option Z :=
  match s with
  | EmptyString => None
  | String c rest =>
      if Ascii.eqb c "+"%char then (if String.eqb rest "" then None else parse_digits rest 0) else parse_digits s 0
  end.

(** ** The command line *)

Record Cli : Type := mkCli {
  image_path : option string;
  freq : option Z;
  env_vars : gmap string string;
  args : list string;
  mmio : list string;
}.

Definition cli_empty : Cli := mkCli None None ∅ [] [].

Definition set_image (p : string) (c : Cli) : Cli := mkCli (Some p) (freq c) (env_vars c) (args c) (mmio c).
Definition set_freq (f : Z) (c : Cli) : Cli := mkCli (image_path c) (Some f) (env_vars c) (args c) (mmio c).
Definition set_var (k v : string) (c : Cli) : Cli := mkCli (image_path c) (freq c) (<[k := v]> (env_vars c)) (args c) (mmio c).
Definition add_args (l : list string) (c : Cli) : Cli := mkCli (image_path c) (freq c) (env_vars c) (args c ++ l) (mmio c).
Definition add_mmio (d : string) (c : Cli) : Cli := mkCli (image_path c) (freq c) (env_vars c) (args c) (mmio c ++ [d]).

Definition MMIO_DEVICE : string := "virtio_mmio.device=".

(** The environment variable an option with a value sets. *)
Definition option_var (word : string) : option string :=
  if String.eqb word "-ip" then Some "HERMIT_IP"
  else if String.eqb word "-mask" then Some "HERMIT_MASK"
  else if String.eqb word "-gateway" then Some "HERMIT_GATEWAY"
  else if String.eqb word "-mount" then Some "UHYVE_MOUNT"
  else None.

(** The branch for a word that contains an equals sign. *)
Definition assignment (word : string) (c : Cli) : Cli :=
  match split_once word with
  | Some (arg, value) =>
      if String.eqb arg "env" then
        match split_once value with
        | Some (key, value) => set_var key value c
        | None => c
        end
      else c
  | None => c
  end.

(** The loop of [Cli::default] over the words; [inr] is a panic. *)
Fixpoint parse_words (words : list string) (c : Cli) : Cli + string :=
  match words with
  | [] => inl c
  | word :: words =>
      if String.prefix MMIO_DEVICE word then
        match snd (split word) with
        | v :: _ => parse_words words (add_mmio v c)
        | [] => inr "index out of bounds"
        end
      else if String.eqb word "-freq" then
        match words with
        | s :: words =>
            match parse_u16 s with
            | Some f => parse_words words (set_freq f c)
            | None => inr "called `Result::unwrap()` on an `Err` value"
            end
        | [] => inr "The argument requires a value but none was supplied"
        end
      else match option_var word with
      | Some key =>
          match words with
          | v :: words => parse_words words (set_var key v c)
          | [] => inr "The argument requires a value but none was supplied"
          end
      | None =>
          if String.eqb word "--" then inl (add_args words c)
          else if contains_eq word then parse_words words (assignment word c)
          else
            match image_path c with
            | None => parse_words words (set_image word c)
            | Some _ => parse_words words c
            end
      end
  end.

(** [Cli::default], with the [shlex] crate's words of the boot arguments. *)
Definition Cli_default (shlex : string -> list string) (bootargs : option string) : Cli + string :=
  parse_words (shlex (default "" bootargs)) cli_empty.

(** ** The arguments of main *)

(** [get_application_parameters]: the number of arguments, the strings [argv]
    points to and, unless there is none, the environment with its end marker.
    [iter] is the order in which the hash map lists its entries. *)
Definition get_application_parameters (iter : gmap string string -> list (string * string)) (c : Cli)
  : Z * list (list Z) * option (list (option (list Z))) :=
  let argv := (of_string "bin" ++ [0]) :: ((fun a => of_string a ++ [0]) <$> args c) in
  let envv := ((fun '(k, v) => Some (of_string (k ++ "=" ++ v)%string ++ [0])) <$> iter (env_vars c)) ++ [None] in
  let argc := wraps 32 (Z.of_nat (length argv)) in
  (argc, argv, if (length envv =? 1)%nat then None else Some envv).

(** ** Writing a command line *)

Definition digit_char (d : Z) : ascii := ascii_of_N (Z.to_N (48 + d)).
Fixpoint decimal (fuel : nat) (n : Z) (acc : string) : string :=
  match fuel with
  | O => acc
  | S fuel =>
      let acc := String (digit_char (n mod 10)) acc in
      if n <? 10 then acc else decimal fuel (n / 10) acc
  end.
Definition print_u16 (n : Z) : string := decimal 5 n "".

Definition print_env (kv : string * string) : string := "env=" ++ kv.1 ++ "=" ++ kv.2.
Definition print_cli (c : Cli) : list string :=
  from_option (fun p => [p]) [] (image_path c) ++ from_option (fun f => ["-freq"; print_u16 f]) [] (freq c) ++
  (print_env <$> map_to_list (env_vars c)) ++ ((fun d => MMIO_DEVICE ++ d)%string <$> mmio c) ++ "--" :: args c.

(** Words that have a meaning of their own. *)
Definition reserved (w : string) : bool :=
  String.eqb w "-freq" || bool_decide (is_Some (option_var w)) || String.eqb w "--" || contains_eq w.

Record printable (c : Cli) : Prop := {
  printable_image p : image_path c = Some p -> reserved p = false;
  printable_freq f : freq c = Some f -> 0 <= f < 65536;
  printable_vars k v : env_vars c !! k = Some v -> contains_eq k = false;
  printable_mmio d : d ∈ mmio c -> contains_eq d = false;
}.

Lemma parse_print_u16 n : 0 <= n < 65536 -> parse_u16 (print_u16 n) = Some n.
Proof.
  assert (H : forallb (fun a => forallb (fun b => bool_decide (parse_u16 (print_u16 (256 * a + b)) = Some (256 * a + b)))
    (seqZ 0 256)) (seqZ 0 256) = true) by (vm_cast_no_check (eq_refl true)).
  intros Hn. rewrite forallb_forall in H. specialize (H (n / 256)). rewrite <- list_elem_of_In, elem_of_seqZ, forallb_forall in H.
  specialize (H ltac:(Z.to_euclidean_division_equations; lia) (n mod 256)). rewrite <- list_elem_of_In, elem_of_seqZ, bool_decide_eq_true, <- Z_div_mod_eq_full in H.
  apply H. Z.to_euclidean_division_equations; lia.
Qed.

Lemma contains_cons c s : contains_eq (String c s) = false -> Ascii.eqb c EQ = false /\ contains_eq s = false.
Proof.
  unfold contains_eq. cbn [split_once]. destruct (Ascii.eqb c EQ); [done|].
  destruct (split_once s) as [[a b]|]; cbn; [done|auto].
Qed.

Lemma append_cons c k s : (String c k ++ s)%string = String c (k ++ s).
Proof. done. Qed.

Lemma split_once_at k v : contains_eq k = false -> split_once (k ++ "=" ++ v) = Some (k, v).
Proof.
  induction k as [|c k IH]; [done|]. intros [Hc Hk]%contains_cons. rewrite append_cons. cbn [split_once].
  rewrite Hc. by rewrite IH.
Qed.

Lemma split_plain d : contains_eq d = false -> split d = (d, []).
Proof. induction d as [|c d IH]; [done|]. intros [Hc Hk]%contains_cons. cbn [split]. by rewrite IH, Hc. Qed.

Lemma split_at k d : contains_eq k = false -> contains_eq d = false -> split (k ++ "=" ++ d) = (k, [d]).
Proof.
  induction k as [|c k IH].
  - intros _ Hd. change ("" ++ "=" ++ d)%string with (String EQ d). cbn [split]. by rewrite split_plain.
  - intros [Hc Hk]%contains_cons Hd. rewrite append_cons. cbn [split]. by rewrite IH, Hc.
Qed.

Lemma print_env_parses kv words c :
  contains_eq kv.1 = false -> parse_words (print_env kv :: words) c = parse_words words (set_var kv.1 kv.2 c).
Proof.
  intros Hk. unfold print_env. cbn [parse_words].
  change (String.prefix MMIO_DEVICE ("env=" ++ kv.1 ++ "=" ++ kv.2)) with false.
  change (String.eqb ("env=" ++ kv.1 ++ "=" ++ kv.2) "-freq") with false.
  change (option_var ("env=" ++ kv.1 ++ "=" ++ kv.2)) with (@None string).
  change (String.eqb ("env=" ++ kv.1 ++ "=" ++ kv.2) "--") with false. cbv iota.
  change ("env=" ++ kv.1 ++ "=" ++ kv.2)%string with ("env" ++ "=" ++ (kv.1 ++ "=" ++ kv.2))%string.
  unfold contains_eq, assignment. rewrite (split_once_at "env") by done. cbn. by rewrite split_once_at.
Qed.

Lemma print_vars_parse l words c :
  Forall (fun kv => contains_eq kv.1 = false) l -> NoDup l.*1 ->
  parse_words ((print_env <$> l) ++ words) c =
  parse_words words (mkCli (image_path c) (freq c) (list_to_map l ∪ env_vars c) (args c) (mmio c)).
Proof.
  intros Hl. revert c. induction Hl as [|[k v] l Hk Hl IH]; intros c Hd.
  - cbn. rewrite map_empty_union. by destruct c.
  - cbn [fmap list_fmap app]. rewrite print_env_parses by done. cbn in Hd. apply list.NoDup_cons in Hd as [Hn Hd].
    rewrite IH by done. cbn. do 2 f_equal.
    rewrite <- insert_union_r by (by apply not_elem_of_list_to_map_1). by rewrite insert_union_l.
Qed.

Lemma print_mmio_parses l words c :
  Forall (fun d => contains_eq d = false) l ->
  parse_words (((fun d => MMIO_DEVICE ++ d)%string <$> l) ++ words) c =
  parse_words words (mkCli (image_path c) (freq c) (env_vars c) (args c) (mmio c ++ l)).
Proof.
  intros Hl. revert c. induction Hl as [|d l Hd Hl IH]; intros c.
  - cbn. rewrite app_nil_r. by destruct c.
  - cbn [fmap list_fmap app parse_words]. change (String.prefix MMIO_DEVICE (MMIO_DEVICE ++ d)) with (String.prefix "" d).
    replace (String.prefix "" d) with true by (by destruct d). cbv iota.
    change (MMIO_DEVICE ++ d)%string with ("virtio_mmio.device" ++ "=" ++ d)%string. rewrite split_at by done. cbn [snd].
    rewrite IH. cbn. by rewrite <- app_assoc.
Qed.

Lemma contains_app s d : contains_eq (s ++ "=" ++ d) = true.
Proof.
  induction s as [|c s IH]; [done|]. destruct (contains_eq (String c s ++ "=" ++ d)) eqn:E; [done|].
  rewrite append_cons in E. apply contains_cons in E as [_ E]. by rewrite IH in E.
Qed.

Lemma prefix_app p s : String.prefix p s = true -> exists d, s = (p ++ d)%string.
Proof.
  revert s. induction p as [|c p IH]; intros s H; [by exists s|].
  destruct s as [|c' s]; [done|]. cbn in H. destruct (ascii_dec c c') as [<-|]; [|done].
  apply IH in H as [d ->]. by exists d.
Qed.

Lemma prefix_contains p : String.prefix MMIO_DEVICE p = true -> contains_eq p = true.
Proof. intros [d ->]%prefix_app. apply (contains_app "virtio_mmio.device"). Qed.

Lemma reserved_parses p words c :
  reserved p = false -> image_path c = None -> parse_words (p :: words) c = parse_words words (set_image p c).
Proof.
  unfold reserved. intros [[[H1 H2]%orb_false_iff H3]%orb_false_iff H4]%orb_false_iff Hc. cbn [parse_words].
  destruct (String.prefix MMIO_DEVICE p) eqn:Hp.
  { by rewrite (prefix_contains _ Hp) in H4. }
  rewrite H1, H3, H4, Hc. destruct (option_var p); [done|done].
Qed.

Lemma parse_print c : printable c -> parse_words (print_cli c) cli_empty = inl c.
Proof.
  intros [Hi Hf Hv Hm]. unfold print_cli.
  assert (Him : forall words, parse_words (from_option (fun p => [p]) [] (image_path c) ++ words) cli_empty =
    parse_words words (mkCli (image_path c) None ∅ [] [])).
  { intros words. destruct (image_path c) as [p|]; [|done]. by apply reserved_parses; [apply Hi|]. }
  rewrite Him. clear Him.
  assert (Hfr : forall words, parse_words (from_option (fun f => ["-freq"; print_u16 f]) [] (freq c) ++ words) (mkCli (image_path c) None ∅ [] []) =
    parse_words words (mkCli (image_path c) (freq c) ∅ [] [])).
  { intros words. destruct (freq c) as [f|]; [|done]. cbn [from_option app parse_words].
    change (String.prefix MMIO_DEVICE "-freq") with false. cbn [String.eqb]. cbv iota.
    change (String.eqb "-freq" "-freq") with true. cbv iota. by rewrite parse_print_u16 by (by apply Hf). }
  rewrite Hfr. clear Hfr.
  rewrite print_vars_parse; [|apply list.Forall_forall; intros [k v] Hkv%elem_of_map_to_list; by eapply Hv|apply NoDup_fst_map_to_list].
  rewrite list_to_map_to_list. cbn [env_vars image_path freq args mmio]. rewrite map_union_empty.
  rewrite print_mmio_parses by (apply list.Forall_forall; exact Hm). by destruct c.
Qed.

(** The zero-terminated bytes of a string. *)
Definition c_string (s : string) : list Z := of_string s ++ [0].

Lemma c_string_inj s t : c_string s = c_string t -> s = t.
Proof.
  unfold c_string. intros [H _]%app_inj_tail. revert t H. induction s as [|c s IH]; intros [|d t] H; try done.
  cbn in H. injection H as Hc Hs. f_equal; [|by apply IH].
  apply N2Z.inj in Hc. rewrite <- (ascii_N_embedding c), <- (ascii_N_embedding d). by rewrite Hc.
Qed.

(** What is written on the command line reaches main: reading the words gives
    the configuration they were written from, [argc] and [argv] are the program
    name and the words behind "--", and the environment lists exactly the
    variables, or is a null pointer when there is none. *)
Theorem bootargs_reach_main shlex boot iter c :
  printable c -> shlex boot = print_cli c -> (forall m, iter m ≡ₚ map_to_list m) ->
  Z.of_nat (length (args c)) < 2 ^ 31 - 1 ->
  exists argv envv,
    Cli_default shlex (Some boot) = inl c /\
    get_application_parameters iter c = (1 + Z.of_nat (length (args c)), argv, envv) /\
    argv !! 0%nat = Some (c_string "bin") /\
    (forall i, argv !! S i = c_string <$> args c !! i) /\
    (envv = None <-> env_vars c = ∅) /\
    (forall l, envv = Some l -> list.last l = Some None /\
      forall k v, contains_eq k = false -> Some (c_string (k ++ "=" ++ v)) ∈ l <-> env_vars c !! k = Some v).
Proof.
  intros Hc Hs Hiter Hargs. unfold Cli_default, get_application_parameters. cbn [default].
  eexists _, _. split; [cbn; rewrite Hs; by apply parse_print|]. split.
  { f_equal. f_equal. cbn [length]. rewrite length_fmap, wraps_small by lia. lia. }
  split; [done|]. split; [intros i; exact (list_lookup_fmap _ _ _)|].
  rewrite length_app, length_fmap. cbn [length].
  assert (Hlen : length (iter (env_vars c)) = base.size (env_vars c)).
  { rewrite (Permutation_length (Hiter (env_vars c))). by rewrite length_map_to_list. }
  split.
  - rewrite Hlen, <- map_size_empty_iff. destruct (_ =? _)%nat eqn:E; [apply Nat.eqb_eq in E|apply Nat.eqb_neq in E]; split; try done; lia.
  - intros l. destruct (_ =? _)%nat; [done|]. intros [= <-]. split; [by rewrite last_snoc|]. intros k v Hk.
    rewrite elem_of_app, list_elem_of_singleton, list_elem_of_fmap. split.
    + intros [([k' v'] & E & Hin)|?]; [|done]. rewrite Hiter in Hin. apply elem_of_map_to_list in Hin.
      injection E as E%c_string_inj. apply (f_equal split_once) in E.
      rewrite !split_once_at in E by (first [done|by eapply printable_vars]). by injection E as -> ->.
    + intros H. left. exists (k, v). split; [done|]. rewrite Hiter. by apply elem_of_map_to_list.
Qed.

(** ** The system heap *)

Definition isize_max : Z := 2 ^ 63 - 1.
Record Layout : Type := mkLayout { layout_size : Z; layout_align : Z }.

(** [Layout::from_size_align]: the alignment is a power of two and the size,
    rounded up to it, fits an [isize]. *)
Definition is_power_of_two (n : Z) : bool := (0 <? n) && (Z.land n (n - 1) =? 0).
Definition from_size_align (size align : Z) : option Layout :=
  if is_power_of_two align && (size <=? isize_max + 1 - align) then Some (mkLayout size align) else None.

Section Heap.
Context {H : Type}.
Variables (alloc alloc_zeroed : Layout -> M H Z) (realloc : Z -> Layout -> Z -> M H Z) (dealloc : Z -> Layout -> M H unit).

Definition with_layout (size align : Z) (f : Layout -> M H Z) : M H Z :=
  match from_size_align size align with
  | Some layout => if size =? 0 then ret 0 else f layout
  | None => ret 0
  end.

Definition sys_alloc (size align : Z) : M H Z := with_layout size align alloc.
Definition sys_alloc_zeroed (size align : Z) : M H Z := with_layout size align alloc_zeroed.
Definition sys_malloc (size align : Z) : M H Z := with_layout size align alloc.
Definition sys_realloc (ptr size align new_size : Z) : M H Z :=
  with_layout size align (fun layout => if new_size =? 0 then ret 0 else realloc ptr layout new_size).
(** In a release build the assertions on the layout are not compiled. *)
Definition sys_dealloc (ptr size align : Z) : M H unit :=
  let! layout := unwrap (from_size_align size align) "called `Result::unwrap()` on an `Err` value" in
  dealloc ptr layout.
Definition sys_free (ptr size align : Z) : M H unit :=
  let! layout := unwrap (from_size_align size align) "called `Result::unwrap()` on an `Err` value" in
  dealloc ptr layout.

(** The allocator is told to release blocks of size 0, which it has never given
    out, and to grow a block to a size no layout has. *)
Lemma heap_contract_unchecked h ptr align new_size : is_power_of_two align = true -> 8 <= align <= 2 ^ 62 ->
  isize_max < new_size ->
  sys_free ptr 0 align h = dealloc ptr (mkLayout 0 align) h /\
  sys_realloc ptr 8 align new_size h = realloc ptr (mkLayout 8 align) new_size h /\
  from_size_align new_size align = None.
Proof.
  intros Hp Ha Hn. unfold sys_free, sys_realloc, with_layout, from_size_align. rewrite Hp. unfold isize_max in *.
  rewrite !(proj2 (Z.leb_le _ _)) by lia. rewrite (proj2 (Z.leb_gt _ _)) by lia. cbn.
  by rewrite (proj2 (Z.eqb_neq new_size 0)) by lia.
Qed.
End Heap.

(** ** An example *)

Definition demo_cli : Cli := mkCli (Some "image") (Some 1000) {[ "HOME" := "/tmp=x" ]} ["-v"; "a=b"] ["512@0xfeb00e00:12"].

Lemma demo_printable : printable demo_cli.
Proof.
  split.
  - intros p [= <-]. reflexivity.
  - intros f [= <-]. lia.
  - intros k v H. cbn in H. apply lookup_singleton_Some in H as [<- _]. reflexivity.
  - intros d H. cbn in H. apply list_elem_of_singleton in H as ->. reflexivity.
Qed.

Lemma bootargs_reach_main_witness :
  exists argv envv,
    Cli_default (fun _ => ["image"; "-freq"; "1000"; "env=HOME=/tmp=x"; "virtio_mmio.device=512@0xfeb00e00:12"; "--"; "-v"; "a=b"])
      (Some "words") = inl demo_cli /\
    get_application_parameters map_to_list demo_cli = (3, argv, envv) /\ argv !! 2%nat = Some (c_string "a=b").
Proof.
  destruct (bootargs_reach_main
    (fun _ => ["image"; "-freq"; "1000"; "env=HOME=/tmp=x"; "virtio_mmio.device=512@0xfeb00e00:12"; "--"; "-v"; "a=b"])
    "words" map_to_list demo_cli) as (argv & envv & E1 & E2 & _ & E3 & _).
  - exact demo_printable.
  - vm_compute. reflexivity.
  - intros m. reflexivity.
  - vm_compute. reflexivity.
  - exists argv, envv. split; [exact E1|]. split; [exact E2|]. rewrite (E3 1%nat). reflexivity.
Defined.
End Env.
