(* ===== verification/Continuations.v ===== *)
(** Stackful continuations (src/src/arch/aarch64/kernel/continuations.rs, with
    the sizes of src/src/config.rs): the record pool with its free list, the
    per-continuation stacks and exception slots, parking, waking, draining,
    quantum escapes, teardown and the futex table of continuations.

    A pointer to a [Cont] is its index in [CONT_POOL], the null pointer is
    [None].  An operation that ends in [cont_switch] takes the context [here]
    of its caller, as [cont_switch] captures it, and answers the context that
    runs next: [Some f] when it switched, [None] when it returned to its caller.
    The assembly of [cont_switch] is the subject of [ContSwitch]. *)

From S2P Require Import Prelude Errors.
From stdpp Require Import functions.
Open Scope Z_scope.

Module Continuations.

Inductive cstate : Type := C_FREE | C_READY | C_RUNNING | C_PARKED | C_ESCAPED.

#[export] Instance cstate_eq_dec : EqDecision cstate.
Proof. solve_decision. Defined.

(** The [State] frame of a suspended context: 36 words. *)
Record State : Type := mkState {
  spsel : Z;
  elr_el1 : Z;
  spsr_el1 : Z;
  sp_el0 : Z;
  tpidr_el0 : Z;
  gprs : list Z; (** x0 .. x30 *)
}.

(** The vector registers and their control registers. *)
Record AlignedFpSaveBuf : Type := mkFp {
  q : list Z;
  fpsr : Z;
  fpcr : Z;
}.
Notation fpregs := AlignedFpSaveBuf (only parsing).

Definition CONT_STACK_SIZE : Z := 0x8000.
Definition CONT_GUARD : Z := 0x1000.
Definition CONT_SLOT_SIZE : Z := 0x10000.
Definition CONT_SLOT_GUARD : Z := 0x1000.
Definition MAX_CONTINUATIONS : nat := 128.
Definition MAX_FUTEX_WAITERS : nat := 128.
Definition STATE_SIZE : Z := 288.
Definition CONT_TLS_MAGIC : Z := 0xC0DEC7E7.
Definition QUANTUM_CYCLES : Z := 8000000.

Record Cont : Type := mkCont {
  state_frame : Z; (** frame base in its stack, 0 is null *)
  slot_top : Z; (** top of its exception slot *)
  tls : Z;
  state : cstate;
  pending_wake : bool;
  entry : Z;
  resumer_frame : Z;
  resumer_slot : Z;
  escape_frame : Z;
  quantum_armed : bool;
  user_func : Z;
  user_arg : Z;
  owned_fd : option Z;
}.

Definition set_state_frame (x : Z) (c : Cont) : Cont :=
  mkCont x (slot_top c) (tls c) (state c) (pending_wake c) (entry c) (resumer_frame c)
    (resumer_slot c) (escape_frame c) (quantum_armed c) (user_func c) (user_arg c)
    (owned_fd c).
Definition set_slot_top (x : Z) (c : Cont) : Cont :=
  mkCont (state_frame c) x (tls c) (state c) (pending_wake c) (entry c) (resumer_frame c)
    (resumer_slot c) (escape_frame c) (quantum_armed c) (user_func c) (user_arg c)
    (owned_fd c).
Definition set_tls (x : Z) (c : Cont) : Cont :=
  mkCont (state_frame c) (slot_top c) x (state c) (pending_wake c) (entry c)
    (resumer_frame c) (resumer_slot c) (escape_frame c) (quantum_armed c) (user_func c)
    (user_arg c) (owned_fd c).
Definition set_state (x : cstate) (c : Cont) : Cont :=
  mkCont (state_frame c) (slot_top c) (tls c) x (pending_wake c) (entry c)
    (resumer_frame c) (resumer_slot c) (escape_frame c) (quantum_armed c) (user_func c)
    (user_arg c) (owned_fd c).
Definition set_pending_wake (x : bool) (c : Cont) : Cont :=
  mkCont (state_frame c) (slot_top c) (tls c) (state c) x (entry c) (resumer_frame c)
    (resumer_slot c) (escape_frame c) (quantum_armed c) (user_func c) (user_arg c)
    (owned_fd c).
Definition set_entry (x : Z) (c : Cont) : Cont :=
  mkCont (state_frame c) (slot_top c) (tls c) (state c) (pending_wake c) x
    (resumer_frame c) (resumer_slot c) (escape_frame c) (quantum_armed c) (user_func c)
    (user_arg c) (owned_fd c).
Definition set_resumer_frame (x : Z) (c : Cont) : Cont :=
  mkCont (state_frame c) (slot_top c) (tls c) (state c) (pending_wake c) (entry c) x
    (resumer_slot c) (escape_frame c) (quantum_armed c) (user_func c) (user_arg c)
    (owned_fd c).
Definition set_resumer_slot (x : Z) (c : Cont) : Cont :=
  mkCont (state_frame c) (slot_top c) (tls c) (state c) (pending_wake c) (entry c)
    (resumer_frame c) x (escape_frame c) (quantum_armed c) (user_func c) (user_arg c)
    (owned_fd c).
Definition set_escape_frame (x : Z) (c : Cont) : Cont :=
  mkCont (state_frame c) (slot_top c) (tls c) (state c) (pending_wake c) (entry c)
    (resumer_frame c) (resumer_slot c) x (quantum_armed c) (user_func c) (user_arg c)
    (owned_fd c).
Definition set_quantum_armed (x : bool) (c : Cont) : Cont :=
  mkCont (state_frame c) (slot_top c) (tls c) (state c) (pending_wake c) (entry c)
    (resumer_frame c) (resumer_slot c) (escape_frame c) x (user_func c) (user_arg c)
    (owned_fd c).
Definition set_user_func (x : Z) (c : Cont) : Cont :=
  mkCont (state_frame c) (slot_top c) (tls c) (state c) (pending_wake c) (entry c)
    (resumer_frame c) (resumer_slot c) (escape_frame c) (quantum_armed c) x (user_arg c)
    (owned_fd c).
Definition set_user_arg (x : Z) (c : Cont) : Cont :=
  mkCont (state_frame c) (slot_top c) (tls c) (state c) (pending_wake c) (entry c)
    (resumer_frame c) (resumer_slot c) (escape_frame c) (quantum_armed c) (user_func c) x
    (owned_fd c).
Definition set_owned_fd (x : option Z) (c : Cont) : Cont :=
  mkCont (state_frame c) (slot_top c) (tls c) (state c) (pending_wake c) (entry c)
    (resumer_frame c) (resumer_slot c) (escape_frame c) (quantum_armed c) (user_func c)
    (user_arg c) x.

Record ContSwitch : Type := mkSwitch {
  save : Z;
  target : Z;
  target_slot : Z;
  cur : Z;
}.

(** The statics of the module, the per-core fields it uses and the frames. *)
Record t : Type := mk {
  CONT_NEXT : nat;
  CONT_FREE_TOP : nat;
  CONT_FREE_BUF : list nat;
  CONT_POOL : list Cont;
  CURRENT_CONT : option nat;
  CONT_PENDING : option nat;
  CONT_SWITCH : ContSwitch;
  CONT_TEARDOWN_HAPPENED : bool;
  FP_SAVE_ACQUIRED : bool;
  FP_SAVE_BUF : fpregs;
  fp_registers : fpregs; (** q0..q31, fpsr and fpcr *)
  S6_CONT : option nat;
  CONT_ARM_COUNT : Z;
  CONT_DISARM_COUNT : Z;
  CONT_ESCAPE_COUNT : Z;
  CONT_PARK_COUNT : Z;
  CONT_RESUME_COUNT : Z;
  CONT_FUTEX_ADDRS : list Z;
  CONT_FUTEX_CONTS : list (option nat);
  CONT_FUTEX_WAITER_COUNT : Z;
  S7B_FD_REFS : Z;
  S7B_FD_DROPPED : Z;
  counter : Z; (** the physical counter *)
  timer : option Z; (** the one-shot timer *)
  sgi_cont_wake : bool; (** [SGI_CONT_WAKE] is pending *)
  scratch_slot : Z; (** [CoreLocal.scratch_slot] *)
  abort_zone : bool;
  last_stack_pointer : Z; (** of the current task *)
  frames : Z -> State; (** the [State] frames in memory, by their base *)
}.

Definition set_CONT_NEXT (x : nat) (s : t) : t :=
  mk x (CONT_FREE_TOP s) (CONT_FREE_BUF s) (CONT_POOL s) (CURRENT_CONT s) (CONT_PENDING s)
    (CONT_SWITCH s) (CONT_TEARDOWN_HAPPENED s) (FP_SAVE_ACQUIRED s) (FP_SAVE_BUF s)
    (fp_registers s) (S6_CONT s) (CONT_ARM_COUNT s) (CONT_DISARM_COUNT s)
    (CONT_ESCAPE_COUNT s) (CONT_PARK_COUNT s) (CONT_RESUME_COUNT s) (CONT_FUTEX_ADDRS s)
    (CONT_FUTEX_CONTS s) (CONT_FUTEX_WAITER_COUNT s) (S7B_FD_REFS s) (S7B_FD_DROPPED s)
    (counter s) (timer s) (sgi_cont_wake s) (scratch_slot s) (abort_zone s)
    (last_stack_pointer s) (frames s).
Definition set_CONT_FREE_TOP (x : nat) (s : t) : t :=
  mk (CONT_NEXT s) x (CONT_FREE_BUF s) (CONT_POOL s) (CURRENT_CONT s) (CONT_PENDING s)
    (CONT_SWITCH s) (CONT_TEARDOWN_HAPPENED s) (FP_SAVE_ACQUIRED s) (FP_SAVE_BUF s)
    (fp_registers s) (S6_CONT s) (CONT_ARM_COUNT s) (CONT_DISARM_COUNT s)
    (CONT_ESCAPE_COUNT s) (CONT_PARK_COUNT s) (CONT_RESUME_COUNT s) (CONT_FUTEX_ADDRS s)
    (CONT_FUTEX_CONTS s) (CONT_FUTEX_WAITER_COUNT s) (S7B_FD_REFS s) (S7B_FD_DROPPED s)
    (counter s) (timer s) (sgi_cont_wake s) (scratch_slot s) (abort_zone s)
    (last_stack_pointer s) (frames s).
Definition set_CONT_FREE_BUF (x : list nat) (s : t) : t :=
  mk (CONT_NEXT s) (CONT_FREE_TOP s) x (CONT_POOL s) (CURRENT_CONT s) (CONT_PENDING s)
    (CONT_SWITCH s) (CONT_TEARDOWN_HAPPENED s) (FP_SAVE_ACQUIRED s) (FP_SAVE_BUF s)
    (fp_registers s) (S6_CONT s) (CONT_ARM_COUNT s) (CONT_DISARM_COUNT s)
    (CONT_ESCAPE_COUNT s) (CONT_PARK_COUNT s) (CONT_RESUME_COUNT s) (CONT_FUTEX_ADDRS s)
    (CONT_FUTEX_CONTS s) (CONT_FUTEX_WAITER_COUNT s) (S7B_FD_REFS s) (S7B_FD_DROPPED s)
    (counter s) (timer s) (sgi_cont_wake s) (scratch_slot s) (abort_zone s)
    (last_stack_pointer s) (frames s).
Definition set_CONT_POOL (x : list Cont) (s : t) : t :=
  mk (CONT_NEXT s) (CONT_FREE_TOP s) (CONT_FREE_BUF s) x (CURRENT_CONT s) (CONT_PENDING s)
    (CONT_SWITCH s) (CONT_TEARDOWN_HAPPENED s) (FP_SAVE_ACQUIRED s) (FP_SAVE_BUF s)
    (fp_registers s) (S6_CONT s) (CONT_ARM_COUNT s) (CONT_DISARM_COUNT s)
    (CONT_ESCAPE_COUNT s) (CONT_PARK_COUNT s) (CONT_RESUME_COUNT s) (CONT_FUTEX_ADDRS s)
    (CONT_FUTEX_CONTS s) (CONT_FUTEX_WAITER_COUNT s) (S7B_FD_REFS s) (S7B_FD_DROPPED s)
    (counter s) (timer s) (sgi_cont_wake s) (scratch_slot s) (abort_zone s)
    (last_stack_pointer s) (frames s).
Definition set_CURRENT_CONT (x : option nat) (s : t) : t :=
  mk (CONT_NEXT s) (CONT_FREE_TOP s) (CONT_FREE_BUF s) (CONT_POOL s) x (CONT_PENDING s)
    (CONT_SWITCH s) (CONT_TEARDOWN_HAPPENED s) (FP_SAVE_ACQUIRED s) (FP_SAVE_BUF s)
    (fp_registers s) (S6_CONT s) (CONT_ARM_COUNT s) (CONT_DISARM_COUNT s)
    (CONT_ESCAPE_COUNT s) (CONT_PARK_COUNT s) (CONT_RESUME_COUNT s) (CONT_FUTEX_ADDRS s)
    (CONT_FUTEX_CONTS s) (CONT_FUTEX_WAITER_COUNT s) (S7B_FD_REFS s) (S7B_FD_DROPPED s)
    (counter s) (timer s) (sgi_cont_wake s) (scratch_slot s) (abort_zone s)
    (last_stack_pointer s) (frames s).
Definition set_CONT_PENDING (x : option nat) (s : t) : t :=
  mk (CONT_NEXT s) (CONT_FREE_TOP s) (CONT_FREE_BUF s) (CONT_POOL s) (CURRENT_CONT s) x
    (CONT_SWITCH s) (CONT_TEARDOWN_HAPPENED s) (FP_SAVE_ACQUIRED s) (FP_SAVE_BUF s)
    (fp_registers s) (S6_CONT s) (CONT_ARM_COUNT s) (CONT_DISARM_COUNT s)
    (CONT_ESCAPE_COUNT s) (CONT_PARK_COUNT s) (CONT_RESUME_COUNT s) (CONT_FUTEX_ADDRS s)
    (CONT_FUTEX_CONTS s) (CONT_FUTEX_WAITER_COUNT s) (S7B_FD_REFS s) (S7B_FD_DROPPED s)
    (counter s) (timer s) (sgi_cont_wake s) (scratch_slot s) (abort_zone s)
    (last_stack_pointer s) (frames s).
Definition set_CONT_SWITCH (x : ContSwitch) (s : t) : t :=
  mk (CONT_NEXT s) (CONT_FREE_TOP s) (CONT_FREE_BUF s) (CONT_POOL s) (CURRENT_CONT s)
    (CONT_PENDING s) x (CONT_TEARDOWN_HAPPENED s) (FP_SAVE_ACQUIRED s) (FP_SAVE_BUF s)
    (fp_registers s) (S6_CONT s) (CONT_ARM_COUNT s) (CONT_DISARM_COUNT s)
    (CONT_ESCAPE_COUNT s) (CONT_PARK_COUNT s) (CONT_RESUME_COUNT s) (CONT_FUTEX_ADDRS s)
    (CONT_FUTEX_CONTS s) (CONT_FUTEX_WAITER_COUNT s) (S7B_FD_REFS s) (S7B_FD_DROPPED s)
    (counter s) (timer s) (sgi_cont_wake s) (scratch_slot s) (abort_zone s)
    (last_stack_pointer s) (frames s).
Definition set_CONT_TEARDOWN_HAPPENED (x : bool) (s : t) : t :=
  mk (CONT_NEXT s) (CONT_FREE_TOP s) (CONT_FREE_BUF s) (CONT_POOL s) (CURRENT_CONT s)
    (CONT_PENDING s) (CONT_SWITCH s) x (FP_SAVE_ACQUIRED s) (FP_SAVE_BUF s)
    (fp_registers s) (S6_CONT s) (CONT_ARM_COUNT s) (CONT_DISARM_COUNT s)
    (CONT_ESCAPE_COUNT s) (CONT_PARK_COUNT s) (CONT_RESUME_COUNT s) (CONT_FUTEX_ADDRS s)
    (CONT_FUTEX_CONTS s) (CONT_FUTEX_WAITER_COUNT s) (S7B_FD_REFS s) (S7B_FD_DROPPED s)
    (counter s) (timer s) (sgi_cont_wake s) (scratch_slot s) (abort_zone s)
    (last_stack_pointer s) (frames s).
Definition set_FP_SAVE_ACQUIRED (x : bool) (s : t) : t :=
  mk (CONT_NEXT s) (CONT_FREE_TOP s) (CONT_FREE_BUF s) (CONT_POOL s) (CURRENT_CONT s)
    (CONT_PENDING s) (CONT_SWITCH s) (CONT_TEARDOWN_HAPPENED s) x (FP_SAVE_BUF s)
    (fp_registers s) (S6_CONT s) (CONT_ARM_COUNT s) (CONT_DISARM_COUNT s)
    (CONT_ESCAPE_COUNT s) (CONT_PARK_COUNT s) (CONT_RESUME_COUNT s) (CONT_FUTEX_ADDRS s)
    (CONT_FUTEX_CONTS s) (CONT_FUTEX_WAITER_COUNT s) (S7B_FD_REFS s) (S7B_FD_DROPPED s)
    (counter s) (timer s) (sgi_cont_wake s) (scratch_slot s) (abort_zone s)
    (last_stack_pointer s) (frames s).
Definition set_FP_SAVE_BUF (x : fpregs) (s : t) : t :=
  mk (CONT_NEXT s) (CONT_FREE_TOP s) (CONT_FREE_BUF s) (CONT_POOL s) (CURRENT_CONT s)
    (CONT_PENDING s) (CONT_SWITCH s) (CONT_TEARDOWN_HAPPENED s) (FP_SAVE_ACQUIRED s) x
    (fp_registers s) (S6_CONT s) (CONT_ARM_COUNT s) (CONT_DISARM_COUNT s)
    (CONT_ESCAPE_COUNT s) (CONT_PARK_COUNT s) (CONT_RESUME_COUNT s) (CONT_FUTEX_ADDRS s)
    (CONT_FUTEX_CONTS s) (CONT_FUTEX_WAITER_COUNT s) (S7B_FD_REFS s) (S7B_FD_DROPPED s)
    (counter s) (timer s) (sgi_cont_wake s) (scratch_slot s) (abort_zone s)
    (last_stack_pointer s) (frames s).
Definition set_fp_registers (x : fpregs) (s : t) : t :=
  mk (CONT_NEXT s) (CONT_FREE_TOP s) (CONT_FREE_BUF s) (CONT_POOL s) (CURRENT_CONT s)
    (CONT_PENDING s) (CONT_SWITCH s) (CONT_TEARDOWN_HAPPENED s) (FP_SAVE_ACQUIRED s)
    (FP_SAVE_BUF s) x (S6_CONT s) (CONT_ARM_COUNT s) (CONT_DISARM_COUNT s)
    (CONT_ESCAPE_COUNT s) (CONT_PARK_COUNT s) (CONT_RESUME_COUNT s) (CONT_FUTEX_ADDRS s)
    (CONT_FUTEX_CONTS s) (CONT_FUTEX_WAITER_COUNT s) (S7B_FD_REFS s) (S7B_FD_DROPPED s)
    (counter s) (timer s) (sgi_cont_wake s) (scratch_slot s) (abort_zone s)
    (last_stack_pointer s) (frames s).
Definition set_S6_CONT (x : option nat) (s : t) : t :=
  mk (CONT_NEXT s) (CONT_FREE_TOP s) (CONT_FREE_BUF s) (CONT_POOL s) (CURRENT_CONT s)
    (CONT_PENDING s) (CONT_SWITCH s) (CONT_TEARDOWN_HAPPENED s) (FP_SAVE_ACQUIRED s)
    (FP_SAVE_BUF s) (fp_registers s) x (CONT_ARM_COUNT s) (CONT_DISARM_COUNT s)
    (CONT_ESCAPE_COUNT s) (CONT_PARK_COUNT s) (CONT_RESUME_COUNT s) (CONT_FUTEX_ADDRS s)
    (CONT_FUTEX_CONTS s) (CONT_FUTEX_WAITER_COUNT s) (S7B_FD_REFS s) (S7B_FD_DROPPED s)
    (counter s) (timer s) (sgi_cont_wake s) (scratch_slot s) (abort_zone s)
    (last_stack_pointer s) (frames s).
Definition set_CONT_ARM_COUNT (x : Z) (s : t) : t :=
  mk (CONT_NEXT s) (CONT_FREE_TOP s) (CONT_FREE_BUF s) (CONT_POOL s) (CURRENT_CONT s)
    (CONT_PENDING s) (CONT_SWITCH s) (CONT_TEARDOWN_HAPPENED s) (FP_SAVE_ACQUIRED s)
    (FP_SAVE_BUF s) (fp_registers s) (S6_CONT s) x (CONT_DISARM_COUNT s)
    (CONT_ESCAPE_COUNT s) (CONT_PARK_COUNT s) (CONT_RESUME_COUNT s) (CONT_FUTEX_ADDRS s)
    (CONT_FUTEX_CONTS s) (CONT_FUTEX_WAITER_COUNT s) (S7B_FD_REFS s) (S7B_FD_DROPPED s)
    (counter s) (timer s) (sgi_cont_wake s) (scratch_slot s) (abort_zone s)
    (last_stack_pointer s) (frames s).
Definition set_CONT_DISARM_COUNT (x : Z) (s : t) : t :=
  mk (CONT_NEXT s) (CONT_FREE_TOP s) (CONT_FREE_BUF s) (CONT_POOL s) (CURRENT_CONT s)
    (CONT_PENDING s) (CONT_SWITCH s) (CONT_TEARDOWN_HAPPENED s) (FP_SAVE_ACQUIRED s)
    (FP_SAVE_BUF s) (fp_registers s) (S6_CONT s) (CONT_ARM_COUNT s) x
    (CONT_ESCAPE_COUNT s) (CONT_PARK_COUNT s) (CONT_RESUME_COUNT s) (CONT_FUTEX_ADDRS s)
    (CONT_FUTEX_CONTS s) (CONT_FUTEX_WAITER_COUNT s) (S7B_FD_REFS s) (S7B_FD_DROPPED s)
    (counter s) (timer s) (sgi_cont_wake s) (scratch_slot s) (abort_zone s)
    (last_stack_pointer s) (frames s).
Definition set_CONT_ESCAPE_COUNT (x : Z) (s : t) : t :=
  mk (CONT_NEXT s) (CONT_FREE_TOP s) (CONT_FREE_BUF s) (CONT_POOL s) (CURRENT_CONT s)
    (CONT_PENDING s) (CONT_SWITCH s) (CONT_TEARDOWN_HAPPENED s) (FP_SAVE_ACQUIRED s)
    (FP_SAVE_BUF s) (fp_registers s) (S6_CONT s) (CONT_ARM_COUNT s) (CONT_DISARM_COUNT s)
    x (CONT_PARK_COUNT s) (CONT_RESUME_COUNT s) (CONT_FUTEX_ADDRS s) (CONT_FUTEX_CONTS s)
    (CONT_FUTEX_WAITER_COUNT s) (S7B_FD_REFS s) (S7B_FD_DROPPED s) (counter s) (timer s)
    (sgi_cont_wake s) (scratch_slot s) (abort_zone s) (last_stack_pointer s) (frames s).
Definition set_CONT_PARK_COUNT (x : Z) (s : t) : t :=
  mk (CONT_NEXT s) (CONT_FREE_TOP s) (CONT_FREE_BUF s) (CONT_POOL s) (CURRENT_CONT s)
    (CONT_PENDING s) (CONT_SWITCH s) (CONT_TEARDOWN_HAPPENED s) (FP_SAVE_ACQUIRED s)
    (FP_SAVE_BUF s) (fp_registers s) (S6_CONT s) (CONT_ARM_COUNT s) (CONT_DISARM_COUNT s)
    (CONT_ESCAPE_COUNT s) x (CONT_RESUME_COUNT s) (CONT_FUTEX_ADDRS s)
    (CONT_FUTEX_CONTS s) (CONT_FUTEX_WAITER_COUNT s) (S7B_FD_REFS s) (S7B_FD_DROPPED s)
    (counter s) (timer s) (sgi_cont_wake s) (scratch_slot s) (abort_zone s)
    (last_stack_pointer s) (frames s).
Definition set_CONT_RESUME_COUNT (x : Z) (s : t) : t :=
  mk (CONT_NEXT s) (CONT_FREE_TOP s) (CONT_FREE_BUF s) (CONT_POOL s) (CURRENT_CONT s)
    (CONT_PENDING s) (CONT_SWITCH s) (CONT_TEARDOWN_HAPPENED s) (FP_SAVE_ACQUIRED s)
    (FP_SAVE_BUF s) (fp_registers s) (S6_CONT s) (CONT_ARM_COUNT s) (CONT_DISARM_COUNT s)
    (CONT_ESCAPE_COUNT s) (CONT_PARK_COUNT s) x (CONT_FUTEX_ADDRS s) (CONT_FUTEX_CONTS s)
    (CONT_FUTEX_WAITER_COUNT s) (S7B_FD_REFS s) (S7B_FD_DROPPED s) (counter s) (timer s)
    (sgi_cont_wake s) (scratch_slot s) (abort_zone s) (last_stack_pointer s) (frames s).
Definition set_CONT_FUTEX_ADDRS (x : list Z) (s : t) : t :=
  mk (CONT_NEXT s) (CONT_FREE_TOP s) (CONT_FREE_BUF s) (CONT_POOL s) (CURRENT_CONT s)
    (CONT_PENDING s) (CONT_SWITCH s) (CONT_TEARDOWN_HAPPENED s) (FP_SAVE_ACQUIRED s)
    (FP_SAVE_BUF s) (fp_registers s) (S6_CONT s) (CONT_ARM_COUNT s) (CONT_DISARM_COUNT s)
    (CONT_ESCAPE_COUNT s) (CONT_PARK_COUNT s) (CONT_RESUME_COUNT s) x (CONT_FUTEX_CONTS s)
    (CONT_FUTEX_WAITER_COUNT s) (S7B_FD_REFS s) (S7B_FD_DROPPED s) (counter s) (timer s)
    (sgi_cont_wake s) (scratch_slot s) (abort_zone s) (last_stack_pointer s) (frames s).
Definition set_CONT_FUTEX_CONTS (x : list (option nat)) (s : t) : t :=
  mk (CONT_NEXT s) (CONT_FREE_TOP s) (CONT_FREE_BUF s) (CONT_POOL s) (CURRENT_CONT s)
    (CONT_PENDING s) (CONT_SWITCH s) (CONT_TEARDOWN_HAPPENED s) (FP_SAVE_ACQUIRED s)
    (FP_SAVE_BUF s) (fp_registers s) (S6_CONT s) (CONT_ARM_COUNT s) (CONT_DISARM_COUNT s)
    (CONT_ESCAPE_COUNT s) (CONT_PARK_COUNT s) (CONT_RESUME_COUNT s) (CONT_FUTEX_ADDRS s) x
    (CONT_FUTEX_WAITER_COUNT s) (S7B_FD_REFS s) (S7B_FD_DROPPED s) (counter s) (timer s)
    (sgi_cont_wake s) (scratch_slot s) (abort_zone s) (last_stack_pointer s) (frames s).
Definition set_CONT_FUTEX_WAITER_COUNT (x : Z) (s : t) : t :=
  mk (CONT_NEXT s) (CONT_FREE_TOP s) (CONT_FREE_BUF s) (CONT_POOL s) (CURRENT_CONT s)
    (CONT_PENDING s) (CONT_SWITCH s) (CONT_TEARDOWN_HAPPENED s) (FP_SAVE_ACQUIRED s)
    (FP_SAVE_BUF s) (fp_registers s) (S6_CONT s) (CONT_ARM_COUNT s) (CONT_DISARM_COUNT s)
    (CONT_ESCAPE_COUNT s) (CONT_PARK_COUNT s) (CONT_RESUME_COUNT s) (CONT_FUTEX_ADDRS s)
    (CONT_FUTEX_CONTS s) x (S7B_FD_REFS s) (S7B_FD_DROPPED s) (counter s) (timer s)
    (sgi_cont_wake s) (scratch_slot s) (abort_zone s) (last_stack_pointer s) (frames s).
Definition set_S7B_FD_REFS (x : Z) (s : t) : t :=
  mk (CONT_NEXT s) (CONT_FREE_TOP s) (CONT_FREE_BUF s) (CONT_POOL s) (CURRENT_CONT s)
    (CONT_PENDING s) (CONT_SWITCH s) (CONT_TEARDOWN_HAPPENED s) (FP_SAVE_ACQUIRED s)
    (FP_SAVE_BUF s) (fp_registers s) (S6_CONT s) (CONT_ARM_COUNT s) (CONT_DISARM_COUNT s)
    (CONT_ESCAPE_COUNT s) (CONT_PARK_COUNT s) (CONT_RESUME_COUNT s) (CONT_FUTEX_ADDRS s)
    (CONT_FUTEX_CONTS s) (CONT_FUTEX_WAITER_COUNT s) x (S7B_FD_DROPPED s) (counter s)
    (timer s) (sgi_cont_wake s) (scratch_slot s) (abort_zone s) (last_stack_pointer s)
    (frames s).
Definition set_S7B_FD_DROPPED (x : Z) (s : t) : t :=
  mk (CONT_NEXT s) (CONT_FREE_TOP s) (CONT_FREE_BUF s) (CONT_POOL s) (CURRENT_CONT s)
    (CONT_PENDING s) (CONT_SWITCH s) (CONT_TEARDOWN_HAPPENED s) (FP_SAVE_ACQUIRED s)
    (FP_SAVE_BUF s) (fp_registers s) (S6_CONT s) (CONT_ARM_COUNT s) (CONT_DISARM_COUNT s)
    (CONT_ESCAPE_COUNT s) (CONT_PARK_COUNT s) (CONT_RESUME_COUNT s) (CONT_FUTEX_ADDRS s)
    (CONT_FUTEX_CONTS s) (CONT_FUTEX_WAITER_COUNT s) (S7B_FD_REFS s) x (counter s)
    (timer s) (sgi_cont_wake s) (scratch_slot s) (abort_zone s) (last_stack_pointer s)
    (frames s).
Definition set_counter (x : Z) (s : t) : t :=
  mk (CONT_NEXT s) (CONT_FREE_TOP s) (CONT_FREE_BUF s) (CONT_POOL s) (CURRENT_CONT s)
    (CONT_PENDING s) (CONT_SWITCH s) (CONT_TEARDOWN_HAPPENED s) (FP_SAVE_ACQUIRED s)
    (FP_SAVE_BUF s) (fp_registers s) (S6_CONT s) (CONT_ARM_COUNT s) (CONT_DISARM_COUNT s)
    (CONT_ESCAPE_COUNT s) (CONT_PARK_COUNT s) (CONT_RESUME_COUNT s) (CONT_FUTEX_ADDRS s)
    (CONT_FUTEX_CONTS s) (CONT_FUTEX_WAITER_COUNT s) (S7B_FD_REFS s) (S7B_FD_DROPPED s) x
    (timer s) (sgi_cont_wake s) (scratch_slot s) (abort_zone s) (last_stack_pointer s)
    (frames s).
Definition set_timer (x : option Z) (s : t) : t :=
  mk (CONT_NEXT s) (CONT_FREE_TOP s) (CONT_FREE_BUF s) (CONT_POOL s) (CURRENT_CONT s)
    (CONT_PENDING s) (CONT_SWITCH s) (CONT_TEARDOWN_HAPPENED s) (FP_SAVE_ACQUIRED s)
    (FP_SAVE_BUF s) (fp_registers s) (S6_CONT s) (CONT_ARM_COUNT s) (CONT_DISARM_COUNT s)
    (CONT_ESCAPE_COUNT s) (CONT_PARK_COUNT s) (CONT_RESUME_COUNT s) (CONT_FUTEX_ADDRS s)
    (CONT_FUTEX_CONTS s) (CONT_FUTEX_WAITER_COUNT s) (S7B_FD_REFS s) (S7B_FD_DROPPED s)
    (counter s) x (sgi_cont_wake s) (scratch_slot s) (abort_zone s) (last_stack_pointer s)
    (frames s).
Definition set_sgi_cont_wake (x : bool) (s : t) : t :=
  mk (CONT_NEXT s) (CONT_FREE_TOP s) (CONT_FREE_BUF s) (CONT_POOL s) (CURRENT_CONT s)
    (CONT_PENDING s) (CONT_SWITCH s) (CONT_TEARDOWN_HAPPENED s) (FP_SAVE_ACQUIRED s)
    (FP_SAVE_BUF s) (fp_registers s) (S6_CONT s) (CONT_ARM_COUNT s) (CONT_DISARM_COUNT s)
    (CONT_ESCAPE_COUNT s) (CONT_PARK_COUNT s) (CONT_RESUME_COUNT s) (CONT_FUTEX_ADDRS s)
    (CONT_FUTEX_CONTS s) (CONT_FUTEX_WAITER_COUNT s) (S7B_FD_REFS s) (S7B_FD_DROPPED s)
    (counter s) (timer s) x (scratch_slot s) (abort_zone s) (last_stack_pointer s)
    (frames s).
Definition set_scratch_slot (x : Z) (s : t) : t :=
  mk (CONT_NEXT s) (CONT_FREE_TOP s) (CONT_FREE_BUF s) (CONT_POOL s) (CURRENT_CONT s)
    (CONT_PENDING s) (CONT_SWITCH s) (CONT_TEARDOWN_HAPPENED s) (FP_SAVE_ACQUIRED s)
    (FP_SAVE_BUF s) (fp_registers s) (S6_CONT s) (CONT_ARM_COUNT s) (CONT_DISARM_COUNT s)
    (CONT_ESCAPE_COUNT s) (CONT_PARK_COUNT s) (CONT_RESUME_COUNT s) (CONT_FUTEX_ADDRS s)
    (CONT_FUTEX_CONTS s) (CONT_FUTEX_WAITER_COUNT s) (S7B_FD_REFS s) (S7B_FD_DROPPED s)
    (counter s) (timer s) (sgi_cont_wake s) x (abort_zone s) (last_stack_pointer s)
    (frames s).
Definition set_abort_zone (x : bool) (s : t) : t :=
  mk (CONT_NEXT s) (CONT_FREE_TOP s) (CONT_FREE_BUF s) (CONT_POOL s) (CURRENT_CONT s)
    (CONT_PENDING s) (CONT_SWITCH s) (CONT_TEARDOWN_HAPPENED s) (FP_SAVE_ACQUIRED s)
    (FP_SAVE_BUF s) (fp_registers s) (S6_CONT s) (CONT_ARM_COUNT s) (CONT_DISARM_COUNT s)
    (CONT_ESCAPE_COUNT s) (CONT_PARK_COUNT s) (CONT_RESUME_COUNT s) (CONT_FUTEX_ADDRS s)
    (CONT_FUTEX_CONTS s) (CONT_FUTEX_WAITER_COUNT s) (S7B_FD_REFS s) (S7B_FD_DROPPED s)
    (counter s) (timer s) (sgi_cont_wake s) (scratch_slot s) x (last_stack_pointer s)
    (frames s).
Definition set_last_stack_pointer (x : Z) (s : t) : t :=
  mk (CONT_NEXT s) (CONT_FREE_TOP s) (CONT_FREE_BUF s) (CONT_POOL s) (CURRENT_CONT s)
    (CONT_PENDING s) (CONT_SWITCH s) (CONT_TEARDOWN_HAPPENED s) (FP_SAVE_ACQUIRED s)
    (FP_SAVE_BUF s) (fp_registers s) (S6_CONT s) (CONT_ARM_COUNT s) (CONT_DISARM_COUNT s)
    (CONT_ESCAPE_COUNT s) (CONT_PARK_COUNT s) (CONT_RESUME_COUNT s) (CONT_FUTEX_ADDRS s)
    (CONT_FUTEX_CONTS s) (CONT_FUTEX_WAITER_COUNT s) (S7B_FD_REFS s) (S7B_FD_DROPPED s)
    (counter s) (timer s) (sgi_cont_wake s) (scratch_slot s) (abort_zone s) x (frames s).
Definition set_frames (x : Z -> State) (s : t) : t :=
  mk (CONT_NEXT s) (CONT_FREE_TOP s) (CONT_FREE_BUF s) (CONT_POOL s) (CURRENT_CONT s)
    (CONT_PENDING s) (CONT_SWITCH s) (CONT_TEARDOWN_HAPPENED s) (FP_SAVE_ACQUIRED s)
    (FP_SAVE_BUF s) (fp_registers s) (S6_CONT s) (CONT_ARM_COUNT s) (CONT_DISARM_COUNT s)
    (CONT_ESCAPE_COUNT s) (CONT_PARK_COUNT s) (CONT_RESUME_COUNT s) (CONT_FUTEX_ADDRS s)
    (CONT_FUTEX_CONTS s) (CONT_FUTEX_WAITER_COUNT s) (S7B_FD_REFS s) (S7B_FD_DROPPED s)
    (counter s) (timer s) (sgi_cont_wake s) (scratch_slot s) (abort_zone s)
    (last_stack_pointer s) x.

(** Addresses fixed by the linker and by the core the code runs on. *)
Class Layout : Type := {
  core_id : Z;
  start_cont_stacks : Z; (** [__start_cont_stacks] *)
  start_cont_slots : Z; (** [__start_cont_slots] *)
  escape_buf : nat -> Z; (** [CONT_POOL[i].escape_buf] *)
  DUMMY_SAVE : Z;
  exception_sp : Z; (** [CoreLocal.exception_sp], the top of the exception stack *)
  dummy_entry : Z;
  quantum_harness_entry : Z;
}.

Section Ops.
Context `{Layout}.

Definition new : Cont :=
  mkCont 0 0 0 C_FREE false dummy_entry 0 0 0 false 0 0 None.

(** *** Access to the pool and the counters *)

Definition cont (i : nat) : M t Cont :=
  let! pool := gets CONT_POOL in
  unwrap (pool !! i) "index out of bounds".

Definition on_cont (i : nat) (f : Cont -> Cont) : M t unit :=
  modify (fun s => set_CONT_POOL (alter f i (CONT_POOL s)) s).

Definition is_S6 (i : nat) : M t bool :=
  gets (fun s => bool_decide (S6_CONT s = Some i)).

Definition current (why : string) : M t nat :=
  let! o := gets CURRENT_CONT in unwrap o why.

(** *** The FP save slot *)

Definition acquire_fp_save : M t unit :=
  let! held := gets FP_SAVE_ACQUIRED in
  do! modify (set_FP_SAVE_ACQUIRED true) in
  assert_ (negb held) "O4: FP save pool already acquired (double escape)".

Definition release_fp_save : M t unit :=
  let! held := gets FP_SAVE_ACQUIRED in
  do! modify (set_FP_SAVE_ACQUIRED false) in
  assert_ held "O4: FP save pool released without being acquired".

Definition save_fp : M t unit := modify (fun s => set_FP_SAVE_BUF (fp_registers s) s).
Definition restore_fp : M t unit := modify (fun s => set_fp_registers (FP_SAVE_BUF s) s).

(** *** The quantum *)

Definition arm_quantum_for_running (i : nat) : M t unit :=
  let! start := gets counter in
  let deadline := sat_add u64_max start QUANTUM_CYCLES in
  do! on_cont i (set_quantum_armed true) in
  do! modify (set_timer (Some deadline)) in
  let! s6 := is_S6 i in
  if s6 then modify (fun s => set_CONT_ARM_COUNT (wrapu 32 (CONT_ARM_COUNT s + 1)) s)
  else ret tt.

Definition disarm_quantum (i : nat) : M t unit :=
  let! c := cont i in
  do! on_cont i (set_quantum_armed false) in
  if quantum_armed c then
    do! modify (set_timer None) in
    let! s6 := is_S6 i in
    if s6 then modify (fun s => set_CONT_DISARM_COUNT (wrapu 32 (CONT_DISARM_COUNT s + 1)) s)
    else ret tt
  else ret tt.

Definition current_quantum_armed : M t bool :=
  let! cur := gets CURRENT_CONT in
  match cur with
  | None => ret false
  | Some i => let! c := cont i in ret (quantum_armed c)
  end.

(** *** The pool *)

Definition alloc_cont : M t nat :=
  let! top := gets CONT_FREE_TOP in
  let! i :=
    if (0 <? top)%nat then
      do! modify (set_CONT_FREE_TOP (top - 1)) in
      let! buf := gets CONT_FREE_BUF in
      unwrap (buf !! (top - 1)%nat) "index out of bounds"
    else
      let! n := gets CONT_NEXT in
      do! assert_ (n <? MAX_CONTINUATIONS)%nat "continuation pool exhausted" in
      do! modify (set_CONT_NEXT (n + 1)) in
      ret n in
  let! c := cont i in
  do! assert_ (bool_decide (state c = C_FREE)) "alloc_cont returned a LIVE record" in
  ret i.

Definition free_cont (i : nat) : M t unit :=
  let! top := gets CONT_FREE_TOP in
  do! assert_ (top <? MAX_CONTINUATIONS)%nat "continuation free-list overflow" in
  do! modify (fun s => set_CONT_FREE_BUF (<[top := i]> (CONT_FREE_BUF s)) s) in
  do! modify (set_CONT_FREE_TOP (top + 1)) in
  do! disarm_quantum i in
  on_cont i (fun c =>
    set_resumer_slot 0 (set_slot_top 0 (set_resumer_frame 0
      (set_escape_frame 0 (set_state_frame 0 (set_state C_FREE c)))))).

Definition is_in_continuation : M t bool :=
  gets (fun s => match CURRENT_CONT s with Some _ => true | None => false end).

(** *** Frames and switching *)

Definition cont_stack_top (core : Z) (i : nat) : Z :=
  let base := start_cont_stacks in
  let stride := Z.of_nat MAX_CONTINUATIONS * (CONT_STACK_SIZE + CONT_GUARD) in
  let elem := CONT_STACK_SIZE + CONT_GUARD in
  base + core * stride + Z.of_nat i * elem + CONT_STACK_SIZE.

Definition cont_slot_top (core : Z) (i : nat) : Z :=
  let base := start_cont_slots in
  let stride := Z.of_nat MAX_CONTINUATIONS * (CONT_SLOT_SIZE + CONT_SLOT_GUARD) in
  let elem := CONT_SLOT_SIZE + CONT_SLOT_GUARD in
  base + core * stride + Z.of_nat i * elem + CONT_SLOT_SIZE.

Definition build_frame (core : Z) (i : nat) : M t unit :=
  let! c := cont i in
  let stack_top := cont_stack_top core i in
  let frame := stack_top - STATE_SIZE in
  do! on_cont i (fun c => set_slot_top (cont_slot_top core i) (set_state_frame frame c)) in
  modify (fun s => set_frames (<[frame :=
    mkState 0 (entry c) 0x3c4 (stack_top - STATE_SIZE - 16) (tls c) (repeat 0 31)]> (frames s)) s).

(** The switch: the caller's context goes to [CONT_SWITCH.save], the context
    found at [CONT_SWITCH.target] runs next. *)
Definition cont_switch (here : State) : M t State :=
  do! modify (fun s => set_frames (<[save (CONT_SWITCH s) := here]> (frames s)) s) in
  do! modify (fun s => let k := CONT_SWITCH s in
    set_CONT_SWITCH (mkSwitch (save k) (target k) (target_slot k) (target k)) s) in
  do! modify (fun s => set_scratch_slot (target_slot (CONT_SWITCH s)) s) in
  gets (fun s => frames s (target (CONT_SWITCH s))).

Definition switch (k : ContSwitch) : M t unit := modify (set_CONT_SWITCH k).

(** The resumer of a continuation that is about to run. *)
Definition resumer : M t (Z * Z) :=
  let! cur := gets CURRENT_CONT in
  match cur with
  | None => ret (exception_sp - STATE_SIZE, exception_sp)
  | Some _ =>
      let! task_frame := gets last_stack_pointer in
      let! slot := gets scratch_slot in
      ret (task_frame, slot)
  end.

(** The first half of a spawn: the record and its frame are filled in. *)
Definition fill_record (i : nat) (entry func arg fd : Z) : M t unit :=
  let fd := if fd <? 0 then None else Some fd in
  do! on_cont i (fun c =>
    set_owned_fd fd (set_user_arg arg (set_user_func func
      (set_tls CONT_TLS_MAGIC (set_entry entry c))))) in
  do! (match fd with
       | Some _ => modify (fun s => set_S7B_FD_REFS (wrapu 32 (S7B_FD_REFS s + 1)) s)
       | None => ret tt
       end) in
  do! (if entry =? quantum_harness_entry then modify (set_S6_CONT (Some i)) else ret tt) in
  build_frame core_id i.

(** The second half: the record becomes current and runs. *)
Definition start_record (i : nat) (here : State) : M t (option State) :=
  do! on_cont i (set_escape_frame (escape_buf i)) in
  do! on_cont i (set_state C_READY) in
  let! '(frame, slot) := resumer in
  do! on_cont i (fun c => set_resumer_slot slot (set_resumer_frame frame c)) in
  do! modify (set_CURRENT_CONT (Some i)) in
  do! arm_quantum_for_running i in
  let! c := cont i in
  do! switch (mkSwitch frame (state_frame c) (slot_top c) (state_frame c)) in
  let! f := cont_switch here in
  ret (Some f).

(** [boot_ready] is [assert_continuations_boot_ready]. *)
Definition spawn_continuation (boot_ready : bool) (entry func arg owned_fd : Z) (here : State)
  : M t (option State) :=
  do! assert_ boot_ready "boot not complete" in
  let! i := alloc_cont in
  do! assert_ (i <? MAX_CONTINUATIONS)%nat "continuation pool exhausted" in
  do! fill_record i entry func arg owned_fd in
  start_record i here.

(** *** Parking *)

Definition park_with_pend (pend : bool) (here : State) : M t (option State) :=
  let! i := current "park_on outside any continuation" in
  do! disarm_quantum i in
  let! c := cont i in
  do! on_cont i (set_pending_wake false) in
  if pending_wake c then ret None
  else
    do! on_cont i (set_state C_PARKED) in
    do! (if pend then
           do! modify (set_CONT_PENDING (Some i)) in
           modify (set_sgi_cont_wake true)
         else ret tt) in
    do! switch (mkSwitch (state_frame c) (resumer_frame c) (resumer_slot c) (resumer_frame c)) in
    do! modify (set_CURRENT_CONT None) in
    let! f := cont_switch here in
    ret (Some f).

Definition park_on : State -> M t (option State) := park_with_pend true.
Definition park_final : State -> M t (option State) := park_with_pend false.

Definition park_external (count_stats : bool) (here : State) : M t (option State) :=
  let! i := current "park_for_external_wake outside any continuation" in
  do! disarm_quantum i in
  let! c := cont i in
  do! on_cont i (set_pending_wake false) in
  if pending_wake c then ret None
  else
    do! on_cont i (set_state C_PARKED) in
    do! modify (set_CONT_PENDING (Some i)) in
    do! (if count_stats then
           modify (fun s => set_CONT_PARK_COUNT (wrapu 32 (CONT_PARK_COUNT s + 1)) s)
         else ret tt) in
    do! switch (mkSwitch (state_frame c) (resumer_frame c) (resumer_slot c) (resumer_frame c)) in
    do! modify (set_CURRENT_CONT None) in
    let! f := cont_switch here in
    ret (Some f).

Definition park_for_external_wake : State -> M t (option State) := park_external true.

(** *** Teardown *)

Definition continuation_teardown (here : State) : M t (option State) :=
  let! i := current "continuation_teardown outside any continuation" in
  let! c := cont i in
  let was_armed := quantum_armed c in
  do! disarm_quantum i in
  let! s6 := is_S6 i in
  do! (if s6 && negb was_armed then
         modify (fun s => set_CONT_DISARM_COUNT (wrapu 32 (CONT_DISARM_COUNT s + 1)) s)
       else ret tt) in
  do! modify (set_scratch_slot 0) in
  do! modify (set_abort_zone true) in
  do! (match owned_fd c with
       | Some _ =>
           do! modify (fun s => set_S7B_FD_REFS (wrapu 32 (S7B_FD_REFS s - 1)) s) in
           modify (fun s => set_S7B_FD_DROPPED (wrapu 32 (S7B_FD_DROPPED s + 1)) s)
       | None => ret tt
       end) in
  do! modify (set_abort_zone false) in
  do! free_cont i in
  do! modify (set_CURRENT_CONT None) in
  do! on_cont i (set_state C_FREE) in
  do! modify (set_CONT_TEARDOWN_HAPPENED true) in
  do! switch (mkSwitch (state_frame c) (resumer_frame c) (resumer_slot c) (resumer_frame c)) in
  let! f := cont_switch here in
  ret (Some f).

Definition continuation_reaped : M t bool :=
  let! r := gets CONT_TEARDOWN_HAPPENED in
  do! modify (set_CONT_TEARDOWN_HAPPENED false) in
  ret r.

(** *** Waking *)

Definition mark_ready (i : nat) : M t unit :=
  on_cont i (fun c => set_state C_READY (set_pending_wake true c)).

Definition coop_wake : M t unit :=
  let! p := gets CONT_PENDING in
  match p with Some i => mark_ready i | None => ret tt end.

(** *** Escapes *)

Definition quantum_escape : M t bool :=
  let! cur := gets CURRENT_CONT in
  match cur with
  | None => ret false
  | Some i =>
      let! c := cont i in
      if negb (quantum_armed c) then ret false
      else
        let frame_src := slot_top c - STATE_SIZE in
        do! modify (fun s => set_frames (<[escape_frame c := frames s frame_src]> (frames s)) s) in
        do! acquire_fp_save in
        do! save_fp in
        do! on_cont i (set_quantum_armed false) in
        do! on_cont i (set_state C_ESCAPED) in
        do! modify (set_CONT_PENDING (Some i)) in
        do! modify (fun s => set_CONT_ESCAPE_COUNT (wrapu 32 (CONT_ESCAPE_COUNT s + 1)) s) in
        do! modify (fun s => set_CONT_DISARM_COUNT (wrapu 32 (CONT_DISARM_COUNT s + 1)) s) in
        ret true
  end.

Definition quantum_yield_to_drain (here : State) : M t (option State) :=
  let! i := current "quantum_yield outside any continuation" in
  let! c := cont i in
  do! switch (mkSwitch DUMMY_SAVE (resumer_frame c) (resumer_slot c) (resumer_frame c)) in
  do! modify (set_CURRENT_CONT None) in
  do! modify (set_scratch_slot 0) in
  let! f := cont_switch here in
  ret (Some f).

Definition continuation_self_escape (here : State) : M t (option State) :=
  let! cur := gets CURRENT_CONT in
  match cur with
  | None => ret None
  | Some i =>
      let! c := cont i in
      if negb (quantum_armed c) then ret None
      else
        do! switch (mkSwitch (escape_frame c) (resumer_frame c) (resumer_slot c)
                      (resumer_frame c)) in
        do! acquire_fp_save in
        do! save_fp in
        do! on_cont i (set_quantum_armed false) in
        do! on_cont i (set_state C_ESCAPED) in
        do! modify (set_CONT_PENDING (Some i)) in
        let! s6 := is_S6 i in
        do! (if s6 then
               modify (fun s => set_CONT_ESCAPE_COUNT (wrapu 32 (CONT_ESCAPE_COUNT s + 1)) s)
             else ret tt) in
        do! modify (set_CURRENT_CONT None) in
        do! modify (set_scratch_slot 0) in
        let! f := cont_switch here in
        ret (Some f)
  end.

(** *** The drain *)

Definition runnable (c : Cont) : bool :=
  bool_decide (state c = C_READY) || bool_decide (state c = C_ESCAPED).

(** The scan of the pool: the first record that satisfies [f]. *)
Definition scan (f : Cont -> bool) (pool : list Cont) : option nat :=
  fst <$> list_find (fun c => f c = true) pool.

Definition drain_resolve_ready : M t (option nat) :=
  let! pool := gets CONT_POOL in
  let! pending := gets CONT_PENDING in
  match pending with
  | Some i =>
      let! c := cont i in
      if runnable c then ret (Some i) else ret (scan runnable pool)
  | None => ret (scan runnable pool)
  end.

Definition has_pending_cont : M t bool :=
  let! pool := gets CONT_POOL in
  ret (existsb (fun c => bool_decide (state c = C_READY)) pool).

Definition drain_ready (here : State) : M t (option State) :=
  let! pending := drain_resolve_ready in
  match pending with
  | None => ret None
  | Some i =>
      let! c := cont i in
      do! on_cont i (set_pending_wake false) in
      let! '(frame, slot) := resumer in
      let escaped := bool_decide (state c = C_ESCAPED) in
      let tgt := if escaped then escape_frame c else state_frame c in
      do! on_cont i (fun c => set_resumer_slot slot (set_resumer_frame frame c)) in
      do! switch (mkSwitch frame tgt (slot_top c) tgt) in
      do! on_cont i (set_state C_RUNNING) in
      do! modify (set_CONT_PENDING None) in
      do! modify (set_CURRENT_CONT (Some i)) in
      do! arm_quantum_for_running i in
      do! (if escaped then do! restore_fp in release_fp_save else ret tt) in
      let! f := cont_switch here in
      ret (Some f)
  end.

(** *** The futex table of continuations *)

Definition register_futex_wait (addr : Z) (i : nat) : M t nat :=
  let! addrs := gets CONT_FUTEX_ADDRS in
  match list_find (fun a => a = 0) addrs with
  | Some (slot, _) =>
      do! modify (fun s => set_CONT_FUTEX_ADDRS (<[slot := addr]> (CONT_FUTEX_ADDRS s)) s) in
      do! modify (fun s => set_CONT_FUTEX_CONTS (<[slot := Some i]> (CONT_FUTEX_CONTS s)) s) in
      do! modify (fun s =>
        set_CONT_FUTEX_WAITER_COUNT (wrapu 32 (CONT_FUTEX_WAITER_COUNT s + 1)) s) in
      ret slot
  | None => ret MAX_FUTEX_WAITERS
  end.

Definition clear_futex_slot (slot : nat) : M t unit :=
  if (slot <? MAX_FUTEX_WAITERS)%nat then
    let! addrs := gets CONT_FUTEX_ADDRS in
    let! old := unwrap (addrs !! slot) "index out of bounds" in
    do! modify (set_CONT_FUTEX_ADDRS (<[slot := 0]> addrs)) in
    if old =? 0 then ret tt
    else
      do! modify (fun s => set_CONT_FUTEX_CONTS (<[slot := None]> (CONT_FUTEX_CONTS s)) s) in
      modify (fun s => set_CONT_FUTEX_WAITER_COUNT (wrapu 32 (CONT_FUTEX_WAITER_COUNT s - 1)) s)
  else ret tt.

(** The outcome of entering [cont_futex_wait]: it answers at once, or the
    continuation has registered in a slot and parked (the switch to [f]) or
    consumed a wake ([None]); the code after the park is
    [cont_futex_wait_resumed]. *)
Inductive wait_entry : Type :=
  | WAnswer (r : Z)
  | WParked (slot : nat) (f : option State).

(** [word] is the value of the futex word, [addr] its address. *)
Definition cont_futex_wait (addr word expected : Z) (here : State) : M t wait_entry :=
  let! i := current "cont_futex_wait outside any continuation" in
  if negb (word =? expected) then ret (WAnswer (- Errno.into_i32 Errno.Again))
  else
    let! slot := register_futex_wait addr i in
    if (MAX_FUTEX_WAITERS <=? slot)%nat then ret (WAnswer (- Errno.into_i32 Errno.Again))
    else
      let! f := park_external false here in
      ret (WParked slot f).

Definition cont_futex_wait_resumed (slot : nat) : M t Z :=
  do! clear_futex_slot slot in ret 0.

(** The loop of [cont_futex_wake] over the slots from [k] on; [n] slots are
    left. *)
Fixpoint futex_wake_loop (n k : nat) (addr max_wake woken : Z) (last : option nat)
  : M t (Z * option nat) :=
  match n with
  | O => ret (woken, last)
  | S n' =>
      if max_wake <=? woken then ret (woken, last)
      else
        let! addrs := gets CONT_FUTEX_ADDRS in
        let! slot_addr := unwrap (addrs !! k) "index out of bounds" in
        if (slot_addr =? 0) || negb (slot_addr =? addr) then
          futex_wake_loop n' (S k) addr max_wake woken last
        else
          do! modify (set_CONT_FUTEX_ADDRS (<[k := 0]> addrs)) in
          let! conts := gets CONT_FUTEX_CONTS in
          let! cp := unwrap (conts !! k) "index out of bounds" in
          do! modify (set_CONT_FUTEX_CONTS (<[k := None]> conts)) in
          match cp with
          | Some i =>
              do! mark_ready i in
              futex_wake_loop n' (S k) addr max_wake (woken + 1) (Some i)
          | None => futex_wake_loop n' (S k) addr max_wake woken last
          end
  end.

Definition cont_futex_wake (addr count : Z) : M t Z :=
  if count <? 0 then ret (- Errno.into_i32 Errno.Inval)
  else if count =? 0 then ret 0
  else
    let max_wake := if count =? i32_max then Z.of_nat MAX_FUTEX_WAITERS else count in
    let! '(woken, last) := futex_wake_loop MAX_FUTEX_WAITERS 0 addr max_wake 0 None in
    do! modify (fun s =>
      set_CONT_FUTEX_WAITER_COUNT (wrapu 32 (CONT_FUTEX_WAITER_COUNT s - woken)) s) in
    do! (match last with
         | Some i => modify (set_CONT_PENDING (Some i))
         | None => ret tt
         end) in
    ret woken.

(** *** Blocking on a future

    [block_on_cont] polls the future; a round ends with its answer or with a
    park, after which the round starts again. *)
Definition block_on_round {F T} (poll : F -> F * option T) (future : F) (here : State)
  : M t (F * T + F * option State) :=
  match poll future with
  | (future', Some r) => ret (inl (future', r))
  | (future', None) =>
      let! f := park_for_external_wake here in
      ret (inr (future', f))
  end.

Definition block_on_resumed : M t unit :=
  modify (fun s => set_CONT_RESUME_COUNT (wrapu 32 (CONT_RESUME_COUNT s + 1)) s).

(** Boot: nothing allocated, no continuation running or pending. *)
Definition init (fs : Z -> State) (fp : fpregs) (slot lsp : Z) : t :=
  mk 0 0 (repeat 0%nat MAX_CONTINUATIONS) (repeat new MAX_CONTINUATIONS) None None
    (mkSwitch 0 0 0 0) false false fp fp None 0 0 0 0 0
    (repeat 0 MAX_FUTEX_WAITERS) (repeat None MAX_FUTEX_WAITERS) 0 0 0 0 None false slot false lsp fs.

End Ops.
End Continuations.
