(* ===== verification/ContInv.v ===== *)
(** The invariant of the continuation pool and its refinement of an abstract
    machine of coroutines; [ContRuns] says what each operation does.

    The code that runs is explicit: either the drain runs ([CURRENT_CONT] is
    null) or one continuation does.  [step] lists what each of them, and the
    interrupt that wakes, may do next.  The program counter inside
    [cont_futex_wait] is kept beside the state: [w !! i = Some k] when
    continuation [i] has registered in slot [k] and has not yet run the code
    that follows its park. *)

From S2P Require Import Prelude Errors Continuations.
From stdpp Require Import functions.
Open Scope Z_scope.

(** ** What each operation does: one outcome lemma per operation *)

Module ContRuns.
Import Continuations.

(** ** The part of the state the pool's correctness rests on *)

Record view : Type := mkView {
  v_next : nat; v_top : nat; v_buf : list nat; v_pool : list Cont;
  v_cur : option nat; v_pend : option nat;
  v_acq : bool; v_save : AlignedFpSaveBuf; v_fp : AlignedFpSaveBuf;
  v_addrs : list Z; v_conts : list (option nat); v_frames : Z -> State;
}.

Definition view_of (s : t) : view :=
  mkView (CONT_NEXT s) (CONT_FREE_TOP s) (CONT_FREE_BUF s) (CONT_POOL s)
    (CURRENT_CONT s) (CONT_PENDING s) (FP_SAVE_ACQUIRED s) (FP_SAVE_BUF s) (fp_registers s)
    (CONT_FUTEX_ADDRS s) (CONT_FUTEX_CONTS s) (frames s).

(** The outcome of an operation, seen through the view. *)
Definition runs {A} (m : M t A) (s : t) (r : A) (v : view) : Prop :=
  exists s', m s = Done r s' /\ view_of s' = v.

(** Two updates of one element are one. *)
Lemma alter_twice {A} (f g : A -> A) i (l : list A) :
  alter f i (alter g i l) = alter (fun x => f (g x)) i l.
Proof. revert i. induction l as [|a l IH]; intros [|i]; try done. exact (f_equal (cons a) (IH i)). Qed.

Section Runs.
Context `{Layout}.

Definition state_frame_of (i : nat) : Z := cont_stack_top core_id i - STATE_SIZE.
Definition drain_frame : Z := exception_sp - STATE_SIZE.

Definition first_context (i : nat) (entry : Z) : State :=
  mkState 0 entry 0x3c4 (state_frame_of i - 16) CONT_TLS_MAGIC (repeat 0 31).

Ltac sx1 :=
  match goal with
  | H : ?l !! ?i = Some _ |- context [?l !! ?i] => rewrite H
  | |- context [alter _ ?i ?l !! ?i] => rewrite list_lookup_alter_eq
  | H : ?b = true |- context [if ?b then _ else _] => rewrite H
  | H : ?b = false |- context [if ?b then _ else _] => rewrite H
  | H : ?b = _ |- context [negb ?b] => rewrite H
  | H : owned_fd ?c = _ |- context [owned_fd ?c] => rewrite H
  | H : ?a = ?b |- context [bool_decide (?a = ?b)] => rewrite (bool_decide_eq_true_2 _ H)
  | H : ?a <> ?b |- context [bool_decide (?a = ?b)] => rewrite (bool_decide_eq_false_2 _ H)
  | |- context [bool_decide (?a = ?b)] =>
      let E := fresh "E" in destruct (decide (a = b)) as [E|E];
      [rewrite (bool_decide_eq_true_2 _ E)|rewrite (bool_decide_eq_false_2 _ E)]
  end.
Ltac sx :=
  cbv [bind gets modify ret panic assert_ unwrap cont on_cont is_S6 current switch cont_switch
       resumer acquire_fp_save release_fp_save save_fp restore_fp];
  repeat (progress (cbn -[lookup alter insert Nat.ltb]) || sx1).
(** Two alterations of one record are one. *)
Ltac fold_alter := rewrite ?alter_twice; cbn beta.

(** Continuation [i], running, leaves: its record becomes [f c], its context
    goes to [save]. *)
Definition leave (v : view) (i : nat) (f : Cont -> Cont) (pend : option nat) (save : Z)
  (here : State) : view :=
  mkView (v_next v) (v_top v) (v_buf v) (alter f i (v_pool v)) None pend
    (v_acq v) (v_save v) (v_fp v) (v_addrs v) (v_conts v) (<[save := here]> (v_frames v)).

(** Continuation [i] starts to run and the drain's context is saved. *)
Definition enter (v : view) (i : nat) (f : Cont -> Cont) (pend : option nat) (acq : bool)
  (fp : AlignedFpSaveBuf) (fs : Z -> State) : view :=
  mkView (v_next v) (v_top v) (v_buf v) (alter f i (v_pool v)) (Some i) pend
    acq (v_save v) fp (v_addrs v) (v_conts v) fs.

Definition parked (c : Cont) : Cont :=
  set_state C_PARKED (set_pending_wake false (set_quantum_armed false c)).
Definition escaped (c : Cont) : Cont := set_state C_ESCAPED (set_quantum_armed false c).
Definition woken (c : Cont) : Cont := set_state C_READY (set_pending_wake true c).
Definition resumed (c : Cont) : Cont :=
  set_quantum_armed true (set_state C_RUNNING
    (set_resumer_slot exception_sp (set_resumer_frame drain_frame (set_pending_wake false c)))).
Definition freed (c : Cont) : Cont :=
  set_state C_FREE (set_resumer_slot 0 (set_slot_top 0 (set_resumer_frame 0
    (set_escape_frame 0 (set_state_frame 0 (set_state C_FREE (set_quantum_armed false c))))))).

Ltac finish_run :=
  eexists; split; [reflexivity|];
  unfold view_of, leave, enter; cbn -[lookup alter insert Nat.ltb]; fold_alter; reflexivity.

Lemma park_with_pend_run pend here s i c :
  CURRENT_CONT s = Some i -> CONT_POOL s !! i = Some c -> pending_wake c = false ->
  runs (park_with_pend pend here) s
    (Some ((<[state_frame c := here]> (frames s)) (resumer_frame c)))
    (leave (view_of s) i parked (if pend then Some i else CONT_PENDING s) (state_frame c) here).
Proof.
  intros Hcur Hc Hp. unfold runs, park_with_pend, disarm_quantum. destruct s; cbn in *; subst.
  destruct (quantum_armed c) eqn:Eq, pend; sx; finish_run.
Qed.

Lemma park_external_run stats here s i c :
  CURRENT_CONT s = Some i -> CONT_POOL s !! i = Some c -> pending_wake c = false ->
  runs (park_external stats here) s
    (Some ((<[state_frame c := here]> (frames s)) (resumer_frame c)))
    (leave (view_of s) i parked (Some i) (state_frame c) here).
Proof.
  intros Hcur Hc Hp. unfold runs, park_external, disarm_quantum. destruct s; cbn in *; subst.
  destruct (quantum_armed c) eqn:Eq, stats; sx; finish_run.
Qed.

Lemma self_escape_run here s i c :
  CURRENT_CONT s = Some i -> CONT_POOL s !! i = Some c -> quantum_armed c = true ->
  FP_SAVE_ACQUIRED s = false ->
  runs (continuation_self_escape here) s
    (Some ((<[escape_frame c := here]> (frames s)) (resumer_frame c)))
    (let v := view_of s in
     leave (mkView (v_next v) (v_top v) (v_buf v) (v_pool v) (v_cur v) (v_pend v) true (v_fp v)
              (v_fp v) (v_addrs v) (v_conts v) (v_frames v))
       i escaped (Some i) (escape_frame c) here).
Proof.
  intros Hcur Hc Hq Ha. unfold runs, continuation_self_escape. destruct s; cbn in *; subst.
  sx; finish_run.
Qed.

Lemma self_escape_panics here s i c :
  CURRENT_CONT s = Some i -> CONT_POOL s !! i = Some c -> quantum_armed c = true ->
  FP_SAVE_ACQUIRED s = true ->
  continuation_self_escape here s = Panic "O4: FP save pool already acquired (double escape)".
Proof.
  intros Hcur Hc Hq Ha. unfold continuation_self_escape. destruct s; cbn in *; subst. sx. done.
Qed.

Lemma self_escape_unarmed here s i c :
  CURRENT_CONT s = Some i -> CONT_POOL s !! i = Some c -> quantum_armed c = false ->
  continuation_self_escape here s = Done None s.
Proof.
  intros Hcur Hc Hq. unfold continuation_self_escape. destruct s; cbn in *; subst. sx. done.
Qed.

Lemma teardown_run here s i c :
  CURRENT_CONT s = Some i -> CONT_POOL s !! i = Some c ->
  (CONT_FREE_TOP s < MAX_CONTINUATIONS)%nat ->
  runs (continuation_teardown here) s
    (Some ((<[state_frame c := here]> (frames s)) (resumer_frame c)))
    (let v := view_of s in
     leave (mkView (v_next v) (v_top v + 1) (<[v_top v := i]> (v_buf v)) (v_pool v) (v_cur v)
              (v_pend v) (v_acq v) (v_save v) (v_fp v) (v_addrs v) (v_conts v) (v_frames v))
       i freed (CONT_PENDING s) (state_frame c) here).
Proof.
  intros Hcur Hc Ht. unfold runs, continuation_teardown, free_cont, disarm_quantum.
  destruct s; cbn in *; subst.
  apply Nat.ltb_lt in Ht.
  destruct (quantum_armed c) eqn:Eq, (owned_fd c) eqn:Eo; sx; finish_run.
Qed.

Lemma coop_wake_run s :
  runs coop_wake s tt
    (let v := view_of s in
     mkView (v_next v) (v_top v) (v_buf v)
       (match v_pend v with Some i => alter woken i (v_pool v) | None => v_pool v end)
       (v_cur v) (v_pend v) (v_acq v) (v_save v) (v_fp v) (v_addrs v) (v_conts v) (v_frames v)).
Proof.
  unfold runs, coop_wake, mark_ready. destruct s as [? ? ? ? ? [i|]]; cbn in *; sx; finish_run.
Qed.

(** *** The drain *)

Lemma scan_Some f pool i :
  scan f pool = Some i ->
  exists c, pool !! i = Some c /\ f c = true.
Proof.
  unfold scan. destruct (list_find _ pool) as [[j c]|] eqn:E; cbn; intros Hi; simplify_eq.
  apply list_find_Some in E. naive_solver.
Qed.

Lemma scan_None f pool i c : scan f pool = None -> pool !! i = Some c -> f c = false.
Proof.
  unfold scan. destruct (list_find _ pool) as [[j c']|] eqn:E; cbn; intros [=] Hi.
  apply list_find_None in E.
  apply Bool.not_true_is_false. exact (proj1 (Forall_lookup _ _) E i c Hi).
Qed.

(** What the drain would resume. *)
Definition next_ready (v : view) : option nat :=
  match v_pend v with
  | Some i =>
      match v_pool v !! i with
      | Some c => if runnable c then Some i else scan runnable (v_pool v)
      | None => None
      end
  | None => scan runnable (v_pool v)
  end.

Lemma resolve_run s :
  (forall i, CONT_PENDING s = Some i -> is_Some (CONT_POOL s !! i)) ->
  drain_resolve_ready s = Done (next_ready (view_of s)) s.
Proof.
  intros Hp. unfold drain_resolve_ready, next_ready. destruct s; cbn in *.
  destruct CONT_PENDING0 as [i|]; [|done].
  destruct (Hp i eq_refl) as [c Hc]. sx. destruct (runnable c); done.
Qed.

Lemma next_ready_Some v i :
  next_ready v = Some i -> exists c, v_pool v !! i = Some c /\ runnable c = true.
Proof.
  unfold next_ready. destruct (v_pend v) as [j|]; [|apply scan_Some].
  destruct (v_pool v !! j) as [c|] eqn:E; [|done].
  destruct (runnable c) eqn:R; [|apply scan_Some]. intros [= <-]. eauto.
Qed.

Lemma next_ready_None v i c :
  (forall i, v_pend v = Some i -> is_Some (v_pool v !! i)) ->
  next_ready v = None -> v_pool v !! i = Some c -> runnable c = false.
Proof.
  unfold next_ready. intros Hp. destruct (v_pend v) as [j|]; [|apply scan_None].
  destruct (Hp j eq_refl) as [d ->]. destruct (runnable d); [done|apply scan_None].
Qed.

Definition resume_frame (c : Cont) : Z :=
  if bool_decide (state c = C_ESCAPED) then escape_frame c else state_frame c.

Lemma drain_run here s i c :
  (forall i, CONT_PENDING s = Some i -> is_Some (CONT_POOL s !! i)) ->
  CURRENT_CONT s = None -> next_ready (view_of s) = Some i -> CONT_POOL s !! i = Some c ->
  (state c = C_ESCAPED -> FP_SAVE_ACQUIRED s = true) ->
  runs (drain_ready here) s
    (Some ((<[drain_frame := here]> (frames s)) (resume_frame c)))
    (let v := view_of s in
     enter v i resumed None (if bool_decide (state c = C_ESCAPED) then false else v_acq v)
       (if bool_decide (state c = C_ESCAPED) then v_save v else v_fp v)
       (<[drain_frame := here]> (v_frames v))).
Proof.
  intros Hp Hcur Hn Hc Ha. unfold runs, drain_ready.
  erewrite bind_run by (apply resolve_run; done). rewrite Hn. cbv beta iota.
  unfold arm_quantum_for_running, resume_frame. destruct s; cbn in *; subst.
  destruct (decide (state c = C_ESCAPED)) as [E|E].
  - rewrite (Ha E). sx; finish_run.
  - sx; finish_run.
Qed.

Lemma drain_idle here s :
  (forall i, CONT_PENDING s = Some i -> is_Some (CONT_POOL s !! i)) ->
  next_ready (view_of s) = None -> drain_ready here s = Done None s.
Proof.
  intros Hp Hn. unfold drain_ready. erewrite bind_run by (apply resolve_run; done).
  by rewrite Hn.
Qed.

(** *** Allocation and spawning *)

(** The record the allocator hands out, with the new cursor and free-list top. *)
Definition alloc_of (v : view) : option (nat * nat * nat) :=
  match v_top v with
  | S k => i ← v_buf v !! k; Some (i, v_next v, k)
  | O => if (v_next v <? MAX_CONTINUATIONS)%nat then Some (v_next v, v_next v + 1, O)%nat else None
  end.

Definition spawned (i : nat) (entry func arg fd : Z) (c : Cont) : Cont :=
  mkCont (state_frame_of i) (cont_slot_top core_id i) CONT_TLS_MAGIC C_READY (pending_wake c)
    entry drain_frame exception_sp (escape_buf i) true func arg
    (if fd <? 0 then None else Some fd).

Lemma alloc_run s i n' t' c :
  alloc_of (view_of s) = Some (i, n', t') -> CONT_POOL s !! i = Some c -> state c = C_FREE ->
  alloc_cont s = Done i (set_CONT_NEXT n' (set_CONT_FREE_TOP t' s)).
Proof.
  intros Ha Hc Hf. unfold alloc_cont, alloc_of in *. destruct s as [? top]; cbn in *.
  destruct top as [|k].
  - destruct (_ <? _)%nat eqn:E; simplify_eq. replace (0 <? 0)%nat with false by done. sx. done.
  - destruct (_ !! k) as [j|] eqn:E; cbn in Ha; simplify_eq.
    replace (0 <? S t')%nat with true by done. sx. rewrite Nat.sub_0_r. sx. done.
Qed.

Definition filled (i : nat) (entry func arg fd : Z) (c : Cont) : Cont :=
  mkCont (state_frame_of i) (cont_slot_top core_id i) CONT_TLS_MAGIC (state c) (pending_wake c)
    entry (resumer_frame c) (resumer_slot c) (escape_frame c) (quantum_armed c) func arg
    (if fd <? 0 then None else Some fd).

Lemma fill_record_run i entry func arg fd s c :
  CONT_POOL s !! i = Some c ->
  runs (fill_record i entry func arg fd) s tt
    (let v := view_of s in
     mkView (v_next v) (v_top v) (v_buf v) (alter (filled i entry func arg fd) i (v_pool v))
       (v_cur v) (v_pend v) (v_acq v) (v_save v) (v_fp v) (v_addrs v) (v_conts v)
       (<[state_frame_of i := first_context i entry]> (v_frames v))).
Proof.
  intros Hc. unfold runs, fill_record, build_frame, filled, first_context, state_frame_of.
  generalize (cont_stack_top core_id i), (cont_slot_top core_id i). intros st sl.
  destruct s; cbn in Hc.
  destruct (fd <? 0) eqn:Efd, (entry =? quantum_harness_entry); sx; finish_run.
Qed.

Definition started (i : nat) (c : Cont) : Cont :=
  set_quantum_armed true (set_resumer_slot exception_sp (set_resumer_frame drain_frame
    (set_state C_READY (set_escape_frame (escape_buf i) c)))).

Lemma start_record_run i here s c :
  CONT_POOL s !! i = Some c -> CURRENT_CONT s = None ->
  runs (start_record i here) s (Some ((<[drain_frame := here]> (frames s)) (state_frame c)))
    (let v := view_of s in
     enter v i (started i) (v_pend v) (v_acq v) (v_fp v) (<[drain_frame := here]> (v_frames v))).
Proof.
  intros Hc Hcur. unfold runs, start_record, arm_quantum_for_running, started, drain_frame.
  destruct s; cbn in Hc, Hcur; subst. sx; finish_run.
Qed.

Lemma spawn_split entry func arg fd here s i n' t' c :
  alloc_of (view_of s) = Some (i, n', t') -> CONT_POOL s !! i = Some c -> state c = C_FREE ->
  (i < MAX_CONTINUATIONS)%nat ->
  spawn_continuation true entry func arg fd here s =
  (do! fill_record i entry func arg fd in start_record i here)
    (set_CONT_NEXT n' (set_CONT_FREE_TOP t' s)).
Proof.
  intros Ha Hc Hf Hi. unfold spawn_continuation.
  rewrite (bind_run _ _ _ tt s) by done.
  erewrite bind_run by (eapply alloc_run; eassumption). cbv beta.
  rewrite (proj2 (Nat.ltb_lt i MAX_CONTINUATIONS) Hi).
  rewrite (bind_run _ _ _ tt (set_CONT_NEXT n' (set_CONT_FREE_TOP t' s))) by done.
  reflexivity.
Qed.

Lemma spawn_exhausted entry func arg fd here s :
  alloc_of (view_of s) = None ->
  exists why, spawn_continuation true entry func arg fd here s = Panic why.
Proof.
  intros Ha. unfold spawn_continuation, alloc_cont. cbv [bind assert_ ret gets].
  unfold alloc_of in Ha. destruct s as [n top buf]; cbn in *. destruct top as [|k].
  - destruct (_ <? _)%nat eqn:E; [done|]. replace (0 <? 0)%nat with false by done.
    cbn -[MAX_CONTINUATIONS]. rewrite E. eexists. reflexivity.
  - destruct (buf !! k) eqn:E; [done|]. replace (0 <? S k)%nat with true by done.
    cbn -[lookup]. rewrite Nat.sub_0_r, E. eexists. reflexivity.
Qed.

Lemma spawn_run entry func arg fd here s i n' t' c :
  alloc_of (view_of s) = Some (i, n', t') -> CONT_POOL s !! i = Some c -> state c = C_FREE ->
  (i < MAX_CONTINUATIONS)%nat -> CURRENT_CONT s = None ->
  runs (spawn_continuation true entry func arg fd here) s
    (Some ((<[drain_frame := here]>
            (<[state_frame_of i := first_context i entry]> (frames s))) (state_frame_of i)))
    (let v := view_of s in
     enter (mkView n' t' (v_buf v) (v_pool v) None (v_pend v) (v_acq v) (v_save v) (v_fp v)
              (v_addrs v) (v_conts v) (v_frames v))
       i (spawned i entry func arg fd) (v_pend v) (v_acq v) (v_fp v)
       (<[drain_frame := here]> (<[state_frame_of i := first_context i entry]> (v_frames v)))).
Proof.
  intros Ha Hc Hf Hi Hcur. unfold runs. rewrite (spawn_split _ _ _ _ _ _ _ _ _ _ Ha Hc Hf Hi).
  destruct (fill_record_run i entry func arg fd (set_CONT_NEXT n' (set_CONT_FREE_TOP t' s)) c Hc)
    as (s1 & E1 & V1).
  rewrite (bind_run _ _ _ _ _ E1).
  assert (P1 := f_equal v_pool V1). assert (C1 := f_equal v_cur V1). assert (F1 := f_equal v_frames V1).
  cbn in P1, C1, F1.
  destruct (start_record_run i here s1 (filled i entry func arg fd c)) as (s2 & E2 & V2).
  { rewrite P1, list_lookup_alter_eq. change (CONT_POOL (set_CONT_NEXT n' (set_CONT_FREE_TOP t' s))) with (CONT_POOL s).
    by rewrite Hc. }
  { by rewrite C1. }
  exists s2. rewrite E2, V2, V1, F1. split; [done|].
  unfold enter. cbn. rewrite alter_twice. done.
Qed.

(** *** The futex table *)

Definition wake_slot (v : view) (k : nat) : view :=
  mkView (v_next v) (v_top v) (v_buf v)
    (match v_conts v !! k with Some (Some i) => alter woken i (v_pool v) | _ => v_pool v end)
    (v_cur v) (v_pend v) (v_acq v) (v_save v) (v_fp v)
    (<[k := 0]> (v_addrs v)) (<[k := None]> (v_conts v)) (v_frames v).

Definition waits_on (addr : Z) (addrs : list Z) (k : nat) : bool :=
  bool_decide (addrs !! k = Some addr) && negb (addr =? 0).

(** The slots registered on [addr], in table order from [k]. *)
Definition waiters (addr : Z) (addrs : list Z) (k n : nat) : list nat :=
  List.filter (waits_on addr addrs) (seq k n).

Definition registered (v : view) : Prop :=
  forall k a, v_addrs v !! k = Some a -> a <> 0 -> exists i, v_conts v !! k = Some (Some i).

Lemma waiters_ext addr l l' k n :
  (forall j, (k <= j)%nat -> l !! j = l' !! j) -> waiters addr l k n = waiters addr l' k n.
Proof.
  intros E. unfold waiters. apply List.filter_ext_in. intros j Hj%in_seq.
  unfold waits_on. rewrite (E j); [done|lia].
Qed.

Lemma waiters_S addr l k n :
  waiters addr l k (S n) =
  (if waits_on addr l k then [k] else []) ++ waiters addr l (S k) n.
Proof. unfold waiters. cbn. by destruct (waits_on addr l k). Qed.

Lemma waiters_ge addr l k n j : In j (waiters addr l k n) -> (k <= j)%nat.
Proof. unfold waiters. intros [Hj%in_seq _]%filter_In. lia. Qed.

(** One slot of the loop. *)
Lemma futex_wake_hit n k addr max_wake woken last s i :
  woken < max_wake -> CONT_FUTEX_ADDRS s !! k = Some addr -> addr <> 0 ->
  CONT_FUTEX_CONTS s !! k = Some (Some i) ->
  exists s1, view_of s1 = wake_slot (view_of s) k /\
    futex_wake_loop (S n) k addr max_wake woken last s =
    futex_wake_loop n (S k) addr max_wake (woken + 1) (Some i) s1.
Proof.
  intros Hw Ha H0 Hc. eexists. split; [|cbn [futex_wake_loop]].
  2: { rewrite (proj2 (Z.leb_gt max_wake woken) Hw).
       assert (E0 : (addr =? 0) = false) by lia. assert (E1 : (addr =? addr) = true) by lia.
       unfold mark_ready, on_cont. erewrite bind_run by reflexivity. cbv beta.
       rewrite Ha. erewrite bind_run by reflexivity. cbv beta.
       rewrite E0, E1. cbn [orb negb].
       do 2 (erewrite bind_run by reflexivity; cbv beta). cbn [CONT_FUTEX_CONTS set_CONT_FUTEX_ADDRS].
       rewrite Hc. do 2 (erewrite bind_run by reflexivity; cbv beta). cbv iota.
       erewrite bind_run by reflexivity. reflexivity. }
  unfold wake_slot, view_of. destruct s; cbn in *. by rewrite Hc.
Qed.

Lemma futex_wake_miss n k addr max_wake woken last s a :
  woken < max_wake -> CONT_FUTEX_ADDRS s !! k = Some a -> a = 0 \/ a <> addr ->
  futex_wake_loop (S n) k addr max_wake woken last s =
  futex_wake_loop n (S k) addr max_wake woken last s.
Proof.
  intros Hw Ha H0. cbn [futex_wake_loop].
  rewrite (proj2 (Z.leb_gt max_wake woken) Hw). erewrite bind_run by reflexivity. cbv beta.
  rewrite Ha. erewrite bind_run by reflexivity. cbv beta.
  assert ((a =? 0) || negb (a =? addr) = true) as -> by lia. done.
Qed.

Lemma registered_wake_slot v k : registered v -> registered (wake_slot v k).
Proof.
  intros Hr j a. cbn. destruct (decide (j = k)) as [->|Hj].
  - intros Ha Hn. apply list_lookup_insert_Some in Ha. naive_solver.
  - rewrite !list_lookup_insert_ne by done. apply Hr.
Qed.

Lemma futex_wake_loop_run n : forall k addr max_wake woken last s,
  length (CONT_FUTEX_ADDRS s) = (k + n)%nat -> registered (view_of s) ->
  let ks := take (Z.to_nat (max_wake - woken)) (waiters addr (CONT_FUTEX_ADDRS s) k n) in
  runs (futex_wake_loop n k addr max_wake woken last) s
    (woken + Z.of_nat (length ks),
     match List.rev ks with
     | j :: _ => default None (CONT_FUTEX_CONTS s !! j)
     | [] => last
     end)
    (foldl wake_slot (view_of s) ks).
Proof.
  induction n as [|n IH]; intros k addr max_wake woken last s Hlen Hreg; cbv zeta.
  { unfold waiters. cbn. rewrite take_nil. cbn. exists s. split; [|done].
    unfold ret. do 2 f_equal. lia. }
  destruct (Z_le_gt_dec max_wake woken) as [Em|Em].
  { cbn [futex_wake_loop]. rewrite (proj2 (Z.leb_le max_wake woken) Em).
    replace (Z.to_nat (max_wake - woken)) with O by lia. rewrite take_0. cbn [length List.rev foldl].
    exists s. split; [|done]. unfold ret. rewrite Z.add_0_r. done. }
  assert (exists a, CONT_FUTEX_ADDRS s !! k = Some a) as [a Ha]
    by (apply lookup_lt_is_Some; lia).
  rewrite waiters_S.
  destruct (decide (a = addr /\ addr <> 0)) as [[-> H0]|Hno].
  - assert (waits_on addr (CONT_FUTEX_ADDRS s) k = true) as ->
      by (unfold waits_on; rewrite Ha, bool_decide_eq_true_2 by done; apply negb_true_iff, Z.eqb_neq, H0).
    destruct (Hreg k addr Ha H0) as [i Hi].
    destruct (futex_wake_hit n k addr max_wake woken last s i ltac:(lia) Ha H0 Hi) as (s1 & Hv & E).
    unfold runs. rewrite E.
    assert (E1 : CONT_FUTEX_ADDRS s1 = <[k := 0]> (CONT_FUTEX_ADDRS s)) by exact (f_equal v_addrs Hv).
    assert (E2 : CONT_FUTEX_CONTS s1 = <[k := None]> (CONT_FUTEX_CONTS s)) by exact (f_equal v_conts Hv).
    destruct (IH (S k) addr max_wake (woken + 1) (Some i) s1) as (s2 & Hr & Hv2).
    { rewrite E1, length_insert. lia. }
    { rewrite Hv. by apply registered_wake_slot. }
    assert (EW : waiters addr (CONT_FUTEX_ADDRS s1) (S k) n =
                 waiters addr (CONT_FUTEX_ADDRS s) (S k) n).
    { apply waiters_ext. intros j Hj. rewrite E1, list_lookup_insert_ne; [done|lia]. }
    rewrite EW in Hr, Hv2.
    replace (Z.to_nat (max_wake - woken)) with (S (Z.to_nat (max_wake - (woken + 1)))) by lia.
    cbn [app take length List.rev foldl]. exists s2. rewrite <- Hv. split; [|done].
    rewrite Hr. set (ks := take _ _). f_equal. f_equal; [lia|].
    destruct (List.rev ks) as [|j js] eqn:Ek; cbn; cbn in Hi; [by rewrite Hi|].
    assert (Hj : In j (waiters addr (CONT_FUTEX_ADDRS s) (S k) n)).
    { apply list_elem_of_In, (subseteq_take (Z.to_nat (max_wake - (woken + 1)))), list_elem_of_In.
      fold ks. rewrite <- (rev_involutive ks), Ek. apply in_rev. rewrite rev_involutive. by left. }
    apply waiters_ge in Hj. rewrite E2, list_lookup_insert_ne; [done|lia].
  - assert (waits_on addr (CONT_FUTEX_ADDRS s) k = false) as ->.
    { unfold waits_on. rewrite Ha. destruct (decide (a = addr)) as [->|]; [|by rewrite bool_decide_eq_false_2 by congruence].
      rewrite bool_decide_eq_true_2 by done. destruct (Z.eqb_spec addr 0); [done|naive_solver]. }
    unfold runs. erewrite futex_wake_miss; [|lia|exact Ha|].
    2: { destruct (decide (a = addr)); [left|right; done]. destruct (decide (addr = 0)); [congruence|naive_solver]. }
    cbn [app]. apply IH; [lia|done].
Qed.

Lemma cont_futex_wake_run addr count s :
  0 < count -> length (CONT_FUTEX_ADDRS s) = MAX_FUTEX_WAITERS -> registered (view_of s) ->
  let max_wake := if count =? i32_max then Z.of_nat MAX_FUTEX_WAITERS else count in
  let ks := take (Z.to_nat max_wake)
              (waiters addr (CONT_FUTEX_ADDRS s) 0 MAX_FUTEX_WAITERS) in
  runs (cont_futex_wake addr count) s (Z.of_nat (length ks))
    (let v := foldl wake_slot (view_of s) ks in
     mkView (v_next v) (v_top v) (v_buf v) (v_pool v) (v_cur v)
       (match List.rev ks with
        | j :: _ => match default None (CONT_FUTEX_CONTS s !! j) with
                    | Some i => Some i | None => v_pend v end
        | [] => v_pend v
        end) (v_acq v) (v_save v) (v_fp v) (v_addrs v) (v_conts v) (v_frames v)).
Proof.
  intros Hc Hlen Hreg max_wake ks. unfold runs, cont_futex_wake.
  assert (E0 : (count <? 0) = false) by lia. assert (E1 : (count =? 0) = false) by lia.
  rewrite E0, E1. fold max_wake.
  destruct (futex_wake_loop_run MAX_FUTEX_WAITERS 0 addr max_wake 0 None s Hlen Hreg)
    as (s1 & E & V).
  rewrite Z.sub_0_r in E, V. fold ks in E, V.
  rewrite (bind_run _ _ _ _ _ E). cbv beta iota. rewrite <- V. clearbody ks max_wake. clear E V.
  rewrite Z.add_0_l.
  destruct (List.rev ks) as [|j js]; [|destruct (default None _) as [i|]]; eexists; done.
Qed.

Lemma register_run addr i s :
  (exists k, list_find (fun a => a = 0) (CONT_FUTEX_ADDRS s) = Some (k, 0)) ->
  exists k, CONT_FUTEX_ADDRS s !! k = Some 0 /\
    runs (register_futex_wait addr i) s k
      (let v := view_of s in
       mkView (v_next v) (v_top v) (v_buf v) (v_pool v) (v_cur v) (v_pend v) (v_acq v) (v_save v)
         (v_fp v) (<[k := addr]> (v_addrs v)) (<[k := Some i]> (v_conts v)) (v_frames v)).
Proof.
  intros [k E]. exists k. split; [apply list_find_Some in E; naive_solver|].
  unfold runs, register_futex_wait. destruct s; cbn in *.
  cbv [bind gets modify ret]. cbn -[list_find lookup insert]. rewrite E. eexists. done.
Qed.

Lemma register_full addr i s :
  list_find (fun a => a = 0) (CONT_FUTEX_ADDRS s) = None ->
  register_futex_wait addr i s = Done MAX_FUTEX_WAITERS s.
Proof. intros E. unfold register_futex_wait. cbv [bind gets ret]. by rewrite E. Qed.

Lemma clear_run k a s :
  (k < MAX_FUTEX_WAITERS)%nat -> CONT_FUTEX_ADDRS s !! k = Some a ->
  runs (cont_futex_wait_resumed k) s 0
    (let v := view_of s in
     mkView (v_next v) (v_top v) (v_buf v) (v_pool v) (v_cur v) (v_pend v) (v_acq v) (v_save v)
       (v_fp v) (<[k := 0]> (v_addrs v))
       (if a =? 0 then v_conts v else <[k := None]> (v_conts v)) (v_frames v)).
Proof.
  intros Hk Ha. unfold runs, cont_futex_wait_resumed, clear_futex_slot.
  rewrite (proj2 (Nat.ltb_lt k MAX_FUTEX_WAITERS) Hk). destruct s; cbn in *.
  cbv [bind gets modify ret unwrap]. cbn -[lookup insert]. rewrite Ha.
  destruct (a =? 0); eexists; done.
Qed.

(** Entering [cont_futex_wait] with the word still at the expected value: the
    continuation registers in a free slot and parks, or the table is full. *)
Lemma futex_wait_run addr word here s i c :
  CURRENT_CONT s = Some i -> CONT_POOL s !! i = Some c -> pending_wake c = false ->
  length (CONT_FUTEX_ADDRS s) = MAX_FUTEX_WAITERS ->
  (exists k, (k < MAX_FUTEX_WAITERS)%nat /\ CONT_FUTEX_ADDRS s !! k = Some 0 /\
     runs (cont_futex_wait addr word word here) s
       (WParked k (Some ((<[state_frame c := here]> (frames s)) (resumer_frame c))))
       (let v := view_of s in
        leave (mkView (v_next v) (v_top v) (v_buf v) (v_pool v) (v_cur v) (v_pend v) (v_acq v)
                 (v_save v) (v_fp v) (<[k := addr]> (v_addrs v)) (<[k := Some i]> (v_conts v))
                 (v_frames v)) i parked (Some i) (state_frame c) here)) \/
  (Forall (fun a => a <> 0) (CONT_FUTEX_ADDRS s) /\
   cont_futex_wait addr word word here s = Done (WAnswer (- Errno.into_i32 Errno.Again)) s).
Proof.
  intros Hcur Hc Hp Hlen. unfold runs, cont_futex_wait, current.
  erewrite (bind_run _ _ s i s) by (cbv [bind gets unwrap]; by rewrite Hcur).
  rewrite Z.eqb_refl. cbn [negb].
  destruct (list_find (fun a => a = 0) (CONT_FUTEX_ADDRS s)) as [[k a]|] eqn:E.
  - left. assert (a = 0) as -> by (apply list_find_Some in E; naive_solver).
    destruct (register_run addr i s ltac:(by eexists)) as (k' & Hk' & s1 & E1 & V1).
    exists k'. split; [apply lookup_lt_Some in Hk'; lia|]. split; [done|].
    rewrite (bind_run _ _ _ _ _ E1).
    assert (Hlt : (MAX_FUTEX_WAITERS <=? k')%nat = false)
      by (apply Nat.leb_gt; apply lookup_lt_Some in Hk'; lia).
    rewrite Hlt.
    assert (P1 := f_equal v_pool V1). assert (C1 := f_equal v_cur V1).
    assert (F1 := f_equal v_frames V1). cbn in P1, C1, F1.
    destruct (park_external_run false here s1 i c) as (s2 & E2 & V2); [congruence..|].
    rewrite (bind_run _ _ _ _ _ E2). exists s2. rewrite V2, V1, F1. done.
  - right. rewrite (bind_run _ _ _ _ _ (register_full addr i s E)).
    rewrite Nat.leb_refl. split; [|done]. by apply list_find_None in E.
Qed.

Lemma futex_wait_again addr word expected here s i :
  CURRENT_CONT s = Some i -> word <> expected ->
  cont_futex_wait addr word expected here s = Done (WAnswer (- Errno.into_i32 Errno.Again)) s.
Proof.
  intros Hcur Hw. unfold cont_futex_wait, current.
  erewrite (bind_run _ _ s i s) by (cbv [bind gets unwrap]; by rewrite Hcur).
  assert (E : (word =? expected) = false) by lia. by rewrite E.
Qed.

End Runs.
End ContRuns.

Module ContInv.
Import Continuations ContRuns.

(** The frames lie apart: each stack entry holds one frame at its top, the
    escape buffers are part of the pool, the drain's frame is at the top of the
    exception stack; the three regions do not overlap. *)
Class LayoutOk `{Layout} : Prop := {
  lay_escape i j :
    (i < MAX_CONTINUATIONS)%nat -> (j < MAX_CONTINUATIONS)%nat -> i <> j ->
    escape_buf i + STATE_SIZE <= escape_buf j \/ escape_buf j + STATE_SIZE <= escape_buf i;
  lay_escape_stacks i :
    (i < MAX_CONTINUATIONS)%nat ->
    escape_buf i + STATE_SIZE <= cont_stack_top core_id 0 - CONT_STACK_SIZE \/
    cont_stack_top core_id MAX_CONTINUATIONS - CONT_STACK_SIZE <= escape_buf i;
  lay_drain_stacks :
    exception_sp <= cont_stack_top core_id 0 - CONT_STACK_SIZE \/
    cont_stack_top core_id MAX_CONTINUATIONS <= exception_sp - STATE_SIZE;
  lay_drain_escape i :
    (i < MAX_CONTINUATIONS)%nat ->
    escape_buf i + STATE_SIZE <= exception_sp - STATE_SIZE \/ exception_sp <= escape_buf i;
}.

Section Inv.
Context `{LayoutOk}.

Lemma state_frame_inj i j : state_frame_of i = state_frame_of j -> i = j.
Proof. unfold state_frame_of, cont_stack_top, CONT_STACK_SIZE, CONT_GUARD. lia. Qed.

Lemma escape_inj i j :
  (i < MAX_CONTINUATIONS)%nat -> (j < MAX_CONTINUATIONS)%nat -> escape_buf i = escape_buf j -> i = j.
Proof.
  intros Hi Hj E. destruct (decide (i = j)) as [|Hn]; [done|].
  pose proof (lay_escape i j Hi Hj Hn) as L. unfold STATE_SIZE in L. lia.
Qed.

Lemma state_escape_ne i j :
  (i < MAX_CONTINUATIONS)%nat -> (j < MAX_CONTINUATIONS)%nat -> state_frame_of i <> escape_buf j.
Proof.
  intros Hi Hj. pose proof (lay_escape_stacks j Hj) as L. revert L.
  unfold state_frame_of, cont_stack_top, CONT_STACK_SIZE, CONT_GUARD, STATE_SIZE. lia.
Qed.

Lemma state_drain_ne i : (i < MAX_CONTINUATIONS)%nat -> state_frame_of i <> drain_frame.
Proof.
  intros Hi. pose proof lay_drain_stacks as L. revert L.
  unfold state_frame_of, drain_frame, cont_stack_top, CONT_STACK_SIZE, CONT_GUARD, STATE_SIZE. lia.
Qed.

Lemma escape_drain_ne i : (i < MAX_CONTINUATIONS)%nat -> escape_buf i <> drain_frame.
Proof.
  intros Hi. pose proof (lay_drain_escape i Hi) as L. revert L.
  unfold drain_frame, STATE_SIZE. lia.
Qed.

(** ** The invariant *)

Definition live (v : view) (i : nat) : Prop :=
  exists c, v_pool v !! i = Some c /\ state c <> C_FREE.

Record inv (v : view) (w : gmap nat nat) : Prop := {
  inv_len : length (v_pool v) = MAX_CONTINUATIONS /\ length (v_buf v) = MAX_CONTINUATIONS /\
    length (v_addrs v) = MAX_FUTEX_WAITERS /\ length (v_conts v) = MAX_FUTEX_WAITERS;
  inv_top : (v_top v <= v_next v <= MAX_CONTINUATIONS)%nat;
  inv_nodup : NoDup (take (v_top v) (v_buf v));
  (** the free list holds exactly the records handed out and returned *)
  inv_free i : i ∈ take (v_top v) (v_buf v) <-> (i < v_next v)%nat /\ ~ live v i;
  inv_fresh i : (v_next v <= i)%nat -> ~ live v i;
  inv_clean i c : v_pool v !! i = Some c -> state c = C_FREE -> pending_wake c = false;
  inv_cur i : v_cur v = Some i ->
    exists c, v_pool v !! i = Some c /\ (state c = C_READY \/ state c = C_RUNNING) /\
      pending_wake c = false /\ resumer_frame c = drain_frame;
  inv_frames i c : v_pool v !! i = Some c -> state c <> C_FREE ->
    state_frame c = state_frame_of i /\ escape_frame c = escape_buf i;
  inv_running i c : v_pool v !! i = Some c -> state c = C_RUNNING -> v_cur v = Some i;
  (** a wake is addressed to a live continuation that does not run *)
  inv_pend i : v_pend v = Some i -> v_cur v <> Some i /\ live v i;
  inv_escaped i c : v_pool v !! i = Some c -> state c = C_ESCAPED -> v_acq v = true;
  inv_escaped_one i j c d : v_pool v !! i = Some c -> v_pool v !! j = Some d ->
    state c = C_ESCAPED -> state d = C_ESCAPED -> i = j;
  inv_table k a : v_addrs v !! k = Some a -> a <> 0 ->
    exists i, v_conts v !! k = Some (Some i) /\ w !! i = Some k;
  inv_wait i k : w !! i = Some k -> (k < MAX_FUTEX_WAITERS)%nat /\
    exists c, v_pool v !! i = Some c /\ state c <> C_FREE /\ state c <> C_ESCAPED;
}.

(** Case analysis on a look-up in a pool altered at [i]. *)
Ltac at_index j i Hc Hd :=
  destruct (decide (j = i)) as [->|?];
  [rewrite list_lookup_alter_eq, Hc in Hd; cbn in Hd; simplify_eq
  |rewrite list_lookup_alter_ne in Hd by done].

Lemma live_alter v i f c j :
  v_pool v !! i = Some c -> state c <> C_FREE -> state (f c) <> C_FREE ->
  (exists d, alter f i (v_pool v) !! j = Some d /\ state d <> C_FREE) <-> live v j.
Proof.
  intros Hc Hl Hf. unfold live. destruct (decide (j = i)) as [->|Hj].
  - rewrite list_lookup_alter_eq, Hc. cbn. naive_solver.
  - rewrite list_lookup_alter_ne by done. done.
Qed.

(** An update of one live record, with the change of who runs. *)
Lemma inv_update v w i c f cur' pend' acq' save' fp' fs' :
  inv v w -> v_pool v !! i = Some c -> state c <> C_FREE -> state (f c) <> C_FREE ->
  state_frame (f c) = state_frame c -> escape_frame (f c) = escape_frame c ->
  (state (f c) = C_RUNNING -> cur' = Some i) ->
  (forall j, j <> i -> v_cur v = Some j <-> cur' = Some j) ->
  (cur' = Some i -> (state (f c) = C_READY \/ state (f c) = C_RUNNING) /\
     pending_wake (f c) = false /\ resumer_frame (f c) = drain_frame) ->
  (forall j, pend' = Some j -> cur' <> Some j /\ (j = i \/ v_pend v = Some j)) ->
  (forall j d, alter f i (v_pool v) !! j = Some d -> state d = C_ESCAPED -> acq' = true) ->
  (state (f c) = C_ESCAPED -> w !! i = None /\ (state c = C_ESCAPED \/ v_acq v = false)) ->
  inv (mkView (v_next v) (v_top v) (v_buf v) (alter f i (v_pool v)) cur' pend' acq' save' fp'
         (v_addrs v) (v_conts v) fs') w.
Proof.
  intros I Hc Hl Hf Hsf Hef Hrun Hoth Hcur Hpend Hacq Hesc.
  assert (LA : forall j, live (mkView (v_next v) (v_top v) (v_buf v) (alter f i (v_pool v)) cur' pend' acq' save' fp'
         (v_addrs v) (v_conts v) fs') j <-> live v j) by (intros j; by apply (live_alter v i f c)).
  split; cbn.
  - rewrite length_alter. apply (inv_len v w I).
  - apply (inv_top v w I).
  - apply (inv_nodup v w I).
  - intros j. rewrite LA. apply (inv_free v w I).
  - intros j Hj. rewrite LA. by apply (inv_fresh v w I).
  - intros j d Hd Hs. destruct (decide (j = i)) as [->|Hj].
    + rewrite list_lookup_alter_eq, Hc in Hd. cbn in Hd. congruence.
    + rewrite list_lookup_alter_ne in Hd by done. by eapply (inv_clean v w I).
  - intros j Hj. destruct (decide (j = i)) as [->|Hn].
    + exists (f c). rewrite list_lookup_alter_eq, Hc. split; [done|]. by apply Hcur.
    + apply Hoth in Hj; [|done]. rewrite list_lookup_alter_ne by done. by apply (inv_cur v w I).
  - intros j d Hd Hs. destruct (decide (j = i)) as [->|Hj].
    + rewrite list_lookup_alter_eq, Hc in Hd. cbn in Hd. simplify_eq.
      rewrite Hsf, Hef. by eapply (inv_frames v w I).
    + rewrite list_lookup_alter_ne in Hd by done. by eapply (inv_frames v w I).
  - intros j d Hd Hs. destruct (decide (j = i)) as [->|Hj].
    + rewrite list_lookup_alter_eq, Hc in Hd. cbn in Hd. simplify_eq. by apply Hrun.
    + rewrite list_lookup_alter_ne in Hd by done. apply Hoth; [done|]. by eapply (inv_running v w I).
  - intros j Hj. destruct (Hpend j Hj) as [Hc' Hor]. split; [done|]. apply LA.
    destruct Hor as [->|Hp]; [by exists c|]. by apply (inv_pend v w I).
  - exact Hacq.
  - intros j k d e Hd He Sd Se. destruct (decide (j = i)) as [->|Hj], (decide (k = i)) as [->|Hk]; [done|..].
    + rewrite list_lookup_alter_eq, Hc in Hd. cbn in Hd. simplify_eq.
      rewrite list_lookup_alter_ne in He by done.
      destruct (Hesc Sd) as [_ [Ec|Ea]]; [by eapply (inv_escaped_one v w I)|].
      pose proof (inv_escaped v w I _ _ He Se). congruence.
    + rewrite list_lookup_alter_eq, Hc in He. cbn in He. simplify_eq.
      rewrite list_lookup_alter_ne in Hd by done.
      destruct (Hesc Se) as [_ [Ec|Ea]]; [by eapply (inv_escaped_one v w I)|].
      pose proof (inv_escaped v w I _ _ Hd Sd). congruence.
    + rewrite list_lookup_alter_ne in Hd, He by done. by eapply (inv_escaped_one v w I).
  - apply (inv_table v w I).
  - intros j k Hw. destruct (inv_wait v w I j k Hw) as (Hk & d & Hd & Sd & Se). split; [done|].
    destruct (decide (j = i)) as [->|Hj].
    + exists (f c). rewrite list_lookup_alter_eq, Hc. repeat split; try done.
      intros E. destruct (Hesc E). congruence.
    + exists d. by rewrite list_lookup_alter_ne.
Qed.

(** ** Every operation keeps the invariant *)

Section Keep.
Context (v : view) (w : gmap nat nat) (I : inv v w).

Lemma live_lt i : live v i -> (i < v_next v)%nat.
Proof.
  intros L. destruct (decide (i < v_next v)%nat); [done|].
  exfalso. eapply (inv_fresh v w I i); [lia|done].
Qed.

Lemma live_max i : live v i -> (i < MAX_CONTINUATIONS)%nat.
Proof. intros L%live_lt. pose proof (inv_top v w I). lia. Qed.

Lemma cur_live i : v_cur v = Some i -> live v i.
Proof. intros (c & Hc & Hs & _)%(inv_cur v w I). exists c. split; [done|]. by destruct Hs as [-> | ->]. Qed.

(** The running continuation is not in the free list, which is therefore not full. *)
Lemma cur_top i : v_cur v = Some i -> (v_top v < v_next v)%nat.
Proof.
  intros Hi. pose proof (cur_live i Hi) as L.
  pose proof (inv_len v w I) as (_ & Hb & _). pose proof (inv_top v w I) as Ht.
  assert (Hn : NoDup (i :: take (v_top v) (v_buf v))).
  { apply list.NoDup_cons. split; [|apply (inv_nodup v w I)].
    intros [_ Hf]%(inv_free v w I). done. }
  assert (Hs : i :: take (v_top v) (v_buf v) ⊆ seq 0 (v_next v)).
  { intros j [->|Hj]%elem_of_cons; apply elem_of_seq.
    - pose proof (live_lt i L). lia.
    - apply (inv_free v w I) in Hj. lia. }
  pose proof (submseteq_length _ _ (NoDup_submseteq _ _ Hn Hs)) as Hlen.
  cbn in Hlen. rewrite length_take, length_seq in Hlen. lia.
Qed.

Lemma leave_keeps i c f pend' acq' save' addr here :
  v_cur v = Some i -> v_pool v !! i = Some c -> state (f c) <> C_FREE ->
  state_frame (f c) = state_frame c -> escape_frame (f c) = escape_frame c ->
  state (f c) <> C_RUNNING -> (pend' = Some i \/ pend' = v_pend v) ->
  (state (f c) = C_ESCAPED -> w !! i = None /\ v_acq v = false /\ acq' = true) ->
  (state (f c) <> C_ESCAPED -> acq' = v_acq v) ->
  inv (leave (mkView (v_next v) (v_top v) (v_buf v) (v_pool v) (v_cur v) (v_pend v) acq' save'
                (v_fp v) (v_addrs v) (v_conts v) (v_frames v)) i f pend' addr here) w.
Proof.
  intros Hcur Hc Hf Hsf Hef Hr Hp He1 He2. unfold leave; cbn.
  destruct (inv_cur v w I i Hcur) as (c' & Hc' & Hs & _). assert (c' = c) as -> by congruence.
  apply (inv_update v w i c); try done.
  - by destruct Hs as [-> | ->].
  - intros j Hj. split; intros; simplify_eq.
  - intros j Hj. split; [done|]. destruct Hp as [-> | ->]; [left; congruence|by right].
  - intros j d Hd Sd. destruct (decide (state (f c) = C_ESCAPED)) as [E|E]; [by apply He1|].
    rewrite (He2 E). destruct (decide (j = i)) as [->|Hj].
    + rewrite list_lookup_alter_eq, Hc in Hd. cbn in Hd. congruence.
    + rewrite list_lookup_alter_ne in Hd by done. by eapply (inv_escaped v w I).
  - intros E. destruct (He1 E) as (? & ? & ?). auto.
Qed.

Lemma enter_keeps i c f acq' fp fs :
  v_cur v = None -> v_pool v !! i = Some c -> state c <> C_FREE -> state (f c) = C_RUNNING ->
  state_frame (f c) = state_frame c -> escape_frame (f c) = escape_frame c ->
  pending_wake (f c) = false -> resumer_frame (f c) = drain_frame ->
  (state c <> C_ESCAPED -> acq' = v_acq v) ->
  inv (enter v i f None acq' fp fs) w.
Proof.
  intros Hcur Hc Hl Hr Hsf Hef Hp Hrf Ha. unfold enter.
  apply (inv_update v w i c); try done; try congruence.
  - intros j Hj. rewrite Hcur. split; intros; simplify_eq.
  - auto.
  - intros j d Hd Sd. destruct (decide (j = i)) as [->|Hj].
    + rewrite list_lookup_alter_eq, Hc in Hd. cbn in Hd. congruence.
    + rewrite list_lookup_alter_ne in Hd by done.
      destruct (decide (state c = C_ESCAPED)) as [E|E].
      * exfalso. apply Hj. by eapply (inv_escaped_one v w I).
      * rewrite Ha by done. by eapply (inv_escaped v w I).
Qed.

Lemma woken_keeps i c :
  v_pool v !! i = Some c -> state c <> C_FREE -> v_cur v <> Some i ->
  inv (mkView (v_next v) (v_top v) (v_buf v) (alter woken i (v_pool v)) (v_cur v) (v_pend v)
         (v_acq v) (v_save v) (v_fp v) (v_addrs v) (v_conts v) (v_frames v)) w.
Proof.
  intros Hc Hl Hn. apply (inv_update v w i c); try done.
  - intros j Hj. split; [|auto]. by apply (inv_pend v w I).
  - intros j d Hd Sd. destruct (decide (j = i)) as [->|Hj].
    + rewrite list_lookup_alter_eq, Hc in Hd. cbn in Hd. simplify_eq.
    + rewrite list_lookup_alter_ne in Hd by done. by eapply (inv_escaped v w I).
Qed.

Lemma teardown_keeps i c here :
  v_cur v = Some i -> v_pool v !! i = Some c -> w !! i = None ->
  inv (leave (mkView (v_next v) (v_top v + 1) (<[v_top v := i]> (v_buf v)) (v_pool v) (v_cur v)
                (v_pend v) (v_acq v) (v_save v) (v_fp v) (v_addrs v) (v_conts v) (v_frames v))
         i freed (v_pend v) (state_frame c) here) w.
Proof.
  intros Hcur Hc Hw. pose proof (cur_live i Hcur) as L. pose proof (cur_top i Hcur) as Ht.
  pose proof (inv_len v w I) as (Hp & Hb & Ha & Hk). pose proof (inv_top v w I) as Ht2.
  assert (LA : forall j, live (leave v i freed (v_pend v) (state_frame c) here) j <->
                         live v j /\ j <> i).
  { intros j. unfold live; cbn. destruct (decide (j = i)) as [->|Hj].
    - rewrite list_lookup_alter_eq, Hc. cbn. naive_solver.
    - rewrite list_lookup_alter_ne by done. naive_solver. }
  assert (HT : take (v_top v + 1) (<[v_top v := i]> (v_buf v)) = take (v_top v) (v_buf v) ++ [i]).
  { rewrite Nat.add_1_r. erewrite take_S_r by (apply list_lookup_insert_eq; lia).
    by rewrite take_insert_ge by lia. }
  split; cbn; unfold leave in LA; cbn in LA.
  - rewrite length_alter, length_insert. done.
  - lia.
  - rewrite HT. apply list.NoDup_app. split; [apply (inv_nodup v w I)|]. split; [|apply NoDup_singleton].
    intros j [_ Hj]%(inv_free v w I) ->%list_elem_of_singleton. done.
  - intros j. rewrite HT, elem_of_app, list_elem_of_singleton, (inv_free v w I).
    unfold live in *; cbn in *. rewrite LA. pose proof (live_lt i L).
    destruct (decide (j = i)); naive_solver.
  - intros j Hj. unfold live in *; cbn in *. rewrite LA. intros [Hl _]. by apply (inv_fresh v w I j).
  - intros j d Hd Sd. at_index j i Hc Hd.
    + cbn. destruct (inv_cur v w I i Hcur) as (c' & Hc' & _ & Hpw & _). congruence.
    + by eapply (inv_clean v w I).
  - done.
  - intros j d Hd Sd. at_index j i Hc Hd. by eapply (inv_frames v w I).
  - intros j d Hd Sd. at_index j i Hc Hd. pose proof (inv_running v w I _ _ Hd Sd). congruence.
  - intros j Hj. split; [done|]. destruct (inv_pend v w I j Hj) as [Hjc Hl].
    unfold live in *; cbn in *. apply LA. split; [done|]. congruence.
  - intros j d Hd Sd. at_index j i Hc Hd. by eapply (inv_escaped v w I).
  - intros j k d e Hd He Sd Se. 
    at_index j i Hc Hd. at_index k i Hc He. by eapply (inv_escaped_one v w I).
  - apply (inv_table v w I).
  - intros j k Hwj. destruct (inv_wait v w I j k Hwj) as (? & d & ? & ? & ?). split; [done|].
    exists d. rewrite list_lookup_alter_ne by congruence. done.
Qed.

(** What the allocator hands out. *)
Lemma alloc_fresh i n' t' :
  alloc_of v = Some (i, n', t') ->
  ~ live v i /\ (i < n')%nat /\ (t' <= n' <= MAX_CONTINUATIONS)%nat /\ (v_next v <= n')%nat /\
  NoDup (take t' (v_buf v)) /\
  forall j, j ∈ take t' (v_buf v) <-> (j < n')%nat /\ ~ live v j /\ j <> i.
Proof.
  pose proof (inv_len v w I) as (_ & Hb & _). pose proof (inv_top v w I) as Ht.
  pose proof (inv_nodup v w I) as Hn. pose proof (inv_free v w I) as Hf.
  unfold alloc_of. destruct (v_top v) as [|k] eqn:Et.
  - destruct (_ <? _)%nat eqn:E; [|done]. apply Nat.ltb_lt in E. intros [= <- <- <-].
    split; [apply (inv_fresh v w I); lia|]. do 4 (split; [try lia; apply NoDup_nil_2|]).
    intros j. specialize (Hf j). rewrite take_0 in *.
    split; [by intros ?%elem_of_nil|]. intros (Hj & Hl & Hne). apply Hf. split; [lia|done].
  - destruct (v_buf v !! k) as [x|] eqn:Ex; cbn; [|done]. intros [= <- <- <-].
    rewrite (take_S_r _ _ _ Ex) in Hn, Hf. apply list.NoDup_app in Hn as (Hn & Hx & _).
    assert (Hx' := proj1 (Hf x)). rewrite elem_of_app, list_elem_of_singleton in Hx'.
    destruct Hx' as [Hlt Hl]; [by right|].
    split; [done|]. split; [done|]. split; [lia|]. split; [lia|]. split; [done|].
    intros j. specialize (Hf j). rewrite elem_of_app, list_elem_of_singleton in Hf.
    destruct (decide (j = x)) as [->|Hne]; [|naive_solver].
    split; [intros Hj; exfalso; apply (Hx x Hj); by apply list_elem_of_singleton|naive_solver].
Qed.

Lemma free_record i n' t' :
  alloc_of v = Some (i, n', t') ->
  exists c, v_pool v !! i = Some c /\ state c = C_FREE /\ pending_wake c = false /\ w !! i = None.
Proof.
  intros A. destruct (alloc_fresh _ _ _ A) as (Hl & Hi & Hn & _).
  destruct (lookup_lt_is_Some_2 (v_pool v) i) as [c Hc].
  { pose proof (inv_len v w I). lia. }
  assert (Hs : state c = C_FREE).
  { destruct (decide (state c = C_FREE)); [done|]. exfalso. apply Hl. by exists c. }
  exists c. repeat split; try done; [by eapply (inv_clean v w I)|].
  destruct (w !! i) as [k|] eqn:E; [|done].
  destruct (inv_wait v w I i k E) as (_ & d & Hd & Sd & _). congruence.
Qed.

Lemma spawn_keeps i n' t' entry func arg fd fs :
  alloc_of v = Some (i, n', t') -> v_cur v = None ->
  inv (enter (mkView n' t' (v_buf v) (v_pool v) None (v_pend v) (v_acq v) (v_save v) (v_fp v)
                (v_addrs v) (v_conts v) (v_frames v))
         i (spawned i entry func arg fd) (v_pend v) (v_acq v) (v_fp v) fs) w.
Proof.
  intros A Hcur. destruct (alloc_fresh _ _ _ A) as (Hl & Hi & Hn & Hnn & Hnd & Hfr).
  destruct (free_record _ _ _ A) as (c & Hc & Sc & Pc & Wc).
  pose proof (inv_len v w I) as (Hp & Hb & Ha & Hk).
  assert (LA : forall j, (exists d, alter (spawned i entry func arg fd) i (v_pool v) !! j = Some d /\
                         state d <> C_FREE) <-> live v j \/ j = i).
  { intros j. unfold live. destruct (decide (j = i)) as [->|Hj].
    - rewrite list_lookup_alter_eq, Hc. cbn. split; [auto|]. intros _. by eexists.
    - rewrite list_lookup_alter_ne by done. naive_solver. }
  split; cbn; unfold live; cbn.
  - rewrite length_alter. done.
  - lia.
  - done.
  - intros j. rewrite Hfr, LA. tauto.
  - intros j Hj. rewrite LA. intros [Hlj| ->]; [|lia]. apply (inv_fresh v w I j); [lia|done].
  - intros j d Hd Sd. at_index j i Hc Hd. by eapply (inv_clean v w I).
  - intros j [= <-]. eexists. rewrite list_lookup_alter_eq, Hc. split; [done|]. cbn. auto.
  - intros j d Hd Sd. at_index j i Hc Hd; [done|]. by eapply (inv_frames v w I).
  - intros j d Hd Sd. at_index j i Hc Hd. pose proof (inv_running v w I _ _ Hd Sd). congruence.
  - intros j Hj. destruct (inv_pend v w I j Hj) as [_ Hlj]. rewrite LA.
    split; [intros [= ->]; done|by left].
  - intros j d Hd Sd. at_index j i Hc Hd. by eapply (inv_escaped v w I).
  - intros j k d e Hd He Sd Se. at_index j i Hc Hd. at_index k i Hc He.
    by eapply (inv_escaped_one v w I).
  - apply (inv_table v w I).
  - intros j k Hw. destruct (inv_wait v w I j k Hw) as (? & d & ? & ? & ?). split; [done|].
    exists d. rewrite list_lookup_alter_ne by congruence. done.
Qed.

(** Only the futex table changes. *)
Lemma table_keeps addrs conts w' :
  length addrs = MAX_FUTEX_WAITERS -> length conts = MAX_FUTEX_WAITERS ->
  (forall k a, addrs !! k = Some a -> a <> 0 ->
     exists i, conts !! k = Some (Some i) /\ w' !! i = Some k) ->
  (forall i k, w' !! i = Some k -> w !! i = Some k \/
     (k < MAX_FUTEX_WAITERS)%nat /\
     exists c, v_pool v !! i = Some c /\ state c <> C_FREE /\ state c <> C_ESCAPED) ->
  inv (mkView (v_next v) (v_top v) (v_buf v) (v_pool v) (v_cur v) (v_pend v) (v_acq v) (v_save v)
         (v_fp v) addrs conts (v_frames v)) w'.
Proof.
  intros La Lc Ht Hw. destruct I. split; cbn; try assumption.
  - destruct inv_len0 as (? & ? & _). auto.
  - intros i k [E|E]%Hw; [by apply inv_wait0|done].
Qed.

(** The wake of another continuation is addressed. *)
Lemma pend_keeps pend' :
  (forall i, pend' = Some i -> v_cur v <> Some i /\ live v i) ->
  inv (mkView (v_next v) (v_top v) (v_buf v) (v_pool v) (v_cur v) pend' (v_acq v) (v_save v)
         (v_fp v) (v_addrs v) (v_conts v) (v_frames v)) w.
Proof. intros Hp. destruct I. split; cbn; assumption. Qed.

(** The registers of the processor are not part of the invariant. *)
Lemma fp_keeps fp :
  inv (mkView (v_next v) (v_top v) (v_buf v) (v_pool v) (v_cur v) (v_pend v) (v_acq v) (v_save v)
         fp (v_addrs v) (v_conts v) (v_frames v)) w.
Proof. destruct I. split; cbn; assumption. Qed.

Lemma inv_registered : registered v.
Proof. intros k a Ha H1. destruct (inv_table v w I k a Ha H1) as (i & Hi & _). eauto. Qed.

(** A registered continuation is woken. *)
Lemma wake_slot_keeps k a :
  v_addrs v !! k = Some a -> a <> 0 ->
  (forall i, v_cur v = Some i -> w !! i = None) ->
  inv (wake_slot v k) w.
Proof.
  intros Ha Hn0 Hg. destruct (inv_table v w I k a Ha Hn0) as (i & Hi & Hw).
  destruct (inv_wait v w I i k Hw) as (Hk & c & Hc & Sc & _).
  assert (Hcur : v_cur v <> Some i) by (intros E%Hg; congruence).
  pose proof (woken_keeps i c Hc Sc Hcur) as J. unfold wake_slot. rewrite Hi.
  pose proof (inv_len v w I) as (_ & _ & La & Lc). clear Hcur Hc Sc.
  destruct J. split; cbn in *; try assumption.
  - rewrite !length_insert. tauto.
  - intros j b Hj Hb. destruct (decide (j = k)) as [->|Hjk].
    + apply list_lookup_insert_Some in Hj. naive_solver.
    + rewrite list_lookup_insert_ne in Hj by done. rewrite list_lookup_insert_ne by done. eauto.
Qed.
End Keep.
End Inv.
End ContInv.
