(* ===== verification/ContSpec.v ===== *)
(** What continuations promise: a machine of coroutines without pool, frames or
    free list.  A suspended coroutine is the context it was suspended in; the
    drain is the context it switched from.  Each step of the kernel's
    continuations is a step of this machine that hands control to the same
    context. *)

From S2P Require Import Prelude Errors Continuations ContInv.
From stdpp Require Import functions.
Open Scope Z_scope.

Module ContSpec.
Import Continuations ContRuns ContInv.

(** ** The abstract machine *)

(** A suspended coroutine; [a_fp] are its vector registers when it was
    interrupted rather than parked. *)
Record acont : Type := mkAc {
  a_ready : bool;
  a_ctx : State;
  a_fp : option AlignedFpSaveBuf;
}.

Record astate : Type := mkA {
  a_conts : gmap nat acont;
  a_running : option nat;
  a_drain : State; (** the drain's context while a coroutine runs *)
  a_fpregs : AlignedFpSaveBuf;
}.

(** What happens, with the context [here] that gave up control and the context
    [out] that received it. *)
Inductive event : Type :=
  | EvSpawn (entry : Z) (here out : State)
  | EvPark (here out : State)
  | EvEscape (here out : State)
  | EvExit (out : State)
  | EvResume (here out : State)
  | EvIdle
  | EvWake (n : Z) (** [n] coroutines are woken *)
  | EvFp (fp : AlignedFpSaveBuf)
  | EvStay.

Definition awake (c : acont) : acont := mkAc true (a_ctx c) (a_fp c).

Section Spec.
Context `{LayoutOk}.

Inductive astep : astate -> event -> astate -> Prop :=
  | a_spawn cs d fp i entry here :
      cs !! i = None ->
      astep (mkA cs None d fp) (EvSpawn entry here (first_context i entry)) (mkA cs (Some i) here fp)
  | a_park cs d fp i here :
      astep (mkA cs (Some i) d fp) (EvPark here d) (mkA (<[i := mkAc false here None]> cs) None d fp)
  | a_escape cs d fp i here :
      astep (mkA cs (Some i) d fp) (EvEscape here d)
        (mkA (<[i := mkAc true here (Some fp)]> cs) None d fp)
  | a_exit cs d fp i :
      astep (mkA cs (Some i) d fp) (EvExit d) (mkA cs None d fp)
  | a_resume cs d fp i c here :
      cs !! i = Some c -> a_ready c = true ->
      astep (mkA cs None d fp) (EvResume here (a_ctx c))
        (mkA (delete i cs) (Some i) here (default fp (a_fp c)))
  | a_idle cs d fp :
      (forall i c, cs !! i = Some c -> a_ready c = false) ->
      astep (mkA cs None d fp) EvIdle (mkA cs None d fp)
  | a_wake cs r d fp l :
      NoDup l -> (forall i, i ∈ l -> is_Some (cs !! i)) ->
      astep (mkA cs r d fp) (EvWake (Z.of_nat (length l))) (mkA (foldr (alter awake) cs l) r d fp)
  | a_fp_change cs r d fp fp' :
      astep (mkA cs r d fp) (EvFp fp') (mkA cs r d fp')
  | a_stay a : astep a EvStay a.

(** ** The steps of the kernel

    [strict] restricts the waker: it does not hit an escaped continuation. *)
Inductive step (strict : bool) : t * gmap nat nat -> event -> t * gmap nat nat -> Prop :=
  | step_spawn s w entry func arg fd here out s' :
      CURRENT_CONT s = None ->
      spawn_continuation true entry func arg fd here s = Done (Some out) s' ->
      step strict (s, w) (EvSpawn entry here out) (s', w)
  | step_park s w i pend here out s' :
      CURRENT_CONT s = Some i -> w !! i = None ->
      park_with_pend pend here s = Done (Some out) s' ->
      step strict (s, w) (EvPark here out) (s', w)
  | step_park_not s w i pend here s' :
      CURRENT_CONT s = Some i -> w !! i = None ->
      park_with_pend pend here s = Done None s' ->
      step strict (s, w) EvStay (s', w)
  | step_park_external_not s w i stats here s' :
      CURRENT_CONT s = Some i -> w !! i = None ->
      park_external stats here s = Done None s' ->
      step strict (s, w) EvStay (s', w)
  | step_park_external s w i stats here out s' :
      CURRENT_CONT s = Some i -> w !! i = None ->
      park_external stats here s = Done (Some out) s' ->
      step strict (s, w) (EvPark here out) (s', w)
  | step_escape s w i here out s' :
      CURRENT_CONT s = Some i -> w !! i = None ->
      continuation_self_escape here s = Done (Some out) s' ->
      step strict (s, w) (EvEscape here out) (s', w)
  | step_no_escape s w here s' :
      continuation_self_escape here s = Done None s' ->
      step strict (s, w) EvStay (s', w)
  | step_exit s w i here out s' :
      CURRENT_CONT s = Some i -> w !! i = None ->
      continuation_teardown here s = Done (Some out) s' ->
      step strict (s, w) (EvExit out) (s', w)
  | step_drain s w here out s' :
      CURRENT_CONT s = None -> drain_ready here s = Done (Some out) s' ->
      step strict (s, w) (EvResume here out) (s', w)
  | step_idle s w here s' :
      CURRENT_CONT s = None -> drain_ready here s = Done None s' ->
      step strict (s, w) EvIdle (s', w)
  | step_wake s w s' :
      (strict = true -> forall i c, CONT_PENDING s = Some i -> CONT_POOL s !! i = Some c ->
         state c <> C_ESCAPED) ->
      coop_wake s = Done tt s' ->
      step strict (s, w) (EvWake (if CONT_PENDING s then 1 else 0)) (s', w)
  | step_futex_wait s w i addr word expected here k out s' :
      CURRENT_CONT s = Some i -> w !! i = None -> addr <> 0 ->
      cont_futex_wait addr word expected here s = Done (WParked k (Some out)) s' ->
      step strict (s, w) (EvPark here out) (s', <[i := k]> w)
  | step_futex_wait_not s w i addr word expected here k s' :
      CURRENT_CONT s = Some i -> w !! i = None -> addr <> 0 ->
      cont_futex_wait addr word expected here s = Done (WParked k None) s' ->
      step strict (s, w) EvStay (s', <[i := k]> w)
  | step_futex_answer s w i addr word expected here r s' :
      CURRENT_CONT s = Some i -> w !! i = None ->
      cont_futex_wait addr word expected here s = Done (WAnswer r) s' ->
      step strict (s, w) EvStay (s', w)
  | step_futex_return s w i k r s' :
      CURRENT_CONT s = Some i -> w !! i = Some k ->
      cont_futex_wait_resumed k s = Done r s' ->
      step strict (s, w) EvStay (s', delete i w)
  | step_futex_wake s w addr count n s' :
      (forall i, CURRENT_CONT s = Some i -> w !! i = None) -> 0 <= count ->
      cont_futex_wake addr count s = Done n s' ->
      step strict (s, w) (EvWake n) (s', w)
  | step_env s w fp now :
      step strict (s, w) (EvFp fp) (set_fp_registers fp (set_counter now s), w).

(** Runs from boot. *)
Inductive reach (strict : bool) : t * gmap nat nat -> Prop :=
  | reach_init fs fp slot lsp : reach strict (init fs fp slot lsp, ∅)
  | reach_step x e y : reach strict x -> step strict x e y -> reach strict y.

(** ** The abstraction *)

Definition suspended (v : view) (i : nat) : option acont :=
  c ← v_pool v !! i;
  if decide (state c = C_FREE \/ v_cur v = Some i) then None
  else Some (mkAc (runnable c) (v_frames v (resume_frame c))
               (if bool_decide (state c = C_ESCAPED) then Some (v_save v) else None)).

Record R (v : view) (a : astate) : Prop := {
  R_running : a_running a = v_cur v;
  R_fp : a_fpregs a = v_fp v;
  R_drain : v_cur v <> None -> a_drain a = v_frames v drain_frame;
  R_conts i : a_conts a !! i = suspended v i;
}.

(** A continuation is suspended as before when its record, its frames and
    whether it runs are as before. *)
Lemma suspended_ext v w v' j :
  inv v w -> v_pool v' !! j = v_pool v !! j -> (v_cur v' = Some j <-> v_cur v = Some j) ->
  (forall d, v_pool v !! j = Some d -> state d = C_ESCAPED -> v_save v' = v_save v) ->
  (live v j -> v_frames v' (state_frame_of j) = v_frames v (state_frame_of j) /\
     v_frames v' (escape_buf j) = v_frames v (escape_buf j)) ->
  suspended v' j = suspended v j.
Proof.
  intros I Hp Hc Hs Hf. unfold suspended. rewrite Hp.
  destruct (v_pool v !! j) as [d|] eqn:Hd; cbn; [|done].
  rewrite (decide_ext (state d = C_FREE \/ v_cur v' = Some j) (state d = C_FREE \/ v_cur v = Some j))
    by (rewrite Hc; done).
  case_decide as E; [done|].
  assert (state d <> C_FREE) as Hl by tauto.
  destruct (inv_frames v w I j d Hd Hl) as [E1 E2].
  destruct (Hf (ex_intro _ d (conj Hd Hl))) as [F1 F2].
  unfold resume_frame. destruct (decide (state d = C_ESCAPED)) as [Ed|Ed].
  - rewrite (bool_decide_eq_true_2 _ Ed), E2, F2, (Hs d) by done. done.
  - rewrite (bool_decide_eq_false_2 _ Ed), E1, F1. done.
Qed.

(** Writing the frame of [i] or the drain's leaves the others. *)
Lemma frame_other v w i j here :
  inv v w -> live v j -> (i < MAX_CONTINUATIONS)%nat -> i <> j ->
  forall p, p = state_frame_of i \/ p = escape_buf i \/ p = drain_frame ->
  (<[p := here]> (v_frames v)) (state_frame_of j) = v_frames v (state_frame_of j) /\
  (<[p := here]> (v_frames v)) (escape_buf j) = v_frames v (escape_buf j).
Proof.
  intros I L Hi Hn p Hp. pose proof (live_max v w I j L) as Hj.
  assert (state_frame_of i <> state_frame_of j) by (intros E%state_frame_inj; done).
  assert (escape_buf i <> escape_buf j) by (intros E%escape_inj; done).
  pose proof (state_escape_ne i j Hi Hj). pose proof (state_escape_ne j i Hj Hi).
  pose proof (state_drain_ne j Hj). pose proof (escape_drain_ne j Hj).
  rewrite !fn_lookup_insert_ne; [done|..]; naive_solver.
Qed.


Section Simulation.
Context (v : view) (w : gmap nat nat) (a : astate) (I : inv v w) (HR : R v a).

(** The running continuation leaves with its record turned into [f c]. *)
Lemma R_leave i c f pend' acq' save' here :
  v_cur v = Some i -> v_pool v !! i = Some c ->
  state_frame (f c) = state_frame c -> escape_frame (f c) = escape_frame c ->
  state (f c) <> C_FREE ->
  (forall j d, v_pool v !! j = Some d -> state d = C_ESCAPED -> save' = v_save v) ->
  let v' := leave (mkView (v_next v) (v_top v) (v_buf v) (v_pool v) (v_cur v) (v_pend v) acq' save'
                (v_fp v) (v_addrs v) (v_conts v) (v_frames v)) i f pend' (resume_frame (f c)) here in
  v_frames v' drain_frame = a_drain a /\
  R v' (mkA (<[i := mkAc (runnable (f c)) here
                 (if bool_decide (state (f c) = C_ESCAPED) then Some save' else None)]> (a_conts a))
          None (a_drain a) (a_fpregs a)).
Proof.
  intros Hcur Hc Hsf Hef Hf Hsave v'. pose proof (live_max v w I i (cur_live v w I i Hcur)) as Hi.
  assert (Hl : state c <> C_FREE) by (destruct (cur_live v w I i Hcur); naive_solver).
  destruct (inv_frames v w I i c Hc Hl) as [F1 F2].
  assert (Hp : resume_frame (f c) = state_frame_of i \/ resume_frame (f c) = escape_buf i \/
               resume_frame (f c) = drain_frame).
  { unfold resume_frame. rewrite Hsf, Hef. case_bool_decide; auto. }
  assert (Hd : v_frames v' drain_frame = a_drain a).
  { rewrite (R_drain v a HR) by congruence. cbn. apply fn_lookup_insert_ne.
    pose proof (state_drain_ne i Hi). pose proof (escape_drain_ne i Hi).
    unfold resume_frame. rewrite Hsf, Hef. case_bool_decide; congruence. }
  split; [done|]. split; cbn; [done|apply HR|done|].
  intros j. destruct (decide (j = i)) as [->|Hj].
  - rewrite lookup_insert_eq. unfold suspended. cbn. rewrite list_lookup_alter_eq, Hc. cbn.
    rewrite decide_False by (intros [?|?]; done).
    by rewrite fn_lookup_insert.
  - rewrite lookup_insert_ne, (R_conts v a HR) by done. symmetry.
    apply (suspended_ext v w); cbn; [done|by apply list_lookup_alter_ne|split; congruence|by eauto|].
    intros L. by apply (frame_other v w i j).
Qed.

(** A continuation starts to run, the drain's context being saved. *)
Lemma R_enter i c f pend' acq' fp here fs :
  v_cur v = None -> v_pool v !! i = Some c -> (i < MAX_CONTINUATIONS)%nat ->
  (forall j, live v j -> j <> i -> fs (state_frame_of j) = v_frames v (state_frame_of j) /\
     fs (escape_buf j) = v_frames v (escape_buf j)) ->
  R (enter v i f pend' acq' fp (<[drain_frame := here]> fs))
    (mkA (delete i (a_conts a)) (Some i) here fp).
Proof.
  intros Hcur Hc Hi Hfs. split; cbn; [done|done|by rewrite fn_lookup_insert|].
  intros j. destruct (decide (j = i)) as [->|Hj].
  - rewrite lookup_delete_eq. unfold suspended. cbn. rewrite list_lookup_alter_eq, Hc. cbn.
    by rewrite decide_True by auto.
  - rewrite lookup_delete_ne, (R_conts v a HR) by done. symmetry.
    apply (suspended_ext v w); cbn; [done|by apply list_lookup_alter_ne|rewrite Hcur; split; congruence|done|].
    intros L. destruct (Hfs j L Hj) as [E1 E2].
    pose proof (live_max v w I j L) as Hjm.
    pose proof (state_drain_ne j Hjm). pose proof (escape_drain_ne j Hjm).
    rewrite !fn_lookup_insert_ne by congruence. done.
Qed.

Lemma suspended_Some i c :
  v_pool v !! i = Some c -> state c <> C_FREE -> v_cur v <> Some i ->
  a_conts a !! i = Some (mkAc (runnable c) (v_frames v (resume_frame c))
                      (if bool_decide (state c = C_ESCAPED) then Some (v_save v) else None)).
Proof.
  intros Hc Hl Hn. rewrite (R_conts v a HR). unfold suspended. rewrite Hc. cbn.
  by rewrite decide_False by tauto.
Qed.

(** A suspended continuation that was not interrupted is woken. *)
Lemma R_woken i c addrs conts :
  v_pool v !! i = Some c -> state c <> C_FREE -> state c <> C_ESCAPED -> v_cur v <> Some i ->
  R (mkView (v_next v) (v_top v) (v_buf v) (alter woken i (v_pool v)) (v_cur v) (v_pend v)
       (v_acq v) (v_save v) (v_fp v) addrs conts (v_frames v))
    (mkA (alter awake i (a_conts a)) (a_running a) (a_drain a) (a_fpregs a)).
Proof.
  intros Hc Hl He Hn. destruct HR as [R1 R2 R3 R4]. split; cbn; try done.
  intros j. destruct (decide (j = i)) as [->|Hj].
  - rewrite lookup_alter_eq, (suspended_Some i c) by done. unfold suspended; cbn.
    rewrite list_lookup_alter_eq, Hc; cbn. rewrite decide_False by (intros [?|?]; done).
    unfold resume_frame, awake; cbn. rewrite !(bool_decide_eq_false_2 (state c = C_ESCAPED)) by done.
    done.
  - rewrite lookup_alter_ne, R4 by done. symmetry.
    apply (suspended_ext v w); cbn; [done|by apply list_lookup_alter_ne|done..].
Qed.
End Simulation.

(** ** Every step keeps the invariant and is a step of the abstract machine *)

Definition sound (strict : bool) (s : t) (w : gmap nat nat) (e : event) (s' : t)
  (w' : gmap nat nat) : Prop :=
  inv (view_of s') w' /\
  (strict = true -> forall a, R (view_of s) a -> exists a', astep a e a' /\ R (view_of s') a').

Lemma runs_det {A} (m : M t A) s r v r' s' :
  runs m s r v -> m s = Done r' s' -> r' = r /\ view_of s' = v.
Proof. intros (s2 & E & V) E'. rewrite E in E'. simplify_eq. done. Qed.

Section Steps.
Context (strict : bool) (s : t) (w : gmap nat nat) (I : inv (view_of s) w).

Lemma current_record i :
  CURRENT_CONT s = Some i ->
  exists c, CONT_POOL s !! i = Some c /\ pending_wake c = false /\ resumer_frame c = drain_frame /\
    state_frame c = state_frame_of i /\ escape_frame c = escape_buf i /\
    state_frame c <> drain_frame /\ escape_frame c <> drain_frame.
Proof.
  intros Hc. destruct (inv_cur _ _ I i Hc) as (c & Ec & Es & Ep & Er). exists c.
  pose proof (cur_live _ _ I i Hc) as L. apply (live_max _ _ I) in L.
  assert (Hl : state c <> C_FREE) by (by destruct Es as [-> | ->]).
  destruct (inv_frames _ _ I i c Ec Hl) as [F1 F2].
  pose proof (state_drain_ne i L). pose proof (escape_drain_ne i L).
  repeat split; try done; congruence.
Qed.

(** Parking, whichever function does it. *)
Lemma sound_leave_parked i c pend' here out s' :
  CURRENT_CONT s = Some i -> CONT_POOL s !! i = Some c ->
  pend' = Some i \/ pend' = CONT_PENDING s ->
  out = (<[state_frame c := here]> (frames s)) (resumer_frame c) ->
  view_of s' = leave (view_of s) i parked pend' (state_frame c) here ->
  sound strict s w (EvPark here out) s' w.
Proof.
  intros Hi Hc Hp -> V. unfold sound. rewrite V.
  destruct (current_record i Hi) as (c' & Ec & Ep & Er & F1 & F2 & N1 & N2). simplify_eq.
  split; [by apply (leave_keeps _ _ I i c)|].
  intros _ a HR.
  destruct (R_leave _ _ a I HR i c parked pend' (FP_SAVE_ACQUIRED s) (FP_SAVE_BUF s) here)
    as [D R']; [done..|].
  destruct a as [cs r d fp]. assert (r = Some i) as -> by (rewrite <- Hi; apply (R_running _ _ HR)).
  eexists. split; [|exact R']. cbn in D. rewrite Er. replace (state_frame c) with (resume_frame (parked c)) by done.
  rewrite D. apply a_park.
Qed.

Lemma sound_park i pend here r s' :
  CURRENT_CONT s = Some i -> park_with_pend pend here s = Done r s' ->
  exists out, r = Some out /\ sound strict s w (EvPark here out) s' w.
Proof.
  intros Hi E. destruct (current_record i Hi) as (c & Ec & Ep & _).
  destruct (runs_det _ _ _ _ _ _ (park_with_pend_run pend here s i c Hi Ec Ep) E) as [-> V].
  eexists. split; [done|]. eapply sound_leave_parked; try done. destruct pend; auto.
Qed.

Lemma sound_park_external i stats here r s' :
  CURRENT_CONT s = Some i -> park_external stats here s = Done r s' ->
  exists out, r = Some out /\ sound strict s w (EvPark here out) s' w.
Proof.
  intros Hi E. destruct (current_record i Hi) as (c & Ec & Ep & _).
  destruct (runs_det _ _ _ _ _ _ (park_external_run stats here s i c Hi Ec Ep) E) as [-> V].
  eexists. split; [done|]. eapply sound_leave_parked; try done. auto.
Qed.

Lemma sound_escape i here out s' :
  CURRENT_CONT s = Some i -> w !! i = None ->
  continuation_self_escape here s = Done (Some out) s' ->
  sound strict s w (EvEscape here out) s' w.
Proof.
  intros Hi Hw E. destruct (current_record i Hi) as (c & Ec & Ep & Er & F1 & F2 & N1 & N2).
  destruct (quantum_armed c) eqn:Eq; [|rewrite (self_escape_unarmed here s i c Hi Ec Eq) in E; done].
  destruct (FP_SAVE_ACQUIRED s) eqn:Ea.
  { by rewrite (self_escape_panics here s i c Hi Ec Eq Ea) in E. }
  destruct (runs_det _ _ _ _ _ _ (self_escape_run here s i c Hi Ec Eq Ea) E) as [[= ->] V].
  unfold sound. rewrite V.
  assert (Hno : forall j d, CONT_POOL s !! j = Some d -> state d <> C_ESCAPED).
  { intros j d Hd Sd. pose proof (inv_escaped _ _ I j d Hd Sd). cbn in *. congruence. }
  split; [apply (leave_keeps _ _ I i c); try done; auto|].
  intros _ a HR.
  destruct (R_leave _ _ a I HR i c escaped (Some i) true (fp_registers s) here)
    as [D R']; [done..| |].
  { intros j d Hd Sd. by destruct (Hno j d Hd). }
  destruct a as [cs r d fp]. assert (r = Some i) as -> by (rewrite <- Hi; apply (R_running _ _ HR)).
  pose proof (R_fp _ _ HR) as Hfp. cbn in Hfp. subst fp.
  eexists. split; [|exact R']. cbn in D. rewrite Er.
  replace (escape_frame c) with (resume_frame (escaped c)) by done.
  rewrite D. apply a_escape.
Qed.

Lemma sound_no_escape here s' :
  continuation_self_escape here s = Done None s' -> sound strict s w EvStay s' w.
Proof.
  intros E. destruct (CURRENT_CONT s) as [i|] eqn:Hi.
  - destruct (current_record i Hi) as (c & Ec & Ep & _).
    destruct (quantum_armed c) eqn:Eq.
    + exfalso. destruct (FP_SAVE_ACQUIRED s) eqn:Ea.
      * by rewrite (self_escape_panics here s i c Hi Ec Eq Ea) in E.
      * destruct (self_escape_run here s i c Hi Ec Eq Ea) as (s2 & E2 & _). congruence.
    + rewrite (self_escape_unarmed here s i c Hi Ec Eq) in E. simplify_eq.
      split; [exact I|]. intros _ a HR. exists a. split; [constructor|done].
  - unfold continuation_self_escape in E. cbv [bind gets ret] in E. rewrite Hi in E. simplify_eq.
    split; [exact I|]. intros _ a HR. exists a. split; [constructor|done].
Qed.

Lemma sound_exit i here out s' :
  CURRENT_CONT s = Some i -> w !! i = None ->
  continuation_teardown here s = Done (Some out) s' ->
  sound strict s w (EvExit out) s' w.
Proof.
  intros Hi Hw E. destruct (current_record i Hi) as (c & Ec & Ep & Er & F1 & F2 & N1 & N2).
  assert (Ht : (CONT_FREE_TOP s < MAX_CONTINUATIONS)%nat).
  { pose proof (cur_top _ _ I i Hi). pose proof (inv_top _ _ I). cbn in *. lia. }
  destruct (runs_det _ _ _ _ _ _ (teardown_run here s i c Hi Ec Ht) E) as [[= ->] V].
  unfold sound. rewrite V. split; [by apply (teardown_keeps _ _ I i c)|].
  intros _ a HR. destruct a as [cs r d fp].
  assert (r = Some i) as -> by (rewrite <- Hi; apply (R_running _ _ HR)).
  exists (mkA cs None d fp). rewrite Er, fn_lookup_insert_ne by done.
  pose proof (R_drain _ _ HR ltac:(cbn; congruence)) as Hd. cbn in Hd. rewrite <- Hd.
  split; [apply a_exit|]. split; cbn; [done|apply (R_fp _ _ HR)|done|].
  pose proof (live_max _ _ I i (cur_live _ _ I i Hi)) as Hm.
  intros j. pose proof (R_conts _ _ HR j) as Hj. cbn in Hj. rewrite Hj.
  destruct (decide (j = i)) as [->|Hn].
  - unfold suspended. cbn. rewrite list_lookup_alter_eq, Ec. cbn.
    rewrite decide_True by auto. rewrite decide_True by auto. done.
  - symmetry. apply (suspended_ext (view_of s) w); cbn;
      [done|by apply list_lookup_alter_ne|split; congruence|done|].
    intros L. apply (frame_other _ _ i j here I L Hm ltac:(congruence)). auto.
Qed.

Lemma pending_live i : CONT_PENDING s = Some i -> is_Some (CONT_POOL s !! i).
Proof. intros Hi. destruct (inv_pend _ _ I i Hi) as [_ (c & Hc & _)]. by exists c. Qed.

Lemma sound_drain here out s' :
  CURRENT_CONT s = None -> drain_ready here s = Done (Some out) s' ->
  sound strict s w (EvResume here out) s' w.
Proof.
  intros Hcur E.
  destruct (next_ready (view_of s)) as [i|] eqn:En;
    [|rewrite (drain_idle here s pending_live En) in E; done].
  destruct (next_ready_Some _ _ En) as (c & Hc & Hr).
  assert (Hl : state c <> C_FREE) by (unfold runnable in Hr; by destruct (state c)).
  assert (Hm : (i < MAX_CONTINUATIONS)%nat) by (apply (live_max _ _ I); by exists c).
  assert (Hnr : v_cur (view_of s) <> Some i) by (cbn; congruence).
  destruct (runs_det _ _ _ _ _ _
    (drain_run here s i c pending_live Hcur En Hc (inv_escaped _ _ I i c Hc)) E) as [[= ->] V].
  unfold sound. rewrite V. cbv zeta. split.
  { eapply (enter_keeps _ _ I i c); try done. intros Ne. by rewrite bool_decide_eq_false_2. }
  intros _ a HR.
  pose proof (suspended_Some _ a HR i c Hc Hl Hnr) as Ha.
  eexists. split; [|apply (R_enter _ w a I HR i c); [done..|auto]].
  destruct a as [cs r d fp]. assert (r = None) as -> by (rewrite <- Hcur; apply (R_running _ _ HR)).
  pose proof (R_fp _ _ HR) as Hfp. cbn in Hfp. subst fp.
  assert (Hne : drain_frame <> resume_frame c).
  { destruct (inv_frames _ _ I i c Hc Hl) as [F1 F2]. unfold resume_frame.
    pose proof (state_drain_ne i Hm). pose proof (escape_drain_ne i Hm).
    case_bool_decide; congruence. }
  rewrite fn_lookup_insert_ne by done. cbn in Ha.
  pose proof (a_resume cs d (fp_registers s) i _ here Ha Hr) as Hs. cbn in Hs.
  replace (if bool_decide (state c = C_ESCAPED) then FP_SAVE_BUF s else fp_registers s)
    with (default (fp_registers s)
            (if bool_decide (state c = C_ESCAPED) then Some (FP_SAVE_BUF s) else None))
    by (by case_bool_decide).
  exact Hs.
Qed.

Lemma sound_idle here s' :
  CURRENT_CONT s = None -> drain_ready here s = Done None s' -> sound strict s w EvIdle s' w.
Proof.
  intros Hcur E. pose proof pending_live as Hp.
  destruct (next_ready (view_of s)) as [i|] eqn:En.
  { destruct (next_ready_Some _ _ En) as (c & Hc & Hr).
    destruct (drain_run here s i c pending_live Hcur En Hc (inv_escaped _ _ I i c Hc))
      as (s2 & E2 & _). congruence. }
  rewrite (drain_idle here s pending_live En) in E. simplify_eq. split; [exact I|].
  intros _ a HR. exists a. split; [|done].
  destruct a as [cs r d fp]. assert (r = None) as -> by (rewrite <- Hcur; apply (R_running _ _ HR)).
  apply a_idle. intros i c Hi. pose proof (R_conts _ _ HR i) as Hx. cbn in Hx. rewrite Hi in Hx.
  unfold suspended in Hx. cbn in Hx. destruct (CONT_POOL s' !! i) as [d'|] eqn:Ed; [|done].
  cbn in Hx. case_decide; simplify_eq. cbn. by eapply (next_ready_None (view_of s')).
Qed.

Lemma sound_spawn entry func arg fd here out s' :
  CURRENT_CONT s = None -> spawn_continuation true entry func arg fd here s = Done (Some out) s' ->
  sound strict s w (EvSpawn entry here out) s' w.
Proof.
  intros Hcur E. destruct (alloc_of (view_of s)) as [[[i n'] t']|] eqn:Ea; last first.
  { destruct (spawn_exhausted entry func arg fd here s Ea) as [why Ew]. congruence. }
  destruct (alloc_fresh _ _ I i n' t' Ea) as (Hnl & Hi & Hn & _).
  destruct (free_record _ _ I i n' t' Ea) as (c & Hc & Sc & Pc & _).
  assert (Hm : (i < MAX_CONTINUATIONS)%nat) by lia.
  destruct (runs_det _ _ _ _ _ _ (spawn_run entry func arg fd here s i n' t' c Ea Hc Sc Hm Hcur) E)
    as [[= ->] V].
  unfold sound. rewrite V. split; [by apply (spawn_keeps _ _ I)|].
  intros _ a HR.
  assert (Hsus : a_conts a !! i = None).
  { rewrite (R_conts _ _ HR). unfold suspended. cbn. cbn in Hc. rewrite Hc. cbn.
    by rewrite decide_True by auto. }
  pose proof (R_enter _ w a I HR i c (spawned i entry func arg fd) (CONT_PENDING s)
    (FP_SAVE_ACQUIRED s) (fp_registers s) here
    (<[state_frame_of i := first_context i entry]> (frames s)) Hcur Hc Hm) as R'.
  rewrite delete_id in R' by done.
  exists (mkA (a_conts a) (Some i) here (fp_registers s)). split.
  - rewrite fn_lookup_insert_ne, fn_lookup_insert by (apply not_eq_sym, state_drain_ne, Hm).
    destruct a as [cs r d fp]. assert (r = None) as -> by (rewrite <- Hcur; apply (R_running _ _ HR)).
    pose proof (R_fp _ _ HR) as Hfp. cbn in Hfp. subst fp. by apply a_spawn.
  - assert (R2 := R'). clear R'. specialize (R2 ltac:(
      intros j L Hj; apply (frame_other _ _ i j _ I L Hm ltac:(congruence)); auto)).
    by destruct R2.
Qed.

Lemma sound_wake s' :
  (strict = true -> forall i c, CONT_PENDING s = Some i -> CONT_POOL s !! i = Some c ->
     state c <> C_ESCAPED) ->
  coop_wake s = Done tt s' ->
  sound strict s w (EvWake (if CONT_PENDING s then 1 else 0)) s' w.
Proof.
  intros Hs E. destruct (runs_det _ _ _ _ _ _ (coop_wake_run s) E) as [_ V].
  unfold sound. rewrite V. cbn. destruct (CONT_PENDING s) as [i|] eqn:Hp.
  - destruct (inv_pend _ _ I i Hp) as [Hn (c & Hc & Sc)].
    split; [pose proof (woken_keeps _ _ I i c Hc Sc Hn) as K; cbn in K; by rewrite Hp in K|].
    intros -> a HR. pose proof (Hs eq_refl i c eq_refl Hc) as He.
    eexists. split; [|pose proof (R_woken _ w a I HR i c (CONT_FUTEX_ADDRS s) (CONT_FUTEX_CONTS s) Hc Sc He Hn) as K;
      cbn in K; rewrite Hp in K; exact K].
    destruct a as [cs r d fp]. apply (a_wake cs r d fp [i]); [apply NoDup_singleton|].
    intros j ->%list_elem_of_singleton. pose proof (suspended_Some _ _ HR i c Hc Sc Hn) as K.
    by eexists.
  - assert (Hv : mkView (CONT_NEXT s) (CONT_FREE_TOP s) (CONT_FREE_BUF s) (CONT_POOL s)
      (CURRENT_CONT s) None (FP_SAVE_ACQUIRED s) (FP_SAVE_BUF s) (fp_registers s)
      (CONT_FUTEX_ADDRS s) (CONT_FUTEX_CONTS s) (frames s) = view_of s) by (unfold view_of; by rewrite Hp).
    rewrite Hv. split; [exact I|]. intros _ a HR. exists a. split; [|done].
    destruct a as [cs r d fp]. apply (a_wake cs r d fp []); [apply NoDup_nil_2|].
    by intros j ?%elem_of_nil.
Qed.

(** The futex slots hit by one wake, one after the other. *)
Lemma wake_slots_sound ks : forall v a,
  inv v w -> (forall i, v_cur v = Some i -> w !! i = None) -> NoDup ks ->
  (forall k, k ∈ ks -> exists x, v_addrs v !! k = Some x /\ x <> 0) ->
  inv (foldl wake_slot v ks) w /\
  (R v a -> exists l, length l = length ks /\ NoDup l /\
     (forall i, i ∈ l -> is_Some (a_conts a !! i) /\ exists k, k ∈ ks /\ w !! i = Some k) /\
     R (foldl wake_slot v ks)
       (mkA (foldl (fun cs i => alter awake i cs) (a_conts a) l) (a_running a) (a_drain a) (a_fpregs a))).
Proof.
  induction ks as [|k ks IH]; intros v a J Hg Hnd Hk; cbn.
  { split; [done|]. intros HR. exists []. split; [done|]. split; [apply NoDup_nil_2|].
    split; [by intros i ?%elem_of_nil|]. by destruct a. }
  apply list.NoDup_cons in Hnd as [Hnk Hnd].
  destruct (Hk k ltac:(by left)) as (x & Hx & Hx0).
  destruct (inv_table v w J k x Hx Hx0) as (i & Hi & Hw).
  destruct (inv_wait v w J i k Hw) as (_ & c & Hc & Sc & Ec).
  assert (Hcur : v_cur v <> Some i) by (intros E%Hg; congruence).
  pose proof (wake_slot_keeps v w J k x Hx Hx0 Hg) as J'.
  assert (Hk' : forall k', k' ∈ ks -> exists x', v_addrs (wake_slot v k) !! k' = Some x' /\ x' <> 0).
  { intros k' Hin. destruct (Hk k' ltac:(by right)) as (x' & Hx' & Hx0'). exists x'. cbn.
    rewrite list_lookup_insert_ne; [done|]. by intros ->. }
  destruct (IH (wake_slot v k) (mkA (alter awake i (a_conts a)) (a_running a) (a_drain a) (a_fpregs a))
              J' Hg Hnd Hk') as [J2 HR2].
  split; [done|]. intros HR.
  pose proof (R_woken v w a J HR i c (<[k := 0]> (v_addrs v)) (<[k := None]> (v_conts v)) Hc Sc Ec Hcur) as K.
  assert (Hv : wake_slot v k = mkView (v_next v) (v_top v) (v_buf v) (alter woken i (v_pool v)) (v_cur v)
    (v_pend v) (v_acq v) (v_save v) (v_fp v) (<[k := 0]> (v_addrs v)) (<[k := None]> (v_conts v)) (v_frames v))
    by (unfold wake_slot; by rewrite Hi).
  rewrite <- Hv in K. destruct (HR2 K) as (l & Hl & Hndl & Hin & R'). cbn in *.
  exists (i :: l). split; [cbn; congruence|]. split.
  { apply list.NoDup_cons. split; [|done]. intros Hil. destruct (Hin i Hil) as (_ & k' & Hk1 & Hk2).
    congruence. }
  split; [|exact R'].
  intros j [->|Hj]%elem_of_cons.
  - split; [|exists k; split; [by left|done]].
    pose proof (suspended_Some v a HR i c Hc Sc Hcur) as Hsome. by eexists.
  - destruct (Hin j Hj) as [Hs (k' & Hk1 & Hk2)]. split; [|exists k'; split; [by right|done]].
    destruct (decide (j = i)) as [->|Hji].
    + rewrite lookup_alter_eq in Hs. by apply fmap_is_Some in Hs.
    + by rewrite lookup_alter_ne in Hs.
Qed.

Lemma alter_awake_comm (cs : gmap nat acont) l i :
  alter awake i (foldr (alter awake) cs l) = foldr (alter awake) (alter awake i cs) l.
Proof.
  induction l as [|j l IH]; cbn; [done|]. rewrite <- IH.
  destruct (decide (i = j)) as [->|Hn]; [done|]. by rewrite alter_alter_ne.
Qed.

Lemma foldl_awake (cs : gmap nat acont) l :
  foldl (fun cs i => alter awake i cs) cs l = foldr (alter awake) cs l.
Proof.
  revert cs. induction l as [|i l IH]; intros cs; cbn; [done|]. by rewrite IH, <- alter_awake_comm.
Qed.

Lemma waiters_spec addr addrs k n j :
  In j (waiters addr addrs k n) -> addrs !! j = Some addr /\ addr <> 0.
Proof.
  unfold waiters, waits_on. intros [_ Hw]%filter_In. apply andb_prop in Hw as [Hw Hz].
  apply bool_decide_eq_true in Hw. split; [done|]. apply negb_true_iff, Z.eqb_neq in Hz. done.
Qed.

Lemma waiters_nodup addr addrs k n : NoDup (waiters addr addrs k n).
Proof. apply NoDup_ListNoDup. unfold waiters. apply List.NoDup_filter, seq_NoDup. Qed.

Lemma foldl_wake_cur ks : forall v, v_cur (foldl wake_slot v ks) = v_cur v.
Proof. induction ks as [|k ks IH]; intros v; cbn; [done|]. by rewrite IH. Qed.

Lemma sound_futex_wake addr count n s' :
  (forall i, CURRENT_CONT s = Some i -> w !! i = None) -> 0 <= count ->
  cont_futex_wake addr count s = Done n s' ->
  sound strict s w (EvWake n) s' w.
Proof.
  intros Hg Hc E. destruct (decide (count = 0)) as [->|Hc0].
  { assert (cont_futex_wake addr 0 s = Done 0 s) as E0 by reflexivity.
    rewrite E0 in E. simplify_eq. split; [exact I|].
    intros _ a HR. exists a. split; [|done]. destruct a as [cs r d fp].
    apply (a_wake cs r d fp []); [apply NoDup_nil_2|by intros j ?%elem_of_nil]. }
  pose proof (inv_len _ _ I) as (_ & _ & La & _).
  destruct (runs_det _ _ _ _ _ _
    (cont_futex_wake_run addr count s ltac:(lia) La (inv_registered _ _ I)) E) as [-> V].
  clear E. revert V. set (mw := if count =? i32_max then _ else _). clearbody mw.
  set (ks := take (Z.to_nat mw) (waiters addr (CONT_FUTEX_ADDRS s) 0 MAX_FUTEX_WAITERS)).
  assert (Hks : forall k, k ∈ ks -> CONT_FUTEX_ADDRS s !! k = Some addr /\ addr <> 0).
  { intros k Hk. apply (subseteq_take (Z.to_nat mw)), list_elem_of_In in Hk.
    by eapply waiters_spec. }
  assert (Hnd : NoDup ks) by (eapply sublist_NoDup; [apply waiters_nodup|apply sublist_take]).
  clearbody ks. intros V. unfold sound. rewrite V. cbv zeta.
  assert (Hin : forall k, k ∈ ks -> exists x, v_addrs (view_of s) !! k = Some x /\ x <> 0)
    by (intros k Hk%Hks; by exists addr).
  assert (HW := fun a => wake_slots_sound ks (view_of s) a I Hg Hnd Hin).
  set (v := foldl wake_slot (view_of s) ks) in *.
  split.
  - destruct (HW (mkA ∅ None (mkState 0 0 0 0 0 []) (fp_registers s))) as [J _].
    apply (pend_keeps v w J). intros i Hi.
    destruct (List.rev ks) as [|j js] eqn:Ek; [by apply (inv_pend v w J)|].
    assert (Hj : j ∈ ks).
    { apply list_elem_of_In. rewrite <- (rev_involutive ks), Ek. apply in_rev.
      rewrite rev_involutive. by left. }
    destruct (Hks j Hj) as [Hj1 Hj2]. destruct (inv_table _ _ I j addr Hj1 Hj2) as (i' & Hi1 & Hi2).
    cbn in Hi1. rewrite Hi1 in Hi. cbn in Hi. simplify_eq. split.
    + unfold v. rewrite foldl_wake_cur. intros Ec%Hg. congruence.
    + destruct (inv_wait v w J i j Hi2) as (_ & c & ? & ? & _). by exists c.
  - intros _ a HR. destruct (HW a) as [_ HR']. destruct (HR' HR) as (l & Hl & Hndl & Hl2 & R').
    rewrite <- Hl, foldl_awake in *. destruct a as [cs r d fp]. cbn in *.
    eexists. split; [apply (a_wake cs r d fp l Hndl); intros i Hi; by apply Hl2|].
    destruct R' as [R1 R2 R3 R4]. split; cbn in *; try done.
Qed.

(** Entering and leaving [cont_futex_wait]. *)
Lemma sound_futex_wait i addr word expected here k f s' :
  CURRENT_CONT s = Some i -> w !! i = None -> addr <> 0 ->
  cont_futex_wait addr word expected here s = Done (WParked k f) s' ->
  exists out, f = Some out /\ sound strict s w (EvPark here out) s' (<[i := k]> w).
Proof.
  intros Hi Hw Ha E. destruct (current_record i Hi) as (c & Ec & Ep & Er & F1 & F2 & N1 & N2).
  destruct (decide (word = expected)) as [->|Hne];
    [|rewrite (futex_wait_again _ _ _ _ _ i) in E by done; done].
  pose proof (inv_len _ _ I) as (_ & _ & La & Lc).
  destruct (futex_wait_run addr expected here s i c Hi Ec Ep La)
    as [(k' & Hk & Hk0 & Hr)|[_ Er']]; [|congruence].
  destruct (runs_det _ _ _ _ _ _ Hr E) as [[= -> ->] V].
  eexists. split; [done|].
  set (v1 := mkView (CONT_NEXT s) (CONT_FREE_TOP s) (CONT_FREE_BUF s) (CONT_POOL s) (CURRENT_CONT s)
    (CONT_PENDING s) (FP_SAVE_ACQUIRED s) (FP_SAVE_BUF s) (fp_registers s)
    (<[k' := addr]> (CONT_FUTEX_ADDRS s)) (<[k' := Some i]> (CONT_FUTEX_CONTS s)) (frames s)).
  assert (J : inv v1 (<[i := k']> w)).
  { apply (table_keeps (view_of s) w I).
    - by rewrite length_insert.
    - by rewrite length_insert.
    - intros j x Hj Hx. destruct (decide (j = k')) as [->|Hjk].
      + exists i. rewrite list_lookup_insert_eq by (cbn in Lc; lia). by rewrite lookup_insert_eq.
      + rewrite list_lookup_insert_ne in Hj by done. destruct (inv_table _ _ I j x Hj Hx) as (i' & Hi1 & Hi2).
        exists i'. rewrite list_lookup_insert_ne by done. split; [done|].
        rewrite lookup_insert_ne; [done|]. intros ->. congruence.
    - intros j x. rewrite lookup_insert_Some. intros [[<- <-]|[_ ?]]; [|by left]. right.
      split; [done|]. exists c. split; [done|].
      destruct (inv_cur _ _ I i Hi) as (c' & Ec' & Es & _). cbn in Ec'. simplify_eq.
      by destruct Es as [-> | ->]. }
  unfold sound. rewrite V. cbv zeta. fold v1.
  split.
  - apply (leave_keeps v1 _ J i c); try done. auto.
  - intros _ a HR. assert (HR1 : R v1 a) by (by destruct HR).
    destruct (R_leave v1 _ a J HR1 i c parked (Some i) (FP_SAVE_ACQUIRED s) (FP_SAVE_BUF s) here)
      as [D R']; [done..|].
    destruct a as [cs r d fp]. assert (r = Some i) as -> by (rewrite <- Hi; apply (R_running _ _ HR)).
    eexists. split; [|exact R']. cbn in D. rewrite Er.
    replace (state_frame c) with (resume_frame (parked c)) by done. rewrite D. apply a_park.
Qed.

Lemma sound_futex_answer i addr word expected here r s' :
  CURRENT_CONT s = Some i ->
  cont_futex_wait addr word expected here s = Done (WAnswer r) s' -> sound strict s w EvStay s' w.
Proof.
  intros Hi E. assert (s' = s) as ->.
  { destruct (current_record i Hi) as (c & Ec & Ep & _). pose proof (inv_len _ _ I) as (_ & _ & La & _).
    destruct (decide (word = expected)) as [->|Hne];
      [|rewrite (futex_wait_again _ _ _ _ _ i) in E by done; congruence].
    destruct (futex_wait_run addr expected here s i c Hi Ec Ep La)
      as [(k' & Hk & Hk0 & s2 & E2 & _)|[_ Er']]; congruence. }
  split; [exact I|]. intros _ a HR. exists a. split; [constructor|done].
Qed.

Lemma sound_futex_return i k r s' :
  CURRENT_CONT s = Some i -> w !! i = Some k ->
  cont_futex_wait_resumed k s = Done r s' -> sound strict s w EvStay s' (delete i w).
Proof.
  intros Hi Hw E. destruct (inv_wait _ _ I i k Hw) as (Hk & c & Hc & Sc & _).
  pose proof (inv_len _ _ I) as (_ & _ & La & Lc). cbn in La, Lc.
  destruct (lookup_lt_is_Some_2 (CONT_FUTEX_ADDRS s) k) as [a0 Ha0]; [lia|].
  destruct (runs_det _ _ _ _ _ _ (clear_run k a0 s Hk Ha0) E) as [-> V].
  unfold sound. rewrite V. split.
  - apply (table_keeps (view_of s) w I).
    + by rewrite length_insert.
    + destruct (a0 =? 0); [done|by rewrite length_insert].
    + intros j x Hj Hx. destruct (decide (j = k)) as [->|Hjk].
      { rewrite list_lookup_insert_eq in Hj by (cbn; lia). congruence. }
      rewrite list_lookup_insert_ne in Hj by done.
      destruct (inv_table _ _ I j x Hj Hx) as (i' & Hi1 & Hi2). exists i'. split.
      * destruct (a0 =? 0); [done|]. by rewrite list_lookup_insert_ne.
      * rewrite lookup_delete_ne; [done|]. intros ->. congruence.
    + intros j x [_ Hj]%lookup_delete_Some. by left.
  - intros _ a HR. exists a. split; [constructor|]. by destruct HR.
Qed.

Lemma sound_env fp now :
  sound strict s w (EvFp fp) (set_fp_registers fp (set_counter now s)) w.
Proof.
  split; [apply (fp_keeps (view_of s) w I)|]. intros _ a HR. destruct a as [cs r d fp0].
  exists (mkA cs r d fp). split; [constructor|]. destruct HR. split; cbn in *; done.
Qed.
End Steps.

Lemma step_sound strict s w e s' w' :
  inv (view_of s) w -> step strict (s, w) e (s', w') -> sound strict s w e s' w'.
Proof.
  intros I St. inversion St; subst.
  - by eapply sound_spawn.
  - edestruct (sound_park strict s w' I) as (? & ? & ?); [eassumption..|]; simplify_eq; done.
  - edestruct (sound_park strict s w' I) as (? & ? & ?); [eassumption..|]; simplify_eq.
  - edestruct (sound_park_external strict s w' I) as (? & ? & ?); [eassumption..|]; simplify_eq.
  - edestruct (sound_park_external strict s w' I) as (? & ? & ?); [eassumption..|]; simplify_eq; done.
  - by eapply sound_escape.
  - by eapply sound_no_escape.
  - by eapply sound_exit.
  - by eapply sound_drain.
  - by eapply sound_idle.
  - by apply sound_wake.
  - edestruct (sound_futex_wait strict s w I) as (? & ? & ?); [eassumption..|]; simplify_eq; done.
  - edestruct (sound_futex_wait strict s w I) as (? & ? & ?); [eassumption..|]; simplify_eq.
  - by eapply sound_futex_answer.
  - by eapply sound_futex_return.
  - by eapply sound_futex_wake.
  - by apply sound_env.
Qed.
End Spec.
End ContSpec.
