(* ===== verification/ContProps.v ===== *)
(** The properties of continuations: the pool never hands out a live record and
    its operations do not panic, every run is a run of the coroutine machine,
    and what the wake protocol does not deliver. *)

From S2P Require Import Prelude Errors Continuations ContInv ContSpec.
From stdpp Require Import functions.
Open Scope Z_scope.

Module ContProps.
Import Continuations ContRuns ContInv ContSpec.

Section Props.
Context `{LayoutOk}.

Lemma init_inv fs fp slot lsp : inv (view_of (init fs fp slot lsp)) ∅.
Proof.
  assert (NL : forall i c, repeat new MAX_CONTINUATIONS !! i = Some c -> c = new).
  { intros i c Hc. apply (repeat_spec MAX_CONTINUATIONS), list_elem_of_In.
    by eapply list_elem_of_lookup_2. }
  assert (NF : forall i c, repeat new MAX_CONTINUATIONS !! i = Some c -> state c = C_FREE)
    by (intros i c ->%NL; done).
  split; cbn -[repeat MAX_CONTINUATIONS MAX_FUTEX_WAITERS].
  - by rewrite !repeat_length.
  - lia.
  - apply NoDup_nil_2.
  - intros i. rewrite elem_of_nil. lia.
  - intros i _ (c & Hc & Sc). by apply NF in Hc.
  - intros i c ->%NL. done.
  - done.
  - intros i c Hc Sc. by apply NF in Hc.
  - intros i c Hc Sc. apply NF in Hc. congruence.
  - done.
  - intros i c Hc Sc. apply NF in Hc. congruence.
  - intros i j c d Hc _ Sc. apply NF in Hc. congruence.
  - intros k a Ha Hn. apply list_elem_of_lookup_2, list_elem_of_In, repeat_spec in Ha. done.
  - intros i k. by rewrite lookup_empty.
Qed.

Lemma reach_inv strict s w : reach strict (s, w) -> inv (view_of s) w.
Proof.
  intros Hr. remember (s, w) as x eqn:Ex. revert s w Ex.
  induction Hr as [|[s0 w0] e y Hr IH St]; intros s w Ex; simplify_eq.
  - apply init_inv.
  - by apply (step_sound strict s0 w0 e s w (IH s0 w0 eq_refl)).
Qed.

(** ** Runs with their events *)

Inductive run (strict : bool) : t * gmap nat nat -> list event -> t * gmap nat nat -> Prop :=
  | run_nil x : run strict x [] x
  | run_snoc x es y e z : run strict x es y -> step strict y e z -> run strict x (es ++ [e]) z.

Inductive arun : astate -> list event -> astate -> Prop :=
  | arun_nil a : arun a [] a
  | arun_snoc a es b e c : arun a es b -> astep b e c -> arun a (es ++ [e]) c.

Lemma run_reach strict fs fp slot lsp es s w :
  run strict (init fs fp slot lsp, ∅) es (s, w) -> reach strict (s, w).
Proof.
  intros Hr. remember (s, w) as y eqn:Ey. remember (init fs fp slot lsp, ∅) as x eqn:Ex.
  clear Ey. induction Hr as [|x es y e z Hr IH St]; [subst; constructor|].
  econstructor; [by apply IH|done].
Qed.

(** Without a wake of an escaped continuation the whole run refines. *)
Lemma strict_refines fs fp slot lsp es s w d :
  run true (init fs fp slot lsp, ∅) es (s, w) ->
  exists a, arun (mkA ∅ None d fp) es a /\ R (view_of s) a.
Proof.
  intros Hr. remember (s, w) as y eqn:Ey. remember (init fs fp slot lsp, ∅) as x eqn:Ex.
  revert s w Ey. induction Hr as [|x es [s0 w0] e z Hr IH St]; intros s w Ey; simplify_eq.
  - exists (mkA ∅ None d fp). split; [constructor|]. split; try done.
    intros i. cbn. rewrite lookup_empty. unfold suspended.
    change (v_pool (view_of (init fs fp slot lsp))) with (repeat new MAX_CONTINUATIONS).
    destruct (_ !! i) as [c|] eqn:Ec; cbn; [|done].
    apply list_elem_of_lookup_2, list_elem_of_In, repeat_spec in Ec as ->.
    by rewrite decide_True by auto.
  - destruct (IH eq_refl s0 w0 eq_refl) as (a & Ha & HR).
    destruct (step_sound true s0 w0 e s w (reach_inv true _ _ (run_reach _ _ _ _ _ _ _ _ Hr)) St)
      as [_ Hsim].
    destruct (Hsim eq_refl a HR) as (a' & St' & HR'). exists a'. split; [|done]. by econstructor.
Qed.

(** The waker is about to hit an escaped continuation. *)
Definition wakes_escaped (s : t) (e : event) : Prop :=
  e = EvWake 1 /\ exists i c, CONT_PENDING s = Some i /\ CONT_POOL s !! i = Some c /\ state c = C_ESCAPED.

Lemma step_strict s w e y : step false (s, w) e y -> step true (s, w) e y \/ wakes_escaped s e.
Proof.
  intros St. inversion St; subst; try (by left; econstructor; eauto).
  assert (Hd : (forall i c, CONT_PENDING s = Some i -> CONT_POOL s !! i = Some c -> state c <> C_ESCAPED) \/
    exists i c, CONT_PENDING s = Some i /\ CONT_POOL s !! i = Some c /\ state c = C_ESCAPED).
  { destruct (CONT_PENDING s) as [i|]; [|by left]. destruct (CONT_POOL s !! i) as [c|] eqn:Hc; [|left; congruence].
    destruct (decide (state c = C_ESCAPED)); [right; by exists i, c|left; congruence]. }
  destruct Hd as [Hd|(i & c & Hp & Hc & He)]; [left; by constructor|].
  right. split; [by rewrite Hp|by exists i, c].
Qed.


(** ** Safety of the pool *)

Lemma alloc_none v w :
  inv v w -> alloc_of v = None -> Forall (fun c => state c <> C_FREE) (v_pool v).
Proof.
  intros I Ha. pose proof (inv_top v w I) as Ht. pose proof (inv_len v w I) as (Hp & Hb & _).
  unfold alloc_of in Ha. destruct (v_top v) as [|k] eqn:Et.
  - destruct (_ <? _)%nat eqn:E; [done|]. apply Nat.ltb_ge in E.
    apply Forall_lookup. intros i c Hc Sc.
    pose proof (lookup_lt_Some _ _ _ Hc) as Hi.
    assert (Hin : i ∈ take (v_top v) (v_buf v)).
    { apply (inv_free v w I). split; [lia|]. intros (d & Hd & Sd). congruence. }
    rewrite Et, take_0 in Hin. by apply elem_of_nil in Hin.
  - destruct (lookup_lt_is_Some_2 (v_buf v) k) as [x Hx]; [lia|]. rewrite Hx in Ha. done.
Qed.

(** C24: In every reachable state the free list names no record
    twice and no live one, only the current continuation is RUNNING, and no
    operation hits an assertion or an index out of range: the drain can spawn
    as long as one of the 128 records is free, and [drain_ready], a wake, both
    parks and the teardown of the running continuation all succeed. *)
Theorem cont_pool_never_panics strict s w :
  reach strict (s, w) ->
  NoDup (take (CONT_FREE_TOP s) (CONT_FREE_BUF s)) /\
  (forall i, i ∈ take (CONT_FREE_TOP s) (CONT_FREE_BUF s) -> ~ live (view_of s) i) /\
  (forall i c, CONT_POOL s !! i = Some c -> state c = C_RUNNING -> CURRENT_CONT s = Some i) /\
  (CURRENT_CONT s = None -> forall here,
     (exists r s', drain_ready here s = Done r s') /\
     (~ Forall (fun c => state c <> C_FREE) (CONT_POOL s) -> forall entry func arg fd,
        exists out s', spawn_continuation true entry func arg fd here s = Done (Some out) s')) /\
  (forall i, CURRENT_CONT s = Some i -> forall here,
     (forall pend, exists out s', park_with_pend pend here s = Done (Some out) s') /\
     (forall stats, exists out s', park_external stats here s = Done (Some out) s') /\
     (exists out s', continuation_teardown here s = Done (Some out) s')) /\
  exists s', coop_wake s = Done tt s'.
Proof.
  intros Hr. pose proof (reach_inv _ _ _ Hr) as I.
  split; [apply (inv_nodup _ _ I)|].
  split; [intros i Hi%(inv_free _ _ I); tauto|].
  split; [apply (inv_running _ _ I)|].
  split; [|split].
  - intros Hcur here. split.
    + destruct (next_ready (view_of s)) as [i|] eqn:En.
      * destruct (next_ready_Some _ _ En) as (c & Hc & _).
        destruct (drain_run here s i c (pending_live s w I) Hcur En Hc (inv_escaped _ _ I i c Hc))
          as (s' & E & _). eauto.
      * rewrite (drain_idle here s (pending_live s w I) En). eauto.
    + intros Hf entry func arg fd. destruct (alloc_of (view_of s)) as [[[i n'] t']|] eqn:Ea;
        [|by destruct (Hf (alloc_none _ _ I Ea))].
      destruct (alloc_fresh _ _ I i n' t' Ea) as (_ & Hi & Hn & _).
      destruct (free_record _ _ I i n' t' Ea) as (c & Hc & Sc & _).
      destruct (spawn_run entry func arg fd here s i n' t' c Ea Hc Sc ltac:(lia) Hcur) as (s' & E & _).
      eauto.
  - intros i Hi here. destruct (current_record s w I i Hi) as (c & Ec & Ep & _).
    split; [|split].
    + intros pend. destruct (park_with_pend_run pend here s i c Hi Ec Ep) as (s' & E & _). eauto.
    + intros stats. destruct (park_external_run stats here s i c Hi Ec Ep) as (s' & E & _). eauto.
    + assert (Ht : (CONT_FREE_TOP s < MAX_CONTINUATIONS)%nat).
      { pose proof (cur_top _ _ I i Hi). pose proof (inv_top _ _ I). cbn in *. lia. }
      destruct (teardown_run here s i c Hi Ec Ht) as (s' & E & _). eauto.
  - destruct (coop_wake_run s) as (s' & E & _). eauto.
Qed.

(** ** What the wake protocol does not deliver *)

(** A wake that arrives while a continuation runs is not
    recorded for it: after the wake its next park parks (it never returns at
    once) and leaves it PARKED with no wake pending.  The [pending_wake] flag,
    which is meant to hold such a wake for the next park, is only ever set on
    a continuation that does not run. *)
Theorem wake_while_running_lost s w i here stats s1 r s2 :
  reach false (s, w) -> CURRENT_CONT s = Some i ->
  coop_wake s = Done tt s1 -> park_external stats here s1 = Done r s2 ->
  (exists out, r = Some out) /\ CURRENT_CONT s2 = None /\
  exists c, CONT_POOL s2 !! i = Some c /\ state c = C_PARKED /\ pending_wake c = false.
Proof.
  intros Hr Hi E1 E2.
  assert (I1 : inv (view_of s1) w).
  { apply (step_sound false s w (EvWake (if CONT_PENDING s then 1 else 0)) s1 w
             (reach_inv _ _ _ Hr)). by constructor. }
  destruct (runs_det _ _ _ _ _ _ (coop_wake_run s) E1) as [_ V1].
  assert (Hi1 : CURRENT_CONT s1 = Some i) by (rewrite <- Hi; exact (f_equal v_cur V1)).
  destruct (current_record s1 w I1 i Hi1) as (c & Ec & Ep & _).
  destruct (runs_det _ _ _ _ _ _ (park_external_run stats here s1 i c Hi1 Ec Ep) E2) as [-> V2].
  split; [eauto|]. split; [exact (f_equal v_cur V2)|].
  exists (parked c). split; [|done].
  change (v_pool (view_of s2) !! i = Some (parked c)). rewrite V2. cbn.
  by rewrite list_lookup_alter_eq, Ec.
Qed.

(** Only the continuation that parked last can be woken.
    When [i] is PARKED behind the one that [CONT_PENDING] names, a wake leaves
    [i] PARKED, the drain then resumes another continuation, and from there
    every further wake does nothing at all: until someone parks again, no wake
    reaches [i]. *)
Theorem only_last_parked_wakes s w i j c here s1 out s2 :
  reach false (s, w) -> CURRENT_CONT s = None -> CONT_PENDING s = Some j -> i <> j ->
  CONT_POOL s !! i = Some c -> state c = C_PARKED ->
  coop_wake s = Done tt s1 -> drain_ready here s1 = Done (Some out) s2 ->
  CONT_POOL s2 !! i = Some c /\ CURRENT_CONT s2 = Some j /\ coop_wake s2 = Done tt s2.
Proof.
  intros Hr Hcur Hp Hne Hc Sc E1 E2.
  assert (I1 : inv (view_of s1) w).
  { apply (step_sound false s w (EvWake (if CONT_PENDING s then 1 else 0)) s1 w
             (reach_inv _ _ _ Hr)). by constructor. }
  destruct (runs_det _ _ _ _ _ _ (coop_wake_run s) E1) as [_ V1]. cbn in V1. rewrite Hp in V1.
  assert (Hcur1 : CURRENT_CONT s1 = None) by (rewrite <- Hcur; exact (f_equal v_cur V1)).
  assert (Hp1 : CONT_PENDING s1 = Some j) by exact (f_equal v_pend V1).
  assert (HP1 : CONT_POOL s1 = alter woken j (CONT_POOL s)) by exact (f_equal v_pool V1).
  destruct (inv_pend _ _ I1 j Hp1) as [_ (d & Hd & Sd)].
  assert (En : next_ready (view_of s1) = Some j).
  { unfold next_ready. cbn. cbn in Hd. rewrite Hp1, Hd. rewrite HP1, list_lookup_alter_eq in Hd.
    destruct (CONT_POOL s !! j); [|done]. cbn in Hd. by simplify_eq. }
  destruct (runs_det _ _ _ _ _ _
    (drain_run here s1 j d (pending_live s1 w I1) Hcur1 En Hd (inv_escaped _ _ I1 j d Hd)) E2) as [_ V2].
  split; [|split].
  - change (v_pool (view_of s2) !! i = Some c). rewrite V2. cbn.
    rewrite list_lookup_alter_ne, HP1, list_lookup_alter_ne by done. done.
  - exact (f_equal v_cur V2).
  - assert (Hp2 : CONT_PENDING s2 = None) by exact (f_equal v_pend V2).
    unfold coop_wake. cbv [bind gets]. by rewrite Hp2.
Qed.

(** A wake that hits a continuation interrupted by its
    quantum loses the context of the interruption: the drain resumes it where
    it last parked (or started) instead of where it was interrupted, its vector
    registers are not restored, and the save slot stays taken, so that its next
    quantum escape panics. *)
Theorem escaped_wake_resumes_stale s w i c here here' s1 r s2 :
  reach false (s, w) -> CURRENT_CONT s = None -> CONT_PENDING s = Some i ->
  CONT_POOL s !! i = Some c -> state c = C_ESCAPED ->
  coop_wake s = Done tt s1 -> drain_ready here s1 = Done r s2 ->
  r = Some (frames s (state_frame_of i)) /\ CURRENT_CONT s2 = Some i /\
  fp_registers s2 = fp_registers s /\
  continuation_self_escape here' s2 = Panic "O4: FP save pool already acquired (double escape)".
Proof.
  intros Hr Hcur Hp Hc Sc E1 E2. pose proof (reach_inv _ _ _ Hr) as I.
  assert (I1 : inv (view_of s1) w).
  { apply (step_sound false s w (EvWake (if CONT_PENDING s then 1 else 0)) s1 w I). by constructor. }
  destruct (runs_det _ _ _ _ _ _ (coop_wake_run s) E1) as [_ V1]. cbn in V1. rewrite Hp in V1.
  assert (Hcur1 : CURRENT_CONT s1 = None) by (rewrite <- Hcur; exact (f_equal v_cur V1)).
  assert (Hp1 : CONT_PENDING s1 = Some i) by exact (f_equal v_pend V1).
  assert (Hc1 : CONT_POOL s1 !! i = Some (woken c)).
  { change (v_pool (view_of s1) !! i = Some (woken c)). rewrite V1. cbn.
    by rewrite list_lookup_alter_eq, Hc. }
  assert (En : next_ready (view_of s1) = Some i) by (unfold next_ready; cbn; by rewrite Hp1, Hc1).
  assert (Ha : FP_SAVE_ACQUIRED s1 = true).
  { rewrite <- (inv_escaped _ _ I i c Hc Sc). exact (f_equal v_acq V1). }
  destruct (runs_det _ _ _ _ _ _
    (drain_run here s1 i (woken c) (pending_live s1 w I1) Hcur1 En Hc1 ltac:(done)) E2) as [-> V2].
  assert (Hl : state c <> C_FREE) by congruence.
  destruct (inv_frames _ _ I i c Hc Hl) as [F1 _].
  assert (Hm : (i < MAX_CONTINUATIONS)%nat) by (apply (live_max _ _ I); by exists c).
  assert (FS : frames s1 = frames s) by exact (f_equal v_frames V1).
  split; [|split; [|split]].
  - unfold resume_frame. cbn. rewrite F1, FS.
    rewrite fn_lookup_insert_ne; [done|]. apply not_eq_sym, state_drain_ne, Hm.
  - exact (f_equal v_cur V2).
  - transitivity (fp_registers s1); [exact (f_equal v_fp V2)|exact (f_equal v_fp V1)].
  - apply (self_escape_panics here' s2 i (resumed (woken c))).
    + exact (f_equal v_cur V2).
    + change (v_pool (view_of s2) !! i = Some (resumed (woken c))). rewrite V2. cbn.
      by rewrite list_lookup_alter_eq, Hc1.
    + done.
    + rewrite <- Ha. exact (f_equal v_acq V2).
Qed.

(** ** The futex table *)

Lemma foldl_wake_addrs ks k : forall v,
  k ∉ ks -> v_addrs (foldl wake_slot v ks) !! k = v_addrs v !! k.
Proof.
  induction ks as [|k' ks IH]; intros v Hk; cbn; [done|].
  apply not_elem_of_cons in Hk as [Hne Hk]. rewrite IH by done. cbn.
  by rewrite list_lookup_insert_ne.
Qed.

Lemma foldl_wake_conts ks k : forall v,
  k ∉ ks -> v_conts (foldl wake_slot v ks) !! k = v_conts v !! k.
Proof.
  induction ks as [|k' ks IH]; intros v Hk; cbn; [done|].
  apply not_elem_of_cons in Hk as [Hne Hk]. rewrite IH by done. cbn.
  by rewrite list_lookup_insert_ne.
Qed.

(** A record not named by one of the slots is left alone. *)
Lemma foldl_wake_pool_ne ks j : forall v,
  NoDup ks -> (forall k, k ∈ ks -> v_conts v !! k <> Some (Some j)) ->
  v_pool (foldl wake_slot v ks) !! j = v_pool v !! j.
Proof.
  induction ks as [|k ks IH]; intros v Hnd Hk; cbn; [done|].
  apply list.NoDup_cons in Hnd as [Hnk Hnd]. rewrite IH; [|done|].
  - cbn. pose proof (Hk k ltac:(by left)) as H1. destruct (v_conts v !! k) as [[i|]|]; try done.
    rewrite list_lookup_alter_ne; [done|]. congruence.
  - intros k' Hk'. cbn. rewrite list_lookup_insert_ne; [apply Hk; by right|]. by intros ->.
Qed.

Lemma foldl_wake_pool_eq ks i k : forall v c,
  NoDup ks -> k ∈ ks -> v_conts v !! k = Some (Some i) -> v_pool v !! i = Some c ->
  (forall k', k' ∈ ks -> v_conts v !! k' = Some (Some i) -> k' = k) ->
  v_pool (foldl wake_slot v ks) !! i = Some (woken c).
Proof.
  induction ks as [|k0 ks IH]; intros v c Hnd Hk Hi Hc Hu; [by apply elem_of_nil in Hk|].
  apply list.NoDup_cons in Hnd as [Hnk Hnd]. cbn.
  apply elem_of_cons in Hk as [->|Hk].
  - rewrite foldl_wake_pool_ne; [|done|].
    + cbn. rewrite Hi. by rewrite list_lookup_alter_eq, Hc.
    + intros k' Hk' E. cbn in E. rewrite list_lookup_insert_ne in E by (by intros ->).
      assert (k' = k0) as -> by (apply Hu; [by right|done]). done.
  - assert (Hne : k <> k0) by (by intros ->).
    apply IH; [done|done|cbn; by rewrite list_lookup_insert_ne| |].
    + cbn. destruct (v_conts v !! k0) as [[i'|]|] eqn:E0; try done.
      rewrite list_lookup_alter_ne; [done|]. intros ->.
      apply Hne. symmetry. apply Hu; [by left|done].
    + intros k' Hk' E. cbn in E. rewrite list_lookup_insert_ne in E by (by intros ->).
      apply Hu; [by right|done].
Qed.

(** A futex wake for continuations wakes the first [count] of the
    continuations registered on the address, in table order, or all of them
    when there are fewer (or [count] is [i32::MAX]), and answers how many: each
    of them becomes READY and its slot is cleared; every other continuation's
    record and every other slot is left as it was; the drain is pointed at one
    of the woken. *)
Theorem cont_futex_wake_exact strict s w addr count n s' :
  reach strict (s, w) -> (forall i, CURRENT_CONT s = Some i -> w !! i = None) -> 0 < count ->
  cont_futex_wake addr count s = Done n s' ->
  let all := waiters addr (CONT_FUTEX_ADDRS s) 0 MAX_FUTEX_WAITERS in
  let limit := if count =? i32_max then Z.of_nat MAX_FUTEX_WAITERS else count in
  let ks := take (Z.to_nat limit) all in
  n = Z.min limit (Z.of_nat (length all)) /\
  (forall k, k ∈ ks -> exists i c, w !! i = Some k /\ CONT_POOL s !! i = Some c /\
     CONT_POOL s' !! i = Some (woken c)) /\
  (forall i, (forall k, k ∈ ks -> w !! i <> Some k) -> CONT_POOL s' !! i = CONT_POOL s !! i) /\
  (forall k, k ∉ ks -> CONT_FUTEX_ADDRS s' !! k = CONT_FUTEX_ADDRS s !! k) /\
  (ks <> [] -> exists i k, k ∈ ks /\ w !! i = Some k /\ CONT_PENDING s' = Some i).
Proof.
  intros Hr Hg Hc E all limit ks. pose proof (reach_inv _ _ _ Hr) as I.
  pose proof (inv_len _ _ I) as (_ & _ & La & _).
  destruct (runs_det _ _ _ _ _ _ (cont_futex_wake_run addr count s Hc La (inv_registered _ _ I)) E)
    as [-> V]. cbv zeta in V. fold all limit in V |- *. fold ks in V |- *. clear E.
  assert (Hks : forall k, k ∈ ks -> CONT_FUTEX_ADDRS s !! k = Some addr /\ addr <> 0).
  { intros k Hk. apply (subseteq_take (Z.to_nat limit)), list_elem_of_In in Hk. by eapply waiters_spec. }
  assert (Hnd : NoDup ks) by (eapply sublist_NoDup; [apply waiters_nodup|apply sublist_take]).
  assert (Hreg : forall k, k ∈ ks -> exists i, CONT_FUTEX_CONTS s !! k = Some (Some i) /\ w !! i = Some k)
    by (intros k [Hk H1]%Hks; by apply (inv_table _ _ I k addr)).
  assert (Hlen : Z.of_nat (length ks) = Z.min limit (Z.of_nat (length all))).
  { unfold ks. rewrite length_take. unfold limit. destruct (count =? i32_max); lia. }
  clearbody ks limit all.
  assert (VP : CONT_POOL s' = v_pool (foldl wake_slot (view_of s) ks)) by exact (f_equal v_pool V).
  assert (VA : CONT_FUTEX_ADDRS s' = v_addrs (foldl wake_slot (view_of s) ks)) by exact (f_equal v_addrs V).
  rewrite VP, VA. split; [done|]. split; [|split; [|split]].
  - intros k Hk. destruct (Hreg k Hk) as (i & Hi & Hw). exists i.
    destruct (inv_wait _ _ I i k Hw) as (_ & c & Hc1 & _). exists c. split; [done|]. split; [done|].
    apply (foldl_wake_pool_eq ks i k); try done.
    intros k' Hk' E'. destruct (Hreg k' Hk') as (i' & Hi' & Hw'). cbn in E'. congruence.
  - intros i Hi. apply (foldl_wake_pool_ne ks i (view_of s)); [done|].
    intros k Hk E'. destruct (Hreg k Hk) as (i' & Hi' & Hw'). cbn in E'.
    apply (Hi k Hk). congruence.
  - intros k Hk. by apply (foldl_wake_addrs ks k (view_of s)).
  - intros Hne. destruct (List.rev ks) as [|j js] eqn:Ek.
    { destruct Hne. by rewrite <- (rev_involutive ks), Ek. }
    assert (Hj : j ∈ ks).
    { apply list_elem_of_In. rewrite <- (rev_involutive ks), Ek. apply in_rev.
      rewrite rev_involutive. by left. }
    destruct (Hreg j Hj) as (i & Hi & Hw). exists i, j. split; [done|]. split; [done|].
    rewrite (f_equal v_pend V : CONT_PENDING s' = _). cbn. by rewrite Hi.
Qed.

End Props.

(** ** A concrete layout and concrete runs *)

#[local] Instance demo_layout : Layout := {|
  core_id := 0; start_cont_stacks := 0x10000000; start_cont_slots := 0x20000000;
  escape_buf i := 0x40000000 + 512 * Z.of_nat i; DUMMY_SAVE := 0x50000000;
  exception_sp := 0x60000000; dummy_entry := 0x100; quantum_harness_entry := 0x200 |}.

#[local] Instance demo_layout_ok : LayoutOk.
Proof.
  split; unfold cont_stack_top, CONT_STACK_SIZE, CONT_GUARD, STATE_SIZE, MAX_CONTINUATIONS;
    cbn [core_id start_cont_stacks escape_buf exception_sp demo_layout]; intros; lia.
Qed.

Definition ctx (pc : Z) : State := mkState 1 pc 0x3c5 0x6000 0 (repeat pc 31).
Definition demo_fp (x : Z) : AlignedFpSaveBuf := mkFp (repeat x 32) 0 0.
Definition boot : t := init (fun _ => ctx 0) (demo_fp 0) 0x60000000 0.

Definition after {A} (e : exec t A) : t := match e with Done _ s => s | Panic _ => boot end.

Definition spawned1 : t := after (spawn_continuation true 0x1000 0 0 (-1) (ctx 1) boot).
Definition parked1 : t := after (park_external true (ctx 2) spawned1).
Definition escaped1 : t := after (continuation_self_escape (ctx 3) spawned1).
Definition spawned2 : t := after (spawn_continuation true 0x2000 0 0 3 (ctx 4) parked1).
Definition parked2 : t := after (park_external true (ctx 5) spawned2).
Definition waiting1 : t := after (cont_futex_wait 0x8000 7 7 (ctx 6) spawned1).

Lemma spawned1_reach strict : reach strict (spawned1, ∅).
Proof.
  eapply reach_step; [apply (reach_init strict (fun _ => ctx 0) (demo_fp 0) 0x60000000 0)|].
  eapply (step_spawn strict boot ∅ 0x1000 0 0 (-1) (ctx 1)); [reflexivity|vm_compute; reflexivity].
Qed.

Lemma parked1_reach strict : reach strict (parked1, ∅).
Proof.
  eapply reach_step; [apply spawned1_reach|].
  eapply (step_park_external strict spawned1 ∅ 0 true (ctx 2)); [reflexivity..|vm_compute; reflexivity].
Qed.

Lemma parked2_reach strict : reach strict (parked2, ∅).
Proof.
  eapply reach_step; [eapply reach_step; [apply parked1_reach|]|].
  - eapply (step_spawn strict parked1 ∅ 0x2000 0 0 3 (ctx 4)); [reflexivity|vm_compute; reflexivity].
  - eapply (step_park_external strict spawned2 ∅ 1 true (ctx 5)); [reflexivity..|vm_compute; reflexivity].
Qed.


Lemma cont_pool_never_panics_witness :
  NoDup (take (CONT_FREE_TOP parked2) (CONT_FREE_BUF parked2)) /\
  exists s', coop_wake parked2 = Done tt s'.
Proof.
  destruct (cont_pool_never_panics true parked2 ∅ (parked2_reach true)) as (Hn & _ & _ & _ & _ & Hw).
  split; assumption.
Defined.

Lemma wake_while_running_lost_witness :
  exists c, CONT_POOL (after (park_external true (ctx 2) (after (coop_wake spawned1)))) !! 0%nat = Some c /\
    state c = C_PARKED.
Proof.
  destruct (wake_while_running_lost spawned1 ∅ 0 (ctx 2) true (after (coop_wake spawned1))
    (Some (ctx 1)) (after (park_external true (ctx 2) (after (coop_wake spawned1)))))
    as (_ & _ & c & Hc & Sc & _).
  - apply spawned1_reach.
  - reflexivity.
  - vm_compute; reflexivity.
  - vm_compute; reflexivity.
  - exists c. split; assumption.
Defined.

Lemma only_last_parked_wakes_witness :
  CURRENT_CONT (after (drain_ready (ctx 7) (after (coop_wake parked2)))) = Some 1%nat.
Proof.
  eapply (only_last_parked_wakes parked2 ∅ 0 1 _ (ctx 7) (after (coop_wake parked2)) (ctx 5)).
  - apply parked2_reach.
  - reflexivity.
  - reflexivity.
  - discriminate.
  - vm_compute; reflexivity.
  - reflexivity.
  - vm_compute; reflexivity.
  - vm_compute; reflexivity.
Defined.

Lemma escaped_wake_resumes_stale_witness :
  drain_ready (ctx 7) (after (coop_wake escaped1)) =
    Done (Some (first_context 0 0x1000)) (after (drain_ready (ctx 7) (after (coop_wake escaped1)))) /\
  continuation_self_escape (ctx 8) (after (drain_ready (ctx 7) (after (coop_wake escaped1)))) =
    Panic "O4: FP save pool already acquired (double escape)".
Proof.
  split; [vm_compute; reflexivity|].
  eapply (escaped_wake_resumes_stale escaped1 ∅ 0 _ (ctx 7) (ctx 8) (after (coop_wake escaped1))).
  - eapply reach_step; [apply spawned1_reach|].
    eapply (step_escape false spawned1 ∅ 0 (ctx 3)); [reflexivity..|vm_compute; reflexivity].
  - reflexivity.
  - reflexivity.
  - vm_compute; reflexivity.
  - reflexivity.
  - vm_compute; reflexivity.
  - vm_compute; reflexivity.
Defined.

Lemma cont_futex_wake_exact_witness :
  exists i k, k ∈ take 1 (waiters 0x8000 (CONT_FUTEX_ADDRS waiting1) 0 MAX_FUTEX_WAITERS) /\
    CONT_PENDING (after (cont_futex_wake 0x8000 1 waiting1)) = Some i.
Proof.
  destruct (cont_futex_wake_exact true waiting1 {[ 0%nat := 0%nat ]} 0x8000 1 1
    (after (cont_futex_wake 0x8000 1 waiting1))) as (_ & _ & _ & _ & Hp).
  - eapply reach_step; [apply spawned1_reach|].
    eapply (step_futex_wait true spawned1 ∅ 0 0x8000 7 7 (ctx 6)); [reflexivity|reflexivity|discriminate|].
    vm_compute; reflexivity.
  - intros i Hi. discriminate Hi.
  - lia.
  - vm_compute; reflexivity.
  - destruct Hp as (i & k & Hk & _ & Hpend); [vm_compute; discriminate|].
    exists i, k. split; assumption.
Defined.

End ContProps.
