(* ===== verification/ContSwitch.v ===== *)
(** The switch primitive [cont_switch] (src/src/arch/aarch64/kernel/continuations.rs),
    instruction by instruction: it saves the running context into the frame
    [CONT_SWITCH.save], makes the frame [CONT_SWITCH.target] current and
    restores the context found there. *)

From S2P Require Import Prelude Continuations ContInv.
From stdpp Require Import functions.
Open Scope Z_scope.

Module ContSwitch.
Import Continuations ContRuns.

(** ** The processor *)

Record cpu : Type := mkCpu {
  x : list Z; (** x0 .. x30 *)
  SP_EL0 : Z;
  SP_EL1 : Z;
  SPSEL : Z;
  TPIDR_EL0 : Z;
  TPIDR_EL1 : Z;
  ELR_EL1 : Z;
  SPSR_EL1 : Z;
}.

(** Memory by address, one 64-bit word at every 8-byte aligned address used. *)
Notation mem := (Z -> Z) (only parsing).

Inductive sysreg : Type := spsel_r | tpidr_el0_r | tpidr_el1_r | elr_el1_r | spsr_el1_r | sp_el0_r.

Inductive instr : Type :=
  | Stp_push (a b : nat) (** [stp xa, xb, [sp, #-16]!] *)
  | Ldp_pop (a b : nat) (** [ldp xa, xb, [sp], #16] *)
  | Adr (d : nat) (** [adrp]/[add] of the address of [CONT_SWITCH] *)
  | Ldr (d n : nat) (off : Z)
  | Str (a n : nat) (off : Z)
  | Ldp (d e n : nat) (off : Z)
  | Mrs (d : nat) (r : sysreg)
  | Msr (r : sysreg) (n : nat)
  | Msr_spsel (imm : Z)
  | Mov (d n : nat)
  | Mov_imm (d : nat) (imm : Z)
  | Mov_from_sp (d : nat)
  | Mov_to_sp (n : nat)
  | Add_imm (d n : nat) (imm : Z)
  | Orr (d n m : nat)
  | If_eq (n : nat) (imm : Z) (then_ else_ : list instr).

Definition get_sp (c : cpu) : Z := if SPSEL c =? 1 then SP_EL1 c else SP_EL0 c.
Definition set_sp (v : Z) (c : cpu) : cpu :=
  if SPSEL c =? 1
  then mkCpu (x c) (SP_EL0 c) v (SPSEL c) (TPIDR_EL0 c) (TPIDR_EL1 c) (ELR_EL1 c) (SPSR_EL1 c)
  else mkCpu (x c) v (SP_EL1 c) (SPSEL c) (TPIDR_EL0 c) (TPIDR_EL1 c) (ELR_EL1 c) (SPSR_EL1 c).
Definition set_x (d : nat) (v : Z) (c : cpu) : cpu :=
  mkCpu (<[d := v]> (x c)) (SP_EL0 c) (SP_EL1 c) (SPSEL c) (TPIDR_EL0 c) (TPIDR_EL1 c)
    (ELR_EL1 c) (SPSR_EL1 c).
Definition get_sys (r : sysreg) (c : cpu) : Z :=
  match r with
  | spsel_r => SPSEL c | tpidr_el0_r => TPIDR_EL0 c | tpidr_el1_r => TPIDR_EL1 c
  | elr_el1_r => ELR_EL1 c | spsr_el1_r => SPSR_EL1 c | sp_el0_r => SP_EL0 c
  end.
Definition set_sys (r : sysreg) (v : Z) (c : cpu) : cpu :=
  match c with
  | mkCpu xs s0 s1 sl t0 t1 e p =>
      match r with
      | spsel_r => mkCpu xs s0 s1 v t0 t1 e p | tpidr_el0_r => mkCpu xs s0 s1 sl v t1 e p
      | tpidr_el1_r => mkCpu xs s0 s1 sl t0 v e p | elr_el1_r => mkCpu xs s0 s1 sl t0 t1 v p
      | spsr_el1_r => mkCpu xs s0 s1 sl t0 t1 e v | sp_el0_r => mkCpu xs v s1 sl t0 t1 e p
      end
  end.

(** [cs] is the address of [CONT_SWITCH]. *)
Fixpoint exec_instr (cs : Z) (i : instr) (cm : cpu * mem) {struct i} : cpu * mem :=
  let '(c, m) := cm in
  match i with
  | Stp_push a b =>
      let sp := get_sp c - 16 in
      (set_sp sp c, <[sp + 8 := x c !!! b]> (<[sp := x c !!! a]> m))
  | Ldp_pop a b =>
      let sp := get_sp c in
      (set_sp (sp + 16) (set_x b (m (sp + 8)) (set_x a (m sp) c)), m)
  | Adr d => (set_x d cs c, m)
  | Ldr d n off => (set_x d (m (x c !!! n + off)) c, m)
  | Str a n off => (c, <[x c !!! n + off := x c !!! a]> m)
  | Ldp d e n off =>
      let base := x c !!! n in
      (set_x e (m (base + off + 8)) (set_x d (m (base + off)) c), m)
  | Mrs d r => (set_x d (get_sys r c) c, m)
  | Msr r n => (set_sys r (x c !!! n) c, m)
  | Msr_spsel imm => (set_sys spsel_r imm c, m)
  | Mov d n => (set_x d (x c !!! n) c, m)
  | Mov_imm d imm => (set_x d imm c, m)
  | Mov_from_sp d => (set_x d (get_sp c) c, m)
  | Mov_to_sp n => (set_sp (x c !!! n) c, m)
  | Add_imm d n imm => (set_x d (x c !!! n + imm) c, m)
  | Orr d n k => (set_x d (Z.lor (x c !!! n) (x c !!! k)) c, m)
  | If_eq n imm th el =>
      let fix go l cm := match l with [] => cm | j :: l' => go l' (exec_instr cs j cm) end in
      go (if x c !!! n =? imm then th else el) (c, m)
  end.

Definition exec_list (cs : Z) (l : list instr) (cm : cpu * mem) : cpu * mem :=
  fold_left (fun cm i => exec_instr cs i cm) l cm.

(** *** The code, in the order of the source *)

Definition spill : list instr :=
  [Stp_push 9 10; Stp_push 11 12; Stp_push 13 14; Stp_push 15 16].

Definition save_context : list instr :=
  [Adr 9; Ldr 10 9 0;
   Mrs 15 spsel_r; Mov_from_sp 11; Add_imm 11 11 64; Mrs 12 tpidr_el0_r; Mov 13 30;
   Mov_imm 14 0x3c4; Orr 14 14 15;
   Str 11 10 24; Str 12 10 32; Str 13 10 8; Str 14 10 16; Str 15 10 0;
   Str 0 10 40; Str 1 10 48; Str 2 10 56; Str 3 10 64; Str 4 10 72; Str 5 10 80; Str 6 10 88;
   Str 7 10 96; Str 8 10 104;
   Str 17 10 176; Str 18 10 184; Str 19 10 192; Str 20 10 200; Str 21 10 208; Str 22 10 216;
   Str 23 10 224; Str 24 10 232; Str 25 10 240; Str 26 10 248; Str 27 10 256; Str 28 10 264;
   Str 29 10 272; Str 30 10 280].

Definition unspill : list instr :=
  [Ldp_pop 0 1; Str 0 10 112; Str 1 10 120;
   Ldp_pop 0 1; Str 0 10 128; Str 1 10 136;
   Ldp_pop 0 1; Str 0 10 144; Str 1 10 152;
   Ldp_pop 0 1; Str 0 10 160; Str 1 10 168].

Definition stage : list instr :=
  [Ldr 24 9 8; Ldr 12 9 16; Str 24 9 24; Mrs 14 tpidr_el1_r; Str 12 14 24].

Definition restore_context : list instr :=
  [Ldr 20 24 0; Ldr 21 24 8; Ldr 22 24 16; Ldr 23 24 24;
   Msr elr_el1_r 21; Msr spsr_el1_r 22; Ldr 21 24 32; Msr tpidr_el0_r 21;
   Msr_spsel 1;
   If_eq 20 1 [Mov_to_sp 23] [Mov_to_sp 12; Msr sp_el0_r 23];
   Ldp 0 1 24 40; Ldp 2 3 24 56; Ldp 4 5 24 72; Ldp 6 7 24 88; Ldp 8 9 24 104; Ldp 10 11 24 120;
   Ldp 12 13 24 136; Ldp 14 15 24 152; Ldp 16 17 24 168; Ldp 18 19 24 184; Ldp 20 21 24 200;
   Ldp 22 23 24 216; Ldp 25 26 24 240; Ldp 27 28 24 256; Ldp 29 30 24 272; Ldr 24 24 232].

Definition cont_switch_code : list instr :=
  spill ++ save_context ++ unspill ++ stage ++ restore_context.

(** [eret]: the program counter comes from ELR_EL1, the stack that [sp] names
    and the interrupt mask from SPSR_EL1. *)
Definition eret (c : cpu) : Z * cpu := (ELR_EL1 c, set_sys spsel_r (Z.land (SPSR_EL1 c) 1) c).

Definition run_switch (cs : Z) (cm : cpu * mem) : Z * cpu * mem :=
  let '(c, m) := exec_list cs cont_switch_code cm in
  let '(pc, c') := eret c in (pc, c', m).

(** ** Contexts *)

(** The [State] frame at an address. *)
Definition frame_at (m : mem) (base : Z) : State :=
  mkState (m base) (m (base + 8)) (m (base + 16)) (m (base + 24)) (m (base + 32))
    ((fun k => m (base + 40 + 8 * Z.of_nat k)) <$> seq 0 31).

(** The order in which x9 .. x16 come back from the stack: the spill area is
    popped last pushed first, and stored from the slot of x9 upward. *)
Definition permuted (r : list Z) : list Z :=
  take 9 r ++ [r !!! 15%nat; r !!! 16%nat; r !!! 13%nat; r !!! 14%nat;
               r !!! 11%nat; r !!! 12%nat; r !!! 9%nat; r !!! 10%nat] ++ drop 17 r.

(** The context that [cont_switch] captures: it resumes at the return address,
    on the stack of the caller. *)
Definition captured (c : cpu) : State :=
  mkState (SPSEL c) (x c !!! 30%nat) (Z.lor 0x3c4 (SPSEL c)) (get_sp c) (TPIDR_EL0 c)
    (permuted (x c)).

(** The processor that runs in a context [f] with exception slot [slot]. *)
Definition running_in (f : State) (slot : Z) (c : cpu) : cpu :=
  mkCpu (gprs f)
    (if spsel f =? 1 then SP_EL0 c else sp_el0 f)
    (if spsel f =? 1 then sp_el0 f else slot)
    (Z.land (spsr_el1 f) 1) (tpidr_el0 f) (TPIDR_EL1 c) (elr_el1 f) (spsr_el1 f).

Definition apart (a n b k : Z) : Prop := a + n <= b \/ b + k <= a.

(** The memory the code works on: the spill area below the stack pointer, the
    frame it saves to, the frame it restores, [CONT_SWITCH] and the slot field
    of [CoreLocal] do not overlap. *)
Record placed (cs : Z) (c : cpu) (m : mem) : Prop := {
  p_regs : length (x c) = 31%nat;
  p_spsel : SPSEL c = 0 \/ SPSEL c = 1;
  p_spill_save : apart (get_sp c - 64) 64 (m cs) 288;
  p_spill_target : apart (get_sp c - 64) 64 (m (cs + 8)) 288;
  p_spill_cs : apart (get_sp c - 64) 64 cs 32;
  p_spill_slot : apart (get_sp c - 64) 64 (TPIDR_EL1 c + 24) 8;
  p_save_target : apart (m cs) 288 (m (cs + 8)) 288;
  p_save_cs : apart (m cs) 288 cs 32;
  p_save_slot : apart (m cs) 288 (TPIDR_EL1 c + 24) 8;
  p_target_cs : apart (m (cs + 8)) 288 cs 32;
  p_target_slot : apart (m (cs + 8)) 288 (TPIDR_EL1 c + 24) 8;
  p_cs_slot : apart cs 32 (TPIDR_EL1 c + 24) 8;
}.

Lemma exec_list_app cs l1 l2 cm : exec_list cs (l1 ++ l2) cm = exec_list cs l2 (exec_list cs l1 cm).
Proof. apply fold_left_app. Qed.

(** Reads through the updates of a concrete list of stores. *)
Ltac read :=
  repeat (rewrite fn_lookup_insert || (rewrite fn_lookup_insert_ne by (unfold apart in *; lia))).

(** A processor whose active stack pointer is [v]. *)
Definition at_sp (c : cpu) (v : Z) (xs : list Z) : cpu :=
  set_sp v (mkCpu xs (SP_EL0 c) (SP_EL1 c) (SPSEL c) (TPIDR_EL0 c) (TPIDR_EL1 c) (ELR_EL1 c)
              (SPSR_EL1 c)).

Lemma x_at_sp c v xs : x (at_sp c v xs) = xs.
Proof. unfold at_sp, set_sp. cbn. by destruct (_ =? _). Qed.
Lemma get_at_sp c v xs : get_sp (at_sp c v xs) = v.
Proof. unfold at_sp, set_sp, get_sp. cbn. by destruct (SPSEL c =? 1) eqn:E; cbn; rewrite E. Qed.
Lemma set_at_sp c u v xs : set_sp u (at_sp c v xs) = at_sp c u xs.
Proof. unfold at_sp, set_sp. cbn. by destruct (SPSEL c =? 1) eqn:E; cbn; rewrite E. Qed.
Lemma set_x_at_sp c d w v xs : set_x d w (at_sp c v xs) = at_sp c v (<[d := w]> xs).
Proof. unfold at_sp, set_sp, set_x. cbn. by destruct (SPSEL c =? 1). Qed.
Lemma spsel_at_sp c v xs : get_sys spsel_r (at_sp c v xs) = SPSEL c.
Proof. unfold at_sp, set_sp. cbn. by destruct (SPSEL c =? 1). Qed.
Lemma tpidr_el0_at_sp c v xs : get_sys tpidr_el0_r (at_sp c v xs) = TPIDR_EL0 c.
Proof. unfold at_sp, set_sp. cbn. by destruct (SPSEL c =? 1). Qed.
Lemma tpidr_el1_at_sp c v xs : get_sys tpidr_el1_r (at_sp c v xs) = TPIDR_EL1 c.
Proof. unfold at_sp, set_sp. cbn. by destruct (SPSEL c =? 1). Qed.
Create Rewrite HintDb cpu.
Hint Rewrite x_at_sp get_at_sp set_at_sp set_x_at_sp spsel_at_sp tpidr_el0_at_sp tpidr_el1_at_sp : cpu.

Lemma exec_cons cs i l cm : exec_list cs (i :: l) cm = exec_list cs l (exec_instr cs i cm).
Proof. done. Qed.

(** One instruction after the other, over a register file written out. *)
Ltac sym_exec :=
  repeat (rewrite exec_cons; cbn [exec_instr]; cbv zeta;
          repeat (progress (autorewrite with cpu; cbn [insert list_insert lookup_total list_lookup_total])));
  cbn [exec_list fold_left].

Section Phases.
Context (cs : Z) (c : cpu).
Context (x0 x1 x2 x3 x4 x5 x6 x7 x8 x9 x10 x11 x12 x13 x14 x15 x16 x17 x18 x19 x20 x21 x22 x23
         x24 x25 x26 x27 x28 x29 x30 : Z).

Notation all := [x0; x1; x2; x3; x4; x5; x6; x7; x8; x9; x10; x11; x12; x13; x14; x15; x16; x17; x18; x19;
     x20; x21; x22; x23; x24; x25; x26; x27; x28; x29; x30] (only parsing).

Lemma spill_phase (sp : Z) (m : mem) :
  exists m1, exec_list cs spill (at_sp c sp all, m) = (at_sp c (sp - 64) all, m1) /\
    (m1 (sp - 64) = x15 /\ m1 (sp - 56) = x16 /\ m1 (sp - 48) = x13 /\ m1 (sp - 40) = x14 /\
     m1 (sp - 32) = x11 /\ m1 (sp - 24) = x12 /\ m1 (sp - 16) = x9 /\ m1 (sp - 8) = x10) /\
    (forall a, ~ (sp - 64 <= a < sp) -> m1 a = m a).
Proof.
  exists (<[sp - 64 + 8 := x16]> (<[sp - 64 := x15]> (<[sp - 48 + 8 := x14]> (<[sp - 48 := x13]>
    (<[sp - 32 + 8 := x12]> (<[sp - 32 := x11]> (<[sp - 16 + 8 := x10]> (<[sp - 16 := x9]> m)))))))).
  split.
  - replace (sp - 64) with (sp - 16 - 16 - 16 - 16) by lia.
    replace (sp - 48) with (sp - 16 - 16 - 16) by lia. replace (sp - 32) with (sp - 16 - 16) by lia.
    unfold spill. sym_exec. done.
  - split; [|intros a Ha; by read].
    replace (sp - 56) with (sp - 64 + 8) by lia. replace (sp - 40) with (sp - 48 + 8) by lia.
    replace (sp - 24) with (sp - 32 + 8) by lia. replace (sp - 8) with (sp - 16 + 8) by lia.
    repeat split; read; done.
Qed.

(** The stores of the saving code, and what a frame then holds. *)
Definition saved_words (sp : Z) : list (Z * Z) :=
  [(24, sp); (32, TPIDR_EL0 c); (8, x30); (16, Z.lor 0x3c4 (SPSEL c)); (0, SPSEL c);
   (40, x0); (48, x1); (56, x2); (64, x3); (72, x4); (80, x5); (88, x6); (96, x7); (104, x8);
   (176, x17); (184, x18); (192, x19); (200, x20); (208, x21); (216, x22); (224, x23); (232, x24);
   (240, x25); (248, x26); (256, x27); (264, x28); (272, x29); (280, x30)].

Definition store_words (base : Z) (l : list (Z * Z)) (m : mem) : mem :=
  fold_left (fun m kv => <[base + fst kv := snd kv]> m) l m.

Definition spilled_regs (sv sp : Z) : list Z :=
  [x0; x1; x2; x3; x4; x5; x6; x7; x8; cs; sv; sp; TPIDR_EL0 c; x30; Z.lor 0x3c4 (SPSEL c); SPSEL c;
   x16; x17; x18; x19; x20; x21; x22; x23; x24; x25; x26; x27; x28; x29; x30].

Lemma save_phase (sp : Z) (m : mem) :
  exec_list cs save_context (at_sp c (sp - 64) all, m) =
  (at_sp c (sp - 64) (spilled_regs (m cs) sp), store_words (m cs) (saved_words sp) m).
Proof.
  unfold spilled_regs, saved_words, store_words.
  unfold save_context. sym_exec.
  replace (sp - 64 + 64) with sp by lia. replace (m (cs + 0)) with (m cs) by (f_equal; lia). done.
Qed.


Lemma store_words_outside base l (m : mem) a :
  (forall kv, In kv l -> 0 <= fst kv < 288) -> ~ (base <= a < base + 288) ->
  store_words base l m a = m a.
Proof.
  unfold store_words. revert m. induction l as [|kv l IH]; intros m Hl Ha; cbn; [done|].
  rewrite IH; [|intros; apply Hl; by right|done].
  apply fn_lookup_insert_ne. specialize (Hl kv (or_introl eq_refl)). lia.
Qed.

Lemma store_words_inside base l (m : mem) k v :
  NoDup (fst <$> l) -> In (k, v) l -> store_words base l m (base + k) = v.
Proof.
  unfold store_words. revert m. induction l as [|kv l IH]; intros m Hn Hin; [done|].
  rewrite fmap_cons in Hn. apply list.NoDup_cons in Hn as [Hk Hn]. cbn.
  destruct Hin as [->|Hin]; [|by apply IH].
  cbn in Hk. change (store_words base l (<[base + k := v]> m) (base + k) = v).
  assert (E : forall m', store_words base l m' (base + k) = m' (base + k)).
  { clear -Hk. unfold store_words. induction l as [|kv l IH]; intros m'; cbn; [done|].
    rewrite fmap_cons in Hk. apply not_elem_of_cons in Hk as [H1 H2].
    rewrite IH by done. apply fn_lookup_insert_ne. lia. }
  rewrite E. by rewrite fn_lookup_insert.
Qed.

(** The pops: x15, x16, x13, ... land in the slots of x9, x10, x11, ... *)
Lemma unspill_phase (sp sv : Z) (m : mem) :
  apart (sp - 64) 64 sv 288 ->
  exists y0 y1,
  exec_list cs unspill (at_sp c (sp - 64) (spilled_regs sv sp), m) =
  (at_sp c sp (<[1%nat := y1]> (<[0%nat := y0]> (spilled_regs sv sp))),
   store_words sv [(112, m (sp - 64)); (120, m (sp - 56)); (128, m (sp - 48)); (136, m (sp - 40));
                   (144, m (sp - 32)); (152, m (sp - 24)); (160, m (sp - 16)); (168, m (sp - 8))] m).
Proof.
  intros A. eexists _, _. unfold spilled_regs, unspill. sym_exec.
  unfold store_words. cbn [fold_left fst snd].
  replace (sp - 64 + 16 + 16 + 16 + 16) with sp by lia.
  replace (sp - 64 + 16 + 16 + 16 + 8) with (sp - 8) by lia.
  replace (sp - 64 + 16 + 16 + 16) with (sp - 16) by lia.
  replace (sp - 64 + 16 + 16 + 8) with (sp - 24) by lia.
  replace (sp - 64 + 16 + 16) with (sp - 32) by lia.
  replace (sp - 64 + 16 + 8) with (sp - 40) by lia.
  replace (sp - 64 + 16) with (sp - 48) by lia. replace (sp - 64 + 8) with (sp - 56) by lia.
  read. reflexivity.
Qed.

Lemma stage_phase (sp sv y0 y1 : Z) (m : mem) :
  exec_list cs stage (at_sp c sp (<[1%nat := y1]> (<[0%nat := y0]> (spilled_regs sv sp))), m) =
  (at_sp c sp (<[14%nat := TPIDR_EL1 c]> (<[12%nat := m (cs + 16)]> (<[24%nat := m (cs + 8)]>
     (<[1%nat := y1]> (<[0%nat := y0]> (spilled_regs sv sp)))))),
   <[TPIDR_EL1 c + 24 := m (cs + 16)]> (<[cs + 24 := m (cs + 8)]> m)).
Proof. unfold stage, spilled_regs. cbn [insert list_insert]. sym_exec. done. Qed.

Lemma set_sp_el1 xs a b d f g h v :
  set_sp v (mkCpu xs a b 1 d f g h) = mkCpu xs a v 1 d f g h.
Proof. done. Qed.

Lemma set_x_mk d v xs a b e f g h i :
  set_x d v (mkCpu xs a b e f g h i) = mkCpu (<[d := v]> xs) a b e f g h i.
Proof. done. Qed.

Ltac step_cpu :=
  cbn [exec_instr]; rewrite ?set_x_mk;
  cbn [exec_instr set_sys x insert list_insert lookup_total list_lookup_total SP_EL0 SP_EL1
       SPSEL TPIDR_EL0 TPIDR_EL1 ELR_EL1 SPSR_EL1].

Lemma restore_phase (m : mem) :
  exec_list cs restore_context
    (mkCpu all (SP_EL0 c) (SP_EL1 c) (SPSEL c) (TPIDR_EL0 c) (TPIDR_EL1 c) (ELR_EL1 c) (SPSR_EL1 c), m) =
  (let f := frame_at m x24 in
   mkCpu (gprs f) (if spsel f =? 1 then SP_EL0 c else sp_el0 f)
     (if spsel f =? 1 then sp_el0 f else x12) 1 (tpidr_el0 f) (TPIDR_EL1 c) (elr_el1 f) (spsr_el1 f), m).
Proof.
  unfold restore_context, frame_at. cbv zeta. cbn [spsel elr_el1 spsr_el1 sp_el0 tpidr_el0 gprs].
  assert (E0 : m (x24 + 0) = m x24) by (f_equal; lia).
  do 9 (rewrite exec_cons; step_cpu; rewrite ?E0).
  rewrite exec_cons. cbn [exec_instr x lookup_total list_lookup_total].
  destruct (m x24 =? 1) eqn:E1; step_cpu; rewrite set_sp_el1; step_cpu.
  all: repeat (rewrite exec_cons; step_cpu); cbn [exec_list fold_left].
  all: apply (f_equal2 pair); [|done]; cbn [seq fmap list_fmap].
  all: match goal with |- mkCpu ?l _ _ _ _ _ _ _ = mkCpu ?l' _ _ _ _ _ _ _ =>
         assert (EL : l = l'); [|by rewrite EL] end.
  all: repeat (apply (f_equal2 cons); [apply (f_equal m); lia|]); done.
Qed.

End Phases.

Definition find_word (k : Z) (l : list (Z * Z)) : option Z :=
  snd <$> find (fun kv => fst kv =? k) l.

Lemma find_word_In k l v : find_word k l = Some v -> In (k, v) l.
Proof.
  unfold find_word. destruct (find _ l) as [[k' v']|] eqn:E; cbn; [|done].
  intros [= <-]. apply find_some in E as [Hin Hk]. apply Z.eqb_eq in Hk. cbn in Hk. by subst.
Qed.

Lemma mkState_eq a b d e f g a' b' d' e' f' g' :
  a = a' -> b = b' -> d = d' -> e = e' -> f = f' -> g = g' ->
  mkState a b d e f g = mkState a' b' d' e' f' g'.
Proof. congruence. Qed.

(** The whole of the saving half: the frame holds the captured context, nothing
    else but the spill area has changed. *)
Lemma save_half cs c (m : mem) :
  length (x c) = 31%nat -> let sv := m cs in let sp := get_sp c in
  apart (sp - 64) 64 sv 288 -> apart (sp - 64) 64 cs 32 ->
  exists xs m3, exec_list cs (spill ++ save_context ++ unspill) (c, m) = (at_sp c sp xs, m3) /\
    length xs = 31%nat /\ xs !!! 9%nat = cs /\
    frame_at m3 sv = captured c /\
    (forall a, ~ (sp - 64 <= a < sp) -> ~ (sv <= a < sv + 288) -> m3 a = m a).
Proof.
  intros Hlen sv sp A1 A2.
  assert (Ec : c = at_sp c sp (x c)).
  { unfold at_sp, set_sp, sp, get_sp. cbn. by destruct c as [? ? ? l]; cbn; destruct (l =? 1). }
  destruct (x c) as [|x0 [|x1 [|x2 [|x3 [|x4 [|x5 [|x6 [|x7 [|x8 [|x9 [|x10 [|x11 [|x12 [|x13 [|x14
    [|x15 [|x16 [|x17 [|x18 [|x19 [|x20 [|x21 [|x22 [|x23 [|x24 [|x25 [|x26 [|x27 [|x28 [|x29 [|x30
    [|]]]]]]]]]]]]]]]]]]]]]]]]]]]]]]]] eqn:Ex; try discriminate Hlen.
  destruct (spill_phase cs c x0 x1 x2 x3 x4 x5 x6 x7 x8 x9 x10 x11 x12 x13 x14 x15 x16 x17 x18 x19
    x20 x21 x22 x23 x24 x25 x26 x27 x28 x29 x30 sp m) as (m1 & E1 & (S1 & S2 & S3 & S4 & S5 & S6 & S7 & S8) & O1).
  assert (Ecs : m1 cs = sv) by (apply O1; unfold apart in A2; lia).
  rewrite !exec_list_app.
  replace (exec_list cs spill (c, m)) with (exec_list cs spill (at_sp c sp
    [x0; x1; x2; x3; x4; x5; x6; x7; x8; x9; x10; x11; x12; x13; x14; x15; x16; x17; x18; x19;
     x20; x21; x22; x23; x24; x25; x26; x27; x28; x29; x30], m)) by (by rewrite <- Ec).
  rewrite E1, save_phase, Ecs. clear E1.
  set (l := saved_words _ _ _ _ _ _ _ _ _ _ _ _ _ _ _ _ _ _ _ _ _ _ _ _ _).
  assert (Hl : forall kv, In kv l -> 0 <= fst kv < 288).
  { intros kv Hin. repeat destruct Hin as [<-|Hin]; cbn; lia || done. }
  assert (Hs : forall a, sp - 64 <= a < sp -> store_words sv l m1 a = m1 a).
  { intros a Ha. apply store_words_outside; [done|]. unfold apart in A1. lia. }
  destruct (unspill_phase cs c x0 x1 x2 x3 x4 x5 x6 x7 x8 x16 x17 x18 x19
    x20 x21 x22 x23 x24 x25 x26 x27 x28 x29 x30 sp sv (store_words sv l m1) A1) as (y0 & y1 & E2).
  rewrite E2. clear E2. rewrite !Hs by lia. rewrite S1, S2, S3, S4, S5, S6, S7, S8.
  eexists _, _. split; [reflexivity|]. split; [done|]. split; [done|].
  set (l2 := [(112, x15); _; _; _; _; _; _; _]).
  assert (Hl2 : forall kv, In kv l2 -> 0 <= fst kv < 288).
  { intros kv Hin. repeat destruct Hin as [<-|Hin]; cbn; lia || done. }
  assert (Hw : store_words sv l2 (store_words sv l m1) = store_words sv (l ++ l2) m1)
    by (unfold store_words; by rewrite fold_left_app).
  rewrite Hw. split.
  - assert (Hn : NoDup (fst <$> (l ++ l2))) by (vm_compute; apply (bool_decide_unpack _); vm_compute; exact I).
    assert (W : forall a k v, a = sv + k -> find_word k (l ++ l2) = Some v ->
              store_words sv (l ++ l2) m1 a = v)
      by (intros a k v -> Hf; apply store_words_inside; [done|by apply find_word_In]).
    clear Hw Hs. revert W. generalize (store_words sv (l ++ l2) m1). intros M W.
    unfold captured, frame_at. rewrite Ex. unfold permuted. cbn [seq fmap list_fmap].
    apply mkState_eq;
      [apply (W _ 0); [lia|reflexivity]|apply (W _ 8); [lia|reflexivity]
      |apply (W _ 16); [lia|reflexivity]|apply (W _ 24); [lia|reflexivity]
      |apply (W _ 32); [lia|reflexivity]|].
    repeat (apply (f_equal2 cons);
      [match goal with |- M (sv + 40 + ?e) = _ => apply (W _ (40 + e)); [lia|reflexivity] end|]).
    done.
  - intros a Ha Hb. rewrite store_words_outside; [by apply O1| |done].
    intros kv [Hin|Hin]%in_app_or; auto.
Qed.

(** The restoring half: whatever the registers, the target's context runs. *)
Lemma restore_half cs c xs (m : mem) :
  length xs = 31%nat -> xs !!! 9%nat = cs ->
  apart (m (cs + 8)) 288 cs 32 -> apart (m (cs + 8)) 288 (TPIDR_EL1 c + 24) 8 ->
  let m' := <[TPIDR_EL1 c + 24 := m (cs + 16)]> (<[cs + 24 := m (cs + 8)]> m) in
  exists c', exec_list cs (stage ++ restore_context) (at_sp c (get_sp c) xs, m) = (c', m') /\
    snd (eret c') = running_in (frame_at m (m (cs + 8))) (m (cs + 16)) c /\
    fst (eret c') = elr_el1 (frame_at m (m (cs + 8))).
Proof.
  intros Hlen H9 A1 A2 m'. rewrite exec_list_app.
  assert (Ef : frame_at m' (m (cs + 8)) = frame_at m (m (cs + 8))).
  { assert (E : forall k, 0 <= k < 288 -> m' (m (cs + 8) + k) = m (m (cs + 8) + k)).
    { intros k Hk. unfold m'. unfold apart in *. rewrite !fn_lookup_insert_ne by lia. done. }
    unfold frame_at. apply mkState_eq; try (apply E; lia).
    - rewrite <- (Z.add_0_r (m (cs + 8))). apply E. lia.
    - apply list_fmap_ext. intros i k Hk. apply lookup_seq in Hk as [-> Hk].
      rewrite <- Z.add_assoc. apply E. lia. }
  destruct xs as [|x0 [|x1 [|x2 [|x3 [|x4 [|x5 [|x6 [|x7 [|x8 [|x9 [|x10 [|x11 [|x12 [|x13 [|x14
    [|x15 [|x16 [|x17 [|x18 [|x19 [|x20 [|x21 [|x22 [|x23 [|x24 [|x25 [|x26 [|x27 [|x28 [|x29 [|x30
    [|]]]]]]]]]]]]]]]]]]]]]]]]]]]]]]]]; try discriminate Hlen.
  cbn in H9. subst x9.
  unfold stage at 1. sym_exec.
  fold m'. change (exec_list cs [] ?s) with s.
  assert (Ea : forall ys, at_sp c (get_sp c) ys = mkCpu ys (SP_EL0 c) (SP_EL1 c) (SPSEL c) (TPIDR_EL0 c)
      (TPIDR_EL1 c) (ELR_EL1 c) (SPSR_EL1 c))
    by (intros ys; unfold at_sp, set_sp, get_sp; cbn; by destruct (SPSEL c =? 1)).
  rewrite Ea, restore_phase, Ef. eexists. split; [reflexivity|]. split; reflexivity.
Qed.

Lemma switch_correct cs c (m : mem) :
  placed cs c m ->
  let sv := m cs in let tg := m (cs + 8) in let slot := m (cs + 16) in
  exists m', run_switch cs (c, m) =
      (elr_el1 (frame_at m tg), running_in (frame_at m tg) slot c, m') /\
    frame_at m' sv = captured c /\ frame_at m' tg = frame_at m tg /\
    m' (cs + 24) = tg /\ m' (TPIDR_EL1 c + 24) = slot /\
    (forall a, ~ (get_sp c - 64 <= a < get_sp c) -> ~ (sv <= a < sv + 288) ->
       a <> cs + 24 -> a <> TPIDR_EL1 c + 24 -> m' a = m a).
Proof.
  intros [Hr _ P1 P2 P3 P4 P5 P6 P7 P8 P9 P10] sv tg slot. unfold run_switch, cont_switch_code.
  destruct (save_half cs c m Hr P1 P3) as (xs & m3 & E & Hlen & H9 & Hf & Ho).
  fold sv in Hf, Ho.
  assert (Etg : m3 (cs + 8) = tg) by (apply Ho; unfold apart in *; lia).
  assert (Esl : m3 (cs + 16) = slot) by (apply Ho; unfold apart in *; lia).
  assert (Ft : forall mm : mem, (forall k, 0 <= k < 288 -> mm (tg + k) = m (tg + k)) ->
                frame_at mm tg = frame_at m tg).
  { intros mm Hk. unfold frame_at. apply mkState_eq; try (apply Hk; lia).
    - rewrite <- (Z.add_0_r tg). apply Hk. lia.
    - apply list_fmap_ext. intros i k Hi. apply lookup_seq in Hi as [-> Hi].
      rewrite <- Z.add_assoc. apply Hk. lia. }
  assert (F3 : frame_at m3 tg = frame_at m tg)
    by (apply Ft; intros k Hk; apply Ho; unfold tg, apart in *; lia).
  destruct (restore_half cs c xs m3 Hlen H9) as (c' & E2 & Hc' & Hpc);
    [rewrite Etg; done|rewrite Etg; done|].
  rewrite Etg, Esl in *.
  replace (spill ++ save_context ++ unspill ++ stage ++ restore_context)
    with ((spill ++ save_context ++ unspill) ++ (stage ++ restore_context))
    by (by rewrite <- !app_assoc).
  rewrite exec_list_app, E, E2. destruct (eret c') as [pc c2]. cbn [fst snd] in Hc', Hpc. subst pc c2.
  rewrite F3. eexists. split; [reflexivity|].
  assert (Fs : forall a, sv <= a < sv + 288 ->
     (<[TPIDR_EL1 c + 24 := slot]> (<[cs + 24 := tg]> m3)) a = m3 a)
    by (intros a Ha; unfold sv, apart in *; rewrite !fn_lookup_insert_ne by lia; done).
  split; [|split; [|split; [|split]]].
  - rewrite <- Hf. unfold frame_at. apply mkState_eq; try (apply Fs; lia).
    apply list_fmap_ext. intros i k Hi. apply lookup_seq in Hi as [-> Hi]. apply Fs. lia.
  - apply Ft. intros k Hk. unfold tg, sv, apart in *. rewrite !fn_lookup_insert_ne by lia. apply Ho; lia.
  - unfold apart in *. rewrite fn_lookup_insert_ne by lia. by rewrite fn_lookup_insert.
  - by rewrite fn_lookup_insert.
  - intros a Ha Hb Hc1 Hc2. rewrite !fn_lookup_insert_ne by done. by apply Ho.
Qed.

Lemma permuted_other r k :
  length r = 31%nat -> (k <= 8 \/ 17 <= k <= 30)%nat -> permuted r !!! k = r !!! k.
Proof.
  intros Hl Hk. unfold permuted. rewrite !list_lookup_total_alt. f_equal. destruct Hk as [Hk|Hk].
  - rewrite lookup_app_l by (rewrite length_take; lia). apply lookup_take_lt. lia.
  - rewrite lookup_app_r by (rewrite length_take; lia). rewrite length_take, Hl.
    rewrite lookup_app_r by (cbn [length]; lia). rewrite lookup_drop. cbn [length]. f_equal. lia.
Qed.

(** ** The properties *)

(** What a frame keeps of the processor that left: it resumes at the return
    address of the call, on its stack, with its thread pointer and x0 .. x8 and
    x17 .. x30.  The eight caller-saved registers x9 .. x16 are in the wrong
    slots: the pairs are popped from the spill area last pushed first. *)
Record saved_in (c : cpu) (f : State) : Prop := {
  saved_pc : elr_el1 f = x c !!! 30%nat;
  saved_stack : spsel f = SPSEL c /\ sp_el0 f = get_sp c;
  saved_status : spsr_el1 f = Z.lor 0x3c4 (SPSEL c);
  saved_tls : tpidr_el0 f = TPIDR_EL0 c;
  saved_regs k : (k <= 8 \/ 17 <= k <= 30)%nat -> gprs f !!! k = x c !!! k;
  saved_scratch : (fun k => gprs f !!! k) <$> seq 9 8 = (fun k => x c !!! k) <$> [15; 16; 13; 14; 11; 12; 9; 10]%nat;
}.

Lemma captured_saved c : length (x c) = 31%nat -> saved_in c (captured c).
Proof.
  intros Hl. split; try done; [intros k Hk; by apply permuted_other|].
  destruct (x c) as [|x0 [|x1 [|x2 [|x3 [|x4 [|x5 [|x6 [|x7 [|x8 [|x9 l]]]]]]]]]] eqn:E; try discriminate Hl.
  cbn [captured gprs]. rewrite E. reflexivity.
Qed.

(** C26: the assembly of [cont_switch], run on a model of the processor, switches
    contexts as the model of the pool says: when the memory it uses does not
    overlap, control goes to the context stored at [CONT_SWITCH.target] with its
    stack, thread pointer and all its registers, [cur] and the core's exception
    slot are set to the target's, and no memory but the frame at
    [CONT_SWITCH.save], these two and the spill area below the stack pointer
    changes.  That frame keeps the return address, stack, thread pointer and
    x0 .. x8, x17 .. x30 of the context that leaves; of x9 .. x16, which a call
    may change but the comments of the source say are kept, it keeps the values
    in another order: (x15, x16, x13, x14, x11, x12, x9, x10). *)
Theorem cont_switch_code_correct cs c (m : mem) :
  placed cs c m ->
  let sv := m cs in let tg := m (cs + 8) in let slot := m (cs + 16) in
  exists m', run_switch cs (c, m) =
      (elr_el1 (frame_at m tg), running_in (frame_at m tg) slot c, m') /\
    saved_in c (frame_at m' sv) /\ frame_at m' tg = frame_at m tg /\
    m' (cs + 24) = tg /\ m' (TPIDR_EL1 c + 24) = slot /\
    (forall a, ~ (get_sp c - 64 <= a < get_sp c) -> ~ (sv <= a < sv + 288) ->
       a <> cs + 24 -> a <> TPIDR_EL1 c + 24 -> m' a = m a).
Proof.
  intros P. destruct (switch_correct cs c m P) as (m' & E & Hs & H). exists m'. split; [done|]. split; [|done].
  rewrite Hs. apply captured_saved, (p_regs _ _ _ P).
Qed.

(** A context that switches away and is later switched to again, by any
    context that left its frame alone, continues at the return address of its
    call with its own stack pointer, thread pointer and registers x0 .. x8 and
    x17 .. x30; x9 .. x16 come back in another order, (x15, x16, x13, x14, x11,
    x12, x9, x10), which the calling convention allows. *)
Theorem switch_away_and_back cs c1 (m1 : mem) pc c' m2 c2 (m3 : mem) :
  placed cs c1 m1 -> run_switch cs (c1, m1) = (pc, c', m2) ->
  placed cs c2 m3 -> m3 (cs + 8) = m1 cs -> frame_at m3 (m1 cs) = frame_at m2 (m1 cs) ->
  exists r m4, run_switch cs (c2, m3) = (x c1 !!! 30%nat, r, m4) /\
    x r = permuted (x c1) /\ get_sp r = get_sp c1 /\ SPSEL r = SPSEL c1 /\
    TPIDR_EL0 r = TPIDR_EL0 c1 /\
    forall k, (k <= 8 \/ 17 <= k <= 30)%nat -> x r !!! k = x c1 !!! k.
Proof.
  intros P1 E1 P2 Et Ef. destruct (switch_correct cs c1 m1 P1) as (m2' & E1' & Hs & _).
  pose proof (f_equal snd (eq_trans (eq_sym E1) E1')) as Em. cbn [snd] in Em. subst m2'.
  destruct (switch_correct cs c2 m3 P2) as (m4 & E2 & _).
  rewrite Et, Ef, Hs in E2. eexists _, m4. split; [exact E2|].
  assert (Hl : Z.land (Z.lor 0x3c4 (SPSEL c1)) 1 = SPSEL c1)
    by (destruct (p_spsel _ _ _ P1) as [-> | ->]; reflexivity).
  split; [done|]. split; [|split; [done|split; [done|]]].
  - unfold get_sp at 1. unfold running_in, captured. cbn -[get_sp Z.land Z.lor].
    rewrite Hl. by destruct (SPSEL c1 =? 1).
  - intros k Hk. pose proof (p_regs _ _ _ P1) as Hlen. cbn. by apply permuted_other.
Qed.

(** Interrupts are masked in a processor that returned from an exception with
    bit 7 of SPSR_EL1 set. *)
Definition irq_masked (c : cpu) : bool := Z.testbit (SPSR_EL1 c) 7.

(** A continuation always runs with interrupts masked, when it is
    started (its first frame has SPSR 0x3c4, whose bit 7 is set) as well as
    when it is resumed from a frame that [cont_switch] saved; the timer
    interrupt that is to end its quantum cannot be taken while it runs. *)
Theorem continuations_run_masked `{Layout} cs c (m : mem) i entry c0 :
  placed cs c m ->
  frame_at m (m (cs + 8)) = first_context i entry \/ frame_at m (m (cs + 8)) = captured c0 ->
  exists pc r m', run_switch cs (c, m) = (pc, r, m') /\ irq_masked r = true.
Proof.
  intros P Hf. destruct (switch_correct cs c m P) as (m' & E & _).
  eexists _, _, m'. split; [exact E|]. unfold irq_masked. cbn [SPSR_EL1 running_in].
  destruct Hf as [-> | ->]; cbn [spsr_el1 first_context captured]; [done|].
  rewrite Z.lor_spec. done.
Qed.

(** ** A concrete switch *)

Definition demo_cpu : cpu := mkCpu (Z.of_nat <$> seq 100 31) 0x9000 0xA000 0 7 0x5000 0 0.
Definition demo_frame : State := mkState 1 0x4444 0x3c5 0xB000 8 (repeat 0 31).

Definition demo_mem (a : Z) : Z :=
  if a =? 0x1000 then 0x2000 else if a =? 0x1008 then 0x3000 else if a =? 0x1010 then 0xC000
  else if a =? 0x3000 then 0 else if a =? 0x3008 then 0x4444 else if a =? 0x3010 then 0x3c4
  else if a =? 0x3018 then 0x10007ed0 else if a =? 0x3020 then CONT_TLS_MAGIC else 0.

Lemma demo_placed : placed 0x1000 demo_cpu demo_mem.
Proof.
  assert (E0 : demo_mem 0x1000 = 0x2000) by reflexivity.
  assert (E8 : demo_mem (0x1000 + 8) = 0x3000) by reflexivity.
  assert (Es : get_sp demo_cpu = 0x9000) by reflexivity.
  assert (Et : TPIDR_EL1 demo_cpu = 0x5000) by reflexivity.
  split; rewrite ?E0, ?E8, ?Es, ?Et; unfold apart; try lia; [reflexivity|left; reflexivity].
Qed.

Lemma cont_switch_code_correct_witness :
  exists m', run_switch 0x1000 (demo_cpu, demo_mem) =
    (0x4444, running_in (frame_at demo_mem 0x3000) 0xC000 demo_cpu, m').
Proof.
  destruct (cont_switch_code_correct 0x1000 demo_cpu demo_mem demo_placed) as (m' & E & _).
  exists m'. exact E.
Defined.

Definition demo_back (m : mem) : mem :=
  fun a => if a =? 0x1000 then 0x3000 else if a =? 0x1008 then 0x2000 else m a.
Definition demo_cpu2 : cpu := mkCpu (repeat 5 31) 0xB000 0xA000 0 8 0x5000 0 0.

Lemma demo_back_frame (m : mem) : frame_at (demo_back m) 0x2000 = frame_at m 0x2000.
Proof.
  unfold frame_at. apply mkState_eq; reflexivity.
Qed.

Lemma switch_away_and_back_witness :
  exists m3 r m4, run_switch 0x1000 (demo_cpu2, demo_back m3) = (130, r, m4) /\
    get_sp r = 0x9000 /\ x r !!! 19%nat = 119.
Proof.
  destruct (switch_correct 0x1000 demo_cpu demo_mem demo_placed) as (m2 & E & _).
  destruct (switch_away_and_back 0x1000 demo_cpu demo_mem _ _ m2 demo_cpu2 (demo_back m2)
    demo_placed E) as (r & m4 & E2 & _ & Hsp & _ & _ & Hx).
  - assert (E0 : demo_back m2 0x1000 = 0x3000) by reflexivity.
    assert (E8 : demo_back m2 (0x1000 + 8) = 0x2000) by reflexivity.
    assert (Es : get_sp demo_cpu2 = 0xB000) by reflexivity.
    assert (Et : TPIDR_EL1 demo_cpu2 = 0x5000) by reflexivity.
    split; rewrite ?E0, ?E8, ?Es, ?Et; unfold apart; try lia; [reflexivity|left; reflexivity].
  - reflexivity.
  - apply demo_back_frame.
  - exists m2, r, m4. split; [exact E2|]. split; [exact Hsp|]. rewrite Hx by lia. reflexivity.
Defined.

Lemma continuations_run_masked_witness :
  exists pc r m', run_switch 0x1000 (demo_cpu, demo_mem) = (pc, r, m') /\ irq_masked r = true.
Proof.
  pose (L := Build_Layout 0 0x10000000 0x20000000 (fun i => 0x40000000 + 512 * Z.of_nat i)
    0x50000000 0x60000000 0x100 0x200).
  apply (continuations_run_masked (H := L) 0x1000 demo_cpu demo_mem 0 0x4444 demo_cpu demo_placed).
  left. vm_compute. reflexivity.
Defined.

End ContSwitch.
