(* ===== verification/Paging.v ===== *)
(** Page tables of AArch64 (src/src/arch/aarch64/mm/paging.rs).  The tables are
    reached through the recursive entry 511 of the root table, so every access
    of the code to a table goes through the translation it manipulates; the
    model has the memory management unit walk the tables in physical memory for
    each of these accesses.  TLB maintenance and barriers are not modelled. *)

From S2P Require Import Prelude.
From stdpp Require Import functions.
Open Scope Z_scope.

Module Paging.

Definition L0TABLE_ADDRESS : Z := 0x0000fffffffff000.
Definition PAGE_BITS : Z := 12.
Definition PAGE_MAP_BITS : Z := 9.
Definition PAGE_MAP_MASK : Z := 0x1ff.
Definition GROUP_SIZE : Z := 16.

(** ** Flags *)

Definition PRESENT : Z := Z.shiftl 1 0.
Definition TABLE_OR_4KIB_PAGE : Z := Z.shiftl 1 1.
Definition DEVICE_NGNRNE : Z := 0.
Definition DEVICE_NGNRE : Z := Z.shiftl 1 2.
Definition DEVICE_GRE : Z := Z.shiftl 1 3.
Definition NORMAL_NC : Z := Z.lor (Z.shiftl 1 3) (Z.shiftl 1 2).
Definition NORMAL : Z := Z.shiftl 1 4.
Definition READ_ONLY : Z := Z.shiftl 1 7.
Definition INNER_SHAREABLE : Z := Z.lor (Z.shiftl 1 8) (Z.shiftl 1 9).
Definition ACCESSED : Z := Z.shiftl 1 10.
Definition CONTIGUOUS : Z := Z.shiftl 1 52.
Definition PRIVILEGED_EXECUTE_NEVER : Z := Z.shiftl 1 53.
Definition UNPRIVILEGED_EXECUTE_NEVER : Z := Z.shiftl 1 54.
Definition SELF : Z := Z.shiftl 1 55.

(** [insert] and [remove] of bitflags. *)
Definition insert_flag (f flags : Z) : Z := Z.lor flags f.
Definition remove_flag (f flags : Z) : Z := Z.ldiff flags f.

Definition present (flags : Z) : Z := insert_flag PRESENT flags.
Definition device (flags : Z) : Z :=
  insert_flag DEVICE_NGNRNE (remove_flag DEVICE_GRE (remove_flag DEVICE_NGNRE
    (remove_flag NORMAL_NC (remove_flag NORMAL flags)))).
Definition normal (flags : Z) : Z :=
  insert_flag NORMAL (remove_flag DEVICE_GRE (remove_flag DEVICE_NGNRE (remove_flag NORMAL_NC flags))).
Definition read_only (flags : Z) : Z := insert_flag READ_ONLY flags.
Definition writable (flags : Z) : Z := remove_flag READ_ONLY flags.
Definition execute_disable (flags : Z) : Z :=
  insert_flag UNPRIVILEGED_EXECUTE_NEVER (insert_flag PRIVILEGED_EXECUTE_NEVER flags).

(** ** Entries *)

Definition entry_address (e : Z) : Z :=
  Z.land (Z.land e (Z.lnot (4096 - 1))) (2 ^ 48 - 1).
Definition is_present (e : Z) : bool := negb (Z.land e PRESENT =? 0).
Definition is_table_or_4kib_page (e : Z) : bool := negb (Z.land e TABLE_OR_4KIB_PAGE =? 0).

(** ** Page sizes and pages *)

Record PageSize : Type := mkPageSize {
  SIZE : Z;
  MAP_LEVEL : nat;
  MAP_EXTRA_FLAG : Z;
}.

Definition BasePageSize : PageSize := mkPageSize 4096 3 TABLE_OR_4KIB_PAGE.
Definition LargePageSize : PageSize := mkPageSize (2 * 1024 * 1024) 2 0.
Definition HugePageSize : PageSize := mkPageSize (1024 * 1024 * 1024) 1 0.

(** ** The machine

    [A] is the state of the frame allocator. *)

Class FrameAlloc (A : Type) : Type := {
  allocate : A -> Z -> Z -> option (Z * A); (** size and alignment *)
}.

Record t (A : Type) : Type := mk {
  phys : Z -> Z; (** 64-bit words of physical memory, by address *)
  root : Z; (** TTBR0_EL1 *)
  alloc : A;
}.
Arguments mk {A} _ _ _.
Arguments phys {A} _.
Arguments root {A} _.
Arguments alloc {A} _.

Section Code.
Context {A : Type} `{FrameAlloc A}.

Definition set_phys (m : Z -> Z) (s : t A) : t A := mk m (root s) (alloc s).
Definition set_alloc (a : A) (s : t A) : t A := mk (phys s) (root s) a.

(** The index of [va] in a table of level [l]. *)
Definition index_of (l : nat) (va : Z) : Z :=
  Z.land (Z.shiftr (Z.shiftr va PAGE_BITS) ((3 - Z.of_nat l) * PAGE_MAP_BITS)) PAGE_MAP_MASK.

(** The walk of the memory management unit from a table of level [3 - n]. *)
Fixpoint walk (n : nat) (m : Z -> Z) (table va : Z) : option Z :=
  let e := m (table + 8 * index_of (3 - n) va) in
  if negb (is_present e) then None
  else
    match n with
    | O => if is_table_or_4kib_page e then Some (entry_address e + va mod 4096) else None
    | S n' =>
        if is_table_or_4kib_page e then walk n' m (entry_address e) va
        else
          match n' with
          | S (S _) => None
          | _ =>
              let size := 2 ^ (12 + 9 * Z.of_nat n) in
              Some (entry_address e - entry_address e mod size + va mod size)
          end
    end.

(** Cached translations and the [CONTIGUOUS] hint of entries are left out. *)
Definition translate (s : t A) (va : Z) : option Z := walk 3 (phys s) (root s) va.

Definition vread (va : Z) : M (t A) Z :=
  let! pa := (fun s => unwrap (translate s va) "translation fault" s) in
  gets (fun s => phys s pa).

Definition vwrite (va v : Z) : M (t A) unit :=
  let! pa := (fun s => unwrap (translate s va) "translation fault" s) in
  modify (fun s => set_phys (<[pa := v]> (phys s)) s).

(** ** Operations on a table, named by its virtual address *)

Definition entry_set (physical_address flags : Z) : M (t A) Z :=
  do! assert_ (physical_address mod 4096 =? 0) "Physical address is not on a 4 KiB page boundary" in
  ret (Z.lor physical_address
         (insert_flag ACCESSED (insert_flag INNER_SHAREABLE (insert_flag PRESENT flags)))).

Definition is_valid_address (va : Z) : bool := va <? 0x1000000000000.

Definition including_address (S : PageSize) (va : Z) : M (t A) Z :=
  do! assert_ (is_valid_address va) "Virtual address is invalid" in
  ret (va - va mod SIZE S).

Definition table_index (S : PageSize) (l : nat) (page : Z) : M (t A) Z :=
  do! assert_ (l <=? MAP_LEVEL S)%nat "L::LEVEL <= S::MAP_LEVEL" in
  ret (index_of l page).

Definition subtable (S : PageSize) (l : nat) (table page : Z) : M (t A) Z :=
  do! assert_ (l <? MAP_LEVEL S)%nat "L::LEVEL < S::MAP_LEVEL" in
  let! index := table_index S l page in
  ret (Z.lor (Z.land (Z.shiftl table PAGE_MAP_BITS) (2 ^ 48 - 1)) (Z.shiftl index PAGE_BITS)).

Definition map_page_in_this_table (S : PageSize) (l : nat) (table page physical_address flags : Z)
  : M (t A) unit :=
  do! assert_ (l =? MAP_LEVEL S)%nat "L::LEVEL == S::MAP_LEVEL" in
  let! index := table_index S l page in
  let! e := vread (table + 8 * index) in
  do! (if is_present e then vwrite (table + 8 * index) 0 else ret tt) in
  if flags =? 0 then ret tt
  else
    let! e' := entry_set physical_address (Z.lor (MAP_EXTRA_FLAG S) flags) in
    vwrite (table + 8 * index) e'.

(** [n] is the number of levels below this one. *)
Fixpoint table_get_entry (n : nat) (S : PageSize) (l : nat) (table page : Z)
  : M (t A) (option Z) :=
  match n with
  | O =>
      do! assert_ (l =? MAP_LEVEL S)%nat "L::LEVEL == S::MAP_LEVEL" in
      let! index := table_index S l page in
      let! e := vread (table + 8 * index) in
      if is_present e then ret (Some e) else ret None
  | Datatypes.S n' =>
      do! assert_ (l <=? MAP_LEVEL S)%nat "L::LEVEL <= S::MAP_LEVEL" in
      let! index := table_index S l page in
      let! e := vread (table + 8 * index) in
      if negb (is_present e) then ret None
      else if (l <? MAP_LEVEL S)%nat then
        let! sub := subtable S l table page in
        table_get_entry n' S (Datatypes.S l) sub page
      else ret (Some e)
  end.

(** Filling a table with default entries. *)
Definition fill_table (table : Z) : M (t A) unit :=
  fold_right (fun k rest => do! vwrite (table + 8 * Z.of_nat k) 0 in rest) (ret tt) (seq 0 512).

Fixpoint table_map_page (n : nat) (S : PageSize) (l : nat) (table page physical_address flags : Z)
  : M (t A) unit :=
  match n with
  | O => map_page_in_this_table S l table page physical_address flags
  | Datatypes.S n' =>
      do! assert_ (l <=? MAP_LEVEL S)%nat "L::LEVEL <= S::MAP_LEVEL" in
      if (l <? MAP_LEVEL S)%nat then
        let! index := table_index S l page in
        let! e := vread (table + 8 * index) in
        do! (if negb (is_present e) then
               let! a := gets alloc in
               let! '(frame, a') := unwrap (allocate a 4096 4096) "Unable to allocate physical memory" in
               do! modify (set_alloc a') in
               let! e' := entry_set frame (Z.lor NORMAL TABLE_OR_4KIB_PAGE) in
               do! vwrite (table + 8 * index) e' in
               let! sub := subtable S l table page in
               fill_table sub
             else ret tt) in
        let! sub := subtable S l table page in
        table_map_page n' S (Datatypes.S l) sub page physical_address flags
      else map_page_in_this_table S l table page physical_address flags
  end.

(** The root table. *)
Definition root_map_page (S : PageSize) (page physical_address flags : Z) : M (t A) unit :=
  table_map_page 3 S 0 L0TABLE_ADDRESS page physical_address flags.

(** ** Ranges of pages *)

(** The pages [PageIter] yields. *)
Definition page_range (S : PageSize) (first last : Z) : M (t A) (list Z) :=
  do! assert_ (first <=? last) "first.virtual_address <= last.virtual_address" in
  ret ((fun k => first + Z.of_nat k * SIZE S) <$> seq 0 (Z.to_nat ((last - first) / SIZE S + 1))).

Fixpoint map_pages (S : PageSize) (pages : list Z) (physical_address flags : Z) : M (t A) unit :=
  match pages with
  | [] => ret tt
  | page :: rest =>
      do! root_map_page S page physical_address flags in
      map_pages S rest (physical_address + SIZE S) flags
  end.

Definition get_page_range (S : PageSize) (virtual_address count : Z) : M (t A) (list Z) :=
  let! first_page := including_address S virtual_address in
  let! last_page :=
    including_address S
      (wrapu 64 (virtual_address + wrapu 64 (wrapu 64 (count - 1) * SIZE S))) in
  page_range S first_page last_page.

Definition get_page_table_entry (S : PageSize) (virtual_address : Z) : M (t A) (option Z) :=
  let! page := including_address S virtual_address in
  table_get_entry 3 S 0 L0TABLE_ADDRESS page.

Definition get_physical_address (S : PageSize) (virtual_address : Z) : M (t A) (option Z) :=
  let! page := including_address S virtual_address in
  let! e := table_get_entry 3 S 0 L0TABLE_ADDRESS page in
  match e with
  | None => ret None
  | Some e => ret (Some (Z.lor (entry_address e) (Z.land virtual_address (SIZE S - 1))))
  end.

Definition virtual_to_physical (virtual_address : Z) : M (t A) (option Z) :=
  get_physical_address BasePageSize virtual_address.

(** The branch of [map] for fewer than [GROUP_SIZE] pages. *)
Definition map_few (S : PageSize) (virtual_address physical_address count flags : Z) : M (t A) unit :=
  let! range := get_page_range S virtual_address count in
  map_pages S range physical_address flags.

(** Both recursive calls of [map] are for fewer than [GROUP_SIZE] pages: the
    first maps [offset / SIZE] pages, the second what is left after a multiple
    of [GROUP_SIZE]. *)
Definition map (S : PageSize) (virtual_address physical_address count flags : Z) : M (t A) unit :=
  if count <? GROUP_SIZE then map_few S virtual_address physical_address count flags
  else
    let offset := virtual_address mod (GROUP_SIZE * SIZE S) in
    let! '(va, pa, n) :=
      if 0 <? offset then
        do! map_few S virtual_address physical_address (offset / SIZE S) flags in
        ret (virtual_address + offset, physical_address + offset, count - offset / SIZE S)
      else ret (virtual_address, physical_address, count) in
    let! '(va, pa, n) :=
      if GROUP_SIZE <=? n then
        let pages := n - n mod GROUP_SIZE in
        let! range := get_page_range S va pages in
        do! map_pages S range pa (Z.lor flags CONTIGUOUS) in
        ret (va + pages * SIZE S, pa + pages * SIZE S, n - pages)
      else ret (va, pa, n) in
    if 0 <? n then map_few S va pa n flags else ret tt.

Definition unmap (S : PageSize) (virtual_address count : Z) : M (t A) unit :=
  let! range := get_page_range S virtual_address count in
  map_pages S range 0 0.

Definition data_flags : Z := execute_disable (writable (normal 0)).

Definition identity_map (S : PageSize) (phys_addr : Z) : M (t A) unit :=
  map S phys_addr phys_addr 1 data_flags.

(** One pass of the inner loop of [map_heap]: sizes from [k] pages down to one;
    the number of pages mapped, 0 when no allocation succeeds. *)
Fixpoint map_heap_try (S : PageSize) (virt_addr : Z) (map_counter : Z) (k : nat) : M (t A) Z :=
  match k with
  | O => ret 0
  | Datatypes.S k' =>
      let i := Z.of_nat k * SIZE S in
      let! a := gets alloc in
      match allocate a i (SIZE S) with
      | Some (phys_addr, a') =>
          do! modify (set_alloc a') in
          do! map S (virt_addr + map_counter * SIZE S) phys_addr (i / SIZE S) data_flags in
          ret (i / SIZE S)
      | None => map_heap_try S virt_addr map_counter k'
      end
  end.

(** [None] when [fuel] rounds of the outer loop were not enough. *)
Fixpoint map_heap_loop (fuel : nat) (S : PageSize) (virt_addr nr_pages map_counter : Z)
  : M (t A) (option (Result Z unit)) :=
  if map_counter <? nr_pages then
    match fuel with
    | O => ret None
    | Datatypes.S fuel' =>
        let! k := map_heap_try S virt_addr map_counter (Z.to_nat (nr_pages - map_counter)) in
        map_heap_loop fuel' S virt_addr nr_pages (map_counter + k)
    end
  else if map_counter <? nr_pages then ret (Some (Err map_counter))
  else ret (Some (Ok tt)).

Definition map_heap (fuel : nat) (S : PageSize) (virt_addr nr_pages : Z)
  : M (t A) (option (Result Z unit)) :=
  map_heap_loop fuel S virt_addr nr_pages 0.

End Code.
End Paging.
