(* ===== verification/PagingMap.v ===== *)
(** Mapping and unmapping 4 KiB pages through the recursive tables, as changes
    of the tree of tables; [PagingTree] is that tree. *)

From S2P Require Import Prelude Paging.
From stdpp Require Import functions.
Open Scope Z_scope.

(** ** The page tables as a tree

    Which physical frame holds which table, how the recursive virtual addresses
    reach them, and what the walk of the memory management unit finds.  Trees of
    4 KiB pages, below the recursive entry. *)

Module PagingTree.
Import Paging.

(** ** Addresses and indices *)

(** The address with table indices [a], [b], [c], [d] and offset [off]. *)
Definition va4 (a b c d off : Z) : Z := (((a * 512 + b) * 512 + c) * 512 + d) * 4096 + off.

Definition idx (i : Z) : Prop := 0 <= i < 512.

Lemma index_of_div l va :
  (l <= 3)%nat -> 0 <= va -> index_of l va = va / 2 ^ (39 - 9 * Z.of_nat l) mod 512.
Proof.
  intros Hl Hv. unfold index_of, PAGE_BITS, PAGE_MAP_BITS, PAGE_MAP_MASK.
  rewrite !Z.shiftr_div_pow2 by lia. change 0x1ff with (Z.ones 9). rewrite Z.land_ones by lia.
  rewrite Z.div_div by lia. rewrite <- Z.pow_add_r by lia.
  replace (12 + (3 - Z.of_nat l) * 9) with (39 - 9 * Z.of_nat l) by lia. done.
Qed.

Lemma va4_bounds a b c d off :
  idx a -> idx b -> idx c -> idx d -> 0 <= off < 4096 -> 0 <= va4 a b c d off < 2 ^ 48.
Proof. unfold idx, va4. lia. Qed.

Lemma index_va4 a b c d off :
  idx a -> idx b -> idx c -> idx d -> 0 <= off < 4096 ->
  index_of 0 (va4 a b c d off) = a /\ index_of 1 (va4 a b c d off) = b /\
  index_of 2 (va4 a b c d off) = c /\ index_of 3 (va4 a b c d off) = d.
Proof.
  intros Ha Hb Hc Hd Ho. pose proof (va4_bounds a b c d off Ha Hb Hc Hd Ho) as Hv.
  rewrite !index_of_div by lia. unfold idx, va4 in *.
  change (2 ^ (39 - 9 * Z.of_nat 0)) with (2 ^ 39). change (2 ^ (39 - 9 * Z.of_nat 1)) with (2 ^ 30).
  change (2 ^ (39 - 9 * Z.of_nat 2)) with (2 ^ 21). change (2 ^ (39 - 9 * Z.of_nat 3)) with (2 ^ 12).
  repeat split; Z.div_mod_to_equations; lia.
Qed.

Lemma va4_mod a b c d off : 0 <= off < 4096 -> va4 a b c d off mod 4096 = off.
Proof. intros Ho. unfold va4. rewrite Z.add_comm, Z.mod_add by lia. by apply Z.mod_small. Qed.

(** Every address below 2^48 has indices and an offset. *)
Lemma va4_of va :
  0 <= va < 2 ^ 48 -> exists a b c d off, va = va4 a b c d off /\
    idx a /\ idx b /\ idx c /\ idx d /\ 0 <= off < 4096.
Proof.
  intros Hv.
  exists (va / 2 ^ 39), (va / 2 ^ 30 mod 512), (va / 2 ^ 21 mod 512), (va / 2 ^ 12 mod 512), (va mod 4096).
  unfold va4, idx. repeat split; Z.div_mod_to_equations; lia.
Qed.

Lemma lor_add k b n : 0 <= n -> 0 <= b < 2 ^ n -> Z.lor (k * 2 ^ n) b = k * 2 ^ n + b.
Proof.
  intros Hn Hb. pose proof (Z.add_lor_land (k * 2 ^ n) b) as E.
  assert (Z.land (k * 2 ^ n) b = 0) as L; [clear E|by rewrite L, Z.add_0_r in E].
  destruct (decide (b = 0)) as [->|]; [apply Z.land_0_r|].
  apply Z.bits_inj'. intros i Hi. rewrite Z.land_spec, Z.bits_0.
  destruct (Z_lt_ge_dec i n).
  - by rewrite Z.mul_pow2_bits_low.
  - rewrite (Z.bits_above_log2 b i), andb_false_r; [done|lia|].
    apply Z.log2_lt_pow2; [lia|].
    eapply Z.lt_le_trans; [apply Hb|]. apply Z.pow_le_mono_r; lia.
Qed.

(** The address of a subtable shifts the indices by one place. *)
Lemma sub_va4 a b c d i :
  idx a -> idx b -> idx c -> idx d -> idx i ->
  Z.lor (Z.land (Z.shiftl (va4 a b c d 0) PAGE_MAP_BITS) (2 ^ 48 - 1)) (Z.shiftl i PAGE_BITS) =
  va4 b c d i 0.
Proof.
  unfold idx, PAGE_MAP_BITS, PAGE_BITS. intros. change (2 ^ 48 - 1) with (Z.ones 48).
  rewrite Z.land_ones by lia. rewrite !Z.shiftl_mul_pow2 by lia.
  assert (E : va4 a b c d 0 * 2 ^ 9 mod 2 ^ 48 = ((b * 512 + c) * 512 + d) * 2 ^ 21).
  { unfold va4. symmetry. apply Z.mod_unique with a; [left; lia|lia]. }
  rewrite E, lor_add by lia. unfold va4. lia.
Qed.

(** ** Entries *)

(** The bits a page's flags may use. *)
Definition FLAGS : Z := Z.lor (Z.ones 12) (Z.shiftl (Z.ones 4) 52).

Definition frame (f : Z) : Prop := 0 <= f /\ f mod 4096 = 0 /\ f + 4096 <= 2 ^ 48.

Lemma frame_bits f i : frame f -> 0 <= i -> i < 12 \/ 48 <= i -> Z.testbit f i = false.
Proof.
  intros (H0 & Hm & Hb) Hi [Hl|Hh].
  - assert (f = f / 4096 * 2 ^ 12) as -> by (Z.div_mod_to_equations; lia).
    by apply Z.mul_pow2_bits_low.
  - destruct (decide (f = 0)) as [->|]; [apply Z.bits_0|].
    apply Z.bits_above_log2; [done|]. apply Z.log2_lt_pow2; [lia|].
    assert (2 ^ 48 <= 2 ^ i) by (apply Z.pow_le_mono_r; lia). lia.
Qed.

Lemma flags_bits fl i : Z.land fl FLAGS = fl -> 12 <= i < 48 -> Z.testbit fl i = false.
Proof.
  intros <- Hi. rewrite Z.land_spec. unfold FLAGS. rewrite Z.lor_spec, Z.ones_spec_high by lia.
  rewrite Z.shiftl_spec_low by lia. apply andb_false_r.
Qed.

(** The address part of an entry that was set. *)
Lemma entry_address_set f fl :
  frame f -> Z.land fl FLAGS = fl -> entry_address (Z.lor f fl) = f.
Proof.
  intros Hf Hfl. unfold entry_address. apply Z.bits_inj'. intros i Hi.
  rewrite !Z.land_spec, Z.lor_spec, Z.lnot_spec by done.
  change (2 ^ 48 - 1) with (Z.ones 48). change (4096 - 1) with (Z.ones 12).
  destruct (Z_lt_ge_dec i 12) as [Hl|Hl].
  - rewrite (Z.ones_spec_low 12) by lia. cbn [negb]. rewrite andb_false_r.
    symmetry. apply frame_bits; auto.
  - rewrite (Z.ones_spec_high 12) by lia. cbn [negb]. rewrite andb_true_r.
    destruct (Z_lt_ge_dec i 48).
    + rewrite Z.ones_spec_low by lia. rewrite (flags_bits fl i Hfl) by lia.
      by rewrite orb_false_r, andb_true_r.
    + rewrite (Z.ones_spec_high 48) by lia. rewrite andb_false_r. symmetry.
      apply frame_bits; [done|done|lia].
Qed.

Lemma land_bit e i : 0 <= i -> negb (Z.land e (Z.shiftl 1 i) =? 0) = Z.testbit e i.
Proof.
  intros Hi. rewrite Z.shiftl_1_l. destruct (Z.testbit e i) eqn:E.
  - apply negb_true_iff, Z.eqb_neq. intros H0. apply (f_equal (fun z => Z.testbit z i)) in H0.
    rewrite Z.land_spec, E, Z.pow2_bits_true, Z.bits_0 in H0 by lia. done.
  - apply negb_false_iff, Z.eqb_eq. apply Z.bits_inj'. intros j Hj.
    rewrite Z.land_spec, Z.bits_0. destruct (decide (j = i)) as [->|]; [by rewrite E|].
    rewrite Z.pow2_bits_false by lia. apply andb_false_r.
Qed.

Lemma present_bit e : is_present e = Z.testbit e 0.
Proof. unfold is_present, PRESENT. by apply land_bit. Qed.
Lemma table_bit e : is_table_or_4kib_page e = Z.testbit e 1.
Proof. unfold is_table_or_4kib_page, TABLE_OR_4KIB_PAGE. by apply land_bit. Qed.

(** What [entry_set] stores. *)
Definition entry_of (f fl : Z) : Z :=
  Z.lor f (insert_flag ACCESSED (insert_flag INNER_SHAREABLE (insert_flag PRESENT fl))).

Lemma entry_of_spec f fl :
  frame f -> Z.land fl FLAGS = fl ->
  is_present (entry_of f fl) = true /\ entry_address (entry_of f fl) = f /\
  is_table_or_4kib_page (entry_of f fl) = is_table_or_4kib_page fl.
Proof.
  intros Hf Hfl. rewrite present_bit, !table_bit. unfold entry_of, insert_flag.
  split; [|split].
  - rewrite !Z.lor_spec. change (Z.testbit PRESENT 0) with true. by rewrite !orb_true_r.
  - apply entry_address_set; [done|]. rewrite !Z.land_lor_distr_l, Hfl. done.
  - rewrite !Z.lor_spec. rewrite (frame_bits f 1) by (try done; lia).
    change (Z.testbit PRESENT 1) with false. change (Z.testbit INNER_SHAREABLE 1) with false.
    change (Z.testbit ACCESSED 1) with false. by rewrite !orb_false_r.
Qed.

(** ** Trees of tables *)

(** Following one table entry. *)
Definition follow (m : Z -> Z) (table i : Z) : option Z :=
  let e := m (table + 8 * i) in
  if is_present e && is_table_or_4kib_page e then Some (entry_address e) else None.

(** [T] names the frame of the table reached by each list of indices. *)
Record tree (m : Z -> Z) (r : Z) (T : gmap (list Z) Z) : Prop := {
  tree_root : T !! [] = Some r;
  tree_frame p f : T !! p = Some f -> frame f /\ (length p <= 3)%nat /\ Forall idx p;
  tree_inj p q f : T !! p = Some f -> T !! q = Some f -> p = q;
  tree_parent p i f : T !! (p ++ [i]) = Some f -> is_Some (T !! p) /\ (p = [] -> i <> 511);
  tree_edge p i f g : T !! p = Some f -> T !! (p ++ [i]) = Some g -> follow m f i = Some g;
  tree_self : follow m r 511 = Some r;
}.

(** Entries that are no edge of the tree are absent, those of the last level
    are absent or 4 KiB pages. *)
Record complete (m : Z -> Z) (T : gmap (list Z) Z) : Prop := {
  complete_inner p f i : T !! p = Some f -> (length p < 3)%nat -> idx i -> (p = [] -> i <> 511) ->
    T !! (p ++ [i]) = None -> is_present (m (f + 8 * i)) = false;
  complete_leaf p f i : T !! p = Some f -> length p = 3%nat -> idx i ->
    is_present (m (f + 8 * i)) = true -> is_table_or_4kib_page (m (f + 8 * i)) = true;
}.

(** The virtual address of the table with the given indices. *)
Definition table_va (p : list Z) : Z :=
  match p with
  | [] => va4 511 511 511 511 0
  | [a] => va4 511 511 511 a 0
  | [a; b] => va4 511 511 a b 0
  | a :: b :: c :: _ => va4 511 a b c 0
  end.

Lemma idx_511 : idx 511.
Proof. unfold idx. lia. Qed.
Hint Resolve idx_511 : core.

Lemma walk_follow m r a b c d off t1 t2 t3 t4 :
  idx a -> idx b -> idx c -> idx d -> 0 <= off < 4096 ->
  follow m r a = Some t1 -> follow m t1 b = Some t2 -> follow m t2 c = Some t3 ->
  follow m t3 d = Some t4 -> walk 3 m r (va4 a b c d off) = Some (t4 + off).
Proof.
  intros Ha Hb Hc Hd Ho F1 F2 F3 F4.
  destruct (index_va4 a b c d off Ha Hb Hc Hd Ho) as (I0 & I1 & I2 & I3).
  unfold follow in *. cbn [walk Nat.sub]. rewrite I0, I1, I2, I3, (va4_mod a b c d off Ho).
  destruct (is_present (m (r + 8 * a))); [|done].
  destruct (is_table_or_4kib_page (m (r + 8 * a))); [|done]. cbn [andb negb] in *. simplify_eq.
  destruct (is_present (m (_ + 8 * b))); [|done].
  destruct (is_table_or_4kib_page (m (_ + 8 * b))); [|done]. cbn [andb negb] in *. simplify_eq.
  destruct (is_present (m (_ + 8 * c))); [|done].
  destruct (is_table_or_4kib_page (m (_ + 8 * c))); [|done]. cbn [andb negb] in *. simplify_eq.
  destruct (is_present (m (_ + 8 * d))); [|done].
  destruct (is_table_or_4kib_page (m (_ + 8 * d))); [|done]. cbn [andb negb] in *. by simplify_eq.
Qed.

Section Tree.
Context (m : Z -> Z) (r : Z) (T : gmap (list Z) Z) (HT : tree m r T).

(** The recursive address of a table leads to its frame. *)
Lemma tree_walk p f i :
  T !! p = Some f -> idx i -> walk 3 m r (table_va p + 8 * i) = Some (f + 8 * i).
Proof.
  intros Hp Hi. pose proof (tree_root m r T HT) as Hr. pose proof (tree_self m r T HT) as Hs.
  destruct (tree_frame m r T HT p f Hp) as (_ & Hl & Hx).
  assert (Ho : 0 <= 8 * i < 4096) by (unfold idx in Hi; lia).
  assert (Ev : forall a b c d, va4 a b c d 0 + 8 * i = va4 a b c d (8 * i)) by (unfold va4; lia).
  destruct p as [|a [|b [|c [|]]]]; cbn [table_va length] in *; try lia; rewrite Ev.
  - assert (f = r) as -> by congruence. by eapply walk_follow.
  - apply Forall_cons_1 in Hx as [Ha _].
    pose proof (tree_edge m r T HT [] a r f Hr Hp) as E1. by eapply walk_follow.
  - apply Forall_cons_1 in Hx as [Ha [Hb _]%Forall_cons_1].
    destruct (tree_parent m r T HT [a] b f Hp) as [[f1 H1] _].
    pose proof (tree_edge m r T HT [] a r f1 Hr H1). pose proof (tree_edge m r T HT [a] b f1 f H1 Hp).
    by eapply walk_follow.
  - apply Forall_cons_1 in Hx as [Ha [Hb [Hc _]%Forall_cons_1]%Forall_cons_1].
    destruct (tree_parent m r T HT [a; b] c f Hp) as [[f2 H2] _].
    destruct (tree_parent m r T HT [a] b f2 H2) as [[f1 H1] _].
    pose proof (tree_edge m r T HT [] a r f1 Hr H1). pose proof (tree_edge m r T HT [a] b f1 f2 H1 H2).
    pose proof (tree_edge m r T HT [a; b] c f2 f H2 Hp).
    by eapply walk_follow.
Qed.

Lemma subtable_va p f i :
  T !! p = Some f -> (length p < 3)%nat -> idx i ->
  Z.lor (Z.land (Z.shiftl (table_va p) PAGE_MAP_BITS) (2 ^ 48 - 1)) (Z.shiftl i PAGE_BITS) =
  table_va (p ++ [i]).
Proof.
  intros Hp Hl Hi. destruct (tree_frame m r T HT p f Hp) as (_ & _ & Hx).
  destruct p as [|a [|b [|]]]; cbn [app table_va length] in *; try lia.
  - by apply sub_va4.
  - apply Forall_cons_1 in Hx as [Ha _]. by apply sub_va4.
  - apply Forall_cons_1 in Hx as [Ha [Hb _]%Forall_cons_1]. by apply sub_va4.
Qed.

(** Entries of different tables, or with different indices, lie apart. *)
Lemma entry_apart p q f g i j :
  T !! p = Some f -> T !! q = Some g -> idx i -> idx j -> (p, i) <> (q, j) -> f + 8 * i <> g + 8 * j.
Proof.
  intros Hp Hq Hi Hj Hne E.
  destruct (tree_frame m r T HT p f Hp) as ((_ & Mf & _) & _).
  destruct (tree_frame m r T HT q g Hq) as ((_ & Mg & _) & _).
  assert (f = g) as -> by (unfold idx in *; Z.div_mod_to_equations; lia).
  assert (p = q) as -> by (by eapply (tree_inj m r T HT)). apply Hne. f_equal. lia.
Qed.

(** Writing an entry that is no edge keeps the tree. *)
Lemma tree_write p f i v :
  T !! p = Some f -> idx i -> T !! (p ++ [i]) = None -> (p = [] -> i <> 511) ->
  tree (<[f + 8 * i := v]> m) r T.
Proof.
  intros Hp Hi Hn Hs. destruct HT as [T1 T2 T3 T4 T5 T6]. split; try assumption.
  - intros q j g h Hq Hqj. unfold follow.
    destruct (T2 _ _ Hqj) as (_ & _ & Hx). rewrite Forall_app, Forall_singleton in Hx. destruct Hx as [_ Hj].
    rewrite fn_lookup_insert_ne; [by apply (T5 q j g h)|].
    apply (entry_apart p q f g i j); try assumption. intros [= -> ->]. congruence.
  - unfold follow. rewrite fn_lookup_insert_ne; [exact T6|].
    apply (entry_apart p [] f r i 511); try assumption; [done|]. intros [= -> ->]. by apply Hs.
Qed.
End Tree.

(** The entry found for the page with the given indices. *)
Definition leaf (m : Z -> Z) (T : gmap (list Z) Z) (a b c d : Z) : option Z :=
  f ← T !! [a; b; c];
  let e := m (f + 8 * d) in if is_present e then Some e else None.

(** The tables above a table exist. *)
Lemma tree_ancestors m r T a b c f :
  tree m r T -> T !! [a; b; c] = Some f ->
  exists f1 f2, T !! [a] = Some f1 /\ T !! [a; b] = Some f2 /\ a <> 511.
Proof.
  intros HT H3. destruct (tree_parent m r T HT [a; b] c f H3) as [[f2 H2] _].
  destruct (tree_parent m r T HT [a] b f2 H2) as [[f1 H1] _].
  destruct (tree_parent m r T HT [] a f1 H1) as [_ Hs]. exists f1, f2. auto.
Qed.

(** The walk finds exactly the pages of the tree. *)
Lemma walk_leaf m r T a b c d off :
  tree m r T -> complete m T -> idx a -> idx b -> idx c -> idx d -> 0 <= off < 4096 -> a <> 511 ->
  walk 3 m r (va4 a b c d off) = (fun e => entry_address e + off) <$> leaf m T a b c d.
Proof.
  intros HT HC Ha Hb Hc Hd Ho Hn. pose proof (tree_root m r T HT) as Hr.
  destruct (index_va4 a b c d off Ha Hb Hc Hd Ho) as (I0 & I1 & I2 & I3).
  unfold leaf. cbn [walk Nat.sub]. rewrite I0, I1, I2, I3, (va4_mod a b c d off Ho).
  destruct (T !! [a]) as [f1|] eqn:H1; last first.
  { rewrite (complete_inner m T HC [] r a) by (try done; cbn; lia). cbn.
    destruct (T !! [a; b; c]) as [f|] eqn:H3; [|done].
    destruct (tree_ancestors _ _ _ _ _ _ _ HT H3) as (? & ? & ? & _). congruence. }
  pose proof (tree_edge m r T HT [] a r f1 Hr H1) as E1. unfold follow in E1.
  destruct (is_present (m (r + 8 * a))); [|done].
  destruct (is_table_or_4kib_page (m (r + 8 * a))); [|done]. cbn [andb negb] in *. simplify_eq.
  destruct (T !! [a; b]) as [f2|] eqn:H2; last first.
  { rewrite (complete_inner m T HC [a] _ b) by (try done; cbn; lia). cbn.
    destruct (T !! [a; b; c]) as [f|] eqn:H3; [|done].
    destruct (tree_ancestors _ _ _ _ _ _ _ HT H3) as (? & ? & ? & ? & _). congruence. }
  pose proof (tree_edge m r T HT [a] b _ f2 H1 H2) as E2. unfold follow in E2.
  destruct (is_present (m (_ + 8 * b))); [|done].
  destruct (is_table_or_4kib_page (m (_ + 8 * b))); [|done]. cbn [andb negb] in *. simplify_eq.
  destruct (T !! [a; b; c]) as [f3|] eqn:H3; last first.
  { rewrite (complete_inner m T HC [a; b] _ c) by (try done; cbn; lia). done. }
  pose proof (tree_edge m r T HT [a; b] c _ f3 H2 H3) as E3. unfold follow in E3.
  destruct (is_present (m (_ + 8 * c))); [|done].
  destruct (is_table_or_4kib_page (m (_ + 8 * c))); [|done]. cbn [andb negb] in *. simplify_eq.
  cbn. destruct (is_present (m (_ + 8 * d))) eqn:Ep; [|done]. cbn.
  by rewrite (complete_leaf m T HC [a; b; c] _ d H3 eq_refl Hd Ep).
Qed.
End PagingTree.

Module PagingMap.
Import Paging PagingTree.

(** What the frame allocator promises: as long as it has room it hands out an
    aligned frame of its own memory, which is then no longer its own. *)
Class FrameAllocOk (A : Type) `{FrameAlloc A} : Type := {
  owned : A -> Z -> Prop;
  room : A -> nat;
  alloc_ok : A -> Prop;
  allocate_page a :
    alloc_ok a -> (0 < room a)%nat ->
    exists f a', allocate a 4096 4096 = Some (f, a') /\ frame f /\ alloc_ok a' /\
      room a = S (room a') /\ (forall q, f <= q < f + 4096 -> owned a q) /\
      (forall q, owned a' q -> owned a q /\ ~ (f <= q < f + 4096));
}.

Section Map.
Context {A : Type} `{FrameAllocOk A}.

(** The tables of [s] form the tree [T] and share no memory with the allocator. *)
Record wf (s : t A) (T : gmap (list Z) Z) : Prop := {
  wf_tree : tree (phys s) (root s) T;
  wf_complete : complete (phys s) T;
  wf_alloc : alloc_ok (alloc s);
  wf_apart q p f : owned (alloc s) q -> T !! p = Some f -> ~ (f <= q < f + 4096);
}.

Lemma vread_table (s : t A) T p f i :
  tree (phys s) (root s) T -> T !! p = Some f -> idx i ->
  vread (table_va p + 8 * i) s = Done (phys s (f + 8 * i)) s.
Proof.
  intros HT Hp Hi. unfold vread, translate. cbv [bind].
  by rewrite (tree_walk _ _ _ HT p f i Hp Hi).
Qed.

Lemma vwrite_table (s : t A) T p f i v :
  tree (phys s) (root s) T -> T !! p = Some f -> idx i ->
  vwrite (table_va p + 8 * i) v s = Done tt (set_phys (<[f + 8 * i := v]> (phys s)) s).
Proof.
  intros HT Hp Hi. unfold vwrite, translate. cbv [bind].
  by rewrite (tree_walk _ _ _ HT p f i Hp Hi).
Qed.

(** Filling a table that has no subtables. *)
Lemma fill_list (T : gmap (list Z) Z) p g ks : forall s : t A,
  tree (phys s) (root s) T -> T !! p = Some g -> p <> [] -> (forall i, T !! (p ++ [i]) = None) ->
  Forall (fun k => (k < 512)%nat) ks ->
  exists m', fold_right (fun k rest => do! vwrite (table_va p + 8 * Z.of_nat k) 0 in rest) (ret tt) ks s =
      Done tt (set_phys m' s) /\
    tree m' (root s) T /\ (forall k, In k ks -> m' (g + 8 * Z.of_nat k) = 0) /\
    (forall q, (forall k, In k ks -> q <> g + 8 * Z.of_nat k) -> m' q = phys s q).
Proof.
  induction ks as [|k ks IH]; intros s HT Hp Hne Hl Hk; cbn [fold_right].
  { exists (phys s). destruct s. split; [done|]. split; [done|]. split; [done|]. done. }
  apply Forall_cons_1 in Hk as [Hk0 Hk].
  assert (Hi : idx (Z.of_nat k)) by (unfold idx; lia).
  rewrite (bind_run _ _ _ _ _ (vwrite_table s T p g (Z.of_nat k) 0 HT Hp Hi)).
  set (s1 := set_phys _ s).
  assert (HT1 : tree (phys s1) (root s1) T) by (apply (tree_write _ _ _ HT p); auto; done).
  destruct (IH s1 HT1 Hp Hne Hl Hk) as (m' & E & HT2 & Z1 & Z2).
  exists m'. split; [done|]. split; [done|]. split.
  - intros j [->|Hj]; [|by apply Z1].
    destruct (in_dec Nat.eq_dec j ks) as [Hin|Hin]; [by apply Z1|].
    rewrite Z2; [apply fn_lookup_insert|]. intros k' Hk' Eq. apply Hin.
    assert (j = k') as -> by lia. done.
  - intros q Hq. rewrite Z2 by (intros; apply Hq; by right).
    apply fn_lookup_insert_ne. apply not_eq_sym, Hq. by left.
Qed.

Lemma fill_table_run (s : t A) T p g :
  tree (phys s) (root s) T -> T !! p = Some g -> p <> [] -> (forall i, T !! (p ++ [i]) = None) ->
  exists m', fill_table (table_va p) s = Done tt (set_phys m' s) /\
    tree m' (root s) T /\ (forall i, idx i -> m' (g + 8 * i) = 0) /\
    (forall q, (forall i, idx i -> q <> g + 8 * i) -> m' q = phys s q).
Proof.
  intros HT Hp Hne Hl.
  destruct (fill_list T p g (seq 0 512) s HT Hp Hne Hl) as (m' & E & HT' & Z1 & Z2).
  { apply Forall_forall. intros k Hk%in_seq. lia. }
  exists m'. split; [done|]. split; [done|]. split.
  - intros i Hi. unfold idx in Hi. rewrite <- (Z2Nat.id i) by lia. apply Z1, in_seq. lia.
  - intros q Hq. apply Z2. intros k Hk%in_seq. apply Hq. unfold idx. lia.
Qed.

(** ** One level down *)

(** The part of [map_page] that makes sure the subtable exists. *)
Definition ensure (l : nat) (table page : Z) : M (t A) Z :=
  let! index := table_index BasePageSize l page in
  let! e := vread (table + 8 * index) in
  do! (if negb (is_present e) then
         let! a := gets alloc in
         let! '(frame, a') := unwrap (allocate a 4096 4096) "Unable to allocate physical memory" in
         do! modify (set_alloc a') in
         let! e' := entry_set frame (Z.lor NORMAL TABLE_OR_4KIB_PAGE) in
         do! vwrite (table + 8 * index) e' in
         let! sub := subtable BasePageSize l table page in
         fill_table sub
       else ret tt) in
  subtable BasePageSize l table page.

(** A new table enters the tree. *)
Lemma tree_grow m r T p i f g :
  tree m r T -> T !! p = Some f -> (length p < 3)%nat -> idx i -> (p = [] -> i <> 511) ->
  T !! (p ++ [i]) = None -> frame g -> (forall q h, T !! q = Some h -> h <> g) ->
  tree (<[f + 8 * i := entry_of g (Z.lor NORMAL TABLE_OR_4KIB_PAGE)]> m) r (<[p ++ [i] := g]> T).
Proof.
  intros HT Hp Hl Hi Hs Hn Hg Hfresh.
  pose proof (tree_write m r T HT p f i (entry_of g (Z.lor NORMAL TABLE_OR_4KIB_PAGE)) Hp Hi Hn Hs) as HT'.
  set (m' := <[_ := _]> m) in *. destruct HT' as [T1 T2 T3 T4 T5 T6].
  destruct (T2 p f Hp) as (_ & _ & Hx).
  split; [| | | | |done].
  - rewrite lookup_insert_ne; [done|]. by destruct p.
  - intros q h. rewrite lookup_insert_Some. intros [[<- <-]|[_ Hq]]; [|by apply T2].
    split; [done|]. rewrite length_app, Forall_app, Forall_singleton. cbn. split; [lia|done].
  - intros q1 q2 h. rewrite !lookup_insert_Some.
    intros [[<- <-]|[_ Hq1]] [[<- Eh]|[_ Hq2]]; try done.
    + by destruct (Hfresh _ _ Hq2).
    + subst. by destruct (Hfresh _ _ Hq1).
    + by eapply T3.
  - intros q j h. rewrite lookup_insert_Some. intros [[Eq <-]|[_ Hq]].
    + apply app_inj_tail in Eq as [<- <-]. split; [|done].
      rewrite lookup_insert_ne; [by exists f|]. intros Eq. apply (f_equal length) in Eq.
      rewrite length_app in Eq. cbn in Eq. lia.
    + destruct (T4 q j h Hq) as [[x Hx'] Hs']. split; [|done].
      destruct (decide (p ++ [i] = q)) as [<-|Hd]; [rewrite lookup_insert_eq; by eexists|].
      rewrite lookup_insert_ne by done. by exists x.
  - intros q j h k. rewrite !lookup_insert_Some.
    intros [[<- <-]|[Hq0 Hq]] [[Eq <-]|[Hj0 Hj]].
    + apply (f_equal length) in Eq. rewrite !length_app in Eq. cbn in Eq. lia.
    + destruct (T4 _ _ _ Hj) as [[x Hx'] _]. congruence.
    + apply app_inj_tail in Eq as [-> ->]. assert (h = f) as -> by congruence.
      unfold follow, m'. rewrite fn_lookup_insert.
      destruct (entry_of_spec g (Z.lor NORMAL TABLE_OR_4KIB_PAGE) Hg eq_refl) as (E1 & E2 & E3).
      rewrite E1, E2, E3. done.
    + by apply (T5 q).
Qed.

(** [s'] differs from [s] only in its page tables: translations are the same,
    memory outside the tables is the same, new tables come from the allocator. *)
Record grown (s : t A) (T : gmap (list Z) Z) (s' : t A) (T' : gmap (list Z) Z) : Prop := {
  g_wf : wf s' T';
  g_sub : T ⊆ T';
  g_root : root s' = root s;
  g_leaf a b c d : idx d -> leaf (phys s') T' a b c d = leaf (phys s) T a b c d;
  g_owned q : owned (alloc s') q -> owned (alloc s) q;
  g_new p f : T' !! p = Some f -> T !! p = Some f \/ forall q, f <= q < f + 4096 -> owned (alloc s) q;
  g_phys q : (forall p f, T' !! p = Some f -> ~ (f <= q < f + 4096)) -> phys s' q = phys s q;
}.

Lemma grown_refl s T : wf s T -> grown s T s T.
Proof. intros W. split; auto. Qed.

Lemma grown_trans s T s1 T1 s2 T2 : grown s T s1 T1 -> grown s1 T1 s2 T2 -> grown s T s2 T2.
Proof.
  intros [W1 S1 R1 L1 O1 N1 P1] [W2 S2 R2 L2 O2 N2 P2]. split; auto.
  - by transitivity T1.
  - congruence.
  - intros a b c d Hd. rewrite L2 by done. by apply L1.
  - intros p f [Hp|Hq]%N2; [by apply N1|]. right. auto.
  - intros q Hq. rewrite P2 by done. apply P1. intros p f Hp. apply (Hq p).
    by eapply lookup_weaken.
Qed.

(** The index and the address of the subtable. *)
Lemma table_index_run l page (s : t A) :
  (l <= 3)%nat -> table_index BasePageSize l page s = Done (index_of l page) s.
Proof. intros Hl. unfold table_index. cbn [MAP_LEVEL BasePageSize]. by rewrite (proj2 (Nat.leb_le l 3) Hl). Qed.

Lemma subtable_run (s : t A) T p f page :
  tree (phys s) (root s) T -> T !! p = Some f -> (length p < 3)%nat -> idx (index_of (length p) page) ->
  subtable BasePageSize (length p) (table_va p) page s =
  Done (table_va (p ++ [index_of (length p) page])) s.
Proof.
  intros HT Hp Hl Hi. unfold subtable. cbn [MAP_LEVEL BasePageSize].
  rewrite (proj2 (Nat.ltb_lt _ 3) Hl). rewrite (bind_run _ _ s tt s) by done.
  rewrite (bind_run _ _ _ _ _ (table_index_run (length p) page s ltac:(lia))).
  by rewrite (subtable_va _ _ _ HT p f _ Hp Hl Hi).
Qed.

Lemma absent_zero : is_present 0 = false.
Proof. done. Qed.

(** The new table is empty and nothing else has changed. *)
Lemma grown_new s T p f i g a' m1 :
  wf s T -> T !! p = Some f -> (length p < 3)%nat -> idx i -> (p = [] -> i <> 511) ->
  T !! (p ++ [i]) = None -> frame g -> alloc_ok a' ->
  (forall q, g <= q < g + 4096 -> owned (alloc s) q) ->
  (forall q, owned a' q -> owned (alloc s) q /\ ~ (g <= q < g + 4096)) ->
  tree m1 (root s) (<[p ++ [i] := g]> T) ->
  (forall k, idx k -> m1 (g + 8 * k) = 0) ->
  (forall q, (forall k, idx k -> q <> g + 8 * k) -> q <> f + 8 * i -> m1 q = phys s q) ->
  grown s T (mk m1 (root s) a') (<[p ++ [i] := g]> T).
Proof.
  intros W Hp Hl Hi Hs Hn Hg Ha Hown Hown' HT1 Z1 Z2. destruct W as [WT WC WA WP].
  assert (Hfresh : forall q h, T !! q = Some h -> forall j k, idx j -> idx k -> h + 8 * j <> g + 8 * k).
  { intros q h Hq j k Hj Hk Eq. apply (WP (h + 8 * j) q h); [apply Hown|done|];
      unfold idx in *; lia. }
  assert (Hsame : forall q h j, T !! q = Some h -> idx j -> (q, j) <> (p, i) ->
            m1 (h + 8 * j) = phys s (h + 8 * j)).
  { intros q h j Hq Hj Hne. apply Z2; [intros k Hk; by apply (Hfresh q h Hq)|].
    by apply (entry_apart _ _ _ WT q p). }
  split; cbn [phys root alloc].
  - split; cbn [phys root alloc]; [done| |done|].
    + split.
      * intros q h j. rewrite lookup_insert_Some. intros [[<- <-]|[Hd Hq]] Hlq Hj Hsj Hnj.
        { by rewrite Z1. }
        rewrite lookup_insert_None in Hnj. destruct Hnj as [Hnj Hd'].
        rewrite (Hsame q h j Hq Hj) by (intros [= -> ->]; done).
        by apply (complete_inner _ _ WC q h j).
      * intros q h j. rewrite lookup_insert_Some. intros [[<- <-]|[Hd Hq]] Hlq Hj.
        { by rewrite Z1. }
        rewrite (Hsame q h j Hq Hj) by (intros [= -> ->]; lia).
        by apply (complete_leaf _ _ WC q h j).
    + intros q q' h [Ho Hng]%Hown'. rewrite lookup_insert_Some.
      intros [[<- <-]|[_ Hq]]; [done|]. by apply (WP q q').
  - by apply insert_subseteq.
  - done.
  - intros a b c d Hd. unfold leaf. destruct (decide (p ++ [i] = [a; b; c])) as [E|E].
    + rewrite <- E, lookup_insert_eq, Hn. cbn. by rewrite Z1.
    + rewrite lookup_insert_ne by done. destruct (T !! [a; b; c]) as [h|] eqn:Eh; [|done]. cbn.
      rewrite (Hsame _ h d Eh Hd); [done|]. intros [= <- ->]. cbn in Hl. lia.
  - intros q Hq. by apply Hown'.
  - intros q h. rewrite lookup_insert_Some. intros [[<- <-]|[_ Hq]]; auto.
  - intros q Hq. destruct (tree_frame _ _ _ WT p f Hp) as ((Hf0 & _) & _). apply Z2.
    + intros k Hk ->. apply (Hq (p ++ [i]) g); [apply lookup_insert_eq|]. unfold idx in Hk. lia.
    + intros ->. apply (Hq p f); [|unfold idx in Hi; lia]. rewrite lookup_insert_ne; [done|].
      intros E. apply (f_equal length) in E. rewrite length_app in E. cbn in E. lia.
Qed.

Lemma ensure_run s T p f page :
  let i := index_of (length p) page in
  wf s T -> T !! p = Some f -> (length p < 3)%nat -> idx i -> (p = [] -> i <> 511) ->
  (0 < room (alloc s))%nat ->
  exists s' T' g, ensure (length p) (table_va p) page s = Done (table_va (p ++ [i])) s' /\
    grown s T s' T' /\ T' !! (p ++ [i]) = Some g /\ (room (alloc s) <= S (room (alloc s')))%nat.
Proof.
  intros i W Hp Hl Hi Hs Hroom. pose proof (wf_tree _ _ W) as HT.
  unfold ensure. rewrite (bind_run _ _ _ _ _ (table_index_run (length p) page s ltac:(lia))).
  fold i. rewrite (bind_run _ _ _ _ _ (vread_table s T p f i HT Hp Hi)).
  destruct (T !! (p ++ [i])) as [g|] eqn:Hpi.
  - pose proof (tree_edge _ _ _ HT p i f g Hp Hpi) as E. unfold follow in E.
    destruct (is_present (phys s (f + 8 * i))); [|done]. cbn [negb].
    rewrite (bind_run _ _ s tt s) by done. rewrite (subtable_run s T p f) by done.
    exists s, T, g. split; [done|]. split; [by apply grown_refl|]. split; [done|lia].
  - rewrite (complete_inner _ _ (wf_complete _ _ W) p f i Hp Hl Hi Hs Hpi). cbn [negb].
    destruct (allocate_page (alloc s) (wf_alloc _ _ W) Hroom) as (g & a' & Ea & Hg & Ha' & Hr & Ho & Ho').
    assert (Hfresh : forall q h, T !! q = Some h -> h <> g).
    { intros q h Hq ->. apply (wf_apart _ _ W g q g); [apply Ho; lia|done|lia]. }
    pose proof (tree_grow _ _ _ p i f g HT Hp Hl Hi Hs Hpi Hg Hfresh) as HT1.
    set (T1 := <[p ++ [i] := g]> T) in *.
    set (e := entry_of g (Z.lor NORMAL TABLE_OR_4KIB_PAGE)) in *.
    assert (Hp1 : T1 !! p = Some f).
    { unfold T1. rewrite lookup_insert_ne; [done|]. intros E. apply (f_equal length) in E.
      rewrite length_app in E. cbn in E. lia. }
    assert (Hpi1 : T1 !! (p ++ [i]) = Some g) by apply lookup_insert_eq.
    set (s1 := mk (<[f + 8 * i := e]> (phys s)) (root s) a').
    destruct (fill_table_run s1 T1 (p ++ [i]) g HT1 Hpi1) as (m1 & Ef & HT2 & Z1 & Z2).
    { by destruct p. }
    { intros j. destruct (T1 !! ((p ++ [i]) ++ [j])) as [h|] eqn:Ej; [|done].
      unfold T1 in Ej. rewrite lookup_insert_Some in Ej. destruct Ej as [[E _]|[_ E]].
      - apply (f_equal length) in E. rewrite !length_app in E. cbn in E. lia.
      - destruct (tree_parent _ _ _ HT _ _ _ E) as [[h' Eh] _]. congruence. }
    exists (set_phys m1 s1), T1, g. split; [|split; [|split; [done|cbn; lia]]].
    + erewrite bind_run.
      2: { erewrite bind_run by reflexivity. rewrite Ea. erewrite bind_run by reflexivity. cbv beta iota.
           erewrite bind_run by reflexivity. unfold entry_set.
           destruct Hg as (_ & Hg & _). rewrite (proj2 (Z.eqb_eq _ _) Hg).
           erewrite bind_run by reflexivity. cbv beta.
           fold (entry_of g (Z.lor NORMAL TABLE_OR_4KIB_PAGE)). fold e.
           rewrite (bind_run _ _ _ _ _ (vwrite_table (set_alloc a' s) T p f i e HT Hp Hi)).
           change (set_phys (<[f + 8 * i := e]> (phys (set_alloc a' s))) (set_alloc a' s)) with s1.
           rewrite (bind_run _ _ _ _ _ (subtable_run s1 T1 p f page HT1 Hp1 Hl Hi)). exact Ef. }
      cbv beta. apply (subtable_run (set_phys m1 s1) T1 p f page HT2 Hp1 Hl Hi).
    + apply (grown_new s T p f i g a' m1); try done.
      intros q Hq Hf. rewrite Z2 by done. by apply fn_lookup_insert_ne, not_eq_sym.
Qed.

(** ** One page *)

Lemma map_page_step n l table page pa fl (s : t A) :
  (l < 3)%nat ->
  table_map_page (S n) BasePageSize l table page pa fl s =
  (let! sub := ensure l table page in table_map_page n BasePageSize (S l) sub page pa fl) s.
Proof.
  intros Hl. cbn [table_map_page]. cbn [MAP_LEVEL BasePageSize].
  rewrite (proj2 (Nat.leb_le l 3) ltac:(lia)), (proj2 (Nat.ltb_lt l 3) Hl).
  unfold ensure. cbv [bind assert_ ret].
  destruct (table_index BasePageSize l page s) as [index s1|]; [|done].
  destruct (vread (table + 8 * index) s1) as [e s2|]; [|done].
  match goal with |- match ?X with _ => _ end = _ => destruct X as [u s3|]; [|done] end. done.
Qed.

(** The entry of an address in a tree. *)
Definition entry_at (m : Z -> Z) (T : gmap (list Z) Z) (va : Z) : option Z :=
  leaf m T (index_of 0 va) (index_of 1 va) (index_of 2 va) (index_of 3 va).

(** Addresses below the recursive window. *)
Definition user (va : Z) : Prop := 0 <= va < 511 * 2 ^ 39.

Lemma user_index va : user va ->
  idx (index_of 0 va) /\ idx (index_of 1 va) /\ idx (index_of 2 va) /\ idx (index_of 3 va) /\
  index_of 0 va <> 511 /\
  va = va4 (index_of 0 va) (index_of 1 va) (index_of 2 va) (index_of 3 va) (va mod 4096).
Proof.
  intros Hu. unfold user in Hu. destruct (va4_of va) as (a & b & c & d & off & E & Ha & Hb & Hc & Hd & Ho); [lia|].
  destruct (index_va4 a b c d off Ha Hb Hc Hd Ho) as (I0 & I1 & I2 & I3).
  pose proof (va4_mod a b c d off Ho) as Em. rewrite <- E in *. rewrite I0, I1, I2, I3, Em.
  repeat split; try apply Ha; try apply Hb; try apply Hc; try apply Hd; [|done].
  unfold va4, idx in *. intros ->. lia.
Qed.

Lemma same_page va page : user va -> user page -> page mod 4096 = 0 ->
  [index_of 0 va; index_of 1 va; index_of 2 va; index_of 3 va] =
  [index_of 0 page; index_of 1 page; index_of 2 page; index_of 3 page] <-> page <= va < page + 4096.
Proof.
  intros Hv Hp Hm. destruct (user_index va Hv) as (A0 & A1 & A2 & A3 & _ & Ev).
  destruct (user_index page Hp) as (B0 & B1 & B2 & B3 & _ & Ep). rewrite Hm in Ep.
  assert (Hmv : 0 <= va mod 4096 < 4096) by (apply Z.mod_pos_bound; lia).
  revert Ev Ep. generalize dependent (va mod 4096). intros off Ho Ev Ep.
  split.
  - intros [= E0 E1 E2 E3]. rewrite E0, E1, E2, E3 in Ev. unfold va4 in *. lia.
  - intros Hr. unfold va4, idx in *.
    assert (index_of 3 va = index_of 3 page /\ index_of 2 va = index_of 2 page /\
            index_of 1 va = index_of 1 page /\ index_of 0 va = index_of 0 page) as (-> & -> & -> & ->)
      by lia. done.
Qed.

Lemma in_range a va b : BoolSpec (a <= va < b) (~ (a <= va < b)) ((a <=? va) && (va <? b)).
Proof. destruct (Z.leb_spec a va), (Z.ltb_spec va b); constructor; lia. Qed.

(** [s'] is [s] with the entry of some pages replaced: [change va] says how. *)
Record remapped (s : t A) (T : gmap (list Z) Z) (s' : t A) (T' : gmap (list Z) Z)
  (change : Z -> option (option Z)) : Prop := {
  r_wf : wf s' T';
  r_sub : T ⊆ T';
  r_root : root s' = root s;
  r_entry va : user va ->
    entry_at (phys s') T' va = match change va with Some e => e | None => entry_at (phys s) T va end;
  r_owned q : owned (alloc s') q -> owned (alloc s) q;
  r_new p f : T' !! p = Some f -> T !! p = Some f \/ forall q, f <= q < f + 4096 -> owned (alloc s) q;
  r_phys q : (forall p f, T' !! p = Some f -> ~ (f <= q < f + 4096)) -> phys s' q = phys s q;
}.

(** The entry written for a page. *)
Definition new_entry (pa fl : Z) : option Z :=
  if fl =? 0 then None else Some (entry_of pa (Z.lor TABLE_OR_4KIB_PAGE fl)).

Lemma flags_or a b : Z.land a FLAGS = a -> Z.land b FLAGS = b -> Z.land (Z.lor a b) FLAGS = Z.lor a b.
Proof. intros Ha Hb. by rewrite Z.land_lor_distr_l, Ha, Hb. Qed.

(** Writing an entry of a last-level table. *)
Lemma leaf_write s T a b c f d v :
  wf s T -> T !! [a; b; c] = Some f -> idx d ->
  (is_present v = true -> is_table_or_4kib_page v = true) ->
  let m := <[f + 8 * d := v]> (phys s) in
  wf (set_phys m s) T /\
  (forall a' b' c' d', idx d' -> leaf m T a' b' c' d' =
     if decide ([a'; b'; c'; d'] = [a; b; c; d]) then (if is_present v then Some v else None)
     else leaf (phys s) T a' b' c' d').
Proof.
  intros [WT WC WA WP] Hp Hd Hv m.
  assert (Hn : T !! ([a; b; c] ++ [d]) = None).
  { destruct (T !! ([a; b; c] ++ [d])) eqn:E; [|done].
    destruct (tree_frame _ _ _ WT _ _ E) as (_ & Hl & _). cbn in Hl. lia. }
  assert (Hsame : forall q h j, T !! q = Some h -> idx j -> (q, j) <> ([a; b; c], d) ->
            m (h + 8 * j) = phys s (h + 8 * j)).
  { intros q h j Hq Hj Hne. apply fn_lookup_insert_ne, not_eq_sym.
    by apply (entry_apart _ _ _ WT q [a; b; c]). }
  split.
  - split; cbn [phys root alloc set_phys]; [by apply (tree_write _ _ _ WT [a; b; c])| |done|done].
    split.
    + intros q h j Hq Hl Hj Hs Hqj. rewrite (Hsame q h j Hq Hj) by (intros [= -> ->]; cbn in Hl; lia).
      by apply (complete_inner _ _ WC q).
    + intros q h j Hq Hl Hj. destruct (decide ((q, j) = ([a; b; c], d))) as [[= -> ->]|Hne].
      * assert (h = f) as -> by congruence. unfold m. by rewrite fn_lookup_insert.
      * rewrite (Hsame q h j Hq Hj Hne). by apply (complete_leaf _ _ WC q).
  - intros a' b' c' d' Hd'. unfold leaf. case_decide as E.
    + simplify_eq. rewrite Hp. cbn. unfold m. by rewrite fn_lookup_insert.
    + destruct (T !! [a'; b'; c']) as [h|] eqn:Eh; [|done]. cbn.
      rewrite (Hsame _ h d' Eh Hd'); [done|]. intros [= -> -> -> ->]. done.
Qed.

Lemma in_this_table_run s T a b c f page pa fl :
  wf s T -> T !! [a; b; c] = Some f -> let d := index_of 3 page in idx d ->
  frame pa -> Z.land fl FLAGS = fl ->
  exists m, map_page_in_this_table BasePageSize 3 (table_va [a; b; c]) page pa fl s = Done tt (set_phys m s) /\
    wf (set_phys m s) T /\
    (forall a' b' c' d', idx d' -> leaf m T a' b' c' d' =
       if decide ([a'; b'; c'; d'] = [a; b; c; d]) then new_entry pa fl else leaf (phys s) T a' b' c' d') /\
    (forall q, q <> f + 8 * d -> m q = phys s q).
Proof.
  intros W Hp d Hd Hpa Hfl. pose proof (wf_tree _ _ W) as WT.
  unfold map_page_in_this_table. cbn [MAP_LEVEL BasePageSize MAP_EXTRA_FLAG]. change (3 =? 3)%nat with true.
  rewrite (bind_run _ _ s tt s) by done.
  rewrite (bind_run _ _ _ _ _ (table_index_run 3 page s ltac:(lia))). fold d.
  rewrite (bind_run _ _ _ _ _ (vread_table s T _ f d WT Hp Hd)).
  set (m1 := if is_present (phys s (f + 8 * d)) then <[f + 8 * d := 0]> (phys s) else phys s).
  assert (E1 : (if is_present (phys s (f + 8 * d)) then vwrite (table_va [a; b; c] + 8 * d) 0 else ret tt) s =
               Done tt (set_phys m1 s)).
  { unfold m1. destruct (is_present _); [by apply (vwrite_table s T)|]. by destruct s. }
  rewrite (bind_run _ _ _ _ _ E1).
  assert (W1 : wf (set_phys m1 s) T /\
    (forall a' b' c' d', idx d' -> leaf m1 T a' b' c' d' =
       if decide ([a'; b'; c'; d'] = [a; b; c; d]) then None else leaf (phys s) T a' b' c' d') /\
    (forall q, q <> f + 8 * d -> m1 q = phys s q)).
  { unfold m1. destruct (is_present (phys s (f + 8 * d))) eqn:Ep.
    - destruct (leaf_write s T a b c f d 0 W Hp Hd ltac:(done)) as [Wa Wb]. split; [done|].
      split; [exact Wb|]. intros q Hq. by apply fn_lookup_insert_ne, not_eq_sym.
    - split; [by destruct s|]. split; [|done]. intros a' b' c' d' Hd'. case_decide as E; [|done].
      simplify_eq. unfold leaf. rewrite Hp. cbn. by rewrite Ep. }
  destruct W1 as (W1 & L1 & Q1). unfold new_entry. destruct (fl =? 0) eqn:E0.
  { exists m1. split; [done|]. split; [done|]. split; [exact L1|done]. }
  unfold entry_set. destruct Hpa as (Hpa0 & Hpam & Hpab).
  rewrite (proj2 (Z.eqb_eq _ _) Hpam). erewrite bind_run by reflexivity. cbv beta.
  fold (entry_of pa (Z.lor TABLE_OR_4KIB_PAGE fl)). set (e := entry_of _ _).
  destruct (entry_of_spec pa (Z.lor TABLE_OR_4KIB_PAGE fl) (conj Hpa0 (conj Hpam Hpab)))
    as (P1 & P2 & P3); [by apply flags_or|]. fold e in P1, P2, P3.
  destruct (leaf_write (set_phys m1 s) T a b c f d e W1 Hp Hd) as [W2 L2].
  { intros _. rewrite P3, table_bit, Z.lor_spec. done. }
  cbn [phys set_phys] in L2.
  exists (<[f + 8 * d := e]> m1). split; [by apply (vwrite_table (set_phys m1 s) T _ f d e (wf_tree _ _ W1))|].
  split; [exact W2|]. split.
  - intros a' b' c' d' Hd'. rewrite (L2 a' b' c' d' Hd'), P1. case_decide; [done|].
    rewrite L1 by done. by rewrite decide_False.
  - intros q Hq. rewrite fn_lookup_insert_ne by done. by apply Q1.
Qed.

(** Mapping (or, with no flags, unmapping) one page. *)
Lemma map_page_run s T page pa fl :
  wf s T -> user page -> page mod 4096 = 0 -> frame pa -> Z.land fl FLAGS = fl ->
  (3 <= room (alloc s))%nat ->
  exists s' T', root_map_page BasePageSize page pa fl s = Done tt s' /\
    remapped s T s' T' (fun va => if (page <=? va) && (va <? page + 4096) then Some (new_entry pa fl) else None) /\
    (room (alloc s) <= 3 + room (alloc s'))%nat.
Proof.
  intros W Hu Hm Hpa Hfl Hroom.
  destruct (user_index page Hu) as (I0 & I1 & I2 & I3 & N0 & Ep).
  pose proof (tree_root _ _ _ (wf_tree _ _ W)) as Hr.
  unfold root_map_page. change L0TABLE_ADDRESS with (table_va []). rewrite map_page_step by lia.
  destruct (ensure_run s T [] (root s) page W Hr ltac:(cbn; lia) I0 ltac:(done) ltac:(lia))
    as (s1 & T1 & f1 & E1 & G1 & H1 & R1). cbn [length app] in *.
  rewrite (bind_run _ _ _ _ _ E1), map_page_step by lia.
  destruct (ensure_run s1 T1 [index_of 0 page] f1 page (g_wf _ _ _ _ G1) H1 ltac:(cbn; lia) I1 ltac:(done) ltac:(lia))
    as (s2 & T2 & f2 & E2 & G2 & H2 & R2). cbn [length app] in *.
  rewrite (bind_run _ _ _ _ _ E2), map_page_step by lia.
  destruct (ensure_run s2 T2 [index_of 0 page; index_of 1 page] f2 page (g_wf _ _ _ _ G2) H2 ltac:(cbn; lia) I2
    ltac:(done) ltac:(lia)) as (s3 & T3 & f3 & E3 & G3 & H3 & R3). cbn [length app] in *.
  rewrite (bind_run _ _ _ _ _ E3). cbn [table_map_page].
  pose proof (grown_trans _ _ _ _ _ _ (grown_trans _ _ _ _ _ _ G1 G2) G3) as G. clear G1 G2 G3 E1 E2 E3.
  destruct G as [GW GS GR GL GO GN GP].
  destruct (in_this_table_run s3 T3 _ _ _ f3 page pa fl GW H3 I3 Hpa Hfl) as (m & E & W' & L & Q).
  exists (set_phys m s3), T3. split; [exact E|]. split; [|cbn; lia].
  split; cbn [phys root alloc set_phys]; try done.
  - intros va Hva. destruct (user_index va Hva) as (_ & _ & _ & J3 & _).
    unfold entry_at. rewrite (L _ _ _ _ J3), (GL _ _ _ _ J3).
    pose proof (same_page va page Hva Hu Hm) as SP.
    destruct (in_range page va (page + 4096)).
    + rewrite decide_True; [done|]. by apply SP.
    + rewrite decide_False; [done|]. by rewrite SP.
  - intros q Hq. rewrite Q; [by apply GP|]. intros ->.
    destruct (tree_frame _ _ _ (wf_tree _ _ GW) _ _ H3) as ((F0 & _) & _).
    apply (Hq _ _ H3). unfold idx in I3. lia.
Qed.

Lemma remapped_refl s T : wf s T -> remapped s T s T (fun _ => None).
Proof. intros W. split; auto. Qed.

Lemma remapped_trans s T s1 T1 s2 T2 c1 c2 :
  remapped s T s1 T1 c1 -> remapped s1 T1 s2 T2 c2 ->
  remapped s T s2 T2 (fun va => match c2 va with Some e => Some e | None => c1 va end).
Proof.
  intros [W1 S1 R1 L1 O1 N1 P1] [W2 S2 R2 L2 O2 N2 P2]. split; auto.
  - by transitivity T1.
  - congruence.
  - intros va Hva. rewrite L2 by done. destruct (c2 va); [done|]. by apply L1.
  - intros p f [Hp|Hq]%N2; [by apply N1|]. right. auto.
  - intros q Hq. rewrite P2 by done. apply P1. intros p f Hp. apply (Hq p).
    by eapply lookup_weaken.
Qed.

Lemma remapped_ext s T s' T' c c' :
  remapped s T s' T' c -> (forall va, user va -> c va = c' va) -> remapped s T s' T' c'.
Proof. intros [] E. split; auto. intros va Hva. rewrite <- E by done. auto. Qed.

(** The change [n] pages from [first] on to [pa], [pa + 4096], ... make. *)
Definition range_change (first n pa fl va : Z) : option (option Z) :=
  if (first <=? va) && (va <? first + n * 4096)
  then Some (new_entry (pa + (va - first) / 4096 * 4096) fl) else None.

Lemma map_pages_run n : forall s T first pa fl,
  wf s T -> 0 <= first -> first + Z.of_nat n * 4096 <= 511 * 2 ^ 39 -> first mod 4096 = 0 ->
  0 <= pa -> pa mod 4096 = 0 -> pa + Z.of_nat n * 4096 <= 2 ^ 48 -> Z.land fl FLAGS = fl ->
  (3 * n <= room (alloc s))%nat ->
  exists s' T',
    map_pages BasePageSize ((fun k => first + Z.of_nat k * SIZE BasePageSize) <$> seq 0 n) pa fl s = Done tt s' /\
    remapped s T s' T' (range_change first (Z.of_nat n) pa fl) /\
    (room (alloc s) <= 3 * n + room (alloc s'))%nat.
Proof.
  induction n as [|n IH]; intros s T first pa fl W Hf0 Hf Hm Hp0 Hpm Hp Hfl Hroom.
  { exists s, T. split; [done|]. split; [|cbn; lia].
    eapply remapped_ext; [by apply remapped_refl|]. intros va _. unfold range_change.
    destruct (Z.leb_spec first va), (Z.ltb_spec va (first + Z.of_nat 0 * 4096)); try done; lia. }
  rewrite <- cons_seq, <- fmap_S_seq, fmap_cons. cbn [map_pages].
  replace (first + Z.of_nat 0 * SIZE BasePageSize) with first by (cbn; lia).
  destruct (map_page_run s T first pa fl W) as (s1 & T1 & E1 & M1 & R1); try done;
    [unfold user; lia|unfold frame; lia|lia|].
  rewrite (bind_run _ _ _ _ _ E1).
  destruct (IH s1 T1 (first + 4096) (pa + 4096) fl (r_wf _ _ _ _ _ M1)) as (s2 & T2 & E2 & M2 & R2);
    try done; try lia; [Z.div_mod_to_equations; lia|Z.div_mod_to_equations; lia|].
  exists s2, T2. split; [|split; [|lia]].
  - rewrite <- list_fmap_compose. rewrite <- E2. change (pa + SIZE BasePageSize) with (pa + 4096). f_equal.
    apply list_fmap_ext. intros j k _. cbn [compose]. cbn [SIZE BasePageSize].  lia.
  - eapply remapped_ext; [eapply remapped_trans; [exact M1|exact M2]|].
    intros va _. unfold range_change.
    destruct (in_range (first + 4096) va (first + 4096 + Z.of_nat n * 4096)) as [Ea|Ea];
      destruct (in_range first va (first + Z.of_nat (S n) * 4096)) as [Eb|Eb]; try lia.
    + do 2 f_equal. replace (va - first) with ((va - (first + 4096)) + 1 * 4096) by lia.
      rewrite Z.div_add by lia. lia.
    + destruct (in_range first va (first + 4096)); [|lia].
      do 2 f_equal. rewrite Z.div_small by lia. lia.
    + destruct (in_range first va (first + 4096)); [lia|done].
Qed.

Lemma get_page_range_run (s : t A) va n :
  0 < n -> 0 <= va -> va + n * 4096 <= 2 ^ 48 -> va mod 4096 = 0 ->
  get_page_range BasePageSize va n s =
  Done ((fun k => va + Z.of_nat k * SIZE BasePageSize) <$> seq 0 (Z.to_nat n)) s.
Proof.
  intros Hn Hv Hb Hm. unfold get_page_range, including_address, is_valid_address.
  cbn [SIZE BasePageSize].
  assert (E1 : (va <? 0x1000000000000) = true) by lia. rewrite E1.
  erewrite bind_run by (erewrite bind_run by reflexivity; reflexivity). cbv beta.
  rewrite (wrapu_small 64 (n - 1)), (wrapu_small 64 ((n - 1) * 4096)),
    (wrapu_small 64 (va + (n - 1) * 4096)) by lia.
  assert (E2 : (va + (n - 1) * 4096 <? 0x1000000000000) = true) by lia. rewrite E2.
  erewrite bind_run by (erewrite bind_run by reflexivity; reflexivity). cbv beta.
  assert (E3 : (va + (n - 1) * 4096) mod 4096 = 0) by (rewrite Z.mod_add by lia; done).
  rewrite E3, Hm, !Z.sub_0_r. unfold page_range.
  assert (E4 : (va <=? va + (n - 1) * 4096) = true) by lia. rewrite E4.
  erewrite bind_run by reflexivity. cbv beta. unfold ret. cbn [SIZE BasePageSize].
  replace ((va + (n - 1) * 4096 - va) / 4096 + 1) with n; [done|].
  replace (va + (n - 1) * 4096 - va) with ((n - 1) * 4096) by lia. rewrite Z.div_mul; lia.
Qed.

Lemma map_range_run s T va pa n fl :
  wf s T -> 0 < n -> 0 <= va -> va + n * 4096 <= 511 * 2 ^ 39 -> va mod 4096 = 0 ->
  0 <= pa -> pa mod 4096 = 0 -> pa + n * 4096 <= 2 ^ 48 -> Z.land fl FLAGS = fl ->
  3 * n <= Z.of_nat (room (alloc s)) ->
  exists s' T', (let! range := get_page_range BasePageSize va n in map_pages BasePageSize range pa fl) s = Done tt s' /\
    remapped s T s' T' (range_change va n pa fl) /\
    Z.of_nat (room (alloc s)) <= 3 * n + Z.of_nat (room (alloc s')).
Proof.
  intros W Hn Hv Hb Hm Hp0 Hpm Hpb Hfl Hr.
  rewrite (bind_run _ _ _ _ _ (get_page_range_run s va n Hn Hv ltac:(lia) Hm)).
  destruct (map_pages_run (Z.to_nat n) s T va pa fl) as (s' & T' & E & M & R); try done; try lia.
  exists s', T'. split; [done|]. split; [|lia]. by rewrite Z2Nat.id in M by lia.
Qed.
End Map.
End PagingMap.
