(* ===== verification/PagingProps.v ===== *)
(** The properties of paging: the software walk agrees with the hardware walk,
    mapping and unmapping change exactly the translations they name, where the
    contiguous hint goes wrong, and why [map_heap] does not report failure. *)

From S2P Require Import Prelude Paging PagingMap.
From stdpp Require Import functions.
Open Scope Z_scope.

Module PagingProps.
Import Paging PagingTree PagingMap.

Section Props.
Context {A : Type} `{FrameAllocOk A}.

Lemma translate_entry (s : t A) T va :
  wf s T -> user va ->
  translate s va = (fun e => entry_address e + va mod 4096) <$> entry_at (phys s) T va.
Proof.
  intros W Hu. destruct (user_index va Hu) as (I0 & I1 & I2 & I3 & N & E).
  unfold translate, entry_at. rewrite E at 1.
  apply walk_leaf; try done; [apply W|apply W|]. apply Z.mod_pos_bound. lia.
Qed.

(** ** The software walk *)

Lemma get_entry_step n l (s : t A) T p f page :
  wf s T -> T !! p = Some f -> length p = l -> (l < 3)%nat -> let i := index_of l page in
  idx i -> (p = [] -> i <> 511) ->
  table_get_entry (S n) BasePageSize l (table_va p) page s =
  match T !! (p ++ [i]) with
  | None => Done None s
  | Some _ => table_get_entry n BasePageSize (S l) (table_va (p ++ [i])) page s
  end.
Proof.
  intros W Hp <- Hl i Hi Hs. pose proof (wf_tree _ _ W) as WT. cbn [table_get_entry].
  cbn [MAP_LEVEL BasePageSize]. rewrite (proj2 (Nat.leb_le (length p) 3) ltac:(lia)).
  rewrite (bind_run _ _ s tt s) by done.
  rewrite (bind_run _ _ _ _ _ (table_index_run (length p) page s ltac:(lia))). fold i.
  rewrite (bind_run _ _ _ _ _ (vread_table s T p f i WT Hp Hi)).
  destruct (T !! (p ++ [i])) as [g|] eqn:Hpi.
  - pose proof (tree_edge _ _ _ WT p i f g Hp Hpi) as E. unfold follow in E.
    destruct (is_present (phys s (f + 8 * i))); [|done]. cbn [negb].
    rewrite (proj2 (Nat.ltb_lt (length p) 3) Hl).
    by rewrite (bind_run _ _ _ _ _ (subtable_run s T p f page WT Hp Hl Hi)).
  - by rewrite (complete_inner _ _ (wf_complete _ _ W) p f i Hp Hl Hi Hs Hpi).
Qed.

Lemma get_entry_run (s : t A) T page :
  wf s T -> user page ->
  table_get_entry 3 BasePageSize 0 L0TABLE_ADDRESS page s = Done (entry_at (phys s) T page) s.
Proof.
  intros W Hu. destruct (user_index page Hu) as (I0 & I1 & I2 & I3 & N0 & _).
  pose proof (wf_tree _ _ W) as WT. pose proof (tree_root _ _ _ WT) as Hr.
  change L0TABLE_ADDRESS with (table_va []). unfold entry_at, leaf.
  rewrite (get_entry_step 2 0 s T [] _ page W Hr eq_refl ltac:(lia) I0 ltac:(done)). cbn [app].
  destruct (T !! [index_of 0 page]) as [f1|] eqn:H1.
  2: { destruct (T !! [index_of 0 page; index_of 1 page; index_of 2 page]) as [f|] eqn:E3; [|done].
       destruct (tree_ancestors _ _ _ _ _ _ _ WT E3) as (? & ? & ? & _). congruence. }
  rewrite (get_entry_step 1 1 s T [index_of 0 page] f1 page W H1 eq_refl ltac:(lia) I1 ltac:(done)). cbn [app].
  destruct (T !! [index_of 0 page; index_of 1 page]) as [f2|] eqn:H2.
  2: { destruct (T !! [index_of 0 page; index_of 1 page; index_of 2 page]) as [f|] eqn:E3; [|done].
       destruct (tree_ancestors _ _ _ _ _ _ _ WT E3) as (? & ? & ? & ? & _). congruence. }
  rewrite (get_entry_step 0 2 s T [index_of 0 page; index_of 1 page] f2 page W H2 eq_refl ltac:(lia) I2 ltac:(done)).
  cbn [app].
  destruct (T !! [index_of 0 page; index_of 1 page; index_of 2 page]) as [f3|] eqn:H3; [|done].
  cbn [table_get_entry mbind option_bind]. cbn [MAP_LEVEL BasePageSize]. change (3 =? 3)%nat with true.
  rewrite (bind_run _ _ s tt s) by done.
  rewrite (bind_run _ _ _ _ _ (table_index_run 3 page s ltac:(lia))).
  rewrite (bind_run _ _ _ _ _ (vread_table s T _ f3 _ WT H3 I3)).
  by destruct (is_present _).
Qed.

Lemma entry_at_page m T va page :
  user va -> user page -> page mod 4096 = 0 -> page <= va < page + 4096 ->
  entry_at m T page = entry_at m T va.
Proof.
  intros Hv Hp Hm Hr. pose proof (proj2 (same_page va page Hv Hp Hm) Hr) as [= E0 E1 E2 E3].
  unfold entry_at. by rewrite E0, E1, E2, E3.
Qed.

Lemma virtual_to_physical_run (s : t A) T va :
  wf s T -> user va -> virtual_to_physical va s = Done (translate s va) s.
Proof.
  intros W Hu. rewrite (translate_entry s T va W Hu).
  unfold virtual_to_physical, get_physical_address, including_address, is_valid_address.
  cbn [SIZE BasePageSize]. assert (E : (va <? 0x1000000000000) = true) by (unfold user in Hu; lia).
  rewrite E. erewrite bind_run by (erewrite bind_run by reflexivity; reflexivity). cbv beta.
  set (page := va - va mod 4096).
  assert (Hr : page <= va < page + 4096) by (unfold page; Z.div_mod_to_equations; lia).
  assert (Hm : page mod 4096 = 0) by (unfold page; Z.div_mod_to_equations; lia).
  assert (Hp : user page) by (unfold user, page in *; Z.div_mod_to_equations; lia).
  rewrite (bind_run _ _ _ _ _ (get_entry_run s T page W Hp)).
  rewrite (entry_at_page _ _ va page Hu Hp Hm Hr).
  destruct (entry_at (phys s) T va) as [e|]; [|done]. unfold ret. cbn. do 2 f_equal.
  change (Z.land va (4096 - 1)) with (Z.land va (Z.ones 12)). rewrite Z.land_ones by lia.
  change (2 ^ 12) with 4096.
  assert (Ea : entry_address e = entry_address e / 4096 * 2 ^ 12).
  { unfold entry_address. rewrite <- Z.land_assoc, (Z.land_comm (Z.lnot _)), Z.land_assoc.
    change (Z.lnot (4096 - 1)) with (Z.lnot (Z.ones 12)).
    rewrite <- Z.ldiff_land, Z.ldiff_ones_r by lia. rewrite Z.shiftl_mul_pow2 by lia.
    change 4096 with (2 ^ 12). rewrite Z.div_mul by lia. done. }
  rewrite Ea. rewrite lor_add; [done|lia|]. apply Z.mod_pos_bound. lia.
Qed.

(** C25: The walk of the tables in software, [virtual_to_physical], through the
    recursive entry gives for every address below the recursive window exactly
    the translation of the memory management unit, and changes nothing. *)
Theorem software_walk_agrees (s : t A) T va :
  wf s T -> user va -> virtual_to_physical va s = Done (translate s va) s.
Proof. apply virtual_to_physical_run. Qed.

(** ** Mapping *)

(** The pages [map] gives the contiguous hint when it maps [n] pages from [va] on. *)
Definition contiguous_part (va n va' : Z) : bool :=
  let offset := va mod 65536 in
  let left := n - offset / 4096 in
  (16 <=? n) && (16 <=? left) &&
  (va + offset <=? va') && (va' <? va + offset + (left - left mod 16) * 4096).

(** The change [map] makes. *)
Definition map_change (va pa n fl va' : Z) : option (option Z) :=
  if (va <=? va') && (va' <? va + n * 4096)
  then Some (new_entry (pa + (va' - va) / 4096 * 4096)
               (if contiguous_part va n va' then Z.lor fl CONTIGUOUS else fl))
  else None.

(** Mapping a range that may be empty. *)
Lemma map_part_run (s : t A) T va pa n fl :
  wf s T -> 0 <= n -> 0 <= va -> va + n * 4096 <= 511 * 2 ^ 39 -> va mod 4096 = 0 ->
  0 <= pa -> pa mod 4096 = 0 -> pa + n * 4096 <= 2 ^ 48 -> Z.land fl FLAGS = fl ->
  3 * n <= Z.of_nat (room (alloc s)) ->
  exists s' T',
    (if 0 <? n then (let! range := get_page_range BasePageSize va n in map_pages BasePageSize range pa fl)
     else ret tt) s = Done tt s' /\
    remapped s T s' T' (range_change va n pa fl) /\
    Z.of_nat (room (alloc s)) <= 3 * n + Z.of_nat (room (alloc s')).
Proof.
  intros W Hn Hv Hb Hm Hp0 Hpm Hpb Hfl Hr. destruct (Z.ltb_spec 0 n).
  - by apply (map_range_run s T).
  - assert (n = 0) as -> by lia. exists s, T. split; [done|]. split; [|lia].
    eapply remapped_ext; [by apply remapped_refl|]. intros va' _. unfold range_change.
    by destruct (in_range va va' (va + 0 * 4096)); [lia|].
Qed.

Definition part (va pa n fl : Z) : M (t A) unit :=
  if 0 <? n then (let! range := get_page_range BasePageSize va n in map_pages BasePageSize range pa fl)
  else ret tt.

(** [map] as three ranges, the middle one with the hint. *)
Lemma map_parts va pa n fl (s : t A) :
  16 <= n -> va mod 4096 = 0 ->
  let k := va mod 65536 / 4096 in
  let left := n - k in
  let pages := left - left mod 16 in
  map BasePageSize va pa n fl s =
  (do! part va pa k fl in
   do! part (va + k * 4096) (pa + k * 4096) pages (Z.lor fl CONTIGUOUS) in
   part (va + k * 4096 + pages * 4096) (pa + k * 4096 + pages * 4096) (left - pages) fl) s.
Proof.
  intros Hn Hm k left pages. unfold map, GROUP_SIZE. cbn [SIZE BasePageSize].
  change (16 * 4096) with 65536.
  assert (E0 : (n <? 16) = false) by lia. rewrite E0. fold k.
  assert (Eo : va mod 65536 = k * 4096) by (unfold k; Z.div_mod_to_equations; lia).
  rewrite Eo. fold left. unfold part, map_few.
  assert (Hk : 0 <= k < 16) by (unfold k; Z.div_mod_to_equations; lia).
  assert (E1 : (0 <? k * 4096) = (0 <? k)) by lia. rewrite E1.
  assert (Hl : 0 <= left) by (unfold left; lia).
  assert (E2 : (16 <=? left) = (0 <? pages)) by (unfold pages; clearbody left; Z.div_mod_to_equations; lia).
  assert (Ep : (0 <? pages) = false -> pages = 0) by (unfold pages; clearbody left; Z.div_mod_to_equations; lia).
  destruct (0 <? k) eqn:Ek.
  - cbv [bind ret]. destruct (get_page_range _ va k s) as [range s1|?]; [|done].
    destruct (map_pages _ range pa fl s1) as [[] s2|?]; [|done]. cbv beta iota. fold left. rewrite E2.
    destruct (0 <? pages) eqn:E3; [|rewrite (Ep eq_refl)].
    + destruct (get_page_range _ _ _ s2) as [range' s3|?]; [|done].
      by destruct (map_pages _ range' _ _ s3) as [[] s4|?].
    + by rewrite Z.mul_0_l, !Z.add_0_r, Z.sub_0_r.
  - cbv [bind ret]. assert (Ek0 : k = 0) by (clear - Hk Ek; clearbody k; lia).
    assert (El : left = n) by (unfold left; rewrite Ek0; lia). rewrite <- El, E2, Ek0, Z.mul_0_l, !Z.add_0_r.
    destruct (0 <? pages) eqn:E3; [|rewrite (Ep eq_refl)].
    + fold pages. destruct (get_page_range _ _ _ s) as [range' s3|?]; [|done].
      by destruct (map_pages _ range' _ _ s3) as [[] s4|?].
    + by rewrite Z.mul_0_l, !Z.add_0_r, Z.sub_0_r.
Qed.

(** The arguments [map] is given: whole pages below the recursive window. *)
Record map_args (s : t A) (va pa n fl : Z) : Prop := {
  ma_count : 0 < n;
  ma_va : 0 <= va /\ va mod 4096 = 0 /\ va + n * 4096 <= 511 * 2 ^ 39;
  ma_pa : 0 <= pa /\ pa mod 4096 = 0 /\ pa + n * 4096 <= 2 ^ 48;
  ma_flags : Z.land fl FLAGS = fl;
  ma_room : 3 * n <= Z.of_nat (room (alloc s));
}.

Lemma range_change_at va n pa fl va' :
  va <= va' < va + n * 4096 -> range_change va n pa fl va' = Some (new_entry (pa + (va' - va) / 4096 * 4096) fl).
Proof. intros Hr. unfold range_change. by destruct (in_range va va' (va + n * 4096)). Qed.

Lemma range_change_out va n pa fl va' :
  ~ (va <= va' < va + n * 4096) -> range_change va n pa fl va' = None.
Proof. intros Hr. unfold range_change. by destruct (in_range va va' (va + n * 4096)). Qed.

(** The pages of whole groups. *)
Lemma whole_groups left :
  0 <= left -> let pages := left - left mod 16 in
  0 <= pages <= left /\ (pages = 0 \/ 16 <= left) /\ (left < 16 -> pages = 0).
Proof. cbn. Z.div_mod_to_equations. lia. Qed.

(** The three ranges together. *)
Lemma map_change_parts va pa n fl va' :
  16 <= n -> va mod 4096 = 0 ->
  let k := va mod 65536 / 4096 in
  let left := n - k in
  let pages := left - left mod 16 in
  match range_change (va + k * 4096 + pages * 4096) (left - pages) (pa + k * 4096 + pages * 4096) fl va' with
  | Some e => Some e
  | None =>
      match range_change (va + k * 4096) pages (pa + k * 4096) (Z.lor fl CONTIGUOUS) va' with
      | Some e => Some e
      | None => range_change va k pa fl va'
      end
  end = map_change va pa n fl va'.
Proof.
  intros Hn Hm k left pages.
  assert (Hk : 0 <= k < 16) by (unfold k; Z.div_mod_to_equations; lia).
  assert (Eo : va mod 65536 = k * 4096) by (unfold k; Z.div_mod_to_equations; lia).
  assert (Hl : 0 <= left) by (unfold left; lia).
  assert (Hp : 0 <= pages <= left /\ (pages = 0 \/ 16 <= left) /\ (left < 16 -> pages = 0))
    by (apply whole_groups; lia).
  assert (Ec : contiguous_part va n va' = (va + k * 4096 <=? va') && (va' <? va + k * 4096 + pages * 4096)).
  { unfold contiguous_part. fold k. fold left. fold pages. rewrite Eo.
    rewrite (proj2 (Z.leb_le 16 n) Hn). cbn [andb]. destruct (Z.leb_spec 16 left); [done|].
    destruct (in_range (va + k * 4096) va' (va + k * 4096 + pages * 4096)); [lia|done]. }
  unfold map_change. rewrite Ec. assert (El : n = k + left) by (unfold left; lia).
  clearbody pages left k.
  assert (Hq : forall b, (va' - (va + b * 4096)) / 4096 = (va' - va) / 4096 - b).
  { intros b. replace (va' - (va + b * 4096)) with (va' - va + (- b) * 4096) by lia.
    rewrite Z.div_add by lia. lia. }
  destruct (in_range va va' (va + n * 4096)) as [Hin|Hin].
  - destruct (in_range (va + k * 4096) va' (va + k * 4096 + pages * 4096)) as [Hc|Hc].
    + rewrite range_change_out by lia. rewrite range_change_at by lia. rewrite Hq. do 2 f_equal. lia.
    + destruct (Z_lt_ge_dec va' (va + k * 4096)).
      * rewrite range_change_out by lia. rewrite range_change_out by lia. by apply range_change_at; lia.
      * rewrite range_change_at by lia. replace (va + k * 4096 + pages * 4096) with (va + (k + pages) * 4096) by lia.
        rewrite Hq. do 2 f_equal. lia.
  - rewrite !range_change_out by lia. done.
Qed.

Lemma map_run (s : t A) T va pa n fl :
  wf s T -> map_args s va pa n fl ->
  exists s' T', map BasePageSize va pa n fl s = Done tt s' /\ remapped s T s' T' (map_change va pa n fl) /\
    Z.of_nat (room (alloc s)) <= 3 * n + Z.of_nat (room (alloc s')).
Proof.
  intros W [Hn (Hv & Hm & Hb) (Hp0 & Hpm & Hpb) Hfl Hr]. destruct (Z_lt_ge_dec n 16) as [Hs|Hs].
  { unfold map, GROUP_SIZE, map_few. rewrite (proj2 (Z.ltb_lt n 16) Hs).
    destruct (map_range_run s T va pa n fl) as (s' & T' & E & M & R); try done.
    exists s', T'. split; [exact E|]. split; [|done]. eapply remapped_ext; [exact M|]. intros va' _.
    unfold map_change, range_change, contiguous_part. rewrite (proj2 (Z.leb_gt 16 n) Hs). done. }
  rewrite map_parts by lia. set (k := va mod 65536 / 4096). set (left := n - k).
  set (pages := left - left mod 16).
  assert (Hk : 0 <= k < 16) by (unfold k; Z.div_mod_to_equations; lia).
  assert (Hl : 0 <= left) by (unfold left; lia).
  assert (Hp : 0 <= pages <= left) by (unfold pages; clearbody left; Z.div_mod_to_equations; lia).
  assert (El : left = n - k) by done.
  destruct (map_part_run s T va pa k fl) as (s1 & T1 & E1 & M1 & R1); try done; try lia.
  rewrite (bind_run _ _ _ _ _ E1).
  destruct (map_part_run s1 T1 (va + k * 4096) (pa + k * 4096) pages (Z.lor fl CONTIGUOUS))
    as (s2 & T2 & E2 & M2 & R2); try done; try lia; try by rewrite Z.mod_add by lia.
  { apply M1. }
  { by apply flags_or. }
  rewrite (bind_run _ _ _ _ _ E2).
  destruct (map_part_run s2 T2 (va + k * 4096 + pages * 4096) (pa + k * 4096 + pages * 4096) (left - pages) fl)
    as (s3 & T3 & E3 & M3 & R3); try done; try lia; try by rewrite !Z.mod_add by lia.
  { apply M2. }
  exists s3, T3. split; [exact E3|]. split; [|lia].
  eapply remapped_ext; [eapply remapped_trans; [eapply remapped_trans; [exact M1|exact M2]|exact M3]|].
  intros va' _. by apply map_change_parts; lia.
Qed.

(** What a written entry translates to. *)
Lemma new_entry_address pa fl :
  frame pa -> Z.land fl FLAGS = fl -> fl <> 0 -> entry_address <$> new_entry pa fl = Some pa.
Proof.
  intros Hp Hfl Hnz. unfold new_entry. rewrite (proj2 (Z.eqb_neq fl 0) Hnz). cbn. f_equal.
  apply entry_of_spec; [done|]. by apply flags_or.
Qed.

Lemma remapped_phys (s : t A) T s' T' c q :
  remapped s T s' T' c -> ~ owned (alloc s) q -> (forall p f, T !! p = Some f -> ~ (f <= q < f + 4096)) ->
  phys s' q = phys s q.
Proof.
  intros M Ho Ht. apply (r_phys _ _ _ _ _ M). intros p f Hp Hq.
  destruct (r_new _ _ _ _ _ M p f Hp) as [H1|H1]; [by apply (Ht p f)|]. by apply Ho, H1.
Qed.

Lemma map_change_address (s : t A) va pa n fl va' :
  map_args s va pa n fl -> fl <> 0 -> va <= va' < va + n * 4096 ->
  exists e, map_change va pa n fl va' = Some (Some e) /\ entry_address e + va' mod 4096 = pa + (va' - va).
Proof.
  intros [Hn (Hv & Hm & Hb) (Hp0 & Hpm & Hpb) Hfl Hr] Hnz Hin.
  unfold map_change. destruct (in_range va va' (va + n * 4096)); [|done].
  set (fl' := if contiguous_part _ _ _ then _ else _). set (pa' := pa + _).
  assert (Hpa : frame pa').
  { unfold frame, pa'. split; [Z.div_mod_to_equations; lia|]. rewrite Z.mod_add by lia.
    split; [done|]. Z.div_mod_to_equations; lia. }
  assert (Hf : Z.land fl' FLAGS = fl' /\ fl' <> 0).
  { unfold fl'. destruct (contiguous_part _ _ _); [|done]. split; [by apply flags_or|].
    rewrite Z.lor_eq_0_iff. by intros []. }
  pose proof (new_entry_address pa' fl' Hpa (proj1 Hf) (proj2 Hf)) as E.
  destruct (new_entry pa' fl') as [e|]; [|done]. exists e. split; [done|]. injection E as ->.
  unfold pa'. Z.div_mod_to_equations. lia.
Qed.

(** C3: [map] of whole pages succeeds while there are frames for the tables, and
    afterwards the memory management unit translates exactly the addresses of
    the range anew, each to its own offset in the physical range; memory that
    holds no table and is not the allocator's keeps its contents. *)
Theorem map_translates (s : t A) T va pa n fl :
  wf s T -> map_args s va pa n fl -> fl <> 0 ->
  exists s' T', map BasePageSize va pa n fl s = Done tt s' /\ wf s' T' /\
    (forall va', user va' -> translate s' va' =
       if (va <=? va') && (va' <? va + n * 4096) then Some (pa + (va' - va)) else translate s va') /\
    (forall q, ~ owned (alloc s) q -> (forall p f, T !! p = Some f -> ~ (f <= q < f + 4096)) ->
       phys s' q = phys s q).
Proof.
  intros W Ha Hnz. destruct (map_run s T va pa n fl W Ha) as (s' & T' & E & M & _).
  exists s', T'. split; [exact E|]. split; [apply M|]. split.
  - intros va' Hu. rewrite (translate_entry s' T') by (done || apply M).
    rewrite (translate_entry s T) by done. rewrite (r_entry _ _ _ _ _ M va' Hu).
    destruct (in_range va va' (va + n * 4096)) as [Hin|Hin].
    + destruct (map_change_address s va pa n fl va' Ha Hnz Hin) as (e & Ee & Ea). rewrite Ee. cbn. by rewrite Ea.
    + unfold map_change. by destruct (in_range va va' (va + n * 4096)).
  - intros q. by apply (remapped_phys s T s' T' _ q M).
Qed.

Lemma unmap_run (s : t A) T va n :
  wf s T -> 0 < n -> 0 <= va -> va mod 4096 = 0 -> va + n * 4096 <= 511 * 2 ^ 39 ->
  3 * n <= Z.of_nat (room (alloc s)) ->
  exists s' T', unmap BasePageSize va n s = Done tt s' /\ wf s' T' /\
    (forall va', user va' -> translate s' va' =
       if (va <=? va') && (va' <? va + n * 4096) then None else translate s va').
Proof.
  intros W Hn Hv Hm Hb Hr.
  destruct (map_range_run s T va 0 n 0) as (s' & T' & E & M & R); try done; [lia|].
  exists s', T'. split; [exact E|]. split; [apply M|]. intros va' Hu.
  rewrite (translate_entry s' T') by (done || apply M).
  rewrite (translate_entry s T) by done. rewrite (r_entry _ _ _ _ _ M va' Hu).
  unfold range_change. by destruct (in_range va va' (va + n * 4096)).
Qed.

(** Unmapping what was mapped: the range translates to nothing again, and every
    other address translates as it did before both calls. *)
Theorem unmap_undoes_map (s : t A) T va pa n fl :
  wf s T -> map_args s va pa n fl -> 6 * n <= Z.of_nat (room (alloc s)) ->
  exists s' T', (do! map BasePageSize va pa n fl in unmap BasePageSize va n) s = Done tt s' /\ wf s' T' /\
    forall va', user va' -> translate s' va' =
      if (va <=? va') && (va' <? va + n * 4096) then None else translate s va'.
Proof.
  intros W Ha H6. destruct (map_run s T va pa n fl W Ha) as (s1 & T1 & E1 & M & R).
  rewrite (bind_run _ _ _ _ _ E1). destruct Ha as [Hn (Hv & Hm & Hb) Hp Hfl Hr].
  destruct (unmap_run s1 T1 va n (r_wf _ _ _ _ _ M)) as (s2 & T2 & E2 & W2 & Tr); try done; [lia|].
  exists s2, T2. split; [done|]. split; [done|]. intros va' Hu. rewrite (Tr va' Hu).
  destruct (in_range va va' (va + n * 4096)) as [Hin|Hin]; [done|].
  rewrite (translate_entry s1 T1) by (done || apply M). rewrite (translate_entry s T) by done.
  rewrite (r_entry _ _ _ _ _ M va' Hu). unfold map_change.
  by destruct (in_range va va' (va + n * 4096)).
Qed.

(** ** The contiguous hint *)

Definition is_contiguous (e : Z) : bool := negb (Z.land e CONTIGUOUS =? 0).

Lemma new_entry_contiguous pa fl :
  frame pa -> is_contiguous <$> new_entry pa fl = if fl =? 0 then None else Some (Z.testbit fl 52).
Proof.
  intros Hp. unfold new_entry. destruct (fl =? 0); [done|]. cbn. f_equal.
  unfold is_contiguous, CONTIGUOUS. rewrite land_bit by done. unfold entry_of, insert_flag.
  rewrite !Z.lor_spec. rewrite (frame_bits pa 52) by (try done; lia).
  change (Z.testbit TABLE_OR_4KIB_PAGE 52) with false. change (Z.testbit PRESENT 52) with false.
  change (Z.testbit INNER_SHAREABLE 52) with false. change (Z.testbit ACCESSED 52) with false.
  by rewrite !orb_false_r.
Qed.

Lemma get_page_table_entry_run (s : t A) T va :
  wf s T -> user va -> va mod 4096 = 0 ->
  get_page_table_entry BasePageSize va s = Done (entry_at (phys s) T va) s.
Proof.
  intros W Hu Hm. unfold get_page_table_entry, including_address, is_valid_address.
  assert (Ev : (va <? 0x1000000000000) = true) by (unfold user in Hu; lia). rewrite Ev.
  cbn [SIZE BasePageSize]. rewrite Hm, Z.sub_0_r.
  erewrite bind_run by (erewrite bind_run by reflexivity; reflexivity).
  by apply get_entry_run.
Qed.

(** The entry of the [i]-th page after [map], and its hint. *)
Lemma mapped_entry (s : t A) T s' T' va pa n fl i b :
  remapped s T s' T' (map_change va pa n fl) -> map_args s va pa n fl -> fl <> 0 ->
  Z.testbit fl 52 = false -> 0 <= i < n -> contiguous_part va n (va + i * 4096) = b ->
  exists e, get_page_table_entry BasePageSize (va + i * 4096) s' = Done (Some e) s' /\ is_contiguous e = b.
Proof.
  intros M [_ (Hv & Hm & Hb) (Hp0 & Hpm & Hpb) _ _] Hnz Hc Hi Eb.
  assert (Hu : user (va + i * 4096)) by (unfold user; lia).
  rewrite (get_page_table_entry_run s' T') by (apply M || done || by rewrite Z.mod_add by lia).
  rewrite (r_entry _ _ _ _ _ M _ Hu). unfold map_change. rewrite Eb.
  destruct (in_range va (va + i * 4096) (va + n * 4096)); [|lia].
  replace (va + i * 4096 - va) with (i * 4096) by lia. rewrite Z.div_mul by lia.
  assert (Hf : frame (pa + i * 4096)) by (unfold frame; rewrite Z.mod_add by lia; lia).
  pose proof (new_entry_contiguous (pa + i * 4096) (if b then Z.lor fl CONTIGUOUS else fl) Hf) as En.
  assert (Ez : ((if b then Z.lor fl CONTIGUOUS else fl) =? 0) = false).
  { destruct b; apply Z.eqb_neq; [|done]. rewrite Z.lor_eq_0_iff. by intros []. }
  rewrite Ez in En. destruct (new_entry _ _) as [e|]; [|done]. exists e. split; [done|].
  apply (inj Some) in En. rewrite En. destruct b; [|done]. rewrite Z.lor_spec. apply orb_true_r.
Qed.

(** When the range starts [k] pages after a boundary of sixteen pages, [map]
    starts the entries with the contiguous hint [k] pages further, not at the
    next boundary: unless [k] is 0 or 8, two pages of one aligned group of
    sixteen, neighbours, end up one with and one without the hint. *)
Theorem contiguous_hint_misaligned (s : t A) T va pa n fl :
  wf s T -> map_args s va pa n fl -> fl <> 0 -> Z.testbit fl 52 = false ->
  let k := va mod 65536 / 4096 in
  k <> 0 -> k <> 8 -> 16 + k <= n ->
  exists s', map BasePageSize va pa n fl s = Done tt s' /\
    let page := va + k * 4096 in
    (page - 4096) / 65536 = page / 65536 /\
    exists e0 e1,
      get_page_table_entry BasePageSize (page - 4096) s' = Done (Some e0) s' /\ is_contiguous e0 = false /\
      get_page_table_entry BasePageSize page s' = Done (Some e1) s' /\ is_contiguous e1 = true.
Proof.
  intros W Ha Hnz Hc k K0 K8 Hn. pose proof (map_run s T va pa n fl W Ha) as (s' & T' & E & M & _).
  exists s'. split; [exact E|]. intros page. pose proof (ma_va _ _ _ _ _ Ha) as (Hv & Hm & Hb).
  assert (Eo : va mod 65536 = k * 4096) by (unfold k; Z.div_mod_to_equations; lia).
  assert (Hk : 0 <= k < 16) by (unfold k; Z.div_mod_to_equations; lia).
  assert (Hg : exists g, va = g * 65536 + k * 4096)
    by (exists (va / 65536); pose proof (Z.div_mod va 65536); lia).
  assert (Hl : 16 <= n - k - (n - k) mod 16) by (clearbody k; Z.div_mod_to_equations; lia).
  split.
  { unfold page. destruct Hg as [g Eg]. clearbody k. Z.div_mod_to_equations. lia. }
  assert (Hpart : forall i, contiguous_part va n (va + i * 4096) =
    (k <=? i) && (i <? k + (n - k - (n - k) mod 16))).
  { intros i. unfold contiguous_part. fold k. rewrite Eo.
    rewrite (proj2 (Z.leb_le 16 n)), (proj2 (Z.leb_le 16 (n - k))) by lia. cbn [andb]. f_equal; lia. }
  destruct (mapped_entry s T s' T' va pa n fl (k - 1) false M Ha Hnz Hc) as (e0 & E0 & C0); [lia| |].
  { rewrite Hpart. by rewrite (proj2 (Z.leb_gt k (k - 1))) by lia. }
  destruct (mapped_entry s T s' T' va pa n fl k true M Ha Hnz Hc) as (e1 & E1 & C1); [lia| |].
  { rewrite Hpart. rewrite (proj2 (Z.leb_le k k)), (proj2 (Z.ltb_lt k _)) by lia. done. }
  exists e0, e1. unfold page. by replace (va + k * 4096 - 4096) with (va + (k - 1) * 4096) by lia.
Qed.

(** ** Mapping the heap *)

(** [map_heap] never reports failure, and when there is no physical memory for
    even one page it goes round for ever: every number of rounds runs out. *)
Theorem map_heap_never_errs (s : t A) va n :
  (forall fuel k s', map_heap fuel BasePageSize va n s <> Done (Some (Err k)) s') /\
  ((forall size, allocate (alloc s) size 4096 = None) -> 0 < n ->
     forall fuel, map_heap fuel BasePageSize va n s = Done None s).
Proof.
  split.
  - intros fuel. unfold map_heap. generalize 0 as c. revert s.
    induction fuel as [|fuel IH]; intros s c k s'; cbn [map_heap_loop];
      destruct (c <? n) eqn:Ec; rewrite ?Ec; try done.
    cbv [bind]. destruct (map_heap_try _ _ _ _ s) as [j s1|]; [|done]. apply IH.
  - intros Hf Hn fuel. unfold map_heap.
    assert (Htry : forall j, map_heap_try BasePageSize va 0 j s = Done 0 s).
    { induction j as [|j IH]; [done|]. cbn [map_heap_try]. rewrite (bind_run _ _ s (alloc s) s) by done.
      cbn [SIZE BasePageSize]. by rewrite Hf. }
    induction fuel as [|fuel IH]; cbn [map_heap_loop]; rewrite (proj2 (Z.ltb_lt 0 n) Hn); [done|].
    rewrite (bind_run _ _ _ _ _ (Htry _)). apply IH.
Qed.
End Props.

(** ** A machine *)

(** Frames handed out one after the other: the next one and how many are left. *)
Definition bump : Type := Z * nat.

Global Instance bump_alloc : FrameAlloc bump := {
  allocate a size _ :=
    match a with
    | (f, S k) => if size =? 4096 then Some (f, (f + 4096, k)) else None
    | _ => None
    end;
}.

Global Program Instance bump_ok : FrameAllocOk bump := {
  owned a q := a.1 <= q < a.1 + Z.of_nat a.2 * 4096;
  room a := a.2;
  alloc_ok a := 0 <= a.1 /\ a.1 mod 4096 = 0 /\ a.1 + Z.of_nat a.2 * 4096 <= 2 ^ 48;
}.
Next Obligation.
  intros [f [|k]]; cbn; [lia|]. intros (H0 & Hm & Hb) _. exists f, (f + 4096, k). cbn.
  split; [done|]. split; [unfold frame; lia|].
  assert (Hm' : (f + 4096) mod 4096 = 0) by (Z.div_mod_to_equations; lia).
  split; [lia|]. split; [done|]. split; intros q; lia.
Qed.

(** Only the root table, at 4096, and a hundred free frames above it. *)
Definition boot_phys : Z -> Z :=
  <[4096 + 8 * 511 := entry_of 4096 (Z.lor NORMAL TABLE_OR_4KIB_PAGE)]> (fun _ => 0).
Definition boot : t bump := mk boot_phys 4096 (8192, 100%nat).

Lemma boot_wf : wf boot {[ [] := 4096 ]}.
Proof.
  assert (Hz : forall q, q <> 8184 -> boot_phys q = 0).
  { intros q Hq. unfold boot_phys. by rewrite fn_lookup_insert_ne by lia. }
  split; cbn [phys root alloc boot]; [split| | |].
  - done.
  - intros p f. rewrite lookup_singleton_Some. intros [<- <-]. split; [unfold frame; done|].
    split; [cbn; lia|]. constructor.
  - intros p q f. rewrite !lookup_singleton_Some. intros [<- _] [<- _]. done.
  - intros p i f. rewrite lookup_singleton_Some. intros [E _]. by destruct p.
  - intros p i f g _. rewrite lookup_singleton_Some. intros [E _]. by destruct p.
  - done.
  - split.
    + intros p f i. rewrite lookup_singleton_Some. intros [<- <-] _ Hi Hs _.
      rewrite Hz; [done|]. specialize (Hs eq_refl). lia.
    + intros p f i. rewrite lookup_singleton_Some. intros [<- <-]. done.
  - cbn [alloc_ok bump_ok fst snd]. split; [lia|]. split; [reflexivity|]. lia.
  - intros q p f Ho. rewrite lookup_singleton_Some. intros [<- <-]. cbn in Ho. lia.
Qed.

Lemma boot_args n : 0 < n <= 33 -> map_args boot 4096 0x40000000 n data_flags.
Proof.
  intros Hn. split; [lia| | |done|cbn; lia]; split; try lia; split; try reflexivity; lia.
Qed.

Lemma software_walk_agrees_witness :
  virtual_to_physical 0x12345 boot = Done (translate boot 0x12345) boot.
Proof. apply (software_walk_agrees boot _ 0x12345 boot_wf). unfold user. lia. Defined.

Lemma map_translates_witness :
  exists s', map BasePageSize 4096 0x40000000 33 data_flags boot = Done tt s' /\
    translate s' 0x5123 = Some 0x40004123 /\ translate s' 0x22000 = None.
Proof.
  destruct (map_translates boot _ 4096 0x40000000 33 data_flags boot_wf (boot_args 33 ltac:(lia)) ltac:(done))
    as (s' & T' & E & _ & Tr & _).
  exists s'. split; [exact E|]. split; rewrite Tr by (unfold user; lia); vm_compute; reflexivity.
Defined.

Lemma unmap_undoes_map_witness :
  exists s', (do! map BasePageSize 4096 0x40000000 16 data_flags in unmap BasePageSize 4096 16) boot = Done tt s' /\
    translate s' 0x5123 = None.
Proof.
  destruct (unmap_undoes_map boot _ 4096 0x40000000 16 data_flags boot_wf (boot_args 16 ltac:(lia)) ltac:(cbn; lia))
    as (s' & T' & E & _ & Tr).
  exists s'. split; [exact E|]. rewrite Tr by (unfold user; lia). vm_compute. reflexivity.
Defined.

Lemma contiguous_hint_misaligned_witness :
  exists s' e0 e1, map BasePageSize 4096 0x40000000 17 data_flags boot = Done tt s' /\
    get_page_table_entry BasePageSize 0x1000 s' = Done (Some e0) s' /\ is_contiguous e0 = false /\
    get_page_table_entry BasePageSize 0x2000 s' = Done (Some e1) s' /\ is_contiguous e1 = true.
Proof.
  destruct (contiguous_hint_misaligned boot _ 4096 0x40000000 17 data_flags boot_wf (boot_args 17 ltac:(lia))
    ltac:(done) ltac:(done) ltac:(done) ltac:(done) ltac:(done)) as (s' & E & _ & e0 & e1 & H).
  exists s', e0, e1. split; [exact E|exact H].
Defined.

Lemma map_heap_never_errs_witness :
  map_heap 1000 BasePageSize 0x10000 1 (mk boot_phys 4096 (8192, 0%nat)) =
  Done None (mk boot_phys 4096 (8192, 0%nat)).
Proof. apply (map_heap_never_errs (mk boot_phys 4096 (8192, 0%nat)) 0x10000 1); [done|lia]. Defined.
End PagingProps.
