(* ===== verification/EventFd.v ===== *)
(** Event descriptors, [src/src/fd/eventfd.rs]: a 64-bit counter with readers
    that wait for it to become positive and writers that wait for room.

    One call of [poll] on the future of an operation is one atomic step: the
    lock on the state is taken and released inside it.  [EventFd::poll] takes
    the lock twice and is two steps. *)

From S2P Require Import Prelude Errors.

Module EventFd.

Definition EFD_SEMAPHORE : Z := 1.
Definition EFD_NONBLOCK : Z := 2048.

Definition POLLIN : Z := 0x1.
Definition POLLOUT : Z := 0x4.
Definition POLLRDNORM : Z := 0x40.
Definition POLLRDBAND : Z := 0x80.
Definition POLLWRNORM : Z := 0x100.
Definition POLLWRBAND : Z := 0x200.

(** [core::task::Poll] *)
Inductive Poll (A : Type) : Type :=
  | Ready (a : A)
  | Pending.
Arguments Ready {A} _.
Arguments Pending {A}.

(** Whom a waker wakes. *)
Definition Waker : Type := Z.

Record EventState : Type := mkState {
  counter : Z;
  read_queue : list Waker;
  write_queue : list Waker;
}.

Definition EventState_new (counter : Z) : EventState := mkState counter [] [].

(** The descriptor and, for the effect of waking, the wakers called so far. *)
Record t : Type := mk {
  state : EventState;
  flags : Z;
  woken : list Waker;
}.

Definition new (initval flags : Z) : t := mk (EventState_new initval) flags [].

Definition contains (flags f : Z) : bool := Z.land flags f =? f.
Definition intersects (flags f : Z) : bool := negb (Z.land flags f =? 0).

Definition set_counter (c : Z) (s : t) : t :=
  mk (mkState c (read_queue (state s)) (write_queue (state s))) (flags s) (woken s).
Definition set_read_queue (q : list Waker) (s : t) : t :=
  mk (mkState (counter (state s)) q (write_queue (state s))) (flags s) (woken s).
Definition set_write_queue (q : list Waker) (s : t) : t :=
  mk (mkState (counter (state s)) (read_queue (state s)) q) (flags s) (woken s).
Definition wake_by_ref (w : Waker) (s : t) : t := mk (state s) (flags s) (woken s ++ [w]).

(** [pop_front] of a queue and [wake_by_ref] of what it gives. *)
Definition wake_reader (s : t) : t :=
  match read_queue (state s) with
  | [] => s
  | w :: q => wake_by_ref w (set_read_queue q s)
  end.
Definition wake_writer (s : t) : t :=
  match write_queue (state s) with
  | [] => s
  | w :: q => wake_by_ref w (set_write_queue q s)
  end.

Definition register_reader (w : Waker) (s : t) : t := set_read_queue (read_queue (state s) ++ [w]) s.
Definition register_writer (w : Waker) (s : t) : t := set_write_queue (write_queue (state s) ++ [w]) s.

(** The loop of [write] for semaphores, over the queue it pops. *)
Fixpoint wake_some (c : Z) (q : list Waker) (s : t) : t :=
  match q with
  | [] => s
  | w :: q' => if 0 <? c then wake_some (c - 1) q' (wake_by_ref w (set_read_queue q' s)) else s
  end.

(** [drain] of the queue, waking each. *)
Definition wake_all (s : t) : t :=
  foldl (fun s w => wake_by_ref w s) (set_read_queue [] s) (read_queue (state s)).

(** [u64::to_ne_bytes] and [from_ne_bytes]; the target is little-endian. *)
Fixpoint to_bytes (n : nat) (x : Z) : list Z :=
  match n with
  | O => []
  | S n => x mod 256 :: to_bytes n (x / 256)
  end.
Fixpoint from_bytes (l : list Z) : Z :=
  match l with
  | [] => 0
  | b :: l => b + 256 * from_bytes l
  end.
Definition to_ne_bytes (x : Z) : list Z := to_bytes 8 x.
Definition from_ne_bytes (l : list Z) : Z := from_bytes l.

(** The closure of [read]: the answer and, when there is one, the new buffer. *)
Definition read_poll (buf : list Z) (w : Waker) : M t (Poll (io_result (Z * list Z))) :=
  let! s := get in
  if contains (flags s) EFD_SEMAPHORE then
    if 0 <? counter (state s) then
      do! modify (set_counter (counter (state s) - 1)) in
      do! modify wake_writer in
      ret (Ready (Ok (8, to_ne_bytes 1 ++ drop 8 buf)))
    else do! modify (register_reader w) in ret Pending
  else
    let tmp := counter (state s) in
    if 0 <? tmp then
      do! modify (set_counter 0) in
      do! modify wake_reader in
      ret (Ready (Ok (8, to_ne_bytes tmp ++ drop 8 buf)))
    else if contains (flags s) EFD_NONBLOCK then ret (Ready (Err Errno.Again))
    else do! modify (register_reader w) in ret Pending.

Definition read (buf : list Z) (w : Waker) : M t (Poll (io_result (Z * list Z))) :=
  if Z.of_nat (length buf) <? 8 then ret (Ready (Err Errno.Inval)) else read_poll buf w.

(** The closure of [write]. *)
Definition write_poll (c : Z) (w : Waker) : M t (Poll (io_result Z)) :=
  let! s := get in
  if c <? u64_max - counter (state s) then
    do! modify (set_counter (counter (state s) + c)) in
    do! (if contains (flags s) EFD_SEMAPHORE
         then modify (wake_some c (read_queue (state s)))
         else modify wake_all) in
    ret (Ready (Ok 8))
  else if contains (flags s) EFD_NONBLOCK then ret (Ready (Err Errno.Again))
  else do! modify (register_writer w) in ret Pending.

Definition write (buf : list Z) (w : Waker) : M t (Poll (io_result Z)) :=
  if Z.of_nat (length buf) <? 8 then ret (Ready (Err Errno.Inval))
  else write_poll (from_ne_bytes (take 8 buf)) w.

(** The first part of [poll], up to the release of the lock. *)
Definition poll_available (event : Z) : M t Z :=
  let! s := get in
  let c := counter (state s) in
  let available := if c <? u64_max - 1 then Z.lor POLLOUT (Z.lor POLLWRNORM POLLWRBAND) else 0 in
  let available :=
    if 0 <? c then Z.lor available (Z.lor POLLIN (Z.lor POLLRDNORM POLLRDBAND)) else available in
  ret (Z.land event available).

(** The closure of [poll]. *)
Definition poll_register (event r : Z) (w : Waker) : M t (Poll (io_result Z)) :=
  if r =? 0 then
    if intersects event (Z.lor POLLIN (Z.lor POLLRDNORM POLLRDNORM)) then
      do! modify (register_reader w) in ret Pending
    else if intersects event (Z.lor POLLOUT (Z.lor POLLWRNORM POLLWRBAND)) then
      do! modify (register_writer w) in ret Pending
    else ret (Ready (Ok r))
  else ret (Ready (Ok r)).

Definition poll (event : Z) (w : Waker) : M t (Poll (io_result Z)) :=
  let! r := poll_available event in poll_register event r w.

(** ** Runs *)

Inductive op : Type :=
  | Read (buf : list Z) (w : Waker)
  | Write (buf : list Z) (w : Waker)
  | PollFor (event : Z) (w : Waker).

Inductive answer : Type :=
  | ARead (a : Poll (io_result (Z * list Z)))
  | AWrite (a : Poll (io_result Z))
  | APoll (a : Poll (io_result Z)).

Definition do_op (o : op) : M t answer :=
  match o with
  | Read buf w => let! a := read buf w in ret (ARead a)
  | Write buf w => let! a := write buf w in ret (AWrite a)
  | PollFor event w => let! a := poll event w in ret (APoll a)
  end.

Fixpoint run (ops : list op) : M t (list answer) :=
  match ops with
  | [] => ret []
  | o :: ops => let! a := do_op o in let! l := run ops in ret (a :: l)
  end.

(** ** What the answers say *)

(** The amount a read took and a write added. *)
Definition taken (o : op) (a : answer) : Z :=
  match a with ARead (Ready (Ok (_, buf))) => from_ne_bytes (take 8 buf) | _ => 0 end.
Definition added (o : op) (a : answer) : Z :=
  match o, a with Write buf _, AWrite (Ready (Ok _)) => from_ne_bytes (take 8 buf) | _, _ => 0 end.

Definition sum2 (f : op -> answer -> Z) (ops : list op) (l : list answer) : Z :=
  foldr Z.add 0 (zip_with f ops l).

(** The wakers that were left in a queue. *)
Definition waits_to_read (event : Z) : bool := intersects event (Z.lor POLLIN POLLRDNORM).
Definition waiting_reader (o : op) (a : answer) : list Waker :=
  match o, a with
  | Read _ w, ARead Pending => [w]
  | PollFor event w, APoll Pending => if waits_to_read event then [w] else []
  | _, _ => []
  end.
Definition waiting_writer (o : op) (a : answer) : list Waker :=
  match o, a with
  | Write _ w, AWrite Pending => [w]
  | PollFor event w, APoll Pending => if waits_to_read event then [] else [w]
  | _, _ => []
  end.
Definition concat2 (f : op -> answer -> list Waker) (ops : list op) (l : list answer) : list Waker :=
  concat (zip_with f ops l).

(** Buffers hold bytes. *)
Definition op_ok (o : op) : Prop :=
  match o with
  | Read buf _ | Write buf _ => Forall (fun b => 0 <= b < 256) buf
  | PollFor _ _ => True
  end.

(** ** Bytes *)

Lemma from_to_bytes n x : 0 <= x < 256 ^ Z.of_nat n -> from_bytes (to_bytes n x) = x.
Proof.
  revert x. induction n as [|n IH]; intros x Hx; cbn [to_bytes from_bytes]; [cbn in Hx; lia|].
  rewrite IH; [pose proof (Z.div_mod x 256); lia|].
  rewrite Nat2Z.inj_succ, Z.pow_succ_r in Hx by lia. Z.div_mod_to_equations. nia.
Qed.

Lemma from_bytes_bound l : Forall (fun b => 0 <= b < 256) l -> 0 <= from_bytes l < 256 ^ Z.of_nat (length l).
Proof.
  induction 1 as [|b l Hb _ IH]; cbn [from_bytes length]; [cbn; lia|].
  rewrite Nat2Z.inj_succ, Z.pow_succ_r by lia. lia.
Qed.

Lemma ne_bytes_roundtrip x rest : 0 <= x <= u64_max -> from_ne_bytes (take 8 (to_ne_bytes x ++ rest)) = x.
Proof. intros Hx. change (take 8 (to_ne_bytes x ++ rest)) with (to_bytes 8 x). apply from_to_bytes. unfold u64_max in Hx. lia. Qed.

(** ** Steps *)

Lemma wake_some_state c q : forall s,
  counter (state (wake_some c q s)) = counter (state s) /\ flags (wake_some c q s) = flags s /\
  write_queue (state (wake_some c q s)) = write_queue (state s).
Proof.
  revert c. induction q as [|w q IH]; intros c s; [done|]. cbn [wake_some].
  destruct (0 <? c); [|done]. by destruct (IH (c - 1) (wake_by_ref w (set_read_queue q s))) as (-> & -> & ->).
Qed.

Lemma wake_each q : forall s,
  foldl (fun s w => wake_by_ref w s) s q = mk (state s) (flags s) (woken s ++ q).
Proof.
  induction q as [|w q IH]; intros s; cbn [foldl]; [rewrite app_nil_r; by destruct s|].
  rewrite IH. unfold wake_by_ref. cbn [state flags woken]. by rewrite <- app_assoc.
Qed.

Lemma wake_all_state s :
  wake_all s = mk (mkState (counter (state s)) [] (write_queue (state s))) (flags s) (woken s ++ read_queue (state s)).
Proof. apply (wake_each (read_queue (state s)) (set_read_queue [] s)). Qed.

(** A step whose answer and state are known. *)
Ltac step_done := eexists _, _; split; [done|]; cbn; repeat split; try lia; done.

(** Every step ends, keeps the flags and the bound, and accounts for what was
    read and written. *)
Lemma do_op_counter o s :
  op_ok o -> 0 <= counter (state s) < u64_max ->
  exists a s', do_op o s = Done a s' /\ flags s' = flags s /\ 0 <= counter (state s') < u64_max /\
    counter (state s') + taken o a = counter (state s) + added o a /\
    (forall n buf, a = ARead (Ready (Ok (n, buf))) ->
       n = 8 /\ 0 < taken o a /\ (contains (flags s) EFD_SEMAPHORE = true -> taken o a = 1)).
Proof.
  intros Ho Hc. destruct o as [buf w|buf w|event w]; cbn [do_op].
  - unfold read. destruct (Z.of_nat (length buf) <? 8); [step_done|].
    unfold read_poll. cbv [bind get modify ret].
    destruct (contains (flags s) EFD_SEMAPHORE) eqn:Es; destruct (Z.ltb_spec 0 (counter (state s))).
    + eexists _, _. split; [done|]. cbn [taken added]. rewrite ne_bytes_roundtrip by (unfold u64_max; lia).
      unfold wake_writer. destruct (write_queue _); cbn; (split; [done|]; split; [lia|]; split; [lia|]);
        intros n b [= <- <-]; (split; [done|]; lia).
    + step_done.
    + eexists _, _. split; [done|]. cbn [taken added]. rewrite ne_bytes_roundtrip by lia.
      unfold wake_reader. destruct (read_queue _); cbn; (split; [done|]; split; [lia|]; split; [lia|]);
        intros n b [= <- <-]; (split; [done|]; split; [lia|done]).
    + destruct (contains (flags s) EFD_NONBLOCK); step_done.
  - unfold write. destruct (Z.of_nat (length buf) <? 8) eqn:El; [step_done|].
    assert (Hb : 0 <= from_ne_bytes (take 8 buf)).
    { apply (from_bytes_bound (take 8 buf)). by apply Forall_take. }
    unfold write_poll. cbv [bind get modify ret].
    destruct (Z.ltb_spec (from_ne_bytes (take 8 buf)) (u64_max - counter (state s))).
    + destruct (contains (flags s) EFD_SEMAPHORE); eexists _, _; (split; [done|]); cbn [taken added].
      * destruct (wake_some_state (from_ne_bytes (take 8 buf)) (read_queue (state s))
          (set_counter (counter (state s) + from_ne_bytes (take 8 buf)) s)) as (-> & -> & _).
        cbn [flags state counter set_counter]. repeat split; try lia; done.
      * rewrite wake_all_state. cbn [flags state counter set_counter]. repeat split; try lia; done.
    + destruct (contains (flags s) EFD_NONBLOCK); step_done.
  - unfold poll, poll_available, poll_register. cbv [bind get modify ret].
    destruct (_ =? 0); [|step_done].
    destruct (intersects _ _); [step_done|].
    destruct (intersects _ _); step_done.
Qed.

(** Without [EFD_SEMAPHORE]: the readers a step leaves waiting join those that
    wait or were woken, the writers it leaves waiting join the write queue, which
    loses nobody; nobody waits to read while the counter is positive. *)
Lemma do_op_queues o s a s' :
  do_op o s = Done a s' -> contains (flags s) EFD_SEMAPHORE = false ->
  0 <= counter (state s) -> op_ok o ->
  (0 < counter (state s) -> read_queue (state s) = []) ->
  woken s' ++ read_queue (state s') ≡ₚ woken s ++ read_queue (state s) ++ waiting_reader o a /\
  write_queue (state s') = write_queue (state s) ++ waiting_writer o a /\
  (0 < counter (state s') -> read_queue (state s') = []).
Proof.
  intros E Hs Hc Ho Hi. destruct s as [[c rq wq] f l]. cbn [state counter read_queue write_queue flags woken] in *.
  destruct o as [buf w|buf w|event w]; cbn [do_op] in E.
  - unfold read in E. destruct (Z.of_nat (length buf) <? 8).
    { injection E as <- <-. cbn. by rewrite !app_nil_r. }
    unfold read_poll in E. cbv [bind get modify ret] in E. cbn [state counter flags] in E. rewrite Hs in E.
    destruct (Z.ltb_spec 0 c) as [H0|H0].
    + injection E as <- <-. rewrite (Hi H0). cbn. by rewrite !app_nil_r.
    + destruct (contains f EFD_NONBLOCK); injection E as <- <-; cbn; rewrite !app_nil_r; [done|].
      split; [done|]. split; [done|]. lia.
  - unfold write in E. destruct (Z.of_nat (length buf) <? 8).
    { injection E as <- <-. cbn. by rewrite !app_nil_r. }
    unfold write_poll in E. cbv [bind get modify ret] in E. cbn [state counter flags] in E. rewrite Hs in E.
    destruct (_ <? _).
    + injection E as <- <-. rewrite wake_all_state. cbn. by rewrite !app_nil_r.
    + destruct (contains f EFD_NONBLOCK); injection E as <- <-; cbn; by rewrite !app_nil_r.
  - unfold poll, poll_available, poll_register in E. cbv [bind get modify ret] in E. cbn [state counter flags] in E.
    change (Z.lor POLLRDNORM POLLRDNORM) with POLLRDNORM in E. fold (waits_to_read event) in E.
    set (av := if 0 <? c then _ else _) in E.
    destruct (Z.eqb_spec (Z.land event av) 0) as [Hz|Hz]; last first.
    { injection E as <- <-. cbn. by rewrite !app_nil_r. }
    assert (Hr : waits_to_read event = true -> c <= 0).
    { intros Hw. destruct (Z.ltb_spec 0 c) as [H0|]; [|lia]. exfalso. unfold av in Hz.
      rewrite (Z.land_lor_distr_r event), Z.lor_eq_0_iff in Hz. destruct Hz as [_ Hz].
      change (Z.lor POLLIN (Z.lor POLLRDNORM POLLRDBAND)) with (Z.lor (Z.lor POLLIN POLLRDNORM) POLLRDBAND) in Hz.
      rewrite Z.land_lor_distr_r, Z.lor_eq_0_iff in Hz. unfold waits_to_read, intersects in Hw.
      rewrite (proj1 Hz) in Hw. done. }
    destruct (waits_to_read event) eqn:Ew.
    { injection E as <- <-. cbn. rewrite Ew, app_nil_r. split; [by rewrite app_assoc|]. split; [done|].
      specialize (Hr eq_refl). lia. }
    destruct (intersects event _); injection E as <- <-; cbn; rewrite ?Ew, ?app_nil_r; done.
Qed.

(** C32: The counter after any operations on a descriptor is what was there, plus
    what accepted writes added, minus what reads took: no amount is lost, made
    up or counted twice, the counter stays below 2^64 - 1, no operation panics;
    a read that succeeds takes something, with [EFD_SEMAPHORE] exactly one. *)
Theorem eventfd_conserves ops : forall s,
  Forall op_ok ops -> 0 <= counter (state s) < u64_max ->
  exists l s', run ops s = Done l s' /\ length l = length ops /\ 0 <= counter (state s') < u64_max /\
    counter (state s') + sum2 taken ops l = counter (state s) + sum2 added ops l /\
    Forall (fun oa => match oa.2 with
              | ARead (Ready (Ok (n, _))) =>
                  n = 8 /\ 0 < taken oa.1 oa.2 /\
                  (contains (flags s) EFD_SEMAPHORE = true -> taken oa.1 oa.2 = 1)
              | _ => True end) (zip ops l).
Proof.
  induction ops as [|o ops IH]; intros s Ho Hc; cbn [run].
  { eexists _, _. split; [done|]. cbn. repeat split; try lia; constructor. }
  apply Forall_cons_1 in Ho as [Ho Hos].
  destruct (do_op_counter o s Ho Hc) as (a & s1 & E1 & F1 & C1 & K1 & R1).
  destruct (IH s1 Hos C1) as (l & s2 & E2 & Hl & C2 & K2 & R2).
  rewrite (bind_run _ _ _ _ _ E1), (bind_run _ _ _ _ _ E2).
  eexists _, _. split; [done|]. split; [cbn; lia|]. split; [done|]. split.
  - unfold sum2 in *. cbn [zip_with foldr]. lia.
  - cbn [zip zip_with]. constructor; [|by rewrite F1 in R2].
    cbn [fst snd]. destruct a as [[[[n b]|]|]| |]; try done. by apply (R1 n b).
Qed.

Lemma run_queues ops : forall s l s',
  run ops s = Done l s' -> contains (flags s) EFD_SEMAPHORE = false ->
  0 <= counter (state s) < u64_max -> Forall op_ok ops ->
  (0 < counter (state s) -> read_queue (state s) = []) ->
  woken s' ++ read_queue (state s') ≡ₚ woken s ++ read_queue (state s) ++ concat2 waiting_reader ops l /\
  write_queue (state s') = write_queue (state s) ++ concat2 waiting_writer ops l /\
  (0 < counter (state s') -> read_queue (state s') = []).
Proof.
  induction ops as [|o ops IH]; intros s l s' E Hs Hc Ho Hi; cbn [run] in E.
  { injection E as <- <-. unfold concat2. cbn. by rewrite !app_nil_r. }
  apply Forall_cons_1 in Ho as [Ho Hos].
  destruct (do_op_counter o s Ho Hc) as (a & s1 & E1 & F1 & C1 & _).
  rewrite (bind_run _ _ _ _ _ E1) in E. apply bind_Done in E as (l' & s2 & E2 & E). injection E as <- <-.
  destruct (do_op_queues o s a s1 E1 Hs ltac:(lia) Ho Hi) as (Q1 & W1 & I1).
  destruct (IH s1 l' s2 E2 ltac:(by rewrite F1) C1 Hos I1) as (Q2 & W2 & I2).
  unfold concat2 in *. cbn [zip_with concat]. split; [|split; [|done]].
  - rewrite Q2, (app_assoc (woken s1)), Q1. by rewrite <- !app_assoc.
  - by rewrite W2, W1, <- app_assoc.
Qed.

(** Without [EFD_SEMAPHORE] no reader is forgotten: when the counter is
    positive, every wait for it to become readable, by [read] or by [poll], has
    been answered by a call of its waker. *)
Theorem eventfd_readers_woken ops initval fl l s :
  contains fl EFD_SEMAPHORE = false -> 0 <= initval < u64_max -> Forall op_ok ops ->
  run ops (new initval fl) = Done l s -> 0 < counter (state s) ->
  woken s ≡ₚ concat2 waiting_reader ops l.
Proof.
  intros Hs Hv Ho E Hc.
  destruct (run_queues ops _ _ _ E Hs Hv Ho ltac:(done)) as (Q & _ & I).
  rewrite (I Hc), app_nil_r in Q. exact Q.
Qed.

(** Without [EFD_SEMAPHORE] a writer that waits for room is never woken: the
    write queue only grows, and all wakers that are ever called belong to
    readers. *)
Theorem eventfd_writers_stranded ops initval fl l s :
  contains fl EFD_SEMAPHORE = false -> 0 <= initval < u64_max -> Forall op_ok ops ->
  run ops (new initval fl) = Done l s ->
  write_queue (state s) = concat2 waiting_writer ops l /\
  (forall w, w ∈ woken s -> w ∈ concat2 waiting_reader ops l).
Proof.
  intros Hs Hv Ho E.
  destruct (run_queues ops _ _ _ E Hs Hv Ho ltac:(done)) as (Q & W & _). split; [exact W|].
  intros w Hw. cbn in Q. rewrite <- Q. apply elem_of_app. by left.
Qed.

(** [EventFd::poll] gives the lock away between looking at the counter and
    joining the queue: a write in between is not noticed, the poller waits in
    the queue of a readable descriptor and its waker was not called. *)
Theorem eventfd_poll_race s c w w' :
  contains (flags s) EFD_SEMAPHORE = false -> counter (state s) = 0 -> 0 < c < u64_max ->
  exists s', (let! r := poll_available POLLIN in
              let! a := write_poll c w' in
              let! p := poll_register POLLIN r w in ret (a, p)) s = Done (Ready (Ok 8), Pending) s' /\
    counter (state s') = c /\ read_queue (state s') = [w] /\ woken s' = woken s ++ read_queue (state s).
Proof.
  intros Hs Hc0 Hc. unfold poll_available, write_poll, poll_register. cbv [bind get modify ret].
  rewrite Hc0. cbn [Z.ltb Z.compare]. change (Z.land POLLIN _) with 0. cbn [Z.eqb].
  assert (E : (c <? u64_max - 0) = true) by lia. rewrite E, Hs.
  eexists. split; [done|]. rewrite wake_all_state. by cbn.
Qed.

(** ** Witnesses *)

Lemma eventfd_conserves_witness :
  exists l s', run [Write [7; 0; 0; 0; 0; 0; 0; 0] 1; Read [0; 0; 0; 0; 0; 0; 0; 0] 2] (new 3 0) = Done l s' /\
    counter (state s') + sum2 taken [Write [7; 0; 0; 0; 0; 0; 0; 0] 1; Read [0; 0; 0; 0; 0; 0; 0; 0] 2] l =
    3 + sum2 added [Write [7; 0; 0; 0; 0; 0; 0; 0] 1; Read [0; 0; 0; 0; 0; 0; 0; 0] 2] l /\
    l = [AWrite (Ready (Ok 8)); ARead (Ready (Ok (8, [10; 0; 0; 0; 0; 0; 0; 0])))].
Proof.
  destruct (eventfd_conserves [Write [7; 0; 0; 0; 0; 0; 0; 0] 1; Read [0; 0; 0; 0; 0; 0; 0; 0] 2] (new 3 0))
    as (l & s' & E & _ & _ & K & _).
  - repeat constructor; lia.
  - cbn. unfold u64_max. lia.
  - exists l, s'. split; [done|]. split; [done|]. vm_compute in E. by injection E as <- <-.
Defined.

Lemma eventfd_readers_woken_witness :
  woken (mk (mkState 5 [] []) 0 [4; 9]) ≡ₚ
  concat2 waiting_reader [Read [0; 0; 0; 0; 0; 0; 0; 0] 4; PollFor POLLIN 9; Write [5; 0; 0; 0; 0; 0; 0; 0] 1]
    [ARead Pending; APoll Pending; AWrite (Ready (Ok 8))].
Proof.
  apply (eventfd_readers_woken _ 0 0); [done|unfold u64_max; lia| |done|cbn; lia].
  repeat constructor; lia.
Defined.

Lemma eventfd_writers_stranded_witness :
  exists l s, run [Write [255; 255; 255; 255; 255; 255; 255; 255] 7; Read [0; 0; 0; 0; 0; 0; 0; 0] 3] (new 5 0) = Done l s /\
    counter (state s) = 0 /\ write_queue (state s) = [7] /\ woken s = [].
Proof.
  eexists _, _. split; [vm_compute; reflexivity|]. split; [done|].
  edestruct (eventfd_writers_stranded [Write [255; 255; 255; 255; 255; 255; 255; 255] 7;
    Read [0; 0; 0; 0; 0; 0; 0; 0] 3] 5 0) as [W _]; [done|unfold u64_max; lia| |vm_compute; reflexivity|].
  { repeat constructor; lia. }
  split; [exact W|done].
Defined.

Lemma eventfd_poll_race_witness :
  exists s', (let! r := poll_available POLLIN in
              let! a := write_poll 1 2 in
              let! p := poll_register POLLIN r 1 in ret (a, p)) (new 0 0) = Done (Ready (Ok 8), Pending) s' /\
    counter (state s') = 1 /\ read_queue (state s') = [1] /\ woken s' = [].
Proof. apply (eventfd_poll_race (new 0 0) 1 1 2); [done|done|unfold u64_max; lia]. Defined.
End EventFd.
