(* ===== verification/Executor.v ===== *)
(** Blocking on a future, [src/src/executor/mod.rs], and waiting for several
    descriptors, [poll] of [src/src/fd/mod.rs].

    The executor of the background tasks ([async_executor]) and the back-off
    ([crossbeam_utils]) are not part of the kernel and are parameters. *)

From S2P Require Import Prelude Errors PrioFifo Tasks Interfaces Futex EventFd.
Import EventFd.

Module Executor.

(** ** Registered wakers *)

(** [WakerRegistration]; [will_wake] of two wakers is equality of whom they wake. *)
Definition WakerRegistration : Type := option Waker.
Definition WakerRegistration_new : WakerRegistration := None.
Definition register (w : Waker) (self : WakerRegistration) : WakerRegistration :=
  match self with
  | Some w2 => if w2 =? w then self else Some w
  | None => Some w
  end.
(** The waker called, if any, and what is left. *)
Definition wake (self : WakerRegistration) : option Waker * WakerRegistration :=
  match self with
  | None => (None, None)
  | Some w => (Some w, None)
  end.

(** ** Notification of a blocked task *)

Section TaskNotify.
Context {P Q K : Type} {WQ : WaitQueue P Q} {KC : KernelCalls K}.

(** [TaskNotify::wait] up to the point where the task sleeps, if it does. *)
Definition wait_enter (futex : Z) (timeout : option Z) : M (Futex.world P Q K) Futex.entered :=
  Futex.futex_wait_and_set_enter futex 0 timeout Futex.RELATIVE 0.

Definition notify_wake (futex : Z) : M (Futex.world P Q K) unit :=
  do! Futex.futex_wake_or_set futex 1 u32_max in ret tt.

Fixpoint notify_wakes (n : nat) (futex : Z) : M (Futex.world P Q K) unit :=
  match n with
  | O => ret tt
  | S n => do! notify_wake futex in notify_wakes n futex
  end.
End TaskNotify.

(** ** Blocking *)

(** [crossbeam_utils::Backoff] *)
Class Backoff (B : Type) : Type := {
  backoff_new : B;
  is_completed : B -> bool;
  snooze : B -> B;
  reset : B -> B;
}.

Section BlockOn.
Context {W B T : Type} `{Backoff B}.
Variable try_tick : M W bool. (** one task of the executor, if there is one *)
Variable poll : M W (Poll (io_result T)).
Variable now_micros : M W Z.
Variable wait : option Z -> M W unit.

Fixpoint run_loop (n : nat) : M W unit :=
  match n with
  | O => ret tt
  | S n => let! more := try_tick in if more : bool then run_loop n else ret tt
  end.
Definition run : M W unit := run_loop 3.

(** Time out durations are in nanoseconds. *)
Definition elapsed (timeout : option Z) (start now : Z) : bool :=
  match timeout with
  | Some duration => duration <=? wrapu 64 (now - start) * 1000
  | None => false
  end.

Definition wakeup_micros (timeout : option Z) : M W (option Z) :=
  match timeout with
  | Some duration => let! us := unwrap (checked_u64 (duration / 1000)) "called `Result::unwrap()`" in ret (Some us)
  | None => ret None
  end.

(** [None] when [fuel] rounds were not enough. *)
Fixpoint block_on_loop (fuel : nat) (timeout : option Z) (start : Z) (backoff : B)
    : M W (option (io_result T)) :=
  match fuel with
  | O => ret None
  | S fuel =>
      let! result := poll in
      do! run in
      let! now := now_micros in
      match result with
      | Ready t => ret (Some t)
      | Pending =>
          if elapsed timeout start now then ret (Some (Err Errno.Time))
          else if is_completed backoff then
            let! wakeup_time := wakeup_micros timeout in
            do! wait wakeup_time in
            block_on_loop fuel timeout start (reset backoff)
          else block_on_loop fuel timeout start (snooze backoff)
      end
  end.

Definition block_on (fuel : nat) (timeout : option Z) : M W (option (io_result T)) :=
  let! start := now_micros in
  block_on_loop fuel timeout start backoff_new.
End BlockOn.

(** ** Waiting for descriptors *)

Record PollFd : Type := mkPollFd {
  fd : Z;
  events : Z;
  revents : Z;
}.

Section PollFds.
Context {W O : Type}.
Variable get_object : Z -> M W (io_result O).
Variable poll_object : O -> Z -> M W (Poll (io_result Z)).

(** One poll of the future of [poll_fds]: the number of descriptors with
    events and the updated array. *)
Fixpoint poll_each (fds : list PollFd) : M W (Z * list PollFd) :=
  match fds with
  | [] => ret (0, [])
  | p :: rest =>
      let p := mkPollFd (fd p) (events p) 0 in
      let! obj := get_object (fd p) in
      let! '(hit, p) :=
        match obj with
        | Err _ => ret (0, p)
        | Ok o =>
            let! e := poll_object o (events p) in
            match e with
            | Ready (Ok e) => if e =? 0 then ret (0, p) else ret (1, mkPollFd (fd p) (events p) e)
            | _ => ret (0, p)
            end
        end in
      let! '(counter, rest) := poll_each rest in
      ret (hit + counter, p :: rest)
  end.

Definition poll_fds (fds : list PollFd) : M W (Poll (io_result Z) * list PollFd) :=
  let! '(counter, fds) := poll_each fds in
  ret (if 0 <? counter then Ready (Ok counter) else Pending, fds).

(** The future over the world and the array it borrows. *)
Definition poll_fds_future : M (W * list PollFd) (Poll (io_result Z)) := fun '(w, fds) =>
  match poll_fds fds w with
  | Done (r, fds) w => Done r (w, fds)
  | Panic why => Panic why
  end.
End PollFds.

(** [fd::poll] after [block_on] has answered. *)
Definition poll_answer (timeout : option Z) (result : io_result Z) : io_result Z :=
  match result, timeout with
  | Err e, Some _ => if bool_decide (e = Errno.Again) then Ok 0 else result
  | _, _ => result
  end.

(** The system call: milliseconds, negative for no timeout. *)
Definition poll_timeout (timeout : Z) : option Z := if 0 <=? timeout then Some (timeout * 1000000) else None.

Definition poll_return {W} (result : io_result Z) : M W Z :=
  match result with
  | Err e => ret (if bool_decide (e = Errno.Time) then 0 else neg_errno e)
  | Ok v => if v <=? i32_max then ret v else panic "called `Result::unwrap()`"
  end.

Section SysPoll.
Context {W O B : Type} `{Backoff B}.
Variable get_object : Z -> M W (io_result O).
Variable poll_object : O -> Z -> M W (Poll (io_result Z)).
Variable try_tick : M (W * list PollFd) bool.
Variable now_micros : M (W * list PollFd) Z.
Variable wait : option Z -> M (W * list PollFd) unit.

(** [fd::poll]; [None] when [fuel] rounds were not enough. *)
Definition fd_poll (fuel : nat) (timeout : option Z) : M (W * list PollFd) (option (io_result Z)) :=
  let! result := block_on try_tick (poll_fds_future get_object poll_object) now_micros wait fuel timeout in
  ret (poll_answer timeout <$> result).

Definition sys_poll (fuel : nat) (timeout : Z) : M (W * list PollFd) (option Z) :=
  let! result := fd_poll fuel (poll_timeout timeout) in
  match result with
  | None => ret None
  | Some r => let! v := poll_return r in ret (Some v)
  end.
End SysPoll.

(** ** Properties *)

Section NotifyProps.
Context {P Q K : Type} {WQ : WaitQueue P Q} {KC : KernelCalls K}.

Lemma notify_wake_set futex (w : Futex.world P Q K) :
  Futex.lot w !! futex = None -> notify_wake futex w = Done tt (Futex.store futex u32_max w).
Proof. intros Hl. unfold notify_wake, Futex.futex_wake_or_set. change (1 <? 0) with false. cbv [bind get modify ret]. by rewrite Hl. Qed.

(** Only the futex has changed, to [v]. *)
Definition futex_is (futex v : Z) (w w' : Futex.world P Q K) : Prop :=
  Futex.lot w' = Futex.lot w /\ Futex.pool w' = Futex.pool w /\ Futex.kern w' = Futex.kern w /\
  Futex.mem w' futex = v /\ forall a, a <> futex -> Futex.mem w' a = Futex.mem w a.

Lemma store_is futex v u w w' : futex_is futex u w w' -> futex_is futex v w (Futex.store futex v w').
Proof.
  intros (H1 & H2 & H3 & H4 & H5). unfold futex_is. cbn. rewrite Z.eqb_refl.
  repeat split; try done. intros a Ha. rewrite (proj2 (Z.eqb_neq a futex) Ha). auto.
Qed.

Lemma notify_wakes_set n futex (w : Futex.world P Q K) : Futex.lot w !! futex = None ->
  forall w' u, futex_is futex u w w' ->
  exists w'', notify_wakes (S n) futex w' = Done tt w'' /\ futex_is futex u32_max w w''.
Proof.
  intros Hl. induction n as [|n IH]; intros w' u Hw.
  - exists (Futex.store futex u32_max w'). split; [|by eapply store_is].
    cbn [notify_wakes]. rewrite (bind_run _ _ w' tt (Futex.store futex u32_max w')); [done|].
    apply notify_wake_set. by rewrite (proj1 Hw).
  - destruct (IH (Futex.store futex u32_max w') u32_max) as (w'' & E & Hw''); [by eapply store_is|].
    exists w''. split; [|done]. change (notify_wakes (S (S n)) futex) with
      (do! notify_wake futex in notify_wakes (S n) futex).
    rewrite (bind_run _ _ w' tt (Futex.store futex u32_max w')); [done|].
    apply notify_wake_set. by rewrite (proj1 Hw).
Qed.

(** A notification is not lost when it comes before the task waits: after any
    number of wakes of a futex nobody sleeps on, [wait] comes back at once, the
    task is not blocked, and the futex is reset for the next round; without a
    wake the futex would have kept its value. *)
Theorem notify_before_wait (n : nat) futex timeout (w : Futex.world P Q K) :
  Futex.lot w !! futex = None ->
  exists w', (do! notify_wakes (S n) futex in wait_enter futex timeout) w =
    Done (Futex.Answered (neg_errno Errno.Again)) w' /\ futex_is futex 0 w w'.
Proof.
  intros Hl. destruct (notify_wakes_set n futex w Hl w (Futex.mem w futex)) as (w1 & E1 & H1); [done|].
  exists (Futex.store futex 0 w1). split; [|by eapply store_is].
  rewrite (bind_run _ _ _ _ _ E1). unfold wait_enter, Futex.futex_wait_and_set_enter.
  cbv [bind get modify ret]. destruct H1 as (_ & _ & _ & -> & _). done.
Qed.
End NotifyProps.

Section BlockProps.
Context {W B T : Type} `{Backoff B}.
Variable try_tick : M W bool.
Variable poll : M W (Poll (io_result T)).
Variable now_micros : M W Z.
Variable wait : option Z -> M W unit.
(** A clock with [rate] ticks a microsecond.  The calls do not panic, take at
    most [slack] ticks each, and waiting at most the given time on top. *)
Variable clock : W -> Z.
Variables rate slack : Z.
Variable ok : W -> Prop.

Record calls_ok : Prop := {
  co_rate : 0 < rate;
  co_poll w : ok w -> exists r w', poll w = Done r w' /\ ok w' /\ clock w <= clock w' <= clock w + slack;
  co_tick w : ok w -> exists r w', try_tick w = Done r w' /\ ok w' /\ clock w <= clock w' <= clock w + slack;
  co_wait us w : ok w -> 0 <= us ->
    exists w', wait (Some us) w = Done tt w' /\ ok w' /\ clock w <= clock w' <= clock w + us * rate + slack;
  co_now w : ok w -> exists w', now_micros w = Done (wrapu 64 (clock w / rate)) w' /\ ok w' /\
    clock w < clock w' <= clock w + slack;
}.
Hypothesis C : calls_ok.

Lemma run_loop_ok n : forall w, ok w ->
  exists w', run_loop try_tick n w = Done tt w' /\ ok w' /\ clock w <= clock w' <= clock w + Z.of_nat n * slack.
Proof.
  induction n as [|n IH]; intros w Hw; cbn [run_loop]; [exists w; split; [done|split; [done|lia]]|].
  destruct (co_tick C w Hw) as (r & w1 & E & Hw1 & C1). rewrite (bind_run _ _ _ _ _ E).
  destruct r; [|exists w1; split; [done|]; split; [done|]; nia]. destruct (IH w1 Hw1) as (w2 & E2 & Hw2 & C2).
  exists w2. split; [done|]. split; [done|]. lia.
Qed.

(** Readings of the clock less than 2^64 microseconds apart can be subtracted. *)
Lemma reading_sub a b : 0 <= b - a < 2 ^ 64 -> wrapu 64 (wrapu 64 b - wrapu 64 a) = b - a.
Proof.
  intros Hab. unfold wrapu. rewrite <- Zminus_mod. by apply Z.mod_small.
Qed.

(** What an answer can be. *)
Definition answer_of (r : io_result T) : Prop :=
  r = Err Errno.Time \/ exists w w', ok w /\ poll w = Done (Ready r) w'.

(** One round: it answers, or goes on with a later clock before the deadline. *)
Lemma block_on_round d st w b fuel :
  0 <= d -> d / 1000 <= u64_max -> ok w ->
  let L := (st / rate + d / 1000 + 1) * rate in
  st <= clock w < L + d / 1000 * rate + 2 * slack ->
  (2 * (d / 1000) + 2) * rate + 8 * slack < 2 ^ 64 * rate ->
  let loop := block_on_loop try_tick poll now_micros wait in
  (exists r w', loop (S fuel) (Some d) (wrapu 64 (st / rate)) b w = Done (Some r) w' /\ answer_of r /\ ok w' /\
     clock w' <= L + d / 1000 * rate + 7 * slack) \/
  (exists w' b', loop (S fuel) (Some d) (wrapu 64 (st / rate)) b w =
       loop fuel (Some d) (wrapu 64 (st / rate)) b' w' /\ ok w' /\ clock w < L /\
     clock w < clock w' < L + d / 1000 * rate + 2 * slack).
Proof.
  intros Hd Hu Hw L Hc Hlim loop. pose proof (co_rate C) as Hrate. unfold loop. cbn [block_on_loop].
  destruct (co_poll C w Hw) as (r & w1 & E1 & Hw1 & C1). rewrite (bind_run _ _ _ _ _ E1).
  destruct (run_loop_ok 3 w1 Hw1) as (w2 & E2 & Hw2 & C2). rewrite (bind_run _ _ _ _ _ E2).
  destruct (co_now C w2 Hw2) as (w3 & E3 & Hw3 & C3). rewrite (bind_run _ _ _ _ _ E3).
  destruct r as [t|].
  { left. exists t, w3. split; [done|]. split; [right; by exists w, w1|]. split; [done|]. lia. }
  assert (Hst : st / rate * rate <= st) by (rewrite Z.mul_comm; by apply Z.mul_div_le).
  assert (Hq : 0 <= clock w2 / rate - st / rate < 2 ^ 64).
  { split; [apply Zle_minus_le_0, Z.div_le_mono; lia|].
    assert (clock w2 / rate < st / rate + 2 ^ 64); [|lia]. apply Z.div_lt_upper_bound; [done|]. nia. }
  unfold elapsed. rewrite reading_sub by done.
  destruct (Z.leb_spec d ((clock w2 / rate - st / rate) * 1000)) as [He|He].
  { left. exists (Err Errno.Time), w3. split; [done|]. split; [by left|]. split; [done|]. lia. }
  assert (HL : clock w2 < L).
  { assert (Hk : clock w2 / rate - st / rate <= d / 1000) by (Z.div_mod_to_equations; lia).
    pose proof (Z.mul_succ_div_gt (clock w2) rate Hrate). unfold L. nia. }
  right. destruct (is_completed b).
  - unfold wakeup_micros, checked_u64.
    assert (Hd0 : 0 <= d / 1000) by (apply Z.div_pos; lia).
    rewrite (proj2 (Z.leb_le (d / 1000) u64_max) Hu), ?(proj2 (Z.leb_le 0 (d / 1000)) Hd0). cbn [andb].
    erewrite bind_run by (erewrite bind_run by reflexivity; reflexivity). cbv beta.
    destruct (co_wait C (d / 1000) w3 Hw3 Hd0) as (w4 & E4 & Hw4 & C4).
    rewrite (bind_run _ _ _ _ _ E4). exists w4, (reset b). split; [done|]. split; [done|]. clearbody L. lia.
  - exists w3, (snooze b). split; [done|]. split; [done|]. clearbody L.
    assert (0 <= d / 1000 * rate) by (apply Z.mul_nonneg_nonneg; [apply Z.div_pos|]; lia). lia.
Qed.

Lemma block_on_loop_ends d st : 0 <= d -> d / 1000 <= u64_max ->
  (2 * (d / 1000) + 2) * rate + 8 * slack < 2 ^ 64 * rate ->
  let L := (st / rate + d / 1000 + 1) * rate in
  forall fuel w b, ok w -> st <= clock w < L + d / 1000 * rate + 2 * slack ->
  Z.max 0 (L - clock w) < Z.of_nat fuel ->
  exists r w', block_on_loop try_tick poll now_micros wait fuel (Some d) (wrapu 64 (st / rate)) b w = Done (Some r) w' /\
    answer_of r /\ ok w' /\ clock w' <= L + d / 1000 * rate + 7 * slack.
Proof.
  intros Hd Hu Hlim L. induction fuel as [|fuel IH]; intros w b Hw Hc Hf; [lia|].
  destruct (block_on_round d st w b fuel Hd Hu Hw Hc Hlim) as [(r & w' & E & Hr)|(w' & b' & E & Hw' & HL & C')].
  - by exists r, w'.
  - rewrite E. fold L in HL, C'. apply IH; [done|lia|lia].
Qed.

Lemma block_on_ends d fuel w :
  ok w -> 0 <= d -> d / 1000 <= u64_max ->
  (2 * (d / 1000) + 2) * rate + 8 * slack < 2 ^ 64 * rate ->
  (d / 1000 + 1) * rate < Z.of_nat fuel ->
  exists r w', block_on try_tick poll now_micros wait fuel (Some d) w = Done (Some r) w' /\ answer_of r /\
    clock w' <= clock w + (2 * (d / 1000) + 1) * rate + 7 * slack.
Proof.
  intros Hw Hd Hu Hlim Hf. pose proof (co_rate C) as Hrate.
  destruct (co_now C w Hw) as (w1 & E1 & Hw1 & C1). unfold block_on. rewrite (bind_run _ _ _ _ _ E1).
  pose proof (Z.mul_div_le (clock w) rate Hrate) as Hle.
  pose proof (Z.mul_succ_div_gt (clock w) rate Hrate) as Hgt.
  assert (Hd0 : 0 <= d / 1000) by (apply Z.div_pos; lia).
  destruct (block_on_loop_ends d (clock w) Hd Hu Hlim fuel w1 backoff_new Hw1) as (r & w' & E & Hr & _ & Hc').
  - nia.
  - nia.
  - exists r, w'. split; [done|]. split; [done|]. nia.
Qed.

(** C34: with a timeout of [d] nanoseconds, on a clock with [rate] ticks a
    microsecond, and as long as polling, running the executor and reading the
    clock take at most [slack] ticks each and a wait of [us] microseconds at most
    [us * rate + slack] ([calls_ok]), [block_on] comes back: after at most as
    many rounds as the clock has ticks until the deadline, with the answer of
    the future or [Errno::Time], and within
    [(2 * (d / 1000) + 1) * rate + 7 * slack] ticks.  The factor 2 is there
    because a task that parks late waits for the whole timeout, not for what is
    left of it. *)
Theorem block_on_bounded d fuel w :
  ok w -> 0 <= d -> d / 1000 <= u64_max ->
  (2 * (d / 1000) + 2) * rate + 8 * slack < 2 ^ 64 * rate ->
  (d / 1000 + 1) * rate < Z.of_nat fuel ->
  exists r w', block_on try_tick poll now_micros wait fuel (Some d) w = Done (Some r) w' /\ answer_of r /\
    clock w' <= clock w + (2 * (d / 1000) + 1) * rate + 7 * slack.
Proof. apply block_on_ends. Qed.
End BlockProps.
End Executor.
