(* ===== verification/PollProps.v ===== *)
(** Waiting for several event descriptors, [poll] of [src/src/fd/mod.rs]: what
    it reports, whom a later write wakes, what it answers after a timeout. *)

From S2P Require Import Prelude Errors PrioFifo Tasks HandleQueue Kernel Interfaces Futex SchedProps SynchKernel EventFd Executor.
Import EventFd Executor.

Module PollProps.

(** The event descriptors of a task, by number. *)
Notation descriptors := (gmap Z EventFd.t).

Definition get_event (fd : Z) : M descriptors (io_result Z) :=
  gets (fun m => match m !! fd with Some _ => Ok fd | None => Err Errno.Badf end).

Definition poll_event (w : Waker) (o event : Z) : M descriptors (Poll (io_result Z)) := fun m =>
  match m !! o with
  | None => Done (Ready (Err Errno.Badf)) m
  | Some s =>
      match EventFd.poll event w s with
      | Done a s' => Done a (<[o := s']> m)
      | Panic why => Panic why
      end
  end.

Definition poll_events (w : Waker) (fds : list PollFd) : M descriptors (Poll (io_result Z) * list PollFd) :=
  poll_fds get_event (poll_event w) fds.

(** ** What is ready *)

Definition readable (c : Z) : bool := 0 <? c.
Definition available (c : Z) : Z :=
  Z.lor (if c <? u64_max - 1 then Z.lor POLLOUT (Z.lor POLLWRNORM POLLWRBAND) else 0)
    (if 0 <? c then Z.lor POLLIN (Z.lor POLLRDNORM POLLRDBAND) else 0).

Definition ready (m : descriptors) (p : PollFd) : Z :=
  match m !! fd p with Some s => Z.land (events p) (available (counter (state s))) | None => 0 end.

Definition report (m : descriptors) (p : PollFd) : PollFd := mkPollFd (fd p) (events p) (ready m p).
Definition hits (m : descriptors) (fds : list PollFd) : Z :=
  Z.of_nat (length (List.filter (fun p => negb (ready m p =? 0)) fds)).

(** [s'] is [s] with more waiters. *)
Definition more_waiters (s s' : EventFd.t) : Prop :=
  counter (state s') = counter (state s) /\ flags s' = flags s /\ woken s' = woken s /\
  (forall w, w ∈ read_queue (state s) -> w ∈ read_queue (state s')).

Global Instance more_waiters_preorder : PreOrder more_waiters.
Proof.
  split; [by intros s|]. intros s1 s2 s3 (C1 & F1 & K1 & R1) (C2 & F2 & K2 & R2).
  split; [congruence|]. split; [congruence|]. split; [congruence|]. auto.
Qed.

(** The descriptors after a poll: the same, with more waiters. *)
Definition polled (m m' : descriptors) : Prop := forall k,
  match m !! k, m' !! k with
  | Some s, Some s' => more_waiters s s'
  | None, None => True
  | _, _ => False
  end.

Lemma polled_refl m : polled m m.
Proof. intros k. by destruct (m !! k). Qed.

Lemma polled_trans m1 m2 m3 : polled m1 m2 -> polled m2 m3 -> polled m1 m3.
Proof.
  intros H1 H2 k. specialize (H1 k). specialize (H2 k).
  destruct (m1 !! k), (m2 !! k), (m3 !! k); cbn in *; try done. by etransitivity.
Qed.

Lemma polled_insert m k s s' : m !! k = Some s -> more_waiters s s' -> polled m (<[k := s']> m).
Proof.
  intros Hk Hm j. destruct (decide (k = j)) as [<-|Hne].
  - by rewrite lookup_insert_eq, Hk.
  - rewrite lookup_insert_ne by done. by destruct (m !! j).
Qed.

Lemma ready_polled m m' p : polled m m' -> ready m' p = ready m p.
Proof.
  intros Hp. pose proof (Hp (fd p)) as E. unfold ready.
  destruct (m !! fd p), (m' !! fd p); try done. by destruct E as (-> & _).
Qed.

(** Polling one descriptor. *)
Lemma poll_one event w s :
  exists a s', EventFd.poll event w s = Done a s' /\ more_waiters s s' /\
    let r := Z.land event (available (counter (state s))) in
    (r <> 0 -> a = Ready (Ok r)) /\
    (r = 0 -> (a = Pending \/ a = Ready (Ok 0)) /\
       (waits_to_read event = true -> w ∈ read_queue (state s'))).
Proof.
  unfold EventFd.poll, poll_available, poll_register. cbv [bind get modify ret].
  change (Z.lor POLLRDNORM POLLRDNORM) with POLLRDNORM. fold (waits_to_read event).
  assert (Ea : (if 0 <? counter (state s)
    then Z.lor (if counter (state s) <? u64_max - 1 then Z.lor POLLOUT (Z.lor POLLWRNORM POLLWRBAND) else 0)
           (Z.lor POLLIN (Z.lor POLLRDNORM POLLRDBAND))
    else if counter (state s) <? u64_max - 1 then Z.lor POLLOUT (Z.lor POLLWRNORM POLLWRBAND) else 0) =
    available (counter (state s))).
  { unfold available. destruct (0 <? _); [done|]. by rewrite Z.lor_0_r. }
  rewrite Ea. destruct (Z.eqb_spec (Z.land event (available (counter (state s)))) 0) as [Hz|Hz].
  - rewrite Hz. destruct (waits_to_read event) eqn:Ew.
    + eexists _, _. split; [done|]. split.
      { repeat split. intros v Hv. cbn. apply elem_of_app. by left. }
      split; [done|]. intros _. split; [by left|]. intros _. cbn. apply elem_of_app. right. by left.
    + destruct (intersects _ _); eexists _, _; (split; [done|]); (split; [by repeat split|]);
        (split; [done|]); intros _; split; auto; done.
  - eexists _, _. split; [done|]. split; [done|]. split; [done|]. done.
Qed.

Lemma poll_each_run w fds : forall m,
  exists m', poll_each get_event (poll_event w) fds m = Done (hits m fds, report m <$> fds) m' /\ polled m m' /\
    forall p, p ∈ fds -> waits_to_read (events p) = true -> ready m p = 0 ->
      forall s', m' !! fd p = Some s' -> w ∈ read_queue (state s').
Proof.
  induction fds as [|p fds IH]; intros m; cbn [poll_each].
  { exists m. split; [done|]. split; [apply polled_refl|]. intros p Hp. by apply not_elem_of_nil in Hp. }
  assert (Hp : exists m1,
    (let! obj := get_event (fd p) in
     match obj with
     | Err _ => ret (0, mkPollFd (fd p) (events p) 0)
     | Ok o =>
         let! e := poll_event w o (events p) in
         match e with
         | Ready (Ok e) => if e =? 0 then ret (0, mkPollFd (fd p) (events p) 0) else ret (1, mkPollFd (fd p) (events p) e)
         | _ => ret (0, mkPollFd (fd p) (events p) 0)
         end
     end) m = Done (if ready m p =? 0 then 0 else 1, report m p) m1 /\ polled m m1 /\
    (waits_to_read (events p) = true -> ready m p = 0 ->
       forall s', m1 !! fd p = Some s' -> w ∈ read_queue (state s'))).
  { unfold get_event, gets, poll_event, report, ready. cbv [bind ret].
    destruct (m !! fd p) as [s|] eqn:Es.
    - rewrite Es. destruct (poll_one (events p) w s) as (a & s' & -> & Hm & Hr & H0).
      set (r := Z.land _ _) in *. exists (<[fd p := s']> m).
      split; [|split; [by eapply polled_insert|]].
      + destruct (Z.eqb_spec r 0) as [Hz|Hz].
        * rewrite Hz. destruct (H0 Hz) as [[-> | ->] _]; done.
        * rewrite (Hr Hz). by rewrite (proj2 (Z.eqb_neq r 0) Hz).
      + intros Hw Hz s''. rewrite lookup_insert_eq. intros [= <-]. by apply H0.
    - exists m. split; [done|]. split; [apply polled_refl|]. intros _ _ s'. by rewrite Es. }
  destruct Hp as (m1 & E1 & P1 & W1). destruct (IH m1) as (m2 & E2 & P2 & W2).
  assert (Ef : forall p', ready m1 p' = ready m p') by (intros; by apply ready_polled).
  exists m2. split; [|split; [by eapply polled_trans|]].
  - cbv [bind] in E1 |- *. cbn [fd events] in *.
    destruct (get_event (fd p) m) as [obj m0|]; [|done].
    destruct obj as [o|e].
    all: match type of E1 with ?x = _ => destruct x as [[hit q] m3|] end; [|done].
    all: injection E1 as -> -> ->. all: rewrite E2. all: cbn [ret].
    all: unfold hits, report. all: cbn [List.filter fmap list_fmap].
    all: rewrite (List.filter_ext _ (fun p => negb (ready m p =? 0))) by (intros; by rewrite Ef).
    all: rewrite (list_fmap_ext (report m1) (report m)) by (intros; unfold report; by rewrite Ef).
    all: unfold ret; do 2 f_equal. all: destruct (ready m p =? 0); cbn [negb length]; lia.
  - intros p' Hin Hw Hz s2 Hs2. apply elem_of_cons in Hin as [->|Hin].
    + pose proof (P2 (fd p)) as E. rewrite Hs2 in E.
      destruct (m1 !! fd p) as [s1|] eqn:Es1; [|done]. destruct E as (_ & _ & _ & E). apply E. by apply W1.
    + apply (W2 p' Hin Hw); [by rewrite Ef|done].
Qed.

(** A poll of event descriptors never panics and reports exactly the requested
    events each descriptor has at that moment, nothing for unknown numbers; it
    answers their number, waits when there is none, and changes no counter. *)
Theorem poll_reports_exactly w fds m :
  exists m', poll_events w fds m =
      Done (if hits m fds =? 0 then Pending else Ready (Ok (hits m fds)), report m <$> fds) m' /\
    polled m m'.
Proof.
  destruct (poll_each_run w fds m) as (m' & E & Hp & _). exists m'. split; [|done].
  unfold poll_events, poll_fds. rewrite (bind_run _ _ _ _ _ E). unfold ret. do 2 f_equal.
  unfold hits. set (n := length _). destruct n; [done|].
  rewrite (proj2 (Z.ltb_lt 0 (Z.of_nat (S n)))), (proj2 (Z.eqb_neq (Z.of_nat (S n)) 0)) by lia. done.
Qed.

Lemma hits_zero m fds p : hits m fds = 0 -> p ∈ fds -> ready m p = 0.
Proof.
  intros Hz Hin. destruct (Z.eqb_spec (ready m p) 0) as [|Hne]; [done|]. exfalso. unfold hits in Hz.
  assert (Hp : List.In p (List.filter (fun p => negb (ready m p =? 0)) fds)).
  { apply List.filter_In. split; [by apply list_elem_of_In|]. by rewrite (proj2 (Z.eqb_neq _ _) Hne). }
  destruct (List.filter _ fds); [done|]. cbn in Hz. lia.
Qed.

Lemma wake_some_woken c q : forall s, woken (wake_some c q s) = woken s ++ take (Z.to_nat c) q.
Proof.
  revert c. induction q as [|w q IH]; intros c s; cbn [wake_some]; [by rewrite take_nil, app_nil_r|].
  destruct (Z.ltb_spec 0 c) as [Hc|Hc]; [|by rewrite Z2Nat.nonpos, take_0, app_nil_r by lia].
  rewrite IH. replace (Z.to_nat c) with (S (Z.to_nat (c - 1))) by lia. cbn. by rewrite <- app_assoc.
Qed.

(** A descriptor that reports nothing to a reader has counter 0. *)
Lemma not_ready_empty m p s :
  ready m p = 0 -> waits_to_read (events p) = true -> m !! fd p = Some s -> 0 <= counter (state s) -> counter (state s) = 0.
Proof.
  intros Hrd Hw Hs Hc0. destruct (Z.ltb_spec 0 (counter (state s))) as [H0|]; [|lia]. exfalso.
  unfold ready in Hrd. rewrite Hs in Hrd. unfold available in Hrd.
  rewrite (proj2 (Z.ltb_lt 0 _) H0), !Z.land_lor_distr_r, !Z.lor_eq_0_iff in Hrd.
  destruct Hrd as (_ & R1 & R2 & _). unfold waits_to_read, intersects in Hw.
  rewrite Z.land_lor_distr_r, R1, R2 in Hw. done.
Qed.

(** C33: a poll of event descriptors that waits has left its waker with every
    descriptor it waits to read, and the next accepted write to any of them
    wakes it: on a descriptor without [EFD_SEMAPHORE] the write calls every
    waker that is left there; on one with [EFD_SEMAPHORE] a write of [c] calls
    the first [c] of them, so the poller when it is among these. *)
Theorem write_wakes_poller w fds m fds' m' p s c w' :
  poll_events w fds m = Done (Pending, fds') m' -> p ∈ fds -> waits_to_read (events p) = true ->
  m !! fd p = Some s -> 0 <= counter (state s) -> 0 <= c < u64_max ->
  exists s1 s2, m' !! fd p = Some s1 /\ w ∈ read_queue (state s1) /\
    write_poll c w' s1 = Done (Ready (Ok 8)) s2 /\ counter (state s2) = c /\
    woken s2 = woken s1 ++ (if contains (flags s) EFD_SEMAPHORE then take (Z.to_nat c) (read_queue (state s1))
                            else read_queue (state s1)).
Proof.
  intros E Hin Hw Hs Hc0 Hc. destruct (poll_each_run w fds m) as (m1 & E1 & Hp & Hr).
  unfold poll_events, poll_fds in E. rewrite (bind_run _ _ _ _ _ E1) in E. cbv [ret] in E.
  destruct (Z.ltb_spec 0 (hits m fds)) as [|Hz]; [done|]. injection E as <- <-.
  assert (Hz0 : hits m fds = 0) by (unfold hits in *; lia).
  pose proof (hits_zero m fds p Hz0 Hin) as Hrd. pose proof (Hp (fd p)) as Hm. rewrite Hs in Hm.
  destruct (m1 !! fd p) as [s1|] eqn:Es1; [|done]. destruct Hm as (C1 & F1 & _ & _).
  pose proof (not_ready_empty m p s Hrd Hw Hs Hc0) as Hcz.
  assert (Hlt : (c <? u64_max - 0) = true) by (apply Z.ltb_lt; lia).
  set (s0 := set_counter (0 + c) s1).
  exists s1, (if contains (flags s) EFD_SEMAPHORE then wake_some c (read_queue (state s1)) s0 else wake_all s0).
  split; [done|]. split; [apply (Hr p Hin Hw Hrd s1 Es1)|].
  unfold write_poll. cbv [bind get modify ret]. rewrite C1, F1, Hcz, Hlt.
  destruct (contains (flags s) EFD_SEMAPHORE); (split; [done|]).
  - destruct (wake_some_state c (read_queue (state s1)) s0) as (-> & _). by rewrite wake_some_woken.
  - by rewrite wake_all_state.
Qed.

Section SysPoll.
Context {W O B : Type} `{Backoff B}.
Variable get_object : Z -> M W (io_result O).
Variable poll_object : O -> Z -> M W (Poll (io_result Z)).
Variable try_tick : M (W * list PollFd) bool.
Variable now_micros : M (W * list PollFd) Z.
Variable wait : option Z -> M (W * list PollFd) unit.
Variable clock : W * list PollFd -> Z.
Variables rate slack : Z.
Variable ok : W * list PollFd -> Prop.

Lemma poll_each_bound fds : forall w n fds' w',
  poll_each get_object poll_object fds w = Done (n, fds') w' ->
  0 <= n <= Z.of_nat (length fds).
Proof.
  induction fds as [|p fds IH]; intros w n fds' w' E; cbn [poll_each] in E.
  { injection E as <- _ _. cbn. lia. }
  apply bind_Done in E as (obj & w1 & _ & E). apply bind_Done in E as ([hit q] & w2 & E1 & E).
  apply bind_Done in E as ([k rest] & w3 & E2 & E). injection E as <- _ _.
  apply IH in E2. assert (0 <= hit <= 1); [|cbn [length]; lia].
  destruct obj as [o|e]; [|injection E1 as <- _ _; lia].
  apply bind_Done in E1 as (a & w4 & _ & E1).
  destruct a as [[e|e]|]; [destruct (e =? 0)| |]; injection E1 as <- _ _; lia.
Qed.

(** What the future can answer. *)
Lemma poll_fds_ready (w w' : W * list PollFd) r :
  poll_fds_future get_object poll_object w = Done (Ready r) w' ->
  exists n, r = Ok n /\ 0 < n <= Z.of_nat (length w.2).
Proof.
  destruct w as [v fds]. unfold poll_fds_future, poll_fds. cbv [bind ret].
  destruct (poll_each _ _ fds v) as [[n fds1] v1|] eqn:E; [|done].
  destruct (Z.ltb_spec 0 n); [|done]. intros [= <- <-]. exists n. split; [done|].
  apply poll_each_bound in E. cbn. lia.
Qed.

(** [sys_poll] with a timeout on any descriptors comes back: with the positive
    number of descriptors that have events, or, when none came in time, with 0;
    the 0 is made from the error [ETIME], which [fd::poll] itself hands out for
    a timeout. *)
Theorem sys_poll_answers timeout fuel w :
  calls_ok try_tick (poll_fds_future get_object poll_object) now_micros wait clock rate slack ok ->
  (forall w, ok w -> Z.of_nat (length w.2) <= i32_max) ->
  ok w -> 0 <= timeout <= i32_max ->
  (2 * (timeout * 1000) + 2) * rate + 8 * slack < 2 ^ 64 * rate ->
  (timeout * 1000 + 1) * rate < Z.of_nat fuel ->
  exists n w', sys_poll get_object poll_object try_tick now_micros wait fuel timeout w = Done (Some n) w' /\
    (0 < n \/ n = 0 /\
       fd_poll get_object poll_object try_tick now_micros wait fuel (poll_timeout timeout) w = Done (Some (Err Errno.Time)) w').
Proof.
  intros C Hlen Hw Ht Hlim Hf. unfold sys_poll, fd_poll, poll_timeout.
  rewrite (proj2 (Z.leb_le 0 timeout)) by lia.
  assert (Ed : timeout * 1000000 / 1000 = timeout * 1000).
  { replace (timeout * 1000000) with (timeout * 1000 * 1000) by lia. by rewrite Z.div_mul. }
  destruct (block_on_ends _ _ _ _ _ _ _ _ C (timeout * 1000000) fuel w) as (r & w' & E & Hr & _);
    rewrite ?Ed; try done; [lia|unfold u64_max, i32_max in *; lia|].
  rewrite (bind_run _ _ w (Some (poll_answer (Some (timeout * 1000000)) r)) w')
    by (by rewrite (bind_run _ _ _ _ _ E)).
  rewrite (bind_run _ _ _ _ _ E). cbv [ret bind fmap option_fmap option_map].
  destruct Hr as [->|(w1 & w2 & Hok & Hp)].
  - exists 0, w'. split; [done|]. by right.
  - destruct (poll_fds_ready _ _ _ Hp) as (n & -> & Hn). exists n, w'. cbn [poll_answer].
    pose proof (Hlen w1 Hok). unfold poll_return. rewrite (proj2 (Z.leb_le n i32_max)) by lia.
    split; [done|]. left. lia.
Qed.
End SysPoll.

(** ** Witnesses *)

Lemma write_wakes_poller_witness :
  exists s1 s2,
    EventFd.mk (mkState 0 [9] []) 0 [] = s1 /\ write_poll 4 1 s1 = Done (Ready (Ok 8)) s2 /\ woken s2 = [9].
Proof.
  destruct (write_wakes_poller 9 [mkPollFd 5 POLLIN 0] {[ 5 := EventFd.new 0 0 ]}
    [mkPollFd 5 POLLIN 0] {[ 5 := EventFd.mk (mkState 0 [9] []) 0 [] ]} (mkPollFd 5 POLLIN 0) (EventFd.new 0 0) 4 1)
    as (s1 & s2 & E1 & _ & E2 & _ & Hw).
  - reflexivity.
  - by left.
  - done.
  - done.
  - done.
  - unfold u64_max. lia.
  - cbn in E1. rewrite lookup_singleton_eq in E1. injection E1 as <-. eauto.
Defined.

(** Blocking on no descriptor in a world that is only a clock. *)
Global Instance unit_backoff : Backoff unit := {
  backoff_new := tt; is_completed _ := true; snooze _ := tt; reset _ := tt;
}.

Definition clock_now : M (Z * list PollFd) Z := fun '(c, l) => Done (wrapu 64 (c / 1)) (c + 1, l).
Definition clock_wait (t : option Z) : M (Z * list PollFd) unit := fun '(c, l) => Done tt (c + default 0 t, l).

Lemma clock_calls_ok :
  calls_ok (ret false) (poll_fds_future (fun _ => ret (Err Errno.Badf)) (fun (_ : unit) _ => ret Pending))
    clock_now clock_wait fst 1 1 (fun w => w.2 = []).
Proof.
  split; [lia| | | |].
  - intros [c l] Hl. cbn in Hl. subst l. exists Pending, (c, []). cbn. split; [done|]. split; [done|lia].
  - intros [c l] Hl. exists false, (c, l). cbn. split; [done|]. split; [done|lia].
  - intros us [c l] Hl Hu. exists (c + us, l). cbn. split; [done|]. split; [done|lia].
  - intros [c l] Hl. exists (c + 1, l). cbn. split; [done|]. split; [done|lia].
Qed.

Lemma sys_poll_answers_witness :
  exists n w', sys_poll (fun _ => ret (Err Errno.Badf)) (fun (_ : unit) _ => ret Pending) (ret false)
      clock_now clock_wait 1100 1 (0, []) = Done (Some n) w' /\ n = 0.
Proof.
  destruct (sys_poll_answers (fun _ => ret (Err Errno.Badf)) (fun (_ : unit) _ => ret Pending) (ret false)
    clock_now clock_wait fst 1 1 (fun w => w.2 = []) 1 1100 (0, []) clock_calls_ok) as (n & w' & E & Hn);
    [|done|unfold i32_max; lia|lia|lia|].
  { intros w ->. cbn. unfold i32_max. lia. }
  exists n, w'. split; [done|]. vm_compute in E. by injection E as <- <-.
Defined.

Lemma block_on_bounded_witness :
  exists r w', block_on (ret false) (poll_fds_future (fun _ => ret (Err Errno.Badf)) (fun (_ : unit) _ => ret Pending))
      clock_now clock_wait 10 (Some 5000) (0, []) = Done (Some r) w' /\ fst w' <= 18.
Proof.
  destruct (block_on_bounded (ret false)
    (poll_fds_future (fun _ => ret (Err Errno.Badf)) (fun (_ : unit) _ => ret Pending))
    clock_now clock_wait fst 1 1 (fun w => w.2 = []) clock_calls_ok 5000 10 (0, [])) as (r & w' & E & _ & Hc);
    [done|lia|vm_compute; done|vm_compute; done|vm_compute; done|].
  exists r, w'. split; [done|]. exact Hc.
Defined.

Lemma notify_before_wait_witness :
  exists w' : Futex.world Pool HandleQueue.t Kernel.t,
    (do! notify_wakes 3 64 in wait_enter 64 (Some 100))
      (Futex.mkWorld ∅ HandleQueue.pool_used (fun _ => 0) SynchKernel.demo) =
    Done (Futex.Answered (neg_errno Errno.Again)) w'.
Proof.
  destruct (notify_before_wait 2 64 (Some 100)
    (Futex.mkWorld ∅ HandleQueue.pool_used (fun _ => 0) SynchKernel.demo)) as (w' & E & _); [done|].
  by exists w'.
Defined.
End PollProps.
