(* ===== verification/Memory.v ===== *)
(** Physical and virtual memory on top of paging: the allocators of frames and
    pages ([src/src/mm/physicalmem.rs], [virtualmem.rs], [device_alloc.rs]), the
    mapping functions of [src/src/mm/mod.rs] and the system calls of
    [src/src/syscalls/mman.rs].  The free lists come from the crate [free_list]
    and are a parameter. *)

From S2P Require Import Prelude Errors Paging PagingMap PagingProps.
Open Scope Z_scope.

(** What is used of [free_list].  A range is given by start and end; an
    operation that fails answers [None]. *)
Class FreeLists (F : Type) : Type := {
  layout_ok : Z -> Z -> bool; (** [PageLayout::from_size_align] gives a layout *)
  range_ok : Z -> Z -> bool; (** [PageRange::new] gives a range *)
  fl_allocate : F -> Z -> Z -> option (Z * F);
  fl_allocate_at : F -> Z -> Z -> option F;
  fl_deallocate : F -> Z -> Z -> option F;
}.

Global Instance free_list_frames {F} `{FreeLists F} : Paging.FrameAlloc F := {
  Paging.allocate a size align := fl_allocate a size align;
}.

Module Memory.
Import Paging PagingTree PagingMap PagingProps.

Definition PROT_Read : Z := 1.
Definition PROT_Write : Z := 2.
Definition PROT_Exec : Z := 4.
Definition contains (flags f : Z) : bool := Z.land flags f =? f.

(** [usize::align_up] and [align_down] to a power of two. *)
Definition align_down (x a : Z) : Z := x - x mod a.
Definition align_up (x a : Z) : Z := align_down (wrapu 64 (x + (a - 1))) a.

(** [PageRange::containing] and [PageRange::and]: the bounds the range is made from. *)
Definition containing (start stop : Z) : Z * Z := (align_down start 4096, align_up stop 4096).
Definition range_and (a b : Z * Z) : Z * Z := (Z.max a.1 b.1, Z.min a.2 b.2).

(** [kernel_heap_end] and the range [virtualmem::init] makes available. *)
Definition kernel_heap_end : Z := 0xFFFFFFFFFFFF.
Definition div_ceil (x y : Z) : Z := (x + y - 1) / y.
Definition page_alloc_range : Z * Z := (div_ceil kernel_heap_end 2, kernel_heap_end + 1).

Section Code.
Context {F : Type} `{FreeLists F}.

(** [PHYSICAL_FREE_LIST] is the allocator of the machine. *)
Record t : Type := mk {
  mach : Paging.t F;
  KERNEL_FREE_LIST : F;
  PROT_NONE_FREE_LIST : F;
}.

Definition set_mach (x : Paging.t F) (s : t) : t := mk x (KERNEL_FREE_LIST s) (PROT_NONE_FREE_LIST s).
Definition set_KERNEL_FREE_LIST (x : F) (s : t) : t := mk (mach s) x (PROT_NONE_FREE_LIST s).
Definition set_PROT_NONE_FREE_LIST (x : F) (s : t) : t := mk (mach s) (KERNEL_FREE_LIST s) x.
Definition on_mach {A} (m : M (Paging.t F) A) : M t A := zoom mach set_mach m.

(** [PageLayout::from_size(size).unwrap()] and [PageRange::new(..).unwrap()] *)
Definition layout_unwrap (size : Z) : M t unit := assert_ (layout_ok size 4096) "called `Result::unwrap()`".
Definition range_unwrap (start stop : Z) : M t unit := assert_ (range_ok start stop) "called `Result::unwrap()`".

(** ** The allocators *)

Definition FrameAlloc_allocate (size align : Z) : M t (option Z) :=
  let! s := get in
  match fl_allocate (alloc (mach s)) size align with
  | Some (start, f) => do! modify (set_mach (set_alloc f (mach s))) in ret (Some start)
  | None => ret None
  end.
Definition FrameAlloc_allocate_at (start stop : Z) : M t bool :=
  let! s := get in
  match fl_allocate_at (alloc (mach s)) start stop with
  | Some f => do! modify (set_mach (set_alloc f (mach s))) in ret true
  | None => ret false
  end.
Definition FrameAlloc_deallocate (start stop : Z) : M t unit :=
  let! s := get in
  let! f := unwrap (fl_deallocate (alloc (mach s)) start stop) "called `Result::unwrap()`" in
  modify (set_mach (set_alloc f (mach s))).

Definition PageAlloc_allocate (size align : Z) : M t (option Z) :=
  let! s := get in
  match fl_allocate (KERNEL_FREE_LIST s) size align with
  | Some (start, f) => do! modify (set_KERNEL_FREE_LIST f) in ret (Some start)
  | None => ret None
  end.
Definition PageAlloc_allocate_at (start stop : Z) : M t bool :=
  let! s := get in
  match fl_allocate_at (KERNEL_FREE_LIST s) start stop with
  | Some f => do! modify (set_KERNEL_FREE_LIST f) in ret true
  | None => ret false
  end.
Definition PageAlloc_deallocate (start stop : Z) : M t unit :=
  let! s := get in
  let! f := unwrap (fl_deallocate (KERNEL_FREE_LIST s) start stop) "called `Result::unwrap()`" in
  modify (set_KERNEL_FREE_LIST f).

(** [virtualmem::init] *)
Definition PageAlloc_init : M t unit :=
  do! range_unwrap page_alloc_range.1 page_alloc_range.2 in
  PageAlloc_deallocate page_alloc_range.1 page_alloc_range.2.

(** [DeviceAlloc]; its offset is 0 unless built with [careful]. *)
Definition DeviceAlloc_allocate (layout_size layout_align : Z) : M t (option Z) :=
  do! assert_ (layout_align <=? 4096) "layout.align() <= BasePageSize::SIZE" in
  let size := align_up layout_size 4096 in
  do! layout_unwrap size in
  FrameAlloc_allocate size 4096.
Definition DeviceAlloc_deallocate (ptr layout_size layout_align : Z) : M t unit :=
  do! assert_ (layout_align <=? 4096) "layout.align() <= BasePageSize::SIZE" in
  let size := align_up layout_size 4096 in
  do! range_unwrap ptr (ptr + size) in
  FrameAlloc_deallocate ptr (ptr + size).

(** ** Mapping *)

(** [map_frame_range], page by page. *)
Fixpoint identity_map_pages (n : nat) (addr : Z) : M (Paging.t F) unit :=
  match n with
  | O => ret tt
  | S n => do! identity_map BasePageSize addr in identity_map_pages n (addr + 4096)
  end.
Definition map_frame_range (start stop : Z) : M t unit :=
  let start := align_down start 4096 in
  let stop := align_up stop 4096 in
  on_mach (identity_map_pages (Z.to_nat ((stop - start) / 4096)) start).

(** [mm::map] and [mm::unmap] *)
Definition map_flags (is_writable no_execution no_cache : bool) : Z :=
  let flags := normal 0 in
  let flags := if is_writable then writable flags else flags in
  let flags := if no_execution then execute_disable flags else flags in
  if no_cache then device flags else flags.

Definition mm_map (physical_address size : Z) (is_writable no_execution no_cache : bool) : M t Z :=
  let size := align_up size 4096 in
  let count := size / 4096 in
  do! layout_unwrap size in
  let! r := PageAlloc_allocate size 4096 in
  let! virtual_address := unwrap r "called `Result::unwrap()`" in
  do! on_mach (map BasePageSize virtual_address physical_address count (map_flags is_writable no_execution no_cache)) in
  ret virtual_address.

Definition mm_unmap (virtual_address size : Z) : M t unit :=
  let size := align_up size 4096 in
  let! pa := on_mach (virtual_to_physical virtual_address) in
  match pa with
  | Some _ =>
      do! on_mach (unmap BasePageSize virtual_address (size / 4096)) in
      do! range_unwrap virtual_address (virtual_address + size) in
      PageAlloc_deallocate virtual_address (virtual_address + size)
  | None => panic "No page table entry for virtual address"
  end.

(** ** System calls *)

Definition protection_flags (prot_flags : Z) : Z :=
  let flags := writable (normal 0) in
  let flags := if contains prot_flags PROT_Write then writable flags else flags in
  if negb (contains prot_flags PROT_Exec) then execute_disable flags else flags.

(** The answer and the address stored through [ret]. *)
Definition sys_mmap (size prot_flags : Z) : M t (Z * Z) :=
  let size := align_up size 4096 in
  do! layout_unwrap size in
  let! r := PageAlloc_allocate size 4096 in
  let! virtual_address := unwrap r "called `Result::unwrap()`" in
  if prot_flags =? 0 then
    let! s := get in
    let! f := unwrap (fl_deallocate (PROT_NONE_FREE_LIST s) virtual_address (virtual_address + size))
                "called `Result::unwrap()`" in
    do! modify (set_PROT_NONE_FREE_LIST f) in
    ret (0, virtual_address)
  else
    do! layout_unwrap size in
    let! r := FrameAlloc_allocate size 4096 in
    let! physical_address := unwrap r "called `Result::unwrap()`" in
    let count := size / 4096 in
    do! on_mach (map BasePageSize virtual_address physical_address count (protection_flags prot_flags)) in
    ret (0, virtual_address).

Definition sys_munmap (virtual_address size : Z) : M t Z :=
  let size := align_up size 4096 in
  let stop := virtual_address + size in
  do! range_unwrap virtual_address stop in
  let! s := get in
  match fl_allocate_at (PROT_NONE_FREE_LIST s) virtual_address stop with
  | Some f => do! modify (set_PROT_NONE_FREE_LIST f) in ret 0
  | None =>
      let! pa := on_mach (virtual_to_physical virtual_address) in
      do! match pa with
          | Some physical_address =>
              do! on_mach (unmap BasePageSize virtual_address (size / 4096)) in
              do! range_unwrap physical_address (physical_address + size) in
              FrameAlloc_deallocate physical_address (physical_address + size)
          | None => ret tt
          end in
      do! PageAlloc_deallocate virtual_address stop in
      ret 0
  end.

Definition sys_mprotect (virtual_address size prot_flags : Z) : M t Z :=
  let count := size / 4096 in
  let flags := protection_flags prot_flags in
  let! pa := on_mach (virtual_to_physical virtual_address) in
  match pa with
  | Some physical_address =>
      do! on_mach (map BasePageSize virtual_address physical_address count flags) in
      ret 0
  | None =>
      do! layout_unwrap size in
      let! r := FrameAlloc_allocate size 4096 in
      let! physical_address := unwrap r "called `Result::unwrap()`" in
      do! on_mach (map BasePageSize virtual_address physical_address count flags) in
      ret 0
  end.

(** Nothing is swapped. *)
Definition sys_mlock (addr size : Z) : M t Z := ret 0.
Definition sys_munlock (addr size : Z) : M t Z := ret 0.
Definition sys_mlockall (flags : Z) : M t Z := ret 0.
Definition sys_munlockall (flags : Z) : M t Z := ret 0.
End Code.
Arguments t F : clear implicits.
Arguments mk {F} _ _ _.

(** ** Properties *)

Lemma protection_flags_ok prot :
  Z.land (protection_flags prot) FLAGS = protection_flags prot /\ protection_flags prot <> 0 /\
  Z.land (protection_flags prot) READ_ONLY = 0.
Proof. unfold protection_flags. destruct (contains prot PROT_Write), (contains prot PROT_Exec); done. Qed.

Section Props.
Context {F : Type} {FL : FreeLists F} {FO : FrameAllocOk F}.

Lemma on_mach_run {A} (m : M (Paging.t F) A) (s : t F) a m' :
  m (mach s) = Done a m' -> on_mach m s = Done a (set_mach m' s).
Proof. intros E. unfold on_mach. by rewrite (zoom_run _ _ _ _ _ _ E). Qed.

(** What [map] does to the translations, as the callers need it. *)
Lemma map_translation (m : Paging.t F) T va pa n fl :
  wf m T -> map_args m va pa n fl -> fl <> 0 ->
  exists m' T', map BasePageSize va pa n fl m = Done tt m' /\ wf m' T' /\ alloc_ok (alloc m') /\
    forall va', user va' -> translate m' va' =
      if (va <=? va') && (va' <? va + n * 4096) then Some (pa + (va' - va)) else translate m va'.
Proof.
  intros W Ha H0. destruct (map_run m T va pa n fl W Ha) as (m' & T' & E & Mr & _).
  exists m', T'. split; [done|]. split; [apply Mr|]. split; [apply (r_wf _ _ _ _ _ Mr)|]. intros va' Hu.
  rewrite (translate_entry m' T') by (done || apply Mr). rewrite (translate_entry m T) by done.
  rewrite (r_entry _ _ _ _ _ Mr va' Hu). destruct (in_range va va' (va + n * 4096)) as [Hin|Hin].
  - destruct (map_change_address m va pa n fl va' Ha H0 Hin) as (e & Ee & Ea). rewrite Ee. cbn. by rewrite Ea.
  - unfold map_change. by destruct (in_range va va' (va + n * 4096)).
Qed.

(** A mapping of whole pages with some access: the system call takes a range of
    addresses and as many frames, answers 0 and the address, and then exactly
    that range translates, to those frames in order. *)
Theorem mmap_maps (s : t F) T size prot va pl pa f :
  let n := align_up size 4096 / 4096 in
  layout_ok (align_up size 4096) 4096 = true -> prot <> 0 ->
  fl_allocate (KERNEL_FREE_LIST s) (align_up size 4096) 4096 = Some (va, pl) ->
  fl_allocate (alloc (mach s)) (align_up size 4096) 4096 = Some (pa, f) ->
  wf (set_alloc f (mach s)) T -> map_args (set_alloc f (mach s)) va pa n (protection_flags prot) ->
  exists m', sys_mmap size prot s = Done (0, va) (mk m' pl (PROT_NONE_FREE_LIST s)) /\
    forall va', user va' -> translate m' va' =
      if (va <=? va') && (va' <? va + n * 4096) then Some (pa + (va' - va)) else translate (mach s) va'.
Proof.
  intros n Hl Hp Ev Ef W Ha.
  destruct (map_translation _ T va pa n _ W Ha (proj1 (proj2 (protection_flags_ok prot)))) as (m' & T' & E & _ & _ & Tr).
  exists m'. split; [|exact Tr]. unfold sys_mmap, layout_unwrap, PageAlloc_allocate, FrameAlloc_allocate.
  rewrite Hl, (proj2 (Z.eqb_neq prot 0) Hp). cbv [bind get modify ret assert_ unwrap]. rewrite Ev.
  cbn [set_KERNEL_FREE_LIST mach]. rewrite Ef. cbn [set_mach]. unfold on_mach, zoom. fold n.
  change (mach (set_mach (set_alloc f (mach s)) (set_KERNEL_FREE_LIST pl s))) with (set_alloc f (mach s)).
  by rewrite E.
Qed.

(** Changing the protection rebinds: whatever frames the pages of the region
    had, afterwards they are the frames that follow the one of the first page;
    and whatever protection was asked for, no entry forbids writing. *)
Theorem mprotect_rebinds (s : t F) T va size prot pa :
  let n := size / 4096 in
  wf (mach s) T -> map_args (mach s) va pa n (protection_flags prot) ->
  translate (mach s) va = Some pa ->
  exists m', sys_mprotect va size prot s = Done 0 (set_mach m' s) /\
    (forall va', user va' -> translate m' va' =
       if (va <=? va') && (va' <? va + n * 4096) then Some (pa + (va' - va)) else translate (mach s) va') /\
    (forall i, 0 <= i < n -> exists e,
       get_page_table_entry BasePageSize (va + i * 4096) m' = Done (Some e) m' /\ Z.land e READ_ONLY = 0).
Proof.
  intros n W Ha Et. pose proof (protection_flags_ok prot) as (_ & Hnz & Hro).
  pose proof (ma_va _ _ _ _ _ Ha) as (Hv & Hm & Hb). pose proof (ma_count _ _ _ _ _ Ha) as Hn.
  destruct (map_run (mach s) T va pa n _ W Ha) as (m' & T' & E & Mr & _).
  assert (Ev : virtual_to_physical va (mach s) = Done (Some pa) (mach s)).
  { rewrite <- Et. apply (virtual_to_physical_run (mach s) T va W). unfold user. lia. }
  exists m'. split; [|split].
  - unfold sys_mprotect. rewrite (bind_run _ _ _ _ _ (on_mach_run _ s _ _ Ev)).
    fold n. unfold on_mach, zoom. cbv [bind ret]. change (mach (set_mach (mach s) s)) with (mach s).
    by rewrite E.
  - intros va' Hu. destruct (map_translation _ T va pa n _ W Ha Hnz) as (m2 & T2 & E2 & _ & _ & Tr).
    assert (m2 = m') as -> by congruence. by apply Tr.
  - intros i Hi. assert (Hu : user (va + i * 4096)) by (unfold user; lia).
    rewrite (get_page_table_entry_run m' T') by (apply Mr || done || by rewrite Z.mod_add by lia).
    rewrite (r_entry _ _ _ _ _ Mr _ Hu). unfold map_change.
    destruct (in_range va (va + i * 4096) (va + n * 4096)); [|lia].
    set (pa' := pa + _). set (fl := if contiguous_part _ _ _ then _ else _).
    assert (Hpa : frame pa').
    { pose proof (ma_pa _ _ _ _ _ Ha) as (P0 & P1 & P2). unfold frame, pa'. rewrite Z.mod_add by lia.
      replace (va + i * 4096 - va) with (i * 4096) by lia. rewrite Z.div_mul by lia. lia. }
    assert (Hfl : Z.land fl READ_ONLY = 0 /\ fl <> 0).
    { unfold fl. destruct (contiguous_part _ _ _); [|done].
      rewrite Z.land_lor_distr_l, Hro, !Z.lor_eq_0_iff. split; [done|]. by intros []. }
    unfold new_entry. rewrite (proj2 (Z.eqb_neq fl 0) (proj2 Hfl)). eexists. split; [done|].
    unfold entry_of, insert_flag. rewrite !Z.land_lor_distr_l, (proj1 Hfl).
    assert (Z.land pa' READ_ONLY = 0) as ->; [|done].
    apply Z.bits_inj'. intros j Hj. rewrite Z.land_spec, Z.bits_0.
    destruct (decide (j = 7)) as [->|]; [by rewrite (frame_bits pa' 7) by (try done; lia)|].
    change READ_ONLY with (2 ^ 7). rewrite Z.pow2_bits_false by lia. apply andb_false_r.
Qed.

(** Less than a page: the system call panics for a mapped address. *)
Lemma mprotect_small_panics (s : t F) T va size prot pa :
  wf (mach s) T -> 4096 <= va -> user va -> va mod 4096 = 0 -> translate (mach s) va = Some pa -> 0 <= size < 4096 ->
  exists why, sys_mprotect va size prot s = Panic why.
Proof.
  intros W Hv Hu Hm Et Hs.
  assert (Ev : virtual_to_physical va (mach s) = Done (Some pa) (mach s)).
  { rewrite <- Et. by apply (virtual_to_physical_run (mach s) T va W). }
  unfold sys_mprotect. rewrite (bind_run _ _ _ _ _ (on_mach_run _ s _ _ Ev)).
  rewrite Z.div_small by lia. exists "first.virtual_address <= last.virtual_address"%string.
  unfold on_mach, zoom, map, GROUP_SIZE. cbv [bind ret].
  change (0 <? 16) with true. unfold map_few, get_page_range, including_address, is_valid_address.
  cbn [SIZE BasePageSize]. change (wrapu 64 (wrapu 64 (0 - 1) * 4096)) with (2 ^ 64 - 4096).
  unfold user in Hu. assert (Ew : wrapu 64 (va + (2 ^ 64 - 4096)) = va - 4096).
  { unfold wrapu. replace (va + (2 ^ 64 - 4096)) with (va - 4096 + 1 * 2 ^ 64) by lia.
    rewrite Z.mod_add by lia. apply Z.mod_small. lia. }
  rewrite Ew. cbv [bind ret assert_]. rewrite (proj2 (Z.ltb_lt va 0x1000000000000)) by lia.
  rewrite (proj2 (Z.ltb_lt (va - 4096) 0x1000000000000)) by lia. unfold page_range. cbv [bind ret assert_].
  assert (El : (va - va mod 4096 <=? va - 4096 - (va - 4096) mod 4096) = false).
  { replace (va - 4096) with (va + (-1) * 4096) at 2 by lia. rewrite Z.mod_add by lia. lia. }
  by rewrite El.
Qed.

(** A region without access is given back to no one: [mmap] takes its addresses
    from the page allocator, [munmap] only forgets that they are inaccessible;
    the page allocator stays without them. *)
Theorem munmap_none_leaks (s : t F) size va pl q1 q2 :
  layout_ok (align_up size 4096) 4096 = true ->
  range_ok va (va + align_up size 4096) = true ->
  fl_allocate (KERNEL_FREE_LIST s) (align_up size 4096) 4096 = Some (va, pl) ->
  fl_deallocate (PROT_NONE_FREE_LIST s) va (va + align_up size 4096) = Some q1 ->
  fl_allocate_at q1 va (va + align_up size 4096) = Some q2 ->
  (let! r := sys_mmap size 0 in let! r' := sys_munmap va size in ret (r, r')) s =
  Done ((0, va), 0) (mk (mach s) pl q2).
Proof.
  intros Hl Hr Ea Ed Eq. unfold sys_mmap, sys_munmap, layout_unwrap, range_unwrap, PageAlloc_allocate.
  cbv [bind get modify ret assert_ unwrap]. rewrite Hl, Ea. change (0 =? 0) with true. cbv beta iota.
  change (PROT_NONE_FREE_LIST (set_KERNEL_FREE_LIST pl s)) with (PROT_NONE_FREE_LIST s). rewrite Ed, Hr.
  change (PROT_NONE_FREE_LIST (set_PROT_NONE_FREE_LIST q1 (set_KERNEL_FREE_LIST pl s))) with q1. by rewrite Eq.
Qed.
End Props.

(** The addresses [virtualmem::init] gives the page allocator include the window
    of the recursive entry, with the root table at its end. *)
Lemma page_alloc_covers_tables :
  page_alloc_range.1 <= 511 * 2 ^ 39 /\ L0TABLE_ADDRESS + 4096 <= page_alloc_range.2.
Proof. split; vm_compute; congruence. Qed.

(** ** Witnesses *)

(** Ranges handed out one after the other: the next page and how many are left;
    only the range handed out last can be given back. *)
Record stack_list : Type := sl { next_page : Z; pages_left : nat }.

Global Instance stack_free_lists : FreeLists stack_list := {
  layout_ok size align := (0 <? size) && (size mod 4096 =? 0) && (align =? 4096);
  range_ok start stop := (start <? stop) && (start mod 4096 =? 0) && (stop mod 4096 =? 0);
  fl_allocate a size _ :=
    let n := Z.to_nat (size / 4096) in
    if (0 <? size) && (size mod 4096 =? 0) && (n <=? pages_left a)%nat
    then Some (next_page a, sl (next_page a + size) (pages_left a - n)) else None;
  fl_allocate_at a start stop :=
    let n := Z.to_nat ((stop - start) / 4096) in
    if (start =? next_page a) && (n <=? pages_left a)%nat then Some (sl stop (pages_left a - n)) else None;
  fl_deallocate a start stop :=
    if (stop =? next_page a) || (pages_left a =? 0)%nat
    then Some (sl start (pages_left a + Z.to_nat ((stop - start) / 4096))) else None;
}.

Global Program Instance stack_ok : FrameAllocOk stack_list := {
  owned a q := next_page a <= q < next_page a + Z.of_nat (pages_left a) * 4096;
  room a := pages_left a;
  alloc_ok a := 0 <= next_page a /\ next_page a mod 4096 = 0 /\ next_page a + Z.of_nat (pages_left a) * 4096 <= 2 ^ 48;
}.
Next Obligation.
  intros [f [|k]]; cbn [next_page pages_left]; [lia|]. intros (H0 & Hm & Hb) _. exists f, (sl (f + 4096) k).
  split; [by destruct k|].
  split; [unfold frame; lia|]. assert (Hm' : (f + 4096) mod 4096 = 0) by (Z.div_mod_to_equations; lia).
  cbn [next_page pages_left]. split; [lia|]. split; [done|]. split; intros q; lia.
Qed.

Definition boot_machine (f : stack_list) : Paging.t stack_list := Paging.mk boot_phys 4096 f.

Lemma boot_machine_wf f : 8192 <= next_page f -> next_page f mod 4096 = 0 -> next_page f + Z.of_nat (pages_left f) * 4096 <= 2 ^ 48 ->
  wf (boot_machine f) {[ [] := 4096 ]}.
Proof.
  intros Hf Hm Hb. destruct boot_wf as [W1 W2 _ _]. split; [exact W1|exact W2|cbn [alloc_ok stack_ok alloc boot_machine]; lia|].
  intros q p g Ho. rewrite lookup_singleton_Some. intros [<- <-]. cbn in Ho. lia.
Qed.

(** Sixty-four free frames, free addresses from 2^47 on. *)
Definition boot_memory : t stack_list := mk (boot_machine (sl (8192) 64)) (sl (2 ^ 47) 100) (sl (0) 0).

Lemma mmap_maps_witness :
  exists m', sys_mmap 5000 PROT_Read boot_memory = Done (0, 2 ^ 47) (mk m' (sl (2 ^ 47 + 8192) 98) (sl (0) 0)) /\
    translate m' (2 ^ 47 + 4096) = Some 12288.
Proof.
  destruct (mmap_maps boot_memory {[ [] := 4096 ]} 5000 PROT_Read (2 ^ 47) (sl (2 ^ 47 + 8192) 98) 8192 (sl (16384) 62))
    as (m' & E & Tr); try reflexivity; [done| | |].
  - apply boot_machine_wf; cbn; [lia|reflexivity|lia].
  - split; [reflexivity| | |reflexivity|vm_compute; congruence].
    + split; [lia|]. split; [reflexivity|]. vm_compute. congruence.
    + split; [lia|]. split; [reflexivity|]. vm_compute. congruence.
  - exists m'. split; [exact E|]. rewrite Tr by (unfold user; lia). vm_compute. reflexivity.
Defined.

Lemma munmap_none_leaks_witness :
  (let! r := sys_mmap 4096 0 in let! r' := sys_munmap (2 ^ 47) 4096 in ret (r, r')) boot_memory =
  Done ((0, 2 ^ 47), 0) (mk (mach boot_memory) (sl (2 ^ 47 + 4096) 99) (sl (2 ^ 47 + 4096) 0)).
Proof.
  apply (munmap_none_leaks boot_memory 4096 (2 ^ 47) (sl (2 ^ 47 + 4096) 99) (sl (2 ^ 47) 1)); reflexivity.
Defined.

(** Two pages mapped to frames that are not neighbours. *)
Lemma two_pages : exists (m : Paging.t stack_list) T, wf m T /\ (10 <= room (alloc m))%nat /\
  translate m 0x10000 = Some 0x40000000 /\ translate m 0x11000 = Some (0x70000000 : Z).
Proof.
  assert (Ha : forall (m : Paging.t stack_list) va pa, (10 <= room (alloc m))%nat ->
    va = 0x10000 \/ va = 0x11000 -> pa = 0x40000000 \/ pa = 0x70000000 ->
    map_args m va pa 1 data_flags).
  { intros m va pa Hr Hva Hpa. split; [lia| | |reflexivity|cbn [room stack_ok] in *; lia].
    - split; [lia|]. split; [destruct Hva; subst; reflexivity|lia].
    - split; [lia|]. split; [destruct Hpa; subst; reflexivity|lia]. }
  destruct (map_run (boot_machine (sl (8192) 64)) {[ [] := 4096 ]} 0x10000 0x40000000 1 data_flags) as (m1 & T1 & E1 & M1 & R1).
  { apply boot_machine_wf; cbn; [lia|reflexivity|lia]. }
  { apply Ha; [cbn [room stack_ok alloc boot_machine pages_left]; lia|by left|by left]. }
  cbn [alloc boot_machine room stack_ok pages_left] in R1.
  destruct (map_run m1 T1 0x11000 0x70000000 1 data_flags) as (m2 & T2 & E2 & M2 & R2).
  { apply M1. }
  { apply Ha; [cbn [room stack_ok] in *; lia|by right|by right]. }
  exists m2, T2. split; [apply M2|]. split; [cbn [room stack_ok] in *; lia|].
  assert (U1 : user 0x10000) by (unfold user; lia). assert (U2 : user 0x11000) by (unfold user; lia).
  rewrite (translate_entry m2 T2 _ (r_wf _ _ _ _ _ M2) U1), (translate_entry m2 T2 _ (r_wf _ _ _ _ _ M2) U2).
  rewrite (r_entry _ _ _ _ _ M2 _ U1), (r_entry _ _ _ _ _ M2 _ U2).
  split; [|reflexivity].
  change (map_change 0x11000 0x70000000 1 data_flags 0x10000) with (@None (option Z)). cbv beta iota.
  rewrite (r_entry _ _ _ _ _ M1 _ U1). reflexivity.
Qed.

Lemma mprotect_rebinds_witness :
  exists (s s' : t stack_list),
    translate (mach s) 0x11000 = Some 0x70000000 /\ sys_mprotect 0x10000 8192 PROT_Read s = Done 0 s' /\
    translate (mach s') 0x11000 = Some 0x40001000.
Proof.
  destruct two_pages as (m & T & W & Hr & T1 & T2). set (s := mk m (sl (2 ^ 47) 100) (sl (0) 0)).
  destruct (mprotect_rebinds s T 0x10000 8192 PROT_Read 0x40000000) as (m' & E & Tr & _); [exact W| |exact T1|].
  - split; [reflexivity| | |reflexivity|change (8192 / 4096) with 2; change (mach s) with m; cbn [room stack_ok] in *; lia].
    + split; [lia|]. split; [reflexivity|]. vm_compute. congruence.
    + split; [lia|]. split; [reflexivity|]. vm_compute. congruence.
  - exists s, (set_mach m' s). split; [exact T2|]. split; [exact E|].
    cbn [mach set_mach]. rewrite Tr by (unfold user; lia). reflexivity.
Defined.
End Memory.
