(* ===== verification/IndexAlloc.v ===== *)
(** The allocator of descriptor indices of the virtqueues, [index_alloc] of
    [src/src/drivers/virtio/virtqueue/mod.rs]: one bit per index, from the most
    significant bit of each 64-bit word down; zero bits are available. *)

From S2P Require Import Prelude.

Module IndexAlloc.

Definition USIZE_BITS : nat := 64.
Definition LEADING_ONE : Z := 2 ^ 63.

(** The words of [bits]. *)
Notation t := (list Z).

(** [usize::leading_ones] *)
Fixpoint ones_below (n : nat) (w : Z) : nat :=
  match n with
  | O => O
  | S n => if Z.testbit w (Z.of_nat n) then S (ones_below n w) else O
  end.
Definition leading_ones (w : Z) : nat := ones_below 64 w.

Definition new (len : nat) : t :=
  let usizes := ((len + 63) / USIZE_BITS)%nat in
  let extra_bits := (len mod USIZE_BITS)%nat in
  let bits := replicate usizes 0 in
  if (extra_bits =? 0)%nat then bits
  else <[(usizes - 1)%nat := Z.shiftr u64_max (Z.of_nat extra_bits)]> bits.

(** The loop of [allocate] over the words from number [word_index] on. *)
Fixpoint allocate_from (word_index : nat) (bits : t) : option (nat * t) :=
  match bits with
  | [] => None
  | word :: rest =>
      let bit := leading_ones word in
      if (USIZE_BITS <=? bit)%nat then
        match allocate_from (S word_index) rest with
        | Some (index, rest) => Some (index, word :: rest)
        | None => None
        end
      else
        let mask := Z.shiftr LEADING_ONE (Z.of_nat bit) in
        Some ((word_index * USIZE_BITS + bit)%nat, Z.lor word mask :: rest)
  end.
Definition allocate (bits : t) : option (nat * t) := allocate_from 0 bits.

(** [get_unchecked_mut]: the index is one of the words. *)
Definition deallocate (index : nat) (bits : t) : t :=
  let word_index := (index / USIZE_BITS)%nat in
  let mask := Z.shiftr LEADING_ONE (Z.of_nat (index mod USIZE_BITS)) in
  alter (fun w => Z.ldiff w mask) word_index bits.

(** ** The set of indices in use *)

Definition taken (bits : t) (i : nat) : bool :=
  Z.testbit (bits !!! (i / 64)%nat) (63 - Z.of_nat (i mod 64)).

(** [bits] has room for [len] indices and those of [used] are taken; the bits
    past the last index are set. *)
Record repr (len : nat) (bits : t) (used : gset nat) : Prop := {
  repr_length : length bits = ((len + 63) / 64)%nat;
  repr_used i : (i < len)%nat -> taken bits i = true <-> i ∈ used;
  repr_past i : (len <= i < 64 * length bits)%nat -> taken bits i = true;
  repr_bound i : i ∈ used -> (i < len)%nat;
}.

Lemma ones_below_spec n w :
  (ones_below n w <= n)%nat /\
  (forall k, (n - ones_below n w <= k < n)%nat -> Z.testbit w (Z.of_nat k) = true) /\
  ((ones_below n w < n)%nat -> Z.testbit w (Z.of_nat (n - 1 - ones_below n w)) = false).
Proof.
  induction n as [|n (IH1 & IH2 & IH3)]; cbn [ones_below]; [split; [lia|split; intros; lia]|].
  destruct (Z.testbit w (Z.of_nat n)) eqn:E.
  - split; [lia|]. split.
    + intros k Hk. destruct (decide (k = n)) as [->|]; [done|]. apply IH2. lia.
    + intros Hk. replace (S n - 1 - S (ones_below n w))%nat with (n - 1 - ones_below n w)%nat by lia. apply IH3. lia.
  - split; [lia|]. split; [intros; lia|]. intros _. by replace (S n - 1 - 0)%nat with n by lia.
Qed.

(** The bit of an index as a power of two. *)
Lemma index_mask k : (k < 64)%nat -> Z.shiftr LEADING_ONE (Z.of_nat k) = 2 ^ (63 - Z.of_nat k).
Proof.
  intros Hk. unfold LEADING_ONE. rewrite Z.shiftr_div_pow2 by lia.
  replace (2 ^ 63) with (2 ^ (63 - Z.of_nat k) * 2 ^ Z.of_nat k) by (rewrite <- Z.pow_add_r by lia; f_equal; lia).
  apply Z.div_mul. lia.
Qed.

Lemma testbit_pow a b : 0 <= a -> 0 <= b -> Z.testbit (2 ^ a) b = bool_decide (a = b).
Proof.
  intros Ha Hb. destruct (decide (a = b)) as [->|Hne].
  - rewrite bool_decide_true by done. by apply Z.pow2_bits_true.
  - rewrite bool_decide_false by done. by apply Z.pow2_bits_false.
Qed.

Lemma allocate_from_spec bits : forall m,
  match allocate_from m bits with
  | None => forall k j, (k < length bits)%nat -> (j < 64)%nat -> Z.testbit (bits !!! k) (63 - Z.of_nat j) = true
  | Some (i, bits') => exists k j, i = ((m + k) * 64 + j)%nat /\ (k < length bits)%nat /\ (j < 64)%nat /\
      bits' = <[k := Z.lor (bits !!! k) (2 ^ (63 - Z.of_nat j))]> bits /\
      Z.testbit (bits !!! k) (63 - Z.of_nat j) = false /\
      (forall k' j', (k' < length bits)%nat -> (j' < 64)%nat -> (k' * 64 + j' < k * 64 + j)%nat ->
         Z.testbit (bits !!! k') (63 - Z.of_nat j') = true)
  end.
Proof.
  induction bits as [|w rest IH]; intros m; cbn [allocate_from]; [intros k j Hk; cbn in Hk; lia|].
  destruct (ones_below_spec 64 w) as (O1 & O2 & O3). fold (leading_ones w) in O1, O2, O3.
  unfold USIZE_BITS. destruct (Nat.leb_spec 64 (leading_ones w)) as [Hl|Hl].
  - assert (Hw : forall j, (j < 64)%nat -> Z.testbit w (63 - Z.of_nat j) = true).
    { intros j Hj. replace (63 - Z.of_nat j) with (Z.of_nat (63 - j)) by lia. apply O2. lia. }
    specialize (IH (S m)). destruct (allocate_from (S m) rest) as [[i rest']|].
    + destruct IH as (k & j & -> & Hk & Hj & -> & Hf & Hu). exists (S k), j. cbn [length].
      split; [lia|]. split; [lia|]. split; [done|]. split; [done|]. split; [done|].
      intros [|k'] j' Hk' Hj' Hlt; [by apply Hw|]. apply Hu; lia.
    + intros [|k] j Hk Hj; [by apply Hw|]. apply IH; [cbn in Hk; lia|done].
  - exists O, (leading_ones w). rewrite index_mask by lia. cbn [length].
    split; [lia|]. split; [lia|]. split; [done|]. split; [done|]. split.
    + replace (63 - Z.of_nat (leading_ones w)) with (Z.of_nat (64 - 1 - leading_ones w)) by lia. by apply O3.
    + intros [|k'] j' Hk' Hj' Hlt; [|lia]. cbn.
      replace (63 - Z.of_nat j') with (Z.of_nat (63 - j')) by lia. apply O2. lia.
Qed.

(** Indices by word and bit. *)
Lemma taken_at bits k j : (j < 64)%nat -> taken bits (k * 64 + j) = Z.testbit (bits !!! k) (63 - Z.of_nat j).
Proof.
  intros Hj. unfold taken. replace ((k * 64 + j) / 64)%nat with k.
  - replace ((k * 64 + j) mod 64)%nat with j; [done|]. rewrite Nat.add_comm, Nat.Div0.mod_add. symmetry. by apply Nat.mod_small.
  - rewrite Nat.add_comm, Nat.div_add by lia. by rewrite Nat.div_small by lia.
Qed.

Lemma index_split i : exists k j, i = (k * 64 + j)%nat /\ (j < 64)%nat.
Proof. exists (i / 64)%nat, (i mod 64)%nat. pose proof (Nat.div_mod_eq i 64). pose proof (Nat.mod_upper_bound i 64). lia. Qed.

(** Changing one bit of one word. *)
Lemma taken_change bits k j f b :
  (k < length bits)%nat -> (j < 64)%nat ->
  (forall z, 0 <= z -> Z.testbit (f (bits !!! k)) z = if decide (z = 63 - Z.of_nat j) then b else Z.testbit (bits !!! k) z) ->
  forall i, taken (<[k := f (bits !!! k)]> bits) i = if decide (i = k * 64 + j)%nat then b else taken bits i.
Proof.
  intros Hk Hj Hf i. destruct (index_split i) as (k' & j' & -> & Hj'). rewrite !taken_at by done.
  destruct (decide (k' = k)) as [->|Hne].
  - rewrite list_lookup_total_insert_eq by done. rewrite Hf by lia.
    destruct (decide (63 - Z.of_nat j' = 63 - Z.of_nat j)) as [E|E], (decide ((k * 64 + j')%nat = (k * 64 + j)%nat)); try done; lia.
  - rewrite list_lookup_total_insert_ne by done. by destruct (decide _); [lia|].
Qed.

Lemma allocate_spec len bits used :
  repr len bits used ->
  match allocate bits with
  | None => forall i, (i < len)%nat -> i ∈ used
  | Some (i, bits') => (i < len)%nat /\ i ∉ used /\ (forall j, (j < i)%nat -> j ∈ used) /\
      repr len bits' ({[ i ]} ∪ used)
  end.
Proof.
  intros [RL RU RP RB]. unfold allocate. pose proof (allocate_from_spec bits 0) as S.
  assert (Hlen : (len <= 64 * length bits)%nat).
  { rewrite RL. pose proof (Nat.div_mod_eq (len + 63) 64). pose proof (Nat.mod_upper_bound (len + 63) 64). lia. }
  destruct (allocate_from 0 bits) as [[i bits']|].
  - destruct S as (k & j & -> & Hk & Hj & -> & Hf & Hu). cbn [Nat.add]. rewrite <- taken_at in Hf by done.
    assert (Hi : (k * 64 + j < len)%nat).
    { destruct (le_lt_dec len (k * 64 + j)) as [Hle|]; [|done]. rewrite RP in Hf by lia. done. }
    pose proof (taken_change bits k j (fun w => Z.lor w (2 ^ (63 - Z.of_nat j))) true Hk Hj) as TC. cbv beta in TC.
    assert (Hbit : forall z, 0 <= z -> Z.testbit (Z.lor (bits !!! k) (2 ^ (63 - Z.of_nat j))) z =
      if decide (z = 63 - Z.of_nat j) then true else Z.testbit (bits !!! k) z).
    { intros z Hz. rewrite Z.lor_spec, testbit_pow by lia.
      destruct (decide (z = 63 - Z.of_nat j)) as [->|Hne]; [rewrite bool_decide_true by done; apply orb_true_r|].
      rewrite bool_decide_false by lia. apply orb_false_r. }
    specialize (TC Hbit). split; [done|]. split; [rewrite <- RU by done; by rewrite Hf|]. split.
    + intros i' Hi'. apply RU; [lia|]. destruct (index_split i') as (k' & j' & -> & Hj').
      rewrite taken_at by done. apply Hu; lia.
    + split.
      * by rewrite length_insert.
      * intros i Hl. rewrite TC. destruct (decide (i = _)) as [->|Hne]; [set_solver|]. rewrite RU by done. set_solver.
      * intros i Hl. rewrite length_insert in Hl. rewrite TC. destruct (decide _); [done|]. by apply RP.
      * intros i [->%elem_of_singleton|Hin]%elem_of_union; [done|]. by apply RB.
  - intros i Hi. apply RU; [done|]. destruct (index_split i) as (k & j & -> & Hj). rewrite taken_at by done.
    apply S; lia.
Qed.

Lemma deallocate_spec len bits used i :
  repr len bits used -> (i < len)%nat -> repr len (deallocate i bits) (used ∖ {[ i ]}).
Proof.
  intros [RL RU RP RB] Hi.
  assert (Hlen : (len <= 64 * length bits)%nat).
  { rewrite RL. pose proof (Nat.div_mod_eq (len + 63) 64). pose proof (Nat.mod_upper_bound (len + 63) 64). lia. }
  destruct (index_split i) as (k & j & -> & Hj). unfold deallocate, USIZE_BITS.
  assert (Ek : ((k * 64 + j) / 64)%nat = k) by (rewrite Nat.add_comm, Nat.div_add by lia; by rewrite Nat.div_small by lia).
  assert (Ej : ((k * 64 + j) mod 64)%nat = j).
  { rewrite Nat.add_comm, Nat.Div0.mod_add. by apply Nat.mod_small. }
  rewrite Ek, Ej, index_mask by done. assert (Hk : (k < length bits)%nat) by lia.
  assert (Ea : alter (fun w => Z.ldiff w (2 ^ (63 - Z.of_nat j))) k bits =
    <[k := Z.ldiff (bits !!! k) (2 ^ (63 - Z.of_nat j))]> bits).
  { rewrite list_insert_alter. apply list_alter_ext; [|done]. intros x Hx. by rewrite (list_lookup_total_correct _ _ _ Hx). }
  rewrite Ea. pose proof (taken_change bits k j (fun w => Z.ldiff w (2 ^ (63 - Z.of_nat j))) false Hk Hj) as TC. cbv beta in TC.
  assert (Hbit : forall z, 0 <= z -> Z.testbit (Z.ldiff (bits !!! k) (2 ^ (63 - Z.of_nat j))) z =
    if decide (z = 63 - Z.of_nat j) then false else Z.testbit (bits !!! k) z).
  { intros z Hz. rewrite Z.ldiff_spec, testbit_pow by lia.
    destruct (decide (z = 63 - Z.of_nat j)) as [->|Hne]; [rewrite bool_decide_true by done; apply andb_false_r|].
    rewrite bool_decide_false by lia. apply andb_true_r. }
  specialize (TC Hbit). split.
  - by rewrite length_insert.
  - intros i Hl. rewrite TC. destruct (decide (i = _)) as [->|Hne]; [set_solver|]. rewrite RU by done. set_solver.
  - intros i Hl. rewrite length_insert in Hl. rewrite TC. destruct (decide (i = _)) as [->|]; [lia|]. by apply RP.
  - intros i' Hin. apply RB. set_solver.
Qed.

(** A new allocator has all indices free. *)
Lemma new_spec len : repr len (new len) ∅.
Proof.
  pose proof (Nat.div_mod_eq (len + 63) 64) as D1. pose proof (Nat.mod_upper_bound (len + 63) 64 ltac:(lia)) as D2.
  pose proof (Nat.div_mod_eq len 64) as D3. pose proof (Nat.mod_upper_bound len 64 ltac:(lia)) as D4.
  set (n := ((len + 63) / 64)%nat) in *.
  assert (Hnew : forall k j, (k < n)%nat -> (j < 64)%nat ->
    Z.testbit (new len !!! k) (63 - Z.of_nat j) = (len <=? k * 64 + j)%nat).
  { intros k j Hk Hj. unfold new, USIZE_BITS. fold n. destruct (Nat.eqb_spec (len mod 64) 0) as [E|E].
    - rewrite lookup_total_replicate_2 by done. rewrite Z.bits_0. symmetry. apply Nat.leb_gt. lia.
    - destruct (decide (k = (n - 1)%nat)) as [->|Hne].
      + rewrite list_lookup_total_insert_eq by (rewrite length_replicate; lia).
        rewrite Z.shiftr_spec by lia. unfold u64_max. change (2 ^ 64 - 1) with (Z.ones 64).
        destruct (Nat.leb_spec len ((n - 1) * 64 + j)).
        * apply Z.ones_spec_low. lia.
        * apply Z.ones_spec_high. lia.
      + rewrite list_lookup_total_insert_ne, lookup_total_replicate_2 by lia. rewrite Z.bits_0.
        symmetry. apply Nat.leb_gt. lia. }
  assert (Hlen : length (new len) = n).
  { unfold new, USIZE_BITS. fold n. destruct (len mod 64 =? 0)%nat; [|rewrite length_insert]; apply length_replicate. }
  assert (Ht : forall i, (i < 64 * n)%nat -> taken (new len) i = (len <=? i)%nat).
  { intros i Hi. destruct (index_split i) as (k & j & -> & Hj). rewrite taken_at by done. apply Hnew; lia. }
  clear Hnew. split; [done| | |intros i Hi; by apply elem_of_empty in Hi].
  - intros i Hi. rewrite Ht by lia. rewrite (proj2 (Nat.leb_gt len i)) by lia.
    split; [done|]. intros Hin. by apply elem_of_empty in Hin.
  - intros i Hi. rewrite Hlen in Hi. rewrite Ht by lia. apply Nat.leb_le. lia.
Qed.

(** ** Runs *)

Inductive op : Type := Allocate | Deallocate (i : nat).

Fixpoint run (ops : list op) (bits : t) : list (option nat) * t :=
  match ops with
  | [] => ([], bits)
  | Allocate :: ops =>
      match allocate bits with
      | Some (i, bits) => let '(l, bits) := run ops bits in (Some i :: l, bits)
      | None => let '(l, bits) := run ops bits in (None :: l, bits)
      end
  | Deallocate i :: ops => let '(l, bits) := run ops (deallocate i bits) in (None :: l, bits)
  end.

(** The least number from [i] on that is not in the set, among the next [n]. *)
Fixpoint least_free (n i : nat) (used : gset nat) : option nat :=
  match n with
  | O => None
  | S n => if decide (i ∈ used) then least_free n (S i) used else Some i
  end.

(** What the allocator promises: the least free index below [len]. *)
Fixpoint spec_run (len : nat) (ops : list op) (used : gset nat) : list (option nat) * gset nat :=
  match ops with
  | [] => ([], used)
  | Allocate :: ops =>
      match least_free len 0 used with
      | Some i => let '(l, used) := spec_run len ops ({[ i ]} ∪ used) in (Some i :: l, used)
      | None => let '(l, used) := spec_run len ops used in (None :: l, used)
      end
  | Deallocate i :: ops => let '(l, used) := spec_run len ops (used ∖ {[ i ]}) in (None :: l, used)
  end.

Lemma least_free_Some n i used k :
  (i <= k < i + n)%nat -> k ∉ used -> (forall j, (i <= j < k)%nat -> j ∈ used) -> least_free n i used = Some k.
Proof.
  revert i. induction n as [|n IH]; intros i Hk Hf Hu; [lia|]. cbn [least_free].
  destruct (decide (i = k)) as [->|Hne]; [by rewrite decide_False|].
  rewrite decide_True by (apply Hu; lia). apply IH; [lia|done|]. intros j Hj. apply Hu. lia.
Qed.

Lemma least_free_None n i used : (forall j, (i <= j < i + n)%nat -> j ∈ used) -> least_free n i used = None.
Proof.
  revert i. induction n as [|n IH]; intros i Hu; [done|]. cbn [least_free].
  rewrite decide_True by (apply Hu; lia). apply IH. intros j Hj. apply Hu. lia.
Qed.

Lemma run_spec len ops : forall bits used,
  repr len bits used -> Forall (fun o => match o with Deallocate i => (i < len)%nat | _ => True end) ops ->
  (run ops bits).1 = (spec_run len ops used).1 /\ repr len (run ops bits).2 (spec_run len ops used).2.
Proof.
  induction ops as [|[|i] ops IH]; intros bits used R Ho; cbn [run spec_run]; [done| |];
    apply Forall_cons_1 in Ho as [Ho Hos].
  - pose proof (allocate_spec len bits used R) as S. destruct (allocate bits) as [[i bits']|].
    + destruct S as (Hi & Hf & Hu & R'). rewrite (least_free_Some len 0 used i); [|lia|done|intros; apply Hu; lia].
      destruct (IH bits' _ R' Hos) as [E1 E2]. destruct (run ops bits'), (spec_run len ops _). cbn in *. by rewrite E1.
    + rewrite (least_free_None len 0 used) by (intros; apply S; lia).
      destruct (IH bits used R Hos) as [E1 E2]. destruct (run ops bits), (spec_run len ops used). cbn in *. by rewrite E1.
  - destruct (IH _ _ (deallocate_spec len bits used i R Ho) Hos) as [E1 E2].
    destruct (run ops (deallocate i bits)), (spec_run len ops _). cbn in *. by rewrite E1.
Qed.

(** The bit vector implements a set of indices: any sequence of allocations and
    releases of valid indices on a new allocator answers as "the least free
    index below [len], if there is one" does; in particular no index is handed
    out twice, none lies outside, and none is refused while one is free. *)
Theorem index_alloc_refines len ops :
  Forall (fun o => match o with Deallocate i => (i < len)%nat | _ => True end) ops ->
  (run ops (new len)).1 = (spec_run len ops ∅).1.
Proof. intros Ho. by apply (run_spec len ops (new len) ∅ (new_spec len)). Qed.

Lemma index_alloc_refines_witness :
  (run [Allocate; Allocate; Deallocate 0; Allocate; Allocate; Allocate] (new 3)).1 =
  [Some 0; Some 1; None; Some 0; Some 2; None]%nat.
Proof.
  rewrite (index_alloc_refines 3 [Allocate; Allocate; Deallocate 0; Allocate; Allocate; Allocate]).
  - vm_compute. reflexivity.
  - repeat constructor.
Defined.
End IndexAlloc.
