(* ===== verification/Virtq.v ===== *)
(** What split and packed virtqueues share,
    [src/src/drivers/virtio/virtqueue/mod.rs]: buffers, tokens, descriptors and
    the list of descriptors a buffer is described by.  Addresses of buffers are
    those of [DeviceAlloc], physical and virtual alike. *)

From S2P Require Import Prelude Errors.

Module Virtq.

Inductive VirtqError : Set :=
  | General
  | BufferNotSpecified
  | QueueNotExisting (index : Z)
  | NoDescrAvail
  | BufferToLarge
  | QueueSizeNotAllowed (size : Z)
  | FeatureNotSupported (features : Z)
  | AllocationError
  | IncompleteWrite
  | NoNewUsed.

(** [From<VirtqError> for Errno] *)
Definition errno_of (e : VirtqError) : Errno.t := Errno.Io.

(** [virtq::DescF], the flags of a descriptor. *)
Record DescF : Set := mkF { NEXT : bool; WRITE : bool; INDIRECT : bool; AVAIL : bool; USED : bool }.
Definition DescF_empty : DescF := mkF false false false false false.
Definition DescF_WRITE : DescF := mkF false true false false false.
Definition DescF_INDIRECT : DescF := mkF false false true false false.
Definition with_NEXT (b : bool) (f : DescF) : DescF := mkF b (WRITE f) (INDIRECT f) (AVAIL f) (USED f).
Definition with_AVAIL (b : bool) (f : DescF) : DescF := mkF (NEXT f) (WRITE f) (INDIRECT f) b (USED f).
Definition with_USED (b : bool) (f : DescF) : DescF := mkF (NEXT f) (WRITE f) (INDIRECT f) (AVAIL f) b.

(** [virtq::Desc] ([link] is its [next]) and [pvirtq::Desc] ([link] is its [id]). *)
Record Desc : Set := mkDesc { d_addr : Z; d_len : Z; d_flags : DescF; d_link : Z }.
Definition incomplete_desc (addr len : Z) (flags : DescF) : Desc := mkDesc addr len flags 0.
Definition set_flags (f : DescF) (d : Desc) : Desc := mkDesc (d_addr d) (d_len d) f (d_link d).
Definition set_link (x : Z) (d : Desc) : Desc := mkDesc (d_addr d) (d_len d) (d_flags d) x.

(** An element is an object or a vector of bytes, at an address. *)
Inductive BufferElem : Set :=
  | Sized (addr size : Z)
  | Vector (addr length capacity : Z).

Definition size_u32 {S} (n : Z) : M S Z :=
  if n <=? u32_max then ret n else panic "called `Result::unwrap()`".
Definition elem_len {S} (e : BufferElem) : M S Z :=
  match e with Sized _ size => size_u32 size | Vector _ length _ => size_u32 length end.
Definition elem_capacity {S} (e : BufferElem) : M S Z :=
  match e with Sized _ size => size_u32 size | Vector _ _ capacity => size_u32 capacity end.
Definition as_ptr (e : BufferElem) : Z :=
  match e with Sized addr _ => addr | Vector addr _ _ => addr end.

Record AvailBufferToken : Set := mkToken { send_buff : list BufferElem; recv_buff : list BufferElem }.

Definition AvailBufferToken_new (send recv : list BufferElem) : Result VirtqError AvailBufferToken :=
  match send, recv with
  | [], [] => Err BufferNotSpecified
  | _, _ => Ok (mkToken send recv)
  end.

Definition num_descr {S} (t : AvailBufferToken) : M S Z :=
  let n := Z.of_nat (length (send_buff t) + length (recv_buff t)) in
  if n <? 65536 then ret n else panic "called `Result::unwrap()`".

Inductive BufferType : Set := Direct | Indirect.

(** [ctrl_desc] is the indirect table, a box at an address. *)
Record TransferToken : Set := mkTransfer { buff_tkn : AvailBufferToken; ctrl_desc : option (Z * list Desc) }.

Definition num_consuming_descr {S} (t : TransferToken) : M S Z :=
  match ctrl_desc t with Some _ => ret 1 | None => num_descr (buff_tkn t) end.

(** [UsedDeviceWritableBuffer] and [UsedBufferToken] *)
Record UsedBuffer : Set := mkUsed { elems : list BufferElem; remaining_written_len : Z }.
Record UsedBufferToken : Set := mkUsedToken { u_send_buff : list BufferElem; used_recv_buff : UsedBuffer }.

Definition from_avail_buffer_token (t : AvailBufferToken) (written_len : Z) : UsedBufferToken :=
  mkUsedToken (send_buff t) (mkUsed (recv_buff t) written_len).

(** Taking the first element: [swap_remove(0)] for one or two elements,
    [remove(0)] otherwise; a panic when there is none. *)
Definition pop_elem {S} (l : list BufferElem) : M S (BufferElem * list BufferElem) :=
  match l with
  | [] => panic "index out of bounds"
  | e :: rest => ret (e, rest)
  end.

(** [pop_front_downcast] for an object of [size] bytes, up to the type. *)
Definition pop_front_downcast {S} (size : Z) (b : UsedBuffer) : M S (option Z * UsedBuffer) :=
  let! size := size_u32 size in
  if remaining_written_len b <? size then ret (None, b)
  else
    let! '(e, rest) := pop_elem (elems b) in
    match e with
    | Vector _ _ _ => panic "Attempted to pop elements in order different from insertion"
    | Sized addr n =>
        if n =? size then ret (Some addr, mkUsed rest (remaining_written_len b - size))
        else panic "Attempted to downcast element to wrong type"
    end.

Definition pop_front_vec {S} (b : UsedBuffer) : M S (option BufferElem * UsedBuffer) :=
  match elems b with
  | [] => ret (None, b)
  | _ =>
      let! '(e, rest) := pop_elem (elems b) in
      match e with
      | Sized _ _ => panic "Attempted to pop elements in order different from insertion"
      | Vector addr _ capacity =>
          let! c := size_u32 capacity in
          let new_len := Z.min c (remaining_written_len b) in
          ret (Some (Vector addr new_len capacity), mkUsed rest (remaining_written_len b - new_len))
      end
  end.

Definition pop_front_raw {S} (b : UsedBuffer) : M S (option (Z * Z) * UsedBuffer) :=
  let! '(e, rest) := pop_elem (elems b) in
  match e with
  | Vector _ _ _ => panic "This function is meant for the Sized variant of the BufferElem enum."
  | Sized addr size =>
      let! capacity := size_u32 size in
      let len := Z.min capacity (remaining_written_len b) in
      ret (Some (addr, len), mkUsed rest (remaining_written_len b - len))
  end.

(** ** Descriptors of a buffer *)

Fixpoint send_descs {S} (l : list BufferElem) : M S (list Desc) :=
  match l with
  | [] => ret []
  | e :: l =>
      let! n := elem_len e in
      let! rest := send_descs l in
      ret (incomplete_desc (as_ptr e) n (with_NEXT true DescF_empty) :: rest)
  end.
Fixpoint recv_descs {S} (l : list BufferElem) : M S (list Desc) :=
  match l with
  | [] => ret []
  | e :: l =>
      let! n := elem_capacity e in
      let! rest := recv_descs l in
      ret (incomplete_desc (as_ptr e) n (with_NEXT true DescF_WRITE) :: rest)
  end.

(** The last descriptor loses [NEXT]. *)
Definition descriptor_iter {S} (t : AvailBufferToken) : M S (Result VirtqError (list Desc)) :=
  let! s := send_descs (send_buff t) in
  let! r := recv_descs (recv_buff t) in
  match list.last (s ++ r) with
  | None => ret (Err BufferNotSpecified)
  | Some d => ret (Ok (removelast (s ++ r) ++ [set_flags (with_NEXT false (d_flags d)) d]))
  end.

(** A descriptor for an indirect table: sixteen bytes for each descriptor. *)
Definition indirect_desc (table : Z * list Desc) : Desc :=
  incomplete_desc table.1 (wrapu 32 (16 * Z.of_nat (length table.2))) DescF_INDIRECT.

(** [transfer_token_from_buffer_token]; an indirect table is made by the queue
    and allocated at [addr]. *)
Definition transfer_token {S} (create_indirect_ctrl : AvailBufferToken -> M S (Result VirtqError (list Desc)))
    (addr : Z) (t : AvailBufferToken) (ty : BufferType) : M S TransferToken :=
  match ty with
  | Direct => ret (mkTransfer t None)
  | Indirect =>
      let! r := create_indirect_ctrl t in
      match r with
      | Ok l => ret (mkTransfer t (Some (addr, l)))
      | Err _ => panic "called `Result::unwrap()`"
      end
  end.

(** ** What the device is shown *)

(** A buffer whose elements have sizes of 32 bits, as many as a queue's indices
    can number at most. *)
Definition elem_ok (e : BufferElem) : Prop :=
  match e with Sized _ n => n <= u32_max | Vector _ n c => n <= u32_max /\ c <= u32_max end.
Record token_ok (t : AvailBufferToken) : Prop := {
  ok_send : Forall elem_ok (send_buff t);
  ok_recv : Forall elem_ok (recv_buff t);
  ok_some : (0 < length (send_buff t) + length (recv_buff t))%nat;
  ok_count : Z.of_nat (length (send_buff t) + length (recv_buff t)) < 65536;
}.

Definition initialized (e : BufferElem) : Z := match e with Sized _ n => n | Vector _ n _ => n end.
Definition writable (e : BufferElem) : Z := match e with Sized _ n => n | Vector _ _ c => c end.

(** All but the last descriptor have [NEXT]. *)
Fixpoint link_all (l : list Desc) : list Desc :=
  match l with
  | [] => []
  | [d] => [set_flags (with_NEXT false (d_flags d)) d]
  | d :: l => set_flags (with_NEXT true (d_flags d)) d :: link_all l
  end.
Definition descs_of (t : AvailBufferToken) : list Desc :=
  link_all (((fun e => incomplete_desc (as_ptr e) (initialized e) DescF_empty) <$> send_buff t) ++
            ((fun e => incomplete_desc (as_ptr e) (writable e) DescF_WRITE) <$> recv_buff t)).

(** The descriptors a transfer takes of the queue. *)
Definition tdescs (tk : TransferToken) : list Desc :=
  match ctrl_desc tk with Some table => [indirect_desc table] | None => descs_of (buff_tkn tk) end.
Definition ndesc (tk : TransferToken) : nat := length (tdescs tk).

(** A piece of memory as the device sees it: where, how long, whether it may
    write, whether it is a table of descriptors. *)
Definition view (d : Desc) : Z * Z * bool * bool := (d_addr d, d_len d, WRITE (d_flags d), INDIRECT (d_flags d)).

Lemma size_u32_run {S} n (s : S) : n <= u32_max -> size_u32 n s = Done n s.
Proof. intros Hn. unfold size_u32. by rewrite (proj2 (Z.leb_le n u32_max) Hn). Qed.

Lemma elem_len_run {S} e (s : S) : elem_ok e -> elem_len e s = Done (initialized e) s.
Proof. intros He. destruct e; apply size_u32_run; [done|by destruct He]. Qed.
Lemma elem_capacity_run {S} e (s : S) : elem_ok e -> elem_capacity e s = Done (writable e) s.
Proof. intros He. destruct e; apply size_u32_run; [done|by destruct He]. Qed.

Definition NEXT_on (d : Desc) : Desc := set_flags (with_NEXT true (d_flags d)) d.

Lemma send_descs_run {S} l (s : S) : Forall elem_ok l ->
  send_descs l s = Done (NEXT_on <$> ((fun e => incomplete_desc (as_ptr e) (initialized e) DescF_empty) <$> l)) s.
Proof.
  induction 1 as [|e l He Hl E]; cbn [send_descs]; [done|].
  by rewrite (bind_run _ _ _ _ _ (elem_len_run e s He)), (bind_run _ _ _ _ _ E).
Qed.
Lemma recv_descs_run {S} l (s : S) : Forall elem_ok l ->
  recv_descs l s = Done (NEXT_on <$> ((fun e => incomplete_desc (as_ptr e) (writable e) DescF_WRITE) <$> l)) s.
Proof.
  induction 1 as [|e l He Hl E]; cbn [recv_descs]; [done|].
  by rewrite (bind_run _ _ _ _ _ (elem_capacity_run e s He)), (bind_run _ _ _ _ _ E).
Qed.

Lemma link_all_snoc l d : link_all (l ++ [d]) = (NEXT_on <$> l) ++ [set_flags (with_NEXT false (d_flags d)) d].
Proof. induction l as [|x [|y l] IH]; [done|done|]. cbn [app fmap list_fmap] in *. cbn [link_all] in *. by rewrite IH. Qed.

Lemma link_all_length l : length (link_all l) = length l.
Proof. induction l as [|x [|y l] IH]; [done|done|]. cbn [link_all] in *. cbn [length] in *. by rewrite IH. Qed.

(** The iterator gives the descriptors, all but the last marked [NEXT]. *)
Lemma descriptor_iter_run {S} t (s : S) : token_ok t -> descriptor_iter t s = Done (Ok (descs_of t)) s.
Proof.
  intros [Hs Hr Hn _]. unfold descriptor_iter, descs_of.
  rewrite (bind_run _ _ _ _ _ (send_descs_run _ s Hs)), (bind_run _ _ _ _ _ (recv_descs_run _ s Hr)).
  rewrite <- fmap_app. set (l := _ ++ _). destruct (exists_last (l := l)) as (init & d & Ed).
  { intros E. apply (f_equal length) in E. subst l. rewrite length_app, !length_fmap in E. cbn in E. lia. }
  rewrite Ed, fmap_app, link_all_snoc. cbn [fmap list_fmap]. by rewrite last_snoc, removelast_last.
Qed.

Lemma descs_of_length t : length (descs_of t) = (length (send_buff t) + length (recv_buff t))%nat.
Proof. unfold descs_of. by rewrite link_all_length, length_app, !length_fmap. Qed.

Lemma num_consuming_run {S} tk (s : S) :
  token_ok (buff_tkn tk) -> num_consuming_descr tk s = Done (Z.of_nat (ndesc tk)) s.
Proof.
  intros [_ _ _ Hc]. unfold num_consuming_descr, ndesc, tdescs. destruct (ctrl_desc tk); [done|].
  unfold num_descr. rewrite descs_of_length. by rewrite (proj2 (Z.ltb_lt _ 65536) Hc).
Qed.

Lemma ndesc_pos tk : token_ok (buff_tkn tk) -> (0 < ndesc tk)%nat.
Proof. intros [_ _ Hs _]. unfold ndesc, tdescs. destruct (ctrl_desc tk); [cbn; lia|]. by rewrite descs_of_length. Qed.

(** The chain of a transfer: links up to the last. *)
Lemma tdescs_chain tk : token_ok (buff_tkn tk) ->
  exists init d, tdescs tk = init ++ [d] /\ Forall (fun d => NEXT (d_flags d) = true) init /\
    NEXT (d_flags d) = false /\ d_link d = 0.
Proof.
  intros [_ _ Hs _]. unfold tdescs. destruct (ctrl_desc tk) as [tb|]; [by exists [], (indirect_desc tb)|].
  unfold descs_of. set (l := _ ++ _). assert (Hl0 : Forall (fun d => d_link d = 0) l).
  { apply Forall_app; split; apply Forall_fmap, Forall_true; done. }
  destruct (exists_last (l := l)) as (init & d & Ed).
  { intros E. apply (f_equal length) in E. subst l. rewrite length_app, !length_fmap in E. cbn in E. lia. }
  rewrite Ed in Hl0 |- *. rewrite link_all_snoc. eexists _, _. split; [done|].
  split; [apply Forall_fmap, Forall_true; done|]. split; [done|].
  apply Forall_app in Hl0 as [_ Hl0]. by apply Forall_cons_1 in Hl0 as [Hl0 _].
Qed.

(** The descriptors hold exactly the memory of the elements, in order: those to
    be read first, then those to be written. *)
Lemma descs_of_view t :
  view <$> descs_of t =
  ((fun e => (as_ptr e, initialized e, false, false)) <$> send_buff t) ++
  ((fun e => (as_ptr e, writable e, true, false)) <$> recv_buff t).
Proof.
  unfold descs_of. set (l := _ ++ _).
  assert (Hv : view <$> link_all l = view <$> l).
  { clear. induction l as [|x [|y l] IH]; [done|done|]. cbn [link_all fmap list_fmap] in *. by rewrite IH. }
  rewrite Hv. subst l. rewrite fmap_app, <- !list_fmap_compose. done.
Qed.

(** ** Windows of a ring *)

(** Entry number [c] of a ring of [n] slots. *)
Definition slot (n : nat) (c : Z) : nat := Z.to_nat (c mod Z.of_nat n).

Lemma slot_lt n c : (0 < n)%nat -> (slot n c < n)%nat.
Proof. intros Hn. unfold slot. pose proof (Z.mod_pos_bound c (Z.of_nat n)). lia. Qed.

Lemma slot_inj n a b : (0 < n)%nat -> slot n a = slot n b -> Z.abs (a - b) < Z.of_nat n -> a = b.
Proof.
  intros Hn E Hab. unfold slot in E.
  pose proof (Z.mod_pos_bound a (Z.of_nat n) ltac:(lia)). pose proof (Z.mod_pos_bound b (Z.of_nat n) ltac:(lia)).
  assert (Em : a mod Z.of_nat n = b mod Z.of_nat n) by lia.
  pose proof (Z.div_mod a (Z.of_nat n) ltac:(lia)) as Ea. pose proof (Z.div_mod b (Z.of_nat n) ltac:(lia)) as Eb.
  set (qa := a / _) in *. set (qb := b / _) in *. destruct (Z.lt_trichotomy qa qb) as [?|[E'|?]]; [nia| |nia].
  rewrite E' in Ea. lia.
Qed.

Lemma slot_wrap n c : (0 < n)%nat -> (Z.of_nat n | 65536) -> slot n (wrapu 16 c) = slot n c.
Proof.
  intros Hn Hd. unfold slot, wrapu. f_equal. change (2 ^ 16) with 65536. by apply Z.mod_mod_divide.
Qed.

Section Window.
Context {A : Type}.

(** The ring holds the list [l] from entry [start] on. *)
Definition window (ring : list A) (start : Z) (l : list A) : Prop :=
  forall k x, l !! k = Some x -> ring !! slot (length ring) (start + Z.of_nat k) = Some x.

Lemma window_nil ring start : window ring start [].
Proof. intros k x Hk. by rewrite lookup_nil in Hk. Qed.

Lemma window_tail ring start x l : window ring start (x :: l) -> window ring (start + 1) l.
Proof. intros W k y Hk. replace (start + 1 + Z.of_nat k) with (start + Z.of_nat (S k)) by lia. by apply W. Qed.

Lemma window_head ring start x l : window ring start (x :: l) -> ring !! slot (length ring) start = Some x.
Proof. intros W. specialize (W O x eq_refl). by rewrite Z.add_0_r in W. Qed.

Lemma window_snoc ring start l x :
  window ring start l -> (length l < length ring)%nat ->
  window (<[slot (length ring) (start + Z.of_nat (length l)) := x]> ring) start (l ++ [x]).
Proof.
  intros W Hl k y Hk. rewrite length_insert. apply lookup_app_Some in Hk as [Hk|[Hle Hk]].
  - assert (Hkl : (k < length l)%nat) by by apply lookup_lt_Some in Hk.
    rewrite list_lookup_insert_ne; [by apply W|]. intros E. apply slot_inj in E; lia.
  - apply list_lookup_singleton_Some in Hk as [Hk ->]. replace k with (length l) by lia.
    rewrite list_lookup_insert_eq; [done|]. apply slot_lt. lia.
Qed.
End Window.
End Virtq.
