(* ===== verification/VqSpec.v ===== *)
(** What a virtqueue promises, the contract of the trait [Virtq]
    ([src/src/drivers/virtio/virtqueue/mod.rs]): an abstract queue of buffers on
    their way to the device and back as a labelled transition system, the
    operations of a queue as a type class, its laws as a second one, and
    [dispatch_blocking], the default method of the trait, proved against them. *)

From S2P Require Import Prelude Errors Virtq.
Import Virtq.

Module VqSpec.

(** ** The abstract queue *)

(** Buffers by the number the queue gives them; those the device has not looked
    at, oldest first; those it works on; those it has used, with the length it
    reports, in that order; the number of descriptors that can be taken. *)
Record vq : Type := mkVq {
  inflight : gmap nat TransferToken;
  avail : list nat;
  held : list nat;
  used : list (nat * Z);
  free : nat;
}.

Definition ids (v : vq) : list nat := (used v).*1 ++ held v ++ avail v.

(** Every buffer under way is in exactly one place. *)
Record coherent (v : vq) : Prop := {
  coh_nodup : NoDup (ids v);
  coh_dom id : id ∈ ids v <-> is_Some (inflight v !! id);
  coh_ok id tk : inflight v !! id = Some tk -> token_ok (buff_tkn tk);
}.

Definition empty (n : nat) : vq := mkVq ∅ [] [] [] n.

(** What the driver and the device do, and what they observe. *)
Inductive op : Type :=
  | ODispatch (t : AvailBufferToken) (ty : BufferType) (table : Z)
  | ORecv
  | OFetch
  | OUse (id : nat) (len : Z).

Inductive event : Type :=
  | Dispatched (tk : TransferToken) (r : Result VirtqError unit)
  | Received (r : Result VirtqError UsedBufferToken)
  | Fetched (r : option (nat * list (Z * Z * bool * bool)))
  | Used (id : nat) (len : Z)
  | NotHeld (id : nat).

Inductive step : vq -> event -> vq -> Prop :=
  | step_dispatch v tk id :
      (ndesc tk <= free v)%nat -> inflight v !! id = None ->
      step v (Dispatched tk (Ok tt))
        (mkVq (<[id := tk]> (inflight v)) (avail v ++ [id]) (held v) (used v) (free v - ndesc tk))
  | step_full v tk f :
      (free v < ndesc tk)%nat -> (f <= free v)%nat ->
      step v (Dispatched tk (Err NoDescrAvail)) (mkVq (inflight v) (avail v) (held v) (used v) f)
  | step_recv v id len rest tk :
      used v = (id, len) :: rest -> inflight v !! id = Some tk ->
      step v (Received (Ok (from_avail_buffer_token (buff_tkn tk) len)))
        (mkVq (delete id (inflight v)) (avail v) (held v) rest (free v + ndesc tk))
  | step_recv_none v : used v = [] -> step v (Received (Err NoNewUsed)) v
  | step_fetch v id rest tk :
      avail v = id :: rest -> inflight v !! id = Some tk ->
      step v (Fetched (Some (id, view <$> tdescs tk)))
        (mkVq (inflight v) rest (held v ++ [id]) (used v) (free v))
  | step_fetch_none v : avail v = [] -> step v (Fetched None) v
  | step_use v id len l1 l2 :
      held v = l1 ++ id :: l2 ->
      step v (Used id len) (mkVq (inflight v) (avail v) (l1 ++ l2) (used v ++ [(id, len)]) (free v))
  | step_not_held v id : id ∉ held v -> step v (NotHeld id) v.

Inductive steps : vq -> list event -> vq -> Prop :=
  | steps_nil v : steps v [] v
  | steps_cons v e v1 l v2 : step v e v1 -> steps v1 l v2 -> steps v (e :: l) v2.

Lemma coherent_insert v id tk f :
  coherent v -> inflight v !! id = None -> token_ok (buff_tkn tk) ->
  coherent (mkVq (<[id := tk]> (inflight v)) (avail v ++ [id]) (held v) (used v) f).
Proof.
  intros [Hnd Hdom Hok] Hid Ht. unfold ids in *. cbn.
  assert (Hni : id ∉ (used v).*1 ++ held v ++ avail v).
  { rewrite Hdom, Hid. by intros []. }
  split; unfold ids; cbn.
  - rewrite !app_assoc. apply list.NoDup_app. rewrite <- !app_assoc. split; [done|].
    split; [|apply NoDup_singleton]. set_solver.
  - intros i. rewrite !app_assoc, elem_of_app, <- !app_assoc, Hdom, list_elem_of_singleton.
    destruct (decide (i = id)) as [->|Hne].
    + rewrite lookup_insert_eq. split; [by eexists|by right].
    + rewrite lookup_insert_ne by done. split; [by intros [?|?]|by left].
  - intros i tk'. destruct (decide (i = id)) as [->|Hne]; [rewrite lookup_insert_eq; by intros [= <-]|].
    rewrite lookup_insert_ne by done. apply Hok.
Qed.

Lemma coherent_perm v v' : coherent v -> inflight v' = inflight v -> ids v ≡ₚ ids v' -> coherent v'.
Proof.
  intros [Hnd Hdom Hok] E P. split.
  - by rewrite <- P.
  - intros id. by rewrite <- P, E.
  - intros id tk. rewrite E. apply Hok.
Qed.

(** Coherence is an invariant of the transition system. *)
Lemma step_coherent v e v' :
  coherent v -> step v e v' -> match e with Dispatched tk _ => token_ok (buff_tkn tk) | _ => True end -> coherent v'.
Proof.
  intros C St Ht. destruct St as [v tk id Hn Hid|v tk f _ _|v id len rest tk Hu Hid|v _|v id rest tk Ha Hid|v _|v id len l1 l2 Hh|v id _];
    try done; try by eapply coherent_perm.
  - by apply coherent_insert.
  - destruct C as [Hnd Hdom Hok]. unfold ids in *. rewrite Hu in *. cbn in Hnd. apply list.NoDup_cons in Hnd as [Hni Hnd].
    split; unfold ids; cbn; [done| |].
    + intros i. specialize (Hdom i). cbn in Hdom. destruct (decide (i = id)) as [->|Hne].
      * rewrite lookup_delete_eq. split; [done|by intros []].
      * rewrite lookup_delete_ne by done. rewrite <- Hdom, elem_of_cons. naive_solver.
    + intros i tk' Hi. apply lookup_delete_Some in Hi as [_ Hi]. by eapply Hok.
  - eapply coherent_perm; [done|done|]. unfold ids. cbn. rewrite Ha. by rewrite <- !app_assoc.
  - eapply coherent_perm; [done|done|]. unfold ids. cbn. rewrite Hh, fmap_app, <- !app_assoc. cbn.
    apply Permutation_app_head. symmetry. apply Permutation_middle.
Qed.

(** ** The interface of a queue *)

(** The operations of the trait, and the device's side of the rings: taking the
    next available buffer, and handing one back (section 2.7 and 2.8 of the
    Virtio specification, version 1.2). *)
Class VirtQueue (S : Type) := {
  transfer : AvailBufferToken -> BufferType -> Z -> TransferToken;
  dispatch : AvailBufferToken -> bool -> BufferType -> Z -> M S (Result VirtqError unit);
  try_recv : M S (Result VirtqError UsedBufferToken);
  has_used_buffers : M S bool;
  enable_notifs : M S unit;
  disable_notifs : M S unit;
  device_fetch : M S (option (nat * list (Z * Z * bool * bool)));
  device_use : nat -> Z -> M S bool;
}.

(** A buffer handed back has a length of 32 bits. *)
Definition op_ok (o : op) : Prop :=
  match o with
  | ODispatch t _ _ => token_ok t
  | OUse _ len => in_u 32 len
  | _ => True
  end.

(** The laws: [repr s v] relates the memory and registers of a queue to what is
    under way. *)
Class VirtQueueLaws (S : Type) `{VirtQueue S} (repr : S -> vq -> Prop) : Prop := {
  repr_coherent s v : repr s v -> coherent v;
  dispatch_law s v t ty table :
    repr s v -> token_ok t ->
    exists r s' v', dispatch t false ty table s = Done r s' /\
      step v (Dispatched (transfer t ty table) r) v' /\ repr s' v';
  try_recv_law s v :
    repr s v -> exists r s' v', try_recv s = Done r s' /\ step v (Received r) v' /\ repr s' v';
  has_used_law s v : repr s v -> has_used_buffers s = Done (bool_decide (used v <> [])) s;
  enable_law s v : repr s v -> exists s', enable_notifs s = Done tt s' /\ repr s' v;
  disable_law s v : repr s v -> exists s', disable_notifs s = Done tt s' /\ repr s' v;
  device_fetch_law s v :
    repr s v -> exists r s' v', device_fetch s = Done r s' /\ step v (Fetched r) v' /\ repr s' v';
  device_use_law s v id len :
    repr s v -> in_u 32 len -> exists b s' v', device_use id len s = Done b s' /\
      step v (if b then Used id len else NotHeld id) v' /\ repr s' v';
}.

(** ** Runs *)

Section Runs.
Context {S : Type} `{VirtQueue S}.

Definition perform (o : op) : M S event :=
  match o with
  | ODispatch t ty table =>
      let! r := dispatch t false ty table in ret (Dispatched (transfer t ty table) r)
  | ORecv => let! r := try_recv in ret (Received r)
  | OFetch => let! r := device_fetch in ret (Fetched r)
  | OUse id len => let! b := device_use id len in ret (if b then Used id len else NotHeld id)
  end.
Fixpoint perform_all (ops : list op) : M S (list event) :=
  match ops with
  | [] => ret []
  | o :: ops => let! e := perform o in let! l := perform_all ops in ret (e :: l)
  end.

Context {repr : S -> vq -> Prop} {L : VirtQueueLaws S repr}.

Lemma perform_step s v o :
  repr s v -> op_ok o -> exists e s' v', perform o s = Done e s' /\ step v e v' /\ repr s' v'.
Proof.
  intros R Ho. destruct o as [t ty table| | |id len]; cbn [perform].
  - destruct (dispatch_law s v t ty table R Ho) as (r & s' & v' & E & St & R').
    rewrite (bind_run _ _ _ _ _ E). by eexists _, _, _.
  - destruct (try_recv_law s v R) as (r & s' & v' & E & St & R'). rewrite (bind_run _ _ _ _ _ E). by eexists _, _, _.
  - destruct (device_fetch_law s v R) as (r & s' & v' & E & St & R'). rewrite (bind_run _ _ _ _ _ E). by eexists _, _, _.
  - destruct (device_use_law s v id len R Ho) as (b & s' & v' & E & St & R').
    rewrite (bind_run _ _ _ _ _ E). by eexists _, _, _.
Qed.

Lemma perform_all_steps ops : forall s v,
  repr s v -> Forall op_ok ops ->
  exists l s' v', perform_all ops s = Done l s' /\ steps v l v' /\ repr s' v'.
Proof.
  induction ops as [|o ops IH]; intros s v R Ho; [by eexists [], s, v; split; [|split; [constructor|]]|].
  apply Forall_cons_1 in Ho as [Ho Hos]. cbn [perform_all].
  destruct (perform_step s v o R Ho) as (e & s1 & v1 & E1 & St1 & R1).
  destruct (IH s1 v1 R1 Hos) as (l & s2 & v2 & E2 & St2 & R2).
  rewrite (bind_run _ _ _ _ _ E1), (bind_run _ _ _ _ _ E2).
  eexists _, _, _. split; [done|]. split; [by econstructor|done].
Qed.
End Runs.

(** ** What the transition system says about traces *)

(** The lengths and buffers handed back, and what was received. *)
Definition used_of (l : list event) : list (nat * Z) :=
  omap (fun e => match e with Used id len => Some (id, len) | _ => None end) l.
Definition received_of (l : list event) : list UsedBufferToken :=
  omap (fun e => match e with Received (Ok t) => Some t | _ => None end) l.
Definition accepted_of (l : list event) : list AvailBufferToken :=
  omap (fun e => match e with Dispatched tk (Ok _) => Some (buff_tkn tk) | _ => None end) l.

(** The buffer of a received token. *)
Definition buffer_of (t : UsedBufferToken) : AvailBufferToken := mkToken (u_send_buff t) (elems (used_recv_buff t)).

Lemma buffer_of_from t len : buffer_of (from_avail_buffer_token t len) = t.
Proof. by destruct t. Qed.

(** The buffers under way, as a multiset. *)
Definition under_way (v : vq) : list AvailBufferToken := (fun p => buff_tkn p.2) <$> map_to_list (inflight v).

Lemma step_conserves v e v' : step v e v' ->
  accepted_of [e] ++ under_way v ≡ₚ (buffer_of <$> received_of [e]) ++ under_way v'.
Proof.
  intros St. unfold under_way. destruct St; cbn [inflight accepted_of received_of omap list_omap fmap list_fmap app]; try done.
  - rewrite map_to_list_insert by done. cbn. done.
  - rewrite buffer_of_from. rewrite <- (map_to_list_delete _ _ _ H0) at 1. cbn. done.
Qed.

Lemma omap_cons' {A B} (f : A -> option B) x l : omap f (x :: l) = omap f [x] ++ omap f l.
Proof. cbn. by destruct (f x). Qed.

(** Nothing is lost and nothing is made up: the buffers accepted are those
    received and those under way. *)
Lemma steps_conserve v l v' : steps v l v' ->
  accepted_of l ++ under_way v ≡ₚ (buffer_of <$> received_of l) ++ under_way v'.
Proof.
  induction 1 as [|v e v1 l v2 St _ IH]; [done|].
  apply step_conserves in St. unfold accepted_of, received_of in *. rewrite !(omap_cons' _ e l), fmap_app.
  revert IH St. generalize (under_way v), (under_way v1), (under_way v2). intros w w1 w2. cbv zeta.
  match goal with |- ?x ++ _ ≡ₚ ?y ++ _ -> ?a ++ _ ≡ₚ ?b ++ _ -> _ => generalize x, y, a, b end.
  intros al rl ae re IH St. rewrite <- !app_assoc, <- IH, (app_assoc ae), (Permutation_app_comm ae), <- app_assoc, St.
  rewrite !app_assoc. apply Permutation_app_tail, Permutation_app_comm.
Qed.

(** ** [dispatch_blocking] *)

Section Blocking.
Context {S : Type} `{VirtQueue S}.

(** What the device does between two polls of the loop: it looks for a buffer,
    it hands one back, or it serves the next one at once. *)
Inductive act : Type := AFetch | AUse (id : nat) (len : Z) | AServe (len : Z).

Definition device_serve (len : Z) : M S unit :=
  let! r := device_fetch in
  match r with
  | Some (id, _) => do! device_use id len in ret tt
  | None => ret tt
  end.
Definition device_act (a : act) : M S unit :=
  match a with
  | AFetch => do! device_fetch in ret tt
  | AUse id len => do! device_use id len in ret tt
  | AServe len => device_serve len
  end.
Fixpoint device_acts (l : list act) : M S unit :=
  match l with
  | [] => ret tt
  | a :: l => do! device_act a in device_acts l
  end.
Definition act_ok (a : act) : Prop := match a with AUse _ len | AServe len => in_u 32 len | AFetch => True end.

(** The loop, for as many polls as [sched] has entries: [None] when the loop is
    still spinning then. *)
Fixpoint recv_loop (sched : list (list act)) : M S (option UsedBufferToken) :=
  match sched with
  | [] => ret None
  | acts :: sched =>
      do! device_acts acts in
      let! r := try_recv in
      match r with
      | Ok t => ret (Some t)
      | Err _ => recv_loop sched
      end
  end.

Definition dispatch_blocking (sched : list (list act)) (t : AvailBufferToken) (ty : BufferType) (table : Z)
    : M S (Result VirtqError (option UsedBufferToken)) :=
  let! r := dispatch t false ty table in
  match r with
  | Err e => ret (Err e)
  | Ok _ =>
      do! disable_notifs in
      let! o := recv_loop sched in
      match o with
      | None => ret (Ok None)
      | Some t => do! enable_notifs in ret (Ok (Some t))
      end
  end.

Context {repr : S -> vq -> Prop} {L : VirtQueueLaws S repr}.

(** The only buffer of the queue is [tk]. *)
Inductive alone (tk : TransferToken) (id : nat) (f : nat) : vq -> Prop :=
  | alone_avail : alone tk id f (mkVq {[ id := tk ]} [id] [] [] f)
  | alone_held : alone tk id f (mkVq {[ id := tk ]} [] [id] [] f)
  | alone_used len : alone tk id f (mkVq {[ id := tk ]} [] [] [(id, len)] f).

Lemma held_one (x id : nat) l1 l2 : [x] = l1 ++ id :: l2 -> x = id /\ l1 = [] /\ l2 = [].
Proof. destruct l1 as [|y l1]; cbn; intros E; simplify_eq; [done|]. by destruct l1. Qed.

Lemma alone_step tk id f v e v' :
  alone tk id f v -> step v e v' ->
  match e with
  | Dispatched _ _ => True
  | Received (Ok t) => exists len, t = from_avail_buffer_token (buff_tkn tk) len /\ v' = empty (f + ndesc tk)
  | _ => alone tk id f v'
  end.
Proof.
  intros A St. destruct A as [| |len]; inversion St; subst; cbn [avail held used free inflight] in *; simplify_eq; try done;
    try (match goal with E : [] = _ ++ _ :: _ |- _ => by apply app_cons_not_nil in E end);
    try (match goal with E : [_] = _ ++ _ :: _ |- _ => apply held_one in E as (-> & -> & ->) end); try constructor.
  rewrite lookup_singleton_eq in *. simplify_eq. eexists. split; [done|]. unfold empty. f_equal. apply delete_singleton_eq.
Qed.

Lemma device_act_alone tk id f a s v :
  repr s v -> alone tk id f v -> act_ok a ->
  exists s' v', device_act a s = Done tt s' /\ repr s' v' /\ alone tk id f v'.
Proof.
  assert (Hfetch : forall s v, repr s v -> alone tk id f v ->
    exists r s' v', device_fetch s = Done r s' /\ repr s' v' /\ alone tk id f v').
  { intros s0 v0 R A. destruct (device_fetch_law s0 v0 R) as (r & s1 & v1 & E & St & R1).
    eexists _, _, _. split; [done|]. split; [done|]. by apply (alone_step _ _ _ _ _ _ A St). }
  assert (Huse : forall i len s v, in_u 32 len -> repr s v -> alone tk id f v ->
    exists b s' v', device_use i len s = Done b s' /\ repr s' v' /\ alone tk id f v').
  { intros i len s0 v0 Hl R A. destruct (device_use_law s0 v0 i len R Hl) as (b & s1 & v1 & E & St & R1).
    eexists _, _, _. split; [done|]. split; [done|]. pose proof (alone_step _ _ _ _ _ _ A St). by destruct b. }
  intros R A Ho. destruct a as [|i len|len]; cbn [device_act]; unfold device_serve.
  - destruct (Hfetch s v R A) as (r & s1 & v1 & E & R1 & A1). rewrite (bind_run _ _ _ _ _ E). by eexists _, _.
  - destruct (Huse i len s v Ho R A) as (r & s1 & v1 & E & R1 & A1). rewrite (bind_run _ _ _ _ _ E). by eexists _, _.
  - destruct (Hfetch s v R A) as (r & s1 & v1 & E & R1 & A1). rewrite (bind_run _ _ _ _ _ E).
    destruct r as [[i ?]|]; [|by eexists _, _].
    destruct (Huse i len s1 v1 Ho R1 A1) as (b & s2 & v2 & E2 & R2 & A2). rewrite (bind_run _ _ _ _ _ E2). by eexists _, _.
Qed.

Lemma device_acts_alone tk id f acts : forall s v,
  repr s v -> alone tk id f v -> Forall act_ok acts ->
  exists s' v', device_acts acts s = Done tt s' /\ repr s' v' /\ alone tk id f v'.
Proof.
  induction acts as [|a acts IH]; intros s v R A Ho; [by eexists s, v|].
  apply Forall_cons_1 in Ho as [Ho Hos]. cbn [device_acts].
  destruct (device_act_alone tk id f a s v R A Ho) as (s1 & v1 & E & R1 & A1). rewrite (bind_run _ _ _ _ _ E).
  by apply (IH s1 v1).
Qed.

Lemma recv_loop_alone tk id f sched : forall s v,
  repr s v -> alone tk id f v -> Forall (Forall act_ok) sched ->
  exists o s' v', recv_loop sched s = Done o s' /\ repr s' v' /\
    match o with
    | Some t => exists len, t = from_avail_buffer_token (buff_tkn tk) len /\ v' = empty (f + ndesc tk)
    | None => alone tk id f v'
    end.
Proof.
  induction sched as [|acts sched IH]; intros s v R A Ho; [by eexists None, s, v|].
  apply Forall_cons_1 in Ho as [Ho Hos]. cbn [recv_loop].
  destruct (device_acts_alone tk id f acts s v R A Ho) as (s1 & v1 & E1 & R1 & A1). rewrite (bind_run _ _ _ _ _ E1).
  destruct (try_recv_law s1 v1 R1) as (r & s2 & v2 & E2 & St & R2). rewrite (bind_run _ _ _ _ _ E2).
  pose proof (alone_step _ _ _ _ _ _ A1 St) as A2. destruct r as [t|e].
  - by eexists (Some t), s2, v2.
  - by apply (IH s2 v2).
Qed.

Lemma dispatch_blocking_run s n t ty table sched :
  repr s (empty n) -> token_ok t -> Forall (Forall act_ok) sched -> (ndesc (transfer t ty table) <= n)%nat ->
  buff_tkn (transfer t ty table) = t ->
  exists o s', dispatch_blocking sched t ty table s = Done (Ok o) s' /\
    match o with
    | Some r => exists len, r = from_avail_buffer_token t len /\ repr s' (empty n)
    | None => exists id v, repr s' v /\ alone (transfer t ty table) id (n - ndesc (transfer t ty table)) v
    end.
Proof.
  intros R Ht Ho Hn Hb. destruct (dispatch_law s _ t ty table R Ht) as (r & s1 & v1 & E1 & St & R1).
  unfold dispatch_blocking. rewrite (bind_run _ _ _ _ _ E1).
  inversion St; subst; cbn [avail held used free inflight empty] in *; [|lia].
  destruct (disable_law _ _ R1) as (s2 & E2 & R2). rewrite (bind_run _ _ _ _ _ E2).
  destruct (recv_loop_alone (transfer t ty table) id (n - ndesc (transfer t ty table)) sched s2 _ R2
    ltac:(rewrite insert_empty; constructor) Ho) as (o & s3 & v3 & E3 & R3 & A3).
  rewrite (bind_run _ _ _ _ _ E3). destruct o as [t'|].
  - destruct A3 as (len & -> & ->). destruct (enable_law _ _ R3) as (s4 & E4 & R4). rewrite (bind_run _ _ _ _ _ E4).
    eexists _, _. split; [done|]. exists len. rewrite Hb. split; [done|].
    by replace (n - ndesc (transfer t ty table) + ndesc (transfer t ty table))%nat with n in R4 by lia.
  - eexists _, _. split; [done|]. by eexists _, _.
Qed.
(** Polling an idle device changes nothing; one that serves the buffer ends the loop. *)
Lemma recv_loop_served tk id f len k : forall sched s,
  repr s (mkVq {[ id := tk ]} [id] [] [] f) -> in_u 32 len ->
  exists s', recv_loop (replicate k [] ++ [AServe len] :: sched) s =
    Done (Some (from_avail_buffer_token (buff_tkn tk) len)) s' /\ repr s' (empty (f + ndesc tk)).
Proof.
  induction k as [|k IH]; intros sched s R Hl; cbn [replicate app recv_loop device_acts device_act].
  - destruct (device_fetch_law s _ R) as (r & s1 & v1 & E1 & St1 & R1).
    inversion St1; subst; cbn [avail held used free inflight] in *; simplify_eq.
    destruct (device_use_law s1 _ id0 len R1 Hl) as (b & s2 & v2 & E2 & St2 & R2).
    assert (Es : device_serve len s = Done tt s2).
    { unfold device_serve. by rewrite (bind_run _ _ _ _ _ E1), (bind_run _ _ _ _ _ E2). }
    unfold bind at 1 2. rewrite Es. cbn.
    destruct b; inversion St2; subst; cbn [avail held used free inflight] in *.
    + match goal with E : _ = _ ++ _ :: _ |- _ => apply held_one in E as (_ & -> & ->) end.
      destruct (try_recv_law s2 _ R2) as (r & s3 & v3 & E3 & St3 & R3). rewrite (bind_run _ _ _ _ _ E3).
      inversion St3; subst; cbn [avail held used free inflight app] in *; simplify_eq.
      rewrite lookup_singleton_eq in *. simplify_eq. eexists. split; [done|].
      by rewrite delete_singleton_eq in R3.
    + exfalso. match goal with Hn : _ ∉ _ |- _ => apply Hn end. by apply list_elem_of_singleton.
  - unfold bind at 1. cbn. destruct (try_recv_law s _ R) as (r & s1 & v1 & E1 & St1 & R1). rewrite (bind_run _ _ _ _ _ E1).
    inversion St1; subst; cbn [avail held used free inflight] in *; simplify_eq. by apply IH.
Qed.
End Blocking.
End VqSpec.
