(* ===== verification/SplitVq.v ===== *)
(** The split virtqueue, [src/src/drivers/virtio/virtqueue/split.rs]: the
    descriptor table with its allocator, the available ring, the used ring, and
    the tokens of the buffers the device works on.  The memory barriers are not
    modelled: an operation of the driver and one of the device do not overlap. *)

From S2P Require Import Prelude Errors IndexAlloc Virtq VqSpec.
Import Virtq.

Module SplitVq.

(** [DescrRing] and [SplitVq], with the notifications sent to the device (the
    index of each) and, last, what the device remembers: the entry of the
    available ring it looks at next and the buffers it works on.  The flags of
    the rings are [NO_INTERRUPT] and [NO_NOTIFY]; [None] in the table is a
    descriptor that was never written. *)
Record ring : Type := mkRing {
  read_idx : Z;
  token_ring : list (option TransferToken);
  indexes : list Z;
  descr_table : list (option Desc);
  avail_no_interrupt : bool;
  avail_idx : Z;
  avail_ring : list Z;
  used_no_notify : bool;
  used_idx : Z;
  used_ring : list (Z * Z);
  size : Z;
  index : Z;
  notified : list Z;
  dev_avail : Z;
  dev_held : list nat;
}.

Definition set_read_idx (x : Z) (s : ring) : ring :=
  mkRing x (token_ring s) (indexes s) (descr_table s) (avail_no_interrupt s) (avail_idx s) (avail_ring s) (used_no_notify s) (used_idx s) (used_ring s) (size s) (index s) (notified s) (dev_avail s) (dev_held s).
Definition set_token_ring (x : list (option TransferToken)) (s : ring) : ring :=
  mkRing (read_idx s) x (indexes s) (descr_table s) (avail_no_interrupt s) (avail_idx s) (avail_ring s) (used_no_notify s) (used_idx s) (used_ring s) (size s) (index s) (notified s) (dev_avail s) (dev_held s).
Definition set_indexes (x : list Z) (s : ring) : ring :=
  mkRing (read_idx s) (token_ring s) x (descr_table s) (avail_no_interrupt s) (avail_idx s) (avail_ring s) (used_no_notify s) (used_idx s) (used_ring s) (size s) (index s) (notified s) (dev_avail s) (dev_held s).
Definition set_descr_table (x : list (option Desc)) (s : ring) : ring :=
  mkRing (read_idx s) (token_ring s) (indexes s) x (avail_no_interrupt s) (avail_idx s) (avail_ring s) (used_no_notify s) (used_idx s) (used_ring s) (size s) (index s) (notified s) (dev_avail s) (dev_held s).
Definition set_avail_no_interrupt (x : bool) (s : ring) : ring :=
  mkRing (read_idx s) (token_ring s) (indexes s) (descr_table s) x (avail_idx s) (avail_ring s) (used_no_notify s) (used_idx s) (used_ring s) (size s) (index s) (notified s) (dev_avail s) (dev_held s).
Definition set_avail_idx (x : Z) (s : ring) : ring :=
  mkRing (read_idx s) (token_ring s) (indexes s) (descr_table s) (avail_no_interrupt s) x (avail_ring s) (used_no_notify s) (used_idx s) (used_ring s) (size s) (index s) (notified s) (dev_avail s) (dev_held s).
Definition set_avail_ring (x : list Z) (s : ring) : ring :=
  mkRing (read_idx s) (token_ring s) (indexes s) (descr_table s) (avail_no_interrupt s) (avail_idx s) x (used_no_notify s) (used_idx s) (used_ring s) (size s) (index s) (notified s) (dev_avail s) (dev_held s).
Definition set_used_idx (x : Z) (s : ring) : ring :=
  mkRing (read_idx s) (token_ring s) (indexes s) (descr_table s) (avail_no_interrupt s) (avail_idx s) (avail_ring s) (used_no_notify s) x (used_ring s) (size s) (index s) (notified s) (dev_avail s) (dev_held s).
Definition set_used_ring (x : list (Z * Z)) (s : ring) : ring :=
  mkRing (read_idx s) (token_ring s) (indexes s) (descr_table s) (avail_no_interrupt s) (avail_idx s) (avail_ring s) (used_no_notify s) (used_idx s) x (size s) (index s) (notified s) (dev_avail s) (dev_held s).
Definition set_notified (x : list Z) (s : ring) : ring :=
  mkRing (read_idx s) (token_ring s) (indexes s) (descr_table s) (avail_no_interrupt s) (avail_idx s) (avail_ring s) (used_no_notify s) (used_idx s) (used_ring s) (size s) (index s) x (dev_avail s) (dev_held s).
Definition set_dev_avail (x : Z) (s : ring) : ring :=
  mkRing (read_idx s) (token_ring s) (indexes s) (descr_table s) (avail_no_interrupt s) (avail_idx s) (avail_ring s) (used_no_notify s) (used_idx s) (used_ring s) (size s) (index s) (notified s) x (dev_held s).
Definition set_dev_held (x : list nat) (s : ring) : ring :=
  mkRing (read_idx s) (token_ring s) (indexes s) (descr_table s) (avail_no_interrupt s) (avail_idx s) (avail_ring s) (used_no_notify s) (used_idx s) (used_ring s) (size s) (index s) (notified s) (dev_avail s) x.

Definition to_u16 {S} (n : nat) : M S Z :=
  if Z.of_nat n <? 65536 then ret (Z.of_nat n) else panic "called `Result::unwrap()`".

(** ** [DescrRing] *)

(** [allocate] and the write of the descriptor. *)
Definition alloc_write (d : Desc) : M ring (Result VirtqError nat) :=
  let! ix := gets indexes in
  match IndexAlloc.allocate ix with
  | None => ret (Err NoDescrAvail)
  | Some (i, ix) =>
      do! modify (set_indexes ix) in
      let! table := gets descr_table in
      do! assert_ (i <? length table)%nat "index out of bounds" in
      do! modify (set_descr_table (<[i := Some d]> table)) in
      ret (Ok i)
  end.

(** The loop over the reversed descriptors; [i] is the index of the one written
    before. *)
Fixpoint push_rest (l : list Desc) (i : nat) : M ring (Result VirtqError nat) :=
  match l with
  | [] => ret (Ok i)
  | d :: l =>
      let! next := to_u16 i in
      let! r := alloc_write (set_link next d) in
      match r with
      | Err e => ret (Err e)
      | Ok i => push_rest l i
      end
  end.

Definition push_chain (tkn : TransferToken) : M ring (Result VirtqError nat) :=
  match ctrl_desc tkn with
  | Some table => alloc_write (indirect_desc table)
  | None =>
      let! r := descriptor_iter (buff_tkn tkn) in
      match r with
      | Err e => ret (Err e)
      | Ok ds =>
          match rev ds with
          | [] => panic "called `Option::unwrap()` on a `None` value"
          | d :: rest =>
              let! r := alloc_write d in
              match r with
              | Err e => ret (Err e)
              | Ok i => push_rest rest i
              end
          end
      end
  end.

Definition make_available (i : nat) (tkn : TransferToken) : M ring Z :=
  let! tokens := gets token_ring in
  do! assert_ (i <? length tokens)%nat "index out of bounds" in
  do! modify (set_token_ring (<[i := Some tkn]> tokens)) in
  let len := length tokens in
  let! idx := gets avail_idx in
  let! head := to_u16 i in
  do! assert_ (negb (len =? 0)%nat) "remainder with a divisor of zero" in
  let! avail := gets avail_ring in
  do! assert_ (slot len idx <? length avail)%nat "index out of bounds" in
  do! modify (set_avail_ring (<[slot len idx := head]> avail)) in
  let next_idx := wrapu 16 (idx + 1) in
  do! modify (set_avail_idx next_idx) in
  ret next_idx.

Definition push (tkn : TransferToken) : M ring (Result VirtqError Z) :=
  let! r := push_chain tkn in
  match r with
  | Err e => ret (Err e)
  | Ok i => let! next_idx := make_available i tkn in ret (Ok next_idx)
  end.

(** The loop of [try_recv] that releases a chain; it ends within as many rounds
    as the table has descriptors. *)
Fixpoint free_chain (fuel : nat) (id : nat) : M ring unit :=
  match fuel with
  | O => panic "out of fuel"
  | S fuel =>
      let! ix := gets indexes in
      do! modify (set_indexes (IndexAlloc.deallocate id ix)) in
      let! table := gets descr_table in
      let! cell := unwrap (table !! id) "index out of bounds" in
      let! d := unwrap cell "uninitialized memory" in
      if NEXT (d_flags d) then free_chain fuel (Z.to_nat (d_link d)) else ret tt
  end.

Definition ring_try_recv : M ring (Result VirtqError UsedBufferToken) :=
  let! read := gets read_idx in
  let! idx := gets used_idx in
  if read =? idx then ret (Err NoNewUsed)
  else
    let! tokens := gets token_ring in
    do! assert_ (negb (length tokens =? 0)%nat) "remainder with a divisor of zero" in
    let! used := gets used_ring in
    let! '(id, len) := unwrap (used !! slot (length tokens) read) "index out of bounds" in
    let! cell := unwrap (tokens !! Z.to_nat id) "index out of bounds" in
    do! modify (set_token_ring (<[Z.to_nat id := None]> tokens)) in
    let! tkn := unwrap cell "The buff_id is incorrect or the reference to the TransferToken was misplaced." in
    let! head := to_u16 (Z.to_nat id) in
    do! free_chain (length tokens) (Z.to_nat head) in
    do! modify (set_read_idx (wrapu 16 (read + 1))) in
    ret (Ok (from_avail_buffer_token (buff_tkn tkn) len)).

Definition drv_enable_notif : M ring unit := modify (set_avail_no_interrupt false).
Definition drv_disable_notif : M ring unit := modify (set_avail_no_interrupt true).
Definition dev_is_notif : M ring bool := let! b := gets used_no_notify in ret (negb b).

(** ** [SplitVq] *)

(** [zip(1..)]: each descriptor of the table points to the next place. *)
Fixpoint number_from (k : Z) (l : list Desc) : list Desc :=
  match l with [] => [] | d :: l => set_link (wrapu 16 k) d :: number_from (k + 1) l end.
Definition create_indirect_ctrl (t : AvailBufferToken) : M ring (Result VirtqError (list Desc)) :=
  let! r := descriptor_iter t in
  match r with
  | Err e => ret (Err e)
  | Ok ds => ret (Ok (number_from 1 ds))
  end.

Definition split_dispatch (t : AvailBufferToken) (notif : bool) (ty : BufferType) (table : Z)
    : M ring (Result VirtqError unit) :=
  let! transfer_tkn := transfer_token create_indirect_ctrl table t ty in
  let! r := push transfer_tkn in
  match r with
  | Err e => ret (Err e)
  | Ok next_idx =>
      if notif then panic "not implemented"
      else
        let! wanted := dev_is_notif in
        if wanted then
          let! l := gets notified in
          do! modify (set_notified (l ++ [next_idx])) in
          ret (Ok tt)
        else ret (Ok tt)
  end.

(** [dispatch_batch] and [dispatch_batch_await] *)
Definition split_dispatch_batch (tkns : list (AvailBufferToken * BufferType)) (notif : bool)
    : M ring (Result VirtqError unit) := panic "not implemented".

Definition split_has_used_buffers : M ring bool :=
  let! read := gets read_idx in
  let! idx := gets used_idx in
  ret (negb (read =? idx)).

(** The queue made by [new] once its size has been agreed on: [queue] is the
    answer of [select_vq], with the largest size the device allows. *)
Definition new (queue : option Z) (max_size idx : Z) : Result VirtqError ring :=
  match queue with
  | None => Err (QueueNotExisting idx)
  | Some num_max =>
      let size := Z.min max_size num_max in
      let n := Z.to_nat size in
      Ok (mkRing 0 (replicate n None) (IndexAlloc.new n) (replicate n None)
            false 0 (replicate n 0) false 0 (replicate n (0, 0)) size idx [] 0 [])
  end.

(** ** The device *)

(** The chain of descriptors from an index on. *)
Fixpoint read_chain (fuel : nat) (table : list (option Desc)) (i : nat) : option (list Desc) :=
  match fuel with
  | O => None
  | S fuel =>
      match table !! i with
      | Some (Some d) =>
          if NEXT (d_flags d) then (fun l => d :: l) <$> read_chain fuel table (Z.to_nat (d_link d))
          else Some [d]
      | _ => None
      end
  end.

Definition split_device_fetch : M ring (option (nat * list (Z * Z * bool * bool))) :=
  let! mine := gets dev_avail in
  let! idx := gets avail_idx in
  if mine =? idx then ret None
  else
    let! avail := gets avail_ring in
    let! head := unwrap (avail !! slot (length avail) mine) "device: no such entry" in
    let! table := gets descr_table in
    let! ds := unwrap (read_chain (length table) table (Z.to_nat head)) "device: bad descriptor chain" in
    let! l := gets dev_held in
    do! modify (set_dev_held (l ++ [Z.to_nat head])) in
    do! modify (set_dev_avail (wrapu 16 (mine + 1))) in
    ret (Some (Z.to_nat head, view <$> ds)).

Fixpoint take_out (id : nat) (l : list nat) : option (list nat) :=
  match l with
  | [] => None
  | x :: l => if (x =? id)%nat then Some l else (fun l => x :: l) <$> take_out id l
  end.

Definition split_device_use (id : nat) (len : Z) : M ring bool :=
  let! l := gets dev_held in
  match take_out id l with
  | None => ret false
  | Some l =>
      do! modify (set_dev_held l) in
      let! idx := gets used_idx in
      let! used := gets used_ring in
      do! modify (set_used_ring (<[slot (length used) idx := (Z.of_nat id, len)]> used)) in
      do! modify (set_used_idx (wrapu 16 (idx + 1))) in
      ret true
  end.

Definition split_transfer (t : AvailBufferToken) (ty : BufferType) (table : Z) : TransferToken :=
  match ty with
  | Direct => mkTransfer t None
  | Indirect => mkTransfer t (Some (table, number_from 1 (descs_of t)))
  end.

#[export] Instance split_queue : VqSpec.VirtQueue ring := {
  VqSpec.transfer := split_transfer;
  VqSpec.dispatch := split_dispatch;
  VqSpec.try_recv := ring_try_recv;
  VqSpec.has_used_buffers := split_has_used_buffers;
  VqSpec.enable_notifs := drv_enable_notif;
  VqSpec.disable_notifs := drv_disable_notif;
  VqSpec.device_fetch := split_device_fetch;
  VqSpec.device_use := split_device_use;
}.
End SplitVq.
