(* ===== verification/SplitProps.v ===== *)
(** The split virtqueue implements the abstract queue of [VqSpec]: the chains of
    the buffers under way are disjoint and allocated, the rings hold the buffers
    in order, and every operation follows the transition system.  What a push
    that finds too few descriptors does is proved at the end. *)

From S2P Require Import Prelude Errors IndexAlloc Virtq VqSpec SplitVq.
Import Virtq VqSpec.

Module SplitProps.
Import SplitVq.

(** ** Chains *)

(** The descriptors [l], each with its index, linked in the table. *)
Fixpoint chain (table : list (option Desc)) (l : list (nat * Desc)) : Prop :=
  match l with
  | [] => False
  | (i, d) :: rest =>
      match rest with
      | [] => table !! i = Some (Some d) /\ NEXT (d_flags d) = false
      | (j, _) :: _ =>
          table !! i = Some (Some (set_link (Z.of_nat j) d)) /\ NEXT (d_flags d) = true /\ chain table rest
      end
  end.

Lemma chain_ext table table' l :
  (forall i, i ∈ l.*1 -> table' !! i = table !! i) -> chain table l -> chain table' l.
Proof.
  induction l as [|[i d] [|[j e] l] IH]; intros He Hc; cbn in *; [done| |].
  - rewrite He by set_solver. done.
  - rewrite He by set_solver. destruct Hc as (? & ? & Hc). split; [done|]. split; [done|]. apply IH; [|done].
    intros k Hk. apply He. set_solver.
Qed.

Lemma chain_insert table l i c : i ∉ l.*1 -> chain table l -> chain (<[i := c]> table) l.
Proof. intros Hi. apply chain_ext. intros j Hj. apply list_lookup_insert_ne. by intros ->. Qed.

Lemma view_link x d : view (set_link x d) = view d.
Proof. done. Qed.

(** The device reads the descriptors of a chain. *)
Lemma read_chain_run table l : forall fuel i,
  chain table l -> head l.*1 = Some i -> (length l <= fuel)%nat ->
  exists ds, read_chain fuel table i = Some ds /\ view <$> ds = view <$> l.*2.
Proof.
  induction l as [|[i0 d] [|[j e] l] IH]; intros [|fuel] i Hc Hi Hf; cbn in Hc, Hi, Hf; try done; try lia; simplify_eq.
  - destruct Hc as [E N]. cbn. rewrite E, N. by eexists.
  - destruct Hc as (E & N & Hc). cbn [read_chain]. rewrite E.
    change (d_flags (set_link (Z.of_nat j) d)) with (d_flags d). rewrite N.
    change (d_link (set_link (Z.of_nat j) d)) with (Z.of_nat j). rewrite Nat2Z.id.
    destruct (IH fuel j Hc eq_refl) as (ds & -> & Ev); [cbn; lia|].
    cbn [fmap option_fmap option_map]. eexists. split; [done|]. cbn [fmap list_fmap] in *. by rewrite Ev.
Qed.

(** [upd ix tb s]: a change of the allocator and of the table. *)
Definition upd (ix : list Z) (tb : list (option Desc)) (s : ring) : ring := set_indexes ix (set_descr_table tb s).

Lemma upd_upd ix tb ix' tb' s : upd ix' tb' (upd ix tb s) = upd ix' tb' s.
Proof. done. Qed.

(** [free_chain] releases exactly the chain. *)
Lemma free_chain_run n s l : forall fuel i taken,
  IndexAlloc.repr n (indexes s) taken -> chain (descr_table s) l -> head l.*1 = Some i ->
  Forall (fun i => i < n)%nat l.*1 -> (length l <= fuel)%nat ->
  exists ix, free_chain fuel i s = Done tt (set_indexes ix s) /\
    IndexAlloc.repr n ix (taken ∖ list_to_set l.*1).
Proof.
  revert s. induction l as [|[i0 d] l IH]; intros s [|fuel] i taken R Hc Hi Hn Hf; cbn in Hi, Hf; try done; try lia; simplify_eq.
  cbn [fmap list_fmap] in Hn. apply Forall_cons_1 in Hn as [Hi Hn]. cbn [fst] in Hi.
  pose proof (IndexAlloc.deallocate_spec n _ taken i R Hi) as R1.
  cbn [free_chain]. unfold gets, modify, bind at 1 2 3. cbn [descr_table set_indexes].
  destruct l as [|[j e] l].
  - destruct Hc as [E N]. rewrite E. unfold unwrap, bind, ret. rewrite N. eexists. split; [done|].
    cbn. by rewrite union_empty_r_L.
  - destruct Hc as (E & N & Hc). rewrite E. unfold unwrap. unfold bind at 1 2. cbn [ret].
    unfold ret. change (d_flags (set_link (Z.of_nat j) d)) with (d_flags d). rewrite N.
    change (d_link (set_link (Z.of_nat j) d)) with (Z.of_nat j). rewrite Nat2Z.id.
    destruct (IH (set_indexes (IndexAlloc.deallocate i (indexes s)) s) fuel j (taken ∖ {[i]}) R1 Hc eq_refl Hn)
      as (ix & Er & R2); [cbn in *; lia|].
    exists ix. rewrite Er. split; [done|]. cbn [fmap list_fmap list_to_set fst] in *.
    by rewrite <- difference_difference_l_L.
Qed.

(** ** Taking descriptors *)

Lemma alloc_write_run n s d taken :
  IndexAlloc.repr n (indexes s) taken -> length (descr_table s) = n ->
  (exists i ix, alloc_write d s = Done (Ok i) (upd ix (<[i := Some d]> (descr_table s)) s) /\
     i ∉ taken /\ (i < n)%nat /\ IndexAlloc.repr n ix ({[ i ]} ∪ taken)) \/
  (alloc_write d s = Done (Err NoDescrAvail) s /\ forall i, (i < n)%nat -> i ∈ taken).
Proof.
  intros R Hn. unfold alloc_write. rewrite !(bind_run (gets indexes) _ s (indexes s) s eq_refl).
  pose proof (IndexAlloc.allocate_spec n (indexes s) taken R) as A.
  destruct (IndexAlloc.allocate (indexes s)) as [[i ix]|]; [left|right; split; [done|exact A]].
  destruct A as (Hi & Hf & _ & R'). exists i, ix. split; [|done].
  unfold modify, gets, bind, assert_. cbn [set_indexes descr_table].
  by rewrite (proj2 (Nat.ltb_lt i (length (descr_table s)))) by lia.
Qed.

Lemma push_rest_run n l : forall s i taken c,
  IndexAlloc.repr n (indexes s) taken -> length (descr_table s) = n -> Z.of_nat n <= 65536 ->
  chain (descr_table s) c -> head c.*1 = Some i -> NoDup c.*1 -> Forall (fun i => i ∈ taken) c.*1 ->
  Forall (fun d => NEXT (d_flags d) = true) l ->
  exists ix tb taken' r, push_rest l i s = Done r (upd ix tb s) /\
    IndexAlloc.repr n ix taken' /\ length tb = n /\
    (forall j, j ∈ taken -> j ∉ c.*1 -> tb !! j = descr_table s !! j) /\ taken ⊆ taken' /\
    match r with
    | Ok h => exists new, chain tb (new ++ c) /\ head (new ++ c).*1 = Some h /\ new.*2 = reverse l /\
        NoDup (new ++ c).*1 /\ (forall j, j ∈ new.*1 -> j ∉ taken) /\ taken' = list_to_set new.*1 ∪ taken
    | Err e => e = NoDescrAvail /\ (forall j, (j < n)%nat -> j ∈ taken') /\ (base.size taken' < base.size taken + length l)%nat
    end.
Proof.
  induction l as [|d l IH]; intros s i taken c R Hn H16 Hc Hi Hnd Hct Hl; cbn [push_rest].
  - exists (indexes s), (descr_table s), taken, (Ok i). split; [by destruct s|]. split; [done|]. split; [done|].
    split; [done|]. split; [done|]. exists []. cbn. split_and!; try done; [intros j Hj; by apply elem_of_nil in Hj|by rewrite union_empty_l_L].
  - apply Forall_cons_1 in Hl as [Hd Hl]. destruct c as [|[i0 e] c]; [done|]. cbn in Hi. simplify_eq.
    assert (Hin : i ∈ taken) by (cbn [fmap list_fmap] in Hct; by apply Forall_cons_1 in Hct as [? _]).
    pose proof (IndexAlloc.repr_bound _ _ _ R i Hin) as Hi. unfold to_u16.
    rewrite (proj2 (Z.ltb_lt (Z.of_nat i) 65536)) by lia. unfold ret at 1. unfold bind at 1.
    destruct (alloc_write_run (length (descr_table s)) s (set_link (Z.of_nat i) d) taken R eq_refl)
      as [(k & ix & E & Hk & Hkn & R1)|[E Hfull]]; rewrite (bind_run _ _ _ _ _ E).
    + assert (Hkc : k ∉ ((i, e) :: c).*1).
      { intros Hin'. rewrite list.Forall_forall in Hct. exact (Hk (Hct k Hin')). }
      set (tb1 := <[k := _]> (descr_table s)) in *.
      destruct (IH (upd ix tb1 s) k ({[k]} ∪ taken) ((k, d) :: (i, e) :: c)) as (ix2 & tb2 & taken2 & r & E2 & R2 & L2 & T2 & S2 & Hr);
        try done.
      * by unfold tb1; cbn; rewrite length_insert.
      * split; [by apply list_lookup_insert_eq|]. split; [done|]. by apply chain_insert.
      * by apply list.NoDup_cons.
      * cbn [fmap list_fmap fst]. constructor; [set_solver|]. eapply list.Forall_impl; [exact Hct|]. intros j Hj. set_solver.
      * exists ix2, tb2, taken2, r. rewrite E2, upd_upd. split; [done|]. split; [done|]. split; [done|].
        split; [|split; [set_solver|]].
        -- intros j Hj Hjc. rewrite T2 by set_solver. apply list_lookup_insert_ne. by intros ->.
        -- destruct r as [h|err].
           ++ destruct Hr as (nw & Hc2 & Hh & Hds & Hnd2 & Hfr & Ht). exists (nw ++ [(k, d)]).
              rewrite <- app_assoc. split; [done|]. split; [done|].
              split; [rewrite fmap_app, Hds, reverse_cons; done|]. split; [done|].
              split; [intros j; rewrite fmap_app; cbn; set_solver|].
              rewrite Ht, fmap_app, list_to_set_app_L. cbn. set_solver.
           ++ destruct Hr as (-> & Hall & Hsz). split; [done|]. split; [done|].
              rewrite size_union in Hsz by set_solver. rewrite size_singleton in Hsz. cbn [length]. lia.
    + exists (indexes s), (descr_table s), taken, (Err NoDescrAvail). split; [by destruct s|].
      split; [done|]. split; [done|]. split; [done|]. split; [done|]. split; [done|]. split; [done|]. cbn [length]. lia.
Qed.

Lemma push_chain_run n s tk taken :
  IndexAlloc.repr n (indexes s) taken -> length (descr_table s) = n -> Z.of_nat n <= 65536 -> token_ok (buff_tkn tk) ->
  exists ix tb taken' r, push_chain tk s = Done r (upd ix tb s) /\
    IndexAlloc.repr n ix taken' /\ length tb = n /\
    (forall j, j ∈ taken -> tb !! j = descr_table s !! j) /\ taken ⊆ taken' /\
    match r with
    | Ok h => exists l, chain tb l /\ head l.*1 = Some h /\ l.*2 = tdescs tk /\
        NoDup l.*1 /\ (forall j, j ∈ l.*1 -> j ∉ taken) /\ taken' = list_to_set l.*1 ∪ taken
    | Err e => e = NoDescrAvail /\ (forall j, (j < n)%nat -> j ∈ taken') /\ (base.size taken' < base.size taken + ndesc tk)%nat
    end.
Proof.
  intros R Hn H16 Ht. destruct (tdescs_chain tk Ht) as (init & d & Ed & Hinit & Hd & Hl0).
  assert (Hfirst : forall l, Forall (fun d => NEXT (d_flags d) = true) l -> reverse l = init ->
    exists ix tb taken' r, (let! r := alloc_write d in match r with Err e => ret (Err e) | Ok i => push_rest l i end) s =
        Done r (upd ix tb s) /\ IndexAlloc.repr n ix taken' /\ length tb = n /\
    (forall j, j ∈ taken -> tb !! j = descr_table s !! j) /\ taken ⊆ taken' /\
    match r with
    | Ok h => exists l, chain tb l /\ head l.*1 = Some h /\ l.*2 = tdescs tk /\
        NoDup l.*1 /\ (forall j, j ∈ l.*1 -> j ∉ taken) /\ taken' = list_to_set l.*1 ∪ taken
    | Err e => e = NoDescrAvail /\ (forall j, (j < n)%nat -> j ∈ taken') /\ (base.size taken' < base.size taken + ndesc tk)%nat
    end).
  { intros l Hl Hrev. unfold ndesc. rewrite Ed.
    destruct (alloc_write_run n s d taken R Hn) as [(k & ix & E & Hk & Hkn & R1)|[E Hfull]]; rewrite (bind_run _ _ _ _ _ E).
    - destruct (push_rest_run n l (upd ix (<[k := Some d]> (descr_table s)) s) k ({[k]} ∪ taken) [(k, d)])
        as (ix2 & tb2 & taken2 & r & E2 & R2 & L2 & T2 & S2 & Hr); try done.
      + by cbn; rewrite length_insert.
      + split; [|done]. apply list_lookup_insert_eq. lia.
      + apply NoDup_singleton.
      + cbn. constructor; [set_solver|done].
      + rewrite E2, upd_upd. exists ix2, tb2, taken2, r. split; [done|]. split; [done|]. split; [done|]. split; [|split; [set_solver|]].
        * intros j Hj. rewrite T2 by (cbn; set_solver). apply list_lookup_insert_ne. by intros ->.
        * destruct r as [h|e].
          -- destruct Hr as (nw & Hc & Hh & Hds & Hnd & Hfr & ->). exists (nw ++ [(k, d)]). split; [done|]. split; [done|].
             split; [by rewrite fmap_app, Hds, Hrev|]. split; [done|]. rewrite fmap_app. cbn.
             split; [set_solver|]. rewrite list_to_set_app_L. cbn. set_solver.
          -- destruct Hr as (-> & Hall & Hsz). split; [done|]. split; [done|].
             rewrite size_union, size_singleton in Hsz by set_solver.
             rewrite length_app. cbn [length]. apply (f_equal length) in Hrev. rewrite length_reverse in Hrev. lia.
    - exists (indexes s), (descr_table s), taken, (Err NoDescrAvail). rewrite length_app. cbn [length].
      split; [by destruct s|]. split_and!; try done. lia. }
  unfold push_chain. unfold tdescs in Ed. destruct (ctrl_desc tk) as [tbl|] eqn:Ec.
  - assert (init = [] /\ d = indirect_desc tbl) as [-> ->].
    { destruct init as [|x [|]]; cbn in Ed; by simplify_eq. }
    destruct (Hfirst [] ltac:(constructor) eq_refl) as (ix & tb & tk' & r & E & P). exists ix, tb, tk', r. split; [|exact P].
    rewrite <- E. unfold bind. destruct (alloc_write (indirect_desc tbl) s) as [[i|e] s'|]; done.
  - rewrite (bind_run _ _ _ _ _ (descriptor_iter_run _ s Ht)), Ed, rev_unit, rev_alt. change (rev_append init []) with (reverse init).
    apply Hfirst; [by apply Forall_reverse|]. apply reverse_involutive.
Qed.

(** ** The relation to the abstract queue *)

Record repr_at (n : nat) (chains : nat -> list (nat * Desc)) (taken : gset nat) (r : Z) (s : ring) (v : vq) : Prop := {
  r_coh : coherent v;
  r_pos : (0 < n)%nat;
  r_div : (Z.of_nat n | 65536);
  r_16 : Z.of_nat n < 65536;
  r_tokens : length (token_ring s) = n;
  r_token i : (i < n)%nat -> token_ring s !! i = Some (inflight v !! i);
  r_table : length (descr_table s) = n;
  r_chain id tk : inflight v !! id = Some tk ->
    chain (descr_table s) (chains id) /\ head (chains id).*1 = Some id /\ (chains id).*2 = tdescs tk /\
    NoDup (chains id).*1 /\ (forall i, i ∈ (chains id).*1 -> i ∈ taken);
  r_disj id id' i : is_Some (inflight v !! id) -> is_Some (inflight v !! id') ->
    i ∈ (chains id).*1 -> i ∈ (chains id').*1 -> id = id';
  r_alloc : IndexAlloc.repr n (indexes s) taken;
  r_free : (free v + base.size taken = n)%nat;
  r_avail : length (avail_ring s) = n /\
    window (avail_ring s) (r + Z.of_nat (length (used v)) + Z.of_nat (length (held v))) (Z.of_nat <$> avail v);
  r_used : length (used_ring s) = n /\ window (used_ring s) r ((fun p => (Z.of_nat p.1, p.2)) <$> used v);
  r_read_idx : read_idx s = wrapu 16 r;
  r_used_idx : used_idx s = wrapu 16 (r + Z.of_nat (length (used v)));
  r_dev_avail : dev_avail s = wrapu 16 (r + Z.of_nat (length (used v)) + Z.of_nat (length (held v)));
  r_avail_idx : avail_idx s = wrapu 16 (r + Z.of_nat (length (ids v)));
  r_held : dev_held s = held v;
}.
Definition repr (s : ring) (v : vq) : Prop := exists n chains taken r, repr_at n chains taken r s v.

Lemma bounded_length l n : NoDup l -> Forall (fun i => i < n)%nat l -> (length l <= n)%nat.
Proof.
  intros Hnd Hb. rewrite <- (length_seq n 0). apply submseteq_length, NoDup_submseteq; [done|].
  intros i Hi. rewrite list.Forall_forall in Hb. apply elem_of_seq. specialize (Hb i Hi). lia.
Qed.

Lemma full_size n ix taken :
  IndexAlloc.repr n ix taken -> (forall i, (i < n)%nat -> i ∈ taken) -> base.size taken = n.
Proof.
  intros R Hf. replace taken with (list_to_set (seq 0 n) : gset nat).
  - rewrite size_list_to_set by apply NoDup_seq. apply length_seq.
  - apply set_eq. intros i. rewrite elem_of_list_to_set, elem_of_seq. split; [intros; apply Hf; lia|].
    intros Hi. pose proof (IndexAlloc.repr_bound _ _ _ R i Hi). lia.
Qed.

Lemma wrap_eq a k : 0 <= k < 65536 -> wrapu 16 (a + k) = wrapu 16 a <-> k = 0.
Proof.
  intros Hk. unfold wrapu. change (2 ^ 16) with 65536. split; [|intros ->; by rewrite Z.add_0_r].
  intros E. pose proof (Z.div_mod a 65536). pose proof (Z.div_mod (a + k) 65536). lia.
Qed.
Lemma wrap_succ a : wrapu 16 (wrapu 16 a + 1) = wrapu 16 (a + 1).
Proof. unfold wrapu. by rewrite Zplus_mod_idemp_l. Qed.

Section Repr.
Context {n : nat} {chains : nat -> list (nat * Desc)} {taken : gset nat} {r : Z} {s : ring} {v : vq}.
Context (R : repr_at n chains taken r s v).

Lemma repr_id_taken id : is_Some (inflight v !! id) -> id ∈ taken.
Proof.
  intros [tk Htk]. destruct (r_chain _ _ _ _ _ _ R id tk Htk) as (_ & Hh & _ & _ & Hi). apply Hi.
  destruct (chains id).*1; cbn in Hh; simplify_eq. set_solver.
Qed.
Lemma repr_id_lt id : is_Some (inflight v !! id) -> (id < n)%nat.
Proof. intros Hid. eapply IndexAlloc.repr_bound; [by eapply r_alloc|]. by apply repr_id_taken. Qed.

Lemma repr_count : (length (ids v) <= n)%nat.
Proof.
  destruct (r_coh _ _ _ _ _ _ R) as [Hnd Hdom _]. apply bounded_length; [done|].
  apply list.Forall_forall. intros i Hi. apply repr_id_lt. by apply Hdom.
Qed.

Lemma repr_chain_length id tk : inflight v !! id = Some tk -> (length (chains id) <= n)%nat.
Proof.
  intros Htk. destruct (r_chain _ _ _ _ _ _ R id tk Htk) as (_ & _ & _ & Hnd & Hi).
  rewrite <- (length_fmap fst). apply bounded_length; [done|]. apply list.Forall_forall. intros i Hin.
  eapply IndexAlloc.repr_bound; [by eapply r_alloc|]. by apply Hi.
Qed.
End Repr.

(** ** The laws *)

Lemma transfer_token_run t ty table s : token_ok t ->
  transfer_token create_indirect_ctrl table t ty s = Done (split_transfer t ty table) s.
Proof.
  intros Ht. destruct ty; [done|]. unfold transfer_token, create_indirect_ctrl, bind at 1.
  by rewrite (bind_run _ _ _ _ _ (descriptor_iter_run t s Ht)).
Qed.

Lemma transfer_buffer t ty table : buff_tkn (split_transfer t ty table) = t.
Proof. by destruct ty. Qed.

(** A token is entered under its head and the head published. *)
Lemma make_available_run n s i tkn (A : list Z) r k :
  length (token_ring s) = n -> (i < n)%nat -> Z.of_nat n < 65536 -> (Z.of_nat n | 65536) ->
  length (avail_ring s) = n -> window (avail_ring s) r A -> (length A < n)%nat ->
  avail_idx s = wrapu 16 k -> k = r + Z.of_nat (length A) ->
  exists ar, make_available i tkn s = Done (wrapu 16 (k + 1))
    (set_avail_idx (wrapu 16 (k + 1)) (set_avail_ring ar (set_token_ring (<[i := Some tkn]> (token_ring s)) s))) /\
    length ar = n /\ window ar r (A ++ [Z.of_nat i]).
Proof.
  intros Hn Hi H16 Hdiv Ha W HA Hk Ek. unfold make_available, gets, modify, assert_, to_u16. unfold bind at 1 2.
  rewrite (proj2 (Nat.ltb_lt i (length (token_ring s)))) by lia. unfold ret at 1. unfold bind at 1 2 3 4.
  cbn [set_token_ring avail_idx]. rewrite (proj2 (Z.ltb_lt (Z.of_nat i) 65536)) by lia. unfold ret at 1.
  destruct (Nat.eqb_spec (length (token_ring s)) 0); [lia|]. cbn [negb]. unfold ret at 1, bind at 1 2.
  cbn [set_token_ring avail_ring]. rewrite Hn, Hk, slot_wrap by lia || done.
  rewrite (proj2 (Nat.ltb_lt (slot n k) (length (avail_ring s)))) by (rewrite Ha; apply slot_lt; lia).
  unfold ret at 1, bind. rewrite wrap_succ. eexists. split; [done|]. split; [by rewrite length_insert|].
  rewrite <- Ha, Ek. apply window_snoc; [done|lia].
Qed.


Section Insert.
Context {n : nat} {chains : nat -> list (nat * Desc)} {taken : gset nat} {r : Z} {s : ring} {v : vq}.
Context (R : repr_at n chains taken r s v).
Context {tb : list (option Desc)} (Ttb : forall j, j ∈ taken -> tb !! j = descr_table s !! j).

Lemma chains_kept id tk : inflight v !! id = Some tk -> chain tb (chains id).
Proof using R Ttb.
  intros Hid. destruct (r_chain _ _ _ _ _ _ R id tk Hid) as (Hc & _ & _ & _ & Hin).
  eapply chain_ext; [|exact Hc]. intros i Hi. by apply Ttb, Hin.
Qed.

Context {h : nat} {l : list (nat * Desc)} {tk : TransferToken} {ix : list Z}.
Context (RA : IndexAlloc.repr n ix (list_to_set l.*1 ∪ taken)) (Ltb : length tb = n).
Context (Hl : chain tb l) (Hh : head l.*1 = Some h) (Hds : l.*2 = tdescs tk) (Hnd : NoDup l.*1).
Context (Hfresh : forall j, j ∈ l.*1 -> j ∉ taken) (Htk : token_ok (buff_tkn tk)).

Lemma insert_head : h ∈ l.*1.
Proof using Hh. clear -Hh. destruct l.*1; cbn in Hh; simplify_eq. set_solver. Qed.

Lemma insert_fresh : inflight v !! h = None.
Proof using R Hh Hfresh. apply eq_None_not_Some. intros Hs. by apply (Hfresh h insert_head), (repr_id_taken R). Qed.

Lemma insert_size :
  base.size (list_to_set l.*1 ∪ taken : gset nat) = (ndesc tk + base.size taken)%nat /\ (ndesc tk <= free v)%nat.
Proof using R RA Hds Hnd Hfresh.
  clear -R RA Hds Hnd Hfresh.
  assert (Hsz : base.size (list_to_set l.*1 ∪ taken : gset nat) = (ndesc tk + base.size taken)%nat).
  { rewrite size_union by set_solver. rewrite size_list_to_set by done. unfold ndesc. by rewrite <- Hds, !length_fmap. }
  split; [done|]. pose proof (r_free _ _ _ _ _ _ R).
  cut (base.size (list_to_set l.*1 ∪ taken : gset nat) <= n)%nat; [lia|].
  rewrite <- (length_seq n 0), <- (size_list_to_set (C := gset nat) (seq 0 n)) by apply NoDup_seq. apply subseteq_size.
  intros i Hi. apply elem_of_list_to_set, elem_of_seq. pose proof (IndexAlloc.repr_bound _ _ _ RA i Hi). lia.
Qed.

Lemma insert_lt : (h < n)%nat.
Proof using RA Hh. pose proof insert_head as Hi. clear -RA Hi. apply (IndexAlloc.repr_bound _ _ _ RA h). set_solver. Qed.

Lemma insert_count : (length (ids v) < n)%nat.
Proof using R RA Hh Hfresh Htk.
  pose proof insert_lt as Hlt. pose proof insert_fresh as Hnone. clear -R Hlt Hnone Htk.
  destruct (coherent_insert v h tk 0 (r_coh _ _ _ _ _ _ R) Hnone Htk) as [Hnd' _ _].
  assert (Ei : forall f, ids (mkVq (<[h := tk]> (inflight v)) (avail v ++ [h]) (held v) (used v) f) = ids v ++ [h]).
  { intros f. unfold ids. cbn. by rewrite !app_assoc. }
  rewrite Ei in Hnd'. apply bounded_length with (n := n) in Hnd'; [rewrite length_app in Hnd'; cbn in Hnd'; lia|].
  apply Forall_app. split; [|by constructor].
  apply list.Forall_forall. intros i Hi. apply (repr_id_lt R). by apply (r_coh _ _ _ _ _ _ R).
Qed.

Definition chains_insert (j : nat) : list (nat * Desc) := if decide (j = h) then l else chains j.

Lemma repr_insert ar :
  length ar = n ->
  window ar (r + Z.of_nat (length (used v)) + Z.of_nat (length (held v))) ((Z.of_nat <$> avail v) ++ [Z.of_nat h]) ->
  repr_at n chains_insert (list_to_set l.*1 ∪ taken) r
    (set_avail_idx (wrapu 16 (r + Z.of_nat (length (ids v)) + 1)) (set_avail_ring ar
       (set_token_ring (<[h := Some tk]> (token_ring s)) (upd ix tb s))))
    (mkVq (<[h := tk]> (inflight v)) (avail v ++ [h]) (held v) (used v) (free v - ndesc tk)).
Proof using R Ttb RA Ltb Hl Hh Hds Hnd Hfresh Htk.
  intros Lar War. pose proof insert_fresh as Hnone. destruct insert_size as [Hsz Hle].
  split; try (by eapply R); try done.
  - by apply coherent_insert; [eapply r_coh| |].
  - by cbn; rewrite length_insert; eapply r_tokens.
  - intros i Hi. cbn. destruct (decide (i = h)) as [->|Hne'].
    + rewrite lookup_insert_eq. apply list_lookup_insert_eq. by rewrite (r_tokens _ _ _ _ _ _ R).
    + rewrite lookup_insert_ne, list_lookup_insert_ne by done. by eapply r_token.
  - intros id tk'. cbn [inflight]. unfold chains_insert. destruct (decide (id = h)) as [->|Hne'].
    + rewrite lookup_insert_eq. intros [= <-]. split_and!; try done. set_solver.
    + rewrite lookup_insert_ne by done. intros Hid. destruct (r_chain _ _ _ _ _ _ R id tk' Hid) as (_ & H1 & H2 & H3 & H4).
      split_and!; try done; [by eapply chains_kept|]. intros i Hi. specialize (H4 i Hi). set_solver.
  - assert (Hx : forall id i, is_Some (inflight v !! id) -> i ∈ (chains id).*1 -> i ∈ l.*1 -> False).
    { intros id i [tk' Hid] Hi Hil. apply (Hfresh i Hil). by apply (r_chain _ _ _ _ _ _ R id tk' Hid). }
    intros id id' i. cbn [inflight]. unfold chains_insert.
    destruct (decide (id = h)) as [->|N1], (decide (id' = h)) as [->|N2]; [done| | |].
    + rewrite (lookup_insert_ne _ h id') by done. intros _ Hs Hi Hi'. by destruct (Hx id' i Hs Hi' Hi).
    + rewrite (lookup_insert_ne _ h id) by done. intros Hs _ Hi Hi'. by destruct (Hx id i Hs Hi Hi').
    + rewrite !lookup_insert_ne by done. by eapply r_disj.
  - cbn [free]. rewrite Hsz. pose proof (r_free _ _ _ _ _ _ R). lia.
  - cbn. split; [done|]. by rewrite fmap_app.
  - cbn [avail_idx set_avail_idx]. unfold ids. cbn. rewrite !length_app. cbn. f_equal. lia.
Qed.
End Insert.

Lemma repr_notified n chains taken r s v x : repr_at n chains taken r s v -> repr_at n chains taken r (set_notified x s) v.
Proof. intros []. by split. Qed.

Lemma split_dispatch_run s v t ty table :
  repr s v -> token_ok t ->
  exists r s' v', split_dispatch t false ty table s = Done r s' /\
    step v (Dispatched (split_transfer t ty table) r) v' /\ repr s' v' /\ (is_Ok r = false -> free v' = 0%nat).
Proof.
  intros (n & chains & taken & r & R) Ht. set (tk := split_transfer t ty table).
  assert (Htk : token_ok (buff_tkn tk)) by (unfold tk; by rewrite transfer_buffer).
  destruct (push_chain_run n s tk taken) as (ix & tb & taken' & res & E & RA & Ltb & Ttb & Sub & Hr);
    [by eapply r_alloc|by eapply r_table|pose proof (r_16 _ _ _ _ _ _ R); lia|done|].
  unfold split_dispatch. rewrite (bind_run _ _ _ _ _ (transfer_token_run t ty table s Ht)). fold tk. unfold push.
  destruct res as [h|e].
  - destruct Hr as (l & Hl & Hh & Hds & Hnd & Hfresh & ->). pose proof (insert_count R RA Hh Hfresh Htk) as Hcnt.
    destruct (r_avail _ _ _ _ _ _ R) as [La Wa].
    destruct (make_available_run n (upd ix tb s) h tk (Z.of_nat <$> avail v)
      (r + Z.of_nat (length (used v)) + Z.of_nat (length (held v))) (r + Z.of_nat (length (ids v))))
      as (ar & Em & Lar & War);
      [exact (r_tokens _ _ _ _ _ _ R)|exact (insert_lt RA Hh)|by eapply r_16|by eapply r_div|done|done| |exact (r_avail_idx _ _ _ _ _ _ R)| |].
    { rewrite length_fmap. unfold ids in Hcnt. rewrite !length_app in Hcnt. lia. }
    { rewrite length_fmap. unfold ids. rewrite !length_app, !length_fmap. lia. }
    pose proof (repr_insert R Ttb RA Ltb Hl Hh Hds Hnd Hfresh Htk ar Lar War) as R1.
    erewrite bind_run by (rewrite (bind_run _ _ _ _ _ E); exact (bind_run _ _ _ _ _ Em)).
    unfold dev_is_notif, gets, bind at 1 2, ret at 1. cbn [used_no_notify set_avail_idx set_avail_ring set_token_ring upd set_indexes set_descr_table].
    eexists (Ok tt). destruct (used_no_notify s); cbn [negb]; eexists _, _; (split; [done|]);
      (split; [constructor; [by apply (insert_size R RA Hds Hnd Hfresh)|by apply (insert_fresh R Hh Hfresh)]|]).
    + split; [by eexists _, _, _, _|done].
    + split; [|done]. eexists _, _, _, _. apply repr_notified. exact R1.
  - destruct Hr as (-> & Hall & Hsz). unfold bind at 1. rewrite (bind_run _ _ _ _ _ E). unfold ret at 1.
    pose proof (full_size n ix taken' RA Hall) as Hfull. pose proof (r_free _ _ _ _ _ _ R) as Hfree.
    eexists (Err NoDescrAvail), _, (mkVq (inflight v) (avail v) (held v) (used v) 0).
    split; [done|]. split; [constructor; lia|]. split; [|done]. exists n, chains, taken', r. pose proof (@chains_kept _ _ _ _ _ _ R tb Ttb) as Hk.
    destruct R. split; try done.
    + by destruct r_coh0.
    + intros id tk' Hid. destruct (r_chain0 id tk' Hid) as (_ & H1 & H2 & H3 & H4). split_and!; try done; [by eapply Hk|].
      intros i Hi. by apply Sub, H4.
Qed.

Lemma length_ids v : length (ids v) = (length (used v) + length (held v) + length (avail v))%nat.
Proof. unfold ids. rewrite !length_app, length_fmap. lia. Qed.

(** A chain other than the one released keeps its indices. *)
Lemma repr_remove n chains taken r s v id len rest tk ix :
  repr_at n chains taken r s v -> used v = (id, len) :: rest -> inflight v !! id = Some tk ->
  IndexAlloc.repr n ix (taken ∖ list_to_set (chains id).*1) ->
  repr_at n chains (taken ∖ list_to_set (chains id).*1) (r + 1)
    (set_read_idx (wrapu 16 (wrapu 16 r + 1)) (set_indexes ix (set_token_ring (<[id := None]> (token_ring s)) s)))
    (mkVq (delete id (inflight v)) (avail v) (held v) rest (free v + ndesc tk)).
Proof.
  intros R Hu Hid RA. destruct (r_chain _ _ _ _ _ _ R id tk Hid) as (_ & _ & Hds & Hnd & Hin).
  assert (Hc : coherent (mkVq (delete id (inflight v)) (avail v) (held v) rest (free v + ndesc tk))).
  { eapply step_coherent; [by eapply r_coh|by eapply step_recv|done]. }
  pose proof (r_free _ _ _ _ _ _ R) as Hfree. pose proof (r_used _ _ _ _ _ _ R) as [Lu Wu].
  pose proof (r_avail _ _ _ _ _ _ R) as [La Wa].
  pose proof (r_used_idx _ _ _ _ _ _ R) as Eui. pose proof (r_dev_avail _ _ _ _ _ _ R) as Eda. pose proof (r_avail_idx _ _ _ _ _ _ R) as Eai.
  rewrite length_ids in Eai. rewrite Hu in Wu, Wa, Eui, Eda, Eai. cbn [length fmap list_fmap] in *.
  split; try (by eapply R); try done.
  - cbn. rewrite length_insert. by eapply r_tokens.
  - intros i Hi. cbn. destruct (decide (i = id)) as [->|Hne].
    + rewrite lookup_delete_eq. apply list_lookup_insert_eq. by rewrite (r_tokens _ _ _ _ _ _ R).
    + rewrite lookup_delete_ne, list_lookup_insert_ne by done. by eapply r_token.
  - intros id' tk' Hid'. cbn [inflight] in Hid'. apply lookup_delete_Some in Hid' as [Hne Hid']. destruct (r_chain _ _ _ _ _ _ R id' tk' Hid') as (H1 & H2 & H3 & H4 & H5).
    split_and!; try done. intros i Hi. apply elem_of_difference. split; [by apply H5|]. rewrite elem_of_list_to_set. intros Hi'.
    apply Hne. by eapply (r_disj _ _ _ _ _ _ R id id' i).
  - intros i1 i2 i [t1 H1] [t2 H2]. cbn [inflight] in H1, H2. apply lookup_delete_Some in H1 as [_ H1], H2 as [_ H2].
    by eapply (r_disj _ _ _ _ _ _ R).
  - cbn [free]. rewrite size_difference by (intros i Hi; apply elem_of_list_to_set in Hi; by apply Hin).
    rewrite size_list_to_set by done. unfold ndesc. rewrite <- Hds, !length_fmap.
    assert (Hle : (length (chains id) <= base.size taken)%nat).
    { rewrite <- (length_fmap fst (chains id)), <- (size_list_to_set (C := gset nat) (chains id).*1) by done. apply subseteq_size.
      intros i Hi%elem_of_list_to_set. by apply Hin. }
    lia.
  - split; [done|]. cbn [avail_ring set_read_idx set_indexes set_token_ring used held avail].
    by replace (r + 1 + Z.of_nat (length rest) + Z.of_nat (length (held v)))
      with (r + Z.of_nat (S (length rest)) + Z.of_nat (length (held v))) by lia.
  - split; [done|]. by eapply window_tail.
  - cbn. by rewrite wrap_succ.
  - change (used_idx s = wrapu 16 (r + 1 + Z.of_nat (length rest))). rewrite Eui. f_equal. lia.
  - change (dev_avail s = wrapu 16 (r + 1 + Z.of_nat (length rest) + Z.of_nat (length (held v)))). rewrite Eda. f_equal. lia.
  - rewrite length_ids. cbn [used held avail]. change (avail_idx (set_read_idx _ _)) with (avail_idx s). rewrite Eai. f_equal. lia.
Qed.

Lemma split_try_recv_law s v :
  repr s v -> exists r s' v', ring_try_recv s = Done r s' /\ step v (Received r) v' /\ repr s' v'.
Proof.
  intros (n & chains & taken & r & R). pose proof (repr_count R) as Hcnt. pose proof (r_16 _ _ _ _ _ _ R) as H16.
  rewrite length_ids in Hcnt. unfold ring_try_recv, gets at 1 2. unfold bind at 1 2.
  rewrite (r_read_idx _ _ _ _ _ _ R), (r_used_idx _ _ _ _ _ _ R).
  destruct (used v) as [|[id len] rest] eqn:Hu.
  - cbn [length]. rewrite Z.add_0_r, Z.eqb_refl. eexists _, _, _. split; [done|]. split; [by constructor|]. by exists n, chains, taken, r.
  - cbn [length] in *. rewrite (proj2 (Z.eqb_neq _ _)) by (intros E; symmetry in E; apply wrap_eq in E; lia).
    destruct (r_coh _ _ _ _ _ _ R) as [_ Hdom _].
    assert (is_Some (inflight v !! id)) as [tk Hid] by (apply Hdom; unfold ids; rewrite Hu; cbn; set_solver).
    pose proof (repr_id_lt R id ltac:(by eexists)) as Hidn. pose proof (r_tokens _ _ _ _ _ _ R) as Ht.
    destruct (r_used _ _ _ _ _ _ R) as [Lu Wu]. rewrite Hu in Wu. cbn [fmap list_fmap] in Wu. apply window_head in Wu. cbn [fst snd] in Wu.
    unfold gets at 1. unfold bind at 1. rewrite Ht. destruct (Nat.eqb_spec n 0) as [|_]; [pose proof (r_pos _ _ _ _ _ _ R); lia|].
    unfold assert_. cbn [negb]. unfold ret at 1. unfold bind at 1 2. unfold gets at 1.
    rewrite slot_wrap by (by eapply R). rewrite <- Lu, Wu. unfold unwrap at 1, ret at 1. unfold bind at 1. rewrite Nat2Z.id.
    rewrite (r_token _ _ _ _ _ _ R id Hidn), Hid. unfold unwrap at 1 2, ret at 1 2, modify at 1, to_u16. unfold bind at 1 2 3 4.
    rewrite (proj2 (Z.ltb_lt (Z.of_nat id) 65536)) by lia. unfold ret at 1. rewrite Nat2Z.id.
    destruct (r_chain _ _ _ _ _ _ R id tk Hid) as (Hc & Hh & _ & _ & Hin).
    destruct (free_chain_run n (set_token_ring (<[id := None]> (token_ring s)) s) (chains id) (length (used_ring s)) id taken)
      as (ix & E & RA); [exact (r_alloc _ _ _ _ _ _ R)|done|done| |rewrite Lu; by apply (repr_chain_length R id tk)|].
    { apply list.Forall_forall. intros i Hi. eapply IndexAlloc.repr_bound; [by eapply r_alloc|]. by apply Hin. }
    rewrite (bind_run _ _ _ _ _ E). eexists _, _, _. split; [done|]. split; [by eapply step_recv|].
    eexists _, _, _, _. by eapply repr_remove.
Qed.

Lemma split_has_used_law s v : repr s v -> split_has_used_buffers s = Done (bool_decide (used v <> [])) s.
Proof.
  intros (n & chains & taken & r & R). pose proof (repr_count R) as Hcnt. pose proof (r_16 _ _ _ _ _ _ R) as H16.
  rewrite length_ids in Hcnt. unfold split_has_used_buffers, gets, bind, ret. f_equal.
  rewrite (r_read_idx _ _ _ _ _ _ R), (r_used_idx _ _ _ _ _ _ R). destruct (used v) as [|p l].
  - cbn [length]. by rewrite Z.add_0_r, Z.eqb_refl.
  - rewrite bool_decide_true by done. rewrite (proj2 (Z.eqb_neq _ _)); [done|].
    intros E. symmetry in E. apply wrap_eq in E; cbn [length] in *; lia.
Qed.

Lemma split_device_fetch_law s v :
  repr s v -> exists r s' v', split_device_fetch s = Done r s' /\ step v (Fetched r) v' /\ repr s' v'.
Proof.
  intros (n & chains & taken & r & R). pose proof (repr_count R) as Hcnt. pose proof (r_16 _ _ _ _ _ _ R) as H16.
  pose proof (r_avail_idx _ _ _ _ _ _ R) as Eai. pose proof (r_dev_avail _ _ _ _ _ _ R) as Eda.
  rewrite length_ids in Hcnt, Eai. unfold split_device_fetch, gets at 1 2. unfold bind at 1 2. rewrite Eda, Eai.
  rewrite !Nat2Z.inj_add, !Z.add_assoc. destruct (avail v) as [|id rest] eqn:Ha.
  - cbn [length]. rewrite Z.add_0_r, Z.eqb_refl. eexists _, _, _. split; [done|]. split; [by constructor|]. by exists n, chains, taken, r.
  - cbn [length] in *. rewrite (proj2 (Z.eqb_neq _ _)) by (intros E; symmetry in E; apply wrap_eq in E; lia).
    destruct (r_coh _ _ _ _ _ _ R) as [_ Hdom _].
    assert (is_Some (inflight v !! id)) as [tk Hid] by (apply Hdom; unfold ids; rewrite Ha; set_solver).
    destruct (r_avail _ _ _ _ _ _ R) as [La Wa]. rewrite Ha in Wa. cbn [fmap list_fmap] in Wa.
    unfold gets at 1. unfold bind at 1. rewrite La, slot_wrap by (by eapply R). rewrite <- La, (window_head _ _ _ _ Wa).
    unfold unwrap at 1, ret at 1. unfold bind at 1 2. rewrite Nat2Z.id. unfold gets at 1. rewrite (r_table _ _ _ _ _ _ R).
    destruct (r_chain _ _ _ _ _ _ R id tk Hid) as (Hc & Hh & Hds & _ & Hin).
    destruct (read_chain_run _ _ n id Hc Hh (repr_chain_length R id tk Hid)) as (ds & -> & Ev).
    unfold unwrap, ret, gets, modify, bind. rewrite wrap_succ. eexists _, _, _. split; [done|].
    split; [rewrite Ev, Hds; by eapply step_fetch|].
    assert (C : coherent (mkVq (inflight v) rest (held v ++ [id]) (used v) (free v))).
    { eapply step_coherent; [by eapply r_coh|by eapply step_fetch|done]. }
    exists n, chains, taken, r. destruct R. split; try done.
    + split; [done|]. cbn [held used avail]. rewrite length_app. cbn [length].
      replace (r + Z.of_nat (length (used v)) + Z.of_nat (length (held v) + 1))
        with (r + Z.of_nat (length (used v)) + Z.of_nat (length (held v)) + 1) by lia. by eapply window_tail.
    + cbn. rewrite length_app. cbn. f_equal. lia.
    + rewrite length_ids. cbn. rewrite length_app. cbn. rewrite r_avail_idx0, length_ids, Ha. cbn. f_equal. lia.
    + cbn. by rewrite r_held0.
Qed.

Lemma take_out_spec id l :
  match take_out id l with
  | Some l' => exists l1 l2, l = l1 ++ id :: l2 /\ l' = l1 ++ l2
  | None => id ∉ l
  end.
Proof.
  induction l as [|x l IH]; cbn [take_out]; [by apply not_elem_of_nil|]. destruct (Nat.eqb_spec x id) as [->|Hne].
  - by exists [], l.
  - destruct (take_out id l) as [l'|]; cbn [fmap option_fmap option_map].
    + destruct IH as (l1 & l2 & -> & ->). by exists (x :: l1), l2.
    + rewrite elem_of_cons. by intros [->|?].
Qed.

Lemma split_device_use_law s v id len :
  repr s v -> in_u 32 len -> exists b s' v', split_device_use id len s = Done b s' /\
    step v (if b then Used id len else NotHeld id) v' /\ repr s' v'.
Proof.
  intros (n & chains & taken & r & R) Hlen. pose proof (repr_count R) as Hcnt. rewrite length_ids in Hcnt.
  pose proof (take_out_spec id (dev_held s)) as T. unfold split_device_use, gets at 1. unfold bind at 1.
  rewrite (r_held _ _ _ _ _ _ R) in *. destruct (take_out id (held v)) as [l|].
  - destruct T as (l1 & l2 & Hh & ->). destruct (r_used _ _ _ _ _ _ R) as [Lu Wu].
    unfold modify, gets, bind. cbn [set_dev_held set_used_ring used_idx used_ring].
    rewrite Lu, (r_used_idx _ _ _ _ _ _ R), wrap_succ, slot_wrap by (by eapply R).
    eexists true, _, _. split; [done|]. split; [by eapply step_use|].
    assert (C : coherent (mkVq (inflight v) (avail v) (l1 ++ l2) (used v ++ [(id, len)]) (free v))).
    { eapply step_coherent; [by eapply r_coh|by eapply step_use|done]. }
    pose proof (f_equal length Hh) as Hl. rewrite length_app in Hl. cbn in Hl.
    exists n, chains, taken, r. destruct R. split; try done.
    + destruct r_avail0 as [La Wa]. split; [done|]. cbn. rewrite !length_app. cbn.
      by replace (r + Z.of_nat (length (used v) + 1) + Z.of_nat (length l1 + length l2))
        with (r + Z.of_nat (length (used v)) + Z.of_nat (length (held v))) by lia.
    + split; [by cbn; rewrite length_insert|]. cbn. rewrite fmap_app. cbn.
      pose proof (window_snoc (used_ring s) r ((fun p => (Z.of_nat p.1, p.2)) <$> used v) (Z.of_nat id, len) Wu) as W.
      rewrite length_fmap, Lu in W. apply W. rewrite Hh in Hcnt. rewrite length_app in Hcnt. cbn in Hcnt. lia.
    + cbn. rewrite length_app. cbn. f_equal. lia.
    + cbn. rewrite !length_app. cbn. rewrite r_dev_avail0. f_equal. lia.
    + rewrite length_ids. cbn. rewrite !length_app. cbn. rewrite r_avail_idx0, length_ids. f_equal. lia.
  - eexists false, _, _. split; [done|]. split; [by constructor|]. by exists n, chains, taken, r.
Qed.

Lemma repr_no_interrupt s v b : repr s v -> repr (set_avail_no_interrupt b s) v.
Proof. intros (n & chains & taken & r & []). exists n, chains, taken, r. by split. Qed.

#[export] Instance split_laws : VirtQueueLaws ring repr.
Proof.
  split.
  - intros s v (n & chains & taken & r & R). by eapply r_coh.
  - intros s v t ty table R Ht. destruct (split_dispatch_run s v t ty table R Ht) as (r & s' & v' & E & St & R' & _). by exists r, s', v'.
  - exact split_try_recv_law.
  - exact split_has_used_law.
  - intros s v R. eexists. split; [done|]. by apply repr_no_interrupt.
  - intros s v R. eexists. split; [done|]. by apply repr_no_interrupt.
  - exact split_device_fetch_law.
  - exact split_device_use_law.
Qed.

(** ** New queues *)

Lemma lookup_replicate_None n i : (i < n)%nat -> replicate n (@None TransferToken) !! i = Some None.
Proof. intros Hi. by apply lookup_replicate_2. Qed.

Lemma new_repr num_max max_size idx :
  0 < Z.min max_size num_max < 65536 -> (Z.min max_size num_max | 65536) ->
  exists s, new (Some num_max) max_size idx = Ok s /\ repr s (empty (Z.to_nat (Z.min max_size num_max))).
Proof.
  intros Hs Hd. eexists. split; [done|]. set (n := Z.to_nat _).
  assert (Hn : Z.of_nat n = Z.min max_size num_max) by lia.
  exists n, (fun _ => []), ∅, 0. split; cbn; rewrite ?length_replicate; try done; try lia.
  - split; cbn; [constructor| |done]. intros id. rewrite lookup_empty. split; [intros Hi; by apply elem_of_nil in Hi|by intros []].
  - by rewrite Hn.
  - intros i Hi. rewrite lookup_empty. by apply lookup_replicate_None.
  - by intros id id' i [].
  - apply IndexAlloc.new_spec.
Qed.

(** ** Properties *)

(** C7: The split virtqueue implements the abstract queue: on a new queue whose
    size divides 65536, any sequence of dispatches, receptions and accesses of
    the device ends without a panic and makes the observations of a run of the
    transition system: a buffer is refused exactly when there are too few
    descriptors, the device is shown exactly the memory of each accepted buffer
    in the order of the dispatches, and each buffer comes back once, with the
    length the device gave; so the buffers accepted are those received and
    those still under way. *)
Theorem split_vq_refines num_max max_size idx ops :
  0 < Z.min max_size num_max < 65536 -> (Z.min max_size num_max | 65536) -> Forall op_ok ops ->
  exists s0 l s v, new (Some num_max) max_size idx = Ok s0 /\ perform_all ops s0 = Done l s /\
    steps (empty (Z.to_nat (Z.min max_size num_max))) l v /\
    accepted_of l ≡ₚ (buffer_of <$> received_of l) ++ under_way v.
Proof.
  intros Hs Hd Ho. destruct (new_repr num_max max_size idx Hs Hd) as (s0 & E0 & R0).
  destruct (perform_all_steps ops s0 _ R0 Ho) as (l & s & v & E & St & R).
  exists s0, l, s, v. split_and!; try done. apply steps_conserve in St. by rewrite app_nil_r in St.
Qed.

Definition small_buffer (k : nat) : AvailBufferToken := mkToken (replicate k (Sized 4096 16)) [Vector 8192 0 64].
Lemma small_buffer_ok k : Z.of_nat k < 60000 -> token_ok (small_buffer k).
Proof.
  intros Hk. split; cbn [send_buff recv_buff small_buffer]; rewrite ?length_replicate; cbn [length]; try lia.
  - apply Forall_replicate. cbn. unfold u32_max. lia.
  - constructor; [|constructor]. cbn. unfold u32_max. lia.
Qed.

Ltac ops_ok :=
  repeat (apply Forall_cons_2; [first [exact I | split; lia | apply small_buffer_ok; lia]|]); constructor.

Lemma split_vq_refines_witness :
  exists s0 l s v, new (Some 4) 8 0 = Ok s0 /\
    perform_all [ODispatch (small_buffer 1) Direct 0; OFetch; OUse 1 64; ORecv; ORecv] s0 = Done l s /\
    steps (empty 4) l v /\ accepted_of l ≡ₚ (buffer_of <$> received_of l) ++ under_way v.
Proof.
  apply (split_vq_refines 4 8 0 [ODispatch (small_buffer 1) Direct 0; OFetch; OUse 1 64; ORecv; ORecv]).
  - lia.
  - exists 16384. reflexivity.
  - ops_ok.
Defined.

(** A queue without free descriptors and without buffers stays that way. *)
Lemma dead_steps v l v' : v = mkVq ∅ [] [] [] 0 -> steps v l v' ->
  Forall (fun e => match e with Dispatched tk _ => token_ok (buff_tkn tk) | _ => True end) l -> accepted_of l = [].
Proof.
  intros Hv St. revert Hv. induction St as [|v e v1 l v2 S1 _ IH]; intros -> He; [done|].
  apply Forall_cons_1 in He as [He Hl].
  inversion S1; subst; cbn [avail held used free inflight] in *; try done; try by apply IH.
  - pose proof (ndesc_pos tk He). lia.
  - assert (f = O) as -> by lia. by apply IH.
  - by apply app_cons_not_nil in H.
Qed.

(** The events of a run carry the buffers dispatched. *)
Lemma perform_all_tokens ops : forall s l s', Forall op_ok ops -> perform_all ops s = Done l s' ->
  Forall (fun e => match e with Dispatched tk _ => token_ok (buff_tkn tk) | _ => True end) l.
Proof.
  induction ops as [|o ops IH]; intros s l s' Ho E; cbn [perform_all] in E; [by unfold ret in E; simplify_eq|].
  apply Forall_cons_1 in Ho as [Ho Hos]. exec_inv. constructor; [|by eapply IH].
  destruct o; cbn [perform] in *; exec_inv; try done; [by cbn; rewrite transfer_buffer|].
  match goal with |- context [if ?b then _ else _] => by destruct b end.
Qed.

(** A push that fails does not release the descriptors it had taken: after one
    dispatch of a buffer with more pieces than a new queue has descriptors, no
    buffer is accepted any more, whatever the driver and the device do. *)
Theorem split_failed_push_bricks num_max max_size idx t table ops :
  0 < Z.min max_size num_max < 65536 -> (Z.min max_size num_max | 65536) ->
  token_ok t -> Z.min max_size num_max < Z.of_nat (length (send_buff t) + length (recv_buff t)) ->
  Forall op_ok ops ->
  exists s0 s1 l s, new (Some num_max) max_size idx = Ok s0 /\
    split_dispatch t false Direct table s0 = Done (Err NoDescrAvail) s1 /\
    perform_all ops s1 = Done l s /\ accepted_of l = [].
Proof.
  intros Hs Hd Ht Hbig Ho. destruct (new_repr num_max max_size idx Hs Hd) as (s0 & E0 & R0).
  destruct (split_dispatch_run s0 _ t Direct table R0 Ht) as (r & s1 & v1 & E1 & St & R1 & Hf).
  assert (Hnd : ndesc (mkTransfer t None) = (length (send_buff t) + length (recv_buff t))%nat) by apply descs_of_length.
  inversion St; subst; cbn [avail held used free inflight empty] in *; [lia|].
  specialize (Hf eq_refl). subst. destruct (perform_all_steps ops s1 _ R1 Ho) as (l & s & v & E & Sts & R).
  exists s0, s1, l, s. split_and!; try done. by eapply dead_steps; [|exact Sts|by eapply perform_all_tokens].
Qed.

Lemma split_failed_push_bricks_witness :
  exists s0 s1 l s, new (Some 4) 4 0 = Ok s0 /\
    split_dispatch (small_buffer 4) false Direct 0 s0 = Done (Err NoDescrAvail) s1 /\
    perform_all [ODispatch (small_buffer 0) Indirect 0; ODispatch (small_buffer 0) Direct 0] s1 = Done l s /\ accepted_of l = [].
Proof.
  apply (split_failed_push_bricks 4 4 0 (small_buffer 4) 0
    [ODispatch (small_buffer 0) Indirect 0; ODispatch (small_buffer 0) Direct 0]).
  - lia.
  - exists 16384. reflexivity.
  - apply small_buffer_ok. lia.
  - vm_compute. reflexivity.
  - ops_ok.
Defined.

(** [dispatch_blocking] on an idle queue: it returns the buffer dispatched, with
    the length the device wrote, as soon as the device has served it, however
    long it polls before; the queue is idle again and has its descriptors back.
    Stated of any queue that keeps the laws. *)
Theorem dispatch_blocking_returns {S} `{VirtQueue S} (repr : S -> vq -> Prop) `{!VirtQueueLaws S repr} s n t ty table len k rest :
  repr s (empty n) -> token_ok t -> buff_tkn (transfer t ty table) = t ->
  (ndesc (transfer t ty table) <= n)%nat -> in_u 32 len ->
  exists s', dispatch_blocking (replicate k [] ++ [AServe len] :: rest) t ty table s =
      Done (Ok (Some (from_avail_buffer_token t len))) s' /\ repr s' (empty n).
Proof.
  intros R Ht Hb Hn Hl. destruct (dispatch_law s _ t ty table R Ht) as (r & s1 & v1 & E1 & St & R1).
  unfold dispatch_blocking. rewrite (bind_run _ _ _ _ _ E1).
  inversion St; subst; cbn [avail held used free inflight empty] in *; [|lia].
  destruct (disable_law _ _ R1) as (s2 & E2 & R2). rewrite (bind_run _ _ _ _ _ E2). rewrite insert_empty in R2.
  destruct (recv_loop_served _ id _ len k rest s2 R2 Hl) as (s3 & E3 & R3). rewrite (bind_run _ _ _ _ _ E3).
  destruct (enable_law _ _ R3) as (s4 & E4 & R4). rewrite (bind_run _ _ _ _ _ E4). exists s4. rewrite Hb. split; [done|].
  by replace (n - ndesc (transfer t ty table) + ndesc (transfer t ty table))%nat with n in R4 by lia.
Qed.

Lemma dispatch_blocking_returns_witness :
  exists s0 s', new (Some 4) 4 0 = Ok s0 /\
    dispatch_blocking ([[]; []; [AServe 40]]) (small_buffer 2) Direct 0 s0 =
      Done (Ok (Some (from_avail_buffer_token (small_buffer 2) 40))) s' /\ repr s' (empty 4).
Proof.
  destruct (new_repr 4 4 0 ltac:(lia) ltac:(by exists 16384)) as (s0 & E0 & R0).
  destruct (dispatch_blocking_returns repr s0 4 (small_buffer 2) Direct 0 40 2 [] R0) as (s' & E & R').
  - apply small_buffer_ok. lia.
  - reflexivity.
  - vm_compute. lia.
  - split; lia.
  - exists s0, s'. split; [exact E0|]. split; [exact E|exact R'].
Defined.
End SplitProps.
