(* ===== verification/PackedVq.v ===== *)
(** The packed virtqueue, [src/src/drivers/virtio/virtqueue/packed.rs]: one ring
    of descriptors that driver and device both write, told apart by the
    available and used flags and the wrap counters.  Memory fences are not
    modelled: an operation of the driver and one of the device do not overlap. *)

From S2P Require Import Prelude Errors IndexAlloc Virtq VqSpec.
Import Virtq.

Module PackedVq.

(** An offset of 15 bits and a wrap counter. *)
Record EventSuppressDesc : Set := mkESD { desc_event_off : Z; desc_event_wrap : Z }.
Inductive RingEventFlags : Set := Enable | Disable | DescEvent | Reserved.
Record EventSuppress : Set := mkES { es_desc : EventSuppressDesc; es_flags : RingEventFlags }.
Definition es_zero : EventSuppress := mkES (mkESD 0 0) Enable.

#[export] Instance RingEventFlags_eq : EqDecision RingEventFlags.
Proof. solve_decision. Defined.
#[export] Instance EventSuppressDesc_eq : EqDecision EventSuppressDesc.
Proof. solve_decision. Defined.

Definition set_off (off : Z) (d : EventSuppressDesc) : EventSuppressDesc := mkESD (wrapu 15 off) (desc_event_wrap d).
Definition flip_wrap (d : EventSuppressDesc) : EventSuppressDesc := mkESD (desc_event_off d) (Z.lxor (desc_event_wrap d) 1).

(** [wrapping_contains] of the range [lo..hi] *)
Definition wrapping_contains (lo hi item : EventSuppressDesc) : bool :=
  if desc_event_wrap lo =? desc_event_wrap hi then
    (desc_event_wrap item =? desc_event_wrap lo) && (desc_event_off lo <=? desc_event_off item) &&
    (desc_event_off item <? desc_event_off hi)
  else if desc_event_wrap item =? desc_event_wrap lo then desc_event_off lo <=? desc_event_off item
  else desc_event_off item <? desc_event_off hi.

(** [DescriptorRing] and [PackedVq], with the notifications sent to the device
    and, last, what the device remembers: where it looks for the next available
    buffer, where it writes the next used descriptor, and the buffers it works
    on with the number of descriptors of each. *)
Record vqueue : Type := mkVqueue {
  descs : list Desc;
  tkn_ref_ring : list (option TransferToken);
  write_index : EventSuppressDesc;
  capacity : Z;
  poll_index : EventSuppressDesc;
  indexes : list Z;
  drv_f_notif_idx : bool;
  drv_event : EventSuppress;
  dev_f_notif_idx : bool;
  dev_event : EventSuppress;
  size : Z;
  index : Z;
  last_next : EventSuppressDesc;
  notified : list EventSuppressDesc;
  dev_next : EventSuppressDesc;
  dev_used : EventSuppressDesc;
  dev_held : list (nat * Z);
}.

Definition set_descs (x : list Desc) (s : vqueue) : vqueue :=
  mkVqueue x (tkn_ref_ring s) (write_index s) (capacity s) (poll_index s) (indexes s) (drv_f_notif_idx s) (drv_event s) (dev_f_notif_idx s) (dev_event s) (size s) (index s) (last_next s) (notified s) (dev_next s) (dev_used s) (dev_held s).
Definition set_tkn_ref_ring (x : list (option TransferToken)) (s : vqueue) : vqueue :=
  mkVqueue (descs s) x (write_index s) (capacity s) (poll_index s) (indexes s) (drv_f_notif_idx s) (drv_event s) (dev_f_notif_idx s) (dev_event s) (size s) (index s) (last_next s) (notified s) (dev_next s) (dev_used s) (dev_held s).
Definition set_write_index (x : EventSuppressDesc) (s : vqueue) : vqueue :=
  mkVqueue (descs s) (tkn_ref_ring s) x (capacity s) (poll_index s) (indexes s) (drv_f_notif_idx s) (drv_event s) (dev_f_notif_idx s) (dev_event s) (size s) (index s) (last_next s) (notified s) (dev_next s) (dev_used s) (dev_held s).
Definition set_capacity (x : Z) (s : vqueue) : vqueue :=
  mkVqueue (descs s) (tkn_ref_ring s) (write_index s) x (poll_index s) (indexes s) (drv_f_notif_idx s) (drv_event s) (dev_f_notif_idx s) (dev_event s) (size s) (index s) (last_next s) (notified s) (dev_next s) (dev_used s) (dev_held s).
Definition set_poll_index (x : EventSuppressDesc) (s : vqueue) : vqueue :=
  mkVqueue (descs s) (tkn_ref_ring s) (write_index s) (capacity s) x (indexes s) (drv_f_notif_idx s) (drv_event s) (dev_f_notif_idx s) (dev_event s) (size s) (index s) (last_next s) (notified s) (dev_next s) (dev_used s) (dev_held s).
Definition set_indexes (x : list Z) (s : vqueue) : vqueue :=
  mkVqueue (descs s) (tkn_ref_ring s) (write_index s) (capacity s) (poll_index s) x (drv_f_notif_idx s) (drv_event s) (dev_f_notif_idx s) (dev_event s) (size s) (index s) (last_next s) (notified s) (dev_next s) (dev_used s) (dev_held s).
Definition set_drv_event (x : EventSuppress) (s : vqueue) : vqueue :=
  mkVqueue (descs s) (tkn_ref_ring s) (write_index s) (capacity s) (poll_index s) (indexes s) (drv_f_notif_idx s) x (dev_f_notif_idx s) (dev_event s) (size s) (index s) (last_next s) (notified s) (dev_next s) (dev_used s) (dev_held s).
Definition set_last_next (x : EventSuppressDesc) (s : vqueue) : vqueue :=
  mkVqueue (descs s) (tkn_ref_ring s) (write_index s) (capacity s) (poll_index s) (indexes s) (drv_f_notif_idx s) (drv_event s) (dev_f_notif_idx s) (dev_event s) (size s) (index s) x (notified s) (dev_next s) (dev_used s) (dev_held s).
Definition set_notified (x : list EventSuppressDesc) (s : vqueue) : vqueue :=
  mkVqueue (descs s) (tkn_ref_ring s) (write_index s) (capacity s) (poll_index s) (indexes s) (drv_f_notif_idx s) (drv_event s) (dev_f_notif_idx s) (dev_event s) (size s) (index s) (last_next s) x (dev_next s) (dev_used s) (dev_held s).
Definition set_dev_next (x : EventSuppressDesc) (s : vqueue) : vqueue :=
  mkVqueue (descs s) (tkn_ref_ring s) (write_index s) (capacity s) (poll_index s) (indexes s) (drv_f_notif_idx s) (drv_event s) (dev_f_notif_idx s) (dev_event s) (size s) (index s) (last_next s) (notified s) x (dev_used s) (dev_held s).
Definition set_dev_used (x : EventSuppressDesc) (s : vqueue) : vqueue :=
  mkVqueue (descs s) (tkn_ref_ring s) (write_index s) (capacity s) (poll_index s) (indexes s) (drv_f_notif_idx s) (drv_event s) (dev_f_notif_idx s) (dev_event s) (size s) (index s) (last_next s) (notified s) (dev_next s) x (dev_held s).
Definition set_dev_held (x : list (nat * Z)) (s : vqueue) : vqueue :=
  mkVqueue (descs s) (tkn_ref_ring s) (write_index s) (capacity s) (poll_index s) (indexes s) (drv_f_notif_idx s) (drv_event s) (dev_f_notif_idx s) (dev_event s) (size s) (index s) (last_next s) (notified s) (dev_next s) (dev_used s) x.

(** ** [DescriptorRing] *)

Definition to_marked_avail (flags : DescF) : M vqueue DescF :=
  let! w := gets write_index in
  let avail := negb (desc_event_wrap w =? 0) in
  ret (with_USED (negb avail) (with_AVAIL avail flags)).

Definition is_marked_used (flags : DescF) : M vqueue bool :=
  let! p := gets poll_index in
  ret (if negb (desc_event_wrap p =? 0) then AVAIL flags && USED flags else negb (AVAIL flags || USED flags)).

(** [WriteCtrl]; the ring it borrows is the state. *)
Record WriteCtrl : Type := mkWrite { start : Z; position : Z; modulo : Z; first_flags : DescF; buff_id : Z }.

(** [WriteCtrl::incrmt] *)
Definition write_incrmt (c : WriteCtrl) : M vqueue WriteCtrl :=
  let! cap := gets capacity in
  do! assert_ (negb (cap =? 0)) "assertion failed: self.desc_ring.capacity != 0" in
  do! modify (set_capacity (cap - 1)) in
  let! desc := gets write_index in
  let desc := if wrapu 16 (position c + 1) =? modulo c then flip_wrap desc else desc in
  let off := wrapu 16 (desc_event_off desc + 1) mod modulo c in
  do! modify (set_write_index (set_off off desc)) in
  ret (mkWrite (start c) (wrapu 16 (position c + 1) mod modulo c) (modulo c) (first_flags c) (buff_id c)).

Definition write_desc (d : Desc) (c : WriteCtrl) : M vqueue WriteCtrl :=
  let d := set_link (buff_id c) d in
  let! f := to_marked_avail (d_flags d) in
  let '(d, c) :=
    if start c =? position c then (d, mkWrite (start c) (position c) (modulo c) f (buff_id c))
    else (set_flags f d, c) in
  let! l := gets descs in
  do! assert_ (position c <? Z.of_nat (length l)) "index out of bounds" in
  do! modify (set_descs (<[Z.to_nat (position c) := d]> l)) in
  write_incrmt c.

Fixpoint write_descs (ds : list Desc) (c : WriteCtrl) : M vqueue WriteCtrl :=
  match ds with
  | [] => ret c
  | d :: ds => let! c := write_desc d c in write_descs ds c
  end.

Definition make_avail_with_state (tkn : TransferToken) (start buff_id : Z) (flags : DescF) : M vqueue unit :=
  let! l := gets tkn_ref_ring in
  do! assert_ (buff_id <? Z.of_nat (length l)) "index out of bounds" in
  do! modify (set_tkn_ref_ring (<[Z.to_nat buff_id := Some tkn]> l)) in
  let! ds := gets descs in
  let! d := unwrap (ds !! Z.to_nat start) "index out of bounds" in
  modify (set_descs (<[Z.to_nat start := set_flags flags d]> ds)).

Definition make_avail (c : WriteCtrl) (tkn : TransferToken) : M vqueue unit :=
  do! assert_ (negb (start c =? position c)) "assertion failed: self.start != self.position" in
  make_avail_with_state tkn (start c) (buff_id c) (first_flags c).

Definition to_u16 {S} (n : nat) : M S Z :=
  if Z.of_nat n <? 65536 then ret (Z.of_nat n) else panic "called `Result::unwrap()`".

Definition get_write_ctrler : M vqueue (Result VirtqError WriteCtrl) :=
  let! ix := gets indexes in
  match IndexAlloc.allocate ix with
  | None => ret (Err NoDescrAvail)
  | Some (desc_id, ix) =>
      do! modify (set_indexes ix) in
      let! w := gets write_index in
      let! l := gets descs in
      let! modulo := to_u16 (length l) in
      let! id := to_u16 desc_id in
      ret (Ok (mkWrite (desc_event_off w) (desc_event_off w) modulo DescF_empty id))
  end.

Definition push_without_making_available (tkn : TransferToken) : M vqueue (Result VirtqError WriteCtrl) :=
  let! n := num_consuming_descr tkn in
  let! cap := gets capacity in
  if cap <? n then ret (Err NoDescrAvail)
  else
    let! r := get_write_ctrler in
    match r with
    | Err e => ret (Err e)
    | Ok ctrl =>
        match ctrl_desc tkn with
        | Some table => let! c := write_desc (indirect_desc table) ctrl in ret (Ok c)
        | None =>
            let! r := descriptor_iter (buff_tkn tkn) in
            match r with
            | Err e => ret (Err e)
            | Ok ds => let! c := write_descs ds ctrl in ret (Ok c)
            end
        end
    end.

Fixpoint make_avail_all (c : WriteCtrl) (l : list TransferToken) : M vqueue unit :=
  match l with
  | [] => ret tt
  | tkn :: l => do! make_avail c tkn in make_avail_all c l
  end.

Definition push_batch (l : list TransferToken) : M vqueue (Result VirtqError EventSuppressDesc) :=
  match l with
  | [] => ret (Err BufferNotSpecified)
  | first_tkn :: rest =>
      let! r := push_without_making_available first_tkn in
      match r with
      | Err e => ret (Err e)
      | Ok ctrl =>
          do! make_avail_all ctrl rest in
          do! make_avail_with_state first_tkn (start ctrl) (buff_id ctrl) (first_flags ctrl) in
          let! w := gets write_index in
          ret (Ok w)
      end
  end.

Definition push (tkn : TransferToken) : M vqueue (Result VirtqError EventSuppressDesc) := push_batch [tkn].

(** [ReadCtrl::incrmt] *)
Definition read_incrmt (modulo : Z) : M vqueue unit :=
  let! desc := gets poll_index in
  let desc := if wrapu 16 (desc_event_off desc + 1) =? modulo then flip_wrap desc else desc in
  let off := wrapu 16 (desc_event_off desc + 1) mod modulo in
  do! modify (set_poll_index (set_off off desc)) in
  let! cap := gets capacity in
  let! l := gets descs in
  let! len := to_u16 (length l) in
  do! assert_ (cap <=? len) "assertion failed: self.desc_ring.capacity <= len" in
  modify (set_capacity (wrapu 16 (cap + 1))).

Fixpoint read_incrmts (k : nat) (modulo : Z) : M vqueue unit :=
  match k with
  | O => ret tt
  | S k => do! read_incrmt modulo in read_incrmts k modulo
  end.

(** The part of [poll_next] for a descriptor marked as used. *)
Definition poll_used (modulo : Z) (desc : Desc) : M vqueue (option (TransferToken * Z)) :=
  let id := Z.to_nat (d_link desc) in
  let! tokens := gets tkn_ref_ring in
  let! cell := unwrap (tokens !! id) "index out of bounds" in
  do! modify (set_tkn_ref_ring (<[id := None]> tokens)) in
  let! tkn := unwrap cell "The buff_id is incorrect or the reference to the TransferToken was misplaced." in
  let write_len := d_len desc in
  let! k := num_consuming_descr tkn in
  do! read_incrmts (Z.to_nat k) modulo in
  let! ix := gets indexes in
  do! modify (set_indexes (IndexAlloc.deallocate id ix)) in
  ret (Some (tkn, write_len)).

Definition poll_next : M vqueue (option (TransferToken * Z)) :=
  let! p := gets poll_index in
  let! l := gets descs in
  let! modulo := to_u16 (length l) in
  let! desc := unwrap (l !! Z.to_nat (desc_event_off p)) "index out of bounds" in
  let! marked := is_marked_used (d_flags desc) in
  if negb marked then ret None else poll_used modulo desc.

Definition packed_try_recv : M vqueue (Result VirtqError UsedBufferToken) :=
  let! o := poll_next in
  match o with
  | Some (tkn, written_len) => ret (Ok (from_avail_buffer_token (buff_tkn tkn) written_len))
  | None => ret (Err NoNewUsed)
  end.

(** ** Notifications *)

Definition drv_set_flags (f : RingEventFlags) : M vqueue unit :=
  let! e := gets drv_event in modify (set_drv_event (mkES (es_desc e) f)).
Definition drv_enable_notif : M vqueue unit := drv_set_flags Enable.
Definition drv_disable_notif : M vqueue unit := drv_set_flags Disable.
Definition drv_enable_specific (d : EventSuppressDesc) : M vqueue unit :=
  let! idx := gets drv_f_notif_idx in
  if idx then modify (set_drv_event (mkES d DescEvent)) else ret tt.

(** [enable_notif_specific], which nothing calls *)
Definition enable_notif_specific : M vqueue unit :=
  modify (fun s => mkVqueue (descs s) (tkn_ref_ring s) (write_index s) (capacity s) (poll_index s) (indexes s) (drv_f_notif_idx s) (drv_event s) true (dev_event s) (size s) (index s) (last_next s) (notified s) (dev_next s) (dev_used s) (dev_held s)).

Definition dev_is_notif : M vqueue bool :=
  let! e := gets dev_event in ret (bool_decide (es_flags e = Enable)).
Definition dev_notif_specific : M vqueue (option EventSuppressDesc) :=
  let! idx := gets dev_f_notif_idx in
  if negb idx then ret None
  else
    let! e := gets dev_event in
    if bool_decide (es_flags e <> DescEvent) then ret None else ret (Some (es_desc e)).

(** ** [PackedVq] *)

Definition create_indirect_ctrl (t : AvailBufferToken) : M vqueue (Result VirtqError (list Desc)) := descriptor_iter t.

Definition notify (next_idx : EventSuppressDesc) : M vqueue unit :=
  let! l := gets notified in
  do! modify (set_notified (l ++ [next_idx])) in
  modify (set_last_next next_idx).

Definition packed_dispatch (t : AvailBufferToken) (notif : bool) (ty : BufferType) (table : Z)
    : M vqueue (Result VirtqError unit) :=
  let! transfer_tkn := transfer_token create_indirect_ctrl table t ty in
  let! r := push transfer_tkn in
  match r with
  | Err e => ret (Err e)
  | Ok next_idx =>
      do! (if notif then drv_enable_specific next_idx else ret tt) in
      let! o := dev_notif_specific in
      let! last := gets last_next in
      let! wanted := dev_is_notif in
      do! (if wanted || bool_decide (o = Some last) then notify next_idx else ret tt) in
      ret (Ok tt)
  end.

(** The iterator over the transfer tokens is lazy; making them changes nothing
    and is done first here. *)
Fixpoint transfer_tokens (l : list (AvailBufferToken * BufferType * Z)) : M vqueue (list TransferToken) :=
  match l with
  | [] => ret []
  | (t, ty, table) :: l =>
      let! tk := transfer_token create_indirect_ctrl table t ty in
      let! rest := transfer_tokens l in
      ret (tk :: rest)
  end.

(** [dispatch_batch], and [dispatch_batch_await], whose body is the same *)
Definition dispatch_batch (l : list (AvailBufferToken * BufferType * Z)) (notif : bool)
    : M vqueue (Result VirtqError unit) :=
  do! assert_ (negb (length l =? 0)%nat) "assertion failed: !buffer_tkns.is_empty()" in
  let! tkns := transfer_tokens l in
  let! r := push_batch tkns in
  match r with
  | Err e => ret (Err e)
  | Ok next_idx =>
      do! (if notif then drv_enable_specific next_idx else ret tt) in
      let! o := dev_notif_specific in
      let! last := gets last_next in
      let specific := match o with Some idx => wrapping_contains last next_idx idx | None => false end in
      let! wanted := dev_is_notif in
      do! (if wanted || specific then notify next_idx else ret tt) in
      ret (Ok tt)
  end.

Definition packed_has_used_buffers : M vqueue bool :=
  let! p := gets poll_index in
  let! l := gets descs in
  let! desc := unwrap (l !! Z.to_nat (desc_event_off p)) "index out of bounds" in
  is_marked_used (d_flags desc).

(** [virtio::F::IN_ORDER] *)
Definition IN_ORDER : Z := 2 ^ 35.

(** [DescriptorRing::new] and [PackedVq::new] once the size has been agreed on:
    [queue] is the answer of [select_vq], with the largest size the device
    allows. *)
Definition new (queue : option Z) (max_size idx : Z) (in_order event_idx : bool) : Result VirtqError vqueue :=
  if in_order then Err (FeatureNotSupported IN_ORDER)
  else
    match queue with
    | None => Err (QueueNotExisting idx)
    | Some num_max =>
        if (max_size =? 0) || (32768 <? max_size) then Err (QueueSizeNotAllowed max_size)
        else
          let size := Z.min max_size num_max in
          let n := Z.to_nat size in
          let first := mkESD 0 1 in
          Ok (mkVqueue (replicate n (mkDesc 0 0 DescF_empty 0)) (replicate n None) first size first (IndexAlloc.new n)
                event_idx es_zero false es_zero size idx (mkESD 0 0) [] first first [])
    end.

(** ** The device *)

(** A place [k] descriptors further. *)
Definition advance (n k : Z) (d : EventSuppressDesc) : EventSuppressDesc :=
  let off := desc_event_off d + k in
  if n <=? off then mkESD (off - n) (1 - desc_event_wrap d) else mkESD off (desc_event_wrap d).

(** The descriptors from offset [off] on, up to the first without [NEXT]. *)
Fixpoint read_chain (fuel : nat) (l : list Desc) (off : Z) : option (list Desc) :=
  match fuel with
  | O => None
  | S fuel =>
      match l !! slot (length l) off with
      | Some d => if NEXT (d_flags d) then (fun ds => d :: ds) <$> read_chain fuel l (off + 1) else Some [d]
      | None => None
      end
  end.

(** A descriptor is available when its flags differ and [AVAIL] is the wrap
    counter; the buffer's number is that of its last descriptor. *)
Definition packed_device_fetch : M vqueue (option (nat * list (Z * Z * bool * bool))) :=
  let! p := gets dev_next in
  let! l := gets descs in
  let! d := unwrap (l !! Z.to_nat (desc_event_off p)) "device: no such descriptor" in
  let wrap := negb (desc_event_wrap p =? 0) in
  if Bool.eqb (AVAIL (d_flags d)) wrap && Bool.eqb (USED (d_flags d)) (negb wrap) then
    let! ds := unwrap (read_chain (length l) l (desc_event_off p)) "device: bad descriptor chain" in
    let! last := unwrap (list.last ds) "device: bad descriptor chain" in
    let id := Z.to_nat (d_link last) in
    let k := Z.of_nat (length ds) in
    do! modify (set_dev_next (advance (Z.of_nat (length l)) k p)) in
    let! h := gets dev_held in
    do! modify (set_dev_held (h ++ [(id, k)])) in
    ret (Some (id, view <$> ds))
  else ret None.

Fixpoint take_out (id : nat) (l : list (nat * Z)) : option (Z * list (nat * Z)) :=
  match l with
  | [] => None
  | (x, k) :: l =>
      if (x =? id)%nat then Some (k, l) else (fun p => (p.1, (x, k) :: p.2)) <$> take_out id l
  end.

(** One used descriptor is written for a buffer, with both flags equal to the
    device's wrap counter; the rest of the buffer's descriptors are skipped. *)
Definition packed_device_use (id : nat) (len : Z) : M vqueue bool :=
  let! h := gets dev_held in
  match take_out id h with
  | None => ret false
  | Some (k, h) =>
      do! modify (set_dev_held h) in
      let! p := gets dev_used in
      let! l := gets descs in
      let wrap := negb (desc_event_wrap p =? 0) in
      let d := mkDesc 0 len (mkF false false false wrap wrap) (Z.of_nat id) in
      do! modify (set_descs (<[Z.to_nat (desc_event_off p) := d]> l)) in
      do! modify (set_dev_used (advance (Z.of_nat (length l)) k p)) in
      ret true
  end.

Definition packed_transfer (t : AvailBufferToken) (ty : BufferType) (table : Z) : TransferToken :=
  match ty with
  | Direct => mkTransfer t None
  | Indirect => mkTransfer t (Some (table, descs_of t))
  end.

#[export] Instance packed_queue : VqSpec.VirtQueue vqueue := {
  VqSpec.transfer := packed_transfer;
  VqSpec.dispatch := packed_dispatch;
  VqSpec.try_recv := packed_try_recv;
  VqSpec.has_used_buffers := packed_has_used_buffers;
  VqSpec.enable_notifs := drv_enable_notif;
  VqSpec.disable_notifs := drv_disable_notif;
  VqSpec.device_fetch := packed_device_fetch;
  VqSpec.device_use := packed_device_use;
}.
End PackedVq.
