(* ===== verification/PackedProps.v ===== *)
(** The packed virtqueue implements the abstract queue of [VqSpec].  Places in
    the ring are counted without wrapping; the ring slot and the wrap counter of
    a place are its remainder and its lap.  What the batched dispatch and the
    notification of a chosen descriptor do is proved at the end. *)

From S2P Require Import Prelude Errors IndexAlloc Virtq VqSpec PackedVq.
Import Virtq VqSpec.

Module PackedProps.
Import PackedVq.

(** ** Places *)

(** The wrap counter at place [c] of a ring of [n] descriptors, and the place as
    the registers hold it. *)
Definition lap (n : nat) (c : Z) : bool := Z.even (c / Z.of_nat n).
Definition idx (n : nat) (c : Z) : EventSuppressDesc := mkESD (c mod Z.of_nat n) (if lap n c then 1 else 0).

Section Places.
Context (n : nat) (Hn : (0 < n)%nat).

Lemma place_add c k : 0 <= k <= Z.of_nat n ->
  if Z.of_nat n <=? c mod Z.of_nat n + k
  then (c + k) mod Z.of_nat n = c mod Z.of_nat n + k - Z.of_nat n /\ (c + k) / Z.of_nat n = c / Z.of_nat n + 1
  else (c + k) mod Z.of_nat n = c mod Z.of_nat n + k /\ (c + k) / Z.of_nat n = c / Z.of_nat n.
Proof.
  intros Hk. pose proof (Z.div_mod c (Z.of_nat n) ltac:(lia)) as E. pose proof (Z.mod_pos_bound c (Z.of_nat n) ltac:(lia)) as B.
  set (q := c / Z.of_nat n) in *. set (m := c mod Z.of_nat n) in *.
  destruct (Z.leb_spec (Z.of_nat n) (m + k)); split.
  - symmetry. apply (Z.mod_unique _ _ (q + 1)); lia.
  - symmetry. apply (Z.div_unique _ _ _ (m + k - Z.of_nat n)); lia.
  - symmetry. apply (Z.mod_unique _ _ q); lia.
  - symmetry. apply (Z.div_unique _ _ _ (m + k)); lia.
Qed.

Lemma lap_next c : lap n (c + Z.of_nat n) = negb (lap n c).
Proof. unfold lap. rewrite <- (Z.mul_1_l (Z.of_nat n)) at 1. rewrite Z.div_add by lia. by rewrite Z.even_add; destruct (Z.even _). Qed.

Lemma slot_next c : slot n (c + Z.of_nat n) = slot n c.
Proof. unfold slot. f_equal. rewrite <- (Z.mul_1_l (Z.of_nat n)) at 1. apply Z_mod_plus_full. Qed.

(** Lap and offset of a place counted from another. *)
Lemma place_idx a k : 0 <= k <= Z.of_nat n ->
  desc_event_off (idx n (a + k)) =
    (if Z.of_nat n <=? a mod Z.of_nat n + k then a mod Z.of_nat n + k - Z.of_nat n else a mod Z.of_nat n + k) /\
  desc_event_wrap (idx n (a + k)) =
    (if (if Z.of_nat n <=? a mod Z.of_nat n + k then negb (lap n a) else lap n a) then 1 else 0).
Proof.
  intros Hk. pose proof (place_add a k Hk) as P. unfold idx, lap. cbn [desc_event_off desc_event_wrap].
  destruct (Z.of_nat n <=? _); destruct P as [-> ->]; [|done]. split; [done|]. rewrite Z.even_add. by destruct (Z.even _).
Qed.

Lemma interval_places a b o w : b <= a + Z.of_nat n ->
  (exists c, a <= c < b /\ idx n c = mkESD o w) <->
  exists k, 0 <= k < b - a /\
    (if Z.of_nat n <=? a mod Z.of_nat n + k then a mod Z.of_nat n + k - Z.of_nat n else a mod Z.of_nat n + k) = o /\
    (if (if Z.of_nat n <=? a mod Z.of_nat n + k then negb (lap n a) else lap n a) then 1 else 0) = w.
Proof.
  intros Hb. split.
  - intros (c & Hc & E). exists (c - a). destruct (place_idx a (c - a) ltac:(lia)) as [<- <-].
    replace (a + (c - a)) with c by lia. rewrite E. split; [lia|done].
  - intros (k & Hk & E1 & E2). exists (a + k). split; [lia|]. destruct (place_idx a k ltac:(lia)) as [E3 E4].
    rewrite E1 in E3. rewrite E2 in E4. by destruct (idx n (a + k)); cbn in *; subst.
Qed.

Lemma slot_idem c : slot n (c mod Z.of_nat n) = slot n c.
Proof. unfold slot. by rewrite Zmod_mod. Qed.

Lemma advance_idx c k : 0 <= k <= Z.of_nat n -> advance (Z.of_nat n) k (idx n c) = idx n (c + k).
Proof.
  intros Hk. pose proof (place_add c k Hk) as A. unfold advance, idx, lap. cbn [desc_event_off desc_event_wrap].
  destruct (Z.of_nat n <=? c mod Z.of_nat n + k); destruct A as [-> ->]; [|done].
  rewrite Z.even_add. by destruct (Z.even (c / Z.of_nat n)).
Qed.

(** One step of an index register. *)
Lemma step_idx c : Z.of_nat n <= 32768 ->
  set_off (wrapu 16 (desc_event_off (if wrapu 16 (c mod Z.of_nat n + 1) =? Z.of_nat n then flip_wrap (idx n c) else idx n c) + 1) mod Z.of_nat n)
    (if wrapu 16 (c mod Z.of_nat n + 1) =? Z.of_nat n then flip_wrap (idx n c) else idx n c) = idx n (c + 1) /\
  wrapu 16 (c mod Z.of_nat n + 1) mod Z.of_nat n = (c + 1) mod Z.of_nat n.
Proof.
  intros H15. pose proof (place_add c 1 ltac:(lia)) as A. pose proof (Z.mod_pos_bound c (Z.of_nat n) ltac:(lia)) as B.
  rewrite (wrapu_small 16 (c mod Z.of_nat n + 1)) by (change (2 ^ 16) with 65536; lia).
  assert (Em : (c mod Z.of_nat n + 1) mod Z.of_nat n = (c + 1) mod Z.of_nat n) by by rewrite Zplus_mod_idemp_l.
  split; [|exact Em]. pose proof (Z.mod_pos_bound (c + 1) (Z.of_nat n) ltac:(lia)) as B1. unfold idx, lap in *.
  destruct (Z.eqb_spec (c mod Z.of_nat n + 1) (Z.of_nat n)) as [E|E]; unfold set_off, flip_wrap; cbn [desc_event_off desc_event_wrap];
    rewrite (wrapu_small 16 (c mod Z.of_nat n + 1)) by (change (2 ^ 16) with 65536; lia); rewrite Em, (wrapu_small 15) by (change (2 ^ 15) with 32768; lia).
  - rewrite (proj2 (Z.leb_le _ _)) in A by lia. destruct A as [_ ->]. rewrite Z.even_add. by destruct (Z.even (c / Z.of_nat n)).
  - rewrite (proj2 (Z.leb_gt _ _)) in A by lia. by destruct A as [_ ->].
Qed.

Lemma idx_slot c : Z.to_nat (desc_event_off (idx n c)) = slot n c.
Proof. done. Qed.
Lemma idx_wrap c : negb (desc_event_wrap (idx n c) =? 0) = lap n c.
Proof. unfold idx. cbn. by destruct (lap n c). Qed.
End Places.

(** ** The contents of the ring *)

(** The number of descriptors of a buffer, and of several. *)
Definition nd (m : gmap nat TransferToken) (id : nat) : Z :=
  match m !! id with Some tk => Z.of_nat (ndesc tk) | None => 0 end.
Fixpoint tot (m : gmap nat TransferToken) (l : list nat) : Z :=
  match l with [] => 0 | id :: l => nd m id + tot m l end.

(** The mark the driver gives: [AVAIL] the wrap counter, [USED] its opposite. *)
Definition mark (w : bool) (f : DescF) : DescF := with_USED (negb w) (with_AVAIL w f).

Section Contents.
Context (n : nat).

(** The descriptors [l], marked available, from place [c] on. *)
Definition placed (ds : list Desc) (c : Z) (id : nat) (l : list Desc) : Prop :=
  forall j d, l !! j = Some d ->
    ds !! slot n (c + Z.of_nat j) =
      Some (set_flags (mark (lap n (c + Z.of_nat j)) (d_flags d)) (set_link (Z.of_nat id) d)).

Fixpoint avail_at (m : gmap nat TransferToken) (ds : list Desc) (c : Z) (l : list nat) : Prop :=
  match l with
  | [] => True
  | id :: l => (exists tk, m !! id = Some tk /\ placed ds c id (tdescs tk)) /\ avail_at m ds (c + nd m id) l
  end.

(** Used descriptors, one for each buffer, spaced by the buffers' sizes. *)
Fixpoint used_at (m : gmap nat TransferToken) (ds : list Desc) (c : Z) (l : list (nat * Z)) : Prop :=
  match l with
  | [] => True
  | (id, len) :: l =>
      (exists d, ds !! slot n c = Some d /\ AVAIL (d_flags d) = lap n c /\ USED (d_flags d) = lap n c /\
         d_link d = Z.of_nat id /\ d_len d = len) /\
      used_at m ds (c + nd m id) l
  end.

Lemma nd_nonneg m id : 0 <= nd m id.
Proof. unfold nd. destruct (m !! id); lia. Qed.
Lemma tot_nonneg m l : 0 <= tot m l.
Proof. induction l as [|id l IH]; cbn; [lia|]. pose proof (nd_nonneg m id). lia. Qed.
Lemma tot_app m l1 l2 : tot m (l1 ++ l2) = tot m l1 + tot m l2.
Proof. induction l1 as [|id l1 IH]; cbn; [lia|]. rewrite IH. lia. Qed.

Lemma nd_ext m m' id : m' !! id = m !! id -> nd m' id = nd m id.
Proof. unfold nd. by intros ->. Qed.
Lemma tot_ext m m' l : (forall id, id ∈ l -> m' !! id = m !! id) -> tot m' l = tot m l.
Proof. induction l as [|id l IH]; cbn; intros E; [done|]. rewrite (nd_ext m m') by set_solver. rewrite IH; [done|set_solver]. Qed.

Lemma placed_ext ds ds' c id l :
  (forall x, c <= x < c + Z.of_nat (length l) -> ds' !! slot n x = ds !! slot n x) -> placed ds c id l -> placed ds' c id l.
Proof. intros E P j d Hj. rewrite E; [by apply P|]. apply lookup_lt_Some in Hj. lia. Qed.

Lemma avail_at_ext m m' ds ds' l : forall c,
  (forall id, id ∈ l -> m' !! id = m !! id) ->
  (forall x, c <= x < c + tot m l -> ds' !! slot n x = ds !! slot n x) -> avail_at m ds c l -> avail_at m' ds' c l.
Proof.
  induction l as [|id l IH]; intros c Em E A; [done|]. cbn in *. destruct A as [(tk & Hid & P) A].
  pose proof (nd_nonneg m id). pose proof (tot_nonneg m l). rewrite (nd_ext m m') by set_solver. split.
  - exists tk. split; [by rewrite Em by set_solver|]. eapply placed_ext; [|done]. intros x Hx. apply E.
    assert (nd m id = Z.of_nat (length (tdescs tk))) by (unfold nd; by rewrite Hid). lia.
  - apply IH; [set_solver| |done]. intros x Hx. apply E. lia.
Qed.

Lemma used_at_ext m m' ds ds' l : forall c,
  (forall id, id ∈ l.*1 -> m' !! id = m !! id) -> (forall id, id ∈ l.*1 -> 0 < nd m id) ->
  (forall x, c <= x < c + tot m l.*1 -> ds' !! slot n x = ds !! slot n x) -> used_at m ds c l -> used_at m' ds' c l.
Proof.
  induction l as [|[id len] l IH]; intros c Em Hp E U; [done|]. cbn in *. destruct U as [(d & Hd & U1) U].
  pose proof (Hp id ltac:(set_solver)). pose proof (tot_nonneg m l.*1). rewrite (nd_ext m m') by set_solver. split.
  - exists d. split; [|done]. rewrite E by lia. done.
  - apply IH; [set_solver|set_solver| |done]. intros x Hx. apply E. lia.
Qed.

Lemma avail_at_snoc m ds l id : forall c,
  avail_at m ds c (l ++ [id]) <-> avail_at m ds c l /\ avail_at m ds (c + tot m l) [id].
Proof.
  induction l as [|x l IH]; intros c; cbn [app avail_at tot]; [rewrite Z.add_0_r; tauto|].
  rewrite IH, Z.add_assoc. cbn [avail_at]. tauto.
Qed.
Lemma used_at_snoc m ds l p : forall c,
  used_at m ds c (l ++ [p]) <-> used_at m ds c l /\ used_at m ds (c + tot m l.*1) [p].
Proof.
  induction l as [|[id len] l IH]; intros c; cbn [app used_at tot fmap list_fmap fst]; [rewrite Z.add_0_r; tauto|].
  rewrite IH, Z.add_assoc. tauto.
Qed.
End Contents.

(** ** The relation to the abstract queue *)

Section Counters.
Context (v : vq).
Definition n_used : Z := tot (inflight v) (used v).*1.
Definition n_held : Z := tot (inflight v) (held v).
Definition n_avail : Z := tot (inflight v) (avail v).
Definition n_all : Z := n_used + n_held + n_avail.
End Counters.

Record repr_at (n : nat) (p : Z) (s : vqueue) (v : vq) : Prop := {
  p_coh : coherent v;
  p_pos : (0 < n)%nat;
  p_max : Z.of_nat n <= 32768;
  p_len : length (descs s) = n;
  p_tokens : length (tkn_ref_ring s) = n;
  p_token i : (i < n)%nat -> tkn_ref_ring s !! i = Some (inflight v !! i);
  p_alloc : IndexAlloc.repr n (indexes s) (dom (inflight v));
  p_cap : capacity s = Z.of_nat (free v);
  p_free : Z.of_nat (free v) + n_all v = Z.of_nat n;
  p_poll : poll_index s = idx n p;
  p_dev_used : dev_used s = idx n (p + n_used v);
  p_dev_next : dev_next s = idx n (p + n_used v + n_held v);
  p_write : write_index s = idx n (p + n_all v);
  p_held : dev_held s = (fun id => (id, nd (inflight v) id)) <$> held v;
  p_used : used_at n (inflight v) (descs s) p (used v);
  p_avail : avail_at n (inflight v) (descs s) (p + n_used v + n_held v) (avail v);
  p_mark c : p + n_used v <= c < p + n_all v ->
    exists d, descs s !! slot n c = Some d /\ USED (d_flags d) = negb (lap n c);
  p_no_idx : dev_f_notif_idx s = false;
  p_old c : p <= c < p + Z.of_nat n ->
    exists d, descs s !! slot n c = Some d /\ AVAIL (d_flags d) = (if c <? p + n_all v then lap n c else negb (lap n c));
}.
Definition repr (s : vqueue) (v : vq) : Prop := exists n p, repr_at n p s v.

Lemma tot_perm m l1 l2 : l1 ≡ₚ l2 -> tot m l1 = tot m l2.
Proof. induction 1; cbn; lia. Qed.

Section Repr.
Context {n : nat} {p : Z} {s : vqueue} {v : vq} (R : repr_at n p s v).

Lemma held_nd id : is_Some (inflight v !! id) -> 0 < nd (inflight v) id.
Proof using R.
  intros [tk Hid]. unfold nd. rewrite Hid. destruct (p_coh _ _ _ _ R) as [_ _ Hok].
  pose proof (ndesc_pos tk (Hok id tk Hid)). lia.
Qed.
Lemma ids_nd id : id ∈ ids v -> 0 < nd (inflight v) id.
Proof using R. intros Hid. apply held_nd. by apply (p_coh _ _ _ _ R). Qed.

Lemma counters_nonneg : 0 <= n_used v /\ 0 <= n_held v /\ 0 <= n_avail v.
Proof using. split_and!; apply tot_nonneg. Qed.

Lemma id_lt id : is_Some (inflight v !! id) -> (id < n)%nat.
Proof using R. intros Hid. eapply IndexAlloc.repr_bound; [by eapply p_alloc|]. by apply elem_of_dom. Qed.

(** As many buffers as numbers, and no more than descriptors. *)
Lemma dom_count : Z.of_nat (base.size (dom (inflight v))) <= n_all v.
Proof using R.
  destruct (p_coh _ _ _ _ R) as [Hnd Hdom _].
  replace (dom (inflight v)) with (list_to_set (ids v) : gset nat).
  2:{ apply set_eq. intros i. by rewrite elem_of_list_to_set, elem_of_dom, Hdom. }
  rewrite size_list_to_set by done. unfold n_all, n_used, n_held, n_avail. rewrite <- Z.add_assoc, <- !tot_app. fold (ids v).
  assert (Hpos : forall id, id ∈ ids v -> 0 < nd (inflight v) id) by (intros; by apply ids_nd).
  revert Hpos. generalize (ids v). intros l. induction l as [|x l IH]; intros Hpos; cbn; [lia|].
  pose proof (Hpos x ltac:(set_solver)). specialize (IH ltac:(set_solver)). lia.
Qed.
End Repr.

Lemma full_set n (used : gset nat) : (forall i, (i < n)%nat -> i ∈ used) -> (n <= base.size used)%nat.
Proof.
  intros A. rewrite <- (length_seq n 0), <- (size_list_to_set (C := gset nat) (seq 0 n)) by apply NoDup_seq. apply subseteq_size.
  intros i Hi. apply elem_of_list_to_set, elem_of_seq in Hi. apply A. lia.
Qed.

(** ** Writing descriptors *)

Definition upd (ds : list Desc) (cap : Z) (w : EventSuppressDesc) (s : vqueue) : vqueue :=
  set_write_index w (set_capacity cap (set_descs ds s)).

Section Write.
Context (n : nat) (Hn : (0 < n)%nat) (H15 : Z.of_nat n <= 32768) (w0 id : Z).

(** What is written at place [c] of a buffer that starts at [w0]: the flags of
    the first descriptor are left as they are. *)
Definition written (c : Z) (d : Desc) : Desc :=
  if c =? w0 then set_link id d else set_flags (mark (lap n c) (d_flags d)) (set_link id d).

Lemma same_place c : w0 <= c < w0 + Z.of_nat n -> (w0 mod Z.of_nat n =? c mod Z.of_nat n) = (c =? w0).
Proof.
  intros Hc. destruct (Z.eqb_spec c w0) as [->|Hne]; [apply Z.eqb_refl|]. apply Z.eqb_neq. intros E.
  apply Hne, (slot_inj n); [done| |lia]. unfold slot. by rewrite E.
Qed.

Lemma write_desc_run d c ff s :
  length (descs s) = n -> write_index s = idx n c -> 0 < capacity s -> w0 <= c < w0 + Z.of_nat n ->
  write_desc d (mkWrite (w0 mod Z.of_nat n) (c mod Z.of_nat n) (Z.of_nat n) ff id) s =
    Done (mkWrite (w0 mod Z.of_nat n) ((c + 1) mod Z.of_nat n) (Z.of_nat n)
            (if c =? w0 then mark (lap n c) (d_flags d) else ff) id)
      (upd (<[slot n c := written c d]> (descs s)) (capacity s - 1) (idx n (c + 1)) s).
Proof.
  intros Hl Hw Hcap Hc. destruct (step_idx n Hn c H15) as [E1 E2].
  pose proof (Z.mod_pos_bound c (Z.of_nat n) ltac:(lia)) as B.
  unfold write_desc, to_marked_avail, gets, ret, bind at 1 2. cbn [start position modulo first_flags buff_id].
  rewrite Hw, idx_wrap, same_place by done. unfold written.
  assert (Hp : forall dd ff', (let! l := gets descs in
      do! assert_ (c mod Z.of_nat n <? Z.of_nat (length l)) "index out of bounds" in
      do! modify (set_descs (<[Z.to_nat (c mod Z.of_nat n) := dd]> l)) in
      write_incrmt (mkWrite (w0 mod Z.of_nat n) (c mod Z.of_nat n) (Z.of_nat n) ff' id)) s =
    Done (mkWrite (w0 mod Z.of_nat n) ((c + 1) mod Z.of_nat n) (Z.of_nat n) ff' id)
      (upd (<[slot n c := dd]> (descs s)) (capacity s - 1) (idx n (c + 1)) s)).
  { intros dd ff'. unfold gets, modify, assert_, bind, write_incrmt. cbv zeta. cbn [start position modulo first_flags buff_id].
    rewrite Hl, (proj2 (Z.ltb_lt (c mod Z.of_nat n) (Z.of_nat n))) by lia. unfold ret, gets, modify, assert_, bind.
    cbn [capacity set_descs write_index set_capacity]. rewrite (proj2 (Z.eqb_neq (capacity s) 0)) by lia. unfold ret. cbn [negb].
    cbn [capacity set_descs write_index set_capacity]. rewrite Hw. by rewrite E1, E2. }
  destruct (c =? w0); apply Hp.
Qed.

Lemma write_descs_run l : forall c ff s,
  length (descs s) = n -> write_index s = idx n c -> Z.of_nat (length l) <= capacity s ->
  w0 <= c -> c + Z.of_nat (length l) <= w0 + Z.of_nat n ->
  exists ds, write_descs l (mkWrite (w0 mod Z.of_nat n) (c mod Z.of_nat n) (Z.of_nat n) ff id) s =
      Done (mkWrite (w0 mod Z.of_nat n) ((c + Z.of_nat (length l)) mod Z.of_nat n) (Z.of_nat n)
              (match l with d :: _ => if c =? w0 then mark (lap n c) (d_flags d) else ff | [] => ff end) id)
        (upd ds (capacity s - Z.of_nat (length l)) (idx n (c + Z.of_nat (length l))) s) /\
    length ds = n /\
    (forall x, c + Z.of_nat (length l) <= x < c + Z.of_nat n -> ds !! slot n x = descs s !! slot n x) /\
    (forall j d, l !! j = Some d -> ds !! slot n (c + Z.of_nat j) = Some (written (c + Z.of_nat j) d)).
Proof.
  induction l as [|d l IH]; intros c ff s Hl Hw Hcap Hc Hlen; cbn [write_descs length] in *.
  - exists (descs s). rewrite !Z.add_0_r, Z.sub_0_r. split; [|done]. unfold ret, upd. rewrite <- Hw. by destruct s.
  - rewrite (bind_run _ _ _ _ _ (write_desc_run d c ff s Hl Hw ltac:(lia) ltac:(lia))).
    destruct (IH (c + 1) (if c =? w0 then mark (lap n c) (d_flags d) else ff)
      (upd (<[slot n c := written c d]> (descs s)) (capacity s - 1) (idx n (c + 1)) s))
      as (ds & E & L & Eold & Enew); [by cbn; rewrite length_insert|done|cbn; lia|lia|lia|].
    cbn [capacity descs upd set_write_index set_capacity set_descs] in *. exists ds.
    rewrite E. replace (c + 1 + Z.of_nat (length l)) with (c + Z.of_nat (S (length l))) in * by lia.
    replace (capacity s - 1 - Z.of_nat (length l)) with (capacity s - Z.of_nat (S (length l))) by lia.
    split; [|split; [done|split]].
    + destruct l; [done|]. by rewrite (proj2 (Z.eqb_neq (c + 1) w0)) by lia.
    + intros x Hx. rewrite Eold by lia. apply list_lookup_insert_ne. intros Es. apply (slot_inj n) in Es; lia.
    + intros [|j] d' Hj; cbn in Hj.
      * simplify_eq. rewrite Z.add_0_r, <- (slot_next n c), Eold, slot_next by lia. apply list_lookup_insert_eq.
        rewrite Hl. by apply slot_lt.
      * replace (c + Z.of_nat (S j)) with (c + 1 + Z.of_nat j) by lia. by apply Enew.
Qed.
End Write.

(** ** Dispatching *)

Lemma tdescs_cons tk : token_ok (buff_tkn tk) -> exists d l, tdescs tk = d :: l.
Proof. intros Ht. pose proof (ndesc_pos tk Ht). unfold ndesc in *. destruct (tdescs tk); [cbn in *; lia|by eexists _, _]. Qed.

(** The ring after the descriptors of a transfer have been written. *)
Lemma push_written n p s v tk :
  repr_at n p s v -> token_ok (buff_tkn tk) -> (ndesc tk <= free v)%nat ->
  exists id ix ds d l, tdescs tk = d :: l /\
    push_without_making_available tk s =
      Done (Ok (mkWrite ((p + n_all v) mod Z.of_nat n) ((p + n_all v + Z.of_nat (ndesc tk)) mod Z.of_nat n) (Z.of_nat n)
              (mark (lap n (p + n_all v)) (d_flags d)) (Z.of_nat id)))
        (upd ds (capacity s - Z.of_nat (ndesc tk)) (idx n (p + n_all v + Z.of_nat (ndesc tk))) (set_indexes ix s)) /\
    (id < n)%nat /\ inflight v !! id = None /\ IndexAlloc.repr n ix ({[ id ]} ∪ dom (inflight v)) /\ length ds = n /\
    (forall x, p + n_all v + Z.of_nat (ndesc tk) <= x < p + n_all v + Z.of_nat n -> ds !! slot n x = descs s !! slot n x) /\
    (forall j d, tdescs tk !! j = Some d ->
       ds !! slot n (p + n_all v + Z.of_nat j) = Some (written n (p + n_all v) (Z.of_nat id) (p + n_all v + Z.of_nat j) d)).
Proof.
  intros R Ht Hf. set (w := p + n_all v). destruct (tdescs_cons tk Ht) as (d & l & Ed).
  pose proof (p_pos _ _ _ _ R) as Hn. pose proof (p_max _ _ _ _ R) as H15. pose proof (p_len _ _ _ _ R) as Hl.
  pose proof (p_cap _ _ _ _ R) as Hcap. pose proof (p_free _ _ _ _ R) as Hfree. pose proof (counters_nonneg (v := v)) as Hc.
  unfold n_all in Hfree. pose proof (ndesc_pos tk Ht) as Hnd.
  assert (Hnr : Z.of_nat (ndesc tk) <= Z.of_nat n) by lia.
  pose proof (IndexAlloc.allocate_spec n (indexes s) _ (p_alloc _ _ _ _ R)) as A.
  unfold push_without_making_available. rewrite (bind_run _ _ _ _ _ (num_consuming_run tk s Ht)).
  unfold gets at 1. unfold bind at 1. rewrite Hcap, (proj2 (Z.ltb_ge (Z.of_nat (free v)) (Z.of_nat (ndesc tk)))) by lia.
  destruct (IndexAlloc.allocate (indexes s)) as [[id ix]|] eqn:Ea.
  2:{ exfalso. pose proof (dom_count R). pose proof (full_set n (dom (inflight v)) A). unfold n_all in *. lia. }
  destruct A as (Hid & Hfresh & _ & RA). rewrite not_elem_of_dom in Hfresh.
  assert (Eg : get_write_ctrler s = Done (Ok (mkWrite (w mod Z.of_nat n) (w mod Z.of_nat n) (Z.of_nat n) DescF_empty (Z.of_nat id)))
    (set_indexes ix s)).
  { unfold get_write_ctrler, gets, modify, bind, to_u16. rewrite Ea. cbn [set_indexes write_index descs].
    rewrite Hl, (proj2 (Z.ltb_lt (Z.of_nat n) 65536)) by lia. unfold ret.
    rewrite (proj2 (Z.ltb_lt (Z.of_nat id) 65536)) by lia. by rewrite (p_write _ _ _ _ R). }
  rewrite (bind_run _ _ _ _ _ Eg).
  destruct (write_descs_run n Hn H15 w (Z.of_nat id) (tdescs tk) w DescF_empty (set_indexes ix s))
    as (ds & Ew & Lds & Eold & Enew);
    [done|exact (p_write _ _ _ _ R)|cbn; fold (ndesc tk); lia|lia|fold (ndesc tk); lia|].
  exists id, ix, ds, d, l. split; [done|]. fold (ndesc tk) in Ew, Eold. rewrite Ed in Ew. rewrite Z.eqb_refl in Ew.
  split; [|done]. rewrite <- Hcap. clear Hcap. unfold tdescs in Ed. destruct (ctrl_desc tk) as [tb|].
  - simplify_eq. cbn [write_descs] in Ew. unfold bind in Ew |- *.
    destruct (write_desc (indirect_desc tb) _ _) as [c1 s1|]; [|done]. unfold ret in Ew |- *. by simplify_eq.
  - rewrite (bind_run _ _ _ _ _ (descriptor_iter_run _ _ Ht)), Ed. by rewrite (bind_run _ _ _ _ _ Ew).
Qed.

Lemma push_run n p s v tk :
  repr_at n p s v -> token_ok (buff_tkn tk) -> (ndesc tk <= free v)%nat ->
  exists id ix ds, push tk s = Done (Ok (idx n (p + n_all v + Z.of_nat (ndesc tk))))
      (set_descs ds (set_tkn_ref_ring (<[id := Some tk]> (tkn_ref_ring s))
        (upd ds (capacity s - Z.of_nat (ndesc tk)) (idx n (p + n_all v + Z.of_nat (ndesc tk))) (set_indexes ix s)))) /\
    (id < n)%nat /\ inflight v !! id = None /\ IndexAlloc.repr n ix ({[ id ]} ∪ dom (inflight v)) /\ length ds = n /\
    (forall x, p + n_all v + Z.of_nat (ndesc tk) <= x < p + n_all v + Z.of_nat n -> ds !! slot n x = descs s !! slot n x) /\
    placed n ds (p + n_all v) id (tdescs tk).
Proof.
  intros R Ht Hf. destruct (push_written n p s v tk R Ht Hf) as (id & ix & ds & d & l & Ed & Ep & Hid & Hfr & RA & Lds & Eold & Enew).
  set (w := p + n_all v) in *. set (k := Z.of_nat (ndesc tk)) in *. pose proof (p_pos _ _ _ _ R) as Hn.
  assert (Hnk : k = Z.of_nat (S (length l))) by (unfold k, ndesc; by rewrite Ed).
  assert (Hkn : k <= Z.of_nat n).
  { pose proof (p_free _ _ _ _ R). pose proof (counters_nonneg (v := v)). unfold n_all in *. lia. }
  pose proof (Enew O d ltac:(by rewrite Ed)) as E0. rewrite Z.add_0_r in E0. unfold written in E0. rewrite Z.eqb_refl in E0.
  exists id, ix, (<[slot n w := set_flags (mark (lap n w) (d_flags d)) (set_link (Z.of_nat id) d)]> ds).
  split; [|split; [done|]; split; [done|]; split; [done|]; split; [by rewrite length_insert|split]].
  - unfold push, push_batch. rewrite (bind_run _ _ _ _ _ Ep). cbn [make_avail_all]. unfold ret at 1. unfold bind at 1.
    unfold make_avail_with_state, gets, modify, bind, assert_. cbn [start buff_id first_flags].
    cbn [tkn_ref_ring upd set_write_index set_capacity set_descs set_indexes descs set_tkn_ref_ring].
    rewrite (p_tokens _ _ _ _ R), (proj2 (Z.ltb_lt (Z.of_nat id) (Z.of_nat n))) by lia. unfold ret, unwrap.
    cbn [tkn_ref_ring upd set_write_index set_capacity set_descs set_indexes descs set_tkn_ref_ring start].
    change (Z.to_nat (w mod Z.of_nat n)) with (slot n w). rewrite E0, Nat2Z.id. done.
  - intros x Hx. rewrite list_lookup_insert_ne; [by apply Eold|]. intros E. apply (slot_inj n) in E; lia.
  - intros j dj Hj. assert (Hjl : (j < S (length l))%nat) by (apply lookup_lt_Some in Hj; by rewrite Ed in Hj).
    destruct j as [|j].
    + rewrite Z.add_0_r. rewrite Ed in Hj. cbn in Hj. injection Hj as <-. apply list_lookup_insert_eq. rewrite Lds. by apply slot_lt.
    + rewrite list_lookup_insert_ne by (intros E; apply (slot_inj n) in E; lia). rewrite (Enew _ _ Hj). unfold written.
      by rewrite (proj2 (Z.eqb_neq (w + Z.of_nat (S j)) w)) by lia.
Qed.

Section Insert.
Context {n : nat} {p : Z} {s : vqueue} {v : vq} (R : repr_at n p s v).
Context {tk : TransferToken} {id : nat} {ix : list Z} {ds : list Desc}.
Context (Ht : token_ok (buff_tkn tk)) (Hf : (ndesc tk <= free v)%nat) (Hid : (id < n)%nat) (Hfr : inflight v !! id = None).
Context (RA : IndexAlloc.repr n ix ({[ id ]} ∪ dom (inflight v))) (Lds : length ds = n).
Context (Eold : forall x, p + n_all v + Z.of_nat (ndesc tk) <= x < p + n_all v + Z.of_nat n -> ds !! slot n x = descs s !! slot n x).
Context (Pl : placed n ds (p + n_all v) id (tdescs tk)).

Let v' := mkVq (<[id := tk]> (inflight v)) (avail v ++ [id]) (held v) (used v) (free v - ndesc tk).

Lemma insert_same i : i ∈ ids v -> <[id := tk]> (inflight v) !! i = inflight v !! i.
Proof using R Hfr.
  intros Hi. apply lookup_insert_ne. intros <-. apply (p_coh _ _ _ _ R) in Hi. rewrite Hfr in Hi. by destruct Hi.
Qed.

Lemma insert_counters : n_used v' = n_used v /\ n_held v' = n_held v /\ n_all v' = n_all v + Z.of_nat (ndesc tk).
Proof using R Hfr.
  pose proof insert_same as Hsame. clear -Hsame.
  assert (Hu : n_used v' = n_used v) by (apply tot_ext; intros i Hi; apply Hsame; unfold ids; set_solver).
  assert (Hh : n_held v' = n_held v) by (apply tot_ext; intros i Hi; apply Hsame; unfold ids; set_solver).
  split; [done|]. split; [done|]. unfold n_all. rewrite Hu, Hh. unfold n_avail. cbn. rewrite tot_app.
  rewrite (tot_ext (inflight v) _ (avail v)) by (intros i Hi; apply Hsame; unfold ids; set_solver).
  cbn. unfold nd. rewrite lookup_insert_eq. lia.
Qed.

(** Places before the new buffer keep their descriptors. *)
Lemma insert_before x : p <= x < p + n_all v -> ds !! slot n x = descs s !! slot n x.
Proof using R Eold Hf.
  clear -R Eold Hf. intros Hx. rewrite <- (slot_next n x). pose proof (p_free _ _ _ _ R). rewrite Eold by lia. done.
Qed.

Lemma insert_repr : repr_at n p
  (set_descs ds (set_tkn_ref_ring (<[id := Some tk]> (tkn_ref_ring s))
     (upd ds (capacity s - Z.of_nat (ndesc tk)) (idx n (p + n_all v + Z.of_nat (ndesc tk))) (set_indexes ix s)))) v'.
Proof using R Ht Hf Hid Hfr RA Lds Eold Pl.
  destruct insert_counters as (Eu & Eh & Ea). pose proof (counters_nonneg (v := v)) as Hc.
  assert (Hall : 0 <= n_all v) by (unfold n_all; lia).
  pose proof (p_cap _ _ _ _ R) as Hcap. pose proof (p_free _ _ _ _ R) as Hfree. pose proof (p_pos _ _ _ _ R) as Hn.
  split; rewrite ?Eu, ?Eh, ?Ea; try (by eapply R); try done.
  - by apply coherent_insert; [eapply p_coh| |].
  - cbn. rewrite length_insert. by eapply p_tokens.
  - intros i Hi. cbn. destruct (decide (i = id)) as [->|Hne].
    + rewrite lookup_insert_eq. apply list_lookup_insert_eq. by rewrite (p_tokens _ _ _ _ R).
    + rewrite lookup_insert_ne, list_lookup_insert_ne by done. by eapply p_token.
  - cbn [inflight v']. by rewrite dom_insert_L.
  - cbn. lia.
  - cbn. lia.
  - cbn. by rewrite Z.add_assoc.
  - cbn. rewrite (p_held _ _ _ _ R). apply list_fmap_ext. intros k i Hi. f_equal. symmetry. apply nd_ext, insert_same.
    unfold ids. apply list_elem_of_lookup_2 in Hi. set_solver.
  - cbn. eapply used_at_ext; [| | |by eapply p_used].
    + intros i Hi. apply insert_same. unfold ids. set_solver.
    + intros i Hi. apply (ids_nd R). unfold ids. set_solver.
    + intros x Hx. apply insert_before. unfold n_all, n_used in *. lia.
  - cbn [avail v' inflight descs set_descs]. apply avail_at_snoc. split.
    + eapply avail_at_ext; [| |by eapply p_avail].
      * intros i Hi. apply insert_same. unfold ids. set_solver.
      * intros x Hx. apply insert_before. unfold n_all, n_avail in *. lia.
    + cbn [avail_at]. split; [|done]. exists tk. split; [apply lookup_insert_eq|].
      rewrite (tot_ext (inflight v) _ (avail v)) by (intros i Hi; apply insert_same; unfold ids; set_solver).
      unfold n_all, n_avail in Pl. by rewrite !Z.add_assoc in Pl.
  - intros c Hcr. cbn [descs set_descs]. destruct (decide (c < p + n_all v)).
    + rewrite insert_before by (unfold n_all in *; lia). apply (p_mark _ _ _ _ R). lia.
    + destruct (lookup_lt_is_Some_2 (tdescs tk) (Z.to_nat (c - (p + n_all v)))) as [d Hd]; [fold (ndesc tk); lia|].
      pose proof (Pl _ _ Hd) as E. replace (p + n_all v + Z.of_nat (Z.to_nat (c - (p + n_all v)))) with c in E by lia.
      by eexists.
  - intros c Hcr. cbn [descs set_descs]. destruct (decide (c < p + n_all v)).
    + rewrite insert_before by lia. destruct (p_old _ _ _ _ R c Hcr) as (d & Hd & Ed). exists d. split; [done|].
      rewrite Ed. by rewrite !(proj2 (Z.ltb_lt _ _)) by lia.
    + destruct (decide (c < p + n_all v + Z.of_nat (ndesc tk))).
      * destruct (lookup_lt_is_Some_2 (tdescs tk) (Z.to_nat (c - (p + n_all v)))) as [d Hd]; [fold (ndesc tk); lia|].
        pose proof (Pl _ _ Hd) as E. replace (p + n_all v + Z.of_nat (Z.to_nat (c - (p + n_all v)))) with c in E by lia.
        eexists. split; [done|]. by rewrite (proj2 (Z.ltb_lt _ _)) by lia.
      * rewrite Eold by lia. destruct (p_old _ _ _ _ R c Hcr) as (d & Hd & Ed). exists d. split; [done|].
        rewrite Ed. by rewrite !(proj2 (Z.ltb_ge _ _)) by lia.
Qed.
End Insert.

Lemma packed_transfer_token_run t ty table s : token_ok t ->
  transfer_token create_indirect_ctrl table t ty s = Done (packed_transfer t ty table) s.
Proof.
  intros Ht. destruct ty; [done|]. unfold transfer_token, create_indirect_ctrl.
  by rewrite (bind_run _ _ _ _ _ (descriptor_iter_run t s Ht)).
Qed.
Lemma packed_transfer_buffer t ty table : buff_tkn (packed_transfer t ty table) = t.
Proof. by destruct ty. Qed.

(** What a dispatch does about notifications, when the device cannot choose a
    descriptor. *)
Definition after_notify (notif : bool) (next : EventSuppressDesc) (s : vqueue) : vqueue :=
  let s := if notif && drv_f_notif_idx s then set_drv_event (mkES next DescEvent) s else s in
  if bool_decide (es_flags (dev_event s) = Enable) then set_last_next next (set_notified (notified s ++ [next]) s) else s.

Lemma notify_tail (notif : bool) (next : EventSuppressDesc) (specific : option EventSuppressDesc -> EventSuppressDesc -> bool) s :
  dev_f_notif_idx s = false -> (forall l, specific None l = false) ->
  (do! (if notif then drv_enable_specific next else ret tt) in
   let! o := dev_notif_specific in
   let! last := gets last_next in
   let! wanted := dev_is_notif in
   do! (if wanted || specific o last then notify next else ret tt) in
   ret (@Ok VirtqError unit tt)) s = Done (Ok tt) (after_notify notif next s).
Proof.
  intros Hi Hs. set (s1 := if notif && drv_f_notif_idx s then set_drv_event (mkES next DescEvent) s else s).
  assert (E1 : (if notif then drv_enable_specific next else ret tt) s = Done tt s1).
  { subst s1. destruct notif; [|done]. unfold drv_enable_specific, gets, bind. by destruct (drv_f_notif_idx s). }
  assert (Hi1 : dev_f_notif_idx s1 = false) by (subst s1; by destruct (notif && drv_f_notif_idx s)).
  rewrite (bind_run _ _ _ _ _ E1). unfold dev_notif_specific, dev_is_notif, notify, after_notify, gets, modify, ret, bind. fold s1.
  rewrite Hi1. cbn [negb]. rewrite Hs, orb_false_r. by destruct (bool_decide _).
Qed.

Lemma dispatch_pushed notif t ty table s next s1 :
  token_ok t -> push (packed_transfer t ty table) s = Done (Ok next) s1 -> dev_f_notif_idx s1 = false ->
  packed_dispatch t notif ty table s = Done (Ok tt) (after_notify notif next s1).
Proof.
  intros Ht E Hi. unfold packed_dispatch. rewrite (bind_run _ _ _ _ _ (packed_transfer_token_run t ty table s Ht)), (bind_run _ _ _ _ _ E).
  by apply (notify_tail notif next (fun o last => bool_decide (o = Some last))).
Qed.

Lemma repr_notify n p s v notif next : repr_at n p s v -> repr_at n p (after_notify notif next s) v.
Proof.
  intros R. unfold after_notify. set (s1 := if _ && _ then _ else _).
  assert (R1 : repr_at n p s1 v) by (subst s1; destruct R, (notif && drv_f_notif_idx s); by split).
  clearbody s1. destruct (bool_decide _); [|done]. destruct R1. by split.
Qed.

Lemma push_full s v tk :
  repr s v -> token_ok (buff_tkn tk) -> (free v < ndesc tk)%nat -> push tk s = Done (Err NoDescrAvail) s.
Proof.
  intros (n & p & R) Ht Hf. unfold push, push_batch, push_without_making_available. unfold bind at 1.
  rewrite (bind_run _ _ _ _ _ (num_consuming_run tk s Ht)). unfold gets, bind. rewrite (p_cap _ _ _ _ R).
  by rewrite (proj2 (Z.ltb_lt (Z.of_nat (free v)) (Z.of_nat (ndesc tk)))) by lia.
Qed.

Lemma packed_dispatch_run s v t notif ty table :
  repr s v -> token_ok t ->
  exists r s' v', packed_dispatch t notif ty table s = Done r s' /\
    step v (Dispatched (packed_transfer t ty table) r) v' /\ repr s' v' /\
    (is_Ok r = false -> s' = s /\ v' = v).
Proof.
  intros Rep Ht. set (tk := packed_transfer t ty table).
  assert (Htk : token_ok (buff_tkn tk)) by (unfold tk; by rewrite packed_transfer_buffer).
  destruct (decide (ndesc tk <= free v)%nat) as [Hf|Hf].
  - destruct Rep as (n & p & R). destruct (push_run n p s v tk R Htk Hf) as (id & ix & ds & E & Hid & Hfr & RA & Lds & Eold & Pl).
    pose proof (insert_repr R Htk Hf Hid Hfr RA Lds Eold Pl) as R1.
    rewrite (dispatch_pushed notif t ty table s _ _ Ht E (p_no_idx _ _ _ _ R)). eexists (Ok tt), _, _. split; [done|].
    split; [by constructor|]. split; [|done]. eexists _, _. by apply repr_notify.
  - pose proof (push_full s v tk Rep Htk ltac:(lia)) as E. unfold packed_dispatch.
    rewrite (bind_run _ _ _ _ _ (packed_transfer_token_run t ty table s Ht)). fold tk. rewrite (bind_run _ _ _ _ _ E).
    eexists (Err NoDescrAvail), s, v. split; [done|]. split; [|by split].
    replace v with (mkVq (inflight v) (avail v) (held v) (used v) (free v)) at 2 by by destruct v. constructor; lia.
Qed.

(** ** Receiving *)

(** [upd_poll]: the poll index and the capacity. *)
Definition upd_poll (q : EventSuppressDesc) (cap : Z) (s : vqueue) : vqueue := set_capacity cap (set_poll_index q s).

Lemma read_incrmts_run n k : forall c s, (0 < n)%nat -> Z.of_nat n <= 32768 -> length (descs s) = n ->
  poll_index s = idx n c -> 0 <= capacity s -> capacity s + Z.of_nat k <= Z.of_nat n ->
  read_incrmts k (Z.of_nat n) s = Done tt (upd_poll (idx n (c + Z.of_nat k)) (capacity s + Z.of_nat k) s).
Proof.
  induction k as [|k IH]; intros c s Hn H15 Hl Hp Hc0 Hc; cbn [read_incrmts].
  - rewrite !Z.add_0_r, <- Hp. by destruct s.
  - destruct (step_idx n Hn c H15) as [E1 _].
    assert (E : read_incrmt (Z.of_nat n) s = Done tt (upd_poll (idx n (c + 1)) (capacity s + 1) s)).
    { unfold read_incrmt, gets, modify, assert_, bind, to_u16. cbn [set_poll_index capacity descs]. rewrite Hp.
      change (desc_event_off (idx n c)) with (c mod Z.of_nat n). rewrite E1, Hl, (proj2 (Z.ltb_lt (Z.of_nat n) 65536)) by lia.
      unfold ret. cbn [set_poll_index capacity]. rewrite (proj2 (Z.leb_le (capacity s) (Z.of_nat n))) by lia.
      rewrite wrapu_small by (change (2 ^ 16) with 65536; lia). done. }
    rewrite (bind_run _ _ _ _ _ E). rewrite (IH (c + 1)); [|done|done|done|done|cbn; lia|cbn; lia].
    cbn [capacity upd_poll set_capacity set_poll_index].
    replace (c + 1 + Z.of_nat k) with (c + Z.of_nat (S k)) by lia.
    by replace (capacity s + 1 + Z.of_nat k) with (capacity s + Z.of_nat (S k)) by lia.
Qed.

Section Poll.
Context {n : nat} {p : Z} {s : vqueue} {v : vq} (R : repr_at n p s v).

Lemma poll_desc : exists d, descs s !! slot n p = Some d /\
  is_marked_used (d_flags d) s = Done (bool_decide (used v <> [])) s /\
  (forall id len rest, used v = (id, len) :: rest -> d_link d = Z.of_nat id /\ d_len d = len).
Proof using R.
  pose proof (p_pos _ _ _ _ R) as Hn. destruct (p_old _ _ _ _ R p ltac:(lia)) as (d & Hd & Ha).
  pose proof (counters_nonneg (v := v)) as Hc. exists d. split; [done|].
  unfold is_marked_used, gets, bind, ret. rewrite (p_poll _ _ _ _ R), idx_wrap.
  pose proof (p_used _ _ _ _ R) as U. destruct (used v) as [|[id len] rest] eqn:Hu.
  - split; [|done]. f_equal. rewrite bool_decide_false by (by intros []).
    assert (Hnu : n_used v = 0) by (unfold n_used; by rewrite Hu).
    revert Ha. destruct (Z.ltb_spec p (p + n_all v)) as [Hlt|Hge]; intros Ha.
    + destruct (p_mark _ _ _ _ R p ltac:(lia)) as (d' & Hd' & Hu'). assert (d' = d) as -> by congruence.
      rewrite Ha, Hu'. by destruct (lap n p).
    + rewrite Ha. by destruct (lap n p).
  - cbn in U. destruct U as [(d' & Hd' & H1 & H2 & H3 & H4) _]. assert (d' = d) as -> by congruence.
    split; [|intros ? ? ? [= <- <- <-]; done].
    f_equal. rewrite bool_decide_true by done. rewrite H1, H2. by destruct (lap n p).
Qed.

Lemma remove_same id len rest i : used v = (id, len) :: rest -> i ∈ rest.*1 ++ held v ++ avail v ->
  delete id (inflight v) !! i = inflight v !! i.
Proof using R.
  intros Hu Hi. apply lookup_delete_ne. intros <-. destruct (p_coh _ _ _ _ R) as [Hnd _ _]. unfold ids in Hnd.
  rewrite Hu in Hnd. cbn in Hnd. by apply list.NoDup_cons in Hnd as [Hni _].
Qed.

Lemma remove_repr id len rest tk :
  used v = (id, len) :: rest -> inflight v !! id = Some tk ->
  repr_at n (p + Z.of_nat (ndesc tk))
    (set_indexes (IndexAlloc.deallocate id (indexes s))
       (upd_poll (idx n (p + Z.of_nat (ndesc tk))) (capacity s + Z.of_nat (ndesc tk))
          (set_tkn_ref_ring (<[id := None]> (tkn_ref_ring s)) s)))
    (mkVq (delete id (inflight v)) (avail v) (held v) rest (free v + ndesc tk)).
Proof using R.
  intros Hu Hid. set (v' := mkVq _ _ _ _ _). pose proof (counters_nonneg (v := v)) as Hc.
  pose proof (p_pos _ _ _ _ R) as Hn. pose proof (p_free _ _ _ _ R) as Hfree. pose proof (id_lt R id ltac:(by eexists)) as Hidn.
  assert (Hnd : nd (inflight v) id = Z.of_nat (ndesc tk)) by (unfold nd; by rewrite Hid).
  assert (Eu : n_used v = Z.of_nat (ndesc tk) + n_used v').
  { unfold n_used. rewrite Hu. cbn. rewrite Hnd. f_equal. symmetry. apply tot_ext. intros i Hi.
    apply (remove_same id len rest i Hu). set_solver. }
  assert (Eh : n_held v' = n_held v).
  { apply tot_ext. intros i Hi. apply (remove_same id len rest i Hu). set_solver. }
  assert (Ea : n_avail v' = n_avail v).
  { apply tot_ext. intros i Hi. apply (remove_same id len rest i Hu). set_solver. }
  pose proof (counters_nonneg (v := v')) as Hc'. assert (Hall' : 0 <= n_all v') by (unfold n_all; lia).
  assert (Eall : n_all v = Z.of_nat (ndesc tk) + n_all v') by (unfold n_all; lia).
  assert (C : coherent v') by (eapply step_coherent; [by eapply p_coh|by eapply step_recv|done]).
  pose proof (p_used _ _ _ _ R) as U. rewrite Hu in U. cbn in U. destruct U as [_ U].
  split; try (by eapply R); try done.
  - cbn. rewrite length_insert. by eapply p_tokens.
  - intros i Hi. cbn. destruct (decide (i = id)) as [->|Hne].
    + rewrite lookup_delete_eq. apply list_lookup_insert_eq. by rewrite (p_tokens _ _ _ _ R).
    + rewrite lookup_delete_ne, list_lookup_insert_ne by done. by eapply p_token.
  - cbn [inflight v']. rewrite dom_delete_L. apply IndexAlloc.deallocate_spec; [by eapply p_alloc|done].
  - cbn. rewrite (p_cap _ _ _ _ R). lia.
  - cbn [free v']. lia.
  - change (dev_used (set_indexes _ _)) with (dev_used s). rewrite (p_dev_used _ _ _ _ R). f_equal. lia.
  - change (dev_next (set_indexes _ _)) with (dev_next s). rewrite (p_dev_next _ _ _ _ R). f_equal. lia.
  - change (write_index (set_indexes _ _)) with (write_index s). rewrite (p_write _ _ _ _ R). f_equal. lia.
  - cbn. rewrite (p_held _ _ _ _ R). apply list_fmap_ext. intros k i Hi. f_equal. symmetry. apply nd_ext.
    apply (remove_same id len rest i Hu). apply list_elem_of_lookup_2 in Hi. set_solver.
  - cbn. rewrite Hnd in U. eapply used_at_ext; [| | |exact U].
    + intros i Hi. apply (remove_same id len rest i Hu). set_solver.
    + intros i Hi. apply (ids_nd R). unfold ids. rewrite Hu. cbn. set_solver.
    + done.
  - cbn [descs avail inflight v' set_indexes upd_poll set_capacity set_poll_index set_tkn_ref_ring].
    replace (p + Z.of_nat (ndesc tk) + n_used v' + n_held v') with (p + n_used v + n_held v) by lia.
    eapply avail_at_ext; [| |by eapply p_avail]; [|done]. intros i Hi. apply (remove_same id len rest i Hu). set_solver.
  - intros c Hcr. apply (p_mark _ _ _ _ R). lia.
  - intros c Hcr. replace (p + Z.of_nat (ndesc tk) + n_all v') with (p + n_all v) by lia.
    destruct (decide (c < p + Z.of_nat n)) as [Hlt|Hge]; [apply (p_old _ _ _ _ R); lia|].
    destruct (p_old _ _ _ _ R (c - Z.of_nat n) ltac:(lia)) as (d & Hd & Ed). exists d.
    rewrite <- (slot_next n (c - Z.of_nat n)) in Hd. replace (c - Z.of_nat n + Z.of_nat n) with c in Hd by lia. split; [done|].
    rewrite (proj2 (Z.ltb_lt _ _)) in Ed by lia. rewrite (proj2 (Z.ltb_ge _ _)) by lia.
    rewrite Ed. replace c with (c - Z.of_nat n + Z.of_nat n) at 2 by lia. rewrite lap_next by done. by rewrite negb_involutive.
Qed.
End Poll.

Lemma poll_next_run n p s v :
  repr_at n p s v ->
  match used v with
  | [] => poll_next s = Done None s
  | (id, len) :: rest => exists tk, inflight v !! id = Some tk /\
      poll_next s = Done (Some (tk, len))
        (set_indexes (IndexAlloc.deallocate id (indexes s))
           (upd_poll (idx n (p + Z.of_nat (ndesc tk))) (capacity s + Z.of_nat (ndesc tk))
              (set_tkn_ref_ring (<[id := None]> (tkn_ref_ring s)) s)))
  end.
Proof.
  intros R. pose proof (p_pos _ _ _ _ R) as Hn. pose proof (p_max _ _ _ _ R) as H15. pose proof (p_len _ _ _ _ R) as Hl.
  destruct (poll_desc R) as (d & Hd & Hm & Hlen).
  assert (E : poll_next s = (if negb (bool_decide (used v <> [])) then ret None else poll_used (Z.of_nat n) d) s).
  { unfold poll_next, gets, to_u16. unfold bind at 1 2. rewrite (p_poll _ _ _ _ R), Hl, (proj2 (Z.ltb_lt (Z.of_nat n) 65536)) by lia.
    unfold ret at 1, bind at 1. rewrite idx_slot, Hd. unfold unwrap at 1, ret at 1, bind at 1. by rewrite (bind_run _ _ _ _ _ Hm). }
  rewrite E. clear E. destruct (used v) as [|[id len] rest] eqn:Hu; [rewrite bool_decide_false by (by intros []); done|].
  rewrite bool_decide_true by done. cbn [negb]. unfold poll_used, gets. destruct (Hlen _ _ _ eq_refl) as [El En]. rewrite El, En, Nat2Z.id.
  destruct (p_coh _ _ _ _ R) as [_ Hdom Hok].
  assert (is_Some (inflight v !! id)) as [tk Hid] by (apply Hdom; unfold ids; rewrite Hu; cbn; set_solver).
  pose proof (id_lt R id ltac:(by eexists)) as Hidn. exists tk. split; [done|].
  unfold bind at 1 2. rewrite (p_token _ _ _ _ R id Hidn), Hid. unfold unwrap, modify, ret at 1 2. unfold bind at 1 2.
  rewrite (bind_run _ _ _ _ _ (num_consuming_run tk _ (Hok id tk Hid))). rewrite Nat2Z.id.
  assert (Hk : Z.of_nat (ndesc tk) <= n_all v).
  { unfold n_all, n_used. rewrite Hu. cbn. unfold nd. rewrite Hid. pose proof (tot_nonneg (inflight v) rest.*1).
    pose proof (counters_nonneg (v := v)). lia. }
  pose proof (p_free _ _ _ _ R). pose proof (p_cap _ _ _ _ R) as Hcap.
  rewrite (bind_run _ _ _ _ _ (read_incrmts_run n (ndesc tk) p (set_tkn_ref_ring (<[id := None]> (tkn_ref_ring s)) s)
    Hn H15 Hl (p_poll _ _ _ _ R) ltac:(cbn; lia) ltac:(cbn; lia))). done.
Qed.

Lemma packed_try_recv_law s v :
  repr s v -> exists r s' v', packed_try_recv s = Done r s' /\ step v (Received r) v' /\ repr s' v'.
Proof.
  intros (n & p & R). pose proof (poll_next_run n p s v R) as E. unfold packed_try_recv.
  destruct (used v) as [|[id len] rest] eqn:Hu.
  - rewrite (bind_run _ _ _ _ _ E). eexists _, _, _. split; [done|]. split; [by constructor|]. by exists n, p.
  - destruct E as (tk & Hid & E). rewrite (bind_run _ _ _ _ _ E). eexists _, _, _. split; [done|].
    split; [by eapply step_recv|]. eexists _, _. by eapply remove_repr.
Qed.

Lemma packed_has_used_law s v : repr s v -> packed_has_used_buffers s = Done (bool_decide (used v <> [])) s.
Proof.
  intros (n & p & R). destruct (poll_desc R) as (d & Hd & Hm & _).
  unfold packed_has_used_buffers, gets, bind at 1 2. rewrite (p_poll _ _ _ _ R), idx_slot, Hd. done.
Qed.

(** ** The device's side *)

Lemma packed_read_chain_run n ds id : forall init d c fuel,
  length ds = n -> placed n ds c id (init ++ [d]) ->
  Forall (fun d => NEXT (d_flags d) = true) init -> NEXT (d_flags d) = false -> (length init < fuel)%nat ->
  exists l, read_chain fuel ds (c mod Z.of_nat n) = Some l /\ view <$> l = view <$> (init ++ [d]) /\
    length l = S (length init) /\ (d_link <$> list.last l) = Some (Z.of_nat id).
Proof.
  intros init. induction init as [|x init IH]; intros d c [|fuel] Hl P Hi Hd Hf; cbn [length] in Hf; try lia; cbn [read_chain].
  - pose proof (P O d eq_refl) as E. rewrite Z.add_0_r in E. rewrite Hl, slot_idem, E.
    cbn. rewrite Hd. by eexists.
  - apply Forall_cons_1 in Hi as [Hx Hi]. pose proof (P O x eq_refl) as E. rewrite Z.add_0_r in E.
    rewrite Hl, slot_idem, E.
    change (NEXT (d_flags (set_flags (mark (lap n c) (d_flags x)) (set_link (Z.of_nat id) x)))) with (NEXT (d_flags x)). rewrite Hx.
    assert (Er : forall off, read_chain fuel ds (off mod Z.of_nat n) = read_chain fuel ds off).
    { clear -Hl. subst n. induction fuel as [|fuel IHf]; intros off; [done|]. cbn [read_chain].
      rewrite slot_idem.
      destruct (ds !! slot (length ds) off) as [y|]; [|done]. destruct (NEXT (d_flags y)); [|done]. f_equal.
      rewrite <- IHf, <- (IHf (off + 1)). f_equal. by rewrite Zplus_mod_idemp_l. }
    destruct (IH d (c + 1) fuel Hl) as (l & El & Ev & Ll & La); [|done|done|lia|].
    { intros j y Hj. replace (c + 1 + Z.of_nat j) with (c + Z.of_nat (S j)) by lia. by apply P. }
    rewrite Er in El. rewrite <- Er, Zplus_mod_idemp_l, Er, El. eexists. split; [done|].
    split; [cbn [fmap list_fmap app]; by rewrite Ev|]. split; [cbn; by rewrite Ll|]. destruct l; [done|]. done.
Qed.

Lemma fetch_repr n p s v id rest tk :
  repr_at n p s v -> avail v = id :: rest -> inflight v !! id = Some tk ->
  repr_at n p (set_dev_held (dev_held s ++ [(id, Z.of_nat (ndesc tk))])
      (set_dev_next (idx n (p + n_used v + n_held v + Z.of_nat (ndesc tk))) s))
    (mkVq (inflight v) rest (held v ++ [id]) (used v) (free v)).
Proof.
  intros R Ha Hid. set (v' := mkVq _ _ _ _ _).
  assert (Hnd : nd (inflight v) id = Z.of_nat (ndesc tk)) by (unfold nd; by rewrite Hid).
  assert (Eh : n_held v' = n_held v + Z.of_nat (ndesc tk)) by (unfold n_held; cbn; rewrite tot_app; cbn; lia).
  assert (Ea : n_avail v = Z.of_nat (ndesc tk) + n_avail v') by (unfold n_avail; rewrite Ha; cbn; lia).
  assert (Eall : n_all v' = n_all v) by (unfold n_all; change (n_used v') with (n_used v); lia).
  assert (C : coherent v') by (eapply step_coherent; [by eapply p_coh|by eapply step_fetch|done]).
  split; rewrite ?Eall; try (by eapply R); try done.
  - cbn [dev_next set_dev_held set_dev_next]. change (n_used v') with (n_used v). f_equal. lia.
  - cbn. rewrite (p_held _ _ _ _ R), fmap_app. cbn. by rewrite Hnd.
  - pose proof (p_avail _ _ _ _ R) as A. rewrite Ha in A. cbn [avail_at] in A. destruct A as [_ A]. rewrite Hnd in A.
    change (n_used v') with (n_used v). by replace (p + n_used v + n_held v') with (p + n_used v + n_held v + Z.of_nat (ndesc tk)) by lia.
Qed.

Lemma packed_device_fetch_law s v :
  repr s v -> exists r s' v', packed_device_fetch s = Done r s' /\ step v (Fetched r) v' /\ repr s' v'.
Proof.
  intros (n & p & R). pose proof (p_pos _ _ _ _ R) as Hn. pose proof (p_free _ _ _ _ R) as Hfree.
  pose proof (counters_nonneg (v := v)) as Hc. pose proof (p_len _ _ _ _ R) as Hl.
  unfold packed_device_fetch, gets at 1 2. unfold bind at 1 2. rewrite (p_dev_next _ _ _ _ R), idx_slot, idx_wrap.
  set (f := p + n_used v + n_held v). destruct (avail v) as [|id rest] eqn:Ha.
  - assert (Ef : f = p + n_all v) by (unfold f, n_all, n_avail; rewrite Ha; cbn; lia).
    assert (exists d, descs s !! slot n f = Some d /\ AVAIL (d_flags d) = negb (lap n f)) as (d & Hd & Ed).
    { destruct (decide (f < p + Z.of_nat n)).
      - destruct (p_old _ _ _ _ R f ltac:(lia)) as (d & Hd & Ed). rewrite (proj2 (Z.ltb_ge _ _)) in Ed by lia. by exists d.
      - assert (Ep : f = p + Z.of_nat n) by lia. destruct (p_old _ _ _ _ R p ltac:(lia)) as (d & Hd & Ed).
        rewrite (proj2 (Z.ltb_lt _ _)) in Ed by lia. exists d. rewrite Ep, slot_next, lap_next, negb_involutive by done. done. }
    rewrite Hd. unfold unwrap, ret, bind. rewrite Ed. exists None, s, v.
    split; [by destruct (lap n f)|]. split; [by constructor|]. by exists n, p.
  - pose proof (p_avail _ _ _ _ R) as A. rewrite Ha in A. cbn [avail_at] in A. destruct A as [(tk & Hid & P) _]. fold f in P.
    destruct (p_coh _ _ _ _ R) as [_ _ Hok]. destruct (tdescs_chain tk (Hok id tk Hid)) as (init & dl & Ed & Hi & Hdl & _).
    destruct (tdescs_cons tk (Hok id tk Hid)) as (d0 & l0 & E0). pose proof (P O d0 ltac:(by rewrite E0)) as Hd. rewrite Z.add_0_r in Hd.
    assert (Hnd : ndesc tk = S (length init)) by (unfold ndesc; rewrite Ed, length_app; cbn; lia).
    assert (Hk : Z.of_nat (ndesc tk) <= Z.of_nat n).
    { unfold n_all, n_avail in *. rewrite Ha in Hfree. cbn in Hfree. unfold nd in Hfree. rewrite Hid in Hfree.
      pose proof (tot_nonneg (inflight v) rest). lia. }
    rewrite Ed in P. destruct (packed_read_chain_run n (descs s) id init dl f n Hl P Hi Hdl ltac:(lia)) as (l & El & Ev & Ll & La).
    rewrite Hd. unfold unwrap at 1, ret at 1, bind at 1.
    replace (Bool.eqb _ _ && _) with true by (cbn; by destruct (lap n f)).
    change (desc_event_off (idx n f)) with (f mod Z.of_nat n). rewrite Hl, El. unfold unwrap at 1, ret at 1, bind at 1.
    destruct (list.last l) as [dd|] eqn:Elast; [|done]. cbn in La. injection La as La. unfold unwrap, ret, modify, gets, bind.
    rewrite La, Nat2Z.id, Ll, <- Hnd, advance_idx by lia. eexists _, _, _. split; [done|].
    split; [rewrite Ev, <- Ed; by eapply step_fetch|]. exists n, p. exact (fetch_repr n p s v id rest tk R Ha Hid).
Qed.

Lemma packed_take_out_spec (k : nat -> Z) id l :
  match take_out id ((fun i => (i, k i)) <$> l) with
  | Some (x, l') => exists l1 l2, l = l1 ++ id :: l2 /\ x = k id /\ l' = (fun i => (i, k i)) <$> (l1 ++ l2)
  | None => id ∉ l
  end.
Proof.
  induction l as [|y l IH]; cbn [fmap list_fmap take_out]; [by apply not_elem_of_nil|]. destruct (Nat.eqb_spec y id) as [->|Hne].
  - by exists [], l.
  - destruct (take_out id _) as [[x l']|]; cbn [fmap option_fmap option_map fst snd].
    + destruct IH as (l1 & l2 & -> & -> & ->). by exists (y :: l1), l2.
    + rewrite elem_of_cons. by intros [->|?].
Qed.

Section Use.
Context {n : nat} {p : Z} {s : vqueue} {v : vq} (R : repr_at n p s v).
Context {id : nat} {l1 l2 : list nat} (Hh : held v = l1 ++ id :: l2) (len : Z).

Let d := p + n_used v.
Let w := lap n d.
Let v' := mkVq (inflight v) (avail v) (l1 ++ l2) (used v ++ [(id, len)]) (free v).
Let ds := <[slot n d := mkDesc 0 len (mkF false false false w w) (Z.of_nat id)]> (descs s).

Lemma use_counters : n_used v' = n_used v + nd (inflight v) id /\ n_held v = n_held v' + nd (inflight v) id /\ n_all v' = n_all v.
Proof using Hh.
  clear -Hh. assert (Hu : n_used v' = n_used v + nd (inflight v) id) by (unfold n_used; cbn; rewrite fmap_app, tot_app; cbn; lia).
  assert (Hl : n_held v = n_held v' + nd (inflight v) id) by (unfold n_held; cbn; rewrite Hh, !tot_app; cbn; lia).
  split; [done|]. split; [done|]. unfold n_all. change (n_avail v') with (n_avail v). lia.
Qed.

Lemma use_other x : p <= x < p + Z.of_nat n -> x <> d -> ds !! slot n x = descs s !! slot n x.
Proof using R Hh.
  intros Hx Hne. apply list_lookup_insert_ne. intros E. pose proof (p_pos _ _ _ _ R). pose proof (p_free _ _ _ _ R).
  pose proof (counters_nonneg (v := v)). destruct use_counters as (_ & Hl & _). pose proof (counters_nonneg (v := v')).
  assert (0 < nd (inflight v) id) by (apply (ids_nd R); unfold ids; rewrite Hh; set_solver).
  apply Hne. symmetry. apply (slot_inj n); [done|done|]. unfold d, n_all in *. lia.
Qed.

Lemma use_here : ds !! slot n d = Some (mkDesc 0 len (mkF false false false w w) (Z.of_nat id)).
Proof using R. apply list_lookup_insert_eq. rewrite (p_len _ _ _ _ R). apply slot_lt. by eapply p_pos. Qed.

Lemma use_repr :
  repr_at n p (set_dev_used (idx n (d + nd (inflight v) id)) (set_descs ds
     (set_dev_held ((fun i => (i, nd (inflight v) i)) <$> (l1 ++ l2)) s))) v'.
Proof using R Hh.
  destruct use_counters as (Eu & El & Eall). pose proof (counters_nonneg (v := v)) as Hc. pose proof (counters_nonneg (v := v')) as Hc'.
  pose proof (p_free _ _ _ _ R) as Hfree. pose proof (p_pos _ _ _ _ R) as Hn.
  assert (Hpos : 0 < nd (inflight v) id) by (apply (ids_nd R); unfold ids; rewrite Hh; set_solver).
  assert (C : coherent v') by (eapply step_coherent; [by eapply p_coh|by eapply step_use|done]).
  split; rewrite ?Eall; try (by eapply R); try done.
  - cbn. unfold ds. rewrite length_insert. by eapply p_len.
  - cbn [dev_used set_dev_used]. unfold d. f_equal. lia.
  - change (dev_next (set_dev_used _ _)) with (dev_next s). rewrite (p_dev_next _ _ _ _ R). f_equal. lia.
  - cbn [used v' descs inflight set_dev_used set_descs]. apply used_at_snoc. split.
    + eapply used_at_ext; [done| | |by eapply p_used].
      * intros i Hi. apply (ids_nd R). unfold ids. set_solver.
      * intros x Hx. fold (n_used v) in Hx. apply use_other; unfold d, n_all in *; lia.
    + cbn. split; [|done]. fold (n_used v). fold d. eexists. split; [exact use_here|]. done.
  - cbn [avail v' descs inflight set_dev_used set_descs].
    replace (p + n_used v' + n_held v') with (p + n_used v + n_held v) by lia.
    eapply avail_at_ext; [done| |by eapply p_avail]. intros x Hx. fold (n_avail v) in Hx.
    apply use_other; unfold d, n_all in *; lia.
  - intros c Hcr. cbn [descs set_dev_used set_descs]. rewrite use_other by (unfold d, n_all in *; lia).
    apply (p_mark _ _ _ _ R). lia.
  - intros c Hcr. cbn [descs set_dev_used set_descs]. destruct (decide (c = d)) as [->|Hne].
    + eexists. split; [exact use_here|]. rewrite (proj2 (Z.ltb_lt _ _)); [done|]. unfold d, n_all in *. lia.
    + rewrite use_other by done. by apply (p_old _ _ _ _ R).
Qed.
End Use.

Lemma packed_device_use_law s v id len :
  repr s v -> in_u 32 len -> exists b s' v', packed_device_use id len s = Done b s' /\
    step v (if b then Used id len else NotHeld id) v' /\ repr s' v'.
Proof.
  intros (n & p & R) Hlen. pose proof (packed_take_out_spec (nd (inflight v)) id (held v)) as T.
  unfold packed_device_use, gets at 1. unfold bind at 1. rewrite (p_held _ _ _ _ R).
  destruct (take_out id _) as [[k h]|].
  - destruct T as (l1 & l2 & Hh & -> & ->). unfold modify, gets, bind. cbn [set_dev_held set_descs dev_used descs].
    rewrite (p_dev_used _ _ _ _ R), idx_slot, idx_wrap, (p_len _ _ _ _ R).
    destruct (use_counters Hh len) as (_ & El & _). pose proof (counters_nonneg (v := v)) as Hc. pose proof (p_free _ _ _ _ R) as Hfree.
    rewrite advance_idx.
    + eexists true, _, _. split; [done|]. split; [by eapply step_use|]. exists n, p. apply (use_repr R Hh len).
    + by eapply p_pos.
    + pose proof (nd_nonneg (inflight v) id). unfold n_all in *.
      pose proof (counters_nonneg (v := mkVq (inflight v) (avail v) (l1 ++ l2) (used v ++ [(id, len)]) (free v))). lia.
  - eexists false, _, _. split; [done|]. split; [by constructor|]. by exists n, p.
Qed.

Lemma repr_drv_flags s v f : repr s v -> exists s', drv_set_flags f s = Done tt s' /\ repr s' v.
Proof. intros (n & p & []). eexists. split; [done|]. exists n, p. by split. Qed.

#[export] Instance packed_laws : VirtQueueLaws vqueue repr.
Proof.
  split.
  - intros s v (n & p & R). by eapply p_coh.
  - intros s v t ty table R Ht. destruct (packed_dispatch_run s v t false ty table R Ht) as (r & s' & v' & E & St & R' & _).
    by exists r, s', v'.
  - exact packed_try_recv_law.
  - exact packed_has_used_law.
  - intros s v R. by apply repr_drv_flags.
  - intros s v R. by apply repr_drv_flags.
  - exact packed_device_fetch_law.
  - exact packed_device_use_law.
Qed.

(** ** New queues *)

Lemma packed_new_repr num_max max_size idx' event_idx :
  0 < Z.min max_size num_max -> max_size <= 32768 ->
  exists s, new (Some num_max) max_size idx' false event_idx = Ok s /\ repr s (empty (Z.to_nat (Z.min max_size num_max))).
Proof.
  intros Hs Hm. unfold new. rewrite (proj2 (Z.eqb_neq max_size 0)), (proj2 (Z.ltb_ge 32768 max_size)) by lia. cbn [orb].
  eexists. split; [done|]. set (n := Z.to_nat _). assert (Hn : Z.of_nat n = Z.min max_size num_max) by lia.
  assert (Hp : (0 < n)%nat) by lia.
  assert (Hi : idx n 0 = mkESD 0 1) by (unfold idx, lap; rewrite Z.mod_0_l, Z.div_0_l by lia; done).
  exists n, 0. split; cbn; rewrite ?length_replicate; try done; try lia.
  - split; cbn; [constructor| |done]. intros id. rewrite lookup_empty. split; [intros H0; by apply elem_of_nil in H0|by intros []].
  - intros i H0. rewrite lookup_empty. by apply lookup_replicate_2.
  - rewrite dom_empty_L. apply IndexAlloc.new_spec.
  - unfold n_all, n_used, n_held, n_avail. cbn. lia.
  - intros c. unfold n_all, n_used, n_held, n_avail. cbn. lia.
  - intros c Hc. exists (mkDesc 0 0 DescF_empty 0). rewrite lookup_replicate_2 by by apply slot_lt. split; [done|].
    unfold n_all, n_used, n_held, n_avail. cbn. rewrite (proj2 (Z.ltb_ge _ _)) by lia.
    unfold lap. by rewrite Z.div_small by lia.
Qed.

(** ** Properties *)

(** C6: The packed virtqueue implements the abstract queue: on a new queue of at
    most 32768 descriptors, any sequence of dispatches, receptions and accesses
    of the device ends without a panic and makes the observations of a run of
    the transition system, however the device reorders the buffers it hands
    back and however often the ring wraps; so the buffers accepted are those
    received and those still under way. *)
Theorem packed_vq_refines num_max max_size idx' event_idx ops :
  0 < Z.min max_size num_max -> max_size <= 32768 -> Forall op_ok ops ->
  exists s0 l s v, new (Some num_max) max_size idx' false event_idx = Ok s0 /\ perform_all ops s0 = Done l s /\
    steps (empty (Z.to_nat (Z.min max_size num_max))) l v /\
    accepted_of l ≡ₚ (buffer_of <$> received_of l) ++ under_way v.
Proof.
  intros Hs Hm Ho. destruct (packed_new_repr num_max max_size idx' event_idx Hs Hm) as (s0 & E0 & R0).
  destruct (perform_all_steps ops s0 _ R0 Ho) as (l & s & v & E & St & R).
  exists s0, l, s, v. split_and!; try done. apply steps_conserve in St. by rewrite app_nil_r in St.
Qed.

Definition one_buffer : AvailBufferToken := mkToken [] [Sized 4096 64].
Lemma one_buffer_ok : token_ok one_buffer.
Proof. split; cbn; try lia; [constructor|]. constructor; [|constructor]. cbn. unfold u32_max. lia. Qed.

Lemma packed_vq_refines_witness :
  exists s0 l s v, new (Some 2) 8 0 false false = Ok s0 /\
    perform_all [ODispatch one_buffer Direct 0; ODispatch one_buffer Indirect 64; OFetch; OFetch; OUse 1 64; ORecv;
                 ODispatch one_buffer Direct 0; OUse 0 2; ORecv; ORecv] s0 = Done l s /\
    steps (empty 2) l v /\ accepted_of l ≡ₚ (buffer_of <$> received_of l) ++ under_way v.
Proof.
  apply (packed_vq_refines 2 8 0 false [ODispatch one_buffer Direct 0; ODispatch one_buffer Indirect 64; OFetch; OFetch; OUse 1 64; ORecv;
                 ODispatch one_buffer Direct 0; OUse 0 2; ORecv; ORecv]).
  - lia.
  - lia.
  - repeat (apply Forall_cons_2; [first [exact I | split; lia | exact one_buffer_ok]|]); constructor.
Defined.

(** [wrapping_contains] is membership in an interval of places: for a range of
    at most one lap, an index is in it exactly when it stands for a place
    between its ends. *)
Theorem wrapping_contains_exact n a b item :
  (0 < n)%nat -> a <= b <= a + Z.of_nat n ->
  0 <= desc_event_off item < Z.of_nat n -> 0 <= desc_event_wrap item <= 1 ->
  wrapping_contains (idx n a) (idx n b) item = true <-> exists c, a <= c < b /\ idx n c = item.
Proof.
  intros Hn Hab Ho Hw. destruct item as [o w]. cbn [desc_event_off desc_event_wrap] in *.
  rewrite (interval_places n Hn a b o w) by lia.
  destruct (place_idx n Hn a (b - a) ltac:(lia)) as [Hb1 Hb2]. replace (a + (b - a)) with b in Hb1, Hb2 by lia.
  pose proof (Z.mod_pos_bound a (Z.of_nat n) ltac:(lia)) as Ba. set (m := a mod Z.of_nat n) in *.
  unfold wrapping_contains. cbn [desc_event_off desc_event_wrap]. rewrite !Hb1, !Hb2.
  change (desc_event_off (idx n a)) with m. change (desc_event_wrap (idx n a)) with (if lap n a then 1 else 0).
  destruct (Z.leb_spec (Z.of_nat n) (m + (b - a))) as [Hwrap|Hwrap].
  - replace ((if lap n a then 1 else 0) =? (if negb (lap n a) then 1 else 0)) with false by by destruct (lap n a).
    destruct (Z.eqb_spec w (if lap n a then 1 else 0)) as [Ew|Ew].
    + rewrite Z.leb_le. split.
      * intros Hm. exists (o - m). split; [lia|]. rewrite (proj2 (Z.leb_gt _ _)) by lia. split; [lia|done].
      * intros (k & Hk & Eo & Ew'). destruct (Z.leb_spec (Z.of_nat n) (m + k)); [|lia]. by destruct (lap n a); cbn in *; lia.
    + rewrite Z.ltb_lt. split.
      * intros Hm. exists (o + Z.of_nat n - m). split; [lia|]. rewrite (proj2 (Z.leb_le _ _)) by lia. split; [lia|].
        by destruct (lap n a); cbn in *; lia.
      * intros (k & Hk & Eo & Ew'). destruct (Z.leb_spec (Z.of_nat n) (m + k)); [lia|]. by destruct (lap n a); cbn in *; lia.
  - rewrite Z.eqb_refl, !andb_true_iff, Z.eqb_eq, Z.leb_le, Z.ltb_lt. split.
    + intros ((Ew & Hm) & Hlt). exists (o - m). split; [lia|]. rewrite (proj2 (Z.leb_gt _ _)) by lia. split; [lia|done].
    + intros (k & Hk & Eo & Ew'). rewrite (proj2 (Z.leb_gt _ _)) in Eo, Ew' by lia. split; [split; [done|]|]; lia.
Qed.

Lemma wrapping_contains_exact_witness :
  wrapping_contains (idx 4 3) (idx 4 6) (mkESD 1 0) = true <-> exists c, 3 <= c < 6 /\ idx 4 c = mkESD 1 0.
Proof. apply (wrapping_contains_exact 4 3 6 (mkESD 1 0)); cbn; lia. Defined.

(** ** Batches *)

(** Making a second token available under the same number undoes the first. *)
Lemma make_avail_again t t' st b f s s2 :
  make_avail_with_state t st b f s = Done tt s2 ->
  exists s1, make_avail_with_state t' st b f s = Done tt s1 /\ make_avail_with_state t st b f s1 = Done tt s2.
Proof.
  unfold make_avail_with_state, gets, modify, assert_, bind, unwrap.
  destruct (Z.ltb_spec b (Z.of_nat (length (tkn_ref_ring s)))) as [Hb|Hb]; [|done].
  unfold ret. cbn [descs set_tkn_ref_ring]. destruct (descs s !! Z.to_nat st) as [d|] eqn:Hd; [|done].
  intros [= <-]. eexists. split; [done|]. cbn [tkn_ref_ring set_descs set_tkn_ref_ring]. rewrite length_insert.
  rewrite (proj2 (Z.ltb_lt _ _)) by done. cbn [descs set_descs set_tkn_ref_ring].
  rewrite list_lookup_insert_eq by by apply lookup_lt_Some in Hd.
  unfold set_descs, set_tkn_ref_ring. cbn. by rewrite !list_insert_insert_eq.
Qed.

Lemma make_avail_all_again c l : forall t s s2,
  start c <> position c -> make_avail_with_state t (start c) (buff_id c) (first_flags c) s = Done tt s2 ->
  exists s1, make_avail_all c l s = Done tt s1 /\
    make_avail_with_state t (start c) (buff_id c) (first_flags c) s1 = Done tt s2.
Proof.
  induction l as [|t' l IH]; intros t s s2 Hne E; [by exists s|]. cbn [make_avail_all]. unfold make_avail at 1.
  destruct (make_avail_again t t' _ _ _ _ _ E) as (s1 & E1 & E2). destruct (IH t s1 s2 Hne E2) as (s3 & E3 & E4).
  exists s3. split; [|done]. unfold bind at 1 2, assert_. rewrite (proj2 (Z.eqb_neq _ _)) by done. cbn [negb]. unfold ret. by rewrite E1.
Qed.

Lemma places_apart n p s v tk :
  repr_at n p s v -> token_ok (buff_tkn tk) -> (ndesc tk < n)%nat ->
  (p + n_all v) mod Z.of_nat n <> (p + n_all v + Z.of_nat (ndesc tk)) mod Z.of_nat n.
Proof.
  intros R Ht Hlt E. pose proof (ndesc_pos tk Ht). pose proof (p_pos _ _ _ _ R).
  cut (p + n_all v = p + n_all v + Z.of_nat (ndesc tk)); [lia|]. apply (slot_inj n); [done| |lia]. unfold slot. by rewrite E.
Qed.

Lemma push_batch_first n p s v tk l :
  repr_at n p s v -> token_ok (buff_tkn tk) -> (ndesc tk <= free v)%nat -> (ndesc tk < n)%nat ->
  push_batch (tk :: l) s = push tk s.
Proof.
  intros R Ht Hf Hlt. destruct (push_run n p s v tk R Ht Hf) as (id0 & ix0 & ds0 & E0 & _). rewrite E0.
  destruct (push_written n p s v tk R Ht Hf) as (id & ix & ds & d & l0 & Ed & Ep & _).
  unfold push, push_batch in *. rewrite (bind_run _ _ _ _ _ Ep) in E0. rewrite (bind_run _ _ _ _ _ Ep). cbn [make_avail_all] in E0.
  unfold ret at 1 in E0. unfold bind at 1 in E0. apply bind_Done in E0 as ([] & s2 & E1 & E2).
  match type of Ep with _ = Done (Ok ?c) _ =>
    destruct (make_avail_all_again c l _ _ _ (places_apart n p s v tk R Ht Hlt) E1) as (s1 & E3 & E4) end.
  by rewrite (bind_run _ _ _ _ _ E3), (bind_run _ _ _ _ _ E4), E2.
Qed.

Lemma transfer_tokens_run l s : Forall (fun x => token_ok x.1.1) l ->
  transfer_tokens l s = Done ((fun x => packed_transfer x.1.1 x.1.2 x.2) <$> l) s.
Proof.
  induction 1 as [|[[t ty] table] l Ht Hl IH]; [done|]. cbn [transfer_tokens].
  by rewrite (bind_run _ _ _ _ _ (packed_transfer_token_run t ty table s Ht)), (bind_run _ _ _ _ _ IH).
Qed.

(** A batch reaches the device as its first buffer only: [dispatch_batch] does
    exactly what [dispatch] does with the first buffer, reports success, and
    the other buffers are neither made available nor kept. *)
Theorem packed_batch_keeps_first s v t ty table rest notif :
  repr s v -> token_ok t -> Forall (fun x => token_ok x.1.1) rest ->
  (ndesc (packed_transfer t ty table) <= free v)%nat -> (ndesc (packed_transfer t ty table) < length (descs s))%nat ->
  dispatch_batch ((t, ty, table) :: rest) notif s = packed_dispatch t notif ty table s /\
  exists s' v', dispatch_batch ((t, ty, table) :: rest) notif s = Done (Ok tt) s' /\ repr s' v' /\
    under_way v' ≡ₚ t :: under_way v.
Proof.
  intros Rep Ht Hrest Hf Hlt. set (tk := packed_transfer t ty table) in *.
  assert (Htk : token_ok (buff_tkn tk)) by (unfold tk; by rewrite packed_transfer_buffer).
  assert (E : dispatch_batch ((t, ty, table) :: rest) notif s = packed_dispatch t notif ty table s).
  { destruct Rep as (n & p & R). rewrite (p_len _ _ _ _ R) in Hlt.
    destruct (push_run n p s v tk R Htk Hf) as (id & ix & ds & Ep & _).
    rewrite (dispatch_pushed notif t ty table s _ _ Ht Ep (p_no_idx _ _ _ _ R)).
    unfold dispatch_batch, assert_. cbn [length Nat.eqb negb]. unfold ret at 1, bind at 1.
    rewrite (bind_run _ _ _ _ _ (transfer_tokens_run ((t, ty, table) :: rest) s (Forall_cons_2 (fun x => token_ok x.1.1) (t, ty, table) rest Ht Hrest))).
    cbn [fmap list_fmap fst snd]. fold tk. 
    rewrite <- (push_batch_first n p s v tk ((fun x => packed_transfer x.1.1 x.1.2 x.2) <$> rest) R Htk Hf Hlt) in Ep.
    rewrite (bind_run _ _ _ _ _ Ep).
    by apply (notify_tail notif _ (fun o last => match o with
      Some i => wrapping_contains last (idx n (p + n_all v + Z.of_nat (ndesc tk))) i | None => false end)); [eapply R|]. }
  split; [done|]. rewrite E. destruct (packed_dispatch_run s v t notif ty table Rep Ht) as (r & s' & v' & Er & St & R' & _).
  fold tk in St. apply step_conserves in St as Hc. inversion St; subst; [|lia].
  exists s'. eexists. split; [done|]. split; [done|]. cbn [accepted_of received_of omap list_omap fmap list_fmap app] in Hc.
  unfold tk in Hc. rewrite packed_transfer_buffer in Hc. by symmetry.
Qed.

Lemma packed_batch_keeps_first_witness :
  exists s0, new (Some 4) 4 0 false false = Ok s0 /\
  dispatch_batch [(one_buffer, Direct, 0); (one_buffer, Direct, 0)] false s0 = packed_dispatch one_buffer false Direct 0 s0.
Proof.
  destruct (packed_new_repr 4 4 0 false ltac:(lia) ltac:(lia)) as (s0 & E0 & R0). exists s0. split; [exact E0|].
  refine (proj1 (packed_batch_keeps_first s0 _ one_buffer Direct 0 [(one_buffer, Direct, 0)] false R0 one_buffer_ok _ _ _)).
  - apply Forall_cons_2; [exact one_buffer_ok|constructor].
  - vm_compute. lia.
  - injection E0 as <-. vm_compute. lia.
Defined.

(** A device that asks to be notified when a chosen descriptor is made available
    is never notified: [DevNotif] is made with [f_notif_idx] off and nothing
    sets it, also when the feature has been negotiated. *)
Theorem packed_specific_never_notifies s v t notif ty table :
  repr s v -> token_ok t -> es_flags (dev_event s) = DescEvent ->
  exists r s', packed_dispatch t notif ty table s = Done r s' /\ notified s' = notified s.
Proof.
  intros Rep Ht Hd. set (tk := packed_transfer t ty table).
  assert (Htk : token_ok (buff_tkn tk)) by (unfold tk; by rewrite packed_transfer_buffer).
  destruct (decide (ndesc tk <= free v)%nat) as [Hf|Hf].
  - destruct Rep as (n & p & R). destruct (push_run n p s v tk R Htk Hf) as (id & ix & ds & Ep & _).
    rewrite (dispatch_pushed notif t ty table s _ _ Ht Ep (p_no_idx _ _ _ _ R)). eexists _, _. split; [done|].
    unfold after_notify. set (s1 := if _ && _ then _ else _).
    assert (E1 : dev_event s1 = dev_event s /\ notified s1 = notified s) by (subst s1; by destruct (notif && _)).
    clearbody s1. destruct E1 as [-> <-]. by rewrite Hd.
  - pose proof (push_full s v tk Rep Htk ltac:(lia)) as E. unfold packed_dispatch.
    rewrite (bind_run _ _ _ _ _ (packed_transfer_token_run t ty table s Ht)). fold tk. rewrite (bind_run _ _ _ _ _ E). by eexists _, _.
Qed.

Definition with_dev_event (e : EventSuppress) (s : vqueue) : vqueue :=
  mkVqueue (descs s) (tkn_ref_ring s) (write_index s) (capacity s) (poll_index s) (indexes s) (drv_f_notif_idx s) (drv_event s)
    (dev_f_notif_idx s) e (size s) (index s) (last_next s) (notified s) (dev_next s) (dev_used s) (dev_held s).

Lemma packed_specific_never_notifies_witness :
  exists s0 r s', new (Some 4) 4 0 false true = Ok s0 /\
    packed_dispatch one_buffer true Direct 0 (with_dev_event (mkES (mkESD 0 1) DescEvent) s0) = Done r s' /\ notified s' = [].
Proof.
  destruct (packed_new_repr 4 4 0 true ltac:(lia) ltac:(lia)) as (s0 & E0 & R0).
  assert (R1 : repr (with_dev_event (mkES (mkESD 0 1) DescEvent) s0) (empty 4)).
  { destruct R0 as (n & p & []). exists n, p. by split. }
  destruct (packed_specific_never_notifies _ _ one_buffer true Direct 0 R1 one_buffer_ok eq_refl) as (r & s' & E & En).
  exists s0, r, s'. split; [exact E0|]. split; [exact E|]. rewrite En. injection E0 as <-. reflexivity.
Defined.
End PackedProps.
