(* ===== verification/Vsock.v ===== *)
(** Sockets to the host: the table of connections and the background task that
    handles packets ([src/src/executor/vsock.rs]) and the socket objects
    ([src/src/fd/socket/vsock.rs]).

    One call of [poll] on the future of an operation, and one round of the
    background task, are atomic steps: each holds the lock on the table.  The
    header of a packet comes from the crate [virtio]; its operation and its type
    are decoded here, [None] for a number that stands for none.  The driver
    (src/src/drivers/vsock/mod.rs) is a type class. *)

From S2P Require Import Prelude Errors Files EventFd Executor.

Module Vsock.
Import Flags EventFd Executor.

(** ** Packets *)

Inductive Op : Type := Request | Response | Rst | OpShutdown | Rw | CreditUpdate | CreditRequest.
Inductive SockType : Type := Stream | Seqpacket.

#[export] Instance Op_eq_dec : EqDecision Op.
Proof. solve_decision. Defined.
#[export] Instance SockType_eq_dec : EqDecision SockType.
Proof. solve_decision. Defined.

Record Hdr : Type := mkHdr {
  src_cid : Z;
  dst_cid : Z;
  src_port : Z;
  dst_port : Z;
  hlen : Z;
  type_ : option SockType;
  op : option Op;
  flags : Z;
  buf_alloc : Z;
  hfwd_cnt : Z;
}.
Notation packet := (Hdr * list Z)%type.

(** The length of a header in bytes. *)
Definition HEADER_SIZE : Z := 44.

(** ** Connections *)

Inductive VsockState : Type := Listen | ReceiveRequest | Connected | Connecting | Shutdown.
#[export] Instance VsockState_eq_dec : EqDecision VsockState.
Proof. solve_decision. Defined.

Definition RAW_SOCKET_BUFFER_SIZE : Z := 256 * 1024.

Record RawSocket : Type := mkRaw {
  remote_cid : Z;
  remote_port : Z;
  fwd_cnt : Z;
  peer_fwd_cnt : Z;
  peer_buf_alloc : Z;
  tx_cnt : Z;
  state : VsockState;
  rx_waker : WakerRegistration;
  tx_waker : WakerRegistration;
  buffer : list Z;
}.

Definition RawSocket_new (st : VsockState) : RawSocket := mkRaw 0 0 0 0 0 0 st None None [].

Definition set_remote (c p : Z) (r : RawSocket) : RawSocket :=
  mkRaw c p (fwd_cnt r) (peer_fwd_cnt r) (peer_buf_alloc r) (tx_cnt r) (state r) (rx_waker r) (tx_waker r) (buffer r).
Definition set_fwd_cnt (x : Z) (r : RawSocket) : RawSocket :=
  mkRaw (remote_cid r) (remote_port r) x (peer_fwd_cnt r) (peer_buf_alloc r) (tx_cnt r) (state r) (rx_waker r) (tx_waker r) (buffer r).
Definition set_peer_fwd_cnt (x : Z) (r : RawSocket) : RawSocket :=
  mkRaw (remote_cid r) (remote_port r) (fwd_cnt r) x (peer_buf_alloc r) (tx_cnt r) (state r) (rx_waker r) (tx_waker r) (buffer r).
Definition set_peer_buf_alloc (x : Z) (r : RawSocket) : RawSocket :=
  mkRaw (remote_cid r) (remote_port r) (fwd_cnt r) (peer_fwd_cnt r) x (tx_cnt r) (state r) (rx_waker r) (tx_waker r) (buffer r).
Definition set_tx_cnt (x : Z) (r : RawSocket) : RawSocket :=
  mkRaw (remote_cid r) (remote_port r) (fwd_cnt r) (peer_fwd_cnt r) (peer_buf_alloc r) x (state r) (rx_waker r) (tx_waker r) (buffer r).
Definition set_state (x : VsockState) (r : RawSocket) : RawSocket :=
  mkRaw (remote_cid r) (remote_port r) (fwd_cnt r) (peer_fwd_cnt r) (peer_buf_alloc r) (tx_cnt r) x (rx_waker r) (tx_waker r) (buffer r).
Definition set_rx_waker (x : WakerRegistration) (r : RawSocket) : RawSocket :=
  mkRaw (remote_cid r) (remote_port r) (fwd_cnt r) (peer_fwd_cnt r) (peer_buf_alloc r) (tx_cnt r) (state r) x (tx_waker r) (buffer r).
Definition set_tx_waker (x : WakerRegistration) (r : RawSocket) : RawSocket :=
  mkRaw (remote_cid r) (remote_port r) (fwd_cnt r) (peer_fwd_cnt r) (peer_buf_alloc r) (tx_cnt r) (state r) (rx_waker r) x (buffer r).
Definition set_buffer (x : list Z) (r : RawSocket) : RawSocket :=
  mkRaw (remote_cid r) (remote_port r) (fwd_cnt r) (peer_fwd_cnt r) (peer_buf_alloc r) (tx_cnt r) (state r) (rx_waker r) (tx_waker r) x.

(** A waker that is called, and the connection without it. *)
Definition wake_rx (r : RawSocket) : RawSocket * list Waker :=
  let (w, left) := wake (rx_waker r) in (set_rx_waker left r, option_list w).
Definition wake_tx (r : RawSocket) : RawSocket * list Waker :=
  let (w, left) := wake (tx_waker r) in (set_tx_waker left r, option_list w).

(** ** The table, the driver and the wakers called so far *)

Class VsockDriver (D : Type) := {
  get_cid : D -> Z;
  (** [send_packet(len, _)] with the packet the closure writes. *)
  drv_send : Z -> packet -> M D unit;
  (** The next packet of the receive queue, whose buffer is given back. *)
  drv_next : M D (option packet);
  (** How many packets are in the receive queue. *)
  drv_pending : D -> nat;
}.

Record net (D : Type) : Type := mkNet {
  port_map : gmap Z RawSocket;
  drv : D;
  woken : list Waker;
}.
Arguments mkNet {D} _ _ _.
Arguments port_map {D} _.
Arguments drv {D} _.
Arguments woken {D} _.

Section Vsock.
Context {D : Type} `{DR : VsockDriver D}.
Notation net := (net D).

Definition set_port_map (x : gmap Z RawSocket) (n : net) : net := mkNet x (drv n) (woken n).
Definition set_drv (x : D) (n : net) : net := mkNet (port_map n) x (woken n).
Definition put_raw (port : Z) (r : RawSocket) (n : net) : net := set_port_map (<[port := r]> (port_map n)) n.
Definition call_wakers (l : list Waker) (n : net) : net := mkNet (port_map n) (drv n) (woken n ++ l).
Definition on_drv {A} (m : M D A) : M net A := zoom drv set_drv m.

(** [VsockMap::bind] *)
Definition map_bind (port : Z) : M net (io_result unit) :=
  let! n := get in
  match port_map n !! port with
  | None => do! modify (put_raw port (RawSocket_new Listen)) in ret (Ok tt)
  | Some _ => ret (Err Errno.Addrinuse)
  end.

(** [VsockMap::connect]: the first free port from a quarter of the range on. *)
Fixpoint free_port (fuel : nat) (i : Z) (m : gmap Z RawSocket) : option Z :=
  match fuel with
  | O => None
  | S fuel =>
      if u32_max <=? i then None
      else match m !! i with None => Some i | Some _ => free_port fuel (i + 1) m end
  end.
Definition map_connect (port cid : Z) : M net (io_result Z) :=
  let! n := get in
  match free_port (S (base.size (port_map n))) (u32_max / 4) (port_map n) with
  | Some i => do! modify (put_raw i (set_remote cid port (RawSocket_new Connecting))) in ret (Ok i)
  | None => ret (Err Errno.Badf)
  end.

(** ** The background task *)

(** What a packet does to the connection of its port: the connection after it,
    the wakers called, and whether it is answered.  [None] is a panic. *)
Definition on_packet (op : Op) (type_ : SockType) (header_cid : Z) (h : Hdr) (data : list Z) (raw : RawSocket)
    : option (RawSocket * list Waker * bool) :=
  let from_peer := remote_cid raw =? header_cid in
  if bool_decide (op = Request) && bool_decide (state raw = Listen) && bool_decide (type_ = Stream) then
    let raw := set_peer_buf_alloc (buf_alloc h) (set_remote header_cid (src_port h) (set_state ReceiveRequest raw)) in
    let (raw, w) := wake_rx raw in Some (raw, w, false)
  else if (bool_decide (state raw = Connected) || bool_decide (state raw = Shutdown)) &&
          bool_decide (type_ = Stream) && bool_decide (op = Rw) then
    if from_peer then
      if Z.of_nat (length data) <=? u32_max then
        let raw := set_buffer (buffer raw ++ data) raw in
        let raw := set_fwd_cnt (wrapu 32 (fwd_cnt raw + Z.of_nat (length data))) raw in
        let raw := set_peer_fwd_cnt (hfwd_cnt h) raw in
        let (raw, w1) := wake_tx raw in
        let (raw, w2) := wake_rx raw in
        Some (raw, w1 ++ w2, true)
      else None
    else Some (raw, [], false)
  else if bool_decide (op = CreditUpdate) then
    if from_peer then
      let (raw, w) := wake_tx (set_peer_fwd_cnt (hfwd_cnt h) raw) in Some (raw, w, false)
    else Some (raw, [], false)
  else if bool_decide (op = OpShutdown) then
    Some (if from_peer then set_state Shutdown raw else raw, [], false)
  else if bool_decide (op = Response) && bool_decide (type_ = Stream) then
    if from_peer && bool_decide (state raw = Connecting) then
      let raw := set_peer_fwd_cnt (hfwd_cnt h) (set_peer_buf_alloc (buf_alloc h) (set_state Connected raw)) in
      let (raw, w) := wake_tx raw in Some (raw, w, false)
    else Some (raw, [], false)
  else Some (raw, [], from_peer).

(** The closure given to [process_packet]; [acc] are the variables [hdr] and
    [fwd_cnt]. *)
Definition handle (p : packet) (acc : option (Hdr * Z)) : M net (option (Hdr * Z)) :=
  let (h, data) := p in
  let! op := unwrap (op h) "called `Result::unwrap()` on an `Err` value" in
  let! type_ := unwrap (type_ h) "called `Result::unwrap()` on an `Err` value" in
  do! assert_ (src_cid h <=? u32_max) "called `Result::unwrap()` on an `Err` value" in
  let! n := get in
  match port_map n !! dst_port h with
  | None => ret acc
  | Some raw =>
      let! r := unwrap (on_packet op type_ (src_cid h) h data raw) "called `Result::unwrap()` on an `Err` value" in
      let '(raw, w, answered) := r in
      do! modify (fun n => call_wakers w (put_raw (dst_port h) raw n)) in
      ret (if answered then Some (h, fwd_cnt raw) else acc)
  end.

Fixpoint process_packet (fuel : nat) (acc : option (Hdr * Z)) : M net (option (Hdr * Z)) :=
  match fuel with
  | O => ret acc
  | S fuel =>
      let! p := on_drv drv_next in
      match p with
      | None => ret acc
      | Some p => let! acc := handle p acc in process_packet fuel acc
      end
  end.

Definition reply (h : Hdr) (fwd : Z) : Hdr :=
  mkHdr (dst_cid h) (src_cid h) (dst_port h) (src_port h) 0 (type_ h)
    (if bool_decide (op h = Some CreditRequest) || bool_decide (op h = Some Rw) then Some CreditUpdate else Some Rst)
    0 RAW_SOCKET_BUFFER_SIZE fwd.

(** One poll of [vsock_run]. *)
Definition vsock_round : M net unit :=
  let! n := get in
  let! acc := process_packet (S (drv_pending (drv n))) None in
  match acc with
  | Some (h, fwd) => on_drv (drv_send HEADER_SIZE (reply h fwd, []))
  | None => ret tt
  end.

(** ** Socket objects *)

Record Socket : Type := mkSocket { port : Z; cid : Z; is_nonblocking : bool }.
Definition Socket_new : Socket := mkSocket 0 u32_max false.

(** The connection of a socket, [Err(Inval)] when there is none. *)
Definition with_raw {A} (s : Socket) (f : RawSocket -> M net (Poll (io_result A))) : M net (Poll (io_result A)) :=
  let! n := get in
  match port_map n !! port s with
  | None => ret (Ready (Err Errno.Inval))
  | Some raw => f raw
  end.
Definition update (s : Socket) (raw : RawSocket) : M net unit := modify (put_raw (port s) raw).

Definition READ_EVENTS : Z := Z.lor POLLIN (Z.lor POLLRDNORM POLLRDBAND).
Definition WRITE_EVENTS : Z := Z.lor POLLOUT (Z.lor POLLWRNORM POLLWRBAND).
Definition POLLHUP : Z := 0x10.

Definition abs_diff (a b : Z) : Z := Z.abs (a - b).

Definition poll (s : Socket) (event : Z) (w : Waker) : M net (Poll (io_result Z)) :=
  with_raw s (fun raw =>
    match state raw with
    | Shutdown | ReceiveRequest =>
        let r := Z.land event (Z.lor WRITE_EVENTS READ_EVENTS) in
        ret (Ready (Ok (if r =? 0 then POLLHUP else r)))
    | Listen | Connecting =>
        do! update s (set_tx_waker (register w (tx_waker raw)) (set_rx_waker (register w (rx_waker raw)) raw)) in
        ret Pending
    | Connected =>
        let available := if (length (buffer raw) =? 0)%nat then 0 else READ_EVENTS in
        let diff := abs_diff (tx_cnt raw) (peer_fwd_cnt raw) in
        let available := if diff <? peer_buf_alloc raw then Z.lor available WRITE_EVENTS else available in
        let r := Z.land event available in
        if r =? 0 then
          let raw := if intersects event READ_EVENTS then set_rx_waker (register w (rx_waker raw)) raw else raw in
          let raw := if intersects event WRITE_EVENTS then set_tx_waker (register w (tx_waker raw)) raw else raw in
          do! update s raw in ret Pending
        else ret (Ready (Ok r))
    end).

Definition bind_socket (s : Socket) (ep_port : Z) (ep_cid : option Z) : M net (Socket * io_result unit) :=
  let s := mkSocket ep_port (default u32_max ep_cid) (is_nonblocking s) in
  let! r := map_bind ep_port in ret (s, r).

(** [connect] up to its first wait: the port, and the request once the driver is
    not locked; then the wait for the response. *)
Definition connect_port (s : Socket) (ep_port ep_cid : Z) : M net (Socket * io_result Z) :=
  let! r := map_connect ep_port ep_cid in
  match r with
  | Ok i => ret (mkSocket i ep_cid (is_nonblocking s), Ok i)
  | Err e => ret (s, Err e)
  end.
Definition connect_request (locked : bool) (local_port ep_port ep_cid : Z) : M net (Poll unit) :=
  if locked then ret Pending
  else
    let! n := get in
    do! on_drv (drv_send HEADER_SIZE
      (mkHdr (get_cid (drv n)) ep_cid local_port ep_port 0 (Some Stream) (Some Request) 0 RAW_SOCKET_BUFFER_SIZE 0, [])) in
    ret (Ready tt).
Definition connect_wait (s : Socket) (w : Waker) : M net (Poll (io_result unit)) :=
  with_raw s (fun raw =>
    match state raw with
    | Connected => ret (Ready (Ok tt))
    | Connecting => do! update s (set_rx_waker (register w (rx_waker raw)) raw) in ret Pending
    | _ => ret (Ready (Err Errno.Badf))
    end).

Definition getpeername (s : Socket) : M net (io_result (Z * Z)) :=
  let! n := get in
  ret (match port_map n !! port s with Some raw => Ok (remote_port raw, remote_cid raw) | None => Err Errno.Inval end).
Definition getsockname (s : Socket) : M net (io_result (Z * Z)) :=
  let! n := get in
  do! assert_ (get_cid (drv n) <=? u32_max) "called `Result::unwrap()` on an `Err` value" in
  ret (Ok (port s, get_cid (drv n))).

Definition listen (s : Socket) (backlog : Z) : io_result unit := Ok tt.
Definition shutdown (s : Socket) (how : Z) : io_result unit := Ok tt.

(** [accept]: the peer's port and context; the object that is returned with them
    is a [NullSocket]. *)
Definition accept (s : Socket) (w : Waker) : M net (Poll (io_result (Z * Z))) :=
  with_raw s (fun raw =>
    match state raw with
    | Listen =>
        if is_nonblocking s then ret (Ready (Err Errno.Again))
        else do! update s (set_rx_waker (register w (rx_waker raw)) raw) in ret Pending
    | ReceiveRequest =>
        let! n := get in
        let local_cid := get_cid (drv n) in
        let answer := if negb (local_cid =? cid s) && negb (cid s =? u32_max) then Rst else Response in
        do! on_drv (drv_send HEADER_SIZE
          (mkHdr local_cid (remote_cid raw) (port s) (remote_port raw) 0 (Some Stream) (Some answer) 0
             RAW_SOCKET_BUFFER_SIZE (fwd_cnt raw), [])) in
        do! update s (set_state Connected raw) in
        ret (Ready (Ok (remote_port raw, remote_cid raw)))
    | _ => ret (Ready (Err Errno.Badf))
    end).

Definition status_flags (s : Socket) : io_result Z := Ok (if is_nonblocking s then O_NONBLOCK else 0).
Definition set_status_flags (s : Socket) (f : Z) : Socket * io_result unit :=
  (mkSocket (port s) (cid s) (negb (Z.land f O_NONBLOCK =? 0)), Ok tt).

(** [read] of up to [len] bytes: the bytes copied into the buffer. *)
Definition take_bytes (s : Socket) (raw : RawSocket) (len : nat) : M net (Poll (io_result (list Z))) :=
  do! update s (set_buffer (drop len (buffer raw)) raw) in
  ret (Ready (Ok (take len (buffer raw)))).
Definition read (s : Socket) (buf_len : nat) (w : Waker) : M net (Poll (io_result (list Z))) :=
  with_raw s (fun raw =>
    let len := Nat.min buf_len (length (buffer raw)) in
    match state raw with
    | Connected =>
        if (len =? 0)%nat then
          if is_nonblocking s then ret (Ready (Err Errno.Again))
          else do! update s (set_rx_waker (register w (rx_waker raw)) raw) in ret Pending
        else take_bytes s raw len
    | Shutdown => if (len =? 0)%nat then ret (Ready (Ok [])) else take_bytes s raw len
    | _ => ret (Ready (Err Errno.Io))
    end).

Definition write (s : Socket) (buf : list Z) (w : Waker) : M net (Poll (io_result Z)) :=
  with_raw s (fun raw =>
    let diff := abs_diff (tx_cnt raw) (peer_fwd_cnt raw) in
    match state raw with
    | Connected =>
        if peer_buf_alloc raw <=? diff then
          if is_nonblocking s then ret (Ready (Err Errno.Again))
          else do! update s (set_tx_waker (register w (tx_waker raw)) raw) in ret Pending
        else
          let! n := get in
          let len := Z.min (Z.of_nat (length buf)) (peer_buf_alloc raw - diff) in
          do! on_drv (drv_send (HEADER_SIZE + len)
            (mkHdr (get_cid (drv n)) (remote_cid raw) (port s) (remote_port raw) len (Some Stream) (Some Rw) 0
               RAW_SOCKET_BUFFER_SIZE (fwd_cnt raw), take (Z.to_nat len) buf)) in
          do! update s (set_tx_cnt (wrapu 32 (tx_cnt raw + len)) raw) in
          ret (Ready (Ok len))
    | _ => ret (Ready (Err Errno.Io))
    end).

(** [Drop for Socket] *)
Definition drop_socket (s : Socket) : M net unit := modify (fun n => set_port_map (delete (port s) (port_map n)) n).
End Vsock.
End Vsock.
