(* ===== verification/VsockProps.v ===== *)
(** Properties of the sockets to the host: a connection is a stream of bytes in
    each direction, the sender stays within the credit of its peer, the receiver
    hands out credit for data nobody has read, and what goes wrong with large
    writes, failed binds and the wake-up of a connecting task. *)

From S2P Require Import Prelude Errors Files EventFd Executor Vsock.

Module VsockProps.
Import EventFd Executor Vsock.

Lemma unwrap_Done {S A} (o : option A) why (s s' : S) a : unwrap o why s = Done a s' -> o = Some a /\ s' = s.
Proof. destruct o; [|done]. unfold unwrap, ret. intros E. by simplify_eq. Qed.
Lemma get_Done {S} (s s' a : S) : get s = Done a s' -> a = s /\ s' = s.
Proof. unfold get. intros E. by simplify_eq. Qed.

(** ** What the driver promises *)

(** [packet_length] of the send queue. *)
Definition PACKET_LENGTH : Z := 8192 + HEADER_SIZE.

(** [incoming] are the packets of the receive queue and [sent] those handed to
    the device, in order; the device takes packets fast enough for the send
    queue to have room. *)
Class VsockDriverLaws (D : Type) `{VsockDriver D} (incoming sent : D -> list packet) : Prop := {
  send_law d len p : len < PACKET_LENGTH ->
    exists d', drv_send len p d = Done tt d' /\ sent d' = sent d ++ [p] /\ incoming d' = incoming d /\ get_cid d' = get_cid d;
  send_big d len p : PACKET_LENGTH <= len -> exists why, drv_send len p d = Panic why;
  next_none d : incoming d = [] -> drv_next d = Done None d;
  next_some d p l : incoming d = p :: l ->
    exists d', drv_next d = Done (Some p) d' /\ incoming d' = l /\ sent d' = sent d /\ get_cid d' = get_cid d;
  pending_law d : drv_pending d = length (incoming d);
  (** The device can deliver a packet. *)
  arrive_law d p : exists d', incoming d' = incoming d ++ [p] /\ sent d' = sent d /\ get_cid d' = get_cid d;
}.

(** ** One packet *)

Definition live (r : RawSocket) : Prop := state r = Connected \/ state r = Shutdown.

(** The bytes a packet brings to the connection of [port] with context [c]. *)
Definition for_us (port c : Z) (h : Hdr) : bool := (dst_port h =? port) && (c =? src_cid h).
Definition payload (port c : Z) (p : packet) : list Z :=
  if for_us port c p.1 && bool_decide (op p.1 = Some Rw) && bool_decide (type_ p.1 = Some Stream) then p.2 else [].

(** What does not change while a connection is open. *)
Record same_peer (r r' : RawSocket) : Prop := {
  same_cid : remote_cid r' = remote_cid r;
  same_port : remote_port r' = remote_port r;
  same_alloc : peer_buf_alloc r' = peer_buf_alloc r;
}.
#[export] Instance same_peer_refl : Reflexive same_peer.
Proof. by split. Qed.
#[export] Instance same_peer_trans : Transitive same_peer.
Proof. intros a b c [] []. split; congruence. Qed.

Lemma wake_rx_eq r : wake_rx r = (set_rx_waker None r, option_list (rx_waker r)).
Proof. unfold wake_rx. by destruct (rx_waker r). Qed.
Lemma wake_tx_eq r : wake_tx r = (set_tx_waker None r, option_list (tx_waker r)).
Proof. unfold wake_tx. by destruct (tx_waker r). Qed.

Record packet_effect (port : Z) (p : packet) (r r' : RawSocket) : Prop := {
  eff_live : live r';
  eff_peer : same_peer r r';
  eff_buffer : buffer r' = buffer r ++ payload port (remote_cid r) p;
  eff_tx : tx_cnt r' = tx_cnt r;
  eff_fwd : fwd_cnt r' = wrapu 32 (fwd_cnt r + Z.of_nat (length (payload port (remote_cid r) p))) \/
    (fwd_cnt r' = fwd_cnt r /\ payload port (remote_cid r) p = []);
  eff_credit : peer_fwd_cnt r' = peer_fwd_cnt r \/
    (for_us port (remote_cid r) p.1 = true /\ (op p.1 = Some Rw \/ op p.1 = Some CreditUpdate) /\ peer_fwd_cnt r' = hfwd_cnt p.1);
}.

Lemma on_packet_live o ty h data r r' w a :
  op h = Some o -> type_ h = Some ty -> live r ->
  on_packet o ty (src_cid h) h data r = Some (r', w, a) -> packet_effect (dst_port h) (h, data) r r'.
Proof.
  intros Ho Ht Hl E. unfold on_packet in E. rewrite !wake_tx_eq, !wake_rx_eq in E.
  assert (Hs : state r <> Listen /\ state r <> Connecting) by (by destruct Hl as [E'|E']; rewrite E').
  assert (Hp : payload (dst_port h) (remote_cid r) (h, data) =
    if (remote_cid r =? src_cid h) && bool_decide (o = Rw) && bool_decide (ty = Stream) then data else []).
  { unfold payload, for_us. cbn [fst snd]. rewrite Z.eqb_refl, Ho, Ht. cbn [andb].
    by rewrite (bool_decide_ext (Some o = Some Rw) (o = Rw)), (bool_decide_ext (Some ty = Some Stream) (ty = Stream)) by naive_solver. }
  assert (Hf : for_us (dst_port h) (remote_cid r) h = (remote_cid r =? src_cid h)).
  { unfold for_us. by rewrite Z.eqb_refl. }
  destruct Hs as [Hs1 Hs2].
  rewrite (bool_decide_eq_false_2 _ Hs1), (bool_decide_eq_false_2 _ Hs2), !andb_false_r in E. cbn [andb] in E.
  assert (Hlive : bool_decide (state r = Connected) || bool_decide (state r = Shutdown) = true).
  { destruct Hl as [->| ->]; [done|by rewrite orb_true_r]. }
  rewrite Hlive in E. cbn [andb] in E.
  assert (Hstay : forall x, same_peer r x -> live x -> buffer x = buffer r -> tx_cnt x = tx_cnt r -> fwd_cnt x = fwd_cnt r ->
    peer_fwd_cnt x = peer_fwd_cnt r -> payload (dst_port h) (remote_cid r) (h, data) = [] -> packet_effect (dst_port h) (h, data) r x).
  { intros x ? ? Hb ? ? ? Hpl. split; try done; try by left. - by rewrite Hpl, app_nil_r. - right. by rewrite Hpl. }
  destruct (remote_cid r =? src_cid h) eqn:Hc.
  - destruct o, ty; cbn in E, Hp; try (destruct (Z.of_nat (length data) <=? u32_max)); try discriminate E; injection E as <- <- <-;
      try (by apply Hstay; try done; right); split; try rewrite !Hp; cbn; rewrite ?app_nil_r; try done; auto 8.
  - assert (r' = r) as -> by (destruct o, ty; cbn in E; by injection E as <- <- <-).
    by apply Hstay.
Qed.

(** ** The calls *)

Section Calls.
Context {D : Type} `{DR : VsockDriver D} (incoming sent : D -> list packet) {L : VsockDriverLaws D incoming sent}.
Notation net := (Vsock.net D).

Inductive call : Type :=
  | CRound
  | CRead (s : Socket) (len : nat) (w : Waker)
  | CWrite (s : Socket) (buf : list Z) (w : Waker)
  | CPoll (s : Socket) (event : Z) (w : Waker)
  | CBind (s : Socket) (ep_port : Z) (ep_cid : option Z)
  | CConnectPort (s : Socket) (ep_port ep_cid : Z)
  | CConnectRequest (locked : bool) (local_port ep_port ep_cid : Z)
  | CConnectWait (s : Socket) (w : Waker)
  | CAccept (s : Socket) (w : Waker)
  | CDrop (s : Socket).

(** The bytes read, the bytes of a buffer that were accepted, or neither. *)
Inductive answer : Type := ARead (l : list Z) | AWritten (n : Z) | AOther.

Definition exec (c : call) : M net answer :=
  match c with
  | CRound => do! vsock_round in ret AOther
  | CRead s len w => let! r := read s len w in ret (match r with Ready (Ok l) => ARead l | _ => AOther end)
  | CWrite s buf w => let! r := write s buf w in ret (match r with Ready (Ok n) => AWritten n | _ => AOther end)
  | CPoll s event w => do! poll s event w in ret AOther
  | CBind s p c => do! bind_socket s p c in ret AOther
  | CConnectPort s p c => do! connect_port s p c in ret AOther
  | CConnectRequest locked l p c => do! connect_request locked l p c in ret AOther
  | CConnectWait s w => do! connect_wait s w in ret AOther
  | CAccept s w => do! accept s w in ret AOther
  | CDrop s => do! drop_socket s in ret AOther
  end.

(** The bytes a call gives to the reader of [P], and those it takes from its
    writer. *)
Definition read_of (P : Z) (c : call) (a : answer) : list Z :=
  match c, a with CRead s _ _, ARead l => if port s =? P then l else [] | _, _ => [] end.
Definition written_of (P : Z) (c : call) (a : answer) : list Z :=
  match c, a with CWrite s buf _, AWritten n => if port s =? P then take (Z.to_nat n) buf else [] | _, _ => [] end.
Definition keeps (P : Z) (c : call) : Prop := match c with CDrop s => port s <> P | _ => True end.

(** The bytes that packets carry from, or bring to, the socket of [P]. *)
Definition data_from (P : Z) (p : packet) : list Z :=
  if (src_port p.1 =? P) && bool_decide (op p.1 = Some Rw) then p.2 else [].
Definition sent_from (P : Z) (l : list packet) : list Z := flat_map (data_from P) l.
Definition coming_to (P c : Z) (l : list packet) : list Z := flat_map (payload P c) l.

Lemma sent_from_app P l p : sent_from P (l ++ [p]) = sent_from P l ++ data_from P p.
Proof. unfold sent_from. rewrite flat_map_app. cbn. by rewrite app_nil_r. Qed.

(** *** A call that does not concern [P] *)

Lemma put_raw_ne P q r (n : net) : q <> P -> port_map (put_raw q r n) !! P = port_map n !! P.
Proof. intros. cbn. by rewrite lookup_insert_ne. Qed.

Lemma on_drv_send (n : net) len p : len < PACKET_LENGTH ->
  exists d', on_drv (drv_send len p) n = Done tt (set_drv d' n) /\ sent d' = sent (drv n) ++ [p] /\
    incoming d' = incoming (drv n) /\ get_cid d' = get_cid (drv n).
Proof.
  intros Hl. destruct (send_law (drv n) len p Hl) as (d' & E & H). exists d'. split; [|done]. by apply zoom_run.
Qed.

Lemma on_drv_send_Done (n n' : net) len p : on_drv (drv_send len p) n = Done tt n' ->
  exists d', n' = set_drv d' n /\ sent d' = sent (drv n) ++ [p] /\ incoming d' = incoming (drv n) /\ len < PACKET_LENGTH.
Proof.
  intros E. destruct (Z.lt_ge_cases len PACKET_LENGTH) as [Hl|Hg].
  - destruct (on_drv_send n len p Hl) as (d' & E' & H1 & H2 & _). rewrite E in E'. injection E' as ->. by exists d'.
  - destruct (send_big (drv n) len p Hg) as [why E']. unfold on_drv, zoom in E. by rewrite E' in E.
Qed.

(** The effect of one call on the connection of [P]. *)
Record call_effect (P : Z) (c : call) (a : answer) (n n' : net) (r r' : RawSocket) : Prop := {
  ce_raw : port_map n' !! P = Some r';
  ce_live : live r';
  ce_peer : same_peer r r';
  ce_in : read_of P c a ++ buffer r' ++ coming_to P (remote_cid r) (incoming (drv n')) =
    buffer r ++ coming_to P (remote_cid r) (incoming (drv n));
  ce_out : sent_from P (sent (drv n')) = sent_from P (sent (drv n)) ++ written_of P c a;
}.

Lemma handle_effect P p acc acc' (n n' : net) r :
  port_map n !! P = Some r -> live r -> handle p acc n = Done acc' n' ->
  exists r', port_map n' !! P = Some r' /\ packet_effect P p r r' /\ drv n' = drv n.
Proof.
  intros Hr Hl E. destruct p as [h data]. unfold handle in E.
  apply bind_Done in E as (o & n1 & E1 & E). apply unwrap_Done in E1 as [Ho ->].
  apply bind_Done in E as (ty & n1 & E1 & E). apply unwrap_Done in E1 as [Ht ->].
  apply bind_assert in E as [_ E]. apply bind_Done in E as (? & ? & [-> ->]%get_Done & E).
  assert (Hstay : dst_port h <> P -> packet_effect P (h, data) r r).
  { intros Hne. assert (Hp : payload P (remote_cid r) (h, data) = []).
    { unfold payload, for_us. cbn. by rewrite (proj2 (Z.eqb_neq _ _) Hne). }
    split; try done; [by rewrite Hp, app_nil_r|right; by rewrite Hp|by left]. }
  destruct (port_map n !! dst_port h) as [raw|] eqn:Hraw.
  - apply bind_Done in E as ([[raw' w] b] & n1 & E1 & E). apply unwrap_Done in E1 as [Hop ->].
    apply bind_Done in E as ([] & n1 & [= <-] & E). unfold ret in E. injection E as <- <-. cbn.
    destruct (decide (dst_port h = P)) as [<-|Hne].
    + rewrite Hr in Hraw. injection Hraw as <-. exists raw'. rewrite lookup_insert_eq. split; [done|]. split; [|done].
      by eapply on_packet_live.
    + exists r. rewrite lookup_insert_ne by done. auto.
  - injection E as <- <-. exists r. split; [done|]. split; [|done]. apply Hstay. congruence.
Qed.

(** *** The background task *)

Lemma coming_cons P c p l : coming_to P c (p :: l) = payload P c p ++ coming_to P c l.
Proof. done. Qed.

Lemma next_Done (n n1 : net) p : on_drv drv_next n = Done p n1 ->
  port_map n1 = port_map n /\ sent (drv n1) = sent (drv n) /\ get_cid (drv n1) = get_cid (drv n) /\
  incoming (drv n) = option_list p ++ incoming (drv n1).
Proof.
  unfold on_drv, zoom. destruct (incoming (drv n)) as [|q l] eqn:Hi.
  - rewrite (next_none _ Hi). intros [= <- <-]. cbn. by rewrite Hi.
  - destruct (next_some _ _ _ Hi) as (d' & E & H1 & H2 & H3). rewrite E. intros [= <- <-]. cbn. by rewrite H1.
Qed.

(** Every packet in turn has its effect on the connection. *)
Inductive packets_effect (P : Z) : list packet -> RawSocket -> RawSocket -> Prop :=
  | pe_nil r : packets_effect P [] r r
  | pe_cons p l r r1 r2 : packet_effect P p r r1 -> packets_effect P l r1 r2 -> packets_effect P (p :: l) r r2.

Lemma process_effect P fuel : forall acc acc' (n n' : net) r,
  port_map n !! P = Some r -> live r -> process_packet fuel acc n = Done acc' n' ->
  exists r' l, port_map n' !! P = Some r' /\ live r' /\ packets_effect P l r r' /\
    incoming (drv n) = l ++ incoming (drv n') /\ sent (drv n') = sent (drv n).
Proof.
  induction fuel as [|fuel IH]; intros acc acc' n n' r Hr Hl E; cbn [process_packet] in E.
  - injection E as <- <-. exists r, []. split_and!; try done. constructor.
  - apply bind_Done in E as (p & n1 & E1 & E). apply next_Done in E1 as (H1 & H2 & _ & H3).
    destruct p as [p|].
    + apply bind_Done in E as (acc1 & n2 & E2 & E).
      destruct (handle_effect P p acc acc1 n1 n2 r) as (r1 & Hr1 & He & Hd); [by rewrite H1|done|done|].
      destruct (IH acc1 acc' n2 n' r1 Hr1 (eff_live _ _ _ _ He) E) as (r2 & l & Hr2 & Hl2 & Hes & Hi & Hs).
      exists r2, (p :: l). split_and!; try done; [by econstructor| |].
      * rewrite H3, Hd in *. cbn. by rewrite Hi.
      * by rewrite Hs, Hd, H2.
    + injection E as <- <-. exists r, []. rewrite H1, H2, H3. split_and!; try done. constructor.
Qed.

Lemma packets_effect_in P l r r' : packets_effect P l r r' ->
  same_peer r r' /\ buffer r' = buffer r ++ coming_to P (remote_cid r) l /\ tx_cnt r' = tx_cnt r.
Proof.
  induction 1 as [r|p l r r1 r2 He _ (IH1 & IH2 & IH3)]; [by rewrite app_nil_r|].
  destruct He as [_ He1 He2 He3 _ _]. split; [by etransitivity|]. rewrite IH2, IH3, He2, He3, (same_cid _ _ He1), <- app_assoc. done.
Qed.

Lemma round_effect P (n n' : net) r :
  port_map n !! P = Some r -> live r -> vsock_round n = Done tt n' ->
  exists r' l ps, port_map n' !! P = Some r' /\ live r' /\ packets_effect P l r r' /\
    incoming (drv n) = l ++ incoming (drv n') /\ sent (drv n') = sent (drv n) ++ ps /\ sent_from P ps = [].
Proof.
  intros Hr Hl E. unfold vsock_round in E. apply bind_Done in E as (? & ? & [-> ->]%get_Done & E).
  apply bind_Done in E as (acc & n1 & E1 & E).
  destruct (process_effect P _ _ _ _ _ _ Hr Hl E1) as (r' & l & Hr' & Hl' & He & Hi & Hs).
  exists r', l. destruct acc as [[h fwd]|].
  - apply on_drv_send_Done in E as (d' & -> & Hs' & Hi' & _). exists [(reply h fwd, [])]. cbn.
    rewrite Hi', Hs', Hs. split_and!; try done. unfold data_from. cbn. by destruct (_ && _).
  - injection E as <-. exists []. rewrite app_nil_r. split_and!; try done.
Qed.

(** *** The other calls *)

(** All but the wakers of the connection is as before. *)
Record quiet (r r' : RawSocket) : Prop := {
  quiet_state : state r' = state r;
  quiet_peer : same_peer r r';
  quiet_buffer : buffer r' = buffer r;
  quiet_tx : tx_cnt r' = tx_cnt r;
  quiet_fwd : peer_fwd_cnt r' = peer_fwd_cnt r;
}.

(** A call that neither reads nor writes at [P]: it leaves the connection of [P]
    quiet, and may send packets without data. *)
Record bystander (P : Z) (n n' : net) : Prop := {
  by_raw r : port_map n !! P = Some r -> live r -> exists r', port_map n' !! P = Some r' /\ quiet r r';
  by_incoming : incoming (drv n') = incoming (drv n);
  by_sent : exists ps, sent (drv n') = sent (drv n) ++ ps /\ sent_from P ps = [];
}.

#[local] Instance quiet_refl : Reflexive quiet.
Proof. by split. Qed.
#[local] Instance bystander_refl P : Reflexive (bystander P).
Proof. intros n. split; [by intros r Hr _; exists r|done|]. exists []. by rewrite app_nil_r. Qed.
#[local] Instance bystander_trans P : Transitive (bystander P).
Proof.
  intros n1 n2 n3 [A1 A2 (ps1 & A3 & A4)] [B1 B2 (ps2 & B3 & B4)]. split.
  - intros r Hr Hl. destruct (A1 r Hr Hl) as (r1 & Hr1 & [Q1 Q2 Q3 Q4 Q5]).
    destruct (B1 r1 Hr1) as (r2 & Hr2 & [R1 R2 R3 R4 R5]); [unfold live in *; by rewrite Q1|].
    exists r2. split; [done|]. split; [congruence|by etransitivity|congruence|congruence|congruence].
  - congruence.
  - exists (ps1 ++ ps2). rewrite B3, A3, <- app_assoc. split; [done|]. unfold sent_from in *. by rewrite flat_map_app, A4, B4.
Qed.

Lemma bystander_put P q (n : net) raw :
  (q = P -> forall r, port_map n !! P = Some r -> live r -> quiet r raw) -> bystander P n (put_raw q raw n).
Proof.
  intros Hq. split; [|done|exists []; by rewrite app_nil_r]. intros r Hr Hl. cbn. destruct (decide (q = P)) as [->|Hne].
  - exists raw. rewrite lookup_insert_eq. split; [done|]. by apply Hq.
  - exists r. by rewrite lookup_insert_ne.
Qed.

Lemma bystander_send P (n n' : net) len h data :
  on_drv (drv_send len (h, data)) n = Done tt n' -> data_from P (h, data) = [] -> bystander P n n'.
Proof.
  intros (d' & -> & Hs & Hi & _)%on_drv_send_Done Hd. split; [by intros r Hr _; exists r|done|].
  exists [(h, data)]. cbn. rewrite Hs. split; [done|]. by rewrite Hd.
Qed.

Lemma bystander_effect P c a (n n' : net) r :
  port_map n !! P = Some r -> live r -> bystander P n n' -> read_of P c a = [] -> written_of P c a = [] ->
  exists r', call_effect P c a n n' r r' /\ tx_cnt r' = tx_cnt r /\ peer_fwd_cnt r' = peer_fwd_cnt r /\
    incoming (drv n') = incoming (drv n).
Proof.
  intros Hr Hl [B1 B2 (ps & B3 & B4)] Hrd Hwr. destruct (B1 r Hr Hl) as (r' & Hr' & [Q1 Q2 Q3 Q4 Q5]).
  exists r'. split; [|done]. split; try done.
  - unfold live in *. by rewrite Q1.
  - by rewrite Hrd, Q3, B2.
  - rewrite B3, Hwr. unfold sent_from in *. by rewrite flat_map_app, B4.
Qed.

Lemma with_raw_bystander {A} P s (f : RawSocket -> M net (Poll (io_result A))) (n n' : net) x :
  with_raw s f n = Done x n' ->
  (forall raw, port_map n !! port s = Some raw -> f raw n = Done x n' -> bystander P n n') -> bystander P n n'.
Proof.
  unfold with_raw. intros (? & ? & [-> ->]%get_Done & E)%bind_Done Hf.
  destruct (port_map n !! port s) as [raw|] eqn:Hraw; [by apply (Hf raw)|]. by injection E as <- <-.
Qed.

Lemma update_bystander {A} P s raw raw' (k : M net A) (n n' : net) x :
  port_map n !! port s = Some raw -> quiet raw raw' ->
  (do! update s raw' in k) n = Done x n' -> (forall n1, k n1 = Done x n' -> n' = n1) -> bystander P n n'.
Proof.
  intros Hraw Hq (? & n1 & E1 & E2)%bind_Done Hk. unfold update, modify in E1. injection E1 as _ <-. rewrite (Hk _ E2).
  apply bystander_put. intros <- r Hr Hl. congruence.
Qed.

#[local] Ltac stays := match goal with H : ret _ _ = Done _ _ |- _ => unfold ret in H; injection H as _ <-; reflexivity end.
#[local] Ltac updates H Hraw :=
  eapply update_bystander; [exact Hraw| |exact H|intros ? HH; unfold ret in HH; by injection HH];
  by repeat case_match.

Lemma poll_bystander P s event w (n n' : net) x : poll s event w n = Done x n' -> bystander P n n'.
Proof.
  intros E. eapply with_raw_bystander; [exact E|]. clear E. intros raw Hraw E. cbv beta zeta in E. destruct (state raw).
  - updates E Hraw.
  - stays.
  - destruct (_ =? 0); [updates E Hraw|stays].
  - updates E Hraw.
  - stays.
Qed.

Lemma bind_bystander P s p c (n n' : net) x : bind_socket s p c n = Done x n' -> bystander P n n'.
Proof.
  unfold bind_socket, map_bind. intros (r & n1 & (? & ? & [-> ->]%get_Done & E)%bind_Done & E2)%bind_Done.
  unfold ret in E2. injection E2 as _ <-. destruct (port_map n !! p) eqn:Hp; [injection E as _ <-; done|].
  apply bind_Done in E as (? & n2 & E & E2). unfold ret, modify in *. injection E as _ <-. injection E2 as _ <-.
  apply bystander_put. intros -> r0 Hr. congruence.
Qed.

Lemma free_port_spec fuel : forall i m j, free_port fuel i m = Some j -> m !! j = None /\ i <= j < u32_max.
Proof.
  induction fuel as [|fuel IH]; intros i m j E; [done|]. cbn in E. destruct (u32_max <=? i) eqn:Hi; [done|]. apply Z.leb_gt in Hi.
  destruct (m !! i) eqn:Hm; [apply IH in E as [? ?]; split; [done|lia]|]. injection E as <-. split; [done|lia].
Qed.

Lemma connect_port_bystander P s p c (n n' : net) x : connect_port s p c n = Done x n' -> bystander P n n'.
Proof.
  unfold connect_port, map_connect. intros (r & n1 & (? & ? & [-> ->]%get_Done & E)%bind_Done & E2)%bind_Done.
  assert (n' = n1) as -> by (by destruct r; unfold ret in E2; injection E2).
  destruct (free_port _ _ _) as [i|] eqn:Hi; [|injection E as _ <-; done].
  apply bind_Done in E as (? & n2 & E & E3). unfold ret, modify in *. injection E as _ <-. injection E3 as _ <-.
  apply free_port_spec in Hi as [Hi _]. apply bystander_put. intros -> r0 Hr. congruence.
Qed.

Lemma no_data P h : op h <> Some Rw -> data_from P (h, []) = [].
Proof. intros. unfold data_from. by destruct (_ && _). Qed.

Lemma connect_request_bystander P locked l p c (n n' : net) x :
  connect_request locked l p c n = Done x n' -> bystander P n n'.
Proof.
  unfold connect_request. destruct locked; intros E; [stays|]. apply bind_Done in E as (? & ? & [-> ->]%get_Done & E).
  apply bind_Done in E as ([] & n1 & E1 & E). unfold ret in E. injection E as _ <-.
  eapply bystander_send; [exact E1|]. by apply no_data.
Qed.

Lemma connect_wait_bystander P s w (n n' : net) x : connect_wait s w n = Done x n' -> bystander P n n'.
Proof.
  intros E. eapply with_raw_bystander; [exact E|]. clear E. intros raw Hraw E. cbv beta zeta in E. destruct (state raw); try stays. updates E Hraw.
Qed.

Lemma accept_bystander P s w (n n' : net) x : accept s w n = Done x n' -> bystander P n n'.
Proof.
  intros E. eapply with_raw_bystander; [exact E|]. clear E. intros raw Hraw E. cbv beta zeta in E. destruct (state raw) eqn:Hst; try stays.
  - destruct (is_nonblocking s); [stays|updates E Hraw].
  - apply bind_Done in E as (? & ? & [-> ->]%get_Done & E). cbv zeta in E. apply bind_Done in E as ([] & n1 & E1 & E).
    apply bind_Done in E as ([] & n2 & E2 & E). unfold update, modify in E2. unfold ret in E. simplify_eq.
    assert (Hm : port_map n1 = port_map n) by (by apply on_drv_send_Done in E1 as (d' & -> & _)).
    transitivity n1; [eapply bystander_send; [exact E1|by apply no_data; cbn; case_match]|].
    apply bystander_put. intros <- r Hr [Hl|Hl]; rewrite Hm in Hr; congruence.
Qed.

Lemma drop_bystander P s (n n' : net) : port s <> P -> drop_socket s n = Done tt n' -> bystander P n n'.
Proof.
  intros Hne [= <-]. split; [|done|exists []; by rewrite app_nil_r]. intros r Hr Hl. exists r. cbn.
  by rewrite lookup_delete_ne.
Qed.

(** *** Reading and writing *)

Definition read_answer (res : Poll (io_result (list Z))) : answer :=
  match res with Ready (Ok l) => ARead l | _ => AOther end.
Definition reads P s len w res (n n' : net) r : Prop :=
  exists r', call_effect P (CRead s len w) (read_answer res) n n' r r' /\ tx_cnt r' = tx_cnt r /\ peer_fwd_cnt r' = peer_fwd_cnt r /\
    incoming (drv n') = incoming (drv n).

Lemma read_effect P s len w (n n' : net) res r :
  port_map n !! P = Some r -> live r -> read s len w n = Done res n' -> reads P s len w res n n' r.
Proof.
  revert n'. intros n1 Hr Hl E.
  assert (Hby : bystander P n n1 -> (forall l, res = Ready (Ok l) -> port s <> P \/ l = []) -> reads P s len w res n n1 r).
  { intros B Hres. apply bystander_effect; [done|done|done| |by repeat case_match]. destruct res as [[l|e]|]; try done.
    cbn. destruct (Hres l eq_refl) as [Hne| ->]; [by rewrite (proj2 (Z.eqb_neq _ _) Hne)|by case_match]. }
  destruct (port_map n !! port s) as [raw|] eqn:Hraw; unfold read, with_raw in E;
    apply bind_Done in E as (? & ? & [-> ->]%get_Done & E); rewrite Hraw in E.
  2:{ unfold ret in E. injection E as <- <-. by apply Hby. }
  assert (Htake : forall m, (m <= length (buffer raw))%nat -> take_bytes s raw m n = Done res n1 -> reads P s len w res n n1 r).
  { intros m Hm Et. apply bind_Done in Et as ([] & n2 & E1 & E2). unfold update, modify in E1. injection E1 as <-.
    unfold ret in E2. injection E2 as <- <-. destruct (decide (port s = P)) as [Hp|Hne].
    - rewrite <- Hp in Hr. rewrite Hraw in Hr. injection Hr as ->. eexists. split; [split|]; cbn; rewrite ?Hp, ?lookup_insert_eq, ?Z.eqb_refl; try done.
      + cbn [set_buffer buffer]. by rewrite app_assoc, take_drop.
      + by rewrite app_nil_r.
    - apply Hby; [|by left]. by apply bystander_put. }
  assert (Hwait : (do! update s (set_rx_waker (register w (rx_waker raw)) raw) in ret Pending) n = Done res n1 -> reads P s len w res n n1 r).
  { intros Ew. apply Hby; [updates Ew Hraw|]. apply bind_Done in Ew as (? & ? & _ & Ew). unfold ret in Ew. by injection Ew as <- _. }
  assert (Hret : forall v, ret v n = Done res n1 -> (forall l, v = Ready (Ok l) -> l = []) -> reads P s len w res n n1 r).
  { intros v Ev Hv. unfold ret in Ev. injection Ev as <- <-. apply Hby; [done|]. intros l ->. right. by apply Hv. }
  cbv zeta beta in E. destruct (state raw); try (by eapply Hret; [exact E|]).
  - destruct (_ =? 0)%nat; [|eapply Htake; [|exact E]; lia].
    destruct (is_nonblocking s); [by eapply Hret; [exact E|]|by apply Hwait].
  - destruct (_ =? 0)%nat; [|eapply Htake; [|exact E]; lia]. eapply Hret; [exact E|]. by intros l [= <-].
Qed.

(** What a write does to the counters. *)
Definition sends (r r' : RawSocket) (l : list Z) : Prop :=
  peer_fwd_cnt r' = peer_fwd_cnt r /\
  ((l = [] /\ tx_cnt r' = tx_cnt r) \/
   (tx_cnt r' = wrapu 32 (tx_cnt r + Z.of_nat (length l)) /\
    Z.of_nat (length l) <= peer_buf_alloc r - abs_diff (tx_cnt r) (peer_fwd_cnt r))).

Lemma write_effect P s buf w (n n' : net) x r :
  port_map n !! P = Some r -> live r -> exec (CWrite s buf w) n = Done x n' ->
  exists r', call_effect P (CWrite s buf w) x n n' r r' /\ sends r r' (written_of P (CWrite s buf w) x) /\
    incoming (drv n') = incoming (drv n).
Proof.
  intros Hr Hl (res & n1 & E & E2)%bind_Done. unfold ret in E2. injection E2 as <- <-.
  assert (Hby : bystander P n n1 -> (forall l, res = Ready (Ok l) -> port s <> P) ->
    exists r', call_effect P (CWrite s buf w) (match res with Ready (Ok l) => AWritten l | _ => AOther end) n n1 r r' /\
      sends r r' (written_of P (CWrite s buf w) (match res with Ready (Ok l) => AWritten l | _ => AOther end)) /\
      incoming (drv n1) = incoming (drv n)).
  { intros B Hres.
    assert (Hw : written_of P (CWrite s buf w) (match res with Ready (Ok l) => AWritten l | _ => AOther end) = []).
    { destruct res as [[l|e]|]; try done. cbn. by rewrite (proj2 (Z.eqb_neq _ _) (Hres l eq_refl)). }
    destruct (bystander_effect P (CWrite s buf w) _ n n1 r Hr Hl B ltac:(by repeat case_match) Hw) as (r' & He & Ht & Hp & Hi).
    exists r'. split; [done|]. rewrite Hw. split; [|done]. split; [done|]. by left. }
  destruct (port_map n !! port s) as [raw|] eqn:Hraw; unfold write, with_raw in E;
    apply bind_Done in E as (? & ? & [-> ->]%get_Done & E); rewrite Hraw in E.
  2:{ unfold ret in E. injection E as <- <-. by apply Hby. }
  cbv zeta beta in E. destruct (state raw) eqn:Hst; try (unfold ret in E; injection E as <- <-; by apply Hby).
  destruct (_ <=? _) eqn:Hcr.
  { destruct (is_nonblocking s); [unfold ret in E; injection E as <- <-; by apply Hby|].
    apply Hby; [updates E Hraw|]. apply bind_Done in E as (? & ? & _ & E). unfold ret in E. by injection E as <- _. }
  apply Z.leb_gt in Hcr. apply bind_Done in E as (? & ? & [-> ->]%get_Done & E).
  set (k := Z.min _ _) in E. apply bind_Done in E as ([] & n2 & E1 & E). apply bind_Done in E as ([] & n3 & E2 & E).
  unfold ret in E. injection E as <- <-. unfold update, modify in E2. injection E2 as <-.
  assert (Hk : 0 <= k) by lia. assert (Hlen : Z.of_nat (length (take (Z.to_nat k) buf)) = k) by (rewrite length_take; lia).
  pose proof E1 as (d' & -> & Hs & Hi & _)%on_drv_send_Done.
  destruct (decide (port s = P)) as [Hp|Hne].
  - rewrite <- Hp in Hr. rewrite Hraw in Hr. injection Hr as ->.
    eexists. split; [split|]; cbn; rewrite ?Hp, ?lookup_insert_eq, ?Z.eqb_refl, ?Hs, ?Hi; try done.
    + rewrite sent_from_app. f_equal. unfold data_from. cbn. by rewrite Hp, Z.eqb_refl.
    + split; [|done]. split; [done|]. right. cbn. rewrite Hlen. split; [done|]. lia.
  - apply Hby; [|done]. etransitivity; [eapply bystander_send; [exact E1|]|by apply bystander_put].
    unfold data_from. cbn. by rewrite (proj2 (Z.eqb_neq _ _) Hne).
Qed.

Definition credit_effect (P : Z) (c : call) (a : answer) (n n' : net) (r r' : RawSocket) : Prop :=
  match c with
  | CRound => written_of P c a = [] /\ exists l, packets_effect P l r r' /\ incoming (drv n) = l ++ incoming (drv n')
  | _ => incoming (drv n') = incoming (drv n) /\ sends r r' (written_of P c a)
  end.

Lemma exec_effect P c a (n n' : net) r :
  port_map n !! P = Some r -> live r -> keeps P c -> exec c n = Done a n' ->
  exists r', call_effect P c a n n' r r' /\ credit_effect P c a n n' r r'.
Proof.
  intros Hr Hl Hk E.
  assert (Hby : bystander P n n' -> c <> CRound -> read_of P c a = [] -> written_of P c a = [] ->
    exists r', call_effect P c a n n' r r' /\ credit_effect P c a n n' r r').
  { intros B Hc H1 H2. destruct (bystander_effect P c a n n' r Hr Hl B H1 H2) as (r' & He & Ht & Hp & Hi).
    exists r'. split; [done|]. unfold credit_effect. rewrite H2. destruct c; try done; (split; [done|]; split; [done|by left]). }
  destruct c; cbn [exec] in E; apply bind_Done in E as (x & n1 & E1 & E2); unfold ret in E2; injection E2 as <- <-.
  1:{ destruct x. destruct (round_effect P n n1 r Hr Hl E1) as (r' & l & ps & Hr' & Hl' & He & Hi & Hs & Hps).
      pose proof (packets_effect_in _ _ _ _ He) as (Hp & Hb & _). exists r'. split.
      - split; try done; cbn.
        + rewrite Hb, Hi, <- app_assoc. unfold coming_to. by rewrite flat_map_app.
        + rewrite Hs, app_nil_r. unfold sent_from in *. by rewrite flat_map_app, Hps, app_nil_r.
      - split; [done|]. by exists l. }
  1:{ destruct (read_effect P s len w n n1 x r Hr Hl E1) as (r' & He & Ht & Hp & Hi). exists r'. split; [done|].
      split; [done|]. split; [done|]. left. split; [by repeat case_match|done]. }
  1:{ destruct (write_effect P s buf w n n1 _ r Hr Hl ltac:(unfold exec; erewrite bind_run by exact E1; reflexivity))
        as (r' & He & Hs & Hi). by exists r'. }
  all: apply Hby; try done.
  - by eapply poll_bystander.
  - by eapply bind_bystander.
  - by eapply connect_port_bystander.
  - by eapply connect_request_bystander.
  - by eapply connect_wait_bystander.
  - by eapply accept_bystander.
  - destruct x. by eapply drop_bystander.
Qed.

(** ** A connection is a stream in each direction *)

Inductive event : Type := EArrive (p : packet) | ECall (c : call) (a : answer).

(** The device puts a packet into the receive queue, or the kernel makes a call. *)
Inductive step : net -> event -> net -> Prop :=
  | step_arrive n p d' :
      incoming d' = incoming (drv n) ++ [p] -> sent d' = sent (drv n) -> step n (EArrive p) (set_drv d' n)
  | step_call n c a n' : exec c n = Done a n' -> step n (ECall c a) n'.

Inductive run : net -> list event -> net -> Prop :=
  | run_nil n : run n [] n
  | run_cons n e n1 l n2 : step n e n1 -> run n1 l n2 -> run n (e :: l) n2.

Definition all_read (P : Z) (l : list event) : list Z :=
  flat_map (fun e => match e with ECall c a => read_of P c a | _ => [] end) l.
Definition all_written (P : Z) (l : list event) : list Z :=
  flat_map (fun e => match e with ECall c a => written_of P c a | _ => [] end) l.
Definition all_arrived (P c : Z) (l : list event) : list Z :=
  flat_map (fun e => match e with EArrive p => payload P c p | _ => [] end) l.
Definition keeps_open (P : Z) (l : list event) : Prop := Forall (fun e => match e with ECall c _ => keeps P c | _ => True end) l.

(** The receiver looks at the context of the sender, not at its port: the stream
    is that of all data packets of the context for [P]. *)
Lemma stream_of_context P n l n' r :
  run n l n' -> port_map n !! P = Some r -> live r -> keeps_open P l ->
  exists r', port_map n' !! P = Some r' /\ live r' /\
    all_read P l ++ buffer r' ++ coming_to P (remote_cid r) (incoming (drv n')) =
      buffer r ++ coming_to P (remote_cid r) (incoming (drv n)) ++ all_arrived P (remote_cid r) l /\
    sent_from P (sent (drv n')) = sent_from P (sent (drv n)) ++ all_written P l.
Proof.
  intros R. revert r. induction R as [n|n e n1 l n2 St R IH]; intros r Hr Hl Hk.
  { exists r. rewrite !app_nil_r. done. }
  apply Forall_cons_1 in Hk as [Hk Hks]. destruct St as [n p d' Hi Hs|n c a n1 E].
  - destruct (IH r Hr Hl Hks) as (r' & Hr' & Hl' & H1 & H2). exists r'. cbn [drv set_drv] in H1, H2. split_and!; try done.
    + change (all_read P (EArrive p :: l)) with (all_read P l). rewrite H1, Hi. unfold coming_to.
      rewrite flat_map_app. cbn [flat_map]. by rewrite app_nil_r, <- app_assoc.
    + by rewrite H2, Hs.
  - destruct (exec_effect P c a n n1 r Hr Hl Hk E) as (r1 & [He1 He2 He3 He4 He5] & _).
    destruct (IH r1 He1 He2 Hks) as (r' & Hr' & Hl' & H1 & H2). rewrite (same_cid _ _ He3) in H1.
    exists r'. split_and!; try done.
    + change (all_read P (ECall c a :: l)) with (read_of P c a ++ all_read P l).
      rewrite <- app_assoc, H1, !app_assoc, <- (app_assoc (read_of _ _ _)), He4. by rewrite <- !app_assoc.
    + by rewrite H2, He5, <- app_assoc.
Qed.

(** What the peer, the port [q] of context [c], sends to [P]. *)
Definition peer_payload (P c q : Z) (p : packet) : list Z := if src_port p.1 =? q then payload P c p else [].
Definition coming_from (P c q : Z) (l : list packet) : list Z := flat_map (peer_payload P c q) l.
Definition all_sent (P c q : Z) (l : list event) : list Z :=
  flat_map (fun e => match e with EArrive p => peer_payload P c q p | _ => [] end) l.
(** A packet that is not data of another port of the context for [P]. *)
Definition no_intruder (P c q : Z) (p : packet) : Prop := src_port p.1 <> q -> payload P c p = [].
Definition undisturbed (P c q : Z) (l : list event) : Prop :=
  Forall (fun e => match e with EArrive p => no_intruder P c q p | _ => True end) l.

Lemma peer_payload_eq P c q p : no_intruder P c q p -> peer_payload P c q p = payload P c p.
Proof. unfold peer_payload. destruct (Z.eqb_spec (src_port p.1) q); [done|]. intros H. by rewrite H. Qed.

Lemma coming_from_eq P c q l : Forall (no_intruder P c q) l -> coming_from P c q l = coming_to P c l.
Proof. unfold coming_from, coming_to. induction 1 as [|p l Hp _ IH]; cbn; [done|]. by rewrite peer_payload_eq, IH. Qed.

Lemma all_sent_eq P c q l : undisturbed P c q l -> all_sent P c q l = all_arrived P c l.
Proof. unfold all_sent, all_arrived. induction 1 as [|[p|] l Hp _ IH]; cbn; [done| |done]. by rewrite peer_payload_eq, IH. Qed.

(** The receive queue only ever holds what arrived. *)
Lemma undisturbed_queue P c q n l n' :
  run n l n' -> forall r, port_map n !! P = Some r -> live r -> keeps_open P l ->
  Forall (no_intruder P c q) (incoming (drv n)) -> undisturbed P c q l -> Forall (no_intruder P c q) (incoming (drv n')).
Proof.
  intros R. induction R as [n|n e n1 l n2 St R IH]; intros r Hr Hl Hk Hn Hu; [done|].
  apply Forall_cons_1 in Hk as [Hk Hks]. apply Forall_cons_1 in Hu as [Hu Hus]. destruct St as [n p d' Hi Hs|n cl a n1 E].
  - apply (IH r); [done|done|done| |done]. cbn. rewrite Hi. apply Forall_app. by repeat constructor.
  - destruct (exec_effect P cl a n n1 r Hr Hl Hk E) as (r1 & [He1 He2 _ _ _] & Hc). apply (IH r1); try done.
    destruct cl; try (by rewrite (proj1 Hc)). destruct Hc as (_ & l' & _ & Hi). rewrite Hi in Hn. by apply Forall_app in Hn as [_ Hn].
Qed.

(** C16: an open connection of the local port [P] with a peer (the context and
    the port of the other end) is a stream in each direction, however packets,
    calls of other sockets and the background task interleave, in every run that
    returns and in which no socket that has the number [P] is dropped (its own, or one whose
    failed bind left it with this number) and no data comes to [P] from another
    port of the peer's context, which the receiver does not tell apart: what was
    read, then what is in the buffer, then what is in the receive queue, is
    exactly what the peer sent, in order; the data packets sent carry exactly
    the bytes the writes accepted, in order. *)
Theorem vsock_stream P n l n' r :
  let c := remote_cid r in let q := remote_port r in
  run n l n' -> port_map n !! P = Some r -> live r -> keeps_open P l ->
  Forall (no_intruder P c q) (incoming (drv n)) -> undisturbed P c q l ->
  exists r', port_map n' !! P = Some r' /\ live r' /\
    all_read P l ++ buffer r' ++ coming_from P c q (incoming (drv n')) =
      buffer r ++ coming_from P c q (incoming (drv n)) ++ all_sent P c q l /\
    sent_from P (sent (drv n')) = sent_from P (sent (drv n)) ++ all_written P l.
Proof.
  intros c q R Hr Hl Hk Hn Hu. pose proof (undisturbed_queue P c q n l n' R r Hr Hl Hk Hn Hu) as Hn'.
  rewrite !coming_from_eq, all_sent_eq by done. by apply stream_of_context.
Qed.

(** ** The sender stays within its credit *)

Definition credit_packet (P c : Z) (p : packet) : bool :=
  for_us P c p.1 && (bool_decide (op p.1 = Some Rw) || bool_decide (op p.1 = Some CreditUpdate)).

(** The counts the packets of [l] report start at [f] or above, never go back
    and end at [top] or below. *)
Fixpoint credits (P c f : Z) (l : list packet) (top : Z) : Prop :=
  match l with
  | [] => f <= top
  | p :: l =>
      if credit_packet P c p then exists g, f <= g /\ hfwd_cnt p.1 = wrapu 32 g /\ credits P c g l top
      else credits P c f l top
  end.

Lemma credits_weaken P c l : forall f g top top', f <= g -> top <= top' -> credits P c g l top -> credits P c f l top'.
Proof.
  induction l as [|p l IH]; intros f g top top' Hf Ht H; cbn in *; [lia|].
  destruct (credit_packet P c p); [|by eapply IH]. destruct H as (h & Hh & Hp & H). exists h. split; [lia|]. split; [done|].
  by eapply (IH h h top).
Qed.
Lemma credits_le P c l : forall f top, credits P c f l top -> f <= top.
Proof.
  induction l as [|p l IH]; intros f top H; cbn in *; [done|]. destruct (credit_packet P c p); [|by apply IH].
  destruct H as (g & Hg & _ & H%IH). lia.
Qed.
Lemma credits_app P c l p : forall f top,
  credits P c f l top -> (credit_packet P c p = true -> hfwd_cnt p.1 = wrapu 32 top) -> credits P c f (l ++ [p]) top.
Proof.
  induction l as [|q l IH]; intros f top H Hp; cbn in *.
  - destruct (credit_packet P c p); [|done]. exists top. split; [done|]. split; [by apply Hp|done].
  - destruct (credit_packet P c q); [|by apply IH]. destruct H as (g & Hg & Hq & H). exists g. split; [done|]. split; [done|]. by apply IH.
Qed.

Lemma packets_credits P l r r' : packets_effect P l r r' -> forall f rest top,
  peer_fwd_cnt r = wrapu 32 f -> credits P (remote_cid r) f (l ++ rest) top ->
  exists f', f <= f' /\ peer_fwd_cnt r' = wrapu 32 f' /\ credits P (remote_cid r) f' rest top.
Proof.
  induction 1 as [r|p l r r1 r2 He _ IH]; intros f rest top Hf Hc; [exists f; by split; [lia|]|].
  destruct He as [_ He1 _ _ _ He2]. rewrite (same_cid _ _ He1) in IH. cbn in Hc.
  destruct (credit_packet P (remote_cid r) p) eqn:Hp.
  - destruct Hc as (g & Hg & Hh & Hc). destruct He2 as [He2|(_ & _ & He2)].
    + destruct (IH f rest top) as (f' & ? & ?); [congruence|by eapply credits_weaken|]. by exists f'.
    + destruct (IH g rest top) as (f' & ? & ?); [congruence|done|]. exists f'. split; [lia|done].
  - destruct He2 as [He2|(Hu & Ho & He2)].
    + destruct (IH f rest top) as (f' & ? & ?); [congruence|done|]. by exists f'.
    + exfalso. unfold credit_packet in Hp. rewrite Hu in Hp.
      destruct Ho as [Ho|Ho]; rewrite Ho in Hp; by rewrite ?orb_true_r in Hp.
Qed.

(** The difference of the wrapped counters is never below the number of bytes
    under way. *)
Lemma abs_diff_covers t f a : 0 <= t - f <= a -> a <= 2 ^ 31 -> t - f <= abs_diff (wrapu 32 t) (wrapu 32 f).
Proof.
  intros H Ha. unfold abs_diff, wrapu. change (2 ^ 31) with 2147483648 in Ha. change (2 ^ 32) with 4294967296.
  pose proof (Z.mod_pos_bound t 4294967296 ltac:(lia)). pose proof (Z.mod_pos_bound f 4294967296 ltac:(lia)).
  pose proof (Z.div_mod t 4294967296 ltac:(lia)). pose proof (Z.div_mod f 4294967296 ltac:(lia)).
  destruct (Z.lt_trichotomy (t / 4294967296) (f / 4294967296)) as [Hlt|[He|Hgt]]; [nia|rewrite He in *; lia|].
  assert (t / 4294967296 = f / 4294967296 + 1) as Hq by nia. rewrite Hq in *. lia.
Qed.

(** The bytes sent since the first [base]. *)
Definition total_sent (P base : Z) (n : net) : Z := Z.of_nat (length (sent_from P (sent (drv n)))) - base.

(** The peer consumes what it was sent ([F] bytes so far) and reports it
    truthfully in its packets, which may wait in the receive queue; the kernel
    makes any calls but the one that drops the socket. *)
Inductive reach (P c base : Z) (n0 : net) : net -> Z -> Prop :=
  | reach_start : reach P c base n0 n0 0
  | reach_consume n F F' : reach P c base n0 n F -> F <= F' <= total_sent P base n -> reach P c base n0 n F'
  | reach_arrive n F p n' :
      reach P c base n0 n F -> step n (EArrive p) n' -> (credit_packet P c p = true -> hfwd_cnt p.1 = wrapu 32 F) ->
      reach P c base n0 n' F
  | reach_call n F cl a n' : reach P c base n0 n F -> step n (ECall cl a) n' -> keeps P cl -> reach P c base n0 n' F.

Definition credit_inv (P base : Z) (r0 : RawSocket) (n : net) (F : Z) : Prop :=
  exists r f, port_map n !! P = Some r /\ live r /\ same_peer r0 r /\
    peer_fwd_cnt r = wrapu 32 f /\ tx_cnt r = wrapu 32 (total_sent P base n) /\
    credits P (remote_cid r0) f (incoming (drv n)) F /\ 0 <= f /\ F <= total_sent P base n /\
    total_sent P base n - f <= peer_buf_alloc r0.

Lemma total_written P base c a (n n' : net) r r' :
  call_effect P c a n n' r r' -> total_sent P base n' = total_sent P base n + Z.of_nat (length (written_of P c a)).
Proof. intros He. unfold total_sent. rewrite (ce_out _ _ _ _ _ _ _ He), length_app. lia. Qed.

Lemma credit_call P base r0 (n n' : net) F c a :
  credit_inv P base r0 n F -> peer_buf_alloc r0 <= 2 ^ 31 -> keeps P c -> exec c n = Done a n' -> credit_inv P base r0 n' F.
Proof.
  intros (r & f & Hr & Hl & Hs & Hf & Ht & Hc & H0 & HF & HA) HA31 Hk E.
  destruct (exec_effect P c a n n' r Hr Hl Hk E) as (r' & He & Hcr). pose proof (total_written P base _ _ _ _ _ _ He) as Htot.
  pose proof (credits_le _ _ _ _ _ Hc) as HfF. destruct He as [He1 He2 He3 _ _].
  assert (Hgen : incoming (drv n') = incoming (drv n) -> sends r r' (written_of P c a) -> credit_inv P base r0 n' F).
  { intros Hi [Hp Hw]. exists r', f. split_and!; try done; try congruence; [by etransitivity| | |].
    - destruct Hw as [[Hw Htx]|[Htx _]]; [rewrite Htx, Htot, Hw; cbn; by rewrite Z.add_0_r|].
      rewrite Htx, Htot, Ht. unfold wrapu. by rewrite Zplus_mod_idemp_l.
    - lia.
    - destruct Hw as [[Hw _]|[_ Hw]]; [rewrite Htot, Hw; cbn; lia|].
      rewrite Ht, Hf, (same_alloc _ _ Hs) in Hw.
      pose proof (abs_diff_covers (total_sent P base n) f (peer_buf_alloc r0) ltac:(lia) HA31). lia. }
  destruct c; try (by apply Hgen; destruct Hcr as [Hi Hw]).
  destruct Hcr as (Hw & l & Hes & Hi). rewrite Hi in Hc. rewrite <- (same_cid _ _ Hs) in Hc.
  destruct (packets_credits P l r r' Hes f _ F Hf Hc) as (f' & Hff & Hf' & Hc').
  exists r', f'. rewrite (same_cid _ _ Hs) in Hc'. pose proof (packets_effect_in _ _ _ _ Hes) as (_ & _ & Htx).
  rewrite Hw in Htot. cbn in Htot. rewrite Z.add_0_r in Htot. rewrite Htot.
  split_and!; try done; [by etransitivity|congruence|lia|lia].
Qed.

Lemma credit_reach_inv P base n0 r0 n F :
  port_map n0 !! P = Some r0 -> live r0 -> tx_cnt r0 = 0 -> peer_fwd_cnt r0 = 0 -> 0 <= peer_buf_alloc r0 <= 2 ^ 31 ->
  total_sent P base n0 = 0 -> credits P (remote_cid r0) 0 (incoming (drv n0)) 0 ->
  reach P (remote_cid r0) base n0 n F -> credit_inv P base r0 n F.
Proof.
  intros Hr Hl Ht Hp HA Hb Hc R. induction R as [|n F F' R IH HF|n F p n' R IH St Hh|n F cl a n' R IH St Hk].
  - exists r0, 0. rewrite Hb. split_and!; try done; lia.
  - destruct IH as (r & f & H1 & H2 & H3 & H4 & H5 & H6 & H7 & H8 & H9). exists r, f. split_and!; try done; [|lia].
    eapply credits_weaken; [|  |exact H6]; lia.
  - inversion St as [? ? d' Hi Hs|]; subst. destruct IH as (r & f & H1 & H2 & H3 & H4 & H5 & H6 & H7 & H8 & H9).
    assert (Htot : total_sent P base (set_drv d' n) = total_sent P base n) by (unfold total_sent; cbn; by rewrite Hs).
    exists r, f. rewrite Htot. split_and!; try done. cbn. rewrite Hi. by apply credits_app.
  - inversion St as [|? ? ? ? E]; subst. by eapply credit_call; [|apply HA| |].
Qed.

(** C17: At any time the bytes sent that the peer has not consumed fit the buffer the
    peer announced, although both counters wrap around at 32 bits, as long as
    that buffer is not larger than half their range. *)
Theorem vsock_credit_respected P base n0 r0 n F :
  port_map n0 !! P = Some r0 -> live r0 -> tx_cnt r0 = 0 -> peer_fwd_cnt r0 = 0 -> 0 <= peer_buf_alloc r0 <= 2 ^ 31 ->
  total_sent P base n0 = 0 -> credits P (remote_cid r0) 0 (incoming (drv n0)) 0 ->
  reach P (remote_cid r0) base n0 n F ->
  0 <= total_sent P base n - F <= peer_buf_alloc r0.
Proof.
  intros Hr Hl Ht Hp HA Hb Hc R.
  destruct (credit_reach_inv P base n0 r0 n F Hr Hl Ht Hp HA Hb Hc R) as (r & f & _ & _ & _ & _ & _ & H6 & H7 & H8 & H9).
  apply credits_le in H6. lia.
Qed.

(** The counters wrap at different times: in between a writer is refused although
    the peer has room. *)
Lemma write_stalls_after_wrap s buf w (n : net) r t f :
  port_map n !! port s = Some r -> state r = Connected -> is_nonblocking s = true ->
  tx_cnt r = wrapu 32 t -> peer_fwd_cnt r = wrapu 32 f ->
  0 <= t - f < peer_buf_alloc r -> peer_buf_alloc r <= 2 ^ 31 -> f / 2 ^ 32 < t / 2 ^ 32 ->
  write s buf w n = Done (Ready (Err Errno.Again)) n.
Proof.
  intros Hr Hst Hnb Ht Hf H HA Hw. unfold write, with_raw. erewrite bind_run by reflexivity. rewrite Hr, Hst, Hnb, Ht, Hf.
  rewrite (proj2 (Z.leb_le _ _)); [done|]. unfold abs_diff, wrapu. change (2 ^ 31) with 2147483648 in HA. change (2 ^ 32) with 4294967296 in *.
  pose proof (Z.mod_pos_bound t 4294967296 ltac:(lia)). pose proof (Z.mod_pos_bound f 4294967296 ltac:(lia)).
  pose proof (Z.div_mod t 4294967296 ltac:(lia)). pose proof (Z.div_mod f 4294967296 ltac:(lia)).
  assert (t / 4294967296 = f / 4294967296 + 1) as Hq by nia. rewrite Hq in *. lia.
Qed.

(** ** Every call returns *)

Definition packet_ok (p : packet) : Prop :=
  is_Some (op p.1) /\ is_Some (type_ p.1) /\ src_cid p.1 <= u32_max /\ Z.of_nat (length p.2) <= u32_max.

Lemma on_packet_total o ty c h data r : Z.of_nat (length data) <= u32_max -> is_Some (on_packet o ty c h data r).
Proof.
  intros Hd. unfold on_packet. rewrite (proj2 (Z.leb_le _ _) Hd), !wake_tx_eq, !wake_rx_eq.
  repeat case_match; by eexists.
Qed.

Lemma handle_total p acc (n : net) : packet_ok p -> exists acc' n', handle p acc n = Done acc' n' /\ drv n' = drv n.
Proof.
  destruct p as [h data]. intros ([o Ho] & [ty Ht] & Hc & Hd). cbn in *. unfold handle. rewrite Ho, Ht.
  erewrite bind_run by reflexivity. erewrite bind_run by reflexivity. rewrite (proj2 (Z.leb_le _ _) Hc).
  erewrite bind_run by reflexivity. erewrite bind_run by reflexivity.
  destruct (port_map n !! dst_port h) as [raw|]; [|by eexists _, _].
  destruct (on_packet_total o ty (src_cid h) h data raw Hd) as [[[raw' w] b] ->]. by eexists _, _.
Qed.

Lemma process_total l : forall fuel acc (n : net), incoming (drv n) = l -> Forall packet_ok l ->
  exists acc' n', process_packet fuel acc n = Done acc' n' /\ get_cid (drv n') = get_cid (drv n).
Proof.
  induction l as [|p l IH]; intros [|fuel] acc n Hi Hok; cbn [process_packet]; try by eexists _, _.
  - unfold on_drv. erewrite bind_run by (apply zoom_run; by apply next_none). by eexists _, _.
  - apply Forall_cons_1 in Hok as [Hp Hok]. destruct (next_some _ _ _ Hi) as (d' & E & H1 & _ & H3).
    unfold on_drv at 1. erewrite bind_run by (apply zoom_run; exact E).
    destruct (handle_total p acc (set_drv d' n) Hp) as (acc1 & n1 & E1 & Hd). rewrite (bind_run _ _ _ _ _ E1).
    destruct (IH fuel acc1 n1) as (acc2 & n2 & E2 & H4); [by rewrite Hd|done|]. exists acc2, n2. split; [done|].
    by rewrite H4, Hd.
Qed.

(** No call panics as long as the device sends well-formed packets, the context
    of the machine is a 32-bit number and writes are shorter than a packet. *)
Lemma calls_return c (n : net) :
  Forall packet_ok (incoming (drv n)) ->
  match c with CWrite _ buf _ => Z.of_nat (length buf) < 8192 | _ => True end ->
  exists a n', exec c n = Done a n'.
Proof.
  intros Hok Hw.
  assert (Hsend : forall A len p (k : unit -> M net A) (m : net), len < PACKET_LENGTH ->
    (forall d, exists a n', k tt (set_drv d m) = Done a n') -> exists a n', bind (on_drv (drv_send len p)) k m = Done a n').
  { intros A len p k m Hl Hk. destruct (on_drv_send m len p Hl) as (d' & E & _). rewrite (bind_run _ _ _ _ _ E). apply Hk. }
  assert (Hraw : forall A s (f : RawSocket -> M net (Poll (io_result A))) (g : Poll (io_result A) -> answer),
    (forall raw, exists a n', f raw n = Done a n') -> exists a n', (let! x := with_raw s f in ret (g x)) n = Done a n').
  { intros A s f g Hf. unfold with_raw, bind at 1, get, bind at 1. destruct (port_map n !! port s) as [raw|]; [|by eexists _, _].
    destruct (Hf raw) as (a & n' & ->). by eexists _, _. }
  destruct c; cbn [exec].
  - destruct (process_total _ (S (drv_pending (drv n))) None n eq_refl Hok) as (acc & n1 & E & _).
    unfold vsock_round. unfold bind at 1 2, get. rewrite (bind_run _ _ _ _ _ E). destruct acc as [[h fwd]|]; [|by eexists _, _].
    destruct (on_drv_send n1 HEADER_SIZE (reply h fwd, [])) as (d' & -> & _); [done|by eexists _, _].
  - apply Hraw. intros raw. unfold take_bytes. repeat case_match; by eexists _, _.
  - apply Hraw. intros raw. cbv zeta. destruct (state raw); try by eexists _, _.
    destruct (_ <=? _); [case_match; by eexists _, _|]. erewrite bind_run by reflexivity. apply Hsend; [unfold PACKET_LENGTH, HEADER_SIZE; lia|].
    intros d. by eexists _, _.
  - apply (Hraw _ _ _ (fun _ => AOther)). intros raw. cbv zeta. repeat case_match; by eexists _, _.
  - unfold bind_socket, map_bind, bind, get. destruct (port_map n !! ep_port); by eexists _, _.
  - unfold connect_port, map_connect, bind, get. destruct (free_port _ _ _); by eexists _, _.
  - unfold connect_request. destruct locked; [by eexists _, _|]. unfold bind at 1 2, get.
    destruct (on_drv_send n HEADER_SIZE (mkHdr (get_cid (drv n)) ep_cid local_port ep_port 0 (Some Stream) (Some Request) 0 RAW_SOCKET_BUFFER_SIZE 0, []))
      as (d' & E & _); [done|]. rewrite (bind_run _ _ _ _ _ E). by eexists _, _.
  - apply (Hraw _ _ _ (fun _ => AOther)). intros raw. repeat case_match; by eexists _, _.
  - apply (Hraw _ _ _ (fun _ => AOther)). intros raw. destruct (state raw); try by eexists _, _.
    + case_match; by eexists _, _.
    + erewrite bind_run by reflexivity. apply Hsend; [done|]. intros d. by eexists _, _.
  - by eexists _, _.
Qed.

(** ** Credit for data that nobody has read *)

(** A data packet arrives and the background task runs. *)
Definition flood (h : Hdr) (datas : list (list Z)) : list event :=
  flat_map (fun d => [EArrive (h, d); ECall CRound AOther]) datas.
Fixpoint acks (h : Hdr) (c : Z) (datas : list (list Z)) : list packet :=
  match datas with
  | [] => []
  | d :: datas => let c := wrapu 32 (c + Z.of_nat (length d)) in (reply h c, []) :: acks h c datas
  end.

Definition data_for (P : Z) (r : RawSocket) (h : Hdr) : Prop :=
  dst_port h = P /\ src_cid h = remote_cid r /\ op h = Some Rw /\ type_ h = Some Stream /\ src_cid h <= u32_max.

Lemma round_one P (n : net) r h d :
  port_map n !! P = Some r -> live r -> data_for P r h -> incoming (drv n) = [(h, d)] -> Z.of_nat (length d) <= u32_max ->
  exists n' r', vsock_round n = Done tt n' /\ port_map n' !! P = Some r' /\ live r' /\ incoming (drv n') = [] /\
    remote_cid r' = remote_cid r /\ buffer r' = buffer r ++ d /\
    fwd_cnt r' = wrapu 32 (fwd_cnt r + Z.of_nat (length d)) /\ sent (drv n') = sent (drv n) ++ [(reply h (fwd_cnt r'), [])].
Proof.
  intros Hr Hl (Hp & Hc & Ho & Ht & Hcid) Hi Hd. destruct (next_some _ _ _ Hi) as (d1 & E1 & H1 & H2 & _).
  assert (Hlive : bool_decide (state r = Connected) || bool_decide (state r = Shutdown) = true).
  { destruct Hl as [->| ->]; [done|by rewrite orb_true_r]. }
  assert (Hs : bool_decide (Rw = Request) && bool_decide (state r = Listen) && bool_decide (Stream = Stream) = false) by done.
  set (r' := set_rx_waker None (set_tx_waker None (set_peer_fwd_cnt (hfwd_cnt h)
    (set_fwd_cnt (wrapu 32 (fwd_cnt r + Z.of_nat (length d))) (set_buffer (buffer r ++ d) r))))).
  assert (Hop : exists w, on_packet Rw Stream (src_cid h) h d r = Some (r', w, true)).
  { unfold on_packet. rewrite Hs, Hlive, Hc, Z.eqb_refl, (proj2 (Z.leb_le _ _) Hd), !wake_tx_eq, !wake_rx_eq. by eexists. }
  destruct Hop as [w Hop].
  assert (Eh : handle (h, d) None (set_drv d1 n) = Done (Some (h, fwd_cnt r')) (call_wakers w (put_raw P r' (set_drv d1 n)))).
  { unfold handle. rewrite Ho, Ht. erewrite bind_run by reflexivity. erewrite bind_run by reflexivity.
    rewrite (proj2 (Z.leb_le _ _) Hcid). erewrite bind_run by reflexivity. erewrite bind_run by reflexivity.
    cbn [set_drv port_map]. rewrite Hp, Hr, Hop. reflexivity. }
  assert (Eround : process_packet 2 None n = Done (Some (h, fwd_cnt r')) (call_wakers w (put_raw P r' (set_drv d1 n)))).
  { cbn [process_packet]. unfold on_drv at 1. erewrite bind_run by (apply zoom_run; exact E1). cbv iota beta. rewrite (bind_run _ _ _ _ _ Eh).
    unfold on_drv. erewrite bind_run by (apply zoom_run; apply next_none; exact H1). reflexivity. }
  destruct (on_drv_send (call_wakers w (put_raw P r' (set_drv d1 n))) HEADER_SIZE (reply h (fwd_cnt r'), []))
    as (d2 & E2 & H3 & H4 & _); [done|].
  eexists _, r'. split_and!.
  - unfold vsock_round. erewrite bind_run by reflexivity. rewrite (pending_law (drv n)), Hi. cbn [length].
    rewrite (bind_run _ _ _ _ _ Eround). exact E2.
  - cbn. by rewrite lookup_insert_eq.
  - exact Hl.
  - cbn. by rewrite H4.
  - done.
  - done.
  - done.
  - cbn. by rewrite H3, <- H2.
Qed.

(** Data of another port of the context is given to the reader. *)
Lemma other_port_accepted P (n : net) r h d :
  port_map n !! P = Some r -> live r -> data_for P r h -> src_port h <> remote_port r ->
  incoming (drv n) = [(h, d)] -> Z.of_nat (length d) <= u32_max ->
  exists n' r', vsock_round n = Done tt n' /\ port_map n' !! P = Some r' /\ buffer r' = buffer r ++ d.
Proof.
  intros Hr Hl Hh _ Hi Hd. destruct (round_one P n r h d Hr Hl Hh Hi Hd) as (n' & r' & E & Hr' & _ & _ & _ & Hb & _).
  by exists n', r'.
Qed.

(** The receiver reports data as forwarded when it arrives, not when it is read:
    a peer that waits for credit after every packet is given it at once, so the
    buffer holds all it ever sends, whatever the announced size. *)
Theorem vsock_receive_unbounded P n r h datas :
  port_map n !! P = Some r -> live r -> data_for P r h -> incoming (drv n) = [] ->
  Forall (fun d => Z.of_nat (length d) <= RAW_SOCKET_BUFFER_SIZE) datas ->
  exists n' r', run n (flood h datas) n' /\ port_map n' !! P = Some r' /\
    buffer r' = buffer r ++ concat datas /\ sent (drv n') = sent (drv n) ++ acks h (fwd_cnt r) datas.
Proof.
  intros Hr Hl Hh Hi Hd. revert n r Hr Hl Hh Hi. induction Hd as [|d datas Hd _ IH]; intros n r Hr Hl Hh Hi.
  { exists n, r. rewrite !app_nil_r. split_and!; try done. constructor. }
  destruct (arrive_law (drv n) (h, d)) as (d1 & A1 & A2 & _). rewrite Hi in A1.
  destruct (round_one P (set_drv d1 n) r h d Hr Hl Hh A1 ltac:(unfold RAW_SOCKET_BUFFER_SIZE, u32_max in *; lia))
    as (n1 & r1 & E1 & Hr1 & Hl1 & Hi1 & Hc1 & Hb1 & Hf1 & Hs1).
  destruct (IH n1 r1 Hr1 Hl1) as (n2 & r2 & R & Hr2 & Hb2 & Hs2); [destruct Hh; unfold data_for; by rewrite Hc1|done|].
  exists n2, r2. split_and!; try done.
  - change (flood h (d :: datas)) with (EArrive (h, d) :: ECall CRound AOther :: flood h datas).
    apply run_cons with (set_drv d1 n); [apply step_arrive; [by rewrite Hi, A1|done]|]. econstructor; [|exact R]. apply step_call. cbn [exec].
    by rewrite (bind_run _ _ _ _ _ E1).
  - by rewrite Hb2, Hb1, <- app_assoc.
  - rewrite Hs2, Hs1, Hf1. cbn [drv set_drv acks]. by rewrite A2, <- app_assoc.
Qed.

(** ** What else goes wrong *)

(** A write that the credit allows and that does not fit one packet panics. *)
Theorem vsock_large_write_panics s buf w (n : net) r :
  port_map n !! port s = Some r -> state r = Connected ->
  8192 <= Z.of_nat (length buf) -> 8192 <= peer_buf_alloc r - abs_diff (tx_cnt r) (peer_fwd_cnt r) ->
  exists why, write s buf w n = Panic why.
Proof.
  intros Hr Hst Hb Hc. unfold write, with_raw. erewrite bind_run by reflexivity. rewrite Hr, Hst.
  rewrite (proj2 (Z.leb_gt _ _)) by lia. erewrite bind_run by reflexivity. set (k := Z.min _ _).
  set (p := (mkHdr _ _ _ _ _ _ _ _ _ _, _)).
  destruct (send_big (drv n) (HEADER_SIZE + k) p) as [why E]; [unfold PACKET_LENGTH, k; lia|]. exists why.
  unfold bind at 1, on_drv, zoom. by rewrite E.
Qed.

(** A response does not wake the task that waits in [connect], and a shutdown
    does not wake the one that waits in [read]: after the packet the call would
    return, but the waker it left has not been called. *)
Theorem vsock_lost_wakeups s w (n : net) r h acc :
  port_map n !! port s = Some r -> rx_waker r = None -> tx_waker r = None -> is_nonblocking s = false ->
  dst_port h = port s -> src_cid h = remote_cid r -> src_cid h <= u32_max -> type_ h = Some Stream ->
  (state r = Connecting -> op h = Some Response ->
     exists n1 n2, connect_wait s w n = Done Pending n1 /\ handle (h, []) acc n1 = Done acc n2 /\
       woken n2 = woken n /\ connect_wait s w n2 = Done (Ready (Ok tt)) n2) /\
  (state r = Connected -> buffer r = [] -> op h = Some OpShutdown ->
     exists n1 n2, read s 1 w n = Done Pending n1 /\ handle (h, []) acc n1 = Done acc n2 /\
       woken n2 = woken n /\ read s 1 w n2 = Done (Ready (Ok [])) n2).
Proof.
  intros Hr Hrx Htx Hnb Hp Hc Hcid Ht.
  assert (Hh : forall r1 r2 o (n1 : net), port_map n1 !! port s = Some r1 -> op h = Some o ->
    on_packet o Stream (src_cid h) h [] r1 = Some (r2, [], false) ->
    handle (h, []) acc n1 = Done acc (call_wakers [] (put_raw (port s) r2 n1))).
  { intros r1 r2 o n1 H1 Ho Hop. unfold handle. rewrite Ho, Ht. erewrite bind_run by reflexivity. erewrite bind_run by reflexivity.
    rewrite (proj2 (Z.leb_le _ _) Hcid). erewrite bind_run by reflexivity. erewrite bind_run by reflexivity.
    rewrite Hp, H1, Hop. reflexivity. }
  split; [intros Hst Ho|intros Hst Hb Ho].
  - eexists _, _. split_and!.
    + unfold connect_wait, with_raw. erewrite bind_run by reflexivity. rewrite Hr, Hst. reflexivity.
    + eapply Hh; [cbn; apply lookup_insert_eq|exact Ho|]. unfold on_packet. cbn. rewrite Hst, Hc, Z.eqb_refl.
      unfold wake_tx. cbn. rewrite Htx. reflexivity.
    + cbn. by rewrite app_nil_r.
    + unfold connect_wait, with_raw. erewrite bind_run by reflexivity. cbn. rewrite lookup_insert_eq. done.
  - eexists _, _. split_and!.
    + unfold read, with_raw. erewrite bind_run by reflexivity. rewrite Hr, Hst, Hb, Hnb. reflexivity.
    + eapply Hh; [cbn; apply lookup_insert_eq|exact Ho|]. unfold on_packet. cbn. rewrite Hst, Hc, Z.eqb_refl. cbn. reflexivity.
    + cbn. by rewrite app_nil_r.
    + unfold read, with_raw. erewrite bind_run by reflexivity. cbn. rewrite lookup_insert_eq. cbn. by rewrite Hb.
Qed.

(** A bind that fails because the port is taken leaves the socket with that port;
    dropping the socket removes the connection of the one that has it. *)
Theorem vsock_failed_bind_steals s p c (n : net) r :
  port_map n !! p = Some r ->
  exists s' n', bind_socket s p c n = Done (s', Err Errno.Addrinuse) n /\
    drop_socket s' n = Done tt n' /\ port_map n' !! p = None.
Proof.
  intros Hr. eexists _, _. split; [|split].
  - unfold bind_socket, map_bind. erewrite bind_run; [reflexivity|]. erewrite bind_run by reflexivity. by rewrite Hr.
  - reflexivity.
  - cbn. by rewrite lookup_delete_eq.
Qed.
End Calls.

(** ** A driver whose device takes every packet *)

Record queues : Type := mkQueues { q_cid : Z; q_in : list packet; q_out : list packet }.

#[export] Instance queues_driver : VsockDriver queues := {
  get_cid := q_cid;
  drv_send len p := do! assert_ (len <? PACKET_LENGTH) "assertion failed" in
    modify (fun q => mkQueues (q_cid q) (q_in q) (q_out q ++ [p]));
  drv_next := fun q =>
    match q_in q with [] => Done None q | p :: l => Done (Some p) (mkQueues (q_cid q) l (q_out q)) end;
  drv_pending q := length (q_in q);
}.

#[export] Instance queues_laws : VsockDriverLaws queues q_in q_out.
Proof.
  split.
  - intros d len p Hl. exists (mkQueues (q_cid d) (q_in d) (q_out d ++ [p])). split; [|done].
    cbn. by rewrite (proj2 (Z.ltb_lt _ _) Hl).
  - intros d len p Hl. eexists. cbn. by rewrite (proj2 (Z.ltb_ge _ _) Hl).
  - intros d H. cbn. by rewrite H.
  - intros d p l H. eexists. cbn. by rewrite H.
  - done.
  - intros d p. by exists (mkQueues (q_cid d) (q_in d ++ [p]) (q_out d)).
Qed.

(** A connection of port 1024 with port 5 of the host, and data from it. *)
Definition demo_raw (st : VsockState) : RawSocket := mkRaw 2 5 0 0 65536 0 st None None [].
Definition demo_net (st : VsockState) : net queues := mkNet {[ 1024 := demo_raw st ]} (mkQueues 3 [] []) [].
Definition demo_socket : Socket := mkSocket 1024 2 false.
Definition demo_hdr (o : Op) (fwd : Z) : Hdr := mkHdr 2 3 5 1024 0 (Some Stream) (Some o) 0 65536 fwd.

Lemma demo_live : live (demo_raw Connected).
Proof. by left. Qed.

Lemma vsock_stream_witness :
  exists n', run q_in q_out (demo_net Connected)
    [EArrive (demo_hdr Rw 0, [1; 2; 3]); ECall CRound AOther; ECall (CRead demo_socket 2 7) (ARead [1; 2]);
     ECall (CWrite demo_socket [8; 9] 7) (AWritten 2)] n' /\
    exists r', port_map n' !! 1024 = Some r' /\ [1; 2] ++ buffer r' ++ coming_from 1024 2 5 (q_in (drv n')) = [1; 2; 3] /\
      sent_from 1024 (q_out (drv n')) = [8; 9].
Proof.
  assert (exists n', run q_in q_out (demo_net Connected)
    [EArrive (demo_hdr Rw 0, [1; 2; 3]); ECall CRound AOther; ECall (CRead demo_socket 2 7) (ARead [1; 2]);
     ECall (CWrite demo_socket [8; 9] 7) (AWritten 2)] n') as [n' R].
  { eexists. eapply run_cons; [apply (step_arrive _ _ _ _ (mkQueues 3 [(demo_hdr Rw 0, [1; 2; 3])] [])); reflexivity|].
    eapply run_cons; [apply step_call; vm_compute; reflexivity|]. eapply run_cons; [apply step_call; vm_compute; reflexivity|].
    eapply run_cons; [apply step_call; vm_compute; reflexivity|]. apply run_nil. }
  exists n'. split; [exact R|].
  destruct (vsock_stream q_in q_out 1024 (demo_net Connected) _ n' (demo_raw Connected) R) as (r' & H1 & _ & H2 & H3).
  - reflexivity.
  - exact demo_live.
  - repeat constructor.
  - constructor.
  - repeat constructor. intros H. by destruct H.
  - exists r'. split; [exact H1|]. split; [exact H2|exact H3].
Defined.

Lemma vsock_credit_respected_witness :
  exists n', reach q_in q_out 1024 2 0 (demo_net Connected) n' 1 /\ 0 <= total_sent q_out 1024 0 n' - 1 <= 65536.
Proof.
  assert (exists n', reach q_in q_out 1024 2 0 (demo_net Connected) n' 1) as [n' R].
  { eexists. eapply reach_consume; [eapply reach_call; [apply reach_start|
      apply (step_call _ _ _ (CWrite demo_socket [8; 9] 7) (AWritten 2)); vm_compute; reflexivity|exact I]|].
    vm_compute. split; discriminate. }
  exists n'. split; [exact R|].
  apply (vsock_credit_respected q_in q_out 1024 0 (demo_net Connected) (demo_raw Connected) n' 1).
  - reflexivity.
  - exact demo_live.
  - reflexivity.
  - reflexivity.
  - vm_compute. split; discriminate.
  - reflexivity.
  - vm_compute. discriminate.
  - exact R.
Defined.

Lemma vsock_receive_unbounded_witness :
  exists n' r', run q_in q_out (demo_net Connected) (flood (demo_hdr Rw 0) [[1; 2]; [3]]) n' /\
    port_map n' !! 1024 = Some r' /\ buffer r' = [1; 2; 3].
Proof.
  destruct (vsock_receive_unbounded q_in q_out 1024 (demo_net Connected) (demo_raw Connected) (demo_hdr Rw 0) [[1; 2]; [3]])
    as (n' & r' & R & Hr & Hb & _).
  - reflexivity.
  - exact demo_live.
  - repeat split. vm_compute. discriminate.
  - reflexivity.
  - repeat constructor; vm_compute; discriminate.
  - exists n', r'. split; [exact R|]. split; [exact Hr|exact Hb].
Defined.

Lemma vsock_large_write_panics_witness :
  exists why, write demo_socket (replicate (Z.to_nat 8192) 0) 7 (demo_net Connected) = Panic why.
Proof.
  apply (vsock_large_write_panics q_in q_out demo_socket (replicate (Z.to_nat 8192) 0) 7 (demo_net Connected) (demo_raw Connected)).
  - reflexivity.
  - reflexivity.
  - vm_compute. discriminate.
  - vm_compute. discriminate.
Defined.

Lemma vsock_lost_wakeups_witness :
  exists n1 n2, connect_wait demo_socket 7 (demo_net Connecting) = Done Pending n1 /\
    handle (demo_hdr Response 0, []) None n1 = Done None n2 /\ woken n2 = [] /\
    connect_wait demo_socket 7 n2 = Done (Ready (Ok tt)) n2.
Proof.
  destruct (vsock_lost_wakeups demo_socket 7 (demo_net Connecting) (demo_raw Connecting) (demo_hdr Response 0) None) as [H _].
  - reflexivity.
  - reflexivity.
  - reflexivity.
  - reflexivity.
  - reflexivity.
  - reflexivity.
  - vm_compute. discriminate.
  - reflexivity.
  - apply H; reflexivity.
Defined.

Lemma vsock_failed_bind_steals_witness :
  exists s' n', bind_socket Socket_new 1024 None (demo_net Listen) = Done (s', Err Errno.Addrinuse) (demo_net Listen) /\
    drop_socket s' (demo_net Listen) = Done tt n' /\ port_map n' !! 1024 = None.
Proof. apply (vsock_failed_bind_steals Socket_new 1024 None (demo_net Listen) (demo_raw Listen)). reflexivity. Defined.
End VsockProps.
