(* ===== verification/VsockQueues.v ===== *)
(** The queues of the socket driver, [src/src/drivers/vsock/mod.rs], over any
    virtqueue: receive buffers are given to the device in pairs of a header and
    a vector and given again after each packet; a packet is sent by handing one
    vector to the device.  The address of the k-th allocation of the device
    allocator is [alloc_at k]. *)

From S2P Require Import Prelude Errors Virtq VqSpec IndexAlloc SplitVq SplitProps.

Module VsockQueues.
Import Virtq VqSpec.

Definition VSOCK_PACKET_SIZE : Z := 8192.
Definition HDR_SIZE : Z := 44.

Section Queues.
Context {S : Type} `{VirtQueue S}.
Variable alloc_at : Z -> Z.

(** A queue and how many allocations were made. *)
Record queue : Type := mkQueue { vq : option S; allocated : Z }.
Definition set_vq (x : option S) (q : queue) : queue := mkQueue x (allocated q).
Definition alloc : M queue Z := fun q => Done (alloc_at (allocated q)) (mkQueue (vq q) (allocated q + 1)).
(** [self.vq.as_mut().unwrap()] *)
Definition on_vq {A} (m : M S A) : M queue A :=
  let! q := get in
  let! s := unwrap (vq q) "called `Option::unwrap()` on a `None` value" in
  zoom (fun _ => s) (fun s q => set_vq (Some s) q) m.

(** ** Receiving *)

Definition recv_token (hdr vec packet_size : Z) : AvailBufferToken :=
  mkToken [] [Sized hdr HDR_SIZE; Vector vec 0 packet_size].

Fixpoint fill_queue (num_packets : nat) (packet_size : Z) : M queue unit :=
  match num_packets with
  | O => ret tt
  | Datatypes.S num_packets =>
      let! hdr := alloc in
      let! vec := alloc in
      match AvailBufferToken_new [] [Sized hdr HDR_SIZE; Vector vec 0 packet_size] with
      | Err _ => panic "setup of network queue failed!"
      | Ok tkn =>
          let! r := on_vq (dispatch tkn false Direct 0) in
          match r with
          | Err _ => ret tt
          | Ok _ => fill_queue num_packets packet_size
          end
      end
  end.

(** [RxQueue::add] and [EventQueue::add]: two descriptors for each packet. *)
Definition queue_add (s : S) (size packet_size : Z) : M queue unit :=
  do! modify (set_vq (Some s)) in
  fill_queue (Z.to_nat (size / 2)) packet_size.

Definition queue_enable_notifs : M queue unit :=
  let! q := get in match vq q with None => ret tt | Some _ => on_vq enable_notifs end.
Definition queue_disable_notifs : M queue unit :=
  let! q := get in match vq q with None => ret tt | Some _ => on_vq disable_notifs end.

Definition get_next : M queue (option UsedBufferToken) :=
  let! r := on_vq try_recv in ret (match r with Ok t => Some t | Err _ => None end).

(** The header and the vector of a received buffer. *)
Definition take_packet (t : UsedBufferToken) : M queue (Z * BufferElem) :=
  let! '(h, b) := pop_front_downcast HDR_SIZE (used_recv_buff t) in
  let! header := unwrap h "called `Option::unwrap()` on a `None` value" in
  let! '(v, _) := pop_front_vec b in
  let! packet := unwrap v "called `Option::unwrap()` on a `None` value" in
  ret (header, packet).

(** [RxQueue::process_packet], for as many turns as [sched] has entries, with
    what the device does before each; the packets handed to the closure. *)
Fixpoint process_packet (sched : list (list act)) (packet_size : Z) : M queue (list (Z * BufferElem)) :=
  match sched with
  | [] => ret []
  | acts :: sched =>
      do! on_vq (device_acts acts) in
      let! o := get_next in
      match o with
      | None => ret []
      | Some t =>
          let! p := take_packet t in
          do! fill_queue 1 packet_size in
          let! l := process_packet sched packet_size in
          ret (p :: l)
      end
  end.

(** ** Sending *)

(** [TxQueue::poll] *)
Fixpoint tx_poll (fuel : nat) : M queue unit :=
  match fuel with
  | O => ret tt
  | Datatypes.S fuel =>
      let! r := on_vq try_recv in
      match r with Ok _ => tx_poll fuel | Err _ => ret tt end
  end.

Definition send_packet (fuel : nat) (len : Z) : M queue unit :=
  let! q := get in
  do! (match vq q with None => ret tt | Some _ => tx_poll fuel end) in
  let! q := get in
  let! s := unwrap (vq q) "Unable to get send queue" in
  do! assert_ (len <? VSOCK_PACKET_SIZE + HDR_SIZE) "assertion failed" in
  let! packet := alloc in
  match AvailBufferToken_new [Vector packet len len] [] with
  | Err _ => panic "called `Result::unwrap()` on an `Err` value"
  | Ok tkn =>
      let! r := on_vq (dispatch tkn false Direct 0) in
      match r with
      | Err _ => panic "called `Result::unwrap()` on an `Err` value"
      | Ok _ => ret tt
      end
  end.

(** ** The receive queue never starves *)

Context {repr : S -> VqSpec.vq -> Prop} {L : VirtQueueLaws S repr}.
Hypothesis transfer_direct : forall t table, transfer t Direct table = mkTransfer t None.

Definition recv_shape (packet_size : Z) (tk : TransferToken) : Prop :=
  exists hdr vec, tk = mkTransfer (recv_token hdr vec packet_size) None.

(** [k] receive buffers are with the device or on the way back. *)
Record stocked (packet_size : Z) (k f : nat) (v : VqSpec.vq) : Prop := {
  st_size : base.size (inflight v) = k;
  st_shape id tk : inflight v !! id = Some tk -> recv_shape packet_size tk;
  st_free : free v = f;
  st_used : Forall (fun p => HDR_SIZE <= p.2) (used v);
}.

Lemma recv_ndesc packet_size tk : recv_shape packet_size tk -> ndesc tk = 2%nat.
Proof. by intros (hdr & vec & ->). Qed.
Lemma recv_token_ok hdr vec packet_size : packet_size <= u32_max -> token_ok (recv_token hdr vec packet_size).
Proof. intros Hp. split; cbn; repeat constructor; cbn; try done; lia. Qed.

Lemma on_vq_run {A} (m : M S A) (q : queue) s a s' :
  vq q = Some s -> m s = Done a s' -> on_vq m q = Done a (set_vq (Some s') q).
Proof. intros Hq E. unfold on_vq, bind, get, unwrap. rewrite Hq. cbn. unfold zoom. by rewrite E. Qed.

(** A queue in a state that represents a stocked one. *)
Definition stock (packet_size : Z) (k f : nat) (q : queue) : Prop :=
  exists s v, vq q = Some s /\ repr s v /\ stocked packet_size k f v.

Lemma fill_one packet_size k f q : packet_size <= u32_max -> (2 <= f)%nat -> stock packet_size k f q ->
  forall n, exists q', fill_queue (Datatypes.S n) packet_size q = fill_queue n packet_size q' /\
    stock packet_size (Datatypes.S k) (f - 2) q'.
Proof.
  intros Hp Hf (s & v & Hq & R & [H1 H2 H3 H4]) n. cbn [fill_queue].
  set (h := alloc_at (allocated q)). set (c := alloc_at (allocated q + 1)).
  set (q1 := mkQueue (vq q) (allocated q + 1 + 1)).
  destruct (dispatch_law s v (recv_token h c packet_size) Direct 0 R (recv_token_ok _ _ _ Hp)) as (r & s' & v' & E & St & R').
  rewrite transfer_direct in St. inversion St as [? ? id Hn Hid|? ? ? Hn ?| | | | | |]; subst; cbn in Hn; [|lia].
  exists (set_vq (Some s') q1). split.
  - unfold bind at 1, alloc at 1. unfold bind at 1, alloc at 1. cbn [AvailBufferToken_new].
    change (mkToken [] _) with (recv_token h c packet_size).
    erewrite bind_run; [|eapply on_vq_run; [exact Hq|exact E]]. reflexivity.
  - eexists _, _. split; [done|]. split; [exact R'|]. split; cbn.
    + rewrite map_size_insert_None by done. done.
    + intros i tk. destruct (decide (i = id)) as [->|Hne].
      * rewrite lookup_insert_eq. intros [= <-]. by exists h, c.
      * rewrite lookup_insert_ne by done. apply H2.
    + done.
    + done.
Qed.

(** Filling stops at the number asked for. *)
Lemma fill_stocks packet_size n : forall k f q, packet_size <= u32_max -> (2 * n <= f)%nat -> stock packet_size k f q ->
  exists q', fill_queue n packet_size q = Done tt q' /\ stock packet_size (n + k) (f - 2 * n) q'.
Proof.
  induction n as [|n IH]; intros k f q Hp Hf Hs.
  - exists q. rewrite Nat.sub_0_r. by split.
  - destruct (fill_one packet_size k f q Hp ltac:(lia) Hs n) as (q1 & E & Hs1).
    destruct (IH (Datatypes.S k) (f - 2)%nat q1 Hp ltac:(lia) Hs1) as (q2 & E2 & Hs2). exists q2. rewrite E, E2. split; [done|].
    replace (Datatypes.S n + k)%nat with (n + Datatypes.S k)%nat by lia. by replace (f - 2 * Datatypes.S n)%nat with (f - 2 - 2 * n)%nat by lia.
Qed.

(** What the device does: it reports at least a header. *)
Definition long_enough (a : act) : Prop := match a with AUse _ len | AServe len => HDR_SIZE <= len | AFetch => True end.

Lemma fetch_stocked packet_size k f v r v' : stocked packet_size k f v -> step v (Fetched r) v' -> stocked packet_size k f v'.
Proof. intros [H1 H2 H3 H4] St. inversion St; subst; by split. Qed.
Lemma use_stocked packet_size k f v id len (b : bool) v' :
  stocked packet_size k f v -> HDR_SIZE <= len -> step v (if b then Used id len else NotHeld id) v' -> stocked packet_size k f v'.
Proof.
  intros [H1 H2 H3 H4] Hl St. destruct b; inversion St; subst; split; try done. cbn. apply list.Forall_app. split; [done|].
  by repeat constructor.
Qed.

Lemma act_stocked packet_size k f a s v : repr s v -> stocked packet_size k f v -> act_ok a -> long_enough a ->
  exists s' v', device_act a s = Done tt s' /\ repr s' v' /\ stocked packet_size k f v'.
Proof.
  intros R Hs Ha Hl.
  assert (Huse : forall id len s0 v0, repr s0 v0 -> stocked packet_size k f v0 -> in_u 32 len -> HDR_SIZE <= len ->
    exists b s' v', device_use id len s0 = Done b s' /\ repr s' v' /\ stocked packet_size k f v').
  { intros id len s0 v0 R0 S0 H32 Hlen. destruct (device_use_law s0 v0 id len R0 H32) as (b & s1 & v1 & E & St & R1).
    exists b, s1, v1. split; [done|]. split; [done|]. by eapply use_stocked. }
  destruct a as [|id len|len]; cbn [device_act].
  - destruct (device_fetch_law s v R) as (r & s1 & v1 & E & St & R1). rewrite (bind_run _ _ _ _ _ E). exists s1, v1.
    split; [done|]. split; [done|]. by eapply fetch_stocked.
  - destruct (Huse id len s v R Hs Ha Hl) as (b & s1 & v1 & E & R1 & S1). rewrite (bind_run _ _ _ _ _ E). by exists s1, v1.
  - unfold device_serve. destruct (device_fetch_law s v R) as (r & s1 & v1 & E & St & R1). rewrite (bind_run _ _ _ _ _ E).
    pose proof (fetch_stocked _ _ _ _ _ _ Hs St) as S1. destruct r as [[id ?]|]; [|by exists s1, v1].
    destruct (Huse id len s1 v1 R1 S1 Ha Hl) as (b & s2 & v2 & E2 & R2 & S2). rewrite (bind_run _ _ _ _ _ E2). by exists s2, v2.
Qed.

Lemma acts_stocked packet_size k f acts : forall s v, repr s v -> stocked packet_size k f v ->
  Forall (fun a => act_ok a /\ long_enough a) acts ->
  exists s' v', device_acts acts s = Done tt s' /\ repr s' v' /\ stocked packet_size k f v'.
Proof.
  induction acts as [|a acts IH]; intros s v R Hs Ha; [by exists s, v|]. apply Forall_cons_1 in Ha as [[Ha Hl] Has].
  destruct (act_stocked packet_size k f a s v R Hs Ha Hl) as (s1 & v1 & E & R1 & S1). cbn [device_acts].
  rewrite (bind_run _ _ _ _ _ E). by apply (IH s1 v1).
Qed.

(** A received buffer is one of the stock. *)
Lemma take_packet_run packet_size tk len (q : queue) : recv_shape packet_size tk -> HDR_SIZE <= len -> packet_size <= u32_max ->
  exists hdr vec, take_packet (from_avail_buffer_token (buff_tkn tk) len) q =
    Done (hdr, Vector vec (Z.min packet_size (len - HDR_SIZE)) packet_size) q.
Proof.
  intros (hdr & vec & ->) Hl Hp. exists hdr, vec. set (b := mkUsed [Sized hdr HDR_SIZE; Vector vec 0 packet_size] len).
  set (b1 := mkUsed [Vector vec 0 packet_size] (len - HDR_SIZE)).
  assert (E1 : pop_front_downcast HDR_SIZE b q = Done (Some hdr, b1) q).
  { unfold pop_front_downcast. rewrite (bind_run _ _ _ _ _ (size_u32_run HDR_SIZE q ltac:(done))). cbn [b remaining_written_len].
    rewrite (proj2 (Z.ltb_ge _ _) Hl). reflexivity. }
  assert (E2 : exists b2, pop_front_vec b1 q = Done (Some (Vector vec (Z.min packet_size (len - HDR_SIZE)) packet_size), b2) q).
  { eexists. unfold pop_front_vec. cbn [b1 elems pop_elem]. unfold bind at 1, ret at 1. cbv iota beta.
    rewrite (bind_run _ _ _ _ _ (size_u32_run packet_size q Hp)). reflexivity. }
  destruct E2 as [b2 E2]. unfold take_packet. change (used_recv_buff _) with b. rewrite (bind_run _ _ _ _ _ E1). cbv iota beta.
  erewrite bind_run by reflexivity. by rewrite (bind_run _ _ _ _ _ E2).
Qed.

Lemma get_next_stock packet_size k f (q : queue) : stock packet_size k f q ->
  exists o q', get_next q = Done o q' /\
    match o with
    | None => stock packet_size k f q'
    | Some t => exists tk len, t = from_avail_buffer_token (buff_tkn tk) len /\ recv_shape packet_size tk /\ HDR_SIZE <= len /\
        exists k', k = Datatypes.S k' /\ stock packet_size k' (f + 2) q'
    end.
Proof.
  intros (s & v & Hq & R & Hs). destruct (try_recv_law s v R) as (r & s' & v' & E & St & R'). unfold get_next.
  erewrite bind_run by (eapply on_vq_run; [exact Hq|exact E]). destruct Hs as [H1 H2 H3 H4]. inversion St; subst.
  - eexists _, _. split; [reflexivity|]. exists tk, len. split; [done|]. split; [by eapply H2|].
    match goal with Hu : used v = _ |- _ => rewrite Hu in H4 end. apply Forall_cons_1 in H4 as [Hlen H4]. split; [done|].
    exists (Nat.pred (base.size (inflight v))). split.
    { destruct (base.size (inflight v)) eqn:Hz; [|done]. apply map_size_empty_inv in Hz. rewrite Hz in *. by rewrite lookup_empty in *. }
    eexists _, _. split; [done|]. split; [exact R'|]. split; cbn.
    + rewrite map_size_delete_Some by done. done.
    + intros i tk' Hi. apply lookup_delete_Some in Hi as [_ Hi]. by eapply H2.
    + f_equal. by eapply recv_ndesc, H2.
    + done.
  - eexists _, _. split; [reflexivity|]. eexists _, _. split; [done|]. split; [exact R'|]. by split.
Qed.

(** However many packets the device delivers, whenever it does, and whatever
    lengths it reports: the driver hands them on without a panic, and has as many
    receive buffers with the device afterwards as before. *)
Theorem vsock_rx_stocked packet_size k f sched (q : queue) :
  packet_size <= u32_max -> stock packet_size k f q -> Forall (Forall (fun a => act_ok a /\ long_enough a)) sched ->
  exists l q', process_packet sched packet_size q = Done l q' /\ stock packet_size k f q' /\
    Forall (fun p => exists vec len, p.2 = Vector vec len packet_size /\ len <= packet_size) l.
Proof.
  intros Hp Hs Hsched. revert q Hs. induction Hsched as [|acts sched Ha _ IH]; intros q Hs.
  { exists [], q. split; [done|]. split; [done|constructor]. }
  destruct Hs as (s & v & Hq & R & St). destruct (acts_stocked packet_size k f acts s v R St Ha) as (s1 & v1 & E1 & R1 & S1).
  cbn [process_packet]. erewrite bind_run by (eapply on_vq_run; [exact Hq|exact E1]).
  destruct (get_next_stock packet_size k f (set_vq (Some s1) q)) as (o & q1 & E2 & Ho); [by exists s1, v1|].
  rewrite (bind_run _ _ _ _ _ E2). destruct o as [t|]; [|by exists [], q1].
  destruct Ho as (tk & len & -> & Hsh & Hlen & k' & -> & Hs1).
  destruct (take_packet_run packet_size tk len q1 Hsh Hlen Hp) as (hdr & vec & E3). rewrite (bind_run _ _ _ _ _ E3).
  destruct (fill_stocks packet_size 1 k' (f + 2) q1 Hp ltac:(lia) Hs1) as (q2 & E4 & Hs2). rewrite (bind_run _ _ _ _ _ E4).
  replace (f + 2 - 2 * 1)%nat with f in Hs2 by lia.
  destruct (IH q2 Hs2) as (l & q3 & E5 & Hs3 & Hl). rewrite (bind_run _ _ _ _ _ E5).
  eexists _, q3. split; [reflexivity|]. split; [done|]. constructor; [|done]. eexists _, _. split; [reflexivity|]. lia.
Qed.

(** ** When a packet can be sent *)

(** A send queue with [total] descriptors, one for each packet. *)
Record sending (total : nat) (v : VqSpec.vq) : Prop := {
  sg_one id tk : inflight v !! id = Some tk -> ndesc tk = 1%nat;
  sg_total : (base.size (inflight v) + free v = total)%nat;
}.

Lemma inflight_count v : coherent v -> base.size (inflight v) = length (ids v).
Proof.
  intros [Hnd Hdom _]. rewrite <- size_dom, <- (size_list_to_set (C := gset nat) (ids v) Hnd). f_equal.
  apply leibniz_equiv. intros i. rewrite elem_of_dom, elem_of_list_to_set. symmetry. apply Hdom.
Qed.

Lemma tx_poll_run total fuel : forall (q : queue) s v,
  vq q = Some s -> repr s v -> sending total v -> (length (used v) < fuel)%nat ->
  exists q' s' v', tx_poll fuel q = Done tt q' /\ vq q' = Some s' /\ repr s' v' /\ sending total v' /\
    used v' = [] /\ avail v' = avail v /\ held v' = held v.
Proof.
  induction fuel as [|fuel IH]; intros q s v Hq R Hs Hf; [lia|]. cbn [tx_poll].
  destruct (try_recv_law s v R) as (r & s1 & v1 & E & St & R1). erewrite bind_run by (eapply on_vq_run; [exact Hq|exact E]).
  inversion St as [| |? id len rest tk Hu Hi|? Hu| | | |]; subst.
  - destruct Hs as [H1 H2]. destruct (IH (set_vq (Some s1) q) s1 _ eq_refl R1) as (q' & s' & v' & E' & Hq' & R' & Hs' & Hu' & Ha & Hh).
    + split; cbn.
      * intros i tk' Hi'. apply lookup_delete_Some in Hi' as [_ Hi']. by eapply H1.
      * rewrite map_size_delete_Some by done. rewrite (H1 _ _ Hi).
        assert (base.size (inflight v) <> 0)%nat; [|lia]. intros Hz%map_size_empty_inv. rewrite Hz in Hi. by rewrite lookup_empty in Hi.
    + cbn. rewrite Hu in Hf. cbn in Hf. lia.
    + by exists q', s', v'.
  - exists (set_vq (Some s1) q), s1, v1. by split_and!.
Qed.

(** [send_packet] hands the packet to the device when a descriptor is free after
    the sent packets were taken back, and panics when the device still has a
    packet in every descriptor. *)
Theorem vsock_send_exact total fuel len (q : queue) s v :
  vq q = Some s -> repr s v -> sending total v -> (length (used v) < fuel)%nat -> 0 <= len < VSOCK_PACKET_SIZE + HDR_SIZE ->
  if (length (held v) + length (avail v) <? total)%nat
  then exists q' s' v', send_packet fuel len q = Done tt q' /\ vq q' = Some s' /\ repr s' v' /\ sending total v' /\
    length (avail v') = Datatypes.S (length (avail v))
  else exists why, send_packet fuel len q = Panic why.
Proof.
  intros Hq R Hs Hf Hl. destruct (tx_poll_run total fuel q s v Hq R Hs Hf) as (q1 & s1 & v1 & E1 & Hq1 & R1 & [H1 H2] & Hu & Ha & Hh).
  set (packet := alloc_at (allocated q1)). set (tkn := mkToken [Vector packet len len] []).
  assert (Htk : token_ok tkn) by (split; cbn; repeat constructor; cbn; unfold VSOCK_PACKET_SIZE, HDR_SIZE, u32_max in *; lia).
  destruct (dispatch_law s1 v1 tkn Direct 0 R1 Htk) as (r & s2 & v2 & E2 & St & R2). rewrite transfer_direct in St.
  assert (Hcount : (length (held v) + length (avail v) + free v1 = total)%nat).
  { rewrite <- H2, (inflight_count _ (repr_coherent _ _ R1)). unfold ids. rewrite Hu, Ha, Hh. cbn. rewrite length_app. lia. }
  assert (Erun : send_packet fuel len q =
    match r with Ok _ => Done tt (set_vq (Some s2) (mkQueue (vq q1) (allocated q1 + 1))) | Err _ => Panic "called `Result::unwrap()` on an `Err` value" end).
  { unfold send_packet. erewrite bind_run by reflexivity. rewrite Hq, (bind_run _ _ _ _ _ E1). erewrite bind_run by reflexivity.
    rewrite Hq1. erewrite bind_run by reflexivity. rewrite (proj2 (Z.ltb_lt _ _)) by lia. erewrite bind_run by reflexivity.
    erewrite bind_run by reflexivity. cbn [AvailBufferToken_new]. fold packet tkn.
    erewrite bind_run by (eapply on_vq_run; [exact Hq1|exact E2]). by destruct r. }
  rewrite Erun. inversion St as [? ? id Hn Hid|? ? ? Hn ?| | | | | |]; subst; cbn in Hn.
  - rewrite (proj2 (Nat.ltb_lt _ _)) by lia. eexists _, s2, _. split; [done|]. split; [done|]. split; [exact R2|]. split.
    + split; cbn.
      * intros i tk. destruct (decide (i = id)) as [->|Hne]; [rewrite lookup_insert_eq; by intros [= <-]|].
        rewrite lookup_insert_ne by done. apply H1.
      * rewrite map_size_insert_None by done. lia.
    + cbn. rewrite length_app, Ha. cbn. lia.
  - rewrite (proj2 (Nat.ltb_ge _ _)) by lia. by eexists.
Qed.
End Queues.

(** ** On a split queue *)

Arguments mkQueue {S} _ _.
#[local] Existing Instance SplitVq.split_queue.
#[local] Existing Instance SplitProps.split_laws.

Lemma split_direct t table : VqSpec.transfer (S := SplitVq.ring) t Direct table = mkTransfer t None.
Proof. done. Qed.

(** A new receive queue of eight descriptors: its four packets, and two of them
    used by the device. *)
Lemma demo_stock : exists q, stock (repr := SplitProps.repr) VSOCK_PACKET_SIZE 4 0 q.
Proof.
  destruct (SplitProps.new_repr 8 8 0) as (s0 & E0 & R0); [lia|exists 8192; reflexivity|].
  destruct (fill_stocks (fun k => 4096 * k) split_direct VSOCK_PACKET_SIZE 4 0 8 (mkQueue (Some s0) 0)) as (q & _ & Hq).
  - vm_compute. discriminate.
  - lia.
  - exists s0, (empty 8). split; [done|]. split; [exact R0|]. by split.
  - by exists q.
Qed.

Lemma vsock_rx_stocked_witness :
  exists (q : queue) l q', process_packet (fun k => 4096 * k) [[AServe 100; AServe 8236]; []; []; []] VSOCK_PACKET_SIZE q = Done l q' /\
    stock (repr := SplitProps.repr) VSOCK_PACKET_SIZE 4 0 q'.
Proof.
  destruct demo_stock as [q Hq].
  destruct (vsock_rx_stocked (fun k => 4096 * k) split_direct VSOCK_PACKET_SIZE 4 0 [[AServe 100; AServe 8236]; []; []; []] q)
    as (l & q' & E & Hs & _).
  - vm_compute. discriminate.
  - exact Hq.
  - repeat constructor; vm_compute; discriminate.
  - exists q, l, q'. split; [exact E|exact Hs].
Defined.

Lemma vsock_send_exact_witness :
  exists (q q' : queue), send_packet (fun k => 4096 * k) 1 100 q = Done tt q'.
Proof.
  destruct (SplitProps.new_repr 8 8 0) as (s0 & E0 & R0); [lia|exists 8192; reflexivity|].
  destruct (vsock_send_exact (fun k => 4096 * k) split_direct 8 1 100 (mkQueue (Some s0) 0) s0 (empty 8)) as (q' & _ & _ & E & _).
  - reflexivity.
  - exact R0.
  - split; [|done]. intros id tk Hi. discriminate Hi.
  - vm_compute. lia.
  - vm_compute. split; [discriminate|reflexivity].
  - exists (mkQueue (Some s0) 0), q'. exact E.
Defined.
End VsockQueues.
