(* ===== verification/Sockets.v ===== *)
(** The system calls on sockets and the address structures they exchange with
    the program, [src/src/syscalls/socket/mod.rs].

    The objects behind the descriptors (the TCP and UDP sockets over the crate
    smoltcp, the sockets of [Vsock]) are a type class: one operation for each
    method of [ObjectInterface] the calls use, run to its end by [block_on]. *)

From Stdlib Require Import String.
From S2P Require Import Prelude Errors UserMem.

Module Sockets.
Import UserMem.

(** ** Constants *)

Inductive Af : Type := Unspec | Inet | Inet6 | Unix | AfVsock.
Definition Af_into (a : Af) : Z := match a with Unspec => 0 | Inet => 3 | Inet6 => 1 | Unix => 4 | AfVsock => 2 end.
Definition Af_try_from (n : Z) : option Af :=
  if n =? 0 then Some Unspec else if n =? 3 then Some Inet else if n =? 1 then Some Inet6
  else if n =? 4 then Some Unix else if n =? 2 then Some AfVsock else None.

Inductive Ipproto : Type := Ip | Ipv6 | Tcp | Udp.
Definition Ipproto_try_from (n : Z) : option Ipproto :=
  if n =? 0 then Some Ip else if n =? 41 then Some Ipv6 else if n =? 6 then Some Tcp else if n =? 17 then Some Udp else None.

Inductive Sock : Type := Stream | Dgram | Raw | Seqpacket.
Definition Sock_try_from (n : Z) : option Sock :=
  if n =? 1 then Some Stream else if n =? 2 then Some Dgram else if n =? 3 then Some Raw else if n =? 5 then Some Seqpacket else None.
Definition SOCK_NONBLOCK : Z := 0x800.
Definition SOCK_CLOEXEC : Z := 0x4000.
Definition Sock_from_bits (bits : Z) : option (Sock * Z) :=
  sock ← Sock_try_from (wrapu 8 bits); Some (sock, Z.ldiff bits 0xff).

Inductive SocketOption : Type := TcpNodelay | SoSndbuf | SoRcvbuf.
Definition SocketOption_try_from (n : Z) : option SocketOption :=
  if n =? 1 then Some TcpNodelay else if n =? 0x1001 then Some SoSndbuf else if n =? 0x1002 then Some SoRcvbuf else None.

Definition SOL_SOCKET : Z := 4095.
Definition SO_REUSEADDR : Z := 0x0004.

(** ** Bytes of integers; the machine is little-endian *)

Fixpoint le_bytes (k : nat) (n : Z) : list Z :=
  match k with O => [] | S k => n mod 256 :: le_bytes k (n / 256) end.
Fixpoint of_le (l : list Z) : Z := match l with [] => 0 | b :: l => b + 256 * of_le l end.

(** [u16::from_be] and [u16::to_be] *)
Definition swap16 (n : Z) : Z := (n mod 256) * 256 + n / 256.

(** ** Addresses *)

(** [IpAddress] of the crate smoltcp by its octets, with the endpoints. *)
Inductive IpAddress : Type := V4 (octets : list Z) | V6 (octets : list Z).
Record IpEndpoint : Type := mkEndpoint { addr : IpAddress; port : Z }.
Record IpListenEndpoint : Type := mkListen { laddr : option IpAddress; lport : Z }.
Record VsockEndpoint : Type := mkVsock { vport : Z; vcid : Z }.
Record VsockListenEndpoint : Type := mkVListen { vlport : Z; vlcid : option Z }.
Inductive Endpoint : Type := EIp (e : IpEndpoint) | EVsock (e : VsockEndpoint).
Inductive ListenEndpoint : Type := LIp (e : IpListenEndpoint) | LVsock (e : VsockListenEndpoint).

(** [IpAddress::v6] of eight segments. *)
Definition v6 (segments : list Z) : IpAddress := V6 (flat_map (fun a => [a / 256; a mod 256]) segments).

Record sockaddr_in : Type := mkIn { sin_len : Z; sin_family : Z; sin_port : Z; s_addr : Z }.
Record sockaddr_in6 : Type := mkIn6 {
  sin6_len : Z; sin6_family : Z; sin6_port : Z; sin6_flowinfo : Z; s6_addr : list Z; sin6_scope_id : Z }.
Record sockaddr_vm : Type := mkVm { svm_len : Z; svm_family : Z; svm_port : Z; svm_cid : Z }.

(** The structures as they lie in memory. *)
Definition SIZE_IN : Z := 16.
Definition SIZE_IN6 : Z := 28.
Definition SIZE_VM : Z := 16.
Definition in_bytes (a : sockaddr_in) : list Z :=
  [sin_len a; sin_family a] ++ le_bytes 2 (sin_port a) ++ le_bytes 4 (s_addr a) ++ replicate 8 0.
Definition in6_bytes (a : sockaddr_in6) : list Z :=
  [sin6_len a; sin6_family a] ++ le_bytes 2 (sin6_port a) ++ le_bytes 4 (sin6_flowinfo a) ++ s6_addr a ++ le_bytes 4 (sin6_scope_id a).
Definition vm_bytes (a : sockaddr_vm) : list Z :=
  [svm_len a; svm_family a] ++ le_bytes 2 0 ++ le_bytes 4 (svm_port a) ++ le_bytes 4 (svm_cid a) ++ replicate 4 0.

Definition IpListenEndpoint_from_in (a : sockaddr_in) : IpListenEndpoint :=
  let port := swap16 (sin_port a) in
  if s_addr a =? 0 then mkListen None port else mkListen (Some (V4 (le_bytes 4 (s_addr a)))) port.
Definition IpEndpoint_from_in (a : sockaddr_in) : IpEndpoint := mkEndpoint (V4 (le_bytes 4 (s_addr a))) (swap16 (sin_port a)).

(** The segments [a0] to [a7] of the octets. *)
Fixpoint segments (l : list Z) : list Z :=
  match l with a :: b :: l => Z.lor (Z.shiftl a 8) b :: segments l | _ => [] end.
Definition IpListenEndpoint_from_in6 (a : sockaddr_in6) : IpListenEndpoint :=
  let port := swap16 (sin6_port a) in
  if forallb (fun b => b =? 0) (s6_addr a) then mkListen None port
  else mkListen (Some (v6 (segments (s6_addr a)))) port.
Definition IpEndpoint_from_in6 (a : sockaddr_in6) : IpEndpoint := mkEndpoint (v6 (segments (s6_addr a))) (swap16 (sin6_port a)).

Definition sockaddr_in_from {S} (e : IpEndpoint) : M S sockaddr_in :=
  match addr e with
  | V4 octets => ret (mkIn SIZE_IN (Af_into Inet) (swap16 (port e)) (of_le octets))
  | V6 _ => panic "Unable to convert IPv6 address to sockadd_in"
  end.
Definition sockaddr_in6_from {S} (e : IpEndpoint) : M S sockaddr_in6 :=
  match addr e with
  | V6 octets => ret (mkIn6 SIZE_IN6 (Af_into Inet6) (swap16 (port e)) 0 octets 0)
  | V4 _ => panic "Unable to convert IPv4 address to sockadd_in6"
  end.

Definition VsockListenEndpoint_from (a : sockaddr_vm) : VsockListenEndpoint :=
  mkVListen (svm_port a) (if svm_cid a <? u32_max then Some (svm_cid a) else None).
Definition VsockEndpoint_from (a : sockaddr_vm) : VsockEndpoint := mkVsock (svm_port a) (svm_cid a).
Definition sockaddr_vm_from (e : VsockEndpoint) : sockaddr_vm := mkVm SIZE_VM (Af_into AfVsock) (vport e) (vcid e).

(** ** The objects *)

Inductive SocketKind : Type := KVsock | KUdp | KTcp.

Class SocketObjects (K : Type) := {
  so_get : Z -> M K (io_result Z);
  so_insert : Z -> M K (io_result Z);
  so_net_up : K -> bool;
  so_new : SocketKind -> bool -> M K Z;
  so_accept : Z -> M K (io_result (Z * Endpoint));
  so_listen : Z -> Z -> M K (io_result unit);
  so_bind : Z -> ListenEndpoint -> M K (io_result unit);
  so_connect : Z -> Endpoint -> M K (io_result unit);
  so_getsockname : Z -> M K (io_result (option Endpoint));
  so_getpeername : Z -> M K (io_result (option Endpoint));
  so_setsockopt : Z -> SocketOption -> bool -> M K (io_result unit);
  so_getsockopt : Z -> SocketOption -> M K (io_result Z);
  so_shutdown : Z -> Z -> M K (io_result unit);
  so_read : Z -> Z -> M K (io_result (list Z));
  so_write : Z -> list Z -> M K (io_result Z);
  so_sendto : Z -> list Z -> Endpoint -> M K (io_result Z);
  so_recvfrom : Z -> Z -> M K (io_result (list Z * Endpoint));
}.

Record sys (K : Type) : Type := mkSys { smem : memory; serrno : Z; skern : K }.
Arguments mkSys {K} _ _ _.
Arguments smem {K} _.
Arguments serrno {K} _.
Arguments skern {K} _.

Section Calls.
Context {K : Type} `{SO : SocketObjects K}.
Notation sys := (sys K).

Definition set_smem (x : memory) (u : sys) : sys := mkSys x (serrno u) (skern u).
Definition set_serrno (x : Z) (u : sys) : sys := mkSys (smem u) x (skern u).
Definition set_skern (x : K) (u : sys) : sys := mkSys (smem u) (serrno u) x.
Definition on_k {A} (m : M K A) : M sys A := zoom skern set_skern m.

Definition with_errno (m : M sys Z) : M sys Z := let! r := m in zoom serrno set_serrno (Errno.set_errno_i32 r).
Definition with_errno64 (m : M sys Z) : M sys Z := let! r := m in zoom serrno set_serrno (Errno.set_errno_i64 r).
Definition neg (e : Errno.t) : Z := - Errno.into_i32 e.
Definition answer_unit (r : io_result unit) : Z := match r with Ok _ => 0 | Err e => neg e end.

Definition load_from (p : Z) (n : nat) : M sys (list Z) :=
  let! u := get in unwrap (load_bytes p n (smem u)) "page fault".
Definition store_to (p : Z) (l : list Z) : M sys unit :=
  let! u := get in
  do! assert_ (mapped p (length l) (smem u)) "page fault" in
  modify (set_smem (store_bytes p (Some <$> l) (smem u))).
Definition load_u8 (p : Z) : M sys Z := let! l := load_from p 1 in ret (of_le l).
Definition load_u16 (p : Z) : M sys Z := let! l := load_from p 2 in ret (of_le l).
Definition load_u32 (p : Z) : M sys Z := let! l := load_from p 4 in ret (of_le l).

(** The fields of an address structure that are looked at. *)
Definition load_in (p : Z) : M sys sockaddr_in :=
  let! len := load_u8 p in
  let! family := load_u8 (p + 1) in
  let! port := load_u16 (p + 2) in
  let! a := load_u32 (p + 4) in
  ret (mkIn len family port a).
Definition load_in6 (p : Z) : M sys sockaddr_in6 :=
  let! len := load_u8 p in
  let! family := load_u8 (p + 1) in
  let! port := load_u16 (p + 2) in
  let! flow := load_u32 (p + 4) in
  let! a := load_from (p + 8) 16 in
  let! scope := load_u32 (p + 24) in
  ret (mkIn6 len family port flow a scope).
Definition load_vm (p : Z) : M sys sockaddr_vm :=
  let! len := load_u8 p in
  let! family := load_u8 (p + 1) in
  let! port := load_u32 (p + 4) in
  let! cid := load_u32 (p + 8) in
  ret (mkVm len family port cid).

(** [obj.map_or_else(|e| -i32::from(e), f)] *)
Definition with_obj (fd : Z) (f : Z -> M sys Z) : M sys Z :=
  let! r := on_k (so_get fd) in
  match r with Ok o => f o | Err e => ret (neg e) end.
Definition call_unit (m : M K (io_result unit)) : M sys Z := let! r := on_k m in ret (answer_unit r).

(** ** Creating *)

Definition sys_socket (domain type_ protocol : Z) : M sys Z :=
  with_errno (
    match (if (0 <=? domain) && (domain <=? 255) then Af_try_from domain else None) with
    | None => ret (neg Errno.Afnosupport)
    | Some domain =>
        match Sock_from_bits type_ with
        | None => ret (neg Errno.Socktnosupport)
        | Some (sock, sock_flags) =>
            if negb (Z.ldiff sock_flags (Z.lor SOCK_NONBLOCK SOCK_CLOEXEC) =? 0) then ret (neg Errno.Inval)
            else
              match (if (0 <=? protocol) && (protocol <=? 255) then Ipproto_try_from protocol else None) with
              | None => ret (neg Errno.Protonosupport)
              | Some proto =>
                  let nonblock := negb (Z.land sock_flags SOCK_NONBLOCK =? 0) in
                  let create (k : SocketKind) : M sys Z :=
                    let! o := on_k (so_new k nonblock) in
                    let! r := on_k (so_insert o) in
                    match r with Ok fd => ret fd | Err _ => panic "FD is already used" end in
                  let fits :=
                    match sock, proto with
                    | _, Ip | _, Ipv6 | Stream, Tcp | Dgram, Udp => true
                    | _, _ => false
                    end in
                  if negb fits then ret (neg Errno.Prototype)
                  else
                    match domain, sock with
                    | AfVsock, Stream => create KVsock
                    | AfVsock, _ => ret (neg Errno.Socktnosupport)
                    | Inet, Stream | Inet, Dgram =>
                        let! u := get in
                        if so_net_up (skern u) then
                          match sock with Dgram => create KUdp | _ => create KTcp end
                        else ret (neg Errno.Netdown)
                    | _, _ => ret (neg Errno.Afnosupport)
                    end
              end
        end
    end).

(** ** Handing an address to the program *)

(** Room in the buffer that [*addrlen] announces, the structure, and its length. *)
Definition store_if_fits (size : Z) (addr addrlen : Z) (bytes : list Z) : M sys bool :=
  let! n := load_u32 addrlen in
  if size <=? n then
    do! store_to addr bytes in
    do! store_to addrlen (le_bytes 4 size) in
    ret true
  else ret false.
Definition store_ip (addr addrlen : Z) (e : IpEndpoint) : M sys bool :=
  match Sockets.addr e with
  | V4 _ => let! a := sockaddr_in_from e in store_if_fits SIZE_IN addr addrlen (in_bytes a)
  | V6 _ => let! a := sockaddr_in6_from e in store_if_fits SIZE_IN6 addr addrlen (in6_bytes a)
  end.
Definition store_vm (addr addrlen : Z) (e : VsockEndpoint) : M sys bool :=
  store_if_fits SIZE_VM addr addrlen (vm_bytes (sockaddr_vm_from e)).

Definition sys_accept (fd addr addrlen : Z) : M sys Z :=
  with_errno (with_obj fd (fun o =>
    let! r := on_k (so_accept o) in
    match r with
    | Err e => ret (neg e)
    | Ok (obj, endpoint) =>
        let given := negb (addr =? 0) && negb (addrlen =? 0) in
        match endpoint with
        | EIp e =>
            let! r := on_k (so_insert obj) in
            match r with
            | Err _ => panic "called `Result::unwrap()` on an `Err` value"
            | Ok new_fd => if given then do! store_ip addr addrlen e in ret new_fd else ret new_fd
            end
        | EVsock e =>
            let! r := on_k (so_insert o) in
            match r with
            | Err _ => panic "called `Result::unwrap()` on an `Err` value"
            | Ok new_fd => if given then do! store_vm addr addrlen e in ret new_fd else ret new_fd
            end
        end
    end)).

Definition sys_listen (fd backlog : Z) : M sys Z := with_errno (with_obj fd (fun o => call_unit (so_listen o backlog))).

Definition sys_bind (fd name namelen : Z) : M sys Z :=
  with_errno (
    if name =? 0 then ret (neg Errno.Destaddrreq)
    else
      let! family := load_u8 (name + 1) in
      match Af_try_from family with
      | None => ret (neg Errno.Inval)
      | Some family =>
          with_obj fd (fun o =>
            match family with
            | Inet =>
                if namelen <? SIZE_IN then ret (neg Errno.Inval)
                else let! a := load_in name in call_unit (so_bind o (LIp (IpListenEndpoint_from_in a)))
            | Inet6 =>
                if namelen <? SIZE_IN6 then ret (neg Errno.Inval)
                else let! a := load_in6 name in call_unit (so_bind o (LIp (IpListenEndpoint_from_in6 a)))
            | AfVsock =>
                if namelen <? SIZE_VM then ret (neg Errno.Inval)
                else let! a := load_vm name in call_unit (so_bind o (LVsock (VsockListenEndpoint_from a)))
            | _ => ret (neg Errno.Inval)
            end)
      end).

(** The endpoint an address structure stands for. *)
Definition endpoint_at (name namelen : Z) (family : Af) : M sys (option Endpoint) :=
  match family with
  | Inet => if namelen <? SIZE_IN then ret None else let! a := load_in name in ret (Some (EIp (IpEndpoint_from_in a)))
  | Inet6 => if namelen <? SIZE_IN6 then ret None else let! a := load_in6 name in ret (Some (EIp (IpEndpoint_from_in6 a)))
  | AfVsock => if namelen <? SIZE_VM then ret None else let! a := load_vm name in ret (Some (EVsock (VsockEndpoint_from a)))
  | _ => ret None
  end.

Definition sys_connect (fd name namelen : Z) : M sys Z :=
  with_errno (
    if name =? 0 then ret (neg Errno.Inval)
    else
      let! family := load_u8 (name + 1) in
      match Af_try_from family with
      | None => ret (neg Errno.Inval)
      | Some family =>
          let! e := endpoint_at name namelen family in
          match e with
          | None => ret (neg Errno.Inval)
          | Some e => with_obj fd (fun o => call_unit (so_connect o e))
          end
      end).

(** The address of an endpoint for [getsockname] and [getpeername]; that of a
    vsock endpoint is not written. *)
Definition give_name (addr addrlen : Z) (e : Endpoint) : M sys Z :=
  if (addr =? 0) || (addrlen =? 0) then ret (neg Errno.Inval)
  else
    match e with
    | EIp e => let! b := store_ip addr addrlen e in ret (if b then 0 else neg Errno.Inval)
    | EVsock e => let! n := load_u32 addrlen in ret (if SIZE_VM <=? n then 0 else neg Errno.Inval)
    end.

Definition sys_getsockname (fd addr addrlen : Z) : M sys Z :=
  with_errno (with_obj fd (fun o =>
    let! r := on_k (so_getsockname o) in
    match r with
    | Ok (Some e) => give_name addr addrlen e
    | _ => ret (neg Errno.Inval)
    end)).

Definition sys_getpeername (fd addr addrlen : Z) : M sys Z :=
  with_errno (with_obj fd (fun o =>
    let! r := on_k (so_getpeername o) in
    match r with
    | Ok (Some e) => give_name addr addrlen e
    | _ => ret 0
    end)).

(** ** Options *)

Definition sys_setsockopt (fd level optname optval optlen : Z) : M sys Z :=
  with_errno (
    if (level =? SOL_SOCKET) && (optname =? SO_REUSEADDR) then ret 0
    else
      match (if (0 <=? level) && (level <=? 255) then Ipproto_try_from level else None) with
      | None => ret (neg Errno.Inval)
      | Some level =>
          match SocketOption_try_from optname with
          | None => ret (neg Errno.Inval)
          | Some optname =>
              match level, optname with
              | Tcp, TcpNodelay =>
                  if optlen =? 4 then
                    if optval =? 0 then ret (neg Errno.Inval)
                    else
                      let! value := load_u32 optval in
                      with_obj fd (fun o => call_unit (so_setsockopt o optname (negb (value =? 0))))
                  else ret (neg Errno.Inval)
              | _, _ => ret (neg Errno.Inval)
              end
          end
      end).

Definition sys_getsockopt (fd level optname optval optlen : Z) : M sys Z :=
  with_errno (
    match SocketOption_try_from optname with
    | None => ret (neg Errno.Inval)
    | Some optname =>
        let known :=
          match optname with
          | TcpNodelay => level =? 6
          | SoSndbuf | SoRcvbuf => level =? SOL_SOCKET
          end in
        if known then
          if (optval =? 0) || (optlen =? 0) then ret (neg Errno.Inval)
          else
            with_obj fd (fun o =>
              let! r := on_k (so_getsockopt o optname) in
              match r with
              | Err e => ret (neg e)
              | Ok value =>
                  do! store_to optval (le_bytes 4 (wrapu 32 value)) in
                  do! store_to optlen (le_bytes 4 4) in
                  ret 0
              end)
        else ret (neg Errno.Inval)
    end).

(** ** Data *)

Definition to_isize (n : Z) : M sys Z :=
  do! assert_ (n <=? isize_max) "called `Result::unwrap()` on an `Err` value" in ret n.

Definition sys_send (s mem len flags : Z) : M sys Z :=
  with_errno64 (
    let! buf := load_from mem (Z.to_nat len) in
    with_obj s (fun o =>
      let! r := (if (length buf =? 0)%nat then ret (Ok 0) else on_k (so_write o buf)) in
      match r with Ok n => to_isize n | Err e => ret (neg e) end)).

Definition shutdown (sockfd how : Z) : M sys Z := with_obj sockfd (fun o => call_unit (so_shutdown o how)).
Definition sys_shutdown (sockfd how : Z) : M sys Z := with_errno (shutdown sockfd how).
Definition sys_shutdown_socket (fd how : Z) : M sys Z := with_errno (shutdown fd how).

Definition sys_recv (fd buf len flags : Z) : M sys Z :=
  with_errno64 (
    if flags =? 0 then
      with_obj fd (fun o =>
        let! r := (if len =? 0 then ret (Ok []) else on_k (so_read o len)) in
        match r with
        | Ok l => do! store_to buf l in to_isize (Z.of_nat (length l))
        | Err e => ret (neg e)
        end)
    else ret (neg Errno.Inval)).

Definition sys_sendto (fd buf len flags addr addr_len : Z) : M sys Z :=
  with_errno64 (
    if (addr =? 0) || (addr_len =? 0) then ret (neg Errno.Inval)
    else
      let! family := load_u8 (addr + 1) in
      match Af_try_from family with
      | None => ret (neg Errno.Inval)
      | Some family =>
          let! e := (match family with Inet | Inet6 => endpoint_at addr addr_len family | _ => ret None end) in
          match e with
          | None => ret (neg Errno.Inval)
          | Some e =>
              let! slice := load_from buf (Z.to_nat len) in
              with_obj fd (fun o =>
                let! r := on_k (so_sendto o slice e) in
                match r with Ok n => to_isize n | Err e => ret (neg e) end)
          end
      end).

Definition sys_recvfrom (fd buf len flags addr addrlen : Z) : M sys Z :=
  with_errno64 (with_obj fd (fun o =>
    let! r := on_k (so_recvfrom o len) in
    match r with
    | Err e => ret (neg e)
    | Ok (l, endpoint) =>
        do! store_to buf l in
        if negb (addr =? 0) && negb (addrlen =? 0) then
          match endpoint with
          | EIp e =>
              let! b := store_ip addr addrlen e in
              if b then to_isize (Z.of_nat (length l)) else ret (neg Errno.Inval)
          | EVsock _ => ret (neg Errno.Inval)
          end
        else to_isize (Z.of_nat (length l))
    end)).
End Calls.
End Sockets.
