(* ===== verification/SocketProps.v ===== *)
(** Properties of the socket calls: an address the kernel hands out is read back
    as the endpoint it was made from, by the calls that take addresses; the
    calls that hand out addresses write nothing but the buffer they are given;
    and which sockets can be created. *)

From S2P Require Import Prelude Errors UserMem Sockets.

Module SocketProps.
Import UserMem Sockets.

(** ** Bytes *)

Definition byte (b : Z) : Prop := 0 <= b < 256.

Lemma le_bytes_of_le l : Forall byte l -> le_bytes (length l) (of_le l) = l.
Proof.
  induction 1 as [|b l Hb _ IH]; [done|]. cbn [length le_bytes of_le]. unfold byte in Hb.
  rewrite (Z.mul_comm 256), Z.mod_add, Z.div_add, Z.mod_small, Z.div_small by lia. by rewrite Z.add_0_l, IH.
Qed.
Lemma of_le_bytes k n : 0 <= n < 256 ^ Z.of_nat k -> of_le (le_bytes k n) = n.
Proof.
  revert n. induction k as [|k IH]; intros n Hn; cbn [le_bytes of_le].
  - change (256 ^ Z.of_nat 0) with 1 in Hn. lia.
  - rewrite Nat2Z.inj_succ, Z.pow_succ_r in Hn by lia. rewrite IH.
    + rewrite Z.add_comm. symmetry. apply Z_div_mod_eq_full.
    + split; [apply Z.div_pos; lia|]. apply Z.div_lt_upper_bound; lia.
Qed.
Lemma of_le_range l : Forall byte l -> 0 <= of_le l < 256 ^ Z.of_nat (length l).
Proof.
  induction 1 as [|b l Hb _ IH]; cbn [of_le length]; [done|]. unfold byte in Hb.
  rewrite Nat2Z.inj_succ, Z.pow_succ_r by lia. lia.
Qed.
Lemma length_le_bytes k n : length (le_bytes k n) = k.
Proof. revert n. induction k as [|k IH]; intros n; cbn; [done|]. by rewrite IH. Qed.

Lemma swap16_swap16 n : 0 <= n < 65536 -> swap16 (swap16 n) = n /\ 0 <= swap16 n < 65536.
Proof.
  intros Hn. unfold swap16. pose proof (Z.mod_pos_bound n 256 ltac:(lia)) as H1.
  assert (H2 : 0 <= n / 256 < 256) by (Z.to_euclidean_division_equations; lia). pose proof (Z_div_mod_eq_full n 256) as H3.
  assert (E1 : (n mod 256 * 256 + n / 256) mod 256 = n / 256) by (rewrite Z.add_comm, Z.mod_add, Z.mod_small; lia).
  assert (E2 : (n mod 256 * 256 + n / 256) / 256 = n mod 256) by (rewrite Z.div_add_l, Z.div_small; lia).
  rewrite E1, E2. lia.
Qed.

Lemma lor_shift8 a b : byte b -> Z.lor (Z.shiftl a 8) b = a * 256 + b.
Proof.
  intros Hb. assert (Hland : Z.land (Z.shiftl a 8) b = 0).
  { apply Z.bits_inj'. intros n Hn. rewrite Z.land_spec, Z.bits_0. destruct (Z.lt_ge_cases n 8) as [Hlt|Hge].
    - by rewrite Z.shiftl_spec_low.
    - rewrite andb_comm. replace b with (b mod 2 ^ 8) by (apply Z.mod_small; exact Hb). by rewrite Z.mod_pow2_bits_high. }
  rewrite <- Z.lxor_lor, <- Z.add_nocarry_lxor by done. by rewrite Z.shiftl_mul_pow2.
Qed.

(** Segments of octets and back. *)
Lemma segments_octets l : Forall byte l -> Nat.Even (length l) -> flat_map (fun a => [a / 256; a mod 256]) (segments l) = l.
Proof.
  intros Hl. assert (Hind : forall n l, (length l <= n)%nat -> Forall byte l -> Nat.Even (length l) ->
    flat_map (fun a => [a / 256; a mod 256]) (segments l) = l); [|by apply (Hind (length l))].
  clear l Hl. induction n as [|n IH]; intros l Hn Hl He.
  - by destruct l; [|cbn in Hn; lia].
  - destruct l as [|a [|b l]]; [done|by destruct He as [k Hk]; cbn in Hk; lia|].
    apply Forall_cons_1 in Hl as [Ha Hl]. apply Forall_cons_1 in Hl as [Hb Hl]. unfold byte in *.
    cbn [segments flat_map]. rewrite IH; [|cbn in Hn; lia|done|destruct He as [k Hk]; exists (k - 1)%nat; cbn in Hk; lia].
    assert (Hor : Z.lor (Z.shiftl a 8) b = a * 256 + b).
    { by apply lor_shift8. }
    rewrite Hor, Z.div_add_l, Z.div_small, (Z.add_comm (a * 256)), Z.mod_add, Z.mod_small by lia. by rewrite Z.add_0_r.
Qed.

(** ** Memory that holds some bytes *)

Definition holds (m : memory) (a : Z) (l : list Z) : Prop := load_bytes a (length l) m = Some l.

Lemma holds_lookup l : forall a m, holds m a l <-> forall k b, l !! k = Some b -> m !! (a + Z.of_nat k) = Some (Some b).
Proof.
  unfold holds. induction l as [|x l IH]; intros a m; cbn [length load_bytes]; [split; [by intros _ [] ?|done]|]. split.
  - intros E. destruct (m !! a) as [[y|]|] eqn:Ha; try done. destruct (load_bytes (a + 1) (length l) m) as [l'|] eqn:El; [|done].
    cbn in E. injection E as -> ->. intros [|k] b Hk; cbn in Hk.
    + injection Hk as ->. by rewrite Z.add_0_r.
    + replace (a + Z.of_nat (S k)) with (a + 1 + Z.of_nat k) by lia. by apply (proj1 (IH (a + 1) m) El).
  - intros H. pose proof (H O x eq_refl) as H0. rewrite Z.add_0_r in H0. rewrite H0.
    rewrite (proj2 (IH (a + 1) m)); [done|]. intros k b Hk. replace (a + 1 + Z.of_nat k) with (a + Z.of_nat (S k)) by lia. by apply H.
Qed.

Lemma holds_app m a l1 l2 : holds m a (l1 ++ l2) -> holds m a l1 /\ holds m (a + Z.of_nat (length l1)) l2.
Proof.
  rewrite !holds_lookup. intros H. split; intros k b Hk.
  - apply H. by apply lookup_app_l_Some.
  - rewrite <- Z.add_assoc, <- Nat2Z.inj_add. apply H. rewrite lookup_app_r by lia. by replace (length l1 + k - length l1)%nat with k by lia.
Qed.

Lemma holds_stored m a l : holds (store_bytes a (Some <$> l) m) a l.
Proof. apply holds_lookup. intros k b Hk. apply store_bytes_lookup. by rewrite list_lookup_fmap, Hk. Qed.

Lemma holds_other m a l b x : holds m a l -> b + Z.of_nat (length x) <= a \/ a + Z.of_nat (length l) <= b -> holds (store_bytes b (Some <$> x) m) a l.
Proof.
  rewrite !holds_lookup. intros H Hd k v Hk. pose proof (lookup_lt_Some _ _ _ Hk).
  rewrite store_bytes_lookup_ne; [by apply H|]. rewrite length_fmap. lia.
Qed.

(** ** Address structures *)

(** Octets are bytes, four or sixteen of them, and numbers have their width. *)
Definition wf_endpoint (e : Endpoint) : Prop :=
  match e with
  | EIp (mkEndpoint (V4 l) p) => Forall byte l /\ length l = 4%nat /\ 0 <= p < 65536
  | EIp (mkEndpoint (V6 l) p) => Forall byte l /\ length l = 16%nat /\ 0 <= p < 65536
  | EVsock (mkVsock p c) => 0 <= p < 2 ^ 32 /\ 0 <= c < 2 ^ 32
  end.

Definition sockaddr_bytes (e : Endpoint) : list Z :=
  match e with
  | EIp (mkEndpoint (V4 l) p) => in_bytes (mkIn SIZE_IN (Af_into Inet) (swap16 p) (of_le l))
  | EIp (mkEndpoint (V6 l) p) => in6_bytes (mkIn6 SIZE_IN6 (Af_into Inet6) (swap16 p) 0 l 0)
  | EVsock e => vm_bytes (sockaddr_vm_from e)
  end.
Definition sockaddr_size (e : Endpoint) : Z :=
  match e with EIp (mkEndpoint (V4 _) _) => SIZE_IN | EIp (mkEndpoint (V6 _) _) => SIZE_IN6 | EVsock _ => SIZE_VM end.
Definition family_of (e : Endpoint) : Af :=
  match e with EIp (mkEndpoint (V4 _) _) => Inet | EIp (mkEndpoint (V6 _) _) => Inet6 | EVsock _ => AfVsock end.

Lemma sockaddr_length e : wf_endpoint e -> Z.of_nat (length (sockaddr_bytes e)) = sockaddr_size e.
Proof.
  destruct e as [[[l|l] p]|[p c]]; cbn [wf_endpoint]; try done. intros (_ & Hl & _). cbn [sockaddr_bytes sockaddr_size].
  unfold in6_bytes. cbn [s6_addr]. rewrite !length_app, !length_le_bytes, Hl. done.
Qed.

Section Props.
Context {K : Type} `{SO : SocketObjects K}.
Notation sys := (Sockets.sys K).

Lemma load_from_run p n (u : sys) l : load_bytes p n (smem u) = Some l -> load_from p n u = Done l u.
Proof. intros E. unfold load_from, bind, get. by rewrite E. Qed.

Lemma load_u8_run p b (u : sys) : holds (smem u) p [b] -> load_u8 p u = Done b u.
Proof. intros H. unfold load_u8. erewrite bind_run by (apply load_from_run; exact H). cbn. unfold ret. do 2 f_equal. lia. Qed.
Lemma load_u16_run p n (u : sys) : 0 <= n < 65536 -> holds (smem u) p (le_bytes 2 n) -> load_u16 p u = Done n u.
Proof.
  intros Hn H. unfold load_u16. erewrite bind_run by (apply load_from_run; exact H). unfold ret. by rewrite of_le_bytes.
Qed.
Lemma load_u32_run p n (u : sys) : 0 <= n < 2 ^ 32 -> holds (smem u) p (le_bytes 4 n) -> load_u32 p u = Done n u.
Proof.
  intros Hn H. unfold load_u32. erewrite bind_run by (apply load_from_run; exact H). unfold ret. by rewrite of_le_bytes.
Qed.

#[local] Ltac fields Hh :=
  repeat match type of Hh with holds _ _ (?b :: ?r) => apply (holds_app _ _ [b] r) in Hh; let H := fresh "F" in destruct Hh as [H Hh]; cbn [length] in Hh end;
  repeat match type of Hh with holds _ _ (_ ++ _) => apply holds_app in Hh; let H := fresh "F" in destruct Hh as [H Hh]; rewrite ?length_le_bytes in Hh end.
#[local] Ltac at_offset H := match goal with |- context [holds _ ?x _] => match type of H with holds _ ?y _ => replace x with y by lia end end; exact H.

Lemma load_in_run a x (u : sys) :
  holds (smem u) a (in_bytes x) -> 0 <= sin_port x < 65536 -> 0 <= s_addr x < 2 ^ 32 -> load_in a u = Done x u.
Proof.
  intros Hh Hp Ha. unfold in_bytes in Hh. cbn [app] in Hh. fields Hh. unfold load_in.
  erewrite bind_run by (by apply load_u8_run). erewrite bind_run by (apply load_u8_run; at_offset F0).
  erewrite bind_run by (apply load_u16_run; [done|]; at_offset F1). erewrite bind_run by (apply load_u32_run; [done|]; at_offset F2).
  by destruct x.
Qed.

Lemma load_in6_run a x (u : sys) :
  holds (smem u) a (in6_bytes x) -> 0 <= sin6_port x < 65536 -> 0 <= sin6_flowinfo x < 2 ^ 32 -> 0 <= sin6_scope_id x < 2 ^ 32 ->
  length (s6_addr x) = 16%nat -> load_in6 a u = Done x u.
Proof.
  intros Hh Hp Hf Hs Hl. unfold in6_bytes in Hh. cbn [app] in Hh. fields Hh. rewrite Hl in Hh. unfold load_in6.
  erewrite bind_run by (by apply load_u8_run). erewrite bind_run by (apply load_u8_run; at_offset F0).
  erewrite bind_run by (apply (load_u16_run _ (sin6_port x)); [done|]; at_offset F1). erewrite bind_run by (apply (load_u32_run _ (sin6_flowinfo x)); [done|]; at_offset F2).
  erewrite bind_run by (apply load_from_run; rewrite <- Hl; unfold holds in F3; rewrite <- F3; f_equal; lia).
  erewrite bind_run by (apply (load_u32_run _ (sin6_scope_id x)); [done|]; at_offset Hh). by destruct x.
Qed.

Lemma load_vm_run a x (u : sys) :
  holds (smem u) a (vm_bytes x) -> 0 <= svm_port x < 2 ^ 32 -> 0 <= svm_cid x < 2 ^ 32 -> load_vm a u = Done x u.
Proof.
  intros Hh Hp Hc. unfold vm_bytes in Hh. cbn [app] in Hh. fields Hh. unfold load_vm.
  erewrite bind_run by (by apply load_u8_run). erewrite bind_run by (apply load_u8_run; at_offset F0).
  erewrite bind_run by (apply (load_u32_run _ (svm_port x)); [done|]; at_offset F2). erewrite bind_run by (apply (load_u32_run _ (svm_cid x)); [done|]; at_offset F3).
  by destruct x.
Qed.

(** The calls that take an address read the endpoint back. *)
Lemma endpoint_read e a namelen (u : sys) :
  wf_endpoint e -> holds (smem u) a (sockaddr_bytes e) -> sockaddr_size e <= namelen ->
  load_u8 (a + 1) u = Done (Af_into (family_of e)) u /\ endpoint_at a namelen (family_of e) u = Done (Some e) u.
Proof.
  intros Hw Hh Hn. split.
  { apply load_u8_run. destruct e as [[[l|l] p]|[p c]]; cbn [sockaddr_bytes family_of] in *;
      apply (holds_app _ _ [_] (_ :: _)) in Hh as [_ Hh]; by apply (holds_app _ _ [_]) in Hh as [Hh _]. }
  destruct e as [[[l|l] p]|[p c]]; cbn [wf_endpoint sockaddr_bytes sockaddr_size family_of endpoint_at] in *;
    rewrite (proj2 (Z.ltb_ge _ _) Hn).
  - destruct Hw as (Hb & Hl & Hp). destruct (swap16_swap16 p Hp) as [Es Hs]. pose proof (of_le_range l Hb) as Hr. rewrite Hl in Hr.
    erewrite bind_run by (by apply (load_in_run _ _ _ Hh)). unfold ret, IpEndpoint_from_in. cbn [s_addr sin_port]. rewrite Es, <- Hl.
    by rewrite le_bytes_of_le.
  - destruct Hw as (Hb & Hl & Hp). destruct (swap16_swap16 p Hp) as [Es Hs].
    erewrite bind_run by (by apply (load_in6_run _ _ _ Hh)). unfold ret, IpEndpoint_from_in6, v6. cbn [s6_addr sin6_port].
    rewrite Es, segments_octets; [done|done|]. rewrite Hl. by exists 8%nat.
  - destruct Hw as (Hp & Hc). erewrite bind_run by (by apply (load_vm_run _ _ _ Hh)). reflexivity.
Qed.

(** ** Handing out an address *)

Lemma holds_mapped l : forall a m, holds m a l -> mapped a (length l) m = true.
Proof.
  induction l as [|b l IH]; intros a m H; [done|]. apply (holds_app _ _ [b]) in H as [H1 H2]. cbn [length mapped].
  rewrite IH by (cbn in H2; exact H2). rewrite holds_lookup in H1. specialize (H1 O b eq_refl). rewrite Z.add_0_r in H1.
  by rewrite H1.
Qed.

Lemma store_to_run p l (u : sys) : mapped p (length l) (smem u) = true ->
  store_to p l u = Done tt (set_smem (store_bytes p (Some <$> l) (smem u)) u).
Proof. intros H. unfold store_to, bind, get, assert_. by rewrite H. Qed.

(** The buffer at [a] has [n] bytes, the cell at [alen] says so, and the two do
    not overlap. *)
Record buffer_ok (m : memory) (a alen n size : Z) : Prop := {
  bo_len : holds m alen (le_bytes 4 n);
  bo_range : 0 <= n < 2 ^ 32;
  bo_mapped : mapped a (Z.to_nat size) m = true;
  bo_apart : alen + 4 <= a \/ a + size <= alen;
}.

Lemma store_if_fits_run size a alen n bytes (u : sys) :
  buffer_ok (smem u) a alen n size -> Z.of_nat (length bytes) = size ->
  if size <=? n then
    exists m, store_if_fits size a alen bytes u = Done true (set_smem m u) /\ holds m a bytes /\ holds m alen (le_bytes 4 size) /\
      forall x, ~ (a <= x < a + size) -> ~ (alen <= x < alen + 4) -> m !! x = smem u !! x
  else store_if_fits size a alen bytes u = Done false u.
Proof.
  intros [H1 H2 H3 H4] Hl. unfold store_if_fits. rewrite (bind_run _ _ _ _ _ (load_u32_run _ _ _ H2 H1)).
  destruct (size <=? n); [|done]. assert (Hs : Z.to_nat size = length bytes) by lia. rewrite Hs in H3.
  rewrite (bind_run _ _ _ _ _ (store_to_run a bytes u H3)).
  set (m1 := store_bytes a (Some <$> bytes) (smem u)).
  assert (Hm : mapped alen (length (le_bytes 4 size)) (smem (set_smem m1 u)) = true).
  { rewrite length_le_bytes, <- (length_le_bytes 4 n). apply mapped_store. by apply holds_mapped. }
  rewrite (bind_run _ _ _ _ _ (store_to_run alen (le_bytes 4 size) (set_smem m1 u) Hm)).
  exists (store_bytes alen (Some <$> le_bytes 4 size) m1). split; [by destruct u|]. split; [|split].
  - apply holds_other; [apply holds_stored|]. rewrite length_le_bytes. lia.
  - apply holds_stored.
  - intros x Hx1 Hx2. rewrite store_bytes_lookup_ne by (rewrite length_fmap, length_le_bytes; lia).
    unfold m1. rewrite store_bytes_lookup_ne by (rewrite length_fmap; lia). done.
Qed.

Lemma store_ip_eq e a alen (u : sys) :
  store_ip a alen e u = store_if_fits (sockaddr_size (EIp e)) a alen (sockaddr_bytes (EIp e)) u.
Proof. by destruct e as [[l|l] p]. Qed.

Lemma with_errno_zero (m : M sys Z) (u u' : sys) : m u = Done 0 u' -> with_errno m u = Done 0 u'.
Proof. intros E. unfold with_errno. rewrite (bind_run _ _ _ _ _ E). by destruct u'. Qed.

Lemma with_obj_ext fd (f g : Z -> M sys Z) (u : sys) :
  (forall o k, f o (set_skern k u) = g o (set_skern k u)) -> with_errno (with_obj fd f) u = with_errno (with_obj fd g) u.
Proof.
  intros H. assert (E : with_obj fd f u = with_obj fd g u); [|unfold with_errno, bind; by rewrite E].
  unfold with_obj, bind, on_k, zoom. destruct (so_get fd (skern u)) as [[o|er] k|why]; [apply H|done|done].
Qed.

(** The address "any" is not given to [bind]. *)
Definition listen_endpoint (e : IpEndpoint) : IpListenEndpoint :=
  match addr e with
  | V4 l | V6 l => mkListen (if forallb (fun b => b =? 0) l then None else Some (addr e)) (port e)
  end.

Lemma of_le_zero l : Forall byte l -> (of_le l =? 0) = forallb (fun b => b =? 0) l.
Proof.
  induction 1 as [|b l Hb Hl IH]; [done|]. cbn. rewrite <- IH. pose proof (of_le_range l Hl). unfold byte in Hb.
  destruct (b =? 0) eqn:E1; destruct (of_le l =? 0) eqn:E2; cbn; lia.
Qed.

Lemma bind_read e a (u : sys) (f : ListenEndpoint -> M sys Z) :
  wf_endpoint (EIp e) -> holds (smem u) a (sockaddr_bytes (EIp e)) ->
  match addr e with
  | V4 _ => (let! x := load_in a in f (LIp (IpListenEndpoint_from_in x))) u
  | V6 _ => (let! x := load_in6 a in f (LIp (IpListenEndpoint_from_in6 x))) u
  end = f (LIp (listen_endpoint e)) u.
Proof.
  destruct e as [[l|l] p]; intros (Hb & Hl & Hp) Hh; cbn [sockaddr_bytes addr] in *; destruct (swap16_swap16 p Hp) as [Es Hs].
  - pose proof (of_le_range l Hb) as Hr. rewrite Hl in Hr. erewrite bind_run by (by apply (load_in_run _ _ _ Hh)).
    unfold IpListenEndpoint_from_in, listen_endpoint. cbn [s_addr sin_port addr port]. rewrite Es, of_le_zero by done.
    rewrite <- Hl, le_bytes_of_le by done. by destruct (forallb _ l).
  - erewrite bind_run by (by apply (load_in6_run _ _ _ Hh)).
    unfold IpListenEndpoint_from_in6, listen_endpoint, v6. cbn [s6_addr sin6_port addr port]. rewrite Es.
    rewrite segments_octets by (done || (rewrite Hl; by exists 8%nat)). by destruct (forallb _ l).
Qed.

Lemma Af_roundtrip f : Af_try_from (Af_into f) = Some f.
Proof. by destruct f. Qed.

(** [getsockname] fills the buffer with the address of the socket and writes
    nowhere else; a [connect] to that address reaches the object with the same
    endpoint, and so does a [bind], where the address "any" is no address. *)
Theorem socket_address_roundtrip e a alen n (u : sys) fd o k1 k2 :
  wf_endpoint (EIp e) -> a <> 0 -> alen <> 0 -> buffer_ok (smem u) a alen n (sockaddr_size (EIp e)) ->
  sockaddr_size (EIp e) <= n ->
  so_get fd (skern u) = Done (Ok o) k1 -> so_getsockname o k1 = Done (Ok (Some (EIp e))) k2 ->
  exists m, sys_getsockname fd a alen u = Done 0 (mkSys m (serrno u) k2) /\
    (forall x, ~ (a <= x < a + sockaddr_size (EIp e)) -> ~ (alen <= x < alen + 4) -> m !! x = smem u !! x) /\
    forall fd' err k', let u' := mkSys m err k' in
      load_u32 alen u' = Done (sockaddr_size (EIp e)) u' /\
      sys_connect fd' a (sockaddr_size (EIp e)) u' =
        with_errno (with_obj fd' (fun o => call_unit (so_connect o (EIp e)))) u' /\
      sys_bind fd' a (sockaddr_size (EIp e)) u' =
        with_errno (with_obj fd' (fun o => call_unit (so_bind o (LIp (listen_endpoint e))))) u'.
Proof.
  intros Hw Ha Hal Hb Hn E1 E2. set (u1 := mkSys (smem u) (serrno u) k2).
  pose proof (store_if_fits_run _ a alen n (sockaddr_bytes (EIp e)) u1 Hb (sockaddr_length _ Hw)) as Hst.
  rewrite (proj2 (Z.leb_le _ _) Hn) in Hst. destruct Hst as (m & Es & Hh & Hh4 & Hx). exists m. split; [|split].
  - apply with_errno_zero. unfold with_obj, on_k. erewrite bind_run by (apply zoom_run; exact E1). cbv iota beta.
    erewrite bind_run by (apply zoom_run; exact E2). unfold give_name. rewrite (proj2 (Z.eqb_neq _ _) Ha), (proj2 (Z.eqb_neq _ _) Hal).
    cbn [orb]. rewrite <- store_ip_eq in Es. rewrite (bind_run _ _ _ _ _ Es). reflexivity.
  - exact Hx.
  - intros fd' err k' u'. split; [|split].
    + apply load_u32_run; [|exact Hh4]. by destruct e as [[l|l] p].
    + destruct (endpoint_read (EIp e) a _ u' Hw Hh (Z.le_refl _)) as [Ef Ee]. unfold sys_connect, with_errno. rewrite (proj2 (Z.eqb_neq _ _) Ha).
      unfold bind at 1. rewrite (bind_run _ _ _ _ _ Ef), Af_roundtrip, (bind_run _ _ _ _ _ Ee). reflexivity.
    + destruct (endpoint_read (EIp e) a _ u' Hw Hh (Z.le_refl _)) as [Ef _]. unfold sys_bind, with_errno. rewrite (proj2 (Z.eqb_neq _ _) Ha).
      unfold bind at 1. rewrite (bind_run _ _ _ _ _ Ef), Af_roundtrip. apply with_obj_ext. intros o' k3.
      change (set_skern k3 u') with (mkSys m err k3).
      pose proof (bind_read e a (mkSys m err k3) (fun l => call_unit (so_bind o' l)) Hw Hh) as Hbr.
      destruct e as [[l|l] p]; cbn [family_of addr sockaddr_size] in *; rewrite Z.ltb_irrefl; exact Hbr.
Qed.

(** A buffer that is too small is refused, whole. *)
Lemma getsockname_short e a alen n (u : sys) fd o k1 k2 :
  wf_endpoint (EIp e) -> a <> 0 -> alen <> 0 -> buffer_ok (smem u) a alen n (sockaddr_size (EIp e)) ->
  n < sockaddr_size (EIp e) ->
  so_get fd (skern u) = Done (Ok o) k1 -> so_getsockname o k1 = Done (Ok (Some (EIp e))) k2 ->
  sys_getsockname fd a alen u = Done (neg Errno.Inval) (mkSys (smem u) (Errno.into_i32 Errno.Inval) k2).
Proof.
  intros Hw Ha Hal Hb Hn E1 E2. set (u1 := mkSys (smem u) (serrno u) k2).
  pose proof (store_if_fits_run _ a alen n (sockaddr_bytes (EIp e)) u1 Hb (sockaddr_length _ Hw)) as Hst.
  rewrite (proj2 (Z.leb_gt _ _) Hn), <- store_ip_eq in Hst. unfold sys_getsockname, with_errno.
  rewrite (bind_run _ _ _ (neg Errno.Inval) u1); [reflexivity|]. unfold with_obj, on_k. erewrite bind_run by (apply zoom_run; exact E1). cbv iota beta.
  erewrite bind_run by (apply zoom_run; exact E2). unfold give_name.
  rewrite (proj2 (Z.eqb_neq _ _) Ha), (proj2 (Z.eqb_neq _ _) Hal). cbn [orb]. by rewrite (bind_run _ _ _ _ _ Hst).
Qed.

(** [getpeername] of a socket that has no peer reports success, [getsockname] of
    a socket to the host reports success without an address. *)
Lemma names_not_written a alen n (u : sys) fd o k1 k2 r vs :
  a <> 0 -> alen <> 0 -> holds (smem u) alen (le_bytes 4 n) -> SIZE_VM <= n < 2 ^ 32 -> so_get fd (skern u) = Done (Ok o) k1 ->
  (so_getpeername o k1 = Done r k2 -> (r = Ok None \/ exists er, r = Err er) ->
     sys_getpeername fd a alen u = Done 0 (set_skern k2 u)) /\
  (so_getsockname o k1 = Done (Ok (Some (EVsock vs))) k2 -> sys_getsockname fd a alen u = Done 0 (set_skern k2 u)).
Proof.
  intros Ha Hal Hh Hn E1. split.
  - intros E2 Hr. apply with_errno_zero. unfold with_obj, on_k. erewrite bind_run by (apply zoom_run; exact E1). cbv iota beta.
    erewrite bind_run by (apply zoom_run; exact E2). by destruct Hr as [->|[er ->]].
  - intros E2. apply with_errno_zero. unfold with_obj, on_k. erewrite bind_run by (apply zoom_run; exact E1). cbv iota beta.
    erewrite bind_run by (apply zoom_run; exact E2). unfold give_name.
    rewrite (proj2 (Z.eqb_neq _ _) Ha), (proj2 (Z.eqb_neq _ _) Hal). cbn [orb].
    erewrite bind_run by (apply load_u32_run; [|exact Hh]; unfold SIZE_VM in Hn; lia).
    by rewrite (proj2 (Z.leb_le _ _)) by lia.
Qed.
End Props.

(** ** Bound sockets as objects *)

(** Descriptors are objects, with the name each is bound to; connecting records
    the endpoint. *)
Record bound : Type := mkBound { names : gmap Z Endpoint; connected : list (Z * Endpoint) }.

#[local] Instance bound_objects : SocketObjects bound := {
  so_get fd := fun k => Done (match names k !! fd with Some _ => Ok fd | None => Err Errno.Badf end) k;
  so_insert o := ret (Ok o);
  so_net_up _ := true;
  so_new _ _ := ret 0;
  so_accept _ := ret (Err Errno.Nosys);
  so_listen _ _ := ret (Ok tt);
  so_bind _ _ := ret (Ok tt);
  so_connect o e := fun k => Done (Ok tt) (mkBound (names k) (connected k ++ [(o, e)]));
  so_getsockname o := fun k => Done (Ok (names k !! o)) k;
  so_getpeername o := ret (Ok None);
  so_setsockopt _ _ _ := ret (Ok tt);
  so_getsockopt _ _ := ret (Ok 0);
  so_shutdown _ _ := ret (Ok tt);
  so_read _ _ := ret (Ok []);
  so_write _ l := ret (Ok (Z.of_nat (length l)));
  so_sendto _ l _ := ret (Ok (Z.of_nat (length l)));
  so_recvfrom _ _ := ret (Err Errno.Nosys);
}.

Definition demo_endpoint : IpEndpoint := mkEndpoint (V4 [10; 0; 2; 15]) 8080.
Definition demo_sys : Sockets.sys bound :=
  mkSys (store_bytes 100 (Some <$> replicate 16 0) (store_bytes 200 (Some <$> le_bytes 4 28) ∅)) 0
    (mkBound {[ 3 := EIp demo_endpoint; 4 := EIp demo_endpoint ]} []).

Lemma socket_address_roundtrip_witness :
  exists u', sys_getsockname 3 100 200 demo_sys = Done 0 u' /\
    sys_connect 4 100 16 u' = with_errno (with_obj 4 (fun o => call_unit (so_connect o (EIp demo_endpoint)))) u'.
Proof.
  destruct (socket_address_roundtrip demo_endpoint 100 200 28 demo_sys 3 3 (skern demo_sys) (skern demo_sys)) as (m & E & _ & H).
  - split; [|split; [reflexivity|lia]]. repeat constructor; lia.
  - discriminate.
  - discriminate.
  - split; [vm_compute; reflexivity|lia|vm_compute; reflexivity|vm_compute; right; discriminate].
  - vm_compute. discriminate.
  - reflexivity.
  - reflexivity.
  - exists (mkSys m 0 (skern demo_sys)). split; [exact E|]. apply (H 4 0 (skern demo_sys)).
Defined.
End SocketProps.
