(* ===== verification/Fuse.v ===== *)
(** The FUSE commands of the virtio file system,
    [src/src/fs/virtio_fs.rs] (module [ops], commands and responses).  The
    structures of the protocol come from the crate [fuse_abi]: they are records
    of the fields the kernel sets or reads, every other field is zero, and
    their sizes and constants are a type class. *)

From S2P Require Import Prelude Errors Time Files Virtq.

Module Fuse.
Import Files Virtq.

(** ** The protocol *)

Inductive fuse_opcode : Set :=
  | FUSE_INIT | FUSE_CREATE | FUSE_OPEN | FUSE_WRITE | FUSE_READ | FUSE_LSEEK | FUSE_GETATTR
  | FUSE_SETATTR | FUSE_READLINK | FUSE_RELEASE | FUSE_POLL | FUSE_MKDIR | FUSE_UNLINK | FUSE_RMDIR
  | FUSE_LOOKUP | FUSE_OPENDIR | FUSE_READDIR.

Record fuse_init_in : Set := mkInitIn { major : Z; minor : Z }.
Record fuse_create_in : Set := mkCreateIn { create_flags : Z; create_mode : Z }.
Record fuse_open_in : Set := mkOpenIn { open_flags : Z }.
Record fuse_write_in : Set := mkWriteIn { w_fh : Z; w_offset : Z; w_size : Z }.
Record fuse_read_in : Set := mkReadIn { r_fh : Z; r_offset : Z; r_size : Z }.
Record fuse_lseek_in : Set := mkLseekIn { l_fh : Z; l_offset : Z; l_whence : Z }.
Record fuse_getattr_in : Set := mkGetattrIn { getattr_flags : Z; g_fh : Z }.
Record fuse_setattr_in : Set := mkSetattrIn {
  valid : Z; s_fh : Z; s_size : Z;
  s_atime : Z; s_atimensec : Z; s_mtime : Z; s_mtimensec : Z; s_ctime : Z; s_ctimensec : Z;
  s_mode : Z; s_uid : Z; s_gid : Z
}.
Record fuse_release_in : Set := mkReleaseIn { rel_fh : Z }.
Record fuse_poll_in : Set := mkPollIn { p_fh : Z; p_kh : Z; p_events : Z }.
Record fuse_mkdir_in : Set := mkMkdirIn { mkdir_mode : Z }.

Record fuse_attr : Set := mkAttr {
  fa_ino : Z; fa_size : Z; fa_blocks : Z;
  fa_atime : Z; fa_atimensec : Z; fa_mtime : Z; fa_mtimensec : Z; fa_ctime : Z; fa_ctimensec : Z;
  fa_mode : Z; fa_nlink : Z; fa_uid : Z; fa_gid : Z; fa_rdev : Z; fa_blksize : Z
}.
Record fuse_entry_out : Set := mkEntryOut { nodeid : Z; entry_attr : fuse_attr }.
Record fuse_open_out : Set := mkOpenOut { fh : Z }.
Record fuse_write_out : Set := mkWriteOut { wrote : Z }.
Record fuse_lseek_out : Set := mkLseekOut { lseek_offset : Z }.
Record fuse_attr_out : Set := mkAttrOut { attr_out : fuse_attr }.
Record fuse_poll_out : Set := mkPollOut { revents : Z }.
Record CreateOut : Set := mkCreateOut { entry : fuse_entry_out; open : fuse_open_out }.

(** The implementations of the trait [Op] and their associated types. *)
Inductive Op : Set :=
  | Init | Create | Open | Write | Read | Lseek | Getattr | Setattr | Readlink | Release | Poll
  | Mkdir | Unlink | Rmdir | Lookup.

Definition OP_CODE (O : Op) : fuse_opcode :=
  match O with
  | Init => FUSE_INIT | Create => FUSE_CREATE | Open => FUSE_OPEN | Write => FUSE_WRITE
  | Read => FUSE_READ | Lseek => FUSE_LSEEK | Getattr => FUSE_GETATTR | Setattr => FUSE_SETATTR
  | Readlink => FUSE_READLINK | Release => FUSE_RELEASE | Poll => FUSE_POLL | Mkdir => FUSE_MKDIR
  | Unlink => FUSE_UNLINK | Rmdir => FUSE_RMDIR | Lookup => FUSE_LOOKUP
  end.

Definition InStruct (O : Op) : Set :=
  match O with
  | Init => fuse_init_in | Create => fuse_create_in | Open => fuse_open_in | Write => fuse_write_in
  | Read => fuse_read_in | Lseek => fuse_lseek_in | Getattr => fuse_getattr_in
  | Setattr => fuse_setattr_in | Release => fuse_release_in | Poll => fuse_poll_in
  | Mkdir => fuse_mkdir_in
  | Readlink | Unlink | Rmdir | Lookup => unit
  end.

Definition OutStruct (O : Op) : Set :=
  match O with
  | Create => CreateOut | Open => fuse_open_out | Write => fuse_write_out | Lseek => fuse_lseek_out
  | Getattr | Setattr => fuse_attr_out | Poll => fuse_poll_out | Mkdir | Lookup => fuse_entry_out
  | Init | Read | Readlink | Release | Unlink | Rmdir => unit
  end.

(** Sizes and constants of [fuse_abi::linux], and the fields of a directory
    entry in the bytes of its structure. *)
Class FuseAbi : Type := {
  size_in_header : Z;
  size_out_header : Z;
  size_in_struct : Op -> Z;
  size_out_struct : Op -> Z;
  size_dirent : Z;
  dirent_ino : list Z -> Z;
  dirent_namelen : list Z -> Z;
  dirent_type : list Z -> Z;
  FUSE_ROOT_ID : Z;
  FUSE_GETATTR_FH : Z;
  FATTR_MODE : Z;
  FATTR_SIZE : Z;
  FATTR_LOCKOWNER : Z;
}.

(** ** Commands *)

Record fuse_in_header : Set := mkInHeader { in_len : Z; opcode : fuse_opcode; in_nodeid : Z; unique : Z }.
Record CmdHeader (O : Op) : Set := mkCmdHeader { in_header : fuse_in_header; op_header : InStruct O }.
Record Cmd (O : Op) : Set := mkCmd { headers : CmdHeader O; payload : option (list Z) }.
Arguments mkCmdHeader {O} _ _.
Arguments in_header {O} _.
Arguments op_header {O} _.
Arguments mkCmd {O} _ _.
Arguments headers {O} _.
Arguments payload {O} _.

(** [cmd.headers.in_header.opcode = x] *)
Definition set_opcode {O} (x : fuse_opcode) (c : Cmd O) : Cmd O :=
  let h := in_header (headers c) in
  mkCmd (mkCmdHeader (mkInHeader (in_len h) x (in_nodeid h) (unique h)) (op_header (headers c))) (payload c).

Section Commands.
Context {S : Type} `{FuseAbi}.

Definition with_payload_size (O : Op) (nodeid : Z) (op_header : InStruct O) (len : Z) : M S (CmdHeader O) :=
  let n := size_in_header + size_in_struct O + len in
  if n <=? u32_max then ret (mkCmdHeader (mkInHeader n (OP_CODE O) nodeid 1) op_header)
  else panic "The command is too large".

Definition Cmd_new (O : Op) (nodeid : Z) (op_header : InStruct O) : M S (Cmd O) :=
  let! h := with_payload_size O nodeid op_header 0 in ret (mkCmd h None).
(** The bytes of a C string with the terminating zero. *)
Definition with_cstring (O : Op) (nodeid : Z) (op_header : InStruct O) (cstring : list Z) : M S (Cmd O) :=
  let bytes := cstring ++ [0] in
  let! h := with_payload_size O nodeid op_header (Z.of_nat (length bytes)) in ret (mkCmd h (Some bytes)).
Definition with_boxed_slice (O : Op) (nodeid : Z) (op_header : InStruct O) (slice : list Z) : M S (Cmd O) :=
  let! h := with_payload_size O nodeid op_header (Z.of_nat (length slice)) in ret (mkCmd h (Some slice)).

(** [try_into().unwrap()] to 32 unsigned bits *)
Definition to_u32 (n : Z) : M S Z :=
  if (0 <=? n) && (n <=? u32_max) then ret n else panic "called `Result::unwrap()` on an `Err` value".

(** The [create] functions: the command and the length of the payload expected
    in the response. *)
Definition Init_create : M S (Cmd Init * Z) :=
  let! cmd := Cmd_new Init FUSE_ROOT_ID (mkInitIn 7 31) in ret (cmd, 0).
Definition Create_create (path : list Z) (flags mode : Z) : M S (Cmd Create * Z) :=
  let! cmd := with_cstring Create FUSE_ROOT_ID (mkCreateIn flags mode) path in ret (cmd, 0).
Definition Open_create (nid flags : Z) : M S (Cmd Open * Z) :=
  let! cmd := Cmd_new Open nid (mkOpenIn flags) in ret (cmd, 0).
Definition Write_create (nid fh : Z) (buf : list Z) (offset : Z) : M S (Cmd Write * Z) :=
  let! size := to_u32 (Z.of_nat (length buf)) in
  let! cmd := with_boxed_slice Write nid (mkWriteIn fh offset size) buf in ret (cmd, 0).
Definition Read_create (nid fh size offset : Z) : M S (Cmd Read * Z) :=
  let! cmd := Cmd_new Read nid (mkReadIn fh offset size) in ret (cmd, size).
Definition whence_into_u8 (w : SeekWhence) : Z :=
  match w with Set_ => 0 | Cur => 1 | End_ => 2 | Data => 3 | Hole => 4 end.
Definition Lseek_create (nid fh offset : Z) (whence : SeekWhence) : M S (Cmd Lseek * Z) :=
  let! cmd := Cmd_new Lseek nid (mkLseekIn fh (wrapu 64 offset) (whence_into_u8 whence)) in ret (cmd, 0).
Definition Getattr_create (nid fh getattr_flags : Z) : M S (Cmd Getattr * Z) :=
  let! cmd := Cmd_new Getattr nid (mkGetattrIn getattr_flags fh) in ret (cmd, 0).
Definition Setattr_create (nid fh : Z) (attr : FileAttr) (valid_attr : Z) : M S (Cmd Setattr * Z) :=
  let! cmd := Cmd_new Setattr nid
    (mkSetattrIn (Z.land valid_attr (Z.lnot FATTR_LOCKOWNER)) fh (wrapu 64 (st_size attr))
       (wrapu 64 (Time.ts_sec (st_atim attr))) (wrapu 32 (Time.ts_nsec (st_atim attr)))
       (wrapu 64 (Time.ts_sec (st_ctim attr))) (wrapu 32 (Time.ts_nsec (st_ctim attr)))
       (wrapu 64 (Time.ts_sec (st_ctim attr))) (wrapu 32 (Time.ts_nsec (st_ctim attr)))
       (st_mode attr) (st_uid attr) (st_gid attr)) in
  ret (cmd, 0).
Definition Readlink_create (nid size : Z) : M S (Cmd Readlink * Z) :=
  let! cmd := Cmd_new Readlink nid tt in ret (cmd, size).
Definition Release_create (nid fh : Z) : M S (Cmd Release * Z) :=
  let! cmd := Cmd_new Release nid (mkReleaseIn fh) in ret (cmd, 0).
Definition Poll_create (nid fh kh event : Z) : M S (Cmd Poll * Z) :=
  let! cmd := Cmd_new Poll nid (mkPollIn fh kh (wrapu 32 event)) in ret (cmd, 0).
Definition Mkdir_create (path : list Z) (mode : Z) : M S (Cmd Mkdir * Z) :=
  let! cmd := with_cstring Mkdir FUSE_ROOT_ID (mkMkdirIn mode) path in ret (cmd, 0).
Definition Unlink_create (name : list Z) : M S (Cmd Unlink * Z) :=
  let! cmd := with_cstring Unlink FUSE_ROOT_ID tt name in ret (cmd, 0).
Definition Rmdir_create (name : list Z) : M S (Cmd Rmdir * Z) :=
  let! cmd := with_cstring Rmdir FUSE_ROOT_ID tt name in ret (cmd, 0).
Definition Lookup_create (name : list Z) : M S (Cmd Lookup * Z) :=
  let! cmd := with_cstring Lookup FUSE_ROOT_ID tt name in ret (cmd, 0).
End Commands.

(** ** Responses *)

Record Rsp (O : Op) : Set := mkRsp {
  out_len : Z;
  out_error : Z;
  rsp_header : OutStruct O;
  rsp_payload : option (list Z)
}.
Arguments mkRsp {O} _ _ _ _.
Arguments out_len {O} _.
Arguments out_error {O} _.
Arguments rsp_header {O} _.
Arguments rsp_payload {O} _.

Inductive VirtioFsError : Set := FsVirtqError (e : VirtqError) | FsIOError (e : Errno.t).

(** [Errno::from] of a virtqueue error is always [Io]. *)
Definition errno_from (e : VirtioFsError) : Errno.t :=
  match e with FsVirtqError _ => Errno.Io | FsIOError e => e end.

(** [FileAttr::from] *)
Definition FileAttr_from {S} (attr : fuse_attr) : M S FileAttr :=
  if (fa_size attr <=? i64_max) && (fa_blocks attr <=? i64_max) then
    ret (mkFileAttr 0 (fa_ino attr) (fa_nlink attr) (fa_mode attr) (fa_uid attr) (fa_gid attr) (fa_rdev attr) (fa_size attr)
           (fa_blksize attr) (fa_blocks attr)
           (Time.mkTimespec (wraps 64 (fa_atime attr)) (wraps 32 (fa_atimensec attr)))
           (Time.mkTimespec (wraps 64 (fa_mtime attr)) (wraps 32 (fa_mtimensec attr)))
           (Time.mkTimespec (wraps 64 (fa_ctime attr)) (wraps 32 (fa_ctimensec attr))))
  else panic "called `Result::unwrap()` on an `Err` value".

(** The driver as the file system uses it: [get_filesystem_driver().is_some()]
    and the trait [VirtioFsInterface]. *)
Class FsDriver (S : Type) : Type := {
  has_driver : S -> bool;
  send_command : forall O : Op, Cmd O -> Z -> M S (Result VirtioFsError (Rsp O));
  get_mount_point : S -> string;
}.
End Fuse.
