(* ===== verification/VirtioFs.v ===== *)
(** The virtio file system, [src/src/fs/virtio_fs.rs]: handles of files and
    directories, the node that is mounted into the tree, and its set-up, over
    any driver.  Handles are objects of a table, so that clones of a descriptor
    share one.  Reading outside of a response is undefined behaviour in the
    source and a panic here. *)

From Stdlib Require Import Ascii.
From S2P Require Import Prelude Errors Time Files Directories UserMem Fuse.

Module VirtioFs.
Import Flags Files Directories UserMem Fuse.

Definition MAX_READ_LEN : Z := 65536.
Definition MAX_WRITE_LEN : Z := 65536.
Definition U64_SIZE : Z := 8.
Definition S_IFLNK : Z := 0xa000.
Definition S_IFMT : Z := 0xf000.

Definition POLLERR : Z := 0x8.
Definition POLLHUP : Z := 0x10.
Definition POLLNVAL : Z := 0x20.
Definition POLL_ALL : Z := 0x23ff.

Record VirtioFsFileHandleInner : Set := mkInner { fuse_nid : option Z; fuse_fh : option Z; offset : Z }.
Definition Inner_new : VirtioFsFileHandleInner := mkInner None None 0.
Definition set_offset (x : Z) (h : VirtioFsFileHandleInner) : VirtioFsFileHandleInner :=
  mkInner (fuse_nid h) (fuse_fh h) x.

Inductive Fd : Set :=
  | VirtioFsFileHandle (inner : VirtioFsFileHandleInner)
  | VirtioFsDirectoryHandle (name : string) (read_position : Z).

(** [m?] in a function that returns [io::Result] *)
Definition try_ {S A B} (m : M S (io_result A)) (f : A -> M S (io_result B)) : M S (io_result B) :=
  let! r := m in match r with Ok a => f a | Err e => ret (Err e) end.
Notation "'try!' x := m 'in' k" := (try_ m (fun x => k))
  (at level 200, x name, m at level 100, k at level 200) : exec_scope.
(** [o.ok_or(e)?] *)
Definition ok_or {S A} (o : option A) (e : Errno.t) : M S (io_result A) :=
  ret (match o with Some a => Ok a | None => Err e end).

Section Client.
Context {S : Type} `{FuseAbi} `{FsDriver S}.

(** [KH] numbers the polls. *)
Record client : Type := mkClient { srv : S; objs : gmap Z Fd; next : Z; KH : Z }.
Definition set_srv (x : S) (c : client) : client := mkClient x (objs c) (next c) (KH c).
Definition set_obj (o : Z) (x : Fd) (c : client) : client := mkClient (srv c) (<[o := x]> (objs c)) (next c) (KH c).
Definition new_obj (x : Fd) : M client Z := fun c =>
  Done (next c) (mkClient (srv c) (<[next c := x]> (objs c)) (next c + 1) (KH c)).
Definition on_srv {A} (m : M S A) : M client A := zoom srv set_srv m.

(** [get_filesystem_driver().unwrap().lock().send_command(..)] *)
Definition must_send {O} (p : Cmd O * Z) : M client (Result VirtioFsError (Rsp O)) :=
  let! c := get in
  do! assert_ (has_driver (srv c)) "called `Option::unwrap()` on a `None` value" in
  on_srv (send_command O p.1 p.2).
(** [get_filesystem_driver().ok_or(Errno::Nosys)?.lock().send_command(..)?] *)
Definition try_send {O} (p : Cmd O * Z) : M client (io_result (Rsp O)) :=
  let! c := get in
  if has_driver (srv c) then
    let! r := on_srv (send_command O p.1 p.2) in
    ret (match r with Ok rsp => Ok rsp | Err e => Err (errno_from e) end)
  else ret (Err Errno.Nosys).
(** [.unwrap()] of either *)
Definition expect_ok {A} (r : Result VirtioFsError A) : M client A :=
  match r with Ok a => ret a | Err _ => panic "called `Result::unwrap()` on an `Err` value" end.

(** [CString::new(s).unwrap()] *)
Definition cstring (s : string) : M client (list Z) :=
  let b := of_string s in
  if forallb (fun c => negb (c =? 0)) b then ret b else panic "called `Result::unwrap()` on an `Err` value".

Definition lookup (name : list Z) : M client (option Z) :=
  let! cmd := Lookup_create name in
  let! r := must_send cmd in
  ret (match r with Ok rsp => Some (nodeid (rsp_header rsp)) | Err _ => None end).

(** The bytes of the payload of a response to a request of [len] bytes. *)
Definition payload_len {O} (rsp : Rsp O) (len : Z) : Z :=
  let n := wrapu 64 (out_len rsp - size_out_header) in if len <=? n then len else n.
Definition payload_prefix {O} (rsp : Rsp O) (len : Z) : M client (list Z) :=
  let! p := unwrap (rsp_payload rsp) "called `Option::unwrap()` on a `None` value" in
  slice p 0 len.

Definition readlink (nid : Z) : M client (io_result string) :=
  let len := MAX_READ_LEN in
  let! cmd := Readlink_create nid len in
  let! r := must_send cmd in
  match r with
  | Err e => ret (Err (errno_from e))
  | Ok rsp =>
      let! b := payload_prefix rsp (payload_len rsp len) in
      let! s := unwrap (to_str b) "called `Result::unwrap()` on an `Err` value" in
      ret (Ok s)
  end.

(** ** File handles *)

Definition get_file (o : Z) : M client VirtioFsFileHandleInner :=
  let! c := get in
  match objs c !! o with
  | Some (VirtioFsFileHandle h) => ret h
  | _ => panic "not a file handle"
  end.
Definition set_file (o : Z) (h : VirtioFsFileHandleInner) : M client unit :=
  modify (set_obj o (VirtioFsFileHandle h)).

Definition fetch_add_kh : M client Z := fun c =>
  Done (KH c) (mkClient (srv c) (objs c) (next c) (wrapu 64 (KH c + 1))).

(** A poll is ready at the first attempt; the flag says that the waker was
    called. *)
Definition poll (o events : Z) : M client (io_result Z * bool) :=
  let! self := get_file o in
  let! kh := fetch_add_kh in
  match fuse_nid self, fuse_fh self with
  | Some nid, Some fh =>
      let! cmd := Poll_create nid fh kh events in
      let! r := try_send cmd in
      match r with
      | Err e => ret (Err e, false)
      | Ok rsp =>
          if out_error rsp <? 0 then ret (Err Errno.Io, false)
          else
            let revents := revents (rsp_header rsp) in
            do! assert_ (revents <=? 32767) "called `Result::unwrap()` on an `Err` value" in
            do! assert_ (contains POLL_ALL revents) "called `Option::unwrap()` on a `None` value" in
            ret (Ok revents,
                 negb (intersects revents events) &&
                 negb (intersects revents (Z.lor (Z.lor POLLERR POLLNVAL) POLLHUP)))
      end
  | _, _ => ret (Ok POLLERR, false)
  end.

Definition lseek (o off : Z) (whence : SeekWhence) : M client (io_result Z) :=
  let! self := get_file o in
  match whence with
  | End_ | Data | Hole =>
      try! nid := ok_or (fuse_nid self) Errno.Io in
      try! fh := ok_or (fuse_fh self) Errno.Io in
      let! cmd := Lseek_create nid fh off whence in
      try! rsp := try_send cmd in
      if out_error rsp <? 0 then ret (Err Errno.Io)
      else
        let rsp_offset := lseek_offset (rsp_header rsp) in
        do! set_file o (set_offset rsp_offset self) in
        do! assert_ (rsp_offset <=? isize_max) "called `Result::unwrap()` on an `Err` value" in
        ret (Ok rsp_offset)
  | Set_ =>
      if off <? 0 then ret (Err Errno.Inval)
      else do! set_file o (set_offset off self) in ret (Ok off)
  | Cur =>
      let x := wraps 64 (wraps 64 (offset self) + off) in
      if x <? 0 then ret (Err Errno.Inval)
      else do! set_file o (set_offset x self) in ret (Ok x)
  end.

Definition fstat (o : Z) : M client (io_result FileAttr) :=
  let! self := get_file o in
  try! nid := ok_or (fuse_nid self) Errno.Io in
  try! fh := ok_or (fuse_fh self) Errno.Io in
  let! cmd := Getattr_create nid fh FUSE_GETATTR_FH in
  try! rsp := try_send cmd in
  if out_error rsp <? 0 then ret (Err Errno.Io)
  else let! a := FileAttr_from (attr_out (rsp_header rsp)) in ret (Ok a).

Definition set_attr (o : Z) (attr : FileAttr) (valid : Z) : M client (io_result FileAttr) :=
  let! self := get_file o in
  try! nid := ok_or (fuse_nid self) Errno.Io in
  try! fh := ok_or (fuse_fh self) Errno.Io in
  let! cmd := Setattr_create nid fh attr valid in
  try! rsp := try_send cmd in
  if out_error rsp <? 0 then ret (Err Errno.Io)
  else let! a := FileAttr_from (attr_out (rsp_header rsp)) in ret (Ok a).

(** The bytes a read puts at the front of a buffer of [n] bytes. *)
Definition read (o n : Z) : M client (io_result (list Z)) :=
  let len := if MAX_READ_LEN <? n then MAX_READ_LEN else n in
  let! self := get_file o in
  try! nid := ok_or (fuse_nid self) Errno.Io in
  try! fh := ok_or (fuse_fh self) Errno.Io in
  let! size := to_u32 len in
  let! cmd := Read_create nid fh size (offset self) in
  try! rsp := try_send cmd in
  let len := payload_len rsp len in
  do! set_file o (set_offset (wrapu 64 (offset self + len)) self) in
  let! b := payload_prefix rsp len in
  ret (Ok b).

Definition write (o : Z) (buf : list Z) : M client (io_result Z) :=
  let truncated_len := if MAX_WRITE_LEN <? len buf then MAX_WRITE_LEN else len buf in
  let! self := get_file o in
  try! nid := ok_or (fuse_nid self) Errno.Io in
  try! fh := ok_or (fuse_fh self) Errno.Io in
  let! cmd := Write_create nid fh (take (Z.to_nat truncated_len) buf) (offset self) in
  try! rsp := try_send cmd in
  if out_error rsp <? 0 then ret (Err Errno.Io)
  else
    let rsp_size := wrote (rsp_header rsp) in
    let rsp_len := if truncated_len <? rsp_size then truncated_len else rsp_size in
    do! set_file o (set_offset (wrapu 64 (offset self + rsp_len)) self) in
    ret (Ok rsp_len).

(** The handle dies with its last clone. *)
Definition drop_handle (h : VirtioFsFileHandleInner) : M client unit :=
  match fuse_nid h, fuse_fh h with
  | Some nid, Some fh =>
      let! cmd := Release_create nid fh in
      let! r := must_send cmd in
      do! expect_ok r in ret tt
  | _, _ => ret tt
  end.
Definition drop_file (o : Z) : M client unit :=
  let! self := get_file o in
  do! modify (fun c => mkClient (srv c) (base.delete o (objs c)) (next c) (KH c)) in
  drop_handle self.

Definition default_attr : FileAttr := attr_new default_permission 0 (Time.mkTimespec 0 0).

Definition truncate (o size : Z) : M client (io_result unit) :=
  do! assert_ (size <=? i64_max) "called `Result::unwrap()` on an `Err` value" in
  try! a := set_attr o (set_st_size size default_attr) FATTR_SIZE in ret (Ok tt).
Definition chmod (o access_permission : Z) : M client (io_result unit) :=
  try! a := set_attr o (set_st_mode access_permission default_attr) FATTR_MODE in ret (Ok tt).

(** ** Directory handles *)

(** [FileType::try_from]: the type numbers of directory entries. *)
Definition FileType_try_from (t : Z) : option Z :=
  if bool_decide (t ∈ [0; 1; 2; 4; 6; 8; 10; 12; 14]) then Some t else None.

(** The structure at [off] of the payload, and the name behind it. *)
Definition dirent_at (p : list Z) (off : Z) : M client (list Z) := slice p off (off + size_dirent).
Definition dirent_name (p : list Z) (off : Z) (d : list Z) : M client (list Z) :=
  slice p (off + size_dirent) (off + size_dirent + dirent_namelen d).
(** The offset behind an entry, aligned. *)
Definition next_offset (off : Z) (d : list Z) : Z :=
  Z.land (off + size_dirent + dirent_namelen d + U64_SIZE - 1) (Z.lnot (U64_SIZE - 1)).
Definition more {O} (rsp : Rsp O) (off : Z) : bool := size_dirent <? wrapu 64 (out_len rsp - off).

(** [Dirent64] with its name and a zero. *)
Definition dirent64 (ino reclen type : Z) (name : list Z) : list (option Z) :=
  Some <$> (le_bytes 8 ino ++ le_bytes 8 0 ++ le_bytes 2 reclen ++ [type] ++ name ++ [0]).

Record listing : Type := mkListing { buf : list (option Z); buf_offset : Z; rsp_offset : Z; ret_ : Z }.

(** The loop over the payload.  An entry takes at least a byte of it, so the
    bytes of the payload bound the rounds. *)
Fixpoint getdents_loop (fuel : nat) (rsp : Rsp Read) (st : listing) : M client (io_result listing) :=
  match fuel with
  | O => panic "unreachable"
  | Datatypes.S fuel =>
      if negb (more rsp (rsp_offset st)) then ret (Ok st)
      else
        let! p := unwrap (rsp_payload rsp) "called `Option::unwrap()` on a `None` value" in
        let! d := dirent_at p (rsp_offset st) in
        let dirent_len := D_NAME_OFFSET + dirent_namelen d + 1 in
        let next_dirent := align_up (buf_offset st + dirent_len) DIRENT_ALIGN in
        if Z.of_nat (length (buf st)) <? next_dirent
        then if ret_ st =? 0 then ret (Err Errno.Inval) else ret (Ok st)
        else
          let reclen := align_up dirent_len DIRENT_ALIGN in
          do! assert_ (reclen <=? 65535) "called `Result::unwrap()` on an `Err` value" in
          let! type := unwrap (FileType_try_from (wrapu 8 (dirent_type d)))
                         "called `Result::unwrap()` on an `Err` value" in
          let! name := dirent_name p (rsp_offset st) d in
          let written := overwrite (overwrite (buf st) (buf_offset st) (replicate 24 None))
                           (buf_offset st) (dirent64 (dirent_ino d) reclen type name) in
          getdents_loop fuel rsp (mkListing written next_dirent (next_offset (rsp_offset st) d) next_dirent)
  end.

Definition rounds {O} (rsp : Rsp O) : nat :=
  Datatypes.S (match rsp_payload rsp with Some p => length p | None => 0 end).

Definition get_directory (o : Z) : M client (string * Z) :=
  let! c := get in
  match objs c !! o with
  | Some (VirtioFsDirectoryHandle name pos) => ret (name, pos)
  | _ => panic "not a directory handle"
  end.

Definition O_DIRECTORY_FLAG : Z := 0x10000.

(** [FUSE_OPENDIR] and [FUSE_READDIR] *)
Definition opendir_cmd (nid : Z) : M client (Cmd Open * Z) :=
  let! '(cmd, n) := Open_create nid O_DIRECTORY_FLAG in ret (set_opcode FUSE_OPENDIR cmd, n).
Definition readdir_cmd (nid fh : Z) : M client (Cmd Read * Z) :=
  let! '(cmd, n) := Read_create nid fh MAX_READ_LEN 0 in ret (set_opcode FUSE_READDIR cmd, n).

Definition getdents (o : Z) (buffer : list (option Z)) : M client (io_result (Z * list (option Z))) :=
  let! '(name, _) := get_directory o in
  let! path := cstring (if is_empty name then "/" else String.append "/" name) in
  let! r := lookup path in
  try! nid := ok_or r Errno.Noent in
  let! cmd := opendir_cmd nid in
  try! rsp := try_send cmd in
  let fuse_fh := fh (rsp_header rsp) in
  let! '(_, pos) := get_directory o in
  let! cmd := readdir_cmd nid fuse_fh in
  try! rsp := try_send cmd in
  if payload_len rsp MAX_READ_LEN <=? size_dirent then ret (Err Errno.Noent)
  else
    try! st := getdents_loop (rounds rsp) rsp (mkListing buffer 0 pos 0) in
    do! modify (set_obj o (VirtioFsDirectoryHandle name (rsp_offset st))) in
    let! cmd := Release_create nid fuse_fh in
    try! _r := (let! r := must_send cmd in
                ret (match r with Ok x => Ok x | Err e => Err (errno_from e) end)) in
    ret (Ok (ret_ st, buf st)).

Definition dir_lseek (o off : Z) (whence : SeekWhence) : M client (io_result Z) :=
  let! '(name, _) := get_directory o in
  if negb (bool_decide (whence = Set_)) && negb (off =? 0) then ret (Err Errno.Inval)
  else
    do! modify (set_obj o (VirtioFsDirectoryHandle name (wrapu 64 off))) in
    ret (Ok off).

(** ** The mounted node *)

Record VirtioFsDirectory : Set := mkDirectory { prefix : string; dir_attr : FileAttr }.
Definition VirtioFsDirectory_new (now_micros : Z) (prefix : string) : VirtioFsDirectory :=
  mkDirectory prefix (attr_new (Z.lor PERM_777 S_IFDIR) 0 (Time.from_usec (wraps 64 now_micros))).

(** [strip_suffix("/").unwrap_or] *)
Fixpoint strip_slash_end (s : string) : string :=
  match s with
  | EmptyString => EmptyString
  | String c EmptyString => if Ascii.eqb c "/"%char then EmptyString else s
  | String c s => String c (strip_slash_end s)
  end.
Definition traversal_path (self : VirtioFsDirectory) (path : string) : M client (list Z) :=
  cstring (String.append (strip_slash_end (prefix self)) (String.append "/" path)).

Definition get_kind (_ : VirtioFsDirectory) : NodeKind := Directory.
Definition get_file_attributes (self : VirtioFsDirectory) : M client (io_result FileAttr) := ret (Ok (dir_attr self)).
Definition get_object (self : VirtioFsDirectory) : M client (io_result Z) :=
  let! o := new_obj (VirtioFsDirectoryHandle (prefix self) 0) in ret (Ok o).

(** The names in the payload of a listing. *)
Fixpoint readdir_loop (fuel : nat) (rsp : Rsp Read) (off : Z) (entries : list string) : M client (list string) :=
  match fuel with
  | O => panic "unreachable"
  | Datatypes.S fuel =>
      if negb (more rsp off) then ret entries
      else
        let! p := unwrap (rsp_payload rsp) "called `Option::unwrap()` on a `None` value" in
        let! d := dirent_at p off in
        let! name := dirent_name p off d in
        readdir_loop fuel rsp (next_offset off d) (entries ++ [to_string name])
  end.

Definition traverse_readdir (self : VirtioFsDirectory) (path : string) : M client (io_result (list string)) :=
  let! path := traversal_path self path in
  let! r := lookup path in
  try! nid := ok_or r Errno.Noent in
  let! cmd := opendir_cmd nid in
  try! rsp := try_send cmd in
  let fuse_fh := fh (rsp_header rsp) in
  let! cmd := readdir_cmd nid fuse_fh in
  try! rsp := try_send cmd in
  if payload_len rsp MAX_READ_LEN <=? size_dirent then ret (Err Errno.Noent)
  else
    let! entries := readdir_loop (rounds rsp) rsp 0 [] in
    let! cmd := Release_create nid fuse_fh in
    let! r := must_send cmd in
    match r with
    | Err e => ret (Err (errno_from e))
    | Ok _ => ret (Ok entries)
    end.

(** [Errno::try_from(-error).unwrap()] *)
Definition errno_of_reply {A} (error : Z) : M client (io_result A) :=
  let! e := unwrap (Errno.try_from_i32 (- error)) "called `Result::unwrap()` on an `Err` value" in ret (Err e).

Definition lookup_entry (path : list Z) : M client (io_result (Rsp Lookup)) :=
  let! cmd := Lookup_create path in
  let! r := must_send cmd in
  ret (match r with Ok rsp => Ok rsp | Err e => Err (errno_from e) end).

(** [None] when [fuel] links were followed and there is another one. *)
Fixpoint traverse_stat (fuel : nat) (self : VirtioFsDirectory) (path : string)
    : M client (option (io_result FileAttr)) :=
  match fuel with
  | O => ret None
  | Datatypes.S fuel =>
      let! path := traversal_path self path in
      let! r := lookup_entry path in
      match r with
      | Err e => ret (Some (Err e))
      | Ok rsp =>
          if negb (out_error rsp =? 0) then let! r := errno_of_reply (out_error rsp) in ret (Some r)
          else
            let attr := entry_attr (rsp_header rsp) in
            if negb (Z.land (fa_mode attr) S_IFMT =? S_IFLNK)
            then let! a := FileAttr_from attr in ret (Some (Ok a))
            else
              let! r := readlink (nodeid (rsp_header rsp)) in
              match r with
              | Err e => ret (Some (Err e))
              | Ok path => traverse_stat fuel self path
              end
      end
  end.

Definition traverse_lstat (self : VirtioFsDirectory) (path : string) : M client (io_result FileAttr) :=
  let! path := traversal_path self path in
  try! rsp := lookup_entry path in
  let! a := FileAttr_from (entry_attr (rsp_header rsp)) in ret (Ok a).

(** [path.remove(0)] *)
Definition remove_first (s : string) : M client string :=
  match s with String _ s => ret s | EmptyString => panic "cannot remove a char from the end of a string" end.

Definition traverse_open (self : VirtioFsDirectory) (path : string) (opt mode : Z) : M client (io_result Z) :=
  let! path := traversal_path self path in
  if contains opt O_DIRECTORY then
    if contains opt O_CREAT then ret (Err Errno.Inval)
    else
      try! rsp := lookup_entry path in
      let! attr := FileAttr_from (entry_attr (rsp_header rsp)) in
      if negb (contains (st_mode attr) S_IFDIR) then ret (Err Errno.Notdir)
      else
        let! p := unwrap (to_str path) "called `Result::unwrap()` on an `Err` value" in
        let! p := remove_first p in
        let! o := new_obj (VirtioFsDirectoryHandle p 0) in ret (Ok o)
  else if contains opt O_CREAT then
    let! flags := to_u32 opt in
    let! cmd := Create_create path flags mode in
    try! rsp := try_send cmd in
    let inner := rsp_header rsp in
    let! o := new_obj (VirtioFsFileHandle (mkInner (Some (nodeid (entry inner))) (Some (fh (open inner))) 0)) in
    ret (Ok o)
  else
    let! r := lookup path in
    try! nid := ok_or r Errno.Noent in
    let! flags := to_u32 opt in
    let! cmd := Open_create nid flags in
    try! rsp := try_send cmd in
    let! o := new_obj (VirtioFsFileHandle (mkInner (Some nid) (Some (fh (rsp_header rsp))) 0)) in
    ret (Ok o).

Definition traverse_unlink (self : VirtioFsDirectory) (path : string) : M client (io_result unit) :=
  let! path := traversal_path self path in
  let! cmd := Unlink_create path in
  try! _r := try_send cmd in ret (Ok tt).
Definition traverse_rmdir (self : VirtioFsDirectory) (path : string) : M client (io_result unit) :=
  let! path := traversal_path self path in
  let! cmd := Rmdir_create path in
  try! _r := try_send cmd in ret (Ok tt).
Definition traverse_mkdir (self : VirtioFsDirectory) (path : string) (mode : Z) : M client (io_result unit) :=
  let! path := traversal_path self path in
  let! cmd := Mkdir_create path mode in
  try! rsp := try_send cmd in
  if negb (out_error rsp =? 0) then errno_of_reply (out_error rsp) else ret (Ok tt).

(** ** Set-up *)

(** [starts_with('/')] *)
Definition starts_with_slash (s : string) : bool :=
  match s with String c _ => Ascii.eqb c "/"%char | EmptyString => false end.

(** [fs::FILESYSTEM.mount(path, node)] *)
Variable mount : string -> VirtioFsDirectory -> M client (io_result unit).
Variable now_micros : Z.
Definition expect_mount (path prefix : string) : M client unit :=
  let! r := mount path (VirtioFsDirectory_new now_micros prefix) in
  match r with Ok _ => ret tt | Err _ => panic "Mount failed. Invalid mount_point?" end.

(** A request of the set-up: the driver and the answer must be there. *)
Definition init_send {O} (p : Cmd O * Z) : M client (Rsp O) := let! r := must_send p in expect_ok r.

Definition predefined : list string := ["."; ".."; "tmp"; "proc"].

Definition mount_entry (e : string) : M client unit :=
  let! name := cstring e in
  let! cmd := Lookup_create name in
  let! rsp := init_send cmd in
  let! attr := FileAttr_from (entry_attr (rsp_header rsp)) in
  if contains (st_mode attr) S_IFDIR
  then let path := String.append "/" e in expect_mount path path
  else ret tt.

Fixpoint mount_entries (l : list string) : M client unit :=
  match l with
  | [] => ret tt
  | e :: l => do! mount_entry e in mount_entries l
  end.

Definition root_entries : M client (list string) :=
  let! name := cstring "/" in
  let! r := lookup name in
  let! nid := unwrap r "called `Option::unwrap()` on a `None` value" in
  let! cmd := opendir_cmd nid in
  let! rsp := init_send cmd in
  let fuse_fh := fh (rsp_header rsp) in
  let! cmd := readdir_cmd nid fuse_fh in
  let! rsp := init_send cmd in
  do! assert_ (size_dirent <? payload_len rsp MAX_READ_LEN) "virtio-fs no new dirs" in
  let! entries := readdir_loop (rounds rsp) rsp 0 [] in
  let! cmd := Release_create nid fuse_fh in
  do! init_send cmd in
  ret entries.

Definition init : M client unit :=
  let! c := get in
  if negb (has_driver (srv c)) then ret tt
  else
    let! cmd := Init_create in
    do! init_send cmd in
    let! c := get in
    let mount_point := get_mount_point (srv c) in
    if negb (String.eqb mount_point "/") then
      expect_mount (if starts_with_slash mount_point then mount_point else String.append "/" mount_point) "/"
    else
      let! entries := root_entries in
      mount_entries (base.filter (fun x => x ∉ predefined) entries).
End Client.

Arguments client S : clear implicits.
End VirtioFs.
