(* ===== verification/VirtioFsSpec.v ===== *)
(** What the virtio file system promises: an abstract file on the host shared
    by open handles, the laws of a host that serves one, and the refinement of
    the abstract file by the handles of [VirtioFs], over all hosts that follow
    the laws and may refuse any request. *)

From S2P Require Import Prelude Errors Time Files Directories UserMem Fuse VirtioFs.

Module VirtioFsSpec.
Import Flags Files UserMem Fuse VirtioFs.

(** ** The abstract file *)

Record content : Type := mkContent { csize : Z; cbyte : Z -> Z }.

Definition c_read (off n : Z) (c : content) : list Z := cbyte c <$> seqZ off (Z.max 0 (Z.min n (csize c - off))).
(** Bytes between the old end and the first written one are zero. *)
Definition c_write (off : Z) (buf : list Z) (c : content) : content :=
  match buf with
  | [] => c
  | _ => mkContent (Z.max (csize c) (off + len buf))
           (fun j => if (off <=? j) && (j <? off + len buf) then nth (Z.to_nat (j - off)) buf 0
                     else if j <? csize c then cbyte c j else 0)
  end.
Definition c_resize (n : Z) (c : content) : content :=
  mkContent n (fun j => if j <? csize c then cbyte c j else 0).

(** A handle of the host and a position for each object. *)
Record afs : Type := mkAfs { acontent : content; ahandles : gmap Z (Z * Z) }.
Definition move (o p : Z) (a : afs) : afs :=
  mkAfs (acontent a) (alter (fun h => (h.1, p)) o (ahandles a)).
Definition set_content (c : content) (a : afs) : afs := mkAfs c (ahandles a).

Inductive op : Type :=
  | Open (opt mode : Z)
  | Read (o n : Z)
  | Write (o : Z) (bytes : list Z)
  | Seek (o off : Z) (whence : SeekWhence)
  | Truncate (o n : Z)
  | Chmod (o m : Z)
  | Stat (o : Z)
  | Close (o : Z).

Inductive answer : Type :=
  | AHandle (r : io_result Z)
  | ABytes (r : io_result (list Z))
  | ACount (r : io_result Z)
  | AUnit (r : io_result unit)
  | AAttr (r : io_result FileAttr)
  | AClosed
  | ANoHandle.

Definition object (x : op) : option Z :=
  match x with
  | Open _ _ => None
  | Read o _ | Write o _ | Seek o _ _ | Truncate o _ | Chmod o _ | Stat o | Close o => Some o
  end.
(** The answer of a request the host refused. *)
Definition refused (x : op) (e : Errno.t) : option answer :=
  match x with
  | Open _ _ => Some (AHandle (Err e))
  | Read _ _ => Some (ABytes (Err e))
  | Write _ _ | Seek _ _ (End_ | Data | Hole) => Some (ACount (Err e))
  | Truncate _ _ | Chmod _ _ => Some (AUnit (Err e))
  | Stat _ => Some (AAttr (Err e))
  | Seek _ _ (Set_ | Cur) | Close _ => None
  end.

Definition asked (n : Z) : Z := Z.min n MAX_READ_LEN.

(** One operation: a host may refuse it, and may write less than it got. *)
Inductive fstep (a : afs) : op -> answer -> afs -> Prop :=
  | fs_no_handle x o : object x = Some o -> ahandles a !! o = None -> fstep a x ANoHandle a
  | fs_refused x e r : refused x e = Some r -> fstep a x r a
  | fs_open opt mode o fh :
      ahandles a !! o = None -> (forall o' p, ahandles a !! o' <> Some (fh, p)) ->
      fstep a (Open opt mode) (AHandle (Ok o)) (mkAfs (acontent a) (<[o := (fh, 0)]> (ahandles a)))
  | fs_read o n fh p :
      ahandles a !! o = Some (fh, p) -> let b := c_read p (asked n) (acontent a) in
      fstep a (Read o n) (ABytes (Ok b)) (move o (p + len b) a)
  | fs_write o buf fh p k :
      ahandles a !! o = Some (fh, p) -> 0 <= k <= Z.min (len buf) MAX_WRITE_LEN ->
      fstep a (Write o buf) (ACount (Ok k))
        (move o (p + k) (set_content (c_write p (take (Z.to_nat k) buf) (acontent a)) a))
  | fs_seek_set o off fh p :
      ahandles a !! o = Some (fh, p) -> 0 <= off ->
      fstep a (Seek o off Set_) (ACount (Ok off)) (move o off a)
  | fs_seek_cur o off fh p :
      ahandles a !! o = Some (fh, p) -> 0 <= p + off <= isize_max ->
      fstep a (Seek o off Cur) (ACount (Ok (p + off))) (move o (p + off) a)
  | fs_seek_outside o off fh p whence :
      ahandles a !! o = Some (fh, p) ->
      (whence = Set_ /\ off < 0 \/ whence = Cur /\ ~ 0 <= p + off <= isize_max) ->
      fstep a (Seek o off whence) (ACount (Err Errno.Inval)) a
  | fs_seek_end o off fh p :
      ahandles a !! o = Some (fh, p) -> 0 <= csize (acontent a) + off <= isize_max ->
      fstep a (Seek o off End_) (ACount (Ok (csize (acontent a) + off))) (move o (csize (acontent a) + off) a)
  | fs_seek_data o off fh p whence q :
      ahandles a !! o = Some (fh, p) -> whence = Data \/ whence = Hole -> off <= q <= csize (acontent a) ->
      fstep a (Seek o off whence) (ACount (Ok q)) (move o q a)
  | fs_truncate o n fh p :
      ahandles a !! o = Some (fh, p) ->
      fstep a (Truncate o n) (AUnit (Ok tt)) (set_content (c_resize n (acontent a)) a)
  | fs_chmod o m fh p : ahandles a !! o = Some (fh, p) -> fstep a (Chmod o m) (AUnit (Ok tt)) a
  | fs_stat o fh p attr :
      ahandles a !! o = Some (fh, p) -> st_size attr = csize (acontent a) -> fstep a (Stat o) (AAttr (Ok attr)) a
  | fs_close o fh p :
      ahandles a !! o = Some (fh, p) -> fstep a (Close o) AClosed (mkAfs (acontent a) (base.delete o (ahandles a))).

Inductive fsteps (a : afs) : list op -> list answer -> afs -> Prop :=
  | fsteps_nil : fsteps a [] [] a
  | fsteps_cons x r a1 xs rs a2 : fstep a x r a1 -> fsteps a1 xs rs a2 -> fsteps a (x :: xs) (r :: rs) a2.

(** Arguments as the calls have them; options without creation or truncation.
    An empty buffer never reaches [read]. *)
Definition op_ok (x : op) : Prop :=
  match x with
  | Open opt _ => 0 <= opt <= u32_max /\ contains opt O_CREAT = false /\ contains opt O_DIRECTORY = false /\
                  contains opt O_TRUNC = false
  | Read _ n => 0 < n
  | Seek _ off _ => isize_min <= off <= isize_max
  | Truncate _ n => 0 <= n <= isize_max
  | _ => True
  end.

(** ** The laws of a host *)

(** Facts of the structures of the protocol. *)
Class FuseAbiLaws `{FuseAbi} : Prop := {
  abi_in O : 0 <= size_in_header + size_in_struct O <= 65536;
  abi_out : 0 <= size_out_header <= size_dirent;
  abi_dirent : 0 < size_dirent <= 4096 /\ size_dirent mod 8 = 0;
  abi_size : Z.land FATTR_SIZE (Z.lnot FATTR_LOCKOWNER) = FATTR_SIZE;
  abi_mode : Z.land FATTR_MODE (Z.lnot FATTR_LOCKOWNER) = FATTR_MODE;
  abi_distinct : FATTR_MODE <> FATTR_SIZE;
}.

Section Laws.
Context {S : Type} `{FuseAbi} `{FsDriver S}.

Definition asks {O} (cmd : Cmd O) (x : fuse_opcode) (nid : Z) (h : InStruct O) (p : option (list Z)) : Prop :=
  opcode (in_header (headers cmd)) = x /\ in_nodeid (in_header (headers cmd)) = nid /\
  op_header (headers cmd) = h /\ payload cmd = p.
(** A request is answered, with no error, or refused. *)
Definition answers {O} (cmd : Cmd O) (n : Z) (s : S) (P : Rsp O -> S -> Prop) (refused : S -> Prop) : Prop :=
  exists r s', send_command O cmd n s = Done r s' /\
    match r with Ok rsp => out_error rsp = 0 /\ P rsp s' | Err _ => refused s' end.
End Laws.

(** [serves s nid F c]: the host in state [s] has the file of node [nid] and
    content [c], open under the handles [F].  The requests are those of the
    FUSE protocol, the file is found under the name [path]. *)
Class FileHost (S : Type) `{FuseAbi} `{FsDriver S} (path : list Z) (serves : S -> Z -> gset Z -> content -> Prop) : Prop := {
  host_present s nid F c : serves s nid F c -> has_driver s = true /\ 0 <= csize c <= isize_max;
  host_lookup s nid F c (cmd : Cmd Fuse.Lookup) :
    serves s nid F c -> asks cmd FUSE_LOOKUP FUSE_ROOT_ID tt (Some (path ++ [0])) ->
    answers cmd 0 s (fun rsp s' => nodeid (rsp_header rsp) = nid /\ serves s' nid F c) (fun s' => serves s' nid F c);
  host_open s nid F c (cmd : Cmd Fuse.Open) flags :
    serves s nid F c -> asks cmd FUSE_OPEN nid (mkOpenIn flags) None -> contains flags O_TRUNC = false ->
    answers cmd 0 s (fun rsp s' => fh (rsp_header rsp) ∉ F /\ serves s' nid ({[ fh (rsp_header rsp) ]} ∪ F) c)
      (fun s' => serves s' nid F c);
  host_read s nid F c (cmd : Cmd Fuse.Read) f off n :
    serves s nid F c -> f ∈ F -> 0 <= off <= isize_max -> 0 < n <= u32_max ->
    asks cmd FUSE_READ nid (mkReadIn f off n) None ->
    answers cmd n s
      (fun rsp s' => let b := c_read off n c in
         out_len rsp = size_out_header + len b /\ rsp_payload rsp = Some b /\ serves s' nid F c)
      (fun s' => serves s' nid F c);
  host_write s nid F c (cmd : Cmd Fuse.Write) f off buf :
    serves s nid F c -> f ∈ F -> 0 <= off <= isize_max -> len buf <= u32_max ->
    asks cmd FUSE_WRITE nid (mkWriteIn f off (len buf)) (Some buf) ->
    answers cmd 0 s
      (fun rsp s' => let k := wrote (rsp_header rsp) in 0 <= k <= len buf /\
         serves s' nid F (c_write off (take (Z.to_nat k) buf) c))
      (fun s' => serves s' nid F c);
  host_lseek s nid F c (cmd : Cmd Fuse.Lseek) f off whence :
    serves s nid F c -> f ∈ F -> isize_min <= off <= isize_max ->
    asks cmd FUSE_LSEEK nid (mkLseekIn f (wrapu 64 off) (whence_into_u8 whence)) None ->
    answers cmd 0 s
      (fun rsp s' => let q := lseek_offset (rsp_header rsp) in serves s' nid F c /\ 0 <= q <= isize_max /\
         match whence with
         | End_ => q = csize c + off
         | Data | Hole => off <= q <= csize c
         | Set_ | Cur => True
         end)
      (fun s' => serves s' nid F c);
  host_getattr s nid F c (cmd : Cmd Fuse.Getattr) f :
    serves s nid F c -> f ∈ F -> asks cmd FUSE_GETATTR nid (mkGetattrIn FUSE_GETATTR_FH f) None ->
    answers cmd 0 s
      (fun rsp s' => let x := attr_out (rsp_header rsp) in
         fa_size x = csize c /\ fa_blocks x <= i64_max /\ serves s' nid F c)
      (fun s' => serves s' nid F c);
  host_setattr s nid F c (cmd : Cmd Fuse.Setattr) f x :
    serves s nid F c -> f ∈ F -> asks cmd FUSE_SETATTR nid x None -> s_fh x = f ->
    valid x = FATTR_SIZE /\ 0 <= s_size x <= isize_max \/ valid x = FATTR_MODE ->
    answers cmd 0 s
      (fun rsp s' =>
         let c' := if valid x =? FATTR_SIZE then c_resize (s_size x) c else c in
         let y := attr_out (rsp_header rsp) in
         fa_size y = csize c' /\ fa_blocks y <= i64_max /\ serves s' nid F c')
      (fun s' => serves s' nid F c);
  host_release s nid F c (cmd : Cmd Fuse.Release) f :
    serves s nid F c -> f ∈ F -> asks cmd FUSE_RELEASE nid (mkReleaseIn f) None ->
    answers cmd 0 s (fun _ s' => serves s' nid (F ∖ {[ f ]}) c) (fun _ => True);
}.

(** ** The refinement *)

Section Refinement.
Context {S : Type} `{FuseAbi} `{FsDriver S} (path : list Z) (serves : S -> Z -> gset Z -> content -> Prop).
Context {A : FuseAbiLaws} {L : FileHost S path serves}.
Context (self : VirtioFsDirectory) (name : string).
(** [name] below [self] is the path of the file. *)
Hypothesis Hpath : forall c : client S, traversal_path self name c = Done path c.
Hypothesis Hpath_len : len path <= 65536.

Definition is_handle (o : Z) : M (client S) bool :=
  gets (fun c => match objs c !! o with Some (VirtioFsFileHandle _) => true | _ => false end).

Definition perform (x : op) : M (client S) answer :=
  let! b := (match object x with Some o => is_handle o | None => ret true end) in
  if negb b then ret ANoHandle
  else
    match x with
    | Open opt mode => let! r := traverse_open self name opt mode in ret (AHandle r)
    | Read o n => let! r := read o n in ret (ABytes r)
    | Write o buf => let! r := write o buf in ret (ACount r)
    | Seek o off whence => let! r := lseek o off whence in ret (ACount r)
    | Truncate o n => let! r := truncate o n in ret (AUnit r)
    | Chmod o m => let! r := chmod o m in ret (AUnit r)
    | Stat o => let! r := fstat o in ret (AAttr r)
    | Close o => do! drop_file o in ret AClosed
    end.

Fixpoint performs (xs : list op) : M (client S) (list answer) :=
  match xs with
  | [] => ret []
  | x :: xs => let! r := perform x in let! rs := performs xs in ret (r :: rs)
  end.

(** The objects that are file handles are the handles of the abstract file. *)
Record repr_with (nid : Z) (F : gset Z) (c : client S) (a : afs) : Prop := {
  r_serves : serves (srv c) nid F (acontent a);
  r_handle o f p : ahandles a !! o = Some (f, p) ->
    objs c !! o = Some (VirtioFsFileHandle (mkInner (Some nid) (Some f) p)) /\ f ∈ F /\ 0 <= p <= isize_max;
  r_object o h : objs c !! o = Some (VirtioFsFileHandle h) -> is_Some (ahandles a !! o);
  r_inj o o' f p p' : ahandles a !! o = Some (f, p) -> ahandles a !! o' = Some (f, p') -> o = o';
  r_next o : is_Some (ahandles a !! o) -> o < next c;
  r_open f : f ∈ F -> exists o p, ahandles a !! o = Some (f, p);
}.
Definition repr (c : client S) (a : afs) : Prop := exists nid F, repr_with nid F c a.

(** Only the state of the host changed. *)
Lemma repr_srv nid F c a s' : repr_with nid F c a -> serves s' nid F (acontent a) -> repr (set_srv s' c) a.
Proof. intros [? ? ? ? ? ?] Hs. by exists nid, F. Qed.

(** The host changed to [d] and the handle [o] moved to [p]. *)
Lemma repr_move nid F c a o f q s' d p :
  repr_with nid F c a -> serves s' nid F d -> ahandles a !! o = Some (f, q) -> 0 <= p <= isize_max ->
  repr (VirtioFs.set_obj o (VirtioFsFileHandle (mkInner (Some nid) (Some f) p)) (set_srv s' c))
       (move o p (set_content d a)).
Proof.
  intros [Hs Hh Ho Hi Hn Hf] Hs' Ha Hp. exists nid, F. split; cbn.
  - done.
  - intros o' f' p'. destruct (decide (o = o')) as [<-|Hne].
    + rewrite lookup_alter_eq, Ha, lookup_insert_eq. cbn. intros [= <- <-]. by destruct (Hh _ _ _ Ha) as (_ & ? & _).
    + rewrite lookup_alter_ne, lookup_insert_ne by done. apply Hh.
  - intros o' h. destruct (decide (o = o')) as [<-|Hne].
    + rewrite lookup_alter_eq, Ha. by eexists.
    + rewrite lookup_alter_ne, lookup_insert_ne by done. apply Ho.
  - intros o1 o2 f' p1 p2 H1 H2.
    assert (forall o' p', alter (fun h : Z * Z => (h.1, p)) o (ahandles a) !! o' = Some (f', p') ->
      exists p'', ahandles a !! o' = Some (f', p'')) as Hback.
    { intros o' p'. destruct (decide (o = o')) as [<-|Hne].
      - rewrite lookup_alter_eq, Ha. cbn. intros [= -> <-]. by eexists.
      - rewrite lookup_alter_ne by done. intros ?. by eexists. }
    destruct (Hback _ _ H1) as [? ?], (Hback _ _ H2) as [? ?]. by eapply Hi.
  - intros o'. destruct (decide (o = o')) as [<-|Hne].
    + intros _. by apply Hn; eexists.
    + rewrite lookup_alter_ne by done. apply Hn.
  - intros f' Hf'. destruct (Hf f' Hf') as (o' & p' & H1). destruct (decide (o = o')) as [<-|Hne].
    + exists o, p. rewrite lookup_alter_eq, H1. done.
    + exists o', p'. by rewrite lookup_alter_ne.
Qed.

Lemma repr_moved nid F c a o f q s' p :
  repr_with nid F c a -> serves s' nid F (acontent a) -> ahandles a !! o = Some (f, q) -> 0 <= p <= isize_max ->
  repr (VirtioFs.set_obj o (VirtioFsFileHandle (mkInner (Some nid) (Some f) p)) (set_srv s' c)) (move o p a).
Proof. intros R Hs Ha Hp. pose proof (repr_move nid F c a o f q s' _ p R Hs Ha Hp). by destruct a. Qed.

Lemma get_file_run c a nid F o f p :
  repr_with nid F c a -> ahandles a !! o = Some (f, p) -> get_file o c = Done (mkInner (Some nid) (Some f) p) c.
Proof. intros R Ha. unfold get_file, bind, get. by destruct (r_handle _ _ _ _ R _ _ _ Ha) as (-> & _). Qed.

(** A request of a few bytes is built. *)
Lemma cmd_new_run {T} O nid (h : InStruct O) (s : T) :
  exists cmd, Cmd_new O nid h s = Done cmd s /\ asks cmd (OP_CODE O) nid h None.
Proof.
  unfold Cmd_new, with_payload_size, bind. pose proof (abi_in O) as Hb.
  rewrite (proj2 (Z.leb_le _ u32_max)) by (unfold u32_max; lia). cbn. by eexists.
Qed.
Lemma cmd_cstring_run {T} O nid (h : InStruct O) (b : list Z) (s : T) :
  len b <= 65536 -> exists cmd, with_cstring O nid h b s = Done cmd s /\ asks cmd (OP_CODE O) nid h (Some (b ++ [0])).
Proof.
  intros Hl. unfold with_cstring, with_payload_size, bind. pose proof (abi_in O) as Hb. unfold len in Hl.
  rewrite (proj2 (Z.leb_le _ u32_max)) by (rewrite length_app; unfold u32_max; cbn; lia). cbn. by eexists.
Qed.
Lemma cmd_slice_run {T} O nid (h : InStruct O) (b : list Z) (s : T) :
  len b <= 65536 -> exists cmd, with_boxed_slice O nid h b s = Done cmd s /\ asks cmd (OP_CODE O) nid h (Some b).
Proof.
  intros Hl. unfold with_boxed_slice, with_payload_size, bind. pose proof (abi_in O) as Hb. unfold len in Hl.
  rewrite (proj2 (Z.leb_le _ u32_max)) by (unfold u32_max; lia). cbn. by eexists.
Qed.

(** A request sent to a host that is there. *)
Lemma try_send_run {O} (cmd : Cmd O) n c P Q :
  has_driver (srv c) = true -> answers cmd n (srv c) P Q ->
  exists r s', try_send (cmd, n) c = Done r (set_srv s' c) /\
    match r with Ok rsp => out_error rsp = 0 /\ P rsp s' | Err _ => Q s' end.
Proof.
  intros Hd (r & s' & E & Hr). unfold try_send, bind, get. rewrite Hd. unfold on_srv, zoom. cbn. rewrite E. cbn.
  destruct r as [rsp|e]; by eexists _, s'.
Qed.
Lemma must_send_run {O} (cmd : Cmd O) n c r s' :
  has_driver (srv c) = true -> send_command O cmd n (srv c) = Done r s' ->
  must_send (cmd, n) c = Done r (set_srv s' c).
Proof. intros Hd E. unfold must_send, bind, get, assert_. rewrite Hd. unfold on_srv, zoom. cbn. by rewrite E. Qed.

Lemma try_run {T B D} (m : M T (io_result B)) (k : B -> M T (io_result D)) s r s' :
  m s = Done r s' -> try_ m k s = match r with Ok b => k b s' | Err e => Done (Err e) s' end.
Proof. unfold try_, bind. intros ->. by destruct r. Qed.

Definition refines (x : op) (c : client S) (a : afs) : Prop :=
  exists r c' a', perform x c = Done r c' /\ fstep a x r a' /\ repr c' a'.

Lemma is_handle_run c a o : repr c a -> is_handle o c = Done (bool_decide (is_Some (ahandles a !! o))) c.
Proof.
  intros (nid & F & R). unfold is_handle, gets. f_equal. case_bool_decide as Hd.
  - destruct Hd as [[f p] Hd]. by destruct (r_handle _ _ _ _ R _ _ _ Hd) as (-> & _).
  - destruct (objs c !! o) as [[h|]|] eqn:Ho; try done. destruct Hd. by apply (r_object _ _ _ _ R o h).
Qed.

Lemma host_there c a nid F : repr_with nid F c a -> has_driver (srv c) = true /\ 0 <= csize (acontent a) <= isize_max.
Proof. intros R. apply (host_present _ _ _ _ (r_serves _ _ _ _ R)). Qed.

(** The next step is computed. *)
Ltac step := first [erewrite try_run by reflexivity | erewrite bind_run by reflexivity]; cbv beta iota.
(** Open a handle of the abstract file. *)
Ltac on_handle R Ha :=
  destruct (host_there _ _ _ _ R) as [Hdrv Hsize];
  destruct (r_handle _ _ _ _ R _ _ _ Ha) as (Hobj & HF & Hpos);
  erewrite bind_run by (by eapply get_file_run); cbn [fuse_nid fuse_fh offset]; repeat step.
(** A request that was refused. *)
Ltac refused_by R := eexists _, _, _; split; [reflexivity|split; [by eapply fs_refused|by apply (repr_srv _ _ _ _ _ R)]].

Lemma c_read_len off n c : len (c_read off n c) = Z.max 0 (Z.min n (csize c - off)).
Proof. unfold c_read, len. rewrite length_fmap, length_seqZ. lia. Qed.

Lemma slice_all {T} (l : list Z) (s : T) : slice l 0 (len l) s = Done l s.
Proof.
  unfold slice, len. rewrite (proj2 (Z.leb_le 0 _)), (proj2 (Z.leb_le (Z.of_nat (length l)) _)) by lia. cbn.
  unfold ret. by rewrite Z.sub_0_r, drop_0, Nat2Z.id, firstn_all.
Qed.

Lemma read_spec c a o f p n nid F :
  repr_with nid F c a -> ahandles a !! o = Some (f, p) -> 0 < n ->
  exists r c' a', read o n c = Done r c' /\ fstep a (Read o n) (ABytes r) a' /\ repr c' a'.
Proof.
  intros R Ha Hn. unfold read. set (l := if MAX_READ_LEN <? n then MAX_READ_LEN else n).
  assert (Hl : l = asked n /\ 0 < l <= 65536) by (unfold l, asked, MAX_READ_LEN; destruct (Z.ltb_spec 65536 n); lia).
  destruct Hl as [El Hl]. on_handle R Ha.
  erewrite bind_run by (unfold to_u32; rewrite (proj2 (Z.leb_le 0 l)), (proj2 (Z.leb_le l u32_max)) by (unfold u32_max; lia); reflexivity).
  destruct (cmd_new_run Fuse.Read nid (mkReadIn f p l) c) as (cmd & Ec & Hc). unfold Read_create.
  erewrite bind_run by (erewrite bind_run by exact Ec; reflexivity).
  destruct (try_send_run cmd l c _ _ Hdrv (host_read _ _ _ _ cmd f p l (r_serves _ _ _ _ R) HF Hpos ltac:(unfold u32_max; lia) Hc))
    as (r & s' & Es & Hr). rewrite (try_run _ _ _ _ _ Es). destruct r as [rsp|e]; [|refused_by R].
  destruct Hr as (_ & Hout & Hpl & Hs'). set (b := c_read p l (acontent a)) in *.
  pose proof (c_read_len p l (acontent a)) as Hlb. fold b in Hlb.
  assert (Epl : payload_len rsp l = len b).
  { unfold payload_len. rewrite Hout. replace (size_out_header + len b - size_out_header) with (len b) by lia.
    rewrite wrapu_small by (cbn; lia). destruct (Z.leb_spec l (len b)); lia. }
  rewrite Epl. step. unfold payload_prefix. rewrite Hpl. erewrite bind_run by (step; apply slice_all).
  rewrite wrapu_small by (unfold isize_max, i64_max in *; lia).
  eexists _, _, _. split; [reflexivity|]. split.
  - unfold b. rewrite El. by apply (fs_read a o n f p).
  - rewrite <- El. fold b. apply (repr_moved nid F c a o f p s'); [done..|]. lia.
Qed.

Lemma write_spec c a o f p buf nid F :
  repr_with nid F c a -> ahandles a !! o = Some (f, p) ->
  exists r c' a', write o buf c = Done r c' /\ fstep a (Write o buf) (ACount r) a' /\ repr c' a'.
Proof.
  intros R Ha. unfold write. set (l := if MAX_WRITE_LEN <? len buf then MAX_WRITE_LEN else len buf).
  assert (Hl : l = Z.min (len buf) MAX_WRITE_LEN /\ 0 <= l <= 65536)
    by (unfold l, MAX_WRITE_LEN; destruct (Z.ltb_spec 65536 (len buf)); unfold len in *; lia).
  destruct Hl as [El Hl]. on_handle R Ha. set (b := take (Z.to_nat l) buf).
  assert (Hb : len b = l) by (unfold b, len in *; rewrite length_take; lia).
  unfold Write_create. destruct (cmd_slice_run Fuse.Write nid (mkWriteIn f p (len b)) b c ltac:(lia)) as (cmd & Ec & Hc).
  erewrite bind_run by (erewrite bind_run by (unfold to_u32; fold (len b);
    rewrite (proj2 (Z.leb_le 0 _)), (proj2 (Z.leb_le (len b) u32_max)) by (unfold u32_max; lia); reflexivity);
    erewrite bind_run by exact Ec; reflexivity).
  destruct (try_send_run cmd 0 c _ _ Hdrv (host_write _ _ _ _ cmd f p b (r_serves _ _ _ _ R) HF Hpos ltac:(unfold u32_max; lia) Hc))
    as (r & s' & Es & Hr). rewrite (try_run _ _ _ _ _ Es). destruct r as [rsp|e]; [|refused_by R].
  destruct Hr as (-> & Hk & Hs'). set (k := wrote (rsp_header rsp)) in *. cbn [Z.ltb Z.compare].
  change (0 <? 0) with false. cbv iota. rewrite (proj2 (Z.ltb_ge l k)) by lia. step.
  replace (take (Z.to_nat k) b) with (take (Z.to_nat k) buf) in Hs' by (unfold b; rewrite take_take; f_equal; lia).
  pose proof (proj2 (host_present _ _ _ _ Hs')) as Hsz.
  assert (Hkl : k <= len buf) by lia.
  assert (Hk' : p + k <= isize_max).
  { destruct (decide (k = 0)) as [->|Hk0]; [lia|]. unfold c_write in Hsz.
    destruct (take (Z.to_nat k) buf) as [|x t] eqn:Et; [|cbn [csize] in Hsz].
    - apply (f_equal length) in Et. rewrite length_take in Et. cbn in Et. unfold len in Hkl. lia.
    - rewrite <- Et in Hsz. unfold len in Hsz, Hkl. rewrite length_take in Hsz. lia. }
  rewrite wrapu_small by (unfold isize_max, i64_max in *; cbn; lia).
  eexists _, _, _. split; [reflexivity|]. split.
  - apply (fs_write a o buf f p k); [done|]. lia.
  - apply (repr_move nid F c a o f p s'); [done..|]. lia.
Qed.

Lemma seek_host_spec c a o f p off whence nid F :
  repr_with nid F c a -> ahandles a !! o = Some (f, p) -> isize_min <= off <= isize_max ->
  whence = End_ \/ whence = Data \/ whence = Hole ->
  exists r c' a', lseek o off whence c = Done r c' /\ fstep a (Seek o off whence) (ACount r) a' /\ repr c' a'.
Proof.
  intros R Ha Hoff Hw. unfold lseek. on_handle R Ha.
  destruct (cmd_new_run Fuse.Lseek nid (mkLseekIn f (wrapu 64 off) (whence_into_u8 whence)) c) as (cmd & Ec & Hc).
  destruct (try_send_run cmd 0 c _ _ Hdrv (host_lseek _ _ _ _ cmd f off whence (r_serves _ _ _ _ R) HF Hoff Hc))
    as (r & s' & Es & Hr).
  assert (E : forall k : Rsp Fuse.Lseek -> M (client S) (io_result Z),
    (let! cmd := Lseek_create nid f off whence in try_ (try_send cmd) k) c =
    match r with Ok rsp => k rsp (set_srv s' c) | Err e => Done (Err e) (set_srv s' c) end).
  { intros k. unfold Lseek_create. erewrite bind_run by (erewrite bind_run by exact Ec; reflexivity).
    by rewrite (try_run _ _ _ _ _ Es). }
  assert (forall e s', serves s' nid F (acontent a) -> exists r c' a', Done (Err e) (set_srv s' c) = Done r c' /\
    fstep a (Seek o off whence) (ACount r) a' /\ repr c' a') as Href.
  { intros e s0 Hs0. eexists _, _, _. split; [reflexivity|]. split; [|by eapply repr_srv].
    apply (fs_refused _ _ e). by destruct Hw as [->|[->| ->]]. }
  assert (forall rsp, r = Ok rsp -> let q := lseek_offset (rsp_header rsp) in
    fstep a (Seek o off whence) (ACount (Ok q)) (move o q a) /\ out_error rsp = 0 /\ 0 <= q <= isize_max /\
    serves s' nid F (acontent a)) as Hok.
  { intros rsp ->. destruct Hr as (He & Hs' & Hq & Hw'). split; [|by auto].
    destruct Hw as [->|[->| ->]]; [rewrite Hw' in *; by apply (fs_seek_end a o off f p)| |];
      apply (fs_seek_data a o off f p); auto. }
  destruct Hw as [->|[->| ->]]; repeat step; rewrite E; (destruct r as [rsp|e]; [|by apply Href]);
    destruct (Hok rsp eq_refl) as (St & -> & Hq & Hs'); change (0 <? 0) with false; cbv iota; step;
    (erewrite bind_run by (rewrite (proj2 (Z.leb_le _ isize_max)) by lia; reflexivity));
    eexists _, _, _; (split; [reflexivity|]); (split; [exact St|]); by apply (repr_moved nid F c a o f p s').
Qed.

Lemma seek_spec c a o f p off whence nid F :
  repr_with nid F c a -> ahandles a !! o = Some (f, p) -> isize_min <= off <= isize_max ->
  exists r c' a', lseek o off whence c = Done r c' /\ fstep a (Seek o off whence) (ACount r) a' /\ repr c' a'.
Proof.
  intros R Ha Hoff. assert (Hsame : set_srv (srv c) c = c) by (by destruct c).
  assert (Hmove : forall q, 0 <= q <= isize_max ->
    repr (VirtioFs.set_obj o (VirtioFsFileHandle (mkInner (Some nid) (Some f) q)) c) (move o q a)).
  { intros q Hq. rewrite <- Hsame. by apply (repr_moved nid F c a o f p (srv c)); [|apply R|..]. }
  destruct whence; [| |by eapply seek_host_spec; auto..]; unfold lseek; on_handle R Ha.
  - destruct (Z.ltb_spec off 0); [|step]; eexists _, _, _; (split; [reflexivity|]); split.
    + apply (fs_seek_outside a o off f p); auto.
    + by exists nid, F.
    + by apply (fs_seek_set a o off f p).
    + apply Hmove. lia.
  - rewrite (wraps_small 64 p) by (unfold isize_max, i64_max in *; cbn; lia).
    assert (Hx : 0 <= p + off <= isize_max /\ wraps 64 (p + off) = p + off \/
                 ~ 0 <= p + off <= isize_max /\ wraps 64 (p + off) < 0).
    { unfold isize_max, isize_min, i64_max, i64_min, wraps in *. cbn in *.
      destruct (Z_le_gt_dec (p + off) 9223372036854775807).
      - rewrite Z.mod_small by lia. lia.
      - right. split; [lia|]. rewrite <- (Z_mod_plus_full _ (-1)), Z.mod_small by lia. lia. }
    destruct Hx as [[Hx ->]|[Hx Hneg]].
    + rewrite (proj2 (Z.ltb_ge _ 0)) by lia. step. eexists _, _, _. split; [reflexivity|]. split; [|by apply Hmove].
      by apply (fs_seek_cur a o off f p).
    + rewrite (proj2 (Z.ltb_lt _ 0)) by lia. eexists _, _, _. split; [reflexivity|].
      split; [|by exists nid, F]. apply (fs_seek_outside a o off f p); auto.
Qed.

Lemma FileAttr_from_run {T} (x : fuse_attr) (s : T) :
  fa_size x <= i64_max -> fa_blocks x <= i64_max -> exists y, FileAttr_from x s = Done y s /\ st_size y = fa_size x.
Proof.
  intros H1 H2. unfold FileAttr_from. rewrite (proj2 (Z.leb_le _ _) H1), (proj2 (Z.leb_le _ _) H2). cbn. by eexists.
Qed.

Lemma repr_content nid F c a s' d :
  repr_with nid F c a -> serves s' nid F d -> repr (set_srv s' c) (set_content d a).
Proof. intros [? ? ? ? ? ?] Hs. by exists nid, F. Qed.

Lemma stat_spec c a o f p nid F :
  repr_with nid F c a -> ahandles a !! o = Some (f, p) ->
  exists r c' a', fstat o c = Done r c' /\ fstep a (Stat o) (AAttr r) a' /\ repr c' a'.
Proof.
  intros R Ha. unfold fstat. on_handle R Ha.
  destruct (cmd_new_run Fuse.Getattr nid (mkGetattrIn FUSE_GETATTR_FH f) c) as (cmd & Ec & Hc). unfold Getattr_create.
  erewrite bind_run by (erewrite bind_run by exact Ec; reflexivity).
  destruct (try_send_run cmd 0 c _ _ Hdrv (host_getattr _ _ _ _ cmd f (r_serves _ _ _ _ R) HF Hc)) as (r & s' & Es & Hr).
  rewrite (try_run _ _ _ _ _ Es). destruct r as [rsp|e]; [|refused_by R].
  destruct Hr as (-> & Hsz & Hbl & Hs'). change (0 <? 0) with false. cbv iota.
  destruct (FileAttr_from_run (attr_out (rsp_header rsp)) (set_srv s' c)) as (y & Ey & Hy); [unfold isize_max in *; lia|done|].
  erewrite bind_run by exact Ey. eexists _, _, _. split; [reflexivity|]. split; [|by eapply repr_srv].
  apply (fs_stat a o f p); [done|]. by rewrite Hy.
Qed.

(** Changing attributes: [d] is the content behind the change. *)
Lemma set_attr_spec c a o f p attr v d nid F :
  repr_with nid F c a -> ahandles a !! o = Some (f, p) ->
  Z.land v (Z.lnot FATTR_LOCKOWNER) = v -> v = FATTR_SIZE /\ 0 <= st_size attr <= isize_max \/ v = FATTR_MODE ->
  d = (if v =? FATTR_SIZE then c_resize (st_size attr) (acontent a) else acontent a) ->
  exists r s', set_attr o attr v c = Done r (set_srv s' c) /\
    serves s' nid F (match r with Ok _ => d | Err _ => acontent a end).
Proof.
  intros R Ha Hv Hk ->. unfold set_attr. on_handle R Ha. unfold Setattr_create. rewrite Hv.
  match goal with |- context [Cmd_new Fuse.Setattr nid ?x] =>
    destruct (cmd_new_run Fuse.Setattr nid x c) as (cmd & Ec & Hc); set (h := x) in * end.
  erewrite bind_run by (erewrite bind_run by exact Ec; reflexivity).
  assert (Hh : valid h = FATTR_SIZE /\ 0 <= s_size h <= isize_max \/ valid h = FATTR_MODE).
  { destruct Hk as [[? ?]|?]; [left|right]; cbn; [|done]. split; [done|].
    rewrite wrapu_small by (unfold isize_max, i64_max in *; cbn; lia). lia. }
  destruct (try_send_run cmd 0 c _ _ Hdrv (host_setattr _ _ _ _ cmd f h (r_serves _ _ _ _ R) HF Hc eq_refl Hh)) as (r & s' & Es & Hr).
  rewrite (try_run _ _ _ _ _ Es). destruct r as [rsp|e]; [|by eexists _, _].
  destruct Hr as (-> & Hsz & Hbl & Hs'). change (0 <? 0) with false. cbv iota.
  pose proof (proj2 (host_present _ _ _ _ Hs')) as Hle. rewrite <- Hsz in Hle.
  destruct (FileAttr_from_run (attr_out (rsp_header rsp)) (set_srv s' c)) as (y & Ey & Hy); [unfold isize_max in *; lia|done|].
  erewrite bind_run by exact Ey. eexists _, s'. split; [reflexivity|].
  change (valid h) with v in Hs'. destruct (Z.eqb_spec v FATTR_SIZE) as [->|_]; [|done].
  replace (s_size h) with (st_size attr) in Hs'; [done|]. cbn.
  destruct Hk as [[_ Hk]|Hk]; [|by destruct (abi_distinct)]. rewrite wrapu_small; [done|].
  unfold isize_max, i64_max in *. cbn. lia.
Qed.

Lemma truncate_spec c a o f p n nid F :
  repr_with nid F c a -> ahandles a !! o = Some (f, p) -> 0 <= n <= isize_max ->
  exists r c' a', truncate o n c = Done r c' /\ fstep a (Truncate o n) (AUnit r) a' /\ repr c' a'.
Proof.
  intros R Ha Hn. unfold truncate. erewrite bind_run by (rewrite (proj2 (Z.leb_le n i64_max)) by (unfold isize_max in *; lia); reflexivity).
  destruct (set_attr_spec c a o f p (set_st_size n default_attr) FATTR_SIZE _ nid F R Ha abi_size (or_introl (conj eq_refl Hn)) eq_refl)
    as (r & s' & Es & Hs'). rewrite (try_run _ _ _ _ _ Es). rewrite Z.eqb_refl in Hs'.
  destruct r as [y|e]; [|refused_by R]. eexists _, _, _. split; [reflexivity|].
  split; [by apply (fs_truncate a o n f p)|by eapply repr_content].
Qed.

Lemma chmod_spec c a o f p m nid F :
  repr_with nid F c a -> ahandles a !! o = Some (f, p) ->
  exists r c' a', chmod o m c = Done r c' /\ fstep a (Chmod o m) (AUnit r) a' /\ repr c' a'.
Proof.
  intros R Ha. unfold chmod.
  destruct (set_attr_spec c a o f p (set_st_mode m default_attr) FATTR_MODE _ nid F R Ha abi_mode (or_intror eq_refl) eq_refl)
    as (r & s' & Es & Hs'). rewrite (try_run _ _ _ _ _ Es). rewrite (proj2 (Z.eqb_neq _ _) abi_distinct) in Hs'.
  destruct r as [y|e]; [|refused_by R]. eexists _, _, _. split; [reflexivity|].
  split; [by apply (fs_chmod a o m f p)|by eapply repr_srv].
Qed.

(** The host refuses the request that releases the handle of object [o]. *)
Definition release_refused (o : Z) (c : client S) : Prop :=
  exists nid f p (cmd : Cmd Fuse.Release) e s', objs c !! o = Some (VirtioFsFileHandle (mkInner (Some nid) (Some f) p)) /\
    asks cmd FUSE_RELEASE nid (mkReleaseIn f) None /\ send_command Fuse.Release cmd 0 (srv c) = Done (Err e) s'.

Lemma close_spec c a o f p nid F :
  repr_with nid F c a -> ahandles a !! o = Some (f, p) ->
  (exists c' a', drop_file o c = Done tt c' /\ fstep a (Close o) AClosed a' /\ repr c' a') \/
  (release_refused o c /\ exists why, drop_file o c = Panic why).
Proof.
  intros R Ha. unfold drop_file. on_handle R Ha. unfold drop_handle. cbn [fuse_nid fuse_fh].
  set (c1 := mkClient (srv c) (base.delete o (objs c)) (next c) (KH c)).
  destruct (cmd_new_run Fuse.Release nid (mkReleaseIn f) c1) as (cmd & Ec & Hc). unfold Release_create.
  erewrite bind_run by (erewrite bind_run by exact Ec; reflexivity).
  destruct (host_release _ _ _ _ cmd f (r_serves _ _ _ _ R) HF Hc) as ([rsp|e] & s' & Es & Hs'); cycle 1.
  { right. split; [exists nid, f, p, cmd, e, s'; split; [apply (r_handle _ _ _ _ R _ _ _ Ha)|done]|]. eexists.
    erewrite bind_run by (by apply (must_send_run cmd 0 c1)). reflexivity. }
  left. destruct Hs' as [_ Hs'].
  erewrite bind_run by (by apply (must_send_run cmd 0 c1)). step.
  eexists _, _. split; [reflexivity|]. split; [by apply (fs_close a o f p)|].
  exists nid, (F ∖ {[ f ]}). destruct R as [Hs Hh Ho Hi Hn Hf]. split; cbn.
  - done.
  - intros o' f' p'. rewrite lookup_delete_Some. intros [Hne H1]. rewrite lookup_delete_ne by done.
    destruct (Hh _ _ _ H1) as (? & ? & ?). split; [done|]. split; [|done].
    apply elem_of_difference. split; [done|]. rewrite elem_of_singleton. intros ->. by destruct Hne; eapply Hi.
  - intros o' h. rewrite !lookup_delete_Some. intros [Hne H1]. rewrite lookup_delete_ne by done. by eapply Ho.
  - intros o1 o2 f' p1 p2. rewrite !lookup_delete_Some. intros [_ H1] [_ H2]. by eapply Hi.
  - intros o'. intros [x Hx]. rewrite lookup_delete_Some in Hx. destruct Hx. apply Hn. by eexists.
  - intros f'. rewrite elem_of_difference, elem_of_singleton. intros [H1 H2]. destruct (Hf f' H1) as (o' & p' & H3).
    exists o', p'. rewrite lookup_delete_ne; [done|]. intros <-. by rewrite Ha in H3; simplify_eq.
Qed.

(** The lookup of the path, seen through both of its uses. *)
Lemma lookup_run c a nid F :
  repr_with nid F c a -> exists r s', lookup path c = Done r (set_srv s' c) /\ serves s' nid F (acontent a) /\
    (r = None \/ r = Some nid).
Proof.
  intros R. destruct (host_there _ _ _ _ R) as [Hdrv _]. unfold lookup, Lookup_create.
  destruct (cmd_cstring_run Fuse.Lookup FUSE_ROOT_ID tt path c Hpath_len) as (cmd & Ec & Hc).
  erewrite bind_run by (erewrite bind_run by exact Ec; reflexivity).
  destruct (host_lookup _ _ _ _ cmd (r_serves _ _ _ _ R) Hc) as (r & s' & Es & Hr).
  erewrite bind_run by (by apply must_send_run). eexists _, s'. split; [reflexivity|].
  destruct r as [rsp|e]; [|by auto]. destruct Hr as (_ & <- & ?). auto.
Qed.

Lemma repr_opened nid F c a f s' :
  repr_with nid F c a -> serves s' nid ({[ f ]} ∪ F) (acontent a) -> f ∉ F ->
  ahandles a !! next c = None /\ (forall o p, ahandles a !! o <> Some (f, p)) /\
  repr (mkClient s' (<[next c := VirtioFsFileHandle (mkInner (Some nid) (Some f) 0)]> (objs c)) (next c + 1) (KH c))
       (mkAfs (acontent a) (<[next c := (f, 0)]> (ahandles a))).
Proof.
  intros [Hs Hh Ho Hi Hn Hall] Hs' Hf.
  assert (Hfresh : ahandles a !! next c = None).
  { destruct (ahandles a !! next c) eqn:E; [|done]. specialize (Hn (next c) ltac:(by rewrite E)). lia. }
  assert (Hnew : forall o p, ahandles a !! o <> Some (f, p)).
  { intros o p E. by destruct (Hh _ _ _ E) as (_ & ? & _). }
  split; [done|]. split; [done|]. exists nid, ({[ f ]} ∪ F). split; cbn.
  - done.
  - intros o f' p'. rewrite lookup_insert_Some. intros [[<- [= <- <-]]|[Hne H1]].
    + rewrite lookup_insert_eq. split; [done|]. split; [set_solver|unfold isize_max, i64_max; lia].
    + rewrite lookup_insert_ne by done. destruct (Hh _ _ _ H1) as (? & ? & ?). split; [done|]. split; [set_solver|done].
  - intros o h. rewrite !lookup_insert_Some. intros [[<- _]|[Hne H1]]; [by rewrite lookup_insert_eq|].
    rewrite lookup_insert_ne by done. by eapply Ho.
  - intros o1 o2 f' p1 p2. rewrite !lookup_insert_Some. intros [[<- Ea]|[? Ea]] [[<- Eb]|[? Eb]]; simplify_eq; try done.
    + by destruct (Hnew _ _ Eb).
    + by destruct (Hnew _ _ Ea).
    + by eapply Hi.
  - intros o. destruct (decide (o = next c)) as [->|]; [lia|]. rewrite lookup_insert_ne by done. intros Hin. specialize (Hn _ Hin). lia.
  - intros f'. rewrite elem_of_union, elem_of_singleton. intros [-> |Hin].
    + exists (next c), 0. by rewrite lookup_insert_eq.
    + destruct (Hall f' Hin) as (o & p & Hop). exists o, p. rewrite lookup_insert_ne; [done|]. intros <-. by rewrite Hfresh in Hop.
Qed.

Lemma open_spec c a opt mode :
  repr c a -> op_ok (Open opt mode) ->
  exists r c' a', traverse_open self name opt mode c = Done r c' /\ fstep a (Open opt mode) (AHandle r) a' /\ repr c' a'.
Proof.
  intros (nid & F & R) (Hopt & Hcr & Hdir & Htr). unfold traverse_open. rewrite (bind_run _ _ _ _ _ (Hpath c)).
  rewrite Hdir, Hcr. destruct (lookup_run c a nid F R) as (r & s1 & E1 & Hs1 & Hr). rewrite (bind_run _ _ _ _ _ E1).
  erewrite try_run by reflexivity. destruct Hr as [-> | ->]; [refused_by R|]. cbv iota beta.
  erewrite bind_run by (unfold to_u32; rewrite (proj2 (Z.leb_le 0 opt)), (proj2 (Z.leb_le opt u32_max)) by lia; reflexivity).
  unfold Open_create. destruct (cmd_new_run Fuse.Open nid (mkOpenIn opt) (set_srv s1 c)) as (cmd & Ec & Hc).
  erewrite bind_run by (erewrite bind_run by exact Ec; reflexivity).
  destruct (try_send_run cmd 0 (set_srv s1 c) _ _ (proj1 (host_present _ _ _ _ Hs1)) (host_open _ _ _ _ cmd opt Hs1 Hc Htr))
    as (r & s' & Es & Hr). rewrite (try_run _ _ _ _ _ Es). destruct r as [rsp|e]; [|refused_by R].
  destruct Hr as (_ & Hf & Hs'). step. destruct (repr_opened nid F c a _ s' R Hs' Hf) as (Hno & Hnew & Hrep).
  eexists _, _, _. split; [reflexivity|]. split; [by apply fs_open|exact Hrep].
Qed.

Lemma perform_refines x c a :
  repr c a -> op_ok x ->
  (exists r c' a', perform x c = Done r c' /\ fstep a x r a' /\ repr c' a') \/
  (exists o why, x = Close o /\ release_refused o c /\ perform x c = Panic why).
Proof.
  intros Hr Hok. destruct (object x) as [o|] eqn:Ho.
  - unfold perform. rewrite Ho, (bind_run _ _ _ _ _ (is_handle_run _ _ o Hr)). case_bool_decide as Hh; cbn [negb].
    + destruct Hh as [[f p] Ha], Hr as (nid & F & R).
      destruct x; cbn in Ho, Hok; simplify_eq; cbv beta iota.
      * destruct (read_spec c a o f p n nid F R Ha Hok) as (r & c' & a' & E & ? & ?). rewrite (bind_run _ _ _ _ _ E). left. by eexists _, _, _.
      * destruct (write_spec c a o f p bytes nid F R Ha) as (r & c' & a' & E & ? & ?). rewrite (bind_run _ _ _ _ _ E). left. by eexists _, _, _.
      * destruct (seek_spec c a o f p off whence nid F R Ha Hok) as (r & c' & a' & E & ? & ?). rewrite (bind_run _ _ _ _ _ E). left. by eexists _, _, _.
      * destruct (truncate_spec c a o f p n nid F R Ha Hok) as (r & c' & a' & E & ? & ?). rewrite (bind_run _ _ _ _ _ E). left. by eexists _, _, _.
      * destruct (chmod_spec c a o f p m nid F R Ha) as (r & c' & a' & E & ? & ?). rewrite (bind_run _ _ _ _ _ E). left. by eexists _, _, _.
      * destruct (stat_spec c a o f p nid F R Ha) as (r & c' & a' & E & ? & ?). rewrite (bind_run _ _ _ _ _ E). left. by eexists _, _, _.
      * destruct (close_spec c a o f p nid F R Ha) as [(c' & a' & E & ? & ?)|[? [why E]]]; [|right; exists o, why; unfold bind; by rewrite E]. rewrite (bind_run _ _ _ _ _ E). left. by eexists _, _, _.
    + left. eexists _, _, _. split; [reflexivity|]. split; [|exact Hr]. apply (fs_no_handle _ _ o); [done|]. by apply eq_None_not_Some.
  - destruct x; try done. unfold perform. cbn [object]. step. cbn [negb].
    destruct (open_spec c a opt mode Hr Hok) as (r & c' & a' & E & ? & ?). rewrite (bind_run _ _ _ _ _ E). left. by eexists _, _, _.
Qed.

End Refinement.

(** ** A host *)

(** The structures of the Linux ABI, version 7.31. *)
#[local] Instance linux_abi : FuseAbi := {|
  size_in_header := 40;
  size_out_header := 16;
  size_in_struct O := match O with
    | Fuse.Init => 16 | Fuse.Create => 16 | Fuse.Open => 8 | Fuse.Write => 40 | Fuse.Read => 40
    | Fuse.Lseek => 24 | Fuse.Getattr => 16 | Fuse.Setattr => 88 | Fuse.Release => 24 | Fuse.Poll => 24
    | Fuse.Mkdir => 8 | _ => 0 end;
  size_out_struct O := match O with
    | Fuse.Init => 64 | Fuse.Create => 144 | Fuse.Open => 16 | Fuse.Write => 8 | Fuse.Lseek => 8
    | Fuse.Getattr | Fuse.Setattr => 104 | Fuse.Poll => 8 | Fuse.Mkdir | Fuse.Lookup => 128 | _ => 0 end;
  size_dirent := 24;
  dirent_ino d := foldr (fun b n => b + 256 * n) 0 (take 8 d);
  dirent_namelen d := foldr (fun b n => b + 256 * n) 0 (take 4 (drop 16 d));
  dirent_type d := foldr (fun b n => b + 256 * n) 0 (take 4 (drop 20 d));
  FUSE_ROOT_ID := 1;
  FUSE_GETATTR_FH := 1;
  FATTR_MODE := 1;
  FATTR_SIZE := 8;
  FATTR_LOCKOWNER := 512;
|}.

#[local] Instance linux_abi_laws : FuseAbiLaws.
Proof. split; try done. intros []; cbn; lia. Qed.

(** A host with one file, node 2, that gives out handles in order and refuses
    the requests a list of booleans says. *)
Record host : Type := mkHost { h_content : content; h_open : gset Z; h_next : Z; h_refuse : list bool }.
Definition h_attr (n : Z) : fuse_attr := mkAttr 2 n 0 0 0 0 0 0 0 0x8000 1 0 0 0 512.

(** The answer to a request and the content and handles behind it. *)
Definition h_answer (O : Fuse.Op) (cmd : Cmd O) (s : host) : Rsp O * host :=
  let c := h_content s in
  let with_content d := mkHost d (h_open s) (h_next s) (tail (h_refuse s)) in
  match O return Cmd O -> Rsp O * host with
  | Fuse.Lookup => fun _ => (mkRsp (O := Fuse.Lookup) 144 0 (mkEntryOut 2 (h_attr (csize c))) None, with_content c)
  | Fuse.Open => fun _ => (mkRsp (O := Fuse.Open) 32 0 (mkOpenOut (h_next s)) None,
      mkHost c ({[ h_next s ]} ∪ h_open s) (h_next s + 1) (tail (h_refuse s)))
  | Fuse.Read => fun cmd => let i := op_header (headers cmd) in
      let b := c_read (r_offset i) (r_size i) c in (mkRsp (O := Fuse.Read) (16 + len b) 0 tt (Some b), with_content c)
  | Fuse.Write => fun cmd => let i := op_header (headers cmd) in
      let b := default [] (payload cmd) in
      let b := if w_offset i + len b <=? isize_max then b else [] in
      (mkRsp (O := Fuse.Write) 24 0 (mkWriteOut (len b)) None, with_content (c_write (w_offset i) b c))
  | Fuse.Lseek => fun cmd => let i := op_header (headers cmd) in
      (mkRsp (O := Fuse.Lseek) 24 0 (mkLseekOut (if l_whence i =? 2 then csize c + wraps 64 (l_offset i) else csize c)) None, with_content c)
  | Fuse.Getattr => fun _ => (mkRsp (O := Fuse.Getattr) 120 0 (mkAttrOut (h_attr (csize c))) None, with_content c)
  | Fuse.Setattr => fun cmd => let i := op_header (headers cmd) in
      let d := if Fuse.valid i =? 8 then c_resize (s_size i) c else c in
      (mkRsp (O := Fuse.Setattr) 120 0 (mkAttrOut (h_attr (csize d))) None, with_content d)
  | Fuse.Release => fun cmd => (mkRsp (O := Fuse.Release) 16 0 tt None,
      mkHost c (h_open s ∖ {[ rel_fh (op_header (headers cmd)) ]}) (h_next s) (tail (h_refuse s)))
  | Fuse.Create => fun _ => (mkRsp (O := Fuse.Create) 0 0 (mkCreateOut (mkEntryOut 2 (h_attr (csize c))) (mkOpenOut 0)) None, s)
  | Fuse.Poll => fun _ => (mkRsp (O := Fuse.Poll) 0 0 (mkPollOut 0) None, s)
  | Fuse.Mkdir => fun _ => (mkRsp (O := Fuse.Mkdir) 0 0 (mkEntryOut 0 (h_attr 0)) None, s)
  | Fuse.Init => fun _ => (mkRsp (O := Fuse.Init) 0 0 tt None, s)
  | Fuse.Readlink => fun _ => (mkRsp (O := Fuse.Readlink) 0 0 tt None, s)
  | Fuse.Unlink => fun _ => (mkRsp (O := Fuse.Unlink) 0 0 tt None, s)
  | Fuse.Rmdir => fun _ => (mkRsp (O := Fuse.Rmdir) 0 0 tt None, s)
  end cmd.

(** A seek to where there is nothing and what the list says is refused. *)
Definition h_refuses (O : Fuse.Op) (cmd : Cmd O) (s : host) : bool :=
  match O return Cmd O -> bool with
  | Fuse.Lseek => fun cmd =>
      let i := op_header (headers cmd) in
      let off := wraps 64 (l_offset i) in
      let q := csize (h_content s) + off in
      default false (head (h_refuse s)) ||
      (if l_whence i =? 2 then negb ((0 <=? q) && (q <=? isize_max)) else csize (h_content s) <? off)
  | _ => fun _ => default false (head (h_refuse s))
  end cmd.

#[local] Instance host_driver : FsDriver host := {|
  has_driver _ := true;
  send_command O cmd n s :=
    if h_refuses O cmd s then
      Done (Err (FsIOError Errno.Io)) (mkHost (h_content s) (h_open s) (h_next s) (tail (h_refuse s)))
    else let '(rsp, s') := h_answer O cmd s in Done (Ok rsp) s';
  get_mount_point _ := "/";
|}.

Definition h_serves (s : host) (nid : Z) (F : gset Z) (c : content) : Prop :=
  nid = 2 /\ h_content s = c /\ h_open s = F /\ 0 <= csize c <= isize_max /\ forall f, f ∈ F -> f < h_next s.

Definition file_path : list Z := of_string "/f".

Lemma h_answers O (cmd : Cmd O) n s nid F c (P : Rsp O -> host -> Prop) :
  h_serves s nid F c ->
  (h_refuses O cmd s = false -> out_error (h_answer O cmd s).1 = 0 /\ P (h_answer O cmd s).1 (h_answer O cmd s).2) ->
  answers cmd n s P (fun s' => h_serves s' nid F c).
Proof.
  intros Hs HP. unfold answers. cbn [send_command host_driver]. destruct (h_refuses O cmd s).
  - by eexists _, _.
  - specialize (HP eq_refl). destruct (h_answer O cmd s) as [rsp s'] eqn:E. by eexists _, _.
Qed.

Lemma wraps_wrapu off : isize_min <= off <= isize_max -> wraps 64 (wrapu 64 off) = off.
Proof.
  intros Hoff. unfold wraps, wrapu, isize_min, isize_max, i64_min, i64_max in *. rewrite Zplus_mod_idemp_l.
  rewrite Z.mod_small by (cbn; lia). lia.
Qed.

Lemma c_write_size off b c :
  0 <= csize c <= isize_max -> 0 <= off -> (b = [] \/ off + len b <= isize_max) -> 0 <= csize (c_write off b c) <= isize_max.
Proof. intros Hc Ho Hb. destruct b as [|x b]; [done|]. unfold c_write. cbn [csize]. destruct Hb as [?|Hb]; [done|]. lia. Qed.

#[local] Instance host_laws : FileHost host file_path h_serves.
Proof.
  split.
  - by intros s nid F c (_ & _ & _ & ? & _).
  - intros s nid F c cmd Hs Hc. eapply h_answers; [done|]. intros _. by destruct Hs as (-> & ?).
  - intros s nid F c cmd flags Hs Hc _. eapply h_answers; [done|]. intros _. destruct Hs as (-> & <- & <- & Hz & Hn).
    split; [done|]. cbn. split.
    + intros Hin. specialize (Hn _ Hin). lia.
    + split_and!; try done; try lia. cbn. intros f. rewrite elem_of_union, elem_of_singleton. intros [-> |Hin]; [lia|].
      specialize (Hn _ Hin). lia.
  - intros s nid F c cmd f off n Hs _ _ _ (_ & _ & Hh & _). eapply h_answers; [done|]. intros _.
    destruct Hs as (-> & <- & <- & Hz & Hn). cbn. rewrite Hh. cbn. by split_and!.
  - intros s nid F c cmd f off buf Hs _ Hoff _ (_ & _ & Hh & Hp). eapply h_answers; [done|]. intros _.
    destruct Hs as (-> & <- & <- & Hz & Hn). cbn. rewrite Hh, Hp. cbn.
    destruct (Z.leb_spec (off + len buf) isize_max); (split; [done|]).
    + split; [unfold len; lia|]. replace (take (Z.to_nat (len buf)) buf) with buf by (unfold len; by rewrite Nat2Z.id, firstn_all).
      split_and!; try done; apply c_write_size; auto; lia.
    + split; [unfold len; cbn; lia|]. change (Z.to_nat (len [])) with 0%nat. rewrite take_0. done.
  - intros s nid F c cmd f off whence Hs _ Hoff (_ & _ & Hh & _). eapply h_answers; [done|].
    unfold h_refuses. rewrite Hh. cbn [l_offset l_whence]. rewrite wraps_wrapu by done. intros Hr.
    destruct Hs as (-> & <- & <- & Hz & Hn). cbn. rewrite Hh. cbn [l_offset l_whence]. rewrite wraps_wrapu by done.
    bool_hyps. split; [done|]. split; [done|].
    destruct (Z.eqb_spec (whence_into_u8 whence) 2) as [Ew|Ew]; destruct whence; cbn in Ew; try lia; bool_hyps; lia.
  - intros s nid F c cmd f Hs _ _. eapply h_answers; [done|]. intros _. destruct Hs as (-> & <- & <- & Hz & Hn).
    cbn. by split_and!.
  - intros s nid F c cmd f x Hs _ (_ & _ & Hh & _) _ Hv. eapply h_answers; [done|]. intros _.
    destruct Hs as (-> & <- & <- & Hz & Hn). cbn. rewrite Hh. split; [done|]. split; [done|]. split; [done|].
    split_and!; try done; destruct (Z.eqb_spec (Fuse.valid x) 8); cbn in *; try lia.
  - intros s nid F c cmd f (-> & <- & <- & Hz & Hn) Hf (_ & _ & Hh & _). unfold answers. cbn [send_command host_driver].
    destruct (h_refuses Fuse.Release cmd s); eexists _, _; (split; [reflexivity|]); [done|].
    cbn. rewrite Hh. split; [done|]. split_and!; try done; try lia. cbn. set_solver.
Qed.

Definition demo_host : host := mkHost (mkContent 3 (fun j => j + 65)) ∅ 7 [false; false; false; true].
Definition demo_client : client host := mkClient demo_host ∅ 0 0.
Definition demo_dir : VirtioFsDirectory := VirtioFsDirectory_new 0 "/".
Definition demo_ops : list op := [Open O_RDWR 0; Read 0 2; Write 0 [1; 2]; Seek 0 0 Set_; Read 0 100; Close 0; Stat 0].

(** The write is refused by the host, the position stays behind the read. *)
Example demo_answers :
  match performs demo_dir "f" (take 6 demo_ops) demo_client with
  | Done rs _ => rs = [AHandle (Ok 0); ABytes (Ok [65; 66]); ACount (Err Errno.Io); ACount (Ok 0);
                       ABytes (Ok [65; 66; 67]); AClosed]
  | Panic _ => False
  end.
Proof. vm_compute. reflexivity. Qed.

(** A host that refuses the sixth request, which is the release. *)
Definition stubborn_client : client host := mkClient (mkHost (h_content demo_host) ∅ 7 [false; false; false; false; false; true]) ∅ 0 0.
Example demo_release_panics :
  match performs demo_dir "f" demo_ops stubborn_client with Done _ _ => False | Panic _ => True end.
Proof. vm_compute. exact I. Qed.

End VirtioFsSpec.
