(* ===== verification/VirtioFsDirs.v ===== *)
(** Listing a directory of the host: what [getdents] and [readdir] of
    [VirtioFs] make of the entries the host sends, when they release the handle
    they opened, and when they read outside of the response.  [VirtioFsLinks]:
    symbolic links. *)

From S2P Require Import Prelude Errors Time Files Directories DirList UserMem Fuse VirtioFs VirtioFsSpec.

Module VirtioFsDirs.
Import Flags Files Directories UserMem Fuse VirtioFs VirtioFsSpec.

(** ** Entries as the host sends them *)

Record hentry : Type := mkEntry { e_ino : Z; e_type : Z; e_name : list Z }.

(** The encoder of the structure [fuse_dirent]. *)
Class DirentCodec `{FuseAbi} : Type := {
  mk_dirent : Z -> Z -> Z -> list Z;
  dirent_size i n t : len (mk_dirent i n t) = size_dirent;
  dirent_fields i n t : in_u 64 i -> in_u 32 n -> in_u 32 t ->
    dirent_ino (mk_dirent i n t) = i /\ dirent_namelen (mk_dirent i n t) = n /\ dirent_type (mk_dirent i n t) = t;
}.

(** Names a C caller can read, of at most the 255 bytes of a file name, and a
    type of [FileType]. *)
Record hentry_ok (e : hentry) : Prop := {
  eo_ino : in_u 64 (e_ino e);
  eo_type : e_type e ∈ [0; 1; 2; 4; 6; 8; 10; 12; 14];
  eo_name : 0 < len (e_name e) <= 255;
  eo_zero : 0 ∉ e_name e;
}.

Section Listing.
Context `{FuseAbi} {A : FuseAbiLaws} {D : DirentCodec}.

Definition entry_len (e : hentry) : Z := align_up (size_dirent + len (e_name e)) 8.
Definition encode (e : hentry) : list Z :=
  mk_dirent (e_ino e) (len (e_name e)) (e_type e) ++ e_name e ++
  replicate (Z.to_nat (entry_len e - size_dirent - len (e_name e))) 0.
Definition encode_all (es : list hentry) : list Z := concat (encode <$> es).

Lemma align8 x : align_up x 8 = 8 * ((x + 7) / 8) /\ x <= align_up x 8 < x + 8.
Proof.
  unfold align_up. replace (x + 8 - 1) with (x + 7) by lia.
  pose proof (Z.div_mod (x + 7) 8 ltac:(lia)). pose proof (Z.mod_pos_bound (x + 7) 8 ltac:(lia)). lia.
Qed.

Lemma mask8 x : Z.land x (Z.lnot (U64_SIZE - 1)) = 8 * (x / 8).
Proof.
  change (U64_SIZE - 1) with (Z.ones 3). rewrite <- Z.ldiff_land, Z.ldiff_ones_r by lia.
  rewrite Z.shiftl_mul_pow2, Z.shiftr_div_pow2 by lia. change (2 ^ 3) with 8. lia.
Qed.

Lemma entry_len_spec e : len (encode e) = entry_len e /\ size_dirent + len (e_name e) <= entry_len e /\
  entry_len e < size_dirent + len (e_name e) + 8 /\ entry_len e mod 8 = 0.
Proof.
  pose proof (proj2 (align8 (size_dirent + len (e_name e)))) as Hb. pose proof (proj1 (align8 (size_dirent + len (e_name e)))) as He.
  pose proof (dirent_size (e_ino e) (len (e_name e)) (e_type e)) as Hd. pose proof (proj1 (proj1 abi_dirent)).
  assert (Hl : len (encode e) = entry_len e).
  { unfold encode, entry_len, len in *. rewrite !length_app, length_replicate. lia. }
  split_and!; [done|unfold entry_len; lia..|]. unfold entry_len. rewrite He, Z.mul_comm. by apply Z_mod_mult.
Qed.

Lemma encode_all_cons e es : encode_all (e :: es) = encode e ++ encode_all es.
Proof. done. Qed.

Lemma len_bytes_app (a b : list Z) : len (a ++ b) = len a + len b.
Proof. unfold len. rewrite length_app. lia. Qed.

Lemma slice_app {T} (a b c : list Z) (s : T) : slice (a ++ b ++ c) (len a) (len a + len b) s = Done b s.
Proof.
  unfold slice. rewrite !len_bytes_app. rewrite (proj2 (Z.leb_le (len a) _)), (proj2 (Z.leb_le _ _)) by (unfold len; lia).
  cbn [andb]. unfold ret. f_equal. unfold len. rewrite Nat2Z.id, drop_app_length.
  replace (Z.to_nat _) with (length b) by lia. by rewrite take_app_length.
Qed.

(** The structure and the name are read back where an entry starts. *)
Lemma read_entry {S} `{FsDriver S} (pre post : list Z) e (c : client S) :
  hentry_ok e -> len pre mod 8 = 0 ->
  let p := pre ++ encode e ++ post in
  let d := mk_dirent (e_ino e) (len (e_name e)) (e_type e) in
  dirent_at p (len pre) c = Done d c /\ dirent_name p (len pre) d c = Done (e_name e) c /\
  next_offset (len pre) d = len pre + entry_len e.
Proof.
  intros [Hi Ht Hn Hz] Hm p d. pose proof (dirent_size (e_ino e) (len (e_name e)) (e_type e)) as Hd. fold d in Hd.
  assert (Htype : in_u 32 (e_type e)) by (unfold in_u; cbn; set_unfold; lia).
  destruct (dirent_fields (e_ino e) (len (e_name e)) (e_type e) Hi ltac:(unfold in_u; cbn; lia) Htype) as (_ & Hnl & _). fold d in Hnl.
  split; [|split].
  - unfold dirent_at, p, encode. fold d. rewrite <- Hd, <- app_assoc. apply slice_app.
  - unfold dirent_name, p, encode. fold d. rewrite Hnl, <- Hd, <- len_bytes_app.
    rewrite <- !app_assoc, (app_assoc pre d). apply slice_app.
  - unfold next_offset. rewrite Hnl, mask8. unfold U64_SIZE.
    replace (len pre + size_dirent + len (e_name e) + 8 - 1) with (len pre + (size_dirent + len (e_name e) + 7)) by lia.
    unfold entry_len. rewrite (proj1 (align8 _)).
    pose proof (Z.div_mod (len pre) 8 ltac:(lia)) as Hp. rewrite Hm in Hp. rewrite Hp at 1.
    replace (8 * (len pre / 8) + 0 + (size_dirent + len (e_name e) + 7)) with (len pre / 8 * 8 + (size_dirent + len (e_name e) + 7)) by lia.
    rewrite Z.div_add_l by lia. lia.
Qed.

(** A response that carries [es] and says so in its header. *)
Definition carries (rsp : Rsp Fuse.Read) (es : list hentry) : Prop :=
  rsp_payload rsp = Some (encode_all es) /\ out_len rsp = size_out_header + len (encode_all es) /\ out_len rsp < 2 ^ 32.

(** The loop goes on exactly while there is an entry. *)
Lemma more_spec rsp (pre post : list hentry) :
  carries rsp (pre ++ post) -> Forall hentry_ok post -> more rsp (len (encode_all pre)) = bool_decide (post <> []).
Proof.
  intros (_ & Hout & Hlt) Hok. unfold more. rewrite Hout in *. unfold encode_all in *.
  rewrite fmap_app, concat_app, len_bytes_app in *. fold (encode_all pre) (encode_all post) in *.
  replace (size_out_header + (len (encode_all pre) + len (encode_all post)) - len (encode_all pre))
    with (size_out_header + len (encode_all post)) by lia.
  pose proof abi_out as Ho. assert (0 <= len (encode_all pre) /\ 0 <= len (encode_all post)) by (unfold len; lia).
  rewrite wrapu_small by (cbn in *; lia). destruct post as [|e post].
  - rewrite bool_decide_false by (by intros []). apply Z.ltb_ge. unfold encode_all, len. cbn. lia.
  - rewrite bool_decide_true by done. apply Z.ltb_lt. rewrite encode_all_cons, len_bytes_app.
    destruct (entry_len_spec e) as (-> & ? & _). apply Forall_cons_1 in Hok as [[_ _ ? _] _].
    assert (0 <= len (encode_all post)) by (unfold len; lia). lia.
Qed.

Lemma encode_all_mod es : len (encode_all es) mod 8 = 0.
Proof.
  induction es as [|e es IH]; [done|]. rewrite encode_all_cons, len_bytes_app. destruct (entry_len_spec e) as (-> & _ & _ & He).
  rewrite Z.add_mod, He, IH by done. done.
Qed.

Lemma encode_all_app es es' : encode_all (es ++ es') = encode_all es ++ encode_all es'.
Proof. unfold encode_all. by rewrite fmap_app, concat_app. Qed.
Lemma encode_all_snoc es e : len (encode_all (es ++ [e])) = len (encode_all es) + entry_len e.
Proof.
  rewrite encode_all_app, len_bytes_app, encode_all_cons, len_bytes_app. rewrite (proj1 (entry_len_spec e)). unfold encode_all, len. cbn. lia.
Qed.

(** ** [readdir] *)

Lemma readdir_loop_ok {S} `{FsDriver S} rsp (post : list hentry) (c : client S) : forall pre fuel acc,
  carries rsp (pre ++ post) -> Forall hentry_ok post -> (length post < fuel)%nat ->
  readdir_loop fuel rsp (len (encode_all pre)) acc c = Done (acc ++ ((fun e => to_string (e_name e)) <$> post)) c.
Proof.
  induction post as [|e post IH]; intros pre fuel acc Hc Hok Hf; (destruct fuel as [|fuel]; [cbn in Hf; lia|]);
    cbn [readdir_loop]; rewrite (more_spec rsp pre _ Hc Hok).
  - rewrite bool_decide_false by (by intros []). cbn. by rewrite app_nil_r.
  - rewrite bool_decide_true by done. cbn [negb]. destruct Hc as (Hp & Ho & Hl). rewrite Hp.
    apply Forall_cons_1 in Hok as [He Hok].
    destruct (read_entry (encode_all pre) (encode_all post) e c He (encode_all_mod pre)) as (E1 & E2 & E3).
    erewrite bind_run by reflexivity. rewrite encode_all_app, encode_all_cons.
    rewrite (bind_run _ _ _ _ _ E1), (bind_run _ _ _ _ _ E2), E3, <- encode_all_snoc.
    rewrite (IH (pre ++ [e]) fuel (acc ++ [to_string (e_name e)])).
    + by rewrite <- app_assoc.
    + by rewrite <- app_assoc.
    + done.
    + cbn in Hf. lia.
Qed.

(** ** [getdents] *)

(** The record of an entry and the room it takes in the caller's buffer. *)
Definition reclen (e : hentry) : Z := align_up (D_NAME_OFFSET + len (e_name e) + 1) DIRENT_ALIGN.
Definition record_of (e : hentry) : list (option Z) := dirent64 (e_ino e) (reclen e) (e_type e) (e_name e).
Definition written (b : list (option Z)) (off : Z) (e : hentry) : list (option Z) :=
  overwrite (overwrite b off (replicate 24 None)) off (record_of e).

Lemma length_record e : Z.of_nat (length (record_of e)) = D_NAME_OFFSET + len (e_name e) + 1.
Proof. unfold record_of, dirent64, D_NAME_OFFSET, len. rewrite length_fmap, !length_app. cbn. lia. Qed.

Lemma entry_reclen_bounds e : hentry_ok e ->
  24 <= reclen e <= 288 /\ D_NAME_OFFSET + len (e_name e) + 1 <= reclen e /\ exists k, reclen e = 8 * k.
Proof.
  intros [_ _ Hn _]. unfold reclen, DIRENT_ALIGN, D_NAME_OFFSET.
  destruct (DirList.align_up_spec (19 + len (e_name e) + 1)) as (k & E & Hk); [lia|].
  unfold DIRENT_ALIGN in E. rewrite E. split_and!; [lia..|by exists k].
Qed.

Lemma c_string_bytes (l : list Z) tl : 0 ∉ l -> DirList.c_string ((Some <$> (l ++ [0])) ++ tl) = l.
Proof.
  induction l as [|b l IH]; cbn; [done|]. intros Hz. rewrite not_elem_of_cons in Hz. destruct Hz as [Hb Hz].
  destruct (Z.eqb_spec b 0) as [->|_]; [done|]. f_equal. by apply IH.
Qed.

Lemma record_of_record e tl : hentry_ok e -> DirList.record (record_of e ++ tl) = (reclen e, e_name e).
Proof.
  intros He. destruct (entry_reclen_bounds e He) as (Hr & _). unfold DirList.record. f_equal.
  - unfold DirList.byte_at, record_of, dirent64. cbn. rewrite (Z.mod_small (_ / 256)).
    + pose proof (Z.div_mod (reclen e) 256 ltac:(lia)). lia.
    + split; [apply Z.div_pos; lia|apply Z.div_lt_upper_bound; lia].
  - rewrite <- (c_string_bytes (e_name e) tl) by apply He. done.
Qed.

Lemma entry_written_spec b off e :
  0 <= off -> off + reclen e <= Z.of_nat (length b) -> hentry_ok e ->
  length (written b off e) = length b /\ take (Z.to_nat off) (written b off e) = take (Z.to_nat off) b /\
  exists tl, drop (Z.to_nat off) (written b off e) = record_of e ++ tl.
Proof.
  intros Ho Hr He. destruct (entry_reclen_bounds e He) as (? & ? & _). pose proof (length_record e) as Hh.
  assert (Hl : length (overwrite b off (replicate 24 None)) = length b)
    by (apply DirList.length_overwrite; [done|rewrite length_replicate; lia]).
  unfold written. rewrite DirList.length_overwrite, Hl by lia. rewrite !DirList.take_overwrite by lia.
  rewrite DirList.drop_overwrite by lia. split_and!; [done|done|by eexists].
Qed.

Lemma file_type_ok e : hentry_ok e -> FileType_try_from (wrapu 8 (e_type e)) = Some (e_type e).
Proof.
  intros He. pose proof (eo_type e He) as Ht. unfold FileType_try_from.
  assert (wrapu 8 (e_type e) = e_type e) as -> by (apply wrapu_small; cbn; set_unfold; lia).
  by rewrite bool_decide_true.
Qed.

Section Loop.
Context {S : Type} `{FsDriver S} (rsp : Rsp Fuse.Read).

(** One round on an entry, into a buffer filled up to a multiple of 8. *)
Lemma host_getdents_step pre e post b j fuel (c : client S) :
  carries rsp (pre ++ e :: post) -> Forall hentry_ok (e :: post) -> 0 <= j ->
  let st := mkListing b (8 * j) (len (encode_all pre)) (8 * j) in
  getdents_loop (Datatypes.S fuel) rsp st c =
  if Z.of_nat (length b) <? 8 * j + reclen e
  then if 8 * j =? 0 then Done (Err Errno.Inval) c else Done (Ok st) c
  else getdents_loop fuel rsp
         (mkListing (written b (8 * j) e) (8 * j + reclen e) (len (encode_all (pre ++ [e]))) (8 * j + reclen e)) c.
Proof.
  intros Hc Hok Hj st. cbn [getdents_loop st VirtioFs.rsp_offset VirtioFs.buf VirtioFs.buf_offset VirtioFs.ret_].
  rewrite (more_spec rsp pre _ Hc Hok). rewrite bool_decide_true by done. cbn [negb].
  destruct Hc as (Hp & Ho & Hl). rewrite Hp. apply Forall_cons_1 in Hok as [He Hok].
  destruct (read_entry (encode_all pre) (encode_all post) e c He (encode_all_mod pre)) as (E1 & E2 & E3).
  destruct (entry_reclen_bounds e He) as (Hr & _).
  assert (Htype : in_u 32 (e_type e)) by (pose proof (eo_type e He); unfold in_u; cbn; set_unfold; lia).
  destruct (dirent_fields (e_ino e) (len (e_name e)) (e_type e) (eo_ino e He)
    ltac:(pose proof (eo_name e He); unfold in_u; cbn; lia) Htype) as (Hfi & Hfn & Hft).
  erewrite bind_run by reflexivity. rewrite encode_all_app, encode_all_cons. rewrite (bind_run _ _ _ _ _ E1).
  rewrite Hfn, DirList.align_up_shift. fold (reclen e).
  destruct (Z.ltb_spec (Z.of_nat (length b)) (8 * j + reclen e)); [by destruct (8 * j =? 0)|].
  erewrite bind_run by (rewrite (proj2 (Z.leb_le (reclen e) 65535)) by lia; reflexivity).
  rewrite Hft, (file_type_ok e He). erewrite bind_run by reflexivity. rewrite (bind_run _ _ _ _ _ E2).
  by rewrite E3, Hfi, encode_all_snoc.
Qed.

(** What the loop leaves: [k] entries decoded from the filled part. *)
Record glists (pre post : list hentry) (b : list (option Z)) (off : Z) (st : listing) (k : nat) : Prop := {
  g_count : (k <= length post)%nat;
  g_length : length (VirtioFs.buf st) = length b;
  g_prefix : take (Z.to_nat off) (VirtioFs.buf st) = take (Z.to_nat off) b;
  g_rsp : rsp_offset st = len (encode_all (pre ++ take k post));
  g_ret : VirtioFs.ret_ st = VirtioFs.buf_offset st;
  g_range : off <= VirtioFs.buf_offset st <= Z.of_nat (length b);
  g_size : off + 24 * Z.of_nat k <= VirtioFs.buf_offset st;
  g_none : k = 0%nat -> VirtioFs.buf_offset st = off;
  g_progress : off = 0 -> k = 0%nat -> post = [];
  g_first e : head (take k post) = Some e -> off + reclen e <= Z.of_nat (length b);
  g_parse fuel : (k < fuel)%nat ->
    DirList.parse fuel (drop (Z.to_nat off) (VirtioFs.buf st)) (VirtioFs.buf_offset st - off) = e_name <$> take k post
}.

Lemma glists_nothing pre post b off :
  0 <= off <= Z.of_nat (length b) -> (off = 0 -> post = []) ->
  glists pre post b off (mkListing b off (len (encode_all pre)) off) 0.
Proof.
  intros. split; cbn; auto; try lia; [by rewrite app_nil_r|done|]. intros [|fuel] Hf; [lia|]. cbn.
  by rewrite (proj2 (Z.leb_le (off - off) 0)) by lia.
Qed.

Lemma glists_cons pre e post b off st k :
  0 <= off -> off + reclen e <= Z.of_nat (length b) -> hentry_ok e ->
  glists (pre ++ [e]) post (written b off e) (off + reclen e) st k -> glists pre (e :: post) b off st (Datatypes.S k).
Proof.
  intros Ho Hr He [Hc Hl Hpre Hi Hret Hrng Hsz _ _ _ Hparse].
  destruct (entry_written_spec b off e Ho Hr He) as (Hwl & Hwt & tl & Hwd).
  destruct (entry_reclen_bounds e He) as (? & Hlen & _). pose proof (length_record e) as Hh.
  rewrite Hwl in *. split; cbn; try lia.
  - apply (f_equal (take (Z.to_nat off))) in Hpre. rewrite !take_take in Hpre.
    replace (_ `min` _)%nat with (Z.to_nat off) in Hpre by lia. by rewrite Hpre.
  - by rewrite Hi, <- app_assoc.
  - by intros x [= <-].
  - intros [|fuel] Hf; [lia|]. cbn [DirList.parse]. rewrite (proj2 (Z.leb_gt _ 0)) by lia.
    destruct (fun Hn => DirList.shared_prefix _ _ _ _ (Z.to_nat off) _ Hpre Hn Hwd) as [tl' Hd]; [lia|].
    rewrite Hd at 1. rewrite record_of_record by done.
    cbn [fmap list_fmap]. f_equal. rewrite drop_drop.
    replace (Z.to_nat off + Z.to_nat (reclen e))%nat with (Z.to_nat (off + reclen e)) by lia.
    replace (VirtioFs.buf_offset st - off - reclen e) with (VirtioFs.buf_offset st - (off + reclen e)) by lia.
    apply Hparse. lia.
Qed.

(** The loop fails only when the first entry does not fit into an empty buffer. *)
Lemma host_getdents_ok (c : client S) post : forall pre b j fuel,
  carries rsp (pre ++ post) -> Forall hentry_ok post -> 0 <= j -> 8 * j <= Z.of_nat (length b) ->
  (length post < fuel)%nat ->
  exists r, getdents_loop fuel rsp (mkListing b (8 * j) (len (encode_all pre)) (8 * j)) c = Done r c /\
  match r with
  | Ok st => exists k, glists pre post b (8 * j) st k
  | Err e => e = Errno.Inval /\ j = 0 /\ exists x, head post = Some x /\ Z.of_nat (length b) < reclen x
  end.
Proof.
  induction post as [|e post IH]; intros pre b j fuel Hc Hok Hj Hb Hf; (destruct fuel as [|fuel]; [cbn in Hf; lia|]).
  { cbn [getdents_loop VirtioFs.rsp_offset]. rewrite (more_spec rsp pre [] Hc Hok). rewrite bool_decide_false by (by intros []).
    eexists. split; [reflexivity|]. exists 0%nat. by apply glists_nothing; [lia|]. }
  rewrite (host_getdents_step pre e post b j fuel c Hc Hok Hj). apply Forall_cons_1 in Hok as [He Hok].
  destruct (entry_reclen_bounds e He) as (? & _ & q & Hq).
  destruct (Z.ltb_spec (Z.of_nat (length b)) (8 * j + reclen e)).
  - destruct (Z.eqb_spec (8 * j) 0).
    + eexists. split; [reflexivity|]. split; [done|]. split; [lia|]. exists e. split; [done|lia].
    + eexists. split; [reflexivity|]. exists 0%nat. apply glists_nothing; lia.
  - destruct (entry_written_spec b (8 * j) e) as (Hwl & _); [lia|lia|done|].
    destruct (IH (pre ++ [e]) (written b (8 * j) e) (j + q) fuel) as (r & E & Hr);
      [by rewrite <- app_assoc|done|lia|lia|cbn in Hf; lia|].
    replace (8 * (j + q)) with (8 * j + reclen e) in E, Hr by lia. rewrite E. eexists. split; [reflexivity|].
    destruct r as [st|x]; [|destruct Hr as (_ & ? & _); lia]. destruct Hr as [k Hk].
    exists (Datatypes.S k). apply glists_cons; auto; lia.
Qed.
End Loop.
End Listing.

(** ** A host with a directory *)

(** The entries a response of [room] bytes has room for. *)
Fixpoint fit `{FuseAbi} (room : Z) (es : list hentry) : list hentry :=
  match es with
  | [] => []
  | e :: es => if entry_len e <=? room then e :: fit (room - entry_len e) es else []
  end.
Definition sent `{FuseAbi} (es : list hentry) : list hentry := fit MAX_READ_LEN es.

(** [has s nid F es]: the directory [path] is the node [nid] with the entries
    [es], open under the handles [F]. *)
Class DirHost (S : Type) `{FuseAbi} `{!DirentCodec} `{FsDriver S} (path : list Z)
    (has : S -> Z -> gset Z -> list hentry -> Prop) : Prop := {
  dh_present s nid F es : has s nid F es -> has_driver s = true /\ Forall hentry_ok es;
  dh_lookup s nid F es (cmd : Cmd Fuse.Lookup) :
    has s nid F es -> asks cmd FUSE_LOOKUP FUSE_ROOT_ID tt (Some (path ++ [0])) ->
    exists rsp s', send_command Fuse.Lookup cmd 0 s = Done (Ok rsp) s' /\
      nodeid (rsp_header rsp) = nid /\ has s' nid F es;
  dh_opendir s nid F es (cmd : Cmd Fuse.Open) :
    has s nid F es -> asks cmd FUSE_OPENDIR nid (mkOpenIn O_DIRECTORY) None ->
    exists rsp s', send_command Fuse.Open cmd 0 s = Done (Ok rsp) s' /\
      fh (rsp_header rsp) ∉ F /\ has s' nid ({[ fh (rsp_header rsp) ]} ∪ F) es;
  dh_readdir s nid F es (cmd : Cmd Fuse.Read) f :
    has s nid F es -> f ∈ F -> asks cmd FUSE_READDIR nid (mkReadIn f 0 MAX_READ_LEN) None ->
    exists rsp s', send_command Fuse.Read cmd MAX_READ_LEN s = Done (Ok rsp) s' /\
      carries rsp (sent es) /\ has s' nid F es;
  dh_release s nid F es (cmd : Cmd Fuse.Release) f :
    has s nid F es -> f ∈ F -> asks cmd FUSE_RELEASE nid (mkReleaseIn f) None ->
    exists rsp s', send_command Fuse.Release cmd 0 s = Done (Ok rsp) s' /\ has s' nid (F ∖ {[ f ]}) es;
}.

Section Calls.
Context {S : Type} `{FuseAbi} `{!DirentCodec} `{FsDriver S} (path : list Z).
Context (has : S -> Z -> gset Z -> list hentry -> Prop) {A : FuseAbiLaws} {L : DirHost S path has}.
Hypothesis Hpath_len : len path <= 65536.

Lemma fit_prefix room es : exists k, fit room es = take k es.
Proof.
  revert room. induction es as [|e es IH]; intros room; [by exists 0%nat|]. cbn [fit]. destruct (_ <=? _); [|by exists 0%nat].
  destruct (IH (room - entry_len e)) as [k ->]. by exists (Datatypes.S k).
Qed.
Lemma fit_len room es : 0 <= room -> len (encode_all (fit room es)) <= room.
Proof.
  revert room. induction es as [|e es IH]; intros room Hr; [done|]. cbn [fit]. destruct (Z.leb_spec (entry_len e) room); [|done].
  rewrite encode_all_cons, len_bytes_app, (proj1 (entry_len_spec e)). specialize (IH (room - entry_len e)). lia.
Qed.
(** A directory that fits is sent whole. *)
Lemma fit_all room es : len (encode_all es) <= room -> fit room es = es.
Proof.
  revert room. induction es as [|e es IH]; intros room Hr; [done|]. cbn [fit].
  rewrite encode_all_cons, len_bytes_app, (proj1 (entry_len_spec e)) in Hr. assert (0 <= len (encode_all es)) by (unfold len; lia).
  rewrite (proj2 (Z.leb_le _ _)) by lia. f_equal. apply IH. lia.
Qed.
Lemma sent_ok es : Forall hentry_ok es -> Forall hentry_ok (sent es).
Proof. intros. unfold sent. destruct (fit_prefix MAX_READ_LEN es) as [k ->]. by apply Forall_take. Qed.

(** Finding and opening the directory and asking for its entries. *)
Record asked_dir (c : client S) (nid : Z) (F : gset Z) (es : list hentry) (s1 s2 s3 : S) (f : Z) (rsp : Rsp Fuse.Read) : Prop := {
  ad_lookup : lookup path c = Done (Some nid) (set_srv s1 c);
  ad_open : exists cmd r, opendir_cmd nid (set_srv s1 c) = Done cmd (set_srv s1 c) /\
    try_send cmd (set_srv s1 c) = Done (Ok r) (set_srv s2 c) /\ fh (rsp_header r) = f;
  ad_read : exists cmd, readdir_cmd nid f (set_srv s2 c) = Done cmd (set_srv s2 c) /\
    try_send cmd (set_srv s2 c) = Done (Ok rsp) (set_srv s3 c);
  ad_fresh : f ∉ F;
  ad_has : has s3 nid ({[ f ]} ∪ F) es;
  ad_carries : carries rsp (sent es);
}.

Lemma try_send_ok {O} (cmd : Cmd O) n c rsp s' :
  has_driver (srv c) = true -> send_command O cmd n (srv c) = Done (Ok rsp) s' ->
  try_send (cmd, n) c = Done (Ok rsp) (set_srv s' c).
Proof. intros Hd E. unfold try_send, bind, get. rewrite Hd. unfold on_srv, zoom. cbn. by rewrite E. Qed.

Lemma ask_dir c nid F es : has (srv c) nid F es -> exists s1 s2 s3 f rsp, asked_dir c nid F es s1 s2 s3 f rsp.
Proof.
  intros Hh. pose proof (proj1 (dh_present _ _ _ _ Hh)) as Hd.
  destruct (cmd_cstring_run Fuse.Lookup FUSE_ROOT_ID tt path c Hpath_len) as (cmd1 & Ec1 & Hc1).
  destruct (dh_lookup _ _ _ _ cmd1 Hh Hc1) as (r1 & s1 & E1 & Hn & Hh1).
  destruct (cmd_new_run Fuse.Open nid (mkOpenIn O_DIRECTORY_FLAG) (set_srv s1 c)) as (cmd2 & Ec2 & (_ & Hc2)).
  destruct (dh_opendir _ _ _ _ (set_opcode FUSE_OPENDIR cmd2) Hh1 (conj eq_refl Hc2)) as (r2 & s2 & E2 & Hf & Hh2).
  destruct (cmd_new_run Fuse.Read nid (mkReadIn (fh (rsp_header r2)) 0 MAX_READ_LEN) (set_srv s2 c)) as (cmd3 & Ec3 & (_ & Hc3)).
  destruct (dh_readdir _ _ _ _ (set_opcode FUSE_READDIR cmd3) (fh (rsp_header r2)) Hh2 ltac:(set_solver) (conj eq_refl Hc3))
    as (rsp & s3 & E3 & Hcar & Hh3).
  exists s1, s2, s3, (fh (rsp_header r2)), rsp. split; try done.
  - unfold lookup, Lookup_create. erewrite bind_run by (erewrite bind_run by exact Ec1; reflexivity).
    erewrite bind_run by (by apply must_send_run). by rewrite <- Hn.
  - eexists _, r2. split; [|split; [|done]].
    + unfold opendir_cmd, Open_create. erewrite bind_run by (erewrite bind_run by exact Ec2; reflexivity). reflexivity.
    + apply (try_send_ok _ _ (set_srv s1 c)); [|exact E2]. apply (dh_present _ _ _ _ Hh1).
  - eexists _. split.
    + unfold readdir_cmd, Read_create. erewrite bind_run by (erewrite bind_run by exact Ec3; reflexivity). reflexivity.
    + apply (try_send_ok _ _ (set_srv s2 c)); [|exact E3]. apply (dh_present _ _ _ _ Hh2).
Qed.

(** The handle is given back. *)
Lemma release_handle_run (c : client S) nid F es f :
  has (srv c) nid ({[ f ]} ∪ F) es -> f ∉ F ->
  exists cmd rsp s', Release_create nid f c = Done cmd c /\ must_send cmd c = Done (Ok rsp) (set_srv s' c) /\ has s' nid F es.
Proof.
  intros Hh Hf. destruct (cmd_new_run Fuse.Release nid (mkReleaseIn f) c) as (cmd & Ec & Hc).
  destruct (dh_release _ _ _ _ cmd f Hh ltac:(set_solver) Hc) as (rsp & s' & E & Hh').
  exists (cmd, 0), rsp, s'. split; [|split].
  - unfold Release_create. by erewrite bind_run by exact Ec.
  - apply must_send_run; [|done]. apply (dh_present _ _ _ _ Hh).
  - by replace F with (({[ f ]} ∪ F) ∖ {[ f ]}) by set_solver.
Qed.

(** A response with an entry is longer than a structure. *)
Lemma carries_some rsp es :
  carries rsp es -> Forall hentry_ok es -> es <> [] ->
  len (encode_all es) <= MAX_READ_LEN ->
  payload_len rsp MAX_READ_LEN = len (encode_all es) /\ size_dirent < len (encode_all es) /\
  (length es < rounds rsp)%nat.
Proof.
  intros (Hp & Ho & Hl) Hok Hne Hmax. unfold MAX_READ_LEN in *. split; [|split].
  - unfold payload_len. rewrite Ho. replace (size_out_header + _ - _) with (len (encode_all es)) by lia.
    assert (0 <= len (encode_all es)) by (unfold len; lia). rewrite wrapu_small by (cbn; lia).
    destruct (Z.leb_spec 65536 (len (encode_all es))); lia.
  - destruct es as [|e es]; [done|]. apply Forall_cons_1 in Hok as [[_ _ Hn _] _].
    rewrite encode_all_cons, len_bytes_app. destruct (entry_len_spec e) as (-> & ? & _).
    assert (0 <= len (encode_all es)) by (unfold len; lia). lia.
  - unfold rounds. rewrite Hp. clear -Hok A. apply le_n_S. induction es as [|e es IH]; [done|].
    apply Forall_cons_1 in Hok as [[_ _ Hn _] Hok]. specialize (IH Hok). rewrite encode_all_cons, length_app.
    destruct (entry_len_spec e) as (He & ? & _). unfold len in *. pose proof (proj1 (proj1 abi_dirent)). cbn. lia.
Qed.

Lemma sent_some es : Forall hentry_ok es -> es <> [] -> sent es <> [].
Proof.
  intros Hok Hne. destruct es as [|e es]; [done|]. apply Forall_cons_1 in Hok as [[_ _ Hn _] _].
  unfold sent, MAX_READ_LEN. cbn [fit]. destruct (entry_len_spec e) as (_ & _ & Hl & _). pose proof (proj2 (proj1 abi_dirent)).
  by rewrite (proj2 (Z.leb_le _ 65536)) by lia.
Qed.

Definition names (es : list hentry) : list string := (fun e => to_string (e_name e)) <$> es.

Lemma traverse_readdir_run self name c nid F es :
  traversal_path self name c = Done path c -> has (srv c) nid F es -> es <> [] ->
  exists s', traverse_readdir self name c = Done (Ok (names (sent es))) (set_srv s' c) /\ has s' nid F es.
Proof.
  intros Hp Hh Hne. pose proof (proj2 (dh_present _ _ _ _ Hh)) as Hok.
  destruct (ask_dir c nid F es Hh) as (s1 & s2 & s3 & f & rsp & [El (cmd2 & r2 & E2 & E2' & Hf2) (cmd3 & E3 & E3') Hf Hh3 Hc]).
  unfold traverse_readdir. rewrite (bind_run _ _ _ _ _ Hp), (bind_run _ _ _ _ _ El). erewrite try_run by reflexivity.
  cbv iota beta. rewrite (bind_run _ _ _ _ _ E2), (try_run _ _ _ _ _ E2'). cbv iota beta. rewrite Hf2.
  rewrite (bind_run _ _ _ _ _ E3), (try_run _ _ _ _ _ E3').
  pose proof (fit_len MAX_READ_LEN es ltac:(unfold MAX_READ_LEN; lia)) as Hfit. fold (sent es) in Hfit.
  destruct (carries_some rsp (sent es) Hc (sent_ok _ Hok) (sent_some _ Hok Hne) Hfit) as (Hpl & Hlong & Hrounds).
  rewrite Hpl, (proj2 (Z.leb_gt _ _)) by lia.
  rewrite (bind_run _ _ _ _ _ (readdir_loop_ok rsp (sent es) (set_srv s3 c) [] (rounds rsp) [] Hc (sent_ok _ Hok) Hrounds)).
  destruct (release_handle_run (set_srv s3 c) nid F es f Hh3 Hf) as (cmd & r & s' & E4 & E5 & Hh').
  rewrite (bind_run _ _ _ _ _ E4), (bind_run _ _ _ _ _ E5). exists s'. by split.
Qed.

(** The position behind the first [i] entries of a listing. *)
Definition position (es : list hentry) (i : nat) : Z := len (encode_all (take i (sent es))).

Lemma host_getdents_call c o dname i nid F es buffer :
  cstring (if is_empty dname then "/" else String.append "/" dname) c = Done path c ->
  objs c !! o = Some (VirtioFsDirectoryHandle dname (position es i)) -> (i <= length (sent es))%nat ->
  has (srv c) nid F es -> es <> [] ->
  let left := drop i (sent es) in
  exists s', 
  (exists k b n, getdents o buffer c =
     Done (Ok (n, b)) (VirtioFs.set_obj o (VirtioFsDirectoryHandle dname (position es (i + k))) (set_srv s' c)) /\
     glists (take i (sent es)) left buffer 0 (mkListing b n (position es (i + k)) n) k /\ has s' nid F es) \/
  (exists e f, head left = Some e /\ Z.of_nat (length buffer) < reclen e /\
     getdents o buffer c = Done (Err Errno.Inval) (set_srv s' c) /\ f ∉ F /\ has s' nid ({[ f ]} ∪ F) es).
Proof.
  intros Hp Ho Hi Hh Hne left. pose proof (proj2 (dh_present _ _ _ _ Hh)) as Hok.
  destruct (ask_dir c nid F es Hh) as (s1 & s2 & s3 & f & rsp & [El (cmd2 & r2 & E2 & E2' & Hf2) (cmd3 & E3 & E3') Hf Hh3 Hc]).
  assert (Hgd : forall s, get_directory o (set_srv s c) = Done (dname, position es i) (set_srv s c))
    by (intros s; unfold get_directory, bind, get; cbn; by rewrite Ho).
  assert (Hgd0 : get_directory o c = Done (dname, position es i) c) by (specialize (Hgd (srv c)); by destruct c).
  unfold getdents. rewrite (bind_run _ _ _ _ _ Hgd0). cbv iota beta. rewrite (bind_run _ _ _ _ _ Hp), (bind_run _ _ _ _ _ El).
  erewrite try_run by reflexivity. cbv iota beta. rewrite (bind_run _ _ _ _ _ E2), (try_run _ _ _ _ _ E2'). cbv iota beta.
  rewrite (bind_run _ _ _ _ _ (Hgd s2)), Hf2. cbv iota beta. rewrite (bind_run _ _ _ _ _ E3), (try_run _ _ _ _ _ E3').
  pose proof (fit_len MAX_READ_LEN es ltac:(unfold MAX_READ_LEN; lia)) as Hfit. fold (sent es) in Hfit.
  destruct (carries_some rsp (sent es) Hc (sent_ok _ Hok) (sent_some _ Hok Hne) Hfit) as (Hpl & Hlong & Hrounds).
  rewrite Hpl, (proj2 (Z.leb_gt _ _)) by lia.
  assert (Hc' : carries rsp (take i (sent es) ++ left)) by (unfold left; by rewrite take_drop).
  destruct (host_getdents_ok rsp (set_srv s3 c) left (take i (sent es)) buffer 0 (rounds rsp) Hc'
    ltac:(apply Forall_drop, sent_ok, Hok) ltac:(lia) ltac:(lia) ltac:(unfold left; rewrite length_drop; lia)) as (r & Er & Hr).
  change (8 * 0) with 0 in Er, Hr. rewrite (try_run _ _ _ _ _ Er). destruct r as [st|e].
  - destruct Hr as [k Hk]. pose proof (g_rsp _ _ _ _ _ _ Hk) as Hrsp. pose proof (g_ret _ _ _ _ _ _ Hk) as Hret.
    unfold left in Hrsp. rewrite take_take_drop in Hrsp. fold (position es (i + k)) in Hrsp. erewrite bind_run by reflexivity.
    set (c3 := VirtioFs.set_obj o (VirtioFsDirectoryHandle dname (rsp_offset st)) (set_srv s3 c)).
    destruct (release_handle_run c3 nid F es f Hh3 Hf) as (cmd & r & s' & E4 & E5 & Hh').
    rewrite (bind_run _ _ _ _ _ E4). erewrite try_run by (erewrite bind_run by exact E5; reflexivity). cbv iota beta.
    exists s'. left. exists k, (VirtioFs.buf st), (VirtioFs.ret_ st). split; [unfold c3; by rewrite Hrsp|]. split; [|done].
    destruct st as [b off ro rr]. cbn in *. by subst.
  - destruct Hr as (-> & _ & x & Hx & Hlt). exists s3. right. exists x, f. by split_and!.
Qed.

(** Calls with a fresh buffer of [n] bytes until one answers 0. *)
Fixpoint list_all (fuel : nat) (o : Z) (n : nat) : M (client S) (option (list (list Z))) :=
  match fuel with
  | O => ret None
  | Datatypes.S fuel =>
      let! r := getdents o (replicate n None) in
      match r with
      | Err _ => ret None
      | Ok (l, b) =>
          if l =? 0 then ret (Some [])
          else
            let! rest := list_all fuel o n in
            ret (option_map (app (DirList.parse (Datatypes.S (Z.to_nat l)) b l)) rest)
      end
  end.

(** [name] below [self], and the name of the open directory, are the path. *)
Context (self : VirtioFsDirectory) (name dname : string).
Hypothesis Hself : forall c : client S, traversal_path self name c = Done path c.
Hypothesis Hdir : forall c : client S,
  cstring (if is_empty dname then "/" else String.append "/" dname) c = Done path c.

Lemma list_all_run o n nid F es : forall fuel i c,
  objs c !! o = Some (VirtioFsDirectoryHandle dname (position es i)) -> (i <= length (sent es))%nat ->
  has (srv c) nid F es -> es <> [] -> (288 <= n)%nat -> (length (sent es) - i < fuel)%nat ->
  exists c', list_all fuel o n c = Done (Some (e_name <$> drop i (sent es))) c' /\ has (srv c') nid F es.
Proof.
  induction fuel as [|fuel IH]; intros i c Ho Hi Hh Hne Hn Hf; [lia|]. cbn [list_all].
  destruct (host_getdents_call c o dname i nid F es (replicate n None) (Hdir c) Ho Hi Hh Hne)
    as (s' & [(k & b & z & E & G & Hh')|(e & f & He & Hlt & _)]).
  - rewrite (bind_run _ _ _ _ _ E). destruct G as [Hc Hl _ _ _ Hrng Hsz Hnone Hprog _ Hparse].
    cbn [VirtioFs.buf_offset VirtioFs.buf] in *. rewrite length_drop in Hc. cbv iota beta. destruct (Z.eqb_spec z 0) as [->|Hz].
    + assert (k = 0%nat) as -> by lia. rewrite Hprog by done. by eexists.
    + assert (k <> 0%nat) by (intros ->; by rewrite Hnone in Hz).
      set (c1 := VirtioFs.set_obj o (VirtioFsDirectoryHandle dname (position es (i + k))) (set_srv s' c)).
      destruct (IH (i + k)%nat c1) as (c' & E' & Hc'); [cbn; by rewrite lookup_insert_eq|lia|done|done|done|lia|].
      exists c'. rewrite (bind_run _ _ _ _ _ E'). split; [|done]. unfold ret. do 2 f_equal. cbn [option_map].
      specialize (Hparse (Datatypes.S (Z.to_nat z)) ltac:(lia)). rewrite Z.sub_0_r in Hparse.
      change (Z.to_nat 0) with 0%nat in Hparse. rewrite drop_0 in Hparse.
      rewrite Hparse, <- fmap_app. do 2 f_equal. by rewrite <- drop_drop, take_drop.
  - exfalso. rewrite length_replicate in Hlt. pose proof (sent_ok _ (proj2 (dh_present _ _ _ _ Hh))) as Hok.
    assert (He' : hentry_ok e).
    { destruct (drop i (sent es)) as [|y l] eqn:Ed; [done|]. cbn in He. simplify_eq.
      apply (Forall_drop _ i) in Hok. rewrite Ed in Hok. by apply Forall_cons_1 in Hok as [? _]. }
    destruct (entry_reclen_bounds e He') as (? & _). lia.
Qed.

(** Against every host that follows the protocol, listing a directory by
    path answers the names the host sends in one response, in order, and
    calling [getdents] on an open directory until it answers 0 decodes to the
    names from its position on, each exactly once, for every buffer of at least
    288 bytes; both give the handle they open back to the host.  The response
    has all entries when they take at most 64 KiB. *)
Theorem virtio_listing c o n nid F es i fuel :
  has (srv c) nid F es -> es <> [] ->
  objs c !! o = Some (VirtioFsDirectoryHandle dname (position es i)) -> (i <= length (sent es))%nat ->
  (288 <= n)%nat -> (length (sent es) - i < fuel)%nat ->
  (exists c', list_all fuel o n c = Done (Some (e_name <$> drop i (sent es))) c' /\ has (srv c') nid F es) /\
  (exists c', traverse_readdir self name c = Done (Ok (names (sent es))) c' /\ has (srv c') nid F es) /\
  (len (encode_all es) <= MAX_READ_LEN -> sent es = es) /\ (exists k, sent es = take k es).
Proof.
  intros Hh Hne Ho Hi Hn Hf. split; [|split; [|split]].
  - by apply (list_all_run o n nid F es fuel i c).
  - destruct (traverse_readdir_run self name c nid F es (Hself c) Hh Hne) as (s' & E & ?). by eexists.
  - apply fit_all.
  - apply fit_prefix.
Qed.

(** Beyond the response there is always one more entry, and it is read from
    outside of it. *)
Lemma stale_position c o nid F es pos buffer :
  has (srv c) nid F es -> es <> [] -> objs c !! o = Some (VirtioFsDirectoryHandle dname pos) ->
  size_out_header + len (encode_all (sent es)) < pos <= isize_max ->
  getdents o buffer c = Panic "range out of range for slice".
Proof.
  intros Hh Hne Ho Hpos. pose proof (proj2 (dh_present _ _ _ _ Hh)) as Hok.
  destruct (ask_dir c nid F es Hh) as (s1 & s2 & s3 & f & rsp & [El (cmd2 & r2 & E2 & E2' & Hf2) (cmd3 & E3 & E3') Hf Hh3 Hc]).
  assert (Hgd : forall s, get_directory o (set_srv s c) = Done (dname, pos) (set_srv s c))
    by (intros s; unfold get_directory, bind, get; cbn; by rewrite Ho).
  assert (Hgd0 : get_directory o c = Done (dname, pos) c) by (specialize (Hgd (srv c)); by destruct c).
  unfold getdents. rewrite (bind_run _ _ _ _ _ Hgd0). cbv iota beta. rewrite (bind_run _ _ _ _ _ (Hdir c)), (bind_run _ _ _ _ _ El).
  erewrite try_run by reflexivity. cbv iota beta. rewrite (bind_run _ _ _ _ _ E2), (try_run _ _ _ _ _ E2'). cbv iota beta.
  rewrite (bind_run _ _ _ _ _ (Hgd s2)), Hf2. cbv iota beta. rewrite (bind_run _ _ _ _ _ E3), (try_run _ _ _ _ _ E3').
  pose proof (fit_len MAX_READ_LEN es ltac:(unfold MAX_READ_LEN; lia)) as Hfit. fold (sent es) in Hfit.
  destruct (carries_some rsp (sent es) Hc (sent_ok _ Hok) (sent_some _ Hok Hne) Hfit) as (Hpl & Hlong & Hrounds).
  rewrite Hpl, (proj2 (Z.leb_gt _ _)) by lia. destruct Hc as (Hp & Hout & Hlt). unfold try_, bind at 1, rounds.
  cbn [getdents_loop VirtioFs.rsp_offset]. unfold more. pose proof abi_dirent as Hd. pose proof abi_out.
  assert (Hw : wrapu 64 (out_len rsp - pos) = out_len rsp - pos + 2 ^ 64).
  { unfold wrapu. rewrite <- (Z_mod_plus_full _ 1), Z.mod_small; [lia|]. unfold isize_max, i64_max, MAX_READ_LEN in *. cbn in *. lia. }
  rewrite Hw, (proj2 (Z.ltb_lt _ _)) by (unfold isize_max, i64_max, MAX_READ_LEN in *; cbn in *; lia). cbn [negb].
  rewrite Hp. erewrite bind_run by reflexivity. unfold bind at 1, dirent_at, slice.
  rewrite (proj2 (Z.leb_gt (pos + size_dirent) _)) by lia. by rewrite andb_false_r.
Qed.

(** Two hazards of a listing.  Any position can be set, and [getdents]
    from a position behind the response reads outside of it (so does a
    position kept while the host removed entries); and a buffer too small for
    the next entry answers [EINVAL] but leaves the directory open on the host,
    with one more handle at each attempt. *)
Theorem virtio_listing_hazards c o nid F es i off buffer :
  has (srv c) nid F es -> es <> [] ->
  objs c !! o = Some (VirtioFsDirectoryHandle dname (position es i)) -> (i <= length (sent es))%nat ->
  size_out_header + len (encode_all (sent es)) < off <= isize_max ->
  (exists c1, dir_lseek o off Set_ c = Done (Ok off) c1 /\
     getdents o buffer c1 = Panic "range out of range for slice") /\
  (forall e, sent es !! i = Some e -> Z.of_nat (length buffer) < reclen e ->
   exists c' f, getdents o buffer c = Done (Err Errno.Inval) c' /\ f ∉ F /\ has (srv c') nid ({[ f ]} ∪ F) es).
Proof.
  intros Hh Hne Ho Hi Hoff. split.
  - assert (Hgd : get_directory o c = Done (dname, position es i) c) by (unfold get_directory, bind, get; by rewrite Ho).
    unfold dir_lseek. rewrite (bind_run _ _ _ _ _ Hgd). cbv iota beta. rewrite bool_decide_true by done. cbn [negb andb].
    eexists. split; [reflexivity|]. apply (stale_position _ o nid F es off buffer); [done..| |done].
    cbn. rewrite lookup_insert_eq, wrapu_small; [done|]. pose proof abi_out. unfold isize_max, i64_max, len in *. cbn. lia.
  - intros e He Hlt. destruct (host_getdents_call c o dname i nid F es buffer (Hdir c) Ho Hi Hh Hne)
      as (s' & [(k & b & z & E & G & Hh')|(x & f & Hx & _ & E & Hf & Hh')]); [|by exists (set_srv s' c), f].
    exfalso. apply drop_S in He. rewrite He in G.
    destruct k as [|k]; [by discriminate (g_progress _ _ _ _ _ _ G eq_refl eq_refl)|].
    pose proof (g_first _ _ _ _ _ _ G e eq_refl). lia.
Qed.
End Calls.

(** ** A host *)

#[local] Existing Instances linux_abi linux_abi_laws.

Lemma foldr_le_bytes k n : 0 <= n < 256 ^ Z.of_nat k -> foldr (fun b m => b + 256 * m) 0 (le_bytes k n) = n.
Proof.
  revert n. induction k as [|k IH]; intros n Hn; cbn [le_bytes foldr].
  - change (256 ^ Z.of_nat 0) with 1 in Hn. lia.
  - rewrite Nat2Z.inj_succ, Z.pow_succ_r in Hn by lia. rewrite IH.
    + pose proof (Z.div_mod n 256 ltac:(lia)). lia.
    + split; [apply Z.div_pos; lia|apply Z.div_lt_upper_bound; lia].
Qed.
Lemma length_le k n : length (le_bytes k n) = k.
Proof. revert n. induction k as [|k IH]; intros n; cbn; [done|]. by rewrite IH. Qed.

#[local] Instance linux_codec : DirentCodec.
Proof.
  refine {| mk_dirent i n t := le_bytes 8 i ++ le_bytes 8 0 ++ le_bytes 4 n ++ le_bytes 4 t |}.
  - intros i n t. unfold len. by rewrite !length_app, !length_le.
  - intros i n t Hi Hn Ht. unfold in_u in *. cbn [linux_abi dirent_ino dirent_namelen dirent_type].
    assert (E : forall k (l l' : list Z), length l = k -> take k (l ++ l') = l /\ drop k (l ++ l') = l')
      by (intros k l l' <-; by rewrite take_app_length, drop_app_length).
    assert (Ed : forall l, drop 16 (le_bytes 8 i ++ le_bytes 8 0 ++ l) = l /\ drop 20 (le_bytes 8 i ++ le_bytes 8 0 ++ le_bytes 4 n ++ l) = l).
    { intros l. split; reflexivity. }
    rewrite (proj1 (Ed _)), (proj2 (Ed _)), (proj1 (E 8%nat _ _ (length_le _ _))), (proj1 (E 4%nat _ _ (length_le _ _))).
    rewrite take_ge by (by rewrite length_le). rewrite !foldr_le_bytes by (cbn in *; lia). done.
Defined.

(** A host with one directory, node 5, that gives out handles in order. *)
Record dhost : Type := mkDhost { d_entries : list hentry; d_open : gset Z; d_next : Z }.

Definition d_answer (O : Fuse.Op) (cmd : Cmd O) (s : dhost) : Result VirtioFsError (Rsp O) * dhost :=
  match O return Cmd O -> Result VirtioFsError (Rsp O) * dhost with
  | Fuse.Lookup => fun _ => (Ok (mkRsp (O := Fuse.Lookup) 144 0 (mkEntryOut 5 (h_attr 0)) None), s)
  | Fuse.Open => fun _ => (Ok (mkRsp (O := Fuse.Open) 32 0 (mkOpenOut (d_next s)) None),
      mkDhost (d_entries s) ({[ d_next s ]} ∪ d_open s) (d_next s + 1))
  | Fuse.Read => fun _ => let b := encode_all (sent (d_entries s)) in
      (Ok (mkRsp (O := Fuse.Read) (16 + len b) 0 tt (Some b)), s)
  | Fuse.Release => fun cmd => (Ok (mkRsp (O := Fuse.Release) 16 0 tt None),
      mkDhost (d_entries s) (d_open s ∖ {[ rel_fh (op_header (headers cmd)) ]}) (d_next s))
  | _ => fun _ => (Err (FsIOError Errno.Nosys), s)
  end cmd.

#[local] Instance dhost_driver : FsDriver dhost := {|
  has_driver _ := true;
  send_command O cmd n s := let '(r, s') := d_answer O cmd s in Done r s';
  get_mount_point _ := "/";
|}.

Definition d_has (s : dhost) (nid : Z) (F : gset Z) (es : list hentry) : Prop :=
  nid = 5 /\ d_entries s = es /\ d_open s = F /\ Forall hentry_ok es /\ forall f, f ∈ F -> f < d_next s.

#[local] Instance dhost_laws : DirHost dhost (of_string "/d") d_has.
Proof.
  split.
  - by intros s nid F es (_ & _ & _ & ? & _).
  - intros s nid F es cmd Hs _. pose proof Hs as (-> & _). eexists _, s. by split.
  - intros s nid F es cmd (-> & <- & <- & Hok & Hn) _. eexists _, _. split; [reflexivity|]. cbn. split.
    + intros Hin. specialize (Hn _ Hin). lia.
    + split_and!; try done. cbn. intros f. rewrite elem_of_union, elem_of_singleton. intros [-> |Hin]; [lia|]. specialize (Hn _ Hin). lia.
  - intros s nid F es cmd f Hs _ _. pose proof Hs as (-> & <- & <- & Hok & Hn). eexists _, s. split; [reflexivity|]. split; [|done].
    split; [done|]. split; [done|]. cbn [out_len]. pose proof (fit_len MAX_READ_LEN (d_entries s) ltac:(unfold MAX_READ_LEN; lia)) as Hl.
    unfold sent, MAX_READ_LEN in *. cbn in *. lia.
  - intros s nid F es cmd f (-> & <- & <- & Hok & Hn) Hf (_ & _ & Hh & _). eexists _, _. split; [reflexivity|]. cbn. rewrite Hh.
    split_and!; try done. cbn. set_solver.
Qed.

Definition demo_entries : list hentry := [mkEntry 1 4 [46]; mkEntry 1 4 [46; 46]; mkEntry 9 8 [97; 98; 99]].
Definition demo_dhost : client dhost :=
  mkClient (mkDhost demo_entries ∅ 3) {[ 0 := VirtioFsDirectoryHandle "d" 0 ]} 1 0.

Lemma demo_entries_ok : Forall hentry_ok demo_entries.
Proof. repeat constructor; cbn; try done; try lia; set_solver. Qed.
Lemma demo_has : d_has (srv demo_dhost) 5 ∅ demo_entries.
Proof. split_and!; try done. apply demo_entries_ok. Qed.

Lemma virtio_listing_witness :
  (exists c', list_all 4 0 288 demo_dhost = Done (Some [[46]; [46; 46]; [97; 98; 99]]) c' /\ d_has (srv c') 5 ∅ demo_entries) /\
  (exists c', traverse_readdir demo_dir "d" demo_dhost = Done (Ok ["."; ".."; "abc"]) c' /\ d_has (srv c') 5 ∅ demo_entries) /\
  sent demo_entries = demo_entries.
Proof.
  destruct (virtio_listing (of_string "/d") d_has ltac:(vm_compute; discriminate) demo_dir "d" "d"
    (fun _ => eq_refl) (fun _ => eq_refl) demo_dhost 0 288 5 ∅ demo_entries 0 4 demo_has ltac:(done) eq_refl
    ltac:(lia) ltac:(lia) ltac:(vm_compute; lia)) as (H1 & H2 & H3 & _).
  split; [exact H1|]. split; [exact H2|]. apply H3. vm_compute. discriminate.
Defined.

Lemma virtio_listing_hazards_witness :
  (exists c1, dir_lseek 0 1000 Set_ demo_dhost = Done (Ok 1000) c1 /\
     getdents 0 (replicate 8 None) c1 = Panic "range out of range for slice") /\
  (exists c' f, getdents 0 (replicate 8 None) demo_dhost = Done (Err Errno.Inval) c' /\ f ∉ (∅ : gset Z) /\
     d_has (srv c') 5 ({[ f ]} ∪ ∅) demo_entries).
Proof.
  destruct (virtio_listing_hazards (of_string "/d") d_has ltac:(vm_compute; discriminate) "d"
    (fun _ => eq_refl) demo_dhost 0 5 ∅ demo_entries 0 1000 (replicate 8 None) demo_has ltac:(done) eq_refl
    ltac:(lia) ltac:(vm_compute; split; [reflexivity|discriminate])) as (H1 & H2).
  split; [exact H1|]. apply (H2 (mkEntry 1 4 [46])); [reflexivity|vm_compute; reflexivity].
Defined.
End VirtioFsDirs.

(** ** Symbolic links of the host: where [stat] ends up *)

Module VirtioFsLinks.
Import Flags Files Directories UserMem Fuse VirtioFs VirtioFsSpec.

(** What a name of the host stands for. *)
Inductive node : Type :=
  | NFile (a : fuse_attr)
  | NLink (target : string)
  | NAbsent (e : Errno.t).

(** The host answers every lookup as [tree] says; node numbers are those of
    the full names. *)
Class LinkHost (S : Type) `{FuseAbi} `{FsDriver S} (tree : list Z -> node) (ino : list Z -> Z) (up : S -> Prop) : Prop := {
  lk_present s : up s -> has_driver s = true;
  lk_lookup s (cmd : Cmd Fuse.Lookup) p :
    up s -> asks cmd FUSE_LOOKUP FUSE_ROOT_ID tt (Some (p ++ [0])) ->
    exists r s', send_command Fuse.Lookup cmd 0 s = Done r s' /\ up s' /\
      match tree p, r with
      | NAbsent e, Err x => x = FsIOError e
      | NFile a, Ok rsp => out_error rsp = 0 /\ entry_attr (rsp_header rsp) = a /\
          Z.land (fa_mode a) S_IFMT <> S_IFLNK /\ fa_size a <= i64_max /\ fa_blocks a <= i64_max
      | NLink t, Ok rsp => out_error rsp = 0 /\ nodeid (rsp_header rsp) = ino p /\
          Z.land (fa_mode (entry_attr (rsp_header rsp))) S_IFMT = S_IFLNK
      | _, _ => False
      end;
  lk_readlink s (cmd : Cmd Fuse.Readlink) p t :
    up s -> tree p = NLink t -> asks cmd FUSE_READLINK (ino p) tt None ->
    exists rsp s', send_command Fuse.Readlink cmd MAX_READ_LEN s = Done (Ok rsp) s' /\ up s' /\
      rsp_payload rsp = Some (of_string t) /\ out_len rsp = size_out_header + len (of_string t);
}.

Section Links.
Context {S : Type} `{FuseAbi} `{FsDriver S} (tree : list Z -> node) (ino : list Z -> Z) (up : S -> Prop).
Context {A : FuseAbiLaws} {L : LinkHost S tree ino up} (self : VirtioFsDirectory).

(** The full name on the host. *)
Definition full (name : string) : list Z :=
  of_string (String.append (strip_slash_end (prefix self)) (String.append "/" name)).

(** A name that is text without a zero, of at most 4 KiB. *)
Definition name_ok (name : string) : Prop :=
  forallb (fun c => negb (c =? 0)) (full name) = true /\ len (full name) <= 65536 /\
  utf8 (of_string name) = true /\ len (of_string name) < MAX_READ_LEN.
Hypothesis targets_ok : forall p t, tree p = NLink t -> name_ok t.

(** Following links, each target taken below the mount point. *)
Fixpoint chase (fuel : nat) (name : string) : option (io_result fuse_attr) :=
  match fuel with
  | O => None
  | Datatypes.S fuel =>
      match tree (full name) with
      | NFile a => Some (Ok a)
      | NAbsent e => Some (Err e)
      | NLink t => chase fuel t
      end
  end.

Lemma to_of_string t : to_string (of_string t) = t.
Proof.
  induction t as [|c t IH]; cbn; [done|]. rewrite IH. f_equal. rewrite N2Z.id. apply Ascii.ascii_N_embedding.
Qed.

Lemma readlink_run c p t :
  up (srv c) -> tree p = NLink t -> exists s', readlink (ino p) c = Done (Ok t) (set_srv s' c) /\ up s'.
Proof.
  intros Hu Ht. destruct (targets_ok p t Ht) as (_ & _ & Hutf & Hlen). unfold readlink, Readlink_create.
  destruct (cmd_new_run Fuse.Readlink (ino p) tt c) as (cmd & Ec & Hc).
  erewrite bind_run by (erewrite bind_run by exact Ec; reflexivity).
  destruct (lk_readlink (srv c) cmd p t Hu Ht Hc) as (rsp & s' & E & Hu' & Hp & Ho).
  rewrite (bind_run _ _ _ _ _ (must_send_run cmd _ c _ _ (lk_present _ Hu) E)). cbv iota beta.
  assert (Epl : payload_len rsp MAX_READ_LEN = len (of_string t)).
  { unfold payload_len. rewrite Ho. replace (size_out_header + _ - _) with (len (of_string t)) by lia.
    unfold MAX_READ_LEN in *. rewrite wrapu_small by (unfold len in *; cbn; lia). rewrite (proj2 (Z.leb_gt _ _)) by lia. done. }
  rewrite Epl. unfold payload_prefix. rewrite Hp. erewrite bind_run by (erewrite bind_run by reflexivity; apply slice_all).
  unfold to_str. rewrite Hutf, to_of_string. by exists s'.
Qed.

Lemma stat_run fuel : forall name c, up (srv c) -> name_ok name ->
  exists s' r, traverse_stat fuel self name c = Done r (set_srv s' c) /\ up s' /\
    match chase fuel name, r with
    | None, None => True
    | Some (Err e), Some (Err e') => e = e'
    | Some (Ok a), Some (Ok b) => forall s : S, FileAttr_from a s = Done b s
    | _, _ => False
    end.
Proof.
  induction fuel as [|fuel IH]; intros name c Hu Hn.
  { exists (srv c), None. split; [by destruct c|done]. }
  cbn [traverse_stat chase]. destruct Hn as (Hz & Hlen & _).
  erewrite bind_run by (unfold traversal_path, cstring; fold (full name); rewrite Hz; reflexivity).
  unfold lookup_entry, Lookup_create. destruct (cmd_cstring_run Fuse.Lookup FUSE_ROOT_ID tt (full name) c Hlen) as (cmd & Ec & Hc).
  destruct (lk_lookup (srv c) cmd (full name) Hu Hc) as (r & s1 & E & Hu1 & Hr).
  erewrite bind_run by (erewrite bind_run by (erewrite bind_run by exact Ec; reflexivity);
    erewrite bind_run by (apply must_send_run; [by apply lk_present|exact E]); reflexivity).
  destruct (tree (full name)) as [a|t|e] eqn:Et, r as [rsp|x]; try done; cbv iota beta.
  - destruct Hr as (-> & -> & Hm & Hs & Hb). change (negb (0 =? 0)) with false. cbv iota.
    rewrite (proj2 (Z.eqb_neq _ _) Hm). cbn [negb]. destruct (FileAttr_from_run a (set_srv s1 c) Hs Hb) as (y & Ey & _).
    rewrite (bind_run _ _ _ _ _ Ey). eexists s1, _. split; [reflexivity|]. split; [done|]. intros s.
    unfold FileAttr_from in *. destruct (_ && _); [|done]. unfold ret in *. by simplify_eq.
  - destruct Hr as (-> & -> & Hm). change (negb (0 =? 0)) with false. cbv iota. rewrite Hm, Z.eqb_refl. cbn [negb].
    destruct (readlink_run (set_srv s1 c) (full name) t Hu1 Et) as (s2 & E2 & Hu2). rewrite (bind_run _ _ _ _ _ E2).
    cbv iota beta. destruct (IH t (set_srv s2 c) Hu2 (targets_ok _ _ Et)) as (s' & r & Er & Hu' & Hm').
    exists s', r. by split.
  - subst x. by eexists s1, _.
Qed.

(** Names that are all links to names of the set: the chase never ends. *)
Lemma chase_cycle (P : string -> Prop) :
  (forall name, P name -> exists t, tree (full name) = NLink t /\ P t) ->
  forall fuel name, P name -> chase fuel name = None.
Proof.
  intros HP. induction fuel as [|fuel IH]; intros name Hn; [done|]. cbn. destruct (HP name Hn) as (t & -> & Ht). by apply IH.
Qed.

(** [stat] on the host follows links, and takes the target of each below
    the mount point, not below the directory that has the link; it gives the
    attributes or the error of what it ends up at.  On a cycle of links no
    number of steps is enough. *)
Theorem virtio_stat_chases name c :
  up (srv c) -> name_ok name ->
  (forall fuel a, chase fuel name = Some (Ok a) ->
     exists c' b, traverse_stat fuel self name c = Done (Some (Ok b)) c' /\ st_size b = fa_size a /\ st_mode b = fa_mode a) /\
  (forall fuel e, chase fuel name = Some (Err e) -> exists c', traverse_stat fuel self name c = Done (Some (Err e)) c') /\
  (forall P : string -> Prop, P name -> (forall x, P x -> exists t, tree (full x) = NLink t /\ P t) ->
     forall fuel, exists c', traverse_stat fuel self name c = Done None c').
Proof.
  intros Hu Hn. split; [|split].
  - intros fuel a Ha. destruct (stat_run fuel name c Hu Hn) as (s' & r & E & _ & Hr). rewrite Ha in Hr.
    destruct r as [[b|]|]; try done. exists (set_srv s' c), b. split; [done|].
    specialize (Hr (srv c)). unfold FileAttr_from in Hr. destruct (_ && _); [|done]. unfold ret in Hr. by simplify_eq.
  - intros fuel e Ha. destruct (stat_run fuel name c Hu Hn) as (s' & r & E & _ & Hr). rewrite Ha in Hr.
    destruct r as [[b|e']|]; try done. subst e'. by eexists.
  - intros P HP Hcyc fuel. destruct (stat_run fuel name c Hu Hn) as (s' & r & E & _ & Hr).
    rewrite (chase_cycle P Hcyc fuel name HP) in Hr. destruct r as [[b|e']|]; try done. by eexists.
Qed.
End Links.

(** ** A host *)

#[local] Existing Instances linux_abi linux_abi_laws.

(** [/d/l] links to [x]; there is a file [/x] and a file [/d/x]; [/a] and [/b]
    link to each other. *)
Definition demo_tree (p : list Z) : node :=
  if bool_decide (p = of_string "/d/l") then NLink "x"
  else if bool_decide (p = of_string "/x") then NFile (h_attr 100)
  else if bool_decide (p = of_string "/d/x") then NFile (h_attr 7)
  else if bool_decide (p = of_string "/a") then NLink "b"
  else if bool_decide (p = of_string "/b") then NLink "a"
  else NAbsent Errno.Noent.

Definition link_attr : fuse_attr := mkAttr 2 0 0 0 0 0 0 0 0 0xa1ff 1 0 0 0 512.
Definition demo_ino (p : list Z) : Z :=
  if bool_decide (p = of_string "/d/l") then 2 else if bool_decide (p = of_string "/a") then 3 else 4.
Definition demo_target (nid : Z) : string := if nid =? 2 then "x" else if nid =? 3 then "b" else "a".

Definition l_answer (O : Fuse.Op) (cmd : Cmd O) : Result VirtioFsError (Rsp O) :=
  match O return Cmd O -> Result VirtioFsError (Rsp O) with
  | Fuse.Lookup => fun cmd =>
      let p := removelast (default [] (payload cmd)) in
      match demo_tree p with
      | NFile a => Ok (mkRsp (O := Fuse.Lookup) 144 0 (mkEntryOut 9 a) None)
      | NLink _ => Ok (mkRsp (O := Fuse.Lookup) 144 0 (mkEntryOut (demo_ino p) link_attr) None)
      | NAbsent e => Err (FsIOError e)
      end
  | Fuse.Readlink => fun cmd =>
      let b := of_string (demo_target (in_nodeid (in_header (headers cmd)))) in
      Ok (mkRsp (O := Fuse.Readlink) (16 + len b) 0 tt (Some b))
  | _ => fun _ => Err (FsIOError Errno.Nosys)
  end cmd.

#[local] Instance lhost_driver : FsDriver unit := {|
  has_driver _ := true;
  send_command O cmd n s := Done (l_answer O cmd) s;
  get_mount_point _ := "/";
|}.

Lemma demo_tree_link p t : demo_tree p = NLink t ->
  demo_target (demo_ino p) = t /\ (t = "x" \/ t = "a" \/ t = "b").
Proof.
  unfold demo_tree, demo_ino. intros E. repeat (case_bool_decide; [try discriminate; simplify_eq; auto; fail|]).
  all: repeat case_bool_decide; simplify_eq; auto.
Qed.
Lemma demo_tree_file p a : demo_tree p = NFile a -> a = h_attr 100 \/ a = h_attr 7.
Proof. unfold demo_tree. intros E. repeat case_bool_decide; simplify_eq; auto. Qed.

#[local] Instance lhost_laws : LinkHost unit demo_tree demo_ino (fun _ => True).
Proof.
  split.
  - done.
  - intros s cmd p _ (_ & _ & _ & Hp). exists (l_answer Fuse.Lookup cmd), s. split; [done|]. split; [done|].
    unfold l_answer. rewrite Hp. replace (removelast (default [] (Some (p ++ [0])))) with p by (symmetry; apply removelast_last). destruct (demo_tree p) as [a|t|e] eqn:E; [|done..].
    cbn. split; [done|]. split; [done|]. by destruct (demo_tree_file p a E) as [-> | ->].
  - intros s cmd p t _ E (_ & Hn & _). eexists _, s. split; [reflexivity|]. split; [done|]. cbn.
    rewrite Hn, (proj1 (demo_tree_link p t E)). done.
Qed.

Lemma demo_targets_ok p t : demo_tree p = NLink t -> name_ok demo_dir t.
Proof. intros E. destruct (demo_tree_link p t E) as (_ & [-> | [-> | ->]]); by split_and!. Qed.

(** The link [/d/l] to [x] ends at [/x], not at [/d/x]; [/a] never ends. *)
Lemma virtio_stat_chases_witness :
  let c : client unit := mkClient tt ∅ 0 0 in
  (exists c' b, traverse_stat 2 demo_dir "d/l" c = Done (Some (Ok b)) c' /\ st_size b = 100) /\
  (forall fuel, exists c', traverse_stat fuel demo_dir "a" c = Done None c').
Proof.
  intros c. split.
  - destruct (proj1 (virtio_stat_chases demo_tree demo_ino (fun _ => True) demo_dir demo_targets_ok "d/l" c I ltac:(by split_and!))
      2%nat (h_attr 100) eq_refl) as (c' & b & E & Hs & _). by exists c', b.
  - apply (proj2 (proj2 (virtio_stat_chases demo_tree demo_ino (fun _ => True) demo_dir demo_targets_ok "a" c I ltac:(by split_and!)))
      (fun x => x = "a" \/ x = "b")); [by left|].
    intros x [-> | ->]; [exists "b"|exists "a"]; auto.
Defined.
End VirtioFsLinks.
