(* ===== verification/FsQueue.v ===== *)
(** Sending a command of the file system to the device,
    [src/src/drivers/fs/mod.rs] (the trait [VirtioFsInterface]), over any
    virtqueue: the header and payload of the command and room for the answer
    are handed over as one buffer, and the answer is checked and taken out of
    it.  The address of the k-th allocation of the device allocator is
    [alloc_at k]; [mem] is the memory once the device has answered. *)

From S2P Require Import Prelude Errors Virtq VqSpec IndexAlloc SplitVq SplitProps Fuse.

Module FsQueue.
Import Virtq VqSpec SplitVq Fuse.

(** The fields of an answer in its bytes. *)
Class FuseReply : Type := {
  reply_len : list Z -> Z;
  reply_error : list Z -> Z;
  reply_struct : forall O : Op, list Z -> OutStruct O;
}.

Section Sending.
Context {S : Type} `{VirtQueue S} `{FuseAbi} `{FuseReply}.
(** Where allocations are, and the size of [CmdHeader] with its padding. *)
Variable alloc_at : Z -> Z.
Variable size_cmd_header : Op -> Z.

Record driver : Type := mkDriver { vqueues : list S; allocated : Z }.
Definition alloc : M driver Z := fun d => Done (alloc_at (allocated d)) (mkDriver (vqueues d) (allocated d + 1)).
(** [self.vqueues[i]] *)
Definition on_vq {A} (i : nat) (m : M S A) : M driver A :=
  let! d := get in
  let! s := unwrap (vqueues d !! i) "index out of bounds" in
  zoom (fun _ => s) (fun s d => mkDriver (<[i := s]> (vqueues d)) (allocated d)) m.

Definition size_rsp_header (O : Op) : Z := size_out_header + size_out_struct O.
Definition bytes_at (mem : Z -> Z) (addr n : Z) : list Z := mem <$> seqZ addr n.

Definition send_elems {O} (cmd : Cmd O) : M driver (list BufferElem) :=
  let! h := alloc in
  match payload cmd with
  | Some p =>
      let n := Z.of_nat (length p) in
      let! a := alloc in ret [Sized h (size_cmd_header O); Vector a n n]
  | None => ret [Sized h (size_cmd_header O)]
  end.
Definition recv_elems (O : Op) (rsp_payload_len : Z) : M driver (list BufferElem) :=
  let! h := alloc in
  if rsp_payload_len =? 0 then ret [Sized h (size_rsp_header O)]
  else let! a := alloc in ret [Sized h (size_rsp_header O); Vector a 0 rsp_payload_len].

(** The answer in the buffers of a transfer. *)
Definition take_reply (mem : Z -> Z) (O : Op) (t : UsedBufferToken) : M driver (Result VirtioFsError (Rsp O)) :=
  let! '(o, b) := pop_front_raw (used_recv_buff t) in
  let! '(headers, written_header_len) := unwrap o "called `Option::unwrap()` on a `None` value" in
  if written_header_len <? size_out_header then ret (Err (FsVirtqError IncompleteWrite))
  else
    let out_header := bytes_at mem headers size_out_header in
    let error := reply_error out_header in
    if negb (error =? 0) || negb (written_header_len - size_out_header =? size_out_struct O)
    then ret (Err (FsIOError (default Errno.Io (Errno.try_from_i32 (- error)))))
    else
      let! '(v, _) := pop_front_vec b in
      let payload := match v with Some (Vector a n _) => Some (bytes_at mem a n) | _ => None end in
      ret (Ok (mkRsp (reply_len out_header) error
                 (reply_struct O (bytes_at mem (headers + size_out_header) (size_out_struct O))) payload)).

(** [None]: the device has not answered when its schedule ends. *)
Definition send_command (mem : Z -> Z) (sched : list (list act)) (O : Op) (cmd : Cmd O) (rsp_payload_len : Z)
    : M driver (option (Result VirtioFsError (Rsp O))) :=
  let! send := send_elems cmd in
  let! recv := recv_elems O rsp_payload_len in
  match AvailBufferToken_new send recv with
  | Err _ => panic "called `Result::unwrap()` on an `Err` value"
  | Ok buffer_tkn =>
      let! r := on_vq 1 (dispatch_blocking sched buffer_tkn Direct 0) in
      match r with
      | Err e => ret (Some (Err (FsVirtqError e)))
      | Ok None => ret None
      | Ok (Some t) => let! r := take_reply mem O t in ret (Some r)
      end
  end.

(** ** What comes back *)

Context {repr : S -> VqSpec.vq -> Prop} {L : VirtQueueLaws S repr}.
Hypothesis transfer_direct : forall t table, transfer t Direct table = mkTransfer t None.
Hypothesis sizes : forall O, 0 <= size_out_header /\ 0 <= size_out_struct O /\ size_rsp_header O <= u32_max /\
  size_cmd_header O <= u32_max.

(** The answer in the memory at [h] (and [p]) when the device reports that it
    wrote [w] bytes. *)
Definition reply_at (mem : Z -> Z) (O : Op) (n w h p : Z) (r : Result VirtioFsError (Rsp O)) : Prop :=
  let head := bytes_at mem h size_out_header in
  match r with
  | Err (FsVirtqError e) => e = IncompleteWrite /\ w < size_out_header
  | Err (FsIOError e) => size_out_header <= w /\
      (reply_error head <> 0 /\ (Errno.try_from_i32 (- reply_error head) = Some e \/
                                 Errno.try_from_i32 (- reply_error head) = None /\ e = Errno.Io) \/
       reply_error head = 0 /\ w < size_rsp_header O /\ e = Errno.Io)
  | Ok rsp => size_rsp_header O <= w /\ out_error rsp = 0 /\ reply_error head = 0 /\ out_len rsp = reply_len head /\
      rsp_header rsp = reply_struct O (bytes_at mem (h + size_out_header) (size_out_struct O)) /\
      rsp_payload rsp = if n =? 0 then None else Some (bytes_at mem p (Z.min n (w - size_rsp_header O)))
  end.

Lemma send_elems_run {O} (cmd : Cmd O) d :
  (match payload cmd with Some p => Z.of_nat (length p) <= u32_max | None => True end) ->
  exists l k, send_elems cmd d = Done l (mkDriver (vqueues d) k) /\ Forall elem_ok l /\ (0 < length l <= 2)%nat.
Proof.
  intros Hp. unfold send_elems. erewrite bind_run by reflexivity. destruct (sizes O) as (_ & _ & _ & Hc).
  destruct (payload cmd); eexists _, _; (split; [reflexivity|]); (split; [repeat constructor; done|cbn; lia]).
Qed.

Definition recv_of (O : Op) (n h p : Z) : list BufferElem :=
  Sized h (size_rsp_header O) :: if n =? 0 then [] else [Vector p 0 n].
Lemma recv_elems_run O n d : exists h p k, recv_elems O n d = Done (recv_of O n h p) (mkDriver (vqueues d) k).
Proof.
  unfold recv_elems, recv_of. erewrite bind_run by reflexivity. destruct (n =? 0); eexists _, _, _; reflexivity.
  Unshelve. exact 0.
Qed.

Lemma on_queue_run {A} i (m : M S A) d s a s' :
  vqueues d !! i = Some s -> m s = Done a s' -> on_vq i m d = Done a (mkDriver (<[i := s']> (vqueues d)) (allocated d)).
Proof. intros Hq E. unfold on_vq, bind, get, unwrap. rewrite Hq. cbn. unfold zoom. by rewrite E. Qed.

Lemma try_from_0 : Errno.try_from_i32 0 = None.
Proof. reflexivity. Qed.

Lemma take_reply_run mem O n w h p send d :
  0 <= n <= u32_max -> 0 <= w ->
  exists r, take_reply mem O (from_avail_buffer_token (mkToken send (recv_of O n h p)) w) d = Done r d /\
    reply_at mem O n w h p r.
Proof.
  intros Hn Hw. destruct (sizes O) as (Ho & Hs & Hr & _). unfold take_reply.
  set (rest := if n =? 0 then [] else [Vector p 0 n]). set (l := Z.min (size_rsp_header O) w).
  assert (E : pop_front_raw (mkUsed (Sized h (size_rsp_header O) :: rest) w) d =
              Done (Some (h, l), mkUsed rest (w - l)) d).
  { unfold pop_front_raw. cbn [elems pop_elem]. erewrite bind_run by reflexivity. cbv iota beta.
    by rewrite (bind_run _ _ _ _ _ (size_u32_run _ d Hr)). }
  change (used_recv_buff _) with (mkUsed (Sized h (size_rsp_header O) :: rest) w). rewrite (bind_run _ _ _ _ _ E).
  cbv iota beta. erewrite bind_run by reflexivity. cbv iota beta.
  assert (El0 : l = Z.min (size_out_header + size_out_struct O) w) by done. clearbody l.
  destruct (Z.ltb_spec l size_out_header); [eexists; split; [reflexivity|]; cbn; split; [done|lia]|].
  set (head := bytes_at mem h size_out_header).
  destruct (Z.eqb_spec (reply_error head) 0) as [E0|E0]; cbn [negb orb].
  - destruct (Z.eqb_spec (l - size_out_header) (size_out_struct O)) as [El|El]; cbn [negb].
    + assert (Ev : exists b', pop_front_vec (mkUsed rest (w - l)) d =
        Done ((if n =? 0 then None else Some (Vector p (Z.min n (w - l)) n)), b') d).
      { unfold rest, pop_front_vec. destruct (n =? 0); eexists; [reflexivity|]. cbn [elems pop_elem].
        erewrite bind_run by reflexivity. cbv iota beta. by rewrite (bind_run _ _ _ _ _ (size_u32_run n d (proj2 Hn))). }
      destruct Ev as [b' Ev]. rewrite (bind_run _ _ _ _ _ Ev). cbv iota beta. eexists. split; [reflexivity|].
      cbn [reply_at out_error out_len rsp_header rsp_payload]. fold head. unfold size_rsp_header.
      assert (l = size_out_header + size_out_struct O) as -> by lia. split_and!; try done; [lia|].
      by destruct (n =? 0).
    + eexists. split; [reflexivity|]. cbn [reply_at]. fold head. split; [lia|]. right. rewrite E0. change (- 0) with 0. rewrite try_from_0.
      unfold size_rsp_header. split_and!; [done|lia|done].
  - eexists. split; [reflexivity|]. cbn [reply_at]. fold head. split; [lia|]. left. split; [done|].
    destruct (Errno.try_from_i32 (- reply_error head)); [by left|by right].
Qed.

(** A command handed to a device that answers, however long that takes and
    whatever it writes, comes back without a panic: with the header and the
    part of the payload that the device wrote, never more than there was room
    for; as the error number the device sent, or as an input/output error when
    that is unknown or the header is cut short.  The request queue has all of
    its descriptors back. *)
Theorem virtio_send_command mem O (cmd : Cmd O) n w j rest d s k :
  vqueues d !! 1%nat = Some s -> repr s (empty k) -> (4 <= k)%nat ->
  (match payload cmd with Some p => Z.of_nat (length p) <= u32_max | None => True end) ->
  0 <= n <= u32_max -> in_u 32 w ->
  exists r h p s' d', send_command mem (replicate j [] ++ [AServe w] :: rest) O cmd n d = Done (Some r) d' /\
    reply_at mem O n w h p r /\ vqueues d' = <[1%nat := s']> (vqueues d) /\ repr s' (empty k).
Proof.
  intros Hq R Hk Hp Hn Hw. unfold send_command.
  destruct (send_elems_run cmd d Hp) as (send & k1 & E1 & Hok & Hl). rewrite (bind_run _ _ _ _ _ E1).
  destruct (recv_elems_run O n (mkDriver (vqueues d) k1)) as (h & p & k2 & E2). rewrite (bind_run _ _ _ _ _ E2).
  set (t := mkToken send (recv_of O n h p)).
  replace (AvailBufferToken_new send (recv_of O n h p)) with (Ok (E := VirtqError) t) by (by destruct send).
  assert (Hlr : (length (recv_of O n h p) <= 2)%nat) by (unfold recv_of; destruct (n =? 0); cbn; lia).
  destruct (sizes O) as (_ & _ & Hr & _).
  assert (Ht : token_ok t).
  { split; cbn [send_buff recv_buff t]; [done| |lia|lia]. unfold recv_of. destruct (n =? 0); repeat constructor; cbn; lia. }
  assert (Hnd : ndesc (mkTransfer t None) = (length send + length (recv_of O n h p))%nat).
  { unfold ndesc, tdescs. cbn [ctrl_desc buff_tkn]. apply descs_of_length. }
  destruct (SplitProps.dispatch_blocking_returns repr s k t Direct 0 w j rest R Ht) as (s' & E3 & R');
    [by rewrite transfer_direct|rewrite transfer_direct, Hnd; lia|done|].
  erewrite bind_run by (eapply on_queue_run; [exact Hq|exact E3]). cbv iota beta.
  destruct (take_reply_run mem O n w h p send (mkDriver (<[1%nat := s']> (vqueues d)) k2) Hn (proj1 Hw)) as (r & E4 & Hrep).
  rewrite (bind_run _ _ _ _ _ E4). exists r, h, p, s'. eexists. split; [reflexivity|]. by split_and!.
Qed.
End Sending.
Arguments driver S : clear implicits.
Arguments mkDriver {S} _ _.

(** ** On a split queue *)

#[local] Existing Instances SplitVq.split_queue SplitProps.split_laws.

(** A header of 16 bytes: the length, then the error. *)
Definition demo_abi : FuseAbi :=
  Build_FuseAbi 40 16 (fun _ => 0) (fun O => match O with Lookup => 128 | _ => 0 end) 24 (fun _ => 0) (fun _ => 0) (fun _ => 0)
    1 1 1 8 512.
Definition demo_attr : fuse_attr := mkAttr 0 0 0 0 0 0 0 0 0 0 0 0 0 0 0.
#[local] Existing Instance demo_abi.
#[local] Instance demo_reply : FuseReply := {|
  reply_len b := nth 0 b 0;
  reply_error b := nth 4 b 0;
  reply_struct O b :=
    match O return OutStruct O with
    | Lookup => mkEntryOut (nth 0 b 0) demo_attr
    | Create => mkCreateOut (mkEntryOut 0 demo_attr) (mkOpenOut 0)
    | Open => mkOpenOut 0 | Write => mkWriteOut 0 | Lseek => mkLseekOut 0
    | Getattr | Setattr => mkAttrOut demo_attr | Poll => mkPollOut 0 | Mkdir => mkEntryOut 0 demo_attr
    | Init | Read | Readlink | Release | Unlink | Rmdir => tt
    end;
|}.

(** The memory after the answer: 144 bytes of length, no error, node 7. *)
Definition demo_mem (a : Z) : Z := if a =? 4096 * 2 then 144 else if a =? 4096 * 2 + 16 then 7 else 0.
Definition demo_cmd : Cmd Lookup := mkCmd (mkCmdHeader (O := Lookup) (mkInHeader 42 FUSE_LOOKUP 1 1) tt) (Some [47; 0]).

Lemma fs_split_direct t table : VqSpec.transfer (S := SplitVq.ring) t Direct table = mkTransfer t None.
Proof. done. Qed.

(** An answer of 144 bytes after two idle rounds of polling. *)
Lemma virtio_send_command_witness :
  exists q0 q1 r h p s' d', new (Some 4) 4 0 = Ok q0 /\ new (Some 4) 4 1 = Ok q1 /\
    send_command (fun k => 4096 * k) (fun _ => 64) demo_mem [[]; []; [AServe 144]] Lookup demo_cmd 0 (mkDriver [q0; q1] 0) =
      Done (Some r) d' /\
    reply_at demo_mem Lookup 0 144 h p r /\ vqueues d' = <[1%nat := s']> [q0; q1] /\ SplitProps.repr s' (empty 4).
Proof.
  destruct (SplitProps.new_repr 4 4 0 ltac:(lia) ltac:(by exists 16384)) as (q0 & E0 & _).
  destruct (SplitProps.new_repr 4 4 1 ltac:(lia) ltac:(by exists 16384)) as (q1 & E1 & R1).
  destruct (virtio_send_command (S := SplitVq.ring) (repr := SplitProps.repr) (fun k => 4096 * k) (fun _ => 64) fs_split_direct
    ltac:(intros []; vm_compute; repeat split; discriminate) demo_mem Lookup demo_cmd 0 144 2 []
    (mkDriver [q0; q1] 0) q1 4 eq_refl R1 ltac:(lia) ltac:(vm_compute; discriminate)
    ltac:(vm_compute; split; discriminate) ltac:(split; lia)) as (r & h & p & s' & d' & H).
  exists q0, q1, r, h, p, s', d'. split; [exact E0|]. split; [exact E1|]. exact H.
Defined.
End FsQueue.
