(* ===== verification/Rtl8139.v ===== *)
(** The driver of the RTL8139 network card, [src/src/drivers/net/rtl8139.rs]:
    the ring of received packets, the four transmit buffers, the interrupt
    handler and the set-up.  The registers of the card are a type class, the
    buffers are memory that both sides access. *)

From S2P Require Import Prelude Errors.

Module Rtl8139.

Definition RX_BUF_LEN : Z := 8192.
Definition TX_BUF_LEN : Z := 4096.
Definition NO_TX_BUFFERS : Z := 4.

Definition CR_RST : Z := 0x10.
Definition CR_RE : Z := 0x08.
Definition CR_TE : Z := 0x04.
Definition CR_BUFE : Z := 0x01.
Definition CR9346_EEM1 : Z := 0x80.
Definition CR9346_EEM0 : Z := 0x40.
Definition CONFIG1_DVRLOAD : Z := 0x20.
Definition CONFIG1_LWACT : Z := 0x10.
Definition RCR_MXDMA2 : Z := 0x400.
Definition RCR_MXDMA1 : Z := 0x200.
Definition RCR_MXDMA0 : Z := 0x100.
Definition RCR_AB : Z := 0x08.
Definition RCR_AM : Z := 0x04.
Definition RCR_APM : Z := 0x02.
Definition RCR_AAP : Z := 0x01.
Definition TCR_IFG : Z := 0x3000000.
Definition TCR_MXDMA2 : Z := 0x400.
Definition TCR_MXDMA1 : Z := 0x200.
Definition TCR_MXDMA0 : Z := 0x100.
Definition BMCR_SPD100 : Z := 0x2000.
Definition BMCR_SPD1000 : Z := 0x40.
Definition BMCR_ANE : Z := 0x1000.
Definition ISR_RXOVW : Z := 0x10.
Definition ISR_TER : Z := 0x08.
Definition ISR_TOK : Z := 0x04.
Definition ISR_RER : Z := 0x02.
Definition ISR_ROK : Z := 0x01.
Definition TSD_TABT : Z := 0x40000000.
Definition TSD_OWC : Z := 0x20000000.
Definition TSD_TOK : Z := 0x8000.
Definition TSD_TUN : Z := 0x4000.
Definition INT_MASK : Z := Z.lor (Z.lor (Z.lor (Z.lor ISR_ROK ISR_TOK) ISR_RXOVW) ISR_TER) ISR_RER.
Definition INT_MASK_NO_ROK : Z := Z.lor (Z.lor (Z.lor ISR_TOK ISR_RXOVW) ISR_TER) ISR_RER.

(** The registers the driver uses ([Regs]); [IDR], [TSD] and [TSAD] have an
    index. *)
Inductive reg : Set :=
  | IDR (i : nat) | TSD (i : nat) | TSAD (i : nat)
  | RBSTART | CR | CAPR | IMR | ISR | TCR | RCR | CR_9346 | CONFIG1 | BMCR.

(** The structure [Regs]: its fields in order, each with size and alignment,
    and the offsets [repr(C)] gives them. *)
Definition Regs : list (string * Z * Z) :=
  [("idr0", 1, 1); ("idr1", 1, 1); ("idr2", 1, 1); ("idr3", 1, 1); ("idr4", 1, 1); ("idr5", 1, 1);
   ("__reserved0", 2, 1); ("mar", 8, 1); ("tsd0", 4, 4); ("tsd1", 4, 4); ("tsd2", 4, 4); ("tsd3", 4, 4);
   ("tsad0", 4, 4); ("tsad1", 4, 4); ("tsad2", 4, 4); ("tsad3", 4, 4); ("rbstart", 4, 4); ("erbcr", 2, 2);
   ("ersr", 1, 1); ("cr", 1, 1); ("capr", 2, 2); ("cbr", 2, 2); ("imr", 2, 2); ("isr", 2, 2); ("tcr", 4, 4);
   ("rcr", 4, 4); ("tctr", 4, 4); ("mpc", 4, 4); ("cr_9346", 1, 1); ("config0", 1, 1); ("config1", 1, 1);
   ("__reserved1", 1, 1); ("timer_int", 4, 4); ("msr", 1, 1); ("config3", 1, 1); ("config4", 1, 1);
   ("__reserved2", 1, 1); ("mulint", 2, 2); ("rerid", 1, 1); ("__reserved3", 1, 1); ("tsad", 2, 2); ("bmcr", 2, 2);
   ("bmsr", 2, 2); ("anar", 2, 2); ("anlpar", 2, 2); ("aner", 2, 2); ("dis", 2, 2); ("fcsc", 2, 2); ("nwaytr", 2, 2);
   ("rec", 2, 2); ("cscr", 2, 2); ("__reserved4", 1, 1); ("phy1_parm", 4, 4); ("tw_parm", 4, 4); ("phy2_parm", 1, 1);
   ("__reserved5", 3, 1); ("crc0", 1, 1); ("crc1", 1, 1); ("crc2", 1, 1); ("crc3", 1, 1); ("crc4", 1, 1);
   ("crc5", 1, 1); ("crc6", 1, 1); ("crc7", 1, 1); ("wakeup0", 8, 8); ("wakeup1", 8, 8); ("wakeup2", 8, 8);
   ("wakeup3", 8, 8); ("wakeup4", 8, 8); ("wakeup5", 8, 8); ("wakeup6", 8, 8); ("wakeup7", 8, 8); ("lsbcrc0", 1, 1);
   ("lsbcrc1", 1, 1); ("lsbcrc2", 1, 1); ("lsbcrc3", 1, 1); ("lsbcrc4", 1, 1); ("lsbcrc5", 1, 1); ("lsbcrc6", 1, 1);
   ("lsbcrc7", 1, 1); ("__reserved6", 4, 1); ("config5", 1, 1); ("__reserved7", 39, 1)].
Fixpoint offsets (at_ : Z) (l : list (string * Z * Z)) : list (string * Z) :=
  match l with
  | [] => []
  | (name, size, align) :: l =>
      let o := (at_ + align - 1) / align * align in (name, o) :: offsets (o + size) l
  end.
Definition offset_of (name : string) : option Z := (list_to_map (offsets 0 Regs) : gmap string Z) !! name.

(** The card as the processor sees it. *)
Class Card (D : Type) : Type := {
  rd : reg -> M D Z;
  wr : reg -> Z -> M D unit;
}.

Inductive RTL8139Error : Set := InitFailed | ResetFailed | Unknown.

Record RxFields : Type := mkRx { rxbuffer : list Z; rxpos : Z; rx_in_use : bool }.
Record TxFields : Type := mkTx { tx_in_use : list bool; tx_counter : Z; txbuffer : list Z; remaining_bufs : Z }.

Section Driver.
Context {D : Type} `{Card D}.

(** [wakes] counts the calls of [wake_network_waker]. *)
Record RTL8139Driver : Type := mkDriver {
  regs : D; mtu : Z; mac : list Z; rx_fields : RxFields; tx_fields : TxFields; wakes : Z }.
Definition set_regs (x : D) (d : RTL8139Driver) : RTL8139Driver :=
  mkDriver x (mtu d) (mac d) (rx_fields d) (tx_fields d) (wakes d).
Definition set_rx (x : RxFields) (d : RTL8139Driver) : RTL8139Driver :=
  mkDriver (regs d) (mtu d) (mac d) x (tx_fields d) (wakes d).
Definition set_tx (x : TxFields) (d : RTL8139Driver) : RTL8139Driver :=
  mkDriver (regs d) (mtu d) (mac d) (rx_fields d) x (wakes d).
Definition set_rxpos (x : Z) (d : RTL8139Driver) : RTL8139Driver :=
  set_rx (mkRx (rxbuffer (rx_fields d)) x (rx_in_use (rx_fields d))) d.
Definition set_rx_in_use (x : bool) (d : RTL8139Driver) : RTL8139Driver :=
  set_rx (mkRx (rxbuffer (rx_fields d)) (rxpos (rx_fields d)) x) d.
Definition set_remaining (x : Z) (d : RTL8139Driver) : RTL8139Driver :=
  let t := tx_fields d in set_tx (mkTx (tx_in_use t) (tx_counter t) (txbuffer t) x) d.

Definition read_reg (r : reg) : M RTL8139Driver Z := zoom regs set_regs (rd r).
Definition write_reg (r : reg) (v : Z) : M RTL8139Driver unit := zoom regs set_regs (wr r v).

(** [&buf[start..][..n]] *)
Definition window {S} (buf : list Z) (start n : Z) : M S (list Z) :=
  let l := Z.of_nat (length buf) in
  if (start <=? l) && (n <=? l - start) then ret (take (Z.to_nat n) (drop (Z.to_nat start) buf))
  else panic "range end index out of range for slice".

(** ** Receiving *)

Definition rx_peek_u16 : M RTL8139Driver Z :=
  let! d := get in
  let! b := window (rxbuffer (rx_fields d)) (rxpos (rx_fields d)) 2 in
  ret (nth 0 b 0 + 256 * nth 1 b 0).

Definition advance_rxpos (count : Z) : M RTL8139Driver unit :=
  modify (fun d => set_rxpos ((rxpos (rx_fields d) + count) mod RX_BUF_LEN) d).

Definition capr_of (pos : Z) : Z := if 0x10 <=? pos then pos - 0x10 else RX_BUF_LEN - (0x10 - pos).

Definition consume_current_buffer : M RTL8139Driver unit :=
  let! length := rx_peek_u16 in
  do! advance_rxpos (length + 2) in
  do! modify (fun d => set_rxpos (Z.land (rxpos (rx_fields d) + 3) (Z.lnot 3) mod RX_BUF_LEN) d) in
  let! d := get in
  write_reg CAPR (capr_of (rxpos (rx_fields d))).

(** [RxToken::consume]: the frame is what the closure is given; the token is
    dropped at the end. *)
Definition drop_rx_token : M RTL8139Driver unit := modify (set_rx_in_use false).
Definition rx_consume : M RTL8139Driver (list Z) :=
  do! advance_rxpos 2 in
  let! n := rx_peek_u16 in
  let length := wrapu 16 (n - 4) in
  let! d := get in
  let buf := rxbuffer (rx_fields d) in
  let pos := (rxpos (rx_fields d) + 2) mod RX_BUF_LEN in
  let! frame :=
    (if RX_BUF_LEN <? pos + length then
       let! first := window buf pos (RX_BUF_LEN - pos) in
       let! second := window buf 0 (length - Z.of_nat (List.length first)) in
       ret (first ++ second)
     else window buf pos length) in
  do! consume_current_buffer in
  do! drop_rx_token in
  ret frame.

(** ** Sending *)

Definition drop_tx_token : M RTL8139Driver unit :=
  modify (fun d => set_remaining (wrapu 64 (remaining_bufs (tx_fields d) + 1)) d).

(** [TxToken::consume] with the bytes the closure writes. *)
Definition tx_consume (frame : list Z) : M RTL8139Driver unit :=
  let len := Z.of_nat (length frame) in
  let! d := get in
  let t := tx_fields d in
  let id := Z.to_nat (tx_counter t mod NO_TX_BUFFERS) in
  let! used := unwrap (tx_in_use t !! id) "index out of bounds" in
  do! assert_ (negb used && (len <=? TX_BUF_LEN)) "Unable to get TX buffer" in
  let start := (id * Z.to_nat TX_BUF_LEN)%nat in
  let buf := txbuffer t in
  do! modify (set_tx (mkTx (<[id := true]> (tx_in_use t)) (wrapu 64 (tx_counter t + 1))
                (take start buf ++ frame ++ drop (start + length frame) buf) (remaining_bufs t))) in
  write_reg (TSD id) len.

(** ** The interface of the network stack *)

Definition has_packet : M RTL8139Driver bool :=
  let! cmd := read_reg CR in
  if negb (Z.land cmd CR_BUFE =? CR_BUFE) then
    let! header := rx_peek_u16 in ret (Z.land header ISR_ROK =? ISR_ROK)
  else ret false.

(** [true]: a token for the packet and one to send. *)
Definition receive : M RTL8139Driver bool :=
  let! d := get in
  if rx_in_use (rx_fields d) then ret false
  else
    let! b := has_packet in
    if negb b then ret false else do! modify (set_rx_in_use true) in ret true.

Definition transmit : M RTL8139Driver bool :=
  gets (fun d => negb (remaining_bufs (tx_fields d) =? 0)).

Definition max_burst_size (d : RTL8139Driver) : Z := Z.min NO_TX_BUFFERS (RX_BUF_LEN / mtu d).

Definition set_polling_mode (value : bool) : M RTL8139Driver unit :=
  write_reg IMR (if value then INT_MASK_NO_ROK else INT_MASK).

(** One buffer of the loop of [tx_handler]. *)
Definition tx_reclaim (i : nat) : M RTL8139Driver unit :=
  let! d := get in
  match tx_in_use (tx_fields d) !! i with
  | Some true =>
      let! txstatus := read_reg (TSD i) in
      if 0 <? Z.land txstatus (Z.lor TSD_TABT TSD_OWC) then ret tt
      else if Z.land txstatus TSD_TOK =? TSD_TOK then
        modify (fun d => let t := tx_fields d in
          set_tx (mkTx (<[i := false]> (tx_in_use t)) (tx_counter t) (txbuffer t) (wrapu 64 (remaining_bufs t + 1))) d)
      else ret tt
  | _ => ret tt
  end.
Fixpoint tx_loop (l : list nat) : M RTL8139Driver unit :=
  match l with [] => ret tt | i :: l => do! tx_reclaim i in tx_loop l end.
Definition tx_handler : M RTL8139Driver unit :=
  let! d := get in tx_loop (seq 0 (length (tx_in_use (tx_fields d)))).

Definition handle_interrupt : M RTL8139Driver unit :=
  let! isr_contents := read_reg ISR in
  do! (if Z.land isr_contents ISR_TOK =? ISR_TOK then tx_handler else ret tt) in
  do! write_reg ISR (Z.land isr_contents INT_MASK) in
  modify (fun d => mkDriver (regs d) (mtu d) (mac d) (rx_fields d) (tx_fields d) (wakes d + 1)).

(** [Drop for RTL8139Driver] *)
Definition drop_driver : M RTL8139Driver unit := write_reg CR CR_RST.

(** ** Set-up *)

Section Init.
Variables (phys_rx phys_tx : Z) (default_mtu : Z).

(** The register [cr] until the reset bit is gone, at most [tmp] times. *)
Fixpoint await_reset (tmp : nat) : M D nat :=
  let! cr := rd CR in
  if Z.land cr CR_RST =? CR_RST then
    match tmp with O => ret O | Datatypes.S tmp => await_reset tmp end
  else ret tmp.

Fixpoint read_mac (l : list nat) : M D (list Z) :=
  match l with [] => ret [] | i :: l => let! b := rd (IDR i) in let! m := read_mac l in ret (b :: m) end.

(** [u32::try_from(phys_addr).unwrap()] *)
Definition phys_u32 (a : Z) : M D Z :=
  if (0 <=? a) && (a <=? u32_max) then ret a else panic "called `Result::unwrap()` on an `Err` value".

Fixpoint set_tsads (l : list nat) : M D unit :=
  match l with
  | [] => ret tt
  | i :: l =>
      let! a := phys_u32 (phys_tx + Z.of_nat i * TX_BUF_LEN) in
      do! wr (TSAD i) a in set_tsads l
  end.

(** The registers are there once a memory bar is mapped; the result without
    them. *)
Definition setup_regs : M D (Result RTL8139Error (list Z)) :=
  let! mac := read_mac (seq 0 6) in
  let! tcr := rd TCR in
  if tcr =? 0xffffff then ret (Err InitFailed)
  else
    do! wr CR CR_RST in
    let! tmp := await_reset (Z.to_nat 10000) in
    if (tmp =? 0)%nat then ret (Err ResetFailed)
    else
      do! wr CR (Z.lor CR_TE CR_RE) in
      do! wr CR_9346 (Z.lor CR9346_EEM1 CR9346_EEM0) in
      do! wr CONFIG1 0 in
      do! wr CONFIG1 (Z.lor (wrapu 8 (Z.lnot (Z.lor CONFIG1_DVRLOAD CONFIG1_LWACT))) CONFIG1_DVRLOAD) in
      do! wr CR_9346 0 in
      do! wr RCR (Z.lor (Z.lor (Z.lor (Z.lor (Z.lor (Z.lor RCR_MXDMA2 RCR_MXDMA1) RCR_MXDMA0) RCR_AB) RCR_AM) RCR_APM) RCR_AAP) in
      do! wr TCR (Z.lor (Z.lor (Z.lor TCR_IFG TCR_MXDMA0) TCR_MXDMA1) TCR_MXDMA2) in
      let! a := phys_u32 phys_rx in
      do! wr RBSTART a in
      do! set_tsads (seq 0 4) in
      do! wr IMR INT_MASK in
      do! wr BMCR BMCR_ANE in
      let! _tmp := rd BMCR in
      do! wr CR (Z.lor CR_TE CR_RE) in
      let! _cr := rd CR in
      let! _isr := rd ISR in
      ret (Ok mac).

Definition init_device (regs : option D) : exec unit (Result RTL8139Error RTL8139Driver) :=
  match regs with
  | None => Done (Err Unknown) tt
  | Some c =>
      match setup_regs c with
      | Panic why => Panic why
      | Done (Err e) _ => Done (Err e) tt
      | Done (Ok mac) c =>
          Done (Ok (mkDriver c default_mtu mac (mkRx (replicate (Z.to_nat RX_BUF_LEN) 0) 0 false)
                      (mkTx (replicate 4 false) 0 (replicate (Z.to_nat (NO_TX_BUFFERS * TX_BUF_LEN)) 0) NO_TX_BUFFERS) 0)) tt
      end
  end.
End Init.
End Driver.
Arguments RTL8139Driver D : clear implicits.
End Rtl8139.
