(* ===== verification/RtlProps.v ===== *)
(** The RTL8139 driver against the card: received frames reach the network
    stack in order and unchanged, frames handed over leave the card in order
    and unchanged, and the driver panics exactly when a fifth frame is handed
    over before one was taken back, because it never refuses a token. *)

From S2P Require Import Prelude Errors Rtl8139.

Module RtlProps.
Import Rtl8139.

(** ** The card *)

(** What the data sheet says of the registers: [c_rptr] is [CAPR] plus 16,
    [c_wptr] where the card writes next, [c_txd] counts the transmissions
    done; [c_sent] are the frames on the wire. *)
Record card : Type := mkCard {
  c_mac : list Z; c_cr : Z; c_rptr : Z; c_wptr : Z; c_isr : Z; c_imr : Z;
  c_tsd : list Z; c_tsad : list Z; c_rbstart : Z; c_txd : Z; c_sent : list (list Z) }.

Definition set_isr (x : Z) (c : card) : card :=
  mkCard (c_mac c) (c_cr c) (c_rptr c) (c_wptr c) x (c_imr c) (c_tsd c) (c_tsad c) (c_rbstart c) (c_txd c) (c_sent c).
Definition set_tsd (x : list Z) (c : card) : card :=
  mkCard (c_mac c) (c_cr c) (c_rptr c) (c_wptr c) (c_isr c) (c_imr c) x (c_tsad c) (c_rbstart c) (c_txd c) (c_sent c).
Definition set_ptrs (r w : Z) (c : card) : card :=
  mkCard (c_mac c) (c_cr c) r w (c_isr c) (c_imr c) (c_tsd c) (c_tsad c) (c_rbstart c) (c_txd c) (c_sent c).

(** The host owns a transmit buffer after the reset and when it is sent. *)
Definition TSD_OWN : Z := 0x2000.
Definition reset (c : card) : card :=
  mkCard (c_mac c) 0 0 0 0 0 (replicate 4 TSD_OWN) (replicate 4 0) 0 0 (c_sent c).

Definition card_rd (r : reg) (c : card) : Z :=
  match r with
  | IDR i => nth i (c_mac c) 0
  | TSD i => nth i (c_tsd c) 0
  | TSAD i => nth i (c_tsad c) 0
  | RBSTART => c_rbstart c
  | CR => Z.lor (c_cr c) (if c_rptr c =? c_wptr c then CR_BUFE else 0)
  | CAPR => (c_rptr c - 0x10) mod RX_BUF_LEN
  | IMR => c_imr c
  | ISR => c_isr c
  | BMCR => BMCR_ANE
  | TCR | RCR | CR_9346 | CONFIG1 => 0
  end.
Definition card_wr (r : reg) (v : Z) (c : card) : card :=
  match r with
  | TSD i => set_tsd (<[i := v]> (c_tsd c)) c
  | TSAD i => mkCard (c_mac c) (c_cr c) (c_rptr c) (c_wptr c) (c_isr c) (c_imr c) (c_tsd c) (<[i := v]> (c_tsad c))
                (c_rbstart c) (c_txd c) (c_sent c)
  | RBSTART => mkCard (c_mac c) (c_cr c) (c_rptr c) (c_wptr c) (c_isr c) (c_imr c) (c_tsd c) (c_tsad c) v (c_txd c) (c_sent c)
  | CR => if Z.land v CR_RST =? CR_RST then reset c
          else mkCard (c_mac c) v (c_rptr c) (c_wptr c) (c_isr c) (c_imr c) (c_tsd c) (c_tsad c) (c_rbstart c) (c_txd c) (c_sent c)
  | CAPR => set_ptrs ((v + 0x10) mod RX_BUF_LEN) (c_wptr c) c
  | IMR => mkCard (c_mac c) (c_cr c) (c_rptr c) (c_wptr c) (c_isr c) v (c_tsd c) (c_tsad c) (c_rbstart c) (c_txd c) (c_sent c)
  | ISR => set_isr (Z.land (c_isr c) (Z.lnot v)) c
  | _ => c
  end.
#[local] Instance rtl_card : Card card := {|
  rd r c := Done (card_rd r c) c;
  wr r v c := Done tt (card_wr r v c);
|}.

(** The registers the driver uses are where the data sheet has them. *)
Lemma regs_at_datasheet_offsets :
  map offset_of ["idr0"; "tsd0"; "tsd3"; "tsad0"; "tsad3"; "rbstart"; "cr"; "capr"; "imr"; "isr"; "tcr"; "rcr"; "cr_9346"; "config1"; "bmcr"] =
    map Some [0x00; 0x10; 0x1c; 0x20; 0x2c; 0x30; 0x37; 0x38; 0x3c; 0x3e; 0x40; 0x44; 0x50; 0x52; 0x62].
Proof. vm_compute. reflexivity. Qed.

(** The wake-up frames and what follows are four bytes past their places
    (0x8c and 0xd8), because of the alignment of [le64]. *)
Lemma wakeup_regs_misplaced : offset_of "wakeup0" = Some 0x90 /\ offset_of "config5" = Some 0xdc.
Proof. vm_compute. done. Qed.

(** Bytes of the ring: position [k] wraps around. *)
Definition byte_at (rx : list Z) (k : Z) : Z := nth (Z.to_nat (k mod RX_BUF_LEN)) rx 0.
Fixpoint put_ring (rx : list Z) (pos : Z) (l : list Z) : list Z :=
  match l with
  | [] => rx
  | b :: l => put_ring (<[Z.to_nat (pos mod RX_BUF_LEN) := b]> rx) (pos + 1) l
  end.

(** A packet in the ring: status, length with the checksum, frame, checksum. *)
Definition packet (f crc : list Z) : list Z :=
  let n := Z.of_nat (length f) + 4 in [ISR_ROK; 0; n mod 256; n / 256] ++ f ++ crc.
Definition align4 (n : Z) : Z := Z.land (n + 3) (Z.lnot 3).
(** The room a packet takes. *)
Definition total (f : list Z) : Z := align4 (Z.of_nat (length f) + 8).

(** The card receives a frame: it drops it when the ring has no room. *)
Definition card_rx (f crc : list Z) : M (RTL8139Driver card) unit := modify (fun d =>
  let c := regs d in
  let avail := (c_rptr c - c_wptr c) mod RX_BUF_LEN in
  if negb (avail =? 0) && (avail <=? total f) then set_regs (set_isr (Z.lor (c_isr c) ISR_RXOVW) c) d
  else
    let rx := rx_fields d in
    set_rx (mkRx (put_ring (rxbuffer rx) (c_wptr c) (packet f crc)) (rxpos rx) (rx_in_use rx))
      (set_regs (set_isr (Z.lor (c_isr c) ISR_ROK) (set_ptrs (c_rptr c) ((c_wptr c + total f) mod RX_BUF_LEN) c)) d)).

(** The card sends the next buffer that was handed over, read from the memory
    at its start address ([base] is where the transmit buffers are). *)
Definition card_tx (base : Z) : M (RTL8139Driver card) unit := modify (fun d =>
  let c := regs d in
  let i := Z.to_nat (c_txd c mod NO_TX_BUFFERS) in
  let v := nth i (c_tsd c) 0 in
  if Z.testbit v 13 then d
  else
    let f := take (Z.to_nat v) (drop (Z.to_nat (nth i (c_tsad c) 0 - base)) (txbuffer (tx_fields d))) in
    set_regs (mkCard (c_mac c) (c_cr c) (c_rptr c) (c_wptr c) (Z.lor (c_isr c) ISR_TOK) (c_imr c)
                (<[i := Z.lor v (Z.lor TSD_OWN TSD_TOK)]> (c_tsd c)) (c_tsad c) (c_rbstart c) (c_txd c + 1) (c_sent c ++ [f])) d).

(** ** The promise *)

Inductive op : Type :=
  | CardRx (f crc : list Z)
  | CardTx
  | Poll
  | Peek
  | Send (f : list Z)
  | Irq.

Inductive answer : Type := Nothing | Frame (f : option (list Z)).

(** Frames received and not yet read; handed over and not yet sent; sent; and
    how many transmit buffers are not taken back. *)
Record nic : Type := mkNic { s_rx : list (list Z); s_out : list (list Z); s_sent : list (list Z); s_used : nat }.

Definition rx_room (q : list (list Z)) : Z := foldr (fun f n => total f + n) 0 q.

(** [None]: the driver panics. *)
Definition spec (x : op) (s : nic) : option (answer * nic) :=
  match x with
  | CardRx f _ =>
      let fits := bool_decide (s_rx s = []) || (total f <? RX_BUF_LEN - rx_room (s_rx s)) in
      Some (Nothing, if fits then mkNic (s_rx s ++ [f]) (s_out s) (s_sent s) (s_used s) else s)
  | CardTx =>
      Some (Nothing, match s_out s with
                     | [] => s
                     | f :: out => mkNic (s_rx s) out (s_sent s ++ [f]) (s_used s)
                     end)
  | Poll => Some (Frame (head (s_rx s)), mkNic (tail (s_rx s)) (s_out s) (s_sent s) (s_used s))
  | Peek => Some (Nothing, s)
  | Send f =>
      if (s_used s <? 4)%nat && (Z.of_nat (length f) <=? TX_BUF_LEN)
      then Some (Nothing, mkNic (s_rx s) (s_out s ++ [f]) (s_sent s) (Datatypes.S (s_used s))) else None
  | Irq => Some (Nothing, mkNic (s_rx s) (s_out s) (s_sent s) (length (s_out s)))
  end.

Fixpoint spec_run (xs : list op) (s : nic) : option (list answer * nic) :=
  match xs with
  | [] => Some ([], s)
  | x :: xs =>
      match spec x s with
      | None => None
      | Some (r, s) => match spec_run xs s with None => None | Some (rs, s) => Some (r :: rs, s) end
      end
  end.

(** ** The driver *)

Section Run.
Variable base : Z.

(** The network stack takes the frame and sends no answer; drops both tokens;
    asks for a token and uses it. *)
Definition poll : M (RTL8139Driver card) answer :=
  let! b := receive in
  if b then let! f := rx_consume in do! drop_tx_token in ret (Frame (Some f)) else ret (Frame None).
Definition peek : M (RTL8139Driver card) answer :=
  let! b := receive in
  if b then do! drop_rx_token in do! drop_tx_token in ret Nothing else ret Nothing.
Definition send (f : list Z) : M (RTL8139Driver card) answer :=
  let! b := transmit in
  if b then do! tx_consume f in ret Nothing else panic "no token".

Definition perform (x : op) : M (RTL8139Driver card) answer :=
  match x with
  | CardRx f crc => do! card_rx f crc in ret Nothing
  | CardTx => do! card_tx base in ret Nothing
  | Poll => poll
  | Peek => peek
  | Send f => send f
  | Irq => do! handle_interrupt in ret Nothing
  end.
Fixpoint performs (xs : list op) : M (RTL8139Driver card) (list answer) :=
  match xs with
  | [] => ret []
  | x :: xs => let! r := perform x in let! rs := performs xs in ret (r :: rs)
  end.
End Run.

(** ** The ring of received packets *)

(** The [n] bytes from position [pos] on, around the end. *)
Fixpoint ring (rx : list Z) (pos : Z) (n : nat) : list Z :=
  match n with O => [] | Datatypes.S n => byte_at rx pos :: ring rx (pos + 1) n end.

Lemma ring_length rx pos n : length (ring rx pos n) = n.
Proof. revert pos. induction n; intros pos; simpl; auto. Qed.

Lemma ring_app rx pos a b : ring rx pos (a + b) = ring rx pos a ++ ring rx (pos + Z.of_nat a) b.
Proof.
  revert pos. induction a as [|a IH]; intros pos; simpl.
  - f_equal. lia.
  - f_equal. rewrite IH. do 2 f_equal. lia.
Qed.

Lemma byte_at_shift rx p q : p mod RX_BUF_LEN = q mod RX_BUF_LEN -> byte_at rx p = byte_at rx q.
Proof. unfold byte_at. by intros ->. Qed.

Lemma ring_shift rx n p q : p mod RX_BUF_LEN = q mod RX_BUF_LEN -> ring rx p n = ring rx q n.
Proof.
  revert p q. induction n as [|n IH]; intros p q E; simpl; [done|].
  rewrite (byte_at_shift rx p q E). f_equal. apply IH.
  rewrite Zplus_mod, E, <- Zplus_mod. done.
Qed.

(** Away from the end it is a slice. *)
Lemma ring_window rx pos n :
  length rx = Z.to_nat RX_BUF_LEN -> 0 <= pos -> pos + Z.of_nat n <= RX_BUF_LEN ->
  ring rx pos n = take n (drop (Z.to_nat pos) rx).
Proof.
  intros Hl. revert pos. induction n as [|n IH]; intros pos Hp Hn; [done|]. simpl.
  assert (Hlt : (Z.to_nat pos < length rx)%nat) by lia.
  destruct (lookup_lt_is_Some_2 rx (Z.to_nat pos) Hlt) as [b Hb].
  rewrite (drop_S _ _ _ Hb). simpl. unfold byte_at. rewrite Z.mod_small by lia.
  rewrite (nth_lookup_Some _ _ _ _ Hb). f_equal. rewrite IH by lia. do 2 f_equal. lia.
Qed.

Lemma put_ring_length rx pos l : length (put_ring rx pos l) = length rx.
Proof. revert rx pos. induction l as [|b l IH]; intros rx pos; simpl; [done|]. by rewrite IH, length_insert. Qed.

Lemma byte_at_insert rx p q b :
  length rx = Z.to_nat RX_BUF_LEN ->
  byte_at (<[Z.to_nat (p mod RX_BUF_LEN) := b]> rx) q =
    if decide (p mod RX_BUF_LEN = q mod RX_BUF_LEN) then b else byte_at rx q.
Proof.
  intros Hl. unfold byte_at.
  assert (0 <= p mod RX_BUF_LEN < RX_BUF_LEN) by (apply Z.mod_pos_bound; done).
  assert (0 <= q mod RX_BUF_LEN < RX_BUF_LEN) by (apply Z.mod_pos_bound; done).
  case_decide as E.
  - rewrite E. apply nth_lookup_Some, list_lookup_insert_eq. lia.
  - rewrite !nth_lookup, list_lookup_insert_ne by lia. done.
Qed.

(** Positions in a window of the ring's size are apart. *)
Lemma apart p q : p <> q -> Z.abs (p - q) < RX_BUF_LEN -> p mod RX_BUF_LEN <> q mod RX_BUF_LEN.
Proof. unfold RX_BUF_LEN. intros. Z.to_euclidean_division_equations. lia. Qed.

Lemma put_ring_other rx pos l q n :
  length rx = Z.to_nat RX_BUF_LEN -> q + Z.of_nat n <= pos -> pos + Z.of_nat (length l) <= q + RX_BUF_LEN ->
  ring (put_ring rx pos l) q n = ring rx q n.
Proof.
  revert rx pos. induction l as [|b l IH]; intros rx pos Hl Hq Hp; simpl in *; [done|].
  rewrite IH by (rewrite ?length_insert; lia).
  assert (Hq' : q + RX_BUF_LEN > pos) by lia. clear IH Hp. revert q Hq Hq'.
  induction n as [|n IH]; intros q Hq Hq'; simpl; [done|]. rewrite byte_at_insert by done.
  rewrite decide_False by (apply apart; lia). f_equal. apply IH; lia.
Qed.

Lemma put_ring_byte rx pos l q :
  length rx = Z.to_nat RX_BUF_LEN -> q < pos -> pos + Z.of_nat (length l) <= q + RX_BUF_LEN ->
  byte_at (put_ring rx pos l) q = byte_at rx q.
Proof.
  intros Hl Hq Hp. pose proof (put_ring_other rx pos l q 1 Hl) as E. simpl in E.
  by injection (E ltac:(lia) ltac:(lia)).
Qed.

(** What is written is read. *)
Lemma put_ring_same rx pos l :
  length rx = Z.to_nat RX_BUF_LEN -> Z.of_nat (length l) <= RX_BUF_LEN ->
  ring (put_ring rx pos l) pos (length l) = l.
Proof.
  revert rx pos. induction l as [|b l IH]; intros rx pos Hl Hn; simpl in *; [done|]. f_equal.
  - rewrite put_ring_byte by (rewrite ?length_insert; lia). rewrite byte_at_insert by done.
    by rewrite decide_True.
  - apply IH; rewrite ?length_insert; lia.
Qed.

#[local] Arguments ring : simpl never.

Lemma align4_eq n : align4 n = 4 * ((n + 3) / 4).
Proof.
  unfold align4. rewrite <- Z.ldiff_land. change 3 with (Z.ones 2) at 2.
  rewrite Z.ldiff_ones_r by done. rewrite Z.shiftr_div_pow2, Z.shiftl_mul_pow2 by done. change (2 ^ 2) with 4. lia.
Qed.

Lemma total_eq f : total f = 4 * ((Z.of_nat (length f) + 11) / 4).
Proof. unfold total. rewrite align4_eq. do 2 f_equal. lia. Qed.

Lemma total_bounds f : Z.of_nat (length f) + 8 <= total f <= Z.of_nat (length f) + 11.
Proof. rewrite total_eq. Z.to_euclidean_division_equations. lia. Qed.

(** The header and the frame of the packets from [R] on. *)
Definition header (f : list Z) : list Z :=
  let n := Z.of_nat (length f) + 4 in [ISR_ROK; 0; n mod 256; n / 256].
Fixpoint stored (rx : list Z) (R : Z) (q : list (list Z)) : Prop :=
  match q with
  | [] => True
  | f :: q => ring rx R (4 + length f) = header f ++ f /\ stored rx (R + total f) q
  end.

Definition small (f : list Z) : Prop := Z.of_nat (length f) <= 1792.

Lemma rx_room_app q f : rx_room (q ++ [f]) = rx_room q + total f.
Proof. induction q as [|g q IH]; simpl; [lia|]. rewrite IH. lia. Qed.

Lemma rx_room_pos q : 0 <= rx_room q.
Proof. induction q as [|g q IH]; simpl; [done|]. pose proof (total_bounds g). lia. Qed.

Lemma rx_room_4 q : rx_room q mod 4 = 0.
Proof.
  induction q as [|g q IH]; simpl; [done|]. rewrite total_eq.
  rewrite (Z.mul_comm 4), Z.add_comm, Z.mod_add by done. done.
Qed.

Lemma stored_put rx R q pos l :
  length rx = Z.to_nat RX_BUF_LEN -> R + rx_room q <= pos -> pos + Z.of_nat (length l) <= R + RX_BUF_LEN ->
  stored rx R q -> stored (put_ring rx pos l) R q.
Proof.
  intros Hl. revert R. induction q as [|f q IH]; intros R Hq Hp; simpl in *; [done|].
  pose proof (total_bounds f). pose proof (rx_room_pos q). intros [E H2]. split.
  - rewrite put_ring_other by lia. done.
  - apply IH; try done; lia.
Qed.

Lemma stored_app rx R q f :
  stored rx R q -> ring rx (R + rx_room q) (4 + length f) = header f ++ f -> stored rx R (q ++ [f]).
Proof.
  revert R. induction q as [|g q IH]; intros R; simpl.
  - rewrite Z.add_0_r. done.
  - intros [Eg Hq] Ef. split; [done|]. apply IH; [done|].
    replace (R + total g + rx_room q) with (R + (total g + rx_room q)) by lia. exact Ef.
Qed.

(** ** The invariant *)

(** [R]: all bytes read; [a]: all frames handed over; [n] bounds the number
    of tokens that were given back. *)
Record rx_inv (d : RTL8139Driver card) (q : list (list Z)) (R : Z) : Prop := mkRxInv {
  ri_buf : length (rxbuffer (rx_fields d)) = Z.to_nat RX_BUF_LEN;
  ri_free : rx_in_use (rx_fields d) = false;
  ri_R : 0 <= R /\ R mod 4 = 0;
  ri_pos : rxpos (rx_fields d) = R mod RX_BUF_LEN;
  ri_rptr : c_rptr (regs d) = R mod RX_BUF_LEN;
  ri_wptr : c_wptr (regs d) = (R + rx_room q) mod RX_BUF_LEN;
  ri_room : rx_room q < RX_BUF_LEN;
  ri_small : Forall small q;
  ri_cr : c_cr (regs d) = Z.lor CR_TE CR_RE;
  ri_stored : stored (rxbuffer (rx_fields d)) R q;
}.

Lemma window_run {S} (rx : list Z) pos n (s : S) :
  length rx = Z.to_nat RX_BUF_LEN -> 0 <= pos -> pos + Z.of_nat n <= RX_BUF_LEN ->
  window rx pos (Z.of_nat n) s = Done (ring rx pos n) s.
Proof.
  intros Hl Hp Hn. unfold window. rewrite Hl, Z2Nat.id by done.
  destruct (Z.leb_spec pos RX_BUF_LEN), (Z.leb_spec (Z.of_nat n) (RX_BUF_LEN - pos)); try lia.
  simpl. unfold ret. rewrite Nat2Z.id, ring_window by done. done.
Qed.

Lemma rx_peek_run (d : RTL8139Driver card) pos b0 b1 :
  length (rxbuffer (rx_fields d)) = Z.to_nat RX_BUF_LEN ->
  rxpos (rx_fields d) = pos mod RX_BUF_LEN -> pos mod 2 = 0 ->
  ring (rxbuffer (rx_fields d)) pos 2 = [b0; b1] ->
  rx_peek_u16 (D := card) d = Done (b0 + 256 * b1) d.
Proof.
  intros Hl Hp H2 E. unfold rx_peek_u16. unfold bind at 1, get. rewrite Hp.
  erewrite bind_run; [|apply (window_run _ _ 2 _ Hl)].
  - rewrite (ring_shift _ _ _ pos) by (rewrite Z.mod_mod by done; done). rewrite E. done.
  - apply Z.mod_pos_bound; done.
  - revert H2. unfold RX_BUF_LEN. intros. Z.to_euclidean_division_equations. lia.
Qed.

(** The two header words and the frame of the first packet. *)
Lemma header_parts rx R f :
  ring rx R (4 + length f) = header f ++ f ->
  ring rx R 2 = [ISR_ROK; 0] /\
  ring rx (R + 2) 2 = [(Z.of_nat (length f) + 4) mod 256; (Z.of_nat (length f) + 4) / 256] /\
  ring rx (R + 4) (length f) = f.
Proof.
  change (4 + length f)%nat with (2 + (2 + length f))%nat. rewrite !ring_app. unfold header.
  change (Z.of_nat 2) with 2. replace (R + 2 + 2) with (R + 4) by lia.
  change ([ISR_ROK; 0; ?x; ?y] ++ f) with ([ISR_ROK; 0] ++ [x; y] ++ f).
  intros E. apply app_inj_1 in E as [E1 E]; [|by rewrite ring_length].
  apply app_inj_1 in E as [E2 E]; [|by rewrite ring_length]. done.
Qed.

(** Only tokens were given back, at most [k], as far as sending goes. *)
Record tx_same (k : Z) (d d' : RTL8139Driver card) : Prop := mkTxSame {
  ts_use : tx_in_use (tx_fields d') = tx_in_use (tx_fields d);
  ts_counter : tx_counter (tx_fields d') = tx_counter (tx_fields d);
  ts_buf : txbuffer (tx_fields d') = txbuffer (tx_fields d);
  ts_rem : remaining_bufs (tx_fields d') = remaining_bufs (tx_fields d) \/
           k = 1 /\ remaining_bufs (tx_fields d') = wrapu 64 (remaining_bufs (tx_fields d) + 1);
  ts_tsd : c_tsd (regs d') = c_tsd (regs d);
  ts_tsad : c_tsad (regs d') = c_tsad (regs d);
  ts_txd : c_txd (regs d') = c_txd (regs d);
  ts_sent : c_sent (regs d') = c_sent (regs d);
  ts_isr : Z.testbit (c_isr (regs d')) 2 = Z.testbit (c_isr (regs d)) 2;
}.

Lemma rx_empty d q R : rx_inv d q R -> (c_rptr (regs d) =? c_wptr (regs d)) = bool_decide (q = []).
Proof.
  intros I. rewrite (ri_rptr _ _ _ I), (ri_wptr _ _ _ I). destruct q as [|f q]; simpl.
  - rewrite Z.add_0_r, Z.eqb_refl. done.
  - pose proof (ri_room _ _ _ I) as Hr. pose proof (rx_room_pos q). pose proof (total_bounds f). simpl in Hr.
    apply Z.eqb_neq, apart; lia.
Qed.

Lemma has_packet_run d q R : rx_inv d q R -> has_packet d = Done (negb (bool_decide (q = []))) d.
Proof.
  intros I. unfold has_packet.
  erewrite bind_run; [|unfold read_reg, zoom; simpl; reflexivity].
  rewrite (ri_cr _ _ _ I), (rx_empty _ _ _ I). destruct d as [c ? ? ? ? ?]. cbn [regs set_regs mtu mac rx_fields tx_fields wakes].
  destruct q as [|f q]; [done|]. rewrite bool_decide_false by done.
  change (negb (Z.land (Z.lor (Z.lor CR_TE CR_RE) 0) CR_BUFE =? CR_BUFE)) with true. cbv iota.
  destruct (ri_stored _ _ _ I) as [E _]. apply header_parts in E as (E & _).
  destruct (ri_R _ _ _ I).
  erewrite bind_run; [|eapply (rx_peek_run _ R); [apply I | apply I | | exact E]]; [done|].
  Z.to_euclidean_division_equations. lia.
Qed.

Lemma receive_run d q R :
  rx_inv d q R ->
  receive d = if bool_decide (q = []) then Done false d else Done true (set_rx_in_use true d).
Proof.
  intros I. unfold receive. unfold bind at 1, get. rewrite (ri_free _ _ _ I).
  erewrite bind_run by apply (has_packet_run _ _ _ I). by destruct (bool_decide _).
Qed.

(** The frame, in one or two slices. *)
Lemma frame_window {S} rx pos len (s : S) :
  length rx = Z.to_nat RX_BUF_LEN -> 0 <= pos < RX_BUF_LEN -> 0 <= len <= RX_BUF_LEN ->
  (if RX_BUF_LEN <? pos + len then
     let! first := window rx pos (RX_BUF_LEN - pos) in
     let! second := window rx 0 (len - Z.of_nat (length first)) in
     ret (first ++ second)
   else window rx pos len) s = Done (ring rx pos (Z.to_nat len)) s.
Proof.
  intros Hl Hp Hlen. destruct (Z.ltb_spec RX_BUF_LEN (pos + len)).
  - rewrite <- (Z2Nat.id (RX_BUF_LEN - pos)) by lia.
    erewrite bind_run by (apply (window_run _ _ _ _ Hl); lia).
    rewrite ring_length, Z2Nat.id by lia.
    rewrite <- (Z2Nat.id (len - (RX_BUF_LEN - pos))) by lia.
    erewrite bind_run by (apply (window_run _ _ _ _ Hl); lia). unfold ret. f_equal.
    replace (Z.to_nat len) with (Z.to_nat (RX_BUF_LEN - pos) + Z.to_nat (len - (RX_BUF_LEN - pos)))%nat by lia.
    rewrite ring_app. f_equal. apply ring_shift. rewrite Z2Nat.id by lia.
    replace (pos + (RX_BUF_LEN - pos)) with RX_BUF_LEN by lia. done.
  - rewrite <- (Z2Nat.id len) at 1 by lia. apply window_run; [done|lia|lia].
Qed.

Lemma capr_back pos : 0 <= pos < RX_BUF_LEN -> (capr_of pos + 0x10) mod RX_BUF_LEN = pos.
Proof.
  unfold capr_of, RX_BUF_LEN. intros. destruct (Z.leb_spec 16 pos); Z.to_euclidean_division_equations; lia.
Qed.

(** The position after a packet. *)
Lemma next_pos R f :
  R mod 4 = 0 ->
  Z.land ((((R + 2) mod RX_BUF_LEN) + (Z.of_nat (length f) + 4 + 2)) mod RX_BUF_LEN + 3) (Z.lnot 3) mod RX_BUF_LEN =
  (R + total f) mod RX_BUF_LEN.
Proof.
  intros HR. change (Z.land (?x + 3) (Z.lnot 3)) with (align4 x). rewrite align4_eq, total_eq.
  unfold RX_BUF_LEN. Z.to_euclidean_division_equations. lia.
Qed.

Lemma peek_len d R f pos :
  length (rxbuffer (rx_fields d)) = Z.to_nat RX_BUF_LEN -> R mod 4 = 0 ->
  ring (rxbuffer (rx_fields d)) R (4 + length f) = header f ++ f ->
  pos = (R + 2) mod RX_BUF_LEN -> rxpos (rx_fields d) = pos ->
  rx_peek_u16 (D := card) d = Done (Z.of_nat (length f) + 4) d.
Proof.
  intros Hl HR E -> Hp. apply header_parts in E as (_ & E & _).
  erewrite (rx_peek_run _ (R + 2)); [|done|done| |exact E].
  - f_equal. rewrite (Z.div_mod (Z.of_nat (length f) + 4) 256) at 3 by done. lia.
  - Z.to_euclidean_division_equations. lia.
Qed.

Definition after_rx (d : RTL8139Driver card) (pos : Z) : RTL8139Driver card :=
  set_rx_in_use false (set_rxpos pos (set_regs (set_ptrs pos (c_wptr (regs d)) (regs d)) d)).

Lemma consume_current_run d R f :
  length (rxbuffer (rx_fields d)) = Z.to_nat RX_BUF_LEN -> R mod 4 = 0 ->
  ring (rxbuffer (rx_fields d)) R (4 + length f) = header f ++ f ->
  rxpos (rx_fields d) = (R + 2) mod RX_BUF_LEN ->
  (do! consume_current_buffer in drop_rx_token) d = Done tt (after_rx d ((R + total f) mod RX_BUF_LEN)).
Proof.
  intros Hl HR E Hp. unfold bind at 1, consume_current_buffer.
  erewrite bind_run by (eapply peek_len; done). unfold advance_rxpos, modify, bind at 1. cbv beta iota.
  unfold bind at 1. cbv beta iota. unfold bind at 1, get. cbv beta iota.
  destruct d as [c mt ma [buf pos use] tx w]. simpl in Hl, Hp, E. subst pos.
  unfold set_rxpos, set_rx. cbn [regs mtu mac rx_fields tx_fields wakes rxbuffer rxpos rx_in_use].
  rewrite next_pos by done. unfold write_reg, zoom. simpl.
  rewrite capr_back by (apply Z.mod_pos_bound; done). done.
Qed.

Lemma rx_consume_run d R f q :
  rx_inv d (f :: q) R ->
  rx_consume (set_rx_in_use true d) = Done f (after_rx d ((R + total f) mod RX_BUF_LEN)).
Proof.
  intros I. destruct (ri_stored _ _ _ I) as [E _]. destruct (ri_R _ _ _ I) as [HR0 HR].
  pose proof (ri_buf _ _ _ I) as Hl. pose proof (ri_pos _ _ _ I) as Hp.
  pose proof (Forall_inv (ri_small _ _ _ I)) as Hs. unfold small in Hs.
  destruct d as [c mt ma [buf pos use] tx w]. simpl in Hl, Hp, E. subst pos.
  unfold rx_consume, advance_rxpos, modify, bind at 1. cbv beta iota.
  unfold set_rxpos, set_rx_in_use, set_rx. cbn [regs mtu mac rx_fields tx_fields wakes rxbuffer rxpos rx_in_use].
  rewrite Zplus_mod_idemp_l.
  erewrite bind_run by (eapply (peek_len _ R f); done). unfold bind at 1, get. cbv beta iota zeta.
  cbn [regs mtu mac rx_fields tx_fields wakes rxbuffer rxpos rx_in_use].
  replace (Z.of_nat (length f) + 4 - 4) with (Z.of_nat (length f)) by lia.
  rewrite wrapu_small by (change (2 ^ 16) with 65536; lia). rewrite Zplus_mod_idemp_l.
  erewrite bind_run by (apply (frame_window _ _ _ _ Hl); [apply Z.mod_pos_bound; done | unfold RX_BUF_LEN; lia]).
  rewrite Nat2Z.id, (ring_shift _ _ _ (R + 4)) by (rewrite Z.mod_mod by done; f_equal; lia).
  destruct (header_parts _ _ _ E) as (_ & _ & ->).
  match goal with |- bind _ _ ?s = _ => pose proof (consume_current_run s R f Hl HR E eq_refl) as Ec end.
  unfold bind in Ec |- *. destruct (consume_current_buffer _) as [u s|]; [|done]. simpl in Ec.
  destruct (drop_rx_token s) eqn:Ed; [|done]. injection Ec as -> ->. done.
Qed.

Lemma after_rx_inv d R f q :
  rx_inv d (f :: q) R -> rx_inv (after_rx d ((R + total f) mod RX_BUF_LEN)) q (R + total f).
Proof.
  intros I. destruct (ri_R _ _ _ I) as [HR0 HR]. destruct (ri_stored _ _ _ I) as [_ Hst].
  pose proof (ri_room _ _ _ I) as Hr. pose proof (ri_wptr _ _ _ I) as Hw. pose proof (total_bounds f). simpl in Hr, Hw.
  constructor; simpl; try done; try apply I; try lia.
  - split; [lia|]. rewrite total_eq. rewrite (Z.mul_comm 4), Z.mod_add by done. done.
  - rewrite Hw. f_equal. lia.
  - apply (Forall_inv_tail (ri_small _ _ _ I)).
Qed.

Lemma poll_run d q R :
  rx_inv d q R ->
  exists d' R', poll d = Done (Frame (head q)) d' /\ rx_inv d' (tail q) R' /\ tx_same 1 d d'.
Proof.
  intros I. unfold poll. unfold bind at 1.
  rewrite (receive_run _ _ _ I). destruct q as [|f q].
  - exists d, R. split; [done|]. split; [done|]. constructor; auto.
  - rewrite bool_decide_false by done. cbv iota beta.
    rewrite (bind_run _ _ _ _ _ (rx_consume_run _ _ _ _ I)).
    eexists _, _. split; [reflexivity|]. split.
    + destruct (after_rx_inv _ _ _ _ I). constructor; done.
    + constructor; simpl; auto.
Qed.

Lemma peek_run d q R :
  rx_inv d q R -> exists d', peek d = Done Nothing d' /\ rx_inv d' q R /\ tx_same 1 d d'.
Proof.
  intros I. unfold peek. unfold bind at 1. rewrite (receive_run _ _ _ I). destruct (bool_decide _).
  - exists d. split; [done|]. split; [done|]. constructor; auto.
  - eexists. split; [reflexivity|]. split.
    + destruct I. constructor; done.
    + constructor; simpl; auto.
Qed.

Definition fits (q : list (list Z)) (f : list Z) : bool :=
  bool_decide (q = []) || (total f <? RX_BUF_LEN - rx_room q).

Lemma avail_fits d q R f :
  rx_inv d q R -> 
  negb ((c_rptr (regs d) - c_wptr (regs d)) mod RX_BUF_LEN =? 0) &&
    ((c_rptr (regs d) - c_wptr (regs d)) mod RX_BUF_LEN <=? total f) = negb (fits q f).
Proof.
  intros I. rewrite (ri_rptr _ _ _ I), (ri_wptr _ _ _ I), <- Zminus_mod.
  replace (R - (R + rx_room q)) with (- rx_room q) by lia. unfold fits.
  pose proof (ri_room _ _ _ I). destruct q as [|g q]; [done|]. rewrite bool_decide_false by done.
  assert (0 < rx_room (g :: q)) by (simpl; pose proof (rx_room_pos q); pose proof (total_bounds g); lia).
  rewrite <- (Z_mod_plus_full _ 1), Z.mod_small by lia.
  destruct (Z.eqb_spec (- rx_room (g :: q) + 1 * RX_BUF_LEN) 0); [lia|]. simpl.
  destruct (Z.leb_spec (- (total g + rx_room q) + 1 * RX_BUF_LEN) (total f)),
    (Z.ltb_spec (total f) (RX_BUF_LEN - (total g + rx_room q))); simpl in *; lia || done.
Qed.

Lemma isr_lor_bit isr x : Z.testbit x 2 = false -> Z.testbit (Z.lor isr x) 2 = Z.testbit isr 2.
Proof. intros E. rewrite Z.lor_spec, E. apply orb_false_r. Qed.

Lemma isr_tok_bit isr : Z.testbit (Z.lor isr ISR_TOK) 2 = true.
Proof. rewrite Z.lor_spec. apply orb_true_r. Qed.

Lemma packet_length f crc : length crc = 4%nat -> Z.of_nat (length (packet f crc)) = Z.of_nat (length f) + 8.
Proof. intros H. unfold packet. rewrite !length_app. simpl. lia. Qed.

Lemma put_ring_shift rx p p' l : p mod RX_BUF_LEN = p' mod RX_BUF_LEN -> put_ring rx p l = put_ring rx p' l.
Proof.
  revert rx p p'. induction l as [|b l IH]; intros rx p p' E; simpl; [done|]. rewrite E. apply IH.
  rewrite Zplus_mod, E, <- Zplus_mod. done.
Qed.
#[local] Arguments put_ring : simpl never.

(** A packet behind the others. *)
Lemma stored_packet rx R q f crc :
  length rx = Z.to_nat RX_BUF_LEN -> length crc = 4%nat -> rx_room q + total f < RX_BUF_LEN ->
  stored rx R q -> stored (put_ring rx (R + rx_room q) (packet f crc)) R (q ++ [f]).
Proof.
  intros Hl Hc Hroom Hst. pose proof (total_bounds f). pose proof (rx_room_pos q).
  pose proof (packet_length f crc Hc) as Hpl. apply stored_app; [apply stored_put; try done; lia|].
  pose proof (put_ring_same rx (R + rx_room q) (packet f crc) Hl ltac:(lia)) as Es.
  revert Es. generalize (put_ring rx (R + rx_room q) (packet f crc)) as rx'. intros rx'.
  change (packet f crc) with ((header f ++ f) ++ crc).
  rewrite length_app, ring_app. intros Es. apply app_inj_1 in Es as [Es _]; [done|]. by rewrite ring_length.
Qed.

Lemma fits_room q f : small f -> fits q f = true -> rx_room q + total f < RX_BUF_LEN.
Proof.
  unfold fits, small, RX_BUF_LEN. intros Hs [Ef|Ef]%orb_prop; [|bool_hyps; lia].
  apply bool_decide_eq_true in Ef as ->. simpl. pose proof (total_bounds f). lia.
Qed.

Lemma card_rx_run d q R f crc :
  rx_inv d q R -> small f -> length crc = 4%nat ->
  exists d', card_rx f crc d = Done tt d' /\ rx_inv d' (if fits q f then q ++ [f] else q) R /\ tx_same 0 d d'.
Proof.
  intros I Hs Hc. unfold card_rx, modify. eexists. split; [reflexivity|].
  rewrite (avail_fits d q R f) by done. destruct (fits q f) eqn:Ef; cbn [negb].
  - split; [|constructor; simpl; auto; by apply isr_lor_bit].
    pose proof (fits_room _ _ Hs Ef) as Hroom.
    constructor; simpl; try apply I.
    + rewrite put_ring_length. apply I.
    + rewrite rx_room_app, (ri_wptr _ _ _ I), Zplus_mod_idemp_l. f_equal. lia.
    + rewrite rx_room_app. done.
    + apply Forall_app. split; [apply I|]. by constructor.
    + rewrite (put_ring_shift _ _ (R + rx_room q)) by (rewrite (ri_wptr _ _ _ I), Z.mod_mod by done; done).
      apply stored_packet; try done; apply I.
  - split; [|constructor; simpl; auto; by apply isr_lor_bit]. destruct I. constructor; done.
Qed.

(** ** The transmit buffers *)

Definition sl (j : Z) : nat := Z.to_nat (j mod NO_TX_BUFFERS).

Lemma sl_lt j : (sl j < 4)%nat.
Proof. unfold sl, NO_TX_BUFFERS. Z.to_euclidean_division_equations. lia. Qed.
Lemma sl_ne i j : i <> j -> Z.abs (i - j) < 4 -> sl i <> sl j.
Proof. unfold sl, NO_TX_BUFFERS. intros. Z.to_euclidean_division_equations. lia. Qed.
Lemma sl_4 j : sl (j - 4) = sl j.
Proof. unfold sl, NO_TX_BUFFERS. f_equal. Z.to_euclidean_division_equations. lia. Qed.
Lemma sl_wrap a : Z.to_nat (wrapu 64 a mod NO_TX_BUFFERS) = sl a.
Proof. unfold sl, wrapu, NO_TX_BUFFERS. f_equal. change (2 ^ 64) with 18446744073709551616. Z.to_euclidean_division_equations. lia. Qed.
(** Every slot is one of the last four. *)
Lemma sl_recent (i : nat) a : (i < 4)%nat -> exists j, a - 4 <= j < a /\ sl j = i.
Proof.
  intros Hi. exists (a - 4 + (Z.of_nat i - a) mod 4). unfold sl, NO_TX_BUFFERS.
  Z.to_euclidean_division_equations. lia.
Qed.

(** What the handler makes of a status. *)
Definition tok_ok (v : Z) : bool :=
  negb (0 <? Z.land v (Z.lor TSD_TABT TSD_OWC)) && (Z.land v TSD_TOK =? TSD_TOK).
Definition sent_status (v : Z) : Prop := Z.testbit v 13 = true /\ tok_ok v = true.
Definition pending_status (v : Z) : Prop := Z.testbit v 13 = false /\ tok_ok v = false.

Lemma status_check :
  forallb (fun n => negb (Z.testbit n 13) && negb (tok_ok n) &&
                    (Z.testbit (Z.lor n (Z.lor TSD_OWN TSD_TOK)) 13 && tok_ok (Z.lor n (Z.lor TSD_OWN TSD_TOK))))
    (seqZ 0 4097) = true.
Proof. vm_compute. done. Qed.

Lemma statuses n :
  0 <= n <= TX_BUF_LEN -> pending_status n /\ sent_status (Z.lor n (Z.lor TSD_OWN TSD_TOK)).
Proof.
  unfold TX_BUF_LEN. intros Hn. pose proof status_check as E. rewrite forallb_forall in E.
  specialize (E n). rewrite <- list_elem_of_In, elem_of_seqZ in E. specialize (E ltac:(lia)).
  unfold pending_status, sent_status. bool_hyps. auto.
Qed.

(** What holds of the transmit buffers in terms of the frames handed over and
    not sent ([out]), sent, and of the number of buffers not taken back. *)
Record tx_inv (base : Z) (d : RTL8139Driver card) (out sent : list (list Z)) (used : nat) (a n : Z) : Prop := mkTxInv {
  ti_a : 0 <= a;
  ti_counter : tx_counter (tx_fields d) = wrapu 64 a;
  ti_use4 : length (tx_in_use (tx_fields d)) = 4%nat;
  ti_tsd4 : length (c_tsd (regs d)) = 4%nat;
  ti_tsad : forall i, (i < 4)%nat -> nth i (c_tsad (regs d)) 0 = base + Z.of_nat i * TX_BUF_LEN;
  ti_buf : length (txbuffer (tx_fields d)) = Z.to_nat (NO_TX_BUFFERS * TX_BUF_LEN);
  ti_used : (length out <= used <= 4)%nat;
  ti_txd : c_txd (regs d) = a - Z.of_nat (length out);
  ti_sent : c_sent (regs d) = sent;
  ti_use : forall j, a - 4 <= j < a -> tx_in_use (tx_fields d) !! sl j = Some (a - Z.of_nat used <=? j);
  ti_idle : forall j, a - 4 <= j < a - Z.of_nat (length out) ->
    Z.testbit (nth (sl j) (c_tsd (regs d)) 0) 13 = true /\
    (a - Z.of_nat used <= j -> sent_status (nth (sl j) (c_tsd (regs d)) 0));
  ti_out : forall k f, out !! k = Some f ->
    let i := sl (a - Z.of_nat (length out) + Z.of_nat k) in
    Z.of_nat (length f) <= TX_BUF_LEN /\ nth i (c_tsd (regs d)) 0 = Z.of_nat (length f) /\
    take (length f) (drop (i * Z.to_nat TX_BUF_LEN) (txbuffer (tx_fields d))) = f;
  ti_isr : (length out < used)%nat -> Z.testbit (c_isr (regs d)) 2 = true;
  ti_rem : 4 <= remaining_bufs (tx_fields d) <= n;
}.

Lemma tx_inv_same base d d' out sent used a n k :
  tx_inv base d out sent used a n -> tx_same k d d' -> n + 1 < 2 ^ 64 -> tx_inv base d' out sent used a (n + 1).
Proof.
  intros [] [] Hn. constructor; rewrite ?ts_use0, ?ts_counter0, ?ts_buf0, ?ts_tsd0, ?ts_tsad0, ?ts_txd0, ?ts_sent0, ?ts_isr0; try done.
  destruct ts_rem0 as [->|[_ ->]]; [lia|]. rewrite wrapu_small by lia. lia.
Qed.

(** Sending changes nothing of the receive side. *)
Record rx_same (d d' : RTL8139Driver card) : Prop := mkRxSame {
  rs_fields : rx_fields d' = rx_fields d;
  rs_rptr : c_rptr (regs d') = c_rptr (regs d);
  rs_wptr : c_wptr (regs d') = c_wptr (regs d);
  rs_cr : c_cr (regs d') = c_cr (regs d);
}.

Lemma rx_inv_same d d' q R : rx_inv d q R -> rx_same d d' -> rx_inv d' q R.
Proof. intros [] []. constructor; rewrite ?rs_fields0, ?rs_rptr0, ?rs_wptr0, ?rs_cr0; done. Qed.

(** A frame written into a buffer. *)
Definition splice (start : nat) (f buf : list Z) : list Z := take start buf ++ f ++ drop (start + length f) buf.

Lemma splice_length start f buf : (start + length f <= length buf)%nat -> length (splice start f buf) = length buf.
Proof. intros. unfold splice. rewrite !length_app, length_take, length_drop. lia. Qed.

Lemma splice_same start f buf :
  (start + length f <= length buf)%nat -> take (length f) (drop start (splice start f buf)) = f.
Proof.
  intros. unfold splice. rewrite drop_app_length' by (rewrite length_take; lia). by rewrite take_app_length.
Qed.

Lemma splice_other start f buf s n :
  (start + length f <= length buf)%nat -> (s + n <= start \/ start + length f <= s)%nat ->
  take n (drop s (splice start f buf)) = take n (drop s buf).
Proof.
  intros Hl Hs. apply list_eq. intros i. destruct (decide (i < n)%nat) as [Hi|]; [|by rewrite !lookup_take_ge by lia].
  rewrite !lookup_take_lt, !lookup_drop by done. unfold splice. destruct Hs as [Hs|Hs].
  - rewrite lookup_app_l by (rewrite length_take; lia). apply lookup_take_lt. lia.
  - rewrite lookup_app_r by (rewrite length_take; lia). rewrite length_take, lookup_app_r by lia.
    rewrite lookup_drop. f_equal. lia.
Qed.

Lemma nth_insert_eq (l : list Z) i v : (i < length l)%nat -> nth i (<[i := v]> l) 0 = v.
Proof. intros. apply nth_lookup_Some, list_lookup_insert_eq. done. Qed.
Lemma nth_insert_ne (l : list Z) i j v : i <> j -> nth j (<[i := v]> l) 0 = nth j l 0.
Proof. intros. rewrite !nth_lookup, list_lookup_insert_ne by done. done. Qed.

(** The driver's and the card's state after a frame is handed over. *)
Definition after_send (d : RTL8139Driver card) (a : Z) (f : list Z) : RTL8139Driver card :=
  let t := tx_fields d in
  mkDriver (set_tsd (<[sl a := Z.of_nat (length f)]> (c_tsd (regs d))) (regs d)) (mtu d) (mac d) (rx_fields d)
    (mkTx (<[sl a := true]> (tx_in_use t)) (wrapu 64 (a + 1)) (splice (sl a * Z.to_nat TX_BUF_LEN) f (txbuffer t))
       (remaining_bufs t)) (wakes d).

Lemma wrapu_succ a : wrapu 64 (wrapu 64 a + 1) = wrapu 64 (a + 1).
Proof. unfold wrapu. apply Zplus_mod_idemp_l. Qed.

Lemma send_run base d out sent used a n f :
  tx_inv base d out sent used a n ->
  send f d = if (used <? 4)%nat && (Z.of_nat (length f) <=? TX_BUF_LEN) then Done Nothing (after_send d a f)
             else Panic "Unable to get TX buffer".
Proof.
  intros I. unfold send, transmit. unfold bind at 1, gets.
  destruct (Z.eqb_spec (remaining_bufs (tx_fields d)) 0) as [E|_]; [pose proof (ti_rem _ _ _ _ _ _ _ I); lia|].
  cbn [negb]. unfold bind at 1, tx_consume. unfold bind at 1, get. cbv beta iota zeta.
  rewrite (ti_counter _ _ _ _ _ _ _ I), sl_wrap.
  pose proof (ti_use _ _ _ _ _ _ _ I (a - 4) ltac:(lia)) as Eu. rewrite sl_4 in Eu. rewrite Eu.
  replace (a - Z.of_nat used <=? a - 4) with (negb (used <? 4)%nat)
    by (pose proof (ti_used _ _ _ _ _ _ _ I); destruct (Nat.ltb_spec used 4), (Z.leb_spec (a - Z.of_nat used) (a - 4)); simpl; lia || done).
  cbn [unwrap]. unfold bind at 1, ret at 1. rewrite negb_involutive. unfold bind at 1, assert_.
  destruct ((used <? 4)%nat && (Z.of_nat (length f) <=? TX_BUF_LEN)); [|done].
  rewrite wrapu_succ. done.
Qed.

Lemma after_send_inv base d out sent used a n f :
  tx_inv base d out sent used a n -> (used < 4)%nat -> Z.of_nat (length f) <= TX_BUF_LEN ->
  tx_inv base (after_send d a f) (out ++ [f]) sent (Datatypes.S used) (a + 1) n.
Proof.
  intros [] Hu Hf. pose proof (sl_lt a) as Hsl.
  assert (Hroom : (sl a * Z.to_nat TX_BUF_LEN + length f <= length (txbuffer (tx_fields d)))%nat)
    by (rewrite ti_buf0; unfold TX_BUF_LEN, NO_TX_BUFFERS in *; lia).
  constructor; simpl; rewrite ?length_insert, ?length_app; simpl; try done; try lia.
  - rewrite splice_length; done.
  - intros j Hj. destruct (decide (j = a)) as [->|Hne].
    + rewrite list_lookup_insert_eq by lia. f_equal. symmetry. apply Z.leb_le. lia.
    + rewrite list_lookup_insert_ne by (apply sl_ne; lia). rewrite ti_use0 by lia. f_equal.
      destruct (Z.leb_spec (a - Z.of_nat used) j), (Z.leb_spec (a + 1 - Z.of_nat (Datatypes.S used)) j); lia || done.
  - intros j Hj. rewrite nth_insert_ne by (apply sl_ne; lia).
    destruct (ti_idle0 j) as [H1 H2]; [lia|]. split; [done|]. intros. apply H2. lia.
  - intros k g Hk. apply lookup_app_Some in Hk as [Hk|[Hk Hg]].
    + pose proof (lookup_lt_Some _ _ _ Hk). destruct (ti_out0 k g Hk) as (H1 & H2 & H3).
      replace (a + 1 - Z.of_nat (length out + 1) + Z.of_nat k) with (a - Z.of_nat (length out) + Z.of_nat k) by lia.
      assert (Hne : sl a <> sl (a - Z.of_nat (length out) + Z.of_nat k)) by (apply sl_ne; lia).
      rewrite nth_insert_ne by done. split; [done|]. split; [done|].
      rewrite splice_other; [done|done|]. unfold TX_BUF_LEN in *. lia.
    + destruct (k - length out)%nat as [|?] eqn:Ek; simplify_eq/=.
      replace (a + 1 - Z.of_nat (length out + 1) + Z.of_nat k) with a by lia.
      rewrite nth_insert_eq by lia. split; [done|]. split; [done|]. by apply splice_same.
  - intros. apply ti_isr0. lia.
Qed.

(** The card sends. *)
Lemma card_tx_run base d out sent used a n :
  tx_inv base d out sent used a n ->
  exists d', card_tx base d = Done tt d' /\ rx_same d d' /\
    tx_inv base d' (tail out) (match out with [] => sent | f :: _ => sent ++ [f] end) used a n.
Proof.
  intros I. unfold card_tx, modify. eexists. split; [reflexivity|]. cbv zeta.
  rewrite (ti_txd _ _ _ _ _ _ _ I). fold (sl (a - Z.of_nat (length out))). destruct out as [|f out].
  - rewrite Z.sub_0_r, <- sl_4. destruct (ti_idle _ _ _ _ _ _ _ I (a - 4)) as [E _]; [simpl; lia|].
    rewrite E. split; [constructor; done|done].
  - destruct (ti_out _ _ _ _ _ _ _ I 0 f eq_refl) as (H1 & H2 & H3). rewrite Z.add_0_r in H2, H3.
    destruct (statuses (Z.of_nat (length f)) ltac:(lia)) as [[Hp _] Hs].
    rewrite H2, Hp. split; [constructor; done|].
    rewrite (ti_tsad _ _ _ _ _ _ _ I) by apply sl_lt.
    set (i := sl (a - Z.of_nat (length (f :: out)))) in *.
    replace (base + Z.of_nat i * TX_BUF_LEN - base) with (Z.of_nat (i * Z.to_nat TX_BUF_LEN)) by (unfold TX_BUF_LEN; lia).
    rewrite !Nat2Z.id, H3. pose proof (sl_lt (a - Z.of_nat (length (f :: out)))) as Hi. fold i in Hi.
    destruct I. simpl in *. constructor; simpl; rewrite ?length_insert; try done; try lia.
    + by rewrite ti_sent0.
    + intros j Hj. destruct (decide (j = a - Z.of_nat (length (f :: out)))) as [->|Hne].
      * fold i. rewrite nth_insert_eq by lia. split; [apply Hs|done].
      * simpl in Hne. rewrite nth_insert_ne; [apply ti_idle0; lia|]. unfold i. apply sl_ne; simpl; lia.
    + intros k g Hk. pose proof (lookup_lt_Some _ _ _ Hk). destruct (ti_out0 (Datatypes.S k) g Hk) as (G1 & G2 & G3).
      replace (a - Z.of_nat (length out) + Z.of_nat k) with (a - Z.of_nat (Datatypes.S (length out)) + Z.of_nat (Datatypes.S k)) by lia.
      rewrite nth_insert_ne; [done|]. unfold i. apply sl_ne; simpl; lia.
    + intros _. exact (isr_tok_bit _).
Qed.

(** ** Taking buffers back *)

Lemma tok_ok_if {A} v (x y : A) :
  (if 0 <? Z.land v (Z.lor TSD_TABT TSD_OWC) then y
   else if Z.land v TSD_TOK =? TSD_TOK then x else y) = if tok_ok v then x else y.
Proof. unfold tok_ok. by destruct (0 <? _), (_ =? _). Qed.

(** What the loop over [l] changes: the finished buffers are free. *)
Record reclaimed (l : list nat) (d d' : RTL8139Driver card) : Prop := mkReclaimed {
  rc_regs : regs d' = regs d;
  rc_rx : rx_fields d' = rx_fields d;
  rc_counter : tx_counter (tx_fields d') = tx_counter (tx_fields d);
  rc_buf : txbuffer (tx_fields d') = txbuffer (tx_fields d);
  rc_use : forall i, tx_in_use (tx_fields d') !! i =
    if decide (i ∈ l) then (fun u => u && negb (tok_ok (nth i (c_tsd (regs d)) 0))) <$> tx_in_use (tx_fields d) !! i
    else tx_in_use (tx_fields d) !! i;
  rc_rem : remaining_bufs (tx_fields d) <= remaining_bufs (tx_fields d') <= remaining_bufs (tx_fields d) + Z.of_nat (length l);
}.

Lemma tx_reclaim_run d i :
  0 <= remaining_bufs (tx_fields d) -> remaining_bufs (tx_fields d) + 1 < 2 ^ 64 ->
  exists d', tx_reclaim i d = Done tt d' /\ reclaimed [i] d d'.
Proof.
  intros H0 H1. unfold tx_reclaim. unfold bind at 1, get. cbv beta iota.
  destruct (tx_in_use (tx_fields d) !! i) as [[]|] eqn:E.
  - erewrite bind_run; [|unfold read_reg, zoom; simpl; reflexivity]. rewrite tok_ok_if.
    replace (set_regs (regs d) d) with d by (by destruct d).
    destruct (tok_ok _) eqn:Et; eexists; (split; [reflexivity|]).
    + constructor; simpl; try done; [|rewrite wrapu_small by lia; lia].
      intros j. destruct (decide (j ∈ [i])) as [->%list_elem_of_singleton|Hj].
      * rewrite list_lookup_insert_eq by (by eapply lookup_lt_Some). by rewrite E, Et.
      * rewrite list_lookup_insert_ne; [done|]. intros ->. by apply Hj, list_elem_of_singleton.
    + constructor; try done; [|simpl; lia]. intros j. case_decide as Hj; [|done].
      apply list_elem_of_singleton in Hj as ->. by rewrite E, Et.
  - eexists; (split; [reflexivity|]). constructor; try done; [|simpl; lia].
    intros j. case_decide as Hj; [|done]. apply list_elem_of_singleton in Hj as ->. by rewrite E.
  - eexists; (split; [reflexivity|]). constructor; try done; [|simpl; lia].
    intros j. case_decide as Hj; [|done]. apply list_elem_of_singleton in Hj as ->. by rewrite E.
Qed.

Lemma reclaimed_trans i l d d1 d2 : reclaimed [i] d d1 -> reclaimed l d1 d2 -> reclaimed (i :: l) d d2.
Proof.
  intros [] []. constructor; try congruence.
  - intros j. rewrite rc_use1, rc_use0, rc_regs0.
    repeat case_decide; try set_solver; destruct (tx_in_use (tx_fields d) !! j) as [u|]; try done; simpl.
    destruct u; simpl; [|done]. f_equal. apply andb_diag.
  - simpl in *. lia.
Qed.

Lemma tx_loop_run l d :
  0 <= remaining_bufs (tx_fields d) -> remaining_bufs (tx_fields d) + Z.of_nat (length l) < 2 ^ 64 ->
  exists d', tx_loop l d = Done tt d' /\ reclaimed l d d'.
Proof.
  revert d. induction l as [|i l IH]; intros d H0 H1; simpl in *.
  - exists d. split; [done|]. constructor; try done. simpl. lia.
  - destruct (tx_reclaim_run d i) as (d1 & E1 & R1); [lia|lia|]. rewrite (bind_run _ _ _ _ _ E1).
    pose proof (rc_rem _ _ _ R1) as Hr. simpl in Hr.
    destruct (IH d1) as (d2 & E2 & R2); [lia|lia|]. exists d2. split; [done|]. by eapply reclaimed_trans.
Qed.

Lemma tok_bit isr : (Z.land isr ISR_TOK =? ISR_TOK) = Z.testbit isr 2.
Proof.
  destruct (Z.eqb_spec (Z.land isr ISR_TOK) ISR_TOK) as [E|E].
  - assert (Hb : Z.testbit (Z.land isr ISR_TOK) 2 = true) by (by rewrite E).
    rewrite Z.land_spec in Hb. apply andb_prop in Hb as [-> _]. done.
  - destruct (Z.testbit isr 2) eqn:Hb; [|done]. destruct E. apply Z.bits_inj'. intros k Hk.
    rewrite Z.land_spec. change ISR_TOK with (2 ^ 2). rewrite Z.pow2_bits_eqb by done.
    destruct (Z.eqb_spec 2 k) as [<-|]; [by rewrite Hb|apply andb_false_r].
Qed.

Lemma reclaim_inv base d d' out sent used a n :
  tx_inv base d out sent used a n -> reclaimed (seq 0 4) d d' ->
  tx_inv base d' out sent (length out) a (n + 4).
Proof.
  intros [] []. simpl in rc_rem0.
  constructor; rewrite ?rc_regs0, ?rc_counter0, ?rc_buf0; try done; try lia.
  - assert (Hn : tx_in_use (tx_fields d') !! 4%nat = None) by (rewrite rc_use0; simpl; by apply lookup_ge_None_2; lia).
    assert (Hs : is_Some (tx_in_use (tx_fields d') !! 3%nat))
      by (rewrite rc_use0; simpl; rewrite fmap_is_Some; apply lookup_lt_is_Some_2; lia).
    apply lookup_ge_None_1 in Hn. apply lookup_lt_is_Some_1 in Hs. lia.
  - intros j Hj. rewrite rc_use0, decide_True by (apply elem_of_seq; pose proof (sl_lt j); lia).
    rewrite ti_use0 by done. simpl. f_equal.
    destruct (Z.leb_spec (a - Z.of_nat (length out)) j).
    + destruct (Z.leb_spec (a - Z.of_nat used) j); [|lia]. simpl.
      destruct (lookup_lt_is_Some_2 out (Z.to_nat (j - (a - Z.of_nat (length out))))) as [f Hf]; [lia|].
      destruct (ti_out0 _ _ Hf) as (H1 & H2 & _). rewrite Z2Nat.id in H2 by lia.
      replace (a - Z.of_nat (length out) + (j - (a - Z.of_nat (length out)))) with j in H2 by lia.
      rewrite H2. destruct (statuses (Z.of_nat (length f)) ltac:(lia)) as [[_ ->] _]. done.
    + destruct (Z.leb_spec (a - Z.of_nat used) j); [|done]. simpl.
      destruct (ti_idle0 j) as [_ Hs]; [lia|]. destruct Hs as [_ ->]; done.
  - intros j Hj. destruct (ti_idle0 j Hj) as [H1 _]. split; [done|lia].
Qed.

Lemma tx_handler_run base d out sent used a n :
  tx_inv base d out sent used a n -> n + 4 < 2 ^ 64 ->
  exists d', tx_handler d = Done tt d' /\ reclaimed (seq 0 4) d d'.
Proof.
  intros I Hn. unfold tx_handler. unfold bind at 1, get. cbv beta iota. rewrite (ti_use4 _ _ _ _ _ _ _ I).
  pose proof (ti_rem _ _ _ _ _ _ _ I). apply tx_loop_run; simpl; lia.
Qed.

Definition ack (isr : Z) (d : RTL8139Driver card) : RTL8139Driver card :=
  let c := regs d in
  mkDriver (set_isr (Z.land (c_isr c) (Z.lnot (Z.land isr INT_MASK))) c) (mtu d) (mac d) (rx_fields d) (tx_fields d) (wakes d + 1).

Lemma ack_inv base d isr out sent a n :
  tx_inv base d out sent (length out) a n -> tx_inv base (ack isr d) out sent (length out) a n.
Proof. intros []. constructor; try done. lia. Qed.

Lemma irq_run base d out sent used a n :
  tx_inv base d out sent used a n -> n + 4 < 2 ^ 64 ->
  exists d', handle_interrupt d = Done tt d' /\ rx_same d d' /\ tx_inv base d' out sent (length out) a (n + 4).
Proof.
  intros I Hn. unfold handle_interrupt. erewrite bind_run; [|unfold read_reg, zoom; simpl; reflexivity].
  replace (set_regs (regs d) d) with d by (by destruct d). rewrite tok_bit.
  destruct (Z.testbit (c_isr (regs d)) 2) eqn:Eb.
  - destruct (tx_handler_run _ _ _ _ _ _ _ I Hn) as (d1 & E1 & R1). rewrite (bind_run _ _ _ _ _ E1).
    exists (ack (c_isr (regs d)) d1). split; [done|]. split.
    + destruct R1. constructor; simpl; rewrite ?rc_regs0; done.
    + by apply ack_inv, (reclaim_inv _ d _ _ _ used).
  - exists (ack (c_isr (regs d)) d). split; [done|]. split; [constructor; done|]. apply ack_inv.
    assert (Hu : used = length out).
    { pose proof (ti_used _ _ _ _ _ _ _ I). pose proof (ti_isr _ _ _ _ _ _ _ I).
      destruct (decide (length out < used)%nat) as [Hlt|]; [|lia]. rewrite H0 in Eb by done. done. }
    subst used. destruct I. constructor; try done. lia.
Qed.

(** ** The driver keeps the promise *)

Definition fine_op (x : op) : Prop :=
  match x with CardRx f crc => small f /\ length crc = 4%nat | _ => True end.

Definition inv (base : Z) (d : RTL8139Driver card) (s : nic) (n : Z) : Prop :=
  (exists R, rx_inv d (s_rx s) R) /\ (exists a, tx_inv base d (s_out s) (s_sent s) (s_used s) a n).

Lemma perform_spec base d s n x :
  inv base d s n -> fine_op x -> n + 4 < 2 ^ 64 ->
  match spec x s with
  | Some (r, s') => exists d', perform base x d = Done r d' /\ inv base d' s' (n + 4)
  | None => perform base x d = Panic "Unable to get TX buffer"
  end.
Proof.
  intros [[R Ir] [a It]] Hx Hn.
  assert (Hmono : forall d out sent used a m, m <= n + 4 -> tx_inv base d out sent used a m -> tx_inv base d out sent used a (n + 4))
    by (intros ? ? ? ? ? ? ? []; constructor; try done; lia).
  destruct x as [f crc| | | |f|]; cbn [spec perform].
  - destruct Hx as [Hs Hc]. destruct (card_rx_run d _ R f crc Ir Hs Hc) as (d' & E & I' & T). fold (fits (s_rx s) f).
    exists d'. rewrite (bind_run _ _ _ _ _ E). split; [done|]. apply (tx_inv_same _ _ _ _ _ _ _ _ _ It) in T; [|lia].
    apply Hmono in T; [|lia]. destruct (fits (s_rx s) f); split; simpl; eauto.
  - destruct (card_tx_run _ _ _ _ _ _ _ It) as (d' & E & S' & I'). exists d'. rewrite (bind_run _ _ _ _ _ E).
    split; [done|]. apply Hmono in I'; [|lia]. apply (rx_inv_same _ _ _ _ Ir) in S'.
    destruct s as [rx [|f out] sent used]; split; simpl in *; eauto.
  - destruct (poll_run _ _ _ Ir) as (d' & R' & E & I' & T). exists d'. split; [done|].
    apply (tx_inv_same _ _ _ _ _ _ _ _ _ It) in T; [|lia]. apply Hmono in T; [|lia]. split; simpl; eauto.
  - destruct (peek_run _ _ _ Ir) as (d' & E & I' & T). exists d'. split; [done|].
    apply (tx_inv_same _ _ _ _ _ _ _ _ _ It) in T; [|lia]. apply Hmono in T; [|lia]. split; simpl; eauto.
  - rewrite (send_run _ _ _ _ _ _ _ f It). destruct (_ && _) eqn:Ef; [|done]. bool_hyps.
    eexists. split; [reflexivity|]. apply Nat.ltb_lt in H. split; simpl.
    + exists R. destruct Ir. constructor; done.
    + eexists. eapply Hmono; [|by apply after_send_inv]. lia.
  - destruct (irq_run _ _ _ _ _ _ _ It Hn) as (d' & E & S' & I'). exists d'. rewrite (bind_run _ _ _ _ _ E).
    split; [done|]. split; simpl; [|eauto]. exists R. by eapply rx_inv_same.
Qed.

Lemma performs_spec base xs d s n :
  inv base d s n -> Forall fine_op xs -> n + 4 * Z.of_nat (length xs) < 2 ^ 64 ->
  match spec_run xs s with
  | Some (rs, s') => exists d', performs base xs d = Done rs d' /\ inv base d' s' (n + 4 * Z.of_nat (length xs))
  | None => performs base xs d = Panic "Unable to get TX buffer"
  end.
Proof.
  revert d s n. induction xs as [|x xs IH]; intros d s n I Hf Hn; cbn [spec_run performs].
  - exists d. split; [done|]. simpl. by rewrite Z.add_0_r.
  - apply Forall_cons_iff in Hf as [Hx Hf]. cbn [length] in *. pose proof (perform_spec _ _ _ _ x I Hx ltac:(lia)) as Hp.
    destruct (spec x s) as [[r s1]|]; [|unfold bind; by rewrite Hp].
    destruct Hp as (d1 & E1 & I1). rewrite (bind_run _ _ _ _ _ E1).
    pose proof (IH _ _ _ I1 Hf ltac:(lia)) as Hr.
    destruct (spec_run xs s1) as [[rs s2]|]; [|unfold bind; by rewrite Hr].
    destruct Hr as (d2 & E2 & I2). rewrite (bind_run _ _ _ _ _ E2). exists d2. split; [done|].
    replace (n + 4 * Z.of_nat (Datatypes.S (length xs))) with (n + 4 + 4 * Z.of_nat (length xs)) by lia. done.
Qed.

Lemma await_reset_run n (c : card) : c_cr c = 0 -> await_reset (Datatypes.S n) c = Done (Datatypes.S n) c.
Proof.
  intros E. simpl. unfold bind. rewrite E. by destruct (c_rptr c =? c_wptr c).
Qed.

(** The registers after the set-up. *)
Definition ready (rx tx : Z) (c : card) : card :=
  mkCard (c_mac c) (Z.lor CR_TE CR_RE) 0 0 0 INT_MASK (replicate 4 TSD_OWN)
    ((fun i => tx + Z.of_nat i * TX_BUF_LEN) <$> seq 0 4) rx 0 (c_sent c).

Lemma setup_run rx tx c :
  0 <= rx <= u32_max -> 0 <= tx -> tx + 3 * TX_BUF_LEN <= u32_max ->
  setup_regs rx tx c = Done (Ok ((fun i => nth i (c_mac c) 0) <$> seq 0 6)) (ready rx tx c).
Proof.
  intros Hrx Htx Hend.
  assert (Hu : forall a c, 0 <= a <= u32_max -> phys_u32 (D := card) a c = Done a c).
  { intros a c' Ha. unfold phys_u32. destruct (Z.leb_spec 0 a), (Z.leb_spec a u32_max); simpl; lia || done. }
  unfold setup_regs. erewrite bind_run; [|reflexivity]. erewrite bind_run; [|reflexivity].
  cbn [card_rd]. change (0 =? 0xffffff) with false. cbv iota. erewrite bind_run; [|reflexivity].
  replace (Z.to_nat 10000) with (Datatypes.S 9999) by (by vm_compute).
  erewrite bind_run; [|by apply await_reset_run]. change (Datatypes.S 9999 =? 0)%nat with false. cbv iota.
  do 7 (erewrite bind_run; [|reflexivity]).
  erewrite bind_run by (apply Hu; lia). erewrite bind_run; [|reflexivity].
  unfold bind at 1. cbn [set_tsads seq].
  do 4 (erewrite bind_run by (apply Hu; unfold TX_BUF_LEN in *; lia); erewrite bind_run; [|reflexivity]).
  reflexivity.
Qed.

Lemma init_run rx tx mtu c :
  0 <= rx <= u32_max -> 0 <= tx -> tx + 3 * TX_BUF_LEN <= u32_max ->
  exists d, init_device rx tx mtu (Some c) = Done (Ok d) tt /\ inv tx d (mkNic [] [] (c_sent c) 0) 4.
Proof.
  intros H1 H2 H3. unfold init_device. rewrite setup_run by done. eexists. split; [reflexivity|]. split.
  - exists 0. constructor; done.
  - exists 0. constructor; try done; simpl; try lia.
    + intros i Hi. do 4 (destruct i as [|i]; [done|]). lia.
    + intros j Hj. destruct (Z.leb_spec (0 - Z.of_nat 0) j); [lia|].
      pose proof (sl_lt j). destruct (sl j) as [|[|[|[|k]]]]; done || lia.
    + intros j Hj. split; [|lia]. pose proof (sl_lt j). destruct (sl j) as [|[|[|[|k]]]]; done || lia.
Qed.

(** C10: The RTL8139 driver, started on a card that follows its data sheet,
    hands the network stack the frames the card received, in order and
    unchanged wherever the ring wraps around, and puts the frames it is given
    on the wire, in order and unchanged; it panics exactly when a frame is
    longer than a buffer or handed over while four are not taken back. *)
Theorem rtl_refines (rx tx mtu : Z) (c : card) (xs : list op) :
  0 <= rx <= u32_max -> 0 <= tx -> tx + 3 * TX_BUF_LEN <= u32_max ->
  Forall fine_op xs -> Z.of_nat (length xs) < 2 ^ 61 ->
  exists d, init_device rx tx mtu (Some c) = Done (Ok d) tt /\
    match spec_run xs (mkNic [] [] (c_sent c) 0) with
    | Some (rs, s) => exists d', performs tx xs d = Done rs d' /\ c_sent (regs d') = s_sent s
    | None => performs tx xs d = Panic "Unable to get TX buffer"
    end.
Proof.
  intros H1 H2 H3 Hf Hn. destruct (init_run rx tx mtu c H1 H2 H3) as (d & E & I). exists d. split; [done|].
  pose proof (performs_spec _ xs _ _ _ I Hf ltac:(lia)) as Hp.
  destruct (spec_run _ _) as [[rs s]|]; [|done]. destruct Hp as (d' & E' & _ & a & I'). exists d'.
  split; [done|]. apply I'.
Qed.

(** Six received frames of which the last wrap around the end of the ring,
    and frames sent in between. *)
Definition blank : card := mkCard [1; 2; 3; 4; 5; 6] 0 0 0 0 0 [] [] 0 0 [].
Definition big (b : Z) : list Z := replicate 1500 b.
Definition traffic : list op :=
  flat_map (fun b => [CardRx (big b) [9; 9; 9; 9]; Peek; Send [b; b]; CardTx; Irq; Poll]) [1; 2; 3; 4; 5; 6] ++ [Poll].

Lemma traffic_runs :
  spec_run traffic (mkNic [] [] [] 0) =
    Some (flat_map (fun b => [Nothing; Nothing; Nothing; Nothing; Nothing; Frame (Some (big b))]) [1; 2; 3; 4; 5; 6] ++ [Frame None],
          mkNic [] [] [[1; 1]; [2; 2]; [3; 3]; [4; 4]; [5; 5]; [6; 6]] 0).
Proof. vm_compute. reflexivity. Qed.

Lemma rtl_refines_witness :
  exists d, init_device 4096 65536 1500 (Some blank) = Done (Ok d) tt /\
    exists d', performs 65536 traffic d =
      Done (flat_map (fun b => [Nothing; Nothing; Nothing; Nothing; Nothing; Frame (Some (big b))]) [1; 2; 3; 4; 5; 6] ++ [Frame None]) d' /\
      c_sent (regs d') = [[1; 1]; [2; 2]; [3; 3]; [4; 4]; [5; 5]; [6; 6]].
Proof.
  destruct (rtl_refines 4096 65536 1500 blank traffic) as (d & E & H).
  - by vm_compute.
  - done.
  - by vm_compute.
  - unfold traffic, fine_op, small, big. repeat constructor; simpl; rewrite ?length_replicate; lia.
  - by vm_compute.
  - change (c_sent blank) with (@nil (list Z)) in H. rewrite traffic_runs in H. exists d. split; [exact E|]. exact H.
Defined.

(** A fifth frame before the first is taken back: the driver does not refuse
    it but panics. *)
Lemma rtl_fifth_panics :
  exists d, init_device 4096 65536 1500 (Some blank) = Done (Ok d) tt /\
    performs 65536 [Send [1]; Send [2]; Send [3]; Send [4]; CardTx; Send [5]] d = Panic "Unable to get TX buffer".
Proof.
  destruct (init_run 4096 65536 1500 blank) as (d & E & I); [by vm_compute|done|by vm_compute|].
  exists d. split; [done|].
  apply (performs_spec _ [Send [1]; Send [2]; Send [3]; Send [4]; CardTx; Send [5]] _ _ _ I); [|done].
  repeat constructor.
Qed.
End RtlProps.
