(* ===== verification/Interrupts.v ===== *)
(** Interrupts and exceptions on aarch64,
    [src/src/arch/aarch64/kernel/interrupts.rs], with the fields of
    [CoreLocal] ([core_local.rs]) they use: the table of handlers, [do_irq] and
    [do_fiq] with the nesting depth and the split end-of-interrupt of the
    feature builds, the synchronous exceptions, the interprocessor interrupts
    and the set-up of the controller.  The scheduler below is the one of
    [Scheduler]; the interrupt controller, which the crate [arm-gic] drives, is
    a type class. *)

From S2P Require Import Prelude Tasks Errors Timers SlotPool BlockedQueue Kernel Scheduler.
Import Kernel Scheduler.

Module Interrupts.

(** The cargo features the code depends on, and whether [debug_assert!] is
    compiled in. *)
Record Features : Set := mkFeatures {
  pmr_preempt_spike : bool; pmr_band : bool; pmr_coop_net : bool; continuations : bool; debug_assertions : bool }.

Definition PPI_START : Z := 16.
Definition SPI_START : Z := 32.
Definition SGI_RESCHED : Z := 1.
Definition SGI_PMRTEST_LO : Z := 14.
Definition SGI_PMRTEST_HI : Z := 15.
Definition SGI_COOP_WAKE : Z := 13.
Definition SGI_CONT_WAKE : Z := 11.
Definition SGI_RT_BRIDGE : Z := 12.
Definition COOP_WAKE_PRIORITY : Z := 0x60.
Definition RT_BRIDGE_PRIORITY : Z := 0x20.

(** The controller: [signals] says that it asserts the interrupt line of the
    core.  The operations that answer with a [Result] answer with a boolean. *)
Class Gic (G : Type) : Type := {
  sgi : Z -> Z; ppi : Z -> Z; spi : Z -> Z;
  get_and_acknowledge_interrupt : M G (option Z);
  end_interrupt : Z -> M G unit;
  write_eoir1 : Z -> M G unit;
  write_dir : Z -> M G unit;
  get_priority_mask : M G Z;
  set_priority_mask : Z -> M G unit;
  write_sgi1r : Z -> M G unit;
  set_eoi_mode_1 : M G unit;
  setup : Z -> M G unit;
  gic_init_cpu : Z -> M G unit;
  enable_group1 : bool -> M G unit;
  set_interrupt_priority : Z -> Z -> Z -> M G bool;
  set_trigger : Z -> Z -> bool -> M G bool;
  enable_interrupt : Z -> Z -> bool -> M G bool;
  signals : G -> bool;
}.

Inductive handler : Set :=
  | timer_handler | handle_uart_interrupt | coop_wake_handler | rt_bridge_handler | cont_wake_handler
  | driver (n : Z).
Notation InterruptHandlerMap := (gmap Z (list handler)).

(** The fields of [CoreLocal] besides the scheduler. *)
Record CoreLocal : Set := mkCore {
  scratch_slot : Z; rt_nest_depth : Z; in_irq : bool; eoi_inflight : Z; irq_statistics : list Z }.

Section State.
Context {G D : Type}.

(** [kern]: the scheduler, once it is installed; [masked]: [PSTATE.I];
    [dev]: the state of the drivers. *)
Record state : Type := mkState {
  kern : option Kernel.t; gic : G; dev : D; core : CoreLocal; masked : bool; fp_trapped : bool;
  TIMER_INTERRUPT : Z; UART_INTERRUPT : Z; INTERRUPT_HANDLERS : option InterruptHandlerMap;
  IRQ_NAMES : gmap Z string; FRAME_DUMP_COUNT : Z;
  PMR_SPIKE_FLAG : bool; COOP_WAKE_PENDING : bool; COOP_TRIGGERED : bool; BAND_WAKER : option Z }.

Definition set_kern (x : Kernel.t) (s : state) : state :=
  mkState (Some x) (gic s) (dev s) (core s) (masked s) (fp_trapped s) (TIMER_INTERRUPT s) (UART_INTERRUPT s) (INTERRUPT_HANDLERS s)
    (IRQ_NAMES s) (FRAME_DUMP_COUNT s) (PMR_SPIKE_FLAG s) (COOP_WAKE_PENDING s) (COOP_TRIGGERED s) (BAND_WAKER s).
Definition set_gic (x : G) (s : state) : state :=
  mkState (kern s) x (dev s) (core s) (masked s) (fp_trapped s) (TIMER_INTERRUPT s) (UART_INTERRUPT s) (INTERRUPT_HANDLERS s)
    (IRQ_NAMES s) (FRAME_DUMP_COUNT s) (PMR_SPIKE_FLAG s) (COOP_WAKE_PENDING s) (COOP_TRIGGERED s) (BAND_WAKER s).
Definition set_dev (x : D) (s : state) : state :=
  mkState (kern s) (gic s) x (core s) (masked s) (fp_trapped s) (TIMER_INTERRUPT s) (UART_INTERRUPT s) (INTERRUPT_HANDLERS s)
    (IRQ_NAMES s) (FRAME_DUMP_COUNT s) (PMR_SPIKE_FLAG s) (COOP_WAKE_PENDING s) (COOP_TRIGGERED s) (BAND_WAKER s).
Definition set_core (x : CoreLocal) (s : state) : state :=
  mkState (kern s) (gic s) (dev s) x (masked s) (fp_trapped s) (TIMER_INTERRUPT s) (UART_INTERRUPT s) (INTERRUPT_HANDLERS s)
    (IRQ_NAMES s) (FRAME_DUMP_COUNT s) (PMR_SPIKE_FLAG s) (COOP_WAKE_PENDING s) (COOP_TRIGGERED s) (BAND_WAKER s).
Definition set_masked (x : bool) (s : state) : state :=
  mkState (kern s) (gic s) (dev s) (core s) x (fp_trapped s) (TIMER_INTERRUPT s) (UART_INTERRUPT s) (INTERRUPT_HANDLERS s)
    (IRQ_NAMES s) (FRAME_DUMP_COUNT s) (PMR_SPIKE_FLAG s) (COOP_WAKE_PENDING s) (COOP_TRIGGERED s) (BAND_WAKER s).
Definition set_fp_trapped (x : bool) (s : state) : state :=
  mkState (kern s) (gic s) (dev s) (core s) (masked s) x (TIMER_INTERRUPT s) (UART_INTERRUPT s) (INTERRUPT_HANDLERS s)
    (IRQ_NAMES s) (FRAME_DUMP_COUNT s) (PMR_SPIKE_FLAG s) (COOP_WAKE_PENDING s) (COOP_TRIGGERED s) (BAND_WAKER s).
Definition set_irqs (timer uart : Z) (s : state) : state :=
  mkState (kern s) (gic s) (dev s) (core s) (masked s) (fp_trapped s) timer uart (INTERRUPT_HANDLERS s)
    (IRQ_NAMES s) (FRAME_DUMP_COUNT s) (PMR_SPIKE_FLAG s) (COOP_WAKE_PENDING s) (COOP_TRIGGERED s) (BAND_WAKER s).
Definition set_handlers (x : InterruptHandlerMap) (s : state) : state :=
  mkState (kern s) (gic s) (dev s) (core s) (masked s) (fp_trapped s) (TIMER_INTERRUPT s) (UART_INTERRUPT s) (Some x)
    (IRQ_NAMES s) (FRAME_DUMP_COUNT s) (PMR_SPIKE_FLAG s) (COOP_WAKE_PENDING s) (COOP_TRIGGERED s) (BAND_WAKER s).
Definition set_names (x : gmap Z string) (s : state) : state :=
  mkState (kern s) (gic s) (dev s) (core s) (masked s) (fp_trapped s) (TIMER_INTERRUPT s) (UART_INTERRUPT s) (INTERRUPT_HANDLERS s)
    x (FRAME_DUMP_COUNT s) (PMR_SPIKE_FLAG s) (COOP_WAKE_PENDING s) (COOP_TRIGGERED s) (BAND_WAKER s).
Definition set_dumps (x : Z) (s : state) : state :=
  mkState (kern s) (gic s) (dev s) (core s) (masked s) (fp_trapped s) (TIMER_INTERRUPT s) (UART_INTERRUPT s) (INTERRUPT_HANDLERS s)
    (IRQ_NAMES s) x (PMR_SPIKE_FLAG s) (COOP_WAKE_PENDING s) (COOP_TRIGGERED s) (BAND_WAKER s).
Definition set_flags (spike pending triggered : bool) (waker : option Z) (s : state) : state :=
  mkState (kern s) (gic s) (dev s) (core s) (masked s) (fp_trapped s) (TIMER_INTERRUPT s) (UART_INTERRUPT s) (INTERRUPT_HANDLERS s)
    (IRQ_NAMES s) (FRAME_DUMP_COUNT s) spike pending triggered waker.
Definition set_spike (x : bool) (s : state) : state :=
  set_flags x (COOP_WAKE_PENDING s) (COOP_TRIGGERED s) (BAND_WAKER s) s.

(** [core_scheduler()] unwraps the pointer to the scheduler. *)
Definition on_kern {A} (m : M Kernel.t A) : M state A :=
  fun s => match kern s with
           | None => Panic "called `Option::unwrap()` on a `None` value"
           | Some k => match m k with Done a k => Done a (set_kern k s) | Panic why => Panic why end
           end.
Definition on_gic {A} (m : M G A) : M state A := zoom gic set_gic m.
Definition on_core (f : CoreLocal -> CoreLocal) : M state unit := modify (fun s => set_core (f (core s)) s).

(** ** [CoreLocal] *)

Definition clear_scratch_slot : M state unit :=
  on_core (fun c => mkCore 0 (rt_nest_depth c) (in_irq c) (eoi_inflight c) (irq_statistics c)).
Definition inc_rt_nest_depth : M state unit :=
  on_core (fun c => mkCore (scratch_slot c) (wrapu 64 (rt_nest_depth c + 1)) (in_irq c) (eoi_inflight c) (irq_statistics c)).
Definition dec_rt_nest_depth : M state unit :=
  let! s := get in
  do! assert_ (negb (rt_nest_depth (core s) =? 0)) "rt_nest_depth underflow" in
  on_core (fun c => mkCore (scratch_slot c) (rt_nest_depth c - 1) (in_irq c) (eoi_inflight c) (irq_statistics c)).
Definition set_in_irq (v : bool) : M state unit :=
  on_core (fun c => mkCore (scratch_slot c) (rt_nest_depth c) v (eoi_inflight c) (irq_statistics c)).
Definition eoi_inflight_inc : M state unit :=
  on_core (fun c => mkCore (scratch_slot c) (rt_nest_depth c) (in_irq c) (wrapu 32 (eoi_inflight c + 1)) (irq_statistics c)).
Definition eoi_inflight_dec : M state unit :=
  let! s := get in
  do! assert_ (negb (eoi_inflight (core s) =? 0)) "eoi_inflight underflow: DIR without matching IAR1" in
  on_core (fun c => mkCore (scratch_slot c) (rt_nest_depth c) (in_irq c) (eoi_inflight c - 1) (irq_statistics c)).
(** The 256 counters are indexed with a [u8]. *)
Definition increment_irq_counter (irq_no : Z) : M state unit :=
  on_core (fun c => mkCore (scratch_slot c) (rt_nest_depth c) (in_irq c) (eoi_inflight c)
                      (alter (fun n => wrapu 64 (n + 1)) (Z.to_nat irq_no) (irq_statistics c))).
End State.
Arguments state : clear implicits.

(** ** Interprocessor interrupts *)

(** What [pend_sgi_to_self] and [wakeup_core] write to [ICC_SGI1R_EL1]; the
    shift by the core number wraps at 64. *)
Definition sgi_self_value (intid : Z) : Z := Z.lor (Z.shiftl intid 24) (Z.shiftl 1 0).
Definition sgi_core_value (core_id : Z) : Z :=
  Z.lor (Z.shiftl SGI_RESCHED 24) (wrapu 64 (Z.shiftl 1 (core_id mod 64))).

Section Handlers.
Context {G D : Type} `{Gic G}.
Variable F : Features.
Variable env : Env.
(** Code of other components that the handlers and the scheduler call. *)
Variable nic : Scheduler.NicState.
Variable run_driver : Z -> M (state G D) unit.
Variable run_uart : M (state G D) unit.
Variable coop_wake : M (state G D) unit.
Variable wake : Z -> M (state G D) unit.

Notation st := (state G D).

Definition debug_assert (b : bool) (why : string) : M st unit :=
  if debug_assertions F then assert_ b why else ret tt.

Definition pend_sgi_to_self (intid : Z) : M st unit := on_gic (write_sgi1r (sgi_self_value intid)).
Definition wakeup_core (core_id : Z) : M st unit := on_gic (write_sgi1r (sgi_core_value core_id)).

Definition irq_enter : M st unit :=
  if pmr_band F then do! inc_rt_nest_depth in set_in_irq true else ret tt.
Definition irq_exit : M st unit :=
  if pmr_band F then do! set_in_irq false in dec_rt_nest_depth else ret tt.

(** [PmrCeiling]: the value is [saved]. *)
Definition PmrCeiling_raise (new_ceiling : Z) : M st Z :=
  let! cur := on_gic get_priority_mask in
  do! debug_assert (new_ceiling <=? cur) "PmrCeiling::raise would lower the system ceiling (SRP violation)" in
  do! on_gic (set_priority_mask new_ceiling) in
  ret cur.
Definition PmrCeiling_drop (saved : Z) : M st unit :=
  let! cur := on_gic get_priority_mask in
  do! debug_assert (cur =? saved) "PMR changed under a PmrCeiling guard" in
  on_gic (set_priority_mask saved).

Definition wake_coop_future : M st unit :=
  do! debug_assert (SGI_COOP_WAKE =? 13) "COOP-band waker must pend SGI_COOP_WAKE (INV-P5)" in
  do! pend_sgi_to_self SGI_COOP_WAKE in
  let! s := get in
  do! modify (set_flags (PMR_SPIKE_FLAG s) (COOP_WAKE_PENDING s) (COOP_TRIGGERED s) None) in
  match BAND_WAKER s with Some w => wake w | None => ret tt end.

Definition run_handler (h : handler) : M st unit :=
  match h with
  | timer_handler => on_kern (let! k := get in on_queues (fun q =>
      zoom BlockedQueue.timers BlockedQueue.set_timers (Timers.clear_active_and_set_next (clock k)) q))
  | handle_uart_interrupt => run_uart
  | coop_wake_handler => modify (fun s => set_flags (PMR_SPIKE_FLAG s) true (COOP_TRIGGERED s) (BAND_WAKER s) s)
  | rt_bridge_handler =>
      let! ceiling := PmrCeiling_raise 0x20 in
      do! modify (fun s => set_flags (PMR_SPIKE_FLAG s) (COOP_WAKE_PENDING s) true (BAND_WAKER s) s) in
      do! wake_coop_future in
      PmrCeiling_drop ceiling
  | cont_wake_handler => coop_wake
  | driver n => run_driver n
  end.
Fixpoint run_handlers (l : list handler) : M st unit :=
  match l with [] => ret tt | h :: l => do! run_handler h in run_handlers l end.

(** ** The table of handlers *)

Definition push_back (vector : Z) (h : handler) (m : InterruptHandlerMap) : InterruptHandlerMap :=
  partial_alter (fun q => Some (default [] q ++ [h])) vector m.
(** [u8::try_from(irq).unwrap() + start] *)
Definition irq_vector (irq start : Z) : M st Z :=
  if (0 <=? irq) && (irq <? 256) then ret (wrapu 8 (irq + start)) else panic "called `Result::unwrap()` on an `Err` value".

Definition shift_handlers (old_handlers : InterruptHandlerMap) : InterruptHandlerMap :=
  list_to_map ((fun '(key, value) => (wrapu 8 (key + SPI_START), value)) <$> map_to_list old_handlers).

Definition install_handlers (old_handlers : InterruptHandlerMap) : M st unit :=
  let handlers := shift_handlers old_handlers in
  let! s := get in
  let! v := irq_vector (TIMER_INTERRUPT s) PPI_START in
  let handlers := push_back v timer_handler handlers in
  let! v := irq_vector (UART_INTERRUPT s) SPI_START in
  let handlers := push_back v handle_uart_interrupt handlers in
  let handlers := if pmr_band F || pmr_coop_net F then push_back SGI_COOP_WAKE coop_wake_handler handlers else handlers in
  let handlers := if pmr_band F then push_back SGI_RT_BRIDGE rt_bridge_handler handlers else handlers in
  let handlers := if continuations F then push_back SGI_CONT_WAKE cont_wake_handler handlers else handlers in
  do! assert_ (bool_decide (INTERRUPT_HANDLERS s = None)) "called `Result::unwrap()` on an `Err` value" in
  modify (set_handlers handlers).

(** ** Interrupts *)

Definition eoi_complete (irqid : Z) : M st unit :=
  do! on_gic (write_eoir1 irqid) in
  do! on_gic (write_dir irqid) in
  eoi_inflight_dec.
Definition finish_interrupt (irqid : Z) : M st unit :=
  if pmr_coop_net F then eoi_complete irqid else on_gic (end_interrupt irqid).

(** The diagnostics at the entry: six frames of task 1 are logged. *)
Definition dump_frame_once (spsel : Z) : M st unit :=
  let! s := get in
  match kern s with
  | None => ret tt
  | Some _ =>
      let! tid := on_kern get_current_task_id in
      if negb (tid =? 1) then ret tt
      else if negb (spsel =? 0) then ret tt
      else
        let! c := gets FRAME_DUMP_COUNT in
        if 6 <=? c then ret tt else modify (set_dumps (c + 1))
  end.

(** The part that [do_irq] and [do_fiq] share, from the counter on. *)
Definition serve (irqid vector : Z) : M st (option tref) :=
  do! increment_irq_counter vector in
  let! s := get in
  do! (match INTERRUPT_HANDLERS s with
       | Some handlers => match handlers !! vector with Some queue => run_handlers queue | None => ret tt end
       | None => ret tt
       end) in
  do! on_kern wake_pending_tasks in
  do! finish_interrupt irqid in
  do! irq_exit in
  let! s := get in
  if rt_nest_depth (core s) =? 0 then on_kern (Scheduler.scheduler env nic) else ret None.

(** [u32::from(irqid).try_into().unwrap()] *)
Definition vector_of (irqid : Z) : M st Z :=
  if (0 <=? irqid) && (irqid <? 256) then ret irqid else panic "called `Result::unwrap()` on an `Err` value".

Definition do_fiq : M st (option tref) :=
  let! ack := on_gic get_and_acknowledge_interrupt in
  match ack with
  | None => ret None
  | Some irqid =>
      let! vector := vector_of irqid in
      do! irq_enter in
      serve irqid vector
  end.

(** The two test interrupts; [take] takes the interrupts the controller
    signals, if they are not masked. *)
Section Spike.
Variable take : M st unit.

Fixpoint spin (n : nat) : M st unit :=
  do! take in
  let! s := get in
  if PMR_SPIKE_FLAG s then ret tt
  else match n with O => ret tt | Datatypes.S n => spin n end.

Definition pmr_spike_dispatch (limit : nat) (vector : Z) : M st (option tref) :=
  if vector =? SGI_PMRTEST_HI then do! modify (set_spike true) in ret None
  else if vector =? SGI_PMRTEST_LO then
    do! modify (set_spike false) in
    do! on_gic (set_priority_mask 0x40) in
    let! pmr := on_gic get_priority_mask in
    do! debug_assert (pmr <=? 0x40) "INV-P9: PMR ceiling not applied" in
    do! modify (set_masked false) in
    do! pend_sgi_to_self SGI_PMRTEST_HI in
    do! spin limit in
    do! modify (set_masked true) in
    do! on_gic (set_priority_mask 0xff) in
    do! modify (set_spike false) in
    do! on_gic (set_priority_mask 0x00) in
    let! pmr := on_gic get_priority_mask in
    do! debug_assert (pmr =? 0x00) "INV-P9/INV-P12: PMR floor not 0x00" in
    do! modify (set_masked false) in
    do! pend_sgi_to_self SGI_PMRTEST_HI in
    do! spin limit in
    do! modify (set_masked true) in
    do! on_gic (set_priority_mask 0xff) in
    ret None
  else ret None.
End Spike.

(** [spins > 1_000_000] ends the loops. *)
Definition SPIN_LIMIT : nat := Z.to_nat 1000000.

Definition do_irq_with (take : M st unit) (spsel : Z) : M st (option tref) :=
  do! dump_frame_once spsel in
  let! ack := on_gic get_and_acknowledge_interrupt in
  match ack with
  | None => ret None
  | Some irqid =>
      do! (if pmr_coop_net F then eoi_inflight_inc else ret tt) in
      let! vector := vector_of irqid in
      do! irq_enter in
      if pmr_preempt_spike F && ((vector =? SGI_PMRTEST_LO) || (vector =? SGI_PMRTEST_HI)) then
        let! r := pmr_spike_dispatch take SPIN_LIMIT vector in
        do! finish_interrupt irqid in
        do! irq_exit in
        ret r
      else serve irqid vector
  end.

(** The processor enters [do_irq] with interrupts masked and restores the mask
    on return.  [fuel] bounds the nesting. *)
Fixpoint do_irq (fuel : nat) (spsel : Z) : M st (option tref) :=
  do_irq_with
    (let! s := get in
     if masked s || negb (signals (gic s)) then ret tt
     else match fuel with
          | O => panic "nesting"
          | Datatypes.S fuel =>
              do! modify (set_masked true) in
              do! do_irq fuel 1 in
              modify (set_masked false)
          end) spsel.

(** ** Exceptions *)

Inductive outcome : Set :=
  | Return (* to the interrupted context *)
  | Halt (* spins forever *)
  | Exit (* [scheduler::abort], the task is gone *).

Definition EC_TRAPPED_FP : Z := 0x07.
Definition EC_INSTR_ABORT_LOWER : Z := 0x20.
Definition EC_INSTR_ABORT_CURRENT : Z := 0x21.
Definition EC_DATA_ABORT_LOWER : Z := 0x24.
Definition EC_DATA_ABORT_CURRENT : Z := 0x25.
Definition EC_BRK64 : Z := 0x3c.

(** [scheduler::abort]; before there is a scheduler the core halts. *)
Definition abort : M st outcome :=
  let! s := get in
  match kern s with Some _ => do! on_kern (Scheduler.exit env) in ret Exit | None => ret Halt end.

(** The frame has to be on the slot of the task. *)
Definition check_slot (spsr sp_el1 : Z) : M st unit :=
  if Z.land spsr 1 =? 0 then
    let! s := get in
    do! assert_ (sp_el1 =? scratch_slot (core s)) "frame not on task's slot" in
    let! k := on_kern get in
    let! tk := on_kern (borrow (current_task k)) in
    assert_ (bool_decide (Task.frame_location tk = InSlot)) "current task frame_location must be InSlot"
  else ret tt.

(** [ec_known]: the exception classes the crate [aarch64-cpu] has a name for. *)
Variable ec_known : Z -> bool.

Definition do_sync (spsel spsr ec iss sp_el1 : Z) : M st outcome :=
  do! check_slot spsr sp_el1 in
  do! (if Z.land spsr 1 =? 0 then clear_scratch_slot else ret tt) in
  do! dump_frame_once spsel in
  do! assert_ (ec_known ec) "called `Option::unwrap()` on a `None` value" in
  if (ec =? EC_DATA_ABORT_CURRENT) || (ec =? EC_DATA_ABORT_LOWER) then
    if Z.land iss (Z.shiftl 1 10) =? 0 then
      let! _cur_id := on_kern get_current_task_id in
      let! ack := on_gic get_and_acknowledge_interrupt in
      do! (match ack with Some irqid => finish_interrupt irqid | None => ret tt end) in
      ret Halt
    else ret Return
  else if ec =? EC_BRK64 then ret Halt
  else if (ec =? EC_INSTR_ABORT_LOWER) || (ec =? EC_INSTR_ABORT_CURRENT) then
    let! _task_id := on_kern get_current_task_id in abort
  else if ec =? EC_TRAPPED_FP then
    do! modify (set_fp_trapped false) in
    do! on_kern fpu_switch in
    ret Return
  else let! _task_id := on_kern get_current_task_id in ret Halt.

Definition do_bad_mode : M st outcome := abort.
Definition do_error (spsr sp_el1 : Z) : M st outcome := do! check_slot spsr sp_el1 in abort.

Inductive DfFlavor : Set := El1hSync | El1hError | El1tSync | El1tError.
Definition from_u64 (v : Z) : DfFlavor :=
  if v =? 0 then El1hSync else if v =? 1 then El1hError else if v =? 2 then El1tSync
  else if v =? 3 then El1tError else El1hSync.
Definition is_el1t (f : DfFlavor) : bool := match f with El1tSync | El1tError => true | _ => false end.
Definition do_double_fault (flavor : Z) : M st outcome :=
  if is_el1t (from_u64 flavor) then abort else abort.

(** ** Set-up of the controller *)

(** [u32::from_be_bytes] of the first four bytes, and the rest. *)
Definition be_u32 (l : list Z) : M st (Z * list Z) :=
  match l with
  | a :: b :: c :: d :: l => ret (((a * 256 + b) * 256 + c) * 256 + d, l)
  | _ => panic "mid > len"
  end.
Definition irq_cell (l : list Z) : M st (Z * Z * Z * list Z) :=
  let! ' (irqtype, l) := be_u32 l in
  let! ' (irq, l) := be_u32 l in
  let! ' (irqflags, l) := be_u32 l in
  ret (irqtype, irq, irqflags, l).

Definition unwrap_gic (m : M G bool) : M st unit :=
  let! ok := on_gic m in assert_ ok "called `Result::unwrap()` on an `Err` value".
Definition irq_name (vector : Z) (name : string) : M st unit :=
  modify (fun s => set_names (<[vector := name]> (IRQ_NAMES s)) s).
Definition add_irq_name (irq_number : Z) (name : string) : M st unit := irq_name (wrapu 8 (SPI_START + irq_number)) name.
Definition get_irq_name (irq_number : Z) : M st (option string) := gets (fun s => IRQ_NAMES s !! irq_number).

(** Priority, trigger and enable bit of an interrupt of the device tree. *)
Definition enable_device_irq (cpu_id irqtype irq irqflags : Z) : M st unit :=
  let! id := (if irqtype =? 1 then ret (ppi irq) else if irqtype =? 0 then ret (spi irq)
              else panic "Invalid interrupt type") in
  do! unwrap_gic (set_interrupt_priority id cpu_id 0x00) in
  let t := Z.land irqflags 0xf in
  do! (if (t =? 4) || (t =? 8) then unwrap_gic (set_trigger id cpu_id true)
       else if (t =? 2) || (t =? 1) then unwrap_gic (set_trigger id cpu_id false)
       else panic "Invalid interrupt level!") in
  unwrap_gic (enable_interrupt id cpu_id true).
Definition enable_sgi (cpu_id n priority : Z) : M st unit :=
  do! unwrap_gic (set_interrupt_priority (sgi n) cpu_id priority) in
  unwrap_gic (enable_interrupt (sgi n) cpu_id true).
Definition enable_named_sgi (cpu_id n priority : Z) (name : string) : M st unit :=
  do! enable_sgi cpu_id n priority in irq_name n name.

(** [init] from [gic.setup] on; the properties are those of the device tree. *)
Definition init (cpu_id : Z) (timer uart : option (list Z)) : M st unit :=
  do! on_gic (setup cpu_id) in
  do! on_gic (set_priority_mask 0xff) in
  do! (if pmr_coop_net F then on_gic set_eoi_mode_1 else ret tt) in
  do! (match timer with
       | None => ret tt
       | Some prop =>
           let! ' (_, prop) := irq_cell prop in
           let! ' (irqtype, irq, irqflags, _) := irq_cell prop in
           do! modify (fun s => set_irqs irq (UART_INTERRUPT s) s) in
           let! v := irq_vector irq PPI_START in
           do! irq_name v "Timer" in
           enable_device_irq cpu_id irqtype irq irqflags
       end) in
  do! (match uart with
       | None => ret tt
       | Some prop =>
           let! ' (irqtype, irq, irqflags, _) := irq_cell prop in
           do! modify (fun s => set_irqs (TIMER_INTERRUPT s) irq s) in
           let! v := irq_vector irq SPI_START in
           do! irq_name v "UART" in
           enable_device_irq cpu_id irqtype irq irqflags
       end) in
  do! enable_named_sgi cpu_id SGI_RESCHED 0x01 "Reschedule" in
  do! (if continuations F then enable_named_sgi cpu_id SGI_CONT_WAKE 0x60 "ContWake" else ret tt) in
  do! (if pmr_preempt_spike F then
         do! enable_named_sgi cpu_id SGI_PMRTEST_LO 0x40 "PmrTestLo" in
         enable_named_sgi cpu_id SGI_PMRTEST_HI 0x00 "PmrTestHi"
       else ret tt) in
  do! (if pmr_band F || pmr_coop_net F then enable_named_sgi cpu_id SGI_COOP_WAKE COOP_WAKE_PRIORITY "CoopWake" else ret tt) in
  if pmr_band F then
    do! debug_assert (cpu_id =? 0) "RT-band SGI registered off core 0 (INV-P7)" in
    enable_named_sgi cpu_id SGI_RT_BRIDGE RT_BRIDGE_PRIORITY "RtBridge"
  else ret tt.

(** The number of set bits of the mask that is read back. *)
Definition count_ones (x : Z) : Z := Z.of_nat (length (List.filter (Z.testbit x) (seqZ 0 8))).

Definition init_cpu (cpu_id : Z) (timer : option (list Z)) : M st unit :=
  do! on_gic (gic_init_cpu cpu_id) in
  do! on_gic (enable_group1 true) in
  do! on_gic (set_priority_mask 0xff) in
  do! (if pmr_coop_net F then on_gic set_eoi_mode_1 else ret tt) in
  do! (if pmr_preempt_spike F then
         do! on_gic (set_priority_mask 0xff) in
         let! readback := on_gic get_priority_mask in
         do! assert_ (4 <=? count_ones readback) "GIC implements fewer than 4 priority bits; band layout invalid" in
         on_gic (set_priority_mask 0xff)
       else ret tt) in
  do! (match timer with
       | None => ret tt
       | Some prop =>
           let! ' (_, prop) := irq_cell prop in
           let! ' (irqtype, irq, irqflags, _) := irq_cell prop in
           enable_device_irq cpu_id irqtype irq irqflags
       end) in
  do! enable_sgi cpu_id SGI_RESCHED 0x01 in
  do! (if pmr_preempt_spike F then
         do! enable_named_sgi cpu_id SGI_PMRTEST_LO 0x40 "PmrTestLo" in
         enable_named_sgi cpu_id SGI_PMRTEST_HI 0x00 "PmrTestHi"
       else ret tt) in
  do! (if pmr_band F || pmr_coop_net F then enable_named_sgi cpu_id SGI_COOP_WAKE COOP_WAKE_PRIORITY "CoopWake" else ret tt) in
  if pmr_band F then
    do! debug_assert (cpu_id =? 0) "RT-band SGI registered off core 0 (INV-P7)" in
    enable_named_sgi cpu_id SGI_RT_BRIDGE RT_BRIDGE_PRIORITY "RtBridge"
  else ret tt.
End Handlers.
End Interrupts.
