(* ===== verification/IrqProps.v ===== *)
(** Interrupts: what an interrupt does from the controller down to the
    scheduler, nesting, the table of handlers, and which cores an
    interprocessor interrupt reaches. *)

From S2P Require Import Prelude PrioFifo Tasks Errors ReadyQueue Timers SlotPool BlockedQueue Kernel Scheduler SchedInv SchedOps SchedProps Interrupts.
Import Kernel Scheduler SchedInv SchedOps SchedProps.

Module IrqProps.
Import Interrupts.

Section Serve.
Context {G D : Type} `{Gic G}.
Variable F : Features.
Variable env : Env.
Variable nic : NicState.
Variable run_driver : Z -> M (state G D) unit.
Variable run_uart : M (state G D) unit.
Variable coop_wake : M (state G D) unit.
Variable wake : Z -> M (state G D) unit.

Notation st := (state G D).
Notation run_handlers := (run_handlers F run_driver run_uart coop_wake wake).
Notation serve := (serve F env nic run_driver run_uart coop_wake wake).
Notation do_irq := (do_irq F env nic run_driver run_uart coop_wake wake).

Lemma on_kern_run {A} (m : M Kernel.t A) (s : st) k a k' :
  kern s = Some k -> m k = Done a k' -> on_kern m s = Done a (set_kern k' s).
Proof. intros E1 E2. unfold on_kern. by rewrite E1, E2. Qed.
Lemma on_gic_run {A} (m : M G A) (s : st) a g' :
  m (gic s) = Done a g' -> on_gic m s = Done a (set_gic g' s).
Proof. apply zoom_run. Qed.

(** The controller ends the interrupt [id]: in one step, or in two. *)
Definition ends (id : Z) (g g' : G) : Prop :=
  if pmr_coop_net F then exists g1, write_eoir1 id g = Done tt g1 /\ write_dir id g1 = Done tt g'
  else end_interrupt id g = Done tt g'.

Definition with_core (f : CoreLocal -> CoreLocal) (s : st) : st := set_core (f (core s)) s.
Definition counted (v : Z) (c : CoreLocal) : CoreLocal :=
  mkCore (scratch_slot c) (rt_nest_depth c) (in_irq c) (eoi_inflight c)
    (alter (fun n => wrapu 64 (n + 1)) (Z.to_nat v) (irq_statistics c)).
Definition entered (c : CoreLocal) : CoreLocal :=
  if pmr_band F then mkCore (scratch_slot c) (rt_nest_depth c + 1) true (eoi_inflight c) (irq_statistics c) else c.
Definition left_ (c : CoreLocal) : CoreLocal :=
  if pmr_band F then mkCore (scratch_slot c) (rt_nest_depth c - 1) false (eoi_inflight c) (irq_statistics c) else c.
Definition inflight (n : Z) (c : CoreLocal) : CoreLocal :=
  if pmr_coop_net F then mkCore (scratch_slot c) (rt_nest_depth c) (in_irq c) (eoi_inflight c + n) (irq_statistics c) else c.

Lemma irq_enter_run (s : st) :
  0 <= rt_nest_depth (core s) < u64_max -> irq_enter F s = Done tt (with_core entered s).
Proof.
  intros Hd. unfold irq_enter, with_core, entered. destruct (pmr_band F); [|by destruct s].
  unfold bind, inc_rt_nest_depth, set_in_irq, on_core, modify. cbn. unfold u64_max in Hd.
  rewrite wrapu_small by lia. done.
Qed.

Lemma irq_exit_run (s : st) :
  (pmr_band F = true -> 0 < rt_nest_depth (core s)) -> irq_exit F s = Done tt (with_core left_ s).
Proof.
  intros Hd. unfold irq_exit, with_core, left_. destruct (pmr_band F); [|by destruct s].
  unfold bind, dec_rt_nest_depth, set_in_irq, on_core, modify, bind, get, assert_. cbn.
  destruct (Z.eqb_spec (rt_nest_depth (core s)) 0); [specialize (Hd eq_refl); lia|]. done.
Qed.

Lemma finish_run id (s : st) g' :
  ends id (gic s) g' -> (pmr_coop_net F = true -> 0 < eoi_inflight (core s)) ->
  finish_interrupt F id s = Done tt (set_gic g' (with_core (inflight (-1)) s)).
Proof.
  unfold ends, finish_interrupt, inflight, with_core. destruct (pmr_coop_net F); [|by intros E _; destruct s; apply on_gic_run].
  intros (g1 & E1 & E2) Hc. specialize (Hc eq_refl). unfold eoi_complete.
  erewrite bind_run by (apply on_gic_run, E1). erewrite bind_run by (apply on_gic_run, E2).
  unfold eoi_inflight_dec, bind, get, assert_. cbn.
  destruct (Z.eqb_spec (eoi_inflight (core s)) 0); [lia|]. done.
Qed.

Definition queue_of (s : st) (v : Z) : list handler :=
  default [] (hs ← INTERRUPT_HANDLERS s; hs !! v).

(** The state once the interrupt is over, but for the scheduler. *)
Definition over (v : Z) (g : G) (c : CoreLocal) (k : Kernel.t) (s : st) : st :=
  set_kern k (set_gic g (set_core (left_ (inflight (-1) (counted v c))) s)).

(** What waking the pending tasks does to a core. *)
Definition woke (k k1 : Kernel.t) : Prop :=
  kinv k1 /\ current_task k1 = current_task k /\
  blocked_tasks k1 = List.filter (fun n => negb (BlockedQueue.elapsed (clock k) n)) (blocked_tasks k) /\
  heap k1 = BlockedQueue.readied (heap k)
              (map BlockedQueue.task (List.filter (BlockedQueue.elapsed (clock k)) (blocked_tasks k))).

(** The tasks the network stack wakes when the interrupt ends in a reschedule:
    distinct and blocked on this core, with no deadline that has passed, or of
    another core. *)
Definition poke_ok (k : Kernel.t) : Prop :=
  joiners_ok k (poked nic k) /\
  forall h n tn, h ∈ poked nic k -> n ∈ blocked_tasks k -> heap k !! BlockedQueue.task n = Some tn ->
    Task.id tn = TaskHandle.get_id h -> BlockedQueue.elapsed (clock k) n = false.

Lemma woke_poke_ok k ts k1 :
  wake_pending_tasks (with_timers ts k) = Done tt k1 -> woke k k1 -> poke_ok k -> joiners_ok k1 (poked nic k1).
Proof.
  intros E (_ & _ & Hbl & Hheap) [[Hnd Hj] Hel].
  assert (Hfr : core_id k1 = core_id k /\ finished_tasks k1 = finished_tasks k /\ SCHEDULER_INPUTS k1 = SCHEDULER_INPUTS k).
  { unfold wake_pending_tasks, bind, get, on_queues, zoom in E.
    destruct (BlockedQueue.handle_waiting_tasks _ _ _); [|done]. by simplify_eq. }
  destruct Hfr as (Hco & Hfi & Hin).
  assert (Hp : poked nic k1 = poked nic k) by (unfold poked; by rewrite Hco, Hfi).
  rewrite Hp. split; [done|]. intros h Hh. rewrite Hco, Hin.
  destruct (Hj h Hh) as [(Hc & n & tn & Hn & Htn & Hid)|?]; [left|by right]. split; [done|].
  specialize (Hel h n tn Hh Hn Htn Hid). exists n. eexists. rewrite Hbl, Hheap, readied_lookup, Htn.
  split; [|split; [reflexivity|by case_bool_decide]].
  apply list_elem_of_In, filter_In. rewrite <- list_elem_of_In, Hel. done.
Qed.

Lemma serve_run id v (s s1 : st) k ts g' :
  run_handlers (queue_of s v) (with_core (counted v) s) = Done tt s1 ->
  kern s1 = Some (with_timers ts k) -> kinv k -> Timers.wf ts -> core s1 = counted v (core s) ->
  ends id (gic s1) g' -> (pmr_coop_net F = true -> 0 < eoi_inflight (core s)) ->
  (pmr_band F = true -> 0 < rt_nest_depth (core s)) -> poke_ok k ->
  exists k1, woke k k1 /\
    if rt_nest_depth (left_ (core s)) =? 0 then
      exists res k2 k' tc, serve id v s = Done res (over v g' (core s) k' s1) /\ kinv k' /\
        housekeeping nic k1 = Done tt k2 /\ housekept nic k1 k2 /\ heap k2 !! current_task k = Some tc /\
        current_task k' = default (current_task k) (next_task k2 tc)
    else serve id v s = Done None (over v g' (core s) k1 s1).
Proof.
  intros Hrun Hk Hinv Hwf Hcore Hend Hc Hd Hpoke.
  destruct (wake_pending_uncovered k ts Hinv Hwf) as (k1 & E1 & Hk1 & Hcur & Hbl & Hheap).
  exists k1. split; [done|].
  assert (Es : serve id v s =
            (let! s2 := get in
             if rt_nest_depth (core s2) =? 0 then on_kern (Scheduler.scheduler env nic) else ret None)
              (over v g' (core s) k1 s1)).
  { unfold Interrupts.serve. erewrite bind_run by reflexivity. erewrite bind_run by reflexivity.
    erewrite (bind_run _ _ _ tt s1).
    2: { revert Hrun. unfold queue_of, with_core. destruct s as [? ? ? ? ? ? ? ? [hs|] ? ? ? ? ? ?]; cbn; [|done].
         by destruct (hs !! v). }
    erewrite bind_run by (eapply on_kern_run; [exact Hk|exact E1]).
    erewrite bind_run by (apply finish_run; [exact Hend|cbn; rewrite Hcore; exact Hc]).
    erewrite bind_run; [|apply irq_exit_run; cbn; rewrite Hcore; unfold inflight; destruct (pmr_coop_net F); exact Hd].
    unfold over, with_core. cbn. rewrite Hcore. done. }
  rewrite Es. unfold bind at 1 2, get.
  replace (rt_nest_depth (core (over v g' (core s) k1 s1))) with (rt_nest_depth (left_ (core s)))
    by (unfold over, left_, inflight; cbn; by destruct (pmr_band F), (pmr_coop_net F)).
  destruct (rt_nest_depth (left_ (core s)) =? 0); [|done].
  destruct (scheduler_ok env nic k1 Hk1) as (k2 & tc & res & k' & Eh & Hh & Htc & E' & Hk' & Hc');
    [by eapply woke_poke_ok|].
  exists res, k2, k', tc. erewrite on_kern_run; [|reflexivity|exact E']. rewrite Hcur in Htc, Hc'. done.
Qed.

Lemma dump_frame_run spsel (s : st) :
  (forall k, kern s = Some k -> kinv k) ->
  exists n, dump_frame_once spsel s = Done tt (set_dumps n s) .
Proof.
  intros Hk. unfold dump_frame_once. unfold bind at 1, get.
  assert (Hsame : set_dumps (FRAME_DUMP_COUNT s) s = s) by (by destruct s).
  destruct (kern s) as [k|] eqn:Ek; [|exists (FRAME_DUMP_COUNT s); by rewrite Hsame].
  destruct (proj2 (Hk k eq_refl)) as (tc & Htc & _).
  erewrite bind_run; [|eapply on_kern_run; [exact Ek|]; unfold get_current_task_id, borrow, bind, get, unwrap; rewrite Htc; reflexivity].
  replace (set_kern k s) with s by (clear -Ek; destruct s; cbn in Ek; by subst).
  destruct (negb _); [exists (FRAME_DUMP_COUNT s); by rewrite Hsame|].
  destruct (negb _); [exists (FRAME_DUMP_COUNT s); by rewrite Hsame|].
  unfold bind, gets. destruct (6 <=? _); [exists (FRAME_DUMP_COUNT s); by rewrite Hsame|]. by eexists.
Qed.

(** The state in which the handlers of an interrupt run. *)
Definition acked (n v : Z) (g : G) (s : st) : st :=
  with_core (fun c => counted v (entered (inflight 1 c))) (set_gic g (set_dumps n s)).

(** An interrupt, but the two of the test. *)
Lemma do_irq_run fuel spsel (s : st) v g1 :
  (forall k, kern s = Some k -> kinv k) ->
  get_and_acknowledge_interrupt (gic s) = Done (Some v) g1 -> 0 <= v < 256 ->
  pmr_preempt_spike F && ((v =? SGI_PMRTEST_LO) || (v =? SGI_PMRTEST_HI)) = false ->
  0 <= rt_nest_depth (core s) < u64_max -> 0 <= eoi_inflight (core s) < u32_max ->
  exists n, do_irq fuel spsel s = serve v v (with_core (fun c => entered (inflight 1 c)) (set_gic g1 (set_dumps n s))).
Proof.
  intros Hk Hack Hv Hsp Hd Hi. destruct (dump_frame_run spsel s Hk) as [n En]. exists n.
  assert (E : forall take, do_irq_with F env nic run_driver run_uart coop_wake wake take spsel s =
     serve v v (with_core (fun c => entered (inflight 1 c)) (set_gic g1 (set_dumps n s)))).
  { intros take. unfold do_irq_with. erewrite bind_run by exact En.
    erewrite bind_run by (apply on_gic_run; exact Hack). cbv iota beta.
    erewrite (bind_run _ _ _ tt (with_core (inflight 1) (set_gic g1 (set_dumps n s)))).
    2: { unfold with_core, inflight, eoi_inflight_inc, on_core, modify. destruct (pmr_coop_net F); [|by destruct s].
         cbn. rewrite wrapu_small; [done|]. unfold u32_max in Hi. lia. }
    unfold vector_of. destruct (Z.leb_spec 0 v), (Z.ltb_spec v 256); try lia. cbn [andb].
    erewrite bind_run by reflexivity.
    erewrite bind_run; [|apply irq_enter_run; unfold with_core, inflight; cbn; by destruct (pmr_coop_net F)].
    rewrite Hsp. done. }
  destruct fuel; apply E.
Qed.

Definition timers_of (k : Kernel.t) : Timers.t := BlockedQueue.timers (queues k).

Lemma timer_handler_run (s : st) k :
  kern s = Some k -> kinv k -> 0 <= clock k -> Timers.oneshot (timers_of k) <> None ->
  exists ts, run_handlers [timer_handler] s = Done tt (set_kern (with_timers ts k) s) /\ Timers.wf ts.
Proof.
  intros Ek Hk Hc Ho.
  assert (Hwf : Timers.wf (timers_of k)) by (apply (BlockedQueue.inv_timers (core_id k)), (k_queues _ _ _ (proj1 Hk))).
  destruct (Timers.clear_active_ok _ (clock k) Hwf Hc Ho) as (ts & src & E & Hwf' & _). exists ts. split; [|done].
  cbn [Interrupts.run_handlers run_handler]. erewrite bind_run; [reflexivity|].
  eapply on_kern_run; [exact Ek|]. unfold bind, get, on_queues, zoom. unfold timers_of in E. rewrite E. done.
Qed.

(** The hardware timer fires before every deadline of a blocked task. *)
Lemma armed_for k nd w :
  kinv k -> nd ∈ blocked_tasks k -> BlockedQueue.wakeup_time nd = Some w ->
  exists d, Timers.oneshot (timers_of k) = Some d /\ d <= w.
Proof.
  intros [Hg _] Hn Hw. destruct (k_queues _ _ _ Hg) as [H0 Hcov].
  rewrite List.Forall_forall in Hcov. apply list_elem_of_In in Hn. specialize (Hcov nd Hn).
  pose proof (BlockedQueue.inv_nodes _ _ H0) as Hnodes. rewrite List.Forall_forall in Hnodes.
  destruct (Hnodes nd Hn) as [_ Hr]. unfold BlockedQueue.covered in Hcov. rewrite Hw in Hr, Hcov. cbn in Hr, Hcov.
  destruct (BlockedQueue.inv_timers _ _ H0) as (a & b & Hts & ? & ? & Hone).
  unfold Timers.deadline in Hcov. rewrite Hts in Hcov. cbn in Hcov. exists (Z.min a b). unfold timers_of.
  rewrite Hone, Timers.hw_deadline_Some by lia. split; [done|lia].
Qed.

End Serve.

(** ** The table of handlers *)

Section Table.
Context {G D : Type} (F : Features).
Notation st := (state G D).

Lemma push_back_lookup v h m w :
  push_back v h m !! w = if decide (v = w) then Some (default [] (m !! w) ++ [h]) else m !! w.
Proof.
  unfold push_back. case_decide as E; [subst; by rewrite lookup_partial_alter_eq|by rewrite lookup_partial_alter_ne].
Qed.

Lemma shift_handlers_lookup old v :
  (forall k, is_Some (old !! k) -> 0 <= k < 256) -> 0 <= v < 256 ->
  shift_handlers old !! v = old !! wrapu 8 (v - SPI_START).
Proof.
  intros Hk Hv. unfold shift_handlers.
  assert (Hinv : forall k, 0 <= k < 256 -> wrapu 8 (wrapu 8 (k + SPI_START) - SPI_START) = k).
  { intros k Hr. unfold wrapu, SPI_START. change (2 ^ 8) with 256. Z.to_euclidean_division_equations. lia. }
  assert (Hinv' : wrapu 8 (wrapu 8 (v - SPI_START) + SPI_START) = v).
  { unfold wrapu, SPI_START. change (2 ^ 8) with 256. Z.to_euclidean_division_equations. lia. }
  assert (Hnd : NoDup (fmap fst ((fun '(key, value) => (wrapu 8 (key + SPI_START), value)) <$> map_to_list old))).
  { rewrite <- list_fmap_compose. apply NoDup_fmap_2_strong.
    - intros [k1 x1] [k2 x2] H1 H2 E. cbn in E. rewrite elem_of_map_to_list in H1, H2.
      assert (k1 = k2) as -> by (rewrite <- (Hinv k1), <- (Hinv k2), E by (apply Hk; eauto); done).
      congruence.
    - apply NoDup_map_to_list. }
  apply option_eq. intros q. rewrite <- elem_of_list_to_map by done. rewrite list_elem_of_fmap. split.
  - intros ([k x] & [= -> ->] & H1). apply elem_of_map_to_list in H1. by rewrite Hinv by (apply Hk; eauto).
  - intros E. exists (wrapu 8 (v - SPI_START), q). rewrite Hinv'. split; [done|]. by apply elem_of_map_to_list.
Qed.

(** After the set-up the interrupt with number [v] runs the handlers the
    drivers registered for the shared interrupt [v - 32], then the timer's if
    [v] is the timer's private interrupt, then the serial console's, and the
    handlers of the features' software interrupts, and no others. *)
Theorem handlers_installed (old : InterruptHandlerMap) (s : st) v :
  (forall k, is_Some (old !! k) -> 0 <= k < 224) -> INTERRUPT_HANDLERS s = None ->
  0 <= TIMER_INTERRUPT s < 16 -> 0 <= UART_INTERRUPT s < 224 -> 0 <= v < 256 ->
  exists hs, install_handlers F old s = Done tt (set_handlers hs s) /\
    default [] (hs !! v) =
      (if decide (32 <= v) then default [] (old !! (v - 32)) else []) ++
      (if decide (v = TIMER_INTERRUPT s + 16) then [timer_handler] else []) ++
      (if decide (v = UART_INTERRUPT s + 32) then [handle_uart_interrupt] else []) ++
      (if decide (v = 13 /\ pmr_band F || pmr_coop_net F = true) then [coop_wake_handler] else []) ++
      (if decide (v = 12 /\ pmr_band F = true) then [rt_bridge_handler] else []) ++
      (if decide (v = 11 /\ continuations F = true) then [cont_wake_handler] else []).
Proof.
  intros Hk Hnone Ht Hu Hv. unfold install_handlers. unfold bind at 1, get.
  assert (Hvec : forall irq start (s : st), 0 <= irq -> irq + start < 256 -> 0 <= start ->
            irq_vector irq start s = Done (irq + start) s).
  { intros irq start s' H1 H2 H3. unfold irq_vector. destruct (Z.leb_spec 0 irq), (Z.ltb_spec irq 256); try lia. cbn.
    unfold ret. rewrite wrapu_small; [done|]. change (2 ^ 8) with 256. lia. }
  erewrite bind_run by (apply Hvec; unfold PPI_START; lia).
  erewrite bind_run by (apply Hvec; unfold SPI_START; lia). cbv zeta. rewrite Hnone.
  erewrite bind_run by reflexivity. eexists. split; [reflexivity|].
  assert (Hold : default [] (shift_handlers old !! v) = if decide (32 <= v) then default [] (old !! (v - 32)) else []).
  { rewrite shift_handlers_lookup by (intros; try (apply Hk in H; lia); lia). unfold SPI_START, wrapu. change (2 ^ 8) with 256.
    case_decide; [by rewrite Z.mod_small by lia|].
    replace ((v - 32) mod 256) with (v + 224) by (Z.to_euclidean_division_equations; lia).
    destruct (old !! (v + 224)) eqn:E; [|done]. exfalso. specialize (Hk (v + 224)). rewrite E in Hk.
    specialize (Hk (ltac:(eauto))). lia. }
  rewrite <- Hold. unfold SGI_COOP_WAKE, SGI_RT_BRIDGE, SGI_CONT_WAKE, PPI_START, SPI_START.
  destruct (pmr_band F), (pmr_coop_net F), (continuations F); cbn [orb];
    repeat (rewrite push_back_lookup; case_decide); cbn [default]; repeat (case_decide; try lia);
    rewrite ?app_nil_r, <- ?app_assoc; cbn; try done; try lia; naive_solver lia.
Qed.
End Table.

(** ** Interprocessor interrupts *)

(** What the architecture makes of a value of [ICC_SGI1R_EL1]: the number of
    the interrupt, and whether it reaches the core whose affinity is
    [0.0.n / 16.n mod 16]. *)
Definition sgi_intid (v : Z) : Z := Z.land (Z.shiftr v 24) 0xf.
Definition sgi_reaches (v n : Z) : bool :=
  (Z.land (Z.shiftr v 16) 0xff =? n / 16) && Z.testbit v (n mod 16) && negb (Z.testbit v 40).

(** [wakeup_core] reaches exactly the core it names among the first sixteen;
    for the next eight it reaches no core at all. *)
Lemma wakeup_reaches :
  (forall c n, 0 <= c < 16 -> 0 <= n < 256 ->
     sgi_intid (sgi_core_value c) = SGI_RESCHED /\ sgi_reaches (sgi_core_value c) n = (n =? c)) /\
  (forall c n, 16 <= c < 24 -> 0 <= n < 256 -> sgi_reaches (sgi_core_value c) n = false).
Proof.
  assert (E : forallb (fun c => (sgi_intid (sgi_core_value c) =? SGI_RESCHED) &&
     forallb (fun n => eqb (sgi_reaches (sgi_core_value c) n) ((c <? 16) && (n =? c))) (seqZ 0 256)) (seqZ 0 24) = true)
    by (vm_compute; done).
  rewrite forallb_forall in E.
  assert (Hc : forall c n, 0 <= c < 24 -> 0 <= n < 256 ->
     sgi_intid (sgi_core_value c) = SGI_RESCHED /\ sgi_reaches (sgi_core_value c) n = (c <? 16) && (n =? c)).
  { intros c n H1 H2. specialize (E c). rewrite <- list_elem_of_In, elem_of_seqZ in E. specialize (E ltac:(lia)).
    apply andb_prop in E as [E1 E2]. rewrite forallb_forall in E2. specialize (E2 n).
    rewrite <- list_elem_of_In, elem_of_seqZ in E2. specialize (E2 ltac:(lia)).
    apply eqb_prop in E2. bool_hyps. done. }
  split; intros c n H1 H2; destruct (Hc c n) as [E1 E2]; try lia.
  - rewrite E2. destruct (Z.ltb_spec c 16); [done|lia].
  - rewrite E2. destruct (Z.ltb_spec c 16); [lia|done].
Qed.

(** [pend_sgi_to_self] always interrupts core 0, also when another core calls
    it. *)
Lemma self_is_core_0 intid n :
  0 <= intid < 16 -> 0 <= n < 256 ->
  sgi_intid (sgi_self_value intid) = intid /\ sgi_reaches (sgi_self_value intid) n = (n =? 0).
Proof.
  intros Hi Hn.
  assert (E : forallb (fun i => (sgi_intid (sgi_self_value i) =? i) &&
     forallb (fun n => eqb (sgi_reaches (sgi_self_value i) n) (n =? 0)) (seqZ 0 256)) (seqZ 0 16) = true)
    by (vm_compute; done).
  rewrite forallb_forall in E. specialize (E intid). rewrite <- list_elem_of_In, elem_of_seqZ in E.
  specialize (E ltac:(lia)). apply andb_prop in E as [E1 E2]. rewrite forallb_forall in E2. specialize (E2 n).
  rewrite <- list_elem_of_In, elem_of_seqZ in E2. specialize (E2 ltac:(lia)). apply eqb_prop in E2. bool_hyps. done.
Qed.

(** ** A controller *)

(** The controller of core 0: [g_run] the running priorities with their
    interrupts, [g_active] the interrupts not deactivated. *)
Record gicv3 : Type := mkGic {
  g_prio : gmap Z Z; g_pending : list Z; g_run : list (Z * Z); g_active : list Z; g_pmr : Z; g_split : bool }.

Definition g_priority (g : gicv3) (i : Z) : Z := default 0x100 (g_prio g !! i).
Definition running (g : gicv3) : Z := match g_run g with [] => 0xff | (_, p) :: _ => p end.
(** The most urgent pending interrupt. *)
Fixpoint urgent (g : gicv3) (l : list Z) : option Z :=
  match l with
  | [] => None
  | i :: l => match urgent g l with
              | Some j => if g_priority g j <? g_priority g i then Some j else Some i
              | None => Some i
              end
  end.
Definition deliverable (g : gicv3) : option Z :=
  match urgent g (g_pending g) with
  | Some i => if (g_priority g i <? g_pmr g) && (g_priority g i <? running g) then Some i else None
  | None => None
  end.
Definition g_ack (g : gicv3) : exec gicv3 (option Z) :=
  match deliverable g with
  | Some i => Done (Some i) (mkGic (g_prio g) (List.filter (fun j => negb (j =? i)) (g_pending g))
                               ((i, g_priority g i) :: g_run g) (i :: g_active g) (g_pmr g) (g_split g))
  | None => Done None g
  end.
Definition g_dir (i : Z) (g : gicv3) : gicv3 :=
  mkGic (g_prio g) (g_pending g) (g_run g) (List.filter (fun j => negb (j =? i)) (g_active g)) (g_pmr g) (g_split g).
Definition g_eoir (i : Z) (g : gicv3) : gicv3 :=
  let g' := mkGic (g_prio g) (g_pending g) (tail (g_run g)) (g_active g) (g_pmr g) (g_split g) in
  if g_split g then g' else g_dir i g'.
Definition g_set_pmr (x : Z) (g : gicv3) : gicv3 := mkGic (g_prio g) (g_pending g) (g_run g) (g_active g) x (g_split g).
Definition g_sgi (v : Z) (g : gicv3) : gicv3 :=
  if sgi_reaches v 0 then mkGic (g_prio g) (sgi_intid v :: g_pending g) (g_run g) (g_active g) (g_pmr g) (g_split g) else g.

#[local] Instance gicv3_gic : Gic gicv3 := {|
  sgi n := n; ppi n := n + 16; spi n := n + 32;
  get_and_acknowledge_interrupt := g_ack;
  end_interrupt i := modify (g_eoir i);
  write_eoir1 i := modify (g_eoir i);
  write_dir i := modify (g_dir i);
  get_priority_mask := gets g_pmr;
  set_priority_mask x := modify (g_set_pmr x);
  write_sgi1r v := modify (g_sgi v);
  set_eoi_mode_1 := modify (fun g => mkGic (g_prio g) (g_pending g) (g_run g) (g_active g) (g_pmr g) true);
  setup _ := ret tt;
  gic_init_cpu _ := ret tt;
  enable_group1 _ := ret tt;
  set_interrupt_priority i _ p := let! g := get in
    do! put (mkGic (<[i := p]> (g_prio g)) (g_pending g) (g_run g) (g_active g) (g_pmr g) (g_split g)) in ret true;
  set_trigger _ _ _ := ret true;
  enable_interrupt _ _ _ := ret true;
  signals g := bool_decide (is_Some (deliverable g));
|}.

Definition plain : Features := mkFeatures false false false false true.
(** A core whose timer interrupt, private interrupt 14, is pending; task 3
    sleeps until 100. *)
Definition sleepy : state gicv3 unit :=
  mkState (Some (set_clock 101 demo)) (mkGic {[30 := 0]} [30] [] [] 0xff false) tt (mkCore 0x5000 0 false 0 (replicate 256 0))
    true false 14 1 (Some {[30 := [timer_handler]; 33 := [handle_uart_interrupt]]}) ∅ 0 false false false None.
Definition no_driver (n : Z) : M (state gicv3 unit) unit := ret tt.

Lemma sleepy_kinv : kinv (set_clock 101 demo).
Proof. destruct demo_kinv as [[] Hc]. split; [constructor|]; done. Qed.

(** The network stack is busy: its own task holds the interface. *)
Definition late_nic : NicState := mkNic true true [] (Some Background).
Lemma late_poke : poke_ok late_nic (set_clock 101 demo).
Proof. split; [split; [apply NoDup_nil_2|]|]; intros h; [|intros n tn]; by intros ?%not_elem_of_nil. Qed.


(** Setting the handlers up and taking the interrupt. *)
Lemma handlers_installed_witness :
  exists hs, install_handlers plain {[1 := [driver 7]]}
      (mkState (G := gicv3) (D := unit) None (mkGic ∅ [] [] [] 0xff false) tt (mkCore 0 0 false 0 []) true false 14 1 None ∅ 0 false false false None) =
    Done tt (mkState None (mkGic ∅ [] [] [] 0xff false) tt (mkCore 0 0 false 0 []) true false 14 1 (Some hs) ∅ 0 false false false None) /\
    default [] (hs !! 33) = [driver 7; handle_uart_interrupt].
Proof.
  destruct (handlers_installed plain {[1 := [driver 7]]}
      (mkState (G := gicv3) (D := unit) None (mkGic ∅ [] [] [] 0xff false) tt (mkCore 0 0 false 0 []) true false 14 1 None ∅ 0 false false false None) 33)
    as (hs & E & Hs); [|reflexivity|by split|by split|by split|].
  - intros k [x Hx]. apply lookup_singleton_Some in Hx as [<- _]. lia.
  - exists hs. split; [exact E|]. rewrite Hs. reflexivity.
Defined.

(** ** What goes wrong *)

Section Wrong.
Context {G D : Type} `{Gic G}.
Variables (F : Features) (env : Env) (nic : NicState).
Variables (run_driver wake : Z -> M (state G D) unit) (run_uart coop_wake : M (state G D) unit).

(** With the split end of interrupts, a fast interrupt ends what was not
    counted: the first one panics. *)
Lemma fiq_underflow (s s1 : state G D) k ts v g1 g2 g3 :
  pmr_coop_net F = true -> get_and_acknowledge_interrupt (gic s) = Done (Some v) g1 -> 0 <= v < 256 ->
  0 <= rt_nest_depth (core s) < u64_max -> eoi_inflight (core s) = 0 ->
  run_handlers F run_driver run_uart coop_wake wake (queue_of s v)
    (with_core (counted v) (with_core (entered F) (set_gic g1 s))) = Done tt s1 ->
  kern s1 = Some (with_timers ts k) -> kinv k -> Timers.wf ts -> core s1 = counted v (entered F (core s)) ->
  write_eoir1 v (gic s1) = Done tt g2 -> write_dir v g2 = Done tt g3 ->
  do_fiq F env nic run_driver run_uart coop_wake wake s =
    Panic "eoi_inflight underflow: DIR without matching IAR1".
Proof.
  intros HF Hack Hv Hd Hi Hrun Hk Hinv Hwf Hcore E1 E2. unfold do_fiq.
  erewrite bind_run by (apply on_gic_run; exact Hack). cbv iota beta.
  unfold vector_of. destruct (Z.leb_spec 0 v), (Z.ltb_spec v 256); try lia. cbn [andb].
  erewrite bind_run by reflexivity. erewrite bind_run by (apply irq_enter_run; exact Hd).
  unfold serve. erewrite bind_run by reflexivity. erewrite bind_run by reflexivity.
  erewrite (bind_run _ _ _ tt s1).
  2: { revert Hrun. unfold queue_of, with_core. destruct s as [? ? ? ? ? ? ? ? [hs|] ? ? ? ? ? ?]; cbn; [|done].
       by destruct (hs !! v). }
  destruct (wake_pending_uncovered k ts Hinv Hwf) as (k1 & Ew & _).
  erewrite bind_run by (eapply on_kern_run; [exact Hk|exact Ew]).
  unfold bind at 1, finish_interrupt. rewrite HF. unfold eoi_complete.
  erewrite bind_run by (apply on_gic_run; exact E1). erewrite bind_run by (apply on_gic_run; exact E2).
  unfold eoi_inflight_dec, bind, get, assert_. cbn. rewrite Hcore. unfold entered. destruct (pmr_band F); cbn; by rewrite Hi.
Qed.

(** The guard of the priority mask: in debug builds giving the mask back
    panics unless raising it changed nothing. *)
Lemma ceiling_guard new (s : state G D) cur g1 g2 :
  get_priority_mask (gic s) = Done cur (gic s) -> set_priority_mask new (gic s) = Done tt g1 ->
  get_priority_mask g1 = Done new g1 -> set_priority_mask cur g1 = Done tt g2 -> new <= cur ->
  (let! saved := PmrCeiling_raise F new in PmrCeiling_drop F saved) s =
    if debug_assertions F && negb (new =? cur) then Panic "PMR changed under a PmrCeiling guard"
    else Done tt (set_gic g2 s).
Proof.
  intros H1 H2 H3 H4 Hle. unfold PmrCeiling_raise, PmrCeiling_drop, debug_assert. unfold bind at 1.
  erewrite bind_run by (apply on_gic_run; exact H1). destruct (debug_assertions F); cbn [andb].
  - destruct (Z.leb_spec new cur); [|lia]. erewrite bind_run by reflexivity.
    erewrite bind_run by (apply on_gic_run; exact H2). unfold ret.
    erewrite bind_run by (apply on_gic_run; exact H3). destruct (new =? cur); [|done]. cbn [negb].
    erewrite bind_run by reflexivity. erewrite on_gic_run by exact H4. by destruct s.
  - erewrite bind_run by reflexivity. erewrite bind_run by (apply on_gic_run; exact H2). unfold ret.
    erewrite bind_run by (apply on_gic_run; exact H3). erewrite bind_run by reflexivity.
    erewrite on_gic_run by exact H4. by destruct s.
Qed.
End Wrong.

(** ** Nested interrupts *)

(** The test of the priority mask on this controller, with the nesting depth
    of the other feature: the more urgent interrupt preempts the handler of
    the less urgent one, so that only the second one it pends, which the mask
    of zero holds back, is pending when the handler returns; depth, mask and
    running priority are back, and the scheduler did not run. *)
Definition spiked : state gicv3 unit :=
  mkState (Some demo) (mkGic {[14 := 0x40; 15 := 0]} [14] [] [] 0xff false) tt (mkCore 0x5000 0 false 0 (replicate 256 0))
    true false 14 1 None ∅ 0 false false false None.
Lemma spike_preempts :
  exists s', do_irq (mkFeatures true true false false true) demo_env demo_nic no_driver (ret tt) (ret tt) no_driver 1 1 spiked =
      Done None s' /\
    gic s' = mkGic {[14 := 0x40; 15 := 0]} [15] [] [] 0xff false /\ rt_nest_depth (core s') = 0 /\
    kern s' = Some demo /\ masked s' = true /\ PMR_SPIKE_FLAG s' = false.
Proof. eexists. split; [vm_compute; reflexivity|]. vm_compute. done. Qed.

(** After a nested interrupt the outer handler runs on with [in_irq] cleared,
    though the depth says that it is in an interrupt. *)
Lemma in_irq_lost {G D} F (s : state G D) :
  pmr_band F = true -> 0 < rt_nest_depth (core s) < u64_max ->
  exists s', (do! irq_enter F in irq_exit F) s = Done tt s' /\
    rt_nest_depth (core s') = rt_nest_depth (core s) /\ in_irq (core s') = false.
Proof.
  intros HF Hd. erewrite bind_run by (apply irq_enter_run; lia).
  rewrite irq_exit_run by (intros _; unfold with_core, entered; cbn; rewrite HF; cbn; lia).
  eexists. split; [reflexivity|]. unfold with_core, left_, entered. cbn. rewrite HF. cbn. split; [lia|done].
Qed.

(** ** The set-up *)

Definition bare : state gicv3 unit :=
  mkState None (mkGic ∅ [] [] [] 0 false) tt (mkCore 0 0 false 0 (replicate 256 0)) true false 0 0 None ∅ 0 false false false None.
Definition be (n : Z) : list Z := [0; 0; 0; n].
(** The timer as private interrupt 14 (type 1), or as shared interrupt 14. *)
Definition timer_prop (irqtype : Z) : list Z := be 1 ++ be 13 ++ be 4 ++ be irqtype ++ be 14 ++ be 4.
Definition uart_prop : list Z := be 0 ++ be 1 ++ be 4.

(** A private timer and a shared console interrupt are enabled where their
    handlers are installed; a shared timer interrupt is enabled as 46 but its
    handler is installed for 30. *)
Lemma setup_serves_timer :
  (exists s' hs, (do! init plain 0 (Some (timer_prop 1)) (Some uart_prop) in (install_handlers plain ∅)) bare = Done tt s' /\
    INTERRUPT_HANDLERS s' = Some hs /\ g_prio (gic s') = {[1 := 1; 30 := 0; 33 := 0]} /\
    hs !! 30 = Some [timer_handler] /\ hs !! 33 = Some [handle_uart_interrupt]) /\
  (exists s' hs, (do! init plain 0 (Some (timer_prop 0)) (Some uart_prop) in install_handlers plain ∅) bare = Done tt s' /\
    INTERRUPT_HANDLERS s' = Some hs /\ g_prio (gic s') = {[1 := 1; 46 := 0; 33 := 0]} /\
    hs !! 46 = None /\ hs !! 30 = Some [timer_handler]).
Proof. split; eexists _, _; (split; [vm_compute; reflexivity|]); by split_and!. Qed.

(** The software interrupt of the continuations is enabled on the first core
    and on no other. *)
Lemma cont_wake_first_core_only :
  (exists s', init (mkFeatures false false false true true) 0 None None bare = Done tt s' /\ g_prio (gic s') !! SGI_CONT_WAKE = Some 0x60) /\
  (exists s', init_cpu (mkFeatures false false false true true) 1 None bare = Done tt s' /\ g_prio (gic s') !! SGI_CONT_WAKE = None).
Proof. split; eexists; (split; [vm_compute; reflexivity|]); done. Qed.

(** ** Exceptions *)

Lemma set_kern_same {G D} (s : state G D) k : kern s = Some k -> set_kern k s = s.
Proof. destruct s. cbn. by intros ->. Qed.

Lemma check_slot_keeps {G D} spsr sp (s s' : state G D) u : check_slot spsr sp s = Done u s' -> s' = s.
Proof.
  unfold check_slot. destruct (_ =? 0); [|by intros [= <-]]. unfold bind at 1, get at 1.
  unfold bind at 1, assert_ at 1. destruct (sp =? _); [|done]. unfold ret at 1.
  destruct (kern s) as [k|] eqn:Ek; [|unfold bind, on_kern; by rewrite Ek].
  erewrite bind_run by (eapply on_kern_run; [exact Ek|reflexivity]). rewrite set_kern_same by done.
  unfold bind, on_kern. rewrite Ek. unfold borrow, bind, get, unwrap. destruct (heap k !! _); [|done].
  cbn. rewrite set_kern_same by done. destruct (bool_decide _); [|done]. by intros [= <-].
Qed.

Lemma current_id_keeps {G D} (s s' : state G D) n : on_kern get_current_task_id s = Done n s' -> s' = s.
Proof.
  unfold on_kern. destruct (kern s) as [k|] eqn:Ek; [|done].
  unfold get_current_task_id, borrow, bind, get, unwrap. destruct (heap k !! _); [|done].
  intros [= _ <-]. by apply set_kern_same.
Qed.

(** A synchronous exception comes back only from a trapped floating point
    instruction, for which the current task becomes the owner of the unit, and
    from a data abort without a valid address, which the same instruction then
    raises again. *)
Lemma do_sync_returns {G D} `{Gic G} F env ec_known spsel spsr ec iss sp (s s' : state G D) k :
  kern s = Some k -> kinv k -> do_sync F env ec_known spsel spsr ec iss sp s = Done Return s' ->
  (ec = EC_TRAPPED_FP /\ fp_trapped s' = false /\
   exists k', kern s' = Some k' /\ kinv k' /\ fpu_owner k' = current_task k /\ current_task k' = current_task k) \/
  ((ec = EC_DATA_ABORT_CURRENT \/ ec = EC_DATA_ABORT_LOWER) /\ Z.testbit iss 10 = true /\ kern s' = Some k).
Proof.
  intros Ek Hk E. unfold do_sync in E. apply bind_Done in E as ([] & s1 & E1 & E). apply check_slot_keeps in E1 as ->.
  apply bind_Done in E as ([] & s1 & E1 & E).
  assert (Hs1 : kern s1 = Some k).
  { destruct (_ =? 0); [unfold clear_scratch_slot, on_core, modify in E1|unfold ret in E1]; by simplify_eq. }
  destruct (dump_frame_run spsel s1) as [n En]; [intros ? Hk1; by rewrite Hs1 in Hk1; simplify_eq|].
  erewrite bind_run in E by exact En. apply bind_Done in E as ([] & s2 & E2 & E). exec_inv.
  destruct ((ec =? EC_DATA_ABORT_CURRENT) || (ec =? EC_DATA_ABORT_LOWER)) eqn:Ea.
  - right. destruct (Z.land iss (Z.shiftl 1 10) =? 0) eqn:Eb; exec_inv. split.
    + apply orb_prop in Ea as [Ea|Ea]; bool_hyps; auto.
    + split; [|done]. bool_hyps. destruct (Z.testbit iss 10) eqn:Et; [done|]. destruct Eb.
      apply Z.bits_inj'. intros j Hj. rewrite Z.land_spec, Z.shiftl_1_l, Z.pow2_bits_eqb, Z.bits_0 by done.
      destruct (Z.eqb_spec 10 j) as [<-|]; [by rewrite Et|apply andb_false_r].
  - destruct (ec =? EC_BRK64); exec_inv. destruct ((ec =? EC_INSTR_ABORT_LOWER) || (ec =? EC_INSTR_ABORT_CURRENT)).
    { exec_inv. unfold abort in *. exec_inv. match goal with Ha : match kern ?x with _ => _ end _ = _ |- _ => destruct (kern x) end; exec_inv. }
    destruct (Z.eqb_spec ec EC_TRAPPED_FP) as [->|]; exec_inv. left. split; [done|].
    destruct (proj2 Hk) as (tc & Htc & _). destruct (k_fpu _ _ _ (proj1 Hk)) as (tf & Htf & _).
    destruct (fpu_switch_kinv k tc tf Hk Htc Htf) as (k' & Ef & Hk' & Hc & Ho & _).
    match goal with Hf : on_kern fpu_switch _ = _ |- _ => erewrite on_kern_run in Hf; [|cbn; exact Hs1|exact Ef] end.
    simplify_eq. split; [done|]. exists k'. done.
Qed.
End IrqProps.
