(* ===== verification/NetChecksum.v ===== *)
(** The partial checksums of the virtio network driver (the module
    [partial_checksum] of [src/src/drivers/net/virtio/mod.rs]) and what they
    are for: the driver writes the sum of the pseudo-header into the checksum
    field, the device sums up the rest, and the receiver accepts the packet. *)

From S2P Require Import Prelude.

Module NetChecksum.

(** [u16::overflowing_add], then the carry. *)
Definition ones_complement_add (lhs rhs : Z) : Z :=
  let sum := wrapu 16 (lhs + rhs) in
  wrapu 16 (sum + if 65536 <=? lhs + rhs then 1 else 0).

(** [addr_sum] of [n] times two bytes. *)
Definition be16 (addr : list Z) (i : nat) : Z := Z.lor (Z.shiftl (nth (2 * i) addr 0) 8) (nth (2 * i + 1) addr 0).
Definition addr_sum (n : nat) (addr : list Z) : Z :=
  fold_left (fun sum i => ones_complement_add sum (be16 addr i)) (seq 0 (n / 2)) 0.

(** The fields of a packet that count. *)
Definition ipv4_pseudo_header_partial_checksum (next_header total_len header_len : Z) (src dst : list Z) : Z :=
  let sum := addr_sum 4 src in
  let sum := ones_complement_add sum (addr_sum 4 dst) in
  let sum := ones_complement_add sum next_header in
  ones_complement_add sum (wrapu 16 (total_len - header_len)).
Definition ipv6_pseudo_header_partial_checksum (next_header payload_len : Z) (src dst : list Z) : Z :=
  let sum := addr_sum 16 src in
  let sum := ones_complement_add sum (addr_sum 16 dst) in
  let sum := ones_complement_add sum payload_len in
  ones_complement_add sum next_header.

(** ** The sum of RFC 1071 *)

(** The sum of 16-bit words with the carries added back, as a function of the
    plain sum. *)
Definition fold16 (s : Z) : Z := if s =? 0 then 0 else 1 + (s - 1) mod 65535.
Definition oc_sum (l : list Z) : Z := fold16 (foldr Z.add 0 l).
Definition words (l : list Z) : Prop := Forall (in_u 16) l.

Lemma fold16_range s : 0 <= s -> 0 <= fold16 s <= 65535.
Proof. intros. unfold fold16. destruct (Z.eqb_spec s 0); [lia|]. Z.to_euclidean_division_equations. lia. Qed.

Lemma fold16_id x : 0 <= x <= 65535 -> fold16 x = x.
Proof. intros. unfold fold16. destruct (Z.eqb_spec x 0); [lia|]. Z.to_euclidean_division_equations. lia. Qed.

Lemma fold16_fold a b : 0 <= a -> 0 <= b -> fold16 (fold16 a + b) = fold16 (a + b).
Proof.
  intros Ha Hb. unfold fold16. destruct (Z.eqb_spec a 0) as [->|Hne]; [done|].
  destruct (Z.eqb_spec (1 + (a - 1) mod 65535 + b) 0), (Z.eqb_spec (a + b) 0); Z.to_euclidean_division_equations; lia.
Qed.

Lemma fold16_eq_0 s : 0 <= s -> fold16 s = 0 <-> s = 0.
Proof. intros. unfold fold16. destruct (Z.eqb_spec s 0); [lia|]. Z.to_euclidean_division_equations. lia. Qed.

(** The addition with a carry is the sum of two words. *)
Lemma ones_add_fold a b : in_u 16 a -> in_u 16 b -> ones_complement_add a b = fold16 (a + b).
Proof.
  unfold in_u, ones_complement_add, wrapu, fold16. change (2 ^ 16) with 65536. intros Ha Hb.
  destruct (Z.leb_spec 65536 (a + b)), (Z.eqb_spec (a + b) 0); Z.to_euclidean_division_equations; lia.
Qed.

Lemma ones_add_range a b : in_u 16 a -> in_u 16 b -> in_u 16 (ones_complement_add a b).
Proof.
  intros Ha Hb. rewrite ones_add_fold by done. pose proof (fold16_range (a + b)). unfold in_u in *. change (2 ^ 16) with 65536. lia.
Qed.

Lemma sum_nonneg l : words l -> 0 <= foldr Z.add 0 l.
Proof. induction 1 as [|x l [Hx _] _ IH]; simpl; lia. Qed.

Lemma sum_app l l' : foldr Z.add 0 (l ++ l') = foldr Z.add 0 l + foldr Z.add 0 l'.
Proof. induction l as [|x l IH]; simpl; [lia|]. rewrite IH. lia. Qed.

Lemma oc_sum_range l : words l -> in_u 16 (oc_sum l).
Proof. intros Hl. pose proof (fold16_range _ (sum_nonneg l Hl)). unfold in_u, oc_sum in *. change (2 ^ 16) with 65536. lia. Qed.

Lemma oc_sum_app l l' : words l -> words l' -> oc_sum (l ++ l') = fold16 (oc_sum l + oc_sum l').
Proof.
  intros Hl Hl'. pose proof (sum_nonneg l Hl). pose proof (sum_nonneg l' Hl'). unfold oc_sum.
  rewrite fold16_fold by (try apply fold16_range; lia). rewrite Z.add_comm, fold16_fold by lia. f_equal.
  rewrite sum_app. lia.
Qed.

Lemma oc_sum_perm l l' : l ≡ₚ l' -> oc_sum l = oc_sum l'.
Proof. intros H. unfold oc_sum. f_equal. induction H; simpl; lia. Qed.

(** Adding sums of words adds the words. *)
Lemma ones_add_sums l l' : words l -> words l' -> ones_complement_add (oc_sum l) (oc_sum l') = oc_sum (l ++ l').
Proof. intros Hl Hl'. rewrite ones_add_fold by (by apply oc_sum_range). by rewrite oc_sum_app. Qed.

Lemma words_one x : in_u 16 x -> words [x].
Proof. intros. by apply Forall_cons; [|apply Forall_nil]. Qed.
Lemma words_two x y : in_u 16 x -> in_u 16 y -> words [x; y].
Proof. intros. constructor; [done|]. by apply words_one. Qed.

Lemma oc_sum_one x : in_u 16 x -> oc_sum [x] = x.
Proof. unfold in_u, oc_sum. change (2 ^ 16) with 65536. intros. simpl. rewrite Z.add_0_r. apply fold16_id. lia. Qed.

(** The words of an address. *)
Definition addr_words (n : nat) (addr : list Z) : list Z := be16 addr <$> seq 0 (n / 2).

Lemma be16_range addr i : Forall (in_u 8) addr -> in_u 16 (be16 addr i).
Proof.
  intros Ha. assert (Hb : forall k, in_u 8 (nth k addr 0)).
  { intros k. rewrite nth_lookup. destruct (addr !! k) eqn:E; [|by split].
    rewrite list.Forall_forall in Ha. apply Ha. by eapply list_elem_of_lookup_2. }
  unfold be16. pose proof (Hb (2 * i)%nat) as H1. pose proof (Hb (2 * i + 1)%nat) as H2.
  revert H1 H2. generalize (nth (2 * i) addr 0), (nth (2 * i + 1) addr 0). unfold in_u. intros a b H1 H2.
  change (2 ^ 8) with 256 in *. change (2 ^ 16) with 65536.
  assert (Hab : Z.lor (Z.shiftl a 8) b = a * 256 + b); [|rewrite Hab; lia].
  rewrite <- Z.add_lor_land, Z.shiftl_mul_pow2 by lia. change (2 ^ 8) with 256.
  assert (Hz : Z.land (a * 256) b = 0); [|rewrite Hz; lia].
  apply Z.bits_inj'. intros k Hk. rewrite Z.land_spec, Z.bits_0. change 256 with (2 ^ 8).
  destruct (Z.ltb_spec k 8).
  - rewrite Z.mul_pow2_bits_low by lia. done.
  - rewrite (Z.bits_above_log2 b k), andb_false_r; [done|lia|].
    destruct (decide (b = 0)) as [->|]; [simpl; lia|]. apply Z.log2_lt_pow2; [lia|].
    apply Z.lt_le_trans with (2 ^ 8); [change (2 ^ 8) with 256; lia|]. apply Z.pow_le_mono_r; lia.
Qed.

Lemma addr_words_ok n addr : Forall (in_u 8) addr -> words (addr_words n addr).
Proof. intros Ha. apply Forall_fmap, list.Forall_true. intros i. by apply be16_range. Qed.

Lemma addr_sum_words n addr : Forall (in_u 8) addr -> addr_sum n addr = oc_sum (addr_words n addr).
Proof.
  intros Ha. unfold addr_sum, addr_words. generalize (seq 0 (n / 2)). intros l.
  assert (H : forall l acc, words acc ->
    fold_left (fun sum i => ones_complement_add sum (be16 addr i)) l (oc_sum acc) = oc_sum (acc ++ (be16 addr <$> l))).
  { clear l. induction l as [|i l IH]; intros acc Hacc; simpl; [by rewrite app_nil_r|].
    pose proof (be16_range addr i Ha) as Hi.
    assert (E : ones_complement_add (oc_sum acc) (be16 addr i) = oc_sum (acc ++ [be16 addr i])).
    { rewrite <- ones_add_sums by (try done; by apply words_one). by rewrite oc_sum_one. }
    rewrite E, IH by (apply Forall_app_2; [done|by apply words_one]). by rewrite <- app_assoc. }
  apply (H l []). constructor.
Qed.

Definition ipv4_pseudo_words (next_header len : Z) (src dst : list Z) : list Z :=
  addr_words 4 src ++ addr_words 4 dst ++ [next_header; len].
Definition ipv6_pseudo_words (next_header len : Z) (src dst : list Z) : list Z :=
  addr_words 16 src ++ addr_words 16 dst ++ [len; next_header].

Lemma pseudo_words_ok n (a b : Z) src dst :
  Forall (in_u 8) src -> Forall (in_u 8) dst -> in_u 16 a -> in_u 16 b ->
  words (addr_words n src ++ addr_words n dst ++ [a; b]).
Proof.
  intros. repeat apply Forall_app_2; try (by apply addr_words_ok). by apply words_two.
Qed.

Lemma pseudo_sum n a b src dst :
  Forall (in_u 8) src -> Forall (in_u 8) dst -> in_u 16 a -> in_u 16 b ->
  ones_complement_add (ones_complement_add (ones_complement_add (addr_sum n src) (addr_sum n dst)) a) b =
    oc_sum (addr_words n src ++ addr_words n dst ++ [a; b]).
Proof.
  intros Hs Hd Ha Hb. rewrite !addr_sum_words by done.
  pose proof (addr_words_ok n src Hs). pose proof (addr_words_ok n dst Hd).
  assert (words (addr_words n src ++ addr_words n dst)) by (by apply Forall_app_2).
  pose proof (words_one a Ha). pose proof (words_one b Hb).
  assert (words ((addr_words n src ++ addr_words n dst) ++ [a])) by (by apply Forall_app_2).
  rewrite ones_add_sums by done.
  replace (ones_complement_add (oc_sum (addr_words n src ++ addr_words n dst)) a)
    with (oc_sum ((addr_words n src ++ addr_words n dst) ++ [a])) by (rewrite <- ones_add_sums by done; by rewrite oc_sum_one).
  rewrite <- (oc_sum_one b) at 1 by done. rewrite ones_add_sums by done. by rewrite <- !app_assoc.
Qed.

(** ** Offloading *)

(** What the device does with [NEEDS_CSUM]: the words from [csum_start] on are
    summed up, and the complement is put at [csum_offset] (here: word [k]). *)
Definition device_csum (k : nat) (segment : list Z) : list Z := <[k := 65535 - oc_sum segment]> segment.
(** What a receiver checks: the pseudo-header and the segment sum up to all
    ones. *)
Definition verifies (pseudo segment : list Z) : Prop := oc_sum (pseudo ++ segment) = 65535.

Lemma oc_sum_insert k (l : list Z) x :
  words l -> in_u 16 x -> (k < length l)%nat -> oc_sum (<[k := x]> l) = fold16 (x + oc_sum (take k l ++ drop (S k) l)).
Proof.
  intros Hl Hx Hk. rewrite insert_take_drop by done.
  rewrite (oc_sum_perm _ ([x] ++ take k l ++ drop (S k) l)) by (rewrite <- Permutation_middle; done).
  rewrite oc_sum_app; [by rewrite oc_sum_one|by apply words_one|].
  apply Forall_app_2; [by apply Forall_take|by apply Forall_drop].
Qed.

(** With the partial sum in the field, the complement of the sum of the segment
    is the checksum of pseudo-header and segment. *)
Lemma offload_verifies pseudo segment k :
  words pseudo -> words segment -> (k < length segment)%nat -> 0 < foldr Z.add 0 pseudo ->
  verifies pseudo (device_csum k (<[k := oc_sum pseudo]> segment)).
Proof.
  intros Hp Hs Hk Hpos. unfold verifies, device_csum. rewrite list_insert_insert_eq.
  pose proof (oc_sum_range pseudo Hp) as Hpr. rewrite oc_sum_insert by done.
  set (rest := take k segment ++ drop (S k) segment).
  assert (Hr : words rest) by (apply Forall_app_2; [by apply Forall_take|by apply Forall_drop]).
  pose proof (oc_sum_range rest Hr) as Hrr. set (c := fold16 (oc_sum pseudo + oc_sum rest)).
  assert (Hnz : 0 < oc_sum pseudo).
  { unfold oc_sum. pose proof (fold16_eq_0 (foldr Z.add 0 pseudo) ltac:(lia)).
    pose proof (fold16_range (foldr Z.add 0 pseudo) ltac:(lia)). lia. }
  unfold in_u in *. change (2 ^ 16) with 65536 in *.
  assert (Hc : 0 < c <= 65535).
  { pose proof (fold16_range (oc_sum pseudo + oc_sum rest) ltac:(lia)).
    pose proof (fold16_eq_0 (oc_sum pseudo + oc_sum rest) ltac:(lia)). fold c in H, H0. lia. }
  assert (Hx : in_u 16 (65535 - c)) by (unfold in_u; change (2 ^ 16) with 65536; lia).
  rewrite oc_sum_app; [|done|apply Forall_insert; done]. rewrite oc_sum_insert by done. fold rest.
  rewrite Z.add_comm, fold16_fold by (unfold in_u in Hx; lia).
  replace (65535 - c + oc_sum rest + oc_sum pseudo) with ((oc_sum pseudo + oc_sum rest) + (65535 - c)) by lia.
  rewrite <- fold16_fold by lia. fold c. replace (c + (65535 - c)) with 65535 by lia. done.
Qed.

(** C36: A segment whose checksum field the driver sets to the partial sum of the
    pseudo-header, and which the device then completes, is accepted by a
    receiver, for both versions of the protocol and any payload; the partial
    sum is the sum of the pseudo-header in the sense of RFC 1071. *)
Theorem checksum_offload next_header total_len header_len src dst segment k :
  Forall (in_u 8) src -> Forall (in_u 8) dst -> 0 < next_header < 256 ->
  0 <= header_len <= total_len -> total_len < 65536 -> words segment -> (k < length segment)%nat ->
  let len := total_len - header_len in
  (let sum := ipv4_pseudo_header_partial_checksum next_header total_len header_len src dst in
   sum = oc_sum (ipv4_pseudo_words next_header len src dst) /\
   verifies (ipv4_pseudo_words next_header len src dst) (device_csum k (<[k := sum]> segment))) /\
  (let sum := ipv6_pseudo_header_partial_checksum next_header len src dst in
   sum = oc_sum (ipv6_pseudo_words next_header len src dst) /\
   verifies (ipv6_pseudo_words next_header len src dst) (device_csum k (<[k := sum]> segment))).
Proof.
  intros Hsrc Hdst Hnh Hlen Htot Hseg Hk len.
  assert (Hn : in_u 16 next_header) by (unfold in_u; change (2 ^ 16) with 65536; lia).
  assert (Hl : in_u 16 len) by (unfold in_u; change (2 ^ 16) with 65536; lia).
  assert (Hpos : forall l l', words l -> words l' -> 0 < foldr Z.add 0 (l ++ l' ++ [next_header; len]) /\
                                                   0 < foldr Z.add 0 (l ++ l' ++ [len; next_header])).
  { intros l l' H1 H2. pose proof (sum_nonneg l H1). pose proof (sum_nonneg l' H2). unfold in_u in Hl.
    rewrite !sum_app. simpl. lia. }
  destruct (Hpos (addr_words 4 src) (addr_words 4 dst)) as [H4 _]; [by apply addr_words_ok..|].
  destruct (Hpos (addr_words 16 src) (addr_words 16 dst)) as [_ H6]; [by apply addr_words_ok..|].
  split; cbv zeta.
  - assert (E : ipv4_pseudo_header_partial_checksum next_header total_len header_len src dst =
                oc_sum (ipv4_pseudo_words next_header len src dst)).
    { unfold ipv4_pseudo_header_partial_checksum, ipv4_pseudo_words.
      rewrite (wrapu_small 16 (total_len - header_len)) by (change (2 ^ 16) with 65536; lia). by apply pseudo_sum. }
    split; [done|]. rewrite E. apply offload_verifies; try done. by apply pseudo_words_ok.
  - assert (E : ipv6_pseudo_header_partial_checksum next_header len src dst =
                oc_sum (ipv6_pseudo_words next_header len src dst))
      by (by apply pseudo_sum).
    split; [done|]. rewrite E. apply offload_verifies; try done. by apply pseudo_words_ok.
Qed.

(** A segment of 24 bytes from 10.0.2.15 to 10.0.2.2. *)
Definition demo_segment : list Z := [40000; 80; 1; 2; 3; 4; 0x5018; 64240; 0; 0; 0x4845; 0x4c4c].
Lemma checksum_offload_witness :
  verifies (ipv4_pseudo_words 6 24 [10; 0; 2; 15] [10; 0; 2; 2])
    (device_csum 8 (<[8%nat := ipv4_pseudo_header_partial_checksum 6 44 20 [10; 0; 2; 15] [10; 0; 2; 2]]> demo_segment)).
Proof.
  assert (Hb : forall l, forallb (fun x => (0 <=? x) && (x <? 256)) l = true -> Forall (in_u 8) l).
  { intros l. rewrite forallb_forall, list.Forall_forall. intros Hl x Hx%list_elem_of_In.
    specialize (Hl x Hx). bool_hyps. by split. }
  assert (Hw : words demo_segment).
  { unfold words. rewrite list.Forall_forall. intros x Hx%list_elem_of_In.
    assert (Hl : forallb (fun x => (0 <=? x) && (x <? 65536)) demo_segment = true) by reflexivity.
    rewrite forallb_forall in Hl. specialize (Hl x Hx). bool_hyps. by split. }
  destruct (checksum_offload 6 44 20 [10; 0; 2; 15] [10; 0; 2; 2] demo_segment 8) as [[_ H] _];
    [by apply Hb|by apply Hb|lia|lia|lia|exact Hw|simpl; lia|exact H].
Defined.
End NetChecksum.
