(* ===== verification/VirtioNet.v ===== *)
(** The virtio network driver, [src/src/drivers/net/virtio/mod.rs], over any
    virtqueue: receive buffers of a header and a vector, frames merged from
    several of them, the checks that replace those of the network stack when
    checksums are offloaded, sending with a budget of descriptors, and the
    set-up.  The packets of the crate [smoltcp] and the transport of the device
    are type classes; the address of the k-th allocation is [alloc_at k]. *)

From S2P Require Import Prelude Errors Virtq VqSpec NetChecksum.

Module VirtioNet.
Import Virtq VqSpec NetChecksum.

Definition MAX_NUM_VQ : Z := 2.
Definition BUFF_PER_PACKET : Z := 2.
Definition ETHERNET_HEADER_LEN : Z := 14.
(** [size_of::<Hdr>()] *)
Definition HDR_SIZE : Z := 12.
Definition VIRTIO_MAX_QUEUE_SIZE : Z := 2048.

(** The features of the device the driver knows. *)
Record NetF : Set := mkNetF {
  VERSION_1 : bool; MAC : bool; INDIRECT_DESC : bool; RING_PACKED : bool; NOTIFICATION_DATA : bool; MTU : bool; MRG_RXBUF : bool;
  STATUS : bool; CTRL_VQ : bool; MQ : bool; CSUM : bool; GUEST_CSUM : bool; GUEST_TSO4 : bool; GUEST_TSO6 : bool; GUEST_UFO : bool }.

Record NetDevCfg : Set := mkCfg {
  cfg_mac : list Z; cfg_status : Z; cfg_max_virtqueue_pairs : Z; cfg_mtu : Z; dev_id : Z; features : NetF }.

Inductive VirtioNetError : Set := NoDevCfg (dev_id : Z) | FailFeatureNeg (dev_id : Z).

(** The flags and fields of the header of a frame. *)
Record Hdr : Set := mkHdr { NEEDS_CSUM : bool; DATA_VALID : bool; csum_start : Z; csum_offset : Z; num_buffers : Z }.
Definition Hdr_default : Hdr := mkHdr false false 0 0 0.

(** ** What the driver uses of the network stack *)

Inductive Checksum : Set := CBoth | CRx | CTx | CNone.
Definition rx (c : Checksum) : bool := match c with CBoth | CRx => true | _ => false end.
Definition tx (c : Checksum) : bool := match c with CBoth | CTx => true | _ => false end.
Record ChecksumCapabilities : Set := mkCaps { tcp : Checksum; udp : Checksum }.

Inductive EthernetProtocol : Set := Ipv4 | Ipv6 | Arp | UnknownEther (n : Z).
Inductive IpProtocol : Set := Tcp | Udp | Ipv6Frag | OtherIp (n : Z).
Definition is_tcp (p : IpProtocol) : bool := match p with Tcp => true | _ => false end.
Definition is_udp (p : IpProtocol) : bool := match p with Udp => true | _ => false end.

(** The packets of [smoltcp::wire]: [checked] is [new_checked], the accessors
    are those of the packets; [set_checksum] writes the field of a segment. *)
Class Wire : Type := {
  eth_checked : list Z -> bool; ethertype : list Z -> EthernetProtocol; eth_payload : list Z -> list Z;
  set_eth_payload : list Z -> list Z -> list Z;
  ip4_checked : list Z -> bool; ip4_verify_checksum : list Z -> bool; more_frags : list Z -> bool; frag_offset : list Z -> Z;
  ip4_next_header : list Z -> IpProtocol; ip4_protocol : list Z -> Z; ip4_header_len : list Z -> Z; ip4_total_len : list Z -> Z;
  ip4_payload : list Z -> list Z; ip4_src : list Z -> list Z; ip4_dst : list Z -> list Z;
  ip6_checked : list Z -> bool; ip6_next_header : list Z -> IpProtocol; ip6_protocol : list Z -> Z; ip6_header_len : list Z -> Z;
  ip6_total_len : list Z -> Z; ip6_payload_len : list Z -> Z; ip6_payload : list Z -> list Z; ip6_src : list Z -> list Z; ip6_dst : list Z -> list Z;
  tcp_checked : list Z -> bool; tcp_verify : list Z -> list Z -> list Z -> bool; tcp_set_checksum : Z -> list Z -> list Z;
  udp_checked : list Z -> bool; udp_verify : list Z -> list Z -> list Z -> bool; udp_set_checksum : Z -> list Z -> list Z;
  read_hdr : list Z -> Hdr;
}.

(** ** Sizes *)

Section Sizes.
(** [mtu()] and the variable [HERMIT_MRG_RXBUF_SIZE], read as a number. *)
Variables (default_mtu : Z) (mrg_rxbuf_size : option Z).

Definition determine_mtu (c : NetDevCfg) : Z := if MTU (features c) then cfg_mtu c else default_mtu.

Definition determine_rx_buf_size {St} (c : NetDevCfg) : M St Z :=
  let min_buf_size := determine_mtu c in
  let f := features c in
  match (if MRG_RXBUF f then mrg_rxbuf_size else None) with
  | Some n => do! assert_ (0 <? n) "VIRTIO does not allow buffer elements of size 0." in ret n
  | None =>
      if GUEST_TSO4 f || GUEST_TSO6 f || GUEST_UFO f then ret (Z.max min_buf_size (65601 - HDR_SIZE))
      else ret (Z.max min_buf_size (1526 - HDR_SIZE))
  end.
End Sizes.

Section Driver.
Context {S : Type} `{VirtQueue S} `{Wire}.
Variable alloc_at : Z -> Z.

Record RxQueues : Type := mkRxQ { rx_vqs : list S; rx_buf_size : Z }.
Record TxQueues : Type := mkTxQ { tx_vqs : list S; tx_buf_size : Z }.

(** [mem]: what the device wrote; [hdrs] and [packets]: the allocations handed
    to the device, by address; [wakes]: calls of [wake_network_waker]. *)
Record driver : Type := mkDriver {
  dev_cfg : NetDevCfg; mtu : Z; ctrl_vq : option S; recv_vqs : RxQueues; send_vqs : TxQueues; send_capacity : Z;
  num_vqs : Z; checksums : ChecksumCapabilities; mem : Z -> Z; hdrs : gmap Z Hdr; packets : gmap Z (list Z);
  allocated : Z; wakes : Z }.
Definition set_rx_vqs (l : list S) (d : driver) : driver :=
  mkDriver (dev_cfg d) (mtu d) (ctrl_vq d) (mkRxQ l (rx_buf_size (recv_vqs d))) (send_vqs d) (send_capacity d) (num_vqs d)
    (checksums d) (mem d) (hdrs d) (packets d) (allocated d) (wakes d).
Definition set_tx_vqs (l : list S) (d : driver) : driver :=
  mkDriver (dev_cfg d) (mtu d) (ctrl_vq d) (recv_vqs d) (mkTxQ l (tx_buf_size (send_vqs d))) (send_capacity d) (num_vqs d)
    (checksums d) (mem d) (hdrs d) (packets d) (allocated d) (wakes d).
Definition set_capacity (x : Z) (d : driver) : driver :=
  mkDriver (dev_cfg d) (mtu d) (ctrl_vq d) (recv_vqs d) (send_vqs d) x (num_vqs d)
    (checksums d) (mem d) (hdrs d) (packets d) (allocated d) (wakes d).
Definition set_buffers (h : gmap Z Hdr) (p : gmap Z (list Z)) (n : Z) (d : driver) : driver :=
  mkDriver (dev_cfg d) (mtu d) (ctrl_vq d) (recv_vqs d) (send_vqs d) (send_capacity d) (num_vqs d)
    (checksums d) (mem d) h p n (wakes d).
Definition set_cfg (c : NetDevCfg) (d : driver) : driver :=
  mkDriver c (mtu d) (ctrl_vq d) (recv_vqs d) (send_vqs d) (send_capacity d) (num_vqs d)
    (checksums d) (mem d) (hdrs d) (packets d) (allocated d) (wakes d).
Definition set_ctrl (q : option S) (n : Z) (d : driver) : driver :=
  mkDriver (dev_cfg d) (mtu d) q (recv_vqs d) (send_vqs d) (send_capacity d) n
    (checksums d) (mem d) (hdrs d) (packets d) (allocated d) (wakes d).
Definition set_checksums (c : ChecksumCapabilities) (d : driver) : driver :=
  mkDriver (dev_cfg d) (mtu d) (ctrl_vq d) (recv_vqs d) (send_vqs d) (send_capacity d) (num_vqs d)
    c (mem d) (hdrs d) (packets d) (allocated d) (wakes d).

Definition alloc : M driver Z :=
  fun d => Done (alloc_at (allocated d)) (set_buffers (hdrs d) (packets d) (allocated d + 1) d).
(** [self.vqs[0]] *)
Definition on_rx {A} (m : M S A) : M driver A :=
  let! d := get in
  let! s := unwrap (rx_vqs (recv_vqs d) !! 0%nat) "index out of bounds" in
  zoom (fun _ => s) (fun s d => set_rx_vqs (<[0%nat := s]> (rx_vqs (recv_vqs d))) d) m.
Definition on_tx {A} (i : nat) (m : M S A) : M driver A :=
  let! d := get in
  let! s := unwrap (tx_vqs (send_vqs d) !! i) "index out of bounds" in
  zoom (fun _ => s) (fun s d => set_tx_vqs (<[i := s]> (tx_vqs (send_vqs d))) d) m.
(** [for vq in &mut self.vqs] *)
Fixpoint for_vqs (m : M S unit) (l : list S) : exec unit (list S) :=
  match l with
  | [] => Done [] tt
  | s :: l => match m s with
              | Panic why => Panic why
              | Done _ s => match for_vqs m l with Panic why => Panic why | Done l _ => Done (s :: l) tt end
              end
  end.
Definition on_rx_all (m : M S unit) : M driver unit :=
  fun d => match for_vqs m (rx_vqs (recv_vqs d)) with Panic why => Panic why | Done l _ => Done tt (set_rx_vqs l d) end.

Definition panic_unwrap {A} : M driver A := panic "called `Result::unwrap()` on an `Err` value".

(** ** The receive queues *)

Definition buffer_token_from_hdr (hdr buf_size : Z) : M driver AvailBufferToken :=
  let! vec := alloc in
  match AvailBufferToken_new [] [Sized hdr HDR_SIZE; Vector vec 0 buf_size] with Ok t => ret t | Err _ => panic_unwrap end.

(** The queue is not yet among those of the driver. *)
Fixpoint fill_queue (vq : S) (num_bufs : nat) (buf_size : Z) : M driver S :=
  match num_bufs with
  | O => ret vq
  | Datatypes.S num_bufs =>
      let! hdr := alloc in
      let! buff_tkn := buffer_token_from_hdr hdr buf_size in
      match dispatch buff_tkn false Direct 0 vq with
      | Panic why => panic why
      | Done (Err _) vq => ret vq
      | Done (Ok _) vq => fill_queue vq num_bufs buf_size
      end
  end.

Definition rx_add (vq : S) (size : Z) : M driver unit :=
  let num_bufs := size / BUFF_PER_PACKET in
  let! d := get in
  let! vq := fill_queue vq (Z.to_nat num_bufs) (rx_buf_size (recv_vqs d)) in
  modify (fun d => set_rx_vqs (rx_vqs (recv_vqs d) ++ [vq]) d).

Definition get_next : M driver (option UsedBufferToken) :=
  let! r := on_rx try_recv in ret (match r with Ok t => Some t | Err _ => None end).
Definition rx_enable_notifs : M driver unit := on_rx_all enable_notifs.
Definition rx_disable_notifs : M driver unit := on_rx_all disable_notifs.

(** [any] stops at the first queue with a used buffer. *)
Fixpoint any_used (l : list S) : exec unit bool :=
  match l with
  | [] => Done false tt
  | s :: l => match has_used_buffers s with Panic why => Panic why | Done true _ => Done true tt | Done false _ => any_used l end
  end.
Definition has_packet : M driver bool :=
  fun d => match any_used (rx_vqs (recv_vqs d)) with Panic why => Panic why | Done b _ => Done b d end.

(** ** The send queues *)

(** One queue; at most [fuel] buffers are taken. *)
Fixpoint poll_vq (fuel : nat) (released_buffers : Z) : M S Z :=
  match fuel with
  | O => ret released_buffers
  | Datatypes.S fuel =>
      let! r := try_recv in
      match r with Ok _ => poll_vq fuel (wrapu 32 (released_buffers + 1)) | Err _ => ret released_buffers end
  end.
Fixpoint poll_all (fuel : nat) (released_buffers : Z) (l : list S) : exec unit (Z * list S) :=
  match l with
  | [] => Done (released_buffers, []) tt
  | s :: l =>
      match poll_vq fuel released_buffers s with
      | Panic why => Panic why
      | Done n s => match poll_all fuel n l with Panic why => Panic why | Done (n, l) _ => Done (n, s :: l) tt end
      end
  end.
Definition tx_poll (fuel : nat) : M driver Z :=
  fun d => match poll_all fuel 0 (tx_vqs (send_vqs d)) with Panic why => Panic why | Done (n, l) _ => Done n (set_tx_vqs l d) end.
Definition tx_add (vq : S) : M driver unit := modify (fun d => set_tx_vqs (tx_vqs (send_vqs d) ++ [vq]) d).
Definition on_tx_all (m : M S unit) : M driver unit :=
  fun d => match for_vqs m (tx_vqs (send_vqs d)) with Panic why => Panic why | Done l _ => Done tt (set_tx_vqs l d) end.
Definition tx_enable_notifs : M driver unit := on_tx_all enable_notifs.
Definition tx_disable_notifs : M driver unit := on_tx_all disable_notifs.

Definition free_up_send_capacity (fuel : nat) : M driver unit :=
  let! n := tx_poll fuel in
  modify (fun d => set_capacity (wrapu 32 (send_capacity d + wrapu 32 (n * BUFF_PER_PACKET))) d).

(** ** Sending *)

(** The frame is changed; the range of the payload has to be inside of it. *)
Definition should_request_checksum (checksums : ChecksumCapabilities) (frame : list Z) : M driver (option (Z * Z) * list Z) :=
  if tx (tcp checksums) && tx (udp checksums) then ret (None, frame)
  else
    let pkt := eth_payload frame in
    let found :=
      match ethertype frame with
      | Ipv4 => Some (ip4_header_len pkt, ip4_total_len pkt, ip4_next_header pkt,
                      ipv4_pseudo_header_partial_checksum (ip4_protocol pkt) (ip4_total_len pkt) (ip4_header_len pkt) (ip4_src pkt) (ip4_dst pkt))
      | Ipv6 => Some (ip6_header_len pkt, ip6_total_len pkt, ip6_next_header pkt,
                      ipv6_pseudo_header_partial_checksum (ip6_protocol pkt) (ip6_payload_len pkt) (ip6_src pkt) (ip6_dst pkt))
      | _ => None
      end in
    match found with
    | None => ret (None, frame)
    | Some (ip_header_len, ip_packet_len, protocol, sum) =>
        do! assert_ ((ip_header_len <=? ip_packet_len) && (ip_packet_len <=? Z.of_nat (length pkt))) "slice index out of range" in
        let a := Z.to_nat ip_header_len in
        let b := Z.to_nat ip_packet_len in
        let put seg := set_eth_payload (take a pkt ++ seg ++ drop b pkt) frame in
        let ip_payload := take (b - a) (drop a pkt) in
        if is_tcp protocol && negb (tx (tcp checksums)) then
          ret (Some (ip_header_len, 16), put (tcp_set_checksum sum ip_payload))
        else if is_udp protocol && negb (tx (udp checksums)) then
          ret (Some (ip_header_len, 6), put (udp_set_checksum sum ip_payload))
        else ret (None, frame)
    end.

Definition drop_tx_token : M driver unit :=
  modify (fun d => set_capacity (wrapu 32 (send_capacity d + BUFF_PER_PACKET)) d).

(** [TxToken::consume] with the bytes the closure writes. *)
Definition tx_consume (frame : list Z) : M driver unit :=
  let len := Z.of_nat (length frame) in
  let! d := get in
  do! assert_ (len <=? tx_buf_size (send_vqs d)) "assertion failed: len <= buf_size" in
  let! packet := alloc in
  let! header := alloc in
  let! '(req, frame) := should_request_checksum (checksums d) frame in
  let hdr := match req with
             | Some (ip_header_len, csum_offset) => mkHdr true false (wrapu 16 (ETHERNET_HEADER_LEN + ip_header_len)) csum_offset 0
             | None => Hdr_default
             end in
  do! modify (fun d => set_buffers (<[header := hdr]> (hdrs d)) (<[packet := frame]> (packets d)) (allocated d) d) in
  match AvailBufferToken_new [Sized header HDR_SIZE; Vector packet len len] [] with
  | Err _ => panic_unwrap
  | Ok buff_tkn =>
      let! r := on_tx 0 (dispatch buff_tkn false Direct 0) in
      match r with Ok _ => ret tt | Err _ => panic_unwrap end
  end.

(** ** Receiving *)

Definition is_ip_packet_passable (next_header : IpProtocol) (payload src dst : list Z) (caps : ChecksumCapabilities) : bool :=
  match next_header with
  | Tcp => rx (tcp caps) || (tcp_checked payload && tcp_verify payload src dst)
  | Udp => rx (udp caps) || (udp_checked payload && udp_verify payload src dst)
  | _ => true
  end.

Definition is_ethernet_frame_passable (caps : ChecksumCapabilities) (hdr : Hdr) (frame : list Z) : bool :=
  if rx (tcp caps) && rx (udp caps) then true
  else if negb (eth_checked frame) then false
  else if NEEDS_CSUM hdr then true
  else
    let pkt := eth_payload frame in
    match ethertype frame with
    | Ipv4 =>
        if negb (ip4_checked pkt) then false
        else if negb (DATA_VALID hdr) && negb (ip4_verify_checksum pkt) then false
        else if more_frags pkt || negb (frag_offset pkt =? 0) then false
        else is_ip_packet_passable (ip4_next_header pkt) (ip4_payload pkt) (ip4_src pkt) (ip4_dst pkt) caps
    | Ipv6 =>
        if negb (ip6_checked pkt) then false
        else if DATA_VALID hdr then true
        else match ip6_next_header pkt with
             | Ipv6Frag => false
             | p => is_ip_packet_passable p (ip6_payload pkt) (ip6_src pkt) (ip6_dst pkt) caps
             end
    | Arp | UnknownEther _ => true
    end.

Definition bytes_at (m : Z -> Z) (addr n : Z) : list Z := m <$> seqZ addr n.
Definition vec_bytes (m : Z -> Z) (e : BufferElem) : list Z :=
  match e with Vector addr len _ => bytes_at m addr len | Sized _ _ => [] end.
Definition unwrap_none {A} (o : option A) : M driver A := unwrap o "called `Option::unwrap()` on a `None` value".
Definition redispatch (hdr : Z) : M driver unit :=
  let! d := get in
  let! tkn := buffer_token_from_hdr hdr (rx_buf_size (recv_vqs d)) in
  let! r := on_rx (dispatch tkn false Direct 0) in
  match r with Ok _ => ret tt | Err _ => panic_unwrap end.

(** The further buffers of a frame: both parts hold data. *)
Fixpoint merge_buffers (n : nat) (combined_packets : list Z) : M driver (list Z) :=
  match n with
  | O => ret combined_packets
  | Datatypes.S n =>
      let! o := get_next in
      let! buffer_tkn := unwrap_none o in
      let! '(raw, b) := pop_front_raw (used_recv_buff buffer_tkn) in
      let! '(header_descriptor, used_len) := unwrap_none raw in
      let! '(v, _) := pop_front_vec b in
      let! packet := unwrap_none v in
      let! d := get in
      do! redispatch header_descriptor in
      merge_buffers n (combined_packets ++ bytes_at (mem d) header_descriptor used_len ++ vec_bytes (mem d) packet)
  end.

(** [RxToken::consume]: what the closure is given. *)
Definition rx_consume : M driver (list Z) :=
  let! o := get_next in
  match o with
  | None => ret []
  | Some buffer_tkn =>
      let! '(h, b) := pop_front_downcast HDR_SIZE (used_recv_buff buffer_tkn) in
      let! first := unwrap_none h in
      let! '(v, _) := pop_front_vec b in
      let! first_packet := unwrap_none v in
      let! d := get in
      let first_header := read_hdr (bytes_at (mem d) first HDR_SIZE) in
      let num := if MRG_RXBUF (features (dev_cfg d)) then num_buffers first_header else 1 in
      let! combined_packets := merge_buffers (Z.to_nat (num - 1)) (vec_bytes (mem d) first_packet) in
      let res := if is_ethernet_frame_passable (checksums d) first_header combined_packets then combined_packets else [] in
      do! redispatch first in
      ret res
  end.

(** ** The interface of the network stack *)

Definition get_mac_address : M driver (list Z) :=
  let! d := get in
  if MAC (features (dev_cfg d)) then ret (cfg_mac (dev_cfg d))
  else panic "Currently VIRTIO_NET_F_MAC must be negotiated!".
Definition set_polling_mode (value : bool) : M driver unit := if value then rx_disable_notifs else rx_enable_notifs.
Definition max_burst_size (d : driver) : Z := send_capacity d / BUFF_PER_PACKET.
Definition handle_interrupt (config_change needs_reset : bool) : M driver unit :=
  if config_change && needs_reset then panic "Device configuration change notification cannot be handled yet"
  else modify (fun d => mkDriver (dev_cfg d) (mtu d) (ctrl_vq d) (recv_vqs d) (send_vqs d) (send_capacity d) (num_vqs d)
                          (checksums d) (mem d) (hdrs d) (packets d) (allocated d) (wakes d + 1)).
(** [LINK_UP] is bit 0 and [ANNOUNCE] bit 1 of the status. *)
Definition dev_status (c : NetDevCfg) : Z := if STATUS (features c) then cfg_status c else 1.
Definition is_link_up (c : NetDevCfg) : bool := if STATUS (features c) then Z.testbit (cfg_status c) 0 else true.
Definition is_announce (c : NetDevCfg) : bool := if STATUS (features c) then Z.testbit (cfg_status c) 1 else false.
Definition get_max_vq_pairs (c : NetDevCfg) : Z := if MQ (features c) then cfg_max_virtqueue_pairs c else 1.
Definition disable_interrupts : M driver unit := rx_disable_notifs.
Definition enable_interrupts : M driver unit := rx_enable_notifs.

(** [checked_sub(..)?] of the capacity: [true] when there was enough. *)
Definition take_capacity : M driver bool :=
  let! d := get in
  if send_capacity d <? BUFF_PER_PACKET then ret false
  else do! modify (set_capacity (send_capacity d - BUFF_PER_PACKET)) in ret true.
(** [true]: tokens to receive and to send. *)
Definition receive (fuel : nat) : M driver bool :=
  let! b := has_packet in
  if negb b then ret false else do! free_up_send_capacity fuel in take_capacity.
Definition transmit (fuel : nat) : M driver bool := do! free_up_send_capacity fuel in take_capacity.

(** ** Set-up *)

Section Init.
Variables (default_mtu : Z) (mrg_rxbuf_size : option Z).
Context {C : Type}.
(** The transport: the status bits, the negotiation, a new queue (packed or
    not) with its size. *)
Variables (reset_dev ack_dev set_drv features_ok drv_ok : M C unit).
Variable negotiate_features : NetF -> M C NetF.
Variable check_features : M C bool.
Variable new_vq : bool -> Z -> Z -> M C (Result VirtqError (S * Z)).
(** Sending the notifications a queue has made to the device. *)
Variable notify_dev : S -> M C unit.

Notation st := (C * driver)%type.
Definition on_com {A} (m : M C A) : M st A := zoom fst (fun c s => (c, s.2)) m.
Definition on_drv {A} (m : M driver A) : M st A := zoom snd (fun d s => (s.1, d)) m.

Definition new_queue (packed : bool) (index : Z) : M st (S * Z) :=
  let! r := on_com (new_vq packed VIRTIO_MAX_QUEUE_SIZE index) in
  match r with Ok q => ret q | Err _ => panic "called `Result::unwrap()` on an `Err` value" end.
Definition notifs (m : M S unit) (q : S) : M st S :=
  match m q with Done _ q => ret q | Panic why => panic why end.

(** The device gets the notifications of [fill_queue], one after the other. *)
Definition notify_filled : M st unit :=
  let! s := get in
  match head (reverse (rx_vqs (recv_vqs s.2))) with
  | Some vq => on_com (notify_dev vq)
  | None => ret tt
  end.

Fixpoint queue_pairs (l : list Z) : M st unit :=
  match l with
  | [] => ret tt
  | i :: l =>
      let! s := get in
      let packed := RING_PACKED (features (dev_cfg s.2)) in
      let! '(vq, size) := new_queue packed (2 * i) in
      let! vq := notifs enable_notifs vq in
      do! on_drv (rx_add vq size) in
      do! notify_filled in
      let! '(vq, size) := new_queue packed (2 * i + 1) in
      let! vq := notifs disable_notifs vq in
      do! on_drv (modify (fun d => set_capacity (wrapu 32 (send_capacity d + size)) d)) in
      do! on_drv (tx_add vq) in
      queue_pairs l
  end.

Definition virtqueue_init : M st unit :=
  let! s := get in
  let c := dev_cfg s.2 in
  let n := if MQ (features c) then
             let m := wrapu 16 (cfg_max_virtqueue_pairs c * 2) in if MAX_NUM_VQ <=? m then MAX_NUM_VQ else m
           else 2 in
  do! on_drv (modify (fun d => set_ctrl (ctrl_vq d) n d)) in
  do! assert_ (n mod 2 =? 0) "assertion `left == right` failed" in
  queue_pairs (seqZ 0 (n / 2)).

Definition dev_spec_init : M st unit :=
  do! virtqueue_init in
  let! s := get in
  let f := features (dev_cfg s.2) in
  if CTRL_VQ f then
    let! '(vq, _) := new_queue (RING_PACKED f) (num_vqs s.2) in
    let! vq := notifs enable_notifs vq in
    on_drv (modify (fun d => set_ctrl (Some vq) (num_vqs d) d))
  else ret tt.

Definition wanted : NetF := mkNetF true true true true true true true true true true true true true true false.
Definition minimal (f : NetF) : bool := VERSION_1 f && MAC f.

Definition offload (f : NetF) (caps : ChecksumCapabilities) : ChecksumCapabilities :=
  if CSUM f && GUEST_CSUM f then mkCaps CNone CNone
  else if CSUM f then mkCaps CRx CRx
  else if GUEST_CSUM f then mkCaps CTx CTx
  else caps.

(** The handler of the interrupt is registered by the caller. *)
Definition init_dev (c : NetDevCfg) : M st (Result VirtioNetError unit) :=
  do! on_com reset_dev in
  do! on_com ack_dev in
  do! on_com set_drv in
  let! negotiated := on_com (negotiate_features wanted) in
  if negb (minimal negotiated) then ret (Err (FailFeatureNeg (dev_id c)))
  else
    do! on_com features_ok in
    let! ok := on_com check_features in
    if negb ok then ret (Err (FailFeatureNeg (dev_id c)))
    else
      let c := mkCfg (cfg_mac c) (cfg_status c) (cfg_max_virtqueue_pairs c) (cfg_mtu c) (dev_id c) negotiated in
      let mtu := determine_mtu default_mtu c in
      let! buf_size := determine_rx_buf_size default_mtu mrg_rxbuf_size c in
      do! on_drv (modify (fun d =>
        mkDriver c mtu None (mkRxQ [] buf_size) (mkTxQ [] mtu) 0 (num_vqs d) (checksums d) (mem d) (hdrs d) (packets d) (allocated d) (wakes d))) in
      do! dev_spec_init in
      do! on_com drv_ok in
      do! on_drv (modify (fun d => set_checksums (offload negotiated (checksums d)) d)) in
      ret (Ok tt).
End Init.
End Driver.
End VirtioNet.
