(* ===== verification/NetProps.v ===== *)
(** The frames of the network driver, [src/src/drivers/net/virtio/mod.rs], over
    any virtqueue: what [RxToken::consume] hands to the network stack for a
    frame merged from several buffers, and the budget of descriptors that keeps
    [TxToken::consume] from failing, for every order of the calls and of what
    the device does. *)

From S2P Require Import Prelude Errors Virtq VqSpec IndexAlloc SplitVq SplitProps VsockQueues NetChecksum VirtioNet.

Module NetProps.
Import Virtq VqSpec NetChecksum VirtioNet.

Section Props.
Context {S : Type} `{VirtQueue S} `{Wire}.
Variable alloc_at : Z -> Z.
Context {repr : S -> VqSpec.vq -> Prop} {L : VirtQueueLaws S repr}.
Hypothesis transfer_direct : forall t table, transfer t Direct table = mkTransfer t None.
Notation driver := (driver (S := S)).

(** ** Receiving *)

Definition recv_token (hdr vec bs : Z) : AvailBufferToken := mkToken [] [Sized hdr HDR_SIZE; Vector vec 0 bs].

(** [k] receive buffers are with the device or on the way back. *)
Record stocked (bs : Z) (k f : nat) (v : VqSpec.vq) : Prop := {
  st_size : base.size (inflight v) = k;
  st_shape id tk : inflight v !! id = Some tk -> exists hdr vec, tk = mkTransfer (recv_token hdr vec bs) None;
  st_free : free v = f;
}.

(** Where the two parts of the buffer [id] are. *)
Definition parts (v : VqSpec.vq) (id : nat) : Z * Z :=
  match inflight v !! id with
  | Some (mkTransfer (mkToken _ [Sized hdr _; Vector vec _ _]) _) => (hdr, vec)
  | _ => (0, 0)
  end.

(** What the device wrote: behind the header of the first buffer, and into both
    parts of the further ones. *)
Definition first_part (m : Z -> Z) (bs : Z) (v : VqSpec.vq) (p : nat * Z) : list Z :=
  bytes_at m (parts v p.1).2 (Z.min bs (p.2 - HDR_SIZE)).
Definition next_part (m : Z -> Z) (bs : Z) (v : VqSpec.vq) (p : nat * Z) : list Z :=
  let n := Z.min HDR_SIZE p.2 in bytes_at m (parts v p.1).1 n ++ bytes_at m (parts v p.1).2 (Z.min bs (p.2 - n)).
Definition frame_of (m : Z -> Z) (bs : Z) (v : VqSpec.vq) (p : nat * Z) (rest : list (nat * Z)) : list Z :=
  first_part m bs v p ++ concat (next_part m bs v <$> rest).

(** The driver with another receive queue and [n] allocations. *)
Definition rx_upd (s : S) (n : Z) (d : driver) : driver := set_buffers (hdrs d) (packets d) n (set_rx_vqs [s] d).

Lemma on_rx_run {A} (m : M S A) (d : driver) s a s' :
  rx_vqs (recv_vqs d) = [s] -> m s = Done a s' -> on_rx m d = Done a (rx_upd s' (allocated d) d).
Proof. intros Hq E. unfold on_rx, bind, get, unwrap. rewrite Hq. cbn. unfold zoom. rewrite E. by rewrite Hq. Qed.

Lemma net_recv_token_ok hdr vec bs : 0 <= bs <= u32_max -> token_ok (recv_token hdr vec bs).
Proof. intros Hp. split; cbn; repeat constructor; cbn; try done; lia. Qed.

(** Giving a buffer to the device again. *)
Lemma redispatch_run bs k f hdr (d : driver) s v :
  0 <= bs <= u32_max -> (2 <= f)%nat -> rx_vqs (recv_vqs d) = [s] -> rx_buf_size (recv_vqs d) = bs -> repr s v -> stocked bs k f v ->
  exists s' id vec, let tk := mkTransfer (recv_token hdr vec bs) None in
    let v' := mkVq (<[id := tk]> (inflight v)) (avail v ++ [id]) (held v) (used v) (f - 2) in
    redispatch alloc_at hdr d = Done tt (rx_upd s' (allocated d + 1) d) /\ inflight v !! id = None /\ repr s' v' /\
    stocked bs (Datatypes.S k) (f - 2) v' /\ (forall i, i ∈ (used v).*1 -> parts v' i = parts v i).
Proof.
  intros Hp Hf Hq Hb R [H1 H2 H3]. set (vec := alloc_at (allocated d)).
  destruct (dispatch_law s v (recv_token hdr vec bs) Direct 0 R (net_recv_token_ok _ _ _ Hp)) as (r & s' & v' & E & St & R').
  rewrite transfer_direct in St. inversion St as [? ? id Hn Hid|? ? ? Hn ?| | | | | |]; subst r; subst; cbn in Hn; [|lia].
  exists s', id, vec. split_and!; [|done| | |].
  - unfold redispatch. erewrite bind_run by reflexivity. erewrite bind_run by reflexivity.
    erewrite bind_run by (eapply on_rx_run; [exact Hq|exact E]). reflexivity.
  - exact R'.
  - split; cbn; [by rewrite map_size_insert_None| |done].
    intros i tk. destruct (decide (i = id)) as [->|Hne]; [rewrite lookup_insert_eq; intros [= <-]; by eexists _, _|].
    rewrite lookup_insert_ne by done. apply H2.
  - intros i Hi. unfold parts. cbn [inflight]. rewrite lookup_insert_ne; [done|]. intros <-.
    destruct (repr_coherent _ _ R) as [_ Hdom _]. assert (Hin : id ∈ ids v) by (unfold ids; set_solver). apply Hdom in Hin.
    rewrite Hid in Hin. by destruct Hin.
Qed.

(** Taking the first used buffer. *)
Lemma get_next_run bs k f (d : driver) s v id len rest :
  rx_vqs (recv_vqs d) = [s] -> repr s v -> stocked bs k f v -> used v = (id, len) :: rest ->
  exists s' hdr vec k', let v' := mkVq (delete id (inflight v)) (avail v) (held v) rest (f + 2) in
    get_next d = Done (Some (mkUsedToken [] (mkUsed [Sized hdr HDR_SIZE; Vector vec 0 bs] len))) (rx_upd s' (allocated d) d) /\
    parts v id = (hdr, vec) /\ repr s' v' /\ stocked bs k' (f + 2) v' /\ k = Datatypes.S k' /\
    (forall i, i ∈ rest.*1 -> parts v' i = parts v i).
Proof.
  intros Hq R [H1 H2 H3] Hu. destruct (try_recv_law s v R) as (r & s' & v' & E & St & R'). inversion St as [| |? i l rst tk Hu' Hi|? Hu'| | | |];
    [|congruence]. rewrite Hu in Hu'. injection Hu' as <- <- <-. destruct (H2 _ _ Hi) as (hdr & vec & ->). subst r.
  exists s', hdr, vec, (Nat.pred k). cbn zeta. subst v'. change (ndesc _) with 2%nat in R'. rewrite H3 in R'. split_and!.
  - unfold get_next. by erewrite bind_run by (eapply on_rx_run; [exact Hq|exact E]).
  - unfold parts. by rewrite Hi.
  - exact R'.
  - split; cbn; [|intros j tk Hj; apply lookup_delete_Some in Hj as [_ Hj]; by eapply H2|done].
    rewrite map_size_delete_Some by done. by rewrite H1.
  - destruct k; [|done]. apply map_size_empty_inv in H1. rewrite H1 in Hi. by rewrite lookup_empty in Hi.
  - intros i Hin. unfold parts. cbn [inflight]. rewrite lookup_delete_ne; [done|]. intros <-.
    destruct (repr_coherent _ _ R) as [Hnd _ _]. unfold ids in Hnd. rewrite Hu in Hnd. cbn in Hnd. apply list.NoDup_cons in Hnd as [Hni _].
    set_solver.
Qed.

Lemma rx_upd_id (d : driver) s : rx_vqs (recv_vqs d) = [s] -> rx_upd s (allocated d) d = d.
Proof. destruct d as [c m ct [l b] sv cp nv cs me h p al w]. cbn. by intros ->. Qed.

Lemma parts_eq (g : Z -> VqSpec.vq -> nat * Z -> list Z) bs v v' rest :
  (forall v v' p, parts v p.1 = parts v' p.1 -> g bs v p = g bs v' p) ->
  (forall i, i ∈ rest.*1 -> parts v' i = parts v i) -> g bs v' <$> rest = g bs v <$> rest.
Proof. intros Hg Hp. apply list_fmap_ext. intros i p Hi. apply Hg, Hp, list_elem_of_fmap. exists p. split; [done|]. by eapply list_elem_of_lookup_2. Qed.

(** The further buffers of a frame. *)
Lemma merge_run bs rest : forall others acc (d : driver) s v k f,
  0 <= bs <= u32_max -> rx_vqs (recv_vqs d) = [s] -> rx_buf_size (recv_vqs d) = bs -> repr s v -> stocked bs k f v -> used v = rest ++ others ->
  exists s' v' n, merge_buffers alloc_at (length rest) acc d =
      Done (acc ++ concat (next_part (mem d) bs v <$> rest)) (rx_upd s' n d) /\ repr s' v' /\ stocked bs k f v' /\
    used v' = others /\ held v' = held v /\ length (avail v') = (length (avail v) + length rest)%nat.
Proof.
  induction rest as [|[id len] rest IH]; intros others acc d s v k f Hp Hq Hb R Hs Hu.
  { exists s, v, (allocated d). cbn. rewrite app_nil_r, Nat.add_0_r, (rx_upd_id d s Hq). by split_and!. }
  destruct (get_next_run bs k f d s v id len (rest ++ others) Hq R Hs Hu) as (s1 & hdr & vec & k' & E1 & Hpt & R1 & S1 & -> & K1).
  set (v1 := mkVq _ _ _ _ _) in R1, S1. set (d1 := rx_upd s1 (allocated d) d) in E1.
  destruct (redispatch_run bs k' (f + 2) hdr d1 s1 v1 Hp ltac:(lia) eq_refl Hb R1 S1) as (s2 & id2 & vec2 & E2 & Hid & R2 & S2 & K2).
  set (v2 := mkVq _ _ _ _ _) in R2, S2. set (d2 := rx_upd s2 _ d1) in E2. replace (f + 2 - 2)%nat with f in S2 by lia.
  set (n := Z.min HDR_SIZE len). set (w := Z.min bs (len - n)).
  destruct (IH others (acc ++ bytes_at (mem d) hdr n ++ bytes_at (mem d) vec w) d2 s2 v2 (Datatypes.S k') f Hp eq_refl Hb R2 S2 eq_refl)
    as (s3 & v3 & m & E3 & R3 & S3 & Hu3 & Hh3 & Ha3).
  exists s3, v3, m. split_and!; [|done|done|done|done|rewrite Ha3; cbn; rewrite length_app; cbn; lia].
  cbn [merge_buffers length]. rewrite (bind_run _ _ _ _ _ E1). erewrite bind_run by reflexivity.
  cbn [used_recv_buff]. unfold pop_front_raw at 1. cbn [elems pop_elem].
  erewrite bind_run by (erewrite bind_run by reflexivity; cbv iota beta; erewrite bind_run by (apply size_u32_run; done); reflexivity).
  cbv iota beta. erewrite bind_run by reflexivity. cbv iota beta. cbn [remaining_written_len]. fold n.
  erewrite bind_run by (unfold pop_front_vec; cbn [elems pop_elem]; erewrite bind_run by reflexivity; cbv iota beta;
    erewrite bind_run by (apply size_u32_run; lia); reflexivity). cbv iota beta. cbn [remaining_written_len].
  erewrite bind_run by reflexivity. erewrite bind_run by reflexivity. rewrite (bind_run _ _ _ _ _ E2). cbn [vec_bytes]. fold w.
  change (mem d1) with (mem d). rewrite E3. f_equal. change (mem d2) with (mem d).
  rewrite (parts_eq (next_part (mem d)) bs v v2 rest).
  - cbn [fmap list_fmap concat]. unfold next_part at 2. cbn [fst snd]. rewrite Hpt. cbn [fst snd]. fold n w. by rewrite <- !app_assoc.
  - intros va vb p Ep. unfold next_part. by rewrite Ep.
  - intros i Hi. rewrite K2, K1 by (cbn; rewrite ?fmap_app; set_solver). done.
Qed.

(** How many buffers the first header says the frame has. *)
Definition announced (d : driver) (hdr : Hdr) : Z := if MRG_RXBUF (features (dev_cfg d)) then num_buffers hdr else 1.

(** C13: When the device has used the buffers of a whole frame, [RxToken::consume]
    hands the network stack exactly the bytes the device wrote, behind the header
    of the first buffer and into both parts of each further one, or nothing when
    the frame fails the check; it never panics, takes exactly these buffers, and
    afterwards as many receive buffers are with the device as before. *)
Theorem net_rx_frame bs k f (d : driver) s v id len rest others :
  0 <= bs <= u32_max -> rx_vqs (recv_vqs d) = [s] -> rx_buf_size (recv_vqs d) = bs -> repr s v -> stocked bs k f v ->
  used v = (id, len) :: rest ++ others -> HDR_SIZE <= len ->
  let hdr := read_hdr (bytes_at (mem d) (parts v id).1 HDR_SIZE) in
  Z.of_nat (length rest) = Z.max 0 (announced d hdr - 1) ->
  let frame := frame_of (mem d) bs v (id, len) rest in
  exists s' v' n, rx_consume alloc_at d =
      Done (if is_ethernet_frame_passable (checksums d) hdr frame then frame else []) (rx_upd s' n d) /\
    repr s' v' /\ stocked bs k f v' /\ used v' = others /\ held v' = held v /\
    length (avail v') = (length (avail v) + 1 + length rest)%nat.
Proof.
  intros Hp Hq Hb R Hs Hu Hl hdr Hn frame.
  destruct (get_next_run bs k f d s v id len (rest ++ others) Hq R Hs Hu) as (s1 & h & vec & k' & E1 & Hpt & R1 & S1 & -> & K1).
  set (v1 := mkVq _ _ _ _ _) in R1, S1. set (d1 := rx_upd s1 (allocated d) d) in E1.
  set (w := Z.min bs (len - HDR_SIZE)).
  destruct (merge_run bs rest others (bytes_at (mem d) vec w) d1 s1 v1 k' (f + 2) Hp eq_refl Hb R1 S1 eq_refl)
    as (s2 & v2 & n & E2 & R2 & S2 & Hu2 & Hh2 & Ha2).
  set (d2 := rx_upd s2 n d1) in E2.
  destruct (redispatch_run bs k' (f + 2) h d2 s2 v2 Hp ltac:(lia) eq_refl Hb R2 S2) as (s3 & id3 & vec3 & E3 & _ & R3 & S3 & _).
  replace (f + 2 - 2)%nat with f in R3, S3 by lia.
  eexists s3, _, _. split_and!; [|exact R3|exact S3|done|done|cbn; rewrite length_app, Ha2; cbn; lia].
  assert (Ef : bytes_at (mem d) vec w ++ concat (next_part (mem d1) bs v1 <$> rest) = frame).
  { unfold frame, frame_of, first_part. cbn [fst snd]. rewrite Hpt. cbn [snd]. fold w. f_equal. f_equal. change (mem d1) with (mem d).
    apply (parts_eq (next_part (mem d))); [intros va vb p Ep; unfold next_part; by rewrite Ep|].
    intros i Hi. apply K1. rewrite fmap_app. set_solver. }
  unfold rx_consume. rewrite (bind_run _ _ _ _ _ E1). cbn [used_recv_buff].
  erewrite bind_run by (unfold pop_front_downcast; erewrite bind_run by (apply size_u32_run; done); cbn [remaining_written_len];
    rewrite (proj2 (Z.ltb_ge _ _) Hl); reflexivity). cbv iota beta. erewrite bind_run by reflexivity.
  erewrite bind_run by (unfold pop_front_vec; cbn [elems pop_elem]; erewrite bind_run by reflexivity; cbv iota beta;
    erewrite bind_run by (apply size_u32_run; lia); reflexivity). cbv iota beta. cbn [remaining_written_len].
  erewrite bind_run by reflexivity. erewrite bind_run by reflexivity. cbn [vec_bytes]. fold w.
  change (mem d1) with (mem d). change (checksums d1) with (checksums d). change (dev_cfg d1) with (dev_cfg d).
  assert (Eh : read_hdr (bytes_at (mem d) h HDR_SIZE) = hdr) by (unfold hdr; by rewrite Hpt). rewrite Eh.
  fold (announced d hdr). replace (Z.to_nat (announced d hdr - 1)) with (length rest) by lia.
  rewrite (bind_run _ _ _ _ _ E2), Ef. rewrite (bind_run _ _ _ _ _ E3). reflexivity.
Qed.

(** A device that serves the next buffer. *)
Lemma served bs k f s v len : repr s v -> stocked bs k f v -> held v = [] -> (length (used v) < k)%nat -> in_u 32 len ->
  exists s' v' id, repr s' v' /\ stocked bs k f v' /\ held v' = [] /\ used v' = used v ++ [(id, len)].
Proof.
  intros R [H1 H2 H3] Hh Hk Hlen. destruct (device_fetch_law s v R) as (r & s1 & v1 & _ & St & R1).
  assert (Ha : length (avail v) <> 0%nat).
  { rewrite (VsockQueues.inflight_count v (repr_coherent _ _ R)) in H1. unfold ids in H1. rewrite Hh, !length_app, length_fmap in H1. cbn in H1. lia. }
  inversion St as [| | | |? id rest tk Ea Hi|? Ea| |]; subst; [|by rewrite Ea in Ha]. rewrite Hh in R1.
  destruct (device_use_law s1 _ id len R1 Hlen) as (b & s2 & v2 & _ & St2 & R2). destruct b.
  - inversion St2 as [| | | | | |? ? ? l1 l2 Eh|]; subst. cbn in Eh. destruct l1 as [|? l1]; [|by destruct l1]. injection Eh as <-.
    eexists s2, _, id. split; [exact R2|]. by split; [split|].
  - inversion St2 as [| | | | | | |? ? Hn]. cbn in Hn. set_solver.
Qed.

(** With no used buffer the stack is given an empty frame. *)
Lemma rx_consume_empty (d : driver) s v : rx_vqs (recv_vqs d) = [s] -> repr s v -> used v = [] ->
  exists s', rx_consume alloc_at d = Done [] (rx_upd s' (allocated d) d) /\ repr s' v.
Proof.
  intros Hq R Hu. destruct (try_recv_law s v R) as (r & s' & v' & E & St & R').
  inversion St as [| |? i l rst tk Hu' Hi|? Hu'| | | |]; [congruence|]. subst v' r. exists s'. split; [|done].
  unfold rx_consume, get_next. erewrite bind_run by (erewrite bind_run by (eapply on_rx_run; [exact Hq|exact E]); reflexivity). reflexivity.
Qed.

(** A device that reports less than a header stops the kernel. *)
Lemma rx_short_panics bs k f (d : driver) s v id len rest :
  rx_vqs (recv_vqs d) = [s] -> repr s v -> stocked bs k f v -> used v = (id, len) :: rest -> len < HDR_SIZE ->
  exists why, rx_consume alloc_at d = Panic why.
Proof.
  intros Hq R Hs Hu Hl. destruct (get_next_run bs k f d s v id len rest Hq R Hs Hu) as (s1 & h & vec & k' & E1 & _).
  unfold rx_consume. rewrite (bind_run _ _ _ _ _ E1). cbn [used_recv_buff].
  erewrite bind_run by (unfold pop_front_downcast; erewrite bind_run by (apply size_u32_run; done); cbn [remaining_written_len];
    rewrite (proj2 (Z.ltb_lt _ _) Hl); reflexivity). cbv iota beta. by eexists.
Qed.

(** So does a frame whose next buffer is not used yet. *)
Lemma merge_missing_panics (d : driver) s v n acc : rx_vqs (recv_vqs d) = [s] -> repr s v -> used v = [] ->
  exists why, merge_buffers alloc_at (Datatypes.S n) acc d = Panic why.
Proof.
  intros Hq R Hu. destruct (try_recv_law s v R) as (r & s' & v' & E & St & R').
  inversion St as [| |? i l rst tk Hu' Hi|? Hu'| | | |]; [congruence|]. subst v' r. eexists.
  cbn [merge_buffers]. unfold get_next. erewrite bind_run by (erewrite bind_run by (eapply on_rx_run; [exact Hq|exact E]); reflexivity).
  reflexivity.
Qed.

(** ** Sending *)

Lemma on_tx_run {A} (m : M S A) (d : driver) s a s' :
  tx_vqs (send_vqs d) = [s] -> m s = Done a s' -> on_tx 0 m d = Done a (set_tx_vqs [s'] d).
Proof. intros Hq E. unfold on_tx, bind, get, unwrap. rewrite Hq. cbn. unfold zoom. rewrite E. by rewrite Hq. Qed.

(** What the device does takes no buffer out of the queue. *)
Lemma act_keeps a s v : repr s v -> act_ok a ->
  exists s' v', device_act a s = Done tt s' /\ repr s' v' /\ inflight v' = inflight v /\ free v' = free v.
Proof.
  intros R Ha.
  assert (Huse : forall id len s0 v0, repr s0 v0 -> in_u 32 len ->
    exists b s' v', device_use id len s0 = Done b s' /\ repr s' v' /\ inflight v' = inflight v0 /\ free v' = free v0).
  { intros id len s0 v0 R0 H32. destruct (device_use_law s0 v0 id len R0 H32) as (b & s1 & v1 & E & St & R1).
    exists b, s1, v1. split; [done|]. split; [done|]. destruct b; by inversion St; subst. }
  assert (Hfetch : exists r s' v', device_fetch s = Done r s' /\ repr s' v' /\ inflight v' = inflight v /\ free v' = free v).
  { destruct (device_fetch_law s v R) as (r & s1 & v1 & E & St & R1). exists r, s1, v1. split; [done|]. split; [done|].
    by inversion St; subst. }
  destruct a as [|id len|len]; cbn [device_act].
  - destruct Hfetch as (r & s1 & v1 & E & HR). rewrite (bind_run _ _ _ _ _ E). by exists s1, v1.
  - destruct (Huse id len s v R Ha) as (b & s1 & v1 & E & HR). rewrite (bind_run _ _ _ _ _ E). by exists s1, v1.
  - unfold device_serve. destruct Hfetch as (r & s1 & v1 & E & R1 & Hi & Hf). rewrite (bind_run _ _ _ _ _ E).
    destruct r as [[id ?]|]; [|by exists s1, v1].
    destruct (Huse id len s1 v1 R1 Ha) as (b & s2 & v2 & E2 & R2 & Hi2 & Hf2). rewrite (bind_run _ _ _ _ _ E2).
    exists s2, v2. split_and!; [done|done|congruence|congruence].
Qed.
Lemma acts_keep acts : forall s v, repr s v -> Forall act_ok acts ->
  exists s' v', device_acts acts s = Done tt s' /\ repr s' v' /\ inflight v' = inflight v /\ free v' = free v.
Proof.
  induction acts as [|a acts IH]; intros s v R Ha; [by exists s, v|]. apply Forall_cons_1 in Ha as [Ha Has].
  destruct (act_keeps a s v R Ha) as (s1 & v1 & E & R1 & Hi & Hf). cbn [device_acts]. rewrite (bind_run _ _ _ _ _ E).
  destruct (IH s1 v1 R1 Has) as (s2 & v2 & E2 & R2 & Hi2 & Hf2). exists s2, v2. split_and!; [done|done|congruence|congruence].
Qed.

(** The budget: of [total] descriptors, two for each frame under way, and two for
    each of the [tokens] handed out; what is left is [send_capacity]. *)
Record tx_inv (bs : Z) (total tokens : nat) (d : driver) (s : S) (v : VqSpec.vq) : Prop := {
  tx_queue : tx_vqs (send_vqs d) = [s];
  tx_size : tx_buf_size (send_vqs d) = bs;
  tx_repr : repr s v;
  tx_two id tk : inflight v !! id = Some tk -> ndesc tk = 2%nat;
  tx_total : (2 * base.size (inflight v) + free v = total)%nat;
  tx_capacity : send_capacity d + 2 * Z.of_nat tokens = Z.of_nat (free v);
  tx_room : 0 <= send_capacity d;
}.

Lemma inflight_pos (v : VqSpec.vq) id tk : inflight v !! id = Some tk -> (base.size (inflight v) <> 0)%nat.
Proof. intros Hi Hz%map_size_empty_inv. rewrite Hz in Hi. by rewrite lookup_empty in Hi. Qed.

(** Taking back the frames that were sent. *)
Lemma poll_vq_run fuel : forall n total s v,
  repr s v -> (forall id tk, inflight v !! id = Some tk -> ndesc tk = 2%nat) -> (2 * base.size (inflight v) + free v = total)%nat ->
  (length (used v) < fuel)%nat -> 0 <= n -> n + Z.of_nat (length (used v)) < 2 ^ 32 ->
  exists s' v', poll_vq fuel n s = Done (n + Z.of_nat (length (used v))) s' /\ repr s' v' /\
    (forall id tk, inflight v' !! id = Some tk -> ndesc tk = 2%nat) /\ (2 * base.size (inflight v') + free v' = total)%nat /\
    free v' = (free v + 2 * length (used v))%nat /\ used v' = [] /\ avail v' = avail v /\ held v' = held v.
Proof.
  induction fuel as [|fuel IH]; intros n total s v R H2 Ht Hf Hn Hw; [lia|]. cbn [poll_vq].
  destruct (try_recv_law s v R) as (r & s1 & v1 & E & St & R1). rewrite (bind_run _ _ _ _ _ E).
  inversion St as [| |? id len rest tk Hu Hi|? Hu| | | |]; subst r.
  - rewrite Hu in *. cbn [length] in *. pose proof (inflight_pos v id tk Hi) as Hpos.
    rewrite wrapu_small by lia. subst v1. rewrite (H2 _ _ Hi) in R1.
    destruct (IH (n + 1) total s1 _ R1) as (s2 & v2 & E2 & R2 & H2' & Ht' & Hf' & Hu' & Ha & Hh); cbn in *.
    + intros i tk' Hi'. apply lookup_delete_Some in Hi' as [_ Hi']. by eapply H2.
    + rewrite map_size_delete_Some by done. lia.
    + lia.
    + lia.
    + lia.
    + exists s2, v2. split_and!; [|done|done|done|lia|done|done|done]. rewrite E2. f_equal. lia.
  - subst v1. exists s1, v. rewrite Hu. cbn [length]. split_and!; [f_equal; lia|done|done|done|lia|done|done|done].
Qed.

Lemma used_bound (v : VqSpec.vq) : coherent v -> (length (used v) <= base.size (inflight v))%nat.
Proof. intros C. rewrite (VsockQueues.inflight_count v C). unfold ids. rewrite !length_app, length_fmap. lia. Qed.

(** [transmit] gives a token exactly when two descriptors are left for it next to
    the frames the device has not sent and the tokens that are out. *)
Lemma transmit_exact fuel bs total tokens (d : driver) s v :
  tx_inv bs total tokens d s v -> (total < fuel)%nat -> Z.of_nat total < 2 ^ 32 ->
  let b := (2 * (tokens + length (held v) + length (avail v)) + 2 <=? total)%nat in
  exists s' v' d', transmit fuel d = Done b d' /\ tx_inv bs total (if b then Datatypes.S tokens else tokens) d' s' v' /\
    used v' = [] /\ avail v' = avail v /\ held v' = held v.
Proof.
  intros [Hq Hb R H2 Ht Hc Hr] Hf Hw b. pose proof (used_bound v (repr_coherent _ _ R)) as Hle.
  destruct (poll_vq_run fuel 0 total s v R H2 Ht) as (s1 & v1 & E1 & R1 & H21 & Ht1 & Hf1 & Hu1 & Ha1 & Hh1); [lia|lia|lia|].
  set (n := Z.of_nat (length (used v))) in E1. rewrite Z.add_0_l in E1.
  set (d1 := set_capacity (send_capacity d + n * 2) (set_tx_vqs [s1] d)).
  assert (Efree : free_up_send_capacity fuel d = Done tt d1).
  { unfold free_up_send_capacity, tx_poll, bind. rewrite Hq. cbn [poll_all]. rewrite E1. unfold modify. cbn [send_capacity set_tx_vqs].
    unfold BUFF_PER_PACKET. by rewrite (wrapu_small 32 (n * 2)), wrapu_small by lia. }
  assert (Hcnt : (2 * (length (held v) + length (avail v)) + free v1 = total)%nat).
  { rewrite <- Ht1, (VsockQueues.inflight_count v1 (repr_coherent _ _ R1)). unfold ids. rewrite Hu1, Ha1, Hh1, !length_app. cbn. lia. }
  unfold transmit. rewrite (bind_run _ _ _ _ _ Efree). unfold take_capacity. erewrite bind_run by reflexivity.
  change (send_capacity d1) with (send_capacity d + n * 2).
  replace (send_capacity d + n * 2 <? BUFF_PER_PACKET) with (negb b); cycle 1.
  { unfold b, BUFF_PER_PACKET. destruct (Nat.leb_spec (2 * (tokens + length (held v) + length (avail v)) + 2) total), (Z.ltb_spec (send_capacity d + n * 2) 2);
      cbn; lia. }
  exists s1, v1. destruct b eqn:Eb; cbn [negb].
  - eexists. split; [reflexivity|]. split; [|done]. unfold b in Eb. apply Nat.leb_le in Eb.
    split; cbn; unfold BUFF_PER_PACKET; try done; lia.
  - exists d1. split; [reflexivity|]. split; [|done]. split; cbn; try done; lia.
Qed.

(** The lengths in the header of an IP packet are those of the frame around it. *)
Definition well_framed (frame : list Z) : bool :=
  let pkt := eth_payload frame in
  match ethertype frame with
  | Ipv4 => (ip4_header_len pkt <=? ip4_total_len pkt) && (ip4_total_len pkt <=? Z.of_nat (length pkt))
  | Ipv6 => (ip6_header_len pkt <=? ip6_total_len pkt) && (ip6_total_len pkt <=? Z.of_nat (length pkt))
  | _ => true
  end.

Lemma request_run caps frame : well_framed frame = true ->
  exists req frame', forall d : driver, should_request_checksum caps frame d = Done (req, frame') d.
Proof.
  unfold well_framed, should_request_checksum. intros Hw. destruct (tx (tcp caps) && tx (udp caps)); [by eexists _, _|].
  destruct (ethertype frame); try (by eexists _, _); cbn zeta in Hw |- *; rewrite Hw; cbn [assert_];
    destruct (is_tcp _ && _); try (by eexists _, _); destruct (is_udp _ && _); by eexists _, _.
Qed.

(** The header for what [should_request_checksum] answers. *)
Definition request_hdr (req : option (Z * Z)) : Hdr :=
  match req with
  | Some (ip_header_len, csum_offset) => mkHdr true false (wrapu 16 (ETHERNET_HEADER_LEN + ip_header_len)) csum_offset 0
  | None => Hdr_default
  end.

(** With a token the frame goes to the device, behind its header. *)
Lemma tx_consume_run bs total tokens (d : driver) s v frame req frame' :
  tx_inv bs total (Datatypes.S tokens) d s v -> Z.of_nat (length frame) <= bs <= u32_max ->
  (forall d0 : driver, should_request_checksum (checksums d) frame d0 = Done (req, frame') d0) ->
  exists s' v' d' id header packet, tx_consume alloc_at frame d = Done tt d' /\ tx_inv bs total tokens d' s' v' /\
    avail v' = avail v ++ [id] /\ used v' = used v /\ held v' = held v /\
    inflight v' !! id = Some (mkTransfer (mkToken [Sized header HDR_SIZE; Vector packet (Z.of_nat (length frame)) (Z.of_nat (length frame))] []) None) /\
    hdrs d' !! header = Some (request_hdr req) /\ packets d' !! packet = Some frame'.
Proof.
  intros [Hq Hb R H2 Ht Hc Hr] [Hl Hbs] Hreq. set (len := Z.of_nat (length frame)) in *.
  set (packet := alloc_at (allocated d)). set (header := alloc_at (allocated d + 1)).
  set (tkn := mkToken [Sized header HDR_SIZE; Vector packet len len] []).
  assert (Htk : token_ok tkn) by (split; cbn; repeat constructor; cbn; unfold HDR_SIZE, u32_max in *; lia).
  destruct (dispatch_law s v tkn Direct 0 R Htk) as (r & s1 & v1 & E & St & R1). rewrite transfer_direct in St.
  inversion St as [? tk0 id Hn Hid|? tk0 ? Hn ?| | | | | |]; subst r; subst tk0; cbn in Hn; [|lia].
  set (d1 := set_buffers (hdrs d) (packets d) (allocated d + 1 + 1) d).
  set (d2 := set_buffers (<[header := request_hdr req]> (hdrs d)) (<[packet := frame']> (packets d)) (allocated d + 1 + 1) d).
  exists s1, v1, (set_tx_vqs [s1] d2), id, header, packet. subst v1.
  split_and!; cycle 1; [|reflexivity|reflexivity|reflexivity|apply lookup_insert_eq|apply lookup_insert_eq|apply lookup_insert_eq|].
  { split; [done|done|exact R1| |cbn; rewrite map_size_insert_None by done; lia|cbn; lia|done].
    intros i tk. cbn [inflight]. destruct (decide (i = id)) as [->|Hne]; [rewrite lookup_insert_eq; by intros [= <-]|].
    rewrite lookup_insert_ne by done. apply H2. }
  unfold tx_consume. erewrite bind_run by reflexivity. fold len. rewrite (proj2 (Z.leb_le _ _)) by lia.
  erewrite bind_run by reflexivity. erewrite bind_run by reflexivity. erewrite bind_run by reflexivity.
  rewrite (bind_run _ _ _ _ _ (Hreq d1)). cbv iota beta. fold (request_hdr req). erewrite bind_run by reflexivity.
  cbn [AvailBufferToken_new]. fold packet header tkn.
  by erewrite bind_run by (eapply (on_tx_run _ d2); [exact Hq|exact E]).
Qed.

(** A token that is dropped gives its descriptors back. *)
Lemma drop_token_run bs total tokens (d : driver) s v :
  tx_inv bs total (Datatypes.S tokens) d s v -> Z.of_nat total < 2 ^ 32 ->
  exists d', drop_tx_token d = Done tt d' /\ tx_inv bs total tokens d' s v.
Proof.
  intros [Hq Hb R H2 Ht Hc Hr] Hw. exists (set_capacity (send_capacity d + 2) d). split.
  - unfold drop_tx_token, modify, BUFF_PER_PACKET. by rewrite wrapu_small by lia.
  - split; cbn; try done; lia.
Qed.

(** The calls on the send side, and the device. *)
Inductive tx_op : Type :=
  | Transmit
  | Consume (frame : list Z)
  | DropToken
  | Device (acts : list act).

(** One of them, with [k] tokens handed out; what needs a token does nothing
    without one. *)
Definition tx_step (fuel : nat) (o : tx_op) (k : nat) : M driver nat :=
  match o, k with
  | Transmit, _ => let! b := transmit fuel in ret (if b then Datatypes.S k else k)
  | Consume frame, Datatypes.S k => do! tx_consume alloc_at frame in ret k
  | DropToken, Datatypes.S k => do! drop_tx_token in ret k
  | Device acts, _ => do! on_tx 0 (device_acts acts) in ret k
  | _, O => ret O
  end.
Fixpoint tx_run (fuel : nat) (l : list tx_op) (k : nat) : M driver nat :=
  match l with [] => ret k | o :: l => let! k := tx_step fuel o k in tx_run fuel l k end.

Definition tx_op_ok (bs : Z) (o : tx_op) : Prop :=
  match o with
  | Consume frame => Z.of_nat (length frame) <= bs /\ well_framed frame = true
  | Device acts => Forall act_ok acts
  | _ => True
  end.

Lemma tx_step_inv fuel bs total o k (d : driver) s v :
  tx_inv bs total k d s v -> tx_op_ok bs o -> (total < fuel)%nat -> Z.of_nat total < 2 ^ 32 -> bs <= u32_max ->
  exists k' d' s' v', tx_step fuel o k d = Done k' d' /\ tx_inv bs total k' d' s' v'.
Proof.
  intros I Ho Hf Hw Hbs. destruct o as [|frame| |acts]; cbn [tx_step].
  - destruct (transmit_exact fuel bs total k d s v I Hf Hw) as (s1 & v1 & d1 & E & I1 & _). rewrite (bind_run _ _ _ _ _ E).
    by eexists _, d1, s1, v1.
  - destruct k as [|k]; [by exists 0%nat, d, s, v|]. destruct Ho as [Hl Hfr].
    destruct (request_run (checksums d) frame Hfr) as (req & frame' & Hreq).
    destruct (tx_consume_run bs total k d s v frame req frame' I (conj Hl Hbs) Hreq) as (s1 & v1 & d1 & ? & ? & ? & E & I1 & _).
    rewrite (bind_run _ _ _ _ _ E). by exists k, d1, s1, v1.
  - destruct k as [|k]; [by exists 0%nat, d, s, v|]. destruct (drop_token_run bs total k d s v I Hw) as (d1 & E & I1).
    rewrite (bind_run _ _ _ _ _ E). by exists k, d1, s, v.
  - destruct I as [Hq Hb R H2 Ht Hc Hr]. destruct (acts_keep acts s v R Ho) as (s1 & v1 & E & R1 & Hi & Hfr).
    erewrite bind_run by (eapply on_tx_run; [exact Hq|exact E]). exists k, (set_tx_vqs [s1] d), s1, v1. split; [done|].
    split; cbn; rewrite ?Hi, ?Hfr; done.
Qed.

(** C14: In whatever order the network stack asks for tokens, sends frames with them
    or drops them, and whatever the device does in between, no call on the send
    side panics or overcommits the queue: the capacity the driver keeps is always
    the number of free descriptors less two for each token that is out. *)
Theorem net_tx_budget fuel bs total l k (d : driver) s v :
  tx_inv bs total k d s v -> Forall (tx_op_ok bs) l -> (total < fuel)%nat -> Z.of_nat total < 2 ^ 32 -> bs <= u32_max ->
  exists k' d' s' v', tx_run fuel l k d = Done k' d' /\ tx_inv bs total k' d' s' v'.
Proof.
  intros I Hl Hf Hw Hbs. revert k d s v I. induction Hl as [|o l Ho _ IH]; intros k d s v I; [by exists k, d, s, v|].
  destruct (tx_step_inv fuel bs total o k d s v I Ho Hf Hw Hbs) as (k1 & d1 & s1 & v1 & E & I1). cbn [tx_run].
  rewrite (bind_run _ _ _ _ _ E). by apply (IH k1 d1 s1 v1).
Qed.

(** ** Set-up *)

(** Filling a new queue: two descriptors for each buffer. *)
Lemma fill_run bs n : forall (d : driver) s v k f,
  0 <= bs <= u32_max -> (2 * n <= f)%nat -> repr s v -> stocked bs k f v -> used v = [] -> held v = [] ->
  exists s' v' m, fill_queue alloc_at s n bs d = Done s' (set_buffers (hdrs d) (packets d) m d) /\ repr s' v' /\
    stocked bs (n + k) (f - 2 * n) v' /\ used v' = [] /\ held v' = [].
Proof.
  induction n as [|n IH]; intros d s v k f Hp Hf R Hs Hu Hh.
  { exists s, v, (allocated d). rewrite Nat.sub_0_r. split_and!; [by destruct d|done|done|done|done]. }
  cbn [fill_queue]. set (hdr := alloc_at (allocated d)). set (vec := alloc_at (allocated d + 1)).
  destruct (dispatch_law s v (recv_token hdr vec bs) Direct 0 R (net_recv_token_ok _ _ _ Hp)) as (r & s1 & v1 & E & St & R1).
  rewrite transfer_direct in St. destruct Hs as [H1 H2 H3].
  inversion St as [? tk0 id Hn Hid|? tk0 ? Hn ?| | | | | |]; subst r; subst tk0; cbn in Hn; [|lia]. subst v1.
  set (d1 := set_buffers (hdrs d) (packets d) (allocated d + 1 + 1) d).
  destruct (IH d1 s1 _ (Datatypes.S k) (f - 2)%nat Hp ltac:(lia) R1) as (s2 & v2 & m & E2 & R2 & S2 & Hu2 & Hh2).
  - split; cbn; [by rewrite map_size_insert_None by done; rewrite H1| |by rewrite H3].
    intros i tk. destruct (decide (i = id)) as [->|Hne]; [rewrite lookup_insert_eq; intros [= <-]; by eexists _, _|].
    rewrite lookup_insert_ne by done. apply H2.
  - done.
  - done.
  - exists s2, v2, m. split_and!; [|done| |done|done].
    + erewrite bind_run by reflexivity. erewrite bind_run by reflexivity. fold hdr vec. change (mkToken [] _) with (recv_token hdr vec bs).
      rewrite E. exact E2.
    + replace (Datatypes.S n + k)%nat with (n + Datatypes.S k)%nat by lia. by replace (f - 2 * Datatypes.S n)%nat with (f - 2 - 2 * n)%nat by lia.
Qed.

Lemma empty_stocked bs n : stocked bs 0 n (VqSpec.empty n).
Proof. by split. Qed.

Lemma rx_add_run bs n (d : driver) s : 0 <= bs <= u32_max -> rx_buf_size (recv_vqs d) = bs -> rx_vqs (recv_vqs d) = [] ->
  repr s (VqSpec.empty n) ->
  exists s' v' m, rx_add alloc_at s (Z.of_nat n) d = Done tt (rx_upd s' m d) /\ repr s' v' /\
    stocked bs (n / 2) (n mod 2) v' /\ used v' = [] /\ held v' = [].
Proof.
  intros Hp Hb Hq R. pose proof (Nat.div_mod_eq n 2) as Hn.
  destruct (fill_run bs (n / 2) d s _ 0 n Hp ltac:(lia) R (empty_stocked bs n) eq_refl eq_refl) as (s1 & v1 & m & E & R1 & S1 & Hu & Hh).
  exists s1, v1, m. split_and!; [|done| |done|done].
  - unfold rx_add, BUFF_PER_PACKET. erewrite bind_run by reflexivity. rewrite Hb.
    replace (Z.to_nat (Z.of_nat n / 2)) with (n / 2)%nat by (change 2 with (Z.of_nat 2); by rewrite <- Nat2Z.inj_div, Nat2Z.id).
    rewrite (bind_run _ _ _ _ _ E). unfold modify. cbn [recv_vqs set_buffers]. by rewrite Hq.
  - replace (n mod 2)%nat with (n - 2 * (n / 2))%nat by lia. by rewrite Nat.add_0_r in S1.
Qed.

Section Init.
Context {C : Type}.
Variable new_vq : bool -> Z -> Z -> M C (Result VirtqError (S * Z)).
Variable notify_dev : S -> M C unit.
Lemma new_queue_run packed i (c c' : C) (d : driver) q :
  new_vq packed 2048 i c = Done (Ok q) c' -> new_queue new_vq packed i (c, d) = Done q (c', d).
Proof. intros E. unfold new_queue, bind, on_com, zoom, VIRTIO_MAX_QUEUE_SIZE. cbn [fst]. by rewrite E. Qed.

Lemma on_drv_run {A} (m : M driver A) (c : C) (d d' : driver) a : m d = Done a d' -> on_drv m (c, d) = Done a (c, d').
Proof. intros E. unfold on_drv, zoom. cbn [snd fst]. by rewrite E. Qed.

(** A new driver is ready: its receive queue is full of buffers and its budget
    for sending is the whole queue; a device of [MQ] has to offer at least one
    pair, and fewer than 0x8000.  The transport gives a queue for each of the
    two indices, the second one after the notifications of the first. *)
Lemma virtqueue_init_ready (c c1 : C) (d : driver) bs s1 n1 n3 (P : S -> C -> Prop) :
  let packed := RING_PACKED (features (dev_cfg d)) in
  new_vq packed 2048 0 c = Done (Ok (s1, Z.of_nat n1)) c1 -> repr s1 (VqSpec.empty n1) ->
  (forall s, exists c2 c3 s3, notify_dev s c1 = Done tt c2 /\ new_vq packed 2048 1 c2 = Done (Ok (s3, Z.of_nat n3)) c3 /\
     repr s3 (VqSpec.empty n3) /\ P s c3) -> Z.of_nat n3 <= 2048 ->
  0 <= bs <= u32_max -> rx_buf_size (recv_vqs d) = bs -> rx_vqs (recv_vqs d) = [] -> tx_vqs (send_vqs d) = [] -> send_capacity d = 0 ->
  (MQ (features (dev_cfg d)) = true -> 1 <= cfg_max_virtqueue_pairs (dev_cfg d) < 32768) ->
  exists c3 d' r1 v1 r3, virtqueue_init alloc_at new_vq notify_dev (c, d) = Done tt (c3, d') /\ P r1 c3 /\
    rx_vqs (recv_vqs d') = [r1] /\ rx_buf_size (recv_vqs d') = bs /\ repr r1 v1 /\ stocked bs (n1 / 2) (n1 mod 2) v1 /\ used v1 = [] /\
    tx_inv (tx_buf_size (send_vqs d)) n3 0 d' r3 (VqSpec.empty n3) /\ dev_cfg d' = dev_cfg d /\ num_vqs d' = 2.
Proof.
  intros packed E1 R1 E23 Hn3 Hp Hb Hrx Htx Hc Hmq.
  set (d0 := set_ctrl (ctrl_vq d) 2 d).
  destruct (enable_law s1 _ R1) as (s1' & E1' & R1').
  destruct (rx_add_run bs n1 d0 s1' Hp Hb Hrx R1') as (s2 & v2 & m & E2 & R2 & S2 & Hu2 & _).
  destruct (E23 s2) as (c2 & c3 & s3 & Ec & E3 & R3 & HP).
  destruct (disable_law s3 _ R3) as (s3' & E3' & R3').
  set (d2 := rx_upd s2 m d0) in E2.
  exists c3, (set_tx_vqs [s3'] (set_capacity (Z.of_nat n3) d2)), s2, v2, s3'. split_and!; [|done|done|done|done|done|done| |done|done].
  - unfold virtqueue_init. erewrite bind_run by reflexivity. cbn [snd dev_cfg].
    replace (if MQ (features (dev_cfg d)) then _ else 2) with 2; cycle 1.
    { destruct (MQ (features (dev_cfg d))); [|done]. specialize (Hmq eq_refl). rewrite wrapu_small by lia. unfold MAX_NUM_VQ.
      by rewrite (proj2 (Z.leb_le _ _)) by lia. }
    erewrite bind_run by reflexivity. erewrite bind_run by reflexivity. change (seqZ 0 (2 / 2)) with [0]. cbn [queue_pairs].
    erewrite bind_run by reflexivity. cbn [snd].
    erewrite bind_run by (apply new_queue_run; exact E1).
    cbv iota beta. erewrite bind_run by (unfold notifs; rewrite E1'; reflexivity).
    erewrite bind_run by (apply on_drv_run; exact E2).
    erewrite (bind_run (notify_filled notify_dev) _ _ tt (c2, d2)) by (unfold notify_filled, bind, get, on_com, zoom; cbn; by rewrite Ec).
    erewrite bind_run by (apply new_queue_run; exact E3).
    cbv iota beta. erewrite bind_run by (unfold notifs; rewrite E3'; reflexivity).
    erewrite bind_run by reflexivity. erewrite bind_run by reflexivity. unfold ret. do 2 f_equal. cbn. rewrite Hc, Htx.
    by rewrite wrapu_small by lia.
  - by split; cbn; try done; try lia; intros id tk Hi; rewrite lookup_empty in Hi.
Qed.

(** With 0x8000 pairs the number of queues wraps to none. *)
Lemma pairs_wrap (c : C) (d : driver) :
  MQ (features (dev_cfg d)) = true -> cfg_max_virtqueue_pairs (dev_cfg d) = 32768 ->
  virtqueue_init alloc_at new_vq notify_dev (c, d) = Done tt (c, set_ctrl (ctrl_vq d) 0 d).
Proof. intros E1 E2. unfold virtqueue_init. erewrite bind_run by reflexivity. cbn [snd]. rewrite E1, E2. reflexivity. Qed.
End Init.
End Props.

(** ** On split queues *)

#[local] Existing Instances SplitVq.split_queue SplitProps.split_laws.

Lemma net_split_direct t table : VqSpec.transfer (S := SplitVq.ring) t Direct table = mkTransfer t None.
Proof. done. Qed.

(** A stack that takes every frame; the number of buffers is the tenth byte
    of the header. *)
#[local] Instance demo_wire : Wire := {|
  eth_checked _ := true; ethertype _ := Arp; eth_payload l := drop 14 l; set_eth_payload p l := take 14 l ++ p;
  ip4_checked _ := false; ip4_verify_checksum _ := false; more_frags _ := false; frag_offset _ := 0;
  ip4_next_header _ := OtherIp 0; ip4_protocol _ := 0; ip4_header_len _ := 20; ip4_total_len _ := 20;
  ip4_payload l := drop 20 l; ip4_src _ := []; ip4_dst _ := [];
  ip6_checked _ := false; ip6_next_header _ := OtherIp 0; ip6_protocol _ := 0; ip6_header_len _ := 40;
  ip6_total_len _ := 40; ip6_payload_len _ := 0; ip6_payload l := drop 40 l; ip6_src _ := []; ip6_dst _ := [];
  tcp_checked _ := false; tcp_verify _ _ _ := false; tcp_set_checksum _ l := l;
  udp_checked _ := false; udp_verify _ _ _ := false; udp_set_checksum _ l := l;
  read_hdr l := mkHdr false true 0 0 (nth 10 l 0);
|}.
Definition demo_features : NetF := mkNetF true true false false false false true false false false false false false false false.
Definition demo_cfg : NetDevCfg := mkCfg [2; 0; 0; 0; 0; 1] 0 1 1500 5 demo_features.
(** The memory after the device wrote; its headers announce two buffers. *)
Definition demo_net_mem (a : Z) : Z := 2.
Definition demo_driver (rxs txs : list SplitVq.ring) (cap : Z) : driver :=
  mkDriver demo_cfg 1500 None (mkRxQ rxs 1514) (mkTxQ txs 1514) cap 2 (mkCaps CNone CNone) demo_net_mem ∅ ∅ 0 0.

(** Two used buffers of 1526 and 300 bytes, out of the eight of a queue. *)
Lemma demo_used : exists (s : SplitVq.ring) v i j, SplitProps.repr s v /\ stocked 1514 8 0 v /\ used v = [(i, 1526); (j, 300)].
Proof.
  destruct (SplitProps.new_repr 16 16 0) as (s0 & _ & R0); [lia|exists 4096; reflexivity|].
  destruct (fill_run (fun k => 4096 * k) net_split_direct 1514 8 (demo_driver [] [] 0) s0 (VqSpec.empty 16) 0 16) as (s1 & v1 & m & _ & R1 & S1 & U1 & H1);
    [by vm_compute|lia|exact R0|apply empty_stocked|done|done|].
  destruct (served (fun k => 4096 * k) net_split_direct 1514 8 0 s1 v1 1526 R1 S1 H1) as (s2 & v2 & i & R2 & S2 & H2 & U2); [rewrite U1; cbn; lia|by vm_compute|].
  destruct (served (fun k => 4096 * k) net_split_direct 1514 8 0 s2 v2 300 R2 S2 H2) as (s3 & v3 & j & R3 & S3 & _ & U3); [rewrite U2, U1; cbn; lia|by vm_compute|].
  exists s3, v3, i, j. rewrite U3, U2, U1. by split_and!.
Qed.

Lemma net_rx_frame_witness : exists (d : driver) frame d' s', rx_consume (fun k => 4096 * k) d = Done frame d' /\
  length frame = 1814%nat /\ rx_vqs (recv_vqs d') = [s'].
Proof.
  destruct demo_used as (s & v & i & j & R & Hs & U).
  destruct (net_rx_frame (fun k => 4096 * k) net_split_direct 1514 8 0 (demo_driver [s] [] 0) s v i 1526 [(j, 300)] []
    ltac:(by vm_compute) eq_refl eq_refl R Hs U ltac:(by vm_compute) eq_refl) as (s' & v' & n & E & _).
  exists (demo_driver [s] [] 0). eexists _, _, s'. split; [exact E|]. split; [|reflexivity].
  cbn [checksums demo_driver]. unfold is_ethernet_frame_passable, frame_of, first_part, next_part, bytes_at. cbn.
  rewrite app_nil_r, !length_app, !length_fmap. reflexivity.
Defined.

Lemma net_tx_budget_witness : exists (d : driver) k' d',
  tx_run (fun k => 4096 * k) 9 [Transmit; Consume [1; 2; 3]; Device [AServe 0]; Transmit; Transmit; DropToken] 0 d = Done k' d'.
Proof.
  destruct (SplitProps.new_repr 8 8 0) as (s0 & _ & R0); [lia|exists 8192; reflexivity|].
  destruct (net_tx_budget (fun k => 4096 * k) net_split_direct 9 1514 8
    [Transmit; Consume [1; 2; 3]; Device [AServe 0]; Transmit; Transmit; DropToken] 0 (demo_driver [] [s0] 8) s0 (VqSpec.empty 8))
    as (k' & d' & s' & v' & E & _).
  - by split.
  - repeat constructor; vm_compute; discriminate.
  - lia.
  - by vm_compute.
  - by vm_compute.
  - exists (demo_driver [] [s0] 8), k', d'. exact E.
Defined.
End NetProps.
