(* ===== verification/Gem.v ===== *)
(** The driver of the Cadence Gigabit Ethernet controller,
    [src/src/drivers/net/gem.rs]: the descriptor rings, the tokens, the
    interrupt handler, the bus to the physical layer and the set-up.  The
    registers are a type class, accessed by their offset; the crate
    [tock_registers] is a second one, for what it does with bit fields. *)

From S2P Require Import Prelude Errors.

Module Gem.

(** ** Registers *)

Definition network_control : Z := 0x000.
Definition network_config : Z := 0x004.
Definition network_status : Z := 0x008.
Definition dma_config : Z := 0x010.
Definition transmit_status : Z := 0x014.
Definition rx_qbar : Z := 0x018.
Definition tx_qbar : Z := 0x01c.
Definition receive_status : Z := 0x020.
Definition int_status : Z := 0x024.
Definition int_enable : Z := 0x028.
Definition int_disable : Z := 0x02c.
Definition phy_maintenance : Z := 0x034.
Definition spec_add1_bottom : Z := 0x088.
Definition spec_add1_top : Z := 0x08c.

(** [OFFSET] and [NUMBITS] of a field. *)
Record field : Set := Field { shift : nat; width : nat }.
Module NetworkControl.
Definition STARTTX : field := Field 9 1.
Definition STATCLR : field := Field 5 1.
Definition MDEN : field := Field 4 1.
Definition TXEN : field := Field 3 1.
Definition RXEN : field := Field 2 1.
End NetworkControl.
Module NetworkConfig.
Definition RXCHKSUMEN : field := Field 24 1.
Definition MDCCLKDIV : field := Field 18 3.
Definition CLK_DIV64 : Z := 4.
Definition FCSREM : field := Field 17 1.
Definition PAUSEEN : field := Field 13 1.
Definition GIGEEN : field := Field 10 1.
Definition MCASTHASHEN : field := Field 6 1.
Definition BCASTDI : field := Field 5 1.
Definition FDEN : field := Field 1 1.
End NetworkConfig.
Module DMAConfig.
Definition RXBUF : field := Field 16 8.
Definition TCPCKSUM : field := Field 11 1.
Definition TXSIZE : field := Field 10 1.
Definition RXSIZE : field := Field 8 2.
Definition FULL_ADDRESSABLE_SPACE : Z := 3.
Definition ENDIAN : field := Field 7 1.
Definition BLENGTH : field := Field 0 5.
Definition INCR16 : Z := 16.
End DMAConfig.
Module PHYMaintenance.
Definition CLAUSE_22 : field := Field 30 1.
Definition OP : field := Field 28 2.
Definition READ : Z := 2.
Definition WRITE : Z := 1.
Definition ADDR : field := Field 23 5.
Definition REG : field := Field 18 5.
Definition MUST_10 : field := Field 16 2.
Definition MUST_BE_10 : Z := 2.
Definition DATA : field := Field 0 16.
End PHYMaintenance.
Definition PHY_MGMT_IDLE : field := Field 2 1.
Definition RS_FRAMERX : field := Field 1 1.
Definition TS_TXCOMPL : field := Field 5 1.
Definition INT_TXCOMPL : field := Field 7 1.
Definition INT_FRAMERX : field := Field 1 1.

(** [PhyReg], [PhyStatus], [PhyControl] *)
Inductive PhyReg : Set := Control | Status | ANLinkPartnerAbility.
Definition phy_reg (r : PhyReg) : Z := match r with Control => 0 | Status => 1 | ANLinkPartnerAbility => 5 end.
Definition ANCompleteMask : Z := 0x20.
Definition ANCapMask : Z := 0x4.
Definition ANEnableMask : Z := 0x1000.

Definition RX_BUF_LEN : Z := 1600.
Definition RX_BUFFER_MULTIPLE : Z := 64.
Definition RX_BUF_NUM : Z := 64.
Definition TX_BUF_LEN : Z := 1600.
Definition TX_BUF_NUM : Z := 1.
Definition TX_DESC_LAST : Z := Z.shiftl 1 15.
Definition TX_DESC_WRAP : Z := Z.shiftl 1 30.
Definition TX_DESC_USED : Z := Z.shiftl 1 31.

Inductive GEMError : Set := NoPhyFound | Unknown.

(** The registers, 32 bits each, at their offsets. *)
Class Registers (D : Type) : Type := {
  rd : Z -> M D Z;
  wr : Z -> Z -> M D unit;
}.
(** A word with another value in a field, and the value of a field. *)
Class Bitfields : Type := {
  put : field -> Z -> Z -> Z;
  read_field : field -> Z -> Z;
}.
Definition is_set `{Bitfields} (f : field) (w : Z) : bool := negb (read_field f w =? 0).

(** ** Memory both sides access *)

(** Bytes by their offset in a buffer. *)
Definition bytes (m : Z -> Z) (off n : Z) : list Z := m <$> seqZ off n.
Definition blit (m : Z -> Z) (off : Z) (l : list Z) : Z -> Z :=
  fun a => if (off <=? a) && (a <? off + Z.of_nat (length l)) then nth (Z.to_nat (a - off)) l 0 else m a.
(** The two words of a descriptor. *)
Definition desc : Type := Z * Z.
Definition word0 (l : list desc) (i : Z) : Z := (nth (Z.to_nat i) l (0, 0)).1.
Definition word1 (l : list desc) (i : Z) : Z := (nth (Z.to_nat i) l (0, 0)).2.
Definition set_word0 (i x : Z) (l : list desc) : list desc := <[Z.to_nat i := (x, word1 l i)]> l.
Definition set_word1 (i x : Z) (l : list desc) : list desc := <[Z.to_nat i := (word0 l i, x)]> l.

Record RxFields : Type := mkRx { rxbuffer : Z -> Z; rxbuffer_list : list desc; rxbuffer_reserved : list bool }.
Record TxFields : Type := mkTx { txbuffer : Z -> Z; txbuffer_list : list desc; txbuffer_reserved : list bool }.

Section Driver.
Context {D : Type} `{Registers D} `{Bitfields}.

(** [wakes] counts the calls of [wake_network_waker]. *)
Record GEMDriver : Type := mkDriver {
  gem : D; mtu : Z; mac : list Z; rx_counter : Z; rx_fields : RxFields; tx_counter : Z; tx_fields : TxFields; wakes : Z }.
Definition set_gem (x : D) (d : GEMDriver) : GEMDriver :=
  mkDriver x (mtu d) (mac d) (rx_counter d) (rx_fields d) (tx_counter d) (tx_fields d) (wakes d).
Definition set_rx (n : Z) (x : RxFields) (d : GEMDriver) : GEMDriver :=
  mkDriver (gem d) (mtu d) (mac d) n x (tx_counter d) (tx_fields d) (wakes d).
Definition set_tx (n : Z) (x : TxFields) (d : GEMDriver) : GEMDriver :=
  mkDriver (gem d) (mtu d) (mac d) (rx_counter d) (rx_fields d) n x (wakes d).
Definition set_rx_list (f : list desc -> list desc) (d : GEMDriver) : GEMDriver :=
  let r := rx_fields d in set_rx (rx_counter d) (mkRx (rxbuffer r) (f (rxbuffer_list r)) (rxbuffer_reserved r)) d.
Definition set_tx_list (f : list desc -> list desc) (d : GEMDriver) : GEMDriver :=
  let t := tx_fields d in set_tx (tx_counter d) (mkTx (txbuffer t) (f (txbuffer_list t)) (txbuffer_reserved t)) d.
Definition set_tx_mem (f : (Z -> Z) -> Z -> Z) (d : GEMDriver) : GEMDriver :=
  let t := tx_fields d in set_tx (tx_counter d) (mkTx (f (txbuffer t)) (txbuffer_list t) (txbuffer_reserved t)) d.

Definition on_gem {A} (m : M D A) : M GEMDriver A := zoom gem set_gem m.
(** [modify] of a register. *)
Definition modify_reg (r : Z) (f : field) (v : Z) : M D unit := let! w := rd r in wr r (put f v w).

(** [b[i] = x] on a boxed slice. *)
Definition put_bool {S} (i : Z) (x : bool) (l : list bool) : M S (list bool) :=
  match l !! Z.to_nat i with Some _ => ret (<[Z.to_nat i := x]> l) | None => panic "index out of bounds" end.

(** ** Interrupts *)

Definition set_polling_mode (value : bool) : M GEMDriver unit :=
  on_gem (if value then wr int_disable 0x7fffeff else wr int_enable (put INT_FRAMERX 1 0)).

(** [TxFields::handle_interrupt] *)
Definition tx_handle_interrupt : M D unit :=
  let! ints := rd int_status in
  let! rs := rd receive_status in
  let! ts := rd transmit_status in
  do! (if is_set TS_TXCOMPL ts then
         do! wr int_status (put INT_TXCOMPL 1 ints) in
         do! wr transmit_status (put TS_TXCOMPL 1 ts) in
         modify_reg network_control NetworkControl.TXEN 0
       else ret tt) in
  if is_set INT_FRAMERX ints && is_set RS_FRAMERX rs then
    do! wr int_status (put INT_FRAMERX 1 ints) in
    wr receive_status (put RS_FRAMERX 1 rs)
  else ret tt.

Definition handle_interrupt : M GEMDriver unit :=
  do! on_gem tx_handle_interrupt in
  modify (fun d => mkDriver (gem d) (mtu d) (mac d) (rx_counter d) (rx_fields d) (tx_counter d) (tx_fields d) (wakes d + 1)).

(** ** Rings *)

Fixpoint scan_rx (l : list Z) (d : GEMDriver) : option Z :=
  match l with
  | [] => None
  | i :: l =>
      let index := (i + rx_counter d) mod RX_BUF_NUM in
      if negb (Z.land (word0 (rxbuffer_list (rx_fields d)) index) 1 =? 0) then Some index else scan_rx l d
  end.
Definition next_rx_index (d : GEMDriver) : option Z := scan_rx (seqZ 0 RX_BUF_NUM) d.
Definition has_packet (d : GEMDriver) : bool := match next_rx_index d with Some _ => true | None => false end.

Fixpoint scan_tx (l : list Z) : M GEMDriver (option Z) :=
  match l with
  | [] => ret None
  | i :: l =>
      let! d := get in
      let index := (i + tx_counter d) mod TX_BUF_NUM in
      if negb (Z.land (word1 (txbuffer_list (tx_fields d)) index) TX_DESC_USED =? 0) then
        let! r := unwrap (txbuffer_reserved (tx_fields d) !! Z.to_nat i) "index out of bounds" in
        if negb r then ret (Some i) else scan_tx l
      else scan_tx l
  end.
Definition next_tx_index : M GEMDriver (option Z) := scan_tx (seqZ 0 TX_BUF_NUM).

Definition set_tx_reserved (i : Z) (b : bool) : M GEMDriver unit :=
  let! d := get in
  let t := tx_fields d in
  let! l := put_bool i b (txbuffer_reserved t) in
  modify (set_tx (tx_counter d) (mkTx (txbuffer t) (txbuffer_list t) l)).
Definition set_rx_reserved (i : Z) (b : bool) : M GEMDriver unit :=
  let! d := get in
  let r := rx_fields d in
  let! l := put_bool i b (rxbuffer_reserved r) in
  modify (set_rx (rx_counter d) (mkRx (rxbuffer r) (rxbuffer_list r) l)).

Definition reserve_tx_index (index : Z) : M GEMDriver unit :=
  do! modify (fun d => set_tx ((index + 1) mod TX_BUF_NUM) (tx_fields d) d) in
  set_tx_reserved index true.

(** ** Tokens *)

(** The buffers of the two tokens. *)
Definition receive : M GEMDriver (option (Z * Z)) :=
  let! d := get in
  match next_rx_index d with
  | None => ret None
  | Some rx_index =>
      let! o := next_tx_index in
      match o with
      | None => ret None
      | Some tx_index =>
          do! reserve_tx_index tx_index in
          do! modify (fun d => set_rx ((rx_index + 1) mod RX_BUF_NUM) (rx_fields d) d) in
          do! set_rx_reserved rx_index true in
          ret (Some (rx_index, tx_index))
      end
  end.

Definition transmit : M GEMDriver (option Z) :=
  do! handle_interrupt in
  let! o := next_tx_index in
  match o with
  | None => ret None
  | Some index => do! reserve_tx_index index in ret (Some index)
  end.

Definition max_burst_size : Z := Z.max TX_BUF_NUM RX_BUF_NUM.

Definition rx_buffer_consumed (buffer_index : Z) : M GEMDriver unit :=
  do! modify (set_rx_list (set_word1 buffer_index 0)) in
  modify (set_rx_list (fun l => set_word0 buffer_index (Z.land (word0 l buffer_index) 0xfffffffe) l)).

Definition drop_rx_token (buffer_index : Z) : M GEMDriver unit := set_rx_reserved buffer_index false.
Definition drop_tx_token (buffer_index : Z) : M GEMDriver unit := set_tx_reserved buffer_index false.

(** [RxToken::consume]: the bytes the closure is given; the token is dropped at
    the end. *)
Definition rx_consume (buffer_index : Z) : M GEMDriver (list Z) :=
  let! d := get in
  let length := Z.land (word1 (rxbuffer_list (rx_fields d)) buffer_index) 0x1fff in
  let buffer := bytes (rxbuffer (rx_fields d)) (buffer_index * RX_BUF_LEN) length in
  do! rx_buffer_consumed buffer_index in
  do! drop_rx_token buffer_index in
  ret buffer.

(** [TxToken::consume] with the bytes the closure writes and what the device
    does, [dev], between the start of the transmission and the write that frees
    the descriptor; the token is dropped at the end. *)
Definition tx_consume (dev : M GEMDriver unit) (buffer_index : Z) (frame : list Z) : M GEMDriver unit :=
  let len := Z.of_nat (length frame) in
  do! assert_ (wrapu 32 len <=? TX_BUF_LEN) "TX buffer is too small" in
  do! on_gem tx_handle_interrupt in
  do! modify (set_tx_list (fun l => set_word1 buffer_index (Z.land (word1 l buffer_index) (wrapu 32 (Z.lnot TX_DESC_USED))) l)) in
  do! modify (set_tx_mem (fun m => blit m (buffer_index * TX_BUF_LEN) frame)) in
  do! modify (set_tx_list (fun l =>
    set_word1 buffer_index (Z.lor (Z.lor (Z.land (word1 l buffer_index) TX_DESC_WRAP) TX_DESC_LAST) (wrapu 32 len)) l)) in
  do! on_gem (modify_reg network_control NetworkControl.TXEN 1) in
  do! on_gem (modify_reg network_control NetworkControl.STARTTX 1) in
  do! dev in
  do! modify (set_tx_list (fun l => set_word1 buffer_index (Z.lor (word1 l buffer_index) TX_DESC_USED) l)) in
  drop_tx_token buffer_index.

(** [Drop for GEMDriver], up to the deallocations. *)
Definition drop_driver : M GEMDriver unit := on_gem (wr network_control 0).

(** ** The bus to the physical layer *)

(** The loop stops the model after [fuel] looks at the register. *)
Fixpoint wait_for_mdio (fuel : nat) : M D unit :=
  match fuel with
  | O => panic "no answer from the management interface"
  | Datatypes.S fuel => let! w := rd network_status in if is_set PHY_MGMT_IDLE w then ret tt else wait_for_mdio fuel
  end.

Definition maintenance (op addr reg : Z) : Z :=
  put PHYMaintenance.CLAUSE_22 1 (put PHYMaintenance.OP op (put PHYMaintenance.ADDR addr
    (put PHYMaintenance.REG reg (put PHYMaintenance.MUST_10 PHYMaintenance.MUST_BE_10 0)))).

Definition phy_read (fuel : nat) (addr : Z) (reg : PhyReg) : M D Z :=
  do! wait_for_mdio fuel in
  do! wr phy_maintenance (maintenance PHYMaintenance.READ addr (phy_reg reg)) in
  do! wait_for_mdio fuel in
  let! w := rd phy_maintenance in
  ret (wrapu 16 (read_field PHYMaintenance.DATA w)).

Definition phy_write (fuel : nat) (addr : Z) (reg : PhyReg) (data : Z) : M D unit :=
  do! wait_for_mdio fuel in
  do! wr phy_maintenance (put PHYMaintenance.DATA data (maintenance PHYMaintenance.WRITE addr (phy_reg reg))) in
  wait_for_mdio fuel.

(** ** Set-up *)

Section Init.
Variable fuel : nat.

Fixpoint find_phy (l : list Z) : M D (option Z) :=
  match l with
  | [] => ret None
  | i :: l =>
      let! r := phy_read fuel i Control in
      if (r =? 0xffff) || (r =? 0) then find_phy l else ret (Some i)
  end.

(** The wait for the negotiation, at most [n] reads. *)
Fixpoint wait_for_an (n : nat) (phy_addr : Z) : M D unit :=
  match n with
  | O => panic "auto-negotiation does not end"
  | Datatypes.S n =>
      let! r := phy_read fuel phy_addr Status in
      if Z.lor r ANCompleteMask =? 0 then wait_for_an n phy_addr else ret tt
  end.

Definition auto_negotiate (phy_addr : Z) : M D unit :=
  let! phy_status := phy_read fuel phy_addr Status in
  if Z.land phy_status ANCapMask =? 0 then ret tt
  else
    let! phy_control := phy_read fuel phy_addr Control in
    do! phy_write fuel phy_addr Control (Z.lor ANEnableMask phy_control) in
    do! wait_for_an fuel phy_addr in
    let! _partner_ability := phy_read fuel phy_addr ANLinkPartnerAbility in
    ret tt.

Definition init_controller (mac : list Z) : M D unit :=
  do! wr network_control 0 in
  do! modify_reg network_control NetworkControl.STATCLR 1 in
  do! wr receive_status 0x0f in
  do! wr transmit_status 0x0f in
  do! wr int_disable 0x7fffeff in
  do! wr rx_qbar 0 in
  do! wr tx_qbar 0 in
  do! modify_reg network_config NetworkConfig.FDEN 1 in
  do! modify_reg network_config NetworkConfig.GIGEEN 1 in
  let! w := rd network_config in
  do! wr network_config (put NetworkConfig.BCASTDI 0 (put NetworkConfig.MCASTHASHEN 1 w)) in
  do! modify_reg network_config NetworkConfig.RXCHKSUMEN 1 in
  do! modify_reg network_config NetworkConfig.PAUSEEN 1 in
  do! modify_reg network_config NetworkConfig.MDCCLKDIV NetworkConfig.CLK_DIV64 in
  do! modify_reg network_config NetworkConfig.FCSREM 1 in
  let b i := nth i mac 0 in
  do! wr spec_add1_bottom (Z.shiftl (b 3%nat) 24 + Z.shiftl (b 2%nat) 16 + Z.shiftl (b 1%nat) 8 + b 0%nat) in
  do! wr spec_add1_top (Z.shiftl (b 5%nat) 8 + b 4%nat) in
  do! modify_reg dma_config DMAConfig.RXBUF (RX_BUF_LEN / RX_BUFFER_MULTIPLE) in
  do! modify_reg dma_config DMAConfig.RXSIZE DMAConfig.FULL_ADDRESSABLE_SPACE in
  do! modify_reg dma_config DMAConfig.TXSIZE 1 in
  do! modify_reg dma_config DMAConfig.TCPCKSUM 1 in
  do! modify_reg dma_config DMAConfig.ENDIAN 0 in
  do! modify_reg dma_config DMAConfig.BLENGTH DMAConfig.INCR16 in
  modify_reg network_control NetworkControl.MDEN 1.

(** The bus addresses of the four allocations. *)
Variables (phys_rx phys_rx_list phys_tx phys_tx_list : Z).
Definition phys_u32 (a : Z) : M D Z :=
  if (0 <=? a) && (a <=? u32_max) then ret a else panic "called `Result::unwrap()` on an `Err` value".

Fixpoint init_rx_list (l : list Z) : M D (Result GEMError (list desc)) :=
  match l with
  | [] => ret (Ok [])
  | i :: l =>
      let buffer := phys_rx + i * RX_BUF_LEN in
      if negb (Z.land buffer 3 =? 0) then ret (Err Unknown)
      else
        let! w := phys_u32 buffer in
        let w := if i =? RX_BUF_NUM - 1 then Z.lor w 2 else w in
        let! r := init_rx_list l in
        match r with Ok rest => ret (Ok ((w, 0) :: rest)) | Err e => ret (Err e) end
  end.
Fixpoint init_tx_list (l : list Z) : M D (list desc) :=
  match l with
  | [] => ret []
  | i :: l =>
      let! w := phys_u32 (phys_tx + i * TX_BUF_LEN) in
      let w1 := if i =? TX_BUF_NUM - 1 then Z.lor TX_DESC_USED TX_DESC_WRAP else TX_DESC_USED in
      let! rest := init_tx_list l in
      ret ((w, w1) :: rest)
  end.

(** The allocations succeed or panic, so that none of the four is null. *)
Definition init_device (default_mtu phy_addr : Z) (mac : list Z) (rxmem txmem : Z -> Z) (c : D) : exec D (Result GEMError (GEMDriver)) :=
  (do! init_controller mac in
   let! phy := (if phy_addr =? u32_max then find_phy (seqZ 0 32) else ret (Some phy_addr)) in
   match phy with
   | None => ret (Err NoPhyFound)
   | Some phy_addr =>
       do! auto_negotiate phy_addr in
       let! rx := init_rx_list (seqZ 0 RX_BUF_NUM) in
       match rx with
       | Err e => ret (Err e)
       | Ok rx_list =>
           let! a := phys_u32 phys_rx_list in
           do! wr rx_qbar a in
           let! tx_list := init_tx_list (seqZ 0 TX_BUF_NUM) in
           let! a := phys_u32 phys_tx_list in
           do! wr tx_qbar a in
           do! wr int_enable (put INT_FRAMERX 1 0) in
           do! modify_reg network_control NetworkControl.TXEN 1 in
           do! modify_reg network_control NetworkControl.RXEN 1 in
           fun c => Done (Ok (mkDriver c default_mtu mac 0 (mkRx rxmem rx_list (replicate (Z.to_nat RX_BUF_NUM) false))
                                0 (mkTx txmem tx_list (replicate (Z.to_nat TX_BUF_NUM) false)) 0)) c
       end
   end) c.
End Init.
End Driver.
Arguments GEMDriver D : clear implicits.
End Gem.
