(* ===== verification/GemProps.v ===== *)
(** The Gigabit Ethernet driver against the controller: received frames reach
    the network stack in order and unchanged around the ring, frames handed
    over are sent in order and unchanged by a controller that reads the
    descriptor as soon as it is started, and lost by one that reads it later;
    the search for the physical layer and its negotiation. *)

From S2P Require Import Prelude Errors Gem.

Module GemProps.
Import Gem.

(** ** What the driver relies on *)

(** Writing a field leaves the other bits; reading takes its bits. *)
Class BitfieldsLaws `{Bitfields} : Prop := {
  put_spec f v w i : 0 <= i ->
    Z.testbit (put f v w) i =
      if (Z.of_nat (shift f) <=? i) && (i <? Z.of_nat (shift f + width f)) then Z.testbit v (i - Z.of_nat (shift f)) else Z.testbit w i;
  read_spec f w : read_field f w = Z.shiftr w (Z.of_nat (shift f)) mod 2 ^ Z.of_nat (width f);
}.

(** The controller, from its manual (UG585): [c_ctrl] to [c_rs] are registers,
    [c_rxi] and [c_txi] the descriptors it looks at next, [c_go] whether it is
    transmitting, [c_phy] the registers of the physical layers on its bus and
    [c_sent] the frames on the wire. *)
Record card : Type := mkCard {
  c_ctrl : Z; c_cfg : Z; c_dma : Z; c_isr : Z; c_ts : Z; c_rs : Z; c_rxq : Z; c_txq : Z; c_rxi : Z; c_txi : Z;
  c_go : bool; c_phy : Z -> Z -> Z; c_maint : Z; c_sent : list (list Z) }.
Definition set_ctrl (x : Z) (go : bool) (txi : Z) (c : card) : card :=
  mkCard x (c_cfg c) (c_dma c) (c_isr c) (c_ts c) (c_rs c) (c_rxq c) (c_txq c) (c_rxi c) txi go (c_phy c) (c_maint c) (c_sent c).
Definition set_status (isr ts rs : Z) (c : card) : card :=
  mkCard (c_ctrl c) (c_cfg c) (c_dma c) isr ts rs (c_rxq c) (c_txq c) (c_rxi c) (c_txi c) (c_go c) (c_phy c) (c_maint c) (c_sent c).
Definition set_setup (cfg dma : Z) (c : card) : card :=
  mkCard (c_ctrl c) cfg dma (c_isr c) (c_ts c) (c_rs c) (c_rxq c) (c_txq c) (c_rxi c) (c_txi c) (c_go c) (c_phy c) (c_maint c) (c_sent c).
Definition set_queues (rxq txq rxi txi : Z) (c : card) : card :=
  mkCard (c_ctrl c) (c_cfg c) (c_dma c) (c_isr c) (c_ts c) (c_rs c) rxq txq rxi txi (c_go c) (c_phy c) (c_maint c) (c_sent c).
Definition set_phy (phy : Z -> Z -> Z) (m : Z) (c : card) : card :=
  mkCard (c_ctrl c) (c_cfg c) (c_dma c) (c_isr c) (c_ts c) (c_rs c) (c_rxq c) (c_txq c) (c_rxi c) (c_txi c) (c_go c) phy m (c_sent c).

Definition card_rd (r : Z) (c : card) : Z :=
  if r =? 0x00 then c_ctrl c
  else if r =? 0x04 then c_cfg c
  else if r =? 0x08 then 4
  else if r =? 0x10 then c_dma c
  else if r =? 0x14 then c_ts c
  else if r =? 0x18 then c_rxq c
  else if r =? 0x1c then c_txq c
  else if r =? 0x20 then c_rs c
  else if r =? 0x24 then c_isr c
  else if r =? 0x34 then c_maint c
  else 0.

(** A frame of the management bus: clause 22, read (2) or write (1). *)
Definition card_mdio (v : Z) (c : card) : card :=
  let addr := Z.shiftr v 23 mod 32 in
  let reg := Z.shiftr v 18 mod 32 in
  let op := Z.shiftr v 28 mod 4 in
  if op =? 2 then set_phy (c_phy c) (v - v mod 2 ^ 16 + c_phy c addr reg) c
  else if op =? 1 then
    set_phy (fun a r => if (a =? addr) && (r =? reg) then v mod 2 ^ 16 else c_phy c a r) v c
  else c.

(** Starting ([STARTTX]) and clearing the statistics ([STATCLR]) read as zero;
    the transmitter that is switched off stops and starts over at the first
    descriptor; the status registers are cleared by writing ones. *)
Definition card_wr (r v : Z) (c : card) : card :=
  if r =? 0x00 then
    set_ctrl (Z.ldiff v 0x220) (Z.testbit v 3 && (c_go c || Z.testbit v 9)) (if Z.testbit v 3 then c_txi c else 0) c
  else if r =? 0x04 then set_setup v (c_dma c) c
  else if r =? 0x10 then set_setup (c_cfg c) v c
  else if r =? 0x14 then set_status (c_isr c) (Z.ldiff (c_ts c) v) (c_rs c) c
  else if r =? 0x18 then set_queues v (c_txq c) 0 (c_txi c) c
  else if r =? 0x1c then set_queues (c_rxq c) v (c_rxi c) 0 c
  else if r =? 0x20 then set_status (c_isr c) (c_ts c) (Z.ldiff (c_rs c) v) c
  else if r =? 0x24 then set_status (Z.ldiff (c_isr c) v) (c_ts c) (c_rs c) c
  else if r =? 0x34 then card_mdio v c
  else c.
#[local] Instance gem_card : Registers card := {|
  rd r c := Done (card_rd r c) c;
  wr r v c := Done tt (card_wr r v c);
|}.

Section Gem.
Context `{BitfieldsLaws}.
(** Where the buffers and the lists of descriptors are on the bus. *)
Variables (rx rxl tx txl : Z).
Notation driver := (GEMDriver card).

(** The controller receives a frame into the next descriptor, if it owns it:
    bit 0 of the first word is set afterwards, bit 1 marks the last descriptor;
    the second word has the length and the marks for start and end. *)
Definition card_rx (f : list Z) : M driver unit := modify (fun d =>
  let c := gem d in
  let r := rx_fields d in
  let w := word0 (rxbuffer_list r) (c_rxi c) in
  if negb (Z.testbit (c_ctrl c) 2 && (c_rxq c =? rxl)) then d
  else if Z.testbit w 0 then set_gem (set_status (Z.lor (c_isr c) 4) (c_ts c) (Z.lor (c_rs c) 1) c) d
  else
    set_rx (rx_counter d)
      (mkRx (blit (rxbuffer r) (Z.land w 0xfffffffc - rx) f)
         (<[Z.to_nat (c_rxi c) := (Z.lor w 1, Z.lor (Z.of_nat (length f)) 0xc000)]> (rxbuffer_list r)) (rxbuffer_reserved r))
      (set_gem (set_status (Z.lor (c_isr c) 2) (c_ts c) (Z.lor (c_rs c) 2)
                  (set_queues (c_rxq c) (c_txq c) (if Z.testbit w 1 then 0 else c_rxi c + 1) (c_txi c) c)) d)).

(** A controller that transmits looks at the next descriptor: it stops at a used
    one (bit 31), otherwise it sends the buffer and marks the descriptor. *)
Definition card_tx : M driver unit := modify (fun d =>
  let c := gem d in
  let t := tx_fields d in
  let w := word1 (txbuffer_list t) (c_txi c) in
  if negb (c_go c && (c_txq c =? txl)) then d
  else if Z.testbit w 31 then set_gem (set_status (c_isr c) (Z.lor (c_ts c) 1) (c_rs c) (set_ctrl (c_ctrl c) false (c_txi c) c)) d
  else
    let f := bytes (txbuffer t) (word0 (txbuffer_list t) (c_txi c) - tx) (Z.land w 0x3fff) in
    let c := set_status (Z.lor (c_isr c) 0x80) (Z.lor (c_ts c) 0x20) (c_rs c) c in
    set_tx_list (set_word1 (c_txi c) (Z.lor w (Z.shiftl 1 31)))
      (set_gem (mkCard (c_ctrl c) (c_cfg c) (c_dma c) (c_isr c) (c_ts c) (c_rs c) (c_rxq c) (c_txq c) (c_rxi c)
                  (if Z.testbit w 30 then 0 else c_txi c + 1) (c_go c) (c_phy c) (c_maint c) (c_sent c ++ [f])) d)).

(** ** The promise *)

Inductive op : Type := CardRx (f : list Z) | Poll | Peek | Send (f : list Z) | Irq.
Inductive answer : Type := Nothing | Frame (f : option (list Z)) | Packet (b : bool).

(** Frames received and not yet read, and frames sent. *)
Record nic : Type := mkNic { s_rx : list (list Z); s_sent : list (list Z) }.
(** [None]: the driver panics. *)
Definition spec (x : op) (s : nic) : option (answer * nic) :=
  match x with
  | CardRx f => Some (Nothing, if (length (s_rx s) <? 64)%nat then mkNic (s_rx s ++ [f]) (s_sent s) else s)
  | Poll => Some (Frame (head (s_rx s)), mkNic (tail (s_rx s)) (s_sent s))
  | Peek => Some (Packet (negb (bool_decide (s_rx s = []))), s)
  | Send f => if Z.of_nat (length f) <=? TX_BUF_LEN then Some (Nothing, mkNic (s_rx s) (s_sent s ++ [f])) else None
  | Irq => Some (Nothing, s)
  end.
Fixpoint spec_run (xs : list op) (s : nic) : option (list answer * nic) :=
  match xs with
  | [] => Some ([], s)
  | x :: xs =>
      match spec x s with
      | None => None
      | Some (r, s) => match spec_run xs s with None => None | Some (rs, s) => Some (r :: rs, s) end
      end
  end.

(** The network stack takes a frame and drops the token for the answer; it asks
    for a token and sends with it, [dev] being what the controller does once it
    is started. *)
Definition poll : M driver answer :=
  let! o := receive in
  match o with
  | None => ret (Frame None)
  | Some (rx_index, tx_index) => let! f := rx_consume rx_index in do! drop_tx_token tx_index in ret (Frame (Some f))
  end.
Definition send (dev : M driver unit) (f : list Z) : M driver answer :=
  let! o := transmit in
  match o with None => panic "no token" | Some i => do! tx_consume dev i f in ret Nothing end.
Definition perform (dev : M driver unit) (x : op) : M driver answer :=
  match x with
  | CardRx f => do! card_rx f in ret Nothing
  | Poll => poll
  | Peek => gets (fun d => Packet (has_packet d))
  | Send f => send dev f
  | Irq => do! handle_interrupt in ret Nothing
  end.
Fixpoint performs (dev : M driver unit) (xs : list op) : M driver (list answer) :=
  match xs with [] => ret [] | x :: xs => let! r := perform dev x in let! rs := performs dev xs in ret (r :: rs) end.

(** At once: the frame, and the descriptor behind it. *)
Definition at_once : M driver unit := do! card_tx in card_tx.

(** ** Words *)

Lemma land_double h c m : 0 <= c < 2 -> Z.land (2 * h + c) (2 * m) = 2 * Z.land h m.
Proof.
  intros Hc. apply Z.bits_inj'. intros n Hn. rewrite Z.land_spec. destruct (Z.eq_dec n 0) as [->|Hz].
  - rewrite !Z.testbit_even_0. by rewrite andb_false_r.
  - replace n with (Z.succ (n - 1)) by lia. rewrite !Z.testbit_even_succ, Z.land_spec by lia.
    assert (c = 0 \/ c = 1) as [->| ->] by lia; rewrite ?Z.add_0_r, ?Z.testbit_even_succ, ?Z.testbit_odd_succ by lia; done.
Qed.
Lemma lor_one h : Z.lor (2 * h) 1 = 2 * h + 1.
Proof.
  apply Z.bits_inj'. intros n Hn. rewrite Z.lor_spec. destruct (Z.eq_dec n 0) as [->|Hz].
  - by rewrite Z.testbit_even_0, Z.testbit_odd_0.
  - replace n with (Z.succ (n - 1)) by lia. rewrite Z.testbit_even_succ, Z.testbit_odd_succ by lia.
    change 1 with (2 * 0 + 1) at 2. rewrite Z.testbit_odd_succ by lia. by rewrite Z.testbit_0_l, orb_false_r.
Qed.

(** The first word of a receive descriptor: the address, the mark of the last
    one and the owner. *)
Definition rx_word (i : Z) (b : bool) : Z := rx + i * RX_BUF_LEN + (if i =? 63 then 2 else 0) + (if b then 1 else 0).

Hypothesis rx_range : 0 <= rx /\ rx + RX_BUF_NUM * RX_BUF_LEN <= u32_max.
Hypothesis rx_aligned : rx mod 4 = 0.

Lemma rx_word_parts i b : 0 <= i < 64 -> exists h, rx + i * RX_BUF_LEN = 4 * h /\ 0 <= h < 2 ^ 30 /\
  rx_word i b = 2 * (2 * h + (if i =? 63 then 1 else 0)) + (if b then 1 else 0).
Proof.
  intros Hi. exists (rx / 4 + i * 400). unfold rx_word, RX_BUF_LEN, RX_BUF_NUM, u32_max in *.
  pose proof (Z.div_mod rx 4 ltac:(lia)). rewrite rx_aligned in *. split; [lia|]. split; [|destruct (i =? 63); lia].
  change (2 ^ 30) with 1073741824. lia.
Qed.
Lemma rx_word_owner i b : 0 <= i < 64 -> Z.testbit (rx_word i b) 0 = b.
Proof. intros Hi. destruct (rx_word_parts i b Hi) as (h & _ & _ & ->). destruct b; [apply Z.testbit_odd_0|rewrite Z.add_0_r; apply Z.testbit_even_0]. Qed.
Lemma rx_word_land i b : 0 <= i < 64 -> (Z.land (rx_word i b) 1 =? 0) = negb b.
Proof.
  intros Hi. change 1 with (Z.ones 1) at 1. rewrite Z.land_ones by lia. destruct (rx_word_parts i b Hi) as (h & _ & _ & ->).
  change (2 ^ 1) with 2. rewrite Z.add_comm, Z.mul_comm, Z_mod_plus_full. by destruct b.
Qed.
Lemma rx_word_last i b : 0 <= i < 64 -> Z.testbit (rx_word i b) 1 = (i =? 63).
Proof.
  intros Hi. destruct (rx_word_parts i b Hi) as (h & _ & _ & ->). set (x := 2 * h + _).
  assert (E : Z.testbit (2 * x + (if b then 1 else 0)) (Z.succ 0) = Z.testbit x 0).
  { destruct b; [by apply Z.testbit_odd_succ|rewrite Z.add_0_r; by apply Z.testbit_even_succ]. }
  change (Z.succ 0) with 1 in E. rewrite E. unfold x.
  destruct (i =? 63); [apply Z.testbit_odd_0|rewrite Z.add_0_r; apply Z.testbit_even_0].
Qed.
Lemma rx_word_set i : 0 <= i < 64 -> Z.lor (rx_word i false) 1 = rx_word i true.
Proof.
  intros Hi. unfold rx_word. destruct (rx_word_parts i false Hi) as (h & _ & _ & E). unfold rx_word in E. rewrite E, Z.add_0_r, lor_one. lia.
Qed.
Lemma rx_word_clear i b : 0 <= i < 64 -> Z.land (rx_word i b) 0xfffffffe = rx_word i false.
Proof.
  intros Hi. destruct (rx_word_parts i b Hi) as (h & Ea & Hh & E). rewrite E. change 0xfffffffe with (2 * Z.ones 31).
  rewrite land_double by (destruct b; lia). rewrite Z.land_ones, Z.mod_small.
  - unfold rx_word. rewrite Ea. destruct (i =? 63); lia.
  - change (2 ^ 31) with (2 * 2 ^ 30). destruct (i =? 63); lia.
  - lia.
Qed.
Lemma rx_word_addr i b : 0 <= i < 64 -> Z.land (rx_word i b) 0xfffffffc - rx = i * RX_BUF_LEN.
Proof.
  intros Hi. destruct (rx_word_parts i b Hi) as (h & Ea & Hh & E). rewrite E. change 0xfffffffc with (2 * (2 * Z.ones 30)).
  rewrite land_double, land_double, Z.land_ones, Z.mod_small by (try done; try destruct b; try destruct (i =? 63); lia). lia.
Qed.

(** ** Memory *)

Lemma bytes_length m off n : length (bytes m off n) = Z.to_nat n.
Proof. unfold bytes. by rewrite length_fmap, length_seqZ. Qed.
Lemma bytes_ext m m' off n : (forall a, off <= a < off + n -> m a = m' a) -> bytes m off n = bytes m' off n.
Proof. intros E. apply list_fmap_ext. intros i a Ha. apply E. apply lookup_seqZ in Ha. lia. Qed.
Lemma blit_same m off l : bytes (blit m off l) off (Z.of_nat (length l)) = l.
Proof.
  apply list_eq_same_length with (length l); [done|by rewrite bytes_length, Nat2Z.id|]. intros i x y Hi Hx Hy. unfold bytes in Hx.
  rewrite list_lookup_fmap, lookup_seqZ_lt in Hx by lia. cbn in Hx. injection Hx as <-. unfold blit.
  rewrite (proj2 (Z.leb_le _ _)), (proj2 (Z.ltb_lt _ _)) by lia. cbn. replace (Z.to_nat (off + Z.of_nat i - off)) with i by lia.
  by apply nth_lookup_Some with (d := 0) in Hy.
Qed.
Lemma blit_other m off l off' n :
  off' + n <= off \/ off + Z.of_nat (length l) <= off' -> bytes (blit m off l) off' n = bytes m off' n.
Proof.
  intros Ho. apply bytes_ext. intros a Ha. unfold blit.
  destruct (Z.leb_spec off a), (Z.ltb_spec a (off + Z.of_nat (length l))); cbn; try done. lia.
Qed.

Lemma nth_insert_desc (l : list desc) i k p : 0 <= i -> 0 <= k < Z.of_nat (length l) ->
  nth (Z.to_nat i) (<[Z.to_nat k := p]> l) (0, 0) = if i =? k then p else nth (Z.to_nat i) l (0, 0).
Proof.
  intros Hi Hk. rewrite !nth_lookup. destruct (Z.eqb_spec i k) as [->|Hne].
  - by rewrite list_lookup_insert_eq by lia.
  - by rewrite list_lookup_insert_ne by lia.
Qed.
Lemma word0_insert (l : list desc) i k p : 0 <= i -> 0 <= k < Z.of_nat (length l) ->
  word0 (<[Z.to_nat k := p]> l) i = if i =? k then p.1 else word0 l i.
Proof. intros Hi Hk. unfold word0. rewrite nth_insert_desc by done. by destruct (i =? k). Qed.
Lemma word1_insert (l : list desc) i k p : 0 <= i -> 0 <= k < Z.of_nat (length l) ->
  word1 (<[Z.to_nat k := p]> l) i = if i =? k then p.2 else word1 l i.
Proof. intros Hi Hk. unfold word1. rewrite nth_insert_desc by done. by destruct (i =? k). Qed.

(** ** The ring of received frames *)

(** Where a descriptor is in the queue. *)
Definition rank (d : driver) (i : Z) : Z := (i - rx_counter d) mod 64.

Record rx_inv (d : driver) (q : list (list Z)) : Prop := {
  ri_len : length (rxbuffer_list (rx_fields d)) = 64%nat;
  ri_res : length (rxbuffer_reserved (rx_fields d)) = 64%nat;
  ri_cnt : 0 <= rx_counter d < 64;
  ri_q : (length q <= 64)%nat;
  ri_small : Forall (fun f => Z.of_nat (length f) <= RX_BUF_LEN) q;
  ri_card : c_rxi (gem d) = (rx_counter d + Z.of_nat (length q)) mod 64;
  ri_on : Z.testbit (c_ctrl (gem d)) 2 = true;
  ri_rxq : c_rxq (gem d) = rxl;
  ri_word i : 0 <= i < 64 -> word0 (rxbuffer_list (rx_fields d)) i = rx_word i (rank d i <? Z.of_nat (length q));
  ri_frame i f : 0 <= i < 64 -> q !! Z.to_nat (rank d i) = Some f ->
    Z.land (word1 (rxbuffer_list (rx_fields d)) i) 0x1fff = Z.of_nat (length f) /\
    bytes (rxbuffer (rx_fields d)) (i * RX_BUF_LEN) (Z.of_nat (length f)) = f;
}.

Lemma rank_next i c : 0 <= i < 64 -> 0 <= c < 64 ->
  (i - (c + 1) mod 64) mod 64 = if i =? c then 63 else (i - c) mod 64 - 1.
Proof.
  intros Hi Hc. destruct (Z.eqb_spec i c) as [->|Hne]; Z.to_euclidean_division_equations; lia.
Qed.
Lemma rank_zero i c : 0 <= i < 64 -> 0 <= c < 64 -> (i - c) mod 64 = 0 <-> i = c.
Proof. intros Hi Hc. split; [|intros ->; by rewrite Z.sub_diag]. Z.to_euclidean_division_equations; lia. Qed.

Lemma scan_none (d : driver) l : (forall i, i ∈ l -> Z.land (word0 (rxbuffer_list (rx_fields d)) ((i + rx_counter d) mod RX_BUF_NUM)) 1 = 0) ->
  scan_rx l d = None.
Proof.
  induction l as [|i l IH]; intros Hl; [done|]. cbn [scan_rx]. rewrite (Hl i) by set_solver. cbn. apply IH. set_solver.
Qed.
Lemma next_rx_run (d : driver) q : rx_inv d q -> next_rx_index d = match q with [] => None | _ => Some (rx_counter d) end.
Proof.
  intros I. pose proof (ri_cnt _ _ I) as Hc. unfold next_rx_index. destruct q as [|f q].
  - apply scan_none. intros i Hi. set (k := (i + rx_counter d) mod RX_BUF_NUM).
    assert (Hk : 0 <= k < 64) by (apply Z.mod_pos_bound; done). rewrite (ri_word _ _ I k Hk).
    apply Z.eqb_eq. rewrite rx_word_land by done. cbn [length]. rewrite (proj2 (Z.ltb_ge _ _)); [done|].
    unfold rank. pose proof (Z.mod_pos_bound (k - rx_counter d) 64 ltac:(lia)). lia.
  - change (seqZ 0 RX_BUF_NUM) with (0 :: seqZ 1 63). cbn [scan_rx]. rewrite Z.add_0_l. unfold RX_BUF_NUM. rewrite Z.mod_small by done.
    rewrite (ri_word _ _ I) by done. rewrite rx_word_land by done. unfold rank. rewrite Z.sub_diag. cbn. done.
Qed.

Lemma word_len n : 0 <= n <= RX_BUF_LEN -> Z.land (Z.lor n 0xc000) 0x1fff = n.
Proof.
  intros Hn. rewrite Z.land_lor_distr_l. change (Z.land 0xc000 0x1fff) with 0. rewrite Z.lor_0_r. change 0x1fff with (Z.ones 13).
  rewrite Z.land_ones by lia. apply Z.mod_small. unfold RX_BUF_LEN in Hn. change (2 ^ 13) with 8192. lia.
Qed.

(** A received frame is queued unless all descriptors are taken. *)
Lemma gem_card_rx_run (d : driver) q f : rx_inv d q -> Z.of_nat (length f) <= RX_BUF_LEN ->
  exists d', card_rx f d = Done tt d' /\ rx_inv d' (if (length q <? 64)%nat then q ++ [f] else q) /\
    tx_fields d' = tx_fields d /\ tx_counter d' = tx_counter d /\ c_ctrl (gem d') = c_ctrl (gem d) /\ c_go (gem d') = c_go (gem d) /\
    c_txi (gem d') = c_txi (gem d) /\ c_txq (gem d') = c_txq (gem d) /\ c_sent (gem d') = c_sent (gem d).
Proof.
  intros I Hf. pose proof I as [H1 H2 H3 H4 H5 H6 H7 H8 H9 H10]. set (k := c_rxi (gem d)) in *.
  assert (Hk : 0 <= k < 64) by (rewrite H6; apply Z.mod_pos_bound; lia).
  assert (Hr : rank d k = Z.of_nat (length q) mod 64).
  { unfold rank. rewrite H6, Zminus_mod_idemp_l. f_equal. lia. }
  unfold card_rx, modify. eexists. split; [reflexivity|]. cbn zeta. fold k. rewrite H7, H8, Z.eqb_refl. cbn [andb negb].
  rewrite (H9 k Hk), rx_word_owner by done. rewrite Hr. destruct (Nat.ltb_spec (length q) 64) as [Hlt|Hge].
  - rewrite Z.mod_small in Hr |- * by lia. rewrite Z.ltb_irrefl, rx_word_set, rx_word_addr, rx_word_last by done.
    split; [|done]. split; cbn.
    + by rewrite length_insert.
    + done.
    + done.
    + rewrite length_app. cbn. lia.
    + apply list.Forall_app. by split; [|constructor].
    + rewrite length_app. cbn. rewrite Nat2Z.inj_add. cbn. destruct (Z.eqb_spec k 63); rewrite H6 in *; Z.to_euclidean_division_equations; lia.
    + done.
    + done.
    + intros i Hi. rewrite word0_insert by lia. rewrite length_app. cbn [length]. destruct (Z.eqb_spec i k) as [->|Hne].
      * cbn. f_equal. symmetry. apply Z.ltb_lt. unfold rank in *. cbn. lia.
      * rewrite H9 by done. f_equal. unfold rank. cbn. destruct (Z.ltb_spec ((i - rx_counter d) mod 64) (Z.of_nat (length q))),
          (Z.ltb_spec ((i - rx_counter d) mod 64) (Z.of_nat (length q + 1))); try done; try lia.
        exfalso. apply Hne. rewrite H6. Z.to_euclidean_division_equations; lia.
    + intros i g Hi Hg. rewrite word1_insert by lia. destruct (Z.eqb_spec i k) as [->|Hne].
      * assert (g = f) as ->.
        { unfold rank in *. cbn in Hg. rewrite Hr, Nat2Z.id, lookup_app_r, Nat.sub_diag in Hg by lia. by injection Hg. }
        cbn. split; [apply word_len; lia|apply blit_same].
      * assert (Hg' : q !! Z.to_nat (rank d i) = Some g).
        { unfold rank in *. cbn in Hg. destruct (decide (Z.to_nat ((i - rx_counter d) mod 64) < length q)%nat) as [Hl|Hl].
          - by rewrite lookup_app_l in Hg.
          - apply lookup_lt_Some in Hg as Hl2. rewrite length_app in Hl2. cbn in Hl2. exfalso. apply Hne. rewrite H6.
            Z.to_euclidean_division_equations; lia. }
        destruct (H10 i g Hi Hg') as [Hw Hb]. split; [done|]. rewrite blit_other; [done|].
        apply (list.Forall_lookup_1 _ _ _ _ H5) in Hg'. unfold RX_BUF_LEN in *. lia.
  - assert (Z.of_nat (length q) = 64) as E64 by lia. rewrite E64. change (64 mod 64 <? 64) with true. cbn iota. split; [|done].
    by split.
Qed.

(** ** Interrupts *)

(** What the rest of the driver sees of the controller. *)
Record same_card (c c' : card) : Prop := {
  sm_rxq : c_rxq c' = c_rxq c;
  sm_txq : c_txq c' = c_txq c;
  sm_rxi : c_rxi c' = c_rxi c;
  sm_txi : c_txi c' = c_txi c;
  sm_go : c_go c' = c_go c;
  sm_sent : c_sent c' = c_sent c;
  sm_rxen : Z.testbit (c_ctrl c') 2 = Z.testbit (c_ctrl c) 2;
  sm_start : Z.testbit (c_ctrl c') 9 = Z.testbit (c_ctrl c) 9;
}.

(** An idle transmitter: not started, at the first descriptor. *)
Definition idle (c : card) : Prop := c_go c = false /\ c_txi c = 0 /\ Z.testbit (c_ctrl c) 9 = false.

Lemma same_card_refl c : same_card c c.
Proof. by split. Qed.
Lemma same_card_trans c c1 c2 : same_card c c1 -> same_card c1 c2 -> same_card c c2.
Proof. intros [] []. split; congruence. Qed.
Lemma same_idle c c' : same_card c c' -> idle c -> idle c'.
Proof. intros [] (E1 & E2 & E3). unfold idle. split_and!; congruence. Qed.

Lemma status_same isr ts rs c : same_card c (set_status isr ts rs c).
Proof. by split. Qed.

(** Writing a bit of the control register other than [STARTTX]. *)
Lemma ctrl_bit f v (c : card) i : 0 <= i -> i <> 5 -> i <> 9 ->
  Z.testbit (c_ctrl (card_wr network_control (put f v (c_ctrl c)) c)) i = Z.testbit (put f v (c_ctrl c)) i.
Proof.
  intros Hi H5 H9. change (c_ctrl (card_wr _ _ _)) with (Z.ldiff (put f v (c_ctrl c)) 0x220). rewrite Z.ldiff_spec. change 0x220 with (Z.lor (2 ^ 5) (2 ^ 9)).
  rewrite Z.lor_spec, !Z.pow2_bits_eqb by lia. rewrite !(proj2 (Z.eqb_neq _ _)) by lia. cbn. by rewrite andb_true_r.
Qed.
Lemma ctrl_bit9 v (c : card) : Z.testbit (c_ctrl (card_wr network_control v c)) 9 = false.
Proof. change (c_ctrl _) with (Z.ldiff v 0x220). rewrite Z.ldiff_spec. apply andb_false_r. Qed.

Lemma txen_same v c : idle c -> same_card c (card_wr network_control (put NetworkControl.TXEN v (c_ctrl c)) c).
Proof.
  intros (Hg & Ht & H9). split; try done.
  - unfold card_wr. cbn -[Z.testbit]. rewrite Ht. by destruct (Z.testbit _ 3).
  - unfold card_wr. cbn -[Z.testbit]. rewrite Hg, (put_spec _ _ _ 9) by lia. cbn -[Z.testbit]. rewrite H9. apply andb_false_r.
  - rewrite ctrl_bit, put_spec by lia. done.
  - by rewrite ctrl_bit9.
Qed.

Lemma handle_same (c : card) : idle c -> exists c', tx_handle_interrupt c = Done tt c' /\ same_card c c'.
Proof.
  intros Hi. unfold tx_handle_interrupt. do 3 (erewrite bind_run by reflexivity).
  set (ts := card_rd transmit_status c). set (ints := card_rd int_status c). set (rs := card_rd receive_status c).
  assert (exists c1, (if is_set TS_TXCOMPL ts then
         do! wr int_status (put INT_TXCOMPL 1 ints) in
         do! wr transmit_status (put TS_TXCOMPL 1 ts) in
         modify_reg network_control NetworkControl.TXEN 0
       else ret tt) c = Done tt c1 /\ same_card c c1) as (c1 & E1 & S1).
  { destruct (is_set TS_TXCOMPL ts); [|exists c; by split]. do 2 (erewrite bind_run by reflexivity).
    unfold modify_reg. erewrite bind_run by reflexivity. eexists. split; [reflexivity|].
    set (c0 := card_wr transmit_status _ _). assert (same_card c c0) as S0 by (by split).
    eapply same_card_trans; [exact S0|]. apply txen_same. by eapply same_idle. }
  rewrite (bind_run _ _ _ _ _ E1). destruct (_ && _); [|exists c1; by split].
  erewrite bind_run by reflexivity. eexists. split; [reflexivity|]. eapply same_card_trans; [exact S1|]. by split.
Qed.

Lemma gem_rx_same d c n tf w q : rx_inv d q ->
  c_rxq c = c_rxq (gem d) -> c_rxi c = c_rxi (gem d) -> Z.testbit (c_ctrl c) 2 = Z.testbit (c_ctrl (gem d)) 2 ->
  rx_inv (mkDriver c (mtu d) (mac d) (rx_counter d) (rx_fields d) n tf w) q.
Proof. intros I E1 E2 E3. destruct I. split; first [assumption|cbn -[Z.testbit]; congruence]. Qed.

(** ** Sending *)

Record tx_inv (d : driver) (sent : list (list Z)) : Prop := {
  ti_list : exists w, txbuffer_list (tx_fields d) = [(tx, w)] /\ Z.testbit w 31 = true /\ Z.testbit w 30 = true;
  ti_res : txbuffer_reserved (tx_fields d) = [false];
  ti_cnt : tx_counter d = 0;
  ti_idle : idle (gem d);
  ti_txq : c_txq (gem d) = txl;
  ti_sent : c_sent (gem d) = sent;
}.

Lemma gem_tx_same d c n rf w sent : tx_inv d sent -> same_card (gem d) c ->
  tx_inv (mkDriver c (mtu d) (mac d) n rf (tx_counter d) (tx_fields d) w) sent.
Proof. intros [] Hs. split; cbn; try done; [by eapply same_idle|by destruct Hs; congruence|by destruct Hs; congruence]. Qed.

Lemma used_bit w : Z.testbit w 31 = true -> (Z.land w TX_DESC_USED =? 0) = false.
Proof.
  intros Hw. apply Z.eqb_neq. intros E. apply (f_equal (fun x => Z.testbit x 31)) in E. rewrite Z.land_spec, Hw in E. discriminate E.
Qed.
Lemma next_tx_run (d : driver) sent : tx_inv d sent -> next_tx_index d = Done (Some 0) d.
Proof.
  intros [(w & El & Hw & _) Hr Hc _ _ _]. unfold next_tx_index. change (seqZ 0 TX_BUF_NUM) with [0]. cbn [scan_tx].
  erewrite bind_run by reflexivity. rewrite Hc, El, Hr. change ((0 + 0) mod TX_BUF_NUM) with 0. cbn -[Z.land TX_DESC_USED].
  rewrite used_bit by done. reflexivity.
Qed.

(** The word of the descriptor when the transmission starts. *)
Definition start_word (n : Z) : Z := Z.lor (Z.lor TX_DESC_WRAP TX_DESC_LAST) n.
Lemma start_word_eq w n : Z.testbit w 30 = true ->
  Z.lor (Z.lor (Z.land (Z.land w (wrapu 32 (Z.lnot TX_DESC_USED))) TX_DESC_WRAP) TX_DESC_LAST) n = start_word n.
Proof.
  intros Hw. unfold start_word. do 2 f_equal. rewrite <- Z.land_assoc.
  change (Z.land (wrapu 32 (Z.lnot TX_DESC_USED)) TX_DESC_WRAP) with (2 ^ 30). change TX_DESC_WRAP with (2 ^ 30).
  apply Z.bits_inj'. intros i Hi. rewrite Z.land_spec, Z.pow2_bits_eqb by lia. destruct (Z.eqb_spec 30 i) as [<-|]; [by rewrite Hw|apply andb_false_r].
Qed.
Lemma small_bit n i : 0 <= n < 2 ^ 14 -> 14 <= i -> Z.testbit n i = false.
Proof.
  intros Hn Hi. destruct (Z.eq_dec n 0) as [->|Hz]; [apply Z.testbit_0_l|]. apply Z.bits_above_log2; [lia|].
  apply Z.lt_le_trans with 14; [|done]. apply Z.log2_lt_pow2; lia.
Qed.
Lemma start_word_bits n : 0 <= n < 2 ^ 14 ->
  Z.testbit (start_word n) 31 = false /\ Z.testbit (start_word n) 30 = true /\ Z.land (start_word n) 0x3fff = n.
Proof.
  intros Hn. unfold start_word. split_and!.
  - rewrite !Z.lor_spec. by rewrite (small_bit n) by lia.
  - rewrite !Z.lor_spec. by rewrite (small_bit n) by lia.
  - rewrite Z.land_lor_distr_l. change (Z.land (Z.lor TX_DESC_WRAP TX_DESC_LAST) 0x3fff) with 0. rewrite Z.lor_0_l.
    change 0x3fff with (Z.ones 14). rewrite Z.land_ones by lia. by apply Z.mod_small.
Qed.

(** Switching the transmitter on and starting it. *)
Lemma start_run (c : card) : idle c -> exists c1 c2,
  modify_reg network_control NetworkControl.TXEN 1 c = Done tt c1 /\
  modify_reg network_control NetworkControl.STARTTX 1 c1 = Done tt c2 /\
  c_go c2 = true /\ c_txi c2 = 0 /\ c_txq c2 = c_txq c /\ c_rxq c2 = c_rxq c /\ c_rxi c2 = c_rxi c /\ c_sent c2 = c_sent c /\
  Z.testbit (c_ctrl c2) 2 = Z.testbit (c_ctrl c) 2 /\ Z.testbit (c_ctrl c2) 9 = false.
Proof.
  intros Hi. set (c1 := card_wr network_control (put NetworkControl.TXEN 1 (c_ctrl c)) c).
  pose proof (txen_same 1 c Hi) as S1. fold c1 in S1. pose proof (same_idle _ _ S1 Hi) as (Hg & Ht & H9).
  assert (H3 : Z.testbit (c_ctrl c1) 3 = true) by (unfold c1; rewrite ctrl_bit, put_spec by lia; done).
  set (v := put NetworkControl.STARTTX 1 (c_ctrl c1)). set (c2 := card_wr network_control v c1).
  assert (V3 : Z.testbit v 3 = true) by (unfold v; rewrite put_spec by lia; done).
  assert (V9 : Z.testbit v 9 = true) by (unfold v; rewrite put_spec by lia; done).
  assert (B2 : Z.testbit (c_ctrl c2) 2 = Z.testbit (c_ctrl c1) 2) by (unfold c2, v; rewrite ctrl_bit, put_spec by lia; done).
  exists c1, c2. split; [reflexivity|]. split; [reflexivity|]. clearbody v c1. destruct S1 as [S1 S2 S3 S4 S5 S6 S7 S8].
  split_and!; try (unfold c2, card_wr; cbn -[Z.testbit]; rewrite ?V3, ?V9, ?Hg; first [done|congruence]); [congruence|apply ctrl_bit9].
Qed.

(** A started controller sends the frame and stops. *)
Lemma at_once_run c mt mc rc rf tc tm n wk : 0 <= n <= TX_BUF_LEN ->
  c_go c = true -> c_txi c = 0 -> c_txq c = txl ->
  exists c' w, at_once (mkDriver c mt mc rc rf tc (mkTx tm [(tx, start_word n)] [true]) wk) =
      Done tt (mkDriver c' mt mc rc rf tc (mkTx tm [(tx, w)] [true]) wk) /\
    Z.testbit w 31 = true /\ Z.testbit w 30 = true /\ c_go c' = false /\ c_txi c' = 0 /\ c_txq c' = txl /\ c_rxq c' = c_rxq c /\
    c_rxi c' = c_rxi c /\ c_ctrl c' = c_ctrl c /\ c_sent c' = c_sent c ++ [bytes tm 0 n].
Proof.
  intros Hn Hg Ht Hq. destruct (start_word_bits n) as (B31 & B30 & Bl); [unfold TX_BUF_LEN in Hn; change (2 ^ 14) with 16384; lia|].
  set (w := Z.lor (start_word n) (Z.shiftl 1 31)).
  assert (W31 : Z.testbit w 31 = true) by (unfold w; rewrite Z.lor_spec; apply orb_true_r).
  assert (W30 : Z.testbit w 30 = true) by (unfold w; rewrite Z.lor_spec, B30; done).
  unfold at_once. eexists _, w. split.
  - erewrite bind_run.
    2:{ unfold card_tx, modify, set_tx_list, set_word1, word0, word1. cbn -[Z.testbit Z.land Z.lor Z.shiftl bytes start_word].
        rewrite Hg, Hq, Z.eqb_refl, Ht, !Z2Nat.inj_0. cbn -[Z.testbit Z.land Z.lor Z.shiftl bytes start_word].
        rewrite B31, B30, Bl, Z.sub_diag. fold w. reflexivity. }
    unfold card_tx, modify, word1. cbn -[Z.testbit Z.land Z.lor Z.shiftl bytes start_word]. rewrite ?Hg, ?Hq, Z.eqb_refl, ?Z2Nat.inj_0.
    cbn -[Z.testbit Z.land Z.lor Z.shiftl bytes start_word]. rewrite W31. reflexivity.
  - by split_and!.
Qed.

Lemma on_gem_run {A} (m : M card A) (d : driver) a c : m (gem d) = Done a c -> on_gem m d = Done a (set_gem c d).
Proof. intros E. unfold on_gem, zoom. by rewrite E. Qed.

Lemma transmit_run d sent : tx_inv d sent -> exists c, same_card (gem d) c /\
  transmit d = Done (Some 0) (mkDriver c (mtu d) (mac d) (rx_counter d) (rx_fields d) 0
    (mkTx (txbuffer (tx_fields d)) (txbuffer_list (tx_fields d)) [true]) (wakes d + 1)).
Proof.
  intros I. destruct (handle_same (gem d) (ti_idle _ _ I)) as (c & E & Hs). exists c. split; [done|].
  unfold transmit, handle_interrupt. erewrite bind_run by (erewrite bind_run by (apply on_gem_run; exact E); reflexivity).
  pose proof (gem_tx_same d c (rx_counter d) (rx_fields d) (wakes d + 1) sent I Hs) as I1.
  erewrite bind_run by (eapply next_tx_run; exact I1). unfold reserve_tx_index, set_tx_reserved, modify, bind, get, put_bool. cbn.
  rewrite (ti_res _ _ I). reflexivity.
Qed.

Lemma send_too_long dev (d : driver) sent f : tx_inv d sent -> Z.of_nat (length f) < 2 ^ 32 -> TX_BUF_LEN < Z.of_nat (length f) ->
  send dev f d = Panic "TX buffer is too small".
Proof.
  intros I Hf Hl. destruct (transmit_run d sent I) as (c & _ & E). unfold send. rewrite (bind_run _ _ _ _ _ E).
  unfold tx_consume. rewrite wrapu_small by lia. rewrite (proj2 (Z.leb_gt _ _)) by done. reflexivity.
Qed.

(** The frame as far as the write that starts the transmission. *)
Lemma tx_prepare dev c mt mc rc rf tm w wk f : idle c -> Z.testbit w 30 = true -> Z.of_nat (length f) <= TX_BUF_LEN ->
  exists c', c_go c' = true /\ c_txi c' = 0 /\ c_txq c' = c_txq c /\ c_rxq c' = c_rxq c /\ c_rxi c' = c_rxi c /\ c_sent c' = c_sent c /\
    Z.testbit (c_ctrl c') 2 = Z.testbit (c_ctrl c) 2 /\ Z.testbit (c_ctrl c') 9 = false /\
    tx_consume dev 0 f (mkDriver c mt mc rc rf 0 (mkTx tm [(tx, w)] [true]) wk) =
      (do! dev in
       do! modify (set_tx_list (fun l => set_word1 0 (Z.lor (word1 l 0) TX_DESC_USED) l)) in
       drop_tx_token 0)
        (mkDriver c' mt mc rc rf 0 (mkTx (blit tm 0 f) [(tx, start_word (Z.of_nat (length f)))] [true]) wk).
Proof.
  intros Hi Hw Hf. destruct (handle_same c Hi) as (c1 & E1 & S1).
  destruct (start_run c1 (same_idle _ _ S1 Hi)) as (c2 & c3 & E2 & E3 & Hg & Ht & Hq & Hr & Hx & Hse & H2 & H9).
  exists c3. destruct S1. split_and!; try congruence. unfold tx_consume.
  rewrite wrapu_small by (unfold TX_BUF_LEN in Hf; lia). rewrite (proj2 (Z.leb_le _ _)) by done. erewrite bind_run by reflexivity.
  erewrite bind_run by (apply on_gem_run; exact E1). do 3 (erewrite bind_run by reflexivity).
  erewrite bind_run by (apply on_gem_run; exact E2). erewrite bind_run by (apply on_gem_run; exact E3).
  change (0 * TX_BUF_LEN) with 0. unfold set_gem, set_tx_list, set_tx_mem, set_tx.
  cbn -[Z.testbit Z.land Z.lor Z.shiftl Z.lnot wrapu bytes start_word blit bind].
  unfold set_word1, word0, word1. rewrite !Z2Nat.inj_0. cbn -[Z.testbit Z.land Z.lor Z.shiftl Z.lnot wrapu bytes start_word blit bind].
  rewrite start_word_eq by done. reflexivity.
Qed.

Lemma used_word w : Z.testbit w 30 = true ->
  Z.testbit (Z.lor w TX_DESC_USED) 31 = true /\ Z.testbit (Z.lor w TX_DESC_USED) 30 = true.
Proof. intros Hw. rewrite !Z.lor_spec, Hw. split; [apply orb_true_r|done]. Qed.

(** The last write and the end of the token. *)
Lemma tx_finish c mt mc rc rf tm w wk :
  (do! modify (set_tx_list (fun l => set_word1 0 (Z.lor (word1 l 0) TX_DESC_USED) l)) in drop_tx_token 0)
    (mkDriver (D := card) c mt mc rc rf 0 (mkTx tm [(tx, w)] [true]) wk) =
  Done tt (mkDriver c mt mc rc rf 0 (mkTx tm [(tx, Z.lor w TX_DESC_USED)] [false]) wk).
Proof.
  erewrite bind_run by reflexivity. unfold set_tx_list, set_word1, word0, word1. rewrite !Z2Nat.inj_0. reflexivity.
Qed.

Lemma gem_send_run (d : driver) q sent f : rx_inv d q -> tx_inv d sent -> Z.of_nat (length f) <= TX_BUF_LEN ->
  exists d', send at_once f d = Done Nothing d' /\ rx_inv d' q /\ tx_inv d' (sent ++ [f]).
Proof.
  intros I J Hf. destruct (transmit_run d sent J) as (c & Hs & E). pose proof (gem_tx_same d c 0 (rx_fields d) 0 sent J Hs) as J1.
  destruct J as [(w & El & _ & Hw) Hr Hc Hi Hq Hse]. rewrite El in E. pose proof (same_idle _ _ Hs Hi) as Hi1.
  destruct (tx_prepare at_once c (mtu d) (mac d) (rx_counter d) (rx_fields d) (txbuffer (tx_fields d)) w (wakes d + 1) f Hi1 Hw Hf)
    as (c1 & Hg & Ht & Hq1 & Hrq & Hrx & Hs1 & H2 & H9 & E1).
  set (tm := blit (txbuffer (tx_fields d)) 0 f) in E1.
  destruct (at_once_run c1 (mtu d) (mac d) (rx_counter d) (rx_fields d) 0 tm (Z.of_nat (length f)) (wakes d + 1))
    as (c2 & w2 & E2 & W31 & W30 & Hg2 & Ht2 & Hq2 & Hrq2 & Hrx2 & Hct2 & Hs2); [lia|done|done|destruct Hs; congruence|].
  unfold send. rewrite (bind_run _ _ _ _ _ E). eexists. split.
  - erewrite bind_run by (rewrite E1; erewrite bind_run by exact E2; apply tx_finish). reflexivity.
  - destruct Hs. split; [apply gem_rx_same; [done|congruence|congruence|congruence]|]. destruct (used_word w2 W30) as [U31 U30].
    split; cbn -[Z.testbit Z.lor]; try done.
    + by eexists.
    + split_and!; [done|done|]. cbn -[Z.testbit]. congruence.
    + rewrite Hs2, Hs1. unfold tm. rewrite blit_same. congruence.
Qed.

(** ** Receiving *)

Lemma put_bool_run {S} i b l (s : S) : (Z.to_nat i < length l)%nat -> put_bool i b l s = Done (<[Z.to_nat i := b]> l) s.
Proof. intros Hi. unfold put_bool. destruct (lookup_lt_is_Some_2 l (Z.to_nat i) Hi) as [x ->]. reflexivity. Qed.

(** The tokens of [receive]. *)
Lemma gem_receive_run (d : driver) f q sent : rx_inv d (f :: q) -> tx_inv d sent ->
  receive d = Done (Some (rx_counter d, 0))
    (mkDriver (gem d) (mtu d) (mac d) ((rx_counter d + 1) mod 64)
      (mkRx (rxbuffer (rx_fields d)) (rxbuffer_list (rx_fields d)) (<[Z.to_nat (rx_counter d) := true]> (rxbuffer_reserved (rx_fields d))))
      0 (mkTx (txbuffer (tx_fields d)) (txbuffer_list (tx_fields d)) [true]) (wakes d)).
Proof.
  intros I J. unfold receive. erewrite bind_run by reflexivity. rewrite (next_rx_run d _ I). cbv iota.
  erewrite bind_run by (eapply next_tx_run; exact J). cbv iota. pose proof (ri_cnt _ _ I) as Hc. pose proof (ri_res _ _ I) as Hr.
  assert (E : reserve_tx_index 0 d = Done tt (mkDriver (gem d) (mtu d) (mac d) (rx_counter d) (rx_fields d) 0
    (mkTx (txbuffer (tx_fields d)) (txbuffer_list (tx_fields d)) [true]) (wakes d))).
  { unfold reserve_tx_index. erewrite bind_run by reflexivity. unfold set_tx_reserved. erewrite bind_run by reflexivity.
    cbn [tx_fields set_tx]. rewrite (ti_res _ _ J). erewrite bind_run by (apply put_bool_run; cbn; lia). reflexivity. }
  rewrite (bind_run _ _ _ _ _ E). erewrite bind_run by reflexivity.
  erewrite bind_run by (unfold set_rx_reserved; erewrite bind_run by reflexivity; cbn [rx_fields set_rx];
    erewrite bind_run by (apply put_bool_run; lia); reflexivity). reflexivity.
Qed.

(** A consumed buffer goes back to the controller. *)
Lemma gem_rx_consume_run (c : card) mt mc rc m l res tc tf wk k : (Z.to_nat k < length res)%nat ->
  rx_consume k (mkDriver c mt mc rc (mkRx m l res) tc tf wk) =
    Done (bytes m (k * RX_BUF_LEN) (Z.land (word1 l k) 0x1fff))
      (mkDriver c mt mc rc (mkRx m (let l := set_word1 k 0 l in set_word0 k (Z.land (word0 l k) 0xfffffffe) l) (<[Z.to_nat k := false]> res)) tc tf wk).
Proof.
  intros Hk. unfold rx_consume. erewrite bind_run by reflexivity. cbn [rx_fields rxbuffer rxbuffer_list].
  erewrite bind_run by (unfold rx_buffer_consumed; erewrite bind_run by reflexivity; reflexivity).
  erewrite bind_run by (unfold drop_rx_token, set_rx_reserved; erewrite bind_run by reflexivity;
    cbn [rx_fields set_rx_list set_rx rxbuffer_reserved]; erewrite bind_run by (apply put_bool_run; done); reflexivity). reflexivity.
Qed.
Lemma gem_drop_tx_run (c : card) mt mc rc rf tm tl wk :
  drop_tx_token 0 (mkDriver c mt mc rc rf 0 (mkTx tm tl [true]) wk) = Done tt (mkDriver c mt mc rc rf 0 (mkTx tm tl [false]) wk).
Proof. reflexivity. Qed.

Lemma gem_poll_run (d : driver) q sent : rx_inv d q -> tx_inv d sent ->
  exists d', poll d = Done (Frame (head q)) d' /\ rx_inv d' (tail q) /\ tx_inv d' sent.
Proof.
  intros I J. unfold poll. destruct q as [|f q].
  { exists d. split; [|by split]. unfold receive. erewrite bind_run by (erewrite bind_run by reflexivity; rewrite (next_rx_run d _ I); reflexivity). reflexivity. }
  pose proof I as [H1 H2 H3 H4 H5 H6 H7 H8 H9 H10]. set (k := rx_counter d) in *.
  assert (Hk : (Z.to_nat k < 64)%nat) by lia.
  pose proof J as [(w & El & W31 & W30) Hr Hc Hi Hq Hse].
  destruct (H10 k f H3) as [Hlen Hbytes]; [unfold rank; fold k; by rewrite Z.sub_diag|].
  set (l := rxbuffer_list (rx_fields d)) in *. set (res := rxbuffer_reserved (rx_fields d)) in *.
  set (l1 := <[Z.to_nat k := (word0 l k, 0)]> l).
  set (l2 := <[Z.to_nat k := (rx_word k false, 0)]> l1).
  assert (E0 : Z.land (word0 l1 k) 0xfffffffe = rx_word k false).
  { unfold l1. rewrite word0_insert by lia. rewrite Z.eqb_refl. cbn [fst]. rewrite (H9 k H3). by apply rx_word_clear. }
  assert (E1 : word1 l1 k = 0) by (unfold l1; rewrite word1_insert by lia; by rewrite Z.eqb_refl).
  set (d' := mkDriver (gem d) (mtu d) (mac d) ((k + 1) mod 64)
    (mkRx (rxbuffer (rx_fields d)) l2 (<[Z.to_nat k := false]> (<[Z.to_nat k := true]> res))) 0
    (mkTx (txbuffer (tx_fields d)) (txbuffer_list (tx_fields d)) [false]) (wakes d)).
  exists d'. split; [|split].
  - rewrite (bind_run _ _ _ _ _ (gem_receive_run d f q sent I J)). cbv iota beta. fold k.
    erewrite bind_run by (apply gem_rx_consume_run; rewrite length_insert; fold res; lia).
    rewrite (bind_run _ _ _ _ _ (gem_drop_tx_run _ _ _ _ _ _ _ _)). fold l res. rewrite Hlen, Hbytes. unfold d'. do 3 f_equal.
    cbn zeta. unfold set_word0 at 1, set_word1. fold l1. by rewrite E0, E1.
  - apply Forall_cons_1 in H5 as [Hf H5]. cbn [length] in *. split; cbn; try done.
    + unfold l2, l1. by rewrite !length_insert.
    + by rewrite !length_insert.
    + apply Z.mod_pos_bound. lia.
    + lia.
    + rewrite H6. Z.to_euclidean_division_equations; lia.
    + intros i Hi'. unfold rank. cbn. rewrite rank_next by done. unfold l2, l1.
      rewrite word0_insert by (rewrite ?length_insert; lia). destruct (Z.eqb_spec i k) as [->|Hne].
      * cbn. f_equal. symmetry. apply Z.ltb_ge. lia.
      * rewrite word0_insert by lia. rewrite (proj2 (Z.eqb_neq i k)) by done. rewrite (H9 i Hi'). f_equal. unfold rank. fold k.
        destruct (Z.ltb_spec ((i - k) mod 64) (Z.of_nat (Datatypes.S (length q)))), (Z.ltb_spec ((i - k) mod 64 - 1) (Z.of_nat (length q))); try done; lia.
    + intros i g Hi' Hg. unfold rank in Hg. cbn in Hg. rewrite rank_next in Hg by done. unfold l2, l1.
      rewrite word1_insert by (rewrite ?length_insert; lia). destruct (Z.eqb_spec i k) as [->|Hne].
      * exfalso. apply lookup_lt_Some in Hg. change (Z.to_nat 63) with 63%nat in Hg. lia.
      * rewrite word1_insert by lia. rewrite (proj2 (Z.eqb_neq i k)) by done. apply (H10 i g Hi'). unfold rank. fold k.
        assert ((i - k) mod 64 <> 0) as Hnz by (rewrite rank_zero by done; done).
        pose proof (Z.mod_pos_bound (i - k) 64 ltac:(lia)).
        replace (Z.to_nat ((i - k) mod 64)) with (Datatypes.S (Z.to_nat ((i - k) mod 64 - 1))) by lia. exact Hg.
  - split; cbn; try done. exists w. by split_and!.
Qed.

(** ** Any sequence of calls *)

Definition gem_fine (x : op) : Prop :=
  match x with CardRx f => Z.of_nat (length f) <= RX_BUF_LEN | Send f => Z.of_nat (length f) < 2 ^ 32 | _ => True end.
Definition gem_inv (d : driver) (s : nic) : Prop := rx_inv d (s_rx s) /\ tx_inv d (s_sent s).

Lemma gem_perform_spec (d : driver) s x : gem_inv d s -> gem_fine x ->
  match spec x s with
  | Some (r, s') => exists d', perform at_once x d = Done r d' /\ gem_inv d' s'
  | None => perform at_once x d = Panic "TX buffer is too small"
  end.
Proof.
  intros [I J] Hx. destruct x as [f| | |f|]; cbn [spec perform].
  - destruct (gem_card_rx_run d (s_rx s) f I Hx) as (d' & E & I' & Ht & Hc & Hct & Hg & Hti & Htq & Hse).
    rewrite (bind_run _ _ _ _ _ E). exists d'. split; [done|]. split; [by destruct (_ <? _)%nat|].
    replace (s_sent _) with (s_sent s) by (by destruct (_ <? _)%nat). destruct J as [H1 H2 H3 (H4 & H5 & H6) H7 H8].
    split; rewrite ?Ht, ?Hc; try done; [|congruence|congruence]. unfold idle. rewrite Hg, Hti, Hct. by split_and!.
  - destruct (gem_poll_run d _ _ I J) as (d' & E & I' & J'). exists d'. by split.
  - exists d. split; [|by split]. unfold gets, has_packet. rewrite (next_rx_run d _ I). by destruct (s_rx s).
  - cbn in Hx. destruct (Z.leb_spec (Z.of_nat (length f)) TX_BUF_LEN) as [Hl|Hl].
    + destruct (gem_send_run d _ _ f I J Hl) as (d' & E & I' & J'). exists d'. by split.
    + by apply (send_too_long at_once d (s_sent s)).
  - destruct (handle_same (gem d) (ti_idle _ _ J)) as (c & E & Hs). unfold handle_interrupt.
    erewrite bind_run by (erewrite bind_run by (apply on_gem_run; exact E); reflexivity). eexists. split; [reflexivity|].
    split; [exact (gem_rx_same d c (tx_counter d) (tx_fields d) (wakes d + 1) _ I (sm_rxq _ _ Hs) (sm_rxi _ _ Hs) (sm_rxen _ _ Hs))|].
    exact (gem_tx_same d c (rx_counter d) (rx_fields d) (wakes d + 1) _ J Hs).
Qed.

Lemma gem_performs_spec xs : forall (d : driver) s, gem_inv d s -> Forall gem_fine xs ->
  match spec_run xs s with
  | Some (rs, s') => exists d', performs at_once xs d = Done rs d' /\ gem_inv d' s'
  | None => performs at_once xs d = Panic "TX buffer is too small"
  end.
Proof.
  induction xs as [|x xs IH]; intros d s I Hf; cbn [spec_run performs]; [by exists d|].
  apply Forall_cons_1 in Hf as [Hx Hf]. pose proof (gem_perform_spec d s x I Hx) as Hp. destruct (spec x s) as [[r s1]|].
  - destruct Hp as (d1 & E & I1). rewrite (bind_run _ _ _ _ _ E). specialize (IH d1 s1 I1 Hf).
    destruct (spec_run xs s1) as [[rs s2]|].
    + destruct IH as (d2 & E2 & I2). rewrite (bind_run _ _ _ _ _ E2). by exists d2.
    + unfold bind. by rewrite IH.
  - unfold bind. by rewrite Hp.
Qed.

(** ** Set-up *)

(** A part of the set-up that leaves the transmitter idle. *)
Definition calm (sent : list (list Z)) (c : card) : Prop := idle c /\ c_sent c = sent.
Definition keeps {A} (sent : list (list Z)) (m : M card A) : Prop :=
  forall c, calm sent c -> exists a c', m c = Done a c' /\ calm sent c'.
Lemma calm_ret {A} sent (a : A) : keeps sent (ret a).
Proof. intros c Hc. by exists a, c. Qed.
Lemma calm_bind {A B} sent (m : M card A) (k : A -> M card B) :
  keeps sent m -> (forall a, keeps sent (k a)) -> keeps sent (bind m k).
Proof. intros Hm Hk c Hc. destruct (Hm c Hc) as (a & c1 & E & Hc1). rewrite (bind_run _ _ _ _ _ E). by apply Hk. Qed.
Lemma calm_rd sent r : keeps sent (rd r).
Proof. intros c Hc. by eexists _, c. Qed.
Lemma calm_wr sent r v : r <> 0 -> keeps sent (wr r v).
Proof.
  intros Hr c [(H1 & H2 & H3) H4]. eexists _, _. split; [reflexivity|]. unfold card_wr. rewrite (proj2 (Z.eqb_neq r 0)) by done.
  repeat (case_match; [by split; [split_and!|]|]). case_match; [|by split; [split_and!|]]. unfold card_mdio.
  repeat (case_match; [by split; [split_and!|]|]). by split; [split_and!|].
Qed.
Lemma calm_ctrl sent f v : (Z.of_nat (shift f) <=? 9) && (9 <? Z.of_nat (shift f + width f)) = false -> keeps sent (modify_reg network_control f v).
Proof.
  intros Hf c [(H1 & H2 & H3) H4]. eexists _, _. unfold modify_reg. erewrite bind_run by reflexivity. split; [reflexivity|].
  split; [|done]. split_and!; [| |apply ctrl_bit9]; unfold card_wr; cbn -[Z.testbit].
  - rewrite H1. change (card_rd network_control c) with (c_ctrl c). rewrite (put_spec f v (c_ctrl c) 9), Hf, H3 by lia. apply andb_false_r.
  - rewrite H2. by destruct (Z.testbit _ 3).
Qed.
Lemma calm_modify sent r f v : r <> 0 -> keeps sent (modify_reg r f v).
Proof. intros Hr. apply calm_bind; [apply calm_rd|]. intros w. by apply calm_wr. Qed.

(** Steps of a part of the set-up. *)
Ltac keep := repeat match goal with
  | |- keeps _ (modify_reg network_control _ _) => apply calm_ctrl; reflexivity
  | |- keeps _ (modify_reg _ _ _) => apply calm_modify; discriminate
  | |- keeps _ (wr _ _) => apply calm_wr; discriminate
  | |- keeps _ (rd _) => apply calm_rd
  | |- keeps _ (ret _) => apply calm_ret
  | |- keeps _ (bind _ _) => apply calm_bind; [|intros ?]
  end.

Lemma init_controller_run mac (c : card) : exists c', init_controller mac c = Done tt c' /\ calm (c_sent c) c'.
Proof.
  unfold init_controller. cbv zeta. erewrite bind_run by reflexivity. set (c1 := card_wr network_control 0 c).
  assert (Hc1 : calm (c_sent c) c1) by (split; [unfold idle; split_and!; reflexivity|reflexivity]). clearbody c1.
  match goal with |- exists c', ?m c1 = _ /\ _ => assert (K : keeps (c_sent c) m) by keep end.
  destruct (K c1 Hc1) as ([] & c' & E & Hc'). by exists c'.
Qed.

Lemma idle_bus w : w = 4 -> is_set PHY_MGMT_IDLE w = true.
Proof. intros ->. unfold is_set. rewrite read_spec. reflexivity. Qed.
Lemma mdio_run n (c : card) : wait_for_mdio (Datatypes.S n) c = Done tt c.
Proof. cbn [wait_for_mdio]. erewrite bind_run by reflexivity. by rewrite idle_bus. Qed.
Lemma calm_mdio sent n : keeps sent (wait_for_mdio (Datatypes.S n)).
Proof. intros c Hc. rewrite mdio_run. by exists tt, c. Qed.
Lemma calm_phy_read sent n a r : keeps sent (phy_read (Datatypes.S n) a r).
Proof. unfold phy_read. repeat first [apply calm_mdio|progress keep]. Qed.
Lemma calm_negotiate sent n a : keeps sent (auto_negotiate (Datatypes.S n) a).
Proof.
  unfold auto_negotiate. apply calm_bind; [apply calm_phy_read|]. intros st. destruct (_ =? 0); [apply calm_ret|].
  apply calm_bind; [apply calm_phy_read|]. intros ct. apply calm_bind.
  { unfold phy_write. repeat first [apply calm_mdio|progress keep]. }
  intros _. apply calm_bind.
  { cbn [wait_for_an]. apply calm_bind; [apply calm_phy_read|]. intros r.
    replace (Z.lor r ANCompleteMask =? 0) with false; [apply calm_ret|]. symmetry. apply Z.eqb_neq. intros E.
    apply Z.lor_eq_0_iff in E as [_ E]. discriminate E. }
  intros _. apply calm_bind; [apply calm_phy_read|]. intros _. apply calm_ret.
Qed.

Lemma lor_two h : Z.lor (4 * h) 2 = 4 * h + 2.
Proof.
  replace (4 * h) with (Z.shiftl (2 * h) 1) at 1 by (rewrite Z.shiftl_mul_pow2; lia). change 2 with (Z.shiftl 1 1) at 2.
  rewrite <- Z.shiftl_lor, lor_one, Z.shiftl_mul_pow2; lia.
Qed.
Lemma init_rx_run l (c : card) : Forall (fun i => 0 <= i < 64) l ->
  init_rx_list rx l c = Done (Ok ((fun i => (rx_word i false, 0)) <$> l)) c.
Proof.
  induction l as [|i l IH]; intros Hl; [done|]. apply Forall_cons_1 in Hl as [Hi Hl]. cbn [init_rx_list].
  destruct (rx_word_parts i false Hi) as (h & Ea & Hh & Ew). rewrite Ea.
  replace (Z.land (4 * h) 3 =? 0) with true; cycle 1.
  { symmetry. apply Z.eqb_eq. change 3 with (Z.ones 2). rewrite Z.land_ones by lia. rewrite Z.mul_comm. apply Z_mod_mult. }
  cbn [negb]. erewrite bind_run.
  2:{ unfold phys_u32. rewrite (proj2 (Z.leb_le _ _)), (proj2 (Z.leb_le _ _)) by (unfold u32_max; change (2 ^ 30) with 1073741824 in Hh; lia). reflexivity. }
  rewrite (bind_run _ _ _ _ _ (IH Hl)). unfold ret. cbn [fmap list_fmap]. do 4 f_equal. change (RX_BUF_NUM - 1) with 63. rewrite Ew.
  destruct (i =? 63); rewrite ?lor_two; lia.
Qed.

Hypothesis tx_range : 0 <= tx <= u32_max /\ 0 <= rxl <= u32_max /\ 0 <= txl <= u32_max.

Lemma phys_run a (c : card) : 0 <= a <= u32_max -> phys_u32 a c = Done a c.
Proof. intros Ha. unfold phys_u32. rewrite (proj2 (Z.leb_le _ _)), (proj2 (Z.leb_le _ _)) by lia. reflexivity. Qed.

Lemma word0_fresh i : 0 <= i < 64 -> word0 ((fun i => (rx_word i false, 0)) <$> seqZ 0 RX_BUF_NUM) i = rx_word i false.
Proof.
  intros Hi. unfold word0. rewrite nth_lookup, list_lookup_fmap, lookup_seqZ_lt by (unfold RX_BUF_NUM; lia). cbn.
  by rewrite Z2Nat.id by lia.
Qed.

Lemma gem_init_run n mt phy mac rxmem txmem (c : card) : phy <> u32_max ->
  exists d c', init_device (Datatypes.S n) rx rxl tx txl mt phy mac rxmem txmem c = Done (Ok d) c' /\ gem_inv d (mkNic [] (c_sent c)).
Proof.
  intros Hp. destruct tx_range as (Htx & Hrl & Htl). unfold init_device.
  destruct (init_controller_run mac c) as (c1 & E1 & K1). rewrite (bind_run _ _ _ _ _ E1).
  rewrite (proj2 (Z.eqb_neq _ _)) by done. erewrite bind_run by reflexivity. cbv iota beta.
  destruct (calm_negotiate (c_sent c) n phy c1 K1) as ([] & c2 & E2 & [(Hg & Ht & H9) Hs]). rewrite (bind_run _ _ _ _ _ E2).
  erewrite bind_run by (apply init_rx_run; apply list.Forall_forall; intros i Hi%elem_of_seqZ; unfold RX_BUF_NUM in Hi; lia). cbv iota beta.
  erewrite bind_run by (apply phys_run; exact Hrl). erewrite bind_run by reflexivity.
  set (c3 := card_wr rx_qbar rxl c2).
  erewrite bind_run.
  2:{ change (seqZ 0 TX_BUF_NUM) with [0]. cbn [init_tx_list]. erewrite bind_run by (apply phys_run; unfold TX_BUF_LEN; lia).
      erewrite bind_run by reflexivity. reflexivity. }
  erewrite bind_run by (apply phys_run; exact Htl). erewrite bind_run by reflexivity. erewrite bind_run by reflexivity.
  set (c4 := card_wr int_enable _ _). assert (Hc4 : idle c4) by (by split_and!).
  unfold modify_reg at 1. erewrite bind_run by (erewrite bind_run by reflexivity; reflexivity).
  pose proof (txen_same 1 c4 Hc4) as S5. change (card_rd network_control c4) with (c_ctrl c4). set (c5 := card_wr network_control _ c4) in *.
  pose proof (same_idle _ _ S5 Hc4) as (G5 & T5 & B5).
  unfold modify_reg at 1. erewrite bind_run by (erewrite bind_run by reflexivity; reflexivity).
  change (card_rd network_control c5) with (c_ctrl c5). set (v := put NetworkControl.RXEN 1 (c_ctrl c5)). set (c6 := card_wr network_control v c5).
  assert (V9 : Z.testbit v 9 = false) by (unfold v; rewrite put_spec by lia; exact B5).
  assert (B2 : Z.testbit (c_ctrl c6) 2 = true) by (unfold c6, v; rewrite ctrl_bit, put_spec by lia; done).
  eexists _, _. split; [reflexivity|]. destruct S5 as [S1 S2 S3 S4 _ S6 _ _]. clearbody v c5. split.
  - split; cbn -[Z.testbit seqZ word0]; try done.
    + lia.
    + intros i Hi. rewrite word0_fresh by done. unfold rank. cbn. f_equal. symmetry. apply Z.ltb_ge. apply Z.mod_pos_bound. lia.
  - split; cbn -[Z.testbit]; try done.
    + eexists. split; [rewrite Z.add_0_r; reflexivity|]. by split.
    + split_and!; [| |apply ctrl_bit9]; unfold c6, card_wr; cbn -[Z.testbit]; [rewrite G5, V9; apply andb_false_r|].
      rewrite T5. by destruct (Z.testbit v 3).
    + etransitivity; [exact S6|exact Hs].
Qed.

(** C11: From its set-up on, the driver and a controller that reads a descriptor as
    soon as it is started behave like a queue of 64 received frames and a wire:
    frames come out of the ring in order and unchanged, also around its end, sent
    frames leave in order and unchanged, and the only panic is a frame longer
    than the buffer. *)
Theorem gem_refines n mt phy mac rxmem txmem (c : card) xs : phy <> u32_max -> Forall gem_fine xs ->
  exists d c', init_device (Datatypes.S n) rx rxl tx txl mt phy mac rxmem txmem c = Done (Ok d) c' /\
    match spec_run xs (mkNic [] (c_sent c)) with
    | Some (rs, s) => exists d', performs at_once xs d = Done rs d' /\ c_sent (gem d') = s_sent s
    | None => performs at_once xs d = Panic "TX buffer is too small"
    end.
Proof.
  intros Hp Hf. destruct (gem_init_run n mt phy mac rxmem txmem c Hp) as (d & c' & E & I). exists d, c'. split; [done|].
  pose proof (gem_performs_spec xs d _ I Hf) as Hr. destruct (spec_run xs _) as [[rs s]|]; [|done].
  destruct Hr as (d' & E' & _ & J). exists d'. split; [done|]. apply (ti_sent _ _ J).
Qed.

(** ** What goes wrong *)

(** A controller that looks at the descriptor only after [TxToken::consume] has
    returned finds it marked as used: it stops, and the frame is lost. *)
Lemma gem_late_start_loses (d : driver) q sent f : rx_inv d q -> tx_inv d sent -> Z.of_nat (length f) <= TX_BUF_LEN ->
  exists d' d'', send (ret tt) f d = Done Nothing d' /\ c_go (gem d') = true /\
    card_tx d' = Done tt d'' /\ c_go (gem d'') = false /\ c_sent (gem d'') = sent.
Proof.
  intros I J Hf. destruct (transmit_run d sent J) as (c & Hs & E).
  destruct J as [(w & El & _ & Hw) Hr Hc Hi Hq Hse]. rewrite El in E. pose proof (same_idle _ _ Hs Hi) as Hi1.
  destruct (tx_prepare (ret tt) c (mtu d) (mac d) (rx_counter d) (rx_fields d) (txbuffer (tx_fields d)) w (wakes d + 1) f Hi1 Hw Hf)
    as (c1 & Hg & Ht & Hq1 & Hrq & Hrx & Hs1 & H2 & H9 & E1).
  set (w1 := start_word (Z.of_nat (length f))) in E1.
  assert (U31 : Z.testbit (Z.lor w1 TX_DESC_USED) 31 = true) by (rewrite Z.lor_spec; apply orb_true_r).
  eexists _, _. split; [unfold send; rewrite (bind_run _ _ _ _ _ E); erewrite bind_run by (rewrite E1; erewrite bind_run by reflexivity; apply tx_finish); reflexivity|].
  split; [done|]. destruct Hs. split.
  { unfold card_tx, modify, word1. cbn -[Z.testbit Z.land Z.lor Z.shiftl bytes start_word]. rewrite Hg, Ht, Hq1, sm_txq0, Hq, Z.eqb_refl, Z2Nat.inj_0.
    cbn -[Z.testbit Z.land Z.lor Z.shiftl bytes start_word TX_DESC_USED]. rewrite U31. reflexivity. }
  split; [done|]. cbn. congruence.
Qed.

(** Dropping the token of a frame without consuming it puts the frame behind
    the ones after it: the next one is found first. *)
Lemma gem_dropped_out_of_order (d : driver) f g q sent : rx_inv d (f :: g :: q) -> tx_inv d sent ->
  exists d', (let! o := receive in match o with Some (r, t) => do! drop_rx_token r in drop_tx_token t | None => ret tt end) d = Done tt d' /\
    next_rx_index d' = Some ((rx_counter d + 1) mod 64).
Proof.
  intros I J. pose proof I as [H1 H2 H3 H4 H5 H6 H7 H8 H9 H10]. set (k := rx_counter d) in *. eexists. split.
  - rewrite (bind_run _ _ _ _ _ (gem_receive_run d f (g :: q) sent I J)). cbv iota beta. fold k.
    erewrite bind_run by (unfold drop_rx_token, set_rx_reserved; erewrite bind_run by reflexivity; cbn [rx_fields rxbuffer_reserved];
      erewrite bind_run by (apply put_bool_run; rewrite length_insert; lia); reflexivity).
    unfold set_rx. cbn [gem mtu mac rx_counter rx_fields tx_counter tx_fields wakes rxbuffer rxbuffer_list rxbuffer_reserved].
    apply gem_drop_tx_run.
  - unfold next_rx_index. change (seqZ 0 RX_BUF_NUM) with (0 :: seqZ 1 63). cbn [scan_rx rx_counter rx_fields rxbuffer_list].
    rewrite Z.add_0_l. unfold RX_BUF_NUM. rewrite Zmod_mod. set (i := (k + 1) mod 64).
    assert (Hi : 0 <= i < 64) by (apply Z.mod_pos_bound; lia). rewrite (H9 i Hi), rx_word_land by done.
    assert (Hr : rank d i = 1) by (unfold rank, i; fold k; Z.to_euclidean_division_equations; lia). rewrite Hr. cbn [length].
    rewrite (proj2 (Z.ltb_lt _ _)) by lia. reflexivity.
Qed.

(** ** The search for the physical layer *)

Lemma field_at v s w x : 0 <= s -> 0 <= w -> 0 <= x < 2 ^ w ->
  (forall i, 0 <= i < w -> Z.testbit v (s + i) = Z.testbit x i) -> Z.shiftr v s mod 2 ^ w = x.
Proof.
  intros Hs Hw Hx Hb. rewrite <- (Z.mod_small x (2 ^ w)) by done. apply Z.bits_inj'. intros i Hi.
  destruct (Z.ltb_spec i w) as [Hlt|Hge].
  - rewrite !Z.mod_pow2_bits_low by done. rewrite Z.shiftr_spec by done. rewrite Z.add_comm. by apply Hb.
  - by rewrite !Z.mod_pow2_bits_high by lia.
Qed.

Lemma maintenance_fields o a r : 0 <= o < 4 -> 0 <= a < 32 -> 0 <= r < 32 ->
  let v := maintenance o a r in
  Z.shiftr v 28 mod 4 = o /\ Z.shiftr v 23 mod 32 = a /\ Z.shiftr v 18 mod 32 = r.
Proof.
  intros Ho Ha Hr v. split_and!.
  - apply (field_at v 28 2 o); [lia|lia|done|]. intros i Hi. unfold v, maintenance. rewrite !put_spec by lia.
    assert (i = 0 \/ i = 1) as [->| ->] by lia; reflexivity.
  - apply (field_at v 23 5 a); [lia|lia|done|]. intros i Hi. unfold v, maintenance. rewrite !put_spec by lia.
    assert (i = 0 \/ i = 1 \/ i = 2 \/ i = 3 \/ i = 4) as [->|[->|[->|[->| ->]]]] by lia; reflexivity.
  - apply (field_at v 18 5 r); [lia|lia|done|]. intros i Hi. unfold v, maintenance. rewrite !put_spec by lia.
    assert (i = 0 \/ i = 1 \/ i = 2 \/ i = 3 \/ i = 4) as [->|[->|[->|[->| ->]]]] by lia; reflexivity.
Qed.

Lemma phy_read_exact n a r (c : card) : 0 <= a < 32 -> in_u 16 (c_phy c a (phy_reg r)) ->
  exists m, phy_read (Datatypes.S n) a r c = Done (c_phy c a (phy_reg r)) (set_phy (c_phy c) m c).
Proof.
  intros Ha Hp. set (v := maintenance PHYMaintenance.READ a (phy_reg r)). set (p := c_phy c a (phy_reg r)) in *.
  destruct (maintenance_fields 2 a (phy_reg r)) as (E1 & E2 & E3); [lia|done|destruct r; cbn; lia|]. change (maintenance 2 a (phy_reg r)) with v in E1, E2, E3.
  exists (v - v mod 2 ^ 16 + p). unfold phy_read. rewrite (bind_run _ _ _ _ _ (mdio_run n c)).
  assert (Ew : card_wr phy_maintenance v c = set_phy (c_phy c) (v - v mod 2 ^ 16 + p) c).
  { unfold card_wr. cbn -[card_mdio]. unfold card_mdio. cbv zeta. rewrite E1, E2, E3. reflexivity. }
  erewrite bind_run by (unfold wr, gem_card; fold v; rewrite Ew; reflexivity). rewrite (bind_run _ _ _ _ _ (mdio_run n _)).
  erewrite bind_run by reflexivity. unfold ret. f_equal.
  change (card_rd phy_maintenance _) with (v - v mod 2 ^ 16 + p). rewrite read_spec. change (Z.of_nat (shift _)) with 0. change (Z.of_nat (width _)) with 16. rewrite Z.shiftr_0_r.
  assert ((v - v mod 2 ^ 16 + p) mod 2 ^ 16 = p) as ->; [|by apply wrapu_small].
  rewrite <- Z.add_mod_idemp_l, Zminus_mod, Zmod_mod, Z.sub_diag by done. by apply Z.mod_small.
Qed.

(** The driver takes the first address that answers: one whose control register
    is neither all zeros nor all ones. *)
Definition answers (c : card) (a : Z) : bool := negb ((c_phy c a 0 =? 0xffff) || (c_phy c a 0 =? 0)).
Lemma find_phy_exact n l : forall (c : card), (forall a, a ∈ l -> 0 <= a < 32 /\ in_u 16 (c_phy c a 0)) ->
  exists c', find_phy (Datatypes.S n) l c = Done (head (filter (fun a => answers c a = true) l)) c' /\ c_phy c' = c_phy c.
Proof.
  induction l as [|a l IH]; intros c Hl; [by exists c|]. cbn [find_phy]. destruct (Hl a ltac:(set_solver)) as [Ha Hp].
  destruct (phy_read_exact n a Control c Ha Hp) as (m & E). rewrite (bind_run _ _ _ _ _ E). cbn [phy_reg].
  rewrite filter_cons. destruct (answers c a) eqn:Ea; unfold answers in Ea; apply (f_equal negb) in Ea; rewrite negb_involutive in Ea; rewrite Ea; cbn [negb].
  2:{ rewrite decide_False by done. destruct (IH (set_phy (c_phy c) m c)) as (c' & E' & Hc'); [intros b Hb; apply Hl; set_solver|].
    exists c'. split; [exact E'|exact Hc']. }
  rewrite decide_True by done. by eexists.
Qed.
End Gem.

(** ** A run *)

#[local] Instance demo_bits : Bitfields := {|
  put f v w :=
    let m := Z.shiftl (Z.ones (Z.of_nat (width f))) (Z.of_nat (shift f)) in
    Z.lor (Z.ldiff w m) (Z.land (Z.shiftl v (Z.of_nat (shift f))) m);
  read_field f w := Z.shiftr w (Z.of_nat (shift f)) mod 2 ^ Z.of_nat (width f);
|}.
#[local] Instance demo_bits_laws : BitfieldsLaws.
Proof.
  split; [|done]. intros f v w i Hi. unfold put, demo_bits. cbv zeta. rewrite Z.lor_spec, Z.ldiff_spec, Z.land_spec, !Z.shiftl_spec by done.
  rewrite Z.testbit_ones by lia. destruct (Z.leb_spec (Z.of_nat (shift f)) i), (Z.ltb_spec i (Z.of_nat (shift f + width f))); cbn [andb].
  - rewrite (proj2 (Z.leb_le 0 _)), (proj2 (Z.ltb_lt _ _)) by lia. cbn. by rewrite andb_false_r, andb_true_r.
  - rewrite (proj2 (Z.ltb_ge _ _)) by lia. rewrite andb_false_r. cbn. by rewrite andb_true_r, andb_false_r, orb_false_r.
  - rewrite (proj2 (Z.leb_gt 0 _)) by lia. cbn. by rewrite andb_true_r, andb_false_r, orb_false_r.
  - lia.
Qed.

(** Seventy frames, around the end of the ring, and frames sent in between. *)
Definition gem_blank : card := mkCard 0 0 0 0 0 0 0 0 0 0 false (fun _ _ => 0) 0 [].
Definition gem_traffic : list op :=
  flat_map (fun b => [CardRx [b; b + 1]; Peek; Send [b]; Irq; Poll]) (seqZ 0 70) ++ [Poll].

Lemma gem_refines_witness : exists d c',
  init_device 1 8192 4096 65536 4608 1514 5 [1; 2; 3; 4; 5; 6] (fun _ => 0) (fun _ => 0) gem_blank = Done (Ok d) c' /\
  exists d', performs 8192 4096 (at_once 65536 4608) gem_traffic d =
    Done (flat_map (fun b => [Nothing; Packet true; Nothing; Nothing; Frame (Some [b; b + 1])]) (seqZ 0 70) ++ [Frame None]) d' /\
    c_sent (gem d') = (fun b => [b]) <$> seqZ 0 70.
Proof.
  destruct (gem_refines 8192 4096 65536 4608 ltac:(split; vm_compute; discriminate) eq_refl ltac:(repeat split; vm_compute; discriminate)
    0 1514 5 [1; 2; 3; 4; 5; 6] (fun _ => 0) (fun _ => 0) gem_blank gem_traffic) as (d & c' & E & Hr).
  - discriminate.
  - unfold gem_traffic. apply list.Forall_app. split; [|by repeat constructor]. apply list.Forall_forall. intros x Hx.
    apply list_elem_of_In, in_flat_map in Hx as (b & _ & Hx). repeat (destruct Hx as [<-|Hx]; [vm_compute; first [done|discriminate]|]). done.
  - exists d, c'. split; [exact E|].
    assert (Es : spec_run gem_traffic (mkNic [] (c_sent gem_blank)) =
      Some (flat_map (fun b => [Nothing; Packet true; Nothing; Nothing; Frame (Some [b; b + 1])]) (seqZ 0 70) ++ [Frame None],
            mkNic [] ((fun b => [b]) <$> seqZ 0 70))) by (vm_compute; reflexivity).
    rewrite Es in Hr. exact Hr.
Defined.
End GemProps.
