(* ===== verification/Transport.v ===== *)
(** The virtio transport over memory-mapped registers,
    [src/src/drivers/virtio/transport/mmio.rs], and the negotiation of features,
    [src/src/drivers/virtio/mod.rs]: the status of the device, the configuration
    of a queue, notifications, the acknowledgement of interrupts and the choice
    of the driver.  The registers are a type class. *)

From S2P Require Import Prelude Errors Virtq IndexAlloc SplitVq.

Module Transport.
Import Virtq.

(** [DeviceRegisters], what is used of them. *)
Inductive reg : Set :=
  | Version | DeviceId | DeviceFeatures | DeviceFeaturesSel | DriverFeatures | DriverFeaturesSel
  | QueueSel | QueueNumMax | QueueNum | QueueReady | QueueNotify | InterruptStatus | InterruptAck | Status
  | QueueDesc | QueueDriver | QueueDevice.
#[export] Instance reg_eq_dec : EqDecision reg.
Proof. solve_decision. Defined.

Class Mmio (D : Type) : Type := {
  rd : reg -> M D Z;
  wr : reg -> Z -> M D unit;
}.

(** [DeviceStatus] *)
Definition ACKNOWLEDGE : Z := 1.
Definition DRIVER : Z := 2.
Definition DRIVER_OK : Z := 4.
Definition FEATURES_OK : Z := 8.
Definition DEVICE_NEEDS_RESET : Z := 64.
Definition FAILED : Z := 128.

(** [virtio::F]: the features every device has a bit for. *)
Definition NOTIFICATION_DATA : nat := 38.
Definition ORDER_PLATFORM : nat := 36.

(** [virtio::Id] *)
Inductive Id : Set := Net | Console | Fs | Vsock | OtherId (n : Z).
Definition id_of (n : Z) : Id :=
  if n =? 1 then Net else if n =? 3 then Console else if n =? 26 then Fs else if n =? 19 then Vsock else OtherId n.
Definition as_feature (i : Id) : option string :=
  match i with
  | Net => Some "virtio-net"%string | Console => Some "virtio-console"%string
  | Fs => Some "virtio-fs"%string | Vsock => Some "virtio-vsock"%string | OtherId _ => None
  end.

Inductive DriverError (E : Type) : Type := DevNotSupported (dev_id : Z) | InitFailed (e : E).
Arguments DevNotSupported {E} _.
Arguments InitFailed {E} _.

Section Transport.
Context {D : Type} `{Mmio D}.

(** [update] of a register. *)
Definition update (r : reg) (f : Z -> Z) : M D unit := let! x := rd r in wr r (f x).
Definition contains (bits x : Z) : bool := Z.land x bits =? bits.

(** ** Features *)

(** Words of 32 bits, lowest first. *)
Definition read_device_feature_word (i : Z) : M D Z :=
  if 1 <? i then ret 0 else do! wr DeviceFeaturesSel i in rd DeviceFeatures.
Definition write_driver_feature_word (i word : Z) : M D unit :=
  if 1 <? i then do! assert_ (word =? 0) "assertion failed: word.to_ne() == 0" in ret tt
  else do! wr DriverFeaturesSel i in wr DriverFeatures word.

Definition read_device_features : M D Z :=
  let! w0 := read_device_feature_word 0 in
  let! w1 := read_device_feature_word 1 in
  let! w2 := read_device_feature_word 2 in
  let! w3 := read_device_feature_word 3 in
  ret (w0 + Z.shiftl w1 32 + Z.shiftl w2 64 + Z.shiftl w3 96).
Definition feature_word (i features : Z) : Z := wrapu 32 (Z.shiftr features (32 * i)).
Definition write_driver_features (features : Z) : M D unit :=
  do! write_driver_feature_word 0 (feature_word 0 features) in
  do! write_driver_feature_word 1 (feature_word 1 features) in
  do! write_driver_feature_word 2 (feature_word 2 features) in
  write_driver_feature_word 3 (feature_word 3 features).

(** The conversions between the types of features keep all bits;
    [requirements] is [requirements_satisfied]. *)
Definition negotiate_features (requirements : Z -> bool) (driver_features : Z) : M D Z :=
  let! device_features := read_device_features in
  do! assert_ (requirements device_features)
    "The device offers a feature which requires another feature which was not offered." in
  do! assert_ (requirements driver_features)
    "The driver offers a feature which requires another feature which was not offered." in
  let common_features := Z.land device_features driver_features in
  do! assert_ (requirements common_features)
    "We negotiated a feature which requires another feature which was not negotiated." in
  do! write_driver_features common_features in
  ret common_features.

(** ** The status *)

Definition reset_dev : M D unit := wr Status 0.
Definition set_failed : M D unit := wr Status FAILED.
Definition ack_dev : M D unit := update Status (fun s => Z.lor s ACKNOWLEDGE).
Definition set_drv : M D unit := update Status (fun s => Z.lor s DRIVER).
Definition features_ok : M D unit := update Status (fun s => Z.lor s FEATURES_OK).
Definition check_features : M D bool := let! s := rd Status in ret (contains FEATURES_OK s).
Definition drv_ok : M D unit := update Status (fun s => Z.lor s DRIVER_OK).
Definition does_device_need_reset : M D bool := let! s := rd Status in ret (contains DEVICE_NEEDS_RESET s).

(** ** Queues *)

(** [VqCfgHandler], with its [vq_index]. *)
Definition select_queue (vq_index : Z) : M D unit := wr QueueSel vq_index.
Definition set_vq_size (vq_index max_size : Z) : M D Z :=
  do! select_queue vq_index in
  let! num_max := rd QueueNumMax in
  let size := Z.min max_size num_max in
  do! wr QueueNum size in
  ret size.
Definition set_ring_addr (vq_index addr : Z) : M D unit := do! select_queue vq_index in wr QueueDesc addr.
Definition set_drv_ctrl_addr (vq_index addr : Z) : M D unit := do! select_queue vq_index in wr QueueDriver addr.
Definition set_dev_ctrl_addr (vq_index addr : Z) : M D unit := do! select_queue vq_index in wr QueueDevice addr.
Definition enable_queue (vq_index : Z) : M D unit := do! select_queue vq_index in wr QueueReady 1.

Definition get_max_queue_size (sel : Z) : M D Z := do! wr QueueSel sel in rd QueueNumMax.
(** [true]: there is a handler for the queue. *)
Definition select_vq (index : Z) : M D bool :=
  let! n := get_max_queue_size index in ret (negb (n =? 0)).

(** ** Notifications *)

Record NotificationData : Set := mkNotif { vqn : Z; next_off : Z; next_wrap : Z }.
Definition into_bits (d : NotificationData) : Z := vqn d + Z.shiftl (next_off d) 16 + Z.shiftl (next_wrap d) 31.

Record NotifCtrl : Set := mkNotifCtrl { f_notif_data : bool }.
Definition NotifCtrl_new : NotifCtrl := mkNotifCtrl false.
Definition enable_notif_data (c : NotifCtrl) : NotifCtrl := mkNotifCtrl true.
Definition notify_dev (c : NotifCtrl) (data : NotificationData) : M D unit :=
  wr QueueNotify (if f_notif_data c then into_bits data else vqn data).

(** [IsrStatus::acknowledge] *)
Definition acknowledge : M D Z :=
  let! status := rd InterruptStatus in
  do! wr InterruptAck status in
  ret status.

(** [SplitVq::new]: the three areas are at the bus addresses [table], [avail] and
    [used]. *)
Definition split_new (table avail used max_size index features : Z) : M D (Result VirtqError (SplitVq.ring * Z * NotifCtrl)) :=
  let! ok := select_vq index in
  if negb ok then ret (Err (QueueNotExisting index))
  else
    let! size := set_vq_size index max_size in
    do! set_ring_addr index table in
    do! set_drv_ctrl_addr index avail in
    do! set_dev_ctrl_addr index used in
    let notif_ctrl := if Z.testbit features (Z.of_nat NOTIFICATION_DATA) then enable_notif_data NotifCtrl_new else NotifCtrl_new in
    do! enable_queue index in
    match SplitVq.new (Some size) size index with
    | Ok r => ret (Ok (r, size, notif_ctrl))
    | Err e => ret (Err e)
    end.

(** ** The choice of the driver *)

(** [init]: the initialisation of the driver for a device the kernel was built
    with. *)
Definition init_device {E A : Type} (init : Id -> option (M D (Result E A))) : M D (Result (DriverError E) A) :=
  let dev_id := 0 in
  let! version := rd Version in
  if version =? 1 then ret (Err (DevNotSupported dev_id))
  else
    let! id := rd DeviceId in
    match init (id_of id) with
    | None => ret (Err (DevNotSupported dev_id))
    | Some m => let! r := m in ret (match r with Ok x => Ok x | Err e => Err (InitFailed e) end)
    end.
End Transport.
End Transport.
