(* ===== verification/TransportProps.v ===== *)
(** The virtio transport against a device that follows the specification
    (Virtio 1.2, sections 2.1, 3.1 and 4.2): features are negotiated to what
    both sides know, a queue is configured and no other, and the network driver
    brings its device up. *)

From S2P Require Import Prelude Errors Virtq VqSpec IndexAlloc SplitVq SplitProps Transport NetChecksum VirtioNet NetProps.

Module TransportProps.
Import Virtq Transport.

(** ** The device *)

Record vqueue : Type := mkQ { q_max : Z; q_num : Z; q_desc : Z; q_driver : Z; q_device : Z; q_ready : bool }.

(** [d_drv0] and [d_drv1] are the words of features the driver wrote, [d_fsel]
    to [d_qsel] the selectors; [d_notes] are the notifications, each with
    whether the device was running ([DRIVER_OK]) when it came; [d_broken] is set
    by anything else a driver must not do. *)
Record dev : Type := mkDev {
  d_status : Z; d_offered : Z; d_drv0 : Z; d_drv1 : Z; d_fsel : Z; d_gsel : Z; d_qsel : Z; d_queues : list vqueue;
  d_isr : Z; d_notes : list (bool * Z); d_broken : bool }.
Definition set_status (x : Z) (b : bool) (d : dev) : dev :=
  mkDev x (d_offered d) (d_drv0 d) (d_drv1 d) (d_fsel d) (d_gsel d) (d_qsel d) (d_queues d) (d_isr d) (d_notes d) (d_broken d || b).
Definition set_words (w0 w1 : Z) (b : bool) (d : dev) : dev :=
  mkDev (d_status d) (d_offered d) w0 w1 (d_fsel d) (d_gsel d) (d_qsel d) (d_queues d) (d_isr d) (d_notes d) (d_broken d || b).
Definition set_sels (f g q : Z) (d : dev) : dev :=
  mkDev (d_status d) (d_offered d) (d_drv0 d) (d_drv1 d) f g q (d_queues d) (d_isr d) (d_notes d) (d_broken d).
Definition set_queues (l : list vqueue) (b : bool) (d : dev) : dev :=
  mkDev (d_status d) (d_offered d) (d_drv0 d) (d_drv1 d) (d_fsel d) (d_gsel d) (d_qsel d) l (d_isr d) (d_notes d) (d_broken d || b).
Definition set_isr (x : Z) (n : list (bool * Z)) (b : bool) (d : dev) : dev :=
  mkDev (d_status d) (d_offered d) (d_drv0 d) (d_drv1 d) (d_fsel d) (d_gsel d) (d_qsel d) (d_queues d) x n (d_broken d || b).

Definition driver_features (d : dev) : Z := d_drv0 d + Z.shiftl (d_drv1 d) 32.
Definition fresh_queue (q : vqueue) : vqueue := mkQ (q_max q) 0 0 0 0 false.
Definition no_queue : vqueue := mkQ 0 0 0 0 0 false.
Definition selected (d : dev) : vqueue := nth (Z.to_nat (d_qsel d)) (d_queues d) no_queue.
Definition has (bit s : Z) : bool := Z.land s bit =? bit.
Arguments has _ _ : simpl never.

Section Device.
(** Which subsets of its features the device accepts, and which device it is. *)
Variables (accepts : Z -> bool) (device_id : Z).

Definition dev_rd (r : reg) (d : dev) : Z :=
  match r with
  | Version => 2
  | DeviceId => device_id
  | DeviceFeatures => feature_word (d_fsel d) (d_offered d)
  | QueueNumMax => q_max (selected d)
  | InterruptStatus => d_isr d
  | Status => d_status d
  | _ => 0
  end.

(** The steps of the status: no bit is cleared but by a reset, and each bit asks
    for the ones before it. *)
Definition legal (old new : Z) : bool :=
  has old new && implb (has DRIVER new) (has ACKNOWLEDGE old) && implb (has FEATURES_OK new) (has DRIVER old) &&
  implb (has DRIVER_OK new) (has FEATURES_OK old).
Definition write_status (v : Z) (d : dev) : dev :=
  if v =? 0 then
    mkDev 0 (d_offered d) 0 0 (d_fsel d) (d_gsel d) (d_qsel d) (fresh_queue <$> d_queues d) 0 (d_notes d) (d_broken d)
  else
    let asked := has FEATURES_OK v && negb (has FEATURES_OK (d_status d)) in
    let f := driver_features d in
    let refused := asked && negb ((Z.land f (d_offered d) =? f) && accepts f) in
    set_status (if refused then Z.ldiff v FEATURES_OK else v) (negb (legal (d_status d) v)) d.

(** A queue is configured between the negotiation and the start, before it is
    ready. *)
Definition may_configure (d : dev) : bool :=
  has FEATURES_OK (d_status d) && negb (has DRIVER_OK (d_status d)) && negb (q_ready (selected d)).
Definition on_queue (f : vqueue -> vqueue) (ok : bool) (d : dev) : dev :=
  set_queues (<[Z.to_nat (d_qsel d) := f (selected d)]> (d_queues d)) (negb (ok && may_configure d)) d.

Definition dev_wr (r : reg) (v : Z) (d : dev) : dev :=
  match r with
  | DeviceFeaturesSel => set_sels v (d_gsel d) (d_qsel d) d
  | DriverFeaturesSel => set_sels (d_fsel d) v (d_qsel d) d
  | DriverFeatures =>
      let bad := negb (has DRIVER (d_status d)) || has FEATURES_OK (d_status d) in
      if d_gsel d =? 0 then set_words v (d_drv1 d) bad d
      else if d_gsel d =? 1 then set_words (d_drv0 d) v bad d else set_words (d_drv0 d) (d_drv1 d) bad d
  | QueueSel => set_sels (d_fsel d) (d_gsel d) v d
  | QueueNum => on_queue (fun q => mkQ (q_max q) v (q_desc q) (q_driver q) (q_device q) (q_ready q)) (v <=? q_max (selected d)) d
  | QueueDesc => on_queue (fun q => mkQ (q_max q) (q_num q) v (q_driver q) (q_device q) (q_ready q)) true d
  | QueueDriver => on_queue (fun q => mkQ (q_max q) (q_num q) (q_desc q) v (q_device q) (q_ready q)) true d
  | QueueDevice => on_queue (fun q => mkQ (q_max q) (q_num q) (q_desc q) (q_driver q) v (q_ready q)) true d
  | QueueReady => on_queue (fun q => mkQ (q_max q) (q_num q) (q_desc q) (q_driver q) (q_device q) (v =? 1))
                    (negb (q_num (selected d) =? 0)) d
  | QueueNotify => set_isr (d_isr d) (d_notes d ++ [(has DRIVER_OK (d_status d), v)]) false d
  | InterruptAck => set_isr (Z.ldiff (d_isr d) v) (d_notes d) false d
  | Status => write_status v d
  | _ => set_status (d_status d) true d
  end.
#[local] Instance spec_dev : Mmio dev := {|
  rd r d := Done (dev_rd r d) d;
  wr r v d := Done tt (dev_wr r v d);
|}.

(** ** Features *)

Lemma word_split f : 0 <= f < 2 ^ 64 -> feature_word 0 f + Z.shiftl (feature_word 1 f) 32 = f.
Proof.
  intros Hf. unfold feature_word, wrapu. rewrite Z.shiftl_mul_pow2, Z.mul_0_r, Z.shiftr_0_r, Z.shiftr_div_pow2 by lia.
  change (32 * 1) with 32. rewrite (Z.mod_small (f / 2 ^ 32)); [|split; [apply Z.div_pos|apply Z.div_lt_upper_bound]; lia].
  pose proof (Z.div_mod f (2 ^ 32) ltac:(lia)). lia.
Qed.
Lemma high_words f : 0 <= f < 2 ^ 64 -> feature_word 2 f = 0 /\ feature_word 3 f = 0.
Proof.
  intros Hf. unfold feature_word, wrapu. rewrite !Z.shiftr_div_pow2 by lia. change (32 * 2) with 64. change (32 * 3) with 96.
  rewrite !(Z.div_small f); [done| |]; change (2 ^ 96) with (2 ^ 64 * 2 ^ 32); lia.
Qed.

Lemma read_word_run i d : (i <= 1)%Z ->
  read_device_feature_word i d = Done (feature_word i (d_offered d)) (set_sels i (d_gsel d) (d_qsel d) d).
Proof. intros Hi. unfold read_device_feature_word. rewrite (proj2 (Z.ltb_ge 1 i)) by done. reflexivity. Qed.
Lemma read_features_run d : 0 <= d_offered d < 2 ^ 64 ->
  read_device_features d = Done (d_offered d) (set_sels 1 (d_gsel d) (d_qsel d) d).
Proof.
  intros Hf. unfold read_device_features. rewrite (bind_run _ _ _ _ _ (read_word_run 0 d ltac:(lia))).
  rewrite (bind_run _ _ _ _ _ (read_word_run 1 _ ltac:(lia))). do 2 (erewrite bind_run by reflexivity). unfold ret. f_equal.
  cbn [d_offered set_sels]. rewrite !Z.shiftl_0_l. pose proof (word_split (d_offered d) Hf). lia.
Qed.

Lemma write_word_run i w d : i = 0 \/ i = 1 -> has DRIVER (d_status d) = true -> has FEATURES_OK (d_status d) = false ->
  write_driver_feature_word i w d =
    Done tt (set_words (if i =? 0 then w else d_drv0 d) (if i =? 0 then d_drv1 d else w) false (set_sels (d_fsel d) i (d_qsel d) d)).
Proof.
  intros Hi Hd Ho. unfold write_driver_feature_word, bind, wr, spec_dev, dev_wr, set_words, set_sels.
  destruct Hi as [->| ->]; cbv [Z.ltb Z.eqb Z.compare Pos.compare Pos.compare_cont Pos.eqb]; cbn; rewrite Hd, Ho; reflexivity.
Qed.
Lemma write_features_run f d : 0 <= f < 2 ^ 64 -> has DRIVER (d_status d) = true -> has FEATURES_OK (d_status d) = false ->
  exists g, write_driver_features f d = Done tt (set_words (feature_word 0 f) (feature_word 1 f) false (set_sels (d_fsel d) g (d_qsel d) d)).
Proof.
  intros Hf Hd Ho. destruct (high_words f Hf) as [E2 E3]. unfold write_driver_features. rewrite E2, E3. exists 1.
  erewrite bind_run by (apply write_word_run; [lia|exact Hd|exact Ho]).
  erewrite bind_run by (apply write_word_run; [lia|exact Hd|exact Ho]).
  erewrite bind_run by reflexivity. change (write_driver_feature_word 3 0 ?d) with (Done tt d). unfold set_words, set_sels. cbn. by rewrite !orb_false_r.
Qed.

(** Both sides end up with what both know. *)
Lemma negotiate_run req wanted d :
  0 <= d_offered d < 2 ^ 64 -> 0 <= wanted < 2 ^ 64 -> has DRIVER (d_status d) = true -> has FEATURES_OK (d_status d) = false ->
  req (d_offered d) = true -> req wanted = true -> req (Z.land (d_offered d) wanted) = true ->
  let f := Z.land (d_offered d) wanted in
  exists d', negotiate_features req wanted d = Done f d' /\ driver_features d' = f /\ d_status d' = d_status d /\
    d_offered d' = d_offered d /\ d_queues d' = d_queues d /\ d_notes d' = d_notes d /\ d_broken d' = d_broken d.
Proof.
  intros Ho Hw Hd Hok R1 R2 R3 f.
  assert (Hf : 0 <= f < 2 ^ 64).
  { assert (Ef : f mod 2 ^ 64 = f).
    { unfold f. rewrite <- Z.land_ones, <- Z.land_assoc by lia. by rewrite Z.land_ones, Z.mod_small by lia. }
    rewrite <- Ef. by apply Z.mod_pos_bound. }
  unfold negotiate_features. rewrite (bind_run _ _ _ _ _ (read_features_run d Ho)). rewrite R1, R2. cbv zeta. rewrite R3. fold f.
  do 3 (erewrite bind_run by reflexivity).
  destruct (write_features_run f (set_sels 1 (d_gsel d) (d_qsel d) d) Hf Hd Hok) as [g E]. rewrite (bind_run _ _ _ _ _ E).
  eexists. split; [reflexivity|]. unfold driver_features. cbn [d_drv0 d_drv1 set_words]. split; [by apply word_split|].
  split_and!; try done. cbn. apply orb_false_r.
Qed.

(** ** Queues *)

Definition configuring (d : dev) : Prop := has FEATURES_OK (d_status d) = true /\ has DRIVER_OK (d_status d) = false.

Lemma config_queue_run i q f (b : bool) d : configuring d -> d_qsel d = Z.of_nat i -> d_queues d !! i = Some q -> q_ready q = false -> b = true ->
  on_queue f b d = set_queues (<[i := f q]> (d_queues d)) false d.
Proof.
  intros [H1 H2] Hi Hq Hr ->. unfold on_queue, may_configure, selected. rewrite Hi, Nat2Z.id, H1, H2.
  rewrite (nth_lookup_Some _ _ _ _ Hq), Hr. reflexivity.
Qed.

(** The device [d] with its queue [i] changed to [q], and other selectors. *)
Record with_queue (d : dev) (i : nat) (q : vqueue) (d' : dev) : Prop := {
  wq_queues : d_queues d' = <[i := q]> (d_queues d);
  wq_status : d_status d' = d_status d;
  wq_drv0 : d_drv0 d' = d_drv0 d;
  wq_drv1 : d_drv1 d' = d_drv1 d;
  wq_offered : d_offered d' = d_offered d;
  wq_notes : d_notes d' = d_notes d;
  wq_broken : d_broken d' = d_broken d;
}.

(** One write to the configuration of a queue. *)
Lemma config_run d i q d' r v f b : configuring d -> (i < length (d_queues d))%nat -> with_queue d i q d' -> q_ready q = false ->
  (forall d0, selected d0 = q -> dev_wr r v d0 = on_queue f (b d0) d0 /\ b d0 = true) ->
  exists d'', (do! select_queue (Z.of_nat i) in wr r v) d' = Done tt d'' /\ with_queue d i (f q) d''.
Proof.
  intros [C1 C2] Hi [Q1 Q2 Q3 Q4 Q5 Q6 Q7] Hr Hw. erewrite bind_run by reflexivity. eexists. split; [reflexivity|].
  set (d0 := set_sels (d_fsel d') (d_gsel d') (Z.of_nat i) d').
  change (dev_wr QueueSel (Z.of_nat i) d') with d0.
  assert (Hl : d_queues d0 !! i = Some q) by (cbn; rewrite Q1; by apply list_lookup_insert_eq).
  assert (Es : selected d0 = q) by (unfold selected, d0; cbn [d_qsel set_sels]; rewrite Nat2Z.id; by apply nth_lookup_Some).
  destruct (Hw d0 Es) as [-> Eb].
  rewrite (config_queue_run i q f (b d0) d0); [|by split; cbn; rewrite Q2|done|done|done|done].
  split; cbn; try done; [|by rewrite orb_false_r]. rewrite Q1. apply list_insert_insert_eq.
Qed.

(** The size, the three addresses, and ready: for this queue and no other. *)
Lemma split_new_run table avail used max i feats d q :
  configuring d -> d_queues d !! i = Some q -> q_ready q = false -> 0 < q_max q -> 0 < max ->
  let size := Z.min max (q_max q) in
  exists r ctl d', split_new table avail used max (Z.of_nat i) feats d = Done (Ok (r, size, ctl)) d' /\
    SplitVq.new (Some size) size (Z.of_nat i) = Ok r /\ f_notif_data ctl = Z.testbit feats 38 /\
    with_queue d i (mkQ (q_max q) size table avail used true) d'.
Proof.
  intros Hc Hq Hr Hm Hmax size. unfold split_new. set (idx := Z.of_nat i).
  pose proof (lookup_lt_Some _ _ _ Hq) as Hi. set (d1 := set_sels (d_fsel d) (d_gsel d) idx d).
  assert (Es : selected d1 = q) by (unfold selected, d1, idx; cbn [d_qsel d_queues set_sels]; rewrite Nat2Z.id; by apply nth_lookup_Some).
  assert (E1 : select_vq idx d = Done true d1).
  { unfold select_vq, get_max_queue_size. erewrite bind_run by (erewrite bind_run by reflexivity; reflexivity).
    change (dev_rd QueueNumMax _) with (q_max (selected d1)). rewrite Es. rewrite (proj2 (Z.eqb_neq _ _)) by lia. reflexivity. }
  rewrite (bind_run _ _ _ _ _ E1). cbn [negb].
  assert (W1 : with_queue d i q d1) by (split; try done; cbn; by rewrite list_insert_id).
  destruct (config_run d i q d1 QueueNum size (fun q => mkQ (q_max q) size (q_desc q) (q_driver q) (q_device q) (q_ready q))
    (fun d0 => size <=? q_max (selected d0)) Hc Hi W1 Hr) as (d2 & E2 & W2).
  { intros d0 E0. split; [done|]. rewrite E0. apply Z.leb_le. lia. }
  assert (E2' : set_vq_size idx max d1 = Done size d2).
  { unfold set_vq_size. erewrite bind_run in E2 by reflexivity. erewrite bind_run by reflexivity. erewrite bind_run by reflexivity.
    change (dev_rd QueueNumMax _) with (q_max (selected d1)). rewrite Es. fold size. by rewrite (bind_run _ _ _ _ _ E2). }
  rewrite (bind_run _ _ _ _ _ E2').
  destruct (config_run d i _ d2 QueueDesc table (fun q => mkQ (q_max q) (q_num q) table (q_driver q) (q_device q) (q_ready q))
    (fun _ => true) Hc Hi W2 Hr) as (d3 & E3 & W3); [done|]. rewrite (bind_run _ _ _ _ _ E3).
  destruct (config_run d i _ d3 QueueDriver avail (fun q => mkQ (q_max q) (q_num q) (q_desc q) avail (q_device q) (q_ready q))
    (fun _ => true) Hc Hi W3 Hr) as (d4 & E4 & W4); [done|]. rewrite (bind_run _ _ _ _ _ E4).
  destruct (config_run d i _ d4 QueueDevice used (fun q => mkQ (q_max q) (q_num q) (q_desc q) (q_driver q) used (q_ready q))
    (fun _ => true) Hc Hi W4 Hr) as (d5 & E5 & W5); [done|]. rewrite (bind_run _ _ _ _ _ E5).
  destruct (config_run d i _ d5 QueueReady 1 (fun q => mkQ (q_max q) (q_num q) (q_desc q) (q_driver q) (q_device q) true)
    (fun d0 => negb (q_num (selected d0) =? 0)) Hc Hi W5 Hr) as (d6 & E6 & W6).
  { intros d0 E0. split; [done|]. rewrite E0. cbn. rewrite (proj2 (Z.eqb_neq _ _)) by lia. done. }
  cbv zeta. rewrite (bind_run _ _ _ _ _ E6). unfold SplitVq.new. rewrite Z.min_id.
  eexists _, _, d6. split; [reflexivity|]. split; [reflexivity|]. split; [|exact W6]. by destruct (Z.testbit feats _).
Qed.

(** ** The status *)

Lemma status_run bits d (m : M dev unit) : m = update Status (fun s => Z.lor s bits) ->
  Z.lor (d_status d) bits <> 0 -> has FEATURES_OK bits = false -> legal (d_status d) (Z.lor (d_status d) bits) = true ->
  (has FEATURES_OK (d_status d) = false -> has FEATURES_OK (Z.lor (d_status d) bits) = false) ->
  m d = Done tt (set_status (Z.lor (d_status d) bits) false d).
Proof.
  intros -> Hz Hb Hl Hf. unfold update. erewrite bind_run by reflexivity. unfold wr, spec_dev, dev_wr, write_status. f_equal.
  change (dev_rd Status d) with (d_status d). rewrite (proj2 (Z.eqb_neq _ _)) by done. cbv zeta. rewrite Hl.
  replace (has FEATURES_OK (Z.lor (d_status d) bits) && negb (has FEATURES_OK (d_status d))) with false; [done|].
  destruct (has FEATURES_OK (d_status d)); [by rewrite andb_false_r|]. by rewrite Hf.
Qed.

(** [FEATURES_OK] stays when the device accepts what was negotiated. *)
Lemma features_ok_run d : d_status d = 3 ->
  features_ok d = Done tt (set_status (if (Z.land (driver_features d) (d_offered d) =? driver_features d) && accepts (driver_features d) then 11 else 3) false d).
Proof.
  intros E. unfold features_ok, update. erewrite bind_run by reflexivity. unfold wr, spec_dev, dev_wr, write_status. f_equal.
  change (dev_rd Status d) with (d_status d). rewrite E. change (Z.lor 3 FEATURES_OK) with 11. cbv zeta. change (legal 3 11) with true.
  change (has FEATURES_OK 11 && negb (has FEATURES_OK 3)) with true. cbn [andb]. by destruct (_ && _).
Qed.

(** ** The network driver over this transport *)

Import VqSpec NetChecksum VirtioNet NetProps.

(** The numbers of the features (section 5.1.3 and 6). *)
Definition of_bits (z : Z) : NetF :=
  let b i := Z.testbit z i in
  mkNetF (b 32) (b 5) (b 28) (b 34) (b 38) (b 3) (b 15) (b 16) (b 17) (b 22) (b 0) (b 1) (b 7) (b 8) (b 10).
Definition to_bits (f : NetF) : Z :=
  let b (x : bool) i := if x then 2 ^ i else 0 in
  b (VERSION_1 f) 32 + b (MAC f) 5 + b (INDIRECT_DESC f) 28 + b (RING_PACKED f) 34 + b (NOTIFICATION_DATA f) 38 + b (MTU f) 3 +
  b (MRG_RXBUF f) 15 + b (STATUS f) 16 + b (CTRL_VQ f) 17 + b (MQ f) 22 + b (CSUM f) 0 + b (GUEST_CSUM f) 1 + b (GUEST_TSO4 f) 7 +
  b (GUEST_TSO6 f) 8 + b (GUEST_UFO f) 10.
Lemma bits_roundtrip : of_bits (to_bits wanted) = wanted.
Proof. reflexivity. Qed.

Context `{Wire}.
Variables (alloc_at : Z -> Z) (default_mtu : Z) (mrg : option Z) (req : Z -> bool) (area : Z -> Z -> Z) (feats : Z).
#[local] Existing Instances SplitVq.split_queue SplitProps.split_laws.

(** The queues of a device without packed ones. *)
Definition mmio_vq (packed : bool) (max idx : Z) : M dev (Result VirtqError (SplitVq.ring * Z)) :=
  if packed then panic "packed queue"
  else
    let! r := split_new (area idx 0) (area idx 1) (area idx 2) max idx feats in
    ret (match r with Ok (q, size, _) => Ok (q, size) | Err e => Err e end).
(** The notifications of a queue, in the order it made them. *)
Definition note (s : SplitVq.ring) (next_idx : Z) : Z :=
  let data := mkNotif (SplitVq.index s) (next_idx mod 2 ^ 15) (next_idx / 2 ^ 15) in
  if Z.testbit feats 38 then into_bits data else vqn data.
Fixpoint notify_all (s : SplitVq.ring) (l : list Z) : M dev unit :=
  match l with
  | [] => ret tt
  | next_idx :: l =>
      do! Transport.notify_dev (mkNotifCtrl (Z.testbit feats 38))
            (mkNotif (SplitVq.index s) (next_idx mod 2 ^ 15) (next_idx / 2 ^ 15)) in
      notify_all s l
  end.
Definition mmio_notify (s : SplitVq.ring) : M dev unit := notify_all s (SplitVq.notified s).

Lemma notify_all_run s l d :
  notify_all s l d = Done tt (set_isr (d_isr d) (d_notes d ++ ((fun n => (has DRIVER_OK (d_status d), note s n)) <$> l)) false d).
Proof.
  revert d. induction l as [|n l IH]; intros d.
  - cbn. unfold ret, set_isr. rewrite app_nil_r, orb_false_r. by destruct d.
  - cbn [notify_all]. erewrite bind_run by reflexivity. rewrite IH. unfold set_isr, note. cbn.
    by rewrite <- app_assoc, !orb_false_r.
Qed.

Definition net_init : NetDevCfg -> M (dev * driver) (Result VirtioNetError unit) :=
  init_dev (S := SplitVq.ring) alloc_at default_mtu mrg reset_dev ack_dev set_drv features_ok drv_ok
    (fun w => let! f := negotiate_features req (to_bits w) in ret (of_bits f)) check_features mmio_vq mmio_notify.

(** The size of a queue the driver asks for, a power of two. *)
Definition net_size (q : vqueue) : Z := Z.min 2048 (q_max q).
Definition usable (q : vqueue) : Prop := q_ready q = false /\ 0 < q_max q /\ (net_size q | 65536).

Lemma mmio_vq_run i d q : configuring d -> d_queues d !! i = Some q -> usable q ->
  exists r d', mmio_vq false 2048 (Z.of_nat i) d = Done (Ok (r, net_size q)) d' /\
    SplitProps.repr r (VqSpec.empty (Z.to_nat (net_size q))) /\
    with_queue d i (mkQ (q_max q) (net_size q) (area (Z.of_nat i) 0) (area (Z.of_nat i) 1) (area (Z.of_nat i) 2) true) d'.
Proof.
  intros Hc Hq (Hr & Hm & Hd). unfold mmio_vq.
  destruct (split_new_run (area (Z.of_nat i) 0) (area (Z.of_nat i) 1) (area (Z.of_nat i) 2) 2048 i feats d q Hc Hq Hr Hm ltac:(lia))
    as (r & ctl & d' & E & En & _ & W). rewrite (bind_run _ _ _ _ _ E). fold (net_size q) in *.
  destruct (SplitProps.new_repr (net_size q) (net_size q) (Z.of_nat i)) as (r' & En' & R); [rewrite Z.min_id; unfold net_size; lia|by rewrite Z.min_id|].
  rewrite Z.min_id in R. assert (r' = r) as -> by congruence. by exists r, d'.
Qed.

Lemma on_com_run {A} (m : M dev A) (c c' : dev) (d : driver (S := SplitVq.ring)) a : m c = Done a c' -> on_com m (c, d) = Done a (c', d).
Proof. intros E. unfold on_com, zoom. cbn [fst]. by rewrite E. Qed.

Lemma subset_land o w : Z.land (Z.land o w) o = Z.land o w.
Proof. rewrite <- Z.land_assoc, (Z.land_comm w o), Z.land_assoc. by rewrite Z.land_diag. Qed.

(** Up to the answer of the device: the status is 3 or 11. *)
Lemma handshake_run d : 0 <= d_offered d < 2 ^ 64 -> d_broken d = false ->
  let f := Z.land (d_offered d) (to_bits wanted) in
  req (d_offered d) = true -> req (to_bits wanted) = true -> req f = true ->
  exists da db d1 d2, reset_dev d = Done tt da /\ ack_dev da = Done tt db /\ set_drv db = Done tt d1 /\
    negotiate_features req (to_bits wanted) d1 = Done f d2 /\
    driver_features d2 = f /\ d_status d2 = 3 /\ d_offered d2 = d_offered d /\ d_queues d2 = fresh_queue <$> d_queues d /\ d_notes d2 = d_notes d /\ d_broken d2 = false /\
    features_ok d2 = Done tt (set_status (if accepts f then 11 else 3) false d2).
Proof.
  intros Ho Hb f R1 R2 R3. set (d0 := write_status 0 d).
  pose proof (status_run ACKNOWLEDGE d0 ack_dev eq_refl ltac:(discriminate) eq_refl eq_refl ltac:(reflexivity)) as E1.
  set (d1 := set_status _ false d0) in E1.
  pose proof (status_run DRIVER d1 set_drv eq_refl ltac:(discriminate) eq_refl eq_refl ltac:(reflexivity)) as E2.
  set (d2 := set_status _ false d1) in E2.
  destruct (negotiate_run req (to_bits wanted) d2 Ho ltac:(by vm_compute) eq_refl eq_refl R1 R2 R3) as (d3 & E & Hf & Hs & Hof & Hq & Hno & Hbr).
  exists d0, d1, d2, d3. split; [done|]. split; [exact E1|]. split; [exact E2|]. split; [exact E|]. split; [exact Hf|]. split; [by rewrite Hs|]. split; [by rewrite Hof|].
  split; [by rewrite Hq|]. split; [by rewrite Hno|]. split; [rewrite Hbr; unfold d2, d1, d0, write_status, set_status; cbn [d_broken Z.eqb]; by rewrite Hb|].
  rewrite features_ok_run by (by rewrite Hs). rewrite Hf, Hof. change (d_offered d2) with (d_offered d). rewrite subset_land, Z.eqb_refl. done.
Qed.

Lemma rx_buf_size_run {St} (c : NetDevCfg) (s : St) : in_u 16 default_mtu -> in_u 16 (cfg_mtu c) ->
  (forall n, mrg = Some n -> 0 < n <= u32_max) ->
  exists bs, determine_rx_buf_size default_mtu mrg c s = Done bs s /\ 0 <= bs <= u32_max.
Proof.
  intros H1 H2 H3. unfold determine_rx_buf_size. assert (0 <= determine_mtu default_mtu c < 65536).
  { unfold determine_mtu, in_u in *. change (2 ^ 16) with 65536 in *. by destruct (MTU _). }
  unfold u32_max, HDR_SIZE in *.
  assert (Hd : forall k, 0 <= k <= 70000 -> 0 <= Z.max (determine_mtu default_mtu c) k <= 4294967295) by (intros; lia).
  destruct (MRG_RXBUF _); [destruct mrg as [n|]|]; cbv zeta.
  - destruct (H3 n eq_refl). rewrite (proj2 (Z.ltb_lt _ _)) by lia. eexists. split; [reflexivity|lia].
  - destruct (_ || _); eexists; (split; [reflexivity|]); apply Hd; lia.
  - destruct (_ || _); eexists; (split; [reflexivity|]); apply Hd; lia.
Qed.

(** The device after a successful start. *)
Definition live_queue (i : Z) (q : vqueue) : vqueue := mkQ (q_max q) (net_size q) (area i 0) (area i 1) (area i 2) true.
Definition net_live (f : Z) (d0 dv : dev) (q0 q1 : vqueue) (drv : driver (S := SplitVq.ring)) : Prop :=
  d_status dv = 15 /\ driver_features dv = f /\ features (dev_cfg drv) = of_bits f /\
  d_queues dv = <[1%nat := live_queue 1 q1]> (<[0%nat := live_queue 0 q0]> (fresh_queue <$> d_queues d0)) /\
  (exists s v bs, rx_vqs (recv_vqs drv) = [s] /\ rx_buf_size (recv_vqs drv) = bs /\ SplitProps.repr s v /\
     d_notes dv = d_notes d0 ++ ((fun n => (false, note s n)) <$> SplitVq.notified s) /\
     stocked bs (Z.to_nat (net_size q0) / 2) (Z.to_nat (net_size q0) mod 2) v) /\
  (exists s, let n := Z.to_nat (net_size q1) in tx_inv (repr := SplitProps.repr) (determine_mtu default_mtu (dev_cfg drv)) n 0 drv s (VqSpec.empty n)).

(** Creating the two queues: the receive queue is filled, and the device gets
    its notifications, before the send queue is created. *)
Lemma queues_ready d2 d3 d4 q0 q1 r0 (drv1 : driver (S := SplitVq.ring)) bs :
  d3 = set_status 11 false d2 -> RING_PACKED (features (dev_cfg drv1)) = false ->
  0 < net_size q0 <= 2048 -> 0 < net_size q1 <= 2048 -> usable (fresh_queue q1) ->
  d_queues d2 !! 1%nat = Some (fresh_queue q1) ->
  mmio_vq false 2048 0 d3 = Done (Ok (r0, net_size q0)) d4 ->
  SplitProps.repr r0 (VqSpec.empty (Z.to_nat (net_size q0))) -> with_queue d3 0 (live_queue 0 q0) d4 ->
  0 <= bs <= u32_max -> rx_buf_size (recv_vqs drv1) = bs ->
  rx_vqs (recv_vqs drv1) = [] /\ tx_vqs (send_vqs drv1) = [] /\ send_capacity drv1 = 0 ->
  (MQ (features (dev_cfg drv1)) = true -> 1 <= cfg_max_virtqueue_pairs (dev_cfg drv1) < 32768) ->
  exists d5 drv2 s1 v1 s3, virtqueue_init alloc_at mmio_vq mmio_notify (d3, drv1) = Done tt (d5, drv2) /\
    (d_status d5 = 11 /\ d_drv0 d5 = d_drv0 d2 /\ d_drv1 d5 = d_drv1 d2 /\
     d_queues d5 = <[1%nat := live_queue 1 q1]> (<[0%nat := live_queue 0 q0]> (d_queues d2)) /\
     d_notes d5 = d_notes d2 ++ ((fun n => (false, note s1 n)) <$> SplitVq.notified s1) /\ d_broken d5 = d_broken d2) /\
    rx_vqs (recv_vqs drv2) = [s1] /\ rx_buf_size (recv_vqs drv2) = bs /\ SplitProps.repr s1 v1 /\
    stocked bs (Z.to_nat (net_size q0) / 2) (Z.to_nat (net_size q0) mod 2) v1 /\
    (let n := Z.to_nat (net_size q1) in
     tx_inv (repr := SplitProps.repr) (tx_buf_size (send_vqs drv1)) n 0 drv2 s3 (VqSpec.empty n)) /\
    dev_cfg drv2 = dev_cfg drv1.
Proof.
  intros -> Hpk P0 P1 U1 Hq1 E4 R4 W4 Hbs Hb (Hrx & Htx & Hcap) Hmq. set (d3 := set_status 11 false d2) in *.
  set (P := fun (s : SplitVq.ring) d5 => d_status d5 = 11 /\ d_drv0 d5 = d_drv0 d2 /\ d_drv1 d5 = d_drv1 d2 /\
     d_queues d5 = <[1%nat := live_queue 1 q1]> (<[0%nat := live_queue 0 q0]> (d_queues d2)) /\
     d_notes d5 = d_notes d2 ++ ((fun n => (false, note s n)) <$> SplitVq.notified s) /\ d_broken d5 = d_broken d2).
  destruct (virtqueue_init_ready alloc_at net_split_direct mmio_vq mmio_notify d3 d4 drv1 bs r0
              (Z.to_nat (net_size q0)) (Z.to_nat (net_size q1)) P)
    as (d5 & drv2 & s1 & v1 & s3 & Ei & HP & Hrx2 & Hrb & Rx & Sx & _ & Itx & Hcfg & _);
    [by rewrite Hpk, Z2Nat.id by lia|done| |lia|done|done|done|done|done|done|].
  - intros s. set (d4' := set_isr (d_isr d4) (d_notes d4 ++ ((fun n => (has DRIVER_OK (d_status d4), note s n)) <$> SplitVq.notified s)) false d4).
    destruct W4 as [Q1 Q2 Q3 Q4 Q5 Q6 Q7].
    destruct (mmio_vq_run 1 d4' (fresh_queue q1)) as (r1 & d5 & E5 & R5 & W5); [by split; cbn; rewrite Q2| |done|].
    { cbn. rewrite Q1, list_lookup_insert_ne by done. exact Hq1. }
    exists d4', d5, r1. split; [apply notify_all_run|]. change (net_size (fresh_queue q1)) with (net_size q1) in *.
    rewrite Hpk, Z2Nat.id by lia. split; [exact E5|]. split; [exact R5|]. destruct W5 as [Y1 Y2 Y3 Y4 Y5 Y6 Y7]. unfold P.
    rewrite Y1, Y2, Y3, Y4, Y6, Y7. cbn. rewrite Q1, Q2, Q3, Q4, Q6, Q7. cbn. by rewrite !orb_false_r.
  - exists d5, drv2, s1, v1, s3. split; [exact Ei|]. split; [exact HP|]. by split_and!.
Qed.

(** C12: the network driver brings up a device that follows the specification
    and offers neither the control queue (bit 17) nor packed queues (bit 34).
    When the device offers what is required and accepts the features both sides
    know, it ends up running with exactly these, with its two queues configured
    and no other, a receive queue full of buffers and the whole send queue as
    budget; otherwise the driver reports the failed negotiation and never starts
    the device.  On the way the driver obeys the rules of the specification on
    the status, the features and the configuration of queues, but breaks the one
    on notifications: those of the receive buffers, and no others, reach the
    device before it is started. *)
Theorem net_goes_live cfg d0 drv0 q0 q1 :
  0 <= d_offered d0 < 2 ^ 64 -> d_broken d0 = false -> d_queues d0 !! 0%nat = Some q0 -> d_queues d0 !! 1%nat = Some q1 ->
  usable (fresh_queue q0) -> usable (fresh_queue q1) ->
  Z.testbit (d_offered d0) 34 = false -> Z.testbit (d_offered d0) 17 = false -> 1 <= cfg_max_virtqueue_pairs cfg < 32768 ->
  in_u 16 default_mtu -> in_u 16 (cfg_mtu cfg) -> (forall n, mrg = Some n -> 0 < n <= u32_max) ->
  let f := Z.land (d_offered d0) (to_bits wanted) in
  req (d_offered d0) = true -> req (to_bits wanted) = true -> req f = true ->
  exists r dv drv, net_init cfg (d0, drv0) = Done r (dv, drv) /\ d_broken dv = false /\
    if minimal (of_bits f) && accepts f then r = Ok tt /\ net_live f d0 dv q0 q1 drv
    else r = Err (FailFeatureNeg (dev_id cfg)) /\ has DRIVER_OK (d_status dv) = false /\ d_notes dv = d_notes d0.
Proof.
  intros Ho Hb Hq0 Hq1 U0 U1 Hp Hct Hpairs Hmtu Hcm Hmrg f R1 R2 R3.
  destruct (handshake_run d0 Ho Hb R1 R2 R3) as (da & db & d1 & d2 & Ea & Eb & E1 & E2 & Hf & Hs & Hof & Hq & Hno & Hbr & E3). fold f in E2, Hf, E3.
  unfold net_init, init_dev. rewrite (bind_run _ _ _ _ _ (on_com_run _ _ _ drv0 _ Ea)), (bind_run _ _ _ _ _ (on_com_run _ _ _ drv0 _ Eb)).
  rewrite (bind_run _ _ _ _ _ (on_com_run _ _ _ drv0 _ E1)).
  erewrite bind_run by (apply on_com_run; rewrite (bind_run _ _ _ _ _ E2); reflexivity). cbv beta.
  destruct (minimal (of_bits f)) eqn:Emin; cbn [negb andb]; cycle 1.
  { eexists _, _, _. split; [reflexivity|]. split; [done|]. split; [done|]. by rewrite Hs. }
  rewrite (bind_run _ _ _ _ _ (on_com_run _ _ _ drv0 _ E3)).
  set (d3 := set_status _ false d2).
  erewrite bind_run by (apply on_com_run; reflexivity).
  change (d_status d3) with (if accepts f then 11 else 3).
  destruct (accepts f) eqn:Eacc; cycle 1.
  { change (contains FEATURES_OK (dev_rd Status d3)) with false. cbn [negb]. eexists _, _, _. split; [reflexivity|]. split; [|by split_and!].
    cbn. by rewrite Hbr. }
  change (contains FEATURES_OK (dev_rd Status d3)) with true. cbn [negb]. cbv zeta.
  set (cfg' := mkCfg _ _ _ _ _ (of_bits f)).
  destruct (rx_buf_size_run cfg' (d3, drv0) Hmtu Hcm Hmrg) as (bs & Ebs & Hbs). rewrite (bind_run _ _ _ _ _ Ebs).
  erewrite bind_run by reflexivity. cbn [fst snd].
  set (drv1 := mkDriver cfg' _ None (mkRxQ [] bs) _ 0 _ _ _ _ _ _ _).
  assert (Hpk : RING_PACKED (features (dev_cfg drv1)) = false) by (change (RING_PACKED _) with (Z.testbit f 34); unfold f; by rewrite Z.land_spec, Hp).
  assert (Hcv : CTRL_VQ (features (dev_cfg drv1)) = false) by (change (CTRL_VQ _) with (Z.testbit f 17); unfold f; by rewrite Z.land_spec, Hct).
  change (net_size (fresh_queue q0)) with (net_size q0) in *. change (net_size (fresh_queue q1)) with (net_size q1) in *.
  assert (P0 : 0 < net_size q0 <= 2048) by (destruct U0 as (_ & ? & _); unfold net_size; cbn in *; lia).
  assert (P1 : 0 < net_size q1 <= 2048) by (destruct U1 as (_ & ? & _); unfold net_size; cbn in *; lia).
  destruct (mmio_vq_run 0 d3 (fresh_queue q0)) as (r0 & d4 & E4 & R4 & W4); [done|cbn; by rewrite Hq, list_lookup_fmap, Hq0|done|].
  destruct (queues_ready d2 d3 d4 q0 q1 r0 drv1 bs) as (d5 & drv2 & s1 & v1 & s3 & Ei & Hd5 & Hrx & Hrb & Rx & Sx & Itx & Hcfg);
    [reflexivity|exact Hpk|exact P0|exact P1|exact U1|by rewrite Hq, list_lookup_fmap, Hq1|exact E4|exact R4|exact W4|exact Hbs|done|done|done|].
  assert (Esp : dev_spec_init alloc_at mmio_vq mmio_notify (d3, drv1) = Done tt (d5, drv2)).
  { unfold dev_spec_init. rewrite (bind_run _ _ _ _ _ Ei). erewrite bind_run by reflexivity. cbn [snd]. rewrite Hcfg. change (features (dev_cfg drv1)) with (of_bits f) in *. by rewrite Hcv. }
  rewrite (bind_run _ _ _ _ _ Esp). destruct Hd5 as (S5 & D0 & D1 & Q5 & N5 & B5).
  assert (Edo : drv_ok d5 = Done tt (set_status (Z.lor (d_status d5) DRIVER_OK) false d5)).
  { apply (status_run DRIVER_OK d5 drv_ok eq_refl); rewrite ?S5; try done; reflexivity. }
  rewrite (bind_run _ _ _ _ _ (on_com_run _ _ _ drv2 _ Edo)). erewrite bind_run by reflexivity.
  eexists _, _, _. split; [reflexivity|]. split; [cbn; by rewrite B5, Hbr|].
  split; [done|]. unfold net_live. cbn [d_status set_status]. rewrite S5. split; [done|]. split.
  { transitivity (driver_features d2); [|exact Hf]. unfold driver_features. cbn [fst d_drv0 d_drv1 set_status]. by rewrite D0, D1. }
  split; [cbn [fst snd dev_cfg set_checksums]; by rewrite Hcfg|]. split.
  { cbn [fst d_queues set_status]. by rewrite Q5, Hq. }
  split; [exists s1, v1, bs; split_and!; try done; cbn; by rewrite N5, Hno|]. exists s3. cbv zeta.
  destruct Itx as [T1 T2 T3 T4 T5 T6 T7]. split; try done. cbn [fst snd dev_cfg set_checksums]. by rewrite Hcfg.
Qed.
End Device.

(** ** A device *)

Import VqSpec NetChecksum VirtioNet NetProps.
#[local] Existing Instances NetProps.demo_wire SplitVq.split_queue SplitProps.split_laws.
Definition demo_offer : Z := 2 ^ 32 + 2 ^ 15 + 2 ^ 5 + 2 ^ 1 + 2 ^ 0 + 2 ^ 40.
Definition demo_dev (n : Z) : dev :=
  mkDev 7 demo_offer 0 0 0 0 0 [mkQ n 9 9 9 9 true; mkQ n 0 0 0 0 false; mkQ n 0 0 0 0 false] 0 [] false.
Definition demo_net : NetDevCfg := mkCfg [2; 0; 0; 0; 0; 1] 1 1 1500 0 (of_bits 0).
Definition demo_drv : driver (S := SplitVq.ring) :=
  mkDriver demo_net 0 None (mkRxQ [] 1514) (mkTxQ [] 0) 0 0 (mkCaps CBoth CBoth) (fun _ => 0) ∅ ∅ 0 0.
Definition demo_area (i j : Z) : Z := 65536 * (i + 1) + 4096 * j.

Lemma net_goes_live_witness : exists dv drv,
  net_init (fun _ => true) 1 (fun k => 4096 * k) 1514 None (fun _ => true) demo_area 0 demo_net (demo_dev 256, demo_drv) = Done (Ok tt) (dv, drv) /\
  d_status dv = 15 /\ driver_features dv = 2 ^ 32 + 2 ^ 15 + 2 ^ 5 + 2 ^ 1 + 2 ^ 0 /\
  d_queues dv = [mkQ 256 256 65536 69632 73728 true; mkQ 256 256 131072 135168 139264 true; mkQ 256 0 0 0 0 false].
Proof.
  destruct (net_goes_live (fun _ => true) 1 (fun k => 4096 * k) 1514 None (fun _ => true) demo_area 0 demo_net (demo_dev 256) demo_drv
    (mkQ 256 9 9 9 9 true) (mkQ 256 0 0 0 0 false)) as (r & dv & drv & E & _ & Hr).
  - by vm_compute.
  - reflexivity.
  - reflexivity.
  - reflexivity.
  - split; [reflexivity|]. split; [reflexivity|]. exists 256. reflexivity.
  - split; [reflexivity|]. split; [reflexivity|]. exists 256. reflexivity.
  - reflexivity.
  - reflexivity.
  - by vm_compute.
  - by vm_compute.
  - by vm_compute.
  - intros n Hn. discriminate Hn.
  - reflexivity.
  - reflexivity.
  - reflexivity.
  - change (minimal _ && _) with true in Hr. destruct Hr as [-> (H1 & H2 & _ & H4 & _)]. exists dv, drv. split; [exact E|].
    split; [exact H1|]. split; [rewrite H2; vm_compute; reflexivity|]. rewrite H4. vm_compute. reflexivity.
Defined.

(** With four descriptors the two receive buffers notify the device before it is
    started, which section 3.1.1 of the specification forbids. *)
Lemma notified_before_start : exists dv drv,
  net_init (fun _ => true) 1 (fun k => 4096 * k) 1514 None (fun _ => true) demo_area 0 demo_net (demo_dev 4, demo_drv) =
    Done (Ok tt) (dv, drv) /\ d_notes dv = [(false, 0); (false, 0)] /\ has DRIVER_OK (d_status dv) = true.
Proof. eexists _, _. split; [vm_compute; reflexivity|]. split; reflexivity. Qed.

(** A legacy device and one the kernel has no driver for are refused, without a
    write to the device. *)
Lemma init_device_refuses {D E A} `{Mmio D} (init : Id -> option (M D (Result E A))) (d : D) v i :
  rd Version d = Done v d -> rd DeviceId d = Done i d -> v = 1 \/ init (id_of i) = None ->
  init_device init d = Done (Err (DevNotSupported 0)) d.
Proof.
  intros Ev Ei Hv. unfold init_device. rewrite (bind_run _ _ _ _ _ Ev). destruct (Z.eqb_spec v 1) as [|Hne]; [done|].
  rewrite (bind_run _ _ _ _ _ Ei). destruct Hv as [|Hi]; [done|]. by rewrite Hi.
Qed.
End TransportProps.
