(* ===== verification/Tls.v ===== *)
(** Thread-local storage, [src/src/scheduler/task/tls.rs]: the segment found in
    the program headers, the layout of a task's block for each architecture, and
    its contents.  Variables are where the code the compiler generates looks for
    them (the ELF handling of thread-local storage, variants I and II), except on
    x86_64 when the segment ends inside of a word. *)

From S2P Require Import Prelude Errors.

Module Tls.

Inductive arch : Set := Aarch64 | Riscv64 | X86_64.

(** ** [core::alloc::Layout] *)

Record Layout : Set := mkLayout { size : Z; align : Z }.
Definition round_up (n a : Z) : Z := (n + a - 1) / a * a.
Definition isize_max : Z := 2 ^ 63 - 1.
Definition is_power_of_two (a : Z) : bool := (0 <? a) && (2 ^ Z.log2 a =? a).
Definition from_size_align (n a : Z) : option Layout :=
  if is_power_of_two a && (n <=? isize_max - (a - 1)) then Some (mkLayout n a) else None.
Definition pad_to_align (l : Layout) : Layout := mkLayout (round_up (size l) (align l)) (align l).
(** The layout of both, and the offset of the second. *)
Definition extend (l next : Layout) : option (Layout * Z) :=
  let offset := round_up (size l) (align next) in
  option_map (fun r => (r, offset)) (from_size_align (offset + size next) (Z.max (align l) (align next))).

(** ** The segment *)

(** [Elf64_Ehdr] and [Elf64_Phdr], what is used of them. *)
Record Ehdr : Set := mkEhdr { e_ident : list Z; e_phdrs : list (Z * Z * Z * Z * Z) }.
Definition p_type (p : Z * Z * Z * Z * Z) : Z := p.1.1.1.1.
Definition p_vaddr (p : Z * Z * Z * Z * Z) : Z := p.1.1.1.2.
Definition p_filesz (p : Z * Z * Z * Z * Z) : Z := p.1.1.2.
Definition p_memsz (p : Z * Z * Z * Z * Z) : Z := p.1.2.
Definition p_align (p : Z * Z * Z * Z * Z) : Z := p.2.
Definition PT_LOAD : Z := 1.
Definition PT_TLS : Z := 7.
Definition ELFOSABI_GNU : Z := 3.
Definition ELFOSABI_STANDALONE : Z := 255.

Record TlsInfo : Set := mkInfo { image : list Z; layout : Layout }.

(** The class is at index 4, the encoding at 5, the version at 6, the ABI at 7
    and its version at 8; the target is little-endian. *)
Definition sanity_check_ident {S} (ident : list Z) : M S unit :=
  let at_ i := nth i ident 0 in
  do! assert_ (bool_decide (take 4 ident = [127; 69; 76; 70])) "assertion `left == right` failed" in
  do! assert_ (at_ 6%nat =? 1) "assertion `left == right` failed" in
  do! assert_ (at_ 4%nat =? 2) "assertion `left == right` failed" in
  do! assert_ (at_ 5%nat =? 1) "assertion `left == right` failed" in
  do! assert_ ((at_ 7%nat =? ELFOSABI_STANDALONE) || (at_ 7%nat =? ELFOSABI_GNU)) "assertion failed" in
  assert_ (at_ 8%nat =? 0) "assertion `left == right` failed".

(** [mem]: the bytes of the loaded image. *)
Definition from_env {S} (ehdr : Ehdr) (executable_start : Z) (mem : Z -> Z) : M S (option TlsInfo) :=
  do! sanity_check_ident (e_ident ehdr) in
  match List.find (fun p => p_type p =? PT_TLS) (e_phdrs ehdr) with
  | None => ret None
  | Some p =>
      let load_bias := match List.find (fun p => p_type p =? PT_LOAD) (e_phdrs ehdr) with
                       | Some q => wrapu 64 (executable_start - p_vaddr q)
                       | None => 0
                       end in
      let start := wrapu 64 (load_bias + p_vaddr p) in
      let! l := unwrap (from_size_align (p_memsz p) (p_align p)) "called `Result::unwrap()` on an `Err` value" in
      ret (Some (mkInfo (mem <$> seqZ start (p_filesz p)) (pad_to_align l)))
  end.

(** ** The block of a task *)

(** [Layout::new::<Tcb>().pad_to_align()]: two or three pointers. *)
Definition tcb_layout (a : arch) : Layout := match a with X86_64 => mkLayout 24 8 | _ => mkLayout 16 8 end.

(** The bytes of the allocation, [None] when not initialised, at [addr]. *)
Record t : Set := mkTls { addr : Z; block : list (option Z); thread_ptr : Z }.

(** The layout, the offset of the data and that of the thread control block. *)
Definition placement (a : arch) (l : Layout) : option (Layout * Z * Z) :=
  match a with
  | Aarch64 | Riscv64 => option_map (fun p => (pad_to_align p.1, p.2, 0)) (extend (tcb_layout a) l)
  | X86_64 => option_map (fun p => (pad_to_align p.1, 0, p.2)) (extend l (tcb_layout a))
  end.

(** [block[off..][..l.len()] = l] *)
Definition blit {S} (off : Z) (l : list (option Z)) (block : list (option Z)) : M S (list (option Z)) :=
  let o := Z.to_nat off in
  if (off <=? Z.of_nat (length block)) && (Z.of_nat (length l) <=? Z.of_nat (length block) - off)
  then ret (take o block ++ l ++ drop (o + length l) block) else panic "range end index out of range for slice".

(** The thread pointer little-endian, on x86_64, and null pointers. *)
Definition word_bytes (x : Z) : list (option Z) := (fun i => Some (Z.shiftr x (8 * Z.of_nat i) mod 256)) <$> seq 0 8.
Definition tcb_bytes (a : arch) (tp : Z) : list (option Z) :=
  match a with X86_64 => word_bytes tp ++ replicate 16 (Some 0) | _ => replicate 16 (Some 0) end.

Definition thread_pointer (a : arch) (base tls_offset tcb_offset : Z) : Z :=
  match a with Riscv64 => base + tls_offset | Aarch64 => base | X86_64 => base + tcb_offset end.

(** [alloc]: the address of an allocation. *)
Definition new {S} (a : arch) (alloc : Layout -> option Z) (info : TlsInfo) : M S t :=
  let! '(l, tls_offset, tcb_offset) := unwrap (placement a (layout info)) "called `Result::unwrap()` on an `Err` value" in
  let! base := unwrap (alloc l) "called `Option::unwrap()` on a `None` value" in
  let b := replicate (Z.to_nat (size l)) None in
  let n := Z.of_nat (length (image info)) in
  let! b := blit tls_offset (Some <$> image info) b in
  do! assert_ (n <=? size (layout info)) "slice index starts past the end" in
  let! b := blit (tls_offset + n) (replicate (Z.to_nat (size (layout info) - n)) (Some 0)) b in
  let tp := thread_pointer a base tls_offset tcb_offset in
  let! b := blit tcb_offset (tcb_bytes a tp) b in
  ret (mkTls base b tp).

(** [Tls::from_env] *)
Definition tls_from_env {S} (a : arch) (alloc : Layout -> option Z) (ehdr : Ehdr) (executable_start : Z) (mem : Z -> Z) : M S (option t) :=
  let! info := from_env ehdr executable_start mem in
  match info with
  | None => ret None
  | Some info => let! this := new a alloc info in ret (Some this)
  end.

(** ** Where variables are *)

(** The address of the byte [k] of the segment, as the generated code computes it
    from the thread pointer. *)
Definition var_address (a : arch) (tls : t) (info : TlsInfo) (k : Z) : Z :=
  match a with
  | Aarch64 => thread_ptr tls + round_up 16 (align (layout info)) + k
  | Riscv64 => thread_ptr tls + k
  | X86_64 => thread_ptr tls - size (layout info) + k
  end.
(** What a byte of the segment starts with. *)
Definition initial (info : TlsInfo) (k : Z) : Z := nth (Z.to_nat k) (image info) 0.
Definition read (tls : t) (a : Z) : option Z := if a <? addr tls then None else mjoin (block tls !! Z.to_nat (a - addr tls)).

Lemma round_up_spec n a : 0 < a -> n <= round_up n a < n + a /\ (a | round_up n a).
Proof.
  intros Ha. unfold round_up. split; [|by eexists]. pose proof (Z.div_mod (n + a - 1) a ltac:(lia)).
  pose proof (Z.mod_pos_bound (n + a - 1) a Ha). lia.
Qed.
Lemma round_up_divide n a : 0 < a -> (a | n) -> round_up n a = n.
Proof.
  intros Ha [q ->]. unfold round_up. replace (q * a + a - 1) with (a - 1 + q * a) by lia. rewrite Z.div_add, Z.div_small by lia. lia.
Qed.
Lemma pow2_divide a b : is_power_of_two a = true -> is_power_of_two b = true -> a <= b -> (a | b).
Proof.
  unfold is_power_of_two. intros Ha Hb Hle. apply andb_true_iff in Ha as [Ha%Z.ltb_lt Ea%Z.eqb_eq], Hb as [Hb%Z.ltb_lt Eb%Z.eqb_eq].
  rewrite <- Ea, <- Eb. exists (2 ^ (Z.log2 b - Z.log2 a)). pose proof (Z.log2_le_mono a b Hle). pose proof (Z.log2_nonneg a).
  rewrite <- Z.pow_add_r by lia. f_equal. lia.
Qed.
Lemma pow2_max a b : is_power_of_two a = true -> is_power_of_two b = true -> is_power_of_two (Z.max a b) = true.
Proof. intros Ha Hb. by destruct (Z.max_spec a b) as [[_ ->]|[_ ->]]. Qed.
Lemma pow2_pos a : is_power_of_two a = true -> 0 < a.
Proof. unfold is_power_of_two. intros Ha. by apply andb_true_iff in Ha as [Ha%Z.ltb_lt _]. Qed.

Lemma blit_run {S} off l b (s : S) : 0 <= off -> off + Z.of_nat (length l) <= Z.of_nat (length b) ->
  blit off l b s = Done (take (Z.to_nat off) b ++ l ++ drop (Z.to_nat off + length l) b) s.
Proof. intros Ho Hl. unfold blit. rewrite (proj2 (Z.leb_le _ _)), (proj2 (Z.leb_le _ _)) by lia. reflexivity. Qed.
Lemma tls_splice_length (o : nat) (l b : list (option Z)) : (o + length l <= length b)%nat ->
  length (take o b ++ l ++ drop (o + length l) b) = length b.
Proof. intros Hl. rewrite !length_app, length_take, length_drop. lia. Qed.
Lemma splice_lookup (o k : nat) (l b : list (option Z)) : (o + length l <= length b)%nat ->
  (take o b ++ l ++ drop (o + length l) b) !! k = if (o <=? k)%nat && (k <? o + length l)%nat then l !! (k - o)%nat else b !! k.
Proof.
  intros Hl. destruct (Nat.leb_spec o k), (Nat.ltb_spec k (o + length l)); cbn [andb]; try lia.
  - rewrite lookup_app_r by (rewrite length_take; lia). rewrite length_take, Nat.min_l by lia. apply lookup_app_l. lia.
  - rewrite lookup_app_r by (rewrite length_take; lia). rewrite length_take, Nat.min_l by lia. rewrite lookup_app_r by lia.
    rewrite lookup_drop. f_equal. lia.
  - rewrite lookup_app_l by (rewrite length_take; lia). apply lookup_take_lt. lia.
Qed.

(** The block: room for the control block and the data, apart from each other. *)
Lemma placement_spec a l : is_power_of_two (align l) = true -> 0 <= size l -> size l + 2 * align l + 64 <= isize_max ->
  exists r o c, placement a l = Some (r, o, c) /\ 0 <= o /\ 0 <= c /\ o + size l <= size r /\ c + size (tcb_layout a) <= size r /\
    (c + size (tcb_layout a) <= o \/ o + size l <= c) /\ align r = Z.max 8 (align l) /\
    match a with X86_64 => o = 0 /\ c = round_up (size l) 8 | _ => o = round_up 16 (align l) /\ c = 0 end.
Proof.
  intros Hp Hs Hm. pose proof (pow2_pos _ Hp) as Ha. assert (H8 : is_power_of_two 8 = true) by reflexivity.
  destruct (round_up_spec 16 (align l) Ha) as [B1 _]. destruct (round_up_spec (size l) 8 ltac:(lia)) as [B2 _].
  destruct a; unfold placement, extend, from_size_align, tcb_layout; cbn [size align].
  1,2: rewrite (pow2_max 8 (align l) H8 Hp), (proj2 (Z.leb_le _ _)) by lia; cbn [andb option_map];
    eexists _, _, _; split; [reflexivity|]; cbn [fst snd pad_to_align size align];
    destruct (round_up_spec (round_up 16 (align l) + size l) (Z.max 8 (align l)) ltac:(lia)) as [B3 _];
    split_and!; try done; lia.
  rewrite (pow2_max (align l) 8 Hp H8), (proj2 (Z.leb_le _ _)) by lia. cbn [andb option_map].
  eexists _, _, _. split; [reflexivity|]. cbn [fst snd pad_to_align size align].
  destruct (round_up_spec (round_up (size l) 8 + 24) (Z.max (align l) 8) ltac:(lia)) as [B3 _].
  split_and!; try done; lia.
Qed.

Lemma tcb_bytes_length a tp : Z.of_nat (length (tcb_bytes a tp)) = size (tcb_layout a).
Proof. by destruct a. Qed.

(** The block once it is filled. *)
Lemma new_run {S} a alloc info r o c base (s : S) :
  placement a (layout info) = Some (r, o, c) -> alloc r = Some base -> 0 <= o -> 0 <= c ->
  o + size (layout info) <= size r -> c + size (tcb_layout a) <= size r -> Z.of_nat (length (image info)) <= size (layout info) ->
  (c + size (tcb_layout a) <= o \/ o + size (layout info) <= c) ->
  exists b, new a alloc info s = Done (mkTls base b (thread_pointer a base o c)) s /\
    (forall k, 0 <= k < size (layout info) -> b !! Z.to_nat (o + k) = Some (Some (initial info k))) /\
    (forall k, 0 <= k < size (tcb_layout a) -> b !! Z.to_nat (c + k) = tcb_bytes a (thread_pointer a base o c) !! Z.to_nat k).
Proof.
  intros Ep Ea Ho Hc H1 H2 Hn Hd. set (tp := thread_pointer a base o c). pose proof (tcb_bytes_length a tp) as Ht.
  set (sz := size (layout info)) in *. set (n := Z.of_nat (length (image info))) in *.
  set (b0 := replicate (Z.to_nat (size r)) (@None Z)). assert (L0 : length b0 = Z.to_nat (size r)) by apply length_replicate.
  set (im := Some <$> image info). assert (Li : length im = length (image info)) by apply length_fmap.
  set (ze := replicate (Z.to_nat (sz - n)) (Some 0)). assert (Lz : length ze = Z.to_nat (sz - n)) by apply length_replicate.
  set (b1 := take (Z.to_nat o) b0 ++ im ++ drop (Z.to_nat o + length im) b0).
  assert (L1 : length b1 = length b0) by (apply tls_splice_length; lia).
  set (b2 := take (Z.to_nat (o + n)) b1 ++ ze ++ drop (Z.to_nat (o + n) + length ze) b1).
  assert (L2 : length b2 = length b0) by (rewrite <- L1; apply tls_splice_length; lia).
  set (b3 := take (Z.to_nat c) b2 ++ tcb_bytes a tp ++ drop (Z.to_nat c + length (tcb_bytes a tp)) b2).
  exists b3. split; [|split].
  - unfold new. rewrite Ep. erewrite bind_run by reflexivity. cbv iota beta. rewrite Ea. erewrite bind_run by reflexivity. cbv zeta.
    erewrite bind_run by (apply blit_run; [done|fold b0 im; lia]). fold b0 im n sz b1.
    rewrite (proj2 (Z.leb_le _ _)) by done. erewrite bind_run by reflexivity.
    erewrite bind_run by (apply blit_run; [lia|fold ze; lia]). fold ze b2 tp.
    erewrite bind_run by (apply blit_run; [done|lia]). fold b3. reflexivity.
  - intros k Hk. unfold b3. rewrite splice_lookup by lia.
    replace ((Z.to_nat c <=? Z.to_nat (o + k))%nat && (Z.to_nat (o + k) <? Z.to_nat c + length (tcb_bytes a tp))%nat) with false; cycle 1.
    { symmetry. apply andb_false_iff. rewrite Nat.leb_gt, Nat.ltb_ge. lia. }
    unfold b2. rewrite splice_lookup by lia. unfold initial. destruct (Z.ltb_spec k n) as [Hkn|Hkn].
    + rewrite (proj2 (Nat.leb_gt _ _)) by lia. cbn [andb]. unfold b1. rewrite splice_lookup by lia.
      rewrite (proj2 (Nat.leb_le _ _)), (proj2 (Nat.ltb_lt _ _)) by lia. cbn [andb].
      replace (Z.to_nat (o + k) - Z.to_nat o)%nat with (Z.to_nat k) by lia. unfold im. rewrite list_lookup_fmap.
      destruct (lookup_lt_is_Some_2 (image info) (Z.to_nat k) ltac:(lia)) as [x Hx]. by rewrite Hx, (nth_lookup_Some _ _ _ _ Hx).
    + rewrite (proj2 (Nat.leb_le _ _)), (proj2 (Nat.ltb_lt _ _)) by lia. cbn [andb]. unfold ze.
      rewrite lookup_replicate_2 by lia. by rewrite nth_overflow by lia.
  - intros k Hk. unfold b3. rewrite splice_lookup by lia.
    rewrite (proj2 (Nat.leb_le _ _)), (proj2 (Nat.ltb_lt _ _)) by lia. cbn [andb]. f_equal. lia.
Qed.

(** C37: On every architecture the bytes of the thread-local segment are where the
    generated code looks for them relative to the thread pointer, aligned, and
    start with the image of the executable followed by zeros; on x86_64 the word at
    the thread pointer is the thread pointer.  There it takes a segment whose
    size is a multiple of 8. *)
Theorem tls_variables {S} a alloc info (s : S) :
  is_power_of_two (align (layout info)) = true -> Z.of_nat (length (image info)) <= size (layout info) ->
  size (layout info) + 2 * align (layout info) + 64 <= isize_max -> (a = X86_64 -> (8 | size (layout info))) ->
  (forall r, exists base, alloc r = Some base /\ (align r | base)) ->
  exists tls, new a alloc info s = Done tls s /\
    (forall k, 0 <= k < size (layout info) -> read tls (var_address a tls info k) = Some (initial info k)) /\
    ((align (layout info) | size (layout info)) -> (align (layout info) | var_address a tls info 0)) /\
    (a = X86_64 -> forall i, (i < 8)%nat -> read tls (thread_ptr tls + Z.of_nat i) = Some (Z.shiftr (thread_ptr tls) (8 * Z.of_nat i) mod 256)).
Proof.
  intros Hp Hn Hm Hx Halloc. destruct (placement_spec a (layout info) Hp ltac:(lia) Hm) as (r & o & c & Ep & Ho & Hc & H1 & H2 & Hd & Hal & Ha).
  destruct (Halloc r) as (base & Eb & Hbase). rewrite Hal in Hbase.
  destruct (new_run a alloc info r o c base s Ep Eb Ho Hc H1 H2 Hn Hd) as (b & E & Hdata & Htcb). pose proof (pow2_pos _ Hp) as Hpos.
  assert (Hdb : (align (layout info) | base)).
  { etransitivity; [|exact Hbase]. apply pow2_divide; [done|by apply pow2_max|lia]. }
  set (tls := mkTls base b (thread_pointer a base o c)).
  assert (Hv : forall k, var_address a tls info k = base + o + k).
  { intros k. unfold tls, var_address, thread_pointer. cbn [thread_ptr]. destruct a, Ha as [-> ->]; try lia.
    rewrite (round_up_divide _ 8) by (try lia; by apply Hx). lia. }
  exists tls. split; [exact E|]. split_and!.
  - intros k Hk. rewrite Hv. unfold read, tls. cbn [addr block]. rewrite (proj2 (Z.ltb_ge _ _)) by lia.
    replace (base + o + k - base) with (o + k) by lia. by rewrite Hdata.
  - intros Hsz. rewrite Hv, Z.add_0_r. apply Z.divide_add_r; [done|]. destruct a, Ha as [-> _]; [apply round_up_spec; done|apply round_up_spec; done|apply Z.divide_0_r].
  - intros -> i Hi. unfold read, tls. cbn [thread_ptr addr block thread_pointer].
    destruct Ha as [_ Ec]. rewrite (proj2 (Z.ltb_ge _ _)) by lia. replace (base + c + Z.of_nat i - base) with (c + Z.of_nat i) by lia.
    rewrite Htcb by (cbn; lia). cbn [tcb_bytes thread_pointer]. rewrite Nat2Z.id. do 8 (destruct i as [|i]; [reflexivity|]). lia.
Qed.

(** What the headers of an executable give the block: a padded size, at least as
    long as the image. *)
Lemma from_env_info {S} ehdr start mem p (s : S) : sanity_check_ident (e_ident ehdr) s = Done tt s ->
  List.find (fun p => p_type p =? PT_TLS) (e_phdrs ehdr) = Some p -> is_power_of_two (p_align p) = true ->
  0 <= p_filesz p <= p_memsz p -> p_memsz p <= isize_max - (p_align p - 1) ->
  exists info, from_env ehdr start mem s = Done (Some info) s /\ align (layout info) = p_align p /\
    (align (layout info) | size (layout info)) /\ Z.of_nat (length (image info)) <= size (layout info).
Proof.
  intros Hid Hf Hp Hsz Hm. unfold from_env. erewrite bind_run by exact Hid. rewrite Hf. unfold from_size_align.
  rewrite Hp, (proj2 (Z.leb_le _ _)) by lia. cbn [andb]. erewrite bind_run by reflexivity.
  eexists. split; [reflexivity|]. cbn [layout pad_to_align size align image]. pose proof (round_up_spec (p_memsz p) (p_align p) (pow2_pos _ Hp)).
  rewrite length_fmap, length_seqZ. split_and!; [done|tauto|lia].
Qed.

(** A segment of four bytes on x86_64: its variable is four bytes below where the
    generated code looks. *)
Definition small_info : TlsInfo := mkInfo [42] (mkLayout 4 4).
Lemma tls_x86_misplaced : exists tls, new X86_64 (fun _ => Some 4096) small_info tt = Done tls tt /\
  read tls (var_address X86_64 tls small_info 0) = None /\ read tls (var_address X86_64 tls small_info (-4)) = Some 42.
Proof. eexists. split; [vm_compute; reflexivity|]. by vm_compute. Qed.

Lemma tls_variables_witness : exists tls, new Aarch64 (fun _ => Some 65536) (mkInfo [1; 2; 3] (mkLayout 64 64)) tt = Done tls tt /\
  read tls (var_address Aarch64 tls (mkInfo [1; 2; 3] (mkLayout 64 64)) 2) = Some 3.
Proof.
  destruct (tls_variables Aarch64 (fun r => Some (if align r =? 64 then 65536 else 0)) (mkInfo [1; 2; 3] (mkLayout 64 64)) tt)
    as (tls & E & Hv & _).
  - reflexivity.
  - vm_compute. discriminate.
  - vm_compute. discriminate.
  - discriminate.
  - intros r. eexists. split; [reflexivity|]. destruct (Z.eqb_spec (align r) 64) as [->|]; [exists 1024; reflexivity|apply Z.divide_0_r].
  - exists tls. split; [rewrite <- E; reflexivity|]. apply Hv. cbn. lia.
Defined.
End Tls.
