(* ===== verification/RiscvPaging.v ===== *)
(** Page tables of 64-bit RISC-V, scheme Sv39 (src/src/arch/riscv64/mm/paging.rs).
    Tables are reached by their physical address: memory of the kernel is mapped
    to itself.  The walk of the memory management unit is the one of the
    privileged architecture; the addresses of [sfence.vma] are recorded. *)

From S2P Require Import Prelude Paging.
From stdpp Require Import functions.
Open Scope Z_scope.

Module RiscvPaging.

Definition PAGE_BITS : Z := 12.
Definition PAGE_MAP_BITS : Z := 9.
Definition PAGE_MAP_MASK : Z := 0x1ff.
Definition PAGE_LEVELS : nat := 3.

(** ** Flags *)

Definition VALID : Z := Z.shiftl 1 0.
Definition READABLE : Z := Z.shiftl 1 1.
Definition WRITABLE : Z := Z.shiftl 1 2.
Definition EXECUTABLE : Z := Z.shiftl 1 3.
Definition USER_ACCESSIBLE : Z := Z.shiftl 1 4.
Definition GLOBAL : Z := Z.shiftl 1 5.
Definition ACCESSED : Z := Z.shiftl 1 6.
Definition DIRTY : Z := Z.shiftl 1 7.
Definition RSW : Z := Z.lor (Z.shiftl 1 8) (Z.shiftl 1 9).

Definition device (flags : Z) : Z := flags.
Definition normal (flags : Z) : Z := Z.lor (Z.lor flags EXECUTABLE) READABLE.
Definition read_only (flags : Z) : Z := Z.ldiff flags WRITABLE.
Definition writable (flags : Z) : Z := Z.lor flags WRITABLE.
Definition execute_disable (flags : Z) : Z := Z.ldiff flags EXECUTABLE.

(** ** Entries *)

Definition entry_address (e : Z) : Z := wrapu 64 (Z.shiftl (Z.land e (Z.lnot 0x3ff)) 2).
Definition is_present (e : Z) : bool := negb (Z.land e VALID =? 0).
Definition is_readable (e : Z) : bool := negb (Z.land e READABLE =? 0).
Definition is_writable (e : Z) : bool := negb (Z.land e WRITABLE =? 0).
Definition is_executable (e : Z) : bool := negb (Z.land e EXECUTABLE =? 0).

(** ** Page sizes *)

Record PageSize : Type := mkPageSize {
  SIZE : Z;
  MAP_LEVEL : nat;
  MAP_EXTRA_FLAG : Z;
}.
Definition BasePageSize : PageSize := mkPageSize 4096 0 0.
Definition LargePageSize : PageSize := mkPageSize (2 * 1024 * 1024) 1 0.
Definition HugePageSize : PageSize := mkPageSize (1024 * 1024 * 1024) 2 0.

(** ** The machine *)

Record t (A : Type) : Type := mk {
  phys : Z -> Z; (** 64-bit words of physical memory, by address *)
  root : Z; (** [ROOT_PAGETABLE] *)
  alloc : A;
  flushed : list Z; (** addresses given to [sfence.vma] *)
}.
Arguments mk {A} _ _ _ _.
Arguments phys {A} _.
Arguments root {A} _.
Arguments alloc {A} _.
Arguments flushed {A} _.

(** The index of [va] in a table of level [l]. *)
Definition index_of (l : nat) (va : Z) : Z :=
  Z.land (Z.shiftr (Z.shiftr va PAGE_BITS) (Z.of_nat l * PAGE_MAP_BITS)) PAGE_MAP_MASK.
Definition indices (va : Z) : list Z := [index_of 2 va; index_of 1 va; index_of 0 va].

(** An entry the unit accepts: present, not writable only, reserved bits clear. *)
Definition valid (e : Z) : bool := is_present e && (is_readable e || negb (is_writable e)) && (e <? 2 ^ 54).
Definition is_leaf (e : Z) : bool := is_executable e || is_readable e.

(** What a leaf found [n] levels above the last one gives; a page that is not
    aligned to its size faults. *)
Definition leaf_address (n : nat) (e va : Z) : option Z :=
  let size := 2 ^ (12 + 9 * Z.of_nat n) in
  if entry_address e mod size =? 0 then Some (entry_address e + va mod size) else None.

(** The walk of the memory management unit with the indices that are left. *)
Fixpoint walk (m : Z -> Z) (table : Z) (ix : list Z) (va : Z) : option Z :=
  match ix with
  | [] => None
  | i :: rest =>
      let e := m (table + 8 * i) in
      if negb (valid e) then None
      else if is_leaf e then leaf_address (length rest) e va
      else walk m (entry_address e) rest va
  end.

(** The address is valid when bit 38 and all more significant bits match. *)
Definition is_valid_address (va : Z) : bool :=
  if negb (Z.land va (Z.shiftl 1 38) =? 0) then Z.shiftr va 39 =? Z.shiftl 1 (64 - 39) - 1
  else Z.shiftr va 39 =? 0.

Section Code.
Context {A : Type} `{Paging.FrameAlloc A}.

Definition set_phys (m : Z -> Z) (s : t A) : t A := mk m (root s) (alloc s) (flushed s).
Definition set_alloc (a : A) (s : t A) : t A := mk (phys s) (root s) a (flushed s).
Definition flush_from_tlb (page : Z) (s : t A) : t A := mk (phys s) (root s) (alloc s) (page :: flushed s).

Definition translate (s : t A) (va : Z) : option Z :=
  if is_valid_address va then walk (phys s) (root s) (indices va) va else None.

Definition read (a : Z) : M (t A) Z := gets (fun s => phys s a).
Definition write (a v : Z) : M (t A) unit := modify (fun s => set_phys (<[a := v]> (phys s)) s).

(** ** Pages *)

Definition including_address (S : PageSize) (va : Z) : M (t A) Z :=
  do! assert_ (is_valid_address va) "Virtual address is invalid" in
  ret (va - va mod SIZE S).

Definition table_index (S : PageSize) (l : nat) (page : Z) : M (t A) Z :=
  do! assert_ (MAP_LEVEL S <=? l)%nat "L::LEVEL >= S::MAP_LEVEL" in
  ret (index_of l page).

(** The pages [PageIter] yields. *)
Definition page_range (S : PageSize) (first last : Z) : M (t A) (list Z) :=
  do! assert_ (first <=? last) "first.virtual_address <= last.virtual_address" in
  ret ((fun k => first + Z.of_nat k * SIZE S) <$> seq 0 (Z.to_nat ((last - first) / SIZE S + 1))).

Definition get_page_range (S : PageSize) (virtual_address count : Z) : M (t A) (list Z) :=
  let! first_page := including_address S virtual_address in
  let! last_page := including_address S (wrapu 64 (virtual_address + wrapu 64 (wrapu 64 (count - 1) * SIZE S))) in
  page_range S first_page last_page.

(** ** Tables *)

Definition entry_set (physical_address flags : Z) : M (t A) Z :=
  do! assert_ (physical_address mod 4096 =? 0) "Physical address is not on a 4 KiB page boundary" in
  ret (Z.lor (Z.shiftr physical_address 2) (Z.lor (Z.lor flags VALID) GLOBAL)).

Definition map_page_in_this_table (S : PageSize) (l : nat) (table page physical_address flags : Z) : M (t A) unit :=
  do! assert_ (l =? MAP_LEVEL S)%nat "L::LEVEL == S::MAP_LEVEL" in
  let! index := table_index S l page in
  let! e := read (table + 8 * index) in
  let! e' :=
    if (physical_address =? 0) && (flags =? 0) then ret 0
    else entry_set physical_address (Z.lor (Z.lor (Z.lor (MAP_EXTRA_FLAG S) ACCESSED) DIRTY) flags) in
  do! write (table + 8 * index) e' in
  if is_present e then modify (flush_from_tlb page) else ret tt.

Definition subtable (S : PageSize) (l : nat) (table page : Z) : M (t A) Z :=
  do! assert_ (MAP_LEVEL S <? l)%nat "L::LEVEL > S::MAP_LEVEL" in
  let! index := table_index S l page in
  let! e := read (table + 8 * index) in
  ret (entry_address e).

(** Marking all entries of a new table as unused. *)
Fixpoint clear_table (table : Z) (n : nat) : M (t A) unit :=
  match n with
  | O => ret tt
  | Datatypes.S n' => do! clear_table table n' in write (table + 8 * Z.of_nat n') 0
  end.

(** [n] is the level of the table. *)
Fixpoint map_page (S : PageSize) (n : nat) (table page physical_address flags : Z) : M (t A) unit :=
  match n with
  | O => map_page_in_this_table S n table page physical_address flags
  | Datatypes.S n' =>
      do! assert_ (MAP_LEVEL S <=? n)%nat "L::LEVEL >= S::MAP_LEVEL" in
      if (MAP_LEVEL S <? n)%nat then
        let! index := table_index S n page in
        let! e := read (table + 8 * index) in
        do! (if negb (is_present e) then
               let! a := gets alloc in
               let! '(new_entry, a') := unwrap (Paging.allocate a 4096 4096) "called `Result::unwrap()` on an `Err` value" in
               do! modify (set_alloc a') in
               let! e' := entry_set new_entry 0 in
               do! write (table + 8 * index) e' in
               let! sub := subtable S n table page in
               clear_table sub 512
             else ret tt) in
        let! sub := subtable S n table page in
        map_page S n' sub page physical_address flags
      else map_page_in_this_table S n table page physical_address flags
  end.

Definition root_map_page (S : PageSize) (page physical_address flags : Z) : M (t A) unit :=
  let! r := gets root in
  map_page S 2 r page physical_address flags.

Fixpoint map_pages (S : PageSize) (pages : list Z) (physical_address flags : Z) : M (t A) unit :=
  match pages with
  | [] => ret tt
  | page :: rest =>
      do! root_map_page S page physical_address flags in
      map_pages S rest (physical_address + SIZE S) flags
  end.

(** ** The interface *)

Definition map (S : PageSize) (virtual_address physical_address count flags : Z) : M (t A) unit :=
  let! range := get_page_range S virtual_address count in
  map_pages S range physical_address flags.

Definition unmap (S : PageSize) (virtual_address count : Z) : M (t A) unit :=
  let! range := get_page_range S virtual_address count in
  map_pages S range 0 0.

Definition identity_map (S : PageSize) (phys_addr : Z) : M (t A) unit :=
  let! first_page := including_address S phys_addr in
  let! last_page := including_address S phys_addr in
  let! range := page_range S first_page last_page in
  map_pages S range first_page (writable (normal 0)).

(** The iterations [map_counter .. map_counter + k] of the loop. *)
Fixpoint map_heap_loop (S : PageSize) (virt_addr map_counter : Z) (k : nat) : M (t A) (Result Z unit) :=
  match k with
  | O => ret (Ok tt)
  | Datatypes.S k' =>
      let! a := gets alloc in
      match Paging.allocate a (SIZE S) (SIZE S) with
      | None => ret (Err map_counter)
      | Some (phys_addr, a') =>
          do! modify (set_alloc a') in
          do! map S (virt_addr + map_counter * SIZE S) phys_addr 1 (execute_disable (writable (normal 0))) in
          map_heap_loop S virt_addr (map_counter + 1) k'
      end
  end.

Definition map_heap (S : PageSize) (virt_addr count : Z) : M (t A) (Result Z unit) :=
  map_heap_loop S virt_addr 0 (Z.to_nat count).

(** ** The walk of the software *)

Definition vpn (i : nat) (va : Z) : Z := Z.land (Z.shiftr va (PAGE_BITS + Z.of_nat i * PAGE_MAP_BITS)) PAGE_MAP_MASK.

(** The address put together from a leaf of level [i]. *)
Definition phys_address (i : nat) (va e : Z) : Z :=
  let offset := Z.land va (Z.shiftl 1 PAGE_BITS - 1) in
  let low := fold_left (fun acc j => Z.lor acc (Z.shiftl (vpn j va) (PAGE_BITS + Z.of_nat j * PAGE_MAP_BITS))) (seq 0 i) offset in
  fold_left (fun acc j => Z.lor acc (Z.land (entry_address e) (Z.shiftl PAGE_MAP_MASK (PAGE_BITS + Z.of_nat j * PAGE_MAP_BITS))))
    (seq i (PAGE_LEVELS - i)) low.

(** [n] levels are left. *)
Fixpoint software_walk (n : nat) (va page_table_addr : Z) : M (t A) (option Z) :=
  match n with
  | O => panic "virtual_to_physical should never reach this point"
  | Datatypes.S i =>
      let! pte := read (page_table_addr + 8 * vpn i va) in
      do! assert_ (is_present pte && (is_readable pte || negb (is_writable pte))) "Invalid PTE" in
      if is_executable pte || is_readable pte then ret (Some (phys_address i va pte))
      else
        do! assert_ (negb (i =? 0)%nat) "assertion failed: i != 0" in
        software_walk i va (entry_address pte)
  end.

Definition virtual_to_physical (virtual_address : Z) : M (t A) (option Z) :=
  let! r := gets root in
  software_walk PAGE_LEVELS virtual_address r.

End Code.
End RiscvPaging.
