(* ===== verification/RiscvProps.v ===== *)
(** Page tables of RISC-V: the tables form a tree in physical memory, [map]
    changes the translation of exactly the pages of its range for every page
    size, and the walk of the software agrees with the one of the memory
    management unit up to the 39 bits it keeps. *)

From S2P Require Import Prelude Paging PagingMap PagingProps RiscvPaging.
From stdpp Require Import functions.
Open Scope Z_scope.

Module RiscvProps.
Import RiscvPaging.
Import (hints) PagingTree.
Notation idx := PagingTree.idx.
Notation owned := PagingMap.owned.
Notation room := PagingMap.room.
Notation alloc_ok := PagingMap.alloc_ok.

(** ** Entries *)

Definition frame (f : Z) : Prop := 0 <= f /\ f mod 4096 = 0 /\ f + 4096 <= 2 ^ 56.

Lemma entry_spec f b : frame f -> 0 <= b < 1024 ->
  let e := Z.lor (Z.shiftr f 2) b in
  entry_address e = f /\ (forall i, 0 <= i < 10 -> Z.testbit e i = Z.testbit b i) /\ 0 <= e < 2 ^ 54.
Proof.
  intros (H0 & Hm & Hb) Hfl e. assert (Ek : Z.shiftr f 2 = f / 4096 * 2 ^ 10).
  { rewrite Z.shiftr_div_pow2 by lia. Z.div_mod_to_equations. lia. }
  assert (Ee : e = f / 4096 * 2 ^ 10 + b) by (unfold e; rewrite Ek; by apply PagingTree.lor_add).
  split_and!.
  - unfold entry_address. change 0x3ff with (Z.ones 10). rewrite <- Z.ldiff_land, Z.ldiff_ones_r by lia.
    rewrite !Z.shiftl_mul_pow2, Z.shiftr_div_pow2 by lia.
    replace (e / 2 ^ 10) with (f / 4096) by (rewrite Ee; rewrite Z.div_add_l by lia; rewrite (Z.div_small b) by lia; lia).
    replace (f / 4096 * 2 ^ 10 * 2 ^ 2) with f by (Z.div_mod_to_equations; lia). apply wrapu_small. lia.
  - intros i Hi. unfold e. rewrite Z.lor_spec, Ek, Z.mul_pow2_bits_low by lia. done.
  - rewrite Ee. Z.div_mod_to_equations. lia.
  - rewrite Ee. Z.div_mod_to_equations. lia.
Qed.

Lemma rv_present_bit e : is_present e = Z.testbit e 0.
Proof. unfold is_present, VALID. by apply PagingTree.land_bit. Qed.
Lemma readable_bit e : is_readable e = Z.testbit e 1.
Proof. unfold is_readable, READABLE. by apply PagingTree.land_bit. Qed.
Lemma writable_bit e : is_writable e = Z.testbit e 2.
Proof. unfold is_writable, WRITABLE. by apply PagingTree.land_bit. Qed.
Lemma executable_bit e : is_executable e = Z.testbit e 3.
Proof. unfold is_executable, EXECUTABLE. by apply PagingTree.land_bit. Qed.

(** What [entry_set] stores. *)
Definition entry_of (f fl : Z) : Z := Z.lor (Z.shiftr f 2) (Z.lor (Z.lor fl VALID) GLOBAL).

Lemma lor_bound a b : 0 <= a < 1024 -> 0 <= b < 1024 -> 0 <= Z.lor a b < 1024.
Proof.
  intros Ha Hb. assert (Hn : 0 <= Z.lor a b) by (rewrite Z.lor_nonneg; lia). split; [done|].
  destruct (Z.eq_dec (Z.lor a b) 0) as [->|]; [lia|]. change 1024 with (2 ^ 10).
  assert (Hl : forall x, 0 <= x < 1024 -> Z.log2 x < 10).
  { intros x Hx. destruct (Z.eq_dec x 0) as [->|]; [done|]. apply Z.log2_lt_pow2; lia. }
  apply Z.log2_lt_pow2; [lia|]. rewrite Z.log2_lor by lia. apply Z.max_lub_lt; by apply Hl.
Qed.
Lemma flags_bound fl : 0 <= fl < 1024 -> 0 <= Z.lor (Z.lor fl VALID) GLOBAL < 1024.
Proof. intros Hf. apply lor_bound; [by apply lor_bound|done]. Qed.

Lemma rv_entry_of_spec f fl : frame f -> 0 <= fl < 1024 ->
  entry_address (entry_of f fl) = f /\ is_present (entry_of f fl) = true /\ (entry_of f fl <? 2 ^ 54) = true /\
  is_readable (entry_of f fl) = is_readable fl /\ is_writable (entry_of f fl) = is_writable fl /\
  is_executable (entry_of f fl) = is_executable fl.
Proof.
  intros Hf Hfl. destruct (entry_spec f _ Hf (flags_bound fl Hfl)) as (E1 & E2 & E3). fold (entry_of f fl) in *.
  rewrite rv_present_bit, !readable_bit, !writable_bit, !executable_bit, !E2 by lia. rewrite !Z.lor_spec.
  split_and!; try done; [by rewrite orb_true_r|lia|..]; cbn; by rewrite !orb_false_r.
Qed.
Lemma entry_of_valid f fl : frame f -> 0 <= fl < 1024 ->
  valid (entry_of f fl) = is_readable fl || negb (is_writable fl).
Proof. intros Hf Hfl. destruct (rv_entry_of_spec f fl Hf Hfl) as (_ & E1 & E2 & E3 & E4 & _). unfold valid. rewrite E1, E2, E3, E4. by rewrite andb_true_r. Qed.
Lemma entry_of_leaf f fl : frame f -> 0 <= fl < 1024 -> is_leaf (entry_of f fl) = is_leaf fl.
Proof. intros Hf Hfl. destruct (rv_entry_of_spec f fl Hf Hfl) as (_ & _ & _ & E3 & _ & E5). unfold is_leaf. by rewrite E3, E5. Qed.

(** ** The tree of tables *)

Definition follow (m : Z -> Z) (table i : Z) : option Z :=
  let e := m (table + 8 * i) in if valid e && negb (is_leaf e) then Some (entry_address e) else None.

(** The table reached by a list of indices. *)
Fixpoint table_at (m : Z -> Z) (r : Z) (p : list Z) : option Z :=
  match p with
  | [] => Some r
  | i :: p' => g ← follow m r i; table_at m g p'
  end.

Definition path (p : list Z) : Prop := (length p <= 2)%nat /\ Forall idx p.

Lemma table_at_app m r p q : table_at m r (p ++ q) = g ← table_at m r p; table_at m g q.
Proof. revert r. induction p as [|i p IH]; intros r; cbn; [done|]. destruct (follow m r i); cbn; [apply IH|done]. Qed.
Lemma table_at_snoc m r p i : table_at m r (p ++ [i]) = g ← table_at m r p; follow m g i.
Proof. rewrite table_at_app. destruct (table_at m r p); cbn; [|done]. by destruct (follow m _ i). Qed.
Lemma path_app p q : path (p ++ q) -> path p.
Proof. unfold path. rewrite length_app, Forall_app. intros [? [? ?]]. split; [lia|done]. Qed.
Lemma path_snoc p i : path p -> (length p < 2)%nat -> idx i -> path (p ++ [i]).
Proof. unfold path. rewrite length_app, Forall_app, Forall_singleton. cbn. intros [? ?] ? ?. split; [lia|done]. Qed.

(** The walk from a table on the way. *)
Lemma walk_table m r p f rest va : table_at m r p = Some f -> walk m r (p ++ rest) va = walk m f rest va.
Proof.
  revert r. induction p as [|i p IH]; intros r; cbn; [by intros [= ->]|]. unfold follow.
  destruct (valid _); cbn [andb negb]; [|done]. destruct (is_leaf _); cbn [negb mbind option_bind]; [done|]. apply IH.
Qed.

(** Tables are frames of their own. *)
Record tree (m : Z -> Z) (r : Z) : Prop := {
  tree_frame p f : path p -> table_at m r p = Some f -> frame f;
  tree_inj p q f : path p -> path q -> table_at m r p = Some f -> table_at m r q = Some f -> p = q;
  tree_entry p f i : path p -> idx i -> table_at m r p = Some f -> is_present (m (f + 8 * i)) = true ->
    valid (m (f + 8 * i)) = true /\
    (is_leaf (m (f + 8 * i)) = true -> entry_address (m (f + 8 * i)) mod 2 ^ (30 - 9 * Z.of_nat (length p)) = 0);
}.

Section Write.
Context (m : Z -> Z) (r : Z) (HT : tree m r).

Lemma rv_entry_apart p q f g i j : path p -> path q -> table_at m r p = Some f -> table_at m r q = Some g ->
  idx i -> idx j -> f + 8 * i = g + 8 * j -> p ++ [i] = q ++ [j].
Proof.
  intros Pp Pq Hp Hq Hi Hj E. destruct (tree_frame m r HT p f Pp Hp) as (_ & Mf & _), (tree_frame m r HT q g Pq Hq) as (_ & Mg & _).
  assert (f = g) as -> by (unfold PagingTree.idx in *; Z.div_mod_to_equations; lia).
  f_equal; [by eapply tree_inj|]. f_equal. lia.
Qed.

(** Memory that differs in one entry only, or outside of the tables. *)
Section Other.
Context (m' : Z -> Z) (w : list Z).
Hypothesis Hw : forall q g j, path q -> table_at m r q = Some g -> idx j -> q ++ [j] <> w -> m' (g + 8 * j) = m (g + 8 * j).

Lemma table_at_other q : path q -> ~ w `prefix_of` q -> table_at m' r q = table_at m r q.
Proof.
  induction q as [|j q IH] using rev_ind; [done|]. intros Pq Hn. rewrite !table_at_snoc.
  pose proof (path_app _ _ Pq) as Pq'. rewrite IH by (try done; intros Hp; apply Hn; by apply prefix_app_r).
  destruct (table_at m r q) as [g|] eqn:Eg; cbn; [|done]. unfold follow. rewrite (Hw q g j); [done..| |].
  - destruct Pq as [_ Pq]. rewrite Forall_app, Forall_singleton in Pq. apply Pq.
  - intros <-. by apply Hn.
Qed.

Lemma walk_other q rest g va : path q -> table_at m r q = Some g -> (length q + length rest = 3)%nat -> Forall idx rest ->
  ~ w `prefix_of` q ++ rest -> walk m' g rest va = walk m g rest va.
Proof.
  revert q g. induction rest as [|j rest IH]; intros q g Pq Hq Hl Hx Hn; [done|]. cbn [walk length] in *.
  apply Forall_cons_1 in Hx as [Hj Hx]. rewrite (Hw q g j); [|done..|]; cycle 1.
  { intros <-. apply Hn. exists rest. by rewrite <- app_assoc. }
  destruct (valid (m (g + 8 * j))) eqn:Ev; cbn [negb]; [|done]. destruct (is_leaf (m (g + 8 * j))) eqn:El; [done|].
  destruct (decide (rest = [])) as [->|Hne]; [done|]. assert (0 < length rest)%nat by (destruct rest; cbn; [done|lia]).
  apply (IH (q ++ [j])).
  - apply path_snoc; [done|lia|done].
  - rewrite table_at_snoc, Hq. cbn. unfold follow. by rewrite Ev, El.
  - rewrite length_app. cbn. lia.
  - done.
  - by rewrite <- app_assoc.
Qed.
End Other.

Section Entry.
Context (m' : Z -> Z) (p : list Z) (f i : Z) (Pp : path p) (Hp : table_at m r p = Some f) (Hi : idx i).
Hypothesis Hw : forall q g j, path q -> table_at m r q = Some g -> idx j -> q ++ [j] <> p ++ [i] -> m' (g + 8 * j) = m (g + 8 * j).

Lemma not_below : ~ p ++ [i] `prefix_of` p.
Proof. intros [k E]. apply (f_equal length) in E. rewrite !length_app in E. cbn in E. lia. Qed.

Lemma table_at_here : table_at m' r p = Some f.
Proof. rewrite <- Hp. apply (table_at_other m' (p ++ [i]) Hw); [done|apply not_below]. Qed.

Lemma table_at_below k : table_at m' r ((p ++ [i]) ++ k) = g ← follow m' f i; table_at m' g k.
Proof. by rewrite table_at_app, table_at_snoc, table_at_here. Qed.

(** An entry that is no table. *)
Lemma table_at_leaf q g : follow m' f i = None \/ length p = 2%nat -> path q ->
  table_at m' r q = Some g -> table_at m r q = Some g /\ ~ p ++ [i] `prefix_of` q.
Proof.
  intros Hf Pq. destruct (decide (p ++ [i] `prefix_of` q)) as [[k ->]|Hn].
  - destruct Hf as [Hf|Hl]; [by rewrite table_at_below, Hf|]. destruct Pq as [Pl _]. rewrite !length_app in Pl. cbn in Pl. lia.
  - by rewrite (table_at_other m' (p ++ [i]) Hw) by done.
Qed.

Lemma tree_leaf : follow m' f i = None \/ length p = 2%nat ->
  (is_present (m' (f + 8 * i)) = true -> valid (m' (f + 8 * i)) = true /\
    (is_leaf (m' (f + 8 * i)) = true -> entry_address (m' (f + 8 * i)) mod 2 ^ (30 - 9 * Z.of_nat (length p)) = 0)) -> tree m' r.
Proof.
  intros Hf He. split.
  - intros q g Pq Hq. apply (tree_frame m r HT q g Pq). by eapply table_at_leaf.
  - intros q q' g Pq Pq' Hq Hq'. apply (tree_inj m r HT q q' g Pq Pq'); by eapply table_at_leaf.
  - intros q g j Pq Hj Hq. destruct (table_at_leaf q g Hf Pq Hq) as [Hq' _].
    destruct (decide (q ++ [j] = p ++ [i])) as [E|Hne].
    + apply app_inj_tail in E as [-> ->]. assert (g = f) as -> by congruence. apply He.
    + rewrite (Hw q g j) by done. by apply (tree_entry m r HT).
Qed.

(** A new table without entries. *)
Context (g : Z).
Hypothesis Hg : frame g.
Hypothesis Hlen : (length p < 2)%nat.
Hypothesis Hfol : follow m' f i = Some g.
Hypothesis Hpres : valid (m' (f + 8 * i)) = true.
Hypothesis Hempty : forall j, idx j -> m' (g + 8 * j) = 0.
Hypothesis Hnew : forall q h, path q -> table_at m r q = Some h -> h <> g.

Lemma table_at_new q h : path q -> table_at m' r q = Some h ->
  (table_at m r q = Some h /\ ~ p ++ [i] `prefix_of` q) \/ (q = p ++ [i] /\ h = g).
Proof.
  intros Pq. destruct (decide (p ++ [i] `prefix_of` q)) as [[k ->]|Hn].
  - rewrite table_at_below, Hfol. cbn [mbind option_bind]. destruct k as [|j k]; cbn [table_at].
    + intros [= <-]. right. by rewrite app_nil_r.
    + destruct Pq as [_ Pq]. rewrite Forall_app in Pq. destruct Pq as [_ Pq]. apply Forall_cons_1 in Pq as [Hj _].
      unfold follow. rewrite Hempty by done. done.
  - rewrite (table_at_other m' (p ++ [i]) Hw) by done. auto.
Qed.

Lemma tree_new : tree m' r.
Proof.
  split.
  - intros q h Pq Hq. destruct (table_at_new q h Pq Hq) as [[Hq' _]|[_ ->]]; [by eapply (tree_frame m r HT q)|done].
  - intros q q' h Pq Pq' Hq Hq'. destruct (table_at_new q h Pq Hq) as [[H1 _]|[-> ->]], (table_at_new q' _ Pq' Hq') as [[H2 _]|[-> E]]; subst.
    + by eapply (tree_inj m r HT q q').
    + by destruct (Hnew q g Pq).
    + by destruct (Hnew q' g Pq').
    + done.
  - intros q h j Pq Hj Hq. destruct (table_at_new q h Pq Hq) as [[H1 _]|[-> ->]]; [|by rewrite Hempty].
    destruct (decide (q ++ [j] = p ++ [i])) as [E|Hne].
    + apply app_inj_tail in E as [-> ->]. assert (h = f) as -> by congruence. intros _. split; [done|].
      unfold follow in Hfol. by destruct (valid _), (is_leaf _).
    + rewrite (Hw q h j) by done. by apply (tree_entry m r HT).
Qed.
End Entry.
End Write.

(** ** Addresses *)

(** The lower half of the address space. *)
Definition low (va : Z) : Prop := 0 <= va < 2 ^ 38.

Lemma rv_index_of_div l va : index_of l va = va / 2 ^ (12 + 9 * Z.of_nat l) mod 512.
Proof.
  unfold index_of, PAGE_BITS, PAGE_MAP_BITS, PAGE_MAP_MASK. rewrite !Z.shiftr_div_pow2 by lia.
  change 0x1ff with (Z.ones 9). rewrite Z.land_ones, Z.div_div by lia. rewrite <- Z.pow_add_r by lia. do 3 f_equal. lia.
Qed.
Lemma index_of_idx l va : idx (index_of l va).
Proof. rewrite rv_index_of_div. apply Z.mod_pos_bound. lia. Qed.
Lemma indices_idx va : Forall idx (indices va).
Proof. repeat constructor; apply index_of_idx. Qed.
Lemma indices_at n va : (n <= 2)%nat -> indices va = take (2 - n) (indices va) ++ index_of n va :: drop (3 - n) (indices va).
Proof. intros Hn. by destruct n as [|[|[|]]]; [..|lia]. Qed.
Lemma indices_path n va : (n <= 2)%nat -> path (take (2 - n) (indices va)) /\ length (take (2 - n) (indices va)) = (2 - n)%nat.
Proof.
  intros Hn. assert (E : length (take (2 - n) (indices va)) = (2 - n)%nat) by (rewrite length_take; cbn; lia).
  split; [|done]. split; [lia|]. apply Forall_take, indices_idx.
Qed.
Lemma indices_next n va : (S n <= 2)%nat -> take (2 - n) (indices va) = take (2 - S n) (indices va) ++ [index_of (S n) va].
Proof. intros Hn. by destruct n as [|[|]]; [..|lia]. Qed.
Lemma low_valid va : low va -> is_valid_address va = true.
Proof.
  intros [H0 H1]. unfold is_valid_address. rewrite PagingTree.land_bit by lia. rewrite Z.shiftr_div_pow2 by lia.
  assert (E : Z.testbit va 38 = false) by (apply Z.testbit_false; [lia|]; by rewrite Z.div_small). rewrite E.
  rewrite Z.div_small by lia. done.
Qed.

(** The pages of level [k] are told apart by the first [3 - k] indices. *)
Lemma prefix_page k page va : (k <= 2)%nat -> low page -> low va -> page mod 2 ^ (12 + 9 * Z.of_nat k) = 0 ->
  take (2 - k) (indices page) ++ [index_of k page] `prefix_of` indices va <-> page <= va < page + 2 ^ (12 + 9 * Z.of_nat k).
Proof.
  intros Hk [Hp0 Hp1] [Hv0 Hv1] Hm.
  assert (Hpre : forall l, length l = (3 - k)%nat -> l `prefix_of` indices va <-> l = take (3 - k) (indices va)).
  { intros l Hl. split; [intros [q E]; rewrite E; by rewrite <- Hl, take_app_length|intros ->; apply prefix_take]. }
  rewrite Hpre by (rewrite length_app, (proj2 (indices_path k page Hk)); cbn; lia). clear Hpre.
  destruct k as [|[|[|]]]; [..|lia]; cbn [Nat.sub take indices app]; rewrite !rv_index_of_div.
  - change (2 ^ (12 + 9 * Z.of_nat 0)) with 4096 in *. change (2 ^ (12 + 9 * Z.of_nat 1)) with 2097152 in *. change (2 ^ (12 + 9 * Z.of_nat 2)) with 1073741824 in *.
    split; [intros [= E1 E2 E3]; Z.div_mod_to_equations; lia|]. intros Hin.
    assert (page / 4096 = va / 4096) as -> by (Z.div_mod_to_equations; lia). assert (page / 2097152 = va / 2097152) as -> by (Z.div_mod_to_equations; lia). assert (page / 1073741824 = va / 1073741824) as -> by (Z.div_mod_to_equations; lia). done.
  - change (2 ^ (12 + 9 * Z.of_nat 1)) with 2097152 in *. change (2 ^ (12 + 9 * Z.of_nat 2)) with 1073741824 in *.
    split; [intros [= E1 E2]; Z.div_mod_to_equations; lia|]. intros Hin.
    assert (page / 2097152 = va / 2097152) as -> by (Z.div_mod_to_equations; lia). assert (page / 1073741824 = va / 1073741824) as -> by (Z.div_mod_to_equations; lia). done.
  - change (2 ^ (12 + 9 * Z.of_nat 2)) with 1073741824 in *.
    split; [intros [= E1]; Z.div_mod_to_equations; lia|]. intros Hin.
    assert (page / 1073741824 = va / 1073741824) as -> by (Z.div_mod_to_equations; lia). done.
Qed.

(** ** Changes of the translation *)

Section Map.
Context {A : Type} `{PagingMap.FrameAllocOk A}.

(** The tables of [s] form a tree and share no memory with the allocator. *)
Record wf (s : t A) : Prop := {
  wf_tree : tree (phys s) (root s);
  wf_alloc : alloc_ok (alloc s);
  wf_apart q p f : owned (alloc s) q -> path p -> table_at (phys s) (root s) p = Some f -> ~ (f <= q < f + 4096);
}.

(** No page larger than those of level [k] holds [va]. *)
Definition no_larger (s : t A) (k : nat) (va : Z) : Prop :=
  forall p i rest g, indices va = p ++ i :: rest -> (k < length rest)%nat -> table_at (phys s) (root s) p = Some g ->
    is_present (phys s (g + 8 * i)) = true -> is_leaf (phys s (g + 8 * i)) = false.

(** Memory in no table that is not the allocator's. *)
Definition outside (s : t A) (q : Z) : Prop :=
  ~ owned (alloc s) q /\ forall p f, path p -> table_at (phys s) (root s) p = Some f -> ~ (f <= q < f + 4096).

(** [s'] is [s] with the translations changed by [c]; pages of level [k] were
    set and [n] frames used. *)
Record remapped (k n : nat) (s s' : t A) (c : Z -> option Z -> option Z) : Prop := {
  r_wf : wf s';
  r_root : root s' = root s;
  r_room : (room (alloc s) <= room (alloc s') + n)%nat;
  r_tr va : low va -> translate s' va = c va (translate s va);
  r_larger va : no_larger s k va -> no_larger s' k va;
  r_outside q : outside s q -> outside s' q /\ phys s' q = phys s q;
  r_owned q : owned (alloc s') q -> owned (alloc s) q;
}.

Lemma rv_remapped_refl k s : wf s -> remapped k 0 s s (fun _ o => o).
Proof. intros W. split; [done|done|lia|done|done|done|done]. Qed.
Lemma rv_remapped_trans k n1 n2 s1 s2 s3 c1 c2 : remapped k n1 s1 s2 c1 -> remapped k n2 s2 s3 c2 ->
  remapped k (n1 + n2) s1 s3 (fun va o => c2 va (c1 va o)).
Proof.
  intros R1 R2. split.
  - apply R2.
  - by rewrite (r_root _ _ _ _ _ R2), (r_root _ _ _ _ _ R1).
  - pose proof (r_room _ _ _ _ _ R1). pose proof (r_room _ _ _ _ _ R2). lia.
  - intros va Hl. by rewrite (r_tr _ _ _ _ _ R2), (r_tr _ _ _ _ _ R1).
  - intros va Hn. apply (r_larger _ _ _ _ _ R2), (r_larger _ _ _ _ _ R1), Hn.
  - intros q Hq. destruct (r_outside _ _ _ _ _ R1 q Hq) as [H1 E1], (r_outside _ _ _ _ _ R2 q H1) as [H2 E2]. by rewrite E2, E1.
  - intros q Hq. by apply (r_owned _ _ _ _ _ R1), (r_owned _ _ _ _ _ R2).
Qed.
Lemma rv_remapped_ext k n s s' c c' : (forall va o, low va -> c va o = c' va o) -> remapped k n s s' c -> remapped k n s s' c'.
Proof. intros E R. destruct R as [R1 R2 R3 R4 R5 R6 R7]. split; try done. intros va Hl. by rewrite R4, E. Qed.
Lemma remapped_weaken k n n' s s' c : (n <= n')%nat -> remapped k n s s' c -> remapped k n' s s' c.
Proof. intros Hn R. destruct R as [R1 R2 R3 R4 R5 R6 R7]. split; try done. lia. Qed.
Lemma remapped_flush k n s s' c page : remapped k n s s' c -> remapped k n s (flush_from_tlb page s') c.
Proof.
  intros R. destruct R as [[W1 W2 W3] R2 R3 R4 R5 R6 R7]. by split; [split|..].
Qed.

(** What an entry of level [k] translates to when it is not a table. *)
Definition entry_result (k : nat) (e va : Z) : option Z := if valid e && is_leaf e then leaf_address k e va else None.

(** Setting an entry of level [k] that is not a table. *)
Lemma set_entry s page f e k : wf s -> (k <= 2)%nat -> low page -> page mod 2 ^ (12 + 9 * Z.of_nat k) = 0 ->
  table_at (phys s) (root s) (take (2 - k) (indices page)) = Some f ->
  (valid e && negb (is_leaf e) = false \/ k = 0%nat) ->
  (is_present e = true -> valid e = true /\ (is_leaf e = true -> entry_address e mod 2 ^ (12 + 9 * Z.of_nat k) = 0)) ->
  remapped k 0 s (set_phys (<[f + 8 * index_of k page := e]> (phys s)) s)
    (fun va o => if bool_decide (page <= va < page + 2 ^ (12 + 9 * Z.of_nat k)) then entry_result k e va else o).
Proof.
  intros [WT WA WP] Hk Hl Hm Hf Hnt Hok. set (p := take (2 - k) (indices page)) in *. set (i := index_of k page).
  destruct (indices_path k page Hk) as [Pp Lp]. fold p in Pp, Lp. assert (Hi : idx i) by apply index_of_idx.
  set (m' := <[f + 8 * i := e]> (phys s)). assert (Ee : m' (f + 8 * i) = e) by (unfold m'; by rewrite fn_lookup_insert).
  assert (Hw : forall q g j, path q -> table_at (phys s) (root s) q = Some g -> idx j -> q ++ [j] <> p ++ [i] -> m' (g + 8 * j) = phys s (g + 8 * j)).
  { intros q g j Pq Hq Hj Hne. unfold m'. apply fn_lookup_insert_ne. intros E. apply Hne. symmetry.
    by apply (rv_entry_apart (phys s) (root s) WT p q f g i j). }
  assert (Hno : follow m' f i = None \/ length p = 2%nat).
  { destruct Hnt as [Hnt| ->]; [left|by right]. unfold follow. by rewrite Ee, Hnt. }
  assert (Hsub : forall q g, path q -> table_at m' (root s) q = Some g -> table_at (phys s) (root s) q = Some g).
  { intros q g Pq Hq. by destruct (table_at_leaf (phys s) (root s) m' p f i Pp Hf Hw q g Hno Pq Hq). }
  split; cbn [set_phys phys root alloc].
  - split; cbn [phys root alloc]; [|done|].
    + apply (tree_leaf (phys s) (root s) WT m' p f i Pp Hf Hw Hno). rewrite Ee, Lp.
      replace (30 - 9 * Z.of_nat (2 - k)) with (12 + 9 * Z.of_nat k) by lia. apply Hok.
    + intros q p' f' Ho Pp' Hp'. by apply (WP q p' f' Ho Pp'), Hsub.
  - done.
  - lia.
  - intros va Hv. unfold translate. cbn [phys root]. rewrite low_valid by done. fold m'.
    pose proof (prefix_page k page va Hk Hl Hv Hm) as Hpre. fold p i in Hpre.
    destruct (bool_decide_reflect (page <= va < page + 2 ^ (12 + 9 * Z.of_nat k))) as [Hin|Hout].
    + apply Hpre in Hin as [rest E]. rewrite E, <- app_assoc.
      rewrite (walk_table m' (root s) p f _ va (table_at_here (phys s) (root s) m' p f i Pp Hf Hw)).
      cbn [app walk]. rewrite Ee. unfold entry_result.
      assert (Er : length rest = k). { apply (f_equal length) in E. rewrite !length_app, Lp in E. cbn in E. lia. }
      rewrite Er. destruct (valid e) eqn:Ev; cbn [andb negb] in *; [|done]. destruct (is_leaf e); cbn [negb] in *; [done|].
      destruct Hnt as [?| ->]; [done|]. by destruct rest.
    + apply (walk_other (phys s) (root s) m' (p ++ [i]) Hw []); try done; [by split; [cbn; lia|]|apply indices_idx|].
      intros Hp. by apply Hout, Hpre.
  - intros va Hn q j rest g E Hr Hq. cbn [set_phys phys root] in *. fold m' in Hq |- *.
    assert (Lq : (length q + length rest = 2)%nat). { apply (f_equal length) in E. rewrite length_app in E. cbn in E. lia. }
    assert (Xq : Forall idx q /\ idx j). { pose proof (indices_idx va) as X. rewrite E, Forall_app in X. destruct X as [? X]. by apply Forall_cons_1 in X as [? _]. }
    assert (Pq : path q) by (split; [lia|apply Xq]). apply (Hsub q g Pq) in Hq.
    rewrite (Hw q g j); [by apply (Hn q j rest g)|done|done|apply Xq|].
    intros E'. apply (f_equal length) in E'. rewrite !length_app, Lp in E'. cbn in E'. lia.
  - intros q [Ho Ht]. split.
    + split; [done|]. cbn [phys root]. fold m'. intros p' f' Pp' Hp'. by apply (Ht p' f' Pp'), Hsub.
    + fold m'. unfold m'. apply fn_lookup_insert_ne. intros <-. apply (Ht p f Pp Hf). unfold PagingTree.idx in Hi. lia.
  - done.
Qed.

Lemma clear_table_run (s : t A) g n : exists s', clear_table g n s = Done tt s' /\ root s' = root s /\ alloc s' = alloc s /\ flushed s' = flushed s /\
  (forall j, 0 <= j < Z.of_nat n -> phys s' (g + 8 * j) = 0) /\ (forall a, ~ (g <= a < g + 8 * Z.of_nat n) -> phys s' a = phys s a).
Proof.
  induction n as [|n (s1 & E & R1 & R2 & R3 & Hz & Ho)]; [exists s; split_and!; try done; lia|].
  eexists. cbn [clear_table]. erewrite bind_run by exact E. split; [reflexivity|]. cbn [set_phys root alloc flushed phys]. split_and!; try done.
  - intros j Hj. destruct (decide (j = Z.of_nat n)) as [->|]; [by rewrite fn_lookup_insert|].
    rewrite fn_lookup_insert_ne by lia. apply Hz. lia.
  - intros a Ha. rewrite fn_lookup_insert_ne by lia. apply Ho. lia.
Qed.

Lemma small_frame f : PagingTree.frame f -> frame f.
Proof. unfold PagingTree.frame, frame. lia. Qed.

(** A new table without entries changes no translation. *)
Lemma new_table s s' page f g n k : wf s -> (k < S n <= 2)%nat ->
  table_at (phys s) (root s) (take (2 - S n) (indices page)) = Some f ->
  let a := f + 8 * index_of (S n) page in
  is_present (phys s a) = false -> root s' = root s -> alloc_ok (alloc s') -> room (alloc s) = S (room (alloc s')) -> frame g ->
  (forall q, g <= q < g + 4096 -> owned (alloc s) q) -> (forall q, owned (alloc s') q -> owned (alloc s) q /\ ~ (g <= q < g + 4096)) ->
  phys s' a = entry_of g 0 -> (forall j, idx j -> phys s' (g + 8 * j) = 0) ->
  (forall b, b <> a -> ~ (g <= b < g + 4096) -> phys s' b = phys s b) ->
  remapped k 1 s s' (fun _ o => o) /\ table_at (phys s') (root s) (take (2 - n) (indices page)) = Some g.
Proof.
  intros [WT WA WP] Hn Hf a Hpr Er Ha' Hroom Hg Hown Hown' Ea Hz Ho.
  set (p := take (2 - S n) (indices page)) in *. set (i := index_of (S n) page) in *.
  destruct (indices_path (S n) page) as [Pp Lp]; [lia|]. fold p in Pp, Lp. assert (Hi : idx i) by apply index_of_idx.
  assert (Hnew : forall q h j, path q -> table_at (phys s) (root s) q = Some h -> 0 <= j < 4096 -> ~ (g <= h + j < g + 4096)).
  { intros q h j Pq Hq Hj Hin. apply (WP (h + j) q h (Hown _ Hin) Pq Hq). lia. }
  assert (Hw : forall q h j, path q -> table_at (phys s) (root s) q = Some h -> idx j -> q ++ [j] <> p ++ [i] -> phys s' (h + 8 * j) = phys s (h + 8 * j)).
  { intros q h j Pq Hq Hj Hne. apply Ho.
    - intros E. apply Hne. symmetry. by apply (rv_entry_apart (phys s) (root s) WT p q f h i j).
    - apply (Hnew q h); [done|done|unfold PagingTree.idx in Hj; lia]. }
  destruct (rv_entry_of_spec g 0 Hg ltac:(lia)) as (Eg & _). pose proof (entry_of_valid g 0 Hg ltac:(lia) : _ = true) as Ev.
  pose proof (entry_of_leaf g 0 Hg ltac:(lia) : _ = false) as El.
  assert (Hfol : follow (phys s') f i = Some g) by (unfold follow; fold a; by rewrite Ea, Ev, El, Eg).
  assert (Hnw : forall q h, path q -> table_at (phys s) (root s) q = Some h -> h <> g).
  { intros q h Pq Hq ->. apply (Hnew q g 0 Pq Hq); lia. }
  assert (Hval : valid (phys s' (f + 8 * i)) = true) by (fold a; by rewrite Ea, Ev).
  pose proof (table_at_new (phys s) (root s) (phys s') p f i Pp Hf Hw g Hfol Hz) as Htab.
  assert (Ht : table_at (phys s') (root s) (take (2 - n) (indices page)) = Some g).
  { rewrite indices_next by lia. fold p i. rewrite table_at_snoc, (table_at_here (phys s) (root s) (phys s') p f i Pp Hf Hw). apply Hfol. }
  split; [|done]. split.
  - split; rewrite ?Er; [|done|].
    + apply (tree_new (phys s) (root s) WT (phys s') p f i Pp Hf Hw g); try done; lia.
    + intros q p' f' Hq Pp' Hp'. destruct (Hown' q Hq) as [Hq1 Hq2]. destruct (Htab p' f' Pp' Hp') as [[H1 _]|[_ ->]]; [by apply (WP q p')|done].
  - done.
  - lia.
  - intros va Hv. unfold translate. rewrite low_valid, Er by done. destruct (decide (p ++ [i] `prefix_of` indices va)) as [[rest E]|Hout].
    + rewrite E, <- app_assoc, (walk_table (phys s) (root s) p f _ va Hf),
        (walk_table (phys s') (root s) p f _ va (table_at_here (phys s) (root s) (phys s') p f i Pp Hf Hw)).
      cbn [app walk]. fold a. rewrite Ea, Ev, El, Eg. cbn [negb]. unfold valid at 1. rewrite Hpr. cbn [andb negb].
      destruct rest as [|j rest]; [done|]. cbn. pose proof (indices_idx va) as X. rewrite E, Forall_app in X. destruct X as [_ X].
      apply Forall_cons_1 in X as [Hj _]. by rewrite Hz.
    + apply (walk_other (phys s) (root s) (phys s') (p ++ [i]) Hw []); try done; [by split; [cbn; lia|]|apply indices_idx].
  - intros va Hnl q j rest h E Hr. rewrite Er. intros Hq Hprq.
    assert (Xq : path q /\ idx j).
    { pose proof (indices_idx va) as X. rewrite E, Forall_app in X. destruct X as [X1 X]. apply Forall_cons_1 in X as [? _].
      apply (f_equal length) in E. rewrite length_app in E. cbn in E. split; [|done]. split; [lia|done]. }
    destruct Xq as [Pq Hj]. destruct (Htab q h Pq Hq) as [[H1 _]|[-> ->]]; [|by rewrite Hz in Hprq].
    destruct (decide (q ++ [j] = p ++ [i])) as [E'|Hne].
    + apply app_inj_tail in E' as [-> ->]. assert (h = f) as -> by congruence. fold a. by rewrite Ea, El.
    + rewrite (Hw q h j) in Hprq |- * by done. by apply (Hnl q j rest h).
  - intros q [Hq1 Hq2]. split; [split|].
    + intros Hq. by apply Hq1, Hown'.
    + rewrite Er. intros p' f' Pp' Hp' Hin. destruct (Htab p' f' Pp' Hp') as [[H1 _]|[_ ->]]; [by apply (Hq2 p' f')|by apply Hq1, Hown].
    + apply Ho; [|intros Hin; by apply Hq1, Hown]. intros ->. apply (Hq2 p f Pp Hf). unfold a. unfold PagingTree.idx in Hi. lia.
  - intros q Hq. by apply Hown'.
Qed.

(** ** Mapping one page *)

Record sized (S : PageSize) (k : nat) : Prop := {
  sized_level : MAP_LEVEL S = k;
  sized_size : SIZE S = 2 ^ (12 + 9 * Z.of_nat k);
  sized_extra : MAP_EXTRA_FLAG S = 0;
  sized_bound : (k <= 2)%nat;
}.
Lemma sizes : sized BasePageSize 0 /\ sized LargePageSize 1 /\ sized HugePageSize 2.
Proof. split_and!; split; try done; lia. Qed.

(** The entry that is stored. *)
Definition new_entry (pa fl : Z) : Z := if (pa =? 0) && (fl =? 0) then 0 else entry_of pa (Z.lor (Z.lor ACCESSED DIRTY) fl).

(** An entry a table of level [k] may hold. *)
Definition entry_ok (k : nat) (e : Z) : Prop :=
  (valid e && negb (is_leaf e) = false \/ k = 0%nat) /\
  (is_present e = true -> valid e = true /\ (is_leaf e = true -> entry_address e mod 2 ^ (12 + 9 * Z.of_nat k) = 0)).

Definition page_change (k : nat) (page e va : Z) (o : option Z) : option Z :=
  if bool_decide (page <= va < page + 2 ^ (12 + 9 * Z.of_nat k)) then entry_result k e va else o.

(** Pages that were mapped are flushed. *)
Definition flushes (k : nat) (page : Z) (s s' : t A) : Prop :=
  flushed s ⊆ flushed s' /\ forall va, low va -> page <= va < page + 2 ^ (12 + 9 * Z.of_nat k) -> is_Some (translate s va) -> page ∈ flushed s'.

Section Page.
Context (S : PageSize) (k : nat) (HS : sized S k) (page pa fl : Z).
Hypothesis Hlow : low page.
Hypothesis Hmod : page mod 2 ^ (12 + 9 * Z.of_nat k) = 0.
Hypothesis Hpa : pa mod 4096 = 0.
Hypothesis Hok : entry_ok k (new_entry pa fl).

Lemma rv_table_index_run (s : t A) l : (k <= l)%nat -> table_index S l page s = Done (index_of l page) s.
Proof. intros Hl. unfold table_index. rewrite (sized_level S k HS), (proj2 (Nat.leb_le _ _)) by done. reflexivity. Qed.

Lemma rv_in_this_table_run (s : t A) f : wf s -> table_at (phys s) (root s) (take (2 - k) (indices page)) = Some f ->
  exists s', map_page_in_this_table S k f page pa fl s = Done tt s' /\ remapped k 0 s s' (page_change k page (new_entry pa fl)) /\ flushes k page s s'.
Proof.
  intros W Hf. destruct Hok as [Hok1 Hok2].
  pose proof (set_entry s page f (new_entry pa fl) k W (sized_bound S k HS) Hlow Hmod Hf Hok1 Hok2) as R.
  set (s1 := set_phys _ s) in R.
  clear Hok2. set (b := is_present (phys s (f + 8 * index_of k page))).
  exists (if b then flush_from_tlb page s1 else s1). split_and!.
  - unfold map_page_in_this_table. rewrite (sized_level S k HS), Nat.eqb_refl. erewrite bind_run by reflexivity.
    erewrite bind_run by (apply rv_table_index_run; lia). erewrite bind_run by reflexivity.
    erewrite (bind_run _ _ s (new_entry pa fl) s).
    + erewrite bind_run by reflexivity. fold s1 b. by destruct b.
    + unfold new_entry, entry_set. destruct ((pa =? 0) && (fl =? 0)); [done|]. rewrite Hpa, (sized_extra S k HS). reflexivity.
  - destruct b; [by apply remapped_flush|exact R].
  - split; [destruct b; cbn; set_solver|].
    intros va Hv Hin [x Hx]. unfold translate in Hx. rewrite low_valid in Hx by done.
    pose proof (sized_bound S k HS) as Hk. apply (prefix_page k page va Hk Hlow Hv Hmod) in Hin as [rest E].
    rewrite E, <- app_assoc, (walk_table _ _ _ _ _ va Hf) in Hx. cbn [app walk] in Hx. unfold valid in Hx. fold b in Hx.
    destruct b; [|done]. cbn. set_solver.
Qed.

Lemma rv_subtable_run (s : t A) l f : (k < l)%nat -> subtable S l f page s = Done (entry_address (phys s (f + 8 * index_of l page))) s.
Proof.
  intros Hl. unfold subtable. rewrite (sized_level S k HS), (proj2 (Nat.ltb_lt _ _)) by done. erewrite bind_run by reflexivity.
  erewrite bind_run by (apply rv_table_index_run; lia). reflexivity.
Qed.

(** The entry of a level above [k]: absent, or a table. *)
Lemma entry_above (s : t A) n f : wf s -> (k < Datatypes.S n <= 2)%nat -> no_larger s k page ->
  table_at (phys s) (root s) (take (2 - Datatypes.S n) (indices page)) = Some f ->
  let e := phys s (f + 8 * index_of (Datatypes.S n) page) in
  is_present e = true -> table_at (phys s) (root s) (take (2 - n) (indices page)) = Some (entry_address e).
Proof.
  intros W Hn Hl Hf e He. destruct (indices_path (Datatypes.S n) page) as [Pp _]; [lia|].
  rewrite indices_next by lia. rewrite table_at_snoc, Hf. cbn. unfold follow. fold e.
  destruct (tree_entry _ _ (wf_tree s W) _ f _ Pp (index_of_idx (Datatypes.S n) page) Hf He) as [Ev _]. fold e in Ev.
  assert (El : is_leaf e = false).
  { apply (Hl _ _ _ f (indices_at (Datatypes.S n) page ltac:(lia))); [rewrite length_drop; cbn [length indices]; lia|done|done]. }
  by rewrite Ev, El.
Qed.

Lemma rv_map_page_run n (s : t A) f : (k <= n <= 2)%nat -> wf s -> no_larger s k page -> (n - k <= room (alloc s))%nat ->
  table_at (phys s) (root s) (take (2 - n) (indices page)) = Some f ->
  exists s', map_page S n f page pa fl s = Done tt s' /\ remapped k (n - k) s s' (page_change k page (new_entry pa fl)) /\ flushes k page s s'.
Proof.
  revert s f. induction n as [|n IH]; intros s f Hn W Hl Hr Hf.
  { assert (k = 0%nat) as Ek by lia. destruct (rv_in_this_table_run s f W) as (s' & E & R & F); [by rewrite Ek|].
    exists s'. split; [cbn [map_page]; by rewrite Ek in E|]. split; [|done]. eapply remapped_weaken; [|exact R]. lia. }
  cbn [map_page]. rewrite (sized_level S k HS), (proj2 (Nat.leb_le _ _)) by lia. erewrite bind_run by reflexivity.
  destruct (decide (k = Datatypes.S n)) as [Ek|Hne].
  { rewrite (proj2 (Nat.ltb_ge _ _)) by lia. rewrite <- Ek in *. rewrite Nat.sub_diag. by apply rv_in_this_table_run. }
  rewrite (proj2 (Nat.ltb_lt _ _)) by lia. erewrite bind_run by (apply rv_table_index_run; lia). erewrite bind_run by reflexivity.
  set (e := phys s (f + 8 * index_of (Datatypes.S n) page)). destruct (is_present e) eqn:He; cbn [negb].
  - erewrite bind_run by reflexivity. erewrite bind_run by (apply rv_subtable_run; lia). fold e.
    destruct (IH s (entry_address e)) as (s' & E & R & F); [lia|done|done|lia|apply entry_above; try done; lia|].
    exists s'. split; [exact E|]. split; [|done]. eapply remapped_weaken; [|exact R]. lia.
  - destruct (PagingMap.allocate_page (alloc s) (wf_alloc s W)) as (g & a' & Ea & Hg%small_frame & Ha' & Hroom & Hown & Hown'); [lia|].
    set (a := f + 8 * index_of (Datatypes.S n) page). set (s1 := set_phys (<[a := entry_of g 0]> (phys s)) (set_alloc a' s)).
    destruct (clear_table_run s1 g 512) as (s2 & E2 & R1 & R2 & R3 & Hz & Ho).
    pose proof (rv_entry_of_spec g 0 Hg ltac:(lia)) as (Eg & _).
    assert (Hfa : ~ (g <= a < g + 4096)).
    { intros Hin. destruct (indices_path (Datatypes.S n) page) as [Pp _]; [lia|]. apply (wf_apart s W a _ f (Hown a Hin) Pp Hf).
      pose proof (index_of_idx (Datatypes.S n) page) as Hi. unfold a, PagingTree.idx in *. lia. }
    assert (Pa : phys s2 a = entry_of g 0) by (rewrite Ho by lia; cbn; apply fn_lookup_insert).
    destruct (new_table s s2 page f g n k W) as [R Ht]; try done; try lia.
    { rewrite R2. done. }
    { rewrite R2. exact Hroom. }
    { rewrite R2. exact Hown'. }
    { intros b Hb Hb'. rewrite Ho by lia. cbn. by rewrite fn_lookup_insert_ne. }
    destruct (IH s2 g) as (s' & E & R' & F); [lia|apply R|by apply (r_larger _ _ _ _ _ R)|rewrite R2; cbn; lia|by rewrite R1|].
    exists s'. split.
    + erewrite bind_run; cycle 1.
      { erewrite bind_run by reflexivity. rewrite Ea. erewrite bind_run by reflexivity. cbv iota beta. erewrite bind_run by reflexivity.
        erewrite bind_run by (unfold entry_set; rewrite (proj1 (proj2 Hg)); reflexivity). erewrite bind_run by reflexivity.
        erewrite bind_run by (apply rv_subtable_run; lia). fold a. cbn [set_phys phys set_alloc]. rewrite fn_lookup_insert. fold (entry_of g 0). rewrite Eg. exact E2. }
      erewrite bind_run by (apply rv_subtable_run; lia). fold a. rewrite Pa, Eg. exact E.
    + split.
      * eapply remapped_weaken; [|exact (rv_remapped_trans _ _ _ _ _ _ _ _ R R')]. lia.
      * destruct F as [F1 F2]. split; [by rewrite R3 in F1|]. intros va Hv Hin Hs. apply (F2 va Hv Hin). by rewrite (r_tr _ _ _ _ _ R).
Qed.
End Page.

(** ** Mapping a range *)

Section Range.
Context (S : PageSize) (k : nat) (HS : sized S k).
Notation sz := (2 ^ (12 + 9 * Z.of_nat k)).

Definition pages (first : Z) (n : nat) : list Z := (fun j => first + Z.of_nat j * SIZE S) <$> seq 0 n.
Lemma pages_cons first n : pages first (Datatypes.S n) = first :: pages (first + SIZE S) n.
Proof.
  unfold pages. cbn [seq fmap list_fmap]. f_equal; [lia|]. rewrite <- (fmap_S_seq 0 n), <- list_fmap_compose.
  apply list_fmap_ext. intros _ j _. cbn. lia.
Qed.

Lemma sz_pos : 4096 <= sz /\ sz mod 4096 = 0.
Proof. destruct k as [|[|[|]]]; [done|done|done|]. pose proof (sized_bound S _ HS). lia. Qed.

Definition range_change (va pa n fl va' : Z) (o : option Z) : option Z :=
  if bool_decide (va <= va' < va + n * sz) then entry_result k (new_entry (pa + (va' - va) / sz * sz) fl) va' else o.

Definition range_flushes (va n : Z) (s s' : t A) : Prop :=
  flushed s ⊆ flushed s' /\ forall va', low va' -> va <= va' < va + n * sz -> is_Some (translate s va') -> va + (va' - va) / sz * sz ∈ flushed s'.

Lemma rv_map_pages_run fl n : forall (s : t A) va pa, wf s -> va mod sz = 0 -> 0 <= va -> va + Z.of_nat n * sz <= 2 ^ 38 ->
  pa mod 4096 = 0 -> (forall j, 0 <= j < Z.of_nat n -> entry_ok k (new_entry (pa + j * sz) fl)) ->
  (forall va', va <= va' < va + Z.of_nat n * sz -> no_larger s k va') -> (n * (2 - k) <= room (alloc s))%nat ->
  exists s', map_pages S (pages va n) pa fl s = Done tt s' /\
    remapped k (n * (2 - k)) s s' (range_change va pa (Z.of_nat n) fl) /\ range_flushes va (Z.of_nat n) s s'.
Proof.
  destruct sz_pos as [Hsz Hszm]. remember sz as z eqn:Ez.
  induction n as [|n IH]; intros s va pa W Hm Hv0 Hb Hpa Hok Hl Hr.
  { exists s. split; [reflexivity|]. split.
    - eapply rv_remapped_ext; [|apply rv_remapped_refl, W]. intros va' o _. unfold range_change. rewrite bool_decide_false by lia. done.
    - split; [done|]. lia. }
  rewrite pages_cons. cbn [map_pages]. rewrite Nat.mul_succ_l in Hr.
  destruct (rv_map_page_run S k HS va pa fl) with (n := 2%nat) (s := s) (f := root s) as (s1 & E1 & R1 & F1 & F2).
  { unfold low. nia. }
  { by rewrite <- Ez. }
  { done. }
  { specialize (Hok 0 ltac:(lia)). by rewrite Z.mul_0_l, Z.add_0_r in Hok. }
  { pose proof (sized_bound S k HS). lia. }
  { done. }
  { apply Hl. nia. }
  { etransitivity; [apply Nat.le_add_l|exact Hr]. }
  { done. }
  rewrite (sized_size S k HS), <- Ez.
  destruct (IH s1 (va + z) (pa + z)) as (s2 & E2 & R2 & G1 & G2).
  { apply R1. }
  { rewrite <- (Z.mul_1_l z) at 1. by rewrite Z.mod_add by lia. }
  { lia. }
  { lia. }
  { rewrite Zplus_mod, Hpa, Hszm. done. }
  { intros j Hj. replace (pa + z + j * z) with (pa + (j + 1) * z) by lia. apply Hok. lia. }
  { intros va' Hv. apply (r_larger _ _ _ _ _ R1), Hl. lia. }
  { pose proof (r_room _ _ _ _ _ R1). lia. }
  exists s2. split; [|split].
  - erewrite bind_run by (unfold root_map_page; erewrite bind_run by reflexivity; exact E1). exact E2.
  - rewrite Nat.mul_succ_l, Nat.add_comm. eapply rv_remapped_ext; [|exact (rv_remapped_trans _ _ _ _ _ _ _ _ R1 R2)].
    intros va' o Hv. unfold range_change, page_change. rewrite <- Ez.
    destruct (bool_decide_reflect (va + z <= va' < va + z + Z.of_nat n * z)), (bool_decide_reflect (va <= va' < va + z)),
      (bool_decide_reflect (va <= va' < va + Z.of_nat (Datatypes.S n) * z)); try lia; try done.
    + replace (va' - va) with (va' - (va + z) + 1 * z) by lia. rewrite Z.div_add by lia. do 2 f_equal. lia.
    + rewrite Z.div_small by lia. do 2 f_equal. lia.
  - split; [by transitivity (flushed s1)|]. intros va' Hv Hin Hs. rewrite <- Ez in Hin, G2 |- *. destruct (decide (va' < va + z)) as [Hlt|Hge].
    + rewrite Z.div_small by lia. rewrite Z.mul_0_l, Z.add_0_r. apply G1, (F2 va'); [done|rewrite <- Ez; lia|done].
    + replace (va' - va) with (va' - (va + z) + 1 * z) by lia. rewrite Z.div_add by lia.
      replace (va + ((va' - (va + z)) / z + 1) * z) with (va + z + (va' - (va + z)) / z * z) by lia.
      apply G2; [done|lia|]. rewrite (r_tr _ _ _ _ _ R1) by done. unfold page_change. rewrite <- Ez. by rewrite bool_decide_false by lia.
Qed.
End Range.

(** ** The operations *)

(** Flags of a page: it can be read or executed, and is not writable only. *)
Definition page_flags (fl : Z) : Prop := 0 <= fl < 1024 /\ is_leaf fl = true /\ is_readable fl || negb (is_writable fl) = true.

Lemma new_entry_page k pa fl : (k <= 2)%nat -> page_flags fl -> 0 <= pa -> pa mod 2 ^ (12 + 9 * Z.of_nat k) = 0 -> pa + 4096 <= 2 ^ 56 ->
  entry_ok k (new_entry pa fl) /\ forall va, entry_result k (new_entry pa fl) va = Some (pa + va mod 2 ^ (12 + 9 * Z.of_nat k)).
Proof.
  intros Hk (Hfl & Hleaf & Hrw) H1 Hm Hb.
  assert (Hf : frame pa). { split_and!; try lia. destruct k as [|[|[|]]]; [..|lia]; cbn in Hm; Z.div_mod_to_equations; lia. }
  set (fl' := Z.lor (Z.lor ACCESSED DIRTY) fl). assert (Hfl' : 0 <= fl' < 1024) by (apply lor_bound; [done|lia]).
  assert (Er : is_readable fl' = is_readable fl) by (rewrite !readable_bit; unfold fl'; by rewrite !Z.lor_spec).
  assert (Ew : is_writable fl' = is_writable fl) by (rewrite !writable_bit; unfold fl'; by rewrite !Z.lor_spec).
  assert (Ex : is_executable fl' = is_executable fl) by (rewrite !executable_bit; unfold fl'; by rewrite !Z.lor_spec).
  assert (En : new_entry pa fl = entry_of pa fl').
  { unfold new_entry. destruct (Z.eqb_spec fl 0) as [->|]; [done|]. by rewrite andb_false_r. }
  destruct (rv_entry_of_spec pa fl' Hf Hfl') as (Ea & _). pose proof (entry_of_valid pa fl' Hf Hfl') as Ev. pose proof (entry_of_leaf pa fl' Hf Hfl') as El.
  rewrite Er, Ew, Hrw in Ev. unfold is_leaf in El at 2. rewrite Er, Ex in El. unfold is_leaf in Hleaf. rewrite Hleaf in El.
  split; [split|].
  - left. by rewrite En, El, andb_false_r.
  - intros _. by rewrite En, Ev, Ea.
  - intros va. unfold entry_result, leaf_address. by rewrite En, Ev, El, Ea, Hm.
Qed.

Section Ops.
Context (S : PageSize) (k : nat) (HS : sized S k).

Lemma including_address_run (s : t A) va : low va -> va mod SIZE S = 0 -> including_address S va s = Done va s.
Proof.
  intros Hl Hm. unfold including_address. rewrite low_valid by done. erewrite bind_run by reflexivity. rewrite Hm, Z.sub_0_r. done.
Qed.

Lemma rv_get_page_range_run (s : t A) va n : 0 < n -> 0 <= va -> va mod SIZE S = 0 -> va + n * SIZE S <= 2 ^ 38 ->
  get_page_range S va n s = Done (pages S va (Z.to_nat n)) s.
Proof.
  intros Hn Hv Hm Hb. pose proof (sz_pos S k HS) as [Hsz _]. rewrite <- (sized_size S k HS) in Hsz. unfold get_page_range.
  erewrite bind_run by (apply including_address_run; unfold low; [nia|done]).
  rewrite (wrapu_small 64 (n - 1)), (wrapu_small 64 (_ * _)), wrapu_small by nia.
  erewrite bind_run by (apply including_address_run; unfold low; [nia|by rewrite Z.mod_add by lia]).
  unfold page_range. rewrite (proj2 (Z.leb_le _ _)) by nia. erewrite bind_run by reflexivity.
  replace (va + (n - 1) * SIZE S - va) with ((n - 1) * SIZE S) by lia. rewrite Z.div_mul by lia.
  by replace (n - 1 + 1) with n by lia.
Qed.
End Ops.

Lemma range_offset va pa va' z n : 0 < z -> va mod z = 0 -> pa mod z = 0 -> va <= va' < va + n * z ->
  pa + (va' - va) / z * z + va' mod z = pa + (va' - va).
Proof.
  intros Hz Hv Hp Hin. assert (E : va' mod z = (va' - va) mod z).
  { rewrite Zminus_mod, Hv, Z.sub_0_r, Z.mod_mod by lia. done. }
  rewrite E. pose proof (Z.div_mod (va' - va) z). lia.
Qed.

(** The arguments of [map]: whole pages, and frames for the tables. *)
Record map_args (S : PageSize) (k : nat) (s : t A) (va pa n fl : Z) : Prop := {
  ma_flags : page_flags fl;
  ma_count : 0 < n;
  ma_va : 0 <= va /\ va mod SIZE S = 0 /\ va + n * SIZE S <= 2 ^ 38;
  ma_pa : 0 <= pa /\ pa mod SIZE S = 0 /\ pa + n * SIZE S <= 2 ^ 56;
  ma_larger va' : va <= va' < va + n * SIZE S -> no_larger s k va';
  ma_room : (Z.to_nat n * (2 - k) <= room (alloc s))%nat;
}.

Lemma rv_map_run S k (s : t A) va pa n fl : sized S k -> wf s -> map_args S k s va pa n fl ->
  exists s', map S va pa n fl s = Done tt s' /\
    remapped k (Z.to_nat n * (2 - k)) s s' (fun va' o => if bool_decide (va <= va' < va + n * SIZE S) then Some (pa + (va' - va)) else o) /\
    range_flushes k va n s s'.
Proof.
  intros HS W [Hfl Hn (Hv & Hvm & Hvb) (Hp & Hpm & Hpb) Hl Hr]. pose proof (sz_pos S k HS) as [Hsz Hszm]. pose proof (sized_bound S k HS) as Hk.
  pose proof (sized_size S k HS) as Esz. remember (2 ^ (12 + 9 * Z.of_nat k)) as z eqn:Ez. rewrite Esz in *.
  assert (Hent : forall j, 0 <= j < n -> entry_ok k (new_entry (pa + j * z) fl) /\ forall va', entry_result k (new_entry (pa + j * z) fl) va' = Some (pa + j * z + va' mod z)).
  { intros j Hj. rewrite Ez. apply new_entry_page; rewrite <- ?Ez; try done; [nia| |nia]. by rewrite Z.mod_add by lia. }
  destruct (rv_map_pages_run S k HS fl (Z.to_nat n) s va pa) as (s' & E & R & F); rewrite <- ?Ez, ?Z2Nat.id by lia; try done.
  { apply Z.mod_divide; [lia|]. transitivity z; apply Z.mod_divide; try done; lia. }
  { intros j Hj. by apply Hent. }
  exists s'. split_and!.
  - unfold map. erewrite bind_run by (apply (rv_get_page_range_run S k HS); rewrite ?Esz; done). exact E.
  - eapply rv_remapped_ext; [|exact R]. intros va' o Hv'. unfold range_change. rewrite <- Ez, Z2Nat.id by lia.
    destruct (bool_decide_reflect (va <= va' < va + n * z)) as [Hin|]; [|done].
    destruct (Hent ((va' - va) / z)) as [_ ->]; [split; [apply Z.div_pos; lia|apply Z.div_lt_upper_bound; lia]|].
    f_equal. apply (range_offset va pa va' z n); [lia|done..].
  - by rewrite Z2Nat.id in F by lia.
Qed.

(** C4: [map] of whole pages of 4 KiB, 2 MiB or 1 GiB succeeds while there are
    frames for the tables, when no larger page holds an address of the range:
    afterwards the memory management unit translates exactly the addresses of
    the range anew, each to its own offset in the physical range; memory that
    holds no table and is not the allocator's keeps its contents, and pages
    that were mapped before are flushed. *)
Theorem riscv_map_translates S k (s : t A) va pa n fl : sized S k -> wf s -> map_args S k s va pa n fl ->
  exists s', map S va pa n fl s = Done tt s' /\ wf s' /\
    (forall va', low va' -> translate s' va' =
       if bool_decide (va <= va' < va + n * SIZE S) then Some (pa + (va' - va)) else translate s va') /\
    (forall q, outside s q -> phys s' q = phys s q) /\ range_flushes k va n s s'.
Proof.
  intros HS W Ha. destruct (rv_map_run S k s va pa n fl HS W Ha) as (s' & E & R & F). exists s'. split_and!; try done; [apply R|apply R|].
  intros q Hq. by apply (r_outside _ _ _ _ _ R).
Qed.

(** [unmap] of 4 KiB pages: nothing is translated in the range. *)
Lemma riscv_unmap_base (s : t A) va n : wf s -> 0 < n -> 0 <= va -> va mod 4096 = 0 -> va + n * 4096 <= 2 ^ 38 ->
  (forall va', va <= va' < va + n * 4096 -> no_larger s 0 va') -> (Z.to_nat n * 2 <= room (alloc s))%nat ->
  exists s', unmap BasePageSize va n s = Done tt s' /\ wf s' /\
    (forall va', low va' -> translate s' va' = if bool_decide (va <= va' < va + n * 4096) then None else translate s va') /\
    range_flushes 0 va n s s'.
Proof.
  intros W Hn Hv Hm Hb Hl Hr. destruct sizes as [HS _].
  assert (Hent : forall j, 0 <= j < n -> entry_ok 0 (new_entry (0 + j * 4096) 0) /\ forall va', entry_result 0 (new_entry (0 + j * 4096) 0) va' = None).
  { intros j Hj. unfold new_entry. rewrite andb_true_r, Z.add_0_l. destruct (j * 4096 =? 0) eqn:Ej; [by split; [split; [left|]|]|].
    assert (Hf : frame (j * 4096)) by (split_and!; [lia|apply Z.mod_mul; lia|lia]).
    pose proof (entry_of_valid (j * 4096) (Z.lor (Z.lor ACCESSED DIRTY) 0) Hf ltac:(done) : _ = true) as Ev.
    pose proof (entry_of_leaf (j * 4096) (Z.lor (Z.lor ACCESSED DIRTY) 0) Hf ltac:(done) : _ = false) as El.
    split; [split; [by right|by rewrite Ev, El]|]. intros va'. unfold entry_result. by rewrite Ev, El. }
  destruct (rv_map_pages_run BasePageSize 0 HS 0 (Z.to_nat n) s va 0) as (s' & E & R & F); rewrite ?Z2Nat.id by lia; try done.
  { intros j Hj. by apply Hent. }
  exists s'. split_and!.
  - unfold unmap. erewrite bind_run by (by apply (rv_get_page_range_run BasePageSize 0 HS)). exact E.
  - apply R.
  - intros va' Hv'. rewrite (r_tr _ _ _ _ _ R) by done. unfold range_change. rewrite Z2Nat.id by lia.
    change (2 ^ (12 + 9 * Z.of_nat 0)) with 4096.
    destruct (bool_decide_reflect (va <= va' < va + n * 4096)) as [Hin|]; [|done].
    apply Hent. split; [apply Z.div_pos; lia|apply Z.div_lt_upper_bound; lia].
  - by rewrite Z2Nat.id in F by lia.
Qed.

(** ** The walk of the software *)

Lemma vpn_index i va : vpn i va = index_of i va.
Proof.
  unfold vpn, index_of, PAGE_BITS, PAGE_MAP_BITS. rewrite Z.shiftr_shiftr by lia. done.
Qed.
Lemma land_field x n : 0 <= n -> Z.land x (Z.shiftl PAGE_MAP_MASK n) = x / 2 ^ n mod 512 * 2 ^ n.
Proof.
  intros Hn. unfold PAGE_MAP_MASK. change 0x1ff with (Z.ones 9). change 512 with (2 ^ 9).
  rewrite <- Z.land_ones, <- Z.shiftr_div_pow2, <- Z.shiftl_mul_pow2 by lia. apply Z.bits_inj'. intros i Hi.
  rewrite Z.land_spec, !Z.shiftl_spec by lia. destruct (Z_lt_ge_dec i n).
  - rewrite !(Z.testbit_neg_r _ (i - n)) by lia. apply andb_false_r.
  - rewrite Z.land_spec, Z.shiftr_spec by lia. by replace (i - n + n) with i by lia.
Qed.
Lemma lor_low a k n : 0 <= n -> 0 <= a < 2 ^ n -> Z.lor a (k * 2 ^ n) = a + k * 2 ^ n.
Proof. intros Hn Ha. rewrite Z.lor_comm, PagingTree.lor_add by done. lia. Qed.

Lemma phys_address_spec i va e : (i <= 2)%nat -> 0 <= va -> 0 <= entry_address e -> entry_address e mod 2 ^ (12 + 9 * Z.of_nat i) = 0 ->
  phys_address i va e = (entry_address e + va mod 2 ^ (12 + 9 * Z.of_nat i)) mod 2 ^ 39.
Proof.
  intros Hi Hv He Hm. unfold phys_address, PAGE_BITS, PAGE_MAP_BITS, PAGE_LEVELS. change (Z.shiftl 1 12 - 1) with (Z.ones 12).
  rewrite Z.land_ones by lia. generalize (entry_address e) He Hm. clear e He Hm. intros e He Hm.
  assert (B : forall j x, 0 <= x / 2 ^ j mod 512 < 512) by (intros; apply Z.mod_pos_bound; lia).
  destruct i as [|[|[|]]]; [..|lia]; cbn [seq Nat.sub fold_left]; rewrite ?vpn_index, ?rv_index_of_div; rewrite !land_field by lia;
    rewrite ?Z.shiftl_mul_pow2 by lia; change (12 + Z.of_nat 0 * 9) with 12; change (12 + Z.of_nat 1 * 9) with 21;
    change (12 + Z.of_nat 2 * 9) with 30; change (12 + 9 * Z.of_nat 0) with 12 in *; change (12 + 9 * Z.of_nat 1) with 21 in *;
    change (12 + 9 * Z.of_nat 2) with 30 in *.
  - pose proof (B 12 e). pose proof (B 21 e). pose proof (B 30 e). pose proof (Z.mod_pos_bound va (2 ^ 12) ltac:(lia)).
    rewrite (lor_low _ _ 12) by lia. rewrite (lor_low _ _ 21) by lia. rewrite (lor_low _ _ 30) by lia. Z.div_mod_to_equations. lia.
  - pose proof (B 12 va). pose proof (B 21 e). pose proof (B 30 e). pose proof (Z.mod_pos_bound va (2 ^ 12) ltac:(lia)).
    rewrite (lor_low _ _ 12) by lia. rewrite (lor_low _ _ 21) by lia. rewrite (lor_low _ _ 30) by lia. Z.div_mod_to_equations. lia.
  - pose proof (B 12 va). pose proof (B 21 va). pose proof (B 30 e). pose proof (Z.mod_pos_bound va (2 ^ 12) ltac:(lia)).
    rewrite (lor_low _ _ 12) by lia. rewrite (lor_low _ _ 21) by lia. rewrite (lor_low _ _ 30) by lia. Z.div_mod_to_equations. lia.
Qed.

Lemma entry_address_nonneg e : 0 <= entry_address e.
Proof. unfold entry_address, wrapu. apply Z.mod_pos_bound. lia. Qed.

(** What the software finds, given what the unit finds. *)
Definition agrees (r : exec (t A) (option Z)) (s : t A) (o : option Z) : Prop :=
  match o with Some pa => r = Done (Some (pa mod 2 ^ 39)) s | None => exists why, r = Panic why end.

Lemma software_walk_run (s : t A) va n f : wf s -> 0 <= va -> (n <= 3)%nat ->
  ((0 < n)%nat -> table_at (phys s) (root s) (take (3 - n) (indices va)) = Some f) ->
  agrees (software_walk n va f s) s (walk (phys s) f (drop (3 - n) (indices va)) va).
Proof.
  intros W Hv. revert f. induction n as [|i IH]; intros f Hn Hf; [by eexists|]. specialize (Hf ltac:(lia)).
  destruct (indices_path i va) as [Pp Lp]; [lia|]. change (3 - S i)%nat with (2 - i)%nat in *.
  replace (drop (2 - i) (indices va)) with (index_of i va :: drop (3 - i) (indices va)) by (by destruct i as [|[|[|]]]; [..|lia]).
  cbn [software_walk walk]. erewrite bind_run by reflexivity. rewrite vpn_index. set (e := phys s (f + 8 * index_of i va)).
  pose proof (tree_entry _ _ (wf_tree s W) _ f _ Pp (index_of_idx i va) Hf) as He. fold e in He. unfold valid in *.
  destruct (is_present e) eqn:Ep; cbn [andb negb]; [|by eexists]. destruct (He eq_refl) as [Ev Ea]. cbn [andb] in Ev.
  rewrite Ev. apply andb_true_iff in Ev as [Ev _]. rewrite Ev. cbn [negb]. erewrite bind_run by reflexivity. fold (is_leaf e).
  assert (Er : length (drop (3 - i) (indices va)) = i) by (rewrite length_drop; cbn [length indices]; lia).
  destruct (is_leaf e) eqn:El.
  - rewrite Er. unfold leaf_address. rewrite Lp in Ea. replace (30 - 9 * Z.of_nat (2 - i)) with (12 + 9 * Z.of_nat i) in Ea by lia.
    rewrite Ea by done. cbn [Z.eqb agrees]. rewrite phys_address_spec; [done|lia|done|apply entry_address_nonneg|by apply Ea].
  - destruct i as [|i]; [by eexists|]. cbn [Nat.eqb negb]. erewrite bind_run by reflexivity.
    apply (IH (entry_address e)); [lia|]. intros _. change (3 - S i)%nat with (2 - i)%nat. rewrite indices_next by lia.
    rewrite table_at_snoc, Hf. cbn. unfold follow. fold e. unfold valid. rewrite Ep, Ev, El.
    destruct (He eq_refl) as [Ev' _]. cbn [andb] in Ev'. rewrite Ev in Ev'. cbn [andb] in Ev' |- *. by rewrite Ev'.
Qed.

(** C38: [virtual_to_physical] gives the address the memory management unit
    translates to, less the bits from 39 on, and panics where the unit faults. *)
Theorem riscv_software_walk (s : t A) va : wf s -> low va -> agrees (virtual_to_physical va s) s (translate s va).
Proof.
  intros W Hv. unfold virtual_to_physical, translate. rewrite low_valid by done. erewrite bind_run by reflexivity.
  apply (software_walk_run s va 3 (root s) W); [apply Hv|lia|done].
Qed.

(** ** The heap *)

Definition heap_flags : Z := execute_disable (writable (normal 0)).
Lemma heap_flags_ok : page_flags heap_flags.
Proof. split_and!; done. Qed.

Lemma wf_set_alloc s a' : wf s -> alloc_ok a' -> (forall q, owned a' q -> owned (alloc s) q) -> wf (set_alloc a' s).
Proof. intros [W1 W2 W3] Ha Ho. split; [done|done|]. intros q p f Hq. by apply (W3 q), Ho. Qed.

(** [fs] are frames the allocator gave away, each for one page. *)
Definition given (s s' : t A) (fs : list Z) : Prop :=
  NoDup fs /\ forall f q, f ∈ fs -> f <= q < f + 4096 -> owned (alloc s) q /\ ~ owned (alloc s') q.

(** The translation after a page was mapped to each of the frames. *)
Definition heap_tr (s : t A) (va : Z) (fs : list Z) (va' : Z) : option Z :=
  if bool_decide (va <= va' < va + Z.of_nat (length fs) * 4096)
  then (fun f => f + va' mod 4096) <$> fs !! Z.to_nat ((va' - va) / 4096) else translate s va'.

Lemma heap_run k : forall (s : t A) va c, wf s -> 0 <= va + c * 4096 -> va mod 4096 = 0 -> va + (c + Z.of_nat k) * 4096 <= 2 ^ 38 ->
  (forall va', va + c * 4096 <= va' < va + (c + Z.of_nat k) * 4096 -> no_larger s 0 va') -> (3 * k <= room (alloc s))%nat ->
  exists s' fs, (forall rest, map_heap_loop BasePageSize va c (k + rest) s = map_heap_loop BasePageSize va (c + Z.of_nat k) rest s') /\
    wf s' /\ length fs = k /\ given s s' fs /\ (forall q, owned (alloc s') q -> owned (alloc s) q) /\
    forall va', low va' -> translate s' va' = heap_tr s (va + c * 4096) fs va'.
Proof.
  induction k as [|k IH]; intros s va c W Hv Hm Hb Hl Hr.
  { exists s, []. split_and!; try done.
    - intros rest. by rewrite Z.add_0_r.
    - split; [constructor|]. intros f q Hf. by apply elem_of_nil in Hf.
    - intros va' _. unfold heap_tr. rewrite bool_decide_false; [done|]. cbn. lia. }
  destruct (PagingMap.allocate_page (alloc s) (wf_alloc s W)) as (g & a' & Ea & Hg & Ha' & Hroom & Hown & Hown'); [lia|].
  assert (W1 : wf (set_alloc a' s)) by (apply wf_set_alloc; [done|done|]; intros q Hq; by apply Hown').
  destruct sizes as [HS _]. destruct Hg as (Hg0 & Hgm & Hgb).
  destruct (rv_map_run BasePageSize 0 (set_alloc a' s) (va + c * 4096) g 1 heap_flags HS W1) as (s1 & E1 & R & _).
  { split; [apply heap_flags_ok|lia| | | |cbn; lia]; cbn [BasePageSize SIZE].
    - split_and!; [lia|by rewrite Z.mod_add by lia|lia].
    - split_and!; [lia|done|lia].
    - intros va' Hin. apply (Hl va'). lia. }
  pose proof (r_room _ _ _ _ _ R) as Hroom1. cbn [set_alloc alloc Nat.mul Nat.sub Nat.add] in Hroom1. change (Z.to_nat 1 * 2)%nat with 2%nat in Hroom1.
  destruct (IH s1 va (c + 1)) as (s' & fs & E & W' & Lf & [Hnd Hgiv] & Ho & Htr); [apply R|lia|done|lia| |lia|].
  { intros va' Hin. apply (r_larger _ _ _ _ _ R), (Hl va'). lia. }
  assert (Ho1 : forall q, owned (alloc s1) q -> owned (alloc s) q /\ ~ (g <= q < g + 4096)).
  { intros q Hq. by apply Hown', (r_owned _ _ _ _ _ R). }
  exists s', (g :: fs). split_and!.
  - intros rest. cbn [Nat.add map_heap_loop]. erewrite bind_run by reflexivity. cbn [BasePageSize SIZE]. rewrite Ea.
    erewrite bind_run by reflexivity. erewrite bind_run by exact E1. rewrite E. f_equal. lia.
  - done.
  - cbn. lia.
  - split.
    + constructor; [|done]. intros Hin. destruct (Hgiv g g Hin ltac:(lia)) as [Hq _]. apply Ho1 in Hq. lia.
    + intros f q [->|Hin]%elem_of_cons Hq; [|destruct (Hgiv f q Hin Hq) as [Hq1 Hq2]; split; [by apply Ho1|done]].
      split; [by apply Hown|]. intros Hq'. by apply Ho, Ho1 in Hq' as [_ ?].
  - intros q Hq. by apply Ho1, Ho.
  - intros va' Hv'. rewrite Htr by done. unfold heap_tr. cbn [length]. rewrite (r_tr _ _ _ _ _ R) by done. cbn [BasePageSize SIZE].
    destruct (bool_decide_reflect (va + (c + 1) * 4096 <= va' < va + (c + 1) * 4096 + Z.of_nat (length fs) * 4096)),
      (bool_decide_reflect (va + c * 4096 <= va' < va + c * 4096 + 1 * 4096)),
      (bool_decide_reflect (va + c * 4096 <= va' < va + c * 4096 + Z.of_nat (S (length fs)) * 4096)); try lia; try done.
    + replace (Z.to_nat ((va' - (va + c * 4096)) / 4096)) with (S (Z.to_nat ((va' - (va + (c + 1) * 4096)) / 4096))); [done|].
      Z.div_mod_to_equations. lia.
    + rewrite Z.div_small by lia. change (Z.to_nat 0) with 0%nat. cbn [lookup list_lookup fmap option_fmap option_map]. f_equal.
      Z.div_mod_to_equations. lia.
Qed.

(** [map_heap] of 4 KiB pages maps each page to a frame of its own, taken
    from the allocator, in order; when an allocation fails it reports how many
    pages it has mapped, which stay mapped. *)
Theorem riscv_map_heap (s : t A) va n k : wf s -> 0 <= va -> va mod 4096 = 0 -> 0 <= k <= n -> va + n * 4096 <= 2 ^ 38 ->
  (forall va', va <= va' < va + n * 4096 -> no_larger s 0 va') -> 3 * k <= Z.of_nat (room (alloc s)) ->
  exists s' fs, Z.of_nat (length fs) = k /\ given s s' fs /\ wf s' /\ (forall va', low va' -> translate s' va' = heap_tr s va fs va') /\
    (k = n -> map_heap BasePageSize va n s = Done (Ok tt) s') /\
    (k < n -> Paging.allocate (alloc s') 4096 4096 = None -> map_heap BasePageSize va n s = Done (Err k) s').
Proof.
  intros W Hv Hm Hk Hb Hl Hr. destruct (heap_run (Z.to_nat k) s va 0) as (s' & fs & E & W' & Lf & Hg & _ & Htr); [done|lia|done|lia| |lia|].
  { intros va' Hin. apply Hl. lia. }
  exists s', fs. rewrite Z.mul_0_l, Z.add_0_r in Htr. split_and!; try done; [lia|..]; unfold map_heap.
  - intros <-. specialize (E 0%nat). rewrite Nat.add_0_r in E. exact E.
  - intros Hlt Hnone. specialize (E (Z.to_nat (n - k))). replace (Z.to_nat k + Z.to_nat (n - k))%nat with (Z.to_nat n) in E by lia.
    rewrite E. destruct (Z.to_nat (n - k)) as [|j] eqn:Ej; [lia|]. cbn [map_heap_loop]. erewrite bind_run by reflexivity.
    cbn [BasePageSize SIZE]. rewrite Hnone, Z.add_0_l, Z2Nat.id by lia. done.
Qed.
End Map.

(** ** A machine *)

(** An empty root table at 4096 and a hundred free frames above it. *)
Definition boot : t PagingProps.bump := mk (fun _ => 0) 4096 (8192, 100%nat) [].

Lemma boot_table p f : table_at (phys boot) (root boot) p = Some f -> p = [] /\ f = 4096.
Proof. destruct p; [|done]. by intros [= <-]. Qed.
Lemma rv_boot_wf : wf boot.
Proof.
  split; [split|..].
  - intros p f _ [-> ->]%boot_table. by split_and!.
  - by intros p q f _ _ [-> ->]%boot_table [-> _]%boot_table.
  - done.
  - cbn. split_and!; [lia|reflexivity|lia].
  - intros q p f Ho _ [-> ->]%boot_table. cbn in Ho. lia.
Qed.
Lemma boot_no_larger k va : no_larger boot k va.
Proof. done. Qed.
Lemma rv_boot_args : map_args LargePageSize 1 boot 0x40000000 0x80000000 3 heap_flags.
Proof. split; [apply heap_flags_ok|lia|by split_and!|by split_and!|intros; apply boot_no_larger|cbn; lia]. Qed.

Lemma riscv_map_translates_witness : exists s', map LargePageSize 0x40000000 0x80000000 3 heap_flags boot = Done tt s' /\
  translate s' 0x40234567 = Some 0x80234567 /\ translate s' 0x50000000 = None.
Proof.
  destruct (riscv_map_translates LargePageSize 1 boot 0x40000000 0x80000000 3 heap_flags (proj1 (proj2 sizes)) rv_boot_wf rv_boot_args)
    as (s' & E & _ & Tr & _).
  exists s'. split; [exact E|]. split; rewrite Tr by (unfold low; lia); vm_compute; reflexivity.
Defined.

Lemma riscv_software_walk_witness : exists why, virtual_to_physical 0x12345 boot = Panic why.
Proof. apply (riscv_software_walk boot 0x12345 rv_boot_wf). unfold low. lia. Defined.

Lemma riscv_map_heap_witness : exists s' (fs : list Z), length fs = 2%nat /\ map_heap BasePageSize 0x10000 2 boot = Done (Ok tt) s' /\ wf s'.
Proof.
  destruct (riscv_map_heap boot 0x10000 2 2 rv_boot_wf) as (s' & fs & L & _ & W & _ & E & _);
    [lia|reflexivity|lia|lia|intros; apply boot_no_larger|cbn; lia|].
  exists s', fs. split; [lia|]. split; [apply E; reflexivity|exact W].
Defined.

(** Physical addresses from 2^39 on lose their upper bits. *)
Lemma software_walk_truncates : exists s', map HugePageSize 0 (2 ^ 40) 1 heap_flags boot = Done tt s' /\
  translate s' 0x1234 = Some (2 ^ 40 + 0x1234) /\ virtual_to_physical 0x1234 s' = Done (Some 0x1234) s'.
Proof. eexists. split; [vm_compute; reflexivity|]. split; vm_compute; reflexivity. Qed.

Definition final {S B} (e : exec S B) : option S := match e with Done _ s => Some s | Panic _ => None end.

(** [unmap] of two large pages clears the first entry only: the second becomes a
    table at the physical address 2 MiB, and mapping a page there writes into
    that memory. *)
Lemma unmap_leaves_table : outside boot 0x200000 /\
  (fun s => phys s 0x200000) <$> final ((do! map LargePageSize 0x40000000 0x80000000 2 heap_flags in
    do! unmap LargePageSize 0x40000000 2 in map BasePageSize 0x40200000 0x90000000 1 heap_flags) boot) =
  Some (entry_of 0x90000000 (Z.lor (Z.lor ACCESSED DIRTY) heap_flags)).
Proof.
  split; [split|vm_compute; reflexivity].
  - cbn. lia.
  - intros p f _ [-> ->]%boot_table. lia.
Qed.

(** [device] sets no flag: a page for a device that is made writable is not
    readable, which the unit refuses. *)
Lemma device_pages_fault :
  (fun s => translate s 0x1000) <$> final (map BasePageSize 0x1000 0x10000000 1 (writable (device 0)) boot) = Some None.
Proof. vm_compute. reflexivity. Qed.
End RiscvProps.
