(* ===== verification/Console.v ===== *)
(** The console: the line buffer of [src/src/console/mod.rs] over any device, the
    serial port of AArch64 ([src/src/arch/aarch64/kernel/serial.rs]), those of
    RISC-V and uhyve, and the standard streams ([src/src/fd/stdio/console.rs]).
    What is written reaches the device complete and in order, a line at once;
    what arrives is read complete and in order, and echoed. *)

From S2P Require Import Prelude Errors EventFd.

Module Console.
Import EventFd(Poll, Ready, Pending, Waker, POLLIN, POLLOUT, POLLRDNORM, POLLRDBAND, POLLWRNORM, POLLWRBAND).

(** ** Devices *)

(** [embedded_io]'s [Read], [ReadReady] and [Write] of a device. *)
Class IoDevice (D : Type) : Type := {
  dev_read : Z -> M D (io_result (list Z)); (** into a buffer of that length *)
  dev_read_ready : M D (io_result bool);
  dev_write : list Z -> M D (io_result Z);
}.

Definition SERIAL_BUFFER_SIZE : Z := 256.
Definition newline : Z := 10.

(** [Write::write_all]; the fuel is the length of the buffer. *)
Fixpoint write_all_loop {S} (write : list Z -> M S (io_result Z)) (fuel : nat) (buf : list Z) : M S (io_result unit) :=
  match buf with
  | [] => ret (Ok tt)
  | _ =>
      match fuel with
      | O => panic "out of fuel"
      | S fuel' =>
          let! r := write buf in
          match r with
          | Err e => ret (Err e)
          | Ok n => if n =? 0 then panic "write() returned Ok(0)" else write_all_loop write fuel' (drop (Z.to_nat n) buf)
          end
      end
  end.
Definition write_all {S} (write : list Z -> M S (io_result Z)) (buf : list Z) : M S (io_result unit) :=
  write_all_loop write (length buf) buf.

(** ** The console *)

Record t (D : Type) : Type := mk {
  device : D;
  buffer : list Z;
  waker : option Waker; (** [CONSOLE_WAKER] *)
  woken : list Waker; (** the wakers called so far *)
}.
Arguments mk {D} _ _ _ _.
Arguments device {D} _.
Arguments buffer {D} _.
Arguments waker {D} _.
Arguments woken {D} _.

Section Code.
Context {D : Type} `{IoDevice D}.

Definition set_device (d : D) (s : t D) : t D := mk d (buffer s) (waker s) (woken s).
Definition set_buffer (b : list Z) (s : t D) : t D := mk (device s) b (waker s) (woken s).
Definition on_device {A} : M D A -> M (t D) A := zoom device set_device.

Definition Console_new (d : D) : t D := mk d [] None [].
Definition replace_device (d : D) : M (t D) unit := modify (set_device d).

(** [IoDevice::write] *)
Definition io_write (buf : list Z) : M (t D) (io_result Z) :=
  let! r := write_all (fun b => on_device (dev_write b)) buf in
  match r with Err e => ret (Err e) | Ok _ => ret (Ok (Z.of_nat (length buf))) end.

Definition read (n : Z) : M (t D) (io_result (list Z)) := on_device (dev_read n).
Definition read_ready : M (t D) (io_result bool) := on_device dev_read_ready.

Definition flush : M (t D) (io_result unit) :=
  let! b := gets buffer in
  match b with
  | [] => ret (Ok tt)
  | _ =>
      let! r := write_all io_write b in
      match r with
      | Err e => ret (Err e)
      | Ok _ => do! modify (set_buffer []) in ret (Ok tt)
      end
  end.

(** [self.buffer.extend_from_slice(buf).unwrap()] and the flush of a line. *)
Definition extend (buf : list Z) : M (t D) (io_result unit) :=
  let! b := gets buffer in
  do! assert_ (Z.of_nat (length b) + Z.of_nat (length buf) <=? SERIAL_BUFFER_SIZE) "called `Result::unwrap()` on an `Err` value" in
  do! modify (set_buffer (b ++ buf)) in
  if bool_decide (newline ∈ buf) then flush else ret (Ok tt).

Definition write (buf : list Z) : M (t D) (io_result Z) :=
  let! b := gets buffer in
  let! r :=
    if Z.of_nat (length buf) <=? SERIAL_BUFFER_SIZE - Z.of_nat (length b) then extend buf
    else
      let! r := write_all io_write b in
      match r with
      | Err e => ret (Err e)
      | Ok _ =>
          do! modify (set_buffer []) in
          if SERIAL_BUFFER_SIZE <=? Z.of_nat (length buf) then write_all io_write buf else extend buf
      end in
  match r with Err e => ret (Err e) | Ok _ => ret (Ok (Z.of_nat (length buf))) end.

(** [write_fmt] writes the pieces of its arguments, [_print] unwraps. *)
Fixpoint write_fmt (pieces : list (list Z)) : M (t D) (io_result unit) :=
  match pieces with
  | [] => ret (Ok tt)
  | p :: ps =>
      let! r := write_all write p in
      match r with Err e => ret (Err e) | Ok _ => write_fmt ps end
  end.
Definition print (pieces : list (list Z)) : M (t D) unit :=
  let! r := write_fmt pieces in
  match r with Err _ => panic "called `Result::unwrap()` on an `Err` value" | Ok _ => ret tt end.

(** ** Wakers and the standard streams *)

Definition register (w : Waker) (s : t D) : t D :=
  mk (device s) (buffer s) (match waker s with Some w2 => if w2 =? w then Some w2 else Some w | None => Some w end) (woken s).
Definition wake (s : t D) : t D :=
  match waker s with None => s | Some w => mk (device s) (buffer s) None (woken s ++ [w]) end.

Definition stdin_poll (event : Z) : M (t D) (io_result Z) :=
  let! r := read_ready in
  match r with
  | Err e => ret (Err e)
  | Ok b => ret (Ok (Z.land event (if b then Z.lor (Z.lor POLLIN POLLRDNORM) POLLRDBAND else 0)))
  end.
Definition stdout_poll (event : Z) : M (t D) (io_result Z) :=
  ret (Ok (Z.land event (Z.lor (Z.lor POLLOUT POLLWRNORM) POLLWRBAND))).
Definition stdout_write (buf : list Z) : M (t D) (io_result Z) := write buf.

(** One poll of the future of [ConsoleStdin::read] takes the locks one after
    the other: reading with the echo is one step, registering another. *)
Definition stdin_try (n : Z) : M (t D) (option (io_result (list Z))) :=
  let! r := read n in
  match r with
  | Err e => ret (Some (Err e))
  | Ok bytes =>
      if 0 <? Z.of_nat (length bytes) then
        let! r := write_all write bytes in
        match r with
        | Err e => ret (Some (Err e))
        | Ok _ => let! r := flush in match r with Err e => ret (Some (Err e)) | Ok _ => ret (Some (Ok bytes)) end
        end
      else ret None
  end.
Definition stdin_read (n : Z) (w : Waker) : M (t D) (Poll (io_result (list Z))) :=
  let! r := stdin_try n in
  match r with
  | Some r => ret (Ready r)
  | None => do! modify (register w) in ret Pending
  end.
End Code.

(** ** The serial port of AArch64 *)

(** The driver of the port, of the crate [arm_pl011_uart]. *)
Class Uart (U : Type) : Type := {
  write_word : Z -> U -> U;
  read_word : U -> Result Z (option Z) * U;
  clear_interrupts : U -> U;
}.

(** [UartDevice] *)
Record UartDevice (U : Type) : Type := mkUart { uart : U; rx : list Z }.
Arguments mkUart {U} _ _.
Arguments uart {U} _.
Arguments rx {U} _.

Section Serial.
(** [front]: how many bytes a ring buffer holds before it wraps around, which is
    what one read of a [VecDeque] can give. *)
Context {U : Type} `{Uart U} (front : list Z -> nat).

Definition serial_read (n : Z) : M (UartDevice U) (io_result (list Z)) :=
  let! b := gets rx in
  let k := (Z.to_nat n `min` front b)%nat in
  do! modify (fun d => mkUart (uart d) (drop k b)) in
  ret (Ok (take k b)).
Definition serial_read_ready : M (UartDevice U) (io_result bool) :=
  let! b := gets rx in ret (Ok (bool_decide (b <> []))).
Definition serial_write (buf : list Z) : M (UartDevice U) (io_result Z) :=
  do! modify (fun d => mkUart (fold_left (fun u b => write_word b u) buf (uart d)) (rx d)) in
  ret (Ok (Z.of_nat (length buf))).

Definition serial : IoDevice (UartDevice U) := {|
  dev_read := serial_read; dev_read_ready := serial_read_ready; dev_write := serial_write
|}.

(** Normalize CR to LF. *)
Definition normalize (b : Z) : Z := if b =? 13 then 10 else b.

(** The loop of the interrupt handler. *)
Fixpoint drain_uart (fuel : nat) (d : UartDevice U) : UartDevice U :=
  match fuel with
  | O => d
  | S fuel' =>
      match read_word (uart d) with
      | (Ok (Some b), u) => drain_uart fuel' (mkUart u (rx d ++ [normalize b]))
      | (_, u) => mkUart u (rx d)
      end
  end.
Definition handle_uart_interrupt (fuel : nat) : M (t (UartDevice U)) unit :=
  do! modify (fun s => set_device (drain_uart fuel (device s)) s) in
  do! modify (fun s => set_device (mkUart (clear_interrupts (uart (device s))) (rx (device s))) s) in
  modify wake.
End Serial.

(** The ports of RISC-V and of uhyve: output only, [put] a byte or a buffer. *)
Definition sbi_serial {D} (console_write_byte : Z -> D -> D) : IoDevice D := {|
  dev_read _ := ret (Ok []);
  dev_read_ready := ret (Ok false);
  dev_write buf := do! modify (fun d => fold_left (fun d b => console_write_byte b d) buf d) in ret (Ok (Z.of_nat (length buf)));
|}.
Definition uhyve_serial {D} (serial_buf_hypercall : list Z -> D -> D) : IoDevice D := {|
  dev_read _ := ret (Ok []);
  dev_read_ready := ret (Ok false);
  dev_write buf := do! modify (serial_buf_hypercall buf) in ret (Ok (Z.of_nat (length buf)));
|}.

(** ** What a device promises *)

Class IoDeviceOk (D : Type) `{IoDevice D} : Type := {
  sent : D -> list Z; (** what has left the machine *)
  avail : D -> list Z; (** what can be read *)
  pending : D -> list Z; (** what has arrived and cannot be read yet *)
  dev_write_ok buf d : buf <> [] -> exists d', dev_write buf d = Done (Ok (Z.of_nat (length buf))) d' /\
    sent d' = sent d ++ buf /\ avail d' = avail d /\ pending d' = pending d;
  dev_read_ok n d : 0 <= n -> exists l d', dev_read n d = Done (Ok l) d' /\ sent d' = sent d /\ avail d = l ++ avail d' /\
    pending d' = pending d /\ (length l <= Z.to_nat n)%nat /\ (0 < n -> avail d <> [] -> l <> []);
}.

Lemma write_all_run {S} (write : list Z -> M S (io_result Z)) buf s s' :
  buf <> [] -> write buf s = Done (Ok (Z.of_nat (length buf))) s' -> write_all write buf s = Done (Ok tt) s'.
Proof.
  intros Hn E. unfold write_all. destruct buf as [|b buf]; [done|]. cbn [length write_all_loop]. erewrite bind_run by exact E. cbv beta iota.
  rewrite (proj2 (Z.eqb_neq _ _)) by (cbn [length]; lia). rewrite Nat2Z.id, drop_ge by done. by destruct (length buf).
Qed.

Section Output.
Context {D : Type} `{IoDeviceOk D}.

(** Everything written to the console, sent or still in the buffer. *)
Definition stream (s : t D) : list Z := sent (device s) ++ buffer s.

(** [bytes] were written, and nothing else changed. *)
Record wrote (s s' : t D) (bytes : list Z) : Prop := {
  w_stream : stream s' = stream s ++ bytes;
  w_bound : Z.of_nat (length (buffer s')) <= SERIAL_BUFFER_SIZE;
  w_avail : avail (device s') = avail (device s);
  w_pending : pending (device s') = pending (device s);
  w_waker : waker s' = waker s;
  w_woken : woken s' = woken s;
}.

Lemma wrote_trans s1 s2 s3 b1 b2 : wrote s1 s2 b1 -> wrote s2 s3 b2 -> wrote s1 s3 (b1 ++ b2).
Proof. intros [A1 A2 A3 A4 A5 A6] [B1 B2 B3 B4 B5 B6]. split; try congruence. by rewrite B1, A1, app_assoc. Qed.

(** Sending [buf] past the buffer. *)
Lemma console_send_run buf (s : t D) : exists d', write_all io_write buf s = Done (Ok tt) (set_device d' s) /\
  sent d' = sent (device s) ++ buf /\ avail d' = avail (device s) /\ pending d' = pending (device s).
Proof.
  destruct (decide (buf = [])) as [->|Hn].
  { exists (device s). split; [by destruct s|]. by rewrite app_nil_r. }
  destruct (dev_write_ok buf (device s) Hn) as (d' & E & Es & Ea & Ep). exists d'. split; [|done].
  apply write_all_run; [done|]. unfold io_write.
  erewrite bind_run by (apply write_all_run; [done|apply zoom_run; exact E]). reflexivity.
Qed.

Lemma flush_run (s : t D) : exists s', flush s = Done (Ok tt) s' /\ wrote s s' [] /\ buffer s' = [].
Proof.
  destruct (console_send_run (buffer s) s) as (d' & E & Es & Ea & Ep). destruct (decide (buffer s = [])) as [Eb|Hn].
  { exists s. split; [|split; [|done]]; [unfold flush; erewrite bind_run by reflexivity; by rewrite Eb|].
    split; try done; [by rewrite app_nil_r|by rewrite Eb]. }
  exists (set_buffer [] (set_device d' s)). split; [|split; [|done]].
  - unfold flush. erewrite bind_run by reflexivity. destruct (buffer s) as [|b l] eqn:Eb; [done|]. cbv beta iota.
    erewrite bind_run by exact E. reflexivity.
  - split; try done. unfold stream. cbn [set_buffer set_device device buffer]. by rewrite Es, !app_nil_r.
Qed.

Lemma extend_run buf (s : t D) : Z.of_nat (length (buffer s)) + Z.of_nat (length buf) <= SERIAL_BUFFER_SIZE ->
  exists s', extend buf s = Done (Ok tt) s' /\ wrote s s' buf /\ (newline ∈ buf -> buffer s' = []).
Proof.
  intros Hl. unfold extend. erewrite bind_run by reflexivity. rewrite (proj2 (Z.leb_le _ _)) by done. erewrite bind_run by reflexivity.
  erewrite bind_run by reflexivity. set (s1 := set_buffer (buffer s ++ buf) s).
  assert (W : wrote s s1 buf).
  { split; try done; [unfold stream, s1; cbn; by rewrite app_assoc|]. unfold s1. cbn [set_buffer buffer]. rewrite length_app. lia. }
  destruct (bool_decide_reflect (newline ∈ buf)) as [Hin|Hout]; [|by exists s1].
  destruct (flush_run s1) as (s2 & E2 & W2 & B2). exists s2. split; [exact E2|]. split; [|done].
  rewrite <- (app_nil_r buf). by apply (wrote_trans s s1 s2).
Qed.

Lemma write_run buf (s : t D) : Z.of_nat (length (buffer s)) <= SERIAL_BUFFER_SIZE ->
  exists s', write buf s = Done (Ok (Z.of_nat (length buf))) s' /\ wrote s s' buf /\ (newline ∈ buf -> buffer s' = []).
Proof.
  intros Hl. unfold write. erewrite bind_run by reflexivity. destruct (Z.leb_spec (Z.of_nat (length buf)) (SERIAL_BUFFER_SIZE - Z.of_nat (length (buffer s)))) as [Hf|Hf].
  { destruct (extend_run buf s ltac:(lia)) as (s' & E & W). exists s'. by erewrite bind_run by exact E. }
  destruct (console_send_run (buffer s) s) as (d' & E & Es & Ea & Ep). set (s1 := set_buffer [] (set_device d' s)).
  assert (W1 : wrote s s1 []).
  { split; try done. unfold stream, s1. cbn [set_buffer set_device device buffer]. by rewrite Es, !app_nil_r. }
  enough (exists s', (if SERIAL_BUFFER_SIZE <=? Z.of_nat (length buf) then write_all io_write buf else extend buf) s1 = Done (Ok tt) s' /\
    wrote s1 s' buf /\ (newline ∈ buf -> buffer s' = [])) as (s' & E' & W' & B').
  { exists s'. split; [|split; [exact (wrote_trans s s1 s' [] buf W1 W')|done]].
    erewrite bind_run by (erewrite bind_run by exact E; cbv beta iota; erewrite bind_run by reflexivity; exact E'). done. }
  destruct (Z.leb_spec SERIAL_BUFFER_SIZE (Z.of_nat (length buf))) as [Hb|Hb].
  - destruct (console_send_run buf s1) as (d2 & E2 & Es2 & Ea2 & Ep2). exists (set_device d2 s1). split; [exact E2|]. split; [|done].
    split; try done. unfold stream, s1. cbn. by rewrite Es2, !app_nil_r.
  - apply extend_run. cbn. lia.
Qed.

Lemma echo_run l (s : t D) : l <> [] -> Z.of_nat (length (buffer s)) <= SERIAL_BUFFER_SIZE ->
  exists s', (let! r := write_all write l in
        match r with
        | Err e => ret (Some (Err e))
        | Ok _ => let! r := flush in match r with Err e => ret (Some (Err e)) | Ok _ => ret (Some (Ok l)) end
        end) s = Done (Some (Ok l : io_result (list Z))) s' /\ wrote s s' l /\ buffer s' = [].
Proof.
  intros Hn Hl. destruct (write_run l s Hl) as (s1 & E1 & W1 & _). destruct (flush_run s1) as (s2 & E2 & W2 & B2).
  exists s2. split; [|split; [|done]].
  - erewrite bind_run by (apply write_all_run; [done|exact E1]). cbv beta iota. by erewrite bind_run by exact E2.
  - rewrite <- (app_nil_r l). by apply (wrote_trans s s1 s2).
Qed.

(** A read gives and echoes what is available, or registers its waker. *)
Lemma stdin_read_run n w (s : t D) : 0 < n -> Z.of_nat (length (buffer s)) <= SERIAL_BUFFER_SIZE ->
  (exists l s', stdin_read n w s = Done (Ready (Ok l)) s' /\ l <> [] /\ avail (device s) = l ++ avail (device s') /\
     stream s' = stream s ++ l /\ buffer s' = [] /\ pending (device s') = pending (device s) /\ waker s' = waker s /\ woken s' = woken s) \/
  (avail (device s) = [] /\ exists s', stdin_read n w s = Done Pending s' /\ stream s' = stream s /\ buffer s' = buffer s /\
     avail (device s') = [] /\ pending (device s') = pending (device s) /\ waker s' = Some w /\ woken s' = woken s).
Proof.
  intros Hn Hl. destruct (dev_read_ok n (device s)) as (l & d' & E & Es & Ea & Ep & Hlen & Hne); [lia|].
  assert (Er : read n s = Done (Ok l) (set_device d' s)) by (by apply zoom_run).
  set (s1 := set_device d' s) in *. assert (S1 : stream s1 = stream s) by (unfold stream, s1; cbn; by rewrite Es).
  unfold stdin_read, stdin_try. destruct (decide (l = [])) as [->|Hnl].
  - right. assert (Ha : avail (device s) = []) by (destruct (decide (avail (device s) = [])) as [?|Hav]; [done|by destruct (Hne Hn Hav)]).
    split; [done|]. eexists. split; [erewrite bind_run by (erewrite bind_run by exact Er; reflexivity); reflexivity|].
    cbn. split_and!; try done; [by cbn in Ea; rewrite <- Ea|]. destruct (waker s) as [w2|]; [|done]. by destruct (Z.eqb_spec w2 w) as [->|].
  - left. destruct (echo_run l s1 Hnl) as (s2 & E2 & W2 & B2); [done|]. exists l, s2. split; [|split; [done|]].
    + erewrite bind_run; cycle 1.
      { erewrite bind_run by exact Er. cbv beta iota. rewrite (proj2 (Z.ltb_lt _ _)); [exact E2|]. destruct l; [done|cbn [length]; lia]. }
      reflexivity.
    + destruct W2 as [A1 A2 A3 A4 A5 A6]. split_and!; try done; [by rewrite A3|by rewrite A1, S1|by rewrite A4].
Qed.
End Output.

(** ** The whole path *)

(** What the port promises: bytes leave in order, and come in the order in which
    they arrived; a read that fails takes no byte. *)
Class UartOk (U : Type) `{Uart U} : Type := {
  line : U -> list Z;
  fifo : U -> list Z;
  arrive : Z -> U -> U;
  write_word_ok b u : line (write_word b u) = line u ++ [b] /\ fifo (write_word b u) = fifo u;
  read_word_ok u : line (read_word u).2 = line u /\
    match fifo u with
    | [] => (forall b, (read_word u).1 <> Ok (Some b)) /\ fifo (read_word u).2 = []
    | b :: l => ((read_word u).1 = Ok (Some b) /\ fifo (read_word u).2 = l) \/
        ((exists e, (read_word u).1 = Err e) /\ fifo (read_word u).2 = b :: l)
    end;
  clear_ok u : line (clear_interrupts u) = line u /\ fifo (clear_interrupts u) = fifo u;
  arrive_ok b u : line (arrive b u) = line u /\ fifo (arrive b u) = fifo u ++ [b];
}.

Section Path.
Context {U : Type} `{UartOk U} (front : list Z -> nat).
Hypothesis front_ok : forall l, l <> [] -> (0 < front l <= length l)%nat.

#[local] Instance port : IoDevice (UartDevice U) := serial front.

Lemma write_words buf u : line (fold_left (fun u b => write_word b u) buf u) = line u ++ buf /\
  fifo (fold_left (fun u b => write_word b u) buf u) = fifo u.
Proof.
  revert u. induction buf as [|b buf IH]; intros u; cbn; [by rewrite app_nil_r|]. destruct (IH (write_word b u)) as [-> ->], (write_word_ok b u) as [-> ->].
  by rewrite <- app_assoc.
Qed.

#[local] Program Instance port_ok : IoDeviceOk (UartDevice U) := { sent d := line (uart d); avail d := rx d; pending d := fifo (uart d) }.
Next Obligation. intros buf d _. eexists. split; [reflexivity|]. cbn. split; [apply write_words|split; [done|apply write_words]]. Qed.
Next Obligation.
  intros n d Hn. set (k := (Z.to_nat n `min` front (rx d))%nat). exists (take k (rx d)), (mkUart (uart d) (drop k (rx d))).
  split; [reflexivity|]. cbn. split_and!; [done|by rewrite take_drop|done|rewrite length_take; lia|].
  intros Hp Hne Et. apply (f_equal length) in Et. rewrite length_take in Et. destruct (front_ok (rx d) Hne). cbn in Et. lia.
Qed.

(** The handler takes what has arrived, up to the first read that fails. *)
Lemma drain_uart_run fuel d : (length (fifo (uart d)) < fuel)%nat ->
  rx (drain_uart fuel d) ++ (normalize <$> fifo (uart (drain_uart fuel d))) = rx d ++ (normalize <$> fifo (uart d)) /\
  line (uart (drain_uart fuel d)) = line (uart d) /\
  ((forall u e, (read_word u).1 <> Err e) -> fifo (uart (drain_uart fuel d)) = []).
Proof.
  revert d. induction fuel as [|fuel IH]; intros d Hl; [lia|]. cbn [drain_uart]. destruct (read_word_ok (uart d)) as [El Ef].
  destruct (fifo (uart d)) as [|b l] eqn:Ed.
  - destruct Ef as [Hn Hf]. destruct (read_word (uart d)) as [r u]. cbn [fst snd] in *.
    destruct r as [[b|]|e]; [by destruct (Hn b)|..]; cbn; by rewrite Hf.
  - destruct Ef as [[Er Hf]|[[e Er] Hf]].
    + destruct (read_word (uart d)) as [r u]. cbn [fst snd] in *. subst r.
      destruct (IH (mkUart u (rx d ++ [normalize b]))) as (E1 & E2 & E3); [cbn in *; rewrite Hf; lia|].
      cbn in *. by rewrite E1, E2, Hf, <- app_assoc.
    + split; [|split].
      * destruct (read_word (uart d)) as [r u]. cbn [fst snd] in *. subst r. cbn. by rewrite Hf.
      * destruct (read_word (uart d)) as [r u]. cbn [fst snd] in *. by subst r.
      * intros Hno. by destruct (Hno (uart d) e).
Qed.

Inductive event : Type :=
  | Write (buf : list Z)
  | Read (n : Z) (w : Waker)
  | Arrive (b : Z)
  | Interrupt.

(** The console and what went through it: bytes written to it, echoes among
    them, bytes that arrived and bytes that were read. *)
Record world : Type := mkWorld { con : t (UartDevice U); written : list Z; received : list Z; delivered : list Z }.

Definition on_con {A} : M (t (UartDevice U)) A -> M world A :=
  zoom con (fun c w => mkWorld c (written w) (received w) (delivered w)).
Definition log_write (l : list Z) (w : world) : world := mkWorld (con w) (written w ++ l) (received w) (delivered w).
Definition log_read (l : list Z) (w : world) : world := mkWorld (con w) (written w) (received w) (delivered w ++ l).
Definition log_arrive (b : Z) (w : world) : world := mkWorld (con w) (written w) (received w ++ [b]) (delivered w).

Definition step (e : event) : M world unit :=
  match e with
  | Write buf => let! _ := on_con (stdout_write buf) in modify (log_write buf)
  | Read n w =>
      let! r := on_con (stdin_read n w) in
      match r with
      | Ready (Ok l) => do! modify (log_write l) in modify (log_read l)
      | _ => ret tt
      end
  | Arrive b =>
      do! on_con (modify (fun c => set_device (mkUart (arrive b (uart (device c))) (rx (device c))) c)) in modify (log_arrive b)
  | Interrupt => fun w => on_con (handle_uart_interrupt (S (length (fifo (uart (device (con w)))))))  w
  end.

Fixpoint run (evs : list event) : M world unit :=
  match evs with [] => ret tt | e :: evs => do! step e in run evs end.

Definition valid_event (e : event) : Prop := match e with Read n _ => 0 < n | _ => True end.

Record inv (w : world) : Prop := {
  i_out : line (uart (device (con w))) ++ buffer (con w) = written w;
  i_bound : Z.of_nat (length (buffer (con w))) <= SERIAL_BUFFER_SIZE;
  i_in : delivered w ++ rx (device (con w)) ++ (normalize <$> fifo (uart (device (con w)))) = normalize <$> received w;
}.

Lemma on_con_run {A} (m : M (t (UartDevice U)) A) w a c : m (con w) = Done a c ->
  on_con m w = Done a (mkWorld c (written w) (received w) (delivered w)).
Proof. intros E. unfold on_con, zoom. by rewrite E. Qed.

Lemma step_run e w : inv w -> valid_event e -> exists w', step e w = Done tt w' /\ inv w' /\
  (forall buf, e = Write buf -> written w' = written w ++ buf /\ (newline ∈ buf -> buffer (con w') = [])).
Proof.
  intros [I1 I2 I3] Hv. destruct e as [buf|n wk|b|]; cbn [step].
  - destruct (write_run buf (con w) I2) as (c & E & [W1 W2 W3 W4 _ _] & Hn). cbn in W1, W3, W4.
    erewrite bind_run by (apply on_con_run; exact E). eexists. split; [reflexivity|]. split.
    + split; cbn [log_write con written received delivered]; [|done|by rewrite W3, W4].
      rewrite <- I1. exact W1.
    + by intros ? [= <-].
  - destruct (stdin_read_run n wk (con w) Hv I2) as [(l & c & E & _ & Ea & Es & Eb & Ep & _)|(Ea0 & c & E & Es & Eb & Ea & Ep & _)];
      erewrite bind_run by (apply on_con_run; exact E); cbv beta iota; (eexists; split; [reflexivity|]; split; [|done]).
    + unfold stream in Es. cbn in Ea, Es, Ep. split; cbn [log_write log_read con written received delivered].
      * rewrite <- I1. exact Es.
      * by rewrite Eb.
      * rewrite <- I3, Ea, Ep, <- !app_assoc. done.
    + unfold stream in Es. cbn in Ea, Es, Ep. split; cbn [con written received delivered]; [by rewrite Es|by rewrite Eb|].
      cbn in Ea0. rewrite Ep, Ea, <- I3, Ea0. done.
  - erewrite bind_run by (apply on_con_run; reflexivity). eexists. split; [reflexivity|]. split; [|done].
    destruct (arrive_ok b (uart (device (con w)))) as [E1 E2].
    split; cbn [log_arrive con written received delivered set_device device buffer uart rx]; [by rewrite E1|done|].
    rewrite E2, !fmap_app, <- I3, <- !app_assoc. done.
  - cbv beta. set (k := S _). destruct (drain_uart_run k (device (con w)) ltac:(unfold k; lia)) as (E1 & E2 & E3). clearbody k.
    set (d := drain_uart _ _) in *. destruct (clear_ok (uart d)) as [C1 C2]. eexists. split; [by apply on_con_run|]. split; [|done].
    unfold wake. split; cbn [con written received delivered]; destruct (waker _); cbn; fold d; rewrite ?C1, ?C2, ?E2, ?E1; try done.
Qed.

(** C39: Whatever the order of writes, reads, bytes that arrive and interrupts: no
    call fails; what has left the serial port followed by what is in the buffer,
    at most 256 bytes, is all that was written or echoed, in order, and after a
    write with a line break everything has left; what was read followed by what
    waits is all that arrived, in order, carriage returns as line feeds.  A read
    of the port may fail, but then takes no byte. *)
Theorem console_streams u evs : line u = [] -> fifo u = [] -> Forall valid_event evs ->
  exists w, run evs (mkWorld (Console_new (mkUart u [])) [] [] []) = Done tt w /\
    line (uart (device (con w))) ++ buffer (con w) = written w /\ Z.of_nat (length (buffer (con w))) <= 256 /\
    delivered w ++ rx (device (con w)) ++ (normalize <$> fifo (uart (device (con w)))) = normalize <$> received w /\
    (forall evs' buf, evs = evs' ++ [Write buf] -> newline ∈ buf -> line (uart (device (con w))) = written w).
Proof.
  intros Hl Hf Hev.
  assert (Hrun : forall w0, inv w0 -> exists w, run evs w0 = Done tt w /\ inv w /\
    (forall evs' buf, evs = evs' ++ [Write buf] -> newline ∈ buf -> buffer (con w) = [])).
  { induction Hev as [|e evs Hv Hev IH]; intros w0 I0; [exists w0; split; [done|split; [done|]]; by intros [|] ?|].
    destruct (step_run e w0 I0 Hv) as (w1 & E1 & I1 & H1). destruct (IH w1 I1) as (w & E & I & Hn). exists w. cbn [run].
    erewrite bind_run by exact E1. split; [done|]. split; [done|]. intros evs' buf Ee Hb. destruct evs' as [|e' evs']; cbn in Ee.
    - injection Ee as -> ->. cbn in E. injection E as <-. by apply (H1 buf).
    - injection Ee as _ ->. by eapply Hn. }
  destruct (Hrun (mkWorld (Console_new (mkUart u [])) [] [] [])) as (w & E & [I1 I2 I3] & Hn).
  { split; cbn; [by rewrite Hl|done|by rewrite Hf]. }
  exists w. split_and!; try done. intros evs' buf Ee Hb. rewrite <- I1, (Hn evs' buf Ee Hb). by rewrite app_nil_r.
Qed.
End Path.

(** ** A port *)

(** The bytes sent and those that wait. *)
Definition wire : Type := list Z * list Z.
#[local] Instance wire_uart : Uart wire := {
  write_word b u := (u.1 ++ [b], u.2);
  read_word u := match u.2 with [] => (Ok None, u) | b :: l => (Ok (Some b), (u.1, l)) end;
  clear_interrupts u := u;
}.
#[local] Program Instance wire_ok : UartOk wire := { line u := u.1; fifo u := u.2; arrive b u := (u.1, u.2 ++ [b]) }.
Next Obligation. done. Qed.
Next Obligation. intros [o [|b l]]; cbn; auto. Qed.
Next Obligation. done. Qed.
Next Obligation. done. Qed.

Lemma front_length (l : list Z) : l <> [] -> (0 < length l <= length l)%nat.
Proof. destruct l; cbn; [done|lia]. Qed.

Definition session : list event := [Write [104]; Arrive 13; Interrupt; Read 4 7; Write [105; 10]].
Lemma console_streams_witness : exists w, run length session (mkWorld (Console_new (mkUart (([], []) : wire) [])) [] [] []) = Done tt w /\
  (uart (device (con w))).1 = written w.
Proof.
  destruct (console_streams length front_length (([], []) : wire) session) as (w & E & _ & _ & _ & Hn);
    [reflexivity|reflexivity|by repeat constructor|].
  exists w. split; [exact E|]. apply (Hn [Write [104]; Arrive 13; Interrupt; Read 4 7] [105; 10] eq_refl). set_solver.
Defined.

Example session_streams : (fun r => match r with Done _ w => Some (written w, delivered w) | Panic _ => None end)
    (run length session (mkWorld (Console_new (mkUart (([], []) : wire) [])) [] [] [])) = Some ([104; 10; 105; 10], [10]).
Proof. vm_compute. reflexivity. Qed.

(** An interrupt between the two steps of a read: the byte waits, the waker was
    registered too late, and nobody is woken. *)
Lemma stdin_wakeup_lost : exists s, (
    let! r := @stdin_try _ (serial length) 4 in
    do! modify (fun s => set_device (mkUart (arrive 65 (uart (device s))) (rx (device s))) s) in
    do! handle_uart_interrupt 2 in
    do! modify (register 7) in ret r) (Console_new (mkUart (([], []) : wire) [])) = Done None s /\
  rx (device s) = [65] /\ waker s = Some 7 /\ woken s = [].
Proof. eexists. split; [vm_compute; reflexivity|]. done. Qed.

(** [poll] of the standard input registers no waker: a task that waits for the
    console with it is not woken by the interrupt. *)
Lemma stdin_poll_not_woken : exists s, (
    let! r := @stdin_poll _ (serial length) POLLIN in
    do! modify (fun s => set_device (mkUart (arrive 65 (uart (device s))) (rx (device s))) s) in
    do! handle_uart_interrupt 2 in ret r) (Console_new (mkUart (([], []) : wire) [])) = Done (Ok 0) s /\
  rx (device s) = [65] /\ woken s = [].
Proof. eexists. split; [vm_compute; reflexivity|]. done. Qed.
End Console.
