(* ===== verification/Condvar.v ===== *)
(** Condition variables, [src/src/syscalls/condvar.rs]: a counter and two
    semaphores.  A call is the code it runs, one operation on the counter or a
    semaphore after the other; threads take turns operation by operation.  A
    semaphore is its value: [acquire] waits until it is positive (see
    [Semaphore] for its implementation). *)

From S2P Require Import Prelude.
From stdpp Require Import gmap.
Open Scope Z_scope.

Module Condvar.

Record CondQueue : Set := mkQueue { counter : Z; sem1 : Z; sem2 : Z }.
Definition CondQueue_new : CondQueue := mkQueue 0 0 0.

(** ** The calls *)

Inductive op : Set :=
  | FetchAdd (d : Z)
  | Release1
  | Release2
  | Acquire1
  | Acquire2
  | WhilePositive. (** [while cond.counter.load(..) > 0] around one notification *)

#[global] Instance op_eq_dec : EqDecision op.
Proof. solve_decision. Defined.

(** The cells of user memory that hold the variables, and the queues in the heap. *)
Record t : Type := mk { cells : gmap Z Z; queues : gmap Z CondQueue }.

(** How a call goes on: it has returned, or runs on a queue and then returns 0. *)
Inductive call : Type :=
  | Return (r : Z)
  | Run (id : Z) (code : list op).

Definition deref (ptr : Z) : M t Z := fun s => unwrap (cells s !! ptr) "invalid pointer" s.

Definition sys_destroy_queue (ptr : Z) : M t call :=
  if ptr =? 0 then ret (Return (-1))
  else
    let! id := deref ptr in
    do! (if negb (id =? 0) then
           do! (fun s => assert_ (bool_decide (is_Some (queues s !! id))) "double free" s) in
           modify (fun s => mk (cells s) (delete id (queues s)))
         else ret tt) in
    ret (Return 0).

(** One notification. *)
Definition notification : list op := [FetchAdd (-1); Release1; Acquire2].
Definition notify_code (count : Z) : list op :=
  if count <? 0 then [WhilePositive] else concat (replicate (Z.to_nat count) notification).

Definition sys_notify (ptr count : Z) : M t call :=
  if ptr =? 0 then ret (Return (-1))
  else
    let! id := deref ptr in
    if id =? 0 then ret (Return (-1)) else ret (Run id (notify_code count)).

Section Alloc.
(** [Box::into_raw(queue).expose_provenance()] *)
Context (fresh : gmap Z CondQueue -> Z).

Definition create (ptr : Z) : M t unit :=
  modify (fun s => let id := fresh (queues s) in mk (<[ptr := id]> (cells s)) (<[id := CondQueue_new]> (queues s))).

Definition sys_init_queue (ptr : Z) : M t call :=
  if ptr =? 0 then ret (Return (-1))
  else
    let! id := deref ptr in
    do! (if id =? 0 then create ptr else ret tt) in
    ret (Return 0).

Definition sys_add_queue (ptr timeout_ns : Z) : M t call :=
  if ptr =? 0 then ret (Return (-1))
  else
    let! id := deref ptr in
    do! (if id =? 0 then create ptr else ret tt) in
    if timeout_ns <=? 0 then
      let! id := deref ptr in
      ret (Run id [FetchAdd 1])
    else ret (Return (-1)).
End Alloc.

Definition wait_code : list op := [Acquire1; Release2].
Definition sys_wait (ptr : Z) : M t call :=
  if ptr =? 0 then ret (Return (-1))
  else
    let! id := deref ptr in
    if id =? 0 then ret (Return (-1)) else ret (Run id wait_code).

(** ** Threads *)

(** One operation; [None] while it waits. *)
Definition exec_op (o : op) (rest : list op) (q : CondQueue) : option (CondQueue * list op) :=
  match o with
  | FetchAdd d => Some (mkQueue (wraps 64 (counter q + d)) (sem1 q) (sem2 q), rest)
  | Release1 => Some (mkQueue (counter q) (sem1 q + 1) (sem2 q), rest)
  | Release2 => Some (mkQueue (counter q) (sem1 q) (sem2 q + 1), rest)
  | Acquire1 => if 0 <? sem1 q then Some (mkQueue (counter q) (sem1 q - 1) (sem2 q), rest) else None
  | Acquire2 => if 0 <? sem2 q then Some (mkQueue (counter q) (sem1 q) (sem2 q - 1), rest) else None
  | WhilePositive => Some (q, if 0 <? counter q then notification ++ WhilePositive :: rest else rest)
  end.

(** The thread [i] takes its turn. *)
Definition step (i : nat) (st : CondQueue * list (list op)) : option (CondQueue * list (list op)) :=
  match st.2 !! i with
  | Some (o :: rest) => p ← exec_op o rest st.1; Some (p.1, <[i := p.2]> st.2)
  | _ => None
  end.
Fixpoint run (sched : list nat) (st : CondQueue * list (list op)) : option (CondQueue * list (list op)) :=
  match sched with [] => Some st | i :: sched => st' ← step i st; run sched st' end.
Definition stuck (st : CondQueue * list (list op)) : Prop := forall i, step i st = None.

(** How many threads are at some place. *)
Definition at_ (c : list op) (ws : list (list op)) : nat := length (filter (fun w => w = c) ws).

(** [W] tasks have added themselves to the queue and wait, and a task notifies
    [count] of them. *)
Definition start (W : nat) (count : Z) : CondQueue * list (list op) :=
  (mkQueue (Z.of_nat W) 0 0, notify_code count :: replicate W wait_code).

(** ** Counting *)

Lemma at_insert c ws i w w' : ws !! i = Some w ->
  (at_ c (<[i := w']> ws) + (if decide (w = c) then 1 else 0) = at_ c ws + (if decide (w' = c) then 1 else 0))%nat.
Proof.
  revert i. induction ws as [|x ws IH]; intros [|i] E; cbn in E; try done; unfold at_.
  - change (<[0%nat := w']> (x :: ws)) with (w' :: ws). injection E as ->. rewrite !filter_cons. repeat case_decide; simplify_eq; cbn [length]; lia.
  - change (<[S i := w']> (x :: ws)) with (x :: <[i := w']> ws). rewrite !filter_cons. specialize (IH i E). unfold at_ in IH.
    repeat case_decide; cbn [length]; lia.
Qed.
Lemma at_positive c ws i : ws !! i = Some c -> (0 < at_ c ws)%nat.
Proof.
  intros E. unfold at_. assert (Hc : c ∈ filter (fun w => w = c) ws).
  { apply list_elem_of_filter. split; [done|]. by eapply list_elem_of_lookup_2. }
  destruct (filter _ ws); [by apply elem_of_nil in Hc|]. cbn. lia.
Qed.
Lemma at_exists c ws : (0 < at_ c ws)%nat -> exists i, ws !! i = Some c.
Proof.
  unfold at_. intros Hp. destruct (filter (fun w => w = c) ws) as [|x l] eqn:E; [cbn in Hp; lia|].
  assert (Hx : x ∈ filter (fun w => w = c) ws) by (rewrite E; set_solver). apply list_elem_of_filter in Hx as [-> Hx].
  by apply list_elem_of_lookup in Hx.
Qed.
Lemma at_replicate c d W : at_ c (replicate W d) = if decide (d = c) then W else 0%nat.
Proof.
  unfold at_. induction W as [|W IH]; [cbn; by destruct (decide _)|]. cbn [replicate]. rewrite filter_cons. destruct (decide (d = c)); cbn; by rewrite IH.
Qed.

(** ** All schedules *)

Section Notify.
Context (W : nat) (count : Z).
Hypothesis HW : Z.of_nat W < 2 ^ 63.

(** The code of the notifier after [j] notifications. *)
Definition code_after (j : nat) : list op :=
  if count <? 0 then [WhilePositive] else concat (replicate (Z.to_nat count - j) notification).
(** One more notification is due. *)
Definition more (j : nat) : Prop := if count <? 0 then (j < W)%nat else (j < Z.to_nat count)%nat.

(** [d] waiters have returned and [m] are about to. *)
Record waiters (ws : list (list op)) (d m : nat) : Prop := {
  wt_shape : Forall (fun w => w = wait_code \/ w = [Release2] \/ w = []) ws;
  wt_done : at_ [] ws = d;
  wt_mid : at_ [Release2] ws = m;
  wt_wait : (at_ wait_code ws + d + m = W)%nat;
}.

Definition bound : nat := (W `max` Z.to_nat count)%nat.

(** The reachable states, with a bound on the steps that are left. *)
Inductive reach : nat -> CondQueue * list (list op) -> Prop :=
  | R_head j ws : (j <= W)%nat -> (0 <= count -> (j <= Z.to_nat count)%nat) -> waiters ws j 0 ->
      reach (6 * (bound - j) + 6) (mkQueue (Z.of_nat W - Z.of_nat j) 0 0, code_after j :: ws)
  | R_body j ws : count < 0 -> (j < W)%nat -> waiters ws j 0 ->
      reach (6 * (bound - j) + 5) (mkQueue (Z.of_nat W - Z.of_nat j) 0 0, (notification ++ code_after (S j)) :: ws)
  | R_sub j ws : (j <= W)%nat -> more j -> waiters ws j 0 ->
      reach (6 * (bound - j) + 4) (mkQueue (Z.of_nat W - Z.of_nat (S j)) 0 0, (Release1 :: Acquire2 :: code_after (S j)) :: ws)
  | R_sem1 j ws : (j <= W)%nat -> more j -> waiters ws j 0 ->
      reach (6 * (bound - j) + 3) (mkQueue (Z.of_nat W - Z.of_nat (S j)) 1 0, (Acquire2 :: code_after (S j)) :: ws)
  | R_mid j ws : (j < W)%nat -> more j -> waiters ws j 1 ->
      reach (6 * (bound - j) + 2) (mkQueue (Z.of_nat W - Z.of_nat (S j)) 0 0, (Acquire2 :: code_after (S j)) :: ws)
  | R_sem2 j ws : (j < W)%nat -> more j -> waiters ws (S j) 0 ->
      reach (6 * (bound - j) + 1) (mkQueue (Z.of_nat W - Z.of_nat (S j)) 0 1, (Acquire2 :: code_after (S j)) :: ws)
  | R_end ws : count < 0 -> waiters ws W 0 -> reach 0 (mkQueue 0 0 0, [] :: ws).

Lemma code_after_more j : 0 <= count -> (j < Z.to_nat count)%nat -> code_after j = notification ++ code_after (S j).
Proof.
  intros Hc Hj. unfold code_after. rewrite (proj2 (Z.ltb_ge _ _)) by done.
  replace (Z.to_nat count - j)%nat with (S (Z.to_nat count - S j)) by lia. reflexivity.
Qed.
Lemma code_after_all j : count < 0 -> code_after j = [WhilePositive].
Proof. intros Hc. unfold code_after. by rewrite (proj2 (Z.ltb_lt _ _)). Qed.
Lemma code_after_done : 0 <= count -> code_after (Z.to_nat count) = [].
Proof. intros Hc. unfold code_after. rewrite (proj2 (Z.ltb_ge _ _)) by done. by rewrite Nat.sub_diag. Qed.

Lemma step_waiter q n ws i : step (S i) (q, n :: ws) =
  match ws !! i with Some (o :: rest) => p ← exec_op o rest q; Some (p.1, n :: <[i := p.2]> ws) | _ => None end.
Proof. reflexivity. Qed.

(** A waiter takes its turn. *)
Lemma waiter_step q n ws i d m st : waiters ws d m -> step (S i) (q, n :: ws) = Some st ->
  (0 < sem1 q /\ exists ws', st = (mkQueue (counter q) (sem1 q - 1) (sem2 q), n :: ws') /\ waiters ws' d (S m)) \/
  ((0 < m)%nat /\ exists ws', st = (mkQueue (counter q) (sem1 q) (sem2 q + 1), n :: ws') /\ waiters ws' (S d) (m - 1)).
Proof.
  intros [Hs Hd Hm Hw] E. rewrite step_waiter in E.
  destruct (ws !! i) as [w|] eqn:Ei; [|done]. pose proof (Forall_lookup_1 _ _ _ _ Hs Ei) as Hw'. cbn in Hw'.
  pose proof (fun c w' => at_insert c ws i w w' Ei) as Hat.
  destruct Hw' as [-> | [-> | ->]]; cbn in E; [| |done].
  - destruct (Z.ltb_spec 0 (sem1 q)) as [Hq|]; [|done]. cbn in E. injection E as <-. left. split; [done|].
    exists (<[i := [Release2]]> ws). split; [done|]. pose proof (Hat [] [Release2]) as A1. pose proof (Hat [Release2] [Release2]) as A2.
    pose proof (Hat wait_code [Release2]) as A3. repeat case_decide; try done.
    split; [apply Forall_insert; [done|by right; left]|lia..].
  - injection E as <-. right. pose proof (at_positive _ _ _ Ei). split; [lia|]. exists (<[i := []]> ws). split; [done|].
    pose proof (Hat [] []) as A1. pose proof (Hat [Release2] []) as A2. pose proof (Hat wait_code []) as A3. repeat case_decide; try done.
    split; [apply Forall_insert; [done|by right; right]|lia..].
Qed.

Lemma step_reach r i st st' : reach r st -> step i st = Some st' -> exists r', (r' < r)%nat /\ reach r' st'.
Proof.
  intros R E. assert (Hcount : forall j, (j <= W)%nat -> wraps 64 (Z.of_nat W - Z.of_nat j + -1) = Z.of_nat W - Z.of_nat (S j)).
  { intros j Hj. rewrite wraps_small by lia. lia. }
  destruct R as [j ws Hj Hc Hw|j ws Hc Hj Hw|j ws Hj Hmo Hw|j ws Hj Hmo Hw|j ws Hj Hmo Hw|j ws Hj Hmo Hw|ws Hc Hw];
    (destruct i as [|i]; [unfold step in E; cbn [snd fst lookup list_lookup] in E|
      destruct (waiter_step _ _ _ _ _ _ _ Hw E) as [(Hq & ws' & -> & Hw')|(Hq & ws' & -> & Hw')]; cbn in Hq; try lia]).
  - destruct (Z.ltb_spec count 0) as [Hneg|Hpos].
    + rewrite code_after_all in E by done. cbn in E. injection E as <-.
      destruct (Z.ltb_spec 0 (Z.of_nat W - Z.of_nat j)) as [Hlt|Hge].
      * pose proof (R_body j ws Hneg ltac:(lia) Hw) as R. rewrite code_after_all in R by done. eexists. split; [|exact R]. lia.
      * assert (j = W) as -> by lia. rewrite Z.sub_diag. eexists. split; [|by apply (R_end ws)]. lia.
    + destruct (decide (j = Z.to_nat count)) as [->|Hne]; [by rewrite code_after_done in E|].
      rewrite code_after_more in E by lia. cbn in E. rewrite Hcount in E by done. injection E as <-.
      eexists. split; [|eapply (R_sub j ws); [done| |done]]; [lia|]. unfold more. rewrite (proj2 (Z.ltb_ge _ _)) by done. specialize (Hc Hpos). lia.
  - cbn in E. rewrite Hcount in E by lia. injection E as <-. eexists. split; [|eapply (R_sub j ws); [lia| |done]]; [lia|].
    unfold more. by rewrite (proj2 (Z.ltb_lt _ _)).
  - cbn in E. injection E as <-. eexists. split; [|by eapply (R_sem1 j ws)]. lia.
  - done.
  - eexists. split; [|eapply (R_mid j ws'); [|done|done]]; [lia|]. destruct Hw' as [_ _ _ H']. lia.
  - done.
  - eexists. split; [|by eapply (R_sem2 j ws')]. lia.
  - cbn in E. injection E as <-. eexists. split; [|eapply (R_head (S j) ws); [done| |done]].
    + unfold bound. lia.
    + intros Hc. unfold more in Hmo. rewrite (proj2 (Z.ltb_ge _ _)) in Hmo by done. lia.
  - done.
Qed.

(** A state in which nobody can go on. *)
Lemma stuck_reach r q n ws : reach r (q, n :: ws) -> stuck (q, n :: ws) ->
  at_ [] ws = (if (count <? 0)%Z then W else Z.to_nat count `min` W)%nat /\ (n = [] <-> count <= Z.of_nat W).
Proof.
  intros R Hst. assert (Hfirst : step 0 (q, n :: ws) = None) by apply Hst. unfold step in Hfirst. cbn [snd fst lookup list_lookup] in Hfirst.
  assert (Hwait : forall c, c = wait_code /\ 0 < sem1 q \/ c = [Release2] -> at_ c ws = 0%nat).
  { intros c Hc. destruct (at_ c ws) as [|x] eqn:Ex; [done|]. destruct (at_exists c ws ltac:(lia)) as [i Ei].
    specialize (Hst (S i)). rewrite step_waiter, Ei in Hst. destruct Hc as [[-> Hq]| ->]; cbn in Hst; [|done]. by rewrite (proj2 (Z.ltb_lt _ _) Hq) in Hst. }
  inversion R as [j ws' Hj Hc Hw|j ws' Hc Hj Hw|j ws' Hj Hmo Hw|j ws' Hj Hmo Hw|j ws' Hj Hmo Hw|j ws' Hj Hmo Hw|ws' Hc Hw]; subst; clear R.
  - destruct (Z.ltb_spec count 0) as [Hneg|Hpos]; [by rewrite code_after_all in Hfirst|].
    destruct (decide (j = Z.to_nat count)) as [->|Hne].
    + destruct Hw as [_ Hd _ _]. rewrite code_after_done by done. split; [lia|]. split; [lia|done].
    + by rewrite code_after_more in Hfirst by lia.
  - done.
  - done.
  - cbn [sem1] in Hwait. destruct Hw as [_ Hd Hm Hww]. rewrite (Hwait wait_code) in Hww by (left; split; [done|lia]).
    assert (j = W) as -> by lia. unfold more in Hmo. destruct (Z.ltb_spec count 0); [lia|]. split; [lia|]. split; [done|lia].
  - destruct Hw as [_ _ Hm _]. by rewrite (Hwait [Release2]) in Hm by (by right).
  - done.
  - destruct Hw as [_ Hd _ _]. rewrite (proj2 (Z.ltb_lt _ _)) by done. split; [done|]. split; [lia|done].
Qed.

Lemma reach_start : reach (6 * bound + 6) (start W count).
Proof.
  replace (6 * bound + 6)%nat with (6 * (bound - 0) + 6)%nat by lia.
  assert (Hs : waiters (replicate W wait_code) 0 0).
  { split; [by apply Forall_replicate; left|..]; rewrite ?at_replicate; repeat case_decide; done || lia. }
  assert (E : start W count = (mkQueue (Z.of_nat W - Z.of_nat 0) 0 0, code_after 0 :: replicate W wait_code)).
  { unfold start, notify_code, code_after. rewrite Z.sub_0_r, Nat.sub_0_r. done. }
  rewrite E. apply R_head; [lia|lia|done].
Qed.

Lemma schedule_reach sched r st st' : reach r st -> run sched st = Some st' -> exists r', (r' + length sched <= r)%nat /\ reach r' st'.
Proof.
  revert r st. induction sched as [|i sched IH]; intros r st R E; cbn in E.
  - injection E as <-. exists r. split; [cbn; lia|done].
  - destruct (step i st) as [st1|] eqn:E1; [|done]. destruct (step_reach r i st st1 R E1) as (r1 & Hr & R1).
    destruct (IH r1 st1 R1 E) as (r' & Hr' & R'). exists r'. split; [cbn; lia|done].
Qed.
Lemma reach_notifier r st : reach r st -> exists n ws, st.2 = n :: ws.
Proof. intros R. destruct R; eauto. Qed.
End Notify.

(** C40: With [W] tasks waiting, whatever the schedule: the threads come to rest
    after a bounded number of operations; then [sys_notify] of [count] tasks has
    made exactly [count] of them return, or all of them when [count] is negative
    or larger; it has returned itself unless [count] is larger than [W]. *)
Theorem notify_wakes W count sched st : Z.of_nat W < 2 ^ 63 -> run sched (start W count) = Some st ->
  (length sched <= 6 * (W `max` Z.to_nat count) + 6)%nat /\
  (stuck st -> at_ [] (tail st.2) = (if (count <? 0)%Z then W else Z.to_nat count `min` W)%nat /\
    (List.hd [Acquire2] st.2 = [] <-> count <= Z.of_nat W)).
Proof.
  intros HW E. destruct (schedule_reach W count HW sched _ _ _ (reach_start W count) E) as (r & Hr & R). split; [unfold bound in Hr; lia|].
  intros Hst. destruct (reach_notifier W count r st R) as (n & ws & Es). destruct st as [q ths]. cbn in Es. subst ths.
  by apply (stuck_reach W count r q n ws R).
Qed.

(** Two waiters, all notified. *)
Definition schedule : list nat := [0; 0; 0; 1; 1; 0; 0; 0; 0; 2; 2; 0; 0]%nat.
Lemma notify_wakes_witness : exists st, run schedule (start 2 (-1)) = Some st /\ at_ [] (tail st.2) = 2%nat.
Proof.
  exists (mkQueue 0 0 0, [[]; []; []]). assert (E : run schedule (start 2 (-1)) = Some (mkQueue 0 0 0, [[]; []; []])) by (vm_compute; reflexivity).
  split; [exact E|]. apply (notify_wakes 2 (-1) schedule _ ltac:(lia) E). intros [|[|[|i]]]; reflexivity.
Defined.

(** With nobody waiting, [sys_notify] of one task blocks, and the counter is
    negative: the next task that adds itself is not counted. *)
Lemma notify_nobody_blocks : exists st, run [0; 0]%nat (start 0 1) = Some st /\ stuck st /\ counter st.1 = -1.
Proof. eexists. split; [vm_compute; reflexivity|]. split; [|done]. by intros [|[|i]]. Qed.

(** [sys_destroy_queue] leaves the address of the queue in the variable: a
    second call frees it again. *)
Lemma destroyed_twice : (do! sys_destroy_queue 8 in sys_destroy_queue 8) (mk {[8 := 64]} {[64 := CondQueue_new]}) = Panic "double free".
Proof. reflexivity. Qed.

(** [sys_add_queue] with a timeout fails and has created the queue. *)
Lemma add_timeout_creates : exists s, sys_add_queue (fun _ => 64) 8 1 (mk {[8 := 0]} ∅) = Done (Return (-1)) s /\ cells s !! 8 = Some 64.
Proof. eexists. split; reflexivity. Qed.
End Condvar.
